(* ===== verification/_CoqProject ===== *)
-Q . S2P
Prelude.v
GoStrings.v
Net.v
NetSpec.v
GoPath.v
GoTime.v
Json.v
Model.v
Validation.v
ValidationSpec.v
SegmentSpec.v
ProfileSpec.v
Policy.v
PolicySpec.v
Firmware.v
FirmwareSpec.v
Slots.v
SlotsSpec.v
SlotsSafety.v
SlotsReach.v
SlotsTrust.v
SlotsRuns.v
Auth.v
AuthStore.v
AuthSpec.v
AuthLimit.v
AuthSecrets.v
AuthRuns.v
Samples.v
Ipc.v
Safety.v
Engine.v
EngineSpec.v
EngineInv.v
EngineReach.v
EngineSync.v
Scenarios.v
Store.v
StoreSpec.v
EngineStore.v
StoreRuns.v
Nft.v
Nftables.v
NftablesSpec.v
TokenText.v
NftablesText.v
Wireguard.v
WireguardSpec.v
Review.v
ReviewTopology.v
ReviewSpec.v
Helper.v
HelperSpec.v
HelperSync.v
System.v
SystemRuns.v
Redaction.v
Throttle.v
Http.v
HttpServer.v
HttpServerSpec.v
Router.v
HttpWire.v
Generators.v
GeneratorsSpec.v
ServiceRuns.v
Api.v
ApiAuth.v
ApiConfig.v
Provision.v
ApiRoutes.v
ApiSpec.v
ApiSafety.v
ProvisionSpec.v
ChangeSafety.v
ApiRuns.v
