(* ===== verification/Prelude.v ===== *)
(** * Minimal Router OS: a verification library

    Minimal Router OS ([src/rust]) turns a declared [SystemConfig] into a running
    router.  The unprivileged daemon routerd validates a candidate, and its
    transaction engine sends it to the root helper router-applyd, which checks
    it again, generates and compares the artifacts, activates, verifies and
    journals.  Changes that could cut the administrator off stay provisional
    until they are confirmed; a timer rolls them back.  Next to that path stand
    the store the configuration lives in, the sessions of the administrator, the
    signed releases in their A/B slots, and the firewall the configuration
    becomes.  This library models these parts, from the bytes of an address to
    the two daemons together, and proves what makes them safe to use.

    ** Files

    Data and libraries the code writes itself ([mr-core], [mr-config]):
    - [Prelude]: results, notations, the hint database [mr], tactics.
    - [GoStrings]: UTF-8 strings, trimming, case, splitting, decimal and hex
      ([goish/strings.rs] and the parts of the Rust library the code uses).
    - [Net], [NetSpec]: [goish/net.rs], [network/address_identity.rs] and
      [networks_overlap]; the specification interprets a parsed network as an
      interval of addresses.
    - [GoPath]: [goish/filepath.rs].  [GoTime]: [goish/time.rs], instants with a
      monotonic reading, [parse_duration] with its [u64] and [f64] arithmetic,
      [parse_clock].  [Json]: [goish/json.rs], nil-aware lists, the compact
      encoder, equality by encoding.
    - [Model]: [config/model.rs], a record per struct with default and encoder.
    - [Validation], [ValidationSpec], [SegmentSpec], [ProfileSpec]:
      [config/validation.rs] and [config/profiles.rs]; a validator returns the
      list of its errors, the loops thread their sets of seen values.
    - [Policy], [PolicySpec]: [config/policy.rs].
    - [Samples]: a configuration that uses every section, the theorems applied
      to it, and the corner cases validation lets through.

    Releases ([mr-core/src/firmware]):
    - [Firmware], [FirmwareSpec]: the signed manifest, its verification, the
      order of versions.
    - [Slots]: the A/B slot manager over a disk whose every change may fail, be
      done in part (a directory is removed entry by entry), or be lost by a power
      cut as long as it is not synced; [SlotsSpec], [SlotsSafety], [SlotsReach],
      [SlotsTrust]: a crash logic for its operations, their
      guarantees, and the invariants of any run; [SlotsRuns]: runs.

    Credentials ([auth.rs], [auth_persistent.rs]):
    - [Auth], [AuthStore]: hashes, one-time codes, sessions and limits, in memory
      and over the tables; [AuthSpec], [AuthLimit], [AuthSecrets]: what they
      guarantee; [AuthRuns]: runs.

    The store ([store.rs], [recovery_status.rs], [offline.rs]):
    - [Store]: the tables and one transaction per operation; [StoreSpec];
      [EngineStore]: the class [StoreContract], what the engine needs of a store,
      and the store that meets it; [StoreRuns]: runs.

    The firewall ([services/nftables.rs], [device_profiles.rs], [review.rs]):
    - [Nft]: the part of the rule language the generator writes, with its text
      and its meaning on packets; [Nftables]: the generator.
    - [NftablesSpec]: what the generated rules let through; [TokenText],
      [NftablesText]: why the text of the rules means what the rules mean.
    - [Review]: what the operator is told about the firewall; [ReviewTopology],
      [ReviewSpec]: the zones and the explanation against the generated rules.
    - [Wireguard]: [services/wireguard.rs], the tunnels' texts, keys and the QR
      bitmap, over the class of the crates it calls; [WireguardSpec]: a reference
      reader of the format, and what it reads.
    - [Generators]: [services/generators.rs], the files of dnsmasq, pppd,
      hostapd, Squid, inadyn and cloudflared, the shaping plan, the blocklist;
      [GeneratorsSpec]: readers of dnsmasq's options and of pppd's words, and
      what they read; [ServiceRuns]: packets, explanations and files of the
      sample router.

    The two daemons ([mr-services/src/apply], [mr-applyd]):
    - [Ipc]: [ipc.rs], requests, responses, the response check.  [Safety]:
      [safety.rs], transition safety and the change preview.
    - [Engine]: [engine.rs].  A handler is a function on a [Sys]: the engine
      state, the heap of shared transactions and the world.  [Generators] and
      [Env] are the interfaces to the artifact generators and to the helper
      client, store, clocks and lease file.  [step] and [reachable] are the
      transition system of its handlers and timers.
    - [EngineSpec]: weakest preconditions, the outcomes of a transaction, the
      handshake gate.  [EngineInv]: specifications of confirmation, timed
      rollback, reconciliation and the QoS bypass.  [EngineReach]: the invariant
      of reachable states, revisions, confirmation, the timer that settles a
      pending change.  [EngineSync]: the class [HelperContract] and the agreement
      of runtime and canonical configuration.  [Scenarios]: a scripted
      environment that meets the contract, and runs.
    - [Helper]: [applyd/mod.rs], [state.rs] and the decisions of [runtime.rs].
      The durable files are values that a write may leave old or new when it
      fails; [Host] is the interface to the machine.  [HelperSpec]: answers,
      idempotence, blocking, last-good, the trust boundary.  [HelperSync]: a
      watched machine.  Its commands may do and answer anything; a record beside
      it says which configuration the last activation or restoration that ran to
      its end was of, and whether a write of the helper failed after its rename.
    - [System]: the engine's calls served by the helper's [process_request] over
      a socket that loses requests and answers; the helper's contract is a
      theorem there.  [SystemRuns]: a scripted machine, and runs of both, one
      where a refused reconciliation ends the block of an unresolved transaction.

    The management API ([mr-config/src/httpd], [mr-api/src/api]):
    - [Http]: messages and body framing.  [HttpServer]: [server.rs], from the
      bytes of a connection to requests and from responses to bytes; the handler
      is an argument.  [HttpServerSpec]: framing and the loop.  [HttpWire]: a
      reference client, and what it reads of a response.
    - [Router]: [router.rs], and what a decoded path can reach.
    - [Redaction], [Throttle]: [redaction.rs] and the throttle of [audit.rs].
    - [Api]: the gate every request passes, over the class [ApiEnv] (the session
      and limiter traits, the store); [ApiAuth], [ApiConfig]: handlers over the
      engine; [Provision]: [api/wireguard.rs], the peers of the tunnel;
      [ApiRoutes]: the table of endpoints.  A handler is a function on
      an [Api]: the server's own state and the engine's [Sys].
    - [ApiSpec]: what reaches a handler.  [ApiSafety]: one-time codes,
      confirmation paths, anonymous and untrusted clients.
      [ProvisionSpec]: addresses and keys handed to a new peer.
      [ChangeSafety]: the lockout policy, for submitted configurations and for
      the changes of single peers.  [ApiRuns]: requests from their bytes to the
      engine, and runs.

    ** What is shown

    - Engine: [transaction_outcomes] and [confirmation_outcomes] say what
      every answer means; [reachable_invariant] and
      [pending_change_settles] hold of every reachable state;
      [runtime_is_canonical] against the helper's contract, [canonical_is_durable]
      against the store's.
    - Helper: [request_is_executed_once], [unresolved_transaction_blocks],
      [last_good_changes_when_entitled], [success_is_durable].
    - Both: [router_runs_canonical] and [reconcile_repairs] are of engine and
      helper over the socket, on a machine that may do anything.
    - Releases: [running_release_was_verified], [update_root_always_readable],
      [activation_is_atomic], [recovery_completes], [floor_never_lowered],
      [release_accepted_iff], [versions_compare_by_key],
      [pending_without_slot_blocks].
    - Firewall: from outside only the tunnel answers, forwards start at home,
      segments need an allowance, denials bind established flows, schedules are
      enforced, the tunnel-only mode closes the LAN, the proxy stays outside
      ([NftablesSpec]); [no_rule_injection]; [explanation_agrees].
    - Other files: [accepted_tunnel_reads_back], [dnsmasq_reads_back],
      [pppoe_reads_back] and [blocklist_blocks_names] say that the program a
      text is for reads exactly what was configured, and nothing a field smuggles
      in; the tunnel needs plain keys and endpoints for it, which validation does
      not ensure.
    - Peers: [allocation_is_exact] and [provisioned_peer_matches]: the address
      handed out is the next free one, and the device's file and the router's
      fit each other.
    - Store: [store_stays_bounded], [rejections_never_flush_the_log],
      [initial_setup_is_atomic], [snapshot_reads_back].
    - Credentials: [validated_session_was_granted], [revoked_session_refused],
      [login_attempts_bounded], [password_hash_verifies].
    - Configurations: what validation, policy and scenario checks guarantee of
      addresses, segments, tunnel, forwards, profiles and trusted clients
      ([ValidationSpec], [SegmentSpec], [ProfileSpec], [PolicySpec]).
    - API: [api_is_guarded], [untrusted_connection_is_inert] and
      [anonymous_changes_nothing] say who can change what;
      [accepted_change_keeps_caller] and [confirmation_proves_path] that an
      administrator is not locked out; [totp_code_redeemed_once],
      [rejections_audited_fairly], [public_view_hides_and_keeps].
    - HTTP: [next_request_follows_body], [response_reads_back],
      [connection_is_served].

    ** Bounds and fuel

    Integers are [Z] with the width written out where the code wraps, saturates
    or checks ([u64] sums of durations, [i64] handshake times, revisions).  The
    loop of [parse_duration] runs on fuel equal to the input length: every item
    consumes a byte, and [GoTime] shows that more fuel changes nothing.  A
    connection and its reads run on the length of the input, of which every step
    consumes some ([connection_is_served]).  The other recursions are structural; the engine tries the helper at most twice
    and rolls back at most five times, as the code does.

    ** What is not modelled

    Threads and locks (the engine's and the helper's mutexes make a handler one
    transition), sockets, the JSON decoder, SQLite (an operation of the store is
    a function on tables), the commands on the machine, hashing, signatures, the
    Unicode tables and the Base64 engine (classes, with no assumption beyond
    those a theorem names), the calendar of chrono, the curve,
    the QR and PNG encoders (a class), TLS and the acceptor, the handlers of the API not
    named above (they enter as an argument), [validate_changes_from], collectors
    and tools.  Their code is system calls, texts for other programs, or the
    reading of their output, with little state of its own. *)

From Stdlib Require Import ZArith Ascii String Lia.
From stdpp Require Import base list strings gmap.

Global Set Default Goal Selector "!".

(** ** Results

    Rust's [Result<T, E>]. *)
Inductive result (T E : Type) : Type :=
| Ok (t : T)
| Err (e : E).
Arguments Ok {T E} t.
Arguments Err {T E} e.

Definition is_ok {T E} (r : result T E) : bool :=
  match r with Ok _ => true | Err _ => false end.

(** [r.map_err(f)] *)
Definition map_err {T E F} (f : E -> F) (r : result T E) : result T F :=
  match r with Ok t => Ok t | Err e => Err (f e) end.

Declare Scope mr_scope.
Delimit Scope mr_scope with mr.
Open Scope mr_scope.

(** [let? x := r in k]: the [?] operator. *)
Notation "'let?' x ':=' r 'in' k" :=
  (match r with Ok x => k | Err e => Err e end)
  (at level 10, x pattern, r at level 100, k at level 200) : mr_scope.

(** [let! x := o in k]: [let Some(x) = o else { return None }]. *)
Notation "'let!' x ':=' o 'in' k" :=
  (match o with Some x => k | None => None end)
  (at level 10, x pattern, o at level 100, k at level 200) : mr_scope.

(** Equality of strings as the code writes it: [a == b] and [a != b]. *)
Notation "a =s b" := (String.eqb a b) (at level 70, no associativity) : mr_scope.
Notation "a <>s b" := (negb (String.eqb a b)) (at level 70, no associativity) : mr_scope.

(** ** Automation *)
Create HintDb mr discriminated.
Create Rewrite HintDb mr.

(** Turn boolean tests of the code into propositions. *)
Ltac to_prop :=
  repeat match goal with
  | H : _ && _ = true |- _ => apply andb_prop in H; destruct H
  | H : _ || _ = false |- _ => apply orb_false_elim in H; destruct H
  | H : negb _ = true |- _ => apply negb_true_iff in H
  | H : negb _ = false |- _ => apply negb_false_iff in H
  | H : String.eqb _ _ = true |- _ => apply String.eqb_eq in H
  | H : String.eqb _ _ = false |- _ => apply String.eqb_neq in H
  | H : Z.eqb _ _ = true |- _ => apply Z.eqb_eq in H
  | H : Z.eqb _ _ = false |- _ => apply Z.eqb_neq in H
  | H : Z.ltb _ _ = true |- _ => apply Z.ltb_lt in H
  | H : Z.ltb _ _ = false |- _ => apply Z.ltb_ge in H
  | H : Z.leb _ _ = true |- _ => apply Z.leb_le in H
  | H : Z.leb _ _ = false |- _ => apply Z.leb_gt in H
  | H : Nat.eqb _ _ = true |- _ => apply Nat.eqb_eq in H
  | H : Nat.eqb _ _ = false |- _ => apply Nat.eqb_neq in H
  | H : Nat.leb _ _ = true |- _ => apply Nat.leb_le in H
  | H : Nat.leb _ _ = false |- _ => apply Nat.leb_gt in H
  | H : Nat.ltb _ _ = true |- _ => apply Nat.ltb_lt in H
  | H : Nat.ltb _ _ = false |- _ => apply Nat.ltb_ge in H
  | H : bool_decide _ = true |- _ => apply bool_decide_eq_true in H
  | H : bool_decide _ = false |- _ => apply bool_decide_eq_false in H
  end.

(** Case analysis on the innermost test of a hypothesis or of the goal. *)
Ltac cases_in H :=
  repeat (match type of H with
          | context [match ?x with _ => _ end] =>
              lazymatch x with
              | context [match _ with _ => _ end] => fail
              | _ => let E := fresh "E" in destruct x eqn:E
              end
          end; try discriminate H).

Ltac cases_goal :=
  repeat match goal with
  | |- context [match ?x with _ => _ end] =>
      lazymatch x with
      | context [match _ with _ => _ end] => fail
      | _ => let E := fresh "E" in destruct x eqn:E
      end
  end.

(** [lia] with division and remainder by constants. *)
Ltac dlia := Z.div_mod_to_equations; lia.
