(* ===== verification/GoStrings.v ===== *)
(** * Strings

    Rust's [str] is a UTF-8 byte string: a [string], one [ascii] per byte.
    This file holds the byte and character operations of the language the code
    uses ([split], [trim], [strip_prefix], [parse::<i64>], [Display] of the
    integers, ...) and the helpers of [mr-core/src/goish/strings.rs].  The
    Unicode property tables of the Rust and regex libraries are the class
    [Unicode]; nothing is assumed of them. *)

From Stdlib Require Import ZArith Ascii String Lia Bool.
From stdpp Require Import base list strings gmap.
From S2P Require Import Prelude.

Local Open Scope Z_scope.

(** ** Bytes *)
Abbreviation bytes := (list ascii).

Definition bytes_of (s : string) : bytes := list_ascii_of_string s.
Definition str_of (b : bytes) : string := string_of_list_ascii b.

(** The value of a byte, 0..255, and back. *)
Definition bv (a : ascii) : Z := Z.of_N (N_of_ascii a).
Definition byte_of (v : Z) : ascii := ascii_of_N (Z.to_N v).

(** [s.len()]: bytes. *)
Definition str_len (s : string) : Z := Z.of_nat (String.length s).

Definition is_ascii_digit (a : ascii) : bool := (48 <=? bv a) && (bv a <=? 57).
Definition is_ascii_lower (a : ascii) : bool := (97 <=? bv a) && (bv a <=? 122).
Definition is_ascii_upper (a : ascii) : bool := (65 <=? bv a) && (bv a <=? 90).
Definition is_ascii_alphanumeric (a : ascii) : bool :=
  is_ascii_digit a || is_ascii_lower a || is_ascii_upper a.

(** ** Characters: decoding and encoding UTF-8 *)
Definition cont (a : ascii) : Z := Z.land (bv a) 63.

Fixpoint chars_of (l : bytes) : list Z :=
  match l with
  | [] => []
  | a :: t =>
      if bv a <? 128 then bv a :: chars_of t
      else if bv a <? 224 then
        match t with
        | b :: t' => (Z.land (bv a) 31 * 64 + cont b) :: chars_of t'
        | [] => [bv a]
        end
      else if bv a <? 240 then
        match t with
        | b :: c :: t' => (Z.land (bv a) 15 * 4096 + cont b * 64 + cont c) :: chars_of t'
        | _ => [bv a]
        end
      else
        match t with
        | b :: c :: d :: t' =>
            (Z.land (bv a) 7 * 262144 + cont b * 4096 + cont c * 64 + cont d) :: chars_of t'
        | _ => [bv a]
        end
  end.

Definition encode_char (c : Z) : bytes :=
  if c <? 128 then [byte_of c]
  else if c <? 2048 then [byte_of (192 + c / 64); byte_of (128 + c mod 64)]
  else if c <? 65536 then
    [byte_of (224 + c / 4096); byte_of (128 + c / 64 mod 64); byte_of (128 + c mod 64)]
  else
    [byte_of (240 + c / 262144); byte_of (128 + c / 4096 mod 64);
     byte_of (128 + c / 64 mod 64); byte_of (128 + c mod 64)].

(** [s.chars()] and [chars.collect::<String>()]. *)
Definition chars (s : string) : list Z := chars_of (bytes_of s).
Definition of_chars (cs : list Z) : string := str_of (concat (map encode_char cs)).

(** [char::is_whitespace]: the Unicode [White_Space] property. *)
Definition char_is_whitespace (c : Z) : bool :=
  ((9 <=? c) && (c <=? 13)) || (c =? 32) || (c =? 133) || (c =? 160) || (c =? 5760)
  || ((8192 <=? c) && (c <=? 8202)) || (c =? 8232) || (c =? 8233) || (c =? 8239)
  || (c =? 8287) || (c =? 12288).

(** [char::is_control]: the Unicode category [Cc]. *)
Definition char_is_control (c : Z) : bool :=
  ((0 <=? c) && (c <=? 31)) || ((127 <=? c) && (c <=? 159)).

(** [s.split_whitespace()] on characters; [word] is the current piece, reversed *)
Fixpoint split_whitespace_chars (word cs : list Z) : list (list Z) :=
  let flush rest := match word with [] => rest | _ => rev word :: rest end in
  match cs with
  | [] => flush []
  | c :: t => if char_is_whitespace c then flush (split_whitespace_chars [] t) else split_whitespace_chars (c :: word) t
  end.
Definition split_whitespace (s : string) : list string := map of_chars (split_whitespace_chars [] (chars s)).

Fixpoint drop_while {A} (p : A -> bool) (l : list A) : list A :=
  match l with
  | [] => []
  | x :: t => if p x then drop_while p t else l
  end.

Fixpoint take_while {A} (p : A -> bool) (l : list A) : list A :=
  match l with
  | [] => []
  | x :: t => if p x then x :: take_while p t else []
  end.

(** [s.trim()] *)
Definition trim (s : string) : string :=
  of_chars (rev (drop_while char_is_whitespace (rev (drop_while char_is_whitespace (chars s))))).

(** The Unicode tables the code reaches through the Rust and regex libraries:
    the first character of [char::to_lowercase] and [char::to_uppercase], and
    membership in [[\pL\pN]]. *)
Class Unicode := {
  unicode_lower : Z -> Z;
  unicode_upper : Z -> Z;
  unicode_letter_number : Z -> bool;
}.

(** The tables restricted to ASCII, to evaluate the definitions. *)
Definition ascii_tables : Unicode := {|
  unicode_lower c := if (65 <=? c) && (c <=? 90) then c + 32 else c;
  unicode_upper c := if (97 <=? c) && (c <=? 122) then c - 32 else c;
  unicode_letter_number c :=
    ((48 <=? c) && (c <=? 57)) || ((65 <=? c) && (c <=? 90)) || ((97 <=? c) && (c <=? 122));
|}.

Definition to_ascii_lower (a : ascii) : ascii :=
  if is_ascii_upper a then byte_of (bv a + 32) else a.
Definition to_ascii_upper (a : ascii) : ascii :=
  if is_ascii_lower a then byte_of (bv a - 32) else a.

Definition is_ascii_str (s : string) : bool := forallb (fun a => bv a <? 128) (bytes_of s).

(** [goish::strings::to_lower] *)
Definition to_lower `{Unicode} (value : string) : string :=
  if is_ascii_str value then str_of (map to_ascii_lower (bytes_of value))
  else of_chars (map unicode_lower (chars value)).

(** [goish::strings::to_upper] *)
Definition to_upper `{Unicode} (value : string) : string :=
  if is_ascii_str value then str_of (map to_ascii_upper (bytes_of value))
  else of_chars (map unicode_upper (chars value)).

(** [goish::strings::has_control] *)
Definition has_control (value : string) : bool := existsb char_is_control (chars value).

(** [goish::strings::trim_space] *)
Definition trim_space (value : string) : string := trim value.

(** [goish::strings::rune_count] *)
Definition rune_count (value : string) : Z := Z.of_nat (List.length (chars value)).

(** ** Splitting and searching *)

(** [s.split(c)]: never empty. *)
Fixpoint split_bytes (sep : ascii) (l : bytes) : list bytes :=
  match l with
  | [] => [[]]
  | a :: t =>
      if Ascii.eqb a sep then [] :: split_bytes sep t
      else match split_bytes sep t with
           | [] => [[a]]
           | w :: ws => (a :: w) :: ws
           end
  end.
Definition split (sep : ascii) (s : string) : list string :=
  map str_of (split_bytes sep (bytes_of s)).

(** [s.split_once(c)] *)
Fixpoint split_once_bytes (sep : ascii) (l : bytes) : option (bytes * bytes) :=
  match l with
  | [] => None
  | a :: t =>
      if Ascii.eqb a sep then Some ([], t)
      else match split_once_bytes sep t with
           | Some (x, y) => Some (a :: x, y)
           | None => None
           end
  end.

(** [s.contains(c)] for an ASCII character *)
Definition contains_char (c : ascii) (s : string) : bool :=
  existsb (Ascii.eqb c) (bytes_of s).

Fixpoint bytes_prefix (p l : bytes) : bool :=
  match p, l with
  | [], _ => true
  | a :: p', b :: l' => Ascii.eqb a b && bytes_prefix p' l'
  | _ :: _, [] => false
  end.

(** [s.contains(p)] for a string *)
Fixpoint bytes_contains (p l : bytes) : bool :=
  bytes_prefix p l || match l with [] => false | _ :: t => bytes_contains p t end.
Definition contains_str (p s : string) : bool := bytes_contains (bytes_of p) (bytes_of s).

(** [s.starts_with(p)], [s.ends_with(p)] *)
Definition starts_with (p s : string) : bool := bytes_prefix (bytes_of p) (bytes_of s).
Definition ends_with (p s : string) : bool := bytes_prefix (rev (bytes_of p)) (rev (bytes_of s)).

(** [s.strip_prefix(p)] *)
Fixpoint strip_prefix_bytes (p l : bytes) : option bytes :=
  match p, l with
  | [], _ => Some l
  | a :: p', b :: l' => if Ascii.eqb a b then strip_prefix_bytes p' l' else None
  | _ :: _, [] => None
  end.
Definition strip_prefix (p s : string) : option string :=
  str_of <$> strip_prefix_bytes (bytes_of p) (bytes_of s).

(** [s.strip_suffix(p).unwrap_or(s)] *)
Definition trim_suffix (p s : string) : string :=
  match strip_prefix_bytes (rev (bytes_of p)) (rev (bytes_of s)) with
  | Some l => str_of (rev l)
  | None => s
  end.

(** [parts.join(sep)] *)
Fixpoint join (sep : string) (l : list string) : string :=
  match l with
  | [] => EmptyString
  | [x] => x
  | x :: t => x +:+ sep +:+ join sep t
  end.

(** ** Integers as text *)
Definition digit_char (d : Z) : ascii := byte_of (48 + d).
Definition digit_val (a : ascii) : Z := bv a - 48.

Fixpoint show_digits (fuel : nat) (n : Z) : bytes :=
  match fuel with
  | O => []
  | S fuel' =>
      if n <? 10 then [digit_char n]
      else show_digits fuel' (n / 10) ++ [digit_char (n mod 10)]
  end.

Definition show_nonneg (n : Z) : bytes := show_digits (S (Z.to_nat (Z.log2 n))) n.

(** [Display] of the integer types *)
Definition show_Z (n : Z) : string :=
  str_of (if n <? 0 then "-"%char :: show_nonneg (- n) else show_nonneg n).

(** The value of a string of decimal digits *)
Definition digits_val (l : bytes) : Z := fold_left (fun n a => n * 10 + digit_val a) l 0.

Definition i64_max : Z := 2 ^ 63 - 1.
Definition i64_min : Z := - 2 ^ 63.
Definition u64_max : Z := 2 ^ 64 - 1.
Definition u32_mod : Z := 2 ^ 32.

(** [text.parse::<i64>().ok()] *)
Definition parse_i64 (text : string) : option Z :=
  let '(neg, digits) :=
    match bytes_of text with
    | "-"%char :: t => (true, t)
    | "+"%char :: t => (false, t)
    | l => (false, l)
    end in
  if match digits with [] => true | _ => negb (forallb is_ascii_digit digits) end then None
  else let v := if neg then - digits_val digits else digits_val digits in
       if (i64_min <=? v) && (v <=? i64_max) then Some v else None.

(** [{:02x}] *)
Definition hex_digit (d : Z) : ascii := if d <? 10 then byte_of (48 + d) else byte_of (87 + d).
Definition show_hex2 (b : Z) : bytes := [hex_digit (b / 16); hex_digit (b mod 16)].

(** [(c as char).to_digit(16)] *)
Definition hex_val (a : ascii) : option Z :=
  let v := bv a in
  if is_ascii_digit a then Some (v - 48)
  else if (97 <=? v) && (v <=? 102) then Some (v - 87)
  else if (65 <=? v) && (v <=? 70) then Some (v - 55)
  else None.

(** ** Lemmas: bytes *)
Lemma str_of_bytes_of s : str_of (bytes_of s) = s.
Proof. apply string_of_list_ascii_of_string. Qed.

Lemma bytes_of_str_of b : bytes_of (str_of b) = b.
Proof. apply list_ascii_of_string_of_list_ascii. Qed.

Lemma str_of_inj b1 b2 : str_of b1 = str_of b2 -> b1 = b2.
Proof. intros H. rewrite <- (bytes_of_str_of b1), H. apply bytes_of_str_of. Qed.

Lemma bytes_of_inj s1 s2 : bytes_of s1 = bytes_of s2 -> s1 = s2.
Proof. intros H. rewrite <- (str_of_bytes_of s1), H. apply str_of_bytes_of. Qed.

Lemma bytes_of_app s1 s2 : bytes_of (s1 +:+ s2) = bytes_of s1 ++ bytes_of s2.
Proof.
  induction s1 as [|a s1 IH]; [done|].
  change (a :: bytes_of (s1 +:+ s2) = a :: (bytes_of s1 ++ bytes_of s2)). by rewrite IH.
Qed.

Lemma str_of_app b1 b2 : str_of (b1 ++ b2) = str_of b1 +:+ str_of b2.
Proof. apply bytes_of_inj. by rewrite bytes_of_app, !bytes_of_str_of. Qed.

Lemma length_bytes_of s : List.length (bytes_of s) = String.length s.
Proof. induction s as [|a s IH]; [done|]. cbn. by rewrite <- IH. Qed.

Lemma bv_range a : 0 <= bv a < 256.
Proof. unfold bv. pose proof (N_ascii_bounded a). lia. Qed.

Lemma bv_byte_of v : 0 <= v < 256 -> bv (byte_of v) = v.
Proof. intros H. unfold bv, byte_of. rewrite N_ascii_embedding; lia. Qed.

Lemma byte_of_bv a : byte_of (bv a) = a.
Proof. unfold bv, byte_of. rewrite N2Z.id. apply ascii_N_embedding. Qed.

Lemma bv_inj a b : bv a = bv b -> a = b.
Proof. intros H. by rewrite <- (byte_of_bv a), H, byte_of_bv. Qed.

#[export] Hint Rewrite str_of_bytes_of bytes_of_str_of bytes_of_app str_of_app : mr.

(** Equality of bytes, decided on values. *)
Lemma ascii_eqb_bv a b : Ascii.eqb a b = (bv a =? bv b).
Proof.
  destruct (Ascii.eqb_spec a b) as [->|Hne]; [by rewrite Z.eqb_refl|].
  symmetry. apply Z.eqb_neq. intros H. by apply Hne, bv_inj.
Qed.

(** ** Lemmas: characters *)
Lemma land_mask_add hi lo k :
  0 <= lo < 2 ^ k -> 0 <= k -> Z.land (hi * 2 ^ k + lo) (Z.ones k) = lo.
Proof.
  intros Hlo Hk. rewrite Z.land_ones by lia.
  rewrite Z.add_comm, Z.mod_add by lia. by apply Z.mod_small.
Qed.

(** Decoding reads back what encoding wrote, for every scalar value. *)
Lemma chars_of_encode_char c l :
  0 <= c < 1114112 -> chars_of (encode_char c ++ l) = c :: chars_of l.
Proof.
  intros Hc. unfold encode_char, cont.
  assert (Hm : forall x, 0 <= x mod 64 < 64) by (intros; apply Z.mod_pos_bound; lia).
  assert (Hl : forall hi x, 0 <= x < 64 -> Z.land (hi * 2 ^ 6 + x) 63 = x)
    by (intros; apply (land_mask_add _ _ 6); lia).
  destruct (Z.ltb_spec c 128).
  { cbn [app chars_of]. rewrite bv_byte_of by lia. by destruct (Z.ltb_spec c 128); [|lia]. }
  destruct (Z.ltb_spec c 2048).
  { assert (0 <= c / 64 < 32) by (split; [apply Z.div_pos|apply Z.div_lt_upper_bound]; lia).
    cbn [app chars_of]. unfold cont. rewrite !bv_byte_of by (specialize (Hm c); lia).
    destruct (Z.ltb_spec (192 + c / 64) 128); [lia|].
    destruct (Z.ltb_spec (192 + c / 64) 224); [|lia]. f_equal.
    replace (Z.land (192 + c / 64) 31) with (c / 64)
      by (symmetry; apply (land_mask_add 6 _ 5); lia).
    replace (128 + c mod 64) with (2 * 2 ^ 6 + c mod 64) by lia.
    rewrite Hl by apply Hm. clear. dlia. }
  destruct (Z.ltb_spec c 65536).
  { assert (0 <= c / 4096 < 16) by (split; [apply Z.div_pos|apply Z.div_lt_upper_bound]; lia).
    cbn [app chars_of]. unfold cont.
    rewrite !bv_byte_of by (pose proof (Hm c); pose proof (Hm (c / 64)); lia).
    destruct (Z.ltb_spec (224 + c / 4096) 128); [lia|].
    destruct (Z.ltb_spec (224 + c / 4096) 224); [lia|].
    destruct (Z.ltb_spec (224 + c / 4096) 240); [|lia]. f_equal.
    replace (Z.land (224 + c / 4096) 15) with (c / 4096)
      by (symmetry; apply (land_mask_add 14 _ 4); lia).
    replace (128 + c / 64 mod 64) with (2 * 2 ^ 6 + c / 64 mod 64) by lia.
    replace (128 + c mod 64) with (2 * 2 ^ 6 + c mod 64) by lia.
    rewrite !Hl by apply Hm.
    clear. dlia. }
  assert (0 <= c / 262144 < 8) by (split; [apply Z.div_pos|apply Z.div_lt_upper_bound]; lia).
  cbn [app chars_of]. unfold cont.
  rewrite !bv_byte_of
    by (pose proof (Hm c); pose proof (Hm (c / 64)); pose proof (Hm (c / 4096)); lia).
  destruct (Z.ltb_spec (240 + c / 262144) 128); [lia|].
  destruct (Z.ltb_spec (240 + c / 262144) 224); [lia|].
  destruct (Z.ltb_spec (240 + c / 262144) 240); [lia|]. f_equal.
  replace (Z.land (240 + c / 262144) 7) with (c / 262144)
    by (symmetry; apply (land_mask_add 30 _ 3); lia).
  replace (128 + c / 4096 mod 64) with (2 * 2 ^ 6 + c / 4096 mod 64) by lia.
  replace (128 + c / 64 mod 64) with (2 * 2 ^ 6 + c / 64 mod 64) by lia.
  replace (128 + c mod 64) with (2 * 2 ^ 6 + c mod 64) by lia.
  rewrite !Hl by apply Hm.
  clear. dlia.
Qed.

(** ** Lemmas: splitting *)
Lemma split_bytes_nonempty sep l : split_bytes sep l <> [].
Proof. destruct l as [|a t]; cbn; [done|]. destruct (Ascii.eqb a sep); [done|]. by destruct (split_bytes sep t). Qed.

Lemma split_bytes_app sep x y :
  forallb (fun a => negb (Ascii.eqb a sep)) x = true ->
  split_bytes sep (x ++ sep :: y) = x :: split_bytes sep y.
Proof.
  induction x as [|a x IH]; intros Hx; cbn in *; [by rewrite Ascii.eqb_refl|].
  to_prop. by rewrite H, IH.
Qed.

Lemma split_bytes_single sep x :
  forallb (fun a => negb (Ascii.eqb a sep)) x = true -> split_bytes sep x = [x].
Proof.
  induction x as [|a x IH]; intros Hx; cbn in *; [done|]. to_prop. by rewrite H, IH.
Qed.

Fixpoint intercalate (sep : ascii) (l : list bytes) : bytes :=
  match l with
  | [] => []
  | [x] => x
  | x :: t => x ++ sep :: intercalate sep t
  end.

(** [split] loses nothing. *)
Lemma intercalate_split sep l : intercalate sep (split_bytes sep l) = l.
Proof.
  induction l as [|a t IH]; [done|]. cbn.
  destruct (Ascii.eqb_spec a sep) as [->|Hne].
  - pose proof (split_bytes_nonempty sep t). destruct (split_bytes sep t); [done|]. cbn.
    by rewrite <- IH.
  - destruct (split_bytes sep t) as [|w [|w' ws]] eqn:E; cbn in *; by rewrite <- IH.
Qed.

Lemma split_bytes_no_sep sep l w :
  w ∈ split_bytes sep l -> forallb (fun a => negb (Ascii.eqb a sep)) w = true.
Proof.
  revert w. induction l as [|a t IH]; cbn; intros w Hw; [by apply list_elem_of_singleton in Hw as ->|].
  destruct (Ascii.eqb a sep) eqn:E.
  - apply elem_of_cons in Hw as [->|Hw]; [done|by apply IH].
  - destruct (split_bytes sep t) as [|w' ws] eqn:E'.
    + apply list_elem_of_singleton in Hw as ->. cbn. by rewrite E.
    + apply elem_of_cons in Hw as [->|Hw]; cbn.
      * rewrite E. cbn. apply IH. left.
      * apply IH. by right.
Qed.

Lemma split_once_app sep x y :
  forallb (fun a => negb (Ascii.eqb a sep)) x = true ->
  split_once_bytes sep (x ++ sep :: y) = Some (x, y).
Proof.
  induction x as [|a x IH]; intros Hx; cbn in *; [by rewrite Ascii.eqb_refl|].
  to_prop. by rewrite H, IH.
Qed.

Lemma split_once_Some sep l x y :
  split_once_bytes sep l = Some (x, y) ->
  l = x ++ sep :: y /\ forallb (fun a => negb (Ascii.eqb a sep)) x = true.
Proof.
  revert x. induction l as [|a t IH]; cbn; intros x H; [done|].
  destruct (Ascii.eqb_spec a sep) as [->|Hne].
  - by simplify_eq.
  - destruct (split_once_bytes sep t) as [[x' y']|]; simplify_eq.
    destruct (IH x' eq_refl) as [-> Hx]. split; [done|]. cbn.
    destruct (Ascii.eqb_spec a sep); [done|]. exact Hx.
Qed.

(** ** Lemmas: decimal *)
Lemma bv_digit_char d : 0 <= d < 10 -> bv (digit_char d) = 48 + d.
Proof. intros. unfold digit_char. apply bv_byte_of. lia. Qed.

Lemma digits_val_snoc l a : digits_val (l ++ [a]) = digits_val l * 10 + digit_val a.
Proof. unfold digits_val. by rewrite fold_left_app. Qed.

Lemma show_digits_spec fuel n :
  0 <= n < 2 ^ Z.of_nat fuel ->
  fuel <> O ->
  digits_val (show_digits fuel n) = n
  /\ forallb is_ascii_digit (show_digits fuel n) = true
  /\ show_digits fuel n <> []
  /\ (0 < n -> exists a t, show_digits fuel n = a :: t /\ a <> "0"%char).
Proof.
  revert n. induction fuel as [|fuel IH]; intros n Hn Hf; [done|]. cbn [show_digits].
  assert (Hd : forall d, 0 <= d < 10 -> is_ascii_digit (digit_char d) = true /\ digit_val (digit_char d) = d).
  { intros d Hd. unfold is_ascii_digit, digit_val. rewrite bv_digit_char by lia. lia. }
  destruct (Z.ltb_spec n 10) as [H|H].
  - destruct (Hd n ltac:(lia)) as [H1 H2]. unfold digits_val. cbn. rewrite H1, H2.
    repeat split; [done|]. intros Hpos. exists (digit_char n), []. split; [done|].
    intros E. apply (f_equal bv) in E. rewrite bv_digit_char in E by lia.
    change (bv "0"%char) with 48 in E. lia.
  - pose proof (Z.mod_pos_bound n 10 ltac:(lia)) as Hm.
    destruct (Hd (n mod 10) ltac:(lia)) as [H1 H2].
    assert (Hq : 0 <= n / 10 < 2 ^ Z.of_nat fuel).
    { split; [apply Z.div_pos; lia|]. apply Z.div_lt_upper_bound; [lia|].
      rewrite Nat2Z.inj_succ, Z.pow_succ_r in Hn by lia. lia. }
    assert (fuel <> O) by (intros ->; change (2 ^ Z.of_nat 0) with 1 in Hq; dlia).
    destruct (IH (n / 10) Hq ltac:(done)) as (IH1 & IH2 & IH3 & IH4).
    rewrite digits_val_snoc, IH1, H2, forallb_app, IH2. cbn. rewrite H1.
    pose proof (Z.div_mod n 10 ltac:(lia)) as Hdm.
    split; [lia|]. split; [done|]. split; [by destruct (show_digits fuel (n / 10))|].
    intros _. destruct IH4 as (a & t & -> & Ha); [dlia|].
    by exists a, (t ++ [digit_char (n mod 10)]).
Qed.

Lemma show_nonneg_spec n :
  0 <= n ->
  digits_val (show_nonneg n) = n
  /\ forallb is_ascii_digit (show_nonneg n) = true
  /\ show_nonneg n <> []
  /\ (0 < n -> exists a t, show_nonneg n = a :: t /\ a <> "0"%char).
Proof.
  intros Hn. apply show_digits_spec; [|done]. split; [done|].
  rewrite Nat2Z.inj_succ, Z2Nat.id by apply Z.log2_nonneg.
  destruct (Z.eq_dec n 0) as [->|]; [done|]. apply Z.log2_spec. lia.
Qed.

Lemma show_nonneg_val n : 0 <= n -> digits_val (show_nonneg n) = n.
Proof. apply show_nonneg_spec. Qed.
Lemma show_nonneg_digits n : 0 <= n -> forallb is_ascii_digit (show_nonneg n) = true.
Proof. apply show_nonneg_spec. Qed.
Lemma show_nonneg_nonempty n : 0 <= n -> show_nonneg n <> [].
Proof. apply show_nonneg_spec. Qed.

(** [Display] of an integer and back. *)
Lemma parse_i64_show n : i64_min <= n <= i64_max -> parse_i64 (show_Z n) = Some n.
Proof.
  intros Hn. unfold show_Z, parse_i64. rewrite bytes_of_str_of.
  assert (Hr : (i64_min <=? n) && (n <=? i64_max) = true) by lia.
  destruct (Z.ltb_spec n 0) as [H|H].
  - destruct (show_nonneg_spec (- n) ltac:(lia)) as (Hv & Hd & Hne & _).
    rewrite Hd, Hv. destruct (show_nonneg (- n)) eqn:E; [done|]. cbn [negb].
    replace (- - n) with n by lia. by rewrite Hr.
  - destruct (show_nonneg_spec n ltac:(lia)) as (Hv & Hd & Hne & _).
    destruct (show_nonneg n) as [|a t] eqn:E; [done|].
    assert (Ha : is_ascii_digit a = true) by (cbn in Hd; by to_prop).
    assert (a <> "-"%char /\ a <> "+"%char) as [Hm Hp] by (split; intros ->; done).
    destruct a as [[] [] [] [] [] [] [] []]; try done;
      rewrite Hd, Hv; cbn [negb]; by rewrite Hr.
Qed.

Lemma show_Z_inj m n : show_Z m = show_Z n -> m = n.
Proof.
  intros H%str_of_inj.
  assert (Hnd : forall k, 0 <= k -> show_nonneg k <> [] /\ hd_error (show_nonneg k) <> Some "-"%char).
  { intros k Hk. destruct (show_nonneg_spec k Hk) as (_ & Hd & Hne & _).
    destruct (show_nonneg k) as [|a t]; [done|]. split; [done|]. cbn. intros ?. simplify_eq. }
  destruct (Z.ltb_spec m 0), (Z.ltb_spec n 0).
  - simplify_eq. apply (f_equal digits_val) in H. rewrite !show_nonneg_val in H by lia. lia.
  - destruct (Hnd n ltac:(lia)) as [_ Hh]. by rewrite <- H in Hh.
  - destruct (Hnd m ltac:(lia)) as [_ Hh]. by rewrite H in Hh.
  - apply (f_equal digits_val) in H. by rewrite !show_nonneg_val in H by lia.
Qed.

(** ** Lemmas: hexadecimal *)
Lemma hex_val_digit d : 0 <= d < 16 -> hex_val (hex_digit d) = Some d.
Proof.
  intros H. unfold hex_val, hex_digit, is_ascii_digit.
  destruct (Z.ltb_spec d 10); rewrite bv_byte_of by lia.
  - destruct ((48 <=? 48 + d) && (48 + d <=? 57)) eqn:E; [f_equal; lia|lia].
  - destruct ((48 <=? 87 + d) && (87 + d <=? 57)) eqn:E; [lia|].
    destruct ((97 <=? 87 + d) && (87 + d <=? 102)) eqn:E'; [f_equal; lia|lia].
Qed.

Lemma hex_val_range a v : hex_val a = Some v -> 0 <= v < 16.
Proof. unfold hex_val, is_ascii_digit. intros H. cases_in H; simplify_eq; to_prop; lia. Qed.

(** ** Lemmas: prefixes and whiles *)
Lemma strip_prefix_bytes_Some p l r : strip_prefix_bytes p l = Some r <-> l = p ++ r.
Proof.
  revert l. induction p as [|a p IH]; intros l; cbn; [naive_solver|].
  destruct l as [|b l]; [naive_solver|].
  destruct (Ascii.eqb_spec a b) as [->|]; [rewrite IH|]; naive_solver.
Qed.

Lemma take_drop_while {A} (p : A -> bool) l : take_while p l ++ drop_while p l = l.
Proof. induction l as [|x t IH]; cbn; [done|]. destruct (p x); cbn; by f_equal. Qed.

Lemma take_while_forallb {A} (p : A -> bool) l : forallb p (take_while p l) = true.
Proof. induction l as [|x t IH]; cbn; [done|]. destruct (p x) eqn:E; cbn; by rewrite ?E. Qed.

Lemma take_while_app {A} (p : A -> bool) l r :
  forallb p l = true -> match r with x :: _ => p x = false | [] => True end ->
  take_while p (l ++ r) = l /\ drop_while p (l ++ r) = r.
Proof.
  intros Hl Hr. induction l as [|x l IH]; cbn in *.
  - destruct r as [|x r]; cbn; [done|]. by rewrite Hr.
  - to_prop. rewrite H. destruct IH as [-> ->]; done.
Qed.
