(* ===== verification/Net.v ===== *)
(** * Addresses and networks

    [mr-core/src/goish/net.rs] (Go's [net] rules for IP addresses, CIDR
    prefixes, MAC addresses and host:port pairs) and
    [mr-core/src/network/address_identity.rs].  A [u8] is a [Z] in 0..255;
    [usize] lengths and prefix lengths are [nat].  The parser and printer of
    [std::net::Ipv6Addr] are written out, as [parse_cidr] and [Display] use
    them. *)

From Stdlib Require Import ZArith Ascii String Lia Bool.
From stdpp Require Import base list strings gmap.
From S2P Require Import Prelude GoStrings.

Local Open Scope Z_scope.

(** ** Addresses *)
Abbreviation IP := (list Z).
Abbreviation IPMask := (list Z).

Definition V4_IN_V6_PREFIX : list Z := [0; 0; 0; 0; 0; 0; 0; 0; 0; 0; 255; 255].

(** Equality of byte slices *)
Fixpoint bytes_eqb (a b : list Z) : bool :=
  match a, b with
  | [], [] => true
  | x :: a', y :: b' => (x =? y) && bytes_eqb a' b'
  | _, _ => false
  end.

Definition ip_v4 (a b c d : Z) : IP := V4_IN_V6_PREFIX ++ [a; b; c; d].

(** [self.0[..12] == V4_IN_V6_PREFIX] *)
Definition has_v4_prefix (ip : IP) : bool := bytes_eqb (take 12 ip) V4_IN_V6_PREFIX.

Definition to4 (ip : IP) : option IP :=
  match List.length ip with
  | 4%nat => Some ip
  | 16%nat => if has_v4_prefix ip then Some (drop 12 ip) else None
  | _ => None
  end.

Definition to16 (ip : IP) : option IP :=
  match List.length ip with
  | 4%nat => Some (V4_IN_V6_PREFIX ++ ip)
  | 16%nat => Some ip
  | _ => None
  end.

Definition ip_equal (a b : IP) : bool :=
  if Nat.eqb (List.length a) (List.length b) then bytes_eqb a b
  else if Nat.eqb (List.length a) 4 && Nat.eqb (List.length b) 16 then
    has_v4_prefix b && bytes_eqb a (drop 12 b)
  else if Nat.eqb (List.length a) 16 && Nat.eqb (List.length b) 4 then
    has_v4_prefix a && bytes_eqb (drop 12 a) b
  else false.

Definition equal_opt (a : IP) (other : option IP) : bool :=
  match other with Some b => ip_equal a b | None => false end.

Definition is_unspecified (ip : IP) : bool :=
  ip_equal ip (ip_v4 0 0 0 0) || ip_equal ip (repeat 0 16).

Definition octet (n : nat) (ip : IP) : Z := nth n ip 0.

Definition is_loopback (ip : IP) : bool :=
  match to4 ip with
  | Some v4 => octet 0 v4 =? 127
  | None => ip_equal ip (repeat 0 15 ++ [1])
  end.

Definition is_multicast (ip : IP) : bool :=
  match to4 ip with
  | Some v4 => Z.land (octet 0 v4) 240 =? 224
  | None => Nat.eqb (List.length ip) 16 && (octet 0 ip =? 255)
  end.

Definition is_private (ip : IP) : bool :=
  match to4 ip with
  | Some b =>
      (octet 0 b =? 10) || ((octet 0 b =? 172) && (Z.land (octet 1 b) 240 =? 16))
      || ((octet 0 b =? 192) && (octet 1 b =? 168))
  | None => Nat.eqb (List.length ip) 16 && (Z.land (octet 0 ip) 254 =? 252)
  end.

Definition is_link_local_unicast (ip : IP) : bool :=
  match to4 ip with
  | Some v4 => (octet 0 v4 =? 169) && (octet 1 v4 =? 254)
  | None =>
      Nat.eqb (List.length ip) 16 && (octet 0 ip =? 254) && (Z.land (octet 1 ip) 192 =? 128)
  end.

Definition is_global_unicast (ip : IP) : bool :=
  (Nat.eqb (List.length ip) 4 || Nat.eqb (List.length ip) 16)
  && negb (ip_equal ip (ip_v4 255 255 255 255))
  && negb (is_unspecified ip) && negb (is_loopback ip)
  && negb (is_multicast ip) && negb (is_link_local_unicast ip).

(** [a & b], byte by byte *)
Definition land_bytes (a b : list Z) : list Z := zip_with Z.land a b.

(** [ip.Mask(mask)] *)
Definition ip_mask (ip : IP) (mask : IPMask) : option IP :=
  let m :=
    if Nat.eqb (List.length mask) 16 && Nat.eqb (List.length ip) 4
       && forallb (fun b => b =? 255) (take 12 mask)
    then drop 12 mask else mask in
  let ip' :=
    if Nat.eqb (List.length m) 4 && Nat.eqb (List.length ip) 16 && has_v4_prefix ip
    then drop 12 ip else ip in
  if negb (Nat.eqb (List.length ip') (List.length m)) then None
  else Some (land_bytes ip' m).

(** ** Printing *)

(** [Ipv4Addr]'s [Display] *)
Definition show_ipv4 (o : list Z) : bytes :=
  intercalate "."%char (map show_nonneg o).

(** [{:x}] of a [u16] *)
Definition show_hex16 (n : Z) : bytes :=
  if n <? 16 then [hex_digit n]
  else if n <? 256 then [hex_digit (n / 16); hex_digit (n mod 16)]
  else if n <? 4096 then [hex_digit (n / 256); hex_digit (n / 16 mod 16); hex_digit (n mod 16)]
  else [hex_digit (n / 4096); hex_digit (n / 256 mod 16); hex_digit (n / 16 mod 16);
        hex_digit (n mod 16)].

(** [segments()]: big-endian pairs *)
Fixpoint segments (o : list Z) : list Z :=
  match o with
  | a :: b :: t => (a * 256 + b) :: segments t
  | _ => []
  end.

(** The first longest run of zero segments: start and length. *)
Fixpoint longest_zero_run (l : list Z) (i : nat) (cur best : nat * nat) : nat * nat :=
  match l with
  | [] => best
  | s :: t =>
      if s =? 0 then
        let cur' := ((if Nat.eqb (snd cur) 0 then i else fst cur), S (snd cur)) in
        let best' := if Nat.ltb (snd best) (snd cur') then cur' else best in
        longest_zero_run t (S i) cur' best'
      else longest_zero_run t (S i) (0, 0)%nat best
  end.

Definition show_segments (l : list Z) : bytes := intercalate ":"%char (map show_hex16 l).

(** [Ipv6Addr]'s [Display] *)
Definition show_ipv6 (o : list Z) : bytes :=
  if has_v4_prefix o then bytes_of "::ffff:" ++ show_ipv4 (drop 12 o)
  else
    let segs := segments o in
    let '(start, len) := longest_zero_run segs 0 (0, 0)%nat (0, 0)%nat in
    if Nat.ltb 1 len then
      show_segments (take start segs) ++ bytes_of "::" ++ show_segments (drop (start + len) segs)
    else show_segments segs.

(** [IP]'s [Display] *)
Definition ip_bytes_string (ip : IP) : bytes :=
  match ip with
  | [] => bytes_of "<nil>"
  | _ =>
      match to4 ip with
      | Some v4 => show_ipv4 v4
      | None =>
          if negb (Nat.eqb (List.length ip) 16) then "?"%char :: concat (map show_hex2 ip)
          else show_ipv6 ip
      end
  end.
Definition ip_to_string (ip : IP) : string := str_of (ip_bytes_string ip).

(** ** Parsing addresses *)

(** The loop of [parse_ipv4_strict] over the dot-separated parts. *)
Fixpoint parse_ipv4_parts (parts : list bytes) (out : list Z) : option (list Z) :=
  match parts with
  | [] => if Nat.eqb (List.length out) 4 then Some out else None
  | part :: rest =>
      if Nat.eqb (List.length out) 4 || match part with [] => true | _ => false end
         || Nat.ltb 3 (List.length part) || negb (forallb is_ascii_digit part)
      then None
      else if Nat.ltb 1 (List.length part)
              && match part with a :: _ => Ascii.eqb a "0"%char | [] => false end
      then None
      else let n := digits_val part in
           if 255 <? n then None else parse_ipv4_parts rest (out ++ [n])
  end.

Definition parse_ipv4_strict (value : bytes) : option (list Z) :=
  parse_ipv4_parts (split_bytes "."%char value) [].

(** *** [Ipv6Addr::from_str]

    The standard library's recursive-descent reader: a parser takes the
    remaining input and returns a value with the input left. *)
Definition read_char (c : ascii) (l : bytes) : option bytes :=
  match l with
  | a :: t => if Ascii.eqb a c then Some t else None
  | [] => None
  end.

(** [read_separator(sep, index, inner)] *)
Definition read_separator {A} (sep : ascii) (index : nat) (inner : bytes -> option (A * bytes))
  (l : bytes) : option (A * bytes) :=
  match index with
  | O => inner l
  | S _ => let! l' := read_char sep l in inner l'
  end.

Definition dec_val (a : ascii) : option Z := if is_ascii_digit a then Some (digit_val a) else None.

(** [read_number(radix, Some(max_digits), allow_zero_prefix)] up to [limit] *)
Definition read_number (radix : Z) (digit : ascii -> option Z) (max_digits : nat)
  (allow_zero_prefix : bool) (limit : Z) (l : bytes) : option (Z * bytes) :=
  let is_digit a := match digit a with Some _ => true | None => false end in
  let ds := take_while is_digit l in
  let rest := drop_while is_digit l in
  let value :=
    fold_left (fun n a => n * radix + match digit a with Some d => d | None => 0 end) ds 0 in
  match ds with
  | [] => None
  | a :: _ =>
      if Nat.ltb max_digits (List.length ds) || (limit <? value)
         || (negb allow_zero_prefix && Ascii.eqb a "0"%char && Nat.ltb 1 (List.length ds))
      then None else Some (value, rest)
  end.

Fixpoint read_ipv4_groups (n i : nat) (l : bytes) : option (list Z * bytes) :=
  match n with
  | O => Some ([], l)
  | S n' =>
      let! (g, l1) := read_separator "."%char i (read_number 10 dec_val 3 false 255) l in
      let! (gs, l2) := read_ipv4_groups n' (S i) l1 in
      Some (g :: gs, l2)
  end.

Definition read_ipv4_addr (l : bytes) : option (list Z * bytes) := read_ipv4_groups 4 0 l.

(** [read_groups]: the groups read, whether an embedded IPv4 address ended
    them, and the input left.  [slots] is the number of groups still free. *)
Fixpoint read_groups (slots i : nat) (l : bytes) : list Z * bool * bytes :=
  match slots with
  | O => ([], false, l)
  | S slots' =>
      match (if Nat.ltb 0 slots' then read_separator ":"%char i read_ipv4_addr l else None) with
      | Some ([a; b; c; d], l') => ([a * 256 + b; c * 256 + d], true, l')
      | _ =>
          match read_separator ":"%char i (read_number 16 hex_val 4 true 65535) l with
          | Some (g, l') =>
              let '(gs, v4, l'') := read_groups slots' (S i) l' in (g :: gs, v4, l'')
          | None => ([], false, l)
          end
      end
  end.

Definition ipv6_octets (groups : list Z) : list Z :=
  concat (map (fun g => [g / 256; g mod 256]) groups).

Definition read_ipv6_addr (l : bytes) : option (list Z * bytes) :=
  let '(head, head_ipv4, l1) := read_groups 8 0 l in
  if Nat.eqb (List.length head) 8 then Some (ipv6_octets head, l1)
  else if head_ipv4 then None
  else
    let! l2 := read_char ":"%char l1 in
    let! l3 := read_char ":"%char l2 in
    let '(tail, _, l4) := read_groups (8 - (List.length head + 1)) 0 l3 in
    Some (ipv6_octets (head ++ repeat 0 (8 - List.length head - List.length tail) ++ tail), l4).

Definition parse_ipv6 (l : bytes) : option (list Z) :=
  match read_ipv6_addr l with Some (o, []) => Some o | _ => None end.

Definition has_byte (c : ascii) (l : bytes) : bool := existsb (Ascii.eqb c) l.

(** [net.ParseIP] *)
Definition parse_ip_bytes (value : bytes) : option IP :=
  if has_byte "%"%char value then None
  else match parse_ipv4_strict value with
       | Some o => Some (V4_IN_V6_PREFIX ++ o)
       | None => if has_byte ":"%char value then parse_ipv6 value else None
       end.
Definition parse_ip (value : string) : option IP := parse_ip_bytes (bytes_of value).

Definition parse_ipv4 (value : string) : option IP := let! ip := parse_ip value in to4 ip.

(** ** Masks and networks *)

(** The loop of [IPMask::cidr] over the [len] bytes of the mask. *)
Fixpoint mask_bytes (len n : nat) : IPMask :=
  match len with
  | O => []
  | S len' =>
      if Nat.leb 8 n then 255 :: mask_bytes len' (n - 8)
      else (255 - Z.shiftr 255 (Z.of_nat n)) :: mask_bytes len' 0
  end.

Definition mask_cidr (ones bits : nat) : option IPMask :=
  if (negb (Nat.eqb bits 32) && negb (Nat.eqb bits 128)) || Nat.ltb bits ones then None
  else Some (mask_bytes (bits / 8) ones).

(** [b.leading_ones()] of a [u8] *)
Fixpoint leading_ones_from (k : nat) (b : Z) : nat :=
  match k with
  | O => O
  | S k' => if Z.testbit b (Z.of_nat k') then S (leading_ones_from k' b) else O
  end.
Definition leading_ones (b : Z) : nat := leading_ones_from 8 b.

Fixpoint simple_mask_loop (mask : IPMask) (ones : nat) (seen_zero : bool) : option nat :=
  match mask with
  | [] => Some ones
  | b :: t =>
      if seen_zero then (if b =? 0 then simple_mask_loop t ones true else None)
      else if b =? 255 then simple_mask_loop t (ones + 8) false
      else
        let lead := leading_ones b in
        if Z.shiftl b (Z.of_nat lead) mod 256 =? 0
        then simple_mask_loop t (ones + lead) true
        else None
  end.
Definition simple_mask_length (mask : IPMask) : option nat := simple_mask_loop mask 0 false.

Definition mask_size (m : IPMask) : nat * nat :=
  match simple_mask_length m with
  | Some ones => (ones, List.length m * 8)%nat
  | None => (0, 0)%nat
  end.

Definition mask_to_string (m : IPMask) : bytes :=
  match m with [] => bytes_of "<nil>" | _ => concat (map show_hex2 m) end.

Record IPNet := mkIPNet { net_ip : IP; net_mask : IPMask }.

Definition network_number_and_mask (n : IPNet) : option (IP * IPMask) :=
  let! ip :=
    match to4 (net_ip n) with
    | Some v4 => Some v4
    | None => if negb (Nat.eqb (List.length (net_ip n)) 16) then None else Some (net_ip n)
    end in
  let m := net_mask n in
  match List.length m with
  | 4%nat => if negb (Nat.eqb (List.length ip) 4) then None else Some (ip, m)
  | 16%nat => if Nat.eqb (List.length ip) 4 then Some (ip, drop 12 m) else Some (ip, m)
  | _ => None
  end.

(** [nn[i] & m[i] == ip[i] & m[i]] for every byte of [ip] *)
Definition masked_eq (nn ip m : list Z) : bool := bytes_eqb (land_bytes nn m) (land_bytes ip m).

Definition net_contains (n : IPNet) (ip : IP) : bool :=
  match network_number_and_mask n with
  | None => false
  | Some (nn, m) =>
      let ip' := match to4 ip with Some v4 => v4 | None => ip end in
      if negb (Nat.eqb (List.length ip') (List.length nn)) then false
      else masked_eq nn ip' m
  end.

Definition contains_opt (n : IPNet) (ip : option IP) : bool :=
  match ip with Some ip => net_contains n ip | None => false end.

Definition ipv4_broadcast (n : IPNet) : option IP :=
  let! network := to4 (net_ip n) in
  let mask := net_mask n in
  if Nat.ltb (List.length mask) 4 then None
  else Some (zip_with (fun a m => Z.lor a (255 - m)) network (take 4 mask)).

Definition net_to_bytes (n : IPNet) : bytes :=
  match network_number_and_mask n with
  | None => bytes_of "<nil>"
  | Some (nn, m) =>
      match simple_mask_length m with
      | Some ones => ip_bytes_string nn ++ "/"%char :: show_nonneg (Z.of_nat ones)
      | None => ip_bytes_string nn ++ "/"%char :: mask_to_string m
      end
  end.
Definition net_to_string (n : IPNet) : string := str_of (net_to_bytes n).

(** [dtoi]: value, bytes consumed, ok *)
Fixpoint dtoi_loop (l : bytes) (n : Z) (i : nat) : Z * nat * bool :=
  match l with
  | b :: t =>
      if negb (is_ascii_digit b) then (if Nat.eqb i 0 then (0, 0%nat, false) else (n, i, true))
      else let n' := n * 10 + digit_val b in
           if 16777215 <=? n' then (16777215, i, false) else dtoi_loop t n' (S i)
  | [] => if Nat.eqb i 0 then (0, 0%nat, false) else (n, i, true)
  end.
Definition dtoi (s : bytes) : Z * nat * bool := dtoi_loop s 0 0.

Definition parse_cidr_bytes (value : bytes) : option (IP * IPNet) :=
  let! (addr, mask) := split_once_bytes "/"%char value in
  if has_byte "%"%char addr then None
  else
    let! (ip16, bits) :=
      match parse_ipv4_strict addr with
      | Some o => Some (V4_IN_V6_PREFIX ++ o, 32%nat)
      | None =>
          if has_byte ":"%char addr then let! v6 := parse_ipv6 addr in Some (v6, 128%nat)
          else None
      end in
    let '(n, i, ok) := dtoi mask in
    if negb ok || negb (Nat.eqb i (List.length mask)) || (n <? 0) || (Z.of_nat bits <? n) then None
    else
      let! m := mask_cidr (Z.to_nat n) bits in
      let! network_ip := ip_mask ip16 m in
      Some (ip16, mkIPNet network_ip m).
Definition parse_cidr (value : string) : option (IP * IPNet) := parse_cidr_bytes (bytes_of value).

(** ** MAC addresses *)
Definition xtoi2 (s : bytes) (sep : ascii) : option Z :=
  if Nat.ltb 2 (List.length s) && negb (Ascii.eqb (nth 2 s sep) sep) then None
  else match s with
       | h :: l :: _ =>
           let! hi := hex_val h in let! lo := hex_val l in Some (hi * 16 + lo)
       | _ => None
       end.

(** The colon/dash loop: [n] pairs, three bytes apart. *)
Fixpoint mac_pairs (n : nat) (sep : ascii) (b : bytes) : option (list Z) :=
  match n with
  | O => Some []
  | S n' =>
      let! x := xtoi2 b sep in
      let! rest := mac_pairs n' sep (drop 3 b) in
      Some (x :: rest)
  end.

(** The dotted loop: groups of four digits, five bytes apart. *)
Fixpoint mac_quads (groups : nat) (sep : ascii) (b : bytes) : option (list Z) :=
  match groups with
  | O => Some []
  | S g' =>
      let! x := xtoi2 (take 2 b) (ascii_of_N 0) in
      let! y := xtoi2 (drop 2 b) sep in
      let! rest := mac_quads g' sep (drop 5 b) in
      Some (x :: y :: rest)
  end.

Definition mac_length_ok (n : nat) : bool := Nat.eqb n 6 || Nat.eqb n 8 || Nat.eqb n 20.

Definition parse_mac_bytes (b : bytes) : option (list Z) :=
  let len := List.length b in
  if Nat.ltb len 14 then None
  else
    let c2 := nth 2 b "000"%char in
    let c4 := nth 4 b "000"%char in
    if Ascii.eqb c2 ":"%char || Ascii.eqb c2 "-"%char then
      if negb (Nat.eqb ((len + 1) mod 3) 0) then None
      else if negb (mac_length_ok ((len + 1) / 3)) then None
      else mac_pairs ((len + 1) / 3) c2 b
    else if Ascii.eqb c4 "."%char then
      if negb (Nat.eqb ((len + 1) mod 5) 0) then None
      else
        let n := (2 * (len + 1) / 5)%nat in
        if negb (mac_length_ok n) then None else mac_quads (n / 2) c4 b
    else None.
Definition parse_mac (s : string) : option (list Z) := parse_mac_bytes (bytes_of s).

Definition mac_bytes_string (hw : list Z) : bytes := intercalate ":"%char (map show_hex2 hw).
Definition mac_string (hw : list Z) : string := str_of (mac_bytes_string hw).

(** ** host:port *)
Fixpoint rfind_byte (c : ascii) (l : bytes) : option nat :=
  match l with
  | [] => None
  | a :: t =>
      match rfind_byte c t with
      | Some i => Some (S i)
      | None => if Ascii.eqb a c then Some 0%nat else None
      end
  end.

Fixpoint find_byte (c : ascii) (l : bytes) : option nat :=
  match l with
  | [] => None
  | a :: t => if Ascii.eqb a c then Some 0%nat
              else match find_byte c t with Some i => Some (S i) | None => None end
  end.

Definition split_host_port_bytes (hostport : bytes) : result (bytes * bytes) string :=
  let addr_err (why : string) : result (bytes * bytes) string :=
    Err ("address " +:+ str_of hostport +:+ ": " +:+ why) in
  match rfind_byte ":"%char hostport with
  | None => addr_err "missing port in address"
  | Some i =>
      let finish (host : bytes) (j k : nat) :=
        if has_byte "["%char (drop j hostport) then addr_err "unexpected '[' in address"
        else if has_byte "]"%char (drop k hostport) then addr_err "unexpected ']' in address"
        else Ok (host, drop (i + 1) hostport) in
      match hostport with
      | "["%char :: _ =>
          match find_byte "]"%char hostport with
          | None => addr_err "missing ']' in address"
          | Some e =>
              if Nat.eqb (e + 1) (List.length hostport) then addr_err "missing port in address"
              else if negb (Nat.eqb (e + 1) i) then
                (if Ascii.eqb (nth (e + 1) hostport "000"%char) ":"%char
                 then addr_err "too many colons in address"
                 else addr_err "missing port in address")
              else finish (drop 1 (take e hostport)) 1%nat (e + 1)%nat
          end
      | _ =>
          let host := take i hostport in
          if has_byte ":"%char host then addr_err "too many colons in address"
          else finish host 0%nat 0%nat
      end
  end.
Definition split_host_port (hostport : string) : result (string * string) string :=
  match split_host_port_bytes (bytes_of hostport) with
  | Ok (h, p) => Ok (str_of h, str_of p)
  | Err e => Err e
  end.

Definition join_host_port (host port : string) : string :=
  if contains_char ":"%char host then "[" +:+ host +:+ "]:" +:+ port
  else host +:+ ":" +:+ port.

(** ** Identities of address spellings *)
Definition ipv4_identity (value : string) : string :=
  match parse_ipv4 value with Some ip => ip_to_string ip | None => value end.

Definition mac_identity (value : string) : string :=
  match parse_mac value with
  | Some mac => if Nat.eqb (List.length mac) 6 then mac_string mac else value
  | None => value
  end.

(** [networks_overlap] of [mr-config/src/config/validation.rs] *)
Definition networks_overlap (a b : IPNet) : bool :=
  net_contains a (net_ip b) || net_contains b (net_ip a).
