(* ===== verification/NetSpec.v ===== *)
(** * Addresses and networks: what [Net] guarantees

    Printing and parsing of IPv4 addresses, networks, MAC addresses and
    host:port pairs are inverse to each other; a CIDR mask has the prefix
    length it was built from; [net_contains] is the arithmetic prefix test on
    big-endian values and overlap of networks is the existence of a common
    address. *)

From Stdlib Require Import ZArith Ascii String Lia Bool.
From stdpp Require Import base list strings gmap.
From S2P Require Import Prelude GoStrings Net.

Local Open Scope Z_scope.

(** ** Byte lists *)
Definition byte_ok (b : Z) : Prop := 0 <= b < 256.

(** The big-endian value of a byte list *)
Definition be (l : list Z) : Z := fold_left (fun n b => n * 256 + b) l 0.

Lemma bytes_eqb_eq a b : bytes_eqb a b = true <-> a = b.
Proof.
  revert b. induction a as [|x a IH]; intros [|y b]; cbn; try naive_solver.
  rewrite andb_true_iff, Z.eqb_eq, IH. naive_solver.
Qed.

Lemma bytes_eqb_refl a : bytes_eqb a a = true.
Proof. by apply bytes_eqb_eq. Qed.

Lemma be_fold l n : fold_left (fun n b => n * 256 + b) l n = n * 256 ^ Z.of_nat (List.length l) + be l.
Proof.
  unfold be. revert n. induction l as [|b l IH]; intros n; cbn [fold_left List.length]; [lia|].
  rewrite IH, (IH (0 * 256 + b)), Nat2Z.inj_succ, Z.pow_succ_r by lia. lia.
Qed.

Lemma be_cons b l : be (b :: l) = b * 256 ^ Z.of_nat (List.length l) + be l.
Proof. unfold be at 1. cbn [fold_left]. by rewrite be_fold. Qed.

Lemma be_range l : Forall byte_ok l -> 0 <= be l < 256 ^ Z.of_nat (List.length l).
Proof.
  induction 1 as [|b l Hb _ IH]; [done|].
  rewrite be_cons. cbn [List.length]. rewrite Nat2Z.inj_succ, Z.pow_succ_r by lia.
  unfold byte_ok in Hb. nia.
Qed.

Lemma pow256 n : 256 ^ Z.of_nat n = 2 ^ (8 * Z.of_nat n).
Proof. rewrite Z.pow_mul_r by lia. done. Qed.

Lemma be_inj a b :
  Forall byte_ok a -> Forall byte_ok b -> List.length a = List.length b -> be a = be b -> a = b.
Proof.
  intros Ha. revert b. induction Ha as [|x a Hx Ha IH]; intros [|y b] Hb Hlen Heq; try done.
  inversion Hb as [|? ? Hy Hb']; subst. rewrite !be_cons in Heq.
  injection Hlen as Hlen. rewrite <- Hlen in Heq.
  pose proof (be_range a Ha) as Hra. pose proof (be_range b Hb') as Hrb. rewrite <- Hlen in Hrb.
  set (P := 256 ^ Z.of_nat (List.length a)) in *.
  assert (x = y) as -> by nia. f_equal. apply IH; [done|done|nia].
Qed.

(** ** IPv4 text *)
Lemma digits_no_char c l :
  is_ascii_digit c = false -> forallb is_ascii_digit l = true ->
  forallb (fun a => negb (Ascii.eqb a c)) l = true.
Proof.
  intros Hc Hl. apply forallb_forall. intros a Ha.
  rewrite forallb_forall in Hl. specialize (Hl a Ha).
  destruct (Ascii.eqb_spec a c) as [->|]; [congruence|done].
Qed.

(** A decimal octet: one to three digits, no leading zero, at most 255. *)
Definition octet_text (part : bytes) : bool :=
  negb (match part with [] => true | _ => false end) && Nat.leb (List.length part) 3
  && forallb is_ascii_digit part
  && negb (Nat.ltb 1 (List.length part)
           && match part with a :: _ => Ascii.eqb a "0"%char | [] => false end)
  && (digits_val part <=? 255).

Definition all_octets : list Z := map Z.of_nat (seq 0 256).

Lemma octet_in v : byte_ok v -> In v all_octets.
Proof.
  intros Hv. unfold all_octets. apply in_map_iff. exists (Z.to_nat v).
  unfold byte_ok in Hv. split; [lia|]. apply in_seq. lia.
Qed.

Lemma show_octet_text v : byte_ok v -> octet_text (show_nonneg v) = true.
Proof.
  intros Hv. assert (H : forallb (fun v => octet_text (show_nonneg v)) all_octets = true)
    by (vm_compute; reflexivity).
  rewrite forallb_forall in H. by apply H, octet_in.
Qed.

Definition digit_chars : list ascii := map (fun d => digit_char (Z.of_nat d)) (seq 0 10).

Lemma digit_char_in a : is_ascii_digit a = true -> In a digit_chars.
Proof.
  intros H. unfold is_ascii_digit in H. to_prop. unfold digit_chars. apply in_map_iff.
  exists (Z.to_nat (bv a - 48)). split; [|apply in_seq; lia].
  apply bv_inj. rewrite bv_digit_char by lia. lia.
Qed.

(** The 1110 strings of one to three digits *)
Definition octet_candidates : list bytes :=
  flat_map (fun a => [a] :: flat_map (fun b => [a; b] :: map (fun c => [a; b; c]) digit_chars)
    digit_chars) digit_chars.

Lemma octet_candidates_in part :
  part <> [] -> (List.length part <= 3)%nat -> forallb is_ascii_digit part = true ->
  In part octet_candidates.
Proof.
  intros Hne Hlen Hd.
  destruct part as [|a part]; [done|]. cbn [forallb] in Hd. to_prop.
  apply in_flat_map. exists a. split; [by apply digit_char_in|].
  destruct part as [|b part]; [by left|right]. cbn [forallb] in *. to_prop.
  apply in_flat_map. exists b. split; [by apply digit_char_in|].
  destruct part as [|c part]; [by left|right]. cbn [forallb] in *. to_prop.
  destruct part; [|cbn in Hlen; lia]. apply (in_map (fun c => [a; b; c])). by apply digit_char_in.
Qed.

(** Every octet spelling is the printed form of its value. *)
Lemma show_octet_val part : octet_text part = true -> show_nonneg (digits_val part) = part.
Proof.
  intros H.
  assert (Hall : forallb (fun p => implb (octet_text p) (bool_decide (show_nonneg (digits_val p) = p)))
                   octet_candidates = true) by (vm_compute; reflexivity).
  rewrite forallb_forall in Hall.
  assert (Hin : In part octet_candidates).
  { unfold octet_text in H. to_prop. apply octet_candidates_in; [by destruct part|lia|done]. }
  specialize (Hall part Hin). rewrite H in Hall. cbn in Hall. by to_prop.
Qed.

Lemma digits_val_nonneg_from l n :
  0 <= n -> forallb is_ascii_digit l = true ->
  0 <= fold_left (fun n a => n * 10 + digit_val a) l n.
Proof.
  revert n. induction l as [|a l IH]; intros n Hn Hd; cbn in *; [done|].
  unfold is_ascii_digit in Hd. to_prop. apply IH; [unfold digit_val; lia|done].
Qed.

Lemma octet_text_val part : octet_text part = true -> byte_ok (digits_val part).
Proof.
  unfold octet_text. intros H. to_prop. split; [|lia].
  apply digits_val_nonneg_from; [lia|done].
Qed.

(** *** The loop of [parse_ipv4_strict] *)
Lemma parse_ipv4_parts_Some parts out o :
  parse_ipv4_parts parts out = Some o <->
  exists vs, o = out ++ vs /\ List.length o = 4%nat /\ (List.length out <= 4)%nat
    /\ Forall (fun p => octet_text p = true) parts /\ vs = map digits_val parts.
Proof.
  revert out. induction parts as [|p parts IH]; intros out; cbn [parse_ipv4_parts].
  - destruct (Nat.eqb_spec (List.length out) 4) as [E|E]; split; intros H.
    + simplify_eq. exists []. rewrite app_nil_r. by repeat split; [| lia | constructor].
    + destruct H as (vs & -> & _ & _ & _ & ->). by rewrite app_nil_r.
    + done.
    + destruct H as (vs & -> & Hl & _ & _ & ->). by rewrite app_nil_r in Hl.
  - assert (Hguard : (Nat.eqb (List.length out) 4 || match p with [] => true | _ => false end
       || Nat.ltb 3 (List.length p) || negb (forallb is_ascii_digit p)) = false ->
       (Nat.ltb 1 (List.length p) && match p with a :: _ => Ascii.eqb a "0"%char | [] => false end) = false ->
       octet_text p = (digits_val p <=? 255)).
    { intros H1 H2. unfold octet_text. rewrite H2. rewrite !orb_false_iff in H1.
      destruct H1 as [[[_ Ha] Hb] Hc]. apply negb_false_iff in Hc. rewrite Ha, Hc.
      apply Nat.ltb_ge in Hb. destruct (Nat.leb_spec (List.length p) 3); [done|lia]. }
    destruct (Nat.eqb (List.length out) 4 || _ || _ || _) eqn:E1.
    + split; [done|]. intros (vs & -> & Hl & Ho & Hall & ->). exfalso.
      apply Forall_cons in Hall as [Hp Hall]. unfold octet_text in Hp.
      rewrite !andb_true_iff in Hp. destruct Hp as [[[[Ha Hb] Hc] _] _].
      apply negb_true_iff in Ha. apply Nat.leb_le in Hb. rewrite Ha, Hc in E1.
      destruct (Nat.ltb_spec 3 (List.length p)); [lia|]. cbn [negb] in E1.
      rewrite !orb_false_r in E1. to_prop. rewrite length_app in Hl. cbn in Hl. lia.
    + destruct (Nat.ltb 1 (List.length p) && _) eqn:E2.
      * split; [done|]. intros (vs & -> & Hl & Ho & Hall & ->). exfalso.
        apply Forall_cons in Hall as [Hp Hall]. unfold octet_text in Hp.
        rewrite E2 in Hp. cbn in Hp. rewrite andb_false_r in Hp. done.
      * specialize (Hguard eq_refl eq_refl).
        destruct (Z.ltb_spec 255 (digits_val p)) as [E3|E3].
        -- split; [done|]. intros (vs & -> & Hl & Ho & Hall & ->). exfalso.
           apply Forall_cons in Hall as [Hp Hall]. rewrite Hguard in Hp. lia.
        -- rewrite IH. assert (octet_text p = true) by (rewrite Hguard; lia).
           to_prop. split.
           ++ intros (vs & -> & Hl & Ho & Hall & ->). exists (digits_val p :: map digits_val parts).
              rewrite <- app_assoc in *. cbn in *. rewrite length_app in Ho.
              repeat split; [done|lia|by constructor].
           ++ intros (vs & -> & Hl & Ho & Hall & ->). apply Forall_cons in Hall as [_ Hall].
              exists (map digits_val parts). rewrite <- app_assoc. cbn in *.
              rewrite !length_app in *. cbn in *. by repeat split; [lia|lia|].
Qed.

Lemma parse_ipv4_strict_Some value o :
  parse_ipv4_strict value = Some o <->
  exists parts, split_bytes "."%char value = parts /\ List.length parts = 4%nat
    /\ Forall (fun p => octet_text p = true) parts /\ o = map digits_val parts.
Proof.
  unfold parse_ipv4_strict. rewrite parse_ipv4_parts_Some. cbn [app List.length].
  split.
  - intros (vs & -> & Hl & _ & Hall & ->). rewrite length_map in Hl. by eexists.
  - intros (parts & <- & Hl & Hall & ->). eexists. rewrite length_map. by repeat split; [|lia|].
Qed.

Lemma parse_ipv4_strict_ok value o :
  parse_ipv4_strict value = Some o -> List.length o = 4%nat /\ Forall byte_ok o.
Proof.
  rewrite parse_ipv4_strict_Some. intros (parts & _ & Hl & Hall & ->).
  rewrite length_map. split; [done|]. apply Forall_map.
  eapply Forall_impl; [exact Hall|]. exact octet_text_val.
Qed.

Lemma octet_text_no_char c p :
  is_ascii_digit c = false -> octet_text p = true ->
  forallb (fun a => negb (Ascii.eqb a c)) p = true.
Proof. intros Hc Hp. unfold octet_text in Hp. to_prop. by apply digits_no_char. Qed.

(** Parsing reads back every printed IPv4 address. *)
Lemma parse_show_ipv4 o :
  List.length o = 4%nat -> Forall byte_ok o -> parse_ipv4_strict (show_ipv4 o) = Some o.
Proof.
  intros Hl Ho. apply parse_ipv4_strict_Some. exists (map show_nonneg o).
  assert (Hoct : Forall (fun p => octet_text p = true) (map show_nonneg o)).
  { apply Forall_map. eapply Forall_impl; [exact Ho|]. exact show_octet_text. }
  rewrite length_map. split; [|split; [done|split; [done|]]].
  - unfold show_ipv4. destruct o as [|a [|b [|c [|d [|]]]]]; try done. cbn [map intercalate] in *.
    repeat match goal with H : Forall _ (_ :: _) |- _ => inversion H; clear H; subst end.
    rewrite !split_bytes_app, split_bytes_single by (by apply octet_text_no_char). done.
  - rewrite map_map. rewrite <- (map_id o) at 1. apply map_ext_in. intros v Hv.
    rewrite show_nonneg_val; [done|]. rewrite Forall_forall in Ho.
    apply list_elem_of_In, Ho in Hv. unfold byte_ok in Hv. lia.
Qed.

(** An accepted IPv4 spelling is the printed form of the address: there is
    exactly one spelling of each address. *)
Lemma show_parse_ipv4 value o : parse_ipv4_strict value = Some o -> show_ipv4 o = value.
Proof.
  rewrite parse_ipv4_strict_Some. intros (parts & Hs & _ & Hall & ->).
  unfold show_ipv4. rewrite map_map. rewrite <- (intercalate_split "."%char value), Hs.
  f_equal. rewrite <- (map_id parts) at 2. apply map_ext_in. intros p Hp.
  apply show_octet_val. rewrite Forall_forall in Hall. by apply Hall, list_elem_of_In.
Qed.

(** ** Masks *)
Lemma length_mask_bytes len n : List.length (mask_bytes len n) = len.
Proof.
  revert n. induction len as [|len IH]; intros n; [done|]. cbn [mask_bytes].
  destruct (Nat.leb 8 n); cbn [List.length]; by rewrite IH.
Qed.

Lemma drop_mask_bytes k len n : drop k (mask_bytes (k + len) n) = mask_bytes len (n - 8 * k).
Proof.
  revert n. induction k as [|k IH]; intros n; [by rewrite Nat.sub_0_r|].
  cbn [Nat.add mask_bytes]. destruct (Nat.leb_spec 8 n); cbn [drop]; rewrite IH; f_equal; lia.
Qed.

(** [b & !(0xff >> n)] clears the low [8 - n] bits. *)
Lemma land_mask_byte b n :
  byte_ok b -> (n < 8)%nat ->
  Z.land b (255 - Z.shiftr 255 (Z.of_nat n)) = b / 2 ^ (8 - Z.of_nat n) * 2 ^ (8 - Z.of_nat n).
Proof.
  intros Hb Hn.
  assert (H : forallb (fun b => forallb (fun n =>
      Z.land b (255 - Z.shiftr 255 (Z.of_nat n)) =? b / 2 ^ (8 - Z.of_nat n) * 2 ^ (8 - Z.of_nat n))
      (seq 0 8)) all_octets = true) by (vm_compute; reflexivity).
  rewrite forallb_forall in H. specialize (H b (octet_in b Hb)).
  rewrite forallb_forall in H. apply Z.eqb_eq, H, in_seq. lia.
Qed.

Lemma land_255 b : byte_ok b -> Z.land b 255 = b.
Proof. intros Hb. change 255 with (Z.ones 8). rewrite Z.land_ones by lia. by apply Z.mod_small. Qed.

Lemma masked_eq_cons x a b y m M :
  masked_eq (a :: x) (b :: y) (m :: M) = (Z.land a m =? Z.land b m) && masked_eq x y M.
Proof. done. Qed.

Lemma masked_eq_zero x y len :
  List.length x = len -> List.length y = len -> Forall byte_ok x -> Forall byte_ok y ->
  masked_eq x y (mask_bytes len 0) = true.
Proof.
  revert x y. induction len as [|len IH]; intros [|a x] [|b y] Hx Hy Ax Ay; try done.
  inversion Ax; inversion Ay; subst. cbn [mask_bytes Nat.leb].
  rewrite masked_eq_cons, IH by (cbn in *; by simplify_eq).
  rewrite !land_mask_byte by (done || lia). change (2 ^ (8 - Z.of_nat 0)) with 256.
  unfold byte_ok in *. rewrite !Z.div_small by lia. done.
Qed.

(** Splitting a quotient by a power of two inside the low part. *)
Lemma div_split a X l e :
  0 <= X < 2 ^ l -> 0 <= e <= l ->
  (a * 2 ^ l + X) / 2 ^ e = a * 2 ^ (l - e) + X / 2 ^ e.
Proof.
  intros HX He. replace (2 ^ l) with (2 ^ (l - e) * 2 ^ e) by (rewrite <- Z.pow_add_r by lia; f_equal; lia).
  rewrite Z.mul_assoc, Z.div_add_l by (apply Z.pow_nonzero; lia). done.
Qed.

Lemma div_split_high a X l k :
  0 <= X < 2 ^ l -> 0 <= l -> 0 <= k -> (a * 2 ^ l + X) / 2 ^ (l + k) = a / 2 ^ k.
Proof.
  intros HX Hl Hk. rewrite Z.pow_add_r by lia. rewrite <- Z.div_div by (apply Z.pow_nonzero || apply Z.pow_pos_nonneg; lia).
  rewrite Z.div_add_l by (apply Z.pow_nonzero; lia). rewrite (Z.div_small X) by done. f_equal; lia.
Qed.

(** The byte-wise comparison under a CIDR mask is the comparison of the
    leading [n] bits of the big-endian values. *)
Lemma masked_eq_spec x y len n :
  List.length x = len -> List.length y = len -> Forall byte_ok x -> Forall byte_ok y ->
  (n <= 8 * len)%nat ->
  masked_eq x y (mask_bytes len n) = true <->
  be x / 2 ^ (8 * Z.of_nat len - Z.of_nat n) = be y / 2 ^ (8 * Z.of_nat len - Z.of_nat n).
Proof.
  revert x y n. induction len as [|len IH]; intros [|a x] [|b y] n Hx Hy Ax Ay Hn; try done.
  cbn in Hx, Hy. injection Hx as Hx. injection Hy as Hy.
  inversion Ax as [|? ? Ha Ax']; inversion Ay as [|? ? Hb Ay']; subst.
  pose proof (be_range x Ax') as Rx. pose proof (be_range y Ay') as Ry.
  rewrite !be_cons, Hy in *. rewrite pow256 in *. set (l := Z.of_nat (List.length x)) in *.
  replace (8 * Z.of_nat (S (List.length x))) with (8 * l + 8) by lia.
  cbn [mask_bytes]. destruct (Nat.leb_spec 8 n) as [H8|H8]; rewrite masked_eq_cons, andb_true_iff, Z.eqb_eq.
  - rewrite !land_255 by done. rewrite (IH x y (n - 8)%nat) by (done || lia).
    replace (8 * l - Z.of_nat (n - 8)) with (8 * l + 8 - Z.of_nat n) by lia.
    set (e := 8 * l + 8 - Z.of_nat n). assert (He : 0 <= e <= 8 * l) by lia.
    rewrite !(div_split _ _ (8 * l)) by done.
    assert (Hq : forall X, 0 <= X < 2 ^ (8 * l) -> 0 <= X / 2 ^ e < 2 ^ (8 * l - e)).
    { intros X HX. split; [apply Z.div_pos; [lia|apply Z.pow_pos_nonneg; lia]|].
      apply Z.div_lt_upper_bound; [apply Z.pow_pos_nonneg; lia|].
      rewrite <- Z.pow_add_r by lia. replace (e + (8 * l - e)) with (8 * l) by lia. lia. }
    pose proof (Hq (be x) Rx). pose proof (Hq (be y) Ry).
    split; [intros [-> ->]; done|]. intros E. assert (a = b) by nia. subst b. split; [done|lia].
  - rewrite masked_eq_zero by done. rewrite !land_mask_byte by done.
    replace (8 * l + 8 - Z.of_nat n) with (8 * l + (8 - Z.of_nat n)) by lia.
    rewrite !div_split_high by lia.
    assert (0 < 2 ^ (8 - Z.of_nat n)) by (apply Z.pow_pos_nonneg; lia).
    split; [intros [E _]; nia|]. intros ->. done.
Qed.

(** [mask.Size()] of a CIDR mask is its prefix length. *)
Lemma leading_ones_mask n : (n < 8)%nat ->
  leading_ones (255 - Z.shiftr 255 (Z.of_nat n)) = n
  /\ Z.shiftl (255 - Z.shiftr 255 (Z.of_nat n)) (Z.of_nat n) mod 256 = 0
  /\ (255 - Z.shiftr 255 (Z.of_nat n)) <> 255.
Proof. intros H. do 8 (destruct n as [|n]; [by vm_compute|]). lia. Qed.

Lemma simple_mask_loop_zero len ones :
  simple_mask_loop (mask_bytes len 0) ones true = Some ones.
Proof. induction len; cbn; done. Qed.

Lemma simple_mask_loop_spec len n ones :
  (n <= 8 * len)%nat -> simple_mask_loop (mask_bytes len n) ones false = Some (ones + n)%nat.
Proof.
  revert n ones. induction len as [|len IH]; intros n ones Hn; cbn [mask_bytes simple_mask_loop].
  { f_equal. lia. }
  destruct (Nat.leb_spec 8 n) as [H|H]; cbn [simple_mask_loop].
  - rewrite Z.eqb_refl, IH by lia. f_equal. lia.
  - destruct (leading_ones_mask n H) as (-> & -> & Hne).
    destruct (Z.eqb_spec (255 - Z.shiftr 255 (Z.of_nat n)) 255); [done|].
    cbn [Z.eqb]. apply simple_mask_loop_zero.
Qed.

Lemma simple_mask_length_spec len n :
  (n <= 8 * len)%nat -> simple_mask_length (mask_bytes len n) = Some n.
Proof. intros. by apply (simple_mask_loop_spec len n 0). Qed.

Lemma mask_cidr_Some ones bits m :
  mask_cidr ones bits = Some m ->
  (bits = 32 \/ bits = 128)%nat /\ (ones <= bits)%nat /\ m = mask_bytes (bits / 8) ones.
Proof.
  unfold mask_cidr. intros H. cases_in H. simplify_eq. apply orb_false_iff in E as [E1 E2].
  apply Nat.ltb_ge in E2. apply andb_false_iff in E1. split; [|done].
  destruct E1 as [E1|E1]; apply negb_false_iff, Nat.eqb_eq in E1; lia.
Qed.

Lemma mask_size_cidr ones bits m : mask_cidr ones bits = Some m -> mask_size m = (ones, bits).
Proof.
  intros (Hb & Ho & ->)%mask_cidr_Some. unfold mask_size.
  destruct Hb as [-> | ->]; cbn [Nat.div Nat.divmod fst];
    rewrite simple_mask_length_spec, length_mask_bytes by lia; done.
Qed.

(** ** Networks *)

(** The 4-byte form of IPv4 and IPv4-mapped addresses, else the address. *)
Definition canon (ip : IP) : IP := match to4 ip with Some v4 => v4 | None => ip end.

Definition wf_ip (ip : IP) : Prop :=
  (List.length ip = 4%nat \/ List.length ip = 16%nat) /\ Forall byte_ok ip.

(** A network seen as its number [nn] and prefix length [p]: what [Contains]
    compares. *)
Record net_view (n : IPNet) (nn : IP) (p : nat) : Prop := {
  nv_number : network_number_and_mask n = Some (nn, mask_bytes (List.length nn) p);
  nv_length : List.length nn = 4%nat \/ List.length nn = 16%nat;
  nv_bytes : Forall byte_ok nn;
  nv_prefix : (p <= 8 * List.length nn)%nat;
}.

(** The leading [p] bits of an address *)
Definition prefix_of (p : nat) (ip : IP) : Z :=
  be ip / 2 ^ (8 * Z.of_nat (List.length ip) - Z.of_nat p).

(** The [match] on a length of 4 or 16, as tests. *)
Lemma match_4_16 {A} (n : nat) (a b c : A) :
  match n with 4%nat => a | 16%nat => b | _ => c end
  = if Nat.eqb n 4 then a else if Nat.eqb n 16 then b else c.
Proof. do 17 (destruct n as [|n]; [done|]). done. Qed.

Lemma to4_Some ip v4 :
  to4 ip = Some v4 ->
  List.length v4 = 4%nat /\ (List.length ip = 4%nat \/ List.length ip = 16%nat)
  /\ (Forall byte_ok ip -> Forall byte_ok v4).
Proof.
  unfold to4. rewrite match_4_16.
  destruct (Nat.eqb_spec (List.length ip) 4) as [E|E].
  { intros H. simplify_eq. split; [done|split; [by left|auto]]. }
  destruct (Nat.eqb_spec (List.length ip) 16) as [E'|E']; [|done].
  intros H. destruct (has_v4_prefix ip); simplify_eq. rewrite length_drop.
  split; [lia|split; [by right|]]. by apply Forall_drop.
Qed.

Lemma to4_length4 ip : List.length ip = 4%nat -> to4 ip = Some ip.
Proof. unfold to4. by intros ->. Qed.

Lemma canon_wf ip : wf_ip ip -> wf_ip (canon ip).
Proof.
  intros [Hl Hb]. unfold canon. destruct (to4 ip) as [v4|] eqn:E; [|by split].
  apply to4_Some in E as (E1 & _ & E2). split; [by left|auto].
Qed.

Lemma to4_mapped o : List.length o = 4%nat -> to4 (V4_IN_V6_PREFIX ++ o) = Some o.
Proof.
  intros Ho. unfold to4. rewrite match_4_16, length_app, Ho. cbn [List.length V4_IN_V6_PREFIX Nat.add Nat.eqb].
  reflexivity.
Qed.

Lemma canon_mapped o : List.length o = 4%nat -> canon (V4_IN_V6_PREFIX ++ o) = o.
Proof. intros Ho. unfold canon. by rewrite to4_mapped. Qed.

Lemma network_number_canon n nn m :
  network_number_and_mask n = Some (nn, m) ->
  canon (net_ip n) = nn /\ (List.length (net_ip n) = 4%nat \/ List.length (net_ip n) = 16%nat).
Proof.
  unfold network_number_and_mask, canon. intros H.
  destruct (to4 (net_ip n)) as [v4|] eqn:E.
  - apply to4_Some in E as (Hl4 & Hl & _). split; [|done]. rewrite match_4_16, Hl4 in H. cbn in H.
    cases_in H; by simplify_eq.
  - destruct (Nat.eqb_spec (List.length (net_ip n)) 16) as [Hl|]; [|done]. cbn [negb] in H.
    split; [|by right]. rewrite match_4_16, Hl in H. cbn in H. cases_in H; by simplify_eq.
Qed.

(** [Contains] is the comparison of the leading bits. *)
Lemma net_contains_spec n nn p ip :
  net_view n nn p -> wf_ip ip ->
  net_contains n ip = true <->
  List.length (canon ip) = List.length nn /\ prefix_of p (canon ip) = prefix_of p nn.
Proof.
  intros [Hn Hl Hb Hp] Hip. unfold net_contains. rewrite Hn. fold (canon ip).
  destruct (Nat.eqb_spec (List.length (canon ip)) (List.length nn)) as [E|E]; cbn [negb].
  - unfold prefix_of. rewrite E. apply canon_wf in Hip as [_ Hb'].
    rewrite masked_eq_spec by done. split; [by intros ->|by intros [_ ->]].
  - split; [done|]. by intros [? _].
Qed.

Lemma net_view_self n nn p : net_view n nn p -> wf_ip nn /\ canon (net_ip n) = nn /\ canon nn = nn.
Proof.
  intros [Hn Hl Hb Hp]. apply network_number_canon in Hn as [Hc _]. split; [by split|].
  split; [done|]. subst nn. unfold canon. destruct (to4 (net_ip n)) as [v4|] eqn:E.
  - apply to4_Some in E as (E & _ & _). by rewrite to4_length4.
  - by rewrite E.
Qed.

Lemma net_contains_canon n ip : net_contains n (canon ip) = net_contains n ip.
Proof.
  unfold net_contains, canon. destruct (to4 ip) as [v4|] eqn:E; [|by rewrite E].
  pose proof (to4_Some _ _ E) as (E' & _ & _). by rewrite to4_length4.
Qed.

Lemma prefix_of_le p q a b :
  List.length a = List.length b -> (p <= q)%nat -> (q <= 8 * List.length a)%nat ->
  prefix_of q a = prefix_of q b -> prefix_of p a = prefix_of p b.
Proof.
  unfold prefix_of. intros Hl Hpq Hq. rewrite <- Hl. set (L := 8 * Z.of_nat (List.length a)). intros E.
  replace (L - Z.of_nat p) with ((L - Z.of_nat q) + (Z.of_nat q - Z.of_nat p)) by lia.
  rewrite Z.pow_add_r by lia.
  rewrite <- !Z.div_div by (apply Z.pow_nonzero || apply Z.pow_pos_nonneg; lia). by rewrite E.
Qed.

(** Two networks overlap exactly when some address lies in both. *)
Lemma networks_overlap_iff a b na nb p q :
  net_view a na p -> net_view b nb q ->
  networks_overlap a b = true <->
  exists ip, wf_ip ip /\ net_contains a ip = true /\ net_contains b ip = true.
Proof.
  intros Ha Hb. destruct (net_view_self _ _ _ Ha) as (Wa & Ca & Cna).
  destruct (net_view_self _ _ _ Hb) as (Wb & Cb & Cnb).
  unfold networks_overlap. rewrite orb_true_iff.
  rewrite <- (net_contains_canon a), <- (net_contains_canon b), Ca, Cb.
  rewrite (net_contains_spec a na p nb Ha Wb), (net_contains_spec b nb q na Hb Wa), Cna, Cnb.
  split.
  - intros [[Hl E]|[Hl E]].
    + exists nb. rewrite (net_contains_spec a na p), (net_contains_spec b nb q), Cnb by done. done.
    + exists na. rewrite (net_contains_spec a na p), (net_contains_spec b nb q), Cna by done. done.
  - intros (ip & Wip & Hia & Hib).
    apply (net_contains_spec a na p ip Ha Wip) in Hia as [La Ea].
    apply (net_contains_spec b nb q ip Hb Wip) in Hib as [Lb Eb].
    destruct Ha as [_ _ _ Hp], Hb as [_ _ _ Hq].
    destruct (Nat.le_ge_cases p q) as [H|H]; [left|right]; (split; [congruence|]).
    + rewrite <- Ea. symmetry. apply (prefix_of_le p q); [done|done|lia|done].
    + rewrite <- Eb. symmetry. apply (prefix_of_le q p); [done|done|lia|done].
Qed.

(** ** IPv6 text: what the reader returns *)
Definition u16_ok (g : Z) : Prop := 0 <= g < 65536.

Lemma read_number_range radix digit maxd zp limit l v r :
  (forall a d, digit a = Some d -> 0 <= d) -> 0 <= radix ->
  read_number radix digit maxd zp limit l = Some (v, r) -> 0 <= v <= limit.
Proof.
  intros Hd Hr H. unfold read_number in H. cbv zeta in H.
  destruct (take_while _ l) as [|a ds]; [done|].
  destruct (Nat.ltb maxd _ || (limit <? _) || _) eqn:E; [done|]. to_prop.
  injection H as <- _. split; [|done].
  clear - Hd Hr.
  assert (Hg : forall l n, 0 <= n ->
    0 <= fold_left (fun n a => n * radix + match digit a with Some d => d | None => 0 end) l n).
  { induction l as [|b l IH]; intros n Hn; cbn; [done|]. apply IH.
    destruct (digit b) eqn:E; [apply Hd in E|]; nia. }
  apply (Hg (a :: ds) 0). lia.
Qed.

Lemma dec_val_nonneg a d : dec_val a = Some d -> 0 <= d.
Proof. unfold dec_val, is_ascii_digit, digit_val. intros H. cases_in H. simplify_eq. to_prop. lia. Qed.

Lemma hex_val_nonneg a d : hex_val a = Some d -> 0 <= d.
Proof. intros H. apply hex_val_range in H. lia. Qed.

Lemma read_separator_Some {A} sep i (inner : bytes -> option (A * bytes)) l x :
  read_separator sep i inner l = Some x -> exists l', inner l' = Some x.
Proof. unfold read_separator. intros H. cases_in H; by eexists. Qed.

Lemma read_ipv4_groups_ok n i l gs r :
  read_ipv4_groups n i l = Some (gs, r) -> List.length gs = n /\ Forall byte_ok gs.
Proof.
  revert i l gs r. induction n as [|n IH]; intros i l gs r H; cbn in H; [by simplify_eq|].
  destruct (read_separator _ _ _ l) as [[g l1]|] eqn:E1; [|done].
  destruct (read_ipv4_groups n (S i) l1) as [[gs' l2]|] eqn:E2; [|done]. simplify_eq.
  apply read_separator_Some in E1 as [l' E1]. apply read_number_range in E1; [|exact dec_val_nonneg|lia].
  apply IH in E2 as [<- Hgs]. split; [done|]. constructor; [unfold byte_ok; lia|done].
Qed.

Lemma read_groups_ok slots i l gs v4 r :
  read_groups slots i l = (gs, v4, r) -> (List.length gs <= slots)%nat /\ Forall u16_ok gs.
Proof.
  revert i l gs v4 r. induction slots as [|slots IH]; intros i l gs v4 r H; cbn in H; [by simplify_eq|].
  destruct (if Nat.ltb 0 slots then _ else _) as [[o l']|] eqn:E1.
  - destruct (Nat.ltb_spec 0 slots); [|done].
    apply read_separator_Some in E1 as [l1 E1]. apply read_ipv4_groups_ok in E1 as [Hl Hb].
    destruct o as [|a [|b [|c [|d [|]]]]]; try done. simplify_eq.
    repeat match goal with H : Forall _ (_ :: _) |- _ => inversion H; clear H; subst end.
    unfold byte_ok, u16_ok in *. split; [cbn; lia|]. repeat constructor; lia.
  - clear E1. destruct (read_separator _ _ _ l) as [[g l']|] eqn:E2.
    + destruct (read_groups slots (S i) l') as [[gs' v4'] l''] eqn:E3. simplify_eq.
      apply read_separator_Some in E2 as [l1 E2]. apply read_number_range in E2; [|exact hex_val_nonneg|lia].
      apply IH in E3 as [Hl Hg]. split; [cbn; lia|]. constructor; [unfold u16_ok; lia|done].
    + simplify_eq. split; [cbn; lia|constructor].
Qed.

Lemma ipv6_octets_ok gs :
  Forall u16_ok gs -> List.length (ipv6_octets gs) = (2 * List.length gs)%nat /\ Forall byte_ok (ipv6_octets gs).
Proof.
  unfold ipv6_octets. induction 1 as [|g gs Hg _ [IH1 IH2]]; [done|]. cbn [map concat app List.length].
  rewrite IH1. split; [lia|]. unfold u16_ok in Hg. unfold byte_ok in *.
  constructor; [dlia|]. constructor; [dlia|done].
Qed.

Lemma parse_ipv6_ok l o : parse_ipv6 l = Some o -> List.length o = 16%nat /\ Forall byte_ok o.
Proof.
  unfold parse_ipv6, read_ipv6_addr. intros H.
  destruct (read_groups 8 0 l) as [[head v4] l1] eqn:E. apply read_groups_ok in E as [Hl Hg].
  destruct (Nat.eqb_spec (List.length head) 8) as [E8|E8].
  - destruct l1; simplify_eq. destruct (ipv6_octets_ok head Hg) as [-> ?]. split; [lia|done].
  - destruct v4; [done|]. destruct (read_char _ l1) as [l2|]; [|done].
    destruct (read_char _ l2) as [l3|]; [|done].
    destruct (read_groups (8 - (List.length head + 1)) 0 l3) as [[tail v4'] l4] eqn:E2.
    apply read_groups_ok in E2 as [Hl2 Hg2]. destruct l4; simplify_eq.
    match goal with |- context [ipv6_octets ?g] => destruct (ipv6_octets_ok g) as [-> ?] end.
    + apply Forall_app. split; [done|]. apply Forall_app. split; [|done].
      apply Forall_forall. intros x Hx%list_elem_of_In%repeat_spec. subst. unfold u16_ok. lia.
    + rewrite !length_app, repeat_length. split; [lia|done].
Qed.

Lemma parse_ip_ok s ip : parse_ip s = Some ip -> wf_ip ip /\ List.length ip = 16%nat.
Proof.
  unfold parse_ip, parse_ip_bytes. intros H. cases_in H; simplify_eq.
  - apply parse_ipv4_strict_ok in E0 as [Hl Hb].
    assert (H16 : List.length (V4_IN_V6_PREFIX ++ l) = 16%nat) by (by rewrite length_app, Hl).
    split; [|done]. split; [by right|]. apply Forall_app. split; [|done].
    unfold V4_IN_V6_PREFIX, byte_ok. repeat constructor; lia.
  - apply parse_ipv6_ok in H as [Hl Hb]. split; [split; [by right|done]|done].
Qed.

Lemma parse_ipv4_ok s ip : parse_ipv4 s = Some ip -> wf_ip ip /\ List.length ip = 4%nat.
Proof.
  unfold parse_ipv4. destruct (parse_ip s) as [ip16|] eqn:E; [|done]. intros H.
  apply parse_ip_ok in E as [[_ Hb] _]. apply to4_Some in H as (Hl & _ & H).
  split; [split; [by left|auto]|done].
Qed.

(** ** [parse_cidr] *)
Lemma ip_mask_length4 o m :
  List.length o = 4%nat -> List.length m = 4%nat -> Forall byte_ok o ->
  ip_mask (V4_IN_V6_PREFIX ++ o) m = Some (land_bytes o m).
Proof.
  intros Ho Hm _. unfold ip_mask.
  assert (Hl : List.length (V4_IN_V6_PREFIX ++ o) = 16%nat) by (by rewrite length_app, Ho).
  rewrite Hl, Hm. cbn [Nat.eqb andb]. rewrite Hm. cbn [Nat.eqb andb].
  change (has_v4_prefix (V4_IN_V6_PREFIX ++ o)) with true.
  change (drop 12 (V4_IN_V6_PREFIX ++ o)) with o. cbn [negb Nat.eqb]. by rewrite ?Hm, ?Ho.
Qed.

Lemma ip_mask_length16 ip m :
  List.length ip = 16%nat -> List.length m = 16%nat ->
  ip_mask ip m = Some (land_bytes ip m).
Proof.
  intros Hi Hm. unfold ip_mask. rewrite Hi, Hm. cbn [Nat.eqb andb]. rewrite Hm.
  cbn [Nat.eqb andb]. by rewrite Hi.
Qed.

Lemma land_bytes_ok a m :
  Forall byte_ok a -> Forall byte_ok m -> List.length a = List.length m ->
  List.length (land_bytes a m) = List.length a /\ Forall byte_ok (land_bytes a m).
Proof.
  intros Ha. revert m. induction Ha as [|x a Hx _ IH]; intros [|y m] Hm Hl; try done.
  inversion Hm; subst. injection Hl as Hl. destruct (IH m) as [IH1 IH2]; [done|done|].
  unfold land_bytes in *. cbn. rewrite IH1. split; [done|]. constructor; [|done].
  rewrite <- (land_255 x) by done.
  replace (Z.land (Z.land x 255) y) with (Z.land (Z.land x y) (Z.ones 8))
    by (by rewrite <- !Z.land_assoc, (Z.land_comm y)).
  rewrite Z.land_ones by lia. apply Z.mod_pos_bound. lia.
Qed.

Lemma mask_bytes_ok len n : Forall byte_ok (mask_bytes len n).
Proof.
  revert n. induction len as [|len IH]; intros n; [done|]. cbn [mask_bytes].
  destruct (Nat.leb_spec 8 n) as [H|H]; constructor; try apply IH; unfold byte_ok.
  - lia.
  - do 8 (destruct n as [|n]; [by vm_compute|]). lia.
Qed.

(** How [parse_cidr] builds its result. *)
Lemma parse_cidr_Some s ip n :
  parse_cidr s = Some (ip, n) ->
  exists p, (exists o, ip = V4_IN_V6_PREFIX ++ o /\ List.length o = 4%nat /\ Forall byte_ok o
               /\ (p <= 32)%nat /\ n = mkIPNet (land_bytes o (mask_bytes 4 p)) (mask_bytes 4 p))
         \/ (List.length ip = 16%nat /\ Forall byte_ok ip /\ (p <= 128)%nat
               /\ n = mkIPNet (land_bytes ip (mask_bytes 16 p)) (mask_bytes 16 p)).
Proof.
  unfold parse_cidr, parse_cidr_bytes. intros H.
  destruct (split_once_bytes _ _) as [[addr mask]|]; [|done]. destruct (has_byte "%"%char addr); [done|].
  destruct (dtoi mask) as [[k i] ok].
  destruct (parse_ipv4_strict addr) as [o|] eqn:E.
  - destruct (_ || _ || _ || _); [done|].
    destruct (mask_cidr (Z.to_nat k) 32) as [m|] eqn:Em; [|done].
    apply mask_cidr_Some in Em as (_ & Hle & ->). apply parse_ipv4_strict_ok in E as [Hl Hb].
    change (32 / 8)%nat with 4%nat in *.
    rewrite ip_mask_length4 in H by (rewrite ?length_mask_bytes; done). simplify_eq. exists (Z.to_nat k). left. by exists o.
  - destruct (has_byte ":"%char addr); [|done].
    destruct (parse_ipv6 addr) as [v6|] eqn:E6; [|done].
    destruct (_ || _ || _ || _); [done|].
    destruct (mask_cidr (Z.to_nat k) 128) as [m|] eqn:Em; [|done].
    apply mask_cidr_Some in Em as (_ & Hle & ->). apply parse_ipv6_ok in E6 as [Hl Hb].
    change (128 / 8)%nat with 16%nat in *.
    rewrite ip_mask_length16 in H by (rewrite ?length_mask_bytes; done). simplify_eq. exists (Z.to_nat k). by right.
Qed.

Lemma net_view_v4 o p :
  List.length o = 4%nat -> Forall byte_ok o -> (p <= 32)%nat ->
  net_view (mkIPNet (land_bytes o (mask_bytes 4 p)) (mask_bytes 4 p))
    (land_bytes o (mask_bytes 4 p)) p.
Proof.
  intros Hl Hb Hp.
  destruct (land_bytes_ok o (mask_bytes 4 p)) as [Ll Lb];
    [done|apply mask_bytes_ok|by rewrite length_mask_bytes|]. rewrite Hl in Ll.
  constructor; rewrite ?Ll; try done; [|by left].
  unfold network_number_and_mask. cbn [net_ip net_mask].
  rewrite to4_length4, match_4_16, length_mask_bytes, Ll by done. done.
Qed.

Lemma net_view_v6 ip p :
  List.length ip = 16%nat -> Forall byte_ok ip -> (p <= 128)%nat ->
  exists nn q, net_view (mkIPNet (land_bytes ip (mask_bytes 16 p)) (mask_bytes 16 p)) nn q
    /\ (List.length nn = 16%nat /\ q = p \/ List.length nn = 4%nat /\ q = (p - 96)%nat).
Proof.
  intros Hl Hb Hp.
  destruct (land_bytes_ok ip (mask_bytes 16 p)) as [Ll Lb];
    [done|apply mask_bytes_ok|by rewrite length_mask_bytes|]. rewrite Hl in Ll.
  set (a := land_bytes ip (mask_bytes 16 p)) in *.
  destruct (to4 a) as [v4|] eqn:E4.
  - apply to4_Some in E4 as E4'. destruct E4' as (L4 & _ & B4).
    exists v4, (p - 96)%nat. split; [|by right]. constructor; rewrite ?L4; try (auto; lia).
    unfold network_number_and_mask. cbn [net_ip net_mask].
    rewrite E4, match_4_16, length_mask_bytes, L4. cbn [Nat.eqb].
    pose proof (drop_mask_bytes 12 4 p) as Hd. cbn [Nat.add Nat.mul] in Hd. by rewrite Hd.
  - exists a, p. split; [|by left]. constructor; rewrite ?Ll; try (auto; lia).
    unfold network_number_and_mask. cbn [net_ip net_mask].
    rewrite E4, Ll. cbn [Nat.eqb negb]. by rewrite match_4_16, length_mask_bytes, Ll.
Qed.

(** Every network [parse_cidr] returns has a view. *)
Lemma parse_cidr_view s ip n :
  parse_cidr s = Some (ip, n) -> wf_ip ip /\ exists nn p, net_view n nn p.
Proof.
  intros H. apply parse_cidr_Some in H as (p & [(o & -> & Hl & Hb & Hp & ->)|(Hl & Hb & Hp & ->)]).
  - split.
    { split; [right; by rewrite length_app, Hl|]. apply Forall_app. split; [|done].
      unfold V4_IN_V6_PREFIX, byte_ok. repeat constructor; lia. }
    exists (land_bytes o (mask_bytes 4 p)), p. by apply net_view_v4.
  - split; [by split; [right|]|]. destruct (net_view_v6 ip p Hl Hb Hp) as (nn & q & Hv & _). eauto.
Qed.

Lemma land_bytes_idem a m : land_bytes (land_bytes a m) m = land_bytes a m.
Proof.
  revert m. induction a as [|x a IH]; intros [|y m]; try done.
  unfold land_bytes in *. cbn. rewrite IH. f_equal. by rewrite <- Z.land_assoc, Z.land_diag.
Qed.

(** Masking does not change the leading bits. *)
Lemma prefix_of_land o p len :
  List.length o = len -> Forall byte_ok o -> (p <= 8 * len)%nat ->
  prefix_of p (land_bytes o (mask_bytes len p)) = prefix_of p o.
Proof.
  intros Hl Hb Hp. unfold prefix_of.
  destruct (land_bytes_ok o (mask_bytes len p)) as [Ll Lb];
    [done|apply mask_bytes_ok|by rewrite length_mask_bytes|]. rewrite Ll, Hl.
  apply masked_eq_spec; [congruence|done|done|done|done|].
  unfold masked_eq. rewrite land_bytes_idem. apply bytes_eqb_refl.
Qed.

Lemma forallb_intercalate (P : ascii -> bool) sep l :
  P sep = true -> Forall (fun w => forallb P w = true) l -> forallb P (intercalate sep l) = true.
Proof.
  intros Hs. induction 1 as [|w l Hw Hl IH]; [done|]. destruct l as [|w' l]; [done|].
  cbn [intercalate] in *. rewrite forallb_app, Hw. cbn [forallb]. by rewrite Hs, IH.
Qed.

Lemma show_ipv4_no_char c o :
  c <> "."%char -> is_ascii_digit c = false -> Forall byte_ok o ->
  forallb (fun a => negb (Ascii.eqb a c)) (show_ipv4 o) = true.
Proof.
  intros Hc Hd Ho. apply forallb_intercalate.
  - destruct (Ascii.eqb_spec "."%char c); [by subst|done].
  - apply Forall_map. eapply Forall_impl; [exact Ho|]. intros v Hv. cbn.
    by apply octet_text_no_char, show_octet_text.
Qed.

Lemma has_byte_false c l :
  forallb (fun a => negb (Ascii.eqb a c)) l = true -> has_byte c l = false.
Proof.
  unfold has_byte. induction l as [|a l IH]; cbn; [done|]. intros H. to_prop.
  by rewrite Ascii.eqb_sym, H, IH.
Qed.

Lemma dtoi_show p : (p <= 128)%nat ->
  dtoi (show_nonneg (Z.of_nat p)) = (Z.of_nat p, List.length (show_nonneg (Z.of_nat p)), true).
Proof.
  intros Hp.
  assert (H : forallb (fun p => bool_decide (dtoi (show_nonneg (Z.of_nat p))
      = (Z.of_nat p, List.length (show_nonneg (Z.of_nat p)), true))) (seq 0 129) = true)
    by (vm_compute; reflexivity).
  rewrite forallb_forall in H. specialize (H p ltac:(apply in_seq; lia)). by to_prop.
Qed.

Lemma ip_bytes_string_v4 o : List.length o = 4%nat -> ip_bytes_string o = show_ipv4 o.
Proof. intros Ho. unfold ip_bytes_string. rewrite to4_length4 by done. by destruct o. Qed.

(** Parsing the printed form of an IPv4 prefix. *)
Lemma parse_cidr_show o p :
  List.length o = 4%nat -> Forall byte_ok o -> (p <= 32)%nat ->
  parse_cidr_bytes (show_ipv4 o ++ "/"%char :: show_nonneg (Z.of_nat p))
  = Some (V4_IN_V6_PREFIX ++ o, mkIPNet (land_bytes o (mask_bytes 4 p)) (mask_bytes 4 p)).
Proof.
  intros Hl Hb Hp. unfold parse_cidr_bytes.
  rewrite split_once_app by (by apply show_ipv4_no_char).
  rewrite has_byte_false by (by apply show_ipv4_no_char).
  rewrite parse_show_ipv4, dtoi_show by (done || lia). rewrite Nat.eqb_refl. cbn [negb orb].
  destruct (Z.ltb_spec (Z.of_nat p) 0); [lia|].
  destruct (Z.ltb_spec (Z.of_nat 32) (Z.of_nat p)); [lia|]. cbn [orb]. rewrite Nat2Z.id.
  unfold mask_cidr. destruct (Nat.ltb_spec 32 p); [lia|]. cbn [Nat.eqb negb andb orb].
  change (32 / 8)%nat with 4%nat.
  by rewrite ip_mask_length4 by (rewrite ?length_mask_bytes; done).
Qed.

(** ** MAC addresses *)
Lemma xtoi2_show x sep rest :
  byte_ok x -> match rest with a :: _ => a = sep | [] => True end ->
  xtoi2 (show_hex2 x ++ rest) sep = Some x.
Proof.
  intros Hx Hr. unfold byte_ok in Hx. unfold xtoi2, show_hex2. cbn [app nth List.length].
  replace (Nat.ltb 2 (S (S (List.length rest))) && negb (Ascii.eqb (nth 0 rest sep) sep)) with false.
  - rewrite !hex_val_digit by dlia. f_equal. dlia.
  - destruct rest as [|a rest]; [done|]. cbn [nth]. rewrite Hr, Ascii.eqb_refl. by rewrite andb_false_r.
Qed.

Lemma mac_pairs_S n sep b :
  mac_pairs (S n) sep b
  = let! x := xtoi2 b sep in let! rest := mac_pairs n sep (drop 3 b) in Some (x :: rest).
Proof. reflexivity. Qed.

Lemma mac_pairs_show hw :
  Forall byte_ok hw -> mac_pairs (List.length hw) ":"%char (mac_bytes_string hw) = Some hw.
Proof.
  unfold mac_bytes_string. induction 1 as [|x hw Hx Hhw IH]; [done|].
  destruct hw as [|y hw].
  - cbn [map intercalate List.length mac_pairs]. rewrite <- (app_nil_r (show_hex2 x)).
    by rewrite xtoi2_show.
  - change (intercalate ":"%char (map show_hex2 (x :: y :: hw))) with
      (show_hex2 x ++ ":"%char :: intercalate ":"%char (map show_hex2 (y :: hw))).
    change (List.length (x :: y :: hw)) with (S (List.length (y :: hw))).
    rewrite mac_pairs_S, xtoi2_show by done.
    change (drop 3 (show_hex2 x ++ ":"%char :: intercalate ":"%char (map show_hex2 (y :: hw))))
      with (intercalate ":"%char (map show_hex2 (y :: hw))). by rewrite IH.
Qed.

Lemma length_mac_bytes_string hw :
  hw <> [] -> (List.length (mac_bytes_string hw) + 1 = 3 * List.length hw)%nat.
Proof.
  unfold mac_bytes_string. induction hw as [|x hw IH]; [done|]. intros _.
  destruct hw as [|y hw]; [done|].
  change (intercalate ":"%char (map show_hex2 (x :: y :: hw))) with
    (show_hex2 x ++ ":"%char :: intercalate ":"%char (map show_hex2 (y :: hw))).
  rewrite length_app. change (List.length (show_hex2 x)) with 2%nat.
  cbn [List.length] in *. specialize (IH ltac:(done)). lia.
Qed.

Lemma parse_mac_show hw :
  mac_length_ok (List.length hw) = true -> Forall byte_ok hw ->
  parse_mac_bytes (mac_bytes_string hw) = Some hw.
Proof.
  intros Hl Hb. assert (Hl' : (6 <= List.length hw)%nat).
  { unfold mac_length_ok in Hl. rewrite !orb_true_iff, !Nat.eqb_eq in Hl. lia. }
  pose proof (length_mac_bytes_string hw ltac:(by destruct hw; [cbn in Hl'; lia|])) as Hlen.
  unfold parse_mac_bytes. rewrite Hlen.
  destruct (Nat.ltb_spec (List.length (mac_bytes_string hw)) 14); [lia|].
  rewrite (Nat.mul_comm 3), Nat.Div0.mod_mul, Nat.div_mul, Hl by done. cbn [Nat.eqb negb].
  replace (nth 2 (mac_bytes_string hw) "000"%char) with ":"%char.
  - rewrite Ascii.eqb_refl. cbn [orb]. by apply mac_pairs_show.
  - destruct hw as [|x [|y hw]]; [cbn in Hl'; lia|cbn in Hl'; lia|]. reflexivity.
Qed.

Lemma xtoi2_ok s sep v : xtoi2 s sep = Some v -> byte_ok v.
Proof.
  unfold xtoi2. intros H. cases_in H. simplify_eq.
  repeat match goal with E : hex_val _ = Some _ |- _ => apply hex_val_range in E end.
  unfold byte_ok. lia.
Qed.

Lemma mac_pairs_ok n sep b hw : mac_pairs n sep b = Some hw -> Forall byte_ok hw.
Proof.
  revert b hw. induction n as [|n IH]; intros b hw H; cbn in H; [by simplify_eq|].
  cases_in H; simplify_eq. constructor; [by eapply xtoi2_ok|by eapply IH].
Qed.

Lemma mac_quads_ok n sep b hw : mac_quads n sep b = Some hw -> Forall byte_ok hw.
Proof.
  revert b hw. induction n as [|n IH]; intros b hw H; cbn in H; [by simplify_eq|].
  cases_in H; simplify_eq. constructor; [by eapply xtoi2_ok|].
  constructor; [by eapply xtoi2_ok|by eapply IH].
Qed.

Lemma parse_mac_ok s hw : parse_mac s = Some hw -> Forall byte_ok hw.
Proof.
  unfold parse_mac, parse_mac_bytes. cbv zeta. intros H.
  cases_in H; first [by eapply mac_pairs_ok | by eapply mac_quads_ok].
Qed.

(** ** host:port *)
Lemma rfind_byte_none c l : forallb (fun a => negb (Ascii.eqb a c)) l = true -> rfind_byte c l = None.
Proof. induction l as [|a l IH]; cbn; [done|]. intros H. to_prop. by rewrite IH, H. Qed.

Lemma rfind_byte_app c x y :
  forallb (fun a => negb (Ascii.eqb a c)) y = true ->
  rfind_byte c (x ++ c :: y) = Some (List.length x).
Proof.
  intros Hy. induction x as [|a x IH]; cbn [app rfind_byte List.length].
  - rewrite rfind_byte_none by done. by rewrite Ascii.eqb_refl.
  - by rewrite IH.
Qed.

Lemma find_byte_app c x y :
  forallb (fun a => negb (Ascii.eqb a c)) x = true ->
  find_byte c (x ++ c :: y) = Some (List.length x).
Proof.
  intros Hx. induction x as [|a x IH]; cbn in *; [by rewrite Ascii.eqb_refl|].
  to_prop. by rewrite H, IH.
Qed.

Definition free_of (c : ascii) (l : bytes) : bool := forallb (fun a => negb (Ascii.eqb a c)) l.

Lemma free_of_has c l : has_byte c l = negb (free_of c l).
Proof.
  unfold has_byte, free_of. induction l as [|a l IH]; cbn; [done|].
  rewrite Ascii.eqb_sym, IH. by destruct (Ascii.eqb a c).
Qed.

Lemma drop_app_plus {A} (x y : list A) k : drop (List.length x + k) (x ++ y) = drop k y.
Proof. rewrite drop_app_ge by lia. f_equal. lia. Qed.

Lemma split_bracketed h p :
  free_of "["%char h = true -> free_of "]"%char h = true ->
  free_of ":"%char p = true -> free_of "["%char p = true -> free_of "]"%char p = true ->
  split_host_port_bytes ("["%char :: h ++ "]"%char :: ":"%char :: p) = Ok (h, p).
Proof.
  intros Hh1 Hh2 Hp1 Hp2 Hp3. unfold split_host_port_bytes.
  set (l := "["%char :: h ++ "]"%char :: ":"%char :: p).
  assert (Hr : rfind_byte ":"%char l = Some (S (List.length h) + 1)%nat).
  { replace l with (("["%char :: h ++ ["]"%char]) ++ ":"%char :: p) by (unfold l; cbn; by rewrite <- app_assoc).
    rewrite rfind_byte_app by done. f_equal. cbn. rewrite length_app. cbn. lia. }
  assert (Hf : find_byte "]"%char l = Some (S (List.length h)))
    by (unfold l; cbn [find_byte]; change (Ascii.eqb "["%char "]"%char) with false; cbn iota;
        by rewrite find_byte_app).
  assert (Hd : forall k, drop (S (List.length h) + k) l = drop k ("]"%char :: ":"%char :: p))
    by (intros k; apply (drop_app_plus ("["%char :: h))).
  assert (Hlen : List.length l = (S (List.length h) + 2 + List.length p)%nat)
    by (unfold l; cbn; rewrite length_app; cbn; lia).
  rewrite Hr, Hf, Hlen, Nat.eqb_refl.
  destruct (Nat.eqb_spec (S (List.length h) + 1) (S (List.length h) + 2 + List.length p)); [lia|].
  cbn [negb]. rewrite <- Nat.add_assoc, !Hd. cbn [Nat.add drop]. rewrite !free_of_has.
  assert (E1 : free_of "["%char (drop 1 l) = true)
    by (unfold free_of, l in *; cbn [drop]; by rewrite drop_0, forallb_app, Hh1).
  assert (E2 : free_of "]"%char (":"%char :: p) = true) by done.
  rewrite E1, E2. unfold l. cbn [negb take drop]. by rewrite take_app_length, !drop_0.
Qed.

Lemma split_plain h p :
  free_of "["%char h = true -> free_of "]"%char h = true -> has_byte ":"%char h = false ->
  free_of ":"%char p = true -> free_of "["%char p = true -> free_of "]"%char p = true ->
  split_host_port_bytes (h ++ ":"%char :: p) = Ok (h, p).
Proof.
  intros Hh1 Hh2 Hc Hp1 Hp2 Hp3. unfold split_host_port_bytes.
  rewrite rfind_byte_app by done. rewrite take_app_length, Hc.
  assert (E1 : free_of "["%char (h ++ ":"%char :: p) = true)
    by (unfold free_of in *; by rewrite forallb_app, Hh1).
  assert (E2 : free_of "]"%char (h ++ ":"%char :: p) = true)
    by (unfold free_of in *; by rewrite forallb_app, Hh2).
  rewrite !drop_0, !free_of_has, E1, E2, drop_app_plus. cbn [negb drop]. rewrite drop_0.
  destruct h as [|a h']; [done|]. cbn [app]. cbn in Hh1. to_prop.
  destruct (Ascii.eqb_spec a "["%char) as [->|Hne]; [done|].
  by destruct a as [[] [] [] [] [] [] [] []].
Qed.

(** ** Theorems *)

(** IPv4 text.  Printing an address and parsing it gives the address back,
    and every accepted spelling is the printed form of its address: an IPv4
    address has exactly one accepted spelling (no leading zeros). *)
Theorem ipv4_text_roundtrip :
  (forall o, List.length o = 4%nat -> Forall byte_ok o ->
     parse_ipv4_strict (show_ipv4 o) = Some o)
  /\ (forall value o, parse_ipv4_strict value = Some o ->
        show_ipv4 o = value /\ List.length o = 4%nat /\ Forall byte_ok o).
Proof.
  split; [exact parse_show_ipv4|]. intros value o H.
  split; [by apply show_parse_ipv4|by eapply parse_ipv4_strict_ok].
Qed.

(** Membership in a parsed IPv4 network.  An address is contained in the
    network [parse_cidr] returns for [a.b.c.d/p] exactly when it is an IPv4 (or
    IPv4-mapped) address whose leading [p] bits are those of [a.b.c.d]. *)
Theorem parse_cidr_contains_prefix s ip n p x :
  parse_cidr s = Some (ip, n) -> mask_size (net_mask n) = (p, 32%nat) -> wf_ip x ->
  net_contains n x = true <->
  List.length (canon x) = 4%nat
  /\ be (canon x) / 2 ^ (32 - Z.of_nat p) = be (canon ip) / 2 ^ (32 - Z.of_nat p).
Proof.
  intros H Hm Hx.
  apply parse_cidr_Some in H as (p' & [(o & -> & Hl & Hb & Hp & ->)|(_ & _ & Hp & ->)]);
    cbn [net_mask] in Hm; unfold mask_size in Hm;
    rewrite simple_mask_length_spec, length_mask_bytes in Hm by lia; simplify_eq.
  destruct (land_bytes_ok o (mask_bytes 4 p)) as [Ll Lb];
    [done|apply mask_bytes_ok|by rewrite length_mask_bytes|].
  pose proof (net_view_v4 o p Hl Hb Hp) as Hv.
  rewrite (net_contains_spec _ _ _ x Hv Hx), Ll, Hl, prefix_of_land by (done || lia).
  rewrite canon_mapped by done. unfold prefix_of. rewrite Hl.
  split; intros [Hlen E]; split; try done; rewrite Hlen in *; exact E.
Qed.

(** Overlap.  For any two networks [parse_cidr] returns, IPv4 or IPv6, the
    overlap test of the validator answers true exactly when an address exists
    that both networks contain. *)
Theorem parsed_networks_overlap_iff s1 s2 ip1 ip2 a b :
  parse_cidr s1 = Some (ip1, a) -> parse_cidr s2 = Some (ip2, b) ->
  networks_overlap a b = true <->
  exists ip, wf_ip ip /\ net_contains a ip = true /\ net_contains b ip = true.
Proof.
  intros [_ (na & p & Ha)]%parse_cidr_view [_ (nb & q & Hb)]%parse_cidr_view.
  by apply (networks_overlap_iff a b na nb p q).
Qed.

(** CIDR text.  The printed form of a parsed IPv4 network parses to the same
    network: the text the validator uses as a duplicate key identifies the
    network. *)
Theorem ipv4_network_text_roundtrip s ip n p :
  parse_cidr s = Some (ip, n) -> mask_size (net_mask n) = (p, 32%nat) ->
  parse_cidr (net_to_string n) = Some (V4_IN_V6_PREFIX ++ net_ip n, n).
Proof.
  intros H Hm.
  apply parse_cidr_Some in H as (p' & [(o & -> & Hl & Hb & Hp & ->)|(_ & _ & Hp & ->)]);
    cbn [net_mask] in Hm; unfold mask_size in Hm;
    rewrite simple_mask_length_spec, length_mask_bytes in Hm by lia; simplify_eq.
  destruct (land_bytes_ok o (mask_bytes 4 p)) as [Ll Lb];
    [done|apply mask_bytes_ok|by rewrite length_mask_bytes|].
  unfold parse_cidr, net_to_string. rewrite bytes_of_str_of. unfold net_to_bytes.
  unfold network_number_and_mask. cbn [net_ip net_mask].
  rewrite to4_length4, match_4_16, length_mask_bytes, Ll, Hl by congruence. cbn [Nat.eqb negb].
  rewrite simple_mask_length_spec, ip_bytes_string_v4, parse_cidr_show by (congruence || done || lia).
  by rewrite land_bytes_idem.
Qed.

(** Identities of spellings.  Two IPv4 spellings have the same
    [ipv4_identity] exactly when they denote the same address, and two 48-bit
    MAC spellings (colon, dash or dotted, any case) the same [mac_identity]
    exactly when they denote the same hardware address. *)
Theorem address_identity_iff :
  (forall s1 s2 a1 a2, parse_ipv4 s1 = Some a1 -> parse_ipv4 s2 = Some a2 ->
     ipv4_identity s1 = ipv4_identity s2 <-> a1 = a2)
  /\ (forall s1 s2 h1 h2, parse_mac s1 = Some h1 -> parse_mac s2 = Some h2 ->
        List.length h1 = 6%nat -> List.length h2 = 6%nat ->
        mac_identity s1 = mac_identity s2 <-> h1 = h2).
Proof.
  split.
  - intros s1 s2 a1 a2 H1 H2. unfold ipv4_identity. rewrite H1, H2.
    apply parse_ipv4_ok in H1 as [[_ B1] L1]. apply parse_ipv4_ok in H2 as [[_ B2] L2].
    unfold ip_to_string. rewrite !ip_bytes_string_v4 by done. split; [|by intros ->].
    intros E%str_of_inj. apply (f_equal parse_ipv4_strict) in E.
    rewrite !parse_show_ipv4 in E by done. by simplify_eq.
  - intros s1 s2 h1 h2 H1 H2 L1 L2. unfold mac_identity. rewrite H1, H2, L1, L2. cbn [Nat.eqb].
    apply parse_mac_ok in H1, H2. split; [|by intros ->].
    intros E%str_of_inj. apply (f_equal parse_mac_bytes) in E.
    rewrite !parse_mac_show in E by (by rewrite ?L1, ?L2). by simplify_eq.
Qed.

(** Host:port.  Splitting a joined pair gives the pair back, for every host
    without brackets (IPv6 literals included) and every port text without
    colons or brackets. *)
Theorem host_port_roundtrip host port :
  free_of "["%char (bytes_of host) = true -> free_of "]"%char (bytes_of host) = true ->
  free_of ":"%char (bytes_of port) = true -> free_of "["%char (bytes_of port) = true ->
  free_of "]"%char (bytes_of port) = true ->
  split_host_port (join_host_port host port) = Ok (host, port).
Proof.
  intros Hh1 Hh2 Hp1 Hp2 Hp3. unfold join_host_port, contains_char, split_host_port.
  change (existsb (Ascii.eqb ":"%char) (bytes_of host)) with (has_byte ":"%char (bytes_of host)).
  destruct (has_byte ":"%char (bytes_of host)) eqn:Hc; rewrite !bytes_of_app.
  - change (bytes_of "[" ++ bytes_of host ++ bytes_of "]:" ++ bytes_of port)
      with ("["%char :: bytes_of host ++ "]"%char :: ":"%char :: bytes_of port).
    by rewrite split_bracketed, !str_of_bytes_of.
  - change (bytes_of host ++ bytes_of ":" ++ bytes_of port)
      with (bytes_of host ++ ":"%char :: bytes_of port).
    by rewrite split_plain, !str_of_bytes_of.
Qed.

(** ** Instances of the theorems *)
Ltac solve_bytes := repeat (apply List.Forall_cons || apply List.Forall_nil); unfold byte_ok; lia.

Lemma ipv4_text_roundtrip_witness :
  parse_ipv4_strict (show_ipv4 [192; 168; 1; 1]) = Some [192; 168; 1; 1]
  /\ show_ipv4 [10; 0; 0; 7] = bytes_of "10.0.0.7".
Proof.
  split.
  - apply (proj1 ipv4_text_roundtrip); [reflexivity|solve_bytes].
  - apply (proj2 ipv4_text_roundtrip (bytes_of "10.0.0.7") [10; 0; 0; 7]). reflexivity.
Defined.

Definition net24 : IPNet := mkIPNet [192; 168; 1; 0] [255; 255; 255; 0].

Lemma parse_cidr_contains_prefix_witness :
  net_contains net24 [192; 168; 1; 77] = true.
Proof.
  apply (parse_cidr_contains_prefix "192.168.1.1/24" (ip_v4 192 168 1 1) net24 24 [192; 168; 1; 77]).
  - vm_compute. reflexivity.
  - vm_compute. reflexivity.
  - split; [left; reflexivity|solve_bytes].
  - vm_compute. split; reflexivity.
Defined.

Lemma parsed_networks_overlap_witness :
  exists ip, wf_ip ip
    /\ net_contains net24 ip = true
    /\ net_contains (mkIPNet [192; 168; 0; 0] [255; 255; 0; 0]) ip = true.
Proof.
  apply (parsed_networks_overlap_iff "192.168.1.1/24" "192.168.0.0/16"
           (ip_v4 192 168 1 1) (ip_v4 192 168 0 0)); vm_compute; reflexivity.
Defined.

Lemma ipv4_network_text_roundtrip_witness :
  parse_cidr (net_to_string net24) = Some (ip_v4 192 168 1 0, net24).
Proof.
  apply (ipv4_network_text_roundtrip "192.168.1.1/24" (ip_v4 192 168 1 1) net24 24);
    vm_compute; reflexivity.
Defined.

Lemma address_identity_witness :
  ipv4_identity "10.0.0.1" = ipv4_identity "::ffff:10.0.0.1"
  /\ mac_identity "AA-bb-cc-dd-ee-ff" = mac_identity "aabb.ccdd.eeff".
Proof.
  split.
  - apply (proj1 address_identity_iff "10.0.0.1" "::ffff:10.0.0.1" [10; 0; 0; 1] [10; 0; 0; 1]);
      vm_compute; reflexivity.
  - apply (proj2 address_identity_iff "AA-bb-cc-dd-ee-ff" "aabb.ccdd.eeff"
             [170; 187; 204; 221; 238; 255] [170; 187; 204; 221; 238; 255]);
      vm_compute; reflexivity.
Defined.

Lemma host_port_roundtrip_witness :
  split_host_port (join_host_port "fe80::1" "51820") = Ok ("fe80::1", "51820").
Proof. apply host_port_roundtrip; vm_compute; reflexivity. Defined.
