(* ===== verification/GoPath.v ===== *)
(** * Paths

    [mr-core/src/goish/filepath.rs]: Go's lexical path functions with Unix
    semantics.  [clean] is the one-pass loop over a write buffer; it is shown
    equal to the usual description by path elements. *)

From Stdlib Require Import ZArith Ascii String Lia Bool.
From stdpp Require Import base list strings gmap.
From S2P Require Import Prelude GoStrings Net NetSpec.

Local Open Scope string_scope.
Local Open Scope list_scope.

Abbreviation slash := "/"%char.
Abbreviation dot := "."%char.
Definition not_slash (a : ascii) : bool := negb (Ascii.eqb a slash).

(** ** [clean]

    The buffer up to [w], reversed: its head is [buf[w - 1]]. *)

(** [w -= 1; while w > dotdot && buf[w] != b'/' { w -= 1 }] *)
Fixpoint pop_element (dotdot : nat) (out : bytes) : bytes :=
  match out with
  | [] => []
  | b :: t => if Nat.ltb dotdot (List.length t) && not_slash b then pop_element dotdot t else t
  end.

(** [r == n || bytes[r] == b'/'] *)
Definition at_end (l : bytes) : bool := match l with [] => true | b :: _ => Ascii.eqb b slash end.

Fixpoint clean_loop (fuel : nat) (rooted : bool) (l : bytes) (dotdot : nat) (out : bytes) : bytes :=
  match fuel with
  | O => out
  | S fuel' =>
      match l with
      | [] => out
      | a :: t =>
          if Ascii.eqb a slash then clean_loop fuel' rooted t dotdot out
          else if Ascii.eqb a dot && at_end t then clean_loop fuel' rooted t dotdot out
          else if Ascii.eqb a dot && match t with b :: t' => Ascii.eqb b dot && at_end t' | [] => false end then
            let t' := List.tl t in
            if Nat.ltb dotdot (List.length out) then clean_loop fuel' rooted t' dotdot (pop_element dotdot out)
            else if negb rooted then
              let out := dot :: dot :: (if Nat.ltb 0 (List.length out) then slash :: out else out) in
              clean_loop fuel' rooted t' (List.length out) out
            else clean_loop fuel' rooted t' dotdot out
          else
            let sep := (rooted && negb (Nat.eqb (List.length out) 1)) || (negb rooted && negb (Nat.eqb (List.length out) 0)) in
            let out := if sep then slash :: out else out in
            clean_loop fuel' rooted (drop_while not_slash l) dotdot (rev (take_while not_slash l) ++ out)
      end
  end.

Definition clean_bytes (path : bytes) : bytes :=
  match path with
  | [] => [dot]
  | a :: t =>
      let rooted := Ascii.eqb a slash in
      let out :=
        if rooted then clean_loop (List.length t) true t 1 [slash]
        else clean_loop (List.length path) false path 0 [] in
      match out with [] => [dot] | _ => rev out end
  end.
Definition clean (path : string) : string := str_of (clean_bytes (bytes_of path)).

Definition is_abs (path : string) : bool := starts_with "/" path.

Definition is_local (path : string) : bool :=
  if is_abs path || (path =s EmptyString) then false
  else
    let path := if existsb (fun part => (part =s ".") || (part =s "..")) (split slash path) then clean path else path in
    negb ((path =s "..") || starts_with "../" path).

Definition dir (path : string) : string :=
  match rfind_byte slash (bytes_of path) with
  | Some i => str_of (clean_bytes (take (S i) (bytes_of path)))
  | None => "."
  end.

(** [path.trim_end_matches('/')] then the last element *)
Definition base (path : string) : string :=
  if path =s EmptyString then "."
  else
    match rev (drop_while (fun a => Ascii.eqb a slash) (rev (bytes_of path))) with
    | [] => "/"
    | trimmed => str_of (List.last (split_bytes slash trimmed) [])
    end.

(** ** By elements *)

(** Walk the elements: [up] leading [..] and the [stack] of names, innermost
    first; a [..] drops the last name, or climbs when there is none and the
    path is relative. *)
Fixpoint resolve (rooted : bool) (ws : list bytes) (up : nat) (stack : list bytes) : nat * list bytes :=
  match ws with
  | [] => (up, stack)
  | w :: ws' =>
      if bool_decide (w = [] \/ w = [dot]) then resolve rooted ws' up stack
      else if bool_decide (w = [dot; dot]) then
        match stack with
        | _ :: stack' => resolve rooted ws' up stack'
        | [] => resolve rooted ws' (if rooted then up else S up) []
        end
      else resolve rooted ws' up (w :: stack)
  end.

Definition rendered (up : nat) (stack : list bytes) : bytes :=
  intercalate slash (repeat [dot; dot] up ++ rev stack).

Definition clean_reference (path : bytes) : bytes :=
  let rooted := match path with a :: _ => Ascii.eqb a slash | [] => false end in
  let '(up, stack) := resolve rooted (split_bytes slash path) 0 [] in
  if rooted then slash :: rendered up stack
  else match rendered up stack with [] => [dot] | l => l end.

Example clean_examples :
  map clean [""; "abc/../../x"; "/../a//b/./c/"; "a/b/.."; ".."; "./"; "bin/routerd-amd64"]
  = ["."; "../x"; "/a/b/c"; "a"; ".."; "."; "bin/routerd-amd64"]
  /\ map is_local ["bin/x"; "../x"; "a/../../x"; "/x"] = [true; false; false; false]
  /\ (dir "bin/x", dir "x", base "a/b/") = ("bin", ".", "b").
Proof. vm_compute. done. Qed.

(** ** The loop does what the elements say *)
Definition is_word (w : bytes) : Prop := w <> [] /\ forallb not_slash w = true.

Lemma intercalate_snoc sep l w :
  intercalate sep (l ++ [w]) = match l with [] => w | _ => intercalate sep l ++ sep :: w end.
Proof.
  induction l as [|x l IH]; [done|]. cbn [app]. destruct l as [|y l]; [done|].
  change (x ++ sep :: intercalate sep ((y :: l) ++ [w]) = (x ++ sep :: intercalate sep (y :: l)) ++ sep :: w).
  by rewrite IH, <- app_assoc.
Qed.

Lemma intercalate_nil sep l : Forall (fun w => w <> []) l -> intercalate sep l = [] -> l = [].
Proof. destruct l as [|x [|y l]]; [done| |]; intros Hl%Forall_cons; destruct Hl as [Hx _]; cbn; [done|by destruct x]. Qed.

Lemma elements_nonempty up stack : Forall is_word stack -> Forall (fun w => w <> []) (repeat [dot; dot] up ++ rev stack).
Proof.
  intros Hs. apply Forall_app. split; [by apply Forall_forall; intros w Hw%list_elem_of_In%repeat_spec; subst|].
  apply Forall_rev. eapply Forall_impl; [exact Hs|]. by intros w [Hw _].
Qed.

Lemma rendered_nil up stack : Forall is_word stack -> rendered up stack = [] -> repeat [dot; dot] up ++ rev stack = [].
Proof. intros Hs. by apply intercalate_nil, elements_nonempty. Qed.

(** A name on top *)
Lemma rendered_push up stack w : Forall is_word stack ->
  rendered up (w :: stack) = match rendered up stack with [] => w | l => l ++ slash :: w end.
Proof.
  intros Hs. pose proof (rendered_nil up stack Hs) as Hn. unfold rendered in *. cbn [rev].
  rewrite app_assoc, intercalate_snoc.
  destruct (repeat [dot; dot] up ++ rev stack) as [|x l] eqn:El; [done|].
  destruct (intercalate slash (x :: l)) eqn:Ei; [by specialize (Hn eq_refl)|done].
Qed.

Lemma rendered_up up :
  rendered (S up) [] = match rendered up [] with [] => [dot; dot] | l => l ++ slash :: [dot; dot] end.
Proof.
  assert (Hr : repeat [dot; dot] (S up) = repeat [dot; dot] up ++ [[dot; dot]]) by apply repeat_cons.
  pose proof (rendered_nil up [] (Forall_nil_2 _)) as Hn.
  unfold rendered in *. cbn [rev] in *. rewrite app_nil_r in *. rewrite app_nil_r, Hr, intercalate_snoc.
  destruct (repeat [dot; dot] up) as [|x l] eqn:El; [done|].
  destruct (intercalate slash (x :: l)) eqn:Ei; [by specialize (Hn eq_refl)|done].
Qed.

Lemma forallb_rev {A} (p : A -> bool) l : forallb p (rev l) = forallb p l.
Proof. induction l as [|x l IH]; [done|]. cbn. rewrite forallb_app, IH. cbn. rewrite andb_true_r. apply andb_comm. Qed.

Lemma pop_to_slash dotdot w rest : forallb not_slash w = true -> (dotdot <= List.length rest)%nat ->
  pop_element dotdot (rev w ++ slash :: rest) = rest.
Proof.
  intros Hw Hl. rewrite <- forallb_rev in Hw. revert Hw. induction (rev w) as [|b t IH]; intros Hw; cbn [app pop_element forallb] in *.
  - by rewrite andb_false_r.
  - to_prop. rewrite H, IH by done. by rewrite (proj2 (Nat.ltb_lt _ _)) by (rewrite length_app; cbn; lia).
Qed.

Lemma pop_to_mark w rest : w <> [] -> forallb not_slash w = true -> pop_element (List.length rest) (rev w ++ rest) = rest.
Proof.
  intros Hne Hw. rewrite <- forallb_rev in Hw. assert (Hr : rev w <> []) by (intros E; apply Hne; by rewrite <- (rev_involutive w), E).
  revert Hw Hr. induction (rev w) as [|b t IH]; intros Hw Hr; cbn [app pop_element forallb] in *; [done|]. to_prop.
  destruct t as [|c t]; [by rewrite Nat.ltb_irrefl|].
  rewrite H, (proj2 (Nat.ltb_lt _ _)) by (rewrite length_app; cbn; lia). by apply IH.
Qed.

(** The buffer holds [up] and [stack], and the mark is after the climbs. *)
Record buffer (rooted : bool) (up : nat) (stack : list bytes) (dotdot : nat) (out : bytes) : Prop := {
  bf_out : out = rev (rendered up stack) ++ (if rooted then [slash] else []);
  bf_rooted : rooted = true -> up = 0%nat;
  bf_mark : dotdot = if rooted then 1%nat else List.length (rendered up []);
  bf_words : Forall is_word stack;
}.

Lemma length_rendered_le up stack : Forall is_word stack ->
  (List.length (rendered up []) <= List.length (rendered up stack))%nat.
Proof.
  induction 1 as [|x stack Hx Hs IH]; [done|]. rewrite rendered_push by done.
  destruct (rendered up stack); [cbn in *; lia|rewrite length_app; cbn in *; lia].
Qed.

Lemma length_rendered_push up stack w : Forall is_word (w :: stack) ->
  (List.length (rendered up []) < List.length (rendered up (w :: stack)))%nat.
Proof.
  intros [[Hw _] Hs]%Forall_cons. rewrite rendered_push by done. pose proof (length_rendered_le up stack Hs).
  destruct (rendered up stack); [destruct w; cbn in *; [done|lia]|rewrite length_app; cbn in *; lia].
Qed.

Lemma rev_pushed (l w pre : bytes) : rev (l ++ slash :: w) ++ pre = rev w ++ slash :: rev l ++ pre.
Proof. rewrite rev_app_distr. cbn [rev]. by rewrite <- !app_assoc. Qed.

Lemma buffer_pop rooted up w stack dotdot out : buffer rooted up (w :: stack) dotdot out ->
  Nat.ltb dotdot (List.length out) = true /\ buffer rooted up stack dotdot (pop_element dotdot out).
Proof.
  intros [-> Hr -> Hw]. pose proof (length_rendered_push up stack w Hw) as Hlen.
  apply Forall_cons in Hw as [[Hne Hsl] Hs]. pose proof (length_rendered_le up stack Hs) as Hle.
  rewrite length_app, length_rev. split; [apply Nat.ltb_lt; destruct rooted; cbn [List.length]; lia|]. split; try done.
  rewrite rendered_push in * by done. destruct (rendered up stack) as [|b l] eqn:El.
  - assert (Hz : up = 0%nat) by (by destruct up, stack; pose proof (rendered_nil _ _ Hs El)).
    subst up. destruct rooted; [apply (pop_to_mark w [slash] Hne Hsl)|apply (pop_to_mark w [] Hne Hsl)].
  - rewrite rev_pushed. apply pop_to_slash; [done|]. rewrite length_app, length_rev. destruct rooted; cbn in *; lia.
Qed.

Lemma buffer_empty rooted up dotdot out : buffer rooted up [] dotdot out -> Nat.ltb dotdot (List.length out) = false.
Proof.
  intros [-> Hr -> _]. rewrite length_app, length_rev. apply Nat.ltb_ge.
  destruct rooted; [rewrite Hr by done; cbn; lia|cbn; lia].
Qed.

Lemma buffer_climb up dotdot out : buffer false up [] dotdot out ->
  let out' := dot :: dot :: (if Nat.ltb 0 (List.length out) then slash :: out else out) in
  buffer false (S up) [] (List.length out') out'.
Proof.
  intros [-> _ -> _]. cbn zeta. rewrite app_nil_r.
  assert (Ho : dot :: dot :: (if Nat.ltb 0 (List.length (rev (rendered up []))) then slash :: rev (rendered up [])
                              else rev (rendered up [])) = rev (rendered (S up) [])).
  { rewrite rendered_up, length_rev. destruct (rendered up []) as [|b l]; [done|].
    cbn [List.length Nat.ltb Nat.leb]. by rewrite rev_app_distr. }
  rewrite Ho. split; [by rewrite app_nil_r|done|by rewrite length_rev|done].
Qed.

Lemma buffer_push rooted up stack dotdot out w : buffer rooted up stack dotdot out -> is_word w ->
  let sep := (rooted && negb (Nat.eqb (List.length out) 1)) || (negb rooted && negb (Nat.eqb (List.length out) 0)) in
  buffer rooted up (w :: stack) dotdot (rev w ++ (if sep then slash :: out else out)).
Proof.
  intros [-> Hr Hm Hs] Hw. cbn zeta. split; [|done|done|by constructor].
  rewrite rendered_push, length_app, length_rev by done. destruct (rendered up stack) as [|b l]; [by destruct rooted|].
  rewrite rev_pushed. destruct rooted; cbn [andb negb orb List.length].
  - by replace (Nat.eqb (S (List.length l) + 1) 1) with false by (symmetry; apply Nat.eqb_neq; lia).
  - done.
Qed.

(** ** The elements of a path *)
Lemma resolve_skip rooted w ws up stack : resolve rooted (w :: [] :: ws) up stack = resolve rooted (w :: ws) up stack.
Proof.
  cbn [resolve]. rewrite (bool_decide_eq_true_2 ([] = [] \/ _)) by auto. by repeat case_bool_decide; destruct stack.
Qed.

Lemma resolve_split rooted w rest up stack : forallb not_slash w = true -> at_end rest = true ->
  resolve rooted (split_bytes slash (w ++ rest)) up stack = resolve rooted (w :: split_bytes slash rest) up stack.
Proof.
  intros Hw He. destruct rest as [|b rest]; cbn in He.
  - rewrite app_nil_r, split_bytes_single by done. cbn [split_bytes]. by rewrite resolve_skip.
  - apply Ascii.eqb_eq in He. subst b. rewrite split_bytes_app by done. cbn [split_bytes]. rewrite Ascii.eqb_refl.
    by rewrite resolve_skip.
Qed.

Lemma drop_while_end l : at_end (drop_while not_slash l) = true.
Proof.
  induction l as [|a l IH]; [done|]. cbn. unfold not_slash at 1. destruct (Ascii.eqb a slash) eqn:Ea; [|done]. cbn. by rewrite Ea.
Qed.

Lemma clean_loop_spec rooted fuel : forall l up stack dotdot out,
  (List.length l <= fuel)%nat -> buffer rooted up stack dotdot out ->
  let '(up', stack') := resolve rooted (split_bytes slash l) up stack in
  exists dotdot', buffer rooted up' stack' dotdot' (clean_loop fuel rooted l dotdot out).
Proof.
  induction fuel as [|fuel IH]; intros l up stack dotdot out Hl Hb.
  { destruct l; [|cbn in Hl; lia]. by exists dotdot. }
  destruct l as [|a t]; [by exists dotdot|]. cbn [clean_loop]. cbn in Hl.
  destruct (Ascii.eqb a slash) eqn:Ea.
  { cbn [split_bytes]. rewrite Ea. cbn. apply IH; [lia|done]. }
  assert (Hns : not_slash a = true) by (unfold not_slash; by rewrite Ea).
  destruct (Ascii.eqb a dot && at_end t) eqn:E1.
  { to_prop. apply Ascii.eqb_eq in H. subst a.
    change (split_bytes slash (dot :: t)) with (split_bytes slash ([dot] ++ t)).
    rewrite (resolve_split rooted [dot] t up stack) by done. cbn. apply IH; [lia|done]. }
  destruct (Ascii.eqb a dot && match t with b :: t' => Ascii.eqb b dot && at_end t' | [] => false end) eqn:E2.
  { apply andb_prop in E2 as [Hd E2]. apply Ascii.eqb_eq in Hd. subst a. destruct t as [|b t]; [done|].
    apply andb_prop in E2 as [Hd E2]. apply Ascii.eqb_eq in Hd. subst b.
    change (split_bytes slash (dot :: dot :: t)) with (split_bytes slash ([dot; dot] ++ t)).
    rewrite (resolve_split rooted [dot; dot] t up stack) by done. cbn [List.tl]. cbn in Hl.
    destruct stack as [|w stack].
    - rewrite (buffer_empty _ _ _ _ Hb). destruct rooted; cbn [negb].
      + cbn. apply IH; [lia|done].
      + cbn -[clean_loop]. apply IH; [lia|]. by apply (buffer_climb _ dotdot).
    - destruct (buffer_pop _ _ _ _ _ _ Hb) as [-> Hb']. cbn. apply IH; [lia|done]. }
  assert (Hsplit : a :: t = take_while not_slash (a :: t) ++ drop_while not_slash (a :: t)) by (symmetry; apply take_drop_while).
  assert (Hw : is_word (take_while not_slash (a :: t))).
  { split; [cbn; by rewrite Hns|apply take_while_forallb]. }
  replace (split_bytes slash (a :: t))
    with (split_bytes slash (take_while not_slash (a :: t) ++ drop_while not_slash (a :: t))) by (by rewrite <- Hsplit).
  rewrite (resolve_split rooted _ _ up stack (proj2 Hw) (drop_while_end _)).
  assert (Hlen : (List.length (drop_while not_slash (a :: t)) <= fuel)%nat).
  { cbn. rewrite Hns. transitivity (List.length t); [|lia]. clear. induction t; cbn; [lia|]. destruct (not_slash _); cbn; lia. }
  pose proof (drop_while_end (a :: t)) as Hend.
  set (w := take_while not_slash (a :: t)) in *. set (rest := drop_while not_slash (a :: t)) in *.
  clearbody w rest.
  cbn [resolve]. rewrite bool_decide_eq_false_2, bool_decide_eq_false_2.
  - apply IH; [done|]. by apply buffer_push.
  - intros Hq. rewrite Hq in Hsplit. cbn in Hsplit. injection Hsplit as -> ->. cbn in E2. by rewrite Hend in E2.
  - intros [Hq|Hq]; [by destruct Hw|]. rewrite Hq in Hsplit. cbn in Hsplit. injection Hsplit as -> ->.
    by rewrite Hend in E1.
Qed.

Lemma written (out : bytes) : out <> [] -> match out with [] => [dot] | _ => rev out end = rev out.
Proof. by destruct out. Qed.

Lemma clean_by_reference path : clean_bytes path = clean_reference path.
Proof.
  unfold clean_bytes, clean_reference. destruct path as [|a t]; [done|]. destruct (Ascii.eqb a slash) eqn:Ea.
  - apply Ascii.eqb_eq in Ea. subst a. pose proof (clean_loop_spec true (List.length t) t 0 [] 1 [slash]) as Hs.
    cbn [split_bytes]. rewrite Ascii.eqb_refl. cbn [resolve]. rewrite bool_decide_eq_true_2 by auto.
    destruct (resolve true (split_bytes slash t) 0 []) as [up stack]. destruct Hs as [dd [-> _ _ _]]; [done|by split|].
    rewrite written by (by destruct (rev (rendered up stack))). by rewrite rev_app_distr, rev_involutive.
  - pose proof (clean_loop_spec false (List.length (a :: t)) (a :: t) 0 [] 0 []) as Hs.
    destruct (resolve false (split_bytes slash (a :: t)) 0 []) as [up stack]. destruct Hs as [dd [-> _ _ _]]; [done|by split|].
    rewrite app_nil_r. destruct (rendered up stack) as [|b l]; [done|].
    rewrite written by (intros Hn; apply (f_equal (@rev _)) in Hn; by rewrite rev_involutive in Hn). by rewrite rev_involutive.
Qed.

(** [clean] computes what its elements say.  The one-pass loop over the
    write buffer gives, for every path, the path rebuilt from its elements:
    empty elements and [.] dropped, [..] undoing the name before it, climbing
    only at the front of a relative path, and [.] for nothing left. *)
Theorem clean_by_elements path : clean_bytes path = clean_reference path.
Proof. apply clean_by_reference. Qed.
