(* ===== verification/GoTime.v ===== *)
(** * Time

    [mr-core/src/goish/time.rs]: Go's [time.Time] with its monotonic reading,
    [time.Duration], [time.ParseDuration] and the [15:04] clock layout.  A
    [Time] keeps its wall clock in nanoseconds since the Unix epoch (the offset
    it prints with is not used by the components modelled here).  Fractions of
    durations go through IEEE 754 doubles in the code; they are computed with
    the Standard Library's [SpecFloat], the executable specification of binary
    floating point. *)

From Stdlib Require Import ZArith Ascii String Lia Bool SpecFloat.
From stdpp Require Import base list strings gmap.
From S2P Require Import Prelude GoStrings.

Local Open Scope Z_scope.

(** ** Durations: nanoseconds in an [i64] *)
Definition NANOSECOND : Z := 1.
Definition MICROSECOND : Z := 1000.
Definition MILLISECOND : Z := 1000000.
Definition SECOND : Z := 1000000000.
Definition MINUTE : Z := 60 * SECOND.
Definition HOUR : Z := 3600 * SECOND.
Definition dur_secs (n : Z) : Z := n * SECOND.
Definition dur_minutes (n : Z) : Z := n * MINUTE.
Definition dur_hours (n : Z) : Z := n * HOUR.

(** ** Instants *)
Record Time := mkTime { wall : Z; mono : option Z }.

(** [Time::default()]: 0001-01-01T00:00:00Z *)
Definition time_zero : Time := mkTime (-62135596800 * SECOND) None.

(** [Duration::from_std] *)
Definition from_std (ns : Z) : Z := Z.min ns i64_max.

Definition mono_delta (a b : Z) : Z :=
  if b <=? a then from_std (a - b) else - from_std (b - a).

Definition clamp_i64 (d : Z) : Z :=
  if (i64_min <=? d) && (d <=? i64_max) then d else if 0 <? d then i64_max else i64_min.

Definition time_sub (a b : Time) : Z :=
  match mono a, mono b with
  | Some x, Some y => mono_delta x y
  | _, _ => clamp_i64 (wall a - wall b)
  end.

Definition time_before (a b : Time) : bool :=
  match mono a, mono b with
  | Some x, Some y => x <? y
  | _, _ => wall a <? wall b
  end.

Definition time_after (a b : Time) : bool :=
  match mono a, mono b with
  | Some x, Some y => y <? x
  | _, _ => wall b <? wall a
  end.

Definition time_add (t : Time) (d : Z) : Time :=
  mkTime (wall t + d) (match mono t with Some m => Some (m + d) | None => None end).

(** [unix()]: seconds, rounded down *)
Definition time_unix (t : Time) : Z := wall t / SECOND.

(** [PartialEq]: the wall clock only *)
Definition time_eqb (a b : Time) : bool := wall a =? wall b.

(** ** [parse_duration] *)

(** Doubles *)
Definition f64 := spec_float.
Definition f64_of_Z (n : Z) : f64 := binary_normalize 53 1024 n 0 false.
Definition f64_mul : f64 -> f64 -> f64 := SFmul 53 1024.
Definition f64_div : f64 -> f64 -> f64 := SFdiv 53 1024.

(** [x as u64]: truncation, saturating *)
Definition f64_to_u64 (x : f64) : Z :=
  match x with
  | S754_finite false m e =>
      Z.min u64_max (if 0 <=? e then Z.pos m * 2 ^ e else Z.pos m / 2 ^ (- e))
  | S754_infinity false => u64_max
  | _ => 0
  end.

Definition two63 : Z := 2 ^ 63.

(** The integer part: [None] is the overflow error. *)
Fixpoint duration_int (ds : bytes) (v : Z) : option Z :=
  match ds with
  | [] => Some v
  | c :: t =>
      if two63 / 10 <? v then None
      else let v' := v * 10 + digit_val c in
           if two63 <? v' then None else duration_int t v'
  end.

(** The fraction: digits past an overflow are ignored. *)
Fixpoint duration_frac (ds : bytes) (f : Z) (scale : f64) (overflow : bool) : Z * f64 :=
  match ds with
  | [] => (f, scale)
  | c :: t =>
      if overflow then duration_frac t f scale true
      else if two63 / 10 <? f then duration_frac t f scale true
      else let y := f * 10 + digit_val c in
           if two63 <? y then duration_frac t f scale true
           else duration_frac t y (f64_mul scale (f64_of_Z 10)) false
  end.

Definition unit_multiplier (unit : string) : option Z :=
  if unit =s "ns" then Some 1
  else if (unit =s "us") || (unit =s "µs") || (unit =s "μs") then Some 1000
  else if unit =s "ms" then Some 1000000
  else if unit =s "s" then Some SECOND
  else if unit =s "m" then Some MINUTE
  else if unit =s "h" then Some HOUR
  else None.

(** The three error texts of [parse_duration]; each also quotes the input. *)
Inductive duration_error :=
| InvalidDuration
| MissingUnit
| UnknownUnit (unit : string).

Definition is_unit_byte (c : ascii) : bool := negb (Ascii.eqb c "."%char) && negb (is_ascii_digit c).

(** The fraction of an item: its digits as an integer, the scale, whether there
    was a digit, and the rest. *)
Definition duration_fraction (s : bytes) : Z * f64 * bool * bytes :=
  match s with
  | c :: rest =>
      if Ascii.eqb c "."%char then
        let fr := take_while is_ascii_digit rest in
        let '(f, scale) := duration_frac fr 0 (f64_of_Z 1) false in
        (f, scale, match fr with [] => false | _ => true end, drop_while is_ascii_digit rest)
      else (0, f64_of_Z 1, false, s)
  | [] => (0, f64_of_Z 1, false, s)
  end.

(** One turn of the loop: the value of the leading [<int>[.<frac>]<unit>] in
    nanoseconds and the rest of the input. *)
Definition duration_item (s : bytes) : result (Z * bytes) duration_error :=
  if negb (match s with b0 :: _ => Ascii.eqb b0 "."%char || is_ascii_digit b0 | [] => false end)
  then Err InvalidDuration
  else
    let ints := take_while is_ascii_digit s in
    let pre := match ints with [] => false | _ => true end in
    match duration_int ints 0 with
    | None => Err InvalidDuration
    | Some v =>
        let '(f, scale, post, s2) := duration_fraction (drop_while is_ascii_digit s) in
        if negb pre && negb post then Err InvalidDuration
        else
          match take_while is_unit_byte s2 with
          | [] => Err MissingUnit
          | unit =>
              match unit_multiplier (str_of unit) with
              | None => Err (UnknownUnit (str_of unit))
              | Some m =>
                  if two63 / m <? v then Err InvalidDuration
                  else
                    let v1 := v * m in
                    let v2 :=
                      if 0 <? f
                      then v1 + f64_to_u64 (f64_mul (f64_of_Z f) (f64_div (f64_of_Z m) scale))
                      else v1 in
                    if (0 <? f) && (two63 <? v2) then Err InvalidDuration
                    else Ok (v2, drop_while is_unit_byte s2)
              end
          end
    end.

(** The loop; [total += v] is a [u64] addition, which wraps in release builds.
    Every turn consumes input, so a fuel of the input's length is enough. *)
Fixpoint duration_loop (fuel : nat) (s : bytes) (total : Z) : result Z duration_error :=
  match s, fuel with
  | [], _ => Ok total
  | _, O => Err InvalidDuration
  | _, S fuel' =>
      let? (v, rest) := duration_item s in
      let total' := (total + v) mod 2 ^ 64 in
      if two63 <? total' then Err InvalidDuration else duration_loop fuel' rest total'
  end.

(** [x as i64]: two's complement *)
Definition as_i64 (x : Z) : Z := (x + two63) mod 2 ^ 64 - two63.

Definition parse_duration (input : string) : result Z duration_error :=
  let '(neg, s) :=
    match bytes_of input with
    | c :: t =>
        if Ascii.eqb c "-"%char then (true, t)
        else if Ascii.eqb c "+"%char then (false, t)
        else (false, c :: t)
    | [] => (false, [])
    end in
  if str_of s =s "0" then Ok 0
  else match s with
       | [] => Err InvalidDuration
       | _ =>
           let? total := duration_loop (List.length s) s 0 in
           if neg then Ok (as_i64 (total * -1))
           else if two63 - 1 <? total then Err InvalidDuration
           else Ok total
       end.

(** ** [parse_clock]: the [15:04] layout *)
Definition getnum (s : bytes) (fixed : bool) : option (Z * bytes) :=
  match s with
  | a :: t =>
      if negb (is_ascii_digit a) then None
      else match t with
           | b :: t' =>
               if negb (is_ascii_digit b) then
                 if fixed then None else Some (digit_val a, t)
               else Some (digit_val a * 10 + digit_val b, t')
           | [] => if fixed then None else Some (digit_val a, t)
           end
  | [] => None
  end.

Definition parse_clock (value : string) : option (Z * Z) :=
  let! (hour, rest) := getnum (bytes_of value) false in
  if 24 <=? hour then None
  else
    let! rest' := strip_prefix_bytes [":"%char] rest in
    let! (minute, rest'') := getnum rest' true in
    if (60 <=? minute) || match rest'' with [] => false | _ => true end then None
    else Some (hour, minute).

(** ** Lemmas *)
Lemma drop_while_length {A} (p : A -> bool) l :
  (List.length (drop_while p l) <= List.length l)%nat.
Proof. induction l as [|x l IH]; cbn; [lia|]. destruct (p x); cbn; lia. Qed.

Lemma drop_while_nonempty {A} (p : A -> bool) l :
  take_while p l <> [] -> (List.length (drop_while p l) < List.length l)%nat.
Proof.
  destruct l as [|x l]; cbn; [done|]. destruct (p x); cbn; [|done].
  pose proof (drop_while_length p l). lia.
Qed.

Lemma duration_fraction_length s f sc post s2 :
  duration_fraction s = (f, sc, post, s2) -> (List.length s2 <= List.length s)%nat.
Proof.
  unfold duration_fraction. intros H. destruct s as [|c rest]; [by simplify_eq|].
  destruct (Ascii.eqb c "."%char); [|by simplify_eq].
  destruct (duration_frac _ _ _ _). simplify_eq.
  pose proof (drop_while_length is_ascii_digit rest). cbn. lia.
Qed.

(** Every item consumes input. *)
Lemma duration_item_consumes s v rest :
  duration_item s = Ok (v, rest) -> (List.length rest < List.length s)%nat.
Proof.
  unfold duration_item. intros H.
  destruct (negb (match s with [] => _ | _ => _ end)); [done|].
  destruct (duration_int _ 0); [|done].
  destruct (duration_fraction (drop_while is_ascii_digit s)) as [[[f sc] post] s2] eqn:E.
  destruct (negb _ && negb post); [done|].
  destruct (take_while is_unit_byte s2) as [|u us] eqn:Eu; [done|].
  destruct (unit_multiplier _); [|done]. destruct (two63 / _ <? _); [done|].
  cbv zeta in H. destruct ((0 <? f) && _); [done|]. simplify_eq.
  apply duration_fraction_length in E. pose proof (drop_while_length is_ascii_digit s).
  assert (take_while is_unit_byte s2 <> []) as Hne by (by rewrite Eu).
  apply drop_while_nonempty in Hne. lia.
Qed.

(** More fuel than input changes nothing: the loop terminates. *)
Lemma duration_loop_fuel fuel1 fuel2 s total :
  (List.length s <= fuel1)%nat -> (List.length s <= fuel2)%nat ->
  duration_loop fuel1 s total = duration_loop fuel2 s total.
Proof.
  revert fuel2 s total. induction fuel1 as [|fuel1 IH]; intros fuel2 s total H1 H2.
  - destruct s; [|cbn in H1; lia]. by destruct fuel2.
  - destruct s as [|c s]; [by destruct fuel2|]. destruct fuel2 as [|fuel2]; [cbn in H2; lia|].
    cbn [duration_loop]. destruct (duration_item (c :: s)) as [[v rest]|] eqn:E; [|done].
    apply duration_item_consumes in E. cbn [List.length] in *.
    destruct (two63 <? _); [done|]. apply IH; lia.
Qed.

Lemma duration_loop_range fuel s total d :
  0 <= total <= two63 -> duration_loop fuel s total = Ok d -> 0 <= d <= two63.
Proof.
  revert s total. induction fuel as [|fuel IH]; intros s total Ht H; destruct s as [|c s]; cbn in H; try by simplify_eq.
  destruct (duration_item (c :: s)) as [[v rest]|]; [|done].
  destruct (Z.ltb_spec two63 ((total + v) mod 2 ^ 64)); [done|]. eapply IH; [|exact H].
  split; [apply Z.mod_pos_bound; lia|done].
Qed.

Lemma as_i64_range x : i64_min <= as_i64 x <= i64_max.
Proof. unfold as_i64, i64_min, i64_max, two63. pose proof (Z.mod_pos_bound (x + 2 ^ 63) (2 ^ 64)). lia. Qed.

Lemma parse_clock_range value h m : parse_clock value = Some (h, m) -> 0 <= h < 24 /\ 0 <= m < 60.
Proof.
  assert (Hg : forall s fixed n r, getnum s fixed = Some (n, r) -> 0 <= n).
  { intros s fixed n r H. unfold getnum, is_ascii_digit, digit_val in H.
    cases_in H; simplify_eq; to_prop; lia. }
  unfold parse_clock. intros H. cases_in H; simplify_eq; to_prop;
    repeat match goal with E : getnum _ _ = Some _ |- _ => apply Hg in E end; lia.
Qed.

(** Decimal integers followed by a unit. *)
Lemma duration_int_show_from l v :
  forallb is_ascii_digit l = true -> 0 <= v ->
  fold_left (fun n a => n * 10 + digit_val a) l v <= two63 ->
  duration_int l v = Some (fold_left (fun n a => n * 10 + digit_val a) l v).
Proof.
  revert v. induction l as [|c l IH]; intros v Hd Hv Hle; cbn in *; [done|]. to_prop.
  assert (Hc : 0 <= digit_val c <= 9) by (unfold is_ascii_digit, digit_val in *; to_prop; lia).
  assert (Hm : forall k n, forallb is_ascii_digit k = true -> 0 <= n ->
             n <= fold_left (fun n a => n * 10 + digit_val a) k n).
  { clear. induction k as [|a k IH]; intros n Hk Hn; cbn in *; [lia|]. to_prop.
    assert (0 <= digit_val a) by (unfold is_ascii_digit, digit_val in *; to_prop; lia).
    specialize (IH (n * 10 + digit_val a) ltac:(done) ltac:(lia)). lia. }
  pose proof (Hm l (v * 10 + digit_val c) ltac:(done) ltac:(lia)).
  unfold two63 in *. destruct (Z.ltb_spec (2 ^ 63 / 10) v); [dlia|].
  destruct (Z.ltb_spec (2 ^ 63) (v * 10 + digit_val c)); [lia|]. by apply IH; [|lia|].
Qed.

Lemma duration_item_units n u m :
  0 <= n -> unit_multiplier (str_of u) = Some m -> 0 < m -> n * m <= two63 ->
  u <> [] -> forallb is_unit_byte u = true ->
  duration_item (show_nonneg n ++ u) = Ok (n * m, []).
Proof.
  intros Hn Hu Hm Hle Hne Hub. destruct (show_nonneg_spec n Hn) as (Hv & Hd & Hs & _).
  destruct u as [|c u]; [done|]. cbn in Hub. to_prop.
  assert (Hc : is_ascii_digit c = false) by (unfold is_unit_byte in *; by to_prop).
  assert (Hdot : Ascii.eqb c "."%char = false) by (unfold is_unit_byte in *; by to_prop).
  destruct (take_while_app is_ascii_digit (show_nonneg n) (c :: u) Hd Hc) as [Et Ed].
  destruct (take_while_app is_unit_byte (c :: u) []) as [Et2 Ed2];
    [cbn; by rewrite H, H0|done|]. rewrite app_nil_r in Et2, Ed2.
  unfold duration_item. rewrite Et, Ed.
  assert (n <= two63) by (unfold two63 in *; nia).
  rewrite duration_int_show_from by (done || lia || (fold (digits_val (show_nonneg n)); lia)).
  fold (digits_val (show_nonneg n)). rewrite Hv.
  replace (negb _) with false.
  2: { destruct (show_nonneg n) as [|d ds]; [done|]. cbn in *. to_prop.
       match goal with Hx : is_ascii_digit d = true |- _ => rewrite Hx end. by rewrite orb_true_r. }
  unfold duration_fraction. rewrite Hdot.
  destruct (show_nonneg n) as [|d ds] eqn:Es; [done|]. cbn [negb andb]. rewrite Et2, Hu, Ed2.
  destruct (Z.ltb_spec (two63 / m) n) as [Hlt|_]; [|done].
  exfalso. pose proof (Z.div_le_lower_bound two63 m n). lia.
Qed.

(** ** Theorems *)

(** A whole number of hours, minutes or seconds parses to that many
    nanoseconds, whenever it fits a signed 64-bit duration. *)
Theorem parse_duration_units n unit m :
  0 <= n -> (unit, m) ∈ [("h", HOUR); ("m", MINUTE); ("s", SECOND)] -> n * m < two63 ->
  parse_duration (show_Z n +:+ unit) = Ok (n * m).
Proof.
  intros Hn Hu Hlt.
  assert (Hum : unit_multiplier (str_of (bytes_of unit)) = Some m /\ 0 < m
      /\ bytes_of unit <> [] /\ forallb is_unit_byte (bytes_of unit) = true).
  { rewrite str_of_bytes_of. repeat (apply elem_of_cons in Hu as [Hu|Hu]; [simplify_eq; done|]).
    by apply elem_of_nil in Hu. }
  destruct Hum as (Hum & Hm & Hne & Hub).
  unfold parse_duration, show_Z. destruct (Z.ltb_spec n 0); [lia|].
  rewrite bytes_of_app, bytes_of_str_of.
  pose proof (duration_item_units n (bytes_of unit) m Hn Hum Hm ltac:(lia) Hne Hub) as Hi.
  destruct (show_nonneg_spec n Hn) as (_ & Hd & Hs & _).
  destruct (show_nonneg n) as [|c ds]; [done|]. cbn [app] in *.
  assert (Hc : Ascii.eqb c "-"%char = false /\ Ascii.eqb c "+"%char = false).
  { cbn in Hd. to_prop. split; [destruct (Ascii.eqb_spec c "-"%char)|destruct (Ascii.eqb_spec c "+"%char)]; by subst. }
  destruct Hc as [-> ->].
  replace (str_of (c :: ds ++ bytes_of unit) =s "0") with false.
  2: { symmetry. apply String.eqb_neq. intros E. apply (f_equal bytes_of) in E.
       rewrite bytes_of_str_of in E. injection E as _ E. apply app_eq_nil in E as [_ E]. done. }
  cbn [List.length duration_loop]. rewrite Hi.
  rewrite Z.add_0_l, Z.mod_small by (unfold two63 in *; nia).
  destruct (Z.ltb_spec two63 (n * m)); [lia|].
  replace (duration_loop _ [] _) with (Ok (E := duration_error) (n * m))
    by (by destruct (List.length (ds ++ bytes_of unit))).
  by destruct (Z.ltb_spec (two63 - 1) (n * m)); [lia|].
Qed.

(** The loop of [parse_duration] terminates (any fuel beyond the input
    length gives the same result) and every accepted duration is a signed
    64-bit integer. *)
Theorem parse_duration_total_in_range input :
  (forall s fuel total, (List.length s <= fuel)%nat ->
     duration_loop fuel s total = duration_loop (List.length s) s total)
  /\ (forall d, parse_duration input = Ok d -> i64_min <= d <= i64_max).
Proof.
  split; [intros; by apply duration_loop_fuel|]. intros d H. unfold parse_duration in H.
  destruct (match bytes_of input with [] => _ | _ => _ end) as [neg s].
  destruct (str_of s =s "0"); [simplify_eq; unfold i64_min, i64_max; lia|].
  destruct s as [|c s]; [done|].
  destruct (duration_loop _ (c :: s) 0) as [total|] eqn:E; [|done].
  apply duration_loop_range in E; [|unfold two63; lia].
  destruct neg; simplify_eq; [apply as_i64_range|].
  destruct (Z.ltb_spec (two63 - 1) total); simplify_eq. unfold i64_min, i64_max, two63 in *. lia.
Qed.

(** The running total of [parse_duration] is a wrapping [u64] sum: two items
    of 2^63 ns cancel, so a text that denotes more than 584 years parses as two
    hours. *)
Theorem parse_duration_total_wraps :
  parse_duration "9223372036854775808ns9223372036854775808ns2h" = Ok (dur_hours 2).
Proof. vm_compute. reflexivity. Qed.

Lemma parse_duration_units_witness : parse_duration "12h" = Ok (12 * HOUR).
Proof.
  apply (parse_duration_units 12 "h" HOUR); [lia|left|unfold HOUR, SECOND, two63; lia].
Defined.

Lemma parse_duration_total_in_range_witness : i64_min <= 5400 * SECOND <= i64_max.
Proof. apply (proj2 (parse_duration_total_in_range "1.5h")). vm_compute. reflexivity. Defined.
