(* ===== verification/Json.v ===== *)
(** * JSON

    [mr-core/src/goish/json.rs]: the Go slice [List] (nil and empty are
    distinct encodings), the compact encoder with Go's extra string escapes,
    and [equal_json], which compares configuration sections by their encoded
    bytes.  [serde] maps a value to the tree [json]; the functions that do so
    are in [Model].  Floating-point values do not occur in the configuration. *)

From Stdlib Require Import ZArith Ascii String Lia Bool.
From stdpp Require Import base list strings gmap.
From S2P Require Import Prelude GoStrings.

Local Open Scope Z_scope.

(** ** [List<T>]: a Go slice *)
Record GoList (T : Type) := mkList { items : list T; nil_flag : bool }.
Arguments mkList {T} items nil_flag.
Arguments items {T} g.
Arguments nil_flag {T} g.

Definition list_nil {T} : GoList T := mkList [] true.
Definition list_empty {T} : GoList T := mkList [] false.
Definition list_from {T} (l : list T) : GoList T := mkList l false.

Definition list_is_empty {T} (l : GoList T) : bool :=
  match items l with [] => true | _ => false end.
Definition list_is_nil {T} (l : GoList T) : bool := nil_flag l && list_is_empty l.
Definition list_len {T} (l : GoList T) : Z := Z.of_nat (List.length (items l)).

(** [vec.push] through [DerefMut] *)
Definition list_push {T} (l : GoList T) (x : T) : GoList T := mkList (items l ++ [x]) (nil_flag l).

(** ** Trees *)
Inductive json :=
| JNull
| JBool (b : bool)
| JNum (n : Z)
| JStr (s : string)
| JArr (l : list json)
| JObj (l : list (string * json)).

(** [impl Serialize for List<T>] *)
Definition json_list {T} (f : T -> json) (l : GoList T) : json :=
  if list_is_nil l then JNull else JArr (map f (items l)).

(** ** The encoder *)
Definition quote_char : ascii := "034"%char.
Definition backslash : ascii := "092"%char.

Definition hex4 (v : Z) : bytes :=
  [hex_digit (v / 4096); hex_digit (v / 256 mod 16); hex_digit (v / 16 mod 16); hex_digit (v mod 16)].
Definition u_escape (v : Z) : bytes := backslash :: "u"%char :: hex4 v.

(** The escape of a single byte: [serde_json]'s table, then Go's [<], [>], [&]. *)
Definition escape_byte (a : ascii) : bytes :=
  let v := bv a in
  if v =? 34 then [backslash; quote_char]
  else if v =? 92 then [backslash; backslash]
  else if v =? 8 then [backslash; "b"%char]
  else if v =? 12 then [backslash; "f"%char]
  else if v =? 10 then [backslash; "n"%char]
  else if v =? 13 then [backslash; "r"%char]
  else if v =? 9 then [backslash; "t"%char]
  else if v <? 32 then u_escape v
  else if (v =? 60) || (v =? 62) || (v =? 38) then u_escape v
  else [a].

(** [write_string_fragment]: U+2028 and U+2029 (bytes E2 80 A8, E2 80 A9) too. *)
Fixpoint escape (l : bytes) : bytes :=
  match l with
  | [] => []
  | a :: t =>
      match t with
      | b :: c :: t' =>
          if (bv a =? 226) && (bv b =? 128) && ((bv c =? 168) || (bv c =? 169))
          then u_escape (8192 + (bv c - 128)) ++ escape t'
          else escape_byte a ++ escape t
      | _ => escape_byte a ++ escape t
      end
  end.

Definition marshal_str (s : string) : bytes := quote_char :: escape (bytes_of s) ++ [quote_char].

(** The compact formatter *)
Fixpoint marshal (j : json) : bytes :=
  match j with
  | JNull => bytes_of "null"
  | JBool true => bytes_of "true"
  | JBool false => bytes_of "false"
  | JNum n => bytes_of (show_Z n)
  | JStr s => marshal_str s
  | JArr l =>
      let fix tail (l : list json) : bytes :=
        match l with
        | [] => ["]"%char]
        | x :: t => ","%char :: marshal x ++ tail t
        end in
      match l with
      | [] => bytes_of "[]"
      | x :: t => "["%char :: marshal x ++ tail t
      end
  | JObj l =>
      let fix tail (l : list (string * json)) : bytes :=
        match l with
        | [] => ["}"%char]
        | (k, x) :: t => ","%char :: marshal_str k ++ ":"%char :: marshal x ++ tail t
        end in
      match l with
      | [] => bytes_of "{}"
      | (k, x) :: t => "{"%char :: marshal_str k ++ ":"%char :: marshal x ++ tail t
      end
  end.

(** [bytes.Equal(json.Marshal(a), json.Marshal(b))] *)
Definition equal_json (a b : json) : bool := bool_decide (marshal a = marshal b).

(** ** Decoding strings: the inverse of [escape] *)
Definition unescape_char (c : ascii) : option ascii :=
  if Ascii.eqb c quote_char then Some quote_char
  else if Ascii.eqb c backslash then Some backslash
  else if Ascii.eqb c "b"%char then Some (byte_of 8)
  else if Ascii.eqb c "f"%char then Some (byte_of 12)
  else if Ascii.eqb c "n"%char then Some (byte_of 10)
  else if Ascii.eqb c "r"%char then Some (byte_of 13)
  else if Ascii.eqb c "t"%char then Some (byte_of 9)
  else None.

(** Reads up to the closing quote: the content and the rest. *)
Fixpoint unescape (l : bytes) : option (bytes * bytes) :=
  match l with
  | [] => None
  | a :: t =>
      if Ascii.eqb a quote_char then Some ([], t)
      else if Ascii.eqb a backslash then
        match t with
        | e :: t1 =>
            if Ascii.eqb e "u"%char then
              match t1 with
              | h1 :: h2 :: h3 :: h4 :: t2 =>
                  let! d1 := hex_val h1 in let! d2 := hex_val h2 in
                  let! d3 := hex_val h3 in let! d4 := hex_val h4 in
                  let! (x, r) := unescape t2 in
                  Some (encode_char (d1 * 4096 + d2 * 256 + d3 * 16 + d4) ++ x, r)
              | _ => None
              end
            else
              let! c := unescape_char e in
              let! (x, r) := unescape t1 in
              Some (c :: x, r)
        | [] => None
        end
      else let! (x, r) := unescape t in Some (a :: x, r)
  end.

(** ** Lemmas *)
Lemma unescape_u v l x r :
  0 <= v < 65536 -> unescape l = Some (x, r) ->
  unescape (u_escape v ++ l) = Some (encode_char v ++ x, r).
Proof.
  intros Hv Hl. unfold u_escape, hex4. cbn [app unescape].
  change (Ascii.eqb backslash quote_char) with false. rewrite Ascii.eqb_refl.
  rewrite !hex_val_digit by dlia. rewrite Hl. repeat f_equal. dlia.
Qed.

Lemma unescape_escape_byte a l x r :
  unescape l = Some (x, r) -> unescape (escape_byte a ++ l) = Some (a :: x, r).
Proof.
  intros Hl. unfold escape_byte. cbv zeta.
  assert (Hs : forall c e, unescape_char e = Some c -> Ascii.eqb e "u"%char = false ->
            unescape ([backslash; e] ++ l) = Some (c :: x, r)).
  { intros c e He Hu. cbn [app unescape]. change (Ascii.eqb backslash quote_char) with false.
    rewrite Ascii.eqb_refl, Hu, He, Hl. done. }
  assert (Hb : forall v, bv a = v -> byte_of v = a) by (intros v <-; apply byte_of_bv).
  assert (Hu : 0 <= bv a < 128 -> unescape (u_escape (bv a) ++ l) = Some (a :: x, r)).
  { intros Hr. rewrite (unescape_u (bv a) l x r ltac:(lia) Hl). unfold encode_char.
    destruct (Z.ltb_spec (bv a) 128); [|lia]. by rewrite byte_of_bv. }
  pose proof (bv_range a) as Hr.
  destruct (Z.eqb_spec (bv a) 34) as [E|]; [rewrite (Hs (byte_of 34)) by done; by rewrite (Hb 34 E)|].
  destruct (Z.eqb_spec (bv a) 92) as [E|]; [rewrite (Hs (byte_of 92)) by done; by rewrite (Hb 92 E)|].
  destruct (Z.eqb_spec (bv a) 8) as [E|]; [rewrite (Hs (byte_of 8)) by done; by rewrite (Hb 8 E)|].
  destruct (Z.eqb_spec (bv a) 12) as [E|]; [rewrite (Hs (byte_of 12)) by done; by rewrite (Hb 12 E)|].
  destruct (Z.eqb_spec (bv a) 10) as [E|]; [rewrite (Hs (byte_of 10)) by done; by rewrite (Hb 10 E)|].
  destruct (Z.eqb_spec (bv a) 13) as [E|]; [rewrite (Hs (byte_of 13)) by done; by rewrite (Hb 13 E)|].
  destruct (Z.eqb_spec (bv a) 9) as [E|]; [rewrite (Hs (byte_of 9)) by done; by rewrite (Hb 9 E)|].
  destruct (Z.ltb_spec (bv a) 32); [apply Hu; lia|].
  destruct ((bv a =? 60) || (bv a =? 62) || (bv a =? 38)) eqn:E; [apply Hu; lia|].
  cbn [app unescape]. rewrite !ascii_eqb_bv.
  change (bv quote_char) with 34. change (bv backslash) with 92.
  destruct (Z.eqb_spec (bv a) 34); [done|]. destruct (Z.eqb_spec (bv a) 92); [done|]. by rewrite Hl.
Qed.

Lemma escape_cons3 a b c t :
  escape (a :: b :: c :: t)
  = if (bv a =? 226) && (bv b =? 128) && ((bv c =? 168) || (bv c =? 169))
    then u_escape (8192 + (bv c - 128)) ++ escape t
    else escape_byte a ++ escape (b :: c :: t).
Proof. reflexivity. Qed.

Lemma unescape_escape l r : unescape (escape l ++ quote_char :: r) = Some (l, r).
Proof.
  remember (List.length l) as n eqn:Hn. revert l Hn.
  induction n as [n IH] using lt_wf_ind. intros l Hn. destruct l as [|a t].
  { cbn. done. }
  assert (Hstep : escape (a :: t) = escape_byte a ++ escape t ->
                  unescape (escape (a :: t) ++ quote_char :: r) = Some (a :: t, r)).
  { intros ->. rewrite <- app_assoc. apply unescape_escape_byte. eapply IH; [|done]. cbn in Hn. lia. }
  destruct t as [|b [|c t']]; [by apply Hstep|by apply Hstep|]. rewrite escape_cons3.
  destruct ((bv a =? 226) && (bv b =? 128) && ((bv c =? 168) || (bv c =? 169))) eqn:E.
  2: { rewrite escape_cons3, E in Hstep. by apply Hstep. }
  rewrite !andb_true_iff, orb_true_iff, !Z.eqb_eq in E. destruct E as [[Ea Eb] Ec].
  rewrite <- app_assoc.
  assert (Ht : unescape (escape t' ++ quote_char :: r) = Some (t', r))
    by (eapply IH; [|done]; cbn in Hn; lia).
  rewrite (unescape_u (8192 + (bv c - 128)) _ t' r ltac:(lia) Ht).
  rewrite <- (byte_of_bv a), <- (byte_of_bv b), <- (byte_of_bv c), Ea, Eb.
  destruct Ec as [-> | ->]; reflexivity.
Qed.

(** What follows a value: nothing, or a byte that is not a digit. *)
Definition delim (r : bytes) : Prop := match r with [] => True | c :: _ => is_ascii_digit c = false end.

Lemma marshal_str_inj s1 s2 r1 r2 :
  marshal_str s1 ++ r1 = marshal_str s2 ++ r2 -> s1 = s2 /\ r1 = r2.
Proof.
  unfold marshal_str. cbn [app]. rewrite <- !app_assoc. cbn [app]. intros H. injection H as H.
  apply (f_equal unescape) in H. rewrite !unescape_escape in H. injection H as H ->.
  by apply bytes_of_inj in H as ->.
Qed.

Lemma digits_delim_inj d1 d2 r1 r2 :
  forallb is_ascii_digit d1 = true -> forallb is_ascii_digit d2 = true -> delim r1 -> delim r2 ->
  d1 ++ r1 = d2 ++ r2 -> d1 = d2 /\ r1 = r2.
Proof.
  intros H1 H2 Hr1 Hr2 E.
  destruct (take_while_app is_ascii_digit d1 r1 H1) as [T1 D1]; [by destruct r1|].
  destruct (take_while_app is_ascii_digit d2 r2 H2) as [T2 D2]; [by destruct r2|].
  rewrite E in T1, D1. by rewrite T1 in T2; rewrite D1 in D2.
Qed.

Lemma show_Z_bytes n :
  bytes_of (show_Z n) = if n <? 0 then "-"%char :: show_nonneg (- n) else show_nonneg n.
Proof. unfold show_Z. by rewrite bytes_of_str_of. Qed.

Lemma show_Z_first n : exists c t, bytes_of (show_Z n) = c :: t /\ (c = "-"%char \/ is_ascii_digit c = true).
Proof.
  rewrite show_Z_bytes. destruct (Z.ltb_spec n 0); [by eexists _, _; split; [|left]|].
  destruct (show_nonneg_spec n ltac:(lia)) as (_ & Hd & Hne & _).
  destruct (show_nonneg n) as [|c t]; [done|]. cbn in Hd. to_prop. exists c, t. split; [done|by right].
Qed.

Lemma show_Z_delim_inj m n r1 r2 :
  delim r1 -> delim r2 -> bytes_of (show_Z m) ++ r1 = bytes_of (show_Z n) ++ r2 -> m = n /\ r1 = r2.
Proof.
  intros Hr1 Hr2. rewrite !show_Z_bytes.
  assert (Hmix : forall k l r r', 0 <= l -> "-"%char :: k ++ r <> show_nonneg l ++ r').
  { intros k l r r' Hl E. destruct (show_nonneg_spec l Hl) as (_ & Hd & Hne & _).
    destruct (show_nonneg l) as [|c t]; [done|]. cbn in E, Hd. by simplify_eq. }
  destruct (Z.ltb_spec m 0), (Z.ltb_spec n 0); cbn [app]; intros E.
  - injection E as E. apply digits_delim_inj in E as [E ->]; try done; try (apply show_nonneg_digits; lia).
    apply (f_equal digits_val) in E. rewrite !show_nonneg_val in E by lia. split; [lia|done].
  - by apply Hmix in E; [|lia].
  - symmetry in E. by apply Hmix in E; [|lia].
  - apply digits_delim_inj in E as [E ->]; try done; try (apply show_nonneg_digits; lia).
    apply (f_equal digits_val) in E. rewrite !show_nonneg_val in E by lia. done.
Qed.

Lemma cons_tail_eq {A} (a b : A) l m : a :: l = b :: m -> l = m.
Proof. congruence. Qed.

(** *** The encoder is injective *)
Fixpoint arr_tail (l : list json) : bytes :=
  match l with [] => ["]"%char] | x :: t => ","%char :: marshal x ++ arr_tail t end.
Fixpoint obj_tail (l : list (string * json)) : bytes :=
  match l with
  | [] => ["}"%char]
  | (k, x) :: t => ","%char :: marshal_str k ++ ":"%char :: marshal x ++ obj_tail t
  end.

Lemma marshal_arr l :
  marshal (JArr l) = match l with [] => bytes_of "[]" | x :: t => "["%char :: marshal x ++ arr_tail t end.
Proof. by destruct l. Qed.

Lemma marshal_obj l :
  marshal (JObj l) = match l with
    | [] => bytes_of "{}"
    | (k, x) :: t => "{"%char :: marshal_str k ++ ":"%char :: marshal x ++ obj_tail t end.
Proof. by destruct l as [|[k x] t]. Qed.

Fixpoint jsize (j : json) : nat :=
  match j with
  | JArr l => S ((fix go l := match l with [] => O | x :: t => (S (jsize x) + go t)%nat end) l)
  | JObj l => S ((fix go l := match l with [] => O | (_, x) :: t => (S (jsize x) + go t)%nat end) l)
  | _ => 1%nat
  end.

Definition inj_at (j : json) : Prop := forall j' r1 r2,
  delim r1 -> delim r2 -> marshal j ++ r1 = marshal j' ++ r2 -> j = j' /\ r1 = r2.

Lemma arr_tail_inj l : Forall inj_at l -> forall l' r1 r2, delim r1 -> delim r2 ->
  arr_tail l ++ r1 = arr_tail l' ++ r2 -> l = l' /\ r1 = r2.
Proof.
  induction 1 as [|x l Hx _ IH]; intros [|y l'] r1 r2 Hr1 Hr2 E; cbn in E; try done.
  - by simplify_eq.
  - injection E as E. rewrite <- !app_assoc in E.
    assert (Hd : forall l r, delim (arr_tail l ++ r)) by (intros [|? ?] ?; done).
    apply Hx in E as [-> E]; [|apply Hd..]. by apply IH in E as [-> ->].
Qed.

Lemma obj_tail_inj l : Forall (fun p => inj_at (snd p)) l -> forall l' r1 r2, delim r1 -> delim r2 ->
  obj_tail l ++ r1 = obj_tail l' ++ r2 -> l = l' /\ r1 = r2.
Proof.
  induction 1 as [|[k x] l Hx _ IH]; intros [|[k' y] l'] r1 r2 Hr1 Hr2 E; cbn [obj_tail app] in E; try done.
  - by simplify_eq.
  - apply cons_tail_eq in E. rewrite <- !app_assoc in E. apply marshal_str_inj in E as [-> E].
    cbn [app] in E. apply cons_tail_eq in E. rewrite <- !app_assoc in E.
    assert (Hd : forall l r, delim (obj_tail l ++ r)) by (intros [|[? ?] ?] ?; done).
    cbn [snd] in Hx. apply Hx in E as [-> E]; [|apply Hd..]. by apply IH in E as [-> ->].
Qed.

(** Induction on trees *)
Lemma json_ind' (P : json -> Prop) :
  P JNull -> (forall b, P (JBool b)) -> (forall n, P (JNum n)) -> (forall s, P (JStr s)) ->
  (forall l, Forall P l -> P (JArr l)) -> (forall l, Forall (fun p => P (snd p)) l -> P (JObj l)) ->
  forall j, P j.
Proof.
  intros H1 H2 H3 H4 H5 H6. fix IH 1. intros [|b|n|s|l|l]; [exact H1|exact (H2 b)|exact (H3 n)|exact (H4 s)| |].
  - apply H5. induction l as [|x l IHl]; constructor; [apply (IH x)|exact IHl].
  - apply H6. induction l as [|[k x] l IHl]; constructor; [apply (IH x)|exact IHl].
Qed.

(** The first byte tells the kind of a value apart. *)
Definition kind_of (c : ascii) : nat :=
  if Ascii.eqb c "n"%char then 0 else if Ascii.eqb c "t"%char then 1
  else if Ascii.eqb c "f"%char then 2 else if Ascii.eqb c quote_char then 4
  else if Ascii.eqb c "["%char then 5 else if Ascii.eqb c "{"%char then 6 else 3.

Definition json_kind (j : json) : nat :=
  match j with
  | JNull => 0 | JBool true => 1 | JBool false => 2 | JNum _ => 3 | JStr _ => 4 | JArr _ => 5 | JObj _ => 6
  end.

Lemma marshal_kind j r : exists c t, marshal j ++ r = c :: t /\ kind_of c = json_kind j.
Proof.
  destruct j as [|[]|n|s|l|l]; try (by eexists _, _; split; cbn).
  - destruct (show_Z_first n) as (c & t & E & Hc). cbn [marshal]. rewrite E. eexists _, _. split; [done|].
    destruct Hc as [->|Hc]; [done|]. cbn.
    unfold is_ascii_digit in Hc. to_prop.
    unfold kind_of. rewrite !ascii_eqb_bv.
    repeat match goal with |- context [bv c =? ?k] =>
      let v := eval vm_compute in k in change k with v; destruct (Z.eqb_spec (bv c) v); [lia|] end. done.
  - rewrite marshal_arr. destruct l; by eexists _, _; split.
  - rewrite marshal_obj. destruct l as [|[k x] l]; by eexists _, _; split.
Qed.

(** A closing bracket cannot start a value. *)
Lemma marshal_not_close j r1 c r2 :
  c = "]"%char \/ c = "}"%char -> marshal j ++ r1 <> c :: r2.
Proof.
  intros Hc E. destruct j as [|[]|n|s|l|l]; try (destruct Hc as [-> | ->]; by simplify_eq/=).
  - destruct (show_Z_first n) as (a & t & Ea & Ha). cbn [marshal] in E. rewrite Ea in E. cbn in E.
    simplify_eq. destruct Hc as [-> | ->], Ha as [Ha|Ha]; done.
  - rewrite marshal_arr in E. destruct l, Hc as [-> | ->]; by simplify_eq/=.
  - rewrite marshal_obj in E. destruct l as [|[]], Hc as [-> | ->]; by simplify_eq/=.
Qed.

Lemma marshal_inj_at j : inj_at j.
Proof.
  induction j as [|b|n|s|l IH|l IH] using json_ind'; intros j' r1 r2 Hr1 Hr2 E;
    pose proof (marshal_kind j' r2) as (c' & t' & E' & Hk');
    match type of E with marshal ?j ++ _ = _ =>
      pose proof (marshal_kind j r1) as (c & t & E0 & Hk) end;
    assert (c = c') by congruence; subst c'; rewrite Hk in Hk'; clear E' E0 c t t' Hk.
  - destruct j' as [|[]| | | |]; try done. cbn in E. by simplify_eq.
  - destruct b, j' as [|[]| | | |]; try done; cbn in E; by simplify_eq.
  - destruct j' as [|[]| | | |]; try done. cbn [marshal] in E. by apply show_Z_delim_inj in E as [-> ->].
  - destruct j' as [|[]| | | |]; try done. cbn [marshal] in E. by apply marshal_str_inj in E as [-> ->].
  - destruct j' as [|[]| | |l'|]; try done. rewrite !marshal_arr in E.
    assert (Hd : forall l r, delim (arr_tail l ++ r)) by (intros [|? ?] ?; done).
    destruct l as [|x l], l' as [|y l'].
    + cbn in E. by simplify_eq.
    + cbn [app bytes_of] in E. cbn in E. apply cons_tail_eq in E. rewrite <- app_assoc in E. symmetry in E.
      apply marshal_not_close in E; [done|by left].
    + cbn in E. apply cons_tail_eq in E. rewrite <- app_assoc in E. apply marshal_not_close in E; [done|by left].
    + apply Forall_cons in IH as [Hx Hl]. cbn [app] in E. apply cons_tail_eq in E. rewrite <- !app_assoc in E.
      apply Hx in E as [-> E]; [|apply Hd..]. by apply arr_tail_inj in E as [-> ->].
  - destruct j' as [|[]| | | |l']; try done. rewrite !marshal_obj in E.
    assert (Hd : forall l r, delim (obj_tail l ++ r)) by (intros [|[? ?] ?] ?; done).
    destruct l as [|[k x] l], l' as [|[k' y] l']; [by simplify_eq/=|by simplify_eq/=|by simplify_eq/=|].
    apply Forall_cons in IH as [Hx Hl]. cbn [app] in E. apply cons_tail_eq in E.
    rewrite <- !app_assoc in E. apply marshal_str_inj in E as [-> E]. cbn [app] in E. apply cons_tail_eq in E.
    rewrite <- !app_assoc in E. cbn [snd] in Hx. apply Hx in E as [-> E]; [|apply Hd..].
    by apply obj_tail_inj in E as [-> ->].
Qed.

Lemma marshal_inj a b : marshal a = marshal b -> a = b.
Proof.
  intros E. apply (marshal_inj_at a b [] []); [done|done|]. by rewrite !app_nil_r.
Qed.

Lemma equal_json_spec a b : equal_json a b = true <-> a = b.
Proof.
  unfold equal_json. rewrite bool_decide_eq_true. split; [apply marshal_inj|by intros ->].
Qed.

Lemma equal_json_refl a : equal_json a a = true.
Proof. by apply equal_json_spec. Qed.
#[export] Hint Resolve equal_json_refl : mr.

(** Comparing two values by their encoded bytes, as [equal_json] does, is
    comparing the values: the encoder (its escapes included) never gives two
    different trees the same text. *)
Theorem equal_json_iff_eq a b : equal_json a b = true <-> a = b.
Proof. apply equal_json_spec. Qed.

(** A string the encoder writes reads back as itself whatever follows the
    closing quote, for every byte sequence: control characters, quotes, the
    characters Go escapes and the two line separators included. *)
Theorem marshal_str_reads_back (s : string) (r : bytes) :
  match marshal_str s ++ r with
  | q :: t => q = quote_char /\ unescape t = Some (bytes_of s, r)
  | [] => False
  end.
Proof.
  unfold marshal_str. cbn. split; [done|]. rewrite <- app_assoc. apply unescape_escape.
Qed.
