(* ===== verification/Model.v ===== *)
(** * The configuration model

    [mr-config/src/config/model.rs]: one record per struct, the fields in the
    source's order under a prefix per struct, with its [Default] and its
    [Serialize] (the derived order and names, [rename] and
    [skip_serializing_if] included) as a function to [json].  [i64] and [u64]
    fields are [Z].  A [BTreeMap] is the list of its entries in key order. *)

From Stdlib Require Import ZArith Ascii String Lia Bool.
From stdpp Require Import base list strings gmap.
From S2P Require Import Prelude GoStrings GoTime Json.

Local Open Scope string_scope.
Local Open Scope Z_scope.
Local Open Scope list_scope.

(** A field behind [skip_serializing_if] *)
Definition opt_field (keep : bool) (key : string) (v : json) : list (string * json) :=
  if keep then [(key, v)] else [].
Definition opt_str (key value : string) : list (string * json) :=
  opt_field (negb (String.eqb value EmptyString)) key (JStr value).

Record SystemSettings := mkSystemSettings {
  sys_hostname : string;
  sys_domain : string;
  sys_https_enabled : bool;
  sys_https_port : Z;
  sys_management_access : string;
}.
Definition SystemSettings_default : SystemSettings :=
  mkSystemSettings EmptyString EmptyString false 0 EmptyString.
Definition SystemSettings_json (x : SystemSettings) : json :=
  JObj (
    [("hostname", JStr (sys_hostname x));
     ("domain", JStr (sys_domain x));
     ("https_enabled", JBool (sys_https_enabled x));
     ("https_port", JNum (sys_https_port x));
     ("management_access", JStr (sys_management_access x))]).

Record WANSettings := mkWANSettings {
  wan_interface : string;
  wan_enabled : bool;
  wan_username : string;
  wan_password : string;
  wan_mtu : Z;
}.
Definition WANSettings_default : WANSettings :=
  mkWANSettings EmptyString false EmptyString EmptyString 0.
Definition WANSettings_json (x : WANSettings) : json :=
  JObj (
    [("interface", JStr (wan_interface x));
     ("enabled", JBool (wan_enabled x));
     ("username", JStr (wan_username x))]
    ++ opt_str "password" (wan_password x)
    ++ [("mtu", JNum (wan_mtu x))]).

Record LANSettings := mkLANSettings {
  lan_interface : string;
  lan_ip_address : string;
  lan_netmask : string;
  lan_cidr : string;
}.
Definition LANSettings_default : LANSettings :=
  mkLANSettings EmptyString EmptyString EmptyString EmptyString.
Definition LANSettings_json (x : LANSettings) : json :=
  JObj (
    [("interface", JStr (lan_interface x));
     ("ip_address", JStr (lan_ip_address x));
     ("netmask", JStr (lan_netmask x));
     ("cidr", JStr (lan_cidr x))]).

Record StaticLease := mkStaticLease {
  lease_id : string;
  lease_hostname : string;
  lease_mac : string;
  lease_ip_address : string;
}.
Definition StaticLease_default : StaticLease :=
  mkStaticLease EmptyString EmptyString EmptyString EmptyString.
Definition StaticLease_json (x : StaticLease) : json :=
  JObj (
    [("id", JStr (lease_id x));
     ("hostname", JStr (lease_hostname x));
     ("mac", JStr (lease_mac x));
     ("ip_address", JStr (lease_ip_address x))]).

Record DHCPSettings := mkDHCPSettings {
  dhcp_enabled : bool;
  dhcp_dns_enabled : bool;
  dhcp_range_start : string;
  dhcp_range_end : string;
  dhcp_lease_time : string;
  dhcp_dns_servers : GoList string;
  dhcp_static_leases : GoList StaticLease;
}.
Definition DHCPSettings_default : DHCPSettings :=
  mkDHCPSettings false false EmptyString EmptyString EmptyString list_nil list_nil.
Definition DHCPSettings_json (x : DHCPSettings) : json :=
  JObj (
    [("enabled", JBool (dhcp_enabled x));
     ("dns_enabled", JBool (dhcp_dns_enabled x));
     ("range_start", JStr (dhcp_range_start x));
     ("range_end", JStr (dhcp_range_end x));
     ("lease_time", JStr (dhcp_lease_time x));
     ("dns_servers", json_list JStr (dhcp_dns_servers x));
     ("static_leases", json_list StaticLease_json (dhcp_static_leases x))]).

Record DNSRecord := mkDNSRecord {
  rec_name : string;
  rec_ip : string;
}.
Definition DNSRecord_default : DNSRecord :=
  mkDNSRecord EmptyString EmptyString.
Definition DNSRecord_json (x : DNSRecord) : json :=
  JObj (
    [("name", JStr (rec_name x));
     ("ip", JStr (rec_ip x))]).

Record DNSSettings := mkDNSSettings {
  dns_records : GoList DNSRecord;
}.
Definition DNSSettings_default : DNSSettings :=
  mkDNSSettings list_nil.
Definition DNSSettings_json (x : DNSSettings) : json :=
  JObj (
    opt_field (negb (list_is_empty (dns_records x))) "records" (json_list DNSRecord_json (dns_records x))).

Record PortForwardRule := mkPortForwardRule {
  pf_id : string;
  pf_name : string;
  pf_protocol : string;
  pf_external_port : Z;
  pf_internal_ip : string;
  pf_internal_port : Z;
  pf_enabled : bool;
}.
Definition PortForwardRule_default : PortForwardRule :=
  mkPortForwardRule EmptyString EmptyString EmptyString 0 EmptyString 0 false.
Definition PortForwardRule_json (x : PortForwardRule) : json :=
  JObj (
    [("id", JStr (pf_id x));
     ("name", JStr (pf_name x));
     ("protocol", JStr (pf_protocol x));
     ("external_port", JNum (pf_external_port x));
     ("internal_ip", JStr (pf_internal_ip x));
     ("internal_port", JNum (pf_internal_port x));
     ("enabled", JBool (pf_enabled x))]).

Record FirewallRule := mkFirewallRule {
  rule_id : string;
  rule_name : string;
  rule_action : string;
  rule_direction : string;
  rule_protocol : string;
  rule_src_ip : string;
  rule_dst_port : Z;
  rule_enabled : bool;
  rule_scope : string;
  rule_preset_id : string;
}.
Definition FirewallRule_default : FirewallRule :=
  mkFirewallRule EmptyString EmptyString EmptyString EmptyString EmptyString EmptyString 0 false EmptyString EmptyString.
Definition FirewallRule_json (x : FirewallRule) : json :=
  JObj (
    [("id", JStr (rule_id x));
     ("name", JStr (rule_name x));
     ("action", JStr (rule_action x));
     ("direction", JStr (rule_direction x));
     ("protocol", JStr (rule_protocol x))]
    ++ opt_str "src_ip" (rule_src_ip x)
    ++ opt_field (negb (rule_dst_port x =? 0)) "dst_port" (JNum (rule_dst_port x))
    ++ [("enabled", JBool (rule_enabled x))]
    ++ opt_str "scope" (rule_scope x)
    ++ opt_str "preset_id" (rule_preset_id x)).

Record ExtraLANConfig := mkExtraLANConfig {
  xl_id : string;
  xl_name : string;
  xl_interface : string;
  xl_cidr : string;
  xl_router_address : string;
  xl_dst_ip : string;
  xl_dst_port : Z;
  xl_protocol : string;
  xl_allow_from : GoList string;
  xl_enabled : bool;
}.
Definition ExtraLANConfig_default : ExtraLANConfig :=
  mkExtraLANConfig EmptyString EmptyString EmptyString EmptyString EmptyString EmptyString 0 EmptyString list_nil false.
Definition ExtraLANConfig_json (x : ExtraLANConfig) : json :=
  JObj (
    [("id", JStr (xl_id x));
     ("name", JStr (xl_name x));
     ("interface", JStr (xl_interface x));
     ("cidr", JStr (xl_cidr x))]
    ++ opt_str "router_address" (xl_router_address x)
    ++ [("dst_ip", JStr (xl_dst_ip x));
     ("dst_port", JNum (xl_dst_port x))]
    ++ opt_str "protocol" (xl_protocol x)
    ++ [("allow_from", json_list JStr (xl_allow_from x));
     ("enabled", JBool (xl_enabled x))]).

Record FirewallConfig := mkFirewallConfig {
  fw_default_wan_input_policy : string;
  fw_wan_ingress_mode : string;
  fw_stateful_firewall : bool;
  fw_port_forwards : GoList PortForwardRule;
  fw_custom_rules : GoList FirewallRule;
  fw_extra_lans : GoList ExtraLANConfig;
}.
Definition FirewallConfig_default : FirewallConfig :=
  mkFirewallConfig EmptyString EmptyString false list_nil list_nil list_nil.
Definition FirewallConfig_json (x : FirewallConfig) : json :=
  JObj (
    [("default_wan_input_policy", JStr (fw_default_wan_input_policy x));
     ("wan_ingress_mode", JStr (fw_wan_ingress_mode x));
     ("stateful_firewall", JBool (fw_stateful_firewall x));
     ("port_forwards", json_list PortForwardRule_json (fw_port_forwards x));
     ("custom_rules", json_list FirewallRule_json (fw_custom_rules x))]
    ++ opt_field (negb (list_is_empty (fw_extra_lans x))) "extra_lans" (json_list ExtraLANConfig_json (fw_extra_lans x))).

Record WireGuardPeer := mkWireGuardPeer {
  peer_id : string;
  peer_name : string;
  peer_public_key : string;
  peer_preshared_key : string;
  peer_allowed_ips : GoList string;
  peer_endpoint : string;
  peer_enabled : bool;
}.
Definition WireGuardPeer_default : WireGuardPeer :=
  mkWireGuardPeer EmptyString EmptyString EmptyString EmptyString list_nil EmptyString false.
Definition WireGuardPeer_json (x : WireGuardPeer) : json :=
  JObj (
    [("id", JStr (peer_id x));
     ("name", JStr (peer_name x));
     ("public_key", JStr (peer_public_key x))]
    ++ opt_str "preshared_key" (peer_preshared_key x)
    ++ [("allowed_ips", json_list JStr (peer_allowed_ips x))]
    ++ opt_str "endpoint" (peer_endpoint x)
    ++ [("enabled", JBool (peer_enabled x))]).

Record WireGuardConfig := mkWireGuardConfig {
  wg_enabled : bool;
  wg_interface : string;
  wg_private_key : string;
  wg_listen_port : Z;
  wg_address : string;
  wg_peers : GoList WireGuardPeer;
}.
Definition WireGuardConfig_default : WireGuardConfig :=
  mkWireGuardConfig false EmptyString EmptyString 0 EmptyString list_nil.
Definition WireGuardConfig_json (x : WireGuardConfig) : json :=
  JObj (
    [("enabled", JBool (wg_enabled x));
     ("interface", JStr (wg_interface x))]
    ++ opt_str "private_key" (wg_private_key x)
    ++ [("listen_port", JNum (wg_listen_port x));
     ("address", JStr (wg_address x));
     ("peers", json_list WireGuardPeer_json (wg_peers x))]).

Record WGClientConfig := mkWGClientConfig {
  wgc_enabled : bool;
  wgc_interface : string;
  wgc_private_key : string;
  wgc_address : string;
  wgc_public_key : string;
  wgc_preshared_key : string;
  wgc_endpoint : string;
  wgc_allowed_ips : GoList string;
  wgc_persistent_keepalive : Z;
}.
Definition WGClientConfig_default : WGClientConfig :=
  mkWGClientConfig false EmptyString EmptyString EmptyString EmptyString EmptyString EmptyString list_nil 0.
Definition WGClientConfig_json (x : WGClientConfig) : json :=
  JObj (
    [("enabled", JBool (wgc_enabled x));
     ("interface", JStr (wgc_interface x))]
    ++ opt_str "private_key" (wgc_private_key x)
    ++ [("address", JStr (wgc_address x));
     ("public_key", JStr (wgc_public_key x))]
    ++ opt_str "preshared_key" (wgc_preshared_key x)
    ++ [("endpoint", JStr (wgc_endpoint x));
     ("allowed_ips", json_list JStr (wgc_allowed_ips x));
     ("persistent_keepalive", JNum (wgc_persistent_keepalive x))]).

Record CloudflareConfig := mkCloudflareConfig {
  cf_ddns_enabled : bool;
  cf_ddns_provider : string;
  cf_ddns_user : string;
  cf_api_token : string;
  cf_zone_id : string;
  cf_zone_name : string;
  cf_domain : string;
  cf_tunnel_enabled : bool;
  cf_tunnel_hostname : string;
  cf_tunnel_token : string;
}.
Definition CloudflareConfig_default : CloudflareConfig :=
  mkCloudflareConfig false EmptyString EmptyString EmptyString EmptyString EmptyString EmptyString false EmptyString EmptyString.
Definition CloudflareConfig_json (x : CloudflareConfig) : json :=
  JObj (
    [("ddns_enabled", JBool (cf_ddns_enabled x))]
    ++ opt_str "ddns_provider" (cf_ddns_provider x)
    ++ opt_str "ddns_username" (cf_ddns_user x)
    ++ opt_str "api_token" (cf_api_token x)
    ++ opt_str "zone_id" (cf_zone_id x)
    ++ opt_str "zone_name" (cf_zone_name x)
    ++ [("domain", JStr (cf_domain x));
     ("tunnel_enabled", JBool (cf_tunnel_enabled x))]
    ++ opt_str "tunnel_hostname" (cf_tunnel_hostname x)
    ++ opt_str "tunnel_token" (cf_tunnel_token x)).

Record RestrictedIPItem := mkRestrictedIPItem {
  ri_hostname : string;
  ri_ip_address : string;
  ri_enabled : bool;
}.
Definition RestrictedIPItem_default : RestrictedIPItem :=
  mkRestrictedIPItem EmptyString EmptyString false.
Definition RestrictedIPItem_json (x : RestrictedIPItem) : json :=
  JObj (
    [("hostname", JStr (ri_hostname x));
     ("ip_address", JStr (ri_ip_address x));
     ("enabled", JBool (ri_enabled x))]).

Record SquidProxyConfig := mkSquidProxyConfig {
  squid_enabled : bool;
  squid_port : Z;
  squid_username : string;
  squid_password : string;
  squid_restricted_ips : GoList RestrictedIPItem;
}.
Definition SquidProxyConfig_default : SquidProxyConfig :=
  mkSquidProxyConfig false 0 EmptyString EmptyString list_nil.
Definition SquidProxyConfig_json (x : SquidProxyConfig) : json :=
  JObj (
    [("enabled", JBool (squid_enabled x));
     ("port", JNum (squid_port x));
     ("username", JStr (squid_username x))]
    ++ opt_str "password" (squid_password x)
    ++ [("restricted_ips", json_list RestrictedIPItem_json (squid_restricted_ips x))]).

Record FilterDeviceRule := mkFilterDeviceRule {
  fd_id : string;
  fd_hostname : string;
  fd_ip_address : string;
  fd_blocked_services : GoList string;
  fd_enabled : bool;
}.
Definition FilterDeviceRule_default : FilterDeviceRule :=
  mkFilterDeviceRule EmptyString EmptyString EmptyString list_nil false.
Definition FilterDeviceRule_json (x : FilterDeviceRule) : json :=
  JObj (
    [("id", JStr (fd_id x));
     ("hostname", JStr (fd_hostname x));
     ("ip_address", JStr (fd_ip_address x));
     ("blocked_services", json_list JStr (fd_blocked_services x));
     ("enabled", JBool (fd_enabled x))]).

Record AccessWindow := mkAccessWindow {
  aw_start : string;
  aw_end : string;
}.
Definition AccessWindow_default : AccessWindow :=
  mkAccessWindow EmptyString EmptyString.
Definition AccessWindow_json (x : AccessWindow) : json :=
  JObj (
    [("start", JStr (aw_start x));
     ("end", JStr (aw_end x))]).

Record WeeklyAccessSchedule := mkWeeklyAccessSchedule {
  sched_day_windows : list (string * GoList AccessWindow);
  sched_weekday_windows : GoList AccessWindow;
  sched_weekend_mode : string;
  sched_weekend_windows : GoList AccessWindow;
}.
Definition WeeklyAccessSchedule_default : WeeklyAccessSchedule :=
  mkWeeklyAccessSchedule [] list_nil EmptyString list_nil.
Definition WeeklyAccessSchedule_json (x : WeeklyAccessSchedule) : json :=
  JObj (
    opt_field (negb (Nat.eqb (List.length (sched_day_windows x)) 0)) "day_windows" (JObj (map (fun p => (fst p, json_list AccessWindow_json (snd p))) (sched_day_windows x)))
    ++ opt_field (negb (list_is_empty (sched_weekday_windows x))) "weekday_windows" (json_list AccessWindow_json (sched_weekday_windows x))
    ++ opt_str "weekend_mode" (sched_weekend_mode x)
    ++ opt_field (negb (list_is_empty (sched_weekend_windows x))) "weekend_windows" (json_list AccessWindow_json (sched_weekend_windows x))).

Record DeviceProfile := mkDeviceProfile {
  dp_id : string;
  dp_name : string;
  dp_ip_addresses : GoList string;
  dp_services : GoList string;
  dp_schedule : WeeklyAccessSchedule;
  dp_enabled : bool;
}.
Definition DeviceProfile_default : DeviceProfile :=
  mkDeviceProfile EmptyString EmptyString list_nil list_nil WeeklyAccessSchedule_default false.
Definition DeviceProfile_json (x : DeviceProfile) : json :=
  JObj (
    [("id", JStr (dp_id x));
     ("name", JStr (dp_name x));
     ("ip_addresses", json_list JStr (dp_ip_addresses x));
     ("services", json_list JStr (dp_services x));
     ("schedule", WeeklyAccessSchedule_json (dp_schedule x));
     ("enabled", JBool (dp_enabled x))]).

Record DNSFilterConfig := mkDNSFilterConfig {
  df_enabled : bool;
  df_blocklist_url : string;
  df_last_updated : string;
  df_filter_devices : GoList FilterDeviceRule;
  df_device_profiles : GoList DeviceProfile;
}.
Definition DNSFilterConfig_default : DNSFilterConfig :=
  mkDNSFilterConfig false EmptyString EmptyString list_nil list_nil.
Definition DNSFilterConfig_json (x : DNSFilterConfig) : json :=
  JObj (
    [("enabled", JBool (df_enabled x));
     ("blocklist_url", JStr (df_blocklist_url x));
     ("last_updated", JStr (df_last_updated x))]
    ++ opt_field (negb (list_is_empty (df_filter_devices x))) "filter_devices" (json_list FilterDeviceRule_json (df_filter_devices x))
    ++ [("device_profiles", json_list DeviceProfile_json (df_device_profiles x))]).

Record QoSConfig := mkQoSConfig {
  qos_enabled : bool;
  qos_algorithm : string;
  qos_download_limit_mbps : Z;
  qos_upload_limit_mbps : Z;
}.
Definition QoSConfig_default : QoSConfig :=
  mkQoSConfig false EmptyString 0 0.
Definition QoSConfig_json (x : QoSConfig) : json :=
  JObj (
    [("enabled", JBool (qos_enabled x));
     ("algorithm", JStr (qos_algorithm x));
     ("download_limit_mbps", JNum (qos_download_limit_mbps x));
     ("upload_limit_mbps", JNum (qos_upload_limit_mbps x))]).

Record WiFiConfig := mkWiFiConfig {
  wifi_enabled : bool;
  wifi_interface : string;
  wifi_ssid : string;
  wifi_passphrase : string;
  wifi_band : string;
  wifi_channel : Z;
  wifi_hide_ssid : bool;
}.
Definition WiFiConfig_default : WiFiConfig :=
  mkWiFiConfig false EmptyString EmptyString EmptyString EmptyString 0 false.
Definition WiFiConfig_json (x : WiFiConfig) : json :=
  JObj (
    [("enabled", JBool (wifi_enabled x));
     ("interface", JStr (wifi_interface x));
     ("ssid", JStr (wifi_ssid x))]
    ++ opt_str "passphrase" (wifi_passphrase x)
    ++ [("band", JStr (wifi_band x));
     ("channel", JNum (wifi_channel x));
     ("hide_ssid", JBool (wifi_hide_ssid x))]).

Record AccountingConfig := mkAccountingConfig {
  acct_enabled : bool;
  acct_retention_months : Z;
}.
Definition AccountingConfig_default : AccountingConfig :=
  mkAccountingConfig false 0.
Definition AccountingConfig_json (x : AccountingConfig) : json :=
  JObj (
    [("enabled", JBool (acct_enabled x));
     ("retention_months", JNum (acct_retention_months x))]).

Record SystemConfig := mkSystemConfig {
  c_revision : Z;
  c_updated_at : Time;
  c_system : SystemSettings;
  c_wan : WANSettings;
  c_lan : LANSettings;
  c_dhcp : DHCPSettings;
  c_dns : DNSSettings;
  c_firewall : FirewallConfig;
  c_wireguard : WireGuardConfig;
  c_wg_client : WGClientConfig;
  c_cloudflare : CloudflareConfig;
  c_squid_proxy : SquidProxyConfig;
  c_adguard : DNSFilterConfig;
  c_qos : QoSConfig;
  c_wifi : WiFiConfig;
  c_accounting : AccountingConfig;
  c_trusted_networks : GoList string;
}.
Definition SystemConfig_default : SystemConfig :=
  mkSystemConfig 0 time_zero SystemSettings_default WANSettings_default LANSettings_default DHCPSettings_default DNSSettings_default FirewallConfig_default WireGuardConfig_default WGClientConfig_default CloudflareConfig_default SquidProxyConfig_default DNSFilterConfig_default QoSConfig_default WiFiConfig_default AccountingConfig_default list_nil.

(** ** Decidable equality *)
#[export] Instance GoList_eqdec {A} `{EqDecision A} : EqDecision (GoList A).
Proof. solve_decision. Defined.
#[export] Instance Time_eqdec : EqDecision Time.
Proof. solve_decision. Defined.
#[export] Instance SystemSettings_eqdec : EqDecision SystemSettings.
Proof. solve_decision. Defined.
#[export] Instance WANSettings_eqdec : EqDecision WANSettings.
Proof. solve_decision. Defined.
#[export] Instance LANSettings_eqdec : EqDecision LANSettings.
Proof. solve_decision. Defined.
#[export] Instance StaticLease_eqdec : EqDecision StaticLease.
Proof. solve_decision. Defined.
#[export] Instance DHCPSettings_eqdec : EqDecision DHCPSettings.
Proof. solve_decision. Defined.
#[export] Instance DNSRecord_eqdec : EqDecision DNSRecord.
Proof. solve_decision. Defined.
#[export] Instance DNSSettings_eqdec : EqDecision DNSSettings.
Proof. solve_decision. Defined.
#[export] Instance PortForwardRule_eqdec : EqDecision PortForwardRule.
Proof. solve_decision. Defined.
#[export] Instance FirewallRule_eqdec : EqDecision FirewallRule.
Proof. solve_decision. Defined.
#[export] Instance ExtraLANConfig_eqdec : EqDecision ExtraLANConfig.
Proof. solve_decision. Defined.
#[export] Instance FirewallConfig_eqdec : EqDecision FirewallConfig.
Proof. solve_decision. Defined.
#[export] Instance WireGuardPeer_eqdec : EqDecision WireGuardPeer.
Proof. solve_decision. Defined.
#[export] Instance WireGuardConfig_eqdec : EqDecision WireGuardConfig.
Proof. solve_decision. Defined.
#[export] Instance WGClientConfig_eqdec : EqDecision WGClientConfig.
Proof. solve_decision. Defined.
#[export] Instance CloudflareConfig_eqdec : EqDecision CloudflareConfig.
Proof. solve_decision. Defined.
#[export] Instance RestrictedIPItem_eqdec : EqDecision RestrictedIPItem.
Proof. solve_decision. Defined.
#[export] Instance SquidProxyConfig_eqdec : EqDecision SquidProxyConfig.
Proof. solve_decision. Defined.
#[export] Instance FilterDeviceRule_eqdec : EqDecision FilterDeviceRule.
Proof. solve_decision. Defined.
#[export] Instance AccessWindow_eqdec : EqDecision AccessWindow.
Proof. solve_decision. Defined.
#[export] Instance WeeklyAccessSchedule_eqdec : EqDecision WeeklyAccessSchedule.
Proof. solve_decision. Defined.
#[export] Instance DeviceProfile_eqdec : EqDecision DeviceProfile.
Proof. solve_decision. Defined.
#[export] Instance DNSFilterConfig_eqdec : EqDecision DNSFilterConfig.
Proof. solve_decision. Defined.
#[export] Instance QoSConfig_eqdec : EqDecision QoSConfig.
Proof. solve_decision. Defined.
#[export] Instance WiFiConfig_eqdec : EqDecision WiFiConfig.
Proof. solve_decision. Defined.
#[export] Instance AccountingConfig_eqdec : EqDecision AccountingConfig.
Proof. solve_decision. Defined.
#[export] Instance SystemConfig_eqdec : EqDecision SystemConfig.
Proof. solve_decision. Defined.

(** ** Operations on the whole configuration *)
Definition WIFI_BRIDGE_INTERFACE : string := "br-lan".

Definition runtime_lan_interface (c : SystemConfig) : string :=
  if wifi_enabled (c_wifi c) then WIFI_BRIDGE_INTERFACE else lan_interface (c_lan c).

(** [default_config()]; [now] is the reading of the clock. *)
Definition default_config (now : Time) : SystemConfig := {|
  c_revision := 1;
  c_updated_at := now;
  c_system := {|
    sys_hostname := "minimalrouter"; sys_domain := "lan"; sys_https_enabled := true;
    sys_https_port := 8443; sys_management_access := "lan_and_wireguard" |};
  c_wan := {|
    wan_interface := "eth0"; wan_enabled := false; wan_username := EmptyString;
    wan_password := EmptyString; wan_mtu := 1492 |};
  c_lan := {|
    lan_interface := "eth1"; lan_ip_address := "192.168.1.1"; lan_netmask := "255.255.255.0";
    lan_cidr := "192.168.1.1/24" |};
  c_dhcp := {|
    dhcp_enabled := true; dhcp_dns_enabled := false; dhcp_range_start := "192.168.1.100";
    dhcp_range_end := "192.168.1.200"; dhcp_lease_time := "12h";
    dhcp_dns_servers := list_from ["1.1.1.1"; "1.0.0.1"]; dhcp_static_leases := list_empty |};
  c_dns := DNSSettings_default;
  c_firewall := {|
    fw_default_wan_input_policy := "deny"; fw_wan_ingress_mode := "wireguard_only";
    fw_stateful_firewall := true; fw_port_forwards := list_empty; fw_custom_rules := list_empty;
    fw_extra_lans := list_nil |};
  c_wireguard := {|
    wg_enabled := false; wg_interface := "wg0"; wg_private_key := EmptyString;
    wg_listen_port := 51820; wg_address := "10.8.0.1/24"; wg_peers := list_empty |};
  c_wg_client := {|
    wgc_enabled := false; wgc_interface := "wg1"; wgc_private_key := EmptyString;
    wgc_address := EmptyString; wgc_public_key := EmptyString; wgc_preshared_key := EmptyString;
    wgc_endpoint := EmptyString; wgc_allowed_ips := list_empty; wgc_persistent_keepalive := 25 |};
  c_cloudflare := {|
    cf_ddns_enabled := false; cf_ddns_provider := "noip"; cf_ddns_user := EmptyString;
    cf_api_token := EmptyString; cf_zone_id := EmptyString; cf_zone_name := EmptyString;
    cf_domain := EmptyString; cf_tunnel_enabled := false; cf_tunnel_hostname := EmptyString;
    cf_tunnel_token := EmptyString |};
  c_squid_proxy := {|
    squid_enabled := false; squid_port := 3128; squid_username := "proxyadmin";
    squid_password := EmptyString; squid_restricted_ips := list_empty |};
  c_adguard := {|
    df_enabled := false; df_blocklist_url := EmptyString; df_last_updated := "Never";
    df_filter_devices := list_empty; df_device_profiles := list_empty |};
  c_qos := {|
    qos_enabled := false; qos_algorithm := "cake"; qos_download_limit_mbps := 100;
    qos_upload_limit_mbps := 20 |};
  c_wifi := {|
    wifi_enabled := false; wifi_interface := "wlan0"; wifi_ssid := "MinimalRouter-Home";
    wifi_passphrase := EmptyString; wifi_band := "5ghz"; wifi_channel := 36;
    wifi_hide_ssid := false |};
  c_accounting := {| acct_enabled := false; acct_retention_months := 13 |};
  c_trusted_networks := list_from ["192.168.1.0/24"];
|}.
