(* ===== verification/Validation.v ===== *)
(** * Validation of a configuration

    [mr-config/src/config/validation.rs] and [profiles.rs].  A validator
    returns the errors it adds, in the order the code pushes them; a loop that
    carries a set of values already seen threads it as its state.  A
    [HashSet<String>] is a [gset string], a [HashMap] a [gmap].  The regular
    expressions are boolean functions on bytes; [SAFE_NAME_PATTERN], which
    uses Unicode classes, on characters. *)

From Stdlib Require Import ZArith Ascii String Lia Bool.
From stdpp Require Import base list strings gmap.
From S2P Require Import Prelude GoStrings Net GoTime Json Model.

Local Open Scope string_scope.
Local Open Scope Z_scope.
Local Open Scope list_scope.

(** ** Errors *)
Record ValidationError := mkVE { ve_field : string; ve_message : string }.
Abbreviation ValidationErrors := (list ValidationError).

#[export] Instance ValidationError_eqdec : EqDecision ValidationError.
Proof. solve_decision. Defined.

Definition VE_to_string (e : ValidationError) : string := ve_field e +:+ ": " +:+ ve_message e.
Definition VEs_to_string (l : ValidationErrors) : string := join "; " (map VE_to_string l).

(** [if b { errs.add(field, message) }] *)
Definition check (b : bool) (field message : string) : ValidationErrors :=
  if b then [mkVE field message] else [].

Definition into_result (errs : ValidationErrors) : result unit ValidationErrors :=
  match errs with [] => Ok tt | _ => Err errs end.

(** [format!("{base}[{i}]")] *)
Definition idx (base : string) (i : nat) : string :=
  base +:+ "[" +:+ show_Z (Z.of_nat i) +:+ "]".

(** [for (i, x) in l.iter().enumerate()], with the variables the loop mutates. *)
Fixpoint vloop {A St : Type} (body : nat -> A -> St -> ValidationErrors * St) (i : nat) (l : list A) (s : St)
  : ValidationErrors * St :=
  match l with
  | [] => ([], s)
  | x :: t =>
      let '(e, s1) := body i x s in
      let '(es, s2) := vloop body (S i) t s1 in
      (e ++ es, s2)
  end.

(** The same for a loop whose body only adds errors. *)
Definition each {A : Type} (body : nat -> A -> ValidationErrors) (l : list A) : ValidationErrors :=
  fst (vloop (fun i x (_ : unit) => (body i x, tt)) 0 l tt).

(** [set.insert(x)]: whether it was new, and the set after. *)
Definition set_insert (x : string) (s : gset string) : bool * gset string :=
  (negb (bool_decide (x ∈ s)), {[x]} ∪ s).

(** ** Patterns *)
Definition is_char (c : ascii) (a : ascii) : bool := Ascii.eqb a c.
Definition alnum_or (extra : list ascii) (a : ascii) : bool :=
  is_ascii_alphanumeric a || existsb (Ascii.eqb a) extra.

(** [^first rest{0,max}$] *)
Definition head_tail_pattern (first rest : ascii -> bool) (max : nat) (l : bytes) : bool :=
  match l with
  | [] => false
  | a :: t => first a && forallb rest t && Nat.leb (List.length t) max
  end.

(** [^edge(?:inner{0,max}edge)?$] *)
Definition edge_pattern {A} (edge inner : A -> bool) (max : nat) (l : list A) : bool :=
  match l with
  | [] => false
  | a :: t =>
      edge a && match rev t with
                | [] => true
                | z :: mid => edge z && forallb inner mid && Nat.leb (List.length mid) max
                end
  end.

Definition INTERFACE_NAME_PATTERN (s : string) : bool :=
  head_tail_pattern is_ascii_alphanumeric (alnum_or ["_"%char; "."%char; "-"%char]) 14 (bytes_of s).
Definition HOSTNAME_PATTERN (s : string) : bool :=
  edge_pattern is_ascii_alphanumeric (alnum_or ["-"%char]) 61 (bytes_of s).
Definition DOMAIN_PATTERN (s : string) : bool :=
  edge_pattern is_ascii_alphanumeric (alnum_or ["."%char; "-"%char]) 251 (bytes_of s).
Definition PRESET_ID_PATTERN (s : string) : bool :=
  head_tail_pattern is_ascii_lower (fun a => is_ascii_lower a || is_ascii_digit a || is_char "-" a) 31
    (bytes_of s).
Definition CREDENTIAL_NAME_PATTERN (s : string) : bool :=
  head_tail_pattern is_ascii_alphanumeric (alnum_or ["_"%char; "."%char; "-"%char]) 63 (bytes_of s).
Definition CLOUDFLARE_TOKEN_PATTERN (s : string) : bool :=
  let l := bytes_of s in
  forallb (alnum_or ["_"%char; "-"%char]) l && Nat.leb 20 (List.length l) && Nat.leb (List.length l) 256.
Definition WIREGUARD_ENDPOINT_HOST_PATTERN (s : string) : bool :=
  edge_pattern is_ascii_alphanumeric (alnum_or ["."%char; "-"%char]) 251 (bytes_of s).
Definition DEVICE_PROFILE_ID_PATTERN (s : string) : bool :=
  head_tail_pattern is_ascii_alphanumeric (alnum_or ["_"%char; "-"%char]) 63 (bytes_of s).

(** [[\pL\pN ._()/-]] *)
Definition safe_name_char `{Unicode} (c : Z) : bool :=
  unicode_letter_number c
  || existsb (Z.eqb c) (map bv [" "%char; "."%char; "_"%char; "("%char; ")"%char; "/"%char; "-"%char]).
Definition SAFE_NAME_PATTERN `{Unicode} (s : string) : bool :=
  match chars s with
  | [] => false
  | c :: t => unicode_letter_number c && forallb safe_name_char t && Nat.leb (List.length t) 63
  end.

Definition has_unsafe_control (value : string) : bool := has_control value.
Definition valid_interface_name (value : string) : bool := INTERFACE_NAME_PATTERN value.

(** [u32::from_be_bytes] of the IPv4 form, 0 without one *)
Definition ipv4_value (ip : IP) : Z :=
  match to4 ip with
  | Some o => fold_left (fun n b => n * 256 + b) o 0
  | None => 0
  end.
Definition compare_ipv4 (a b : IP) : comparison := ipv4_value a ?= ipv4_value b.
Definition ipv4_gt (a b : IP) : bool := match compare_ipv4 a b with Gt => true | _ => false end.
Definition ipv4_le (a b : IP) : bool := match compare_ipv4 a b with Gt => false | _ => true end.
Definition ipv4_ge (a b : IP) : bool := match compare_ipv4 a b with Lt => false | _ => true end.

(** The [base64] crate's standard engine with padding required and trailing
    bits allowed; [goish::base64::std_decode] strips newlines first. *)
Class Base64 := { std_engine_decode : bytes -> option (list Z) }.
Definition strip_newlines (l : bytes) : bytes :=
  List.filter (fun a => negb ((bv a =? 13) || (bv a =? 10))) l.
Definition std_decode `{Base64} (text : string) : option (list Z) :=
  std_engine_decode (strip_newlines (bytes_of text)).

Definition valid_wireguard_key `{Base64} (value : string) : bool :=
  match std_decode value with Some d => Nat.eqb (List.length d) 32 | None => false end.

(** [strconv.Atoi] *)
Definition go_atoi (text : string) : option Z :=
  let l := bytes_of text in
  let digits :=
    match l with
    | a :: t => if is_char "+" a || is_char "-" a then t else l
    | [] => l
    end in
  if match digits with [] => true | _ => false end || negb (forallb is_ascii_digit digits) then None
  else parse_i64 text.

Definition is_empty (s : string) : bool := s =s EmptyString.
Definition port_ok (p : Z) : bool := (1 <=? p) && (p <=? 65535).

(** [opt.is_some_and(f)] *)
Definition some_and {A} (f : A -> bool) (o : option A) : bool :=
  match o with Some x => f x | None => false end.
Definition is_none {A} (o : option A) : bool := match o with Some _ => false | None => true end.

(** [network.ip.to4().unwrap_or_else(|| network.ip.clone())] *)
Definition network_ip4 (n : IPNet) : IP := match to4 (net_ip n) with Some v => v | None => net_ip n end.

Section Validators.
Context {UC : Unicode} {B64 : Base64}.

(** ** [validate_dhcp] *)

(** One static lease: its MAC, its address against the LAN, the pool and the
    leases before it, its host name. *)
Definition validate_lease (lan_ip : option IP) (lan_network : option IPNet) (start_ip end_ip : option IP)
  (i : nat) (lease : StaticLease) (seen : gset string * gset string)
  : ValidationErrors * (gset string * gset string) :=
  let '(seen_mac, seen_lease_ip) := seen in
  let base := idx "dhcp.static_leases" i in
  let '(mac_errs, seen_mac') :=
    match parse_mac (lease_mac lease) with
    | Some mac =>
        if Nat.eqb (List.length mac) 6 then
          let '(fresh, seen_mac') := set_insert (mac_string mac) seen_mac in
          (check (negb fresh) (base +:+ ".mac") "duplicates another static lease", seen_mac')
        else ([mkVE (base +:+ ".mac") "must be a valid 48-bit MAC address"], seen_mac)
    | None => ([mkVE (base +:+ ".mac") "must be a valid 48-bit MAC address"], seen_mac)
    end in
  let ip := parse_ipv4 (lease_ip_address lease) in
  let field := base +:+ ".ip_address" in
  let ip_errs :=
    match ip, lan_network with
    | None, _ => [mkVE field "must be a valid address in the LAN subnet"]
    | Some ip, Some network =>
        if negb (net_contains network ip) then [mkVE field "must be a valid address in the LAN subnet"]
        else if some_and (fun lan => ip_equal ip lan) lan_ip then
          [mkVE field "cannot use the router LAN address"]
        else if ip_equal ip (network_ip4 network) then [mkVE field "cannot use the network address"]
        else if equal_opt ip (ipv4_broadcast network) then [mkVE field "cannot use the broadcast address"]
        else match start_ip, end_ip with
             | Some st, Some en =>
                 check (ipv4_ge ip st && ipv4_le ip en) field "must not overlap the dynamic DHCP pool"
             | _, _ => []
             end
    | Some _, None => []
    end in
  let '(dup_errs, seen_ip') :=
    match ip with
    | Some ip =>
        let '(fresh, s) := set_insert (ip_to_string ip) seen_lease_ip in
        (check (negb fresh) field "duplicates another static lease", s)
    | None => ([], seen_lease_ip)
    end in
  let host_errs :=
    check (negb (is_empty (lease_hostname lease)) && negb (HOSTNAME_PATTERN (lease_hostname lease)))
      (base +:+ ".hostname") "must be a valid hostname" in
  (mac_errs ++ ip_errs ++ dup_errs ++ host_errs, (seen_mac', seen_ip')).

Definition validate_dhcp (c : SystemConfig) (lan_ip : option IP) (lan_network : option IPNet)
  : ValidationErrors :=
  let d := c_dhcp c in
  let start_ip := parse_ipv4 (dhcp_range_start d) in
  let end_ip := parse_ipv4 (dhcp_range_end d) in
  check (is_none start_ip) "dhcp.range_start" "must be a valid IPv4 address"
  ++ check (is_none end_ip) "dhcp.range_end" "must be a valid IPv4 address"
  ++ match start_ip, end_ip with
     | Some st, Some en =>
         check (ipv4_gt st en) "dhcp.range" "range start must not be after range end"
         ++ match lan_network with
            | Some network =>
                check (negb (net_contains network st) || negb (net_contains network en)) "dhcp.range"
                  "must be contained in the LAN subnet"
                ++ check (ip_equal st (network_ip4 network) || equal_opt en (ipv4_broadcast network)) "dhcp.range"
                     "cannot include the network or broadcast address"
            | None => []
            end
         ++ match lan_ip with
            | Some lan_ip =>
                check (ipv4_le st lan_ip && ipv4_le lan_ip en) "dhcp.range"
                  "cannot contain the LAN gateway address"
            | None => []
            end
     | _, _ => []
     end
  ++ match parse_duration (dhcp_lease_time d) with
     | Ok lease =>
         check (negb ((MINUTE <=? lease) && (lease <=? dur_hours (7 * 24)))) "dhcp.lease_time"
           "must be a duration between 1m and 168h"
     | Err _ => [mkVE "dhcp.lease_time" "must be a duration between 1m and 168h"]
     end
  ++ fst (vloop (validate_lease lan_ip lan_network start_ip end_ip) 0 (items (dhcp_static_leases d)) (∅, ∅)).

(** ** [validate_firewall] *)
Definition forward_protocols (protocol : string) : list string :=
  if protocol =s "both" then ["tcp"; "udp"] else [protocol].

Definition forward_key (protocol : string) (port : Z) : string := protocol +:+ "/" +:+ show_Z port.

Definition validate_port_forward (c : SystemConfig) (lan_network : option IPNet)
  (i : nat) (pf : PortForwardRule) (seen : gset string) : ValidationErrors * gset string :=
  let base := idx "firewall.port_forwards" i in
  let protocol := to_lower (pf_protocol pf) in
  let target_ip := parse_ipv4 (pf_internal_ip pf) in
  let '(dups, seen') :=
    vloop (fun _ item s =>
             let '(fresh, s') := set_insert (forward_key item (pf_external_port pf)) s in
             (check (negb fresh) base "duplicates an external protocol/port", s'))
      0 (forward_protocols protocol) seen in
  (check (pf_enabled pf && negb (wg_enabled (c_wireguard c))) (base +:+ ".enabled")
     "requires WireGuard: forwards are reachable only over the tunnel, never from WAN"
   ++ check (negb (SAFE_NAME_PATTERN (pf_name pf)) || has_unsafe_control (pf_name pf)) (base +:+ ".name")
        "contains unsupported characters"
   ++ check ((protocol <>s "tcp") && (protocol <>s "udp") && (protocol <>s "both")) (base +:+ ".protocol")
        "must be tcp, udp, or both"
   ++ check ((pf_external_port pf <? 1) || (65535 <? pf_external_port pf)) (base +:+ ".external_port")
        "must be between 1 and 65535"
   ++ check ((pf_internal_port pf <? 1) || (65535 <? pf_internal_port pf)) (base +:+ ".internal_port")
        "must be between 1 and 65535"
   ++ check (is_none target_ip || some_and (fun n => negb (contains_opt n target_ip)) lan_network)
        (base +:+ ".internal_ip") "must be a valid address in the LAN subnet"
   ++ check ((pf_external_port pf =? sys_https_port (c_system c)) || (pf_external_port pf =? 8443))
        (base +:+ ".external_port") "cannot expose a router management port"
   ++ dups, seen').

(** [policy::network_contains_network] *)
Definition network_contains_network (parent child : IPNet) : bool :=
  let '(p, pb) := mask_size (net_mask parent) in
  let '(ch, cb) := mask_size (net_mask child) in
  Nat.eqb pb cb && Nat.leb p ch && net_contains parent (net_ip child).

Definition validate_custom_rule (c : SystemConfig) (lan_network : option IPNet)
  (i : nat) (rule : FirewallRule) : ValidationErrors :=
  let base := idx "firewall.custom_rules" i in
  check (negb (is_empty (rule_scope rule)) && (rule_scope rule <>s "all") && (rule_scope rule <>s "wan"))
    (base +:+ ".scope") "must be all or wan"
  ++ check ((rule_direction rule =s "input") && (rule_scope rule =s "wan")) (base +:+ ".scope")
       "WAN scope is only valid for forward rules"
  ++ check (negb (is_empty (rule_preset_id rule)) && negb (PRESET_ID_PATTERN (rule_preset_id rule)))
       (base +:+ ".preset_id") "must be a short preset identifier"
  ++ check (negb (SAFE_NAME_PATTERN (rule_name rule)) || has_unsafe_control (rule_name rule)) (base +:+ ".name")
       "contains unsupported characters"
  ++ check ((rule_action rule <>s "allow") && (rule_action rule <>s "deny")) (base +:+ ".action")
       "must be allow or deny"
  ++ check ((rule_direction rule <>s "input") && (rule_direction rule <>s "forward")) (base +:+ ".direction")
       "must be input or forward"
  ++ (if (rule_protocol rule =s "tcp") || (rule_protocol rule =s "udp") then
        check ((rule_dst_port rule <? 1) || (65535 <? rule_dst_port rule)) (base +:+ ".dst_port")
          "is required for TCP/UDP and must be between 1 and 65535"
      else if (rule_protocol rule =s "icmp") || (rule_protocol rule =s "any") then
        check (negb (rule_dst_port rule =? 0)) (base +:+ ".dst_port") "must be zero for ICMP/any"
      else [mkVE (base +:+ ".protocol") "must be tcp, udp, icmp, or any"])
  ++ (if negb (is_empty (rule_src_ip rule)) then
        let field := base +:+ ".src_ip" in
        match parse_ipv4 (rule_src_ip rule) with
        | Some ip =>
            check (some_and (fun n => negb (net_contains n ip)) lan_network) field
              "must be a valid LAN source address"
        | None =>
            match parse_cidr (rule_src_ip rule) with
            | Some (_, src) =>
                if negb (is_none (to4 (net_ip src))) then
                  check (some_and (fun n => negb (network_contains_network n src)) lan_network) field
                    "must be contained in the LAN network"
                else [mkVE field "must be a valid LAN source address or IPv4 CIDR"]
            | None => [mkVE field "must be a valid LAN source address or IPv4 CIDR"]
            end
        end
      else [])
  ++ check ((sys_management_access (c_system c) =s "wireguard_only") && rule_enabled rule
            && (rule_direction rule =s "input") && (rule_action rule =s "allow")) base
       "LAN input allow rules are forbidden in wireguard_only management mode".

Definition validate_firewall (c : SystemConfig) (lan_network : option IPNet) : ValidationErrors :=
  let f := c_firewall c in
  check (fw_default_wan_input_policy f <>s "deny") "firewall.default_wan_input_policy" "must remain deny"
  ++ check (negb (is_empty (fw_wan_ingress_mode f)) && (fw_wan_ingress_mode f <>s "wireguard_only"))
       "firewall.wan_ingress_mode" "must remain wireguard_only"
  ++ check (negb (fw_stateful_firewall f)) "firewall.stateful_firewall" "cannot be disabled"
  ++ fst (vloop (validate_port_forward c lan_network) 0 (items (fw_port_forwards f)) ∅)
  ++ each (validate_custom_rule c lan_network) (items (fw_custom_rules f)).

(** ** [validate_extra_lans] *)
Definition extra_interface_errors (c : SystemConfig) (prefix : string) (lan : ExtraLANConfig)
  (seen : gset string) : ValidationErrors * gset string :=
  let iface := xl_interface lan in
  let field := prefix +:+ ".interface" in
  if negb (valid_interface_name iface) || starts_with "ppp" iface then
    ([mkVE field "must be a valid non-PPP interface name"], seen)
  else
    let reuse :=
      if iface =s wan_interface (c_wan c) then [mkVE field "must not reuse the WAN interface"]
      else if (iface =s lan_interface (c_lan c)) || (iface =s WIFI_BRIDGE_INTERFACE) then
        [mkVE field "must not reuse the LAN interface"]
      else if wg_enabled (c_wireguard c) && (iface =s wg_interface (c_wireguard c)) then
        [mkVE field "must not reuse the WireGuard interface"]
      else if wgc_enabled (c_wg_client c) && (iface =s wgc_interface (c_wg_client c)) then
        [mkVE field "must not reuse the WireGuard client interface"]
      else if wifi_enabled (c_wifi c)
              && ((iface =s wifi_interface (c_wifi c)) || (iface =s WIFI_BRIDGE_INTERFACE)) then
        [mkVE field "must not reuse the Wi-Fi radio or its bridge"]
      else [] in
    let '(fresh, seen') := set_insert iface seen in
    (reuse ++ check (negb fresh) field "duplicates another extra LAN interface", seen').

Definition router_address_errors (prefix : string) (lan : ExtraLANConfig) (extra : IPNet) : ValidationErrors :=
  let field := prefix +:+ ".router_address" in
  if is_empty (xl_router_address lan) then
    [mkVE field "is required for an enabled extra LAN so the router can reconstruct the segment"]
  else
    match parse_cidr (xl_router_address lan) with
    | Some (router_ip, router_net) =>
        if negb (is_none (to4 router_ip)) then
          if net_contains extra router_ip then
            if ip_equal router_ip (network_ip4 extra) then [mkVE field "cannot use the network address"]
            else if equal_opt router_ip (ipv4_broadcast extra) then
              [mkVE field "cannot use the broadcast address"]
            else check (net_to_string router_net <>s net_to_string extra) field
                   "must be contained in the extra LAN subnet"
          else [mkVE field "must be contained in the extra LAN subnet"]
        else [mkVE field "must be a valid IPv4 interface CIDR"]
    | None => [mkVE field "must be a valid IPv4 interface CIDR"]
    end.

(** The segment's subnet against the LAN, both tunnels and the segments before. *)
Definition extra_cidr_errors (c : SystemConfig) (lan_network wg_network : option IPNet) (prefix : string)
  (lan : ExtraLANConfig) (extra_net : option IPNet) (extra_networks : list IPNet)
  : ValidationErrors * list IPNet :=
  let field := prefix +:+ ".cidr" in
  match extra_net with
  | None => ([mkVE field "must be valid IPv4 CIDR notation"], extra_networks)
  | Some extra =>
      if is_none (to4 (net_ip extra)) then
        ([mkVE field "must be valid IPv4 CIDR notation"], extra_networks)
      else
        (check (some_and (fun n => networks_overlap n extra) lan_network) field
           "must not overlap the LAN subnet"
         ++ check (some_and (fun n => networks_overlap n extra) wg_network) field
              "must not overlap the WireGuard subnet"
         ++ (if negb (is_empty (wgc_address (c_wg_client c))) then
               match parse_cidr (wgc_address (c_wg_client c)) with
               | Some (_, client_net) =>
                   check (networks_overlap client_net extra) field
                     "must not overlap the WireGuard client subnet"
               | None => []
               end
             else [])
         ++ each (fun _ previous =>
                    check (networks_overlap previous extra) field
                      "must not overlap another extra LAN subnet") extra_networks
         ++ router_address_errors prefix lan extra,
         extra_networks ++ [extra])
  end.

Definition extra_dst_errors (prefix : string) (lan : ExtraLANConfig) (extra_net : option IPNet)
  : ValidationErrors :=
  let field := prefix +:+ ".dst_ip" in
  let dst := if is_empty (xl_dst_ip lan) then None else parse_ipv4 (xl_dst_ip lan) in
  match dst, extra_net with
  | None, _ => [mkVE field "must be a valid IPv4 address"]
  | Some dst, Some extra =>
      if negb (net_contains extra dst) then [mkVE field "must be inside the extra LAN subnet"]
      else
        check (ip_equal dst (network_ip4 extra) || equal_opt dst (ipv4_broadcast extra)) field
          "cannot use the network or broadcast address"
        ++ (if negb (is_empty (xl_router_address lan)) then
              match parse_cidr (xl_router_address lan) with
              | Some (router_ip, _) => check (ip_equal dst router_ip) field "cannot be the router address"
              | None => []
              end
            else [])
  | Some _, None => []
  end.

(** [zone.contains(&src.ip) && src_ones >= zone.mask.size().0] *)
Definition zone_covers (zone : option IPNet) (src_net : IPNet) : bool :=
  some_and (fun zone => net_contains zone (net_ip src_net)
                        && Nat.leb (fst (mask_size (net_mask zone))) (fst (mask_size (net_mask src_net)))) zone.

(** The sources of a segment: the loop stops at its first error. *)
Fixpoint allow_from_errors (lan_network wg_network : option IPNet) (field : string) (l : list string)
  (seen_src : gset string) : ValidationErrors :=
  match l with
  | [] => []
  | entry :: t =>
      let src := trim entry in
      match parse_cidr src with
      | None => [mkVE field "must be canonical CIDR notation"]
      | Some (_, src_net) =>
          if negb (zone_covers lan_network src_net || zone_covers wg_network src_net) then
            [mkVE field "only subnets of the LAN and WireGuard networks may reach an extra LAN"]
          else
            let '(fresh, seen') := set_insert src seen_src in
            if negb fresh then [mkVE field "duplicates a source CIDR"]
            else allow_from_errors lan_network wg_network field t seen'
      end
  end.

Definition validate_extra_lan (c : SystemConfig) (lan_network wg_network : option IPNet)
  (i : nat) (lan : ExtraLANConfig) (st : gset string * list IPNet)
  : ValidationErrors * (gset string * list IPNet) :=
  let '(seen_extra_interfaces, extra_networks) := st in
  if negb (xl_enabled lan) then ([], st)
  else
    let prefix := idx "firewall.extra_lans" i in
    let '(iface_errs, seen') := extra_interface_errors c prefix lan seen_extra_interfaces in
    let extra_net := snd <$> parse_cidr (xl_cidr lan) in
    let '(cidr_errs, nets') := extra_cidr_errors c lan_network wg_network prefix lan extra_net extra_networks in
    (check (negb (SAFE_NAME_PATTERN (xl_name lan)) || has_unsafe_control (xl_name lan)
            || (64 <? str_len (xl_name lan))) (prefix +:+ ".name")
       "must be 1-64 safe characters and contain no control characters"
     ++ check (has_unsafe_control (xl_id lan) || (64 <? str_len (xl_id lan))) (prefix +:+ ".id")
          "must contain no control characters and be at most 64 characters"
     ++ iface_errs
     ++ cidr_errs
     ++ extra_dst_errors prefix lan extra_net
     ++ check ((xl_dst_port lan <? 1) || (65535 <? xl_dst_port lan)) (prefix +:+ ".dst_port")
          "must be between 1 and 65535"
     ++ check (negb (is_empty (xl_protocol lan)) && (xl_protocol lan <>s "tcp") && (xl_protocol lan <>s "udp"))
          (prefix +:+ ".protocol") "must be tcp, udp, or empty"
     ++ check (list_is_empty (xl_allow_from lan)) (prefix +:+ ".allow_from") "must list at least one source CIDR"
     ++ allow_from_errors lan_network wg_network (prefix +:+ ".allow_from") (items (xl_allow_from lan)) ∅,
     (seen', nets')).

Definition extra_lans_wg_network (c : SystemConfig) : option IPNet :=
  if wg_enabled (c_wireguard c) then snd <$> parse_cidr (wg_address (c_wireguard c)) else None.

Definition validate_extra_lans (c : SystemConfig) (lan_network : option IPNet) : ValidationErrors :=
  fst (vloop (validate_extra_lan c lan_network (extra_lans_wg_network c)) 0
         (items (fw_extra_lans (c_firewall c))) (∅, [])).

(** ** [validate_wireguard] *)
Definition validate_peer_ip (wg_network : option IPNet) (i j : nat) (allowed : string) (seen : gset string)
  : ValidationErrors * gset string :=
  let field := idx (idx "wireguard.peers" i +:+ ".allowed_ips") j in
  match parse_cidr allowed with
  | Some (ip, network) =>
      if negb (is_none (to4 ip)) && Nat.eqb (fst (mask_size (net_mask network))) 32
         && negb (some_and (fun n => negb (net_contains n ip)) wg_network)
      then
        let '(fresh, seen') := set_insert (net_to_string network) seen in
        (check (negb fresh) field "duplicates another peer route", seen')
      else ([mkVE field "must be an IPv4 /32 address inside the WireGuard subnet"], seen)
  | None => ([mkVE field "must be an IPv4 /32 address inside the WireGuard subnet"], seen)
  end.

Definition validate_peer (wg_network : option IPNet) (i : nat) (peer : WireGuardPeer) (seen : gset string)
  : ValidationErrors * gset string :=
  if negb (peer_enabled peer) then ([], seen)
  else
    let base := idx "wireguard.peers" i in
    let '(ip_errs, seen') := vloop (validate_peer_ip wg_network i) 0 (items (peer_allowed_ips peer)) seen in
    (check (negb (SAFE_NAME_PATTERN (peer_name peer))) (base +:+ ".name") "contains unsupported characters"
     ++ check (negb (valid_wireguard_key (peer_public_key peer))) (base +:+ ".public_key")
          "must be a valid 32-byte WireGuard key"
     ++ check (negb (is_empty (peer_preshared_key peer)) && negb (valid_wireguard_key (peer_preshared_key peer)))
          (base +:+ ".preshared_key") "must be a valid 32-byte WireGuard key"
     ++ check (negb (list_len (peer_allowed_ips peer) =? 1)) (base +:+ ".allowed_ips")
          "must contain exactly one IPv4 /32 address"
     ++ ip_errs
     ++ (if negb (is_empty (peer_endpoint peer)) then
           check (negb match split_host_port (peer_endpoint peer) with
                       | Ok (host, _) => negb (is_none (parse_ip host))
                       | Err _ => false
                       end) (base +:+ ".endpoint")
             "must be a static IPv4/IPv6 address in host:port form; hostnames are not resolved"
         else []), seen').

(** The address check, and the network the peers must be in. *)
Definition wireguard_address (c : SystemConfig) (lan_ip : option IP) (lan_network : option IPNet)
  : ValidationErrors * option IPNet :=
  let parsed := parse_cidr (wg_address (c_wireguard c)) in
  let host_part := hd EmptyString (split "/"%char (wg_address (c_wireguard c))) in
  let bad := ([mkVE "wireguard.address" "must be a valid IPv4 interface CIDR"], snd <$> parsed) in
  match parsed with
  | Some (wg_ip, wg_net) =>
      if negb (is_none (to4 wg_ip)) && some_and (fun h => ip_equal wg_ip h) (parse_ip host_part) then
        (check (some_and (fun n => net_contains n wg_ip) lan_network
                || contains_opt wg_net lan_ip && negb (is_none lan_network))
           "wireguard.address" "must not overlap the LAN subnet", Some wg_net)
      else bad
  | None => bad
  end.

Definition validate_wireguard (c : SystemConfig) (lan_ip : option IP) (lan_network : option IPNet)
  : ValidationErrors :=
  let w := c_wireguard c in
  let '(addr_errs, wg_network) := wireguard_address c lan_ip lan_network in
  check (negb (wan_enabled (c_wan c))) "wireguard.enabled" "requires an enabled WAN connection"
  ++ check (wg_interface w <>s "wg0") "wireguard.interface" "must be wg0 in this appliance version"
  ++ check (negb (valid_wireguard_key (wg_private_key w))) "wireguard.private_key"
       "must be a valid 32-byte WireGuard key"
  ++ check ((wg_listen_port w <? 1024) || (65535 <? wg_listen_port w)
            || (wg_listen_port w =? sys_https_port (c_system c))) "wireguard.listen_port"
       "must be a non-management port between 1024 and 65535"
  ++ addr_errs
  ++ fst (vloop (validate_peer wg_network) 0 (items (wg_peers w)) ∅).

(** ** [validate_wg_client] *)
Definition wireguard_server_network (c : SystemConfig) : option IPNet :=
  if negb (wg_enabled (c_wireguard c)) || is_empty (wg_address (c_wireguard c)) then None
  else snd <$> parse_cidr (wg_address (c_wireguard c)).

Definition client_address (c : SystemConfig) (lan_network : option IPNet) : ValidationErrors * option IPNet :=
  let client := c_wg_client c in
  if is_empty (wgc_address client) then ([], None)
  else
    match parse_cidr (wgc_address client) with
    | Some (client_ip, client_net) =>
        if negb (is_none (to4 client_ip)) then
          ((if some_and (fun n => networks_overlap n client_net) lan_network then
              [mkVE "wg_client.address" "must not overlap the LAN subnet"]
            else if some_and (fun n => networks_overlap n client_net) (wireguard_server_network c) then
              [mkVE "wg_client.address" "must not overlap the WireGuard server subnet"]
            else check (negb (Nat.eqb (fst (mask_size (net_mask client_net))) 32)) "wg_client.address"
                   "must be a /32 address in this appliance version"), Some client_net)
        else ([mkVE "wg_client.address" "must be a valid IPv4 interface CIDR"], Some client_net)
    | None => ([mkVE "wg_client.address" "must be a valid IPv4 interface CIDR"], None)
    end.

Definition client_endpoint_errors (endpoint : string) : ValidationErrors :=
  let field := "wg_client.endpoint" in
  match split_host_port endpoint with
  | Ok (host, port_text) =>
      if is_empty host then [mkVE field "must use host:port format"]
      else
        match parse_ip host with
        | Some parsed =>
            check (is_none (to4 parsed)) field "IPv6 endpoints are unavailable while IPv6 is disabled"
        | None =>
            check (negb (WIREGUARD_ENDPOINT_HOST_PATTERN host) || contains_str ".." host) field
              "contains an invalid hostname"
        end
        ++ match go_atoi port_text with
           | Some port => check (negb (port_ok port)) field "port must be between 1 and 65535"
           | None => [mkVE field "port must be between 1 and 65535"]
           end
  | Err _ => [mkVE field "must use host:port format"]
  end.

(** The loop over the extra LANs stops at the first overlap. *)
Fixpoint client_extra_lan_errors (field : string) (network : IPNet) (l : list ExtraLANConfig)
  : ValidationErrors :=
  match l with
  | [] => []
  | lan :: t =>
      if negb (xl_enabled lan) || is_empty (xl_cidr lan) then client_extra_lan_errors field network t
      else match parse_cidr (xl_cidr lan) with
           | Some (_, extra) =>
               if networks_overlap extra network then
                 [mkVE field "must not overlap an extra LAN subnet"]
               else client_extra_lan_errors field network t
           | None => client_extra_lan_errors field network t
           end
  end.

Definition endpoint_host_ip (endpoint : string) : option IP :=
  match split_host_port endpoint with Ok (host, _) => parse_ip host | Err _ => None end.

Definition dns_upstreams (c : SystemConfig) : list IP :=
  List.filter (fun ip => negb (is_none (to4 ip)))
    (omap (fun server => parse_ip (trim server)) (items (dhcp_dns_servers (c_dhcp c)))).

Definition validate_client_ip (c : SystemConfig) (lan_network client_address_net : option IPNet)
  (i : nat) (entry : string) (seen_nets : gset string) : ValidationErrors * gset string :=
  let field := idx "wg_client.allowed_ips" i in
  let bad := ([mkVE field "must be a valid IPv4 CIDR network"], seen_nets) in
  match parse_cidr (trim entry) with
  | Some (ip, network) =>
      if is_none (to4 ip) then bad
      else
        let '(fresh, seen') := set_insert (net_to_string network) seen_nets in
        (check (Nat.ltb (fst (mask_size (net_mask network))) 8) field
           "must not be broader than a /8: default-route capture (0.0.0.0/0 and /1 split tricks) is not supported"
         ++ check (some_and (fun ip => net_contains network ip) (endpoint_host_ip (wgc_endpoint (c_wg_client c))))
              field
              "must not contain the peer endpoint address; the endpoint needs a real route outside the tunnel"
         ++ check (existsb (fun upstream => net_contains network upstream) (dns_upstreams c)) field
              "must not contain a configured DNS upstream; the resolver path needs a real route outside the tunnel"
         ++ check (some_and (fun n => networks_overlap n network) lan_network) field
              "must not overlap the LAN subnet"
         ++ check (some_and (fun n => networks_overlap n network) (wireguard_server_network c)) field
              "must not overlap the WireGuard server subnet"
         ++ check (some_and (fun n => networks_overlap n network) client_address_net) field
              "must not overlap the tunnel's own address"
         ++ client_extra_lan_errors field network (items (fw_extra_lans (c_firewall c)))
         ++ check (negb fresh) field "duplicates another allowed network", seen')
  | None => bad
  end.

Definition validate_wg_client (c : SystemConfig) (lan_network : option IPNet) : ValidationErrors :=
  let client := c_wg_client c in
  if negb (wgc_enabled client) then []
  else
    let '(addr_errs, client_address_net) := client_address c lan_network in
    check (wgc_interface client <>s "wg1") "wg_client.interface" "must be wg1 in this appliance version"
    ++ check (negb (valid_wireguard_key (wgc_private_key client))) "wg_client.private_key"
         "must be a valid 32-byte WireGuard key"
    ++ check (negb (valid_wireguard_key (wgc_public_key client))) "wg_client.public_key"
         "must be a valid 32-byte WireGuard key"
    ++ check (negb (is_empty (wgc_private_key client)) && (wgc_public_key client =s wgc_private_key client))
         "wg_client.public_key" "must not match the private key"
    ++ check (negb (is_empty (wgc_preshared_key client)) && negb (valid_wireguard_key (wgc_preshared_key client)))
         "wg_client.preshared_key" "must be a valid 32-byte WireGuard key"
    ++ addr_errs
    ++ client_endpoint_errors (wgc_endpoint client)
    ++ check (list_is_empty (wgc_allowed_ips client)) "wg_client.allowed_ips"
         "must list at least one remote network"
    ++ fst (vloop (validate_client_ip c lan_network client_address_net) 0 (items (wgc_allowed_ips client)) ∅)
    ++ check ((wgc_persistent_keepalive client <? 0) || (65535 <? wgc_persistent_keepalive client))
         "wg_client.persistent_keepalive" "must be between 0 and 65535"
    ++ check (has_unsafe_control (wgc_endpoint client) || (255 <? str_len (wgc_endpoint client)))
         "wg_client.endpoint" "contains forbidden characters or is too long".

(** ** Device profiles ([profiles.rs]) *)
Definition SUPPORTED_PROFILE_SERVICES : list string :=
  ["youtube"; "steam"; "wiki"; "tiktok"; "instagram"; "facebook"; "roblox"; "epic"; "twitch"; "adult"; "gaming"].
Definition SUPPORTED_SCHEDULE_DAYS : list string :=
  ["monday"; "tuesday"; "wednesday"; "thursday"; "friday"; "saturday"; "sunday"].
Definition one_of (l : list string) (s : string) : bool := existsb (String.eqb s) l.

(** A window as minutes of the day, when it is well formed. *)
Definition parse_window (field : string) (i : nat) (window : AccessWindow) (parsed : list (Z * Z))
  : ValidationErrors * list (Z * Z) :=
  match parse_clock (aw_start window), parse_clock (aw_end window) with
  | Some (sh, sm), Some (eh, em) =>
      let start := sh * 60 + sm in
      let end_ := eh * 60 + em in
      if end_ <=? start then
        ([mkVE (idx field i) "end must be later than start; split midnight-spanning access"], parsed)
      else ([], parsed ++ [(start, end_)])
  | _, _ => ([mkVE (idx field i) "must use HH:MM 24-hour times"], parsed)
  end.

(** [parsed.sort_by_key(|w| w.0)], a stable sort *)
Fixpoint insert_window (w : Z * Z) (l : list (Z * Z)) : list (Z * Z) :=
  match l with
  | [] => [w]
  | x :: t => if fst w <=? fst x then w :: x :: t else x :: insert_window w t
  end.
Definition sort_windows (l : list (Z * Z)) : list (Z * Z) := fold_right insert_window [] l.

(** [parsed.windows(2).any(|pair| pair[1].0 < pair[0].1)] *)
Fixpoint windows_overlap (l : list (Z * Z)) : bool :=
  match l with
  | a :: ((b :: _) as t) => (fst b <? snd a) || windows_overlap t
  | _ => false
  end.

Definition validate_windows (field : string) (windows : list AccessWindow) : ValidationErrors :=
  if Nat.ltb 12 (List.length windows) then [mkVE field "cannot contain more than twelve windows"]
  else
    let '(errs, parsed) := vloop (parse_window field) 0 windows [] in
    errs ++ check (windows_overlap (sort_windows parsed)) field "windows must not overlap".

Definition validate_profile_schedule (field : string) (schedule : WeeklyAccessSchedule) : ValidationErrors :=
  let days := sched_day_windows schedule in
  match days with
  | _ :: _ =>
      check (Nat.ltb 7 (List.length days)) (field +:+ ".day_windows") "cannot contain more than seven days"
      ++ check (negb (list_is_empty (sched_weekday_windows schedule))
                || negb (is_empty (sched_weekend_mode schedule))
                || negb (list_is_empty (sched_weekend_windows schedule))) field
           "must not mix day_windows with legacy weekday/weekend fields"
      ++ each (fun _ '(day, windows) =>
                 let day_field := field +:+ ".day_windows." +:+ day in
                 if negb (one_of SUPPORTED_SCHEDULE_DAYS day) then
                   [mkVE day_field "is not a supported weekday"]
                 else validate_windows day_field (items windows)) days
  | [] =>
      validate_windows (field +:+ ".weekday_windows") (items (sched_weekday_windows schedule))
      ++ (if one_of ["all_day"; "blocked"; "same_as_weekdays"; EmptyString] (sched_weekend_mode schedule) then
            check (negb (list_is_empty (sched_weekend_windows schedule))) (field +:+ ".weekend_windows")
              "must be empty unless weekend_mode is custom"
          else if sched_weekend_mode schedule =s "custom" then
            check (list_is_empty (sched_weekend_windows schedule)) (field +:+ ".weekend_windows")
              "must contain at least one window for custom weekend mode"
            ++ validate_windows (field +:+ ".weekend_windows") (items (sched_weekend_windows schedule))
          else [mkVE (field +:+ ".weekend_mode") "must be all_day, blocked, same_as_weekdays, or custom"])
  end.

Definition validate_profile_ip (lan_network : option IPNet) (base id : string)
  (j : nat) (raw_ip : string) (seen_ips : gmap string string) : ValidationErrors * gmap string string :=
  let field := idx (base +:+ ".ip_addresses") j in
  let ip := parse_ipv4 raw_ip in
  (check (is_none ip || some_and (fun n => negb (contains_opt n ip)) lan_network) field
     "must be a valid address in the LAN subnet"
   ++ match seen_ips !! raw_ip with
      | Some owner => check (owner <>s id) field "is already controlled by another profile"
      | None => []
      end, <[raw_ip := id]> seen_ips).

Definition validate_profile_service (base : string) (j : nat) (service : string) (seen : gset string)
  : ValidationErrors * gset string :=
  let field := idx (base +:+ ".services") j in
  let '(fresh, seen') := set_insert service seen in
  (check (service <>s to_lower (trim service)) field "must be a lowercase service identifier"
   ++ check (negb (one_of SUPPORTED_PROFILE_SERVICES service)) field "is not a supported managed service"
   ++ check (negb fresh) field "duplicates another service", seen').

Definition validate_profile (lan_network : option IPNet) (i : nat) (profile : DeviceProfile)
  (st : gset string * gmap string string) : ValidationErrors * (gset string * gmap string string) :=
  let '(seen_ids, seen_ips) := st in
  let base := idx "adguard.device_profiles" i in
  let '(fresh, seen_ids') := set_insert (dp_id profile) seen_ids in
  let '(ip_errs, seen_ips') :=
    vloop (validate_profile_ip lan_network base (dp_id profile)) 0 (items (dp_ip_addresses profile)) seen_ips in
  (check (negb (DEVICE_PROFILE_ID_PATTERN (dp_id profile))) (base +:+ ".id")
     "must contain only letters, numbers, underscore, or hyphen"
   ++ check (negb fresh) (base +:+ ".id") "duplicates another profile"
   ++ check (negb (SAFE_NAME_PATTERN (dp_name profile)) || has_unsafe_control (dp_name profile))
        (base +:+ ".name") "contains unsupported characters"
   ++ check (list_is_empty (dp_ip_addresses profile) || (32 <? list_len (dp_ip_addresses profile)))
        (base +:+ ".ip_addresses") "must contain between one and 32 LAN addresses"
   ++ ip_errs
   ++ check (list_is_empty (dp_services profile)
             || (Z.of_nat (List.length SUPPORTED_PROFILE_SERVICES) <? list_len (dp_services profile)))
        (base +:+ ".services") "must contain at least one supported service"
   ++ fst (vloop (validate_profile_service base) 0 (items (dp_services profile)) ∅)
   ++ validate_profile_schedule (base +:+ ".schedule") (dp_schedule profile), (seen_ids', seen_ips')).

Definition validate_device_profiles (c : SystemConfig) (lan_network : option IPNet) : ValidationErrors :=
  check (negb (list_is_empty (df_filter_devices (c_adguard c)))) "adguard.filter_devices"
    "legacy per-device rules must be migrated to device_profiles"
  ++ check (64 <? list_len (df_device_profiles (c_adguard c))) "adguard.device_profiles"
       "cannot contain more than 64 profiles"
  ++ fst (vloop (validate_profile lan_network) 0 (items (df_device_profiles (c_adguard c))) (∅, ∅)).

(** ** [validate]: the sections it checks in line *)
Definition validate_system (c : SystemConfig) : ValidationErrors :=
  let s := c_system c in
  let access := sys_management_access s in
  check (negb (HOSTNAME_PATTERN (sys_hostname s))) "system.hostname"
    "must be a valid RFC-compatible hostname label"
  ++ check (negb (DOMAIN_PATTERN (sys_domain s)) || has_unsafe_control (sys_domain s)) "system.domain"
       "must be a valid local DNS domain"
  ++ check ((sys_https_port s <? 1024) || (65535 <? sys_https_port s)) "system.https_port"
       "must be an unprivileged port between 1024 and 65535"
  ++ check (negb (sys_https_enabled s)) "system.https_enabled" "management HTTPS cannot be disabled"
  ++ check (negb (is_empty access) && (access <>s "lan_and_wireguard") && (access <>s "wireguard_only"))
       "system.management_access" "must be lan_and_wireguard or wireguard_only"
  ++ (if access =s "wireguard_only" then
        check (negb (wg_enabled (c_wireguard c))) "system.management_access"
          "requires WireGuard to be enabled"
        ++ check (negb (existsb peer_enabled (items (wg_peers (c_wireguard c))))) "system.management_access"
             "requires at least one enabled WireGuard peer"
      else []).

Definition validate_wan (c : SystemConfig) : ValidationErrors :=
  let w := c_wan c in
  check (negb (valid_interface_name (wan_interface w))) "wan.interface"
    "must be a valid Linux interface name of at most 15 characters"
  ++ check (negb (valid_interface_name (lan_interface (c_lan c)))) "lan.interface"
       "must be a valid Linux interface name of at most 15 characters"
  ++ check (wan_interface w =s lan_interface (c_lan c)) "wan.interface"
       "WAN interface cannot be the same as LAN interface"
  ++ check ((wan_mtu w <? 1280) || (1500 <? wan_mtu w)) "wan.mtu" "must be between 1280 and 1500"
  ++ check (has_unsafe_control (wan_username w) || (255 <? str_len (wan_username w))) "wan.username"
       "contains forbidden control characters or is too long"
  ++ check (has_unsafe_control (wan_password w) || (1024 <? str_len (wan_password w))) "wan.password"
       "contains forbidden control characters or is too long"
  ++ (if wan_enabled w then
        check (is_empty (trim (wan_username w))) "wan.username" "is required when PPPoE is enabled"
        ++ check (is_empty (wan_password w) || (wan_password w =s "[REDACTED]")) "wan.password"
             "a new PPPoE password is required when none is stored"
      else []).

(** The LAN address and the network of its CIDR. *)
Definition validate_lan (c : SystemConfig) : ValidationErrors * option IP * option IPNet :=
  let lan := c_lan c in
  let lan_ip := parse_ipv4 (lan_ip_address lan) in
  let ip_errs := check (is_none lan_ip) "lan.ip_address" "must be a valid IPv4 address" in
  let '(cidr_errs, lan_network) :=
    if negb (is_empty (lan_cidr lan)) then
      match parse_cidr (lan_cidr lan) with
      | None => ([mkVE "lan.cidr" "must be valid IPv4 CIDR notation"], None)
      | Some (cidr_ip, network) =>
          if is_none (to4 cidr_ip) then ([mkVE "lan.cidr" "must contain an IPv4 address"], None)
          else
            (match lan_ip with
             | Some lan_ip =>
                 check (negb (net_contains network lan_ip)) "lan.cidr" "must contain the configured LAN address"
                 ++ check (negb (ip_equal cidr_ip lan_ip)) "lan.cidr" "address must exactly match lan.ip_address"
                 ++ check (ip_equal lan_ip (net_ip network) || equal_opt lan_ip (ipv4_broadcast network)
                           || is_unspecified lan_ip || is_loopback lan_ip || is_multicast lan_ip)
                      "lan.ip_address"
                      "must be a usable host address, not a network, broadcast, loopback or multicast address"
             | None => []
             end
             ++ check (lan_netmask lan <>s ip_to_string (net_mask network)) "lan.netmask"
                  "must match the CIDR prefix", Some network)
      end
    else ([mkVE "lan.cidr" "is required"], None) in
  (ip_errs ++ cidr_errs, lan_ip, lan_network).

Definition validate_dns_server (lan_ip : option IP) (i : nat) (dns : string) (seen_dns : gset string)
  : ValidationErrors * gset string :=
  let field := idx "dhcp.dns_servers" i in
  match parse_ipv4 dns with
  | None => ([mkVE field "must be a valid IPv4 address"], seen_dns)
  | Some ip =>
      if is_unspecified ip || is_loopback ip || is_multicast ip || ip_equal ip (ip_v4 255 255 255 255)
         || equal_opt ip lan_ip
      then ([mkVE field "must be a unicast upstream resolver, not the router's own DNS listener"], seen_dns)
      else
        let '(fresh, seen') := set_insert (ip_to_string ip) seen_dns in
        (check (negb fresh) field "duplicates another upstream resolver", seen')
  end.

Definition validate_dns_servers (c : SystemConfig) (lan_ip : option IP) : ValidationErrors :=
  let servers := dhcp_dns_servers (c_dhcp c) in
  check (list_is_empty servers || (3 <? list_len servers)) "dhcp.dns_servers"
    "must contain between one and three explicit upstream resolvers"
  ++ fst (vloop (validate_dns_server lan_ip) 0 (items servers) ∅).

Definition validate_cloudflare (c : SystemConfig) : ValidationErrors :=
  let cf := c_cloudflare c in
  (if cf_ddns_enabled cf then
     check (negb (wan_enabled (c_wan c))) "cloudflare.ddns_enabled" "requires an enabled WAN connection"
     ++ check (negb (DOMAIN_PATTERN (cf_domain cf)) || negb (contains_char "." (cf_domain cf)))
          "cloudflare.domain" "must be a valid fully qualified DDNS hostname"
     ++ (let lowered := to_lower (trim (cf_ddns_provider cf)) in
         let provider := if is_empty lowered then "cloudflare" else lowered in
         if provider =s "noip" then
           let user := cf_ddns_user cf in
           let token := cf_api_token cf in
           check (is_empty (trim user) || (255 <? str_len user) || has_unsafe_control user)
             "cloudflare.ddns_username"
             "No-IP username or DDNS Key username is required and must not contain control characters"
           ++ check (is_empty token || (token =s "[REDACTED]") || (1024 <? str_len token)
                     || has_unsafe_control token) "cloudflare.api_token"
                "No-IP DDNS Key/account password is required and must not contain control characters"
         else if provider =s "cloudflare" then
           check (negb (DOMAIN_PATTERN (cf_zone_name cf)) || negb (contains_char "." (cf_zone_name cf)))
             "cloudflare.zone_name" "must be the Cloudflare zone name, for example example.com"
           ++ check (negb (CLOUDFLARE_TOKEN_PATTERN (cf_api_token cf))) "cloudflare.api_token"
                "must be a valid Cloudflare API token"
         else [mkVE "cloudflare.ddns_provider" "must be noip or cloudflare"])
   else [])
  ++ check (cf_tunnel_enabled cf) "cloudflare.tunnel_enabled"
       "is unavailable because WireGuard is the only allowed remote-entry path".

Definition validate_squid (c : SystemConfig) (lan_network : option IPNet) : ValidationErrors :=
  let proxy := c_squid_proxy c in
  (if squid_enabled proxy then
     check ((squid_port proxy <? 1) || (65535 <? squid_port proxy)
            || (squid_port proxy =? sys_https_port (c_system c))) "squid_proxy.port"
       "must be a non-management port between 1 and 65535"
     ++ check (has_unsafe_control (squid_username proxy) || has_unsafe_control (squid_password proxy))
          "squid_proxy" "credentials contain forbidden control characters"
     ++ check (negb (CREDENTIAL_NAME_PATTERN (squid_username proxy))) "squid_proxy.username"
          "must contain only letters, numbers, dot, underscore, or hyphen"
     ++ check ((rune_count (squid_password proxy) <? 8) || (1024 <? str_len (squid_password proxy))
               || (squid_password proxy =s "[REDACTED]")) "squid_proxy.password"
          "must contain 8-1024 characters"
   else [])
  ++ each (fun i item =>
             let ip := parse_ipv4 (ri_ip_address item) in
             check (is_none ip || some_and (fun n => negb (contains_opt n ip)) lan_network)
               (idx "squid_proxy.restricted_ips" i +:+ ".ip_address") "must be a valid LAN address")
       (items (squid_restricted_ips proxy)).

(** A static DNS record; the state holds the names and addresses seen. *)
Definition validate_dns_record (i : nat) (rec : DNSRecord) (seen : gset string * gset string)
  : ValidationErrors * (gset string * gset string) :=
  let '(seen_dns_names, seen_dns_ips) := seen in
  let base := idx "dns.records" i in
  let lower := to_lower (trim_suffix "." (rec_name rec)) in
  let names' := if negb (is_empty lower) then {[lower]} ∪ seen_dns_names else seen_dns_names in
  let '(ip_errs, ips') :=
    match parse_ipv4 (rec_ip rec) with
    | None => ([mkVE (base +:+ ".ip") "must be a valid IPv4 address"], seen_dns_ips)
    | Some ip =>
        let '(fresh, s) := set_insert (ip_to_string ip) seen_dns_ips in
        (check (negb fresh) (base +:+ ".ip") "duplicates another record's address", s)
    end in
  (check (negb (DOMAIN_PATTERN (rec_name rec)) || has_unsafe_control (rec_name rec)) (base +:+ ".name")
     "must be a valid DNS hostname"
   ++ check (ends_with ".local" lower) (base +:+ ".name")
        ".local is the mDNS namespace and conflicts with macOS/iOS resolvers; use .home.arpa instead"
   ++ check (negb (is_empty lower) && bool_decide (lower ∈ seen_dns_names)) (base +:+ ".name")
        "duplicates another record (hostnames are case-insensitive)"
   ++ ip_errs, (names', ips')).

(** [for (i, lease) in c.dhcp.static_leases.iter().enumerate()] *)
Definition lease_name_errors (c : SystemConfig) (seen_dns_names : gset string) (i : nat) (lease : StaticLease)
  : ValidationErrors :=
  let domain_suffix := "." +:+ to_lower (trim_suffix "." (sys_domain (c_system c))) in
  if is_empty (lease_hostname lease) then []
  else
    let lease_fqdn :=
      if domain_suffix <>s "." then to_lower (lease_hostname lease) +:+ domain_suffix
      else to_lower (lease_hostname lease) in
    check (bool_decide (lease_fqdn ∈ seen_dns_names)) (idx "dhcp.static_leases" i +:+ ".hostname")
      "conflicts with a static DNS record hostname".

Definition validate_dns_records (c : SystemConfig) : ValidationErrors :=
  let '(errs, (names, _)) := vloop validate_dns_record 0 (items (dns_records (c_dns c))) (∅, ∅) in
  errs ++ each (lease_name_errors c names) (items (dhcp_static_leases (c_dhcp c))).

Definition validate_qos (c : SystemConfig) : ValidationErrors :=
  let q := c_qos c in
  if qos_enabled q then
    check ((qos_algorithm q <>s "cake") && (qos_algorithm q <>s "fq_codel")) "qos.algorithm"
      "must be cake or fq_codel"
    ++ check (qos_download_limit_mbps q <=? 0) "qos.download_limit_mbps" "must be greater than zero"
    ++ check (qos_upload_limit_mbps q <=? 0) "qos.upload_limit_mbps" "must be greater than zero"
    ++ check ((100000 <? qos_download_limit_mbps q) || (100000 <? qos_upload_limit_mbps q)) "qos"
         "limits must not exceed 100000 Mbps"
  else [].

Definition validate_wifi (c : SystemConfig) : ValidationErrors :=
  let wifi := c_wifi c in
  if wifi_enabled wifi then
    check (negb (valid_interface_name (wifi_interface wifi))) "wifi.interface"
      "must be a valid Linux interface name"
    ++ check ((wifi_interface wifi =s wan_interface (c_wan c)) || (wifi_interface wifi =s lan_interface (c_lan c))
              || (wifi_interface wifi =s WIFI_BRIDGE_INTERFACE)) "wifi.interface"
         "must not reuse the WAN or LAN interface"
    ++ check (is_empty (wifi_ssid wifi) || (32 <? str_len (wifi_ssid wifi)) || has_unsafe_control (wifi_ssid wifi))
         "wifi.ssid" "must contain 1-32 bytes and no control characters"
    ++ check ((str_len (wifi_passphrase wifi) <? 12) || (63 <? str_len (wifi_passphrase wifi))
              || has_unsafe_control (wifi_passphrase wifi)) "wifi.passphrase"
         "must contain 12-63 bytes and no control characters"
    ++ check ((wifi_band wifi <>s "2.4ghz") && (wifi_band wifi <>s "5ghz")) "wifi.band" "must be 2.4ghz or 5ghz"
    ++ check ((wifi_band wifi =s "2.4ghz") && ((wifi_channel wifi <? 1) || (11 <? wifi_channel wifi)))
         "wifi.channel" "must be 1-11 for 2.4 GHz"
    ++ check ((wifi_band wifi =s "5ghz") && negb (existsb (Z.eqb (wifi_channel wifi)) [36; 40; 44; 48]))
         "wifi.channel" "must be 36, 40, 44, or 48 for the portable 5 GHz profile"
  else [].

(** A trusted network: specific enough, and not the same network twice. *)
Definition validate_trusted_network (i : nat) (network : string) (seen : gset string)
  : ValidationErrors * gset string :=
  let field := idx "trusted_networks" i in
  if has_unsafe_control network then ([mkVE field "must not contain control characters"], seen)
  else
    match parse_cidr network with
    | None => ([mkVE field "must be a valid IPv4 or IPv6 CIDR network"], seen)
    | Some (ip, ip_net) =>
        let '(prefix, bits) := mask_size (net_mask ip_net) in
        if Nat.eqb prefix 0 || is_unspecified ip then
          ([mkVE field "wildcard networks (0.0.0.0/0, ::/0) are not allowed"], seen)
        else
          let ula := Nat.eqb bits 128 && Nat.leb 7 prefix
                     && some_and (fun p => net_contains (snd p) (net_ip ip_net)) (parse_cidr "fc00::/7") in
          let minimum :=
            (if Nat.eqb bits 32 then 8 else if negb (is_none (to4 ip)) then 104
             else if ula then 7 else 16)%nat in
          if Nat.ltb prefix minimum || is_unspecified ip || is_unspecified (net_ip ip_net) then
            ([mkVE field
                "trusted networks must be specific (IPv4 /8, IPv6 /16 or narrower, or a ULA subnet) and must not include the unspecified address"],
             seen)
          else
            let effective_prefix :=
              (if Nat.eqb bits 128 && negb (is_none (to4 ip)) then prefix - 96 else prefix)%nat in
            let key := ip_to_string (net_ip ip_net) +:+ "/" +:+ show_Z (Z.of_nat effective_prefix) in
            let '(fresh, seen') := set_insert key seen in
            (check (negb fresh) field "must not contain duplicate networks", seen')
    end.

Definition validate_trusted_networks (c : SystemConfig) : ValidationErrors :=
  check (list_is_empty (c_trusted_networks c)) "trusted_networks" "must contain at least one CIDR network"
  ++ fst (vloop validate_trusted_network 0 (items (c_trusted_networks c)) ∅).

Definition validate_errors (c : SystemConfig) : ValidationErrors :=
  let '(lan_errs, lan_ip, lan_network) := validate_lan c in
  validate_system c
  ++ validate_wan c
  ++ lan_errs
  ++ validate_dns_servers c lan_ip
  ++ (if dhcp_enabled (c_dhcp c) then validate_dhcp c lan_ip lan_network else [])
  ++ validate_firewall c lan_network
  ++ validate_extra_lans c lan_network
  ++ (if wg_enabled (c_wireguard c) then validate_wireguard c lan_ip lan_network else [])
  ++ validate_wg_client c lan_network
  ++ validate_cloudflare c
  ++ validate_squid c lan_network
  ++ validate_device_profiles c lan_network
  ++ check (negb (is_empty (df_blocklist_url (c_adguard c)))) "adguard.blocklist_url"
       "external blocklist refresh is unavailable in the hardened pilot; use the built-in global list"
  ++ validate_dns_records c
  ++ validate_qos c
  ++ check (dhcp_dns_enabled (c_dhcp c)) "dhcp.dns_enabled"
       "DNS-over-HTTPS is unavailable until a packaged and verified local resolver is installed"
  ++ validate_wifi c
  ++ validate_trusted_networks c.

Definition validate (c : SystemConfig) : result unit ValidationErrors := into_result (validate_errors c).

End Validators.
