(* ===== verification/ValidationSpec.v ===== *)
(** * What an accepted configuration guarantees

    The theorems about [Validation]: when [validate] returns no error, the
    addresses, pools, forwards, segments and schedules of the configuration
    satisfy the numeric facts below. *)

From Stdlib Require Import ZArith Ascii String Lia Bool.
From stdpp Require Import base list strings gmap.
From S2P Require Import Prelude GoStrings Net NetSpec GoTime Json Model Validation.

Local Open Scope string_scope.
Local Open Scope Z_scope.
Local Open Scope list_scope.

(** ** Reading errors *)
Lemma check_nil b f m : check b f m = [] <-> b = false.
Proof. by destruct b. Qed.

Lemma into_result_ok errs : into_result errs = Ok tt <-> errs = [].
Proof. by destruct errs. Qed.

Lemma set_insert_spec x s fresh s' :
  set_insert x s = (fresh, s') -> s' = {[x]} ∪ s /\ (fresh = true <-> x ∉ s).
Proof.
  unfold set_insert. intros E. simplify_eq. split; [done|]. rewrite negb_true_iff, bool_decide_eq_false. done.
Qed.

Ltac split_errors :=
  repeat match goal with
  | H : _ ++ _ = [] |- _ => apply app_eq_nil in H; destruct H
  | H : check _ _ _ = [] |- _ => apply check_nil in H
  | H : _ :: _ = [] |- _ => discriminate H
  end; to_prop.

(** An equation [(errors, state) = ([], state')] *)
Ltac no_errors Hv := injection Hv as Hv ?; split_errors.
Ltac bad_branch Hv := exfalso; cases_in Hv; no_errors Hv.

(** ** Loops *)
Section Loops.
Context {A St : Type} (body : nat -> A -> St -> ValidationErrors * St).

(** A loop without errors: an invariant relating the state to the elements
    processed holds at its end. *)
Lemma vloop_inv (P : list A -> St -> Prop) :
  (forall pre i x s e s', P pre s -> body i x s = (e, s') -> e = [] -> P (pre ++ [x]) s') ->
  forall l i pre s, P pre s -> fst (vloop body i l s) = [] -> P (pre ++ l) (snd (vloop body i l s)).
Proof.
  intros Hstep. induction l as [|x l IH]; intros i pre s HP E; cbn in *; [by rewrite app_nil_r|].
  destruct (body i x s) as [e s1] eqn:Eb. specialize (IH (S i) (pre ++ [x]) s1).
  destruct (vloop body (S i) l s1) as [es s2] eqn:El. cbn in *.
  apply app_eq_nil in E as [E1 E2]. rewrite <- app_assoc in IH. apply IH; [|done]. by eapply Hstep.
Qed.
End Loops.

(** The elements of a loop whose body only adds errors. *)
Lemma each_nil {A} (body : nat -> A -> ValidationErrors) l :
  each body l = [] <-> forall i x, l !! i = Some x -> body i x = [].
Proof.
  unfold each. enough (H : forall n, fst (vloop (fun i x (_ : unit) => (body i x, tt)) n l tt) = []
    <-> forall i x, l !! i = Some x -> body (n + i)%nat x = []) by apply (H 0%nat).
  induction l as [|y l IH]; intros n; cbn.
  { split; [intros _ i x Hx; by rewrite lookup_nil in Hx|done]. }
  specialize (IH (S n)). destruct (vloop _ (S n) l tt) as [es s2]. cbn in *. split.
  - intros [E1 E2]%app_eq_nil [|i] x Hx; cbn in Hx; [simplify_eq; by rewrite Nat.add_0_r|].
    rewrite <- plus_n_Sm. by apply (proj1 IH E2).
  - intros Hall. pose proof (Hall 0%nat y eq_refl) as H0. rewrite Nat.add_0_r in H0. rewrite H0. cbn.
    apply (proj2 IH). intros i x Hx. cbn. rewrite plus_n_Sm. by apply Hall.
Qed.

(** A loop that inserts a key per element into a set of keys seen: without
    errors, the keys are distinct. *)
Definition keys_inv {A} (key : A -> list string) (pre : list A) (s : gset string) : Prop :=
  NoDup (concat (map key pre)) /\ forall k, k ∈ s <-> k ∈ concat (map key pre).

Lemma keys_inv_nil {A} (key : A -> list string) : keys_inv key [] ∅.
Proof. split; [constructor|]. intros k. cbn. set_solver. Qed.

Lemma keys_inv_snoc {A} (key : A -> list string) pre x s s' :
  keys_inv key pre s -> NoDup (key x) -> (forall k, k ∈ key x -> k ∉ s) ->
  (forall k, k ∈ s' <-> k ∈ s \/ k ∈ key x) -> keys_inv key (pre ++ [x]) s'.
Proof.
  intros [Hn Hs] Hx Hfresh Hs'. unfold keys_inv. rewrite map_app, concat_app. cbn. rewrite app_nil_r. split.
  - apply NoDup_app. split; [done|]. split; [|done]. intros k Hk. intros Hk'. apply (Hfresh k Hk'). by apply Hs.
  - intros k. rewrite Hs', elem_of_app, Hs. done.
Qed.

Lemma keys_inv_one {A} (key : A -> list string) pre x k s s' fresh :
  keys_inv key pre s -> key x = [k] -> set_insert k s = (fresh, s') -> fresh = true ->
  keys_inv key (pre ++ [x]) s'.
Proof.
  intros Hi Hk [-> Hf]%set_insert_spec Hfr. apply Hf in Hfr.
  apply (keys_inv_snoc key pre x s); [done|rewrite Hk; apply NoDup_singleton| |]; rewrite Hk; set_solver.
Qed.

Lemma keys_inv_skip {A} (key : A -> list string) pre x s :
  keys_inv key pre s -> key x = [] -> keys_inv key (pre ++ [x]) s.
Proof.
  intros Hi Hk. apply (keys_inv_snoc key pre x s); [done|rewrite Hk; constructor| |]; rewrite Hk; set_solver.
Qed.

(** Distinct keys of distinct elements *)
Lemma concat_keys_disjoint {A} (key : A -> list string) l i j x y k :
  NoDup (concat (map key l)) -> l !! i = Some x -> l !! j = Some y -> i <> j ->
  k ∈ key x -> k ∈ key y -> False.
Proof.
  revert i j. induction l as [|a l IH]; intros [|i] [|j] Hn Hx Hy Hij Hkx Hky; cbn in *; simplify_eq; try done;
    apply NoDup_app in Hn as (Hn1 & Hdis & Hn2).
  - apply (Hdis k Hkx). apply list_elem_of_In, in_concat. exists (key y).
    split; [apply in_map, list_elem_of_In; by eapply list_elem_of_lookup_2|by apply list_elem_of_In].
  - apply (Hdis k Hky). apply list_elem_of_In, in_concat. exists (key x).
    split; [apply in_map, list_elem_of_In; by eapply list_elem_of_lookup_2|by apply list_elem_of_In].
  - apply (IH i j); auto.
Qed.

(** ** IPv4 addresses as numbers *)
Lemma ipv4_value_be o : List.length o = 4%nat -> ipv4_value o = be o.
Proof. intros Ho. unfold ipv4_value. by rewrite to4_length4. Qed.

Lemma ipv4_le_spec a b : List.length a = 4%nat -> List.length b = 4%nat ->
  ipv4_le a b = true <-> be a <= be b.
Proof.
  intros Ha Hb. unfold ipv4_le, compare_ipv4. rewrite !ipv4_value_be by done.
  destruct (Z.compare_spec (be a) (be b)); split; (done || lia).
Qed.

Lemma ipv4_gt_spec a b : List.length a = 4%nat -> List.length b = 4%nat ->
  ipv4_gt a b = false <-> be a <= be b.
Proof.
  intros Ha Hb. unfold ipv4_gt, compare_ipv4. rewrite !ipv4_value_be by done.
  destruct (Z.compare_spec (be a) (be b)); split; (done || lia).
Qed.

Lemma ipv4_ge_spec a b : List.length a = 4%nat -> List.length b = 4%nat ->
  ipv4_ge a b = true <-> be b <= be a.
Proof.
  intros Ha Hb. unfold ipv4_ge, compare_ipv4. rewrite !ipv4_value_be by done.
  destruct (Z.compare_spec (be a) (be b)); split; (done || lia).
Qed.

Lemma ip_equal_len a b : List.length a = List.length b -> ip_equal a b = true <-> a = b.
Proof.
  intros Hl. unfold ip_equal. rewrite Hl, Nat.eqb_refl. apply bytes_eqb_eq.
Qed.

Lemma ip_equal_mapped o b :
  List.length o = 4%nat -> List.length b = 4%nat -> ip_equal (V4_IN_V6_PREFIX ++ o) b = true <-> o = b.
Proof.
  intros Ho Hb. unfold ip_equal. rewrite length_app, Ho, Hb. cbn [List.length V4_IN_V6_PREFIX Nat.add Nat.eqb andb].
  change (drop 12 (V4_IN_V6_PREFIX ++ o)) with o.
  change (has_v4_prefix (V4_IN_V6_PREFIX ++ o)) with true. cbn [andb]. apply bytes_eqb_eq.
Qed.

(** A network [parse_cidr] returns for an IPv4 text: the block of [2^(32-p)]
    addresses around the address. *)
Record v4_block (ip : IP) (n : IPNet) (o : IP) (p : nat) : Prop := {
  vb_ip : ip = V4_IN_V6_PREFIX ++ o;
  vb_length : List.length o = 4%nat;
  vb_bytes : Forall byte_ok o;
  vb_prefix : (p <= 32)%nat;
  vb_net : n = mkIPNet (land_bytes o (mask_bytes 4 p)) (mask_bytes 4 p);
}.

Definition block_size (p : nat) : Z := 2 ^ (32 - Z.of_nat p).
Definition block_base (p : nat) (a : Z) : Z := a / block_size p * block_size p.

Lemma block_size_pos p : (p <= 32)%nat -> 0 < block_size p.
Proof. intros Hp. unfold block_size. apply Z.pow_pos_nonneg; lia. Qed.

Lemma parse_cidr_block s ip n p :
  parse_cidr s = Some (ip, n) -> mask_size (net_mask n) = (p, 32%nat) -> exists o, v4_block ip n o p.
Proof.
  intros H Hm.
  apply parse_cidr_Some in H as (p' & [(o & -> & Hl & Hb & Hp & ->)|(_ & _ & Hp & ->)]);
    cbn [net_mask] in Hm; unfold mask_size in Hm;
    rewrite simple_mask_length_spec, length_mask_bytes in Hm by lia; simplify_eq.
  exists o. by split.
Qed.

Lemma v4_block_view ip n o p : v4_block ip n o p -> net_view n (net_ip n) p.
Proof. intros [-> Hl Hb Hp ->]. cbn [net_ip]. by apply net_view_v4. Qed.

Lemma v4_block_ip4 ip n o p : v4_block ip n o p -> List.length (net_ip n) = 4%nat /\ Forall byte_ok (net_ip n).
Proof.
  intros [-> Hl Hb Hp ->]. cbn [net_ip].
  destruct (land_bytes_ok o (mask_bytes 4 p)) as [Ll Lb];
    [done|apply mask_bytes_ok|by rewrite length_mask_bytes|]. by rewrite Ll.
Qed.

(** Masking rounds down to the block, and the broadcast address is its end. *)
Lemma be_land_zero x len :
  List.length x = len -> Forall byte_ok x -> be (land_bytes x (mask_bytes len 0)) = 0.
Proof.
  revert x. induction len as [|len IH]; intros [|a x] Hl Hx; try done. inversion Hx; subst.
  cbn [mask_bytes Nat.leb]. change (land_bytes (a :: x) ?m) with (Z.land a (hd 0 m) :: land_bytes x (tl m)).
  cbn [hd tl]. rewrite be_cons, IH by (cbn in *; by simplify_eq || lia).
  rewrite land_mask_byte by (done || lia). change (2 ^ (8 - Z.of_nat 0)) with 256.
  unfold byte_ok in *. rewrite Z.div_small by lia. lia.
Qed.

Lemma be_land_mask x len p :
  List.length x = len -> Forall byte_ok x -> (p <= 8 * len)%nat ->
  be (land_bytes x (mask_bytes len p))
  = be x / 2 ^ (8 * Z.of_nat len - Z.of_nat p) * 2 ^ (8 * Z.of_nat len - Z.of_nat p).
Proof.
  revert x p. induction len as [|len IH]; intros [|a x] p Hl Hx Hp; try done.
  inversion Hx as [|? ? Ha Hx']; subst. injection Hl as Hl. cbn [mask_bytes].
  pose proof (be_range x Hx') as R. rewrite pow256, Hl in R. set (l := Z.of_nat len) in *.
  destruct (land_bytes_ok x (mask_bytes len (p - 8))) as [Ll _];
    [done|apply mask_bytes_ok|by rewrite length_mask_bytes|].
  destruct (land_bytes_ok x (mask_bytes len 0)) as [Lz _];
    [done|apply mask_bytes_ok|by rewrite length_mask_bytes|].
  destruct (Nat.leb_spec 8 p) as [H8|H8].
  - change (land_bytes (a :: x) (255 :: ?m)) with (Z.land a 255 :: land_bytes x m).
    rewrite land_255, !be_cons, Ll, Hl, IH, pow256 by (done || lia). fold l.
    replace (8 * Z.of_nat (S len) - Z.of_nat p) with (8 * l - Z.of_nat (p - 8)) by lia.
    set (e := 8 * l - Z.of_nat (p - 8)). rewrite (div_split _ _ (8 * l) e) by lia.
    replace (2 ^ (8 * l)) with (2 ^ (8 * l - e) * 2 ^ e) by (rewrite <- Z.pow_add_r by lia; f_equal; lia). ring.
  - change (land_bytes (a :: x) (?b :: ?m)) with (Z.land a b :: land_bytes x m).
    rewrite !be_cons, Lz, Hl, be_land_zero, land_mask_byte, pow256 by done. fold l.
    replace (8 * Z.of_nat (S len) - Z.of_nat p) with (8 * l + (8 - Z.of_nat p)) by lia.
    rewrite div_split_high, Z.pow_add_r by lia. ring.
Qed.

Lemma lor_mask_byte b n :
  byte_ok b -> (n < 8)%nat ->
  Z.lor (Z.land b (255 - Z.shiftr 255 (Z.of_nat n))) (255 - (255 - Z.shiftr 255 (Z.of_nat n)))
  = Z.land b (255 - Z.shiftr 255 (Z.of_nat n)) + (2 ^ (8 - Z.of_nat n) - 1).
Proof.
  intros Hb Hn.
  assert (H : forallb (fun b => forallb (fun n =>
      Z.lor (Z.land b (255 - Z.shiftr 255 (Z.of_nat n))) (255 - (255 - Z.shiftr 255 (Z.of_nat n)))
      =? Z.land b (255 - Z.shiftr 255 (Z.of_nat n)) + (2 ^ (8 - Z.of_nat n) - 1))
      (seq 0 8)) all_octets = true) by (vm_compute; reflexivity).
  rewrite forallb_forall in H. specialize (H b (octet_in b Hb)).
  rewrite forallb_forall in H. apply Z.eqb_eq, H, in_seq. lia.
Qed.

Definition fill_host (a m : Z) : Z := Z.lor a (255 - m).

Lemma fill_host_ok a m : byte_ok a -> byte_ok m -> byte_ok (fill_host a m).
Proof.
  intros Ha Hm.
  assert (H : forallb (fun a => forallb (fun m => (0 <=? fill_host a m) && (fill_host a m <? 256)) all_octets)
                all_octets = true) by (vm_compute; reflexivity).
  rewrite forallb_forall in H. specialize (H a (octet_in a Ha)).
  rewrite forallb_forall in H. specialize (H m (octet_in m Hm)). to_prop. unfold byte_ok. lia.
Qed.

Lemma zip_fill_ok a m : Forall byte_ok a -> Forall byte_ok m -> Forall byte_ok (zip_with fill_host a m).
Proof.
  intros Ha. revert m. induction Ha as [|x a Hx _ IH]; intros [|y m] Hm; try done.
  inversion Hm; subst. cbn. constructor; [by apply fill_host_ok|by apply IH].
Qed.

Lemma be_fill_host x len p :
  List.length x = len -> Forall byte_ok x -> (p <= 8 * len)%nat ->
  be (zip_with fill_host (land_bytes x (mask_bytes len p)) (mask_bytes len p))
  = be (land_bytes x (mask_bytes len p)) + (2 ^ (8 * Z.of_nat len - Z.of_nat p) - 1)
  /\ List.length (zip_with fill_host (land_bytes x (mask_bytes len p)) (mask_bytes len p)) = len.
Proof.
  revert x p. induction len as [|len IH]; intros [|a x] p Hl Hx Hp; try done.
  { replace p with 0%nat by lia. done. }
  inversion Hx as [|? ? Ha Hx']; subst. injection Hl as Hl. cbn [mask_bytes]. set (l := Z.of_nat len).
  destruct (Nat.leb_spec 8 p) as [H8|H8].
  - change (land_bytes (a :: x) (255 :: ?m)) with (Z.land a 255 :: land_bytes x m). cbn [zip_with].
    destruct (IH x (p - 8)%nat) as [E1 E2]; [done|done|lia|]. cbn [List.length]. rewrite E2. split; [|done].
    unfold fill_host at 1. rewrite land_255 by done. change (255 - 255) with 0. rewrite Z.lor_0_r.
    destruct (land_bytes_ok x (mask_bytes len (p - 8))) as [Ll _];
      [done|apply mask_bytes_ok|by rewrite length_mask_bytes|].
    rewrite !be_cons, E1, E2, Ll, Hl.
    replace (8 * Z.of_nat (S len) - Z.of_nat p) with (8 * l - Z.of_nat (p - 8)) by lia. fold l. lia.
  - change (land_bytes (a :: x) (?b :: ?m)) with (Z.land a b :: land_bytes x m). cbn [zip_with].
    destruct (IH x 0%nat) as [E1 E2]; [done|done|lia|]. cbn [List.length]. rewrite E2. split; [|done].
    unfold fill_host at 1. rewrite lor_mask_byte by done.
    destruct (land_bytes_ok x (mask_bytes len 0)) as [Lz _];
      [done|apply mask_bytes_ok|by rewrite length_mask_bytes|].
    rewrite !be_cons, E1, E2, Lz, Hl, be_land_zero, pow256 by done. fold l.
    replace (8 * Z.of_nat (S len) - Z.of_nat p) with (8 * l + (8 - Z.of_nat p)) by lia.
    rewrite Z.sub_0_r, Z.pow_add_r by lia. ring.
Qed.

Section Block.
Context (ip : IP) (n : IPNet) (o : IP) (p : nat) (B : v4_block ip n o p).

Lemma block_net_ip : be (net_ip n) = block_base p (be o).
Proof.
  destruct B as [-> Hl Hb Hp ->]. cbn [net_ip]. rewrite be_land_mask by (done || lia). reflexivity.
Qed.

Lemma block_broadcast :
  exists b, ipv4_broadcast n = Some b /\ List.length b = 4%nat /\ Forall byte_ok b
    /\ be b = block_base p (be o) + block_size p - 1.
Proof.
  pose proof block_net_ip as Hbase. destruct (v4_block_ip4 _ _ _ _ B) as [L4 B4].
  destruct B as [-> Hl Hb Hp ->]. cbn [net_ip] in *. unfold ipv4_broadcast. cbn [net_ip net_mask].
  rewrite to4_length4, length_mask_bytes by done. cbn [Nat.ltb Nat.leb].
  destruct (be_fill_host o 4 p) as [E1 E2]; [done|done|lia|].
  change (fun a m => Z.lor a (255 - m)) with fill_host.
  rewrite take_ge by (rewrite length_mask_bytes; lia).
  eexists. split; [reflexivity|]. split; [done|].
  split; [apply zip_fill_ok; [done|apply mask_bytes_ok]|]. rewrite E1, Hbase. unfold block_size.
  replace (8 * Z.of_nat 4) with 32 by lia. lia.
Qed.

(** Membership of a 4-byte address *)
Lemma block_contains a :
  List.length a = 4%nat -> Forall byte_ok a ->
  net_contains n a = true <-> block_base p (be o) <= be a < block_base p (be o) + block_size p.
Proof.
  intros La Ba. pose proof (v4_block_view _ _ _ _ B) as V. destruct (v4_block_ip4 _ _ _ _ B) as [L4 B4].
  rewrite (net_contains_spec _ _ _ a V) by (split; [by left|done]).
  unfold canon. rewrite to4_length4 by done. unfold prefix_of. rewrite La, L4.
  replace (8 * Z.of_nat 4) with 32 by lia. fold (block_size p). rewrite block_net_ip.
  pose proof (block_size_pos p (vb_prefix _ _ _ _ B)) as Hs. unfold block_base in *.
  rewrite Z.div_mul by lia. split.
  - intros [_ E]. rewrite <- E. pose proof (Z.div_mod (be a) (block_size p) ltac:(lia)).
    pose proof (Z.mod_pos_bound (be a) (block_size p) Hs). lia.
  - intros H. split; [done|]. symmetry. apply Z.div_unique with (be a - be o / block_size p * block_size p); lia.
Qed.

Lemma block_equal_net a :
  List.length a = 4%nat -> Forall byte_ok a ->
  ip_equal a (net_ip n) = true <-> be a = block_base p (be o).
Proof.
  intros La Ba. destruct (v4_block_ip4 _ _ _ _ B) as [L4 B4]. rewrite ip_equal_len by congruence.
  rewrite <- block_net_ip. split; [by intros ->|]. intros E. by apply be_inj; [done|done|congruence|].
Qed.

Lemma block_network_ip4 : network_ip4 n = net_ip n.
Proof. unfold network_ip4. destruct (v4_block_ip4 _ _ _ _ B) as [L4 _]. by rewrite to4_length4. Qed.

Lemma block_equal_broadcast a :
  List.length a = 4%nat -> Forall byte_ok a ->
  equal_opt a (ipv4_broadcast n) = true <-> be a = block_base p (be o) + block_size p - 1.
Proof.
  intros La Ba. destruct block_broadcast as (b & -> & Lb & Bb & Vb). cbn.
  rewrite ip_equal_len by congruence. rewrite <- Vb. split; [by intros ->|].
  intros E. by apply be_inj; [done|done|congruence|].
Qed.
End Block.

(** ** The parts of an accepted configuration *)
Section Accepted.
Context {UC : Unicode} {B64 : Base64}.

Record accepted (c : SystemConfig) (lan_ip : option IP) (lan_network : option IPNet) : Prop := {
  acc_lan : validate_lan c = ([], lan_ip, lan_network);
  acc_system : validate_system c = [];
  acc_wan : validate_wan c = [];
  acc_dns_servers : validate_dns_servers c lan_ip = [];
  acc_dhcp : dhcp_enabled (c_dhcp c) = true -> validate_dhcp c lan_ip lan_network = [];
  acc_firewall : validate_firewall c lan_network = [];
  acc_extra_lans : validate_extra_lans c lan_network = [];
  acc_wireguard : wg_enabled (c_wireguard c) = true -> validate_wireguard c lan_ip lan_network = [];
  acc_wg_client : validate_wg_client c lan_network = [];
  acc_profiles : validate_device_profiles c lan_network = [];
  acc_trusted : validate_trusted_networks c = [];
  acc_squid : validate_squid c lan_network = [];
  acc_dns_records : validate_dns_records c = [];
  acc_qos : validate_qos c = [];
}.

Lemma validate_accepted c : validate c = Ok tt -> exists lan_ip lan_network, accepted c lan_ip lan_network.
Proof.
  unfold validate, validate_errors. rewrite into_result_ok.
  destruct (validate_lan c) as [[lan_errs lan_ip] lan_network] eqn:El. intros E. exists lan_ip, lan_network.
  split_errors. subst lan_errs.
  split; try done; intros He; match goal with E : (if ?b then _ else _) = [] |- _ => by rewrite He in E end.
Qed.

(** The LAN part *)
Lemma validate_lan_ok c lan_ip lan_network :
  validate_lan c = ([], lan_ip, lan_network) ->
  exists o ip n, lan_ip = Some o /\ lan_network = Some n
    /\ parse_ipv4 (lan_ip_address (c_lan c)) = Some o /\ parse_cidr (lan_cidr (c_lan c)) = Some (ip, n)
    /\ to4 ip <> None /\ net_contains n o = true /\ ip_equal ip o = true
    /\ ip_equal o (net_ip n) = false /\ equal_opt o (ipv4_broadcast n) = false
    /\ is_unspecified o = false /\ is_loopback o = false /\ is_multicast o = false
    /\ lan_netmask (c_lan c) = ip_to_string (net_mask n).
Proof.
  unfold validate_lan. intros E.
  destruct (parse_ipv4 (lan_ip_address (c_lan c))) as [o|] eqn:Eo.
  - destruct (is_empty (lan_cidr (c_lan c))); cbn [negb] in E; [done|].
    destruct (parse_cidr (lan_cidr (c_lan c))) as [[ip n]|] eqn:Ec; [|done].
    destruct (to4 ip) as [v|] eqn:E4; cbn [is_none] in E; [|done].
    injection E as E <- <-. split_errors. exists o, ip, n. repeat split; auto; congruence.
  - by destruct (if negb _ then _ else _).
Qed.

(** The prefix length and width of the LAN's CIDR *)
Definition lan_prefix (c : SystemConfig) : nat * nat :=
  match parse_cidr (lan_cidr (c_lan c)) with Some (_, n) => mask_size (net_mask n) | None => (0, 0)%nat end.

(** The LAN of an accepted configuration whose CIDR is in IPv4 notation *)
Record lan_view (c : SystemConfig) (p : nat) (lan_ip : option IP) (lan_network : option IPNet) (o : IP) (n : IPNet)
  : Prop := {
  lv_ip : lan_ip = Some o;
  lv_network : lan_network = Some n;
  lv_parse : parse_ipv4 (lan_ip_address (c_lan c)) = Some o;
  lv_block : v4_block (V4_IN_V6_PREFIX ++ o) n o p;
  lv_cidr : parse_cidr (lan_cidr (c_lan c)) = Some (V4_IN_V6_PREFIX ++ o, n);
  lv_host : block_base p (be o) < be o < block_base p (be o) + block_size p - 1;
}.

Lemma accepted_lan_view c p lan_ip lan_network :
  accepted c lan_ip lan_network -> lan_prefix c = (p, 32%nat) ->
  exists o n, lan_view c p lan_ip lan_network o n /\ is_loopback o = false /\ is_multicast o = false.
Proof.
  intros A Hp. destruct (validate_lan_ok _ _ _ (acc_lan _ _ _ A))
    as (o & ip & n & -> & -> & Ho & Ec & E4 & Hc & Heq & Hn & Hbc & Hu & Hl & Hm & _).
  unfold lan_prefix in Hp. rewrite Ec in Hp. destruct (parse_cidr_block _ _ _ _ Ec Hp) as [o' B].
  pose proof (parse_ipv4_ok _ _ Ho) as [[_ Bo] Lo].
  assert (o' = o) as ->.
  { pose proof (vb_ip _ _ _ _ B) as ->. apply (ip_equal_mapped o' o); [exact (vb_length _ _ _ _ B)|done|done]. }
  pose proof (vb_ip _ _ _ _ B) as ->. exists o, n. split; [|done].
  assert (N1 : be o <> block_base p (be o)).
  { intros E. apply (block_equal_net _ _ _ _ B) in E; [congruence|done|done]. }
  assert (N2 : be o <> block_base p (be o) + block_size p - 1).
  { intros E. apply (block_equal_broadcast _ _ _ _ B) in E; [congruence|done|done]. }
  apply (block_contains _ _ _ _ B) in Hc; [|done|done]. split; try done. lia.
Qed.

(** The LAN address of an accepted configuration is a usable host address.
    With the CIDR in IPv4 notation, the address lies strictly between the
    network number and the broadcast address of its subnet and is neither
    loopback nor multicast. *)
Theorem accepted_lan_is_usable_host c p :
  validate c = Ok tt -> lan_prefix c = (p, 32%nat) ->
  exists o, parse_ipv4 (lan_ip_address (c_lan c)) = Some o
    /\ block_base p (be o) < be o < block_base p (be o) + block_size p - 1
    /\ is_loopback o = false /\ is_multicast o = false.
Proof.
  intros (lan_ip & lan_network & A)%validate_accepted Hp.
  destruct (accepted_lan_view _ _ _ _ A Hp) as (o & n & V & Hl & Hm). exists o.
  split; [exact (lv_parse _ _ _ _ _ _ V)|]. split; [exact (lv_host _ _ _ _ _ _ V)|done].
Qed.
(** *** DHCP *)
Definition lease_addr_keys (l : StaticLease) : list string :=
  match parse_ipv4 (lease_ip_address l) with Some ip => [ip_to_string ip] | None => [] end.
Definition lease_mac_keys (l : StaticLease) : list string :=
  match parse_mac (lease_mac l) with Some m => [mac_string m] | None => [] end.

(** A lease address usable beside the gateway [gw] and the pool [lo..hi] *)
Definition lease_ok (base size gw lo hi : Z) (l : StaticLease) : Prop :=
  (exists a, parse_ipv4 (lease_ip_address l) = Some a /\ base < be a < base + size - 1 /\ be a <> gw
     /\ ~ (lo <= be a <= hi))
  /\ exists m, parse_mac (lease_mac l) = Some m /\ List.length m = 6%nat.

Lemma lease_address_ok n o p st en i l seen e seen' :
  v4_block (V4_IN_V6_PREFIX ++ o) n o p -> List.length st = 4%nat -> List.length en = 4%nat ->
  validate_lease (Some o) (Some n) (Some st) (Some en) i l seen = (e, seen') -> e = [] ->
  lease_ok (block_base p (be o)) (block_size p) (be o) (be st) (be en) l.
Proof.
  intros B Lst Len Hv ->. unfold validate_lease in Hv. destruct seen as [sm si].
  destruct (parse_mac (lease_mac l)) as [m|] eqn:Em; [|bad_branch Hv].
  destruct (Nat.eqb_spec (List.length m) 6) as [Lm|Lm]; [|bad_branch Hv].
  destruct (parse_ipv4 (lease_ip_address l)) as [a|] eqn:Ea; [|bad_branch Hv].
  destruct (set_insert (mac_string m) sm) as [f1 s1]. destruct (set_insert (ip_to_string a) si) as [f2 s2].
  injection Hv as Hv _. split_errors.
  pose proof (parse_ipv4_ok _ _ Ea) as [[_ Ba] La].
  match goal with E : (if negb (net_contains n a) then _ else _) = [] |- _ => rename E into Hip end.
  destruct (net_contains n a) eqn:Hc; [|done]. cbn [negb some_and] in Hip.
  destruct (ip_equal a o) eqn:E1; [done|]. destruct (ip_equal a (network_ip4 n)) eqn:E2; [done|].
  destruct (equal_opt a (ipv4_broadcast n)) eqn:E3; [done|]. apply check_nil, andb_false_iff in Hip.
  apply (block_contains _ _ _ _ B) in Hc; [|done|done].
  assert (N1 : be a <> block_base p (be o)).
  { intros E. rewrite (block_network_ip4 _ _ _ _ B) in E2.
    apply (block_equal_net _ _ _ _ B) in E; [congruence|done|done]. }
  assert (N2 : be a <> block_base p (be o) + block_size p - 1).
  { intros E. apply (block_equal_broadcast _ _ _ _ B) in E; [congruence|done|done]. }
  split; [|by exists m]. exists a. split; [done|]. split; [lia|]. split.
  - intros E. pose proof (vb_length _ _ _ _ B) as Lo. pose proof (vb_bytes _ _ _ _ B) as Bo.
    rewrite (proj2 (ip_equal_len a o ltac:(congruence))) in E1; [done|]. by apply be_inj; [done|done|congruence|].
  - intros Hr. destruct Hip as [Hip|Hip].
    + rewrite (proj2 (ipv4_ge_spec a st La Lst)) in Hip; [done|lia].
    + rewrite (proj2 (ipv4_le_spec a en La Len)) in Hip; [done|lia].
Qed.

Lemma lease_keys_step lan_ip lan_network st en pre i l seen e seen' :
  keys_inv lease_mac_keys pre (fst seen) /\ keys_inv lease_addr_keys pre (snd seen) ->
  validate_lease lan_ip lan_network st en i l seen = (e, seen') -> e = [] ->
  keys_inv lease_mac_keys (pre ++ [l]) (fst seen') /\ keys_inv lease_addr_keys (pre ++ [l]) (snd seen').
Proof.
  intros [K1 K2] Hv ->. unfold validate_lease in Hv. destruct seen as [sm si].
  destruct (parse_mac (lease_mac l)) as [m|] eqn:Em; [|bad_branch Hv].
  destruct (Nat.eqb_spec (List.length m) 6) as [Lm|Lm]; [|bad_branch Hv].
  destruct (parse_ipv4 (lease_ip_address l)) as [a|] eqn:Ea; [|bad_branch Hv].
  destruct (set_insert (mac_string m) sm) as [f1 s1] eqn:S1.
  destruct (set_insert (ip_to_string a) si) as [f2 s2] eqn:S2.
  injection Hv as Hv <-. split_errors. cbn [fst snd] in *. split.
  - eapply keys_inv_one; [exact K1| |exact S1|done]. unfold lease_mac_keys. by rewrite Em.
  - eapply keys_inv_one; [exact K2| |exact S2|done]. unfold lease_addr_keys. by rewrite Ea.
Qed.

Lemma pool_ok n o p st en :
  v4_block (V4_IN_V6_PREFIX ++ o) n o p ->
  List.length st = 4%nat -> Forall byte_ok st -> List.length en = 4%nat -> Forall byte_ok en ->
  ipv4_gt st en = false -> net_contains n st = true -> net_contains n en = true ->
  ip_equal st (network_ip4 n) = false -> equal_opt en (ipv4_broadcast n) = false ->
  ipv4_le st o && ipv4_le o en = false ->
  block_base p (be o) < be st <= be en /\ be en < block_base p (be o) + block_size p - 1
  /\ ~ (be st <= be o <= be en).
Proof.
  intros B Lst Bst Len Ben Hle Cst Cen Nst Nen Hgw. pose proof (vb_length _ _ _ _ B) as Lo.
  apply ipv4_gt_spec in Hle; [|done|done].
  apply (block_contains _ _ _ _ B) in Cst; [|done|done]. apply (block_contains _ _ _ _ B) in Cen; [|done|done].
  rewrite (block_network_ip4 _ _ _ _ B) in Nst.
  assert (N1 : be st <> block_base p (be o)).
  { intros E. apply (block_equal_net _ _ _ _ B) in E; [congruence|done|done]. }
  assert (N2 : be en <> block_base p (be o) + block_size p - 1).
  { intros E. apply (block_equal_broadcast _ _ _ _ B) in E; [congruence|done|done]. }
  split; [lia|]. split; [lia|]. intros Hr. apply andb_false_iff in Hgw as [E|E].
  - rewrite (proj2 (ipv4_le_spec st o Lst Lo)) in E; [done|lia].
  - rewrite (proj2 (ipv4_le_spec o en Lo Len)) in E; [done|lia].
Qed.

Lemma leases_ok n o p st en l :
  v4_block (V4_IN_V6_PREFIX ++ o) n o p -> List.length st = 4%nat -> List.length en = 4%nat ->
  fst (vloop (validate_lease (Some o) (Some n) (Some st) (Some en)) 0 l (∅, ∅)) = [] ->
  Forall (lease_ok (block_base p (be o)) (block_size p) (be o) (be st) (be en)) l
  /\ NoDup (concat (map lease_mac_keys l)) /\ NoDup (concat (map lease_addr_keys l)).
Proof.
  intros B Lst Len E.
  pose proof (vloop_inv (validate_lease (Some o) (Some n) (Some st) (Some en))
    (fun pre s => Forall (lease_ok (block_base p (be o)) (block_size p) (be o) (be st) (be en)) pre
       /\ (keys_inv lease_mac_keys pre (fst s) /\ keys_inv lease_addr_keys pre (snd s)))) as Hi.
  edestruct (Hi) with (l := l) (i := 0%nat) (pre := @nil StaticLease) (s := (∅, ∅) : gset string * gset string)
    as [F [[N1 _] [N2 _]]]; [|by split; [|split; apply keys_inv_nil]|exact E|by split].
  clear Hi E. intros pre i x s e s' [F K] Hv He. split.
  - apply Forall_app. split; [done|]. apply Forall_singleton. by eapply lease_address_ok.
  - by eapply lease_keys_step.
Qed.

(** The address plan of an accepted configuration with DHCP enabled.  The
    pool is a non-empty range of host addresses of the LAN subnet that does not
    contain the gateway; every static lease has a 48-bit MAC and a host address
    of the subnet other than the gateway and outside the pool; and no two
    leases have the same address or the same MAC, whatever their spelling. *)
Theorem accepted_dhcp_plan c p :
  validate c = Ok tt -> lan_prefix c = (p, 32%nat) -> dhcp_enabled (c_dhcp c) = true ->
  exists o st en, parse_ipv4 (lan_ip_address (c_lan c)) = Some o
    /\ parse_ipv4 (dhcp_range_start (c_dhcp c)) = Some st /\ parse_ipv4 (dhcp_range_end (c_dhcp c)) = Some en
    /\ block_base p (be o) < be st <= be en /\ be en < block_base p (be o) + block_size p - 1
    /\ ~ (be st <= be o <= be en)
    /\ (forall i l, items (dhcp_static_leases (c_dhcp c)) !! i = Some l ->
          lease_ok (block_base p (be o)) (block_size p) (be o) (be st) (be en) l)
    /\ (forall i j l l', items (dhcp_static_leases (c_dhcp c)) !! i = Some l ->
          items (dhcp_static_leases (c_dhcp c)) !! j = Some l' -> i <> j ->
          parse_ipv4 (lease_ip_address l) <> parse_ipv4 (lease_ip_address l')
          /\ parse_mac (lease_mac l) <> parse_mac (lease_mac l')).
Proof.
  intros (lan_ip & lan_network & A)%validate_accepted Hp Hd.
  destruct (accepted_lan_view _ _ _ _ A Hp) as (o & n & V & _). pose proof (acc_dhcp _ _ _ A Hd) as E.
  destruct V as [-> -> Ho B Ec Hhost]. unfold validate_dhcp in E. split_errors.
  destruct (parse_ipv4 (dhcp_range_start (c_dhcp c))) as [st|] eqn:Est; [|done].
  destruct (parse_ipv4 (dhcp_range_end (c_dhcp c))) as [en|] eqn:Een; [|done]. split_errors.
  pose proof (parse_ipv4_ok _ _ Est) as [[_ Bst] Lst]. pose proof (parse_ipv4_ok _ _ Een) as [[_ Ben] Len].
  exists o, st, en. split; [done|]. split; [done|]. split; [done|].
  match goal with E : fst (vloop _ _ _ _) = [] |- _ =>
    destruct (leases_ok n o p st en _ B Lst Len E) as (F & Nm & Na) end.
  edestruct (pool_ok n o p st en B) as (P1 & P2 & P3); try done.
  split; [done|]. split; [done|]. split; [done|]. rewrite Forall_lookup in F. split; [done|].
  intros i j l l' Hl Hl' Hij.
  destruct (F i l Hl) as [(a & Ea & _) (m & Em & _)]. destruct (F j l' Hl') as [(a' & Ea' & _) (m' & Em' & _)].
  split; intros Heq.
  - apply (concat_keys_disjoint lease_addr_keys _ i j l l' (ip_to_string a) Na Hl Hl' Hij);
      unfold lease_addr_keys; [rewrite Ea|rewrite <- Heq, Ea]; by apply list_elem_of_singleton.
  - apply (concat_keys_disjoint lease_mac_keys _ i j l l' (mac_string m) Nm Hl Hl' Hij);
      unfold lease_mac_keys; [rewrite Em|rewrite <- Heq, Em]; by apply list_elem_of_singleton.
Qed.
(** *** Port forwards *)

(** The loop that inserts the keys of one forward *)
Lemma insert_loop (f : string -> string) field msg L i s es s' :
  vloop (fun _ item s => let '(fresh, s') := set_insert (f item) s in (check (negb fresh) field msg, s')) i L s
    = (es, s') -> es = [] ->
  NoDup (map f L) /\ (forall k, k ∈ map f L -> k ∉ s) /\ (forall k, k ∈ s' <-> k ∈ s \/ k ∈ map f L).
Proof.
  revert i s es. induction L as [|x L IH]; intros i s es Hv ->; cbn [vloop map] in *.
  { simplify_eq. split; [constructor|]. set_solver. }
  destruct (set_insert (f x) s) as [fresh s1] eqn:S1.
  destruct (vloop _ (S i) L s1) as [es2 s2] eqn:El. injection Hv as Hv <-. split_errors. subst es2.
  apply set_insert_spec in S1 as [-> F]. destruct (IH _ _ _ El eq_refl) as (N & D & M).
  assert (Hx : f x ∉ s) by (apply F; done). split; [|split].
  - constructor; [|done]. intros Hin. apply (D (f x) Hin). set_solver.
  - intros k [->|Hk]%elem_of_cons; [done|]. specialize (D k Hk). set_solver.
  - intros k. rewrite M, elem_of_cons. set_solver.
Qed.

Definition forward_keys (pf : PortForwardRule) : list string :=
  map (fun item => forward_key item (pf_external_port pf)) (forward_protocols (to_lower (pf_protocol pf))).

(** What an accepted forward satisfies on its own *)
Definition forward_ok (c : SystemConfig) (n : IPNet) (pf : PortForwardRule) : Prop :=
  1 <= pf_external_port pf <= 65535 /\ 1 <= pf_internal_port pf <= 65535
  /\ pf_external_port pf <> sys_https_port (c_system c) /\ pf_external_port pf <> 8443
  /\ (pf_enabled pf = true -> wg_enabled (c_wireguard c) = true)
  /\ exists a, parse_ipv4 (pf_internal_ip pf) = Some a /\ net_contains n a = true.

Lemma forward_step c n pre i pf s e s' :
  Forall (forward_ok c n) pre /\ keys_inv forward_keys pre s ->
  validate_port_forward c (Some n) i pf s = (e, s') -> e = [] ->
  Forall (forward_ok c n) (pre ++ [pf]) /\ keys_inv forward_keys (pre ++ [pf]) s'.
Proof.
  intros [F K] Hv ->. unfold validate_port_forward in Hv.
  destruct (vloop _ 0 (forward_protocols (to_lower (pf_protocol pf))) s) as [dups s2] eqn:El.
  injection Hv as Hv <-. split_errors. split.
  - apply Forall_app. split; [done|]. apply Forall_singleton.
    destruct (parse_ipv4 (pf_internal_ip pf)) as [a|] eqn:Ea; [|done]. cbn in *. to_prop. unfold forward_ok.
    split_and!; try lia; [|by exists a].
    intros He. rewrite He in *. by destruct (wg_enabled (c_wireguard c)).
  - apply insert_loop in El as (N & D & M); [|done]. by apply (keys_inv_snoc _ pre pf s).
Qed.

(** Port forwards of an accepted configuration.  Every forward has ports in
    1..65535, does not take a management port, targets an address of the LAN
    network and, when enabled, exists only beside an enabled WireGuard server;
    and no two forwards claim the same external port for a common protocol. *)
Theorem accepted_port_forwards c :
  validate c = Ok tt ->
  (exists ip n, parse_cidr (lan_cidr (c_lan c)) = Some (ip, n)
     /\ Forall (forward_ok c n) (items (fw_port_forwards (c_firewall c))))
  /\ forall i j pf pf', items (fw_port_forwards (c_firewall c)) !! i = Some pf ->
       items (fw_port_forwards (c_firewall c)) !! j = Some pf' -> i <> j ->
       pf_external_port pf = pf_external_port pf' ->
       forall protocol, protocol ∈ forward_protocols (to_lower (pf_protocol pf)) ->
         protocol ∉ forward_protocols (to_lower (pf_protocol pf')).
Proof.
  intros (lan_ip & lan_network & A)%validate_accepted.
  destruct (validate_lan_ok _ _ _ (acc_lan _ _ _ A)) as (o & ip & n & -> & -> & _ & Ec & _).
  pose proof (acc_firewall _ _ _ A) as E. unfold validate_firewall in E. split_errors.
  match goal with E : fst (vloop _ _ _ _) = [] |- _ =>
    destruct (vloop_inv _ _ (forward_step c n) _ 0%nat [] ∅ (conj (Forall_nil_2 _) (keys_inv_nil _)) E)
      as [F [N _]] end. cbn [app] in *.
  split; [by exists ip, n|]. intros i j pf pf' Hi Hj Hij Hp protocol Q1 Q2.
  apply (concat_keys_disjoint forward_keys _ i j pf pf' (forward_key protocol (pf_external_port pf)) N Hi Hj Hij);
    unfold forward_keys; apply list_elem_of_In, in_map_iff; exists protocol;
    rewrite ?Hp; (split; [done|by apply list_elem_of_In]).
Qed.

End Accepted.
