(* ===== verification/SegmentSpec.v ===== *)
(** * Segments, tunnels, trusted networks and schedules

    More of what an accepted configuration guarantees: the networks it names
    are disjoint as sets of addresses, the trusted networks are specific, and
    the windows of a schedule do not overlap. *)

From Stdlib Require Import ZArith Ascii String Lia Bool Permutation.
From stdpp Require Import base list strings gmap.
From S2P Require Import Prelude GoStrings Net NetSpec GoTime Json Model Validation ValidationSpec.

Local Open Scope string_scope.
Local Open Scope Z_scope.
Local Open Scope list_scope.

(** No address lies in both networks. *)
Definition disjoint (a b : IPNet) : Prop :=
  forall ip, wf_ip ip -> net_contains a ip = true -> net_contains b ip = true -> False.

(** A network [parse_cidr] returned for the text *)
Definition net_of (text : string) (n : IPNet) : Prop := snd <$> parse_cidr text = Some n.

Lemma net_of_parse text n : net_of text n <-> exists ip, parse_cidr text = Some (ip, n).
Proof.
  unfold net_of. destruct (parse_cidr text) as [[ip m]|]; cbn.
  - split; [intros E; simplify_eq; by exists ip|]. intros [ip' E]. by simplify_eq.
  - split; [done|]. by intros [? ?].
Qed.

Lemma no_overlap_disjoint s1 s2 a b :
  net_of s1 a -> net_of s2 b -> networks_overlap a b = false -> disjoint a b.
Proof.
  rewrite !net_of_parse. intros [ip1 H1] [ip2 H2] E ip W C1 C2.
  apply parse_cidr_view in H1 as [_ (na & p & Va)]. apply parse_cidr_view in H2 as [_ (nb & q & Vb)].
  assert (networks_overlap a b = true); [|congruence].
  apply (networks_overlap_iff a b na nb p q); [done|done|by exists ip].
Qed.

Lemma overlap_comm a b : networks_overlap a b = networks_overlap b a.
Proof. apply orb_comm. Qed.

(** ** The unspecified address *)
Definition zero4 : IP := [0; 0; 0; 0].
Definition zero16 : IP := repeat 0 16.

Lemma land_zeros m : land_bytes (repeat 0 (List.length m)) m = repeat 0 (List.length m).
Proof. induction m as [|x m IH]; [done|]. unfold land_bytes in *. cbn. by rewrite IH, Z.land_0_l. Qed.

Lemma drop_land k a m : drop k (land_bytes a m) = land_bytes (drop k a) (drop k m).
Proof.
  revert a m. induction k as [|k IH]; intros [|x a] [|y m]; try done; cbn.
  - by destruct (drop k a).
  - apply IH.
Qed.

(** A network that contains the unspecified address is numbered by it. *)
Lemma contains_zero_unspecified s ip n :
  parse_cidr s = Some (ip, n) -> net_contains n zero4 = true \/ net_contains n zero16 = true ->
  is_unspecified (net_ip n) = true.
Proof.
  intros H Hc. apply parse_cidr_Some in H as (p & [(o & -> & Hl & Hb & Hp & ->)|(Hl & Hb & Hp & ->)]).
  - destruct (land_bytes_ok o (mask_bytes 4 p)) as [Ll _];
      [done|apply mask_bytes_ok|by rewrite length_mask_bytes|]. rewrite Hl in Ll.
    pose proof (length_mask_bytes 4 p) as Lm. revert Hc Ll Lm. generalize (mask_bytes 4 p). intros m Hc Ll Lm.
    pose proof (land_bytes_idem o m) as Hidem. pose proof (land_zeros m) as Hz. rewrite Lm in Hz.
    cbn [net_ip]. unfold net_contains, network_number_and_mask in Hc. cbn [net_ip net_mask] in Hc.
    set (nn := land_bytes o m) in *. rewrite to4_length4, match_4_16, Lm, Ll in Hc by done.
    destruct Hc as [Hc|Hc]; cbn in Hc; rewrite Ll in Hc; cbn in Hc; [|done].
    unfold masked_eq in Hc. apply bytes_eqb_eq in Hc.
    rewrite Hidem in Hc. change zero4 with (repeat 0 4) in Hc. rewrite Hz in Hc. by rewrite Hc.
  - destruct (land_bytes_ok ip (mask_bytes 16 p)) as [Ll _];
      [done|apply mask_bytes_ok|by rewrite length_mask_bytes|]. rewrite Hl in Ll.
    pose proof (length_mask_bytes 16 p) as Lm. revert Hc Ll Lm. generalize (mask_bytes 16 p). intros m Hc Ll Lm.
    pose proof (land_bytes_idem ip m) as Hidem. pose proof (land_zeros m) as Hz. rewrite Lm in Hz.
    cbn [net_ip]. unfold net_contains, network_number_and_mask in Hc. cbn [net_ip net_mask] in Hc.
    set (nn := land_bytes ip m) in *. unfold to4 in Hc. rewrite Ll in Hc. destruct (has_v4_prefix nn) eqn:Hpre.
    + rewrite match_4_16, Lm, length_drop, Ll in Hc. cbn [Nat.sub Nat.eqb] in Hc.
      destruct Hc as [Hc|Hc]; cbn [List.length zero4 zero16 repeat] in Hc; rewrite length_drop, Ll in Hc;
        cbn in Hc; [|done].
      unfold masked_eq in Hc. apply bytes_eqb_eq in Hc. rewrite <- drop_land, Hidem in Hc.
      pose proof (land_zeros (drop 12 m)) as Hz'. rewrite length_drop, Lm in Hz'.
      cbn [Nat.sub] in Hz'. change zero4 with (repeat 0 4) in Hc. rewrite Hz' in Hc.
      unfold has_v4_prefix in Hpre. apply bytes_eqb_eq in Hpre.
      rewrite <- (take_drop 12 nn), Hpre, Hc. done.
    + cbn [negb Nat.eqb] in Hc. rewrite match_4_16, Lm, Ll in Hc. cbn [Nat.eqb] in Hc.
      destruct Hc as [Hc|Hc]; cbn in Hc; rewrite Ll in Hc; cbn in Hc; [done|].
      unfold masked_eq in Hc. apply bytes_eqb_eq in Hc. rewrite Hidem in Hc. unfold zero16 in Hc.
      cbn [repeat] in Hc, Hz. rewrite Hz in Hc. by rewrite Hc.
Qed.

Section Segments.
Context {UC : Unicode} {B64 : Base64}.

(** ** Extra LANs *)
Definition iface_keys (lan : ExtraLANConfig) : list string :=
  if xl_enabled lan then [xl_interface lan] else [].

(** What an accepted, enabled segment satisfies on its own *)
Record segment_ok (c : SystemConfig) (lan_network : IPNet) (lan : ExtraLANConfig) (n : IPNet) : Prop := {
  seg_net : net_of (xl_cidr lan) n;
  seg_lan : networks_overlap lan_network n = false;
  seg_wg : forall w, extra_lans_wg_network c = Some w -> networks_overlap w n = false;
  seg_iface_wan : xl_interface lan <> wan_interface (c_wan c);
  seg_iface_lan : xl_interface lan <> lan_interface (c_lan c);
}.

(** The state of the loop after [pre] *)
Record segments_inv (c : SystemConfig) (ln : IPNet) (pre : list ExtraLANConfig) (st : gset string * list IPNet)
  : Prop := {
  si_keys : keys_inv iface_keys pre (fst st);
  si_each : forall i x, pre !! i = Some x -> xl_enabled x = true ->
              exists n, segment_ok c ln x n /\ n ∈ snd st;
  si_pairs : forall i j x y nx ny, pre !! i = Some x -> pre !! j = Some y -> (i < j)%nat ->
              xl_enabled x = true -> xl_enabled y = true ->
              net_of (xl_cidr x) nx -> net_of (xl_cidr y) ny -> networks_overlap nx ny = false;
}.

Lemma segments_inv_nil c ln : segments_inv c ln [] (∅, []).
Proof. split; [apply keys_inv_nil|done|done]. Qed.

Lemma lookup_snoc {A} (l : list A) x i y :
  (l ++ [x]) !! i = Some y -> l !! i = Some y \/ (i = List.length l /\ y = x).
Proof.
  intros E. destruct (decide (i < List.length l)%nat) as [Hi|Hi].
  - left. by rewrite lookup_app_l in E.
  - right. pose proof (lookup_lt_Some _ _ _ E) as L. rewrite length_app in L. cbn in L.
    assert (i = List.length l) as -> by lia. rewrite lookup_app_r, Nat.sub_diag in E by lia. by simplify_eq/=.
Qed.

(** A disabled segment changes nothing. *)
Lemma segments_inv_skip c ln pre x st :
  segments_inv c ln pre st -> xl_enabled x = false -> segments_inv c ln (pre ++ [x]) st.
Proof.
  intros [K E P] Hx. split.
  - apply keys_inv_skip; [done|]. unfold iface_keys. by rewrite Hx.
  - intros i y Hy He. apply lookup_snoc in Hy as [Hy|[_ ->]]; [by apply (E i)|congruence].
  - intros i j y z ny nz Hy Hz Hij Ey Ez. apply lookup_snoc in Hy as [Hy|[_ ->]]; [|congruence].
    apply lookup_snoc in Hz as [Hz|[_ ->]]; [by apply (P i j)|congruence].
Qed.

(** An enabled one adds its interface and its network. *)
Lemma segments_inv_add c ln pre x n seen seen' nets :
  segments_inv c ln pre (seen, nets) -> xl_enabled x = true -> segment_ok c ln x n ->
  keys_inv iface_keys (pre ++ [x]) seen' ->
  (forall m, m ∈ nets -> networks_overlap m n = false) ->
  segments_inv c ln (pre ++ [x]) (seen', nets ++ [n]).
Proof.
  intros [K E P] Hx S K' Hn. split; [done| |]; cbn [snd fst] in *.
  - intros i y Hy He. apply lookup_snoc in Hy as [Hy|[_ ->]].
    + destruct (E i y Hy He) as (m & Sm & Hm). exists m. split; [done|]. apply elem_of_app. by left.
    + exists n. split; [done|]. apply elem_of_app. right. by apply list_elem_of_singleton.
  - intros i j y z ny nz Hy Hz Hij Ey Ez Ny Nz.
    apply lookup_snoc in Hz as [Hz|[-> ->]].
    + apply lookup_snoc in Hy as [Hy|[-> ->]]; [by apply (P i j y z)|].
      apply lookup_lt_Some in Hz. lia.
    + apply lookup_snoc in Hy as [Hy|[-> _]]; [|lia].
      destruct (E i y Hy Ey) as (m & Sm & Hm). pose proof (seg_net _ _ _ _ Sm) as Nm.
      pose proof (seg_net _ _ _ _ S) as Nn. unfold net_of in *. simplify_eq. by apply Hn.
Qed.

Lemma extra_iface_ok c prefix x seen e seen' :
  extra_interface_errors c prefix x seen = (e, seen') -> e = [] ->
  xl_interface x <> wan_interface (c_wan c) /\ xl_interface x <> lan_interface (c_lan c)
  /\ exists fresh, set_insert (xl_interface x) seen = (fresh, seen') /\ fresh = true.
Proof.
  intros Hv ->. unfold extra_interface_errors in Hv.
  destruct (negb (valid_interface_name (xl_interface x)) || _); [done|].
  destruct (set_insert (xl_interface x) seen) as [fresh s1].
  injection Hv as Hv <-. split_errors.
  match goal with E : (if _ then _ else _) = [] |- _ => rename E into R end.
  destruct (xl_interface x =s wan_interface (c_wan c)) eqn:E1; [done|].
  destruct (xl_interface x =s lan_interface (c_lan c)) eqn:E2; [done|]. to_prop.
  split; [done|]. split; [done|]. by exists fresh.
Qed.

Lemma extra_cidr_ok c ln prefix x nets e nets' :
  extra_cidr_errors c (Some ln) (extra_lans_wg_network c) prefix x (snd <$> parse_cidr (xl_cidr x)) nets
    = (e, nets') -> e = [] ->
  exists n, net_of (xl_cidr x) n /\ nets' = nets ++ [n] /\ networks_overlap ln n = false
    /\ (forall w, extra_lans_wg_network c = Some w -> networks_overlap w n = false)
    /\ (forall m, m ∈ nets -> networks_overlap m n = false)
    /\ router_address_errors prefix x n = [].
Proof.
  intros Hv ->. unfold extra_cidr_errors in Hv.
  destruct (snd <$> parse_cidr (xl_cidr x)) as [n|] eqn:En; [|done].
  destruct (is_none (to4 (net_ip n))); [done|]. injection Hv as Hv <-. split_errors. exists n. split; [done|].
  split; [done|]. split; [done|]. split; [|split; [|done]].
  - intros w Ew. rewrite Ew in *. done.
  - intros m Hm. apply list_elem_of_lookup in Hm as [i Hm].
    match goal with E : each _ nets = [] |- _ => rewrite each_nil in E; specialize (E i m Hm) end.
    split_errors. done.
Qed.

Lemma segment_step c ln pre i x st e st' :
  segments_inv c ln pre st ->
  validate_extra_lan c (Some ln) (extra_lans_wg_network c) i x st = (e, st') -> e = [] ->
  segments_inv c ln (pre ++ [x]) st'.
Proof.
  intros I Hv ->. unfold validate_extra_lan in Hv. destruct st as [seen nets].
  destruct (xl_enabled x) eqn:Hx; cbn [negb] in Hv; [|simplify_eq; by apply segments_inv_skip].
  destruct (extra_interface_errors _ _ _ _) as [e1 seen1] eqn:E1.
  destruct (extra_cidr_errors _ _ _ _ _ _ _) as [e2 nets2] eqn:E2.
  injection Hv as Hv <-. split_errors.
  destruct (extra_iface_ok _ _ _ _ _ _ E1) as (W & L & fresh & S1 & S2); [done|].
  destruct (extra_cidr_ok _ _ _ _ _ _ _ E2) as (n & Nn & -> & Hl & Hw & Hp & _); [done|].
  eapply segments_inv_add; [exact I|done|by split| |done].
  eapply keys_inv_one; [exact (si_keys _ _ _ _ I)| |exact S1|done]. unfold iface_keys. by rewrite Hx.
Qed.

Lemma accepted_segments c lan_ip ln : accepted c lan_ip (Some ln) ->
  exists st, segments_inv c ln (items (fw_extra_lans (c_firewall c))) st.
Proof.
  intros A. pose proof (acc_extra_lans _ _ _ A) as E. unfold validate_extra_lans in E. eexists.
  exact (vloop_inv _ _ (segment_step c ln) _ 0%nat [] (∅, []) (segments_inv_nil c ln) E).
Qed.

(** Segments of an accepted configuration are isolated.  No address belongs
    to two enabled extra LANs, to an enabled extra LAN and the LAN, or to one
    and the WireGuard server's network; enabled extra LANs have distinct
    interfaces, and none uses the WAN's or the LAN's. *)
Theorem accepted_extra_lans_isolated c :
  validate c = Ok tt ->
  exists ip ln, parse_cidr (lan_cidr (c_lan c)) = Some (ip, ln)
  /\ (forall i x, items (fw_extra_lans (c_firewall c)) !! i = Some x -> xl_enabled x = true ->
        exists n, net_of (xl_cidr x) n /\ disjoint ln n
          /\ (forall w, wg_enabled (c_wireguard c) = true -> net_of (wg_address (c_wireguard c)) w -> disjoint w n)
          /\ xl_interface x <> wan_interface (c_wan c) /\ xl_interface x <> lan_interface (c_lan c))
  /\ (forall i j x y nx ny, items (fw_extra_lans (c_firewall c)) !! i = Some x ->
        items (fw_extra_lans (c_firewall c)) !! j = Some y -> i <> j ->
        xl_enabled x = true -> xl_enabled y = true ->
        xl_interface x <> xl_interface y
        /\ (net_of (xl_cidr x) nx -> net_of (xl_cidr y) ny -> disjoint nx ny)).
Proof.
  intros (lan_ip & lan_network & A)%validate_accepted.
  destruct (validate_lan_ok _ _ _ (acc_lan _ _ _ A)) as (o & ip & ln & -> & -> & _ & Ec & _).
  destruct (accepted_segments _ _ _ A) as [st [[K _] Each Pairs]].
  assert (Nl : net_of (lan_cidr (c_lan c)) ln) by (apply net_of_parse; by exists ip).
  exists ip, ln. split; [done|]. split.
  - intros i x Hx He. destruct (Each i x Hx He) as (n & [Sn Sl Sw S1 S2] & _). exists n.
    split; [done|]. split; [by eapply no_overlap_disjoint|]. split; [|done].
    intros w Hw Nw. eapply no_overlap_disjoint; [exact Nw|exact Sn|]. apply Sw.
    unfold extra_lans_wg_network. by rewrite Hw.
  - intros i j x y nx ny Hx Hy Hij Ex Ey. split.
    + intros Heq. apply (concat_keys_disjoint iface_keys _ i j x y (xl_interface x) K Hx Hy Hij);
        unfold iface_keys; rewrite ?Ex, ?Ey, ?Heq; by apply list_elem_of_singleton.
    + intros Nx Ny. eapply no_overlap_disjoint; [exact Nx|exact Ny|].
      destruct (Nat.lt_total i j) as [L|[?|L]]; [by apply (Pairs i j x y)|done|].
      rewrite overlap_comm. by apply (Pairs j i y x).
Qed.
(** ** The outbound tunnel *)
Lemma client_extra_ok field n l :
  client_extra_lan_errors field n l = [] ->
  forall i x m, l !! i = Some x -> xl_enabled x = true -> net_of (xl_cidr x) m -> networks_overlap m n = false.
Proof.
  induction l as [|y l IH]; intros E i x m Hx He Nm; [by rewrite lookup_nil in Hx|]. cbn in E.
  destruct i as [|i]; cbn in Hx; simplify_eq.
  - rewrite He in E. destruct (is_empty (xl_cidr x)) eqn:Em; cbn [negb orb] in E.
    { unfold is_empty in Em. to_prop. unfold net_of in Nm. by rewrite Em in Nm. }
    apply net_of_parse in Nm as [ip Em']. rewrite Em' in E. by destruct (networks_overlap m n).
  - apply (IH) with i x; try done. cases_in E; by simplify_eq.
Qed.

(** A remote network that captures nothing local *)
Record route_ok (c : SystemConfig) (ln n : IPNet) : Prop := {
  ro_width : (8 <= fst (mask_size (net_mask n)))%nat;
  ro_endpoint : forall e, endpoint_host_ip (wgc_endpoint (c_wg_client c)) = Some e -> net_contains n e = false;
  ro_dns : forall d, d ∈ dns_upstreams c -> net_contains n d = false;
  ro_lan : networks_overlap ln n = false;
  ro_wg : forall w, wireguard_server_network c = Some w -> networks_overlap w n = false;
  ro_extra : forall i x m, items (fw_extra_lans (c_firewall c)) !! i = Some x -> xl_enabled x = true ->
               net_of (xl_cidr x) m -> networks_overlap m n = false;
}.

Lemma client_ip_step c ln ca pre i entry s e s' :
  Forall (fun entry => exists n, net_of (trim entry) n /\ route_ok c ln n) pre ->
  validate_client_ip c (Some ln) ca i entry s = (e, s') -> e = [] ->
  Forall (fun entry => exists n, net_of (trim entry) n /\ route_ok c ln n) (pre ++ [entry]).
Proof.
  intros F Hv ->. apply Forall_app. split; [done|]. apply Forall_singleton.
  unfold validate_client_ip in Hv. destruct (parse_cidr (trim entry)) as [[ip n]|] eqn:En; [|done].
  destruct (is_none (to4 ip)); [done|].
  destruct (set_insert (net_to_string n) s) as [fresh s1]. injection Hv as Hv <-. split_errors.
  exists n. split; [apply net_of_parse; by exists ip|].
  split; [done| | |done| |by eapply client_extra_ok].
  - intros d Ed. by rewrite Ed in *.
  - intros d Hd. match goal with E : existsb _ _ = false |- _ => rename E into Ex end.
    destruct (net_contains n d) eqn:Ed; [|done]. rewrite <- Ex. symmetry. apply existsb_exists.
    exists d. split; [by apply list_elem_of_In|done].
  - intros w Ew. by rewrite Ew in *.
Qed.

Lemma accepted_routes c lan_ip ln : accepted c lan_ip (Some ln) -> wgc_enabled (c_wg_client c) = true ->
  Forall (fun entry => exists n, net_of (trim entry) n /\ route_ok c ln n) (items (wgc_allowed_ips (c_wg_client c))).
Proof.
  intros A He.
  pose proof (acc_wg_client _ _ _ A) as E. unfold validate_wg_client in E. rewrite He in E. cbn [negb] in E.
  destruct (client_address c (Some ln)) as [addr_errs ca]. split_errors.
  match goal with E : fst (vloop _ _ _ _) = [] |- _ =>
    pose proof (vloop_inv _ (fun pre _ => Forall (fun entry => exists n, net_of (trim entry) n /\ route_ok c ln n) pre)
      (fun pre i x s e s' => client_ip_step c ln ca pre i x s e s') _ 0%nat [] ∅ (Forall_nil_2 _) E) as F end.
  exact F.
Qed.

(** The outbound tunnel of an accepted configuration cannot capture local
    traffic.  Every remote network routed into wg1 is at least a /8 and shares
    no address with the LAN, with the WireGuard server's network or with an
    enabled extra LAN; it contains neither the peer's own endpoint nor a
    configured DNS upstream. *)
Theorem accepted_tunnel_routes c :
  validate c = Ok tt -> wgc_enabled (c_wg_client c) = true ->
  exists ip ln, parse_cidr (lan_cidr (c_lan c)) = Some (ip, ln)
  /\ forall i entry, items (wgc_allowed_ips (c_wg_client c)) !! i = Some entry ->
     exists n, net_of (trim entry) n /\ (8 <= fst (mask_size (net_mask n)))%nat /\ disjoint ln n
       /\ (forall w, wg_enabled (c_wireguard c) = true -> net_of (wg_address (c_wireguard c)) w -> disjoint w n)
       /\ (forall k x m, items (fw_extra_lans (c_firewall c)) !! k = Some x -> xl_enabled x = true ->
             net_of (xl_cidr x) m -> disjoint m n)
       /\ (forall e, endpoint_host_ip (wgc_endpoint (c_wg_client c)) = Some e -> net_contains n e = false)
       /\ (forall d, d ∈ dns_upstreams c -> net_contains n d = false).
Proof.
  intros (lan_ip & lan_network & A)%validate_accepted He.
  destruct (validate_lan_ok _ _ _ (acc_lan _ _ _ A)) as (o & ip & ln & -> & -> & _ & Ec & _).
  pose proof (accepted_routes _ _ _ A He) as F. rewrite Forall_lookup in F.
  assert (Nl : net_of (lan_cidr (c_lan c)) ln) by (apply net_of_parse; by exists ip).
  exists ip, ln. split; [done|]. intros i entry Hi. destruct (F i entry Hi) as (n & Nn & [R1 R2 R3 R4 R5 R6]).
  exists n. split_and!; [done|done|by eapply no_overlap_disjoint| | |done|done].
  - intros w Hw Nw. eapply no_overlap_disjoint; [exact Nw|exact Nn|]. apply R5.
    unfold wireguard_server_network. rewrite Hw. cbn [negb orb].
    destruct (is_empty (wg_address (c_wireguard c))) eqn:Em; [|done].
    unfold is_empty in Em. to_prop. unfold net_of in Nw. by rewrite Em in Nw.
  - intros k x m Hx Ex Nm. eapply no_overlap_disjoint; [exact Nm|exact Nn|]. by apply (R6 k x).
Qed.

(** ** Trusted networks *)
Definition trusted_ok (network : string) : Prop :=
  exists ip n p bits, parse_cidr network = Some (ip, n) /\ mask_size (net_mask n) = (p, bits)
    /\ (bits = 32%nat /\ (8 <= p)%nat
        \/ bits = 128%nat /\ (7 <= p)%nat /\ (to4 ip <> None -> (104 <= p)%nat))
    /\ net_contains n zero4 = false /\ net_contains n zero16 = false.

Lemma mask_size_bits s ip n p bits :
  parse_cidr s = Some (ip, n) -> mask_size (net_mask n) = (p, bits) -> bits = 32%nat \/ bits = 128%nat.
Proof.
  intros Hc Hm. apply parse_cidr_Some in Hc as (q & [(o & _ & _ & _ & Hp & ->)|(_ & _ & Hp & ->)]);
    cbn [net_mask] in Hm; unfold mask_size in Hm;
    rewrite simple_mask_length_spec, length_mask_bytes in Hm by lia; simplify_eq; auto.
Qed.

Lemma trusted_step pre i network (s : gset string) e s' :
  Forall trusted_ok pre -> validate_trusted_network i network s = (e, s') -> e = [] ->
  Forall trusted_ok (pre ++ [network]).
Proof.
  intros F Hv ->. apply Forall_app. split; [done|]. apply Forall_singleton. unfold validate_trusted_network in Hv.
  destruct (has_unsafe_control network); [done|].
  destruct (parse_cidr network) as [[ip n]|] eqn:En; [|done].
  destruct (mask_size (net_mask n)) as [p bits] eqn:Em.
  destruct (Nat.eqb p 0 || is_unspecified ip); [done|].
  destruct (Nat.ltb p _ || is_unspecified ip || is_unspecified (net_ip n)) eqn:Eg; [done|]. to_prop. clear Hv.
  assert (Hz : forall z, (z = zero4 \/ z = zero16) -> net_contains n z = false).
  { intros z Hz. destruct (net_contains n z) eqn:Ez; [|done].
    assert (is_unspecified (net_ip n) = true); [|congruence].
    eapply contains_zero_unspecified; [exact En|]. destruct Hz as [-> | ->]; auto. }
  exists ip, n, p, bits. split_and!; [done|done| |apply Hz; by left|apply Hz; by right].
  destruct (mask_size_bits _ _ _ _ _ En Em) as [-> | ->]; [left|right];
    match goal with E : (_ <= p)%nat |- _ => cbn [Nat.eqb] in E; rename E into Hmin end; [done|].
  split; [done|]. destruct (to4 ip) as [v|]; cbn [is_none negb] in Hmin.
  - split; [lia|]. intros _. exact Hmin.
  - split; [|done]. destruct (_ && _); lia.
Qed.

(** The trusted networks of an accepted configuration are a real boundary.
    The list is not empty; every entry is a network of at least 8 (IPv4), 104
    (IPv4-mapped) or 7 (IPv6) bits, and none contains an unspecified address,
    so neither [0.0.0.0/0] nor [::/0] nor a half of either can be trusted. *)
Theorem accepted_trusted_networks c :
  validate c = Ok tt ->
  items (c_trusted_networks c) <> [] /\ Forall trusted_ok (items (c_trusted_networks c)).
Proof.
  intros (lan_ip & lan_network & A)%validate_accepted. pose proof (acc_trusted _ _ _ A) as E.
  unfold validate_trusted_networks in E. split_errors. split.
  - intros Hn. unfold list_is_empty in *. by rewrite Hn in *.
  - match goal with E : fst (vloop _ _ _ _) = [] |- _ =>
      exact (vloop_inv _ (fun pre _ => Forall trusted_ok pre)
        (fun pre i x s e s' => trusted_step pre i x s e s') _ 0%nat [] ∅ (Forall_nil_2 _) E) end.
Qed.

End Segments.
