(* ===== verification/ProfileSpec.v ===== *)
(** * Device profiles

    What the validation of device profiles ([profiles.rs]) guarantees: the
    windows of an accepted schedule are non-empty intervals of the day of which
    at most one is open at any minute, and an address is listed by one profile
    only. *)

From Stdlib Require Import ZArith Ascii String Lia Bool Permutation Sorted.
From stdpp Require Import base list strings gmap.
From S2P Require Import Prelude GoStrings Net NetSpec GoTime Json Model Validation ValidationSpec.

Local Open Scope string_scope.
Local Open Scope Z_scope.
Local Open Scope list_scope.

(** ** Windows *)

(** The interval of a window, in minutes of the day *)
Definition window_is (w : AccessWindow) (iv : Z * Z) : Prop :=
  exists sh sm eh em, parse_clock (aw_start w) = Some (sh, sm) /\ parse_clock (aw_end w) = Some (eh, em)
    /\ iv = (sh * 60 + sm, eh * 60 + em) /\ fst iv < snd iv.

Definition open_at (m : Z) (iv : Z * Z) : bool := (fst iv <=? m) && (m <? snd iv).

(** Sorting permutes, and orders by start. *)
Lemma insert_window_perm w l : insert_window w l ≡ₚ w :: l.
Proof.
  induction l as [|x l IH]; cbn; [done|]. destruct (fst w <=? fst x); [done|].
  rewrite IH. constructor.
Qed.

Lemma sort_windows_perm l : sort_windows l ≡ₚ l.
Proof. induction l as [|x l IH]; cbn; [done|]. unfold sort_windows in IH. by rewrite insert_window_perm, IH. Qed.

(** Without an overlap between neighbours, an interval ends before every later
    one starts, because each ends after it starts. *)
Lemma no_overlap_later a l :
  Forall (fun iv => fst iv < snd iv) (a :: l) -> windows_overlap (a :: l) = false ->
  Forall (fun iv => snd a <= fst iv) l.
Proof.
  revert a. induction l as [|b l IH]; intros a F E; [constructor|].
  inversion F as [|? ? Ha F']; subst. inversion F' as [|? ? Hb F'']; subst. cbn in E.
  apply orb_false_iff in E as [E1 E2]. to_prop. constructor; [lia|].
  specialize (IH b F' E2). eapply Forall_impl; [exact IH|]. cbn. intros iv Hiv. lia.
Qed.

Lemma no_overlap_one_open m l :
  Forall (fun iv => fst iv < snd iv) l -> windows_overlap l = false ->
  (List.length (List.filter (open_at m) l) <= 1)%nat.
Proof.
  induction l as [|a l IH]; intros F E; [cbn; lia|]. pose proof (no_overlap_later a l F E) as Hl.
  inversion F as [|? ? Ha F']; subst. cbn [List.filter]. destruct (open_at m a) eqn:Eo.
  - cbn. enough (List.filter (open_at m) l = []) as -> by (cbn; lia).
    unfold open_at in Eo. to_prop. clear IH E F F'. induction Hl as [|b l Hb _ IH]; [done|]. cbn.
    unfold open_at at 1. destruct (Z.leb_spec (fst b) m); [lia|]. done.
  - apply IH; [done|]. destruct l; [done|]. cbn in E. by apply orb_false_iff in E as [_ E].
Qed.

Lemma filter_perm {A} (f : A -> bool) l l' : l ≡ₚ l' -> List.filter f l ≡ₚ List.filter f l'.
Proof.
  induction 1 as [|x l l' _ IH|x y l|l1 l2 l3 _ IH1 _ IH2]; cbn; [done| | |by rewrite IH1].
  - destruct (f x); [by rewrite IH|done].
  - destruct (f x), (f y); try done. constructor.
Qed.

(** The loop collects the interval of every window. *)
Lemma parse_windows_step field pre i w parsed e parsed' :
  Forall2 window_is pre parsed -> parse_window field i w parsed = (e, parsed') -> e = [] ->
  Forall2 window_is (pre ++ [w]) parsed'.
Proof.
  intros F Hv ->. unfold parse_window in Hv.
  destruct (parse_clock (aw_start w)) as [[sh sm]|] eqn:Es; [|done].
  destruct (parse_clock (aw_end w)) as [[eh em]|] eqn:Ee; [|done].
  destruct (eh * 60 + em <=? sh * 60 + sm) eqn:El; [done|]. simplify_eq. to_prop.
  apply Forall2_app; [done|]. constructor; [|constructor].
  exists sh, sm, eh, em. by split_and!.
Qed.

(** What accepted windows satisfy *)
Definition windows_ok (ws : list AccessWindow) : Prop :=
  (List.length ws <= 12)%nat
  /\ exists ivs, Forall2 window_is ws ivs
     /\ forall m, (List.length (List.filter (open_at m) ivs) <= 1)%nat.

Lemma validate_windows_ok field ws : validate_windows field ws = [] -> windows_ok ws.
Proof.
  unfold validate_windows. destruct (Nat.ltb_spec 12 (List.length ws)); [done|].
  destruct (vloop (parse_window field) 0 ws []) as [errs ivs] eqn:Ev. intros E. split_errors.
  pose proof (vloop_inv (parse_window field) (fun pre s => Forall2 window_is pre s)
    (fun pre i x s e s' => parse_windows_step field pre i x s e s') ws 0%nat [] [] (List.Forall2_nil _)) as F.
  rewrite Ev in F. specialize (F ltac:(done)). cbn [app fst snd] in F.
  split; [done|]. exists ivs. split; [done|]. intros m.
  rewrite <- (Permutation_length (filter_perm (open_at m) _ _ (sort_windows_perm ivs))).
  apply no_overlap_one_open; [|done]. rewrite sort_windows_perm.
  clear -F. induction F as [|w iv ws ivs Hw _ IH]; constructor; [|done]. by destruct Hw as (? & ? & ? & ? & _ & _ & _ & ?).
Qed.

(** The lists of windows a schedule uses *)
Definition schedule_ok (s : WeeklyAccessSchedule) : Prop :=
  match sched_day_windows s with
  | [] => windows_ok (items (sched_weekday_windows s))
          /\ (sched_weekend_mode s = "custom" -> windows_ok (items (sched_weekend_windows s)))
  | days => Forall (fun d => one_of SUPPORTED_SCHEDULE_DAYS (fst d) = true /\ windows_ok (items (snd d))) days
  end.

Lemma validate_schedule_ok field s : validate_profile_schedule field s = [] -> schedule_ok s.
Proof.
  unfold validate_profile_schedule, schedule_ok. destruct (sched_day_windows s) as [|d days]; intros E; split_errors.
  - split; [by eapply validate_windows_ok|]. intros Hc. rewrite Hc in *. cbn in *. split_errors.
    by eapply validate_windows_ok.
  - apply Forall_lookup. intros i [day ws] Hi.
    match goal with E : each _ _ = [] |- _ => rewrite each_nil in E; specialize (E i _ Hi); cbn beta iota zeta in E; rename E into Ed end.
    cbn [fst snd]. destruct (one_of SUPPORTED_SCHEDULE_DAYS day); [|done]. cbn [negb] in Ed. split; [done|]. by eapply validate_windows_ok.
Qed.

(** ** Profiles *)
Section Profiles.
Context {UC : Unicode} {B64 : Base64}.

(** The addresses of one profile: after the loop it owns them, and no address
    changed its owner. *)
Lemma profile_ips_ok ln base id l : forall j s es s',
  vloop (validate_profile_ip ln base id) j l s = (es, s') -> es = [] ->
  (forall raw, raw ∈ l -> s' !! raw = Some id) /\ (forall raw o, s !! raw = Some o -> s' !! raw = Some o).
Proof.
  induction l as [|x l IH]; intros j s es s' Hv ->; cbn [vloop] in Hv.
  { simplify_eq. split; [|done]. intros raw Hr. by apply elem_of_nil in Hr. }
  unfold validate_profile_ip at 1 in Hv. destruct (vloop _ (S j) l _) as [es2 s2] eqn:El.
  injection Hv as Hv <-. split_errors.
  destruct (IH _ _ _ _ El) as [I1 I2]; [done|]. split.
  - intros raw [->|Hr]%elem_of_cons; [|by apply I1]. apply I2. by rewrite lookup_insert_eq.
  - intros raw o Ho. apply I2. destruct (decide (x = raw)) as [->|Hne]; [|by rewrite lookup_insert_ne].
    rewrite lookup_insert_eq. match goal with E : match s !! raw with _ => _ end = [] |- _ => rewrite Ho in E end.
    split_errors. by subst.
Qed.

Definition id_keys (p : DeviceProfile) : list string := [dp_id p].

Record profiles_inv (pre : list DeviceProfile) (st : gset string * gmap string string) : Prop := {
  pi_ids : keys_inv id_keys pre (fst st);
  pi_owner : forall i p raw, pre !! i = Some p -> raw ∈ items (dp_ip_addresses p) -> snd st !! raw = Some (dp_id p);
  pi_schedule : Forall (fun p => schedule_ok (dp_schedule p)) pre;
}.

Lemma profiles_inv_nil : profiles_inv [] (∅, ∅).
Proof. split; [apply keys_inv_nil|done|constructor]. Qed.

Lemma profile_step ln pre i p st e st' :
  profiles_inv pre st -> validate_profile ln i p st = (e, st') -> e = [] -> profiles_inv (pre ++ [p]) st'.
Proof.
  intros [K O S] Hv ->. unfold validate_profile in Hv. destruct st as [ids ips].
  destruct (set_insert (dp_id p) ids) as [fresh ids'] eqn:S1.
  destruct (vloop _ 0 (items (dp_ip_addresses p)) ips) as [e2 ips'] eqn:El.
  injection Hv as Hv <-. split_errors. cbn [fst snd] in *.
  destruct (profile_ips_ok _ _ _ _ _ _ _ _ El) as [I1 I2]; [done|]. split; cbn [fst snd].
  - by eapply keys_inv_one.
  - intros k q raw Hq Hr. destruct (decide (k < List.length pre)%nat) as [L|L].
    + rewrite lookup_app_l in Hq by done. apply I2. by eapply O.
    + rewrite lookup_app_r in Hq by lia. apply list_lookup_singleton_Some in Hq as [_ ->]. by apply I1.
  - apply Forall_app. split; [done|]. apply Forall_singleton. by eapply validate_schedule_ok.
Qed.

(** Schedules of an accepted configuration.  In every device profile each
    list of windows has at most twelve, all of them non-empty intervals of the
    day, and at any minute at most one of them is open. *)
Theorem accepted_profile_schedules c :
  validate c = Ok tt -> Forall (fun p => schedule_ok (dp_schedule p)) (items (df_device_profiles (c_adguard c))).
Proof.
  intros (lan_ip & ln & A)%validate_accepted. pose proof (acc_profiles _ _ _ A) as E.
  unfold validate_device_profiles in E. split_errors.
  match goal with E : fst (vloop _ _ _ _) = [] |- _ =>
    exact (pi_schedule _ _ (vloop_inv _ _ (profile_step ln) _ 0%nat [] (∅, ∅) profiles_inv_nil E)) end.
Qed.

(** Profiles of an accepted configuration have distinct identifiers, and no
    address text is listed by two of them. *)
Theorem accepted_profile_ownership c :
  validate c = Ok tt ->
  forall i j p q, items (df_device_profiles (c_adguard c)) !! i = Some p ->
    items (df_device_profiles (c_adguard c)) !! j = Some q -> i <> j ->
    dp_id p <> dp_id q
    /\ forall raw, raw ∈ items (dp_ip_addresses p) -> raw ∉ items (dp_ip_addresses q).
Proof.
  intros (lan_ip & ln & A)%validate_accepted i j p q Hp Hq Hij. pose proof (acc_profiles _ _ _ A) as E.
  unfold validate_device_profiles in E. split_errors.
  match goal with E : fst (vloop _ _ _ _) = [] |- _ =>
    destruct (vloop_inv _ _ (profile_step ln) _ 0%nat [] (∅, ∅) profiles_inv_nil E) as [[K _] O _] end.
  cbn [app] in *.
  assert (Hne : dp_id p <> dp_id q).
  { intros Heq. apply (concat_keys_disjoint id_keys _ i j p q (dp_id p) K Hp Hq Hij);
      unfold id_keys; rewrite ?Heq; by apply list_elem_of_singleton. }
  split; [done|]. intros raw Hr Hr'. apply Hne.
  pose proof (O i p raw Hp Hr) as E1. pose proof (O j q raw Hq Hr') as E2. congruence.
Qed.
End Profiles.
