(* ===== verification/Policy.v ===== *)
(** * Cross-component policy

    [mr-config/src/config/policy.rs]: which changes need a confirmation, which
    configurations may go live, who may reach the management interface, the
    scope of a firewall rule, and the migration of old records. *)

From Stdlib Require Import ZArith Ascii String Lia Bool.
From stdpp Require Import base list strings gmap.
From S2P Require Import Prelude GoStrings Net GoTime Json Model Validation.

Local Open Scope string_scope.
Local Open Scope Z_scope.
Local Open Scope list_scope.

(** ** Errors ([mr-core/src/goish/errors.rs])

    [anyhow::Error] as the code builds it: a formatted message, validation
    errors, a typed action error, a sentinel told apart by its type, or one of
    these wrapped with a prefix. *)
Inductive error :=
| Errorf (message : string)
| EValidation (errs : ValidationErrors)
| EAction (code message : string)
| ESentinel (message : string)
| Wrapf (prefix : string) (source : error).

Fixpoint error_string (e : error) : string :=
  match e with
  | Errorf m => m
  | EValidation l => VEs_to_string l
  | EAction _ m => m
  | ESentinel m => m
  | Wrapf prefix e => prefix +:+ ": " +:+ error_string e
  end.

Definition firewall_rule_scope (rule : FirewallRule) : string :=
  if rule_direction rule =s "input" then "router"
  else if (rule_action rule =s "allow") || (rule_scope rule =s "wan") then "wan"
  else "all".

(** [equal_section(&a, &b)] for a section with encoder [f] *)
Definition equal_section {A} (f : A -> json) (a b : A) : bool := equal_json (f a) (f b).
Definition trusted_json (l : GoList string) : json := json_list JStr l.

Definition requires_confirmation (current candidate : SystemConfig) : bool :=
  let access c := sys_management_access (c_system c) in
  let wireguard_management_changed :=
    ((access current =s "wireguard_only") || (access candidate =s "wireguard_only"))
    && negb (equal_section WireGuardConfig_json (c_wireguard current) (c_wireguard candidate)) in
  let wifi_changed :=
    negb (equal_section WiFiConfig_json (c_wifi current) (c_wifi candidate))
    && (wifi_enabled (c_wifi current) || wifi_enabled (c_wifi candidate)) in
  (lan_ip_address (c_lan current) <>s lan_ip_address (c_lan candidate))
  || (lan_cidr (c_lan current) <>s lan_cidr (c_lan candidate))
  || (access current <>s access candidate)
  || wifi_changed
  || wireguard_management_changed
  || negb (equal_section WGClientConfig_json (c_wg_client current) (c_wg_client candidate))
  || negb (equal_section trusted_json (c_trusted_networks current) (c_trusted_networks candidate)).

(** ** Migration *)

(** [u32::to_be_bytes] *)
Definition to_be4 (v : Z) : list Z := [v / 2 ^ 24 mod 256; v / 2 ^ 16 mod 256; v / 2 ^ 8 mod 256; v mod 256].
Definition from_be4 (l : list Z) : Z := fold_left (fun n b => n * 256 + b) l 0.

Definition with_router_address (lan : ExtraLANConfig) (a : string) : ExtraLANConfig :=
  mkExtraLANConfig (xl_id lan) (xl_name lan) (xl_interface lan) (xl_cidr lan) a (xl_dst_ip lan)
    (xl_dst_port lan) (xl_protocol lan) (xl_allow_from lan) (xl_enabled lan).

Definition migrate_extra_lan (lan : ExtraLANConfig) : ExtraLANConfig :=
  if negb (xl_enabled lan) || negb (is_empty (trim (xl_router_address lan))) then lan
  else
    match parse_cidr (trim (xl_cidr lan)) with
    | None => lan
    | Some (_, network) =>
        match to4 (net_ip network) with
        | None => lan
        | Some network_v4 =>
            let '(prefix, bits) := mask_size (net_mask network) in
            if negb (Nat.eqb bits 32) || Nat.leb 31 prefix then lan
            else
              let network_value := from_be4 network_v4 in
              let broadcast_value :=
                Z.lor network_value (u32_mod - 1 - from_be4 (take 4 (net_mask network))) in
              let gateway_value := (network_value + 1) mod u32_mod in
              if broadcast_value <=? gateway_value then lan
              else
                with_router_address lan
                  (ip_to_string (to_be4 gateway_value) +:+ "/" +:+ show_Z (Z.of_nat prefix))
        end
    end.

Definition with_extra_lans (c : SystemConfig) (l : GoList ExtraLANConfig) : SystemConfig :=
  let f := c_firewall c in
  mkSystemConfig (c_revision c) (c_updated_at c) (c_system c) (c_wan c) (c_lan c) (c_dhcp c) (c_dns c)
    (mkFirewallConfig (fw_default_wan_input_policy f) (fw_wan_ingress_mode f) (fw_stateful_firewall f)
       (fw_port_forwards f) (fw_custom_rules f) l)
    (c_wireguard c) (c_wg_client c) (c_cloudflare c) (c_squid_proxy c) (c_adguard c) (c_qos c) (c_wifi c)
    (c_accounting c) (c_trusted_networks c).

Definition migrate_legacy_fields (c : SystemConfig) : SystemConfig :=
  let l := fw_extra_lans (c_firewall c) in
  with_extra_lans c (mkList (map migrate_extra_lan (items l)) (nil_flag l)).

(** ** Management access *)
Definition parse_remote_ip (remote_addr : string) : option IP :=
  if is_empty remote_addr then None
  else match split_host_port remote_addr with
       | Ok (host, _) => parse_ip host
       | Err _ => parse_ip (trim remote_addr)
       end.

Definition is_trusted_client_address (c : SystemConfig) (remote_addr : string) : bool :=
  match parse_remote_ip remote_addr with
  | None => false
  | Some ip0 =>
      let ip := match to4 ip0 with Some v4 => v4 | None => ip0 end in
      is_loopback ip
      || existsb (fun network => some_and (fun p => net_contains (snd p) ip) (parse_cidr network))
           (items (c_trusted_networks c))
  end.

(** ** Scenario safety *)
Definition valid_dns_label (label : string) : bool :=
  negb (is_empty label) && (str_len label <=? 63) && negb (starts_with "-" label) && negb (ends_with "-" label)
  && forallb (alnum_or ["-"%char]) (bytes_of label).

Definition valid_dns_name_strict (value : string) : bool :=
  let value := trim value in
  if is_empty value || (253 <? str_len value) || starts_with "." value || ends_with "." value then false
  else forallb valid_dns_label (split "."%char value).

Definition network_contained_in (candidate zone : IPNet) : bool :=
  if is_none (to4 (net_ip candidate)) || is_none (to4 (net_ip zone)) then false
  else
    let '(candidate_ones, candidate_bits) := mask_size (net_mask candidate) in
    let '(zone_ones, zone_bits) := mask_size (net_mask zone) in
    Nat.eqb candidate_bits 32 && Nat.eqb zone_bits 32 && Nat.leb zone_ones candidate_ones
    && net_contains zone (net_ip candidate).

Definition is_private_site_network (network : IPNet) : bool :=
  existsb (fun p => network_contained_in network (snd p))
    (omap parse_cidr ["10.0.0.0/8"; "172.16.0.0/12"; "192.168.0.0/16"]).

Definition client_safety_errors (c : SystemConfig) : ValidationErrors :=
  let client := c_wg_client c in
  if negb (wgc_enabled client) then []
  else
    let address := trim (wgc_address client) in
    let required :=
      [mkVE "wg_client.address" "is required and must be a valid IPv4 /32 when the outbound tunnel is enabled"] in
    match parse_cidr address with
    | Some (ip, network) =>
        if negb (is_empty address) && negb (is_none (to4 ip)) then
          check (negb (Nat.eqb (fst (mask_size (net_mask network))) 32)) "wg_client.address"
            "must be a /32 address in this appliance version"
        else required
    | None => required
    end
    ++ each (fun i entry =>
               match parse_cidr (trim entry) with
               | Some (_, remote) =>
                   check (negb (is_none (to4 (net_ip remote))) && negb (is_private_site_network remote))
                     (idx "wg_client.allowed_ips" i)
                     "must be contained in an RFC1918 private site network (10/8, 172.16/12, or 192.168/16)"
               | None => []
               end) (items (wgc_allowed_ips client))
    ++ match split_host_port (wgc_endpoint client) with
       | Ok (host, _) =>
           check (is_none (parse_ip host) && negb (valid_dns_name_strict host)) "wg_client.endpoint"
             "hostname must contain valid DNS labels"
       | Err _ => []
       end.

Definition scenario_errors (c : SystemConfig) : ValidationErrors :=
  check (negb (valid_dns_name_strict (sys_domain (c_system c)))) "system.domain"
    "must contain valid DNS labels (1-63 alphanumeric/hyphen characters, no empty labels or edge hyphens)"
  ++ each (fun i rec =>
             check (negb (valid_dns_name_strict (rec_name rec))) (idx "dns.records" i +:+ ".name")
               "must contain valid DNS labels") (items (dns_records (c_dns c)))
  ++ client_safety_errors c
  ++ each (fun i rule =>
             check (rule_enabled rule && (rule_direction rule =s "input") && (rule_action rule =s "deny"))
               (idx "firewall.custom_rules" i)
               "custom input deny rules are unavailable because they can lock out router management; use trusted networks or feature-specific access controls")
       (items (fw_custom_rules (c_firewall c))).

Definition validate_scenario_safety (c : SystemConfig) : result unit ValidationErrors :=
  into_result (scenario_errors c).

Definition baseline_prefix : string :=
  "rollback baseline requires local configuration migration before live changes".

Definition validate_live_candidate {UC : Unicode} {B64 : Base64} (candidate : SystemConfig) (previous : option SystemConfig)
  : result unit error :=
  let? _ := map_err EValidation (validate candidate) in
  let? _ := map_err EValidation (validate_scenario_safety candidate) in
  match previous with
  | Some previous =>
      let? _ := map_err (fun e => Wrapf baseline_prefix (EValidation e)) (validate previous) in
      map_err (fun e => Wrapf baseline_prefix (EValidation e)) (validate_scenario_safety previous)
  | None => Ok tt
  end.
