(* ===== verification/PolicySpec.v ===== *)
(** * What the policy guarantees

    The theorems about [Policy]: confirmation is asked for every change to the
    management path, live candidates cannot lock the operator out, the
    management boundary is membership in a trusted network, and the migration
    of old segments gives addresses the validator accepts. *)

From Stdlib Require Import ZArith Ascii String Lia Bool.
From stdpp Require Import base list strings gmap.
From S2P Require Import Prelude GoStrings Net NetSpec GoTime Json Model Validation ValidationSpec SegmentSpec Policy.

Local Open Scope string_scope.
Local Open Scope Z_scope.
Local Open Scope list_scope.

(** ** Encoded sections *)

Lemma map_inj_eq {A B} (f : A -> B) l l' : (forall x y, f x = f y -> x = y) -> map f l = map f l' -> l = l'.
Proof.
  intros Hf. revert l'. induction l as [|a l IH]; intros [|b l'] E; try done. cbn in E. injection E as E1 E2.
  f_equal; [by apply Hf|by apply IH].
Qed.

(** Lists with the same encoding hold the same elements. *)
Lemma json_list_inj {A} (f : A -> json) l l' :
  (forall x y, f x = f y -> x = y) -> json_list f l = json_list f l' -> items l = items l'.
Proof.
  intros Hf. unfold json_list, list_is_nil, list_is_empty. destruct l as [l b], l' as [l' b']. cbn.
  intros E. apply (map_inj_eq f); [done|]. destruct l as [|x l], l' as [|y l'], b, b'; cbn in *; congruence.
Qed.

Lemma strings_json_inj l l' : json_list JStr l = json_list JStr l' -> items l = items l'.
Proof. apply json_list_inj. by intros ? ? [=]. Qed.

Lemma equal_section_spec {A} (f : A -> json) a b : equal_section f a b = true <-> f a = f b.
Proof. apply equal_json_spec. Qed.

(** Same tunnel settings, up to the encoding of the list *)
Definition same_client (a b : WGClientConfig) : Prop :=
  wgc_enabled a = wgc_enabled b /\ wgc_interface a = wgc_interface b /\ wgc_private_key a = wgc_private_key b
  /\ wgc_address a = wgc_address b /\ wgc_public_key a = wgc_public_key b
  /\ wgc_preshared_key a = wgc_preshared_key b /\ wgc_endpoint a = wgc_endpoint b
  /\ items (wgc_allowed_ips a) = items (wgc_allowed_ips b)
  /\ wgc_persistent_keepalive a = wgc_persistent_keepalive b.

Lemma WGClientConfig_json_inj a b : WGClientConfig_json a = WGClientConfig_json b -> same_client a b.
Proof.
  unfold WGClientConfig_json, opt_str, opt_field. intros E.
  apply (f_equal (fun j => match j with JObj l => l | _ => [] end)) in E. cbv beta iota in E.
  destruct (String.eqb_spec (wgc_private_key a) EmptyString), (String.eqb_spec (wgc_private_key b) EmptyString);
  destruct (String.eqb_spec (wgc_preshared_key a) EmptyString), (String.eqb_spec (wgc_preshared_key b) EmptyString);
  cbn [negb app] in E; try discriminate E;
  injection E; intros; match goal with E : json_list _ _ = json_list _ _ |- _ => apply strings_json_inj in E end;
  unfold same_client; split_and!; congruence.
Qed.

(** A change that needs no confirmation leaves the management path alone.
    When [requires_confirmation] answers false, the LAN address and CIDR, the
    management access mode, the outbound tunnel and the trusted networks are
    the same in both configurations; and if management is restricted to
    WireGuard, so is the encoded WireGuard section. *)
Theorem unconfirmed_change_keeps_management current candidate :
  requires_confirmation current candidate = false ->
  lan_ip_address (c_lan current) = lan_ip_address (c_lan candidate)
  /\ lan_cidr (c_lan current) = lan_cidr (c_lan candidate)
  /\ sys_management_access (c_system current) = sys_management_access (c_system candidate)
  /\ same_client (c_wg_client current) (c_wg_client candidate)
  /\ items (c_trusted_networks current) = items (c_trusted_networks candidate)
  /\ (sys_management_access (c_system candidate) = "wireguard_only" ->
        WireGuardConfig_json (c_wireguard current) = WireGuardConfig_json (c_wireguard candidate))
  /\ (wifi_enabled (c_wifi current) = true \/ wifi_enabled (c_wifi candidate) = true ->
        WiFiConfig_json (c_wifi current) = WiFiConfig_json (c_wifi candidate)).
Proof.
  unfold requires_confirmation. intros E. to_prop.
  repeat match goal with E : equal_section _ _ _ = true |- _ => apply equal_section_spec in E end.
  split_and!; try done.
  - by apply WGClientConfig_json_inj.
  - by apply strings_json_inj.
  - intros Hw. match goal with E : (_ || _) && negb (equal_section WireGuardConfig_json _ _) = false |- _ => rename E into Ew end.
    rewrite Hw, String.eqb_refl, orb_true_r in Ew. cbn in Ew. to_prop. by apply equal_section_spec.
  - intros Hw. match goal with E : negb (equal_section WiFiConfig_json _ _) && _ = false |- _ => rename E into Ew end.
    assert (wifi_enabled (c_wifi current) || wifi_enabled (c_wifi candidate) = true) as Hor
      by (apply orb_true_iff; done).
    rewrite Hor, andb_true_r in Ew. to_prop. by apply equal_section_spec.
Qed.

(** ** The management boundary *)

(** Who may reach the management interface.  A peer string is trusted exactly
    when it names an address (as host:port or alone) that is loopback or that
    one of the configured networks contains; an IPv4-mapped IPv6 peer is judged
    as the IPv4 address it stands for. *)
Theorem trusted_client_iff c remote_addr :
  is_trusted_client_address c remote_addr = true <->
  exists ip, parse_remote_ip remote_addr = Some ip
    /\ (is_loopback (canon ip) = true
        \/ exists network n, network ∈ items (c_trusted_networks c) /\ net_of network n
             /\ net_contains n (canon ip) = true).
Proof.
  unfold is_trusted_client_address. destruct (parse_remote_ip remote_addr) as [ip|].
  - fold (canon ip). rewrite orb_true_iff, existsb_exists. split.
    + intros [L|(network & Hin & Hn)]; exists ip; (split; [done|]); [by left|right].
      destruct (parse_cidr network) as [[ip' n]|] eqn:En; [|done]. exists network, n.
      split; [by apply list_elem_of_In|]. split; [apply net_of_parse; by exists ip'|done].
    + intros (ip' & E & [L|(network & n & Hin & Hn & Hc)]); simplify_eq; [by left|right].
      exists network. split; [by apply list_elem_of_In|]. apply net_of_parse in Hn as [ip0 ->]. done.
  - split; [done|]. by intros (ip & ? & _).
Qed.

(** ** Live candidates *)
Lemma live_candidate_ok {UC : Unicode} {B64 : Base64} candidate previous :
  validate_live_candidate candidate (Some previous) = Ok tt <->
  validate candidate = Ok tt /\ validate_scenario_safety candidate = Ok tt
  /\ validate previous = Ok tt /\ validate_scenario_safety previous = Ok tt.
Proof.
  unfold validate_live_candidate.
  destruct (validate candidate) as [[]|]; cbn; [|by split; [|intros (? & _)]].
  destruct (validate_scenario_safety candidate) as [[]|]; cbn; [|by split; [|intros (_ & ? & _)]].
  destruct (validate previous) as [[]|]; cbn; [|by split; [|intros (_ & _ & ? & _)]].
  destruct (validate_scenario_safety previous) as [[]|]; cbn; [by split|by split; [|intros (_ & _ & _ & ?)]].
Qed.

(** Addresses of a network inside a zone are addresses of the zone. *)
Lemma contained_in_zone s1 ip1 n s2 ip2 zone a :
  parse_cidr s1 = Some (ip1, n) -> parse_cidr s2 = Some (ip2, zone) ->
  network_contained_in n zone = true -> wf_ip a -> net_contains n a = true -> net_contains zone a = true.
Proof.
  intros H1 H2 Hin Wa Ha. unfold network_contained_in in Hin.
  destruct (is_none (to4 (net_ip n)) || is_none (to4 (net_ip zone))); [done|].
  destruct (mask_size (net_mask n)) as [p pb] eqn:E1. destruct (mask_size (net_mask zone)) as [q qb] eqn:E2.
  to_prop. subst pb qb.
  destruct (parse_cidr_block _ _ _ _ H1 E1) as [o1 B1]. destruct (parse_cidr_block _ _ _ _ H2 E2) as [o2 B2].
  pose proof (v4_block_view _ _ _ _ B1) as V1. pose proof (v4_block_view _ _ _ _ B2) as V2.
  destruct (v4_block_ip4 _ _ _ _ B1) as [L1 F1]. destruct (v4_block_ip4 _ _ _ _ B2) as [L2 F2].
  apply (net_contains_spec _ _ _ a V1 Wa) in Ha as [La Pa].
  match goal with E : net_contains zone (net_ip n) = true |- _ =>
    apply (net_contains_spec _ _ _ _ V2) in E as [Ln Pn]; [|by split; [left|]] end.
  unfold canon in Pn. rewrite to4_length4 in Pn by done.
  apply (net_contains_spec _ _ _ a V2 Wa). split; [congruence|]. rewrite <- Pn.
  apply (prefix_of_le q p); [congruence|done| |done]. rewrite La, L1. pose proof (vb_prefix _ _ _ _ B1). lia.
Qed.

(** The three private zones *)
Lemma zone_private a v :
  wf_ip a -> to4 a = Some v ->
  existsb (fun zone => net_contains (snd zone) a)
    (omap parse_cidr ["10.0.0.0/8"; "172.16.0.0/12"; "192.168.0.0/16"]) = true ->
  is_private a = true.
Proof.
  intros [_ Fa] Hv Hz. pose proof (to4_Some _ _ Hv) as (Lv & _ & Fv). specialize (Fv Fa).
  change (omap parse_cidr _) with
    [(ip_v4 10 0 0 0, mkIPNet [10; 0; 0; 0] [255; 0; 0; 0]);
     (ip_v4 172 16 0 0, mkIPNet [172; 16; 0; 0] [255; 240; 0; 0]);
     (ip_v4 192 168 0 0, mkIPNet [192; 168; 0; 0] [255; 255; 0; 0])] in Hz.
  unfold is_private. rewrite Hv. destruct v as [|b0 [|b1 [|b2 [|b3 [|]]]]]; try done.
  inversion Fv as [|? ? F0 Fv1]; subst. inversion Fv1 as [|? ? F1 _]; subst. cbn [octet nth].
  cbn [existsb snd] in Hz. unfold net_contains in Hz. rewrite Hv in Hz.
  cbn -[Z.land] in Hz. rewrite !land_255 in Hz by done.
  change (Z.land 10 255) with 10 in Hz. change (Z.land 172 255) with 172 in Hz.
  change (Z.land 192 255) with 192 in Hz. change (Z.land 168 255) with 168 in Hz.
  change (Z.land 16 240) with 16 in Hz. rewrite !Z.land_0_r in Hz. cbn [Z.eqb andb] in Hz.
  rewrite !andb_true_r, !orb_false_r in Hz.
  rewrite (Z.eqb_sym b0 10), (Z.eqb_sym b0 172), (Z.eqb_sym b0 192), (Z.eqb_sym b1 168),
    (Z.eqb_sym (Z.land b1 240) 16), <- orb_assoc. exact Hz.
Qed.

(** An admitted remote network holds no public IPv4 address. *)
Lemma private_site_addresses s ip n a :
  parse_cidr s = Some (ip, n) -> (to4 (net_ip n) <> None -> is_private_site_network n = true) ->
  wf_ip a -> to4 a <> None -> net_contains n a = true -> is_private a = true.
Proof.
  intros H Hsite Wa Ha Hc. destruct (to4 a) as [v|] eqn:Ev; [|done].
  destruct (to4 (net_ip n)) as [v4|] eqn:E4.
  - specialize (Hsite ltac:(done)). unfold is_private_site_network in Hsite.
    apply existsb_exists in Hsite as ([zip zone] & Hin & Hz). apply (zone_private a v); [done|done|].
    apply existsb_exists. exists (zip, zone). split; [done|]. cbn [snd] in *.
    apply list_elem_of_In, list_elem_of_omap in Hin as (text & _ & Hp).
    by apply (contained_in_zone s ip n text zip zone).
  - unfold net_contains, network_number_and_mask in Hc. rewrite E4, Ev in Hc.
    pose proof (to4_Some _ _ Ev) as (Lv & _). rewrite Lv in Hc.
    destruct (Nat.eqb_spec (List.length (net_ip n)) 16) as [L16|]; [|done]. cbn [negb] in Hc.
    rewrite match_4_16, L16 in Hc. cbn [Nat.eqb negb] in Hc.
    destruct (Nat.eqb (List.length (net_mask n)) 4); [done|].
    destruct (Nat.eqb (List.length (net_mask n)) 16); [|done]. by rewrite L16 in Hc.
Qed.

(** A candidate that passes the scenario checks cannot cut management off.
    No enabled custom rule denies input, and (with the tunnel validated) no
    public IPv4 address is routed into the outbound tunnel: every IPv4 address
    of a remote network is private. *)
Theorem scenario_safe_candidate {UC : Unicode} {B64 : Base64} c :
  validate c = Ok tt -> validate_scenario_safety c = Ok tt ->
  (forall rule, rule ∈ items (fw_custom_rules (c_firewall c)) ->
     rule_enabled rule = true -> rule_direction rule = "input" -> rule_action rule = "allow")
  /\ (wgc_enabled (c_wg_client c) = true ->
      forall i entry n a, items (wgc_allowed_ips (c_wg_client c)) !! i = Some entry -> net_of (trim entry) n ->
        wf_ip a -> to4 a <> None -> net_contains n a = true -> is_private a = true).
Proof.
  intros (lan_ip & ln & A)%validate_accepted Hs. unfold validate_scenario_safety in Hs.
  rewrite into_result_ok in Hs. unfold scenario_errors in Hs. split_errors. split.
  - intros rule [i Hi]%list_elem_of_lookup He Hd.
    match goal with E : each _ (items (fw_custom_rules _)) = [] |- _ =>
      rewrite each_nil in E; specialize (E i rule Hi); rename E into E1 end.
    pose proof (acc_firewall _ _ _ A) as E. unfold validate_firewall in E. split_errors.
    match goal with E : each (validate_custom_rule _ _) _ = [] |- _ =>
      rewrite each_nil in E; specialize (E i rule Hi); unfold validate_custom_rule in E end. split_errors.
    rewrite He, Hd in E1. cbn in E1. to_prop.
    match goal with E : (rule_action rule <>s "allow") && _ = false |- _ =>
      apply andb_false_iff in E as [E|E]; to_prop; [done|by congruence] end.
  - intros He i entry n a Hi [ip Hp]%net_of_parse Wa Ha4 Hc. unfold client_safety_errors in *.
    match goal with E : (if negb (wgc_enabled _) then _ else _) = [] |- _ => rewrite He in E; cbn [negb] in E end.
    split_errors.
    match goal with E : each _ (items (wgc_allowed_ips _)) = [] |- _ =>
      rewrite each_nil in E; specialize (E i entry Hi); rewrite Hp in E; rename E into E1 end.
    apply (private_site_addresses (trim entry) ip n a); try done.
    intros Hn4. apply check_nil in E1. destruct (to4 (net_ip n)) as [v|]; [|done]. cbn in E1. by to_prop.
Qed.

(** ** Migration *)
Lemma be_to_be4 v : 0 <= v < 2 ^ 32 ->
  be (to_be4 v) = v /\ List.length (to_be4 v) = 4%nat /\ Forall byte_ok (to_be4 v).
Proof.
  intros Hv. split; [|split; [done|]].
  - unfold to_be4, be. cbn [fold_left]. change (2 ^ 24) with 16777216. change (2 ^ 16) with 65536.
    change (2 ^ 8) with 256. change (2 ^ 32) with 4294967296 in Hv. dlia.
  - unfold to_be4, byte_ok. repeat (apply List.Forall_cons || apply List.Forall_nil); apply Z.mod_pos_bound; lia.
Qed.

Lemma from_be4_be l : from_be4 l = be l.
Proof. done. Qed.

Lemma be_mask4 p : (p <= 32)%nat -> be (mask_bytes 4 p) = 2 ^ 32 - block_size p.
Proof.
  intros Hp. assert (H : forallb (fun p => be (mask_bytes 4 p) =? 2 ^ 32 - block_size p) (seq 0 33) = true)
    by (vm_compute; reflexivity).
  rewrite forallb_forall in H. apply Z.eqb_eq, H, in_seq. lia.
Qed.

Lemma lor_host k p : (p <= 32)%nat -> 0 <= k ->
  Z.lor (k * block_size p) (block_size p - 1) = k * block_size p + (block_size p - 1).
Proof.
  intros Hp Hk. pose proof (block_size_pos p Hp) as Hs. unfold block_size in *.
  replace (2 ^ (32 - Z.of_nat p) - 1) with (Z.ones (32 - Z.of_nat p)) by (rewrite Z.ones_equiv; lia).
  assert (Hl : Z.land (k * 2 ^ (32 - Z.of_nat p)) (Z.ones (32 - Z.of_nat p)) = 0).
  { rewrite Z.land_ones by lia. apply Z.mod_mul. lia. }
  rewrite <- Z.lxor_lor by done. symmetry. by apply Z.add_nocarry_lxor.
Qed.

(** A block with hosts ends below [2 ^ 32]. *)
Lemma block_room p v : (p <= 30)%nat -> 0 <= v < 2 ^ 32 ->
  block_base p v + block_size p <= 2 ^ 32 /\ 0 <= block_base p v /\ 4 <= block_size p.
Proof.
  intros Hp30 Hv. pose proof (block_size_pos p ltac:(lia)) as Hs.
  assert (H4 : 4 <= block_size p).
  { unfold block_size. change 4 with (2 ^ 2). apply Z.pow_le_mono_r; lia. }
  assert (Hdiv : 2 ^ 32 = 2 ^ Z.of_nat p * block_size p)
    by (unfold block_size; rewrite <- Z.pow_add_r by lia; f_equal; lia).
  split_and!; [|unfold block_base; apply Z.mul_nonneg_nonneg; [apply Z.div_pos; lia|lia]|done].
  unfold block_base. assert (v / block_size p < 2 ^ Z.of_nat p); [|nia].
  apply Z.div_lt_upper_bound; lia.
Qed.

(** The address the migration gives to a block: the first host. *)
Lemma migrate_extra_lan_eq lan ip n o p :
  xl_enabled lan = true -> trim (xl_router_address lan) = EmptyString ->
  parse_cidr (trim (xl_cidr lan)) = Some (ip, n) -> v4_block ip n o p -> (p <= 30)%nat ->
  migrate_extra_lan lan
  = with_router_address lan
      (str_of (show_ipv4 (to_be4 (block_base p (be o) + 1)) ++ "/"%char :: show_nonneg (Z.of_nat p)))
  /\ block_base p (be o) + block_size p <= 2 ^ 32 /\ 0 <= block_base p (be o) /\ 4 <= block_size p.
Proof.
  intros He Hr Hc B Hp30. pose proof (vb_bytes _ _ _ _ B) as Bo. pose proof (vb_length _ _ _ _ B) as Lo.
  pose proof (vb_prefix _ _ _ _ B) as Hp. pose proof (be_range o Bo) as Ro. rewrite Lo in Ro.
  change (256 ^ Z.of_nat 4) with (2 ^ 32) in Ro. pose proof (block_size_pos p Hp) as Hs.
  destruct (block_room p (be o) Hp30 Ro) as (Hb1 & Hb0 & H4).
  split; [|by split_and!]. unfold migrate_extra_lan. rewrite He, Hr, Hc. cbn [negb is_empty String.eqb orb].
  destruct (v4_block_ip4 _ _ _ _ B) as [L4 F4]. rewrite to4_length4 by done.
  pose proof (block_net_ip _ _ _ _ B) as Hnet. pose proof (vb_net _ _ _ _ B) as En.
  assert (Hmask : net_mask n = mask_bytes 4 p) by (by rewrite En). rewrite Hmask.
  unfold mask_size. rewrite simple_mask_length_spec, length_mask_bytes by lia. cbn [Nat.mul Nat.add Nat.eqb negb orb].
  destruct (Nat.leb_spec 31 p); [lia|].
  rewrite take_ge by (rewrite length_mask_bytes; lia). rewrite !from_be4_be, Hnet, be_mask4 by done.
  unfold u32_mod. replace (2 ^ 32 - 1 - (2 ^ 32 - block_size p)) with (block_size p - 1) by lia.
  unfold block_base at 1. rewrite lor_host by (try done; apply Z.div_pos; lia). fold (block_base p (be o)).
  rewrite Z.mod_small by lia. destruct (Z.leb_spec (block_base p (be o) + (block_size p - 1)) (block_base p (be o) + 1)); [lia|].
  f_equal. unfold ip_to_string. rewrite ip_bytes_string_v4 by done.
  unfold show_Z. destruct (Z.ltb_spec (Z.of_nat p) 0); [lia|].
  apply bytes_of_inj. rewrite !bytes_of_app, !bytes_of_str_of. done.
Qed.

(** Migrated segments pass validation.  For an enabled old record without a
    router address whose IPv4 subnet has room for hosts (a prefix of at most
    30), the gateway that [migrate_legacy_fields] fills in is one the validator
    accepts for that subnet. *)
Theorem migrated_router_address_accepted lan ip n p prefix :
  xl_enabled lan = true -> trim (xl_router_address lan) = EmptyString -> trim (xl_cidr lan) = xl_cidr lan ->
  parse_cidr (xl_cidr lan) = Some (ip, n) -> mask_size (net_mask n) = (p, 32%nat) -> (p <= 30)%nat ->
  router_address_errors prefix (migrate_extra_lan lan) n = [].
Proof.
  intros He Hr Ht Hc Hm Hp30. destruct (parse_cidr_block _ _ _ _ Hc Hm) as [o B].
  destruct (migrate_extra_lan_eq lan ip n o p He Hr ltac:(congruence) B Hp30) as (-> & Hb1 & Hb0 & Hs).
  pose proof (vb_prefix _ _ _ _ B) as Hp. set (base := block_base p (be o)) in *.
  destruct (be_to_be4 (base + 1) ltac:(lia)) as (Vg & Lg & Fg). set (g := to_be4 (base + 1)) in *.
  unfold router_address_errors. cbn [with_router_address xl_router_address].
  assert (Hne : is_empty (str_of (show_ipv4 g ++ "/"%char :: show_nonneg (Z.of_nat p))) = false).
  { unfold is_empty. apply String.eqb_neq. intros E. apply (f_equal bytes_of) in E. rewrite bytes_of_str_of in E.
    by destruct (show_ipv4 g). }
  rewrite Hne. unfold parse_cidr. rewrite bytes_of_str_of, parse_cidr_show by done.
  rewrite to4_mapped by done. cbn [is_none negb].
  assert (Hcont : net_contains n (V4_IN_V6_PREFIX ++ g) = true).
  { rewrite <- net_contains_canon, canon_mapped by done. apply (block_contains _ _ _ _ B); [done|done|]. fold base. lia. }
  rewrite Hcont, (block_network_ip4 _ _ _ _ B). destruct (v4_block_ip4 _ _ _ _ B) as [L4 F4].
  destruct (ip_equal (V4_IN_V6_PREFIX ++ g) (net_ip n)) eqn:E1.
  { apply ip_equal_mapped in E1; [|done|done]. pose proof (block_net_ip _ _ _ _ B) as Hn. fold base in Hn.
    rewrite <- E1 in Hn. lia. }
  destruct (block_broadcast _ _ _ _ B) as (b & -> & Lb & Fb & Vb). fold base in Vb. cbn [equal_opt].
  destruct (ip_equal (V4_IN_V6_PREFIX ++ g) b) eqn:E2.
  { apply ip_equal_mapped in E2; [|done|done]. subst b. lia. }
  apply check_nil. rewrite negb_false_iff, String.eqb_eq. f_equal. rewrite (vb_net _ _ _ _ B). f_equal.
  assert (Hb : be (land_bytes g (mask_bytes 4 p)) = base).
  { rewrite be_land_mask by (done || lia). replace (8 * Z.of_nat 4) with 32 by lia. fold (block_size p).
    rewrite Vg. unfold base, block_base. rewrite Z.div_add_l, (Z.div_small 1) by lia. lia. }
  pose proof (block_net_ip _ _ _ _ B) as Hn. rewrite (vb_net _ _ _ _ B) in Hn, L4, F4. cbn [net_ip] in Hn, L4, F4.
  destruct (land_bytes_ok g (mask_bytes 4 p)) as [Ll Fl];
    [done|apply mask_bytes_ok|by rewrite length_mask_bytes|].
  apply be_inj; [done|done|congruence|]. fold base in Hn. congruence.
Qed.

(** *** Accepted configurations need no migration *)

(** The first byte of an address is a digit, a letter or a colon. *)
Definition address_start (l : bytes) : Prop := exists a t, l = a :: t /\ 48 <= bv a < 128.

Lemma read_number_start radix digit k z limit l x :
  (forall a, digit a <> None -> 48 <= bv a < 128) -> read_number radix digit k z limit l = Some x -> address_start l.
Proof.
  intros Hd. unfold read_number. destruct l as [|a t]; cbn; [done|]. destruct (digit a) eqn:Ea; [|done].
  intros _. exists a, t. split; [done|]. apply Hd. congruence.
Qed.
Lemma dec_val_start a : dec_val a <> None -> 48 <= bv a < 128.
Proof. unfold dec_val, is_ascii_digit. destruct (_ && _) eqn:Eb; [|done]. lia. Qed.
Lemma hex_val_start a : hex_val a <> None -> 48 <= bv a < 128.
Proof.
  unfold hex_val, is_ascii_digit. intros Hh.
  repeat match type of Hh with (if ?b then _ else _) <> _ => destruct b eqn:?; [lia|] end. done.
Qed.

Lemma read_ipv4_addr_start l x : read_ipv4_addr l = Some x -> address_start l.
Proof.
  unfold read_ipv4_addr. cbn. destruct (read_number 10 dec_val 3 false 255 l) eqn:En; [|done]. intros _.
  by eapply read_number_start; [apply dec_val_start|exact En].
Qed.

Lemma read_groups_start slots l : fst (fst (read_groups slots 0 l)) = [] /\ snd (read_groups slots 0 l) = l \/ address_start l.
Proof.
  destruct slots as [|slots]; [by left|]. cbn [read_groups read_separator].
  destruct (if Nat.ltb 0 slots then read_ipv4_addr l else None) as [x|] eqn:E4.
  - right. destruct (Nat.ltb 0 slots); [|done]. by eapply read_ipv4_addr_start.
  - destruct (read_number 16 hex_val 4 true 65535 l) as [x|] eqn:En; [|by left].
    right. by eapply read_number_start; [apply hex_val_start|exact En].
Qed.

Lemma parse_ipv6_start l o : parse_ipv6 l = Some o -> address_start l.
Proof.
  unfold parse_ipv6, read_ipv6_addr. destruct (read_groups_start 8 l) as [[Hh Hl]|]; [|done].
  destruct (read_groups 8 0 l) as [[head v4] l1]. cbn [fst snd] in Hh, Hl. subst. cbn [List.length Nat.eqb].
  destruct v4; [done|]. destruct l as [|a t]; [done|]. unfold read_char at 1.
  destruct (Ascii.eqb_spec a ":"%char) as [->|]; [|done].
  intros _. exists ":"%char, t. split; [done|]. vm_compute. split; congruence.
Qed.

Lemma parse_ipv4_start l o : parse_ipv4_strict l = Some o -> address_start l.
Proof.
  unfold parse_ipv4_strict. destruct l as [|a t]; cbn; [done|]. destruct (Ascii.eqb a "."%char); cbn; [done|].
  intros Hp. exists a, t. split; [done|]. apply dec_val_start. unfold dec_val. intros Hd.
  destruct (split_bytes _ t); cbn in Hp; destruct (is_ascii_digit a); cbn in Hp; rewrite ?orb_true_r in Hp; done.
Qed.

Lemma parse_cidr_start s x : parse_cidr s = Some x -> address_start (bytes_of s).
Proof.
  unfold parse_cidr, parse_cidr_bytes. destruct (split_once_bytes _ _) as [[addr mask]|] eqn:Es; [|done]. cbn.
  apply split_once_Some in Es as [-> _]. intros Hp.
  assert (address_start addr) as (a & t & -> & Ha).
  { destruct (has_byte "%"%char addr); [done|]. destruct (parse_ipv4_strict addr) eqn:E4; [by eapply parse_ipv4_start|].
    destruct (has_byte ":"%char addr); [|done]. destruct (parse_ipv6 addr) eqn:E6; [|done]. by eapply parse_ipv6_start. }
  by exists a, (t ++ "/"%char :: mask).
Qed.

Lemma drop_while_snoc {A} (p : A -> bool) l x : p x = false -> exists k, drop_while p (l ++ [x]) = k ++ [x].
Proof.
  intros Hx. induction l as [|y l IH]; cbn; [by rewrite Hx; exists []|]. destruct (p y); [done|by exists (y :: l)].
Qed.

Lemma trim_keeps_start s : address_start (bytes_of s) -> is_empty (trim s) = false.
Proof.
  intros (a & t & Hb & Ha). unfold is_empty, trim, chars. rewrite Hb. cbn [chars_of].
  destruct (Z.ltb_spec (bv a) 128) as [Hlt|]; [|lia]. cbn [drop_while].
  assert (Hw : char_is_whitespace (bv a) = false) by (unfold char_is_whitespace; lia). rewrite Hw. cbn [rev].
  destruct (drop_while_snoc char_is_whitespace (rev (chars_of t)) (bv a) Hw) as [k ->].
  rewrite rev_app_distr. cbn. unfold of_chars. cbn [map concat]. unfold encode_char at 1.
  by destruct (Z.ltb_spec (bv a) 128); [|lia].
Qed.

(** A segment with a router address is left alone. *)
Lemma migrate_extra_lan_id lan x : parse_cidr (xl_router_address lan) = Some x -> migrate_extra_lan lan = lan.
Proof. intros Hp%parse_cidr_start%trim_keeps_start. unfold migrate_extra_lan. by rewrite Hp, orb_true_r. Qed.

Lemma router_address_parses prefix lan n : router_address_errors prefix lan n = [] ->
  exists x, parse_cidr (xl_router_address lan) = Some x.
Proof. unfold router_address_errors. destruct (is_empty _); [done|]. destruct (parse_cidr _); [by eexists|done]. Qed.

Lemma map_id_Forall {A} (f : A -> A) l : Forall (fun x => f x = x) l -> map f l = l.
Proof. induction 1; cbn; congruence. Qed.

Lemma accepted_needs_no_migration {UC : Unicode} {B64 : Base64} c : validate c = Ok tt -> migrate_legacy_fields c = c.
Proof.
  intros (lan_ip & lan_network & A)%validate_accepted.
  destruct (validate_lan_ok _ _ _ (acc_lan _ _ _ A)) as (o & ip & ln & -> & -> & _ & Ec & _).
  pose proof (acc_extra_lans _ _ _ A) as E. unfold validate_extra_lans in E.
  assert (I : Forall (fun x => migrate_extra_lan x = x) ([] ++ items (fw_extra_lans (c_firewall c)))).
  { refine (vloop_inv _ (fun pre _ => Forall (fun x => migrate_extra_lan x = x) pre) _ _ 0%nat [] _ _ E); [|done].
    intros pre i x [seen nets] e st' Hpre Hv ->. apply Forall_app. split; [done|]. apply Forall_singleton.
    unfold validate_extra_lan in Hv. destruct (xl_enabled x) eqn:Hx; cbn [negb] in Hv;
      [|unfold migrate_extra_lan; by rewrite Hx].
    destruct (extra_interface_errors _ _ _ _) as [e1 seen1]. destruct (extra_cidr_errors _ _ _ _ _ _ _) as [e2 nets2] eqn:E2.
    injection Hv as Hv <-. split_errors.
    destruct (extra_cidr_ok _ _ _ _ _ _ _ E2) as (n & _ & _ & _ & _ & _ & Hr); [done|].
    apply router_address_parses in Hr as [y Hy]. by eapply migrate_extra_lan_id. }
  unfold migrate_legacy_fields. cbn [app] in I. rewrite (map_id_Forall _ _ I). by destruct c as [? ? ? ? ? ? ? [? ? ? ? ? []]].
Qed.

(** The factory configuration may go live.  Whatever the clock and the
    Unicode and Base64 libraries answer, the default configuration passes the
    validation and the scenario checks that a live candidate must pass. *)
Theorem default_config_is_live {UC : Unicode} {B64 : Base64} now previous_now :
  validate_live_candidate (default_config now) (Some (default_config previous_now)) = Ok tt.
Proof. apply live_candidate_ok. split_and!; vm_compute; reflexivity. Qed.
