(* ===== verification/Firmware.v ===== *)
(** * Signed releases

    [mr-core/src/firmware/mod.rs]: the signed manifest and its verification
    against the pinned key, the appliance's file roles, the validation of an
    extracted release, and the order of release versions.

    Ed25519 is the class [Ed25519]; an extracted directory is a map from
    relative paths to what [lstat] and SHA-256 say of them. *)

From Stdlib Require Import ZArith Ascii String Lia Bool.
From stdpp Require Import base list strings gmap.
From S2P Require Import Prelude GoStrings Net GoPath Json Model Validation Policy.

Local Open Scope string_scope.
Local Open Scope Z_scope.
Local Open Scope list_scope.

(** [{:?}] of a string: quotes, backslashes and control bytes are escaped;
    printable characters stand for themselves *)
Definition debug_byte (a : ascii) : bytes :=
  if Ascii.eqb a quote_char || Ascii.eqb a backslash then [backslash; a]
  else if bv a =? 9 then [backslash; "t"%char] else if bv a =? 10 then [backslash; "n"%char]
  else if bv a =? 13 then [backslash; "r"%char] else if bv a =? 0 then [backslash; "0"%char]
  else if (bv a <? 32) || (bv a =? 127) then
    backslash :: "u"%char :: "{"%char
      :: (if bv a <? 16 then [hex_digit (bv a)] else show_hex2 (bv a)) ++ ["}"%char]
  else [a].
Definition debug_str (s : string) : string :=
  str_of (quote_char :: concat (map debug_byte (bytes_of s)) ++ [quote_char]).

(** ** Release versions *)

(** [^v?[0-9]+\.[0-9]+\.[0-9]+(?:[-+][A-Za-z0-9.-]+)?$]; the digits are maximal
    runs, so the expression has one way to match. *)
Definition digits_then (l : bytes) : option bytes :=
  match take_while is_ascii_digit l with [] => None | _ => Some (drop_while is_ascii_digit l) end.
Definition digits_dot (l : bytes) : option bytes :=
  match digits_then l with Some (a :: t) => if Ascii.eqb a "."%char then Some t else None | _ => None end.
Definition version_suffix (l : bytes) : bool :=
  match l with
  | [] => true
  | a :: t =>
      (Ascii.eqb a "-"%char || Ascii.eqb a "+"%char)
      && match t with [] => false | _ => forallb (alnum_or ["."%char; "-"%char]) t end
  end.
Definition strip_v (l : bytes) : bytes := match l with a :: t => if Ascii.eqb a "v"%char then t else l | [] => l end.
Definition release_pattern (l : bytes) : bool :=
  match (let! l1 := digits_dot (strip_v l) in let! l2 := digits_dot l1 in digits_then l2) with
  | Some rest => version_suffix rest
  | None => false
  end.
Definition RELEASE_VERSION_PATTERN (s : string) : bool := release_pattern (bytes_of s).
Definition is_release_version (value : string) : bool := RELEASE_VERSION_PATTERN value.

Record ParsedReleaseVersion := mkParsed { pv_core : list bytes; pv_prerelease : list bytes }.

Definition invalid_version : error := Errorf "invalid release version".

(** [value.find(sep)]: what is before the separator and what is after it *)
Definition cut (sep : ascii) (l : bytes) : bytes * bytes := default (l, []) (split_once_bytes sep l).

Definition parse_release_version (value : string) : result ParsedReleaseVersion error :=
  if negb (RELEASE_VERSION_PATTERN value) then Err invalid_version
  else
    let l := fst (cut "+"%char (strip_v (bytes_of value))) in
    let '(l, pre) := cut "-"%char l in
    let parts := split_bytes "."%char l in
    if negb (Nat.eqb (List.length parts) 3) then Err invalid_version
    else Ok (mkParsed parts (match pre with [] => [] | _ => split_bytes "."%char pre end)).

Definition numeric_identifier (l : bytes) : bool :=
  match l with [] => false | _ => forallb is_ascii_digit l end.

(** [str::cmp] *)
Fixpoint bytes_cmp (a b : bytes) : comparison :=
  match a, b with
  | [], [] => Eq
  | [], _ :: _ => Lt
  | _ :: _, [] => Gt
  | x :: a', y :: b' => match Z.compare (bv x) (bv y) with Eq => bytes_cmp a' b' | c => c end
  end.

Definition trim_zeros (l : bytes) : bytes :=
  match drop_while (fun a => Ascii.eqb a "0"%char) l with [] => ["0"%char] | v => v end.

Definition compare_numeric_strings (left right : bytes) : comparison :=
  let l := trim_zeros left in
  let r := trim_zeros right in
  match Nat.compare (List.length l) (List.length r) with Eq => bytes_cmp l r | c => c end.

(** [o as i32] *)
Definition to_int (c : comparison) : Z := match c with Lt => -1 | Eq => 0 | Gt => 1 end.

(** The loop over the three core numbers *)
Fixpoint compare_cores (a b : list bytes) : comparison :=
  match a, b with
  | x :: a', y :: b' => match compare_numeric_strings x y with Eq => compare_cores a' b' | c => c end
  | _, _ => Eq
  end.

Definition compare_identifiers (l r : bytes) : comparison :=
  match numeric_identifier l, numeric_identifier r with
  | true, true => compare_numeric_strings l r
  | true, false => Lt
  | false, true => Gt
  | false, false => bytes_cmp l r
  end.

(** The loop over the zipped identifiers, then the lengths *)
Fixpoint compare_zipped (a b : list bytes) : comparison :=
  match a, b with
  | x :: a', y :: b' => match compare_identifiers x y with Eq => compare_zipped a' b' | c => c end
  | _, _ => Eq
  end.
Definition compare_prereleases (a b : list bytes) : comparison :=
  match a, b with
  | [], [] => Eq
  | [], _ => Gt
  | _, [] => Lt
  | _, _ => match compare_zipped a b with Eq => Nat.compare (List.length a) (List.length b) | c => c end
  end.

Definition compare_release_versions (left right : string) : result Z error :=
  let? a := parse_release_version left in
  let? b := parse_release_version right in
  Ok (to_int (match compare_cores (pv_core a) (pv_core b) with
              | Eq => compare_prereleases (pv_prerelease a) (pv_prerelease b)
              | c => c
              end)).

Definition validate_forward_upgrade (candidate current : string) : result unit error :=
  if is_empty current then Ok tt
  else
    let? c := compare_release_versions candidate current in
    if c <=? 0 then
      Err (Errorf "refusing non-forward update; use the explicit rollback command to return to the previous release")
    else Ok tt.

Example release_version_precedence :
  compare_release_versions "v0.2.1" "0.2.0" = Ok 1 /\ compare_release_versions "0.2.0-rc.1" "0.2.0" = Ok (-1)
  /\ compare_release_versions "0.2.0-rc.2" "0.2.0-rc.10" = Ok (-1) /\ compare_release_versions "0.2.0-alpha" "0.2.0-1" = Ok 1
  /\ compare_release_versions "1.0.0+build.5" "1.0.0" = Ok 0 /\ is_ok (compare_release_versions "1.0" "1.0.0") = false
  /\ is_ok (validate_forward_upgrade "0.2.0" "0.2.0") = false.
Proof. vm_compute. done. Qed.

(** ** The signed manifest *)

(** [files] is a [BTreeMap] in an [Option]: its entries in key order *)
Record FirmwareManifest := mkManifest {
  fm_version : string;
  fm_build_date : string;
  fm_git_commit : string;
  fm_files : option (list (string * string));
  fm_signature : string;
  fm_public_key : string;
}.
Definition files (m : FirmwareManifest) : list (string * string) := default [] (fm_files m).
Definition contains_file (m : FirmwareManifest) (path : string) : bool := existsb (fun p => fst p =s path) (files m).

(** The canonical payload: [json::marshal] of the four signed fields *)
Definition payload_json (m : FirmwareManifest) : json :=
  JObj [("version", JStr (fm_version m)); ("build_date", JStr (fm_build_date m)); ("git_commit", JStr (fm_git_commit m));
        ("files", match fm_files m with
                  | None => JNull
                  | Some l => JObj (map (fun p => (fst p, JStr (snd p))) l)
                  end)].
Definition signed_payload (m : FirmwareManifest) : bytes := marshal (payload_json m).

(** [hex::decode] *)
Fixpoint hex_decode (l : bytes) : option (list Z) :=
  match l with
  | [] => Some []
  | a :: b :: t =>
      let! x := hex_val a in
      let! y := hex_val b in
      let! rest := hex_decode t in
      Some (x * 16 + y :: rest)
  | [_] => None
  end.

(** [VerifyingKey::from_bytes] and [verify] *)
Class Ed25519 := ed25519_verify : list Z -> bytes -> list Z -> bool.

Definition ErrInvalidPublicKey : error := ESentinel "invalid trusted public key (must be 32 bytes Ed25519)".
Definition ErrUntrustedPublicKey : error := ESentinel "manifest signer does not match the pinned firmware key".
Definition ErrInvalidSignatureFormat : error := ESentinel "invalid signature format (must be 64 bytes Ed25519)".
Definition ErrInvalidSignature : error := ESentinel "invalid firmware signature".

Definition verify_manifest `{Ed25519} (manifest : option FirmwareManifest) (trusted_key : list Z) : result unit error :=
  if negb (Nat.eqb (List.length trusted_key) 32) then Err ErrInvalidPublicKey
  else
    match manifest with
    | None => Err (Errorf "incomplete firmware manifest")
    | Some m =>
        if is_empty (fm_version m) || match files m with [] => true | _ => false end then
          Err (Errorf "incomplete firmware manifest")
        else if negb (is_empty (fm_public_key m))
                && negb (match hex_decode (bytes_of (fm_public_key m)) with
                         | Some c => Nat.eqb (List.length c) 32 && bool_decide (c = trusted_key)
                         | None => false
                         end)
        then Err ErrUntrustedPublicKey
        else
          match hex_decode (bytes_of (fm_signature m)) with
          | Some s =>
              if Nat.eqb (List.length s) 64 then
                if ed25519_verify trusted_key (signed_payload m) s then Ok tt else Err ErrInvalidSignature
              else Err ErrInvalidSignatureFormat
          | None => Err ErrInvalidSignatureFormat
          end
    end.

(** ** Signing *)

(** [SigningKey::from_bytes]: the public key of a seed, and its signatures *)
Class Ed25519Sign := {
  ed25519_public : list Z -> list Z;
  ed25519_sign : list Z -> bytes -> list Z;
}.

(** [hex::encode] *)
Definition hex_encode (l : list Z) : string := str_of (concat (map show_hex2 l)).

Definition with_signature (m : FirmwareManifest) (signature public_key : string) : FirmwareManifest :=
  mkManifest (fm_version m) (fm_build_date m) (fm_git_commit m) (fm_files m) signature public_key.

(** The seed half of a 64-byte private key *)
Definition signing_key (private_key : list Z) : result (list Z) error :=
  if negb (Nat.eqb (List.length private_key) 64) then
    Err (Errorf ("ed25519: bad private key length: " +:+ show_Z (Z.of_nat (List.length private_key))))
  else Ok (take 32 private_key).

Definition sign_manifest `{Ed25519Sign} (m : FirmwareManifest) (private_key : list Z) : result FirmwareManifest error :=
  let? seed := signing_key private_key in
  Ok (with_signature m (hex_encode (ed25519_sign seed (signed_payload m))) (hex_encode (ed25519_public seed))).

(** The walk of a directory in lexical order: each entry that is not a
    directory, with the digest of a regular file *)
Fixpoint walk_digests (l : list (string * option (result (list Z) error))) : result (list (string * string)) error :=
  match l with
  | [] => Ok []
  | (path, None) :: _ => Err (Errorf ("firmware contains non-regular file: " +:+ path))
  | (path, Some digest) :: rest =>
      let? d := digest in
      let? files := walk_digests rest in
      Ok ((path, hex_encode d) :: files)
  end.
Definition sign_firmware `{Ed25519Sign} (entries : list (string * option (result (list Z) error))) (private_key : list Z)
  : result FirmwareManifest error :=
  let? files := walk_digests entries in
  sign_manifest (mkManifest "1.0.0" "2024-01-01T00:00:00Z" "unknown" (Some files) EmptyString EmptyString) private_key.

(** [data] is the content of the key file, or why it cannot be read. *)
Definition load_trusted_public_key (data : result string error) : result (list Z) error :=
  let? text := data in
  match hex_decode (bytes_of (trim text)) with
  | Some k => if Nat.eqb (List.length k) 32 then Ok k else Err ErrInvalidPublicKey
  | None => Err ErrInvalidPublicKey
  end.

(** ** File roles *)
Record StaticRole := mkRole {
  role_path : string;
  role_system_path : string;
  role_mode : Z;
  role_required : bool;
  role_architecture_binary : bool;
  role_bootstrap : bool;
}.
Definition role (path system_path : string) (mode : Z) (architecture_binary bootstrap : bool) : StaticRole :=
  mkRole path system_path mode true architecture_binary bootstrap.

Definition SUPPORTED_ARCHITECTURES : list string := ["amd64"; "arm64"].

(** Modes are octal in the code: 0o644 = 420, 0o755 = 493, 0o750 = 488. *)
Definition APPLIANCE_FILE_ROLES : list StaticRole := [
  role "web/dist/index.html" "" 420 false false;
  role "compatibility.json" "/etc/minimalrouter/compatibility.json" 420 false false;
  role "slot-exec" "/usr/libexec/minimalrouter/slot-exec" 493 false false;
  role "firstboot" "/usr/libexec/minimalrouter/firstboot" 493 false false;
  role "init.d/minimalrouter-firstboot" "/etc/init.d/minimalrouter-firstboot" 493 false false;
  role "firstboot-ready" "/usr/libexec/minimalrouter/firstboot-ready" 493 false false;
  role "install.sh" "" 493 false false;
  role "install-core.sh" "" 493 false false;
  role "init.d/routerd" "/etc/init.d/routerd" 493 false false;
  role "init.d/router-applyd" "/etc/init.d/router-applyd" 493 false false;
  role "init.d/pppoe-wan" "/etc/init.d/pppoe-wan" 493 false false;
  role "sysctl/99-minimalrouter.conf" "/etc/sysctl.d/99-minimalrouter.conf" 420 false false;
  role "modules/minimalrouter.conf" "/etc/modules-load.d/minimalrouter.conf" 420 false false;
  role "logrotate/minimalrouter" "/etc/logrotate.d/minimalrouter" 420 false false;
  role "ip-up.d-minimalrouter-qos" "/etc/ppp/ip-up.d/minimalrouter-qos" 493 false false;
  role "bin/routerd-{arch}" "" 493 true false;
  role "bin/router-applyd-{arch}" "" 493 true false;
  role "bin/router-recovery-{arch}" "/usr/libexec/minimalrouter/bootstrap/bin/router-recovery-{arch}" 493 true true;
  role "bin/router-update-{arch}" "/usr/libexec/minimalrouter/bootstrap/bin/router-update-{arch}" 488 true true;
  role "bin/router-setup-{arch}" "/usr/sbin/router-setup" 493 true true ].

(** [s.replace(p, by)] for a nonempty pattern; [fuel] bounds the copies *)
Fixpoint replace_bytes (fuel : nat) (p by_ l : bytes) : bytes :=
  match fuel with
  | O => l
  | S fuel' =>
      match strip_prefix_bytes p l with
      | Some rest => by_ ++ replace_bytes fuel' p by_ rest
      | None => match l with [] => [] | a :: t => a :: replace_bytes fuel' p by_ t end
      end
  end.
Definition replace_str (p by_ s : string) : string :=
  str_of (replace_bytes (S (String.length s)) (bytes_of p) (bytes_of by_) (bytes_of s)).

Definition resolved (arch : string) (r : StaticRole) : StaticRole :=
  mkRole (replace_str "{arch}" arch (role_path r)) (replace_str "{arch}" arch (role_system_path r)) (role_mode r)
    (role_required r) (role_architecture_binary r) (role_bootstrap r).
Definition appliance_file_roles (arch : string) : result (list StaticRole) error :=
  if (arch <>s "amd64") && (arch <>s "arm64") then Err (Errorf ("unsupported update architecture " +:+ debug_str arch))
  else Ok (map (resolved arch) APPLIANCE_FILE_ROLES).

(** One architecture of the loop: an error, or whether its set is complete *)
Definition architecture_set (m : FirmwareManifest) (arch : string) : result bool error :=
  let? roles := appliance_file_roles arch in
  let binaries := List.filter (fun r => role_required r && role_architecture_binary r) roles in
  let present := existsb (fun r => contains_file m (role_path r)) binaries in
  let complete := forallb (fun r => contains_file m (role_path r)) binaries in
  if present && negb complete then Err (Errorf "incomplete appliance payload: architecture binary set is partial")
  else Ok complete.

Fixpoint complete_architectures (m : FirmwareManifest) (archs : list string) : result nat error :=
  match archs with
  | [] => Ok 0%nat
  | arch :: rest =>
      let? complete := architecture_set m arch in
      let? n := complete_architectures m rest in
      Ok (if complete then S n else n)
  end.

Definition validate_appliance_payload (manifest : option FirmwareManifest) : result unit error :=
  match manifest with
  | None => Err (Errorf "missing appliance manifest")
  | Some m =>
      match List.find (fun r => role_required r && negb (role_architecture_binary r) && negb (contains_file m (role_path r)))
              APPLIANCE_FILE_ROLES with
      | Some r => Err (Errorf ("incomplete appliance payload: missing " +:+ role_path r))
      | None =>
          let? n := complete_architectures m SUPPORTED_ARCHITECTURES in
          if negb (Nat.eqb n 1) then
            Err (Errorf "incomplete appliance payload: exactly one supported architecture binary set is required")
          else Ok tt
      end
  end.

Definition appliance_file_mode (path : string) : Z :=
  match (match List.find (fun r => path =s replace_str "{arch}" "amd64" (role_path r)) APPLIANCE_FILE_ROLES with
         | Some r => Some r
         | None => List.find (fun r => path =s replace_str "{arch}" "arm64" (role_path r)) APPLIANCE_FILE_ROLES
         end) with
  | Some r => role_mode r
  | None => if (dir path =s "bin") || starts_with "init.d/" path then 493 else 420
  end.

(** ** An extracted release *)

(** What a regular file is to the checks; other entries and missing ones are
    [None] *)
Record FileInfo := mkFile { fi_mode : Z; fi_sha256 : option (list Z) }.
Definition Tree : Type := string -> option FileInfo.

(** One file of [verify_firmware] *)
Definition verify_file (tree : Tree) (relative expected_hash : string) : result unit error :=
  let cleaned := clean relative in
  if (cleaned =s ".") || is_abs cleaned || (cleaned <>s relative) || starts_with "../" cleaned then
    Err (Errorf ("unsafe firmware path: " +:+ debug_str relative))
  else
    match hex_decode (bytes_of expected_hash) with
    | Some expected =>
        if negb (Nat.eqb (List.length expected) 32) then Err (Errorf ("invalid hash for " +:+ relative))
        else
          match tree cleaned with
          | None => Err (Errorf ("file missing or unsafe: " +:+ relative))
          | Some f =>
              match fi_sha256 f with
              | None => Err (Errorf ("file missing: " +:+ relative))
              | Some actual =>
                  if bool_decide (actual = expected) then Ok tt else Err (Errorf ("hash mismatch for " +:+ relative))
              end
          end
    | None => Err (Errorf ("invalid hash for " +:+ relative))
    end.

Fixpoint verify_files (tree : Tree) (l : list (string * string)) : result unit error :=
  match l with
  | [] => Ok tt
  | (relative, hash) :: rest => let? _ := verify_file tree relative hash in verify_files tree rest
  end.

Definition verify_firmware `{Ed25519} (tree : Tree) (manifest : option FirmwareManifest) (trusted_key : list Z)
  : result unit error :=
  let? _ := verify_manifest manifest trusted_key in
  verify_files tree (match manifest with Some m => files m | None => [] end).

Fixpoint check_modes (tree : Tree) (paths : list string) : result unit error :=
  match paths with
  | [] => Ok tt
  | relative :: rest =>
      match tree relative with
      | None => Err (Errorf ("appliance executable is missing or unsafe: " +:+ relative))
      | Some f =>
          let mode := fi_mode f in
          let required := Z.land (appliance_file_mode relative) 365 in
          if negb (Z.land (Z.land mode 511) required =? required) || negb (Z.land mode 18 =? 0)
             || negb (Z.land mode 3584 =? 0)
          then Err (Errorf ("appliance file has unsafe runtime permissions: " +:+ relative))
          else check_modes tree rest
      end
  end.

Definition validate_appliance_file_modes (tree : Tree) (manifest : option FirmwareManifest) : result unit error :=
  let? _ := validate_appliance_payload manifest in
  check_modes tree (map fst (match manifest with Some m => files m | None => [] end)).

Definition validate_appliance_architecture (manifest : option FirmwareManifest) (arch : string) : result unit error :=
  match manifest with
  | None => Err (Errorf "missing appliance manifest")
  | Some m =>
      let? roles := appliance_file_roles arch in
      if forallb (fun r => contains_file m (role_path r))
           (List.filter (fun r => role_architecture_binary r && role_required r) roles)
      then Ok tt
      else Err (Errorf ("signed appliance is not built for " +:+ arch))
  end.

Definition validate_release_candidate_for_arch `{Ed25519} (tree : Tree) (manifest : option FirmwareManifest)
  (trusted_key : list Z) (arch : string) : result unit error :=
  let? _ := map_err (Wrapf "verify signed release") (verify_firmware tree manifest trusted_key) in
  let? _ := map_err (Wrapf "validate appliance layout") (validate_appliance_file_modes tree manifest) in
  map_err (Wrapf "validate appliance architecture") (validate_appliance_architecture manifest arch).
