(* ===== verification/FirmwareSpec.v ===== *)
(** * Releases: the order of versions and what verification establishes *)

From Stdlib Require Import ZArith Ascii String Lia Bool.
From stdpp Require Import base list strings gmap.
From S2P Require Import Prelude GoStrings Net NetSpec GoPath Json Model Validation ValidationSpec Policy Firmware.

Local Open Scope string_scope.
Local Open Scope Z_scope.
Local Open Scope list_scope.

(** ** Lawful comparisons *)
Class Lawful {A : Type} (cmp : A -> A -> comparison) : Prop := {
  lf_eq x y : cmp x y = Eq <-> x = y;
  lf_sym x y : cmp y x = CompOpp (cmp x y);
  lf_trans x y z : cmp x y = Lt -> cmp y z = Lt -> cmp x z = Lt;
}.

(** Lexicographic on pairs and on lists *)
Definition pair_cmp {A B} (ca : A -> A -> comparison) (cb : B -> B -> comparison) (x y : A * B) : comparison :=
  match ca (fst x) (fst y) with Eq => cb (snd x) (snd y) | c => c end.
Fixpoint list_cmp {A} (cmp : A -> A -> comparison) (a b : list A) : comparison :=
  match a, b with
  | [], [] => Eq
  | [], _ :: _ => Lt
  | _ :: _, [] => Gt
  | x :: a', y :: b' => match cmp x y with Eq => list_cmp cmp a' b' | c => c end
  end.

#[export] Instance Z_lawful : Lawful Z.compare.
Proof.
  split.
  - apply Z.compare_eq_iff.
  - intros x y. apply Z.compare_antisym.
  - intros x y z. rewrite !Z.compare_lt_iff. lia.
Qed.

Section Lex.
Context {A B : Type} (ca : A -> A -> comparison) (cb : B -> B -> comparison) `{!Lawful ca, !Lawful cb}.

Lemma lf_refl x : ca x x = Eq.
Proof. by apply lf_eq. Qed.

#[export] Instance pair_lawful : Lawful (pair_cmp ca cb).
Proof.
  unfold pair_cmp. split.
  - intros [a b] [a' b']. cbn. destruct (ca a a') eqn:Ea.
    + apply lf_eq in Ea. subst. rewrite lf_eq. naive_solver.
    + split; [done|]. intros Hq. simplify_eq. by rewrite lf_refl in Ea.
    + split; [done|]. intros Hq. simplify_eq. by rewrite lf_refl in Ea.
  - intros [a b] [a' b']. cbn. rewrite (lf_sym a a'). destruct (ca a a'); [apply lf_sym|done|done].
  - intros [a b] [a' b'] [a'' b'']. cbn. destruct (ca a a') eqn:E1; [|intros _|done].
    + apply lf_eq in E1. subst. destruct (ca a' a''); [|done|done]. apply lf_trans.
    + destruct (ca a' a'') eqn:E2; [|intros _|done].
      * apply lf_eq in E2. subst. by rewrite E1.
      * by rewrite (lf_trans a a' a'').
Qed.

#[export] Instance list_lawful : Lawful (list_cmp ca).
Proof.
  split.
  - intros x. induction x as [|a x IH]; intros [|b y]; cbn; try done. destruct (ca a b) eqn:Ea.
    + apply lf_eq in Ea. subst. rewrite IH. naive_solver.
    + split; [done|]. intros Hq. simplify_eq. by rewrite lf_refl in Ea.
    + split; [done|]. intros Hq. simplify_eq. by rewrite lf_refl in Ea.
  - intros x. induction x as [|a x IH]; intros [|b y]; cbn; try done. rewrite (lf_sym a b). by destruct (ca a b); [apply IH|..].
  - intros x. induction x as [|a x IH]; intros [|b y] [|c z]; cbn; try done. destruct (ca a b) eqn:E1; [|intros _|done].
    + apply lf_eq in E1. subst. destruct (ca b c); [apply IH|done|done].
    + destruct (ca b c) eqn:E2; [|intros _|done].
      * apply lf_eq in E2. subst. by rewrite E1.
      * by rewrite (lf_trans a b c).
Qed.
End Lex.

(** ** Numbers as text *)
Lemma digits_val_cons a l : digits_val (a :: l) = digit_val a * 10 ^ Z.of_nat (List.length l) + digits_val l.
Proof.
  unfold digits_val. cbn [fold_left]. rewrite Z.mul_0_l, Z.add_0_l. generalize (digit_val a) as n.
  induction l as [|b l IH]; intros n; cbn [fold_left List.length].
  - rewrite Z.pow_0_r. lia.
  - rewrite IH, (IH (0 * 10 + digit_val b)), Nat2Z.inj_succ, Z.pow_succ_r by lia. lia.
Qed.

Lemma digits_val_bounds l : forallb is_ascii_digit l = true -> 0 <= digits_val l < 10 ^ Z.of_nat (List.length l).
Proof.
  induction l as [|a l IH]; intros Hl; [done|]. cbn in Hl. to_prop. specialize (IH H0). rewrite digits_val_cons.
  cbn [List.length]. rewrite Nat2Z.inj_succ, Z.pow_succ_r by lia.
  assert (0 <= digit_val a <= 9) by (unfold is_ascii_digit, digit_val in *; lia). nia.
Qed.

Lemma bytes_cmp_digits a b : forallb is_ascii_digit a = true -> forallb is_ascii_digit b = true ->
  List.length a = List.length b -> bytes_cmp a b = Z.compare (digits_val a) (digits_val b).
Proof.
  revert b. induction a as [|x a IH]; intros [|y b] Ha Hb Hl; try done. cbn in Ha, Hb, Hl. injection Hl as Hl. to_prop.
  rewrite !digits_val_cons, <- Hl. cbn [bytes_cmp].
  pose proof (digits_val_bounds a ltac:(done)) as Ba. pose proof (digits_val_bounds b ltac:(done)) as Bb. rewrite <- Hl in Bb.
  set (p := 10 ^ Z.of_nat (List.length a)) in *. assert (Hx : digit_val x = bv x - 48) by done. assert (Hy : digit_val y = bv y - 48) by done.
  destruct (Z.compare_spec (bv x) (bv y)) as [Heq|Hlt|Hgt].
  - rewrite IH by done. replace (digit_val y) with (digit_val x) by lia. symmetry. apply Z.add_compare_mono_l.
  - symmetry. apply Z.compare_lt_iff. nia.
  - symmetry. apply Z.compare_gt_iff. nia.
Qed.

Lemma trim_zeros_ok l : forallb is_ascii_digit l = true ->
  digits_val (trim_zeros l) = digits_val l /\ forallb is_ascii_digit (trim_zeros l) = true
  /\ (trim_zeros l = ["0"%char] \/ 10 ^ Z.of_nat (List.length (trim_zeros l) - 1) <= digits_val (trim_zeros l)).
Proof.
  unfold trim_zeros. induction l as [|a l IH]; intros Hl; [by split_and!; [| |left]|]. cbn [drop_while]. cbn in Hl. to_prop.
  destruct (Ascii.eqb_spec a "0"%char) as [->|Hne].
  - destruct (IH H0) as (H1 & H2 & H3). rewrite digits_val_cons. change (digit_val "0"%char) with 0. by rewrite Z.mul_0_l, Z.add_0_l.
  - split_and!; [done|cbn; by rewrite H, H0|]. right. cbn [List.length]. rewrite Nat.sub_1_r, Nat.pred_succ, digits_val_cons.
    pose proof (digits_val_bounds l H0). assert (1 <= digit_val a); [|nia].
    assert (bv a <> 48). { intros Hb. apply Hne. by apply bv_inj. } unfold is_ascii_digit, digit_val in *. lia.
Qed.

(** Comparing trimmed texts compares the numbers, however long they are. *)
Lemma compare_numeric_val l r : forallb is_ascii_digit l = true -> forallb is_ascii_digit r = true ->
  compare_numeric_strings l r = Z.compare (digits_val l) (digits_val r).
Proof.
  intros Hl Hr. unfold compare_numeric_strings. destruct (trim_zeros_ok l Hl) as (<- & Dl & Ml).
  destruct (trim_zeros_ok r Hr) as (<- & Dr & Mr). set (a := trim_zeros l) in *. set (b := trim_zeros r) in *.
  pose proof (digits_val_bounds a Dl) as Ba. pose proof (digits_val_bounds b Dr) as Bb.
  assert (Hlow : forall (x y : bytes), (List.length x < List.length y)%nat -> (y = ["0"%char] \/ 10 ^ Z.of_nat (List.length y - 1) <= digits_val y) ->
    x <> [] -> 10 ^ Z.of_nat (List.length x) <= digits_val y).
  { intros x y Hxy [->|Hy] Hx; [destruct x; cbn in *; [done|lia]|]. etransitivity; [|exact Hy]. apply Z.pow_le_mono_r; lia. }
  assert (Ha0 : a <> []) by (unfold a, trim_zeros; by destruct (drop_while _ l)).
  assert (Hb0 : b <> []) by (unfold b, trim_zeros; by destruct (drop_while _ r)).
  destruct (Nat.compare_spec (List.length a) (List.length b)) as [He|Hlt|Hgt].
  - by apply bytes_cmp_digits.
  - symmetry. apply Z.compare_lt_iff. specialize (Hlow a b Hlt Mr Ha0). lia.
  - symmetry. apply Z.compare_gt_iff. specialize (Hlow b a Hgt Ml Hb0). lia.
Qed.

(** ** Versions as keys *)
Inductive identifier := Numeric (n : Z) | Textual (s : bytes).
Definition identifier_cmp (a b : identifier) : comparison :=
  match a, b with
  | Numeric m, Numeric n => Z.compare m n
  | Numeric _, Textual _ => Lt
  | Textual _, Numeric _ => Gt
  | Textual s, Textual t => list_cmp (fun x y => Z.compare (bv x) (bv y)) s t
  end.
(** A release outranks its prereleases. *)
Definition prerelease_cmp (a b : list identifier) : comparison :=
  match a, b with
  | [], [] => Eq
  | [], _ => Gt
  | _, [] => Lt
  | _, _ => list_cmp identifier_cmp a b
  end.
Definition key : Type := list Z * list identifier.
Definition key_cmp : key -> key -> comparison := pair_cmp (list_cmp Z.compare) prerelease_cmp.

#[export] Instance byte_lawful : Lawful (fun x y => Z.compare (bv x) (bv y)).
Proof.
  split.
  - intros x y. rewrite Z.compare_eq_iff. split; [apply bv_inj|by intros ->].
  - intros x y. apply Z.compare_antisym.
  - intros x y z. rewrite !Z.compare_lt_iff. lia.
Qed.
#[export] Instance identifier_lawful : Lawful identifier_cmp.
Proof.
  split.
  - intros [m|s] [n|t]; cbn; try done; rewrite lf_eq; naive_solver.
  - intros [m|s] [n|t]; cbn; try done; apply lf_sym.
  - intros [m|s] [n|t] [o|u]; cbn; try done; apply lf_trans.
Qed.
#[export] Instance prerelease_lawful : Lawful prerelease_cmp.
Proof.
  split.
  - intros [|x a] [|y b]; try done. apply (lf_eq (cmp := list_cmp identifier_cmp)).
  - intros [|x a] [|y b]; try done. apply (lf_sym (cmp := list_cmp identifier_cmp)).
  - intros [|x a] [|y b] [|z c]; try done. apply (lf_trans (cmp := list_cmp identifier_cmp)).
Qed.
#[export] Instance key_lawful : Lawful key_cmp.
Proof. apply _. Qed.

Definition identifier_of (l : bytes) : identifier := if numeric_identifier l then Numeric (digits_val l) else Textual l.
Definition key_of (v : ParsedReleaseVersion) : key := (map digits_val (pv_core v), map identifier_of (pv_prerelease v)).
Definition version_key (s : string) : option key :=
  match parse_release_version s with Ok v => Some (key_of v) | Err _ => None end.

Lemma bytes_cmp_list a b : bytes_cmp a b = list_cmp (fun x y => Z.compare (bv x) (bv y)) a b.
Proof. revert b. induction a as [|x a IH]; intros [|y b]; cbn; try done. by rewrite IH. Qed.

Lemma compare_identifiers_key l r : compare_identifiers l r = identifier_cmp (identifier_of l) (identifier_of r).
Proof.
  unfold compare_identifiers, identifier_of.
  destruct (numeric_identifier l) eqn:El, (numeric_identifier r) eqn:Er; cbn; try done.
  - destruct l, r; try done. by apply compare_numeric_val.
  - apply bytes_cmp_list.
Qed.

Lemma compare_prereleases_key a b : compare_prereleases a b = prerelease_cmp (map identifier_of a) (map identifier_of b).
Proof.
  assert (Hz : match compare_zipped a b with Eq => Nat.compare (List.length a) (List.length b) | c => c end
    = list_cmp identifier_cmp (map identifier_of a) (map identifier_of b)).
  { revert b. induction a as [|x a IH]; intros [|y b]; try done. cbn. rewrite compare_identifiers_key.
    destruct (identifier_cmp _ _); [apply IH|done|done]. }
  by destruct a, b.
Qed.

(** The core of a parsed version is three runs of digits. *)
Lemma digits_then_split l rest : digits_then l = Some rest ->
  exists ds, l = ds ++ rest /\ ds <> [] /\ forallb is_ascii_digit ds = true.
Proof.
  unfold digits_then. intros Hq. exists (take_while is_ascii_digit l).
  destruct (take_while is_ascii_digit l) eqn:E; [done|]. injection Hq as <-. rewrite <- E.
  split_and!; [symmetry; apply take_drop_while|by rewrite E|apply take_while_forallb].
Qed.

Lemma digits_dot_split l rest : digits_dot l = Some rest ->
  exists ds, l = ds ++ "."%char :: rest /\ ds <> [] /\ forallb is_ascii_digit ds = true.
Proof.
  unfold digits_dot. destruct (digits_then l) as [[|a t]|] eqn:E; [done| |done].
  destruct (Ascii.eqb_spec a "."%char) as [->|]; [|done]. intros Hq. injection Hq as <-.
  by apply digits_then_split in E.
Qed.

Lemma release_pattern_shape l : release_pattern l = true ->
  exists x y z rest, strip_v l = x ++ "."%char :: y ++ "."%char :: z ++ rest /\ version_suffix rest = true
    /\ Forall (fun ds => ds <> [] /\ forallb is_ascii_digit ds = true) [x; y; z].
Proof.
  unfold release_pattern. intros Hp. destruct (digits_dot (strip_v l)) as [l1|] eqn:E1; [|done].
  destruct (digits_dot l1) as [l2|] eqn:E2; [|done]. destruct (digits_then l2) as [rest|] eqn:E3; [|done].
  apply digits_dot_split in E1 as (x & -> & Hx). apply digits_dot_split in E2 as (y & -> & Hy).
  apply digits_then_split in E3 as (z & -> & Hz). exists x, y, z, rest. split_and!; [done|done|]. rewrite !Forall_cons, Forall_nil. tauto.
Qed.

(** Cutting at a separator *)
Lemma split_once_none sep l : forallb (fun a => negb (Ascii.eqb a sep)) l = true -> split_once_bytes sep l = None.
Proof. induction l as [|a l IH]; [done|]. cbn. intros Hl. to_prop. by rewrite H, IH. Qed.

Lemma cut_app sep x y : forallb (fun a => negb (Ascii.eqb a sep)) x = true ->
  cut sep (x ++ y) = (match cut sep y with (u, v) => (x ++ u, v) end).
Proof.
  unfold cut. induction x as [|a x IH]; cbn; intros Hx; [by destruct (split_once_bytes sep y) as [[? ?]|]|]. to_prop.
  rewrite H. specialize (IH H0). destruct (split_once_bytes sep (x ++ y)) as [[u v]|], (split_once_bytes sep y) as [[u' v']|]; by simplify_eq/=.
Qed.

(** A suffix is empty, build metadata, or a prerelease. *)
Lemma suffix_cut rest : version_suffix rest = true ->
  exists pre, cut "-"%char (fst (cut "+"%char rest)) = ([], pre).
Proof.
  destruct rest as [|a t]; [by exists []|]. cbn [version_suffix]. intros Hv. apply andb_prop in Hv as [Ha Ht].
  destruct (Ascii.eqb_spec a "+"%char) as [->|Hp]; [by exists []|].
  destruct (Ascii.eqb_spec a "-"%char) as [->|]; [|done].
  assert (Hn : forallb (fun a => negb (Ascii.eqb a "+"%char)) t = true).
  { destruct t as [|b t]; [done|]. apply forallb_forall. rewrite forallb_forall in Ht. intros c Hc. specialize (Ht c Hc).
    destruct (Ascii.eqb_spec c "+"%char) as [->|]; [|done]. vm_compute in Ht. done. }
  exists t. unfold cut. rewrite (split_once_none "+"%char ("-"%char :: t)); [done|]. exact Hn.
Qed.

(** Every text that matches the pattern parses. *)
Lemma parse_release_total s : RELEASE_VERSION_PATTERN s = true ->
  exists v, parse_release_version s = Ok v /\ List.length (pv_core v) = 3%nat
    /\ Forall (fun ds => forallb is_ascii_digit ds = true) (pv_core v).
Proof.
  unfold parse_release_version, RELEASE_VERSION_PATTERN. intros Ep. rewrite Ep. cbn [negb].
  apply release_pattern_shape in Ep as (x & y & z & rest & Hl & Hs & Hd). destruct (suffix_cut rest Hs) as [pre Hcut].
  set (body := x ++ "."%char :: y ++ "."%char :: z).
  assert (Hb : strip_v (bytes_of s) = body ++ rest) by (rewrite Hl; unfold body; by rewrite <- !app_assoc; cbn; rewrite <- app_assoc).
  repeat (apply Forall_cons in Hd as [[_ ?] Hd]).
  assert (Hn : forall c, is_ascii_digit c = false -> c <> "."%char -> forallb (fun a => negb (Ascii.eqb a c)) body = true).
  { intros c Hc Hne. assert (Hdot : Ascii.eqb "."%char c = false) by (by apply Ascii.eqb_neq).
    assert (Hx : forall ds, forallb is_ascii_digit ds = true -> forallb (fun a => negb (Ascii.eqb a c)) ds = true)
      by (intros; by apply digits_no_char).
    unfold body. rewrite forallb_app. cbn [forallb]. rewrite forallb_app. cbn [forallb]. by rewrite Hdot, !Hx. }
  rewrite Hb, cut_app by (by apply Hn). destruct (cut "+"%char rest) as [u w]. cbn [fst] in *.
  rewrite cut_app, Hcut by (by apply Hn). rewrite app_nil_r.
  assert (Hsplit : split_bytes "."%char body = [x; y; z]).
  { unfold body. rewrite !split_bytes_app, split_bytes_single by (by apply digits_no_char). done. }
  rewrite Hsplit. cbn. eexists. split; [done|]. cbn. split; [done|]. rewrite !Forall_cons, Forall_nil. tauto.
Qed.

Lemma parse_release_pattern s v : parse_release_version s = Ok v ->
  RELEASE_VERSION_PATTERN s = true /\ List.length (pv_core v) = 3%nat
  /\ Forall (fun ds => forallb is_ascii_digit ds = true) (pv_core v).
Proof.
  intros Hv. destruct (RELEASE_VERSION_PATTERN s) eqn:Ep; [|unfold parse_release_version in Hv; by rewrite Ep in Hv].
  destruct (parse_release_total s Ep) as (w & Hw & ?). split; [done|]. congruence.
Qed.

Lemma compare_cores_key a b : List.length a = List.length b ->
  Forall (fun ds => forallb is_ascii_digit ds = true) a -> Forall (fun ds => forallb is_ascii_digit ds = true) b ->
  compare_cores a b = list_cmp Z.compare (map digits_val a) (map digits_val b).
Proof.
  revert b. induction a as [|x a IH]; intros [|y b] Hl Ha Hb; try done. injection Hl as Hl.
  apply Forall_cons in Ha as [Hx Ha], Hb as [Hy Hb]. cbn. rewrite compare_numeric_val by done.
  destruct (Z.compare _ _); [by apply IH|done|done].
Qed.

Lemma parse_release_err s e : parse_release_version s = Err e -> e = invalid_version.
Proof. unfold parse_release_version. intros Hq. cases_in Hq; by simplify_eq. Qed.

Lemma compare_by_key a b :
  compare_release_versions a b
  = match version_key a, version_key b with
    | Some k, Some l => Ok (to_int (key_cmp k l))
    | _, _ => Err invalid_version
    end.
Proof.
  unfold compare_release_versions, version_key.
  destruct (parse_release_version a) as [v|e] eqn:Ea; [|by apply parse_release_err in Ea as ->].
  destruct (parse_release_version b) as [w|e] eqn:Eb; [|by apply parse_release_err in Eb as ->].
  apply parse_release_pattern in Ea as (_ & La & Da), Eb as (_ & Lb & Db).
  unfold key_cmp, pair_cmp, key_of. cbn [fst snd]. rewrite compare_cores_key, compare_prereleases_key by (done || congruence).
  done.
Qed.

(** *** Precedence *)
Definition not_below (a b : string) : Prop := exists c, compare_release_versions a b = Ok c /\ 0 <= c.

Lemma version_key_parse v p : parse_release_version v = Ok p -> exists k, version_key v = Some k.
Proof. unfold version_key. intros ->. eauto. Qed.

Lemma not_below_key a b : not_below a b <-> exists k l, version_key a = Some k /\ version_key b = Some l /\ key_cmp k l <> Lt.
Proof.
  unfold not_below. rewrite compare_by_key. destruct (version_key a) as [k|], (version_key b) as [l|]; [|naive_solver..].
  split.
  - intros (c & Hc & Hle). exists k, l. split; [done|]. split; [done|]. intros E. rewrite E in Hc. injection Hc as <-. cbn in Hle. lia.
  - intros (k' & l' & Hk & Hl & Hne). simplify_eq. destruct (key_cmp k' l'); [|done|]; eexists; (split; [done|cbn; lia]).
Qed.

Lemma not_below_refl a p : parse_release_version a = Ok p -> not_below a a.
Proof.
  intros [k Hk]%version_key_parse. apply not_below_key. exists k, k. split; [done|]. split; [done|]. by rewrite (proj2 (lf_eq k k)).
Qed.

Lemma not_below_trans a b c : not_below a b -> not_below b c -> not_below a c.
Proof.
  rewrite !not_below_key. intros (k & l & Ha & Hb & H1) (l' & n & Hb' & Hc & H2). assert (l' = l) as -> by congruence.
  exists k, n. split; [done|]. split; [done|]. intros Hlt. destruct (key_cmp l n) eqn:E2; [|done|].
  - apply lf_eq in E2. by subst.
  - apply H1. apply (lf_trans k n l); [done|]. by rewrite (lf_sym l n), E2.
Qed.

Lemma compare_sign a b c : compare_release_versions a b = Ok c -> (0 <= c -> not_below a b) /\ (c <= 0 -> not_below b a).
Proof.
  intros Hc. split; [by exists c|]. intros Hle. rewrite compare_by_key in Hc. apply not_below_key.
  destruct (version_key a) as [k|], (version_key b) as [l|]; try done. exists l, k. split; [done|]. split; [done|].
  rewrite (lf_sym k l). destruct (key_cmp k l); [done|done|]. injection Hc as <-. cbn in Hle. lia.
Qed.

Lemma not_below_parses a b : not_below a b -> exists p q, parse_release_version a = Ok p /\ parse_release_version b = Ok q.
Proof.
  intros (c & Hc & _). unfold compare_release_versions in Hc. destruct (parse_release_version a), (parse_release_version b); eauto; done.
Qed.

(** Versions are compared by their key.  Comparing two release versions
    compares three numbers of any length, then the prerelease identifiers
    (numbers before text, numbers by value, text by bytes, a release after its
    prereleases); a text that is not a version is an error.  The comparison of
    keys is a lawful total order, so that precedence is transitive and two
    versions of equal precedence have the same key. *)
Theorem versions_compare_by_key a b :
  compare_release_versions a b
  = match version_key a, version_key b with
    | Some k, Some l => Ok (to_int (key_cmp k l))
    | _, _ => Err invalid_version
    end
  /\ Lawful key_cmp.
Proof. split; [apply compare_by_key|apply _]. Qed.

(** ** What an accepted release is *)

(** The names of a path: none is empty, [.] or [..] *)
Definition proper_name (w : bytes) : Prop := w <> [] /\ w <> [dot] /\ w <> [dot; dot].
Definition proper_path (p : string) : Prop := Forall proper_name (split_bytes slash (bytes_of p)).

Lemma repeat_dots_head up (stack : list bytes) :
  bytes_prefix (bytes_of "../") (rendered up stack) = false -> rendered up stack <> [dot; dot] -> up = 0%nat.
Proof.
  destruct up as [|up]; [done|]. unfold rendered. cbn [repeat app].
  destruct (repeat [dot; dot] up ++ rev stack) as [|w l]; [done|]. done.
Qed.

Lemma resolve_names rooted ws : forall up stack,
  Forall (fun w => forallb not_slash w = true) ws -> Forall (fun w => proper_name w /\ is_word w) stack ->
  Forall (fun w => proper_name w /\ is_word w) (snd (resolve rooted ws up stack)).
Proof.
  induction ws as [|w ws IH]; intros up stack Hw Hs; [done|]. apply Forall_cons in Hw as [Hw Hws]. cbn [resolve].
  case_bool_decide as E1; [by apply IH|]. case_bool_decide as E2.
  - destruct stack as [|x stack]; [by apply IH|]. apply IH; [done|]. by apply Forall_cons in Hs as [_ Hs].
  - apply IH; [done|]. constructor; [|done]. unfold proper_name, is_word. tauto.
Qed.

Lemma split_intercalate sep l : l <> [] -> Forall (fun w => forallb (fun a => negb (Ascii.eqb a sep)) w = true) l ->
  split_bytes sep (intercalate sep l) = l.
Proof.
  induction l as [|x [|y l] IH]; intros Hne Hl; [done| |].
  - apply Forall_cons in Hl as [Hx _]. by apply split_bytes_single.
  - apply Forall_cons in Hl as [Hx Hl]. change (intercalate sep (x :: y :: l)) with (x ++ sep :: intercalate sep (y :: l)).
    by rewrite split_bytes_app, IH.
Qed.

(** The lexical check of a manifest's path *)
Definition path_refused (p : string) : bool :=
  (clean p =s ".") || is_abs (clean p) || (clean p <>s p) || starts_with "../" (clean p).

Lemma path_accepted p : path_refused p = false -> p = ".." \/ proper_path p.
Proof.
  unfold path_refused. intros Hp. repeat (apply orb_false_elim in Hp as [Hp ?]). apply negb_false_iff, String.eqb_eq in H0.
  rewrite H0 in *. apply String.eqb_neq in Hp. unfold is_abs, starts_with in *.
  assert (Hb : bytes_of p = clean_reference (bytes_of p)).
  { rewrite <- H0 at 1. unfold clean. by rewrite bytes_of_str_of, clean_by_reference. }
  unfold clean_reference in Hb. destruct (match bytes_of p with a :: _ => Ascii.eqb a slash | [] => false end) eqn:Er.
  { destruct (bytes_of p) as [|a t]; [done|]. apply Ascii.eqb_eq in Er. by subst a. }
  pose proof (resolve_names false (split_bytes slash (bytes_of p)) 0 []) as Hn.
  destruct (resolve false (split_bytes slash (bytes_of p)) 0 []) as [up stack]. cbn [snd] in Hn.
  assert (Hs : Forall (fun w => proper_name w /\ is_word w) stack).
  { apply Hn; [|done]. apply Forall_forall. intros w Hw. by apply split_bytes_no_sep in Hw. }
  destruct (rendered up stack) as [|a l] eqn:El; [by destruct Hp; apply bytes_of_inj|]. rewrite <- El in Hb.
  destruct (decide (rendered up stack = [dot; dot])) as [Ed|Ed]; [left; apply bytes_of_inj; by rewrite Hb, Ed|right].
  assert (up = 0%nat) as -> by (apply (repeat_dots_head up stack); [by rewrite <- Hb|done]).
  unfold proper_path. rewrite Hb. unfold rendered in *. cbn [repeat app] in *. rewrite split_intercalate.
  - apply Forall_rev. eapply Forall_impl; [exact Hs|]. by intros w [? _].
  - intros Hz. by rewrite Hz in El.
  - apply Forall_rev. eapply Forall_impl; [exact Hs|]. by intros w [_ [_ ?]].
Qed.

Lemma verify_file_ok tree p h : verify_file tree p h = Ok tt <->
  path_refused p = false /\
  exists digest f, hex_decode (bytes_of h) = Some digest /\ List.length digest = 32%nat /\ tree p = Some f
    /\ fi_sha256 f = Some digest.
Proof.
  unfold verify_file. fold (path_refused p). destruct (path_refused p) eqn:Ep; [naive_solver|].
  assert (Hc : clean p = p).
  { unfold path_refused in Ep. repeat (apply orb_false_elim in Ep as [Ep ?]). by apply negb_false_iff, String.eqb_eq in H0. }
  rewrite Hc. split.
  - intros Hv. split; [done|]. cases_in Hv; simplify_eq; to_prop; repeat case_bool_decide; simplify_eq; naive_solver.
  - intros (_ & d & f & -> & -> & -> & ->). cbn. by rewrite bool_decide_eq_true_2.
Qed.

Lemma verify_files_ok tree l : verify_files tree l = Ok tt <-> forall p h, In (p, h) l -> verify_file tree p h = Ok tt.
Proof.
  induction l as [|[p h] l IH]; cbn; [naive_solver|]. destruct (verify_file tree p h) as [[]|e] eqn:Ev.
  - rewrite IH. split; [|auto]. intros Hl q k [Hq|Hq]; [by simplify_eq|auto].
  - split; [done|]. intros Hl. rewrite <- Ev. by apply Hl; left.
Qed.

(** What each role asks of a mode: readable and executable as the role says,
    not writable by others, no set-id or sticky bit *)
Definition mode_ok (p : string) (mode : Z) : Prop :=
  let required := Z.land (appliance_file_mode p) 365 in
  Z.land (Z.land mode 511) required = required /\ Z.land mode 18 = 0 /\ Z.land mode 3584 = 0.

Lemma check_modes_ok tree l : check_modes tree l = Ok tt <-> forall p, In p l -> exists f, tree p = Some f /\ mode_ok p (fi_mode f).
Proof.
  induction l as [|p l IH]; cbn [check_modes In]; [naive_solver|]. destruct (tree p) as [f|] eqn:Ef; [|naive_solver].
  cbn zeta. destruct (negb _ || _ || _) eqn:Eb.
  - split; [done|]. intros Hl. destruct (Hl p) as (f' & Hf & Hm); [by left|]. assert (f' = f) as -> by congruence.
    unfold mode_ok in Hm. cbn zeta in Hm. destruct Hm as (Hm1 & Hm2 & Hm3). rewrite Hm1, Hm2, Hm3, Z.eqb_refl in Eb. done.
  - rewrite IH. to_prop. repeat (apply orb_false_elim in Eb as [Eb ?]). to_prop. unfold mode_ok. naive_solver.
Qed.

(** ** The payload *)
Definition architecture_binaries (arch : string) : list string :=
  map role_path (List.filter (fun r => role_required r && role_architecture_binary r) (map (resolved arch) APPLIANCE_FILE_ROLES)).
Definition common_files : list string :=
  map role_path (List.filter (fun r => role_required r && negb (role_architecture_binary r)) APPLIANCE_FILE_ROLES).
Definition has_all (m : FirmwareManifest) (l : list string) : Prop := forall p, In p l -> contains_file m p = true.
Definition has_none (m : FirmwareManifest) (l : list string) : Prop := forall p, In p l -> contains_file m p = false.

Lemma existsb_all_none {A} (p : A -> bool) l : existsb p l = false <-> forall x, In x l -> p x = false.
Proof. induction l as [|x l IH]; cbn; [naive_solver|]. rewrite orb_false_iff, IH. naive_solver. Qed.

Lemma existsb_map {A B} (f : A -> B) (p : B -> bool) l : existsb (fun x => p (f x)) l = existsb p (map f l).
Proof. induction l as [|x l IH]; [done|]. cbn. by rewrite IH. Qed.
Lemma forallb_map_eq {A B} (f : A -> B) (p : B -> bool) l : forallb (fun x => p (f x)) l = forallb p (map f l).
Proof. induction l as [|x l IH]; [done|]. cbn. by rewrite IH. Qed.

Definition arch_ok (arch : string) : Prop := arch = "amd64" \/ arch = "arm64".
Definition other_arch (arch : string) : string := if arch =s "amd64" then "arm64" else "amd64".

Lemma other_arch_eq a b : arch_ok a -> arch_ok b -> a <> b -> b = other_arch a.
Proof. by intros [-> | ->] [-> | ->]. Qed.

Lemma appliance_roles_ok arch : arch_ok arch -> appliance_file_roles arch = Ok (map (resolved arch) APPLIANCE_FILE_ROLES).
Proof. by intros [-> | ->]. Qed.

(** A supported architecture's binaries are all there, none of them is, or the
    payload is refused. *)
Lemma architecture_set_spec m arch : arch_ok arch ->
  match architecture_set m arch with
  | Ok true => has_all m (architecture_binaries arch)
  | Ok false => has_none m (architecture_binaries arch)
  | Err _ => ~ has_all m (architecture_binaries arch) /\ ~ has_none m (architecture_binaries arch)
  end.
Proof.
  intros Ha. unfold architecture_set. rewrite appliance_roles_ok by done. cbn zeta.
  rewrite (existsb_map role_path (contains_file m)), (forallb_map_eq role_path (contains_file m)).
  change (map role_path _) with (architecture_binaries arch). unfold has_all, has_none.
  destruct (existsb _ _) eqn:Ee, (forallb _ _) eqn:Ef; cbn [andb negb].
  - by apply forallb_forall.
  - split; intros Hf; [by rewrite (proj2 (forallb_forall (contains_file m) _) Hf) in Ef
                      |by rewrite (proj2 (existsb_all_none (contains_file m) _) Hf) in Ee].
  - by apply forallb_forall.
  - by apply existsb_all_none.
Qed.

Lemma binaries_nonempty arch : arch_ok arch -> architecture_binaries arch <> [].
Proof. by intros [-> | ->]; vm_compute. Qed.

Lemma has_all_not_none m l : l <> [] -> has_all m l -> ~ has_none m l.
Proof. destruct l as [|p l]; [done|]. intros _ Ha Hn. specialize (Ha p (or_introl eq_refl)). specialize (Hn p (or_introl eq_refl)). congruence. Qed.

Lemma find_none_all {A} (p : A -> bool) l : List.find p l = None <-> forall x, In x l -> p x = false.
Proof. induction l as [|x l IH]; cbn; [naive_solver|]. destruct (p x) eqn:Ep; [|rewrite IH; naive_solver].
  split; [done|]. intros Hl. rewrite Hl in Ep by auto. done.
Qed.

Lemma common_files_ok m :
  List.find (fun r => role_required r && negb (role_architecture_binary r) && negb (contains_file m (role_path r)))
    APPLIANCE_FILE_ROLES = None <-> has_all m common_files.
Proof.
  rewrite find_none_all. unfold has_all, common_files. split.
  - intros Hf p (r & <- & Hr)%in_map_iff. apply filter_In in Hr as [Hr Hb]. specialize (Hf r Hr). rewrite Hb in Hf. by apply negb_false_iff in Hf.
  - intros Ha r Hr. destruct (role_required r && negb (role_architecture_binary r)) eqn:Eb; [|done].
    rewrite Ha; [done|]. apply in_map, filter_In. done.
Qed.

Lemma validate_payload_ok m : validate_appliance_payload (Some m) = Ok tt <->
  has_all m common_files /\ exists arch, arch_ok arch /\ has_all m (architecture_binaries arch)
    /\ has_none m (architecture_binaries (other_arch arch)).
Proof.
  unfold validate_appliance_payload. rewrite <- common_files_ok. destruct (List.find _ _); [by split; [|intros [? _]]|].
  cbn [complete_architectures SUPPORTED_ARCHITECTURES].
  pose proof (architecture_set_spec m "amd64" (or_introl eq_refl)) as Ha.
  pose proof (architecture_set_spec m "arm64" (or_intror eq_refl)) as Hb.
  pose proof (has_all_not_none m _ (binaries_nonempty "amd64" (or_introl eq_refl))) as Hna.
  pose proof (has_all_not_none m _ (binaries_nonempty "arm64" (or_intror eq_refl))) as Hnb.
  assert (Hx : (exists arch, arch_ok arch /\ has_all m (architecture_binaries arch) /\ has_none m (architecture_binaries (other_arch arch)))
    <-> has_all m (architecture_binaries "amd64") /\ has_none m (architecture_binaries "arm64")
        \/ has_all m (architecture_binaries "arm64") /\ has_none m (architecture_binaries "amd64")).
  { split; [by intros (arch & [-> | ->] & Hh); [left|right]|].
    intros [Hh|Hh]; [exists "amd64"|exists "arm64"]; (split; [by (left + right)|done]). }
  rewrite Hx. clear Hx. revert Ha Hb Hna Hnb.
  generalize (has_all m (architecture_binaries "amd64")) (has_none m (architecture_binaries "amd64"))
    (has_all m (architecture_binaries "arm64")) (has_none m (architecture_binaries "arm64")).
  intros A NA B NB. destruct (architecture_set m "amd64") as [[]|], (architecture_set m "arm64") as [[]|]; cbn;
    intuition congruence.
Qed.

Lemma resolve_proper ws : forall stack, Forall proper_name ws -> resolve false ws 0 stack = (0%nat, rev ws ++ stack).
Proof.
  induction ws as [|w ws IH]; intros stack Hw; [done|]. apply Forall_cons in Hw as [(H1 & H2 & H3) Hw]. cbn [resolve].
  rewrite !bool_decide_eq_false_2 by naive_solver. rewrite IH by done. cbn. by rewrite <- app_assoc.
Qed.

Lemma proper_clean p : proper_path p -> clean_bytes (bytes_of p) = bytes_of p.
Proof.
  unfold proper_path. intros Hp. rewrite clean_by_reference. unfold clean_reference.
  destruct (bytes_of p) as [|a t] eqn:Ep; [by apply Forall_cons in Hp as [(? & _) _]|].
  destruct (Ascii.eqb a slash) eqn:Ea.
  { cbn [split_bytes] in Hp. rewrite Ea in Hp. by apply Forall_cons in Hp as [(? & _) _]. }
  rewrite resolve_proper by done. rewrite app_nil_r. unfold rendered. cbn [repeat app].
  by rewrite rev_involutive, intercalate_split.
Qed.

Lemma bytes_prefix_app p l : bytes_prefix p l = true -> exists t, l = p ++ t.
Proof.
  revert l. induction p as [|a p IH]; intros l Hp; [by exists l|]. destruct l as [|b l]; [done|]. cbn in Hp. to_prop.
  apply Ascii.eqb_eq in H. subst b. destruct (IH l H0) as [t ->]. by exists t.
Qed.

Lemma proper_no_prefix p w : proper_path p -> ~ proper_name w -> forallb not_slash w = true ->
  starts_with (str_of (w ++ [slash])) p = false.
Proof.
  intros Hp Hw Hs. unfold starts_with. rewrite bytes_of_str_of. destruct (bytes_prefix _ _) eqn:Eb; [|done].
  apply bytes_prefix_app in Eb as [t Ht]. unfold proper_path in Hp. rewrite Ht, <- app_assoc in Hp. cbn in Hp.
  rewrite split_bytes_app in Hp by done. by apply Forall_cons in Hp as [? _].
Qed.

Lemma proper_path_accepted p : proper_path p -> path_refused p = false.
Proof.
  intros Hp. unfold path_refused, clean. rewrite (proper_clean p Hp), str_of_bytes_of, String.eqb_refl.
  change (is_abs p) with (starts_with (str_of ([] ++ [slash])) p). change "../" with (str_of ([dot; dot] ++ [slash])).
  rewrite !proper_no_prefix by (done || by intros (? & ? & ?)). destruct (String.eqb_spec p ".") as [->|]; [|done].
  by apply Forall_cons in Hp as [(_ & ? & _) _].
Qed.

(** The pinned key's signature on the manifest's four signed fields *)
Definition signed_with `{Ed25519} (m : FirmwareManifest) (key : list Z) : Prop :=
  List.length key = 32%nat /\ fm_version m <> EmptyString /\ files m <> []
  /\ (fm_public_key m = EmptyString \/ hex_decode (bytes_of (fm_public_key m)) = Some key)
  /\ exists s, hex_decode (bytes_of (fm_signature m)) = Some s /\ List.length s = 64%nat
                /\ ed25519_verify key (signed_payload m) s = true.

Lemma is_empty_spec s : is_empty s = true <-> s = EmptyString.
Proof. by destruct s. Qed.

Lemma signer_matches m key : List.length key = 32%nat ->
  negb (is_empty (fm_public_key m))
  && negb (match hex_decode (bytes_of (fm_public_key m)) with
           | Some c => Nat.eqb (List.length c) 32 && bool_decide (c = key)
           | None => false
           end) = false
  <-> fm_public_key m = EmptyString \/ hex_decode (bytes_of (fm_public_key m)) = Some key.
Proof.
  intros Hl. rewrite andb_false_iff, !negb_false_iff, is_empty_spec.
  destruct (hex_decode (bytes_of (fm_public_key m))) as [c|]; [|naive_solver].
  rewrite andb_true_iff, bool_decide_eq_true, Nat.eqb_eq. naive_solver.
Qed.

Section Accepted.
Context `{Ed25519}.

Lemma verify_manifest_ok m key : verify_manifest (Some m) key = Ok tt <-> signed_with m key.
Proof.
  unfold verify_manifest, signed_with. destruct (Nat.eqb_spec (List.length key) 32) as [Hl|]; cbn [negb]; [|naive_solver].
  pose proof (signer_matches m key Hl) as Hsig. pose proof (is_empty_spec (fm_version m)) as Hv.
  destruct (is_empty (fm_version m)); cbn [orb]; [naive_solver|]. destruct (files m) as [|p fs]; [naive_solver|].
  destruct (negb (is_empty (fm_public_key m)) && _); [naive_solver|].
  destruct (hex_decode (bytes_of (fm_signature m))) as [s|]; [|naive_solver].
  destruct (Nat.eqb_spec (List.length s) 64); [|naive_solver].
  destruct (ed25519_verify key (signed_payload m) s) eqn:Es; [|naive_solver]. split; [|done]. intros _.
  split_and!; [done|naive_solver|done|naive_solver|naive_solver].
Qed.

(** Every file of the manifest is a regular file of the tree, under a path
    without climbing, with the signed digest and a safe mode. *)
Definition file_ok (tree : Tree) (p h : string) : Prop :=
  proper_path p /\ exists f digest, tree p = Some f /\ hex_decode (bytes_of h) = Some digest /\ List.length digest = 32%nat
    /\ fi_sha256 f = Some digest /\ mode_ok p (fi_mode f).

Definition payload_for (m : FirmwareManifest) (arch : string) : Prop :=
  arch_ok arch /\ has_all m common_files /\ has_all m (architecture_binaries arch)
  /\ has_none m (architecture_binaries (other_arch arch)).

Lemma map_err_ok {A E F} (f : E -> F) (r : result A E) a : map_err f r = Ok a <-> r = Ok a.
Proof. by destruct r; split; intros; simplify_eq/=. Qed.

Lemma seq_ok {B E} (r : result unit E) (k : result B E) b : (let? _ := r in k) = Ok b <-> r = Ok tt /\ k = Ok b.
Proof. destruct r as [[]|]; naive_solver. Qed.

Lemma architecture_ok m arch : validate_appliance_architecture (Some m) arch = Ok tt <->
  arch_ok arch /\ has_all m (architecture_binaries arch).
Proof.
  unfold validate_appliance_architecture, arch_ok, has_all. destruct (appliance_file_roles arch) as [roles|] eqn:Er.
  - assert (Ha : arch_ok arch).
    { unfold appliance_file_roles in Er. cases_in Er. unfold arch_ok.
      destruct (String.eqb_spec arch "amd64"), (String.eqb_spec arch "arm64"); by (left + right). }
    rewrite appliance_roles_ok in Er by done. apply (f_equal (fun r => match r with Ok l => l | Err _ => [] end)) in Er.
    subst roles. rewrite (forallb_map_eq role_path (contains_file m)).
    assert (Hb : map role_path (List.filter (fun r => role_architecture_binary r && role_required r)
                 (map (resolved arch) APPLIANCE_FILE_ROLES)) = architecture_binaries arch) by (by destruct Ha as [-> | ->]).
    rewrite Hb. destruct (forallb _ _) eqn:Ef.
    + split; [|done]. intros _. split; [done|]. by apply forallb_forall.
    + split; [done|]. intros [_ Hh]. by rewrite (proj2 (forallb_forall (contains_file m) _) Hh) in Ef.
  - split; [done|]. intros [Ha _]. by rewrite appliance_roles_ok in Er.
Qed.

(** What is staged is exactly what was signed for this machine.  A release
    tree is accepted for an architecture iff the pinned key signed the
    manifest, every listed file is a regular file under a path with no empty,
    [.] or [..] element, with the signed SHA-256 and a mode its role allows,
    every common file and every binary of this architecture is listed, and no
    binary of the other one is.  (The entry [..] of a directory is a
    directory.) *)
Theorem release_accepted_iff tree m key arch : tree ".." = None ->
  validate_release_candidate_for_arch tree (Some m) key arch = Ok tt
  <-> signed_with m key /\ (forall p h, In (p, h) (files m) -> file_ok tree p h) /\ payload_for m arch.
Proof.
  intros Hup. unfold validate_release_candidate_for_arch, verify_firmware, validate_appliance_file_modes.
  rewrite !seq_ok, !map_err_ok, !seq_ok. unfold payload_for. split.
  - intros ((Hs & Hf) & (Hp & Hm) & Ha). apply verify_manifest_ok in Hs. pose proof (proj1 (verify_files_ok tree (files m)) Hf) as Hf'.
    pose proof (proj1 (check_modes_ok tree (map fst (files m))) Hm) as Hm'.
    apply validate_payload_ok in Hp as (Hc & a & Haa & Hall & Hnone). apply architecture_ok in Ha as [Ho Hb].
    split_and!; [exact Hs| |exact Ho|exact Hc|exact Hb|].
    + intros p h Hp. pose proof (proj1 (verify_file_ok tree p h) (Hf' p h Hp)) as Hv. destruct Hv as (Hr & d & f & Hd & Hdl & Ht & Hh).
      destruct (Hm' p (in_map fst _ _ Hp)) as (f' & Ht' & Hmode). assert (f' = f) as -> by congruence.
      split; [|by exists f, d]. destruct (path_accepted p Hr) as [->|]; [congruence|done].
    + destruct (decide (a = arch)) as [->|Hne]; [exact Hnone|].
      rewrite <- (other_arch_eq a arch Haa Ho Hne) in Hnone. destruct (has_all_not_none m _ (binaries_nonempty arch Ho) Hb Hnone).
  - intros (Hs & Hf & Ho & Hc & Hb & Hn). split_and!.
    + by apply verify_manifest_ok.
    + apply verify_files_ok. intros p h Hp. destruct (Hf p h Hp) as (Hr & f & d & ?). apply verify_file_ok. split; [by apply proper_path_accepted|]. exists d, f. tauto.
    + apply validate_payload_ok. split; [exact Hc|]. exists arch. exact (conj Ho (conj Hb Hn)).
    + apply check_modes_ok. intros p ([q h] & <- & Hp)%in_map_iff. destruct (Hf q h Hp) as (_ & f & d & ?). exists f. tauto.
    + apply architecture_ok. exact (conj Ho Hb).
Qed.

Lemma map_str_inj (l l' : list (string * string)) :
  map (fun p => (fst p, JStr (snd p))) l = map (fun p => (fst p, JStr (snd p))) l' -> l = l'.
Proof.
  revert l'. induction l as [|[k v] l IH]; intros [|[k' v'] l'] Hq; try done. cbn in Hq. simplify_eq. f_equal. by apply IH.
Qed.

Lemma signed_payload_inj m m' : signed_payload m = signed_payload m' ->
  fm_version m = fm_version m' /\ fm_build_date m = fm_build_date m' /\ fm_git_commit m = fm_git_commit m'
  /\ fm_files m = fm_files m'.
Proof.
  intros Hq%marshal_inj. unfold payload_json in Hq. simplify_eq. split_and!; try done.
  destruct (fm_files m), (fm_files m'); simplify_eq; try done. f_equal. by apply map_str_inj.
Qed.

(** A signature fixes all it should.  When the pinned key's owner signed
    only the listed manifests and no signature can be forged, every manifest
    that verifies carries the version, build date, commit and complete file
    list of one of them: nothing can be moved between the fields of the signed
    text, added to it or left out. *)
Theorem verified_manifest_was_signed key (released : list FirmwareManifest) m :
  (forall message s, ed25519_verify key message s = true -> exists r, In r released /\ message = signed_payload r) ->
  verify_manifest (Some m) key = Ok tt ->
  exists r, In r released /\ fm_version m = fm_version r /\ fm_build_date m = fm_build_date r
    /\ fm_git_commit m = fm_git_commit r /\ fm_files m = fm_files r.
Proof.
  intros Hown (_ & _ & _ & _ & s & _ & _ & Hs)%verify_manifest_ok. apply Hown in Hs as (r & Hr & Hm).
  exists r. split; [done|]. by apply signed_payload_inj.
Qed.
End Accepted.

(** ** Signing and verifying *)
Lemma hex_encode_decode l : Forall (fun b => 0 <= b < 256) l -> hex_decode (bytes_of (hex_encode l)) = Some l.
Proof.
  unfold hex_encode. rewrite bytes_of_str_of. induction 1 as [|b l Hb _ IH]; [done|]. cbn [map concat show_hex2 app hex_decode].
  rewrite !hex_val_digit, IH by ((split; [apply Z.div_pos; lia|apply Z.div_lt_upper_bound; lia]) || (apply Z.mod_pos_bound; lia)).
  f_equal. f_equal. rewrite Z.mul_comm. symmetry. apply Z.div_mod. lia.
Qed.

(** What a signature scheme promises *)
Class SigningLaws `{Ed25519, Ed25519Sign} : Prop := {
  public_bytes seed : List.length (ed25519_public seed) = 32%nat /\ Forall (fun b => 0 <= b < 256) (ed25519_public seed);
  sign_bytes seed message : List.length (ed25519_sign seed message) = 64%nat /\ Forall (fun b => 0 <= b < 256) (ed25519_sign seed message);
  sign_verifies seed message : ed25519_verify (ed25519_public seed) message (ed25519_sign seed message) = true;
}.

(** Signed releases verify.  A manifest with a version and files, once
    signed, passes verification against the public key of the signing seed:
    the signature covers exactly what is verified, and both are encoded so that
    they are read back. *)
Theorem signed_manifest_verifies `{SigningLaws} m private_key signed :
  fm_version m <> EmptyString -> files m <> [] -> sign_manifest m private_key = Ok signed ->
  verify_manifest (Some signed) (ed25519_public (take 32 private_key)) = Ok tt.
Proof.
  intros Hv Hf Hs. unfold sign_manifest, signing_key in Hs. destruct (negb _); [done|]. injection Hs as <-.
  set (seed := take 32 private_key). destruct (public_bytes seed) as [Hpl Hpb].
  destruct (sign_bytes seed (signed_payload m)) as [Hsl Hsb]. apply verify_manifest_ok. split_and!; [done|done|done| |].
  - right. by apply hex_encode_decode.
  - exists (ed25519_sign seed (signed_payload m)). split; [by apply hex_encode_decode|]. split; [done|]. apply sign_verifies.
Qed.

(** ** A release for amd64 *)
Module Sample.
Definition digest : list Z := repeat 0 32.
Definition hex_of (n : nat) : string := str_of (repeat "0"%char (2 * n)).
Definition release : FirmwareManifest :=
  mkManifest "0.4.0" "2026-01-01" "abc"
    (Some (map (fun p => (p, hex_of 32)) (common_files ++ architecture_binaries "amd64"))) (hex_of 64) EmptyString.
Definition key : list Z := repeat 7 32.
Definition tree : Tree := fun p => if contains_file release p then Some (mkFile (appliance_file_mode p) (Some digest)) else None.

(** A scheme in which the key signed this release and nothing else *)
Definition scheme : Ed25519 := fun k message _ => bool_decide (k = key) && bool_decide (message = signed_payload release).
End Sample.

Lemma release_accepted_iff_witness :
  @validate_release_candidate_for_arch Sample.scheme Sample.tree (Some Sample.release) Sample.key "amd64" = Ok tt
  /\ proper_path "bin/routerd-amd64".
Proof.
  assert (Ha : @validate_release_candidate_for_arch Sample.scheme Sample.tree (Some Sample.release) Sample.key "amd64" = Ok tt)
    by (vm_compute; reflexivity).
  split; [exact Ha|].
  apply (@release_accepted_iff Sample.scheme Sample.tree Sample.release Sample.key "amd64" ltac:(vm_compute; reflexivity)) in Ha
    as (_ & Hf & _).
  apply (Hf "bin/routerd-amd64" (Sample.hex_of 32)). vm_compute. tauto.
Defined.

Lemma verified_manifest_was_signed_witness :
  exists r, In r [Sample.release] /\ fm_version Sample.release = fm_version r /\ fm_build_date Sample.release = fm_build_date r
    /\ fm_git_commit Sample.release = fm_git_commit r /\ fm_files Sample.release = fm_files r.
Proof.
  apply (@verified_manifest_was_signed Sample.scheme Sample.key).
  - intros message s Hs. apply andb_prop in Hs as [_ Hs]. apply bool_decide_eq_true in Hs. exists Sample.release. split; [by left|done].
  - vm_compute. reflexivity.
Defined.

(** A scheme that signs by repeating the key: it keeps the laws, not the secret *)
Module ToySigning.
#[local] Instance verify : Ed25519 := fun key _ s => bool_decide (s = key ++ key).
#[local] Instance sign : Ed25519Sign := {| ed25519_public := fun _ => repeat 7 32; ed25519_sign := fun _ _ => repeat 7 64 |}.
#[local] Instance laws : SigningLaws.
Proof. split; intros; cbn; split_and?; repeat constructor; lia. Qed.
End ToySigning.

Lemma signed_manifest_verifies_witness :
  @verify_manifest ToySigning.verify (Some (with_signature Sample.release (hex_encode (repeat 7 64)) (hex_encode (repeat 7 32))))
    (repeat 7 32) = Ok tt.
Proof.
  apply (@signed_manifest_verifies ToySigning.verify ToySigning.sign ToySigning.laws Sample.release (repeat 0 64));
    [done|by vm_compute|reflexivity].
Defined.
