(* ===== verification/Slots.v ===== *)
(** * A/B release slots

    [mr-core/src/firmware/slots.rs]: staging, activation, rollback and the full
    installation of releases under an update root, with the journal that makes
    every pointer swap recoverable.

    The root directory is its five entries; the [slots] directory maps a
    version to what was copied there.  Every change of the root is a rename or
    a removal followed by [sync_dir]: until the sync returns, a power loss may
    keep the old value of an entry, so that the disk remembers the values the
    medium may still hold.  What the operating system does with each change is
    a list of fates, the input of every operation.  A slot is removed file by
    file; once [slots] is synced, removals inside a slot count as durable too (one
    that comes back would only complete the slot again). *)

From Stdlib Require Import ZArith Ascii String Lia Bool.
From stdpp Require Import base list strings gmap.
From S2P Require Import Prelude GoStrings Net GoPath Json Model Validation Policy Firmware.

Local Open Scope string_scope.
Local Open Scope Z_scope.
Local Open Scope list_scope.

(** ** State *)
Record SlotState := mkSlotState {
  sl_current : string;
  sl_previous : string;
  sl_pending : string;
  sl_minimum_version : string;
  sl_installation_pending : bool;
}.
Definition slot_default : SlotState := mkSlotState EmptyString EmptyString EmptyString EmptyString false.

Record SlotOperation := mkOperation {
  op_version : Z;
  op_kind : string;
  op_old : SlotState;
  op_next : SlotState;
}.
Definition OPERATION_JOURNAL_VERSION : Z := 1.

(** A directory entry: absent, not what it should be (undecodable, not a link),
    or its decoded content; a link holds its target. *)
Inductive entry (A : Type) := Absent | Unusable | Holds (a : A).
Arguments Absent {A}.
Arguments Unusable {A}.
Arguments Holds {A} a.

Record Root := mkRoot {
  rt_state : entry SlotState;          (* state.json *)
  rt_operation : entry SlotOperation;  (* operation.json *)
  rt_installation : entry SlotState;   (* installation.json *)
  rt_current : entry string;           (* current -> slots/<version> *)
  rt_previous : entry string;          (* previous -> slots/<version> *)
}.
Definition with_state (r : Root) x := mkRoot x (rt_operation r) (rt_installation r) (rt_current r) (rt_previous r).
Definition with_operation (r : Root) x := mkRoot (rt_state r) x (rt_installation r) (rt_current r) (rt_previous r).
Definition with_installation (r : Root) x := mkRoot (rt_state r) (rt_operation r) x (rt_current r) (rt_previous r).

Inductive pointer := PCurrent | PPrevious.
Definition pointer_name (p : pointer) : string := match p with PCurrent => "current" | PPrevious => "previous" end.
Definition rt_pointer (r : Root) (p : pointer) : entry string := match p with PCurrent => rt_current r | PPrevious => rt_previous r end.
Definition with_pointer (r : Root) (p : pointer) x :=
  match p with
  | PCurrent => mkRoot (rt_state r) (rt_operation r) (rt_installation r) x (rt_previous r)
  | PPrevious => mkRoot (rt_state r) (rt_operation r) (rt_installation r) (rt_current r) x
  end.

(** A slot: its files by path, [None] for an entry that is not a regular file *)
Definition Slot : Type := gmap string (option FileInfo).
Definition tree_of (s : Slot) : Tree := fun p => mjoin (s !! p).
Definition SlotDir : Type := gmap string Slot.
Definition staged (m : SlotDir) (version : string) : bool := bool_decide (is_Some (m !! version)).

(** What is seen, and the earlier contents the medium may still hold since the
    last completed sync of the directory *)
Record UpdateDisk := mkUpdateDisk {
  dk_root : Root;
  dk_past : list Root;
  dk_slots : SlotDir;
  dk_slots_past : list SlotDir;
}.

(** ** Fates and effects *)
Inductive fate :=
| Done
| Failed (message : string)
| Unsynced (message : string)
| CrashBefore
| CrashAfter.

Inductive ran (A : Type) :=
| Returned (r : result A error) (d : UpdateDisk) (fates : list fate)
| Crashed (d : UpdateDisk).
Arguments Returned {A} r d fates.
Arguments Crashed {A} d.

Definition SM (A : Type) : Type := UpdateDisk -> list fate -> ran A.
Definition sret {A} (r : result A error) : SM A := fun d fs => Returned r d fs.
(** Both outcomes of a call *)
Definition scall {A B} (m : SM A) (k : result A error -> SM B) : SM B := fun d fs =>
  match m d fs with Returned r d' fs' => k r d' fs' | Crashed d' => Crashed d' end.
(** The [?] operator *)
Definition sbind {A B} (m : SM A) (k : A -> SM B) : SM B :=
  scall m (fun r => match r with Ok a => k a | Err e => sret (Err e) end).
Notation "'do' x <- m ; k" := (sbind m (fun x => k)) (at level 10, x pattern, m at level 100, k at level 200) : mr_scope.
Definition smap_err {A} (f : error -> error) (m : SM A) : SM A := scall m (fun r => sret (map_err f r)).
Definition sview {A} (f : Root -> SlotDir -> result A error) : SM A := fun d fs =>
  Returned (f (dk_root d) (dk_slots d)) d fs.
Definition next_fate (fs : list fate) : fate * list fate := match fs with [] => (Done, []) | f :: rest => (f, rest) end.

(** A rename or removal in the root directory, and its sync *)
Definition change_root (f : Root -> Root) : SM unit := fun d fs =>
  let changed := mkUpdateDisk (f (dk_root d)) (dk_root d :: dk_past d) (dk_slots d) (dk_slots_past d) in
  match next_fate fs with
  | (Done, rest) => Returned (Ok tt) (mkUpdateDisk (f (dk_root d)) [] (dk_slots d) (dk_slots_past d)) rest
  | (Failed e, rest) => Returned (Err (Errorf e)) d rest
  | (Unsynced e, rest) => Returned (Err (Errorf e)) changed rest
  | (CrashBefore, _) => Crashed d
  | (CrashAfter, _) => Crashed changed
  end.

(** The same in the [slots] directory, without its sync *)
Definition change_slots (f : SlotDir -> SlotDir) : SM unit := fun d fs =>
  let changed := mkUpdateDisk (dk_root d) (dk_past d) (f (dk_slots d)) (dk_slots d :: dk_slots_past d) in
  match next_fate fs with
  | (Done, rest) | (Unsynced _, rest) => Returned (Ok tt) changed rest
  | (Failed e, rest) => Returned (Err (Errorf e)) d rest
  | (CrashBefore, _) => Crashed d
  | (CrashAfter, _) => Crashed changed
  end.
(** [std::fs::remove_dir_all] of a slot: its files one by one, in the order the
    directory is read, and then the directory *)
Definition removal_order (order : list string) (slot : Slot) : list string :=
  List.filter (fun p => bool_decide (is_Some (slot !! p))) order
  ++ List.filter (fun p => negb (existsb (String.eqb p) order)) (map fst (map_to_list slot)).
Fixpoint remove_entries (version : string) (paths : list string) : SM unit :=
  match paths with
  | [] => change_slots (delete version)
  | p :: rest => do _ <- change_slots (alter (delete p) version); remove_entries version rest
  end.
Definition remove_dir_all (order : list string) (version : string) : SM unit :=
  do slot <- sview (fun _ m => match m !! version with
                               | Some slot => Ok slot
                               | None => Err (Errorf "No such file or directory")
                               end);
  remove_entries version (removal_order order slot).
(** [sync_dir(&slots)] *)
Definition sync_slots : SM unit := fun d fs =>
  match next_fate fs with
  | (Done, rest) => Returned (Ok tt) (mkUpdateDisk (dk_root d) (dk_past d) (dk_slots d) []) rest
  | (Failed e, rest) | (Unsynced e, rest) => Returned (Err (Errorf e)) d rest
  | (CrashBefore, _) | (CrashAfter, _) => Crashed d
  end.
(** A step that changes no entry the code reads *)
Definition prepare : SM unit := fun d fs =>
  match next_fate fs with
  | (Done, rest) => Returned (Ok tt) d rest
  | (Failed e, rest) | (Unsynced e, rest) => Returned (Err (Errorf e)) d rest
  | (CrashBefore, _) | (CrashAfter, _) => Crashed d
  end.

(** ** Version floors *)
Definition ErrUnknownInstalledVersion : error :=
  ESentinel "installed bootstrap version is unknown; use a verified full distribution installation to establish the version floor".
Fixpoint is_unknown_installed (e : error) : bool :=
  match e with
  | ESentinel m => m =s "installed bootstrap version is unknown; use a verified full distribution installation to establish the version floor"
  | Wrapf _ source => is_unknown_installed source
  | _ => false
  end.

Definition is_bootstrap (version : string) : bool :=
  starts_with "0.0.0+bootstrap." (default version (strip_prefix "v" version)).

Definition upgrade_floor (s : SlotState) : result string error :=
  let floor := sl_minimum_version s in
  let? _ := (if negb (is_empty floor) then let? _ := parse_release_version floor in Ok tt else Ok tt) in
  if is_bootstrap (sl_current s) then
    if is_empty floor then Err ErrUnknownInstalledVersion else Ok floor
  else if negb (is_empty (sl_current s)) then
    let? _ := parse_release_version (sl_current s) in
    if is_empty floor then Ok (sl_current s)
    else
      let? c := compare_release_versions (sl_current s) floor in
      if c >? 0 then Ok (sl_current s) else Ok floor
  else Ok floor.

Definition installation_minimum (s : SlotState) (proposed : string) : result string error :=
  let? floor := (match upgrade_floor s with
                 | Ok floor => Ok floor
                 | Err e => if is_unknown_installed e then Ok EmptyString else Err e
                 end) in
  if is_empty proposed then
    if negb (is_empty floor) then
      Err (Errorf "full installation cannot erase a recorded version floor; repeat preflight")
    else Ok EmptyString
  else
    let? _ := parse_release_version proposed in
    if negb (is_empty floor) then
      let? c := compare_release_versions proposed floor in
      if c <? 0 then Err (Errorf "full installation cannot lower the recorded version floor") else Ok proposed
    else Ok proposed.

(** ** Reading

    Paths in messages are relative to the update root. *)
Definition undecodable : error := Errorf "undecodable".
Definition require_slot (m : SlotDir) (version : string) : result unit error :=
  if negb (RELEASE_VERSION_PATTERN version) then Err (Errorf "invalid release version")
  else if negb (staged m version) then Err (Errorf "release slot is not staged")
  else Ok tt.

Definition link_version (r : Root) (m : SlotDir) (name : pointer) : result (option string) error :=
  match rt_pointer r name with
  | Absent => Ok None
  | Unusable => Err (Errorf ("readlink " +:+ pointer_name name +:+ ": invalid argument"))
  | Holds target =>
      let cleaned := clean target in
      if is_abs cleaned || (dir cleaned <>s "slots") then Err (Errorf ("unsafe " +:+ pointer_name name +:+ " slot pointer"))
      else
        let version := base cleaned in
        if negb (RELEASE_VERSION_PATTERN version) then Err (Errorf ("invalid " +:+ pointer_name name +:+ " slot pointer"))
        else
          let? _ := map_err (fun e => Errorf (pointer_name name +:+ " slot pointer is broken: " +:+ error_string e))
                      (require_slot m version) in
          Ok (Some version)
  end.

Definition set_minimum (s : SlotState) (v : string) : SlotState :=
  mkSlotState (sl_current s) (sl_previous s) (sl_pending s) v (sl_installation_pending s).
Definition set_installation_pending (s : SlotState) (b : bool) : SlotState :=
  mkSlotState (sl_current s) (sl_previous s) (sl_pending s) (sl_minimum_version s) b.
Definition with_pending_slot (s : SlotState) (v : string) : SlotState :=
  mkSlotState (sl_current s) (sl_previous s) v (sl_minimum_version s) (sl_installation_pending s).

Definition apply_installation_floor (r : Root) (s : SlotState) : result SlotState error :=
  let s := set_installation_pending s false in
  match rt_installation r with
  | Absent => Ok s
  | Unusable => Err undecodable
  | Holds intent =>
      let s := set_installation_pending s true in
      if negb (is_empty (sl_minimum_version intent)) then
        let? _ := parse_release_version (sl_minimum_version intent) in
        if is_empty (sl_minimum_version s) then Ok (set_minimum s (sl_minimum_version intent))
        else
          let? c := compare_release_versions (sl_minimum_version intent) (sl_minimum_version s) in
          if c >? 0 then Ok (set_minimum s (sl_minimum_version intent)) else Ok s
      else Ok s
  end.

(** What the pointers say over what [state.json] says *)
Definition overlay (current previous : option string) (s : SlotState) : SlotState :=
  let s := match current with
           | Some c => mkSlotState c (sl_previous s) (if sl_pending s =s c then EmptyString else sl_pending s)
                         (sl_minimum_version s) (sl_installation_pending s)
           | None => s
           end in
  match previous with
  | Some p => mkSlotState (sl_current s) p (sl_pending s) (sl_minimum_version s) (sl_installation_pending s)
  | None => s
  end.

Definition state_without_operation (r : Root) (m : SlotDir) : result SlotState error :=
  let? s := (match rt_state r with
             | Holds s => Ok s
             | Absent => Ok slot_default
             | Unusable => Err (Wrapf "decode update state" undecodable)
             end) in
  let? current := link_version r m PCurrent in
  let? previous := link_version r m PPrevious in
  apply_installation_floor r (overlay current previous s).

(** ** The journal *)
Fixpoint check_versions (m : SlotDir) (l : list string) : result unit error :=
  match l with
  | [] => Ok tt
  | version :: rest =>
      if is_empty version then check_versions m rest
      else if negb (RELEASE_VERSION_PATTERN version) then Err (Errorf "journal contains an invalid release version")
      else if negb (is_ok (require_slot m version)) then
        Err (Errorf ("journal references an unavailable slot " +:+ debug_str version))
      else check_versions m rest
  end.

Definition validate_journal_state (m : SlotDir) (s : SlotState) : result unit error :=
  let? _ := (if negb (is_empty (sl_minimum_version s)) then
               let? _ := parse_release_version (sl_minimum_version s) in Ok tt else Ok tt) in
  let? _ := check_versions m [sl_current s; sl_previous s; sl_pending s] in
  if negb (is_empty (sl_current s)) && (sl_current s =s sl_previous s) then
    Err (Errorf "current and previous journal slots must differ")
  else Ok tt.

(** The [match] on the kind *)
Definition validate_kind (kind : string) (old next : SlotState) : result unit error :=
  if (kind =s "install") && (is_empty (sl_current next) || negb (is_empty (sl_previous next))) then
    Err (Errorf "invalid full installation journal")
  else if (kind =s "activate")
          && (is_empty (sl_current next) || (sl_current next =s sl_current old) || (sl_previous next <>s sl_current old)) then
    Err (Errorf "invalid activation slot operation journal")
  else if (kind =s "rollback")
          && (is_empty (sl_previous old) || (sl_current next <>s sl_previous old) || (sl_previous next <>s sl_current old)) then
    Err (Errorf "invalid rollback slot operation journal")
  else if (kind =s "install") || (kind =s "activate") || (kind =s "rollback") then Ok tt
  else Err (Errorf "unknown slot operation journal kind").

(** The floor a journal must keep *)
Definition journal_floor (kind : string) (old : SlotState) : result string error :=
  match upgrade_floor old with
  | Err e => if (kind =s "install") && is_unknown_installed e then Ok EmptyString else Err e
  | Ok floor => Ok floor
  end.

Definition validate_operation (m : SlotDir) (o : SlotOperation) : result unit error :=
  if negb (op_version o =? OPERATION_JOURNAL_VERSION) then Err (Errorf "unsupported slot operation journal")
  else
    let old := op_old o in
    let next := op_next o in
    let? _ := map_err (Wrapf "invalid old slot operation state") (validate_journal_state m old) in
    let? _ := map_err (Wrapf "invalid next slot operation state") (validate_journal_state m next) in
    if negb (is_empty (sl_pending next)) then Err (Errorf "completed slot operation state cannot remain pending")
    else
      let? _ := validate_kind (op_kind o) old next in
      let? floor := journal_floor (op_kind o) old in
      let? _ := (if negb (is_empty floor) then
                   let? lowered := (if is_empty (sl_minimum_version next) then Ok true
                                    else let? c := compare_release_versions (sl_minimum_version next) floor in Ok (c <? 0)) in
                   if lowered then Err (Errorf "slot operation journal cannot lower or erase the recorded version floor") else Ok tt
                 else Ok tt) in
      if op_kind o =s "activate" then validate_forward_upgrade (sl_current next) floor else Ok tt.

Definition read_operation (r : Root) (m : SlotDir) : result (option SlotOperation) error :=
  match rt_operation r with
  | Absent => Ok None
  | Unusable => Err (Wrapf "decode slot operation journal" undecodable)
  | Holds o => let? _ := validate_operation m o in Ok (Some o)
  end.

Definition project_operation_state (r : Root) (m : SlotDir) (o : SlotOperation) : result SlotState error :=
  let? _ := validate_operation m o in
  let? current := link_version r m PCurrent in
  let mismatch := Err (Errorf "slot operation journal does not match the current runtime pointer") in
  match current with
  | Some c =>
      if c =s sl_current (op_next o) then Ok (op_next o)
      else if c =s sl_current (op_old o) then Ok (op_old o)
      else mismatch
  | None =>
      if is_empty (sl_current (op_old o)) then Ok (op_old o)
      else if is_empty (sl_current (op_next o)) then Ok (op_next o)
      else mismatch
  end.

Definition state (r : Root) (m : SlotDir) : result SlotState error :=
  let? operation := read_operation r m in
  match operation with
  | Some o => let? s := project_operation_state r m o in apply_installation_floor r s
  | None => state_without_operation r m
  end.

Definition check_installation (r : Root) : result unit error :=
  match rt_installation r with
  | Absent => Ok tt
  | _ => Err (Errorf "full installation is incomplete; finish the full installer before update or rollback")
  end.

(** ** Writing *)
Definition save_state (s : SlotState) : SM unit := change_root (fun r => with_state r (Holds s)).
Definition clear_operation : SM unit := change_root (fun r => with_operation r Absent).
Definition begin_operation (o : SlotOperation) : SM unit :=
  do _ <- sview (fun _ m => validate_operation m o);
  change_root (fun r => with_operation r (Holds o)).

Definition slot_target (version : string) : string := "slots/" +:+ version.
Definition swap_link (name : pointer) (version : string) : SM unit :=
  do _ <- sview (fun _ m => require_slot m version);
  change_root (fun r => with_pointer r name (Holds (slot_target version))).
Definition remove_link (name : pointer) : SM unit := change_root (fun r => with_pointer r name Absent).
Definition restore_link (name : pointer) (version : string) : SM unit :=
  if is_empty version then remove_link name else swap_link name version.

(** Both pointers are attempted; the messages are joined. *)
Definition restore_links (s : SlotState) : SM unit :=
  scall (restore_link PCurrent (sl_current s)) (fun a =>
  scall (restore_link PPrevious (sl_previous s)) (fun b =>
  sret match a, b with
       | Ok _, Ok _ => Ok tt
       | Err e, Ok _ => Err (Errorf (error_string e))
       | Ok _, Err e => Err (Errorf (error_string e))
       | Err e, Err f => Err (Errorf (join (String "010"%char EmptyString) [error_string e; error_string f]))
       end)).

Definition two_lines (a b : string) : error := Errorf (a +:+ String "010"%char b).
Definition abort_operation (old : SlotState) (primary : error) : SM unit :=
  scall (restore_links old) (fun r =>
    match r with
    | Err e => sret (Err (two_lines (error_string primary) ("restore slot pointers: " +:+ error_string e)))
    | Ok _ =>
        scall (save_state old) (fun r =>
          match r with
          | Err e => sret (Err (two_lines (error_string primary) ("restore slot state: " +:+ error_string e)))
          | Ok _ =>
              scall clear_operation (fun r =>
                match r with
                | Err e => sret (Err (two_lines (error_string primary) ("clear aborted slot operation journal: " +:+ error_string e)))
                | Ok _ => sret (Err primary)
                end)
          end)
    end).

Definition commit_operation (kind : string) (old next : SlotState) (mutate : SM unit) : SM unit :=
  let operation := mkOperation OPERATION_JOURNAL_VERSION kind old next in
  do _ <- smap_err (Wrapf "persist slot operation journal") (begin_operation operation);
  scall mutate (fun r =>
    match r with
    | Err e => abort_operation old e
    | Ok _ =>
        scall (save_state next) (fun r =>
          match r with
          | Err e => abort_operation old (Wrapf "persist slot state" e)
          | Ok _ => smap_err (Wrapf "clear completed slot operation journal") clear_operation
          end)
    end).

Definition recover_operation : SM unit :=
  do operation <- sview read_operation;
  match operation with
  | None => sret (Ok tt)
  | Some o =>
      do target <- sview (fun r m => project_operation_state r m o);
      do _ <- smap_err (Wrapf "recover slot pointers") (restore_links target);
      do _ <- smap_err (Wrapf "recover slot state") (save_state target);
      smap_err (Wrapf "clear recovered slot operation journal") clear_operation
  end.

(** ** Operations *)
Record SlotManager := mkManager { sm_root : string; sm_trusted_key : list Z }.

(** [ensure_root] and the lock: the lock serializes the operations *)
Definition with_lock {A} (mgr : SlotManager) (run : SM A) : SM A :=
  if is_empty (trim (sm_root mgr)) then sret (Err (Errorf "update root is required"))
  else do _ <- prepare; run.

Definition recover_first : SM unit := smap_err (Wrapf "recover interrupted slot operation") recover_operation.

(** The payload an inventory describes: every entry a readable regular file *)
Definition inspect_files (l : list (string * option FileInfo)) : result (list (string * string)) error :=
  fold_right (fun e acc =>
    match e with
    | (_, None) => Err (Errorf "unsafe installer payload")
    | (p, Some f) =>
        match fi_sha256 f with
        | None => Err (Errorf "input/output error")
        | Some h => let? rest := acc in Ok ((p, hex_encode h) :: rest)
        end
    end) (Ok []) l.
Definition inventory (l : list (string * string)) : FirmwareManifest :=
  mkManifest EmptyString EmptyString EmptyString (Some l) EmptyString EmptyString.
Definition inspect_local_payload (s : Slot) : result (list (string * string)) error :=
  let? l := inspect_files (map_to_list s) in
  let? _ := validate_appliance_file_modes (tree_of s) (Some (inventory l)) in
  Ok l.

Definition lookup_file (p : string) (l : list (string * string)) : option string :=
  option_map snd (List.find (fun e => fst e =s p) l).
Definition same_hash (l : list (string * string)) (e : string * string) : bool :=
  match lookup_file (fst e) l with Some h => h =s snd e | None => false end.

Section Operations.
Context `{Ed25519} (mgr : SlotManager) (host_arch : string).
(** SHA-256 *)
Context (sha256 : bytes -> list Z).

Definition validate_release_candidate (tree : Tree) (manifest : option FirmwareManifest) : result unit error :=
  validate_release_candidate_for_arch tree manifest (sm_trusted_key mgr) host_arch.

(** [source] is the extracted release; [copied] is what the copy into the
    temporary directory gave, or its failure; [order] is the order in which the
    files of the slot are removed when the staging fails at its end. *)
Definition stage (source : Tree) (copied : result Slot error) (order : list string) (manifest : option FirmwareManifest) : SM unit :=
  with_lock mgr (
    do _ <- sview (fun r _ => check_installation r);
    do _ <- recover_first;
    match manifest with
    | None => sret (Err (Errorf "release version is not a safe semantic version"))
    | Some mf =>
        let version := fm_version mf in
        if negb (RELEASE_VERSION_PATTERN version) then sret (Err (Errorf "release version is not a safe semantic version"))
        else if negb (Nat.eqb (List.length (sm_trusted_key mgr)) 32) then sret (Err ErrInvalidPublicKey)
        else
          do _ <- sret (map_err (Wrapf "verify release source") (validate_release_candidate source (Some mf)));
          do s <- sview state_without_operation;
          do floor <- sret (upgrade_floor s);
          do _ <- sret (validate_forward_upgrade version floor);
          do _ <- sview (fun _ m => if staged m version then Err (Errorf "release version is already staged") else Ok tt);
          do temp <- sret copied;
          do _ <- sret (map_err (Wrapf "verify copied release slot") (validate_release_candidate (tree_of temp) (Some mf)));
          do _ <- smap_err (Wrapf "sync staged slot") prepare;
          do _ <- smap_err (Wrapf "commit staged slot") (change_slots (fun m => <[version := temp]> m));
          scall sync_slots (fun r =>
            match r with
            | Err e => scall (remove_dir_all order version) (fun _ => sret (Err (Wrapf "sync committed slot" e)))
            | Ok _ =>
                scall (save_state (with_pending_slot s version)) (fun r =>
                  match r with
                  | Ok _ => sret (Ok tt)
                  | Err e =>
                      scall (remove_dir_all order version) (fun removed =>
                      scall sync_slots (fun _ =>
                      sret (Err (match removed with
                                 | Err f => two_lines (error_string e) ("remove uncommitted slot: " +:+ error_string f)
                                 | Ok _ => e
                                 end))))
                  end)
            end)
    end).

(** What activation and rollback make of a state *)
Definition activated (version : string) (s : SlotState) : SlotState :=
  mkSlotState version (sl_current s) EmptyString version (sl_installation_pending s).
Definition slots_rolled_back (floor : string) (s : SlotState) : SlotState :=
  mkSlotState (sl_previous s) (sl_current s) EmptyString floor (sl_installation_pending s).

Definition activate (version : string) : SM unit :=
  with_lock mgr (
    do _ <- sview (fun r _ => check_installation r);
    do _ <- recover_first;
    if negb (RELEASE_VERSION_PATTERN version) then sret (Err (Errorf "invalid release version"))
    else
      do _ <- sview (fun _ m => require_slot m version);
      do s <- sview state_without_operation;
      if sl_current s =s version then save_state (with_pending_slot s EmptyString)
      else
        do floor <- sret (upgrade_floor s);
        do _ <- sret (validate_forward_upgrade version floor);
        commit_operation "activate" s (activated version s) (
          do _ <- (if negb (is_empty (sl_current s)) then
                     smap_err (Wrapf "prepare previous slot pointer") (swap_link PPrevious (sl_current s))
                   else remove_link PPrevious);
          smap_err (Wrapf "activate slot pointer") (swap_link PCurrent version))).

Definition rollback : SM unit :=
  with_lock mgr (
    do _ <- sview (fun r _ => check_installation r);
    do _ <- recover_first;
    do s <- sview state_without_operation;
    if is_empty (sl_previous s) then sret (Err (Errorf "no previous release slot is available"))
    else
      do _ <- sview (fun _ m => if is_ok (require_slot m (sl_previous s)) then Ok tt
                                else Err (Errorf "previous release slot is missing"));
      do floor <- sret (upgrade_floor s);
      let next := slots_rolled_back floor s in
      commit_operation "rollback" s next (
        do _ <- smap_err (Wrapf "restore current slot pointer") (swap_link PCurrent (sl_current next));
        if negb (is_empty (sl_previous next)) then
          smap_err (Wrapf "preserve rollback slot pointer") (swap_link PPrevious (sl_previous next))
        else remove_link PPrevious)).

Definition begin_installation (minimum : string) : SM unit :=
  with_lock mgr (
    do _ <- recover_operation;
    do s <- sview state_without_operation;
    do minimum <- sret (installation_minimum s minimum);
    change_root (fun r => with_installation r (Holds (set_minimum slot_default minimum)))).

Definition baseline_version (inv : FirmwareManifest) : string :=
  "0.0.0+bootstrap." +:+ hex_encode (take 16 (sha256 (signed_payload inv))).
Definition installed (version minimum : string) : SlotState := mkSlotState version EmptyString EmptyString minimum false.

(** The loop over the inventory: a path is checked, then copied. *)
Fixpoint copy_files (copy : string -> result unit error) (l : list (string * string)) : result unit error :=
  match l with
  | [] => Ok tt
  | (relative, _) :: rest =>
      if negb (is_local relative) || (clean relative <>s relative) then Err (Errorf ("unsafe installer path: " +:+ relative))
      else let? _ := copy relative in copy_files copy rest
  end.

(** [temp] is what the temporary directory holds after the copies. *)
Definition copy_checked (inv : FirmwareManifest) (copy : string -> result unit error) (temp : Slot) : result Slot error :=
  let? _ := copy_files copy (files inv) in
  let? seen := inspect_local_payload temp in
  match List.find (fun e => negb (same_hash seen e)) (files inv) with
  | Some e => Err (Errorf ("installer payload changed during copy: " +:+ fst e))
  | None => Ok temp
  end.

Definition check_existing (inv : FirmwareManifest) (slot : Slot) : result unit error :=
  let? existing := inspect_local_payload slot in
  if negb (Nat.eqb (List.length existing) (List.length (files inv))) then
    Err (Errorf "existing baseline contains a different file inventory")
  else if existsb (fun e => negb (same_hash existing e)) (files inv) then Err (Errorf "existing baseline contents differ")
  else Ok tt.

Definition install_baseline (copy : string -> result unit error) (copied : Slot) (inv : FirmwareManifest) (minimum : string)
  : SM unit :=
  with_lock mgr (
    do _ <- recover_operation;
    do s <- sview state_without_operation;
    do minimum <- sret (installation_minimum s minimum);
    let version := baseline_version inv in
    do temp <- sret (copy_checked inv copy copied);
    do _ <- smap_err (Wrapf "persist complete baseline") prepare;
    do found <- sview (fun _ m => Ok (m !! version));
    do _ <- (match found with
             | None => change_slots (fun m => <[version := temp]> m)
             | Some slot => do _ <- sret (check_existing inv slot); prepare
             end);
    do _ <- sync_slots;
    do old <- sview state_without_operation;
    do _ <- commit_operation "install" old (installed version minimum) (
              do _ <- remove_link PPrevious;
              swap_link PCurrent version);
    change_root (fun r => with_installation r Absent)).
End Operations.
