(* ===== verification/SlotsSpec.v ===== *)
(** * Release slots survive failures and power loss

    A small crash logic for the operations of [Slots], the invariant of the
    update root, and what every operation makes of it whatever the operating
    system does with each of its changes. *)

From Stdlib Require Import ZArith Ascii String Lia Bool.
From stdpp Require Import base list strings gmap.
From S2P Require Import Prelude GoStrings Net NetSpec GoPath Json Model Validation ValidationSpec Policy Firmware FirmwareSpec Slots.

Local Open Scope string_scope.
Local Open Scope Z_scope.
Local Open Scope list_scope.

(** ** Pointers *)
Lemma version_no_slash v : RELEASE_VERSION_PATTERN v = true -> forallb not_slash (bytes_of v) = true.
Proof.
  unfold RELEASE_VERSION_PATTERN. generalize (bytes_of v). intros l (x & y & z & rest & Hl & Hs & Hd)%release_pattern_shape.
  assert (Hdig : forall ds, forallb is_ascii_digit ds = true -> forallb not_slash ds = true).
  { intros ds Hds. unfold not_slash. by apply (digits_no_char slash). }
  assert (Hrest : forallb not_slash rest = true).
  { destruct rest as [|a [|b t]]; [done|cbn in Hs; by rewrite andb_false_r in Hs|]. cbn [version_suffix] in Hs. to_prop.
    assert (Ha : not_slash a = true).
    { unfold not_slash. destruct (Ascii.eqb_spec a slash) as [->|]; done. }
    change (not_slash a && forallb not_slash (b :: t) = true). rewrite Ha. cbn [andb]. apply forallb_forall.
    rewrite forallb_forall in H0. intros c Hc. specialize (H0 c Hc). unfold not_slash.
    destruct (Ascii.eqb_spec c slash) as [->|]; [by vm_compute in H0|done]. }
  assert (Hb : forallb not_slash (strip_v l) = true).
  { repeat (apply Forall_cons in Hd as [[_ ?] Hd]). rewrite Hl, forallb_app. cbn [forallb]. rewrite forallb_app. cbn [forallb].
    by rewrite forallb_app, (Hdig x), (Hdig y), (Hdig z), Hrest. }
  unfold strip_v in Hb. destruct l as [|a l]; [done|]. destruct (Ascii.eqb_spec a "v"%char) as [->|]; [|done].
  exact Hb.
Qed.

Lemma version_proper v : RELEASE_VERSION_PATTERN v = true -> proper_name (bytes_of v).
Proof.
  intros Hv. split_and!; intros Hq; apply (f_equal str_of) in Hq; rewrite str_of_bytes_of in Hq; subst v; vm_compute in Hv; done.
Qed.

Lemma slot_target_bytes v : bytes_of (slot_target v) = bytes_of "slots" ++ slash :: bytes_of v.
Proof. unfold slot_target. rewrite bytes_of_app. done. Qed.

Lemma slot_target_clean v : RELEASE_VERSION_PATTERN v = true -> clean (slot_target v) = slot_target v.
Proof.
  intros Hv. unfold clean. rewrite proper_clean, str_of_bytes_of; [done|]. unfold proper_path.
  rewrite slot_target_bytes, split_bytes_app, split_bytes_single by (done || by apply version_no_slash).
  constructor; [done|]. constructor; [by apply version_proper|done].
Qed.

Lemma rfind_none c l : forallb (fun a => negb (Ascii.eqb a c)) l = true -> rfind_byte c l = None.
Proof. induction l as [|a l IH]; [done|]. cbn. intros Hl. to_prop. by rewrite IH, H. Qed.

Lemma rfind_last c x y : forallb (fun a => negb (Ascii.eqb a c)) y = true -> rfind_byte c (x ++ c :: y) = Some (List.length x).
Proof.
  intros Hy. induction x as [|a x IH]; cbn; [by rewrite (rfind_none c y), Ascii.eqb_refl|by rewrite IH].
Qed.

Lemma slot_target_dir v : RELEASE_VERSION_PATTERN v = true -> dir (slot_target v) = "slots".
Proof.
  intros Hv. unfold dir. rewrite slot_target_bytes, rfind_last by (by apply version_no_slash). done.
Qed.

Lemma slot_target_base v : RELEASE_VERSION_PATTERN v = true -> base (slot_target v) = v.
Proof.
  intros Hv. pose proof (version_no_slash v Hv) as Hs. pose proof (version_proper v Hv) as [Hne _]. unfold base.
  destruct (String.eqb_spec (slot_target v) EmptyString) as [Hz|_]; [done|]. rewrite slot_target_bytes.
  assert (Ht : rev (drop_while (fun a => Ascii.eqb a slash) (rev (bytes_of "slots" ++ slash :: bytes_of v)))
    = bytes_of "slots" ++ slash :: bytes_of v).
  { rewrite rev_app_distr. destruct (rev (slash :: bytes_of v)) as [|a t] eqn:Er.
    - apply (f_equal (@rev _)) in Er. by rewrite rev_involutive in Er.
    - cbn [app drop_while]. assert (Ha : Ascii.eqb a slash = false).
      { cbn [rev] in Er. destruct (rev (bytes_of v)) as [|b t'] eqn:Ev.
        - apply (f_equal (@rev _)) in Ev. by rewrite rev_involutive in Ev.
        - cbn in Er. injection Er as -> _. rewrite <- forallb_rev, Ev in Hs. cbn in Hs. apply andb_prop in Hs as [Hb _].
          by apply negb_true_iff in Hb. }
      rewrite Ha. change (a :: t ++ rev (bytes_of "slots")) with ((a :: t) ++ rev (bytes_of "slots")).
      by rewrite <- Er, <- rev_app_distr, rev_involutive. }
  rewrite Ht. destruct (bytes_of "slots" ++ slash :: bytes_of v) eqn:El; [done|]. rewrite <- El.
  rewrite split_bytes_app, split_bytes_single by done. cbn. apply str_of_bytes_of.
Qed.

Lemma require_slot_ok m v : require_slot m v = Ok tt <-> RELEASE_VERSION_PATTERN v = true /\ is_Some (m !! v).
Proof.
  unfold require_slot, staged. destruct (RELEASE_VERSION_PATTERN v); cbn [negb]; [|naive_solver].
  case_bool_decide; cbn; naive_solver.
Qed.

(** The link that stands for a version; none for the empty one *)
Definition link_to (v : string) : entry string := if is_empty v then Absent else Holds (slot_target v).

Lemma link_version_target r m name v : rt_pointer r name = Holds (slot_target v) -> require_slot m v = Ok tt ->
  link_version r m name = Ok (Some v).
Proof.
  intros Hr Hs. pose proof (proj1 (require_slot_ok m v) Hs) as [Hv _]. unfold link_version. rewrite Hr. cbn zeta.
  rewrite slot_target_clean, slot_target_dir, slot_target_base, Hv, Hs by done. done.
Qed.

Lemma link_version_to r m name v : rt_pointer r name = link_to v -> (v = EmptyString \/ require_slot m v = Ok tt) ->
  link_version r m name = Ok (if is_empty v then None else Some v).
Proof.
  unfold link_to, is_empty. destruct (String.eqb_spec v EmptyString) as [->|Hne]; intros Hr Hs.
  - unfold link_version. by rewrite Hr.
  - destruct Hs as [?|Hs]; [done|]. by apply link_version_target.
Qed.

(** ** More slots never hurt *)
Definition below (a b : SlotDir) : Prop := forall v, is_Some (a !! v) -> is_Some (b !! v).

Lemma below_refl m : below m m.
Proof. by intros v. Qed.
Lemma below_trans a b c : below a b -> below b c -> below a c.
Proof. intros H1 H2 v Hv. by apply H2, H1. Qed.
#[export] Hint Resolve below_refl : mr.

Lemma require_slot_below a b v : below a b -> require_slot a v = Ok tt -> require_slot b v = Ok tt.
Proof. intros Hb. rewrite !require_slot_ok. intros [? ?]. split; [done|]. by apply Hb. Qed.

Lemma check_versions_below a b l : below a b -> check_versions a l = Ok tt -> check_versions b l = Ok tt.
Proof.
  intros Hb. induction l as [|v l IH]; [done|]. cbn. destruct (is_empty v); [done|].
  destruct (RELEASE_VERSION_PATTERN v); [|done]. cbn [negb]. intros Hq.
  destruct (require_slot a v) as [[]|] eqn:Ea; [|done]. rewrite (require_slot_below a b v Hb Ea). by apply IH.
Qed.

Lemma journal_state_below a b s : below a b -> validate_journal_state a s = Ok tt -> validate_journal_state b s = Ok tt.
Proof.
  intros Hb. unfold validate_journal_state. rewrite !seq_ok. intros (Hm & Hv & Hd). split; [done|]. split; [|done].
  by apply (check_versions_below a).
Qed.

Lemma validate_operation_below a b o : below a b -> validate_operation a o = Ok tt -> validate_operation b o = Ok tt.
Proof.
  intros Hb. unfold validate_operation. destruct (negb _); [done|]. cbn zeta. rewrite !seq_ok, !map_err_ok.
  intros (H1 & H2 & H3). split_and!; [by apply (journal_state_below a)|by apply (journal_state_below a)|done].
Qed.

(** A journal accepted on [a] is accepted on [b] when the slots it names are there *)
Lemma check_versions_named a b l : check_versions a l = Ok tt ->
  (forall v, In v l -> require_slot a v = Ok tt -> v = EmptyString \/ require_slot b v = Ok tt) -> check_versions b l = Ok tt.
Proof.
  induction l as [|v l IH]; [done|]. cbn. intros Hq Hn. assert (Hl : check_versions a l = Ok tt -> check_versions b l = Ok tt) by auto.
  unfold is_empty in *. destruct (String.eqb_spec v EmptyString); [by apply Hl|].
  destruct (RELEASE_VERSION_PATTERN v); [|done]. cbn [negb] in *. destruct (require_slot a v) as [[]|] eqn:Ea; [|done].
  destruct (Hn v) as [?|Hb]; [by left|done|done|]. rewrite Hb. by apply Hl.
Qed.

Definition named (o : SlotOperation) : list string :=
  [sl_current (op_old o); sl_previous (op_old o); sl_pending (op_old o); sl_current (op_next o); sl_previous (op_next o); sl_pending (op_next o)].
Lemma validate_operation_named a b o : validate_operation a o = Ok tt ->
  (forall v, In v (named o) -> require_slot a v = Ok tt -> v = EmptyString \/ require_slot b v = Ok tt) -> validate_operation b o = Ok tt.
Proof.
  intros Hv Hn. assert (Hj : forall s, (forall v, In v [sl_current s; sl_previous s; sl_pending s] -> In v (named o)) ->
    validate_journal_state a s = Ok tt -> validate_journal_state b s = Ok tt).
  { intros s Hs. unfold validate_journal_state. rewrite !seq_ok. intros (Hm & Hc & Hd). split; [done|]. split; [|done].
    eapply check_versions_named; [done|]. intros v Hin. by apply Hn, Hs. }
  revert Hv. unfold validate_operation. destruct (negb _); [done|]. cbn zeta. rewrite !seq_ok, !map_err_ok.
  intros (H1 & H2 & H3). split_and!; [apply Hj; [|done]|apply Hj; [|done]|done]; unfold named; cbn; tauto.
Qed.

(** What a valid journal says *)
Record sound_operation (m : SlotDir) (o : SlotOperation) : Prop := {
  so_old : validate_journal_state m (op_old o) = Ok tt;
  so_next : validate_journal_state m (op_next o) = Ok tt;
  so_kind : validate_kind (op_kind o) (op_old o) (op_next o) = Ok tt;
  so_target : sl_current (op_next o) <> EmptyString;
}.

Lemma validate_kind_target kind old next : validate_kind kind old next = Ok tt -> sl_current next <> EmptyString.
Proof.
  unfold validate_kind. intros Hk Hn. rewrite Hn in Hk. cbn [is_empty String.eqb] in Hk. change (is_empty EmptyString) with true in Hk.
  destruct (kind =s "install"); [done|]. destruct (kind =s "activate"); [done|]. cbn [andb] in Hk.
  destruct (kind =s "rollback"); [|done]. destruct (sl_previous old) eqn:Ep; [done|]. done.
Qed.

Lemma validate_operation_sound m o : validate_operation m o = Ok tt -> sound_operation m o.
Proof.
  unfold validate_operation. destruct (negb _); [done|]. cbn zeta. rewrite !seq_ok, !map_err_ok. intros (H1 & H2 & H3).
  destruct (negb (is_empty _)); [done|]. apply seq_ok in H3 as [H3 _]. split; try done. by eapply validate_kind_target.
Qed.

Lemma check_versions_in m l v : check_versions m l = Ok tt -> In v l -> v = EmptyString \/ require_slot m v = Ok tt.
Proof.
  induction l as [|w l IH]; [done|]. cbn. unfold is_empty. intros Hc [->|Hin].
  - destruct (String.eqb_spec v EmptyString); [by left|]. right. destruct (RELEASE_VERSION_PATTERN v); [|done]. cbn [negb] in Hc.
    by destruct (require_slot m v) as [[]|].
  - apply IH; [|done]. destruct (String.eqb_spec w EmptyString); [done|]. destruct (RELEASE_VERSION_PATTERN w); [|done].
    cbn [negb] in Hc. by destruct (require_slot m w).
Qed.

Lemma journal_state_slots m s v : validate_journal_state m s = Ok tt -> In v [sl_current s; sl_previous s; sl_pending s] ->
  v = EmptyString \/ require_slot m v = Ok tt.
Proof. unfold validate_journal_state. rewrite !seq_ok. intros (_ & Hc & _). by apply check_versions_in. Qed.

(** ** The invariant of the update root

    [Q] holds of every state the root may show, now or after a power loss. *)

(** What a [state.json] shows once its pointers are there *)
Definition shown (s : SlotState) : SlotState :=
  if is_empty (sl_current s) then s else overlay (Some (sl_current s)) None s.

(** The state a journal stands for while [current] points to [c] *)
Definition landing (o : SlotOperation) (c : string) : SlotState :=
  if sl_current (op_next o) =s c then op_next o else op_old o.

Definition version_or_empty (v : string) : Prop := v = EmptyString \/ exists p, parse_release_version v = Ok p.
Definition intent_ok (e : entry SlotState) : Prop :=
  match e with Absent => True | Unusable => False | Holds i => version_or_empty (sl_minimum_version i) end.

Section Invariant.
Context (Q : SlotState -> Prop) (B : SlotDir).

Definition good (s : SlotState) : Prop := version_or_empty (sl_minimum_version s) /\ shown s = s /\ Q s.

(** No pointer is being moved; a journal that is still there, or may come back,
    agrees with the pointers. *)
Record resting (c p : string) (r : Root) : Prop := {
  rs_current : rt_current r = link_to c;
  rs_previous : rt_previous r = link_to p \/ rt_previous r = Absent;
  rs_state : match rt_state r with
             | Absent => c = EmptyString /\ p = EmptyString /\ good slot_default
             | Unusable => False
             | Holds s => sl_current s = c /\ sl_previous s = p /\ good (shown s)
             end;
  rs_operation : match rt_operation r with
                 | Absent => True
                 | Unusable => False
                 | Holds o => validate_operation B o = Ok tt /\ (c = sl_current (op_old o) \/ c = sl_current (op_next o))
                     /\ good (landing o c) /\ (sl_previous (landing o c) = p \/ sl_previous (landing o c) = EmptyString)
                 end;
  rs_installation : intent_ok (rt_installation r);
}.

(** The journal is on the medium and [current] is one of its two versions. *)
Record moving (o : SlotOperation) (r : Root) : Prop := {
  mv_operation : rt_operation r = Holds o;
  mv_current : exists c, rt_current r = link_to c /\ (c = sl_current (op_old o) \/ c = sl_current (op_next o)) /\ good (landing o c);
  mv_installation : intent_ok (rt_installation r);
}.

Definition usable (v : string) : Prop := v = EmptyString \/ require_slot B v = Ok tt.
End Invariant.

Definition roots (d : UpdateDisk) : list Root := dk_root d :: dk_past d.
Definition slot_dirs (d : UpdateDisk) : list SlotDir := dk_slots d :: dk_slots_past d.

Inductive Safe (Q : SlotState -> Prop) (d : UpdateDisk) : Prop :=
| safe_resting B c p : Forall (below B) (slot_dirs d) -> usable B c -> usable B p -> Forall (resting Q B c p) (roots d) -> Safe Q d
| safe_moving B o : Forall (below B) (slot_dirs d) -> validate_operation B o = Ok tt -> Forall (moving Q o) (roots d) -> Safe Q d.

(** ** Power loss: every entry has one of the values the medium may hold. *)
Definition mixture (rs : list Root) (r : Root) : Prop :=
  (exists h, In h rs /\ rt_state r = rt_state h) /\ (exists h, In h rs /\ rt_operation r = rt_operation h)
  /\ (exists h, In h rs /\ rt_installation r = rt_installation h) /\ (exists h, In h rs /\ rt_current r = rt_current h)
  /\ (exists h, In h rs /\ rt_previous r = rt_previous h).
Definition slot_mixture (ms : list SlotDir) (m : SlotDir) : Prop := forall v, exists h, In h ms /\ m !! v = h !! v.
Definition reboots (d d' : UpdateDisk) : Prop :=
  mixture (roots d) (dk_root d') /\ dk_past d' = [] /\ slot_mixture (slot_dirs d) (dk_slots d') /\ dk_slots_past d' = [].

Lemma mixture_resting Q B c p rs r : Forall (resting Q B c p) rs -> mixture rs r -> resting Q B c p r.
Proof.
  intros Hf ((h1 & I1 & E1) & (h2 & I2 & E2) & (h3 & I3 & E3) & (h4 & I4 & E4) & (h5 & I5 & E5)).
  rewrite List.Forall_forall in Hf. split.
  - rewrite E4. apply (Hf h4 I4).
  - rewrite E5. apply (Hf h5 I5).
  - rewrite E1. apply (Hf h1 I1).
  - rewrite E2. apply (Hf h2 I2).
  - rewrite E3. apply (Hf h3 I3).
Qed.

Lemma mixture_moving Q o rs r : Forall (moving Q o) rs -> mixture rs r -> moving Q o r.
Proof.
  intros Hf ((h1 & I1 & E1) & (h2 & I2 & E2) & (h3 & I3 & E3) & (h4 & I4 & E4) & (h5 & I5 & E5)).
  rewrite List.Forall_forall in Hf. split.
  - rewrite E2. apply (Hf h2 I2).
  - rewrite E4. apply (Hf h4 I4).
  - rewrite E3. apply (Hf h3 I3).
Qed.

Lemma mixture_below B ms m : Forall (below B) ms -> slot_mixture ms m -> below B m.
Proof.
  intros Hf Hm v Hv. destruct (Hm v) as (h & Hin & ->). rewrite List.Forall_forall in Hf. by apply (Hf h Hin).
Qed.

Lemma Safe_reboots Q d d' : Safe Q d -> reboots d d' -> Safe Q d'.
Proof.
  intros [B c p Hb Hc Hp Hr|B o Hb Ho Hr] (Hm & Hpast & Hs & Hsp).
  - apply (safe_resting Q d' B c p); [|done|done|].
    + unfold slot_dirs. rewrite Hsp. constructor; [by eapply mixture_below|done].
    + unfold roots. rewrite Hpast. constructor; [by eapply mixture_resting|done].
  - apply (safe_moving Q d' B o); [|done|].
    + unfold slot_dirs. rewrite Hsp. constructor; [by eapply mixture_below|done].
    + unfold roots. rewrite Hpast. constructor; [by eapply mixture_moving|done].
Qed.

(** The installation journal can only raise the floor. *)
Definition raises (s s' : SlotState) : Prop :=
  sl_current s' = sl_current s /\ sl_previous s' = sl_previous s /\ sl_pending s' = sl_pending s
  /\ (sl_minimum_version s' = sl_minimum_version s
      \/ exists p c, parse_release_version (sl_minimum_version s') = Ok p /\ sl_minimum_version s' <> EmptyString
         /\ (sl_minimum_version s = EmptyString
             \/ compare_release_versions (sl_minimum_version s') (sl_minimum_version s) = Ok c /\ 0 < c)).
Definition closed (Q : SlotState -> Prop) : Prop := forall s s', raises s s' -> Q s -> Q s'.

Lemma compare_versions_ok a b p q : parse_release_version a = Ok p -> parse_release_version b = Ok q ->
  exists c, compare_release_versions a b = Ok c.
Proof. unfold compare_release_versions. intros -> ->. eauto. Qed.

Lemma apply_floor_ok r s : intent_ok (rt_installation r) -> version_or_empty (sl_minimum_version s) ->
  exists s', apply_installation_floor r s = Ok s' /\ raises s s' /\ version_or_empty (sl_minimum_version s').
Proof.
  unfold intent_ok, apply_installation_floor, is_empty. intros Hi Hs. destruct (rt_installation r) as [| |i]; [|done|].
  { eexists. split; [done|]. split; [|done]. by split_and!; [| | |left]. }
  cbn zeta. destruct (String.eqb_spec (sl_minimum_version i) EmptyString) as [He|Hne]; cbn [negb].
  { eexists. split; [done|]. split; [|done]. by split_and!; [| | |left]. }
  destruct Hi as [?|[p Hp]]; [done|]. rewrite Hp. cbn [sl_minimum_version set_installation_pending].
  destruct (String.eqb_spec (sl_minimum_version s) EmptyString) as [He|Hne'].
  { eexists. split; [done|]. split; [|right; by exists p]. split_and!; try done. right. exists p, 0. naive_solver. }
  destruct Hs as [?|[q Hq]]; [done|]. destruct (compare_versions_ok _ _ _ _ Hp Hq) as [c Hc]. rewrite Hc.
  destruct (c >? 0) eqn:Ec; (eexists; split; [done|]; split).
  - split_and!; try done. right. exists p, c. cbn. split; [done|]. split; [done|]. right. split; [done|lia].
  - right. by exists p.
  - by split_and!; [| | |left].
  - right. by exists q.
Qed.

Lemma usable_below B m v : below B m -> usable B v -> v = EmptyString \/ require_slot m v = Ok tt.
Proof. intros Hb [?|Hr]; [by left|right]. by apply (require_slot_below B). Qed.

Lemma is_empty_true v : is_empty v = true -> v = EmptyString.
Proof. apply is_empty_spec. Qed.

Section Reading.
Context (Q : SlotState -> Prop) (HQ : closed Q) (B m : SlotDir) (Hbm : below B m).

Lemma good_raises s s' : raises s s' -> version_or_empty (sl_minimum_version s') -> good Q s -> good Q s'.
Proof.
  intros Hr Hv (_ & Hs & Hg). split; [done|]. split; [|by apply (HQ s)]. destruct Hr as (Hc & Hp & Hd & _).
  unfold shown, overlay in *. destruct s, s'. cbn in *. subst. destruct (_ =s EmptyString); [done|]. injection Hs as Hs. by rewrite Hs.
Qed.

Lemma overlay_rest c p (st : SlotState) previous : sl_current st = c -> sl_previous st = p -> (previous = None \/ previous = Some p) ->
  overlay (if is_empty c then None else Some c) previous st = shown st.
Proof.
  intros <- <- Hp. unfold shown. destruct (is_empty (sl_current st)) eqn:Ec.
  - destruct Hp as [-> | ->]; [done|]. by destruct st.
  - destruct Hp as [-> | ->]; done.
Qed.

(** A resting root shows its pointers. *)
Lemma resting_reads c p r : usable B c -> usable B p -> resting Q B c p r ->
  exists s, state_without_operation r m = Ok s /\ good Q s /\ sl_current s = c /\ sl_previous s = p.
Proof.
  intros Hc Hp [Hrc Hrp Hst _ Hi]. unfold state_without_operation.
  assert (Hs : exists st, (match rt_state r with Holds s => Ok s | Absent => Ok slot_default
      | Unusable => Err (Wrapf "decode update state" undecodable) end) = Ok st
    /\ sl_current st = c /\ sl_previous st = p /\ good Q (shown st)).
  { destruct (rt_state r) as [| |st]; [|done|by exists st]. destruct Hst as (-> & -> & Hg). by exists slot_default. }
  destruct Hs as (st & -> & Hsc & Hsp & Hg).
  rewrite (link_version_to r m PCurrent c) by (done || by apply (usable_below B)).
  assert (Hlp : exists previous, link_version r m PPrevious = Ok previous /\ (previous = None \/ previous = Some p)).
  { destruct Hrp as [Hrp|Hrp].
    - rewrite (link_version_to r m PPrevious p) by (done || by apply (usable_below B)). eexists. split; [done|].
      destruct (is_empty p); auto.
    - unfold link_version. cbn. rewrite Hrp. eauto. }
  destruct Hlp as (previous & -> & Hprev). rewrite (overlay_rest c p st previous Hsc Hsp Hprev).
  pose proof Hg as (Hv & _). destruct (apply_floor_ok r (shown st) Hi Hv) as (s & -> & Hr & Hv').
  exists s. split; [done|]. split; [by apply (good_raises (shown st))|]. destruct Hr as (-> & -> & _).
  unfold shown. by destruct (is_empty (sl_current st)).
Qed.

Lemma projects r o c : validate_operation B o = Ok tt -> rt_current r = link_to c ->
  c = sl_current (op_old o) \/ c = sl_current (op_next o) ->
  project_operation_state r m o = Ok (landing o c) /\ sl_current (landing o c) = c.
Proof.
  intros Hv Hr Hc. pose proof (validate_operation_below B m o Hbm Hv) as Hvm. pose proof (validate_operation_sound m o Hvm) as [Ho Hn _ Ht].
  assert (Hlc : sl_current (landing o c) = c).
  { unfold landing. destruct (String.eqb_spec (sl_current (op_next o)) c); [done|]. by destruct Hc. }
  split; [|done]. unfold project_operation_state. rewrite Hvm.
  rewrite (link_version_to r m PCurrent c); [|done|].
  - unfold landing, is_empty. destruct (String.eqb_spec c EmptyString) as [->|Hne].
    + destruct (String.eqb_spec (sl_current (op_next o)) EmptyString); [done|].
      destruct (String.eqb_spec (sl_current (op_old o)) EmptyString); [done|]. by destruct Hc as [Hc|Hc]; symmetry in Hc.
    + rewrite (String.eqb_sym c (sl_current (op_next o))). destruct (String.eqb_spec (sl_current (op_next o)) c); [done|].
      destruct (String.eqb_spec c (sl_current (op_old o))); [done|]. by destruct Hc as [Hc|Hc]; symmetry in Hc.
  - destruct Hc as [-> | ->]; [apply (journal_state_slots m _ _ Ho)|apply (journal_state_slots m _ _ Hn)]; by left.
Qed.

Lemma reads_operation r o : validate_operation B o = Ok tt -> rt_operation r = Holds o -> read_operation r m = Ok (Some o).
Proof. intros Hv Hr. unfold read_operation. by rewrite Hr, (validate_operation_below B m o Hbm Hv). Qed.

Lemma operation_shows r o c : validate_operation B o = Ok tt -> rt_operation r = Holds o -> rt_current r = link_to c ->
  c = sl_current (op_old o) \/ c = sl_current (op_next o) -> good Q (landing o c) -> intent_ok (rt_installation r) ->
  exists s, state r m = Ok s /\ good Q s /\ sl_current s = c.
Proof.
  intros Hv Ho Hr Hc Hg Hi. unfold state. rewrite (reads_operation r o Hv Ho).
  destruct (projects r o c Hv Hr Hc) as [-> Hlc]. pose proof Hg as [Hmin _].
  destruct (apply_floor_ok r _ Hi Hmin) as (s & -> & Hrs & Hv'). exists s. split; [done|].
  split; [by apply (good_raises _ s Hrs)|]. by destruct Hrs as (-> & _).
Qed.
End Reading.

(** A safe disk can be read: it shows a good state, and [current] points to
    the staged slot of that state. *)
Lemma Safe_shows Q d : closed Q -> Safe Q d -> exists s, state (dk_root d) (dk_slots d) = Ok s /\ good Q s
  /\ rt_current (dk_root d) = link_to (sl_current s)
  /\ (sl_current s = EmptyString \/ require_slot (dk_slots d) (sl_current s) = Ok tt).
Proof.
  intros HQ [B c p Hb Hc Hp Hr|B o Hb Ho Hr]; apply Forall_cons in Hb as [Hb _]; apply Forall_cons in Hr as [Hr _].
  - assert (Hs : exists s, state (dk_root d) (dk_slots d) = Ok s /\ good Q s /\ sl_current s = c).
    { destruct (rt_operation (dk_root d)) as [| |o] eqn:Eo.
      + destruct (resting_reads Q HQ B (dk_slots d) Hb c p (dk_root d) Hc Hp Hr) as (s & Hs & Hg & Hsc & _). exists s.
        unfold state, read_operation. by rewrite Eo.
      + destruct Hr as [_ _ _ Hop _]. by rewrite Eo in Hop.
      + destruct Hr as [Hrc _ _ Hop Hi]. rewrite Eo in Hop. destruct Hop as (Hv & Hcc & Hg & _).
        by apply (operation_shows Q HQ B (dk_slots d) Hb (dk_root d) o c). }
    destruct Hs as (s & Hs & Hg & <-). exists s. split; [done|]. split; [done|]. split; [by destruct Hr|by apply (usable_below B)].
  - destruct Hr as [Eo (c & Hrc & Hcc & Hg) Hi].
    destruct (operation_shows Q HQ B (dk_slots d) Hb (dk_root d) o c Ho Eo Hrc Hcc Hg Hi) as (s & Hs & Hgs & <-).
    exists s. split; [done|]. split; [done|]. split; [done|]. apply (usable_below B); [done|].
    pose proof (validate_operation_sound B o Ho) as [Hold Hnext _ _].
    destruct Hcc as [-> | ->]; [apply (journal_state_slots B _ _ Hold)|apply (journal_state_slots B _ _ Hnext)]; by left.
Qed.

Lemma Safe_state Q d : closed Q -> Safe Q d -> exists s, state (dk_root d) (dk_slots d) = Ok s /\ good Q s.
Proof. intros HQ Hs. destruct (Safe_shows Q d HQ Hs) as (s & ? & ? & _). by exists s. Qed.

(** ** Crash triples

    From [pre], a run that succeeds ends in [ok], and one that fails or is cut
    off anywhere ends in [bad]. *)
Definition triple {A} (pre : UpdateDisk -> Prop) (m : SM A) (ok : A -> UpdateDisk -> Prop) (bad : UpdateDisk -> Prop) : Prop :=
  forall d fs, pre d ->
    match m d fs with
    | Returned (Ok a) d' _ => ok a d'
    | Returned (Err _) d' _ => bad d'
    | Crashed d' => bad d'
    end.

Lemma triple_conseq {A} pre pre' (m : SM A) ok ok' bad bad' :
  triple pre m ok bad -> (forall d, pre' d -> pre d) -> (forall a d, ok a d -> ok' a d) -> (forall d, bad d -> bad' d) ->
  triple pre' m ok' bad'.
Proof. intros Ht Hp Ho Hb d fs Hd. specialize (Ht d fs (Hp d Hd)). destruct (m d fs) as [[a|e] d' fs'|d']; auto. Qed.

Lemma triple_call {A B} pre (m : SM A) (k : result A error -> SM B) mid fail ok bad :
  triple pre m mid fail -> (forall a, triple (mid a) (k (Ok a)) ok bad) -> (forall e, triple fail (k (Err e)) ok bad) ->
  (forall d, fail d -> bad d) -> triple pre (scall m k) ok bad.
Proof.
  intros Hm Hk He Hb d fs Hd. unfold scall. specialize (Hm d fs Hd). destruct (m d fs) as [[a|e] d' fs'|d'].
  - apply (Hk a d' fs' Hm).
  - apply (He e d' fs' Hm).
  - auto.
Qed.

Lemma triple_ret {A} pre (r : result A error) ok bad :
  (forall a d, r = Ok a -> pre d -> ok a d) -> (forall e d, r = Err e -> pre d -> bad d) -> triple pre (sret r) ok bad.
Proof. intros Ho Hb d fs Hd. cbn. destruct r; eauto. Qed.

Lemma triple_bind {A B} pre (m : SM A) (k : A -> SM B) mid ok bad :
  triple pre m mid bad -> (forall a, triple (mid a) (k a) ok bad) -> triple pre (do x <- m; k x) ok bad.
Proof. intros Hm Hk. apply (triple_call _ _ _ mid bad); [done|done| |done]. intros e. by apply triple_ret. Qed.

Lemma triple_map_err {A} pre f (m : SM A) ok bad : triple pre m ok bad -> triple pre (smap_err f m) ok bad.
Proof.
  intros Hm. apply (triple_call _ _ _ ok bad); [done| | |done]; intros x; apply triple_ret; cbn; naive_solver.
Qed.

Lemma triple_view {A} pre (f : Root -> SlotDir -> result A error) ok bad :
  (forall d a, pre d -> f (dk_root d) (dk_slots d) = Ok a -> ok a d) -> (forall d, pre d -> bad d) -> triple pre (sview f) ok bad.
Proof. intros Ho Hb d fs Hd. cbn. destruct (f (dk_root d) (dk_slots d)) eqn:E; eauto. Qed.

Lemma triple_prepare pre bad : (forall d, pre d -> bad d) -> triple pre prepare (fun _ => pre) bad.
Proof. intros Hb d fs Hd. unfold prepare. destruct (next_fate fs) as [[]]; auto. Qed.

Lemma triple_pure {A} (P : Prop) pre (m : SM A) ok bad : (P -> triple pre m ok bad) -> triple (fun d => P /\ pre d) m ok bad.
Proof. intros Ht d fs [HP Hd]. by apply (Ht HP). Qed.

Lemma triple_exists {A X} (pre : X -> UpdateDisk -> Prop) (m : SM A) ok bad :
  (forall x, triple (pre x) m ok bad) -> triple (fun d => exists x, pre x d) m ok bad.
Proof. intros Ht d fs [x Hd]. by apply (Ht x). Qed.

(** ** The update root under changes

    [every P E]: every root the medium may show satisfies [P], the visible one
    also [E]; [only E]: the medium holds the visible root, which satisfies [E].
    The slots are [M], and [B] of them cannot be lost. *)
Section Logic.
Context (B M : SlotDir).

Definition slots_are (d : UpdateDisk) : Prop := dk_slots d = M /\ Forall (below B) (slot_dirs d).
Definition every (P E : Root -> Prop) (d : UpdateDisk) : Prop := slots_are d /\ Forall P (roots d) /\ E (dk_root d).
Definition only (E : Root -> Prop) (d : UpdateDisk) : Prop := slots_are d /\ dk_past d = [] /\ E (dk_root d).
Definition anything (r : Root) : Prop := True.

Lemma only_every P E E' d : only E d -> (forall r, E r -> P r) -> (forall r, E r -> E' r) -> every P E' d.
Proof. intros (Hs & Hp & He) HP HE. split; [done|]. unfold roots. rewrite Hp. auto. Qed.

Lemma every_weaken (P P' E E' : Root -> Prop) d : every P E d -> (forall r, P r -> P' r) -> (forall r, P r -> E r -> E' r) -> every P' E' d.
Proof.
  intros (Hs & Hp & He) HP HE. split; [done|]. split; [by eapply Forall_impl|]. apply Forall_cons in Hp as [Hp _]. auto.
Qed.

Lemma change_triple (P E E' F : Root -> Prop) f :
  (forall r, P r -> E r -> P (f r)) -> (forall r, P r -> E r -> E' (f r)) -> (forall r, P r -> E r -> F r /\ F (f r)) ->
  triple (every P E) (change_root f) (fun _ => only E') (every P F).
Proof.
  intros HP HE HF d fs (Hs & Hr & He). pose proof Hr as Hr'. apply Forall_cons in Hr' as [Hd Hpast].
  destruct (HF _ Hd He) as [HF0 HF1].
  assert (Hc : every P F (mkUpdateDisk (f (dk_root d)) (dk_root d :: dk_past d) (dk_slots d) (dk_slots_past d))).
  { split; [done|]. split; [|done]. constructor; [by apply HP|done]. }
  unfold change_root. destruct (next_fate fs) as [[]]; cbn.
  - split; [done|]. split; [done|]. by apply HE.
  - by split.
  - done.
  - by split.
  - done.
Qed.

(** Both pointers *)
Definition keeps_pointers (P : Root -> Prop) (s : SlotState) : Prop :=
  (forall r, P r -> P (with_pointer r PCurrent (link_to (sl_current s))))
  /\ (forall r, P r -> P (with_pointer r PPrevious (link_to (sl_previous s)))).

Lemma restore_link_triple (P E E' : Root -> Prop) name v :
  (forall r, P r -> P (with_pointer r name (link_to v))) -> (forall r, E r -> E (with_pointer r name (link_to v))) ->
  (forall r, P r -> E r -> E' (with_pointer r name (link_to v))) ->
  triple (every P E) (restore_link name v) (fun _ => only E') (every P E).
Proof.
  intros HP HE HE'. unfold restore_link, link_to in *. destruct (is_empty v).
  - apply change_triple; eauto.
  - apply (triple_bind _ _ _ (fun _ => every P E)); [by apply triple_view|]. intros _. apply change_triple; eauto.
Qed.

Lemma restore_links_triple (P E : Root -> Prop) s : keeps_pointers P s -> keeps_pointers E s ->
  triple (every P E) (restore_links s)
    (fun _ => only (fun r => P r /\ E r /\ rt_current r = link_to (sl_current s) /\ rt_previous r = link_to (sl_previous s)))
    (every P E).
Proof.
  intros [Pc Pp] [Ec Ep]. unfold restore_links.
  set (X := fun r => P r /\ E r /\ rt_current r = link_to (sl_current s)).
  assert (Hweak : forall F : Root -> Prop, (forall r, F r -> P r /\ E r) -> forall d, only F d -> every P E d)
    by (intros F HF d Hd; apply (only_every P F E d Hd); intros r Hr; by apply HF).
  eapply (triple_call _ _ _ (fun _ => only X) (every P E)); [| | |done].
  - apply restore_link_triple; [done|done|]. intros r Hr He. unfold X. auto.
  - intros u. eapply (triple_call _ _ _ _ (every P E)); [| |intros e; by apply triple_ret|done].
    + eapply triple_conseq; [apply (restore_link_triple P X
          (fun r => P r /\ E r /\ rt_current r = link_to (sl_current s) /\ rt_previous r = link_to (sl_previous s)) PPrevious); [done| |]
          | | intros a d Hd; exact Hd |].
      * intros r (? & ? & ?). unfold X. auto.
      * intros r _ (? & ? & ?). auto.
      * intros d Hd. apply (only_every P X X d Hd); [by intros r [? _]|done].
      * intros d Hd. apply (every_weaken P P X E d Hd); [done|]. by intros r _ (_ & ? & _).
    + intros u'. by apply triple_ret.
  - intros e. eapply (triple_call _ _ _ (fun _ => only (fun r => P r /\ E r)) (every P E)).
    + apply restore_link_triple; auto.
    + intros u. apply triple_ret; [done|]. intros f d _. apply Hweak. done.
    + intros f. by apply triple_ret.
    + done.
Qed.
End Logic.

(** ** Recovery and the journalled operations *)
Section Transactions.
Context (Q : SlotState -> Prop) (HQ : closed Q) (B M : SlotDir).

Definition settled (t : SlotState) (r : Root) : Prop :=
  rt_state r = Holds t /\ rt_operation r = Absent /\ rt_current r = link_to (sl_current t)
  /\ rt_previous r = link_to (sl_previous t) /\ intent_ok (rt_installation r).

(** [t] is a state the journal [o] can be closed at. *)
Record closes (o : SlotOperation) (t : SlotState) : Prop := {
  cl_valid : validate_operation B o = Ok tt;
  cl_side : sl_current t = sl_current (op_old o) \/ sl_current t = sl_current (op_next o);
  cl_good : good Q t;
  cl_landing : good Q (landing o (sl_current t));
  cl_previous : sl_previous (landing o (sl_current t)) = sl_previous t \/ sl_previous (landing o (sl_current t)) = EmptyString;
  cl_usable : usable B (sl_current t) /\ usable B (sl_previous t);
}.

Lemma every_moving_safe o E d : validate_operation B o = Ok tt -> every B M (moving Q o) E d -> Safe Q d.
Proof. intros Hv ((_ & Hs) & Hr & _). by apply (safe_moving Q d B o). Qed.
Lemma every_resting_safe c p E d : usable B c -> usable B p -> every B M (resting Q B c p) E d -> Safe Q d.
Proof. intros Hc Hp ((_ & Hs) & Hr & _). by apply (safe_resting Q d B c p). Qed.

Lemma settled_resting t r : good Q t -> settled t r -> resting Q B (sl_current t) (sl_previous t) r.
Proof.
  intros Hg (Hst & Hop & Hc & Hp & Hi). split; [done|by left| | |done].
  - rewrite Hst. split; [done|]. split; [done|]. pose proof Hg as (_ & Hs & _). by rewrite Hs.
  - by rewrite Hop.
Qed.

(** The root while the journal is being closed at [t] *)
Definition closing (o : SlotOperation) (t : SlotState) (r : Root) : Prop :=
  moving Q o r /\ rt_current r = link_to (sl_current t) /\ rt_previous r = link_to (sl_previous t).

Lemma save_triple o t :
  triple (only B M (closing o t)) (save_state t) (fun _ => only B M (fun r => closing o t r /\ rt_state r = Holds t))
    (every B M (moving Q o) anything).
Proof.
  eapply triple_conseq; [apply (change_triple B M (moving Q o) (closing o t)
    (fun r => closing o t r /\ rt_state r = Holds t) anything)| |done|done].
  - intros r [Ho Hc Hi] _. by split.
  - intros r _ ([Ho Hc Hi] & ? & ?). split; [|done]. split; [by split|done].
  - done.
  - intros d Hd. apply (only_every B M _ _ _ d Hd); [by intros r [? _]|done].
Qed.

Lemma closing_resting o t r op : closes o t -> closing o t r -> rt_state r = Holds t -> (op = Absent \/ op = Holds o) ->
  resting Q B (sl_current t) (sl_previous t) (with_operation r op).
Proof.
  intros [Hv Hside Hg Hl Hp _] ([Ho _ Hi] & Hc & Hpr) Hst Hop. split; [done|by left| | |done]; cbn.
  - rewrite Hst. split; [done|]. split; [done|]. pose proof Hg as (_ & -> & _). done.
  - by destruct Hop as [-> | ->].
Qed.

Lemma clear_triple o t : closes o t ->
  triple (only B M (fun r => closing o t r /\ rt_state r = Holds t)) clear_operation (fun _ => only B M (settled t))
    (every B M (resting Q B (sl_current t) (sl_previous t)) anything).
Proof.
  intros Hcl. eapply triple_conseq; [apply (change_triple B M (resting Q B (sl_current t) (sl_previous t))
    (fun r => closing o t r /\ rt_state r = Holds t) (settled t) anything)| |done|done].
  - intros r _ [Hc Hst]. apply (closing_resting o t r Absent Hcl Hc Hst). by left.
  - intros r _ [([Ho _ Hi] & Hc & Hp) Hst]. done.
  - done.
  - intros d Hd. apply (only_every B M _ _ _ d Hd); [|done]. intros r [Hc Hst].
    pose proof (closing_resting o t r (Holds o) Hcl Hc Hst (or_intror eq_refl)) as Hr.
    destruct Hc as [[Ho _ _] _]. destruct r. cbn in *. by subst.
Qed.

Lemma moving_keeps o t : good Q (landing o (sl_current t)) ->
  (sl_current t = sl_current (op_old o) \/ sl_current t = sl_current (op_next o)) -> keeps_pointers (moving Q o) t.
Proof.
  intros Hg Hs. split; intros r [Ho Hc Hi]; (split; [done| |done]); [|done]. exists (sl_current t). done.
Qed.
Lemma abort_triple o old e : closes o old ->
  triple (every B M (moving Q o) anything) (abort_operation old e) (fun _ _ => False) (Safe Q).
Proof.
  intros Hcl. pose proof Hcl as [Hv Hside _ Hl _ [Huc Hup]]. unfold abort_operation.
  assert (Hsafe : forall E d, every B M (moving Q o) E d -> Safe Q d) by (intros E d; by apply every_moving_safe).
  eapply triple_call; [apply (restore_links_triple B M (moving Q o) anything old); [by apply moving_keeps|done]| | |by apply Hsafe].
  - intros ?. eapply triple_call.
    + eapply triple_conseq; [apply (save_triple o old)| |intros ? ? Hd; exact Hd|intros ? Hd; exact Hd].
      intros d (Hs & Hp & Hr). split; [done|]. split; [done|]. unfold closing. tauto.
    + intros ?. eapply triple_call; [by apply clear_triple| | |].
      * intros ?. apply triple_ret; [done|]. intros f d _ (Hs & Hp & Hr).
        apply (every_resting_safe (sl_current old) (sl_previous old) anything d Huc Hup).
        apply (only_every B M _ (settled old)); [done| |done]. intros r. apply settled_resting. by destruct Hcl.
      * intros f. apply triple_ret; [done|]. intros g d _. by apply every_resting_safe.
      * intros d. by apply every_resting_safe.
    + intros f. apply triple_ret; [done|]. intros g d _. apply Hsafe.
    + apply Hsafe.
  - intros f. apply triple_ret; [done|]. intros g d _. apply Hsafe.
Qed.

(** An operation that keeps [current] drops [previous]: only a reinstallation
    does. *)
Lemma same_current_drops o : validate_operation B o = Ok tt -> sl_current (op_next o) = sl_current (op_old o) ->
  sl_previous (op_next o) = EmptyString.
Proof.
  intros Hv Heq. apply validate_operation_sound in Hv as [Hold _ Hk Ht]. unfold validate_kind in Hk.
  destruct (op_kind o =s "install"); cbn [andb orb] in Hk.
  - destruct (is_empty (sl_previous (op_next o))) eqn:Ep; [by apply is_empty_true|]. by rewrite orb_true_r in Hk.
  - destruct (op_kind o =s "activate"); cbn [andb orb] in Hk; [by rewrite Heq, String.eqb_refl, orb_true_r in Hk|].
    destruct (op_kind o =s "rollback"); cbn [andb orb] in Hk; [|done].
    unfold validate_journal_state in Hold. rewrite !seq_ok in Hold. destruct Hold as (_ & _ & Hd).
    destruct (is_empty (sl_previous (op_old o))); [done|]. cbn [orb] in Hk.
    destruct (String.eqb_spec (sl_current (op_next o)) (sl_previous (op_old o))) as [He|]; [|done].
    unfold is_empty in Hd. rewrite <- He, Heq, String.eqb_refl, andb_true_r in Hd.
    destruct (String.eqb_spec (sl_current (op_old o)) EmptyString); [congruence|done].
Qed.

Lemma landing_usable o c : validate_operation B o = Ok tt ->
  usable B (sl_current (landing o c)) /\ usable B (sl_previous (landing o c)) /\ usable B (sl_pending (landing o c)).
Proof.
  intros Hv. pose proof (validate_operation_sound B o Hv) as [Hold Hnext _ _]. unfold landing.
  destruct (_ =s _).
  - split_and!; apply (journal_state_slots B (op_next o)); cbn; auto.
  - split_and!; apply (journal_state_slots B (op_old o)); cbn; auto.
Qed.

Lemma closes_old o : validate_operation B o = Ok tt -> good Q (op_old o) -> good Q (op_next o) -> closes o (op_old o).
Proof.
  intros Hv Ho Hn. pose proof (validate_operation_sound B o Hv) as [Hold _ _ _]. split; [done|by left|done| | |].
  - unfold landing. by destruct (_ =s _).
  - unfold landing. destruct (String.eqb_spec (sl_current (op_next o)) (sl_current (op_old o))); [|by left].
    right. by apply same_current_drops.
  - split; eapply journal_state_slots; [exact Hold|by left|exact Hold|by right; left].
Qed.

Lemma closes_next o : validate_operation B o = Ok tt -> good Q (op_next o) -> closes o (op_next o).
Proof.
  intros Hv Hn. pose proof (validate_operation_sound B o Hv) as [_ Hnext _ _].
  assert (Hl : landing o (sl_current (op_next o)) = op_next o) by (unfold landing; by rewrite String.eqb_refl).
  split; [done|by right|done|by rewrite Hl|left; by rewrite Hl|].
  split; eapply journal_state_slots; [exact Hnext|by left|exact Hnext|by right; left].
Qed.

(** The end of a recovery *)
Lemma close_triple o t f g : closes o t ->
  triple (only B M (closing o t)) (do _ <- smap_err f (save_state t); smap_err g clear_operation)
    (fun _ => only B M (settled t)) (Safe Q).
Proof.
  intros Hcl. pose proof Hcl as [Hv _ _ _ _ [Huc Hup]]. eapply triple_bind.
  - apply triple_map_err. eapply triple_conseq; [apply (save_triple o t)|done|intros ? ? Hd; exact Hd|].
    intros d. by apply every_moving_safe.
  - intros ?. apply triple_map_err. eapply triple_conseq; [by apply (clear_triple o t)|done|done|]. intros d. by apply every_resting_safe.
Qed.

(** Nothing visible is named as pending that could be lost. *)
Definition pending_kept (r : Root) : Prop :=
  match rt_state r with Holds s => require_slot M (sl_pending s) = Ok tt -> usable B (sl_pending s) | _ => True end.

(** [X] is what is known of the visible root besides: nothing, or [pending_kept] *)
Context (X : Root -> Prop) (HX : forall t r, rt_state r = Holds t -> usable B (sl_pending t) -> X r).

(** No journal is visible. *)
Definition calm (d : UpdateDisk) : Prop :=
  exists c p, usable B c /\ usable B p /\ every B M (resting Q B c p) (fun r => rt_operation r = Absent /\ X r) d.

Lemma settled_calm t d : good Q t -> usable B (sl_current t) -> usable B (sl_previous t) -> usable B (sl_pending t) ->
  only B M (settled t) d -> calm d.
Proof.
  intros Hg Hc Hp Hpe Hd. exists (sl_current t), (sl_previous t). split; [done|]. split; [done|].
  apply (only_every B M _ _ _ d Hd); [intros r; by apply settled_resting|]. intros r (Hs & Ho & _). split; [done|]. by apply (HX t).
Qed.

Lemma resting_keeps o c p : sl_current (landing o c) = c ->
  (sl_previous (landing o c) = p \/ sl_previous (landing o c) = EmptyString) -> keeps_pointers (resting Q B c p) (landing o c).
Proof.
  intros Hc Hp. split; intros r [H1 H2 H3 H4 H5].
  - rewrite Hc. by split.
  - split; [done| |done|done|done]. cbn. destruct Hp as [-> | ->]; [by left|by right].
Qed.

Hypothesis Hbm : below B M.

Lemma recover_resting c p : usable B c -> usable B p ->
  triple (every B M (resting Q B c p) X) recover_operation (fun _ => calm) (Safe Q).
Proof.
  intros Hc Hp. assert (Hsafe : forall E d, every B M (resting Q B c p) E d -> Safe Q d) by (intros E d; by apply every_resting_safe).
  eapply (triple_bind _ _ _ (fun a => every B M (resting Q B c p)
    (fun r => rt_operation r = match a with Some o => Holds o | None => Absent end /\ X r))).
  { apply triple_view; [|apply Hsafe]. intros d a (Hs & Hr & Hx) Ha. split; [done|]. split; [done|]. split; [|done].
    unfold read_operation in Ha. destruct (rt_operation (dk_root d)); [by simplify_eq|done|].
    by destruct (validate_operation _ _); simplify_eq. }
  intros [o|]; [|apply triple_ret; [|done]; intros u d _ Hd; by exists c, p].
  set (t := landing o c).
  eapply (triple_bind _ _ _ (fun t' d => (t' = t /\ closes o t /\ sl_current t = c
      /\ (sl_previous t = p \/ sl_previous t = EmptyString) /\ usable B (sl_pending t))
      /\ every B M (resting Q B c p) (fun r => rt_operation r = Holds o) d)).
  { apply triple_view; [|apply Hsafe]. intros d t' (Hsm' & Hr' & Ho' & _) Ht'. split; [|by split]. destruct Hsm' as [Hsm Hsb].
    pose proof Ho' as Ho. pose proof Hr' as Hr.
    apply Forall_cons in Hr as [[Hrc _ _ Hop _] _]. rewrite Ho in Hop. destruct Hop as (Hv & Hside & Hg & Hprev).
    rewrite Hsm in Ht'. destruct (projects B M Hbm _ o c Hv Hrc Hside) as [Hpr Hcur].
    split; [unfold t; congruence|]. split; [|split; [done|split; [done|by apply landing_usable]]]. fold t in Hcur, Hprev, Hg.
    pose proof (validate_operation_sound B o Hv) as [Hold Hnext _ _].
    split; rewrite ?Hcur; fold t; [done|done|done|done|by left|]. split; [done|].
    destruct Hprev as [-> | ->]; [done|by left]. }
  intros t'. apply triple_pure. intros (-> & Hcl & Hcur & Hprev & Hpend). eapply triple_bind.
  { apply triple_map_err. eapply triple_conseq; [apply (restore_links_triple B M (resting Q B c p) (fun r => rt_operation r = Holds o) t)
      |done|intros ? ? Hd; exact Hd|apply Hsafe]; [by apply resting_keeps|done]. }
  intros u. eapply triple_conseq; [apply (close_triple o t)| | |done]; [done| |].
  - intros d (Hs & Hpast & Hr & Ho & Hl1 & Hl2). split; [done|]. split; [done|]. split; [|done].
    split; [done| |by destruct Hr]. exists c. destruct Hcl as [_ Hside _ Hg _ _]. rewrite Hcur in *. split; [by destruct Hr|done].
  - intros ? d Hd. destruct Hcl as [_ _ Hg _ _ [? ?]]. by apply (settled_calm t).
Qed.

Lemma recover_moving o : validate_operation B o = Ok tt ->
  triple (every B M (moving Q o) anything) recover_operation (fun _ => calm) (Safe Q).
Proof.
  intros Hv. assert (Hsafe : forall E d, every B M (moving Q o) E d -> Safe Q d) by (intros E d; by apply every_moving_safe).
  eapply (triple_bind _ _ _ (fun a d => a = Some o /\ every B M (moving Q o) anything d)).
  { apply triple_view; [|apply Hsafe]. intros d a Hd Ha. split; [|done]. destruct Hd as ([Hsm _] & Hr & _).
    apply Forall_cons in Hr as [[Ho _ _] _]. rewrite Hsm, (reads_operation B M Hbm _ o Hv Ho) in Ha. by simplify_eq. }
  intros a. apply triple_pure. intros ->.
  eapply (triple_bind _ _ _ (fun t d => (closes o t /\ usable B (sl_pending t)) /\ every B M (moving Q o) anything d)).
  { apply triple_view; [|apply Hsafe]. intros d t Hd Ht. split; [|done]. destruct Hd as ([Hsm _] & Hr & _).
    apply Forall_cons in Hr as [[_ (c & Hrc & Hside & Hg) _] _]. rewrite Hsm in Ht.
    destruct (projects B M Hbm _ o c Hv Hrc Hside) as [Hpr Hcur]. assert (t = landing o c) as -> by congruence.
    destruct (landing_usable o c Hv) as (Hu & Hup & Hupe). split; [|done]. rewrite Hcur in Hu.
    split; rewrite ?Hcur; [done|done|done|done|by left|done]. }
  intros t. apply triple_pure. intros [Hcl Hpend]. eapply triple_bind.
  { apply triple_map_err. eapply triple_conseq; [apply (restore_links_triple B M (moving Q o) anything t)
      |done|intros ? ? Hd; exact Hd|apply Hsafe]; [destruct Hcl; by apply moving_keeps|done]. }
  intros u. eapply triple_conseq; [apply (close_triple o t)| | |done]; [done| |].
  - intros d (Hs & Hpast & Hr & _ & Hl1 & Hl2). split; [done|]. split; [done|]. by split.
  - intros ? d Hd. destruct Hcl as [_ _ Hg _ _ [? ?]]. by apply (settled_calm t).
Qed.
End Transactions.

(** ** Operations *)

(** The slots that no power loss can take *)
Definition durable_slots (d : UpdateDisk) : SlotDir :=
  filter (fun e => forallb (fun m => bool_decide (is_Some (m !! e.1))) (slot_dirs d) = true) (dk_slots d).
Lemma durable_slots_spec d v : is_Some (durable_slots d !! v) <-> forall m, In m (slot_dirs d) -> is_Some (m !! v).
Proof.
  unfold durable_slots. split.
  - intros [s Hs]. apply (map_lookup_filter_Some (M := gmap string)) in Hs as [_ Hf]. rewrite forallb_forall in Hf.
    intros m Hm. by apply (bool_decide_eq_true_1 _ (Hf m Hm)).
  - intros Hm. destruct (Hm (dk_slots d) (or_introl eq_refl)) as [s Hs]. exists s. apply (map_lookup_filter_Some (M := gmap string)).
    split; [done|]. apply forallb_forall. intros m Hin. apply bool_decide_eq_true. by apply Hm.
Qed.
Lemma durable_below d : Forall (below (durable_slots d)) (slot_dirs d).
Proof. apply List.Forall_forall. intros m Hm v Hv. rewrite durable_slots_spec in Hv. auto. Qed.
Lemma durable_greatest d B : Forall (below B) (slot_dirs d) -> below B (durable_slots d).
Proof. rewrite List.Forall_forall. intros Hb v Hv. apply durable_slots_spec. intros m Hm. by apply (Hb m Hm). Qed.

(** Every root the medium may hold shows [t]. *)
Definition shows_only (t : SlotState) (d : UpdateDisk) : Prop := forall Q, closed Q -> Q t -> Safe Q d.

Lemma good_shown Q s : good Q s -> shown s = s.
Proof. by intros (_ & ? & _). Qed.

Lemma good_no_pending (Q : SlotState -> Prop) s : version_or_empty (sl_minimum_version s) -> sl_pending s = EmptyString -> Q s -> good Q s.
Proof.
  intros Hv Hp Hq. split; [done|]. split; [|done]. unfold shown, overlay. destruct s. cbn in *. subst.
  repeat destruct (_ =s _); done.
Qed.

Lemma resting_below Q B B' c p r : below B B' -> resting Q B c p r -> resting Q B' c p r.
Proof.
  intros Hb [H1 H2 H3 H4 H5]. split; [done|done|done| |done]. destruct (rt_operation r); [done|done|].
  destruct H4 as (Hv & H4). split; [by apply (validate_operation_below B)|done].
Qed.

Section Ops.
Context (Q : SlotState -> Prop) (HQ : closed Q) (B M : SlotDir) (Hbm : below B M).
Context (X : Root -> Prop) (HX : forall t r, rt_state r = Holds t -> usable B (sl_pending t) -> X r).

(** A safe disk whose visible slots are [M], those of which that cannot be lost
    are [B] *)
Definition ready (d : UpdateDisk) : Prop :=
  slots_are B M d /\ (forall B0, Forall (below B0) (slot_dirs d) -> below B0 B) /\ Safe Q d /\ X (dk_root d).

Lemma ready_safe d : ready d -> Safe Q d.
Proof. by intros (_ & _ & ? & _). Qed.
Lemma ready_shape d : ready d ->
  (exists c p, usable B c /\ usable B p /\ every B M (resting Q B c p) X d)
  \/ (exists o, validate_operation B o = Ok tt /\ every B M (moving Q o) anything d).
Proof.
  intros (Hs & Hmax & [B0 c p Hb Hc Hp Hr|B0 o Hb Ho Hr] & Hx); apply Hmax in Hb.
  - left. exists c, p. split; [by destruct Hc; [left|right; by apply (require_slot_below B0)]|].
    split; [by destruct Hp; [left|right; by apply (require_slot_below B0)]|].
    split; [done|]. split; [|done]. eapply Forall_impl; [exact Hr|]. intros r. by apply resting_below.
  - right. exists o. split; [by apply (validate_operation_below B0)|]. by split.
Qed.

Lemma recover_triple : triple ready recover_operation (fun _ => calm Q B M X) (Safe Q).
Proof.
  intros d fs Hd. destruct (ready_shape d Hd) as [(c & p & Hc & Hp & He)|(o & Ho & He)].
  - by apply (recover_resting Q B M X HX Hbm c p Hc Hp).
  - by apply (recover_moving Q B M X HX Hbm o Ho).
Qed.

(** The visible state, read when no journal is there *)
Definition reads (c p : string) (s : SlotState) (d : UpdateDisk) : Prop :=
  usable B c /\ usable B p /\ good Q s /\ sl_current s = c /\ sl_previous s = p
  /\ every B M (resting Q B c p) (fun r => (rt_operation r = Absent /\ X r) /\ state_without_operation r M = Ok s) d.

Lemma calm_safe d : calm Q B M X d -> Safe Q d.
Proof. intros (c & p & Hc & Hp & He). by apply (every_resting_safe Q B M c p _ d Hc Hp He). Qed.
Lemma reads_safe c p s d : reads c p s d -> Safe Q d.
Proof. intros (Hc & Hp & _ & _ & _ & He). by apply (every_resting_safe Q B M c p _ d Hc Hp He). Qed.

Lemma read_triple : triple (calm Q B M X) (sview state_without_operation)
  (fun s d => reads (sl_current s) (sl_previous s) s d) (Safe Q).
Proof.
  apply triple_view; [|apply calm_safe]. intros d s (c & p & Hc & Hp & Hs & Hr & Hop) Hst.
  pose proof Hs as [Hm _]. rewrite Hm in Hst. pose proof Hr as Hr'. apply Forall_cons in Hr' as [Hd _].
  destruct (resting_reads Q HQ B M Hbm c p _ Hc Hp Hd) as (s' & Hs' & Hg & Hsc & Hsp).
  assert (s' = s) as -> by congruence. subst c p.
  do 5 (split; [done|]). by split; [|split].
Qed.

(** A journalled operation: nothing happens, or all of it.  The slots its
    journal names must not be lost. *)
Lemma commit_triple kind s next mutate c p :
  let o := mkOperation OPERATION_JOURNAL_VERSION kind s next in
  good Q next -> (validate_operation M o = Ok tt -> validate_operation B o = Ok tt) ->
  (validate_operation B o = Ok tt ->
   triple (only B M (moving Q o)) mutate (fun _ => only B M (closing Q o next)) (every B M (moving Q o) anything)) ->
  triple (reads c p s) (commit_operation kind s next mutate)
    (fun _ d => validate_operation B o = Ok tt /\ only B M (settled next) d) (Safe Q).
Proof.
  intros o Hn Hdep Hmut. unfold commit_operation. fold o. eapply (triple_bind _ _ _
    (fun _ d => (validate_operation B o = Ok tt /\ good Q s) /\ only B M (moving Q o) d)).
  - apply triple_map_err. unfold begin_operation. eapply (triple_bind _ _ _ (fun _ d => validate_operation B o = Ok tt /\ reads c p s d)).
    + apply triple_view; [|intros d; apply reads_safe]. intros d [] Hd Hv. split; [|done].
      destruct Hd as (_ & _ & _ & _ & _ & [Hm _] & _). rewrite Hm in Hv. auto.
    + intros _. apply triple_pure. intros Hv. intros d fs (Hc & Hp & Hg & Hsc & Hsp & He).
      pose proof (closes_old Q B o Hv Hg Hn) as [_ _ _ Hl Hlp _]. cbn [op_old o] in Hl, Hlp. rewrite Hsc, Hsp in *.
      assert (Ht : triple (every B M (resting Q B c p) (fun r => (rt_operation r = Absent /\ X r) /\ state_without_operation r M = Ok s))
        (change_root (fun r => with_operation r (Holds o))) (fun _ => only B M (moving Q o)) (every B M (resting Q B c p) anything)).
      { apply change_triple.
      * intros r [H1 H2 H3 H4 H5] _. split; [done|done|done| |done]. cbn. split; [done|]. split; [by left|done].
      * intros r [H1 H2 H3 H4 H5] _. split; [done| |done]. exists c. split; [done|]. split; [by left|done].
      * done. }
      eapply (triple_conseq _ _ _ _ _ _ _ Ht); [done|done|intros d'; by apply every_resting_safe|exact He].
  - intros ?. apply triple_pure. intros [Hv Hg].
    pose proof (closes_old Q B o Hv Hg Hn) as Hcl. pose proof (closes_next Q B o Hv Hn) as Hcn. cbn [op_old op_next o] in Hcl, Hcn.
    assert (Hms : forall d, every B M (moving Q o) anything d -> Safe Q d) by (intros d; by apply every_moving_safe).
    assert (Habort : forall e ok, triple (every B M (moving Q o) anything) (abort_operation s e) ok (Safe Q)).
    { intros e ok. eapply triple_conseq; [by apply (abort_triple Q B M o s e)|done|done|done]. }
    eapply triple_call; [by apply Hmut| |intros e; apply Habort|exact Hms].
    intros ?. eapply triple_call; [by apply save_triple| |intros e; apply Habort|exact Hms].
    intros ?. apply triple_map_err. eapply triple_conseq; [by apply (clear_triple Q B M o next)|done|done|].
    destruct Hcn as [_ _ _ _ _ [? ?]]. intros d. by apply every_resting_safe.
Qed.
End Ops.

(** What is pending in a state that was read is pending in [state.json]. *)
Lemma read_pending r m s : state_without_operation r m = Ok s ->
  sl_pending s = EmptyString \/ exists s0, rt_state r = Holds s0 /\ sl_pending s = sl_pending s0.
Proof.
  unfold state_without_operation. destruct (match rt_state r with Holds s => Ok s | Absent => Ok slot_default | Unusable => _ end) as [s0|] eqn:E0; [|done].
  destruct (link_version r m PCurrent) as [cur|]; [|done]. destruct (link_version r m PPrevious) as [prev|]; [|done]. intros Ha.
  assert (Hp : sl_pending s = sl_pending (overlay cur prev s0)).
  { revert Ha. unfold apply_installation_floor. destruct (rt_installation r) as [| |i]; [intros [= <-]; done|done|]. cbv zeta.
    destruct (negb _); [|intros [= <-]; done]. destruct (parse_release_version _); [|done]. destruct (is_empty _); [intros [= <-]; done|].
    destruct (compare_release_versions _ _) as [c|]; [|done]. destruct (c >? 0); intros [= <-]; done. }
  assert (Ho : sl_pending (overlay cur prev s0) = EmptyString \/ sl_pending (overlay cur prev s0) = sl_pending s0).
  { unfold overlay. destruct cur as [c|], prev as [p|]; cbn; auto; destruct (sl_pending s0 =s c); auto. }
  rewrite Hp. destruct Ho as [->| ->]; [by left|]. destruct (rt_state r) as [| |s1]; [injection E0 as <-; by left|done|].
  injection E0 as <-. right. by exists s1.
Qed.
Lemma pending_kept_reads B M r s : pending_kept B M r -> state_without_operation r M = Ok s ->
  require_slot M (sl_pending s) = Ok tt -> usable B (sl_pending s).
Proof.
  intros Hk Hs. destruct (read_pending r M s Hs) as [->|(s0 & Hr & ->)]; [by left|]. unfold pending_kept in Hk. by rewrite Hr in Hk.
Qed.
