(* ===== verification/SlotsSafety.v ===== *)
(** * What each slot operation guarantees *)

From Stdlib Require Import ZArith Ascii String Lia Bool.
From stdpp Require Import base list strings gmap.
From S2P Require Import Prelude GoStrings Net NetSpec GoPath Json Model Validation ValidationSpec Policy Firmware FirmwareSpec Slots SlotsSpec.

Local Open Scope string_scope.
Local Open Scope Z_scope.
Local Open Scope list_scope.

Lemma link_to_version v : v <> EmptyString -> link_to v = Holds (slot_target v).
Proof. unfold link_to, is_empty. by destruct (String.eqb_spec v EmptyString). Qed.

Lemma pattern_nonempty v : RELEASE_VERSION_PATTERN v = true -> v <> EmptyString.
Proof. by intros Hv ->. Qed.

Lemma pattern_version v : RELEASE_VERSION_PATTERN v = true -> version_or_empty v.
Proof. intros (p & Hp & _)%parse_release_total. right. by exists p. Qed.

Section Moves.
Context (Q : SlotState -> Prop) (B M : SlotDir) (o : SlotOperation) (Hnext : good Q (op_next o)).

Lemma landing_next : landing o (sl_current (op_next o)) = op_next o.
Proof. unfold landing. by rewrite String.eqb_refl. Qed.

(** One pointer of a journalled move *)
Lemma swap_moving (E E' : Root -> Prop) name v : v <> EmptyString -> (name = PCurrent -> v = sl_current (op_next o)) ->
  (forall r, E r -> E' (with_pointer r name (link_to v))) ->
  triple (every B M (moving Q o) E) (swap_link name v) (fun _ => only B M (fun r => moving Q o r /\ E' r))
    (every B M (moving Q o) anything).
Proof.
  intros Hv Hn HE. unfold swap_link. rewrite <- (link_to_version v) by done.
  eapply (triple_bind _ _ _ (fun _ => every B M (moving Q o) E)).
  { apply triple_view; [done|]. intros d Hd. by apply (every_weaken B M (moving Q o) (moving Q o) E anything). }
  intros _. assert (Hm : forall r, moving Q o r -> moving Q o (with_pointer r name (link_to v))).
  { intros r [Ho Hc Hi]. destruct name; (split; [done| |done]); [|done]. exists v. cbn. split; [done|]. rewrite (Hn eq_refl).
    split; [by right|]. by rewrite landing_next. }
  apply change_triple; [auto|auto|done].
Qed.

Lemma remove_moving (E E' : Root -> Prop) : (forall r, E r -> E' (with_pointer r PPrevious Absent)) ->
  triple (every B M (moving Q o) E) (remove_link PPrevious) (fun _ => only B M (fun r => moving Q o r /\ E' r))
    (every B M (moving Q o) anything).
Proof.
  intros HE. assert (Hm : forall r, moving Q o r -> moving Q o (with_pointer r PPrevious Absent)) by (by intros r []).
  apply change_triple; [auto|auto|done].
Qed.

(** The pointer [previous] set to [v], or removed when there is none *)
Lemma previous_moving (E E' : Root -> Prop) f v : (forall r, E r -> E' (with_pointer r PPrevious (link_to v))) ->
  triple (every B M (moving Q o) E) (if negb (is_empty v) then smap_err f (swap_link PPrevious v) else remove_link PPrevious)
    (fun _ => only B M (fun r => moving Q o r /\ E' r)) (every B M (moving Q o) anything).
Proof.
  intros HE. unfold link_to in HE. destruct (is_empty v) eqn:Ev; cbn [negb]; [by apply remove_moving|].
  assert (v <> EmptyString) by (intros ->; done). apply triple_map_err, swap_moving; [done|done|].
  by rewrite link_to_version.
Qed.

Lemma only_moving_every (E : Root -> Prop) d : only B M (fun r => moving Q o r /\ E r) d -> every B M (moving Q o) E d.
Proof. intros Hd. by apply (only_every B M _ _ _ d Hd); intros r []. Qed.
End Moves.

(** ** The parts of operations *)
Section Parts.
Context (mgr : SlotManager) (Q : SlotState -> Prop) (HQ : closed Q).
Context (B M : SlotDir) (Hbm : below B M) (X : Root -> Prop) (HX : forall t r, rt_state r = Holds t -> usable B (sl_pending t) -> X r).

Lemma with_lock_triple {A} pre (m : SM A) ok : (forall d, pre d -> Safe Q d) -> triple pre m ok (Safe Q) ->
  triple pre (with_lock mgr m) ok (Safe Q).
Proof.
  intros Hs Hm. unfold with_lock. destruct (is_empty _); [by apply triple_ret; [|intros e d _; apply Hs]|].
  eapply triple_bind; [by apply triple_prepare|]. by intros ?.
Qed.

(** The beginning of stage, activate and rollback *)
Lemma begin_triple {A} (k : SM A) ok : triple (calm Q B M X) k ok (Safe Q) ->
  triple (ready Q B M X) (with_lock mgr (do _ <- sview (fun r _ => check_installation r); do _ <- recover_first; k)) ok (Safe Q).
Proof.
  intros Hk. apply with_lock_triple; [by apply ready_safe|].
  eapply (triple_bind _ _ _ (fun _ => ready Q B M X)); [apply triple_view; [done|by apply ready_safe]|]. intros ?.
  eapply triple_bind; [by apply triple_map_err, recover_triple|]. by intros ?.
Qed.

Lemma settled_shows t d : version_or_empty (sl_minimum_version t) -> sl_pending t = EmptyString ->
  usable B (sl_current t) -> usable B (sl_previous t) -> only B M (settled t) d -> shows_only t d.
Proof.
  intros Hv Hp Hc Hpr Hd Q2 _ Ht. pose proof (good_no_pending Q2 t Hv Hp Ht) as Hg.
  eapply (every_resting_safe Q2 B M _ _ anything d Hc Hpr). apply (only_every B M _ _ _ d Hd); [|done].
  intros r. by apply settled_resting.
Qed.

Lemma shown_shown s : shown (shown s) = shown s.
Proof.
  destruct s as [c p q v i]. unfold shown, is_empty. cbn. destruct (c =s EmptyString) eqn:E; cbn; rewrite E; [done|].
  unfold overlay. cbn. destruct (q =s c) eqn:E2; [by destruct (EmptyString =s c)|by rewrite E2].
Qed.
Lemma shown_fields s : sl_current (shown s) = sl_current s /\ sl_previous (shown s) = sl_previous s
  /\ sl_minimum_version (shown s) = sl_minimum_version s.
Proof. unfold shown. by destruct (is_empty _). Qed.

(** [state.json] rewritten while nothing else moves *)
Lemma save_resting_triple c p st : usable B c -> usable B p -> sl_current st = c -> sl_previous st = p -> good Q (shown st) ->
  triple (every B M (resting Q B c p) (fun r => rt_operation r = Absent)) (save_state st) (fun _ => shows_only (shown st))
    (every B M (resting Q B c p) anything).
Proof.
  intros Huc Hup Hc Hp Hg.
  eapply triple_conseq; [apply (change_triple B M (resting Q B c p) (fun r => rt_operation r = Absent)
    (fun r => (rt_current r = link_to c /\ (rt_previous r = link_to p \/ rt_previous r = Absent))
      /\ rt_state r = Holds st /\ rt_operation r = Absent /\ intent_ok (rt_installation r)) anything)|done| |done].
  - intros r [H1 H2 H3 H4 H5] _. by split.
  - by intros r [H1 H2 H3 H4 H5] Ho.
  - done.
  - intros a d' Hd' Q2 _ HQ2. eapply (every_resting_safe Q2 B M c p anything d' Huc Hup).
    apply (only_every B M _ _ _ d' Hd'); [|done]. intros r ((H1 & H2) & H3 & H4 & H5). split; [done|done| | |done].
    + rewrite H3. split; [done|]. split; [done|]. destruct Hg as (Hv & Hs & _). by split.
    + by rewrite H4.
Qed.

(** A pure check of what was read *)
Lemma check_triple {A Y} (r : result Y error) (pre : UpdateDisk -> Prop) (k : Y -> SM A) ok :
  (forall d, pre d -> Safe Q d) -> (forall x, r = Ok x -> triple pre (k x) ok (Safe Q)) ->
  triple pre (do x <- sret r; k x) ok (Safe Q).
Proof.
  intros Hs Hk. eapply (triple_bind _ _ _ (fun x d => r = Ok x /\ pre d)).
  - apply triple_ret; [done|]. intros e d _. apply Hs.
  - intros x. apply triple_pure. intros Hr. by apply Hk.
Qed.

Lemma view_check_triple {A Y} (f : Root -> SlotDir -> result Y error) (pre : UpdateDisk -> Prop) (k : Y -> SM A) ok :
  (forall d, pre d -> Safe Q d /\ dk_slots d = M) -> (forall x, (exists r, f r M = Ok x) -> triple pre (k x) ok (Safe Q)) ->
  triple pre (do x <- sview f; k x) ok (Safe Q).
Proof.
  intros Hs Hk. eapply (triple_bind _ _ _ (fun x d => (exists r, f r M = Ok x) /\ pre d)).
  - apply triple_view; [|intros d Hd; by apply Hs]. intros d a Hd Ha. split; [|done]. exists (dk_root d).
    by rewrite <- (proj2 (Hs d Hd)).
  - intros x. apply triple_pure. apply Hk.
Qed.

Lemma calm_slots d : calm Q B M X d -> Safe Q d /\ dk_slots d = M.
Proof. intros Hd. split; [by apply (calm_safe Q B M X)|]. by destruct Hd as (c & p & _ & _ & [[? _] _]). Qed.
Lemma reads_slots c p s d : reads Q B M X c p s d -> Safe Q d /\ dk_slots d = M.
Proof. intros Hd. split; [by apply (reads_safe Q B M X c p s)|]. by destruct Hd as (_ & _ & _ & _ & _ & [[? _] _]). Qed.

Lemma reads_every c p s d : reads Q B M X c p s d -> every B M (resting Q B c p) (fun r => rt_operation r = Absent) d.
Proof. intros (_ & _ & _ & _ & _ & Hd). apply (every_weaken B M _ _ _ _ d Hd); [done|]. by intros r _ [[? _] _]. Qed.

Lemma read_state_triple {A} (k : SlotState -> SM A) ok :
  (forall s, good Q s -> usable B (sl_current s) -> usable B (sl_previous s) -> (exists r, X r /\ state_without_operation r M = Ok s) ->
     triple (reads Q B M X (sl_current s) (sl_previous s) s) (k s) ok (Safe Q)) ->
  triple (calm Q B M X) (do s <- sview state_without_operation; k s) ok (Safe Q).
Proof.
  intros Hk. eapply triple_bind; [by apply read_triple|]. intros s d fs Hd.
  pose proof Hd as (Hc & Hp & Hg & _ & _ & _ & _ & (_ & Hx) & Hr). refine (Hk s Hg Hc Hp _ d fs Hd). by exists (dk_root d).
Qed.
End Parts.

(** ** Activation and rollback *)
Section Operations.
Context `{Ed25519} (mgr : SlotManager) (host_arch : string) (sha256 : bytes -> list Z).
Context (Q : SlotState -> Prop) (HQ : closed Q).

Lemma pending_usable B M t r : rt_state r = Holds t -> usable B (sl_pending t) -> pending_kept B M r.
Proof. unfold pending_kept. by intros ->. Qed.
Lemma nothing_known B t r : rt_state r = Holds t -> usable B (sl_pending t) -> anything r.
Proof. done. Qed.
#[local] Hint Resolve pending_usable nothing_known below_refl : core.

(** What a successful activation of [v] did to the state [s] *)
Definition activation_of (v : string) (s t : SlotState) : Prop :=
  (sl_current s = v /\ t = with_pending_slot s EmptyString)
  \/ (sl_current s <> v /\ RELEASE_VERSION_PATTERN v = true /\ (exists f, upgrade_floor s = Ok f /\ validate_forward_upgrade v f = Ok tt) /\ t = activated v s).

Lemma good_set_pending s : good Q s -> Q (with_pending_slot s EmptyString) -> good Q (with_pending_slot s EmptyString).
Proof. intros (Hv & _ & _) Hq. by apply good_no_pending. Qed.

Lemma activate_triple B M v : below B M -> (require_slot M v = Ok tt -> require_slot B v = Ok tt) ->
  (forall s t, good Q s -> activation_of v s t -> Q t) ->
  triple (ready Q B M (pending_kept B M)) (activate mgr v)
    (fun _ d => exists s t, good Q s /\ activation_of v s t /\ shows_only t d) (Safe Q).
Proof.
  intros Hbm Hdur Hact. set (X := pending_kept B M). assert (HX : forall t r, rt_state r = Holds t -> usable B (sl_pending t) -> X r) by (by apply pending_usable).
  apply begin_triple; [done|done|]. destruct (RELEASE_VERSION_PATTERN v) eqn:Ev; cbn [negb];
    [|apply triple_ret; [done|]; intros e d _; by apply calm_safe].
  apply (view_check_triple Q M); [apply calm_slots|]. intros [] [_ Hslot].
  apply read_state_triple; [done|done|]. intros s Hg Hc Hp (r & Hx & Hrs). destruct (String.eqb_spec (sl_current s) v) as [He|Hne].
  - assert (Ha : activation_of v s (with_pending_slot s EmptyString)) by (by left).
    assert (Hgs : good Q (with_pending_slot s EmptyString)) by (apply good_set_pending; [done|by apply (Hact s)]).
    pose proof (good_shown Q _ Hgs) as Hsh.
    eapply triple_conseq; [apply (save_resting_triple Q B M (sl_current s) (sl_previous s) (with_pending_slot s EmptyString));
      [done|done|done|done|by rewrite Hsh]| | |intros d; by apply every_resting_safe].
    + intros d Hd. by apply (reads_every Q B M X (sl_current s) (sl_previous s) s).
    + rewrite Hsh. eauto.
  - apply check_triple; [intros d Hd; by apply (reads_slots Q B M X _ _ _ d Hd)|]. intros f Hf.
    apply check_triple; [intros d Hd; by apply (reads_slots Q B M X _ _ _ d Hd)|]. intros [] Hfw.
    assert (Ha : activation_of v s (activated v s)) by (right; split_and!; eauto).
    assert (Hgn : good Q (activated v s)) by (apply good_no_pending; [by apply pattern_version|done|by apply (Hact s)]).
    eapply triple_conseq; [apply (commit_triple Q B M X "activate" s (activated v s) _ (sl_current s) (sl_previous s) Hgn)|done| |done].
    + intros Hv. apply (validate_operation_named M); [done|]. intros w Hw Hwm. cbn in Hw.
      repeat (destruct Hw as [<-|Hw]; [first [done|right; by apply Hdur|by apply (pending_kept_reads B M r s)|by left]|]). done.
    + set (o := mkOperation OPERATION_JOURNAL_VERSION "activate" s (activated v s)). intros Hv. eapply triple_bind.
      * eapply triple_conseq; [apply (previous_moving Q B M o Hgn anything (fun r => rt_previous r = link_to (sl_current s)))| | |done];
          [done| |intros ? d Hd; exact Hd].
        intros d Hd. by apply (only_every B M _ _ _ d Hd).
      * intros ?. apply triple_map_err. eapply triple_conseq; [apply (swap_moving Q B M o Hgn
          (fun r => rt_previous r = link_to (sl_current s)) (fun r => rt_previous r = link_to (sl_current s) /\ rt_current r = link_to v) PCurrent)
          | | |done]; [by apply pattern_nonempty|done|done|intros d; apply only_moving_every|].
        intros ? d (Hs & Hpast & Hm & Hpr & Hcu). by split; [|split].
    + intros ? d [_ Hd]. exists s, (activated v s). split; [done|]. split; [done|].
      apply (settled_shows B M); [by apply pattern_version|done|right; by apply Hdur|done|done].
Qed.

(** ** Rollback *)
Lemma upgrade_floor_version s f : version_or_empty (sl_minimum_version s) -> upgrade_floor s = Ok f -> version_or_empty f.
Proof.
  intros Hv Hf. unfold upgrade_floor in Hf. cbn zeta in Hf.
  destruct (if negb (is_empty (sl_minimum_version s)) then _ else _) as [|e]; [|done].
  destruct (is_bootstrap (sl_current s)); [destruct (is_empty _); by simplify_eq|].
  destruct (negb (is_empty (sl_current s))); [|by simplify_eq].
  destruct (parse_release_version (sl_current s)) as [p|] eqn:Ep; [|done].
  destruct (is_empty (sl_minimum_version s)); [simplify_eq; right; by exists p|].
  destruct (compare_release_versions _ _) as [c|]; [|done]. destruct (c >? 0); simplify_eq; [right; by exists p|done].
Qed.

Definition rollback_of (s t : SlotState) : Prop :=
  sl_previous s <> EmptyString /\ exists f, upgrade_floor s = Ok f /\ t = slots_rolled_back f s.

Lemma rollback_triple B M : below B M -> (forall s t, good Q s -> rollback_of s t -> Q t) ->
  triple (ready Q B M (pending_kept B M)) (rollback mgr)
    (fun _ d => exists s t, good Q s /\ rollback_of s t /\ shows_only t d) (Safe Q).
Proof.
  intros Hbm Hrb. set (X := pending_kept B M). assert (HX : forall t r, rt_state r = Holds t -> usable B (sl_pending t) -> X r) by (by apply pending_usable).
  apply begin_triple, read_state_triple; [done..|]. intros s Hg Hc Hp (r & Hx & Hrst).
  assert (Hrs : forall d, reads Q B M X (sl_current s) (sl_previous s) s d -> Safe Q d) by (intros d; by apply reads_safe).
  destruct (is_empty (sl_previous s)) eqn:Ep; [apply triple_ret; [done|]; intros e d _; apply Hrs|].
  assert (Hne : sl_previous s <> EmptyString) by (intros Hz; by rewrite Hz in Ep).
  apply (view_check_triple Q M); [apply reads_slots|]. intros [] _.
  apply check_triple; [apply Hrs|]. intros f Hf. cbn zeta.
  assert (Ha : rollback_of s (slots_rolled_back f s)) by (split; [done|eauto]).
  assert (Hvf : version_or_empty f) by (apply (upgrade_floor_version s); [by destruct Hg|done]).
  assert (Hgn : good Q (slots_rolled_back f s)) by (apply good_no_pending; [done|done|by apply (Hrb s)]).
  eapply triple_conseq; [apply (commit_triple Q B M X "rollback" s (slots_rolled_back f s) _ (sl_current s) (sl_previous s) Hgn)|done| |done].
  - intros Hv. apply (validate_operation_named M); [done|]. intros w Hw Hwm. cbn in Hw.
    repeat (destruct Hw as [<-|Hw]; [first [done|by apply (pending_kept_reads B M r s)|by left]|]). done.
  - set (o := mkOperation OPERATION_JOURNAL_VERSION "rollback" s (slots_rolled_back f s)). intros Hv. eapply triple_bind.
    + apply triple_map_err. eapply triple_conseq; [apply (swap_moving Q B M o Hgn anything (fun r => rt_current r = link_to (sl_previous s)) PCurrent)
        | | |done]; [done|done|done| |intros ? d Hd; exact Hd].
      intros d Hd. by apply (only_every B M _ _ _ d Hd).
    + intros ?. eapply triple_conseq; [apply (previous_moving Q B M o Hgn (fun r => rt_current r = link_to (sl_previous s))
        (fun r => rt_previous r = link_to (sl_current s) /\ rt_current r = link_to (sl_previous s)))| | |done];
        [done|intros d; apply only_moving_every|].
      intros ? d (Hs & Hpast & Hm & Hpr & Hcu). by split; [|split].
  - intros ? d [_ Hd]. exists s, (slots_rolled_back f s). split; [done|]. split; [done|]. by apply (settled_shows B M).
Qed.

(** ** Full installation *)
Lemma installation_minimum_version s proposed v : version_or_empty (sl_minimum_version s) ->
  installation_minimum s proposed = Ok v -> version_or_empty v.
Proof.
  intros Hs Hv. unfold installation_minimum in Hv. destruct (match upgrade_floor s with Ok f => Ok f | Err e => _ end) as [f|]; [|done].
  destruct (is_empty proposed); [destruct (negb _); simplify_eq; by left|].
  destruct (parse_release_version proposed) as [p|] eqn:Ep; [|done].
  destruct (negb (is_empty f)); [destruct (compare_release_versions _ _) as [c|]; [|done]; destruct (c <? 0)|];
    simplify_eq; right; by exists p.
Qed.

Lemma begin_installation_triple B M minimum : below B M ->
  triple (ready Q B M anything) (begin_installation mgr minimum) (fun _ => Safe Q) (Safe Q).
Proof.
  intros Hbm. apply with_lock_triple; [by apply ready_safe|]. eapply triple_bind; [by apply recover_triple|]. intros ?.
  apply read_state_triple; [done|done|]. intros s Hg Hc Hp _. apply check_triple; [intros d; by apply reads_safe|]. intros v Hv.
  assert (Hok : version_or_empty v) by (eapply installation_minimum_version; [by destruct Hg|done]).
  set (c := sl_current s) in *. set (p := sl_previous s) in *.
  eapply triple_conseq; [apply (change_triple B M (resting Q B c p) (fun r => rt_operation r = Absent) (resting Q B c p) anything)
    |intros d; apply reads_every| |intros d; by apply every_resting_safe]; [by intros r [] _|by intros r [] _|done|].
  intros ? d Hd. apply (every_resting_safe Q B M c p anything d Hc Hp). by apply (only_every B M _ _ _ d Hd).
Qed.

(** *** Slots *)
Lemma every_slots B M B' M' P E d f (Hf : forall r, P r -> f r) : every B M P E d -> forall d', dk_root d' = dk_root d -> dk_past d' = dk_past d ->
  dk_slots d' = M' -> Forall (below B') (slot_dirs d') -> every B' M' f E d'.
Proof.
  intros (_ & Hr & He) d' Hr' Hp' Hm Hb. split; [done|]. unfold roots in *. rewrite Hr', Hp'. split; [|done].
  by eapply Forall_impl.
Qed.

Lemma change_slots_triple B M (P E : Root -> Prop) f : below B (f M) ->
  triple (every B M P E) (change_slots f) (fun _ => every B (f M) P E) (fun d => exists M', every B M' P E d).
Proof.
  intros Hb d fs Hd. pose proof Hd as ((Hm & Hs) & _).
  assert (Hc : every B (f M) P E (mkUpdateDisk (dk_root d) (dk_past d) (f (dk_slots d)) (dk_slots d :: dk_slots_past d))).
  { eapply every_slots; [|exact Hd|done|done|by rewrite <- Hm|]; [done|]. constructor; [by rewrite Hm|done]. }
  unfold change_slots. destruct (next_fate fs) as [[]]; eauto.
Qed.

Lemma sync_slots_triple B M (P E : Root -> Prop) : below B M ->
  triple (every B M P E) sync_slots (fun _ d => every B M P E d /\ dk_slots_past d = []) (every B M P E).
Proof.
  intros Hb d fs Hd. pose proof Hd as ((Hm & Hs) & _). unfold sync_slots. destruct (next_fate fs) as [[]]; try done.
  split; [|done]. eapply every_slots; [|exact Hd|done|done|done|]; [done|]. constructor; [cbn; by rewrite Hm|done].
Qed.

Lemma below_insert B M v (s : Slot) : below B M -> below B (<[v := s]> M).
Proof. intros Hb w Hw. apply (lookup_insert_is_Some' (M := gmap string)). right. by apply Hb. Qed.

(** After a sync of the slots, none of the visible ones can be lost. *)
Lemma synced_calm B M c p d : below B M -> usable B c -> usable B p -> dk_slots_past d = [] ->
  every B M (resting Q B c p) (fun r => rt_operation r = Absent) d -> calm Q M M anything d.
Proof.
  intros Hb Hc Hp Hpast Hd. pose proof Hd as ((Hm & _) & _). exists c, p.
  split; [destruct Hc; [by left|right; by apply (require_slot_below B)]|].
  split; [destruct Hp; [by left|right; by apply (require_slot_below B)]|].
  eapply every_slots; [|apply (every_weaken B M _ (resting Q B c p) _ (fun r => rt_operation r = Absent /\ anything r) d Hd);
    [done|by intros r _]|done|done|done|]; [intros r; by apply resting_below|].
  unfold slot_dirs. rewrite Hpast. constructor; [rewrite Hm; apply below_refl|done].
Qed.

(** What a successful installation of [inv] made of the state [s] *)
Definition installation_of (inv : FirmwareManifest) (proposed : string) (s t : SlotState) : Prop :=
  exists v, installation_minimum s proposed = Ok v /\ t = installed (baseline_version sha256 inv) v.

(** The swap of the pointers, and the removal of the installation journal *)
Lemma install_commit_triple B s t : good Q t -> sl_previous t = EmptyString -> sl_pending t = EmptyString -> sl_current t <> EmptyString ->
  triple (reads Q B B anything (sl_current s) (sl_previous s) s)
    (do _ <- commit_operation "install" s t (do _ <- remove_link PPrevious; swap_link PCurrent (sl_current t));
     change_root (fun r => with_installation r Absent)) (fun _ => shows_only t) (Safe Q).
Proof.
  intros Hg Hp Hpe Hne. eapply triple_bind.
  - apply (commit_triple Q B B anything "install" s t _ (sl_current s) (sl_previous s) Hg); [done|].
    set (o := mkOperation OPERATION_JOURNAL_VERSION "install" s t). intros Hv. eapply triple_bind.
    + eapply triple_conseq; [apply (remove_moving Q B B o anything (fun r => rt_previous r = Absent))| | |done];
        [done| |intros ? d Hd; exact Hd]. intros d Hd. by apply (only_every B B _ _ _ d Hd).
    + intros ?. eapply triple_conseq; [apply (swap_moving Q B B o Hg (fun r => rt_previous r = Absent)
        (fun r => rt_previous r = Absent /\ rt_current r = link_to (sl_current t)) PCurrent)| | |done];
        [done|done|done|intros d; apply only_moving_every|].
      intros ? d (Hs & Hpast & Hm & Hpr & Hcu). split; [done|]. split; [done|]. split; [done|]. by rewrite Hp.
  - intros ?. apply triple_pure. intros Hv. pose proof (closes_next Q B _ Hv Hg) as [_ _ _ _ _ [Huc Hup]]. cbn in Huc, Hup.
    eapply triple_conseq; [apply (change_triple B B (resting Q B (sl_current t) (sl_previous t)) (settled t) (settled t) anything)| | |].
    + intros r [H1 H2 H3 H4 H5] _. by split.
    + by intros r _ (H1 & H2 & H3 & H4 & H5).
    + done.
    + intros d Hd. apply (only_every B B _ _ _ d Hd); [|done]. intros r. by apply settled_resting.
    + intros ? d Hd. apply (settled_shows B B); try done. by destruct Hg.
    + intros d. by apply every_resting_safe.
Qed.

Lemma install_baseline_triple B M copy copied inv minimum : below B M -> (forall s t, good Q s -> installation_of inv minimum s t -> Q t) ->
  triple (ready Q B M anything) (install_baseline mgr sha256 copy copied inv minimum)
    (fun _ d => exists s t, good Q s /\ installation_of inv minimum s t /\ shows_only t d) (Safe Q).
Proof.
  intros Hbm Hin. apply with_lock_triple; [by apply ready_safe|]. eapply triple_bind; [by apply recover_triple|]. intros ?.
  apply read_state_triple; [done|done|]. intros s Hg Hc Hp _. apply check_triple; [intros d; by apply reads_safe|]. intros v Hv. cbn zeta.
  assert (Hok : version_or_empty v) by (eapply installation_minimum_version; [by destruct Hg|done]).
  set (t := installed (baseline_version sha256 inv) v).
  assert (Hit : installation_of inv minimum s t) by (by exists v).
  assert (Hgt : good Q t) by (apply good_no_pending; [done|done|by apply (Hin s)]).
  apply check_triple; [intros d; by apply reads_safe|]. intros temp _.
  set (c := sl_current s) in *. set (p := sl_previous s) in *. set (E := fun r => rt_operation r = Absent).
  assert (Hsafe : forall M d, every B M (resting Q B c p) E d -> Safe Q d) by (intros M' d; by apply every_resting_safe).
  eapply triple_conseq; [|intros d; apply reads_every|intros ? d Hd; exact Hd|done].
  eapply triple_bind; [apply triple_map_err, triple_prepare; apply Hsafe|]. intros ?.
  apply (view_check_triple Q M); [intros d Hd; split; [by apply (Hsafe M)|by destruct Hd as ((? & _) & _)]|]. intros found _.
  eapply (triple_bind _ _ _ (fun _ d => exists M', below B M' /\ every B M' (resting Q B c p) E d)).
  { assert (Hcheck : forall slot, triple (every B M (resting Q B c p) E) (do _ <- sret (check_existing inv slot); prepare)
      (fun _ d => exists M', below B M' /\ every B M' (resting Q B c p) E d) (Safe Q)).
    { intros slot. apply check_triple; [apply Hsafe|]. intros _ _.
      eapply triple_conseq; [apply triple_prepare; apply Hsafe|done| |done]. intros ? d Hd. by exists M. }
    destruct found as [slot|]; [apply Hcheck|].
    eapply triple_conseq; [apply (change_slots_triple B M); by apply below_insert|done| |].
    - intros ? d Hd. eexists. split; [by apply below_insert|exact Hd].
    - intros d [M' Hd]. by apply (Hsafe M'). }
  intros ?. apply triple_exists. intros M'. apply triple_pure. intros Hbm'.
  eapply (triple_bind _ _ _ (fun _ => calm Q M' M' anything)).
  { eapply triple_conseq; [apply (sync_slots_triple B M'); done|done| |apply Hsafe].
    intros ? d [Hd Hpast]. by apply (synced_calm B M' c p). }
  intros ?. apply read_state_triple; [done|apply below_refl|]. intros old Hgo _ _ _.
  eapply triple_conseq; [apply (install_commit_triple M' old t); done|done| |done]. intros ? d Hd. by exists s, t.
Qed.

(** ** Staging *)
Definition staging_of (v : string) (s t : SlotState) : Prop :=
  (exists f, upgrade_floor s = Ok f /\ validate_forward_upgrade v f = Ok tt) /\ t = shown (with_pending_slot s v).

(** The visible slots are some slots, and [B] of them cannot be lost. *)
Definition among (B : SlotDir) (P E : Root -> Prop) (d : UpdateDisk) : Prop := exists M, every B M P E d.
Lemma among_change B P E f : (forall M, below B M -> below B (f M)) ->
  triple (among B P E) (change_slots f) (fun _ => among B P E) (among B P E).
Proof.
  intros Hf d fs [M Hd]. pose proof Hd as ((Hm & Hb) & _). apply Forall_cons in Hb as [Hb _]. rewrite Hm in Hb.
  pose proof (change_slots_triple B M P E f (Hf M Hb) d fs Hd) as Ht. destruct (change_slots f d fs) as [[[]|]|]; [by eexists|exact Ht|exact Ht].
Qed.

(** Removing a slot that was just added takes nothing else away, wherever it
    stops. *)
Lemma below_delete (B M : SlotDir) v : ~ is_Some (B !! v) -> below B M -> below B (delete v M).
Proof.
  intros Hv Hb w Hw. assert (v <> w) by (by intros ->). apply (lookup_delete_is_Some (M := gmap string)). split; [done|]. by apply Hb.
Qed.
Lemma below_alter (B M : SlotDir) v g : below B M -> below B (alter g v M).
Proof. intros Hb w Hw. apply (lookup_alter_is_Some (M := gmap string)). by apply Hb. Qed.
Lemma remove_dir_all_triple B P E order v : ~ is_Some (B !! v) ->
  triple (among B P E) (remove_dir_all order v) (fun _ => among B P E) (among B P E).
Proof.
  intros Hv. unfold remove_dir_all. eapply (triple_bind _ _ _ (fun _ => among B P E)); [by apply triple_view|]. intros slot.
  induction (removal_order order slot) as [|p paths IH]; cbn [remove_entries].
  - apply among_change. intros M. by apply below_delete.
  - eapply triple_bind; [|intros ?; apply IH]. apply among_change. intros M. apply below_alter.
Qed.
Lemma remove_slot_triple {A} B M c p F order v (k : result unit error -> SM A) ok :
  usable B c -> usable B p -> ~ is_Some (B !! v) ->
  (forall r M', triple (every B M' (resting Q B c p) F) (k r) ok (Safe Q)) ->
  triple (every B M (resting Q B c p) F) (scall (remove_dir_all order v) k) ok (Safe Q).
Proof.
  intros Hc Hp Hv Hk. eapply triple_call; [eapply triple_conseq; [by apply (remove_dir_all_triple B (resting Q B c p) F order v)| | |]| | |].
  - intros d Hd. by exists M.
  - intros ? d Hd. exact Hd.
  - intros d Hd. exact Hd.
  - intros ?. apply triple_exists. intros M'. apply Hk.
  - intros e. apply triple_exists. intros M'. apply Hk.
  - intros d [M' Hd]. by apply (every_resting_safe Q B M' c p F).
Qed.

Lemma resync_triple B M c p F : usable B c -> usable B p ->
  triple (every B M (resting Q B c p) F) sync_slots (fun _ => Safe Q) (Safe Q).
Proof.
  intros Hc Hp d fs Hd. pose proof (every_resting_safe Q B M c p F d Hc Hp Hd) as Hs. unfold sync_slots.
  destruct (next_fate fs) as [[]]; try done. eapply (every_resting_safe Q B M c p F _ Hc Hp).
  eapply every_slots; [|exact Hd|done|done|by destruct Hd as ((? & _) & _)|]; [done|].
  destruct Hd as ((_ & Hb) & _). apply Forall_cons in Hb as [Hb _]. by constructor.
Qed.

Lemma stage_triple B M source copied order manifest : below B M ->
  (forall v s t, option_map fm_version manifest = Some v -> good Q s -> staging_of v s t -> Q t) ->
  triple (ready Q B M anything) (stage mgr host_arch source copied order manifest)
    (fun _ d => exists v s t, option_map fm_version manifest = Some v /\ good Q s /\ staging_of v s t /\ shows_only t d) (Safe Q).
Proof.
  intros Hbm Hst. apply begin_triple; [done|done|].
  assert (Hcs : forall d, calm Q B M anything d -> Safe Q d) by (intros d; by apply calm_safe).
  destruct manifest as [mf|]; [|apply triple_ret; [done|]; intros e d _; apply Hcs]. cbn zeta. set (v := fm_version mf) in *.
  destruct (negb (RELEASE_VERSION_PATTERN v)); [apply triple_ret; [done|]; intros e d _; apply Hcs|].
  destruct (negb _); [apply triple_ret; [done|]; intros e d _; apply Hcs|].
  apply check_triple; [apply Hcs|]. intros _ _. apply read_state_triple; [done|done|]. intros s Hg Hc Hp _.
  assert (Hrs : forall d, reads Q B M anything (sl_current s) (sl_previous s) s d -> Safe Q d) by (intros d; by apply reads_safe).
  apply check_triple; [apply Hrs|]. intros f Hf. apply check_triple; [apply Hrs|]. intros [] Hfw.
  apply (view_check_triple Q M); [apply reads_slots|]. intros [] [_ Hns].
  assert (Hstaged : ~ is_Some (B !! v)).
  { intros Hv. apply Hbm in Hv. unfold staged in Hns. by rewrite bool_decide_eq_true_2 in Hns. }
  apply check_triple; [apply Hrs|]. intros temp _. apply check_triple; [apply Hrs|]. intros _ _.
  set (t := shown (with_pending_slot s v)). assert (Hit : staging_of v s t) by (split; [eauto|done]).
  assert (Hgt : good Q t).
  { split; [|split; [apply shown_shown|by apply (Hst v s)]]. unfold t. destruct (shown_fields (with_pending_slot s v)) as (_ & _ & ->).
    by destruct Hg. }
  set (P := resting Q B (sl_current s) (sl_previous s)). set (E := fun r => rt_operation r = Absent).
  assert (Hsafe : forall M F d, every B M P F d -> Safe Q d) by (intros M' F d; by apply every_resting_safe).
  eapply triple_bind; [apply triple_map_err, triple_prepare; apply Hrs|]. intros ?.
  set (M1 := <[v := temp]> M). assert (Hbm1 : below B M1) by (by apply below_insert).
  eapply (triple_bind _ _ _ (fun _ => every B M1 P E)).
  { apply triple_map_err. eapply triple_conseq; [by apply (change_slots_triple B M P E)| |done|].
    - intros d Hd. by apply (reads_every Q B M anything _ _ s).
    - intros d [M' Hd]. by apply (Hsafe M' E). }
  intros ?. assert (Hremove : forall F (k : result unit error -> SM unit) ok, (forall r M', triple (every B M' P F) (k r) ok (Safe Q)) ->
    triple (every B M1 P F) (scall (remove_dir_all order v) k) ok (Safe Q)) by (intros F k ok; by apply remove_slot_triple).
  eapply triple_call; [by apply (sync_slots_triple B M1 P E)| | |by apply Hsafe].
  - intros ?. eapply triple_call.
    + eapply triple_conseq; [apply (save_resting_triple Q B M1 (sl_current s) (sl_previous s) (with_pending_slot s v)); done| | |].
      * by intros d [Hd _].
      * intros ? d Hd. exact Hd.
      * intros d Hd. exact Hd.
    + intros ?. apply triple_ret; [|done]. intros ? d _ Hd. by exists v, s, t.
    + intros e. apply Hremove. intros r M'. eapply (triple_call _ _ _ (fun _ => Safe Q) (Safe Q)).
      * by apply (resync_triple B M' (sl_current s) (sl_previous s)).
      * intros ?. by apply triple_ret.
      * intros ?. by apply triple_ret.
      * done.
    + by apply Hsafe.
  - intros e. apply Hremove. intros r M'. apply triple_ret; [done|]. intros f' d _. by apply Hsafe.
Qed.
End Operations.
