(* ===== verification/SlotsReach.v ===== *)
(** * Runs of the slot manager: requests, failures and power loss in any order *)

From Stdlib Require Import ZArith Ascii String Lia Bool.
From stdpp Require Import base list strings gmap relations.
From S2P Require Import Prelude GoStrings Net NetSpec GoPath Json Model Validation ValidationSpec Policy Firmware FirmwareSpec Slots SlotsSpec SlotsSafety.

Local Open Scope string_scope.
Local Open Scope Z_scope.
Local Open Scope list_scope.

Inductive request :=
| RStage (source : Tree) (copied : result Slot error) (order : list string) (manifest : option FirmwareManifest)
| RActivate (version : string)
| RRollback
| RBeginInstallation (minimum : string)
| RInstallBaseline (copy : string -> result unit error) (copied : Slot) (inv : FirmwareManifest) (minimum : string).

Section Reach.
Context `{Ed25519} (mgr : SlotManager) (host_arch : string) (sha256 : bytes -> list Z).

Definition perform (rq : request) : SM unit :=
  match rq with
  | RStage source copied order manifest => stage mgr host_arch source copied order manifest
  | RActivate version => activate mgr version
  | RRollback => rollback mgr
  | RBeginInstallation minimum => begin_installation mgr minimum
  | RInstallBaseline copy copied inv minimum => install_baseline mgr sha256 copy copied inv minimum
  end.

(** A visible slot that a power loss may take: a staging failed both to sync it
    and to remove it, or an installation failed to sync it. *)
Definition can_be_lost (d : UpdateDisk) (v : string) : bool := staged (dk_slots d) v && negb (staged (durable_slots d) v).
Definition visible_pending (r : Root) : list string := match rt_state r with Holds s => [sl_pending s] | _ => [] end.
(** No activation or rollback is asked for while the version it is for, or the
    one that is pending, is such a slot. *)
Definition admissible (rq : request) (d : UpdateDisk) : bool :=
  match rq with
  | RActivate v => negb (existsb (can_be_lost d) (v :: visible_pending (dk_root d)))
  | RRollback => negb (existsb (can_be_lost d) (visible_pending (dk_root d)))
  | _ => true
  end.

(** A request returns, with success or not, or the power fails during it or
    between two. *)
Inductive step : UpdateDisk -> UpdateDisk -> Prop :=
| step_returns d rq fs r d' fs' : admissible rq d = true -> perform rq d fs = Returned r d' fs' -> step d d'
| step_crashes d rq fs d1 d' : admissible rq d = true -> perform rq d fs = Crashed d1 -> reboots d1 d' -> step d d'
| step_power_loss d d' : reboots d d' -> step d d'.

Definition fresh : UpdateDisk := mkUpdateDisk (mkRoot Absent Absent Absent Absent Absent) [] ∅ [].

Lemma fresh_safe (Q : SlotState -> Prop) : Q slot_default -> Safe Q fresh.
Proof.
  intros HQ. apply (safe_resting Q fresh ∅ EmptyString EmptyString); [|by left|by left|].
  - constructor; [apply below_refl|done].
  - constructor; [|done]. split; [done|by left| |done|done]. split; [done|]. split; [done|]. by apply good_no_pending; [left| |].
Qed.

(** [Q] is kept by whatever a request may make of a state. *)
Record kept (Q : SlotState -> Prop) : Prop := {
  kp_closed : closed Q;
  kp_stage v s t : good Q s -> staging_of v s t -> Q t;
  kp_activate v s t : good Q s -> activation_of v s t -> Q t;
  kp_rollback s t : good Q s -> rollback_of s t -> Q t;
  kp_install inv minimum s t : good Q s -> installation_of sha256 inv minimum s t -> Q t;
}.

Lemma kept_slot d v : can_be_lost d v = false -> require_slot (dk_slots d) v = Ok tt -> require_slot (durable_slots d) v = Ok tt.
Proof.
  unfold can_be_lost, staged. rewrite !require_slot_ok. intros Hl [Hv Hs]. split; [done|]. rewrite (bool_decide_eq_true_2 _ Hs) in Hl.
  cbn [andb] in Hl. apply negb_false_iff in Hl. by apply bool_decide_eq_true in Hl.
Qed.
Lemma safe_ready Q d : Safe Q d -> ready Q (durable_slots d) (dk_slots d) anything d /\ below (durable_slots d) (dk_slots d).
Proof.
  intros Hs. pose proof (durable_below d) as Hb. split; [|by apply Forall_cons in Hb as [Hb _]].
  split; [by split|]. split; [by apply durable_greatest|by split].
Qed.
Lemma safe_ready_pending Q d : Safe Q d -> existsb (can_be_lost d) (visible_pending (dk_root d)) = false ->
  ready Q (durable_slots d) (dk_slots d) (pending_kept (durable_slots d) (dk_slots d)) d.
Proof.
  intros Hs Hp. destruct (safe_ready Q d Hs) as [(H1 & H2 & H3 & _) _]. split; [done|]. split; [done|]. split; [done|].
  unfold pending_kept, visible_pending in *. destruct (rt_state (dk_root d)) as [| |s]; [done|done|]. cbn [existsb] in Hp. rewrite orb_false_r in Hp.
  intros Hr. right. by apply kept_slot.
Qed.

Lemma perform_safe Q rq : kept Q -> triple (fun d => Safe Q d /\ admissible rq d = true) (perform rq) (fun _ => Safe Q) (Safe Q).
Proof.
  intros [HQ Hst Hac Hro Hin] d fs [Hs Ha]. destruct (safe_ready Q d Hs) as [Hr Hb]. destruct rq; cbn [perform admissible] in *.
  - eapply triple_conseq; [apply (stage_triple mgr host_arch Q HQ _ _ source copied order manifest Hb); eauto|intros d' Hd'; exact Hd'| |done|exact Hr].
    intros ? d' (v & s & t & _ & Hg & Hof & Hsh). apply Hsh; eauto.
  - apply negb_true_iff in Ha. cbn [existsb] in Ha. apply orb_false_elim in Ha as [Hv Hp].
    eapply triple_conseq; [apply (activate_triple mgr Q HQ _ _ version Hb (kept_slot d version Hv)); eauto|intros d' Hd'; exact Hd'| |done|by apply safe_ready_pending].
    intros ? d' (s & t & Hg & Hof & Hsh). apply Hsh; eauto.
  - apply negb_true_iff in Ha.
    eapply triple_conseq; [apply (rollback_triple mgr Q HQ _ _ Hb); eauto|intros d' Hd'; exact Hd'| |done|by apply safe_ready_pending].
    intros ? d' (s & t & Hg & Hof & Hsh). apply Hsh; eauto.
  - by apply (begin_installation_triple mgr Q HQ _ _ minimum Hb).
  - eapply triple_conseq; [apply (install_baseline_triple mgr sha256 Q HQ _ _ copy copied inv minimum Hb); eauto|intros d' Hd'; exact Hd'| |done|exact Hr].
    intros ? d' (s & t & Hg & Hof & Hsh). apply Hsh; eauto.
Qed.

Lemma step_safe Q d d' : kept Q -> Safe Q d -> step d d' -> Safe Q d'.
Proof.
  intros HK Hd Hstep. destruct Hstep as [d rq fs r d' fs' Ha Hp|d rq fs d1 d' Ha Hp Hre|d d' Hre].
  - pose proof (perform_safe Q rq HK d fs (conj Hd Ha)) as Ht. rewrite Hp in Ht. by destruct r.
  - pose proof (perform_safe Q rq HK d fs (conj Hd Ha)) as Ht. rewrite Hp in Ht. by eapply Safe_reboots.
  - by eapply Safe_reboots.
Qed.

Lemma steps_safe Q d d' : kept Q -> Safe Q d -> rtc step d d' -> Safe Q d'.
Proof. intros HK Hd Hs. induction Hs as [|x y z Hxy Hyz IH]; [done|]. apply IH. by apply (step_safe Q x). Qed.

Lemma anything_kept : kept (fun _ => True).
Proof. by split. Qed.

Definition reachable (d : UpdateDisk) : Prop := rtc step fresh d.
Lemma reachable_safe d : reachable d -> Safe (fun _ => True) d.
Proof. apply (steps_safe (fun _ => True)); [apply anything_kept|by apply fresh_safe]. Qed.

(** ** The running release exists *)

(** C12: the update root is always readable.  From an empty root, after any
    sequence of requests in which any change of a directory, any sync and any
    removal of a file may fail, stay unsynced or be cut off by a power loss that
    keeps any mixture of old and new directory entries, the state can be read,
    and [current] is absent or points to a slot that is there: a router never
    comes back without the directory of the release it runs.  The one thing the
    requests must not do is to ask for an activation or rollback while the
    version it is for, or the pending one, is a slot whose directory entry an
    earlier request failed to make durable; the code does not check that, and a
    power loss then does leave the root unreadable ([undurable_slot_is_lost]). *)
Theorem update_root_always_readable d d' : reachable d -> reboots d d' ->
  exists s, state (dk_root d') (dk_slots d') = Ok s
    /\ link_version (dk_root d') (dk_slots d') PCurrent = Ok (if is_empty (sl_current s) then None else Some (sl_current s)).
Proof.
  intros Hr Hre. pose proof (reachable_safe d Hr) as Hs.
  destruct (Safe_shows (fun _ => True) d') as (s & Hst & _ & Hl & Hu); [by intros s s'|by eapply Safe_reboots|].
  exists s. split; [done|]. by apply link_version_to.
Qed.

(** ** All or nothing *)
Definition pointers (s : SlotState) : string * string * string := (sl_current s, sl_previous s, sl_pending s).
Definition shows_pointers (l : list (string * string * string)) (s : SlotState) : Prop := In (pointers s) l.

Lemma pointers_closed l : closed (shows_pointers l).
Proof. intros s s' (Hc & Hp & Hd & _) Hin. unfold shows_pointers, pointers. by rewrite Hc, Hp, Hd. Qed.

Lemma shows_pointers_reboot l d d' : Safe (shows_pointers l) d -> reboots d d' ->
  exists s, state (dk_root d') (dk_slots d') = Ok s /\ In (pointers s) l.
Proof.
  intros Hs Hre. destruct (Safe_state _ d' (pointers_closed l) (Safe_reboots _ _ _ Hs Hre)) as (s & Hst & _ & _ & Hin).
  by exists s.
Qed.

Lemma Safe_mono (Q Q' : SlotState -> Prop) d : (forall s, Q s -> Q' s) -> Safe Q d -> Safe Q' d.
Proof.
  intros HQ. assert (Hg : forall s, good Q s -> good Q' s) by (intros s (? & ? & ?); split; auto).
  intros [B c p Hb Hc Hp Hr|B o Hb Ho Hr].
  - apply (safe_resting Q' d B c p); [done|done|done|]. eapply Forall_impl; [exact Hr|]. intros r [H1 H2 H3 H4 H5].
    split; [done|done| | |done].
    + destruct (rt_state r); naive_solver.
    + destruct (rt_operation r); naive_solver.
  - apply (safe_moving Q' d B o); [done|done|]. eapply Forall_impl; [exact Hr|]. intros r [Ho1 (c & Hc1 & Hc2 & Hc3) Hi1].
    split; [done| |done]. exists c. auto.
Qed.

(** The pointers after an activation of [v] or a rollback from [p] *)
Definition pointers_activated (v : string) (p : string * string * string) : string * string * string :=
  let '(current, previous, _) := p in if current =s v then (current, previous, EmptyString) else (v, current, EmptyString).
Definition pointers_rolled_back (p : string * string * string) : string * string * string :=
  let '(current, previous, _) := p in (previous, current, EmptyString).

Lemma activation_pointers v s t : activation_of v s t -> pointers t = pointers_activated v (pointers s).
Proof.
  intros [[<- ->]|(Hne & _ & _ & ->)]; unfold pointers_activated, pointers; cbn; [by rewrite String.eqb_refl|].
  by rewrite (proj2 (String.eqb_neq _ _) Hne).
Qed.
Lemma rollback_pointers s t : rollback_of s t -> pointers t = pointers_rolled_back (pointers s).
Proof. by intros (_ & f & _ & ->). Qed.

Lemma pointers_activated_twice v p : pointers_activated v (pointers_activated v p) = pointers_activated v p.
Proof.
  destruct p as [[c q] n]. unfold pointers_activated. destruct (String.eqb_spec c v); [by rewrite (proj2 (String.eqb_eq c v))|].
  by rewrite String.eqb_refl.
Qed.

(** C13: activation is all or nothing.  On a root whose every possible content
    shows the same pointers, and on which neither the version nor the pending one
    is a slot that a power loss could take, an activation that returns success leaves the
    version running with the old one as [previous], whatever power loss
    follows; one that fails or is cut off at any point comes back with the old
    pointers or the new ones, never a mixture and never unreadable. *)
Theorem activation_is_atomic v d fs p : Safe (shows_pointers [p]) d -> admissible (RActivate v) d = true ->
  match activate mgr v d fs with
  | Returned (Ok _) d' _ => forall d'', reboots d' d'' ->
      exists s, state (dk_root d'') (dk_slots d'') = Ok s /\ pointers s = pointers_activated v p
  | Returned (Err _) d' _ | Crashed d' => forall d'', reboots d' d'' ->
      exists s, state (dk_root d'') (dk_slots d'') = Ok s /\ (pointers s = p \/ pointers s = pointers_activated v p)
  end.
Proof.
  intros Hs Ho. set (q := pointers_activated v p).
  assert (Hs2 : Safe (shows_pointers [p; q]) d) by (eapply Safe_mono; [|exact Hs]; intros s [Hq|[]]; by left).
  assert (Hkeep : forall s t, good (shows_pointers [p; q]) s -> activation_of v s t -> pointers t = q).
  { intros s t (_ & _ & Hin) Ha. rewrite (activation_pointers v s t Ha). destruct Hin as [Hq|[Hq|[]]]; rewrite <- Hq; [done|].
    apply pointers_activated_twice. }
  cbn [admissible existsb] in Ho. apply negb_true_iff, orb_false_elim in Ho as [Hv Hpend].
  pose proof (activate_triple mgr _ (pointers_closed [p; q]) (durable_slots d) (dk_slots d) v (proj2 (safe_ready _ d Hs2)) (kept_slot d v Hv)
    ltac:(intros s t Hg Ha; right; left; symmetry; by apply (Hkeep s)) d fs (safe_ready_pending _ d Hs2 Hpend)) as Ht.
  assert (Hbad : forall d', Safe (shows_pointers [p; q]) d' -> forall d'', reboots d' d'' ->
    exists s, state (dk_root d'') (dk_slots d'') = Ok s /\ (pointers s = p \/ pointers s = q)).
  { intros d' Hsd d'' Hre. destruct (shows_pointers_reboot _ d' d'' Hsd Hre) as (s & Hst & Hin). exists s. split; [done|].
    destruct Hin as [Hq|[Hq|[]]]; auto. }
  destruct (activate mgr v d fs) as [[u|e] d' fs'|d']; [|by apply Hbad|by apply Hbad].
  destruct Ht as (s & t & Hg & Ha & Hsh). intros d'' Hre.
  destruct (shows_pointers_reboot [q] d' d'') as (s' & Hst & Hin); [|done|].
  - apply Hsh; [apply pointers_closed|]. left. symmetry. by apply (Hkeep s).
  - exists s'. split; [done|]. by destruct Hin as [Hq|[]].
Qed.

(** ** Recovery ends *)
Definition apply_root (f : Root -> Root) (d : UpdateDisk) : UpdateDisk := mkUpdateDisk (f (dk_root d)) [] (dk_slots d) (dk_slots_past d).

Lemma restore_link_done name v d : v = EmptyString \/ require_slot (dk_slots d) v = Ok tt ->
  restore_link name v d [] = Returned (Ok tt) (apply_root (fun r => with_pointer r name (link_to v)) d) [].
Proof.
  intros Hv. unfold restore_link, link_to. destruct (is_empty v) eqn:Ev; [done|]. destruct Hv as [->|Hv]; [done|].
  unfold swap_link, sbind, scall, sview. by rewrite Hv.
Qed.

Definition restored (t : SlotState) (r : Root) : Root :=
  with_operation (with_state (with_pointer (with_pointer r PCurrent (link_to (sl_current t))) PPrevious (link_to (sl_previous t)))
    (Holds t)) Absent.

Lemma recover_done d o t : read_operation (dk_root d) (dk_slots d) = Ok (Some o) ->
  project_operation_state (dk_root d) (dk_slots d) o = Ok t ->
  (sl_current t = EmptyString \/ require_slot (dk_slots d) (sl_current t) = Ok tt) ->
  (sl_previous t = EmptyString \/ require_slot (dk_slots d) (sl_previous t) = Ok tt) ->
  recover_operation d [] = Returned (Ok tt) (apply_root (restored t) d) [].
Proof.
  intros Hr Hp Hc Hpr. unfold recover_operation, sbind, scall, sview. rewrite Hr, Hp.
  unfold smap_err, restore_links, scall. rewrite restore_link_done, restore_link_done by done. done.
Qed.

Lemma restored_shows t r m : shown t = t -> (sl_current t = EmptyString \/ require_slot m (sl_current t) = Ok tt) ->
  (sl_previous t = EmptyString \/ require_slot m (sl_previous t) = Ok tt) ->
  state (restored t r) m = apply_installation_floor r t.
Proof.
  intros Hs Hc Hp. unfold state, read_operation, state_without_operation. cbn [restored rt_operation with_operation rt_state with_state].
  rewrite (link_version_to _ m PCurrent (sl_current t)) by done. rewrite (link_version_to _ m PPrevious (sl_previous t)) by done.
  rewrite (overlay_rest (sl_current t) (sl_previous t) t) by (done || by destruct (is_empty (sl_previous t)); auto). by rewrite Hs.
Qed.

(** C14: recovery always gets through.  In every situation reached as above,
    with any failures and power losses behind it, when the operating system carries out its changes, recovery succeeds in one pass,
    leaves no journal and changes nothing of what the root shows: a second
    recovery finds nothing to do. *)
Theorem recovery_completes d : reachable d -> exists d',
  recover_operation d [] = Returned (Ok tt) d' [] /\ rt_operation (dk_root d') = Absent
  /\ state (dk_root d') (dk_slots d') = state (dk_root d) (dk_slots d).
Proof.
  intros Hr. pose proof (reachable_safe d Hr) as Hs.
  assert (Hland : forall B o c, below B (dk_slots d) -> validate_operation B o = Ok tt -> rt_operation (dk_root d) = Holds o ->
    rt_current (dk_root d) = link_to c -> c = sl_current (op_old o) \/ c = sl_current (op_next o) ->
    good (fun _ => True) (landing o c) -> exists d', recover_operation d [] = Returned (Ok tt) d' []
      /\ rt_operation (dk_root d') = Absent /\ state (dk_root d') (dk_slots d') = state (dk_root d) (dk_slots d)).
  { intros B o c Hb Hv Ho Hc Hside (_ & Hsh & _). destruct (landing_usable B o c Hv) as (Huc & Hup & _).
    apply (usable_below B _ _ Hb) in Huc, Hup. destruct (projects B (dk_slots d) Hb _ o c Hv Hc Hside) as [Hpr _].
    pose proof (reads_operation B (dk_slots d) Hb _ o Hv Ho) as Hread. eexists.
    split; [by apply (recover_done d o (landing o c))|]. split; [done|]. cbn [apply_root dk_root dk_slots].
    rewrite restored_shows by done. unfold state. by rewrite Hread, Hpr. }
  destruct Hs as [B c p Hb Hc Hp Hrs|B o Hb Ho Hrs]; apply Forall_cons in Hb as [Hb _]; apply Forall_cons in Hrs as [Hrs _].
  - destruct (rt_operation (dk_root d)) as [| |o] eqn:Eo.
    + exists d. unfold recover_operation, sbind, scall, sview, read_operation. by rewrite Eo.
    + destruct Hrs as [_ _ _ Hop _]. by rewrite Eo in Hop.
    + destruct Hrs as [Hrc _ _ Hop _]. rewrite Eo in Hop. destruct Hop as (Hv & Hside & Hg & _). by apply (Hland B o c).
  - destruct Hrs as [Eo (c & Hrc & Hside & Hg) _]. by apply (Hland B o c).
Qed.

(** ** Concrete runs *)
Definition after (rq : request) (fs : list fate) (d : UpdateDisk) : UpdateDisk :=
  match perform rq d fs with Returned _ d' _ => d' | Crashed d' => d' end.

Lemma step_after rq fs d : admissible rq d && match perform rq d fs with Returned _ _ _ => true | Crashed _ => false end = true ->
  step d (after rq fs d).
Proof.
  unfold after. intros [Ha Hr]%andb_prop. destruct (perform rq d fs) as [r d' fs'|d'] eqn:Ep; [|done]. by apply (step_returns d rq fs r d' fs').
Qed.

Lemma step_cut rq fs d d' : admissible rq d && match perform rq d fs with Returned _ _ _ => false | Crashed _ => true end = true ->
  reboots (after rq fs d) d' -> step d d'.
Proof. unfold after. intros [Ha Hr]%andb_prop. destruct (perform rq d fs) as [r d1 fs'|d1] eqn:Ep; [done|]. by apply step_crashes with rq fs. Qed.

Lemma reboots_self d : dk_past d = [] -> dk_slots_past d = [] -> reboots d d.
Proof.
  intros Hp Hs. split_and!; [|done| |done].
  - unfold roots. rewrite Hp. unfold mixture. split_and!; exists (dk_root d); (split; [by left|done]).
  - unfold slot_dirs. rewrite Hs. intros v. exists (dk_slots d). split; [by left|done].
Qed.

Lemma settled_safe (Q : SlotState -> Prop) t d : good Q t -> settled t (dk_root d) -> dk_past d = [] -> dk_slots_past d = [] ->
  usable (dk_slots d) (sl_current t) -> usable (dk_slots d) (sl_previous t) -> Safe Q d.
Proof.
  intros Hg Hst Hp Hs Hc Hpr. apply (safe_resting Q d (dk_slots d) (sl_current t) (sl_previous t)); [|done|done|].
  - unfold slot_dirs. rewrite Hs. constructor; [apply below_refl|done].
  - unfold roots. rewrite Hp. constructor; [by apply settled_resting|done].
Qed.
End Reach.
