(* ===== verification/SlotsTrust.v ===== *)
(** * The version floor never goes down, and only verified releases are ever run *)

From Stdlib Require Import ZArith Ascii String Lia Bool.
From stdpp Require Import base list strings gmap relations.
From S2P Require Import Prelude GoStrings Net NetSpec GoPath Json Model Validation ValidationSpec Policy Firmware FirmwareSpec Slots SlotsSpec SlotsSafety SlotsReach.

Local Open Scope string_scope.
Local Open Scope Z_scope.
Local Open Scope list_scope.

(** ** What a floor is *)
Definition known (v : string) : Prop := is_bootstrap v = true \/ version_or_empty v.
Definition floor_ge (F : string) (s : SlotState) : Prop := exists f, upgrade_floor s = Ok f /\ not_below f F.

Lemma parse_nonempty v p : parse_release_version v = Ok p -> is_empty v = false.
Proof. destruct v; [|done]. by vm_compute. Qed.

Lemma upgrade_floor_fields s t : sl_current s = sl_current t -> sl_minimum_version s = sl_minimum_version t ->
  upgrade_floor s = upgrade_floor t.
Proof. unfold upgrade_floor. by intros -> ->. Qed.

(** With a recorded minimum there is a floor, not below it. *)
Lemma floor_from_minimum s p : parse_release_version (sl_minimum_version s) = Ok p -> known (sl_current s) ->
  exists f, upgrade_floor s = Ok f /\ not_below f (sl_minimum_version s) /\ (is_bootstrap (sl_current s) = false ->
    sl_current s <> EmptyString -> not_below f (sl_current s)).
Proof.
  intros Hp Hk. pose proof (parse_nonempty _ _ Hp) as Hne. unfold upgrade_floor. cbn zeta. rewrite Hne, Hp. cbn [negb].
  destruct (is_bootstrap (sl_current s)) eqn:Eb.
  { eexists. split; [done|]. split; [by eapply not_below_refl|done]. }
  destruct (is_empty (sl_current s)) eqn:Ec; cbn [negb].
  { eexists. split; [done|]. split; [by eapply not_below_refl|]. intros _ Hz. by apply is_empty_spec in Ec. }
  destruct Hk as [?|[Hz|[q Hq]]]; [congruence|by rewrite Hz in Ec|]. rewrite Hq.
  destruct (compare_versions_ok _ _ _ _ Hq Hp) as [c Hc]. rewrite Hc. apply compare_sign in Hc as [Hge Hle].
  destruct (c >? 0) eqn:Es; (eexists; split; [done|]; split).
  - apply Hge. lia.
  - intros _ _. by eapply not_below_refl.
  - by eapply not_below_refl.
  - intros _ _. apply Hle. lia.
Qed.

Lemma floor_from_minimum_ge F s : not_below (sl_minimum_version s) F -> known (sl_current s) -> floor_ge F s.
Proof.
  intros Hm Hk. destruct (not_below_parses _ _ Hm) as (p & _ & Hp & _).
  destruct (floor_from_minimum s p Hp Hk) as (f & Hf & Hge & _). exists f. split; [done|]. by eapply not_below_trans.
Qed.

(** The floor is the minimum or the running version. *)
Lemma floor_source s f : upgrade_floor s = Ok f ->
  f = sl_minimum_version s \/ f = sl_current s /\ is_bootstrap (sl_current s) = false /\ sl_current s <> EmptyString.
Proof.
  intros Hf. unfold upgrade_floor in Hf. cbn zeta in Hf. destruct (if negb (is_empty (sl_minimum_version s)) then _ else _); [|done].
  destruct (is_bootstrap (sl_current s)); [destruct (is_empty _); simplify_eq; by left|].
  destruct (is_empty (sl_current s)) eqn:Ec; cbn [negb] in Hf; [simplify_eq; by left|].
  assert (sl_current s <> EmptyString) by (intros Hz; by rewrite Hz in Ec).
  destruct (parse_release_version (sl_current s)); [|done]. destruct (is_empty (sl_minimum_version s)); [simplify_eq; by right|].
  destruct (compare_release_versions _ _) as [c|]; [|done]. destruct (c >? 0); simplify_eq; auto.
Qed.

Lemma raised_floor F s s' : raises s s' -> known (sl_current s) -> floor_ge F s -> floor_ge F s'.
Proof.
  intros (Hc & _ & _ & Hm) Hk (f & Hf & Hge). destruct Hm as [Hm|(p & c & Hp & Hne & Hm)].
  { exists f. split; [|done]. by rewrite (upgrade_floor_fields s' s). }
  rewrite <- Hc in Hk. destruct (floor_from_minimum s' p Hp Hk) as (f' & Hf' & Hge' & Hcur). exists f'. split; [done|].
  destruct (floor_source s f Hf) as [->|(-> & Hb & Hz)].
  - destruct Hm as [Hm|[Hm Hpos]].
    + rewrite Hm in Hge. apply not_below_parses in Hge as (q & _ & Hq & _). by apply parse_nonempty in Hq.
    + apply compare_sign in Hm as [Hm _]. eapply not_below_trans; [exact Hge'|]. eapply not_below_trans; [apply Hm; lia|done].
  - rewrite Hc in Hcur. eapply not_below_trans; [by apply Hcur|done].
Qed.

(** ** Requests keep the floor *)
Definition floored (F : string) (s : SlotState) : Prop := known (sl_current s) /\ known (sl_previous s) /\ floor_ge F s.

Lemma forward_not_below F v f : not_below f F -> validate_forward_upgrade v f = Ok tt -> not_below v F.
Proof.
  intros Hf Hv. unfold validate_forward_upgrade in Hv. destruct (not_below_parses _ _ Hf) as (p & _ & Hp & _).
  rewrite (parse_nonempty _ _ Hp) in Hv. destruct (compare_release_versions v f) as [c|] eqn:Ec; [|done].
  destruct (c <=? 0) eqn:E; [done|]. apply compare_sign in Ec as [Hge _]. eapply not_below_trans; [apply Hge; lia|done].
Qed.

Lemma installed_bootstrap sha256 inv : is_bootstrap (baseline_version sha256 inv) = true.
Proof.
  unfold baseline_version, is_bootstrap. generalize (hex_encode (take 16 (sha256 (signed_payload inv)))).
  intros s. vm_compute. done.
Qed.

Section Floor.
Context `{Ed25519} (mgr : SlotManager) (host_arch : string) (sha256 : bytes -> list Z) (F : string).

Lemma floored_kept : kept sha256 (floored F).
Proof.
  split.
  - intros s s' Hr (Hc & Hp & Hf). pose proof Hr as (Ec & Ep & _). split; [by rewrite Ec|]. split; [by rewrite Ep|].
    by apply (raised_floor F s).
  - intros v s t (_ & _ & Hc & Hp & Hf) [_ ->]. destruct (shown_fields (with_pending_slot s v)) as (Ec & Ep & Em).
    split; [by rewrite Ec|]. split; [by rewrite Ep|]. destruct Hf as (f & Hf & Hge). exists f. split; [|done].
    by rewrite (upgrade_floor_fields _ s).
  - intros v s t (_ & _ & Hc & Hp & Hf) [(_ & ->)|(_ & Hv & (f & Hfl & Hfw) & ->)].
    + split; [done|]. split; [done|]. destruct Hf as (f & Hf & Hge). exists f. split; [|done]. by rewrite (upgrade_floor_fields _ s).
    + destruct Hf as (f' & Hf' & Hge). assert (f' = f) as -> by congruence.
      assert (Hk : known v) by (right; by apply pattern_version).
      split; [done|]. split; [done|]. apply floor_from_minimum_ge; [by apply (forward_not_below F v f)|done].
  - intros s t (_ & _ & Hc & Hp & Hf) [Hne (f & Hfl & ->)]. destruct Hf as (f' & Hf' & Hge). assert (f' = f) as -> by congruence.
    split; [done|]. split; [done|]. by apply floor_from_minimum_ge.
  - intros inv minimum s t (_ & _ & Hc & Hp & Hf) (v & Hv & ->). destruct Hf as (f & Hf & Hge).
    assert (Hk : known (baseline_version sha256 inv)) by (left; apply installed_bootstrap).
    split; [done|]. split; [right; by left|]. apply floor_from_minimum_ge; [|done]. cbn.
    unfold installation_minimum in Hv. rewrite Hf in Hv. destruct (not_below_parses _ _ Hge) as (p & _ & Hp' & _).
    rewrite (parse_nonempty _ _ Hp') in Hv. cbn [negb] in Hv. destruct (is_empty minimum); [done|].
    destruct (parse_release_version minimum); [|done]. destruct (compare_release_versions minimum f) as [c|] eqn:Ec; [|done].
    destruct (c <? 0) eqn:E; [done|]. simplify_eq. apply compare_sign in Ec as [Hc' _]. eapply not_below_trans; [apply Hc'; lia|done].
Qed.

(** C22: the version floor never goes down.  Once every content the medium may
    hold shows a floor of at least [F] (the higher of the recorded minimum and
    the running release), then after any sequence of stagings, activations,
    rollbacks and full installations, with any of their changes, syncs and
    removals failing, staying unsynced or cut off by a power loss, whatever comes
    back still shows a floor of at least [F]: no interruption can make the router
    accept an older release.  As in [update_root_always_readable], activations
    and rollbacks are not asked for while the version or the pending one is a
    slot that an earlier request failed to make durable. *)
Theorem floor_never_lowered d d' d'' : Safe (floored F) d -> rtc (step mgr host_arch sha256) d d' -> reboots d' d'' ->
  exists s, state (dk_root d'') (dk_slots d'') = Ok s /\ floor_ge F s.
Proof.
  intros Hs Hsteps Hre. pose proof (steps_safe mgr host_arch sha256 (floored F) d d' floored_kept Hs Hsteps) as Hs'.
  destruct (Safe_state (floored F) d'' (kp_closed _ _ floored_kept) (Safe_reboots _ _ _ Hs' Hre)) as (s & Hst & _ & _ & _ & _ & Hf).
  by exists s.
Qed.
End Floor.

(** ** What an operation keeps of the slots

    [P] holds of the visible slots and of those the medium may still hold. *)
Section Keeping.
Context (P : SlotDir -> list SlotDir -> Prop) (Hsync : forall m past, P m past -> P m []).
Definition holds (d : UpdateDisk) : Prop := P (dk_slots d) (dk_slots_past d).
Definition keeps {A} (m : SM A) : Prop := triple holds m (fun _ => holds) holds.

Lemma keeps_call {A B} (m : SM A) (k : result A error -> SM B) : keeps m -> (forall r, keeps (k r)) -> keeps (scall m k).
Proof. intros Hm Hk. eapply triple_call; [exact Hm|intros; apply Hk|intros; apply Hk|done]. Qed.
Lemma keeps_bind {A B} (m : SM A) (k : A -> SM B) : keeps m -> (forall a, keeps (k a)) -> keeps (sbind m k).
Proof. intros Hm Hk. by eapply triple_bind. Qed.
Lemma keeps_ret {A} (r : result A error) : keeps (sret r).
Proof. by apply triple_ret. Qed.
Lemma keeps_view {A} (f : Root -> SlotDir -> result A error) : keeps (sview f).
Proof. by apply triple_view. Qed.
Lemma keeps_map_err {A} f (m : SM A) : keeps m -> keeps (smap_err f m).
Proof. apply triple_map_err. Qed.
Lemma keeps_prepare : keeps prepare.
Proof. by apply triple_prepare. Qed.
Lemma keeps_change_root f : keeps (change_root f).
Proof. intros d fs Hd. unfold change_root. by destruct (next_fate fs) as [[]]. Qed.
Lemma keeps_sync : keeps sync_slots.
Proof. intros d fs Hd. unfold sync_slots. destruct (next_fate fs) as [[]]; try done. by eapply Hsync. Qed.
Lemma keeps_change_slots f : (forall m past, P m past -> P (f m) (m :: past)) -> keeps (change_slots f).
Proof. intros Hf d fs Hd. unfold change_slots. destruct (next_fate fs) as [[]]; try done; by apply Hf. Qed.

(** A check of a pure result *)
Lemma keeps_check {A B} (r : result A error) (k : A -> SM B) : (forall a, r = Ok a -> keeps (k a)) -> keeps (sbind (sret r) k).
Proof.
  intros Hk. apply (triple_bind _ _ _ (fun a d => r = Ok a /\ holds d)); [by apply triple_ret|].
  intros a. apply triple_pure. apply Hk.
Qed.

(** The same for a beginning that keeps [P], before a rest that may not *)
Context (bad : UpdateDisk -> Prop) (Hbad : forall d, holds d -> bad d).
Lemma pass_bind {A B} (m : SM A) (k : A -> SM B) ok : keeps m -> (forall a, triple holds (k a) ok bad) -> triple holds (sbind m k) ok bad.
Proof. intros Hm Hk. eapply triple_bind; [|exact Hk]. by eapply triple_conseq; [exact Hm| | |]. Qed.
Lemma pass_check {A B} (r : result A error) (k : A -> SM B) ok : (forall a, r = Ok a -> triple holds (k a) ok bad) ->
  triple holds (sbind (sret r) k) ok bad.
Proof.
  intros Hk. apply (triple_bind _ _ _ (fun a d => r = Ok a /\ holds d)); [apply triple_ret; auto|].
  intros a. apply triple_pure. apply Hk.
Qed.
Lemma pass_err {A} (e : error) (ok : A -> UpdateDisk -> Prop) : triple holds (sret (Err e)) ok bad.
Proof. apply triple_ret; auto. done. Qed.
End Keeping.

Ltac keep :=
  repeat match goal with
  | |- keeps _ (with_lock _ _) => unfold with_lock
  | |- keeps _ (sbind (sret _) _) => apply keeps_check; intros ? ?
  | |- keeps _ (sbind _ _) => apply keeps_bind; [|intros ?]
  | |- keeps _ (scall _ _) => apply keeps_call; [|intros ?]
  | |- keeps _ (sret _) => apply keeps_ret
  | |- keeps _ (sview _) => apply keeps_view
  | |- keeps _ (smap_err _ _) => apply keeps_map_err
  | |- keeps _ prepare => apply keeps_prepare
  | |- keeps _ sync_slots => apply keeps_sync; [assumption]
  | |- keeps _ (change_root _) => apply keeps_change_root
  | |- keeps _ (if ?b then _ else _) => destruct b eqn:?
  | |- keeps _ (match ?x with _ => _ end) => destruct x
  end.

(** The operations on the pointers leave the slots alone. *)
Lemma keeps_restore_links P s : keeps P (restore_links s).
Proof. unfold restore_links, restore_link, swap_link, remove_link. keep. Qed.
Lemma keeps_commit P kind old next mutate : keeps P mutate -> keeps P (commit_operation kind old next mutate).
Proof.
  intros Hm. unfold commit_operation, begin_operation, abort_operation, save_state, clear_operation. keep; try done; apply keeps_restore_links.
Qed.
Lemma keeps_recover P : keeps P recover_operation.
Proof. unfold recover_operation, save_state, clear_operation. keep. apply keeps_restore_links. Qed.
Lemma keeps_activate P mgr v : keeps P (activate mgr v).
Proof.
  unfold activate, recover_first, save_state, swap_link, remove_link. keep; [apply keeps_recover|]. apply keeps_commit. keep.
Qed.
Lemma keeps_rollback P mgr : keeps P (rollback mgr).
Proof. unfold rollback, recover_first, swap_link, remove_link. keep; [apply keeps_recover|]. apply keeps_commit. keep. Qed.
Lemma keeps_begin P mgr minimum : keeps P (begin_installation mgr minimum).
Proof. unfold begin_installation. keep. apply keeps_recover. Qed.

(** ** Verified releases *)
Section Trust.
Context `{Ed25519} (mgr : SlotManager) (host_arch : string) (sha256 : bytes -> list Z).

(** A slot of the full installer, or a copy of a signed release of that version;
    and what the removal of such a slot may leave of it *)
Definition trusted_slot (v : string) (slot : Slot) : Prop :=
  is_bootstrap v = true
  \/ exists mf, fm_version mf = v /\ validate_release_candidate_for_arch (tree_of slot) (Some mf) (sm_trusted_key mgr) host_arch = Ok tt.
Definition part_of_trusted (v : string) (slot : Slot) : Prop := exists whole, trusted_slot v whole /\ slot ⊆ whole.

(** Every slot is trusted, but for those of [F], of which a part may be left. *)
Definition trusted_slots (F : gset string) (m : SlotDir) : Prop :=
  forall v slot, m !! v = Some slot -> part_of_trusted v slot /\ (v ∉ F -> trusted_slot v slot).
Definition trusted (F : gset string) (m : SlotDir) (past : list SlotDir) : Prop := Forall (trusted_slots F) (m :: past).

Lemma trusted_sync F m past : trusted F m past -> trusted F m [].
Proof. intros Ht. apply Forall_cons in Ht as [Ht _]. by constructor. Qed.
Lemma whole_part v slot : trusted_slot v slot -> part_of_trusted v slot.
Proof. by exists slot. Qed.
Lemma trusted_weaken F F' m past : F ⊆ F' -> trusted F m past -> trusted F' m past.
Proof. intros Hf Ht. eapply Forall_impl; [exact Ht|]. intros m' Hm v slot Hv. destruct (Hm v slot Hv) as [Hp Hw]. split; [done|]. intros Hn. apply Hw. set_solver. Qed.
Lemma trusted_change F f m past : (forall m, trusted_slots F m -> trusted_slots F (f m)) -> trusted F m past -> trusted F (f m) (m :: past).
Proof. intros Hf Ht. constructor; [|done]. apply Forall_cons in Ht as [Ht _]. by apply Hf. Qed.

Lemma insert_trusted F v slot m : trusted_slot v slot -> trusted_slots F m -> trusted_slots F (<[v := slot]> m).
Proof.
  intros Ht Hm w slot' Hw. apply (lookup_insert_Some (M := gmap string)) in Hw as [[<- <-]|[_ Hw]]; [|by apply Hm].
  split; [by apply whole_part|done].
Qed.
Lemma delete_trusted F v m : trusted_slots F m -> trusted_slots F (delete v m).
Proof. intros Hm w slot Hw. apply (lookup_delete_Some (M := gmap string)) in Hw as [_ Hw]. by apply Hm. Qed.
Lemma alter_trusted F v p m : v ∈ F -> trusted_slots F m -> trusted_slots F (alter (delete p) v m).
Proof.
  intros Hv Hm w slot Hw. destruct (decide (v = w)) as [->|Hne].
  - apply (lookup_alter_Some (M := gmap string)) in Hw as [(_ & slot0 & H0 & ->)|[? _]]; [|done]. split; [|done].
    destruct (Hm w slot0 H0) as [(whole & Ht & Hs) _]. exists whole. split; [done|]. etrans; [apply delete_subseteq|done].
  - apply (lookup_alter_Some (M := gmap string)) in Hw as [(? & _)|[_ Hw]]; [done|]. by apply Hm.
Qed.

Lemma keeps_remove F order v : v ∈ F -> keeps (trusted F) (remove_dir_all order v).
Proof.
  intros Hv. unfold remove_dir_all. apply keeps_bind; [apply keeps_view|]. intros slot.
  induction (removal_order order slot) as [|p paths IH]; cbn [remove_entries].
  - apply keeps_change_slots. intros m past. apply trusted_change. intros m'. apply delete_trusted.
  - apply keeps_bind; [|intros ?; apply IH]. apply keeps_change_slots. intros m past. apply trusted_change. intros m'. by apply alter_trusted.
Qed.

Lemma keeps_install F copy copied inv minimum : keeps (trusted F) (install_baseline mgr sha256 copy copied inv minimum).
Proof.
  pose proof (trusted_sync F) as Hsync. unfold install_baseline, swap_link, remove_link. keep; [apply keeps_recover| |apply keeps_commit; keep].
  apply keeps_change_slots. intros m past. apply trusted_change. intros m'. apply insert_trusted. left. apply installed_bootstrap.
Qed.

(** The versions whose last staging did not succeed *)
Definition failed_after (rq : request) (d : UpdateDisk) (ok : bool) (F : gset string) : gset string :=
  match rq with
  | RStage _ _ _ (Some mf) => if staged (dk_slots d) (fm_version mf) then F else if ok then F ∖ {[fm_version mf]} else {[fm_version mf]} ∪ F
  | _ => F
  end.

(** *** Staging *)

(** What holds of the slots once a verified copy is visible, until it is durable *)
Definition inserted (F : gset string) (v : string) (m : SlotDir) (past : list SlotDir) : Prop :=
  trusted F m past /\ exists slot, m !! v = Some slot /\ trusted_slot v slot.
Lemma inserted_settles F v m : trusted_slots F m -> (exists slot, m !! v = Some slot /\ trusted_slot v slot) -> trusted_slots (F ∖ {[v]}) m.
Proof.
  intros Hm (slot & Hs & Ht) w slot' Hw. destruct (Hm w slot' Hw) as [Hp Hn]. split; [done|]. intros Hf.
  destruct (decide (w = v)) as [->|Hne]; [by simplify_eq|]. apply Hn. set_solver.
Qed.

Lemma sync_inserted F v : triple (holds (inserted F v)) sync_slots (fun _ => holds (trusted (F ∖ {[v]}))) (holds (trusted F)).
Proof.
  intros d fs [Ht He]. unfold sync_slots. destruct (next_fate fs) as [[]]; try done. apply Forall_cons in Ht as [Ht _].
  constructor; [|done]. by apply inserted_settles.
Qed.
Lemma commit_inserted F v temp f : trusted_slot v temp -> triple (holds (trusted F))
  (smap_err f (change_slots (fun m => <[v := temp]> m))) (fun _ => holds (inserted F v)) (holds (trusted F)).
Proof.
  intros Ht. apply triple_map_err. intros d fs Hd.
  assert (Hi : trusted F (<[v := temp]> (dk_slots d)) (dk_slots d :: dk_slots_past d)).
  { apply (trusted_change F (fun m => <[v := temp]> m)); [intros m; by apply insert_trusted|done]. }
  assert (He : exists slot, <[v := temp]> (dk_slots d) !! v = Some slot /\ trusted_slot v slot).
  { exists temp. split; [apply (lookup_insert_eq (M := gmap string))|done]. }
  unfold change_slots. destruct (next_fate fs) as [[]]; try done; by split.
Qed.

(** A staging that succeeds leaves a whole slot; one that does not may leave a
    part of it. *)
Lemma stage_trusted F source copied order mf : triple (holds (trusted F)) (stage mgr host_arch source copied order (Some mf))
  (fun _ => holds (trusted (F ∖ {[fm_version mf]}))) (holds (trusted ({[fm_version mf]} ∪ F))).
Proof.
  set (v := fm_version mf). set (G := {[v]} ∪ F).
  assert (Hw : forall d, holds (trusted F) d -> holds (trusted G) d) by (intros d; apply trusted_weaken; set_solver).
  assert (Hw' : forall d, holds (trusted (F ∖ {[v]})) d -> holds (trusted G) d) by (intros d; apply trusted_weaken; set_solver).
  assert (Hg : v ∈ G) by set_solver.
  unfold stage, with_lock, recover_first. fold v.
  repeat match goal with
  | |- triple _ (sbind (sret _) _) _ _ => apply pass_check; [exact Hw|intros ? ?]
  | |- triple _ (sbind (smap_err _ (change_slots _)) _) _ _ => fail 1
  | |- triple _ (sbind _ _) _ _ => apply pass_bind; [exact Hw|keep|intros ?]
  | |- triple _ (sret (Err _)) _ _ => apply pass_err, Hw
  | |- triple _ (if ?b then _ else _) _ _ => destruct b
  end; [apply keeps_recover|].
  match goal with Hc : map_err _ (validate_release_candidate _ _ (tree_of ?temp) _) = Ok ?u |- _ =>
    destruct u; apply map_err_ok in Hc; assert (Ht : trusted_slot v temp) by (right; by exists mf) end.
  eapply triple_bind; [eapply triple_conseq; [by apply (commit_inserted F v)|done|intros ? d Hd; exact Hd|exact Hw]|]. intros ?.
  assert (Hr : forall (k : result unit error -> SM unit), (forall r, triple (holds (trusted G)) (k r) (fun _ _ => False) (holds (trusted G))) ->
    triple (holds (trusted G)) (scall (remove_dir_all order v) k) (fun _ _ => False) (holds (trusted G))).
  { intros k Hk. eapply triple_call; [by apply keeps_remove|intros; apply Hk|intros; apply Hk|done]. }
  assert (He : forall e : error, triple (holds (trusted G)) (sret (A := unit) (Err e)) (fun _ _ => False) (holds (trusted G))) by (intros e; by apply triple_ret).
  eapply triple_call; [apply sync_inserted| | |exact Hw].
  - intros ?. eapply triple_call; [apply keeps_change_root| | |exact Hw'].
    + intros ?. by apply triple_ret.
    + intros e. eapply triple_conseq; [apply Hr; intros r|exact Hw'|done|done].
      eapply triple_call; [apply keeps_sync, trusted_sync|intros; apply He|intros; apply He|done].
  - intros e. eapply triple_conseq; [apply Hr; intros r; apply He|exact Hw|done|done].
Qed.

(** A version that is there is not staged again. *)
Lemma stage_staged F M source copied order mf : staged M (fm_version mf) = true ->
  triple (holds (fun m past => m = M /\ trusted F m past)) (stage mgr host_arch source copied order (Some mf)) (fun _ _ => False) (holds (trusted F)).
Proof.
  intros Hs. assert (Hw : forall d, holds (fun m past => m = M /\ trusted F m past) d -> holds (trusted F) d) by (by intros d []).
  unfold stage, with_lock, recover_first.
  repeat match goal with
  | |- triple _ (sbind (sret _) _) _ _ => apply pass_check; [exact Hw|intros ? ?]
  | |- triple _ (sbind (sview (fun _ m => if staged m _ then _ else _)) _) _ _ => fail 1
  | |- triple _ (sbind _ _) _ _ => apply pass_bind; [exact Hw|keep|intros ?]
  | |- triple _ (sret (Err _)) _ _ => apply pass_err, Hw
  | |- triple _ (if ?b then _ else _) _ _ => destruct b
  end; [apply keeps_recover|].
  apply (triple_bind _ _ _ (fun _ _ => False)); [|by intros ? ? ? []]. apply triple_view; [|exact Hw].
  intros d [] [-> _] Hv. by rewrite Hs in Hv.
Qed.

Lemma perform_trusted F rq d fs : holds (trusted F) d ->
  match perform mgr host_arch sha256 rq d fs with
  | Returned r d' _ => holds (trusted (failed_after rq d (is_ok r) F)) d'
  | Crashed d' => holds (trusted (failed_after rq d false F)) d'
  end.
Proof.
  intros Hd. assert (Hk : forall m : SM unit, keeps (trusted F) m ->
    match m d fs with Returned _ d' _ | Crashed d' => holds (trusted F) d' end).
  { intros m Hm. specialize (Hm d fs Hd). by destruct (m d fs) as [[]|]. }
  destruct rq as [source copied order [mf|]|v| |minimum|copy copied inv minimum]; cbn [perform failed_after].
  - destruct (staged (dk_slots d) (fm_version mf)) eqn:Es.
    + pose proof (stage_staged F (dk_slots d) source copied order mf Es d fs (conj eq_refl Hd)) as Ht.
      by destruct (stage _ _ _ _ _ _ d fs) as [[]|].
    + pose proof (stage_trusted F source copied order mf d fs Hd) as Ht. by destruct (stage _ _ _ _ _ _ d fs) as [[]|].
  - apply Hk. unfold stage, recover_first. keep. apply keeps_recover.
  - apply Hk, keeps_activate.
  - apply Hk, keeps_rollback.
  - apply Hk, keeps_begin.
  - apply Hk, keeps_install.
Qed.

Lemma trusted_reboots F d d' : holds (trusted F) d -> reboots d d' -> holds (trusted F) d'.
Proof.
  intros Ht (_ & _ & Hm & Hp). unfold holds. rewrite Hp. constructor; [|done]. intros v slot Hv.
  destruct (Hm v) as (h & Hin & Hh). rewrite Hv in Hh. unfold holds, trusted in Ht. rewrite List.Forall_forall in Ht. by apply (Ht h Hin).
Qed.

(** ** Runs that remember which stagings did not succeed

    [tracked_step] is [step] with the versions whose last staging did not. *)
Inductive tracked_step : UpdateDisk * gset string -> UpdateDisk * gset string -> Prop :=
| tracked_returns d F rq fs r d' fs' : admissible rq d = true -> perform mgr host_arch sha256 rq d fs = Returned r d' fs' ->
    tracked_step (d, F) (d', failed_after rq d (is_ok r) F)
| tracked_crashes d F rq fs d1 d' : admissible rq d = true -> perform mgr host_arch sha256 rq d fs = Crashed d1 -> reboots d1 d' ->
    tracked_step (d, F) (d', failed_after rq d false F)
| tracked_power_loss d F d' : reboots d d' -> tracked_step (d, F) (d', F).

Lemma tracked_step_step x y : tracked_step x y -> step mgr host_arch sha256 x.1 y.1.
Proof. intros []; cbn; [by eapply step_returns|by eapply step_crashes|by apply step_power_loss]. Qed.
Lemma tracked_steps_trusted x y : rtc tracked_step x y -> rtc (step mgr host_arch sha256) x.1 y.1
  /\ (holds (trusted x.2) x.1 -> holds (trusted y.2) y.1).
Proof.
  induction 1 as [|x y z Hxy _ [IH1 IH2]]; [done|]. split; [by eapply rtc_l; [apply tracked_step_step|]|].
  intros Hx. apply IH2. destruct Hxy as [d F rq fs r d' fs' _ Hp|d F rq fs d1 d' _ Hp Hre|d F d' Hre]; cbn in *.
  - pose proof (perform_trusted F rq d fs Hx) as Ht. by rewrite Hp in Ht.
  - pose proof (perform_trusted F rq d fs Hx) as Ht. rewrite Hp in Ht. by eapply trusted_reboots.
  - by eapply trusted_reboots.
Qed.

(** Every run can be tracked. *)
Lemma steps_tracked d d' F : rtc (step mgr host_arch sha256) d d' -> exists F', rtc tracked_step (d, F) (d', F').
Proof.
  intros Hr. revert F. induction Hr as [d|d d1 d2 Hstep _ IH]; intros F; [by exists F|].
  assert (exists F1, tracked_step (d, F) (d1, F1)) as [F1 H1].
  { destruct Hstep; eexists; [by eapply tracked_returns|by eapply tracked_crashes|by apply tracked_power_loss]. }
  destruct (IH F1) as [F' H']. exists F'. by eapply rtc_l.
Qed.

(** C11: only verified releases run.  In every reachable situation, with any
    changes, syncs and removals failing or cut off by a power loss, the slot
    [current] points to was written by the full installer, or is a copy that was
    verified after it was made: signed by the pinned key for exactly that
    version, every file with its signed digest, complete for this machine.  The
    one exception is a version whose last staging did not succeed ([F]): of its
    slot only a part may be left, every file of it from the verified copy,
    because a staging that fails at its end removes the files one by one and the
    removal may stop half-way; the code does let such a slot be activated.  As in
    [update_root_always_readable], activations and rollbacks are not asked for
    while the version or the pending one is a slot that an earlier request failed
    to make durable. *)
Theorem running_release_was_verified d F d' s :
  rtc tracked_step (fresh, ∅) (d, F) -> reboots d d' -> state (dk_root d') (dk_slots d') = Ok s -> sl_current s <> EmptyString ->
  exists slot, dk_slots d' !! sl_current s = Some slot /\ part_of_trusted (sl_current s) slot
    /\ (sl_current s ∉ F -> trusted_slot (sl_current s) slot).
Proof.
  intros Hr Hre Hs Hne. apply tracked_steps_trusted in Hr as [Hr Ht]. cbn in Hr, Ht.
  pose proof (reachable_safe mgr host_arch sha256 d Hr) as Hsafe.
  destruct (Safe_shows (fun _ => True) d') as (s' & Hs' & _ & _ & Hu); [by intros ? ?|by eapply Safe_reboots|].
  assert (s' = s) as -> by congruence. destruct Hu as [?|Hu]; [done|]. apply require_slot_ok in Hu as [_ [slot Hslot]].
  exists slot. split; [done|]. assert (Hd : holds (trusted F) d') by (eapply trusted_reboots; [apply Ht; by constructor|exact Hre]).
  apply Forall_cons in Hd as [Hd _]. by apply Hd.
Qed.
End Trust.
