(* ===== verification/SlotsRuns.v ===== *)
(** * A router updated step by step *)

From Stdlib Require Import ZArith Ascii String Lia Bool.
From stdpp Require Import base list strings gmap relations.
From S2P Require Import Prelude GoStrings Net NetSpec GoPath Json Model Validation ValidationSpec Policy Firmware FirmwareSpec Slots SlotsSpec SlotsSafety SlotsReach SlotsTrust.

Local Open Scope string_scope.
Local Open Scope Z_scope.
Local Open Scope list_scope.

(** Four releases, and a key that signed them and nothing else *)
Definition release_of (v : string) : FirmwareManifest :=
  mkManifest v "2026-01-01" "abc" (fm_files Sample.release) (Sample.hex_of 64) EmptyString.
#[local] Instance releases_scheme : Ed25519 := fun k message _ =>
  bool_decide (k = Sample.key) && existsb (fun v => bool_decide (message = signed_payload (release_of v))) ["0.2.9"; "0.3.0"; "0.3.1"; "0.3.2"].
Definition manager : SlotManager := mkManager "/var/lib/minimalrouter/update" Sample.key.
Definition payload : Slot :=
  list_to_map (map (fun p => (fst p, Some (mkFile (appliance_file_mode (fst p)) (Some Sample.digest)))) (files Sample.release)).
Definition toy_digest : bytes -> list Z := fun l => repeat (Z.of_nat (List.length l) mod 256) 32.

Definition stage_it (v : string) : request := RStage (tree_of payload) (Ok payload) [] (Some (release_of v)).
Definition play (rq : request) (fs : list fate) (d : UpdateDisk) : UpdateDisk := after manager "amd64" toy_digest rq fs d.
Definition view_of (d : UpdateDisk) : result SlotState error := state (dk_root d) (dk_slots d).

Definition first : UpdateDisk := play (RActivate "0.3.0") [] (play (stage_it "0.3.0") [] fresh).
Definition second : UpdateDisk := play (RActivate "0.3.1") [] (play (stage_it "0.3.1") [] first).

Example two_updates_and_back :
  view_of second = Ok (mkSlotState "0.3.1" "0.3.0" EmptyString "0.3.1" false)
  /\ view_of (play RRollback [] second) = Ok (mkSlotState "0.3.0" "0.3.1" EmptyString "0.3.1" false)
  /\ view_of (play (stage_it "0.2.9") [] (play RRollback [] second)) = Ok (mkSlotState "0.3.0" "0.3.1" EmptyString "0.3.1" false).
Proof. vm_compute. done. Qed.

(** The power fails while [current] is being switched to the second release:
    the journal and both pointers are written, the sync of [current] is not. *)
Definition staged_second : UpdateDisk := play (stage_it "0.3.1") [] first.
Definition cut_fates : list fate := [Done; Done; Done; CrashAfter].
Definition cut_off : UpdateDisk := play (RActivate "0.3.1") cut_fates staged_second.
(** What comes back: the old pointer, or the new one *)
Definition keep_current (h before : Root) : Root :=
  mkRoot (rt_state h) (rt_operation h) (rt_installation h) (rt_current before) (rt_previous h).
Definition before_cut : Root := List.hd (dk_root fresh) (dk_past cut_off).
Definition back_old : UpdateDisk := mkUpdateDisk (keep_current (dk_root cut_off) before_cut) [] (dk_slots cut_off) [].
Definition back_new : UpdateDisk := mkUpdateDisk (dk_root cut_off) [] (dk_slots cut_off) [].

Example cut_comes_back :
  view_of back_old = Ok (mkSlotState "0.3.0" EmptyString "0.3.1" "0.3.0" false)
  /\ view_of back_new = Ok (mkSlotState "0.3.1" "0.3.0" EmptyString "0.3.1" false).
Proof. vm_compute. done. Qed.

Definition returns (rq : request) (fs : list fate) (d : UpdateDisk) : bool :=
  match perform manager "amd64" toy_digest rq d fs with Returned _ _ _ => true | Crashed _ => false end.
Definition succeeds (rq : request) (fs : list fate) (d : UpdateDisk) : bool :=
  match perform manager "amd64" toy_digest rq d fs with Returned r _ _ => is_ok r | Crashed _ => false end.
Definition tstep : UpdateDisk * gset string -> UpdateDisk * gset string -> Prop := tracked_step manager "amd64" toy_digest.

Lemma step_play rq fs d : admissible rq d && returns rq fs d = true -> step manager "amd64" toy_digest d (play rq fs d).
Proof. exact (step_after manager "amd64" toy_digest rq fs d). Qed.
Lemma cut_play rq fs d : admissible rq d && negb (returns rq fs d) = true ->
  admissible rq d = true /\ perform manager "amd64" toy_digest rq d fs = Crashed (play rq fs d).
Proof.
  intros [Ha Hr]%andb_prop. split; [done|]. unfold returns, play, after in *. by destruct (perform manager "amd64" toy_digest rq d fs).
Qed.
Lemma step_play_cut rq fs d d' : admissible rq d && negb (returns rq fs d) = true -> reboots (play rq fs d) d' ->
  step manager "amd64" toy_digest d d'.
Proof. intros [Ha Hp]%cut_play. by apply (step_crashes manager "amd64" toy_digest d rq fs (play rq fs d) d'). Qed.
Lemma tracked_play rq fs d F F' : admissible rq d && succeeds rq fs d = true -> failed_after rq d true F = F' ->
  tstep (d, F) (play rq fs d, F').
Proof.
  intros [Ha Hs]%andb_prop <-. unfold succeeds, play, after in *.
  destruct (perform manager "amd64" toy_digest rq d fs) as [r d' fs'|] eqn:Ep; [|done].
  rewrite <- Hs. by apply (tracked_returns manager "amd64" toy_digest d F rq fs r d' fs').
Qed.
Lemma tracked_cut rq fs d d' F F' : admissible rq d && negb (returns rq fs d) = true -> reboots (play rq fs d) d' ->
  failed_after rq d false F = F' -> tstep (d, F) (d', F').
Proof. intros [Ha Hp]%cut_play Hre <-. by apply (tracked_crashes manager "amd64" toy_digest d F rq fs (play rq fs d) d'). Qed.

Lemma reach_first : reachable manager "amd64" toy_digest first.
Proof.
  apply (rtc_l (step manager "amd64" toy_digest) fresh (play (stage_it "0.3.0") [] fresh)); [apply step_play; vm_compute; reflexivity|].
  apply rtc_once. apply step_play; vm_compute; reflexivity.
Qed.
Lemma reach_staged : reachable manager "amd64" toy_digest staged_second.
Proof. eapply rtc_r; [exact reach_first|]. apply step_play; vm_compute; reflexivity. Qed.

Lemma mixture_keep h before l : mixture (h :: before :: l) (keep_current h before).
Proof. split_and!; [exists h|exists h|exists h|exists before|exists h]; (split; [cbn; auto|done]). Qed.
Lemma keep_reboots d before : dk_past d = [before] -> dk_slots_past d = [] ->
  reboots d (mkUpdateDisk (keep_current (dk_root d) before) [] (dk_slots d) []).
Proof.
  intros Hp Hs. unfold reboots, roots, slot_dirs. rewrite Hp, Hs. split_and!; [apply mixture_keep|done| |done].
  intros v. exists (dk_slots d). split; [by left|done].
Qed.
Lemma cut_reboots : reboots (play (RActivate "0.3.1") cut_fates staged_second) back_old.
Proof. refine (keep_reboots _ before_cut _ _); vm_compute; reflexivity. Qed.
Lemma reach_back_old : reachable manager "amd64" toy_digest back_old.
Proof.
  eapply rtc_r; [exact reach_staged|].
  apply (step_play_cut (RActivate "0.3.1") cut_fates staged_second back_old); [vm_compute; reflexivity|exact cut_reboots].
Qed.
Lemma tracked_back_old : rtc tstep (fresh, ∅) (back_old, ∅).
Proof.
  apply rtc_l with (play (stage_it "0.3.0") [] fresh, ∅); [apply tracked_play; vm_compute; reflexivity|].
  apply rtc_l with (first, ∅); [apply tracked_play; vm_compute; reflexivity|].
  apply rtc_l with (staged_second, ∅); [apply tracked_play; vm_compute; reflexivity|].
  apply rtc_once, (tracked_cut (RActivate "0.3.1") cut_fates); [vm_compute; reflexivity|exact cut_reboots|reflexivity].
Qed.

Lemma update_root_always_readable_witness :
  exists s, state (dk_root back_old) (dk_slots back_old) = Ok s
    /\ link_version (dk_root back_old) (dk_slots back_old) PCurrent = Ok (if is_empty (sl_current s) then None else Some (sl_current s)).
Proof.
  apply (update_root_always_readable manager "amd64" toy_digest back_old back_old); [apply reach_back_old|by apply reboots_self].
Defined.

Lemma recovery_completes_witness : exists d',
  recover_operation back_old [] = Returned (Ok tt) d' [] /\ rt_operation (dk_root d') = Absent
  /\ state (dk_root d') (dk_slots d') = state (dk_root back_old) (dk_slots back_old).
Proof. apply (recovery_completes manager "amd64" toy_digest back_old). apply reach_back_old. Defined.

Lemma running_release_was_verified_witness : exists slot, dk_slots back_old !! "0.3.0" = Some slot
  /\ part_of_trusted manager "amd64" "0.3.0" slot /\ ("0.3.0" ∉ (∅ : gset string) -> trusted_slot manager "amd64" "0.3.0" slot).
Proof.
  apply (running_release_was_verified manager "amd64" toy_digest back_old ∅ back_old (mkSlotState "0.3.0" EmptyString "0.3.1" "0.3.0" false));
    [apply tracked_back_old|by apply reboots_self|vm_compute; reflexivity|done].
Defined.

Definition first_state : SlotState := mkSlotState "0.3.0" EmptyString EmptyString "0.3.0" false.
Definition staged_state : SlotState := mkSlotState "0.3.0" EmptyString "0.3.1" "0.3.0" false.
Lemma usable_computed (m : SlotDir) v : is_empty v || is_ok (require_slot m v) = true -> usable m v.
Proof.
  destruct (is_empty v) eqn:E; [intros _; left; by apply is_empty_spec|]. cbn. intros Hr. right. by destruct (require_slot m v) as [[]|].
Qed.

(** A disk that shows one state and nothing else *)
Lemma safe_at (Q : SlotState -> Prop) t d : good Q t -> settled t (dk_root d) -> dk_past d = [] -> dk_slots_past d = [] ->
  (is_empty (sl_current t) || is_ok (require_slot (dk_slots d) (sl_current t)))
  && (is_empty (sl_previous t) || is_ok (require_slot (dk_slots d) (sl_previous t))) = true -> Safe Q d.
Proof. intros Hg Hs Hp Hsp Hu. apply andb_prop in Hu as [Hc Hpr]. by apply (settled_safe Q t); auto using usable_computed. Qed.

Lemma staged_good (Q : SlotState -> Prop) : Q staged_state -> good Q staged_state.
Proof. intros HQ. split; [right; eexists; vm_compute; reflexivity|]. split; [vm_compute; reflexivity|done]. Qed.
Lemma staged_safe (Q : SlotState -> Prop) : Q staged_state -> Safe Q staged_second.
Proof.
  intros HQ. apply (safe_at Q staged_state); [by apply staged_good| |vm_compute; reflexivity|vm_compute; reflexivity|vm_compute; reflexivity].
  split_and!; [vm_compute; reflexivity..|vm_compute; exact I].
Qed.

Lemma activation_is_atomic_witness :
  match activate manager "0.3.1" staged_second [Done; Done; Done; Unsynced "input/output error"; CrashBefore] with
  | Returned (Ok _) d' _ => forall d'', reboots d' d'' ->
      exists s, state (dk_root d'') (dk_slots d'') = Ok s /\ pointers s = pointers_activated "0.3.1" (pointers staged_state)
  | Returned (Err _) d' _ | Crashed d' => forall d'', reboots d' d'' ->
      exists s, state (dk_root d'') (dk_slots d'') = Ok s
        /\ (pointers s = pointers staged_state \/ pointers s = pointers_activated "0.3.1" (pointers staged_state))
  end.
Proof.
  pose proof (staged_safe (shows_pointers [pointers staged_state]) (or_introl eq_refl)) as Hs.
  exact (activation_is_atomic manager "0.3.1" staged_second [Done; Done; Done; Unsynced "input/output error"; CrashBefore]
    (pointers staged_state) Hs eq_refl).
Defined.

Lemma staged_floored : floored "0.3.0" staged_state.
Proof.
  split; [right; right; eexists; vm_compute; reflexivity|]. split; [right; by left|]. exists "0.3.0".
  split; [vm_compute; reflexivity|]. exists 0. split; [vm_compute; reflexivity|lia].
Qed.

(** The floor after the cut *)
Lemma floor_never_lowered_witness : exists s, state (dk_root back_old) (dk_slots back_old) = Ok s /\ floor_ge "0.3.0" s.
Proof.
  apply (floor_never_lowered manager "amd64" toy_digest "0.3.0" staged_second back_old back_old (staged_safe _ staged_floored)); [|by apply reboots_self].
  apply rtc_once, (step_play_cut (RActivate "0.3.1") cut_fates staged_second back_old); [vm_compute; reflexivity|exact cut_reboots].
Defined.

(** ** What failures at the end of a staging leave behind *)

(** Neither a success nor a change *)
Definition refused (d : UpdateDisk) (r : ran unit) : Prop :=
  match r with Returned (Ok _) _ _ => False | Returned (Err _) d' _ | Crashed d' => d' = d end.
Lemma refused_with_lock mgr (m : SM unit) d fs : (forall fs', refused d (m d fs')) -> refused d (with_lock mgr m d fs).
Proof.
  intros Hm. unfold with_lock. destruct (is_empty _); [done|]. unfold sbind, scall, prepare.
  destruct (next_fate fs) as [[] rest]; cbn; try done; apply Hm.
Qed.
Lemma refused_view {A} (f : Root -> SlotDir -> result A error) (k : A -> SM unit) d fs :
  (forall a, f (dk_root d) (dk_slots d) = Ok a -> refused d (k a d fs)) -> refused d (sbind (sview f) k d fs).
Proof. intros Hk. unfold sbind, scall, sview. by destruct (f (dk_root d) (dk_slots d)) eqn:E; [apply Hk|]. Qed.
Lemma refused_check {A} (r : result A error) (k : A -> SM unit) d fs :
  (forall a, r = Ok a -> refused d (k a d fs)) -> refused d (sbind (sret r) k d fs).
Proof. intros Hk. unfold sbind, scall, sret. by destruct r; [apply Hk|]. Qed.

Lemma check_versions_needs m l v : In v l -> v <> EmptyString -> staged m v = false -> check_versions m l <> Ok tt.
Proof.
  intros Hin Hne Hs. induction l as [|w l IH]; [done|]. cbn [check_versions]. destruct Hin as [->|Hin].
  - destruct (is_empty v) eqn:E; [by apply is_empty_spec in E|]. destruct (negb (RELEASE_VERSION_PATTERN v)) eqn:Ep; [done|].
    unfold require_slot. rewrite Ep, Hs. done.
  - destruct (is_empty w); [by apply IH|]. destruct (negb _); [done|]. destruct (negb _); [done|]. by apply IH.
Qed.

Section Blocked.
Context (mgr : SlotManager) (d : UpdateDisk) (s : SlotState).
Context (Hop : rt_operation (dk_root d) = Absent) (Hst : state_without_operation (dk_root d) (dk_slots d) = Ok s).
Context (Hpe : sl_pending s <> EmptyString) (Hns : staged (dk_slots d) (sl_pending s) = false).

Lemma blocked_operation kind next : exists e, validate_operation (dk_slots d) (mkOperation OPERATION_JOURNAL_VERSION kind s next) = Err e.
Proof.
  unfold validate_operation. cbn [op_version op_old op_next negb]. cbn -[validate_journal_state].
  destruct (validate_journal_state (dk_slots d) s) as [[]|e] eqn:E; [|by eexists].
  unfold validate_journal_state in E. destruct (if negb (is_empty (sl_minimum_version s)) then _ else _); [|done].
  destruct (check_versions (dk_slots d) [sl_current s; sl_previous s; sl_pending s]) as [[]|] eqn:Ec; [|done].
  exfalso. eapply check_versions_needs; [|exact Hpe|exact Hns|exact Ec]. cbn. auto.
Qed.
Lemma blocked_commit kind next mutate fs : refused d (commit_operation kind s next mutate d fs).
Proof.
  destruct (blocked_operation kind next) as [e He]. unfold commit_operation, begin_operation, sbind, smap_err, scall, sview, sret.
  by rewrite He.
Qed.
Lemma nothing_to_recover (k : unit -> SM unit) fs : sbind recover_first k d fs = k tt d fs.
Proof. unfold recover_first, recover_operation, smap_err, sbind, scall, sview, sret, read_operation. by rewrite Hop. Qed.
Lemma blocked_begin (k : unit -> SM unit) fs : (forall fs', refused d (k tt d fs')) ->
  refused d (with_lock mgr (do _ <- sview (fun r _ => check_installation r); do _ <- recover_first; k tt) d fs).
Proof.
  intros Hk. apply refused_with_lock. intros fs'. apply refused_view. intros ? _. rewrite nothing_to_recover. apply Hk.
Qed.
End Blocked.

(** C40: a pending release without its slot blocks rollback and activation.
    When no operation is journalled and the state names as pending a version
    whose slot is not there, then, whatever the operating system does, a rollback
    is refused although the previous release is there, and so is the activation
    of every version but the running one; neither changes anything.  A staging
    that fails in its last sync leaves exactly this behind: it removes the slot,
    but not the pending version from the state it has written (in the witness). *)
Theorem pending_without_slot_blocks mgr d fs s v : rt_operation (dk_root d) = Absent ->
  state_without_operation (dk_root d) (dk_slots d) = Ok s -> sl_pending s <> EmptyString ->
  staged (dk_slots d) (sl_pending s) = false -> v <> sl_current s ->
  refused d (rollback mgr d fs) /\ refused d (activate mgr v d fs).
Proof.
  intros Hop Hst Hpe Hns Hv. split.
  - apply (blocked_begin mgr d Hop (fun _ => do s <- sview state_without_operation; _)). clear fs. intros fs.
    apply refused_view. intros s' Hs'. rewrite Hst in Hs'. injection Hs' as <-.
    destruct (is_empty (sl_previous s)); [done|]. apply refused_view. intros ? _. apply refused_check. intros f _.
    by apply blocked_commit.
  - apply (blocked_begin mgr d Hop (fun _ => if negb (RELEASE_VERSION_PATTERN v) then _ else _)). clear fs. intros fs.
    destruct (negb (RELEASE_VERSION_PATTERN v)); [done|]. apply refused_view. intros ? _.
    apply refused_view. intros s' Hs'. rewrite Hst in Hs'. injection Hs' as <-.
    destruct (String.eqb_spec (sl_current s) v); [by subst|]. apply refused_check. intros f _. apply refused_check. intros ? _.
    by apply blocked_commit.
Qed.

(** The sync after [state.json] fails while a third release is staged. *)
Definition half_staged : UpdateDisk := play (stage_it "0.3.2") [Done; Done; Done; Done; Unsynced "input/output error"] second.
Lemma pending_without_slot_blocks_witness :
  view_of half_staged = Ok (mkSlotState "0.3.1" "0.3.0" "0.3.2" "0.3.1" false) /\ staged (dk_slots half_staged) "0.3.0" = true
  /\ refused half_staged (rollback manager half_staged []) /\ refused half_staged (activate manager "0.3.0" half_staged []).
Proof.
  split; [vm_compute; reflexivity|]. split; [vm_compute; reflexivity|].
  apply (pending_without_slot_blocks manager half_staged [] (mkSlotState "0.3.1" "0.3.0" "0.3.2" "0.3.1" false) "0.3.0");
    [vm_compute; reflexivity..|discriminate|vm_compute; reflexivity|discriminate].
Defined.

(** The removal of the slot stops after one file: what is left can be activated. *)
Definition part_staged : UpdateDisk :=
  play (stage_it "0.3.2") [Done; Done; Done; Done; Failed "no space left on device"; Done; Failed "input/output error"] second.
Example partial_slot_is_activated :
  match dk_slots part_staged !! "0.3.2" with Some slot => bool_decide (size slot = size payload) | None => true end = false
  /\ admissible (RActivate "0.3.2") part_staged = true
  /\ view_of (play (RActivate "0.3.2") [] part_staged) = Ok (mkSlotState "0.3.2" "0.3.1" EmptyString "0.3.2" false)
  /\ match dk_slots part_staged !! "0.3.2" with
     | Some slot => validate_release_candidate manager "amd64" (tree_of slot) (Some (release_of "0.3.2"))
     | None => Ok tt
     end <> Ok tt.
Proof. split_and!; [vm_compute; reflexivity..|vm_compute; discriminate]. Qed.

(** A slot that could neither be synced nor removed can be activated, and lost
    to a power loss, after which the root cannot be read. *)
Definition unsynced_slot : UpdateDisk :=
  play (stage_it "0.3.2") [Done; Done; Done; Failed "input/output error"; Failed "input/output error"] second.
Definition activated_unsynced : UpdateDisk := play (RActivate "0.3.2") [] unsynced_slot.
Definition lost_slot : UpdateDisk :=
  mkUpdateDisk (dk_root activated_unsynced) [] (List.hd ∅ (dk_slots_past activated_unsynced)) [].
Lemma slots_reboot d : negb (Nat.eqb (List.length (dk_slots_past d)) 0) = true ->
  reboots d (mkUpdateDisk (dk_root d) [] (List.hd ∅ (dk_slots_past d)) []).
Proof.
  intros Hp. split_and!; [|done| |done].
  - split_and!; exists (dk_root d); (split; [by left|done]).
  - intros w. exists (List.hd ∅ (dk_slots_past d)). unfold slot_dirs. destruct (dk_slots_past d) as [|m l]; [done|]. split; [right; by left|done].
Qed.
Example undurable_slot_is_lost :
  admissible (RActivate "0.3.2") unsynced_slot = false
  /\ view_of activated_unsynced = Ok (mkSlotState "0.3.2" "0.3.1" EmptyString "0.3.2" false)
  /\ reboots activated_unsynced lost_slot /\ is_ok (view_of lost_slot) = false.
Proof.
  split; [vm_compute; reflexivity|]. split; [vm_compute; reflexivity|]. split; [|vm_compute; reflexivity].
  apply (slots_reboot activated_unsynced). vm_compute. reflexivity.
Qed.
