(* ===== verification/Auth.v ===== *)
(** * Credentials: password hashes, TOTP, sessions and login limits in memory

    [mr-config/src/auth.rs].  Argon2id, HMAC-SHA1, SHA-256 and the base64
    engine are classes; the clock, randomness and the key-derivation slot are
    arguments. *)

From Stdlib Require Import ZArith Ascii String Lia Bool.
From stdpp Require Import base list strings gmap.
From S2P Require Import Prelude GoStrings Net NetSpec GoTime Json Model Validation Policy Firmware.

Local Open Scope string_scope.
Local Open Scope Z_scope.
Local Open Scope list_scope.

(** ** Password hashes *)
Definition ARGON_MEMORY : Z := 64 * 1024.
Definition ARGON_ITERATIONS : Z := 3.
Definition ARGON_PARALLELISM : Z := 2.
Definition ARGON_KEY_LEN : Z := 32.
Definition ARGON_SALT_LEN : Z := 16.
Definition ARGON_VERSION : Z := 19.

Definition ErrPasswordTooShort : error := ESentinel "password must be at least 12 characters long".
Definition ErrPasswordTooLong : error := ESentinel "password must be at most 1024 bytes".
Definition ErrInvalidHash : error := ESentinel "the encoded hash is not in the correct format".
Definition ErrIncompatibleVer : error := ESentinel "incompatible version of argon2".

(** [argon2_id(password, salt, time, memory, threads, len)] *)
Class Argon2 := argon2_id : bytes -> list Z -> Z -> Z -> Z -> Z -> result (list Z) error.

(** The unpadded standard base64 engine *)
Class RawBase64 := {
  b64_encode : list Z -> string;
  b64_decode : string -> option (list Z);
}.
(** [goish::base64::raw_std_decode] *)
Definition raw_std_decode `{RawBase64} (text : string) : option (list Z) := b64_decode (str_of (strip_newlines (bytes_of text))).

Section Passwords.
Context `{Argon2, RawBase64}.

(** [salt] is what the random source gave, [slot] the outcome of waiting for a
    derivation slot. *)
Definition hash_password (password : string) (salt : result (list Z) error) (slot : result unit error) : result string error :=
  if Z.of_nat (List.length (chars password)) <? 12 then Err ErrPasswordTooShort
  else if 1024 <? str_len password then Err ErrPasswordTooLong
  else
    let? salt := map_err (Wrapf "failed to generate random salt") salt in
    let? _ := slot in
    let? hash := argon2_id (bytes_of password) salt ARGON_ITERATIONS ARGON_MEMORY ARGON_PARALLELISM ARGON_KEY_LEN in
    Ok ("$argon2id$v=" +:+ show_Z ARGON_VERSION +:+ "$m=" +:+ show_Z ARGON_MEMORY +:+ ",t=" +:+ show_Z ARGON_ITERATIONS
        +:+ ",p=" +:+ show_Z ARGON_PARALLELISM +:+ "$" +:+ b64_encode salt +:+ "$" +:+ b64_encode hash).

(** [max] is the range of the field's type. *)
Definition scan_field (max : Z) (text : string) (name : string) : option Z :=
  let! rest := strip_prefix name text in
  let! digits := strip_prefix "=" rest in
  let l := bytes_of digits in
  match l with
  | [] => None
  | _ => if forallb is_ascii_digit l && (digits_val l <=? max) then Some (digits_val l) else None
  end.

Definition or_invalid {A} (o : option A) : result A error := match o with Some a => Ok a | None => Err ErrInvalidHash end.
Definition within (lo hi x : Z) : bool := (lo <=? x) && (x <=? hi).

Definition verify_password (password encoded_hash : string) (slot : result unit error) : result bool error :=
  if (1024 <? str_len password) || (512 <? str_len encoded_hash) then Err ErrInvalidHash
  else
    match split "$"%char encoded_hash with
    | [_; _; p2; p3; p4; p5] =>
        let? version := or_invalid (scan_field (2 ^ 32 - 1) p2 "v") in
        if negb (version =? ARGON_VERSION) then Err ErrIncompatibleVer
        else
          match split ","%char p3 with
          | [q0; q1; q2] =>
              let? memory := or_invalid (scan_field (2 ^ 32 - 1) q0 "m") in
              let? iterations := or_invalid (scan_field (2 ^ 32 - 1) q1 "t") in
              let? parallelism := or_invalid (scan_field 255 q2 "p") in
              if negb (within (16 * 1024) (256 * 1024) memory) || negb (within 1 10 iterations) || negb (within 1 8 parallelism) then
                Err ErrInvalidHash
              else
                let? salt := or_invalid (raw_std_decode p4) in
                if negb (within 16 64 (Z.of_nat (List.length salt))) then Err ErrInvalidHash
                else
                  let? hash := or_invalid (raw_std_decode p5) in
                  if negb (within 16 64 (Z.of_nat (List.length hash))) then Err ErrInvalidHash
                  else
                    let? _ := slot in
                    let? other := argon2_id (bytes_of password) salt iterations memory parallelism (Z.of_nat (List.length hash)) in
                    Ok (bool_decide (hash = other))
          | _ => Err ErrInvalidHash
          end
    | _ => Err ErrInvalidHash
    end.
End Passwords.

(** ** Base32 *)
Definition BASE32 : bytes := bytes_of "ABCDEFGHIJKLMNOPQRSTUVWXYZ234567".
Definition base32_char (v : Z) : ascii := nth (Z.to_nat v) BASE32 "="%char.
Fixpoint position (c : ascii) (l : bytes) : option Z :=
  match l with
  | [] => None
  | a :: t => if Ascii.eqb a c then Some 0 else option_map Z.succ (position c t)
  end.

(** [data.chunks(n)] *)
Fixpoint chunks {A} (fuel n : nat) (l : list A) : list (list A) :=
  match fuel, l with
  | O, _ | _, [] => []
  | S fuel', _ => take n l :: chunks fuel' n (drop n l)
  end.

Definition chunk_chars (n : nat) : Z :=
  match n with 1%nat => 2 | 2%nat => 4 | 3%nat => 5 | 4%nat => 7 | _ => 8 end.
Definition encode_chunk (chunk : list Z) : bytes :=
  let bits := be (chunk ++ repeat 0 (5 - List.length chunk)) in
  map (fun i => if i <? chunk_chars (List.length chunk) then base32_char (Z.land (Z.shiftr bits (35 - i * 5)) 31) else "="%char)
    [0; 1; 2; 3; 4; 5; 6; 7].
Definition base32_encode (data : list Z) : string :=
  str_of (concat (map encode_chunk (chunks (List.length data) 5 data))).

Definition data_bytes (data_len : nat) : option nat :=
  match data_len with 8 => Some 5 | 7 => Some 4 | 5 => Some 3 | 4 => Some 2 | 2 => Some 1 | _ => None end%nat.
(** [bits |= v << (35 - i * 5)] over the data characters *)
Fixpoint quantum_bits (i bits : Z) (l : bytes) : option Z :=
  match l with
  | [] => Some bits
  | b :: t => let! v := position b BASE32 in quantum_bits (i + 1) (Z.lor bits (Z.shiftl v (35 - i * 5))) t
  end.
(** [bits.to_be_bytes()[3..3 + n]] *)
Definition be_tail (bits : Z) (n : nat) : list Z :=
  take n (map (fun k => Z.land (Z.shiftr bits k) 255) [32; 24; 16; 8; 0]).

Definition decode_quantum (last : bool) (quantum : bytes) : option (list Z) :=
  let pad := List.length (take_while (fun b => Ascii.eqb b "="%char) (rev quantum)) in
  if Nat.ltb 0 pad && negb last then None
  else
    let! n := data_bytes (8 - pad) in
    let! bits := quantum_bits 0 0 (take (8 - pad) quantum) in
    Some (be_tail bits n).
Fixpoint decode_quanta (qs : list bytes) : option (list Z) :=
  match qs with
  | [] => Some []
  | q :: rest =>
      let! out := decode_quantum (match rest with [] => true | _ => false end) q in
      let! more := decode_quanta rest in
      Some (out ++ more)
  end.
Definition base32_decode (text : string) : option (list Z) :=
  let clean := strip_newlines (bytes_of text) in
  if negb (Nat.eqb (List.length clean mod 8) 0) then None
  else decode_quanta (chunks (List.length clean) 8 clean).

Example base32_matches_go :
  base32_encode (map bv (bytes_of "f")) = "MY======" /\ base32_encode (map bv (bytes_of "foobar")) = "MZXW6YTBOI======"
  /\ base32_decode "MZXW6YTBOI======" = Some (map bv (bytes_of "foobar")) /\ base32_decode "MZXW6YTBOI" = None.
Proof. vm_compute. done. Qed.

(** ** TOTP *)
Definition TOTP_PERIOD : Z := 30.
Definition TOTP_DIGITS : Z := 6.

(** [Hmac<Sha1>] and SHA-256 *)
Class HmacSha1 := hmac_sha1 : list Z -> list Z -> list Z.
Class Sha256 := sha256 : bytes -> list Z.

Definition spaces_removed (s : string) : string := str_of (List.filter (fun a => negb (Ascii.eqb a " "%char)) (bytes_of s)).
Definition canonical_totp_inputs `{Unicode} (secret code : string) : string * string :=
  let secret := to_upper (spaces_removed secret) in
  let secret := match base32_decode secret with Some decoded => base32_encode decoded | None => secret end in
  (secret, trim code).

Definition totp_replay_key `{Unicode, Sha256} (secret code : string) : list Z :=
  let '(secret, code) := canonical_totp_inputs secret code in
  sha256 (bytes_of secret ++ zero :: bytes_of code).

(** [(counter as u64).to_be_bytes()] *)
Definition counter_bytes (counter : Z) : list Z :=
  map (fun k => Z.land (Z.shiftr (counter mod 2 ^ 64) k) 255) [56; 48; 40; 32; 24; 16; 8; 0].
(** [format!("{:06}", n)] *)
Definition six_digits (n : Z) : string :=
  let l := show_nonneg n in str_of (repeat "0"%char (6 - List.length l) ++ l).

Definition compute_totp `{HmacSha1} (secret : list Z) (counter : Z) : string :=
  let hash := hmac_sha1 secret (counter_bytes counter) in
  let offset := Z.to_nat (Z.land (List.last hash 0) 15) in
  let at_ i := nth (offset + i) hash 0 in
  let truncated := Z.land (be [at_ 0%nat; at_ 1%nat; at_ 2%nat; at_ 3%nat]) (2 ^ 31 - 1) in
  six_digits (truncated mod 1000000).

Definition validate_totp_at `{Unicode, HmacSha1} (secret code : string) (now_unix : Z) : bool :=
  let '(secret, code) := canonical_totp_inputs secret code in
  if negb (str_len code =? TOTP_DIGITS) then false
  else
    match base32_decode secret with
    | None => false
    | Some decoded =>
        let counter := now_unix / TOTP_PERIOD in
        existsb (fun i => code =s compute_totp decoded (counter + i)) [-1; 0; 1]
    end.
Definition validate_totp `{Unicode, HmacSha1} (secret code : string) (now : Time) : bool :=
  validate_totp_at secret code (time_unix now).

(** ** Login attempts in memory

    [Instant] is nanoseconds; [duration_since] saturates at zero. *)
Record RateLimiter := mkLimiter { rl_history : gmap string (Z * Z); rl_limit : Z; rl_window : Z }.
Definition since (now first : Z) : Z := Z.max 0 (now - first).
Definition with_history (r : RateLimiter) h := mkLimiter h (rl_limit r) (rl_window r).

Definition allow (r : RateLimiter) (ip : string) (now : Z) : bool * RateLimiter :=
  match rl_history r !! ip with
  | None => (true, with_history r (<[ip := (1, now)]> (rl_history r)))
  | Some (n, first) =>
      if since now first >? rl_window r then (true, with_history r (<[ip := (1, now)]> (rl_history r)))
      else if n >=? rl_limit r then (false, r)
      else (true, with_history r (<[ip := (n + 1, first)]> (rl_history r)))
  end.
(** The thread that forgets closed windows *)
Definition forget (r : RateLimiter) (now : Z) : RateLimiter :=
  with_history r (filter (fun p => since now (snd (snd p)) <= rl_window r) (rl_history r)).

(** ** Sessions in memory *)
Definition IDLE_TIMEOUT : Z := dur_minutes 30.
Definition ABSOLUTE_TIMEOUT : Z := dur_hours 8.
Definition ErrUnauthorized : error := ESentinel "unauthorized or expired session".
Definition ErrGenerationChanged : error := ESentinel "authentication credentials changed; please log in again".

Record Session := mkSession {
  ss_id : string;
  ss_csrf_token : string;
  ss_read_only : bool;
  ss_auth_generation : Z;
  ss_created_at : Time;
  ss_last_seen : Time;
}.
Definition seen (s : Session) (now : Time) : Session :=
  mkSession (ss_id s) (ss_csrf_token s) (ss_read_only s) (ss_auth_generation s) (ss_created_at s) now.

Definition expired (created_at last_seen now : Time) : bool :=
  (time_sub now created_at >? ABSOLUTE_TIMEOUT) || (time_sub now last_seen >? IDLE_TIMEOUT).
Definition session_expired (s : Session) (now : Time) : bool := expired (ss_created_at s) (ss_last_seen s) now.

Definition SessionManager : Type := gmap string Session.
(** [id] and [csrf] are what [generate_random_hex(32)] gave. *)
Definition create_session (m : SessionManager) (read_only : bool) (id csrf : option string) (now : Time)
  : option Session * SessionManager :=
  match id, csrf with
  | Some id, Some csrf =>
      let s := mkSession id csrf read_only 0 now now in (Some s, <[id := s]> m)
  | _, _ => (None, m)
  end.
Definition validate_session (m : SessionManager) (cookie : string) (now : Time) : result Session error * SessionManager :=
  if is_empty cookie then (Err ErrUnauthorized, m)
  else
    match m !! cookie with
    | None => (Err ErrUnauthorized, m)
    | Some s =>
        if session_expired s now then (Err ErrUnauthorized, delete cookie m)
        else (Ok (seen s now), <[cookie := seen s now]> m)
    end.
Definition destroy_session (m : SessionManager) (cookie : string) : SessionManager :=
  if is_empty cookie then m else delete cookie m.
Definition destroy_all_sessions (m : SessionManager) : SessionManager := ∅.
Definition sweep_sessions (m : SessionManager) (now : Time) : SessionManager :=
  filter (fun p => session_expired (snd p) now = false) m.

Definition SESSION_COOKIE_NAME : string := "mr_session".
Definition session_cookie (session_id : string) : string :=
  SESSION_COOKIE_NAME +:+ "=" +:+ session_id +:+ "; Path=/; Max-Age=" +:+ show_Z (ABSOLUTE_TIMEOUT / 1000000000)
  +:+ "; HttpOnly; Secure; SameSite=Strict".
Definition expired_session_cookie : string :=
  SESSION_COOKIE_NAME +:+ "=; Path=/; Max-Age=0; HttpOnly; Secure; SameSite=Strict".
