(* ===== verification/AuthStore.v ===== *)
(** * Sessions and login limits that survive a restart

    [mr-config/src/auth_persistent.rs] over the tables of
    [mr-config/src/config/store.rs] it uses: the administrator credential with
    its generation, the sessions and the rate-limit buckets.

    Every call of the database is atomic, may fail, and may find that other
    requests changed the credential in the meantime: the input of an operation
    is a list of turns, one per call. *)

From Stdlib Require Import ZArith Ascii String Lia Bool.
From stdpp Require Import base list strings gmap.
From S2P Require Import Prelude GoStrings Net NetSpec GoTime Json Model Validation Policy Firmware Auth.

Local Open Scope string_scope.
Local Open Scope Z_scope.
Local Open Scope list_scope.

(** ** Tables *)
Record Credentials := mkCredentials { cr_password_hash : string; cr_auth_generation : Z; cr_totp_secret : option string }.

(** Instants are stored as text in whole seconds; here as Unix seconds. *)
Record SessionRow := mkRow {
  sr_csrf_token : string;
  sr_read_only : bool;
  sr_auth_generation : Z;
  sr_created_at : Z;
  sr_last_seen : Z;
}.
Definition stored (seconds : Z) : Time := mkTime (seconds * SECOND) None.

Record AuthDb := mkDb {
  db_credentials : option Credentials;
  db_sessions : gmap string SessionRow;
  db_buckets : gmap string (Z * Z);
}.
Definition with_sessions (db : AuthDb) s := mkDb (db_credentials db) s (db_buckets db).
Definition with_buckets (db : AuthDb) b := mkDb (db_credentials db) (db_sessions db) b.

Definition ErrNoRows : error := ESentinel "sql: no rows in result set".
Definition as_u64 (x : Z) : Z := x mod 2 ^ 64.

(** ** Text of instants

    Rows keep instants as the text of [Time::rfc3339], in the local time of the
    instant; the local offset from UTC is a function of the Unix time.  The fields
    of the text have fixed widths (years of four digits), so that two texts
    compare like their local times, then like the texts of their zones. *)
Class LocalZone := local_offset : Z -> Z.

Definition two_figures (n : Z) : string := (if n <? 10 then "0" else EmptyString) +:+ show_Z n.
Definition zone_text (offset : Z) : string :=
  if offset =? 0 then "Z"
  else
    let minutes := (Z.abs offset + 30) / 60 in
    (if offset <? 0 then "-" else "+") +:+ two_figures (minutes / 60) +:+ ":" +:+ two_figures (minutes mod 60).
(** [a < b] on the texts of [a] with the offset [oa] and [b] with the offset [ob] *)
Definition text_before (a oa b ob : Z) : bool :=
  (a + oa <? b + ob) || ((a + oa =? b + ob) && String.ltb (zone_text oa) (zone_text ob)).

Lemma text_before_same a b o : text_before a o b o = (a <? b).
Proof.
  unfold text_before. assert (Hl : String.ltb (zone_text o) (zone_text o) = false).
  { unfold String.ltb. pose proof (String.compare_antisym (zone_text o) (zone_text o)) as Ha. by destruct (String.compare _ _). }
  rewrite Hl, andb_false_r, orb_false_r. destruct (a <? b) eqn:E; lia.
Qed.
(** A text with an offset that did not move forward is not before another early. *)
Lemma text_before_later a oa b ob : ob <= oa -> text_before a oa b ob = true -> a < b.
Proof.
  intros Ho Ht. destruct (Z.eq_dec oa ob) as [->|Hne]; [rewrite text_before_same in Ht; lia|].
  unfold text_before in Ht. apply orb_prop in Ht as [Ht|Ht%andb_prop]; [lia|]. destruct Ht as [Ht _]. lia.
Qed.

Section Tables.
Context `{Sha256, LocalZone}.

Definition session_lookup_key (token : string) : string :=
  "sha256:" +:+ hex_encode (sha256 (bytes_of "minimalrouter-session-v1:" ++ bytes_of token)).

Definition get_auth_generation (db : AuthDb) : result Z error :=
  match db_credentials db with Some c => Ok (as_u64 (cr_auth_generation c)) | None => Err ErrNoRows end.

Definition get_admin_auth_state (db : AuthDb) : result (string * Z) error :=
  match db_credentials db with
  | Some c => Ok (cr_password_hash c, as_u64 (cr_auth_generation c))
  | None => Err ErrNoRows
  end.

(** One transaction: the next generation, the credential, no sessions *)
Definition update_authentication (db : AuthDb) (update : Z -> option Credentials -> result Credentials error) : result unit error * AuthDb :=
  let generation := match get_auth_generation db with Ok g => g | Err _ => 0 end in
  if generation =? u64_max then (Err (Errorf "authentication generation exhausted"), db)
  else
    let next := if generation + 1 =? 0 then 1 else generation + 1 in
    match update next (db_credentials db) with
    | Ok c => (Ok tt, mkDb (Some c) ∅ (db_buckets db))
    | Err e => (Err e, db)
    end.

Inductive CredentialChange := SetAdminHash (hash : string) | SetTotpSecret (secret : string) | ClearTotpSecret.
Definition set_admin_hash (db : AuthDb) (hash : string) : result unit error * AuthDb :=
  update_authentication db (fun next c =>
    Ok (mkCredentials hash (as_i64 next) (match c with Some c => cr_totp_secret c | None => None end))).
Definition set_admin_totp_secret (db : AuthDb) (secret : string) : result unit error * AuthDb :=
  update_authentication db (fun next c =>
    match c with Some c => Ok (mkCredentials (cr_password_hash c) (as_i64 next) (Some secret)) | None => Err ErrNoRows end).
Definition clear_admin_totp_secret (db : AuthDb) : result unit error * AuthDb :=
  update_authentication db (fun next c =>
    match c with Some c => Ok (mkCredentials (cr_password_hash c) (as_i64 next) None) | None => Err ErrNoRows end).
Definition change_credential (ch : CredentialChange) (db : AuthDb) : result unit error * AuthDb :=
  match ch with
  | SetAdminHash h => set_admin_hash db h
  | SetTotpSecret s => set_admin_totp_secret db s
  | ClearTotpSecret => clear_admin_totp_secret db
  end.
Definition get_admin_totp_secret (db : AuthDb) : result string error :=
  match db_credentials db with Some c => Ok (default EmptyString (cr_totp_secret c)) | None => Err ErrNoRows end.

(** An insertion fails when the key exists. *)
Definition insert_session (id csrf : string) (read_only : bool) (generation : Z) (created last : Time) (db : AuthDb) : result unit error * AuthDb :=
  let key := session_lookup_key id in
  match db_sessions db !! key with
  | Some _ => (Err (Errorf "UNIQUE constraint failed: sessions.id"), db)
  | None => (Ok tt, with_sessions db (<[key := mkRow csrf read_only (as_i64 generation) (time_unix created) (time_unix last)]> (db_sessions db)))
  end.
Definition db_create_session := insert_session.
Definition create_session_if_generation_current (id csrf : string) (read_only : bool) (expected : Z) (created last : Time) (db : AuthDb)
  : result bool error * AuthDb :=
  match get_auth_generation db with
  | Err e => (Err e, db)
  | Ok current =>
      if negb (current =? expected) then (Ok false, db)
      else
        match insert_session id csrf read_only expected created last db with
        | (Ok _, db') => (Ok true, db')
        | (Err e, _) => (Err e, db)
        end
  end.
Definition get_session (id : string) (db : AuthDb) : result (string * bool * Z * Time * Time) error * AuthDb :=
  (match db_sessions db !! session_lookup_key id with
   | None => Err ErrNoRows
   | Some r => Ok (sr_csrf_token r, sr_read_only r, as_u64 (sr_auth_generation r), stored (sr_created_at r), stored (sr_last_seen r))
   end, db).
Definition row_seen (t : Z) (r : SessionRow) : SessionRow :=
  mkRow (sr_csrf_token r) (sr_read_only r) (sr_auth_generation r) (sr_created_at r) t.
Definition update_session_last_seen (id : string) (last : Time) (db : AuthDb) : result unit error * AuthDb :=
  (Ok tt, with_sessions db (alter (row_seen (time_unix last)) (session_lookup_key id) (db_sessions db))).
Definition delete_session (id : string) (db : AuthDb) : result unit error * AuthDb :=
  (Ok tt, with_sessions db (delete (session_lookup_key id) (db_sessions db))).
Definition delete_all_sessions (db : AuthDb) : result unit error * AuthDb := (Ok tt, with_sessions db ∅).
(** A row is compared as text with a cutoff in the offset of now. *)
Definition row_before (row now cutoff : Z) : bool := text_before row (local_offset row) cutoff (local_offset now).
Definition clean_expired_sessions (now : Time) (db : AuthDb) : result unit error * AuthDb :=
  let idle_cutoff := time_unix (time_add now (- IDLE_TIMEOUT)) in
  let abs_cutoff := time_unix (time_add now (- ABSOLUTE_TIMEOUT)) in
  let gone r := row_before (sr_last_seen r) (time_unix now) idle_cutoff || row_before (sr_created_at r) (time_unix now) abs_cutoff in
  (Ok tt, with_sessions db (filter (fun p => gone (snd p) = false) (db_sessions db))).

Definition get_rate_limit_bucket (ip : string) (db : AuthDb) : result (Z * Time) error * AuthDb :=
  (match db_buckets db !! ip with Some (n, t) => Ok (n, stored t) | None => Err ErrNoRows end, db).
Definition set_rate_limit_bucket (ip : string) (attempts : Z) (start : Time) (db : AuthDb) : result unit error * AuthDb :=
  (Ok tt, with_buckets db (<[ip := (attempts, time_unix start)]> (db_buckets db))).
Definition clean_expired_rate_limit_buckets (window : Z) (now : Time) (db : AuthDb) : result unit error * AuthDb :=
  let cutoff := time_unix (time_add now (- window)) in
  (Ok tt, with_buckets db (filter (fun p => row_before (snd (snd p)) (time_unix now) cutoff = false) (db_buckets db))).
End Tables.

(** ** Turns *)
Record Turn := mkTurn { tn_before : list CredentialChange; tn_fault : option error }.
Definition quiet : Turn := mkTurn [] None.

(** The manager's cache, the database, and the limiter's cache *)
Record AuthWorld := mkAuthWorld {
  w_db : AuthDb;
  w_sessions : gmap string Session;
  w_persisted : gmap string Time;
  w_attempts : gmap string (Z * Time);
}.
Definition set_db (w : AuthWorld) db := mkAuthWorld db (w_sessions w) (w_persisted w) (w_attempts w).
Definition set_cache (w : AuthWorld) s p := mkAuthWorld (w_db w) s p (w_attempts w).
Definition set_attempts (w : AuthWorld) a := mkAuthWorld (w_db w) (w_sessions w) (w_persisted w) a.

Definition apply_changes (l : list CredentialChange) (db : AuthDb) : AuthDb :=
  fold_left (fun db ch => snd (change_credential ch db)) l db.

Definition AM (A : Type) : Type := AuthWorld -> list Turn -> A * AuthWorld * list Turn.
Definition aret {A} (a : A) : AM A := fun w ts => (a, w, ts).
Definition abind {A B} (m : AM A) (k : A -> AM B) : AM B := fun w ts => let '(a, w', ts') := m w ts in k a w' ts'.
Notation "'call' x <- m ; k" := (abind m (fun x => k)) (at level 10, x pattern, m at level 100, k at level 200) : mr_scope.

Definition db_call {A} (f : AuthDb -> result A error * AuthDb) : AM (result A error) := fun w ts =>
  let turn := hd quiet ts in
  let db := apply_changes (tn_before turn) (w_db w) in
  match tn_fault turn with
  | Some e => (Err e, set_db w db, tl ts)
  | None => let '(r, db') := f db in (r, set_db w db', tl ts)
  end.
Definition get_cached (id : string) : AM (option Session) := fun w ts => (w_sessions w !! id, w, ts).
Definition cache_session (id : string) (s : Session) : AM unit := fun w ts =>
  (tt, set_cache w (<[id := s]> (w_sessions w)) (w_persisted w), ts).
Definition note_persisted (id : string) (t : Time) : AM unit := fun w ts =>
  (tt, set_cache w (w_sessions w) (<[id := t]> (w_persisted w)), ts).
Definition uncache (id : string) : AM unit := fun w ts =>
  (tt, set_cache w (delete id (w_sessions w)) (delete id (w_persisted w)), ts).

Section Manager.
Context `{Sha256, LocalZone}.

(** ** [PersistentSessionManager] *)
Definition SESSION_LAST_SEEN_PERSIST_INTERVAL : Z := MINUTE.

Definition reserve_last_seen_persistence (id : string) (now : Time) : AM bool := fun w ts =>
  if match w_persisted w !! id with
     | Some last => negb (time_before now last) && (time_sub now last <? SESSION_LAST_SEEN_PERSIST_INTERVAL)
     | None => false
     end
  then (false, w, ts)
  else let '(_, w', ts') := note_persisted id now w ts in (true, w', ts').

Definition persist_last_seen (id : string) (last_seen : Time) : AM unit :=
  call r <- db_call (update_session_last_seen id last_seen);
  match r with
  | Ok _ => aret tt
  | Err _ => fun w ts =>
      (tt, match w_persisted w !! id with
           | Some t => if time_eqb t last_seen then set_cache w (w_sessions w) (delete id (w_persisted w)) else w
           | None => w
           end, ts)
  end.

Definition with_generation {A} (f : AuthDb -> result A error) : AuthDb -> result A error * AuthDb := fun db => (f db, db).

(** [id] and [csrf] are what the random source gave. *)
Definition create_session_with_mode (read_only : bool) (id csrf : option string) (now : Time) : AM (option Session) :=
  match id, csrf with
  | Some id, Some csrf =>
      call g <- db_call (with_generation get_auth_generation);
      match g with
      | Err _ => aret None
      | Ok generation =>
          call r <- db_call (db_create_session id csrf read_only generation now now);
          match r with
          | Err _ => aret None
          | Ok _ =>
              let s := mkSession id csrf read_only generation now now in
              call _ <- cache_session id s;
              call _ <- note_persisted id now;
              aret (Some s)
          end
      end
  | _, _ => aret None
  end.

Definition create_session_with_generation (read_only : bool) (expected_generation : Z) (id csrf : result string error) (now : Time)
  : AM (result Session error) :=
  match id, csrf with
  | Ok id, Ok csrf =>
      call r <- db_call (create_session_if_generation_current id csrf read_only expected_generation now now);
      match r with
      | Err e => aret (Err e)
      | Ok false => aret (Err ErrGenerationChanged)
      | Ok true =>
          let s := mkSession id csrf read_only expected_generation now now in
          call _ <- cache_session id s;
          call _ <- note_persisted id now;
          aret (Ok s)
      end
  | Err e, _ => aret (Err e)
  | _, Err e => aret (Err e)
  end.

Definition drop_session (id : string) : AM unit :=
  call _ <- uncache id;
  call _ <- db_call (delete_session id);
  aret tt.

Definition validate_locked (id : string) (now : Time) : AM (result (Session * bool) error) :=
  call cached <- get_cached id;
  match cached with
  | Some s =>
      call g <- db_call (with_generation get_auth_generation);
      match g with
      | Err _ => aret (Err ErrUnauthorized)
      | Ok current =>
          if negb (ss_auth_generation s =? current) || session_expired s now then
            call _ <- drop_session id;
            aret (Err ErrUnauthorized)
          else
            call _ <- cache_session id (seen s now);
            call due <- reserve_last_seen_persistence id now;
            aret (Ok (seen s now, due))
      end
  | None =>
      call row <- db_call (get_session id);
      match row with
      | Err _ => aret (Err ErrUnauthorized)
      | Ok (csrf, read_only, generation, created_at, last_seen) =>
          call current <- db_call (with_generation get_auth_generation);
          if match current with Ok c => negb (c =? generation) | Err _ => true end || expired created_at last_seen now then
            call _ <- db_call (delete_session id);
            aret (Err ErrUnauthorized)
          else
            let s := mkSession id csrf read_only generation created_at now in
            call _ <- cache_session id s;
            call _ <- note_persisted id last_seen;
            call due <- reserve_last_seen_persistence id now;
            aret (Ok (s, due))
      end
  end.

Definition validate_session_persistent (id : string) (now : Time) : AM (result Session error) :=
  if is_empty id then aret (Err ErrUnauthorized)
  else
    call r <- validate_locked id now;
    match r with
    | Err e => aret (Err e)
    | Ok (s, due) =>
        call _ <- (if due : bool then persist_last_seen id (ss_last_seen s) else aret tt);
        aret (Ok s)
    end.

Definition destroy (id : string) : AM (result unit error) :=
  if is_empty id then aret (Ok tt)
  else
    call r <- db_call (delete_session id);
    match r with
    | Err e => aret (Err e)
    | Ok _ => call _ <- uncache id; aret (Ok tt)
    end.
Definition destroy_all : AM (result unit error) :=
  call r <- db_call delete_all_sessions;
  match r with
  | Err e => aret (Err e)
  | Ok _ => fun w ts => (Ok tt, set_cache w ∅ ∅, ts)
  end.

(** The thread that forgets expired sessions *)
Definition sweep (now : Time) : AM unit := fun w ts =>
  let live := filter (fun p => session_expired (snd p) now = false) (w_sessions w) in
  let gone id := match w_sessions w !! id with Some s => session_expired s now | None => false end in
  let w' := set_cache w live (filter (fun p => gone (fst p) = false) (w_persisted w)) in
  (call _ <- db_call (clean_expired_sessions now); aret tt) w' ts.

(** ** [PersistentRateLimiter] *)
Definition is_no_rows (e : error) : bool := match e with ESentinel m => m =s "sql: no rows in result set" | _ => false end.

Definition remember (ip : string) (n : Z) (start : Time) : AM bool := fun w ts =>
  (call r <- db_call (set_rate_limit_bucket ip n start); aret (is_ok r))
    (set_attempts w (<[ip := (n, start)]> (w_attempts w))) ts.

Definition window_closed (window : Z) (now start : Time) : bool := (time_sub now start >? window) || time_before now start.

Definition allow_login (limit window : Z) (ip : string) (now : Time) : AM bool := fun w ts =>
  match w_attempts w !! ip with
  | Some (attempts, first_seen) =>
      if window_closed window now first_seen then remember ip 1 now w ts
      else if attempts >=? limit then (false, w, ts)
      else remember ip (attempts + 1) first_seen w ts
  | None =>
      (call r <- db_call (get_rate_limit_bucket ip);
       match r with
       | Err e => if negb (is_no_rows e) then aret false else remember ip 1 now
       | Ok (attempts, start) =>
           if window_closed window now start then remember ip 1 now
           else if attempts >=? limit then fun w ts => (false, set_attempts w (<[ip := (attempts, start)]> (w_attempts w)), ts)
           else remember ip (attempts + 1) start
       end) w ts
  end.
Definition forget_attempts (window : Z) (now : Time) : AM unit := fun w ts =>
  let w' := set_attempts w (filter (fun p => time_sub now (snd (snd p)) <= window) (w_attempts w)) in
  (call _ <- db_call (clean_expired_rate_limit_buckets window now); aret tt) w' ts.

(** A restart of the daemon loses the caches. *)
Definition restart : AM unit := fun w ts => (tt, mkAuthWorld (w_db w) ∅ ∅ ∅, ts).
End Manager.
