(* ===== verification/AuthSpec.v ===== *)
(** * Sessions live no longer than they should, and logins are limited *)

From Stdlib Require Import ZArith Ascii String Lia Bool.
From stdpp Require Import base list strings gmap relations.
From S2P Require Import Prelude GoStrings Net NetSpec GoTime Json Model Validation Policy Firmware FirmwareSpec Auth AuthStore.

Local Open Scope string_scope.
Local Open Scope Z_scope.
Local Open Scope list_scope.

(** ** For every turn of the database *)
Definition awp {A} (m : AM A) (post : A -> AuthWorld -> Prop) (w : AuthWorld) : Prop :=
  forall ts, let '(a, w', _) := m w ts in post a w'.

Lemma awp_ret {A} (a : A) (post : A -> AuthWorld -> Prop) w : post a w -> awp (aret a) post w.
Proof. by intros Hp ts. Qed.
Lemma awp_bind {A B} (m : AM A) (k : A -> AM B) post w : awp m (fun a w' => awp (k a) post w') w -> awp (abind m k) post w.
Proof. intros Hm ts. unfold abind. specialize (Hm ts). destruct (m w ts) as [[a w'] ts']. apply Hm. Qed.
Lemma awp_conseq {A} (m : AM A) (post post' : A -> AuthWorld -> Prop) w : awp m post w -> (forall a w', post a w' -> post' a w') -> awp m post' w.
Proof. intros Hm Hp ts. specialize (Hm ts). destruct (m w ts) as [[a w'] ts']. by apply Hp. Qed.
Lemma awp_bind_conseq {A B} (m : AM A) (k : A -> AM B) mid post w : awp m mid w -> (forall a w', mid a w' -> awp (k a) post w') ->
  awp (abind m k) post w.
Proof. intros Hm Hk. apply awp_bind. by eapply awp_conseq. Qed.

(** A call of the database sees the changes others made before it. *)
Lemma awp_db_call {A} (f : AuthDb -> result A error * AuthDb) (post : result A error -> AuthWorld -> Prop) w :
  (forall l, (forall e, post (Err e) (set_db w (apply_changes l (w_db w))))
    /\ (let '(r, db) := f (apply_changes l (w_db w)) in post r (set_db w db))) -> awp (db_call f) post w.
Proof.
  intros Hl ts. unfold db_call. destruct (Hl (tn_before (hd quiet ts))) as [He Hf]. destruct (tn_fault _) as [e|]; [apply He|].
  by destruct (f (apply_changes (tn_before (hd quiet ts)) (w_db w))) as [r db].
Qed.

(** ** Credential changes only revoke *)
Lemma as_u64_range x : 0 <= as_u64 x <= u64_max.
Proof. unfold as_u64, u64_max. pose proof (Z.mod_pos_bound x (2 ^ 64)). lia. Qed.

Lemma as_u64_as_i64 x : 0 <= x <= u64_max -> as_u64 (as_i64 x) = x.
Proof.
  unfold as_u64, as_i64, u64_max, two63. intros Hx.
  replace ((x + 2 ^ 63) mod 2 ^ 64 - 2 ^ 63) with (x + (- ((x + 2 ^ 63) / 2 ^ 64)) * 2 ^ 64)
    by (rewrite (Z.mod_eq (x + 2 ^ 63) (2 ^ 64)) by lia; lia).
  rewrite Z_mod_plus_full. apply Z.mod_small. lia.
Qed.

(** The generation sessions are compared with *)
Definition generation (db : AuthDb) : Z := match db_credentials db with Some c => as_u64 (cr_auth_generation c) | None => 0 end.

Lemma generation_range db : 0 <= generation db <= u64_max.
Proof. unfold generation. destruct (db_credentials db); [apply as_u64_range|done]. Qed.
Lemma get_auth_generation_Ok db g : get_auth_generation db = Ok g -> g = generation db.
Proof. unfold get_auth_generation, generation. destruct (db_credentials db); [|done]. by intros [= <-]. Qed.

(** The columns the sessions and the limiter use *)
Definition replaced (db db' : AuthDb) : Prop :=
  db_sessions db' = ∅ /\ db_buckets db' = db_buckets db /\ generation db < generation db'.

Lemma update_authentication_spec db upd r db' : update_authentication db upd = (r, db') ->
  (forall next c new, upd next c = Ok new -> cr_auth_generation new = as_i64 next) ->
  match r with Ok _ => replaced db db' | Err _ => db' = db end.
Proof.
  intros Hq Hupd. unfold update_authentication in Hq.
  replace (match get_auth_generation db with Ok g => g | Err _ => 0 end) with (generation db) in Hq
    by (unfold generation, get_auth_generation; by destruct (db_credentials db)).
  pose proof (generation_range db) as Hr. destruct (generation db =? u64_max) eqn:Em; [by simplify_eq|].
  destruct (generation db + 1 =? 0) eqn:E0; [lia|]. destruct (upd _ _) as [new|e] eqn:Eu; simplify_eq; [|done].
  split; [done|]. split; [done|]. unfold generation at 2. cbn. rewrite (Hupd _ _ _ Eu), as_u64_as_i64; lia.
Qed.

Lemma change_credential_spec ch db r db' : change_credential ch db = (r, db') ->
  match r with Ok _ => replaced db db' | Err _ => db' = db end.
Proof.
  destruct ch; intros Hq; eapply update_authentication_spec; try exact Hq; intros next c new Hn; cbn in Hn; [by simplify_eq| |];
    destruct c; by simplify_eq.
Qed.

Lemma apply_changes_db l db : db_buckets (apply_changes l db) = db_buckets db /\ generation db <= generation (apply_changes l db)
  /\ (db_sessions (apply_changes l db) = db_sessions db \/ db_sessions (apply_changes l db) = ∅).
Proof.
  revert db. induction l as [|ch l IH]; intros db; [split; [done|split; [done|by left]]|]. cbn [apply_changes fold_left].
  fold (apply_changes l (snd (change_credential ch db))). destruct (change_credential ch db) as [r db'] eqn:Ec. cbn [snd].
  destruct (IH db') as (Hb & Hg & Hs). pose proof (change_credential_spec ch db r db' Ec) as Hc.
  destruct r as [[]|e]; [|by subst db']. destruct Hc as (H1 & H2 & H3).
  split; [by rewrite Hb|]. split; [lia|]. right. destruct Hs as [-> | ->]; done.
Qed.

Lemma apply_changes_sessions l db k r : db_sessions (apply_changes l db) !! k = Some r -> db_sessions db !! k = Some r.
Proof. destruct (apply_changes_db l db) as (_ & _ & [-> | ->]); [done|]. by rewrite lookup_empty. Qed.

(** ** Sessions against a ledger

    The ledger is what an ideal session table would hold: what a session was
    issued with, and when it was created and last used. *)
Record Grant := mkGrant { gr_csrf : string; gr_read_only : bool; gr_generation : Z; gr_created : Z; gr_last : Z }.
Abbreviation Ledger := (gmap string Grant).
Definition used (now : Z) (g : Grant) : Grant := mkGrant (gr_csrf g) (gr_read_only g) (gr_generation g) (gr_created g) now.
Definition live (g : Grant) (now : Z) : Prop := now - gr_created g <= ABSOLUTE_TIMEOUT /\ now - gr_last g <= IDLE_TIMEOUT.
Definition issued (s : Session) (now : Z) : Grant := mkGrant (ss_csrf_token s) (ss_read_only s) (ss_auth_generation s) now now.
(** What the holder of a session may do *)
Definition permits (g : Grant) (s : Session) : Prop :=
  ss_csrf_token s = gr_csrf g /\ ss_read_only s = gr_read_only g /\ ss_auth_generation s = gr_generation g.

(** A clock that is not set back: wall and monotonic readings agree. *)
Definition steady (t : Z) : Time := mkTime t (Some t).
Definition not_after (tm : Time) (x : Z) : Prop := wall tm <= x /\ (forall m, mono tm = Some m -> m <= x).

Lemma steady_not_after t x : t <= x -> not_after (steady t) x.
Proof. intros Hx. split; [done|]. intros m Hm. cbn in Hm. by simplify_eq. Qed.

Lemma stored_not_after t : time_unix (steady t) * SECOND <= t.
Proof. unfold time_unix, steady, SECOND. cbn [wall]. pose proof (Z.mul_div_le t 1000000000). lia. Qed.

Lemma time_sub_bound now tm x k : not_after tm x -> 0 <= k < i64_max -> (time_sub (steady now) tm >? k) = false -> now - x <= k.
Proof.
  intros [Hw Hm] Hk Hs. rewrite Z.gtb_ltb, Z.ltb_ge in Hs. unfold time_sub in Hs. cbn [mono steady wall] in Hs.
  destruct (mono tm) as [m|] eqn:Em.
  - specialize (Hm m eq_refl). unfold mono_delta, from_std in Hs. destruct (m <=? now) eqn:E; [|lia]. lia.
  - unfold clamp_i64 in Hs. destruct (_ && _) eqn:E; [lia|]. destruct (0 <? _) eqn:E2; [lia|lia].
Qed.

Lemma not_expired created last now c l : not_after created c -> not_after last l -> expired created last (steady now) = false ->
  now - c <= ABSOLUTE_TIMEOUT /\ now - l <= IDLE_TIMEOUT.
Proof.
  unfold expired. intros Hc Hl He. apply orb_false_elim in He as [H1 H2].
  split; [apply (time_sub_bound now created)|apply (time_sub_bound now last)]; try done; vm_compute; done.
Qed.

Section Sessions.
(** The tokens in play have different lookup keys. *)
Definition distinct_keys `{Sha256} (tokens : list string) : Prop :=
  forall a b, a ∈ tokens -> b ∈ tokens -> session_lookup_key a = session_lookup_key b -> a = b.
Context `{Sha256} {LZ : LocalZone} (tokens : list string) (Hkey : distinct_keys tokens).

Definition grants (L : Ledger) (id : string) (s : Session) : Prop :=
  exists g, L !! id = Some g /\ ss_id s = id /\ permits g s /\ not_after (ss_created_at s) (gr_created g) /\ not_after (ss_last_seen s) (gr_last g).
Definition session_of (id : string) (r : SessionRow) : Session :=
  mkSession id (sr_csrf_token r) (sr_read_only r) (as_u64 (sr_auth_generation r)) (stored (sr_created_at r)) (stored (sr_last_seen r)).
(** A remembered session is of an older generation, or granted. *)
Definition covered (L : Ledger) (current : Z) (id : string) (s : Session) : Prop :=
  ss_auth_generation s < current \/ (ss_auth_generation s = current /\ grants L id s).

Record Sim (T : Z) (L : Ledger) (w : AuthWorld) : Prop := {
  sim_cache id s : w_sessions w !! id = Some s -> covered L (generation (w_db w)) id s;
  sim_rows id r : id ∈ tokens -> db_sessions (w_db w) !! session_lookup_key id = Some r -> covered L (generation (w_db w)) id (session_of id r);
  sim_times id g : L !! id = Some g -> gr_created g <= T /\ gr_last g <= T;
}.

Lemma covered_later L c c' id s : c <= c' -> covered L c id s -> covered L c' id s.
Proof. intros Hle [Hlt|[He Hg]]; [left; lia|]. destruct (decide (c = c')) as [<-|Hne]; [by right|left; lia]. Qed.
Lemma covered_mono L L' c id s : (grants L id s -> grants L' id s) -> covered L c id s -> covered L' c id s.
Proof. intros Hm [Hlt|[He Hg]]; [by left|right; auto]. Qed.
Lemma covered_now L c id s : covered L c id s -> ss_auth_generation s = c -> grants L id s.
Proof. intros [Hlt|[_ Hg]] He; [lia|done]. Qed.

Lemma Sim_later T T' L w : T <= T' -> Sim T L w -> Sim T' L w.
Proof. intros Hle [H1 H2 H3]. split; [done|done|]. intros id g Hg. specialize (H3 id g Hg). lia. Qed.

(** The database may forget, and move on to a later generation. *)
Lemma Sim_db T L w db : generation (w_db w) <= generation db ->
  (forall k r, db_sessions db !! k = Some r -> db_sessions (w_db w) !! k = Some r) -> Sim T L w -> Sim T L (set_db w db).
Proof.
  intros Hgen Hdb [H1 H2 H3]. split; [| |done].
  - intros id s Hs. by eapply covered_later, H1.
  - intros id r Hi Hr. eapply covered_later; [exact Hgen|]. by apply H2, Hdb.
Qed.
Lemma Sim_changes T L w l : Sim T L w -> Sim T L (set_db w (apply_changes l (w_db w))).
Proof. apply Sim_db; [apply apply_changes_db|]. intros k r. apply apply_changes_sessions. Qed.

Lemma Sim_cache T L w s p : (forall id x, s !! id = Some x -> w_sessions w !! id = Some x) -> Sim T L w -> Sim T L (set_cache w s p).
Proof. intros Hs [H1 H2 H3]. split; [|done|done]. intros id x Hx. apply H1. by apply Hs. Qed.
Lemma Sim_persisted T L w p : Sim T L w -> Sim T L (set_cache w (w_sessions w) p).
Proof. by apply Sim_cache. Qed.
Lemma Sim_cached T L w id s p : Sim T L w -> covered L (generation (w_db w)) id s -> Sim T L (set_cache w (<[id := s]> (w_sessions w)) p).
Proof.
  intros [H1 H2 H3] Hg. split; [|done|done]. intros id' x Hx. cbn in Hx. destruct (decide (id' = id)) as [->|Hne].
  - rewrite lookup_insert_eq in Hx. by simplify_eq.
  - rewrite lookup_insert_ne in Hx by done. by apply H1.
Qed.

Lemma not_after_le tm x y : not_after tm x -> x <= y -> not_after tm y.
Proof. intros [Hw Hm] Hle. split; [lia|]. intros m Hq. specialize (Hm m Hq). lia. Qed.

(** Using a session *)
Lemma grants_used L id g now id' s : L !! id = Some g -> gr_last g <= now -> grants L id' s -> grants (alter (used now) id L) id' s.
Proof.
  intros Hg Hle (g' & Hg' & Hid & Hp & Hc & Hl). destruct (decide (id' = id)) as [->|Hne].
  - assert (g' = g) as -> by congruence. exists (used now g). rewrite lookup_alter_eq, Hg. split; [done|]. split; [done|]. split; [done|]. split; [done|].
    by eapply not_after_le.
  - exists g'. by rewrite lookup_alter_ne.
Qed.

Lemma Sim_used T L w id g now : Sim T L w -> T <= now -> L !! id = Some g -> Sim now (alter (used now) id L) w.
Proof.
  intros [H1 H2 H3] Hle Hg. specialize (H3 id g Hg) as Ht.
  assert (Hup : forall id' s, grants L id' s -> grants (alter (used now) id L) id' s).
  { intros id' s. apply (grants_used L id g); [done|lia]. }
  split; [intros id' s Hs; eapply covered_mono; [apply Hup|by apply H1]|intros id' r Hi Hr; eapply covered_mono; [apply Hup|by apply H2]|].
  intros id' g' Hg'. destruct (decide (id' = id)) as [->|Hne].
  - rewrite lookup_alter_eq, Hg in Hg'. cbn in Hg'. simplify_eq. cbn. lia.
  - rewrite lookup_alter_ne in Hg' by done. specialize (H3 id' g' Hg'). lia.
Qed.

Lemma awp_reserve T L id now w : Sim T L w -> awp (reserve_last_seen_persistence id now) (fun _ w' => Sim T L w') w.
Proof.
  intros Hs ts. unfold reserve_last_seen_persistence, note_persisted. destruct (match _ with Some _ => _ | None => _ end); [done|].
  by apply Sim_persisted.
Qed.

(** A call that only forgets *)
Lemma awp_forgets {A} (f : AuthDb -> result A error * AuthDb) T L w :
  (forall db r db', f db = (r, db') -> db_credentials db' = db_credentials db /\ forall k x, db_sessions db' !! k = Some x -> db_sessions db !! k = Some x) ->
  Sim T L w -> awp (db_call f) (fun _ w' => Sim T L w') w.
Proof.
  intros Hf Hs. apply awp_db_call. intros l. split; [intros e; by apply Sim_changes|].
  destruct (f (apply_changes l (w_db w))) as [r db] eqn:E. destruct (Hf _ _ _ E) as [Hc Hk].
  apply Sim_db; [|by intros k x Hx; eapply apply_changes_sessions, Hk|done].
  replace (generation db) with (generation (apply_changes l (w_db w))); [apply apply_changes_db|]. unfold generation. by rewrite Hc.
Qed.

Lemma awp_delete_session T L id w : Sim T L w -> awp (db_call (delete_session id)) (fun _ w' => Sim T L w') w.
Proof.
  apply awp_forgets. intros db r db' [= _ <-]. split; [done|]. intros k x Hx. cbn in Hx. by apply lookup_delete_Some in Hx as [_ Hx].
Qed.

Lemma awp_uncache T L id w : Sim T L w -> awp (uncache id) (fun _ w' => Sim T L w') w.
Proof. intros Hs ts. cbn. apply Sim_cache; [|done]. intros id' x Hx. by apply lookup_delete_Some in Hx as [_ Hx]. Qed.

Lemma awp_drop T L id w : Sim T L w -> awp (drop_session id) (fun _ w' => Sim T L w') w.
Proof.
  intros Hs. unfold drop_session. eapply awp_bind_conseq; [by apply awp_uncache|]. intros [] w1 H1.
  eapply awp_bind_conseq; [by apply awp_delete_session|]. intros r w2 H2. by apply awp_ret.
Qed.

Lemma awp_current (post : result Z error -> AuthWorld -> Prop) w :
  (forall l r, let w' := set_db w (apply_changes l (w_db w)) in (forall g, r = Ok g -> g = generation (w_db w')) -> post r w') ->
  awp (db_call (with_generation get_auth_generation)) post w.
Proof.
  intros Hp. apply awp_db_call. intros l. split; [intros e; by apply (Hp l)|]. apply (Hp l). intros g. apply get_auth_generation_Ok.
Qed.

Lemma awp_persist T L id g t w : id ∈ tokens -> Sim T L w -> L !! id = Some g -> t <= gr_last g ->
  awp (persist_last_seen id (steady t)) (fun _ w' => Sim T L w') w.
Proof.
  intros Hid Hs Hg Ht. unfold persist_last_seen. eapply (awp_bind_conseq _ _ (fun _ w' => Sim T L w')).
  - apply awp_db_call. intros l. split; [intros e; by apply Sim_changes|]. pose proof (Sim_changes T L w l Hs) as [H1 H2 H3].
    cbn [update_session_last_seen fst snd]. split; [done| |done]. intros id' r Hi Hr. cbn in Hr.
    destruct (decide (id' = id)) as [->|Hne].
    + rewrite lookup_alter_eq in Hr. destruct (db_sessions (apply_changes l (w_db w)) !! session_lookup_key id) as [r0|] eqn:E; [|done].
      cbn in Hr. simplify_eq. destruct (H2 id r0 Hi E) as [Hlt|[He (g' & Hg' & _ & Hp & Hc & _)]]; [by left|right].
      assert (g' = g) as -> by congruence. split; [done|]. exists g. split; [done|]. split; [done|]. split; [done|]. split; [done|].
      split; [|by intros m Hm]. pose proof (stored_not_after t). cbn. cbn in *. lia.
    + rewrite lookup_alter_ne in Hr by (intros Hq; apply Hkey in Hq; congruence). by apply (H2 id').
  - intros r w' Hw. destruct r; [by apply awp_ret|]. intros ts. destruct (w_persisted w' !! id) as [tm|]; [|done].
    destruct (time_eqb tm (steady t)); [by apply Sim_persisted|done].
Qed.

(** What a validation at [now] answers *)
Definition answers (L : Ledger) (id : string) (now : Z) (r : result Session error) (w : AuthWorld) : Prop :=
  match r with
  | Ok s => ss_id s = id /\ (exists g, L !! id = Some g /\ live g now /\ permits g s) /\ Sim now (alter (used now) id L) w
  | Err _ => Sim now L w
  end.

Lemma grants_use T L id s w now : Sim T L w -> T <= now -> grants L id s -> ss_auth_generation s = generation (w_db w) ->
  session_expired s (steady now) = false ->
  ss_id s = id /\ (exists g, L !! id = Some g /\ live g now /\ permits g s)
    /\ forall p, Sim now (alter (used now) id L) (set_cache w (<[id := seen s (steady now)]> (w_sessions w)) p).
Proof.
  intros Hs Hle (g & Hg & Hid & Hp & Hc & Hl) Hgen He. split; [done|]. split.
  { exists g. split; [done|]. split; [by apply (not_expired _ _ now _ _ Hc Hl)|done]. }
  intros p. apply Sim_cached; [by eapply Sim_used|]. right. split; [done|].
  exists (used now g). rewrite lookup_alter_eq, Hg. split; [done|]. split; [done|]. split; [done|]. split; [done|]. by apply steady_not_after.
Qed.

(** The end of both paths of a validation *)
Lemma awp_used T L id s w now p : Sim T L w -> T <= now -> grants L id s -> ss_auth_generation s = generation (w_db w) ->
  session_expired s (steady now) = false ->
  awp (call due <- reserve_last_seen_persistence id (steady now); aret (Ok (seen s (steady now), due))) (fun r w' =>
    match r with
    | Ok (s, _) => ss_last_seen s = steady now /\ answers L id now (Ok s) w'
    | Err e => answers L id now (Err e) w'
    end) (set_cache w (<[id := seen s (steady now)]> (w_sessions w)) p).
Proof.
  intros Hs Hle Hg Hgen He. destruct (grants_use T L id s w now Hs Hle Hg Hgen He) as (Hid & Hl & Hsim).
  eapply awp_bind_conseq; [eapply awp_reserve, Hsim|]. intros due w2 H2. apply awp_ret. done.
Qed.

Lemma awp_validate_locked T L id w now : id ∈ tokens -> Sim T L w -> T <= now ->
  awp (validate_locked id (steady now)) (fun r w' =>
    match r with
    | Ok (s, _) => ss_last_seen s = steady now /\ answers L id now (Ok s) w'
    | Err e => answers L id now (Err e) w'
    end) w.
Proof.
  intros Hi Hs Hle. unfold validate_locked. apply awp_bind. intros ts0. cbn. destruct (w_sessions w !! id) as [s|] eqn:Ec.
  - apply awp_bind. apply awp_current. intros l r w1 Hcur. pose proof (Sim_changes T L w l Hs : Sim T L w1) as Hl.
    destruct r as [current|e]; [|apply awp_ret; by apply (Sim_later T)]. destruct (_ || _) eqn:Ee.
    { eapply awp_bind_conseq; [by apply (awp_drop T L)|]. intros [] w2 H2. apply awp_ret. by apply (Sim_later T). }
    apply orb_false_elim in Ee as [Eg Ee]. assert (Hgen : ss_auth_generation s = generation (w_db w1)) by (rewrite <- (Hcur current) by done; lia).
    apply awp_bind. intros ts1. apply (awp_used T); try done. by apply (covered_now _ _ _ _ (sim_cache T L w1 Hl id s Ec)).
  - apply awp_bind, awp_db_call. intros l. pose proof (Sim_changes T L w l Hs) as Hl. set (w1 := set_db w _) in *.
    split; [intros e; apply awp_ret; by apply (Sim_later T)|]. unfold get_session.
    destruct (db_sessions (apply_changes l (w_db w)) !! session_lookup_key id) as [row|] eqn:Er; [|apply awp_ret; by apply (Sim_later T)].
    change (set_db w (apply_changes l (w_db w))) with w1. apply awp_bind, awp_current. intros l2 cur w2 Hcur.
    pose proof (Sim_changes T L w1 l2 Hl : Sim T L w2) as Hl2. destruct (_ || _) eqn:Ee.
    { eapply awp_bind_conseq; [by apply (awp_delete_session T L)|]. intros r w3 H3. apply awp_ret. by apply (Sim_later T). }
    apply orb_false_elim in Ee as [Eg Ee]. destruct cur as [cur|]; [|done]. apply awp_bind. intros ts1. apply awp_bind. intros ts2.
    assert (Hgen : ss_auth_generation (session_of id row) = generation (w_db w2)) by (rewrite <- (Hcur cur) by done; cbn; lia).
    apply (awp_used T L id (session_of id row) w2); try done. eapply covered_now; [|exact Hgen].
    apply covered_later with (generation (w_db w1)); [apply apply_changes_db|]. by apply (sim_rows T L w1 Hl).
Qed.

Lemma awp_validate T L id w now : id ∈ tokens -> Sim T L w -> T <= now -> awp (validate_session_persistent id (steady now)) (answers L id now) w.
Proof.
  intros Hi Hs Hle. unfold validate_session_persistent. destruct (is_empty id); [apply awp_ret; by apply (Sim_later T)|].
  eapply awp_bind_conseq; [by apply (awp_validate_locked T)|]. intros [[s due]|e] w1 Hr; [|by apply awp_ret].
  destruct Hr as [Hlast (Hid & (g & Hg & Hlive & Hp) & Hsim)]. eapply (awp_bind_conseq _ _ (fun _ w2 => Sim now (alter (used now) id L) w2)).
  - destruct due; [|by apply awp_ret]. rewrite Hlast. apply (awp_persist now _ id (used now g)); [done|done|by rewrite lookup_alter_eq, Hg|done].
  - intros [] w2 H2. apply awp_ret. split; [done|]. split; [by exists g|done].
Qed.

(** *** Issuing *)
Lemma grants_other L id g id' s : id' <> id -> grants L id' s -> grants (<[id := g]> L) id' s.
Proof. intros Hne (g' & Hg & ?). exists g'. by rewrite lookup_insert_ne. Qed.
Lemma grants_issued L s now : ss_created_at s = steady now -> ss_last_seen s = steady now -> grants (<[ss_id s := issued s now]> L) (ss_id s) s.
Proof.
  intros Hc Hl. exists (issued s now). rewrite lookup_insert_eq, Hc, Hl. split; [done|]. split; [done|]. split; [done|].
  split; by apply steady_not_after.
Qed.

(** The new row and the new entry of the cache are the grant's. *)
Lemma Sim_issued T L w s now p : ss_id s ∈ tokens -> Sim T L w -> T <= now -> ss_created_at s = steady now -> ss_last_seen s = steady now ->
  0 <= ss_auth_generation s <= generation (w_db w) ->
  Sim now (<[ss_id s := issued s now]> L)
    (set_cache (set_db w (with_sessions (w_db w) (<[session_lookup_key (ss_id s) :=
        mkRow (ss_csrf_token s) (ss_read_only s) (as_i64 (ss_auth_generation s)) (time_unix (steady now)) (time_unix (steady now))]> (db_sessions (w_db w)))))
      (<[ss_id s := s]> (w_sessions w)) p).
Proof.
  intros Hi [H1 H2 H3] Hle Hc Hl Hgen. pose proof (generation_range (w_db w)) as Hr.
  assert (Hnew : forall x, ss_auth_generation x = ss_auth_generation s -> grants (<[ss_id s := issued s now]> L) (ss_id s) x ->
    covered (<[ss_id s := issued s now]> L) (generation (w_db w)) (ss_id s) x).
  { intros x He Hx. destruct (decide (ss_auth_generation s = generation (w_db w))); [right|left]; [split; [congruence|done]|lia]. }
  split.
  - intros id x Hx. cbn in Hx. destruct (decide (id = ss_id s)) as [->|Hne].
    + rewrite lookup_insert_eq in Hx. simplify_eq. apply Hnew; [done|]. by apply grants_issued.
    + rewrite lookup_insert_ne in Hx by done. eapply covered_mono; [by apply grants_other|by apply H1].
  - intros id r Hi' Hr'. cbn in Hr'. destruct (decide (id = ss_id s)) as [->|Hne].
    + rewrite lookup_insert_eq in Hr'. simplify_eq. apply Hnew; [cbn; apply as_u64_as_i64; lia|].
      exists (issued s now). rewrite lookup_insert_eq. split; [done|]. split; [done|]. pose proof (stored_not_after now) as Hst. split.
      { split; [done|]. split; [done|]. cbn. apply as_u64_as_i64. lia. }
      split; (split; [cbn in *; lia|by intros m Hm]).
    + rewrite lookup_insert_ne in Hr' by (intros Hq; apply Hkey in Hq; congruence). eapply covered_mono; [by apply grants_other|by apply H2].
  - intros id g Hg. destruct (decide (id = ss_id s)) as [->|Hne].
    + rewrite lookup_insert_eq in Hg. simplify_eq. cbn. lia.
    + rewrite lookup_insert_ne in Hg by done. specialize (H3 id g Hg). lia.
Qed.

Lemma Sim_row T L w now s db : ss_id s ∈ tokens -> Sim T L w -> T <= now -> ss_created_at s = steady now -> ss_last_seen s = steady now ->
  0 <= ss_auth_generation s <= generation (w_db w) ->
  insert_session (ss_id s) (ss_csrf_token s) (ss_read_only s) (ss_auth_generation s) (steady now) (steady now) (w_db w) = (Ok tt, db) ->
  forall p, Sim now (<[ss_id s := issued s now]> L) (set_cache (set_db w db) (<[ss_id s := s]> (w_sessions w)) p).
Proof.
  intros Hid Hs Hle Hc Hl Hgen Hi p. unfold insert_session in Hi. destruct (db_sessions (w_db w) !! session_lookup_key (ss_id s)); [done|].
  injection Hi as <-. by apply (Sim_issued T).
Qed.

Definition issues (L : Ledger) (now : Z) (o : option Session) (w : AuthWorld) : Prop :=
  match o with Some s => Sim now (<[ss_id s := issued s now]> L) w | None => Sim now L w end.

Lemma awp_create_mode T L ro id csrf now w : (forall i, id = Some i -> i ∈ tokens) -> Sim T L w -> T <= now ->
  awp (create_session_with_mode ro id csrf (steady now)) (issues L now) w.
Proof.
  intros Hi Hs Hle. unfold create_session_with_mode. destruct id as [id|], csrf as [csrf|]; try (apply awp_ret; by apply (Sim_later T)).
  apply awp_bind, awp_current. intros l r w1 Hcur. pose proof (Sim_changes T L w l Hs : Sim T L w1) as H1.
  destruct r as [g|e]; [|apply awp_ret; by apply (Sim_later T)]. specialize (Hcur g eq_refl).
  apply awp_bind, awp_db_call. intros l2. pose proof (Sim_changes T L w1 l2 H1) as H2. set (w2 := set_db w1 (apply_changes l2 (w_db w1))) in *.
  split; [intros e; apply awp_ret; by apply (Sim_later T)|].
  destruct (db_create_session id csrf ro g (steady now) (steady now) (apply_changes l2 (w_db w1))) as [r db] eqn:Ei.
  destruct r as [[]|e].
  - set (s := mkSession id csrf ro g (steady now) (steady now)). intros ts. cbn.
    apply (Sim_row T L w2 now s db (Hi id eq_refl) H2 Hle eq_refl eq_refl); [|exact Ei]. change (0 <= g <= generation (apply_changes l2 (w_db w1))).
    pose proof (generation_range (w_db w1)). destruct (apply_changes_db l2 (w_db w1)) as (_ & ? & _). lia.
  - apply awp_ret. unfold db_create_session, insert_session in Ei. destruct (_ !! _); [|done]. injection Ei as _ <-. by apply (Sim_later T).
Qed.

Lemma awp_create_generation T L ro expected id csrf now w : (forall i, id = Ok i -> i ∈ tokens) -> Sim T L w -> T <= now ->
  awp (create_session_with_generation ro expected id csrf (steady now))
    (fun r => issues L now (match r with Ok s => Some s | Err _ => None end)) w.
Proof.
  intros Hi Hs Hle. unfold create_session_with_generation. destruct id as [id|], csrf as [csrf|]; try (apply awp_ret; by apply (Sim_later T)).
  apply awp_bind, awp_db_call. intros l. pose proof (Sim_changes T L w l Hs) as H1. set (w1 := set_db w (apply_changes l (w_db w))) in *.
  split; [intros e; apply awp_ret; by apply (Sim_later T)|].
  unfold create_session_if_generation_current. destruct (get_auth_generation (apply_changes l (w_db w))) as [cur|e] eqn:Eg;
    [|apply awp_ret; by apply (Sim_later T)]. apply get_auth_generation_Ok in Eg.
  destruct (negb (cur =? expected)) eqn:Ec; [apply awp_ret; by apply (Sim_later T)|].
  destruct (insert_session id csrf ro expected (steady now) (steady now) (apply_changes l (w_db w))) as [[[]|e] db] eqn:Ei;
    [|apply awp_ret; by apply (Sim_later T)].
  set (s := mkSession id csrf ro expected (steady now) (steady now)). intros ts. cbn.
  apply (Sim_row T L w1 now s db (Hi id eq_refl) H1 Hle eq_refl eq_refl); [|exact Ei]. pose proof (generation_range (w_db w1)). cbn in *. lia.
Qed.

(** *** Revoking *)
Lemma Sim_delete T L w id p : Sim T L w -> Sim T (delete id L)
  (set_cache (set_db w (with_sessions (w_db w) (delete (session_lookup_key id) (db_sessions (w_db w))))) (delete id (w_sessions w)) p).
Proof.
  intros [H1 H2 H3].
  assert (Hm : forall id' s, id' <> id -> grants L id' s -> grants (delete id L) id' s).
  { intros id' s Hne (g & Hg & ?). exists g. by rewrite lookup_delete_ne. }
  split.
  - intros id' s Hs. cbn in Hs. apply lookup_delete_Some in Hs as [Hne Hs]. eapply covered_mono; [by apply Hm|by apply H1].
  - intros id' r Hi Hr. cbn in Hr. apply lookup_delete_Some in Hr as [Hne Hr]. eapply covered_mono; [|by apply H2].
    apply Hm. intros ->. by apply Hne.
  - intros id' g Hg. apply lookup_delete_Some in Hg as [_ Hg]. by apply (H3 id').
Qed.

Lemma awp_destroy T L id w : Sim T L w ->
  awp (destroy id) (fun r w' => Sim T (if is_ok r && negb (is_empty id) then delete id L else L) w') w.
Proof.
  intros Hs. unfold destroy. destruct (is_empty id); [by apply awp_ret|].
  apply awp_bind, awp_db_call. intros l. split; [intros e; apply awp_ret; by apply Sim_changes|].
  intros ts. cbn. pose proof (Sim_delete T L _ id (delete id (w_persisted w)) (Sim_changes T L w l Hs)) as Hd. exact Hd.
Qed.

Lemma awp_destroy_all T L w : Sim T L w -> awp destroy_all (fun r w' => Sim T (if is_ok r then ∅ else L) w') w.
Proof.
  intros Hs. unfold destroy_all. apply awp_bind, awp_db_call. intros l. split; [intros e; apply awp_ret; by apply Sim_changes|].
  intros ts. cbn. split; intros id x; intros; simplify_map_eq.
Qed.

Lemma awp_sweep T L now w : Sim T L w -> awp (sweep now) (fun _ w' => Sim T L w') w.
Proof.
  intros Hs ts. unfold sweep. set (w0 := set_cache w _ _). assert (H0 : Sim T L w0).
  { apply Sim_cache; [|done]. intros id x Hx. by apply map_lookup_filter_Some in Hx as [Hx _]. }
  revert ts. change (awp (call _ <- db_call (clean_expired_sessions now); aret tt) (fun _ w' => Sim T L w') w0).
  eapply awp_bind_conseq; [apply awp_forgets; [|exact H0]|by intros r w1 H1; apply awp_ret].
  intros db r db' [= _ <-]. split; [done|]. intros k x Hx. cbn in Hx. by apply map_lookup_filter_Some in Hx as [Hx _].
Qed.

Lemma awp_restart T L w : Sim T L w -> awp restart (fun _ w' => Sim T L w') w.
Proof. intros [H1 H2 H3] ts. cbn. split; [|done|done]. intros id s Hs. cbn in Hs. by rewrite lookup_empty in Hs. Qed.

(** A credential change revokes every session, cached ones included. *)
Lemma awp_change T L ch w : Sim T L w -> awp (db_call (change_credential ch)) (fun r w' => Sim T (if is_ok r then ∅ else L) w') w.
Proof.
  intros Hs. apply awp_db_call. intros l. pose proof (Sim_changes T L w l Hs) as H1. split; [by intros e|].
  destruct (change_credential ch (apply_changes l (w_db w))) as [r db] eqn:Ec. apply change_credential_spec in Ec.
  destruct r as [[]|e]; [|by subst db]. destruct Ec as (He & _ & Hg). split.
  - intros id s Hsn. left. pose proof (sim_cache T L _ H1 id s Hsn) as [Hlt|[Hq _]]; cbn in *; lia.
  - intros id r _ Hr. cbn in Hr. by rewrite He, lookup_empty in Hr.
  - intros id g Hg'. cbn in Hg'. by rewrite lookup_empty in Hg'.
Qed.

(** ** Histories *)
Inductive SessionOp :=
  | Issue (read_only : bool) (id csrf : option string)
  | IssueFor (read_only : bool) (expected_generation : Z) (id csrf : result string error)
  | Validate (id : string)
  | Destroy (id : string)
  | DestroyAll
  | Sweep
  | Restart
  | Change (ch : CredentialChange).
Inductive Answer := Issued (s : Session) | Validated (s : Session) | Accepted | Refused.

Definition amap {A B} (f : A -> B) (m : AM A) : AM B := call a <- m; aret (f a).
Definition accepted {A} (r : result A error) : Answer := if is_ok r then Accepted else Refused.
Definition exec (op : SessionOp) (now : Time) : AM Answer :=
  match op with
  | Issue ro id csrf => amap (fun o => match o with Some s => Issued s | None => Refused end) (create_session_with_mode ro id csrf now)
  | IssueFor ro g id csrf =>
      amap (fun r => match r with Ok s => Issued s | Err _ => Refused end) (create_session_with_generation ro g id csrf now)
  | Validate id => amap (fun r => match r with Ok s => Validated s | Err _ => Refused end) (validate_session_persistent id now)
  | Destroy id => amap accepted (destroy id)
  | DestroyAll => amap accepted destroy_all
  | Sweep => amap (fun _ => Accepted) (sweep now)
  | Restart => amap (fun _ => Accepted) restart
  | Change ch => amap accepted (db_call (change_credential ch))
  end.

(** The token an operation carries *)
Definition op_token (op : SessionOp) : option string :=
  match op with
  | Issue _ id _ => id
  | IssueFor _ _ (Ok id) _ => Some id
  | Validate id | Destroy id => Some id
  | _ => None
  end.
Definition in_play (op : SessionOp) : Prop := forall id, op_token op = Some id -> id ∈ tokens.

Record Event := mkEvent { ev_time : Z; ev_op : SessionOp; ev_answer : Answer }.
(** The ideal table: issue, use, revoke one, revoke all; newest event first *)
Definition record_event (e : Event) (L : Ledger) : Ledger :=
  match ev_op e, ev_answer e with
  | (Issue _ _ _ | IssueFor _ _ _ _), Issued s => <[ss_id s := issued s (ev_time e)]> L
  | Validate id, Validated _ => alter (used (ev_time e)) id L
  | Destroy id, Accepted => if is_empty id then L else delete id L
  | (DestroyAll | Change _), Accepted => ∅
  | _, _ => L
  end.
Definition ledger (h : list Event) : Ledger := foldr record_event ∅ h.

Definition last_time (T0 : Z) (h : list Event) : Z := from_option ev_time T0 (head h).
(** Every operation may meet any turns of the database; time does not go back. *)
Inductive session_run (T0 : Z) : list Event -> AuthWorld -> Prop :=
  | run_start db : db_sessions db = ∅ -> session_run T0 [] (mkAuthWorld db ∅ ∅ ∅)
  | run_step h w op now a w' ts ts' :
      session_run T0 h w -> in_play op -> last_time T0 h <= now ->
      exec op (steady now) w ts = (a, w', ts') -> session_run T0 (mkEvent now op a :: h) w'.

Lemma awp_amap {A B} (f : A -> B) (m : AM A) (post : B -> AuthWorld -> Prop) w : awp m (fun a => post (f a)) w -> awp (amap f m) post w.
Proof. intros Hm. eapply awp_bind_conseq; [exact Hm|]. intros a w' Hp. by apply awp_ret. Qed.

Lemma awp_exec T h op now w : in_play op -> Sim T (ledger h) w -> T <= now ->
  awp (exec op (steady now)) (fun a w' => Sim now (ledger (mkEvent now op a :: h)) w') w.
Proof.
  intros Hi Hs Hle. pose proof (Sim_later T now _ _ Hle Hs) as Hn. destruct op as [ro id csrf|ro g id csrf|id|id| | | |ch]; cbn [exec]; apply awp_amap.
  - eapply awp_conseq; [apply (awp_create_mode T); [|done|done]; intros i ->; by apply Hi|]. by intros [s|] w'.
  - eapply awp_conseq; [apply (awp_create_generation T); [|done|done]; intros i ->; by apply Hi|]. by intros [s|] w'.
  - eapply awp_conseq; [apply (awp_validate T); [by apply Hi|done|done]|]. intros [s|e] w'; [by intros (_ & _ & Hq)|done].
  - eapply awp_conseq; [by apply awp_destroy|]. intros [u|e] w'; cbn; by destruct (is_empty id).
  - eapply awp_conseq; [by apply awp_destroy_all|]. by intros [u|e] w'.
  - eapply awp_conseq; [by apply awp_sweep|]. done.
  - eapply awp_conseq; [by apply awp_restart|]. done.
  - eapply awp_conseq; [by apply awp_change|]. by intros [u|e] w'.
Qed.

Lemma run_Sim T0 h w : session_run T0 h w -> Sim (last_time T0 h) (ledger h) w.
Proof.
  intros Hr. induction Hr as [db Hdb|h w op now a w' ts ts' Hr IH Hi Hle He].
  - split; intros id x Hx; [done| |done]. intros Hr. cbn in Hr. by rewrite Hdb in Hr.
  - pose proof (awp_exec (last_time T0 h) h op now w Hi IH Hle ts) as Hx. by rewrite He in Hx.
Qed.

Lemma run_validated T0 h w id now ts s w' ts' : session_run T0 h w -> last_time T0 h <= now -> id ∈ tokens ->
  validate_session_persistent id (steady now) w ts = (Ok s, w', ts') ->
  ss_id s = id /\ exists g, ledger h !! id = Some g /\ live g now /\ permits g s.
Proof.
  intros Hr Hle Hi Hv. pose proof (awp_validate (last_time T0 h) (ledger h) id w now Hi (run_Sim T0 h w Hr) Hle ts) as Ha.
  rewrite Hv in Ha. by destruct Ha as (Hid & Hg & _).
Qed.
End Sessions.

(** ** What a validated session is *)

(** A revocation, and a later issue, of a token *)
Definition revokes (id : string) (e : Event) : Prop :=
  ev_answer e = Accepted /\ match ev_op e with Destroy id' => id' = id /\ id <> EmptyString | DestroyAll | Change _ => True | _ => False end.
Definition issues_token (id : string) (e : Event) : Prop := exists s, ev_answer e = Issued s /\ ss_id s = id.

Lemma record_revocation id e L : revokes id e -> record_event e L !! id = None.
Proof.
  unfold revokes, record_event. intros [-> Hop]. destruct (ev_op e); try done. destruct Hop as [-> Hne].
  destruct id; [done|]. apply lookup_delete_eq.
Qed.
Lemma record_other id e L : ~ issues_token id e -> L !! id = None -> record_event e L !! id = None.
Proof.
  unfold issues_token, record_event. intros Hn HL.
  assert (Hins : forall s, ev_answer e = Issued s -> <[ss_id s := issued s (ev_time e)]> L !! id = None).
  { intros s Hs. rewrite lookup_insert_ne; [done|]. intros Hq. apply Hn. by exists s. }
  destruct (ev_op e), (ev_answer e); try done; try by apply Hins.
  - destruct (decide (id0 = id)) as [->|Hne]; [by rewrite lookup_alter_eq, HL|by rewrite lookup_alter_ne].
  - destruct (is_empty id0); [done|]. by rewrite lookup_delete_None; right.
Qed.
Lemma ledger_revoked id later e earlier : revokes id e -> Forall (fun e' => ~ issues_token id e') later ->
  ledger (later ++ e :: earlier) !! id = None.
Proof.
  intros He Hl. induction Hl as [|e' l Hn _ IH]; [by apply record_revocation|]. by apply record_other.
Qed.

(** C23: In every history of session operations (issuing, validating, logging
    out, sweeping, restarting, changing the credential) with any faults and
    concurrent credential changes at the database, a session that validates
    was issued with exactly this CSRF token, access mode and credential
    generation, has not been revoked since, was issued at most eight hours ago
    and was last issued or validated at most thirty minutes ago: the cache
    and the table together implement the ledger of the history. *)
Theorem validated_session_was_granted `{Sha256} {LZ : LocalZone} (tokens : list string) (T0 : Z) (h : list Event) (w : AuthWorld) (id : string) (now : Z)
    (ts : list Turn) (s : Session) (w' : AuthWorld) (ts' : list Turn) :
  distinct_keys tokens -> session_run tokens T0 h w -> last_time T0 h <= now -> id ∈ tokens ->
  validate_session_persistent id (steady now) w ts = (Ok s, w', ts') ->
  ss_id s = id /\ exists g, ledger h !! id = Some g /\ live g now /\ permits g s.
Proof. intros Hk Hr Hle Hi Hv. by eapply run_validated. Qed.

(** After a successful logout of a session, logout of all sessions or
    change of the administrator's password or TOTP secret, the token does not
    validate again until it is issued anew, whatever happens in between:
    validations in flight, failed database calls, restarts of the daemon. *)
Theorem revoked_session_refused `{Sha256} {LZ : LocalZone} (tokens : list string) (T0 : Z) (earlier later : list Event) (e : Event) (w : AuthWorld) (id : string)
    (now : Z) (ts : list Turn) :
  distinct_keys tokens -> session_run tokens T0 (later ++ e :: earlier) w -> last_time T0 (later ++ e :: earlier) <= now -> id ∈ tokens ->
  revokes id e -> Forall (fun e' => ~ issues_token id e') later ->
  is_ok (fst (fst (validate_session_persistent id (steady now) w ts))) = false.
Proof.
  intros Hk Hr Hle Hi He Hl. destruct (validate_session_persistent id (steady now) w ts) as [[r w'] ts'] eqn:Ev.
  destruct r as [s|err]; [|done]. destruct (run_validated tokens Hk T0 _ w id now ts s w' ts' Hr Hle Hi Ev) as (_ & g & Hg & _).
  rewrite (ledger_revoked id later e earlier) in Hg; done.
Qed.
