(* ===== verification/AuthLimit.v ===== *)
(** * How many logins the persistent limiter lets through

    [PersistentRateLimiter::allow] over the bucket table, with failing calls,
    sweeps and restarts.  The buckets keep whole seconds, so a restart may
    close a window up to a second early: in any period one second shorter than
    the window at most twice the limit is let through. *)

From Stdlib Require Import ZArith Ascii String Lia Bool.
From stdpp Require Import base list strings gmap.
From S2P Require Import Prelude GoStrings Net NetSpec GoTime Json Model Validation Policy Firmware FirmwareSpec Auth AuthStore AuthSpec.

Local Open Scope string_scope.
Local Open Scope Z_scope.
Local Open Scope list_scope.

(** ** Histories of one address *)
Inductive LimiterOp := Attempt (ip : string) | Forget | Reboot.

Section Limits.
Context {LZ : LocalZone} (limit window T0 : Z) (Hwindow : 0 <= window < i64_max).

(** From [T0] to [T] the local offset does not move forward. *)
Definition zone_calm (T : Z) : Prop :=
  forall a b, T0 <= a <= b -> b <= T -> local_offset (b / SECOND) <= local_offset (a / SECOND).

Definition limiter_exec (op : LimiterOp) (now : Time) : AM bool :=
  match op with
  | Attempt ip => allow_login limit window ip now
  | Forget => amap (fun _ => false) (forget_attempts window now)
  | Reboot => amap (fun _ => false) restart
  end.
(** A query that fails is not a query that finds no row. *)
Definition honest (ts : list Turn) : Prop := Forall (fun t => forall e, tn_fault t = Some e -> is_no_rows e = false) ts.

(** The times at which an address was let through, newest first *)
Inductive limiter_run (ip : string) : Z -> list Z -> AuthWorld -> Prop :=
  | limiter_start db : db_buckets db !! ip = None -> limiter_run ip T0 [] (mkAuthWorld db ∅ ∅ ∅)
  | limiter_step T h w op now ts r w' ts' :
      limiter_run ip T h w -> T <= now -> honest ts -> limiter_exec op (steady now) w ts = (r, w', ts') ->
      limiter_run ip now (if r && match op with Attempt ip' => bool_decide (ip' = ip) | _ => false end then now :: h else h) w'.

Fixpoint passed (a b : Z) (h : list Z) : Z :=
  match h with [] => 0 | t :: h' => (if (a <=? t) && (t <=? b) then 1 else 0) + passed a b h' end.

(** ** Windows *)
Definition most : Z := Z.max 1 limit.
Definition short : Z := window - SECOND.

(** The open window began at [s] and let [n] through. *)
Record Window (T s n : Z) (h : list Z) : Prop := {
  wd_now : T0 <= s <= T;
  wd_past t : t ∈ h -> t <= T;
  wd_count : 0 <= n <= most;
  wd_period a : passed a (a + short) h <= 2 * most;
  wd_recent a b : s - short <= a -> passed a b h <= most + n;
  wd_inside a b : s < a -> passed a b h <= n;
}.
(** A new window may begin. *)
Definition over (T s n : Z) : Prop := n = 0 \/ T - s > short.
Definition begins (s : Z) (tm : Time) : Prop := tm = steady s \/ tm = stored (s / SECOND).

Record Books (ip : string) (T s n : Z) (w : AuthWorld) : Prop := {
  bk_cache c tm : w_attempts w !! ip = Some (c, tm) -> begins s tm /\ n <= c;
  bk_row c st : db_buckets (w_db w) !! ip = Some (c, st) -> (st = s / SECOND /\ n <= c) \/ (T - st * SECOND > window /\ over T s n);
  bk_none : db_buckets (w_db w) !! ip = None -> over T s n;
}.

Lemma passed_later a b T h : (forall t, t ∈ h -> t <= T) -> T < a -> passed a b h = 0.
Proof.
  induction h as [|t h IH]; [done|]. intros Hh Ha. cbn. rewrite IH; [|intros x Hx; apply Hh; by right|done].
  pose proof (Hh t ltac:(by left)). destruct (a <=? t) eqn:E; [lia|done].
Qed.

Lemma Window_pass T s n h now : Window T s n h -> T <= now -> n + 1 <= most -> Window now s (n + 1) (now :: h).
Proof.
  intros [H1 H2 H3 H4 H5 H6] Hle Hn. split; [lia| |lia| | |].
  - intros t Ht. apply elem_of_cons in Ht as [->|Ht]; [done|]. specialize (H2 t Ht). lia.
  - intros a. cbn. destruct (_ && _) eqn:E; [|by apply H4]. assert (Ha : s - short <= a) by lia. specialize (H5 a (a + short) Ha). lia.
  - intros a b Ha. cbn. specialize (H5 a b Ha). destruct (_ && _); lia.
  - intros a b Ha. cbn. specialize (H6 a b Ha). destruct (_ && _); lia.
Qed.

Lemma Window_later T s n h now : Window T s n h -> T <= now -> Window now s n h.
Proof. intros [H1 H2 H3 H4 H5 H6] Hle. split; try done; [lia|]. intros t Ht. specialize (H2 t Ht). lia. Qed.

(** A window that opens [short] after the last began has one full window behind it. *)
Lemma Window_open T s n h now : Window T s n h -> T <= now -> over now s n -> Window now now 0 h.
Proof.
  intros [H1 H2 H3 H4 H5 H6] Hle Ho. split; [lia| |unfold most in *; lia|done| |].
  - intros t Ht. specialize (H2 t Ht). lia.
  - intros a b Ha. destruct Ho as [->|Ho]; [specialize (H5 a b); lia|]. specialize (H6 a b). lia.
  - intros a b Ha. rewrite (passed_later a b T); [done|done|lia].
Qed.

Lemma over_later T now s n : T <= now -> over T s n -> over now s n.
Proof. intros Hle [->|Ho]; [by left|right; lia]. Qed.

Lemma Books_later ip T now s n w : T <= now -> Books ip T s n w -> Books ip now s n w.
Proof.
  intros Hle [H1 H2 H3]. split; [done| |intros Hn; by apply (over_later T), H3].
  intros c st Hr. destruct (H2 c st Hr) as [Hc|[Hc Ho]]; [by left|right]. split; [lia|by apply (over_later T)].
Qed.

(** ** When a window is closed *)
Lemma floor_second s : s - SECOND < s / SECOND * SECOND <= s.
Proof. unfold SECOND. pose proof (Z.div_mod s 1000000000). pose proof (Z.mod_pos_bound s 1000000000). lia. Qed.

Lemma time_sub_stored now st : (time_sub (steady now) (stored st) >? window) = (now - st * SECOND >? window).
Proof.
  unfold time_sub, steady, stored, clamp_i64. cbn [mono wall]. destruct (_ && _) eqn:E; [done|].
  apply Bool.eq_iff_eq_true. rewrite !Z.gtb_lt. unfold i64_min, i64_max in *. destruct (0 <? _) eqn:E2; lia.
Qed.

Lemma closed_over now s n tm : begins s tm -> s <= now -> window_closed window (steady now) tm = true -> over now s n.
Proof.
  intros Hb Hs Hc. right. pose proof (floor_second s) as Hf. unfold window_closed in Hc. unfold short. destruct Hb as [-> | ->].
  - unfold time_sub, time_before, steady, mono_delta, from_std in Hc. cbn in Hc. destruct (s <=? now) eqn:E; unfold SECOND in *; lia.
  - rewrite time_sub_stored in Hc. unfold time_before in Hc. cbn in Hc. lia.
Qed.

Lemma begins_unix s tm : begins s tm -> time_unix tm = s / SECOND.
Proof. intros [-> | ->]; [done|]. unfold time_unix, stored. cbn. by rewrite Z.div_mul. Qed.

(** ** The operations *)
Definition Good (ip : string) (T : Z) (h : list Z) (w : AuthWorld) : Prop := exists s n, Window T s n h /\ Books ip T s n w.

Lemma Books_frame ip T s n w w' : w_attempts w' !! ip = w_attempts w !! ip -> db_buckets (w_db w') !! ip = db_buckets (w_db w) !! ip ->
  Books ip T s n w -> Books ip T s n w'.
Proof. intros Ha Hb [H1 H2 H3]. split; rewrite ?Ha, ?Hb; done. Qed.

Lemma apply_changes_buckets l db : db_buckets (apply_changes l db) = db_buckets db.
Proof. by destruct (apply_changes_db l db). Qed.

(** [remember] always fills the cache; the row is written or the answer is no. *)
Lemma remember_cases ip c tm w ts r w' ts' : remember ip c tm w ts = (r, w', ts') ->
  w_attempts w' = <[ip := (c, tm)]> (w_attempts w)
  /\ db_buckets (w_db w') = if r then <[ip := (c, time_unix tm)]> (db_buckets (w_db w)) else db_buckets (w_db w).
Proof.
  unfold remember, abind, aret, db_call. intros Hr. destruct (tn_fault (hd quiet ts)); cbn in Hr; simplify_eq; cbn;
    by rewrite apply_changes_buckets.
Qed.

Lemma remember_opens ip T s n h w ts r w' ts' now : Window T s n h -> T <= now -> over now s n ->
  (forall c st, db_buckets (w_db w) !! ip = Some (c, st) -> now - st * SECOND > window) ->
  remember ip 1 (steady now) w ts = (r, w', ts') -> Good ip now (if r then now :: h else h) w'.
Proof.
  intros Hw Hle Ho Hrow Hr. apply remember_cases in Hr as [Ha Hb]. pose proof (Window_open T s n h now Hw Hle Ho) as Hn. destruct r.
  - exists now, 1. split; [apply (Window_pass now now 0); [done|done|unfold most; lia]|].
    split; rewrite ?Ha, ?Hb, ?lookup_insert_eq; [|intros c st [= <- <-]; by left|done]. intros c tm [= <- <-]. split; [by left|done].
  - exists now, 0. split; [done|]. split; rewrite ?Ha, ?Hb, ?lookup_insert_eq; [| |by left].
    + intros c tm [= <- <-]. split; [by left|lia].
    + intros c st Hc. right. split; [by eapply Hrow|by left].
Qed.

Lemma remember_counts ip T s n h w ts r w' ts' now c tm : Window T s n h -> Books ip T s n w -> T <= now -> begins s tm -> n <= c -> c < limit ->
  remember ip (c + 1) tm w ts = (r, w', ts') -> Good ip now (if r then now :: h else h) w'.
Proof.
  intros Hw Hk Hle Hb Hn Hc Hr. apply remember_cases in Hr as [Ha Hd]. destruct r.
  - exists s, (n + 1). split; [apply (Window_pass T); [done|done|unfold most; lia]|].
    split; rewrite ?Ha, ?Hd, ?lookup_insert_eq; [|intros ? ? [= <- <-]; left; split; [by apply begins_unix|lia]|done].
    intros ? ? [= <- <-]. split; [done|lia].
  - exists s, n. split; [by apply (Window_later T)|]. destruct (Books_later ip T now s n w Hle Hk) as [H1 H2 H3].
    split; rewrite ?Ha, ?Hd, ?lookup_insert_eq; [|done|done]. intros ? ? [= <- <-]. split; [done|lia].
Qed.

Lemma row_closed ip T s n w now c st : Books ip T s n w -> T <= now -> db_buckets (w_db w) !! ip = Some (c, st) ->
  now - s / SECOND * SECOND > window -> now - st * SECOND > window.
Proof. intros [_ H2 _] Hle Hr Hs. destruct (H2 c st Hr) as [[-> _]|[Ho _]]; lia. Qed.

Lemma closed_second s tm now : begins s tm -> s <= now -> window_closed window (steady now) tm = true -> now - s / SECOND * SECOND > window.
Proof.
  intros Hb Hs Hc. pose proof (floor_second s) as Hf. unfold window_closed in Hc. destruct Hb as [-> | ->].
  - unfold time_sub, time_before, steady, mono_delta, from_std in Hc. cbn in Hc. destruct (s <=? now) eqn:E; lia.
  - rewrite time_sub_stored in Hc. unfold time_before in Hc. cbn in Hc. lia.
Qed.

Lemma stored_closed now st : now - st * SECOND > window -> window_closed window (steady now) (stored st) = true.
Proof. intros Hc. unfold window_closed. rewrite time_sub_stored. apply orb_true_intro. left. lia. Qed.

(** An attempt of the address itself *)
Lemma attempt_cached ip T h w now ts r w' ts' s n c tm : Window T s n h -> Books ip T s n w -> T <= now ->
  w_attempts w !! ip = Some (c, tm) -> allow_login limit window ip (steady now) w ts = (r, w', ts') ->
  Good ip now (if r then now :: h else h) w'.
Proof.
  intros Hw Hk Hle Hc Hr. unfold allow_login in Hr. rewrite Hc in Hr. destruct (bk_cache ip T s n w Hk c tm Hc) as [Hb Hn].
  assert (Hs : s <= now) by (pose proof (wd_now T s n h Hw); lia). destruct (window_closed window (steady now) tm) eqn:Ec.
  - eapply (remember_opens ip T s n); try done; [by eapply closed_over|]. intros c' st Hrow.
    eapply row_closed; [done|done|exact Hrow|by eapply closed_second].
  - destruct (c >=? limit) eqn:El.
    + simplify_eq. exists s, n. split; [by apply (Window_later T)|by apply (Books_later ip T)].
    + eapply (remember_counts ip T s n); try done. lia.
Qed.

Lemma Good_frame ip T h w now w' : Good ip T h w -> T <= now -> w_attempts w' !! ip = w_attempts w !! ip ->
  db_buckets (w_db w') !! ip = db_buckets (w_db w) !! ip -> Good ip now h w'.
Proof.
  intros (s & n & Hw & Hk) Hle Ha Hb. exists s, n. split; [by apply (Window_later T)|].
  eapply Books_frame; [exact Ha|exact Hb|]. by apply (Books_later ip T).
Qed.

Lemma attempt_uncached ip T h w now ts r w' ts' s n : Window T s n h -> Books ip T s n w -> T <= now -> honest ts ->
  w_attempts w !! ip = None -> allow_login limit window ip (steady now) w ts = (r, w', ts') ->
  Good ip now (if r then now :: h else h) w'.
Proof.
  intros Hw Hk Hle Hh Hc Hr. unfold allow_login in Hr. rewrite Hc in Hr. unfold abind, db_call in Hr.
  assert (Hhd : forall e, tn_fault (hd quiet ts) = Some e -> is_no_rows e = false) by (destruct Hh; done).
  set (w1 := set_db w (apply_changes (tn_before (hd quiet ts)) (w_db w))) in *.
  assert (Hb1 : db_buckets (w_db w1) = db_buckets (w_db w)) by apply apply_changes_buckets.
  assert (Hk1 : Books ip T s n w1) by (apply (Books_frame ip T s n w); [done|by rewrite Hb1|done]).
  destruct (tn_fault (hd quiet ts)) as [e|].
  { rewrite (Hhd e eq_refl) in Hr. injection Hr as <- <- <-. exists s, n. split; [by apply (Window_later T)|by apply (Books_later ip T)]. }
  unfold get_rate_limit_bucket in Hr. fold w1 in Hr. change (db_buckets (apply_changes _ _)) with (db_buckets (w_db w1)) in Hr.
  assert (Hs : s <= now) by (pose proof (wd_now T s n h Hw); lia).
  destruct (db_buckets (w_db w1) !! ip) as [[c st]|] eqn:Erow.
  - destruct (window_closed window (steady now) (stored st)) eqn:Ec.
    + assert (Hcl : over now s n /\ now - st * SECOND > window).
      { destruct (bk_row ip T s n w1 Hk1 c st Erow) as [[-> Hn]|[Hst Ho]]; [|split; [by apply (over_later T)|lia]].
        split; [eapply closed_over; [|exact Hs|exact Ec]; by right|]. eapply (closed_second s); [by right|exact Hs|exact Ec]. }
      eapply (remember_opens ip T s n); try done; [apply Hcl|]. intros c' st' Hq. rewrite Erow in Hq. injection Hq as <- <-. apply Hcl.
    + destruct (bk_row ip T s n w1 Hk1 c st Erow) as [[-> Hn]|[Hst Ho]]; [|rewrite stored_closed in Ec by lia; done].
      destruct (c >=? limit) eqn:El; [|eapply (remember_counts ip T s n); [exact Hw|exact Hk1|done|by right|exact Hn|lia|exact Hr]].
      injection Hr as <- <- <-. exists s, n. split; [by apply (Window_later T)|]. destruct (Books_later ip T now s n w1 Hle Hk1) as [H1 H2 H3].
      split; [|done|done]. cbn. rewrite lookup_insert_eq. intros ? ? [= <- <-]. split; [by right|done].
  - eapply (remember_opens ip T s n); try done; [apply (over_later T); [done|by apply (bk_none ip T s n w1)]|].
    intros c' st' Hq. by rewrite Erow in Hq.
Qed.

(** Attempts of other addresses *)
Lemma remember_frame ip ip' c tm w ts r w' ts' : ip' <> ip -> remember ip' c tm w ts = (r, w', ts') ->
  w_attempts w' !! ip = w_attempts w !! ip /\ db_buckets (w_db w') !! ip = db_buckets (w_db w) !! ip.
Proof.
  intros Hne Hr. apply remember_cases in Hr as [-> ->]. split; [by rewrite lookup_insert_ne|]. destruct r; [by rewrite lookup_insert_ne|done].
Qed.

Lemma attempt_frame ip ip' now w ts r w' ts' : ip' <> ip -> allow_login limit window ip' now w ts = (r, w', ts') ->
  w_attempts w' !! ip = w_attempts w !! ip /\ db_buckets (w_db w') !! ip = db_buckets (w_db w) !! ip.
Proof.
  intros Hne Hr. unfold allow_login in Hr. destruct (w_attempts w !! ip') as [[c tm]|].
  - destruct (window_closed _ _ _); [by eapply remember_frame|]. destruct (c >=? limit); [by simplify_eq|by eapply remember_frame].
  - unfold abind, db_call in Hr. set (w1 := set_db w (apply_changes (tn_before (hd quiet ts)) (w_db w))) in *.
    assert (Hf : w_attempts w1 !! ip = w_attempts w !! ip /\ db_buckets (w_db w1) !! ip = db_buckets (w_db w) !! ip).
    { split; [done|]. unfold w1. cbn. by rewrite apply_changes_buckets. }
    destruct Hf as [<- <-]. destruct (tn_fault (hd quiet ts)) as [e|].
    + destruct (is_no_rows e); cbn in Hr; [by eapply remember_frame|]. by injection Hr as <- <- <-.
    + unfold get_rate_limit_bucket in Hr. fold w1 in Hr. destruct (_ !! ip') as [[c st]|]; [|change (negb (is_no_rows ErrNoRows)) with false in Hr; eapply remember_frame; [exact Hne|exact Hr]].
      destruct (window_closed _ _ _); [by eapply remember_frame|]. destruct (c >=? limit); [|by eapply remember_frame].
      injection Hr as <- <- <-. cbn. by rewrite lookup_insert_ne.
Qed.

(** Sweeps drop closed windows only. *)
Lemma forget_Good ip T h w now ts r w' ts' : Good ip T h w -> T <= now -> zone_calm now -> forget_attempts window (steady now) w ts = (r, w', ts') ->
  Good ip now h w'.
Proof.
  intros (s & n & Hw & Hk) Hle Hz Hr. exists s, n. split; [by apply (Window_later T)|]. destruct (Books_later ip T now s n w Hle Hk) as [H1 H2 H3].
  unfold forget_attempts, abind, aret, db_call in Hr.
  assert (Hc : forall c tm, w_attempts w' !! ip = Some (c, tm) -> w_attempts w !! ip = Some (c, tm)).
  { destruct (tn_fault (hd quiet ts)); cbn in Hr; simplify_eq; cbn; intros c tm Hq; by apply map_lookup_filter_Some in Hq as [Hq _]. }
  assert (Hb : db_buckets (w_db w') = db_buckets (w_db w)
    \/ db_buckets (w_db w') = filter (fun p => row_before (snd (snd p)) (time_unix (steady now)) (time_unix (time_add (steady now) (- window))) = false) (db_buckets (w_db w))).
  { destruct (tn_fault (hd quiet ts)); cbn in Hr; simplify_eq; cbn; rewrite apply_changes_buckets; [by left|by right]. }
  split; [intros c tm Hq; by apply H1, Hc| |].
  - intros c st Hq. apply H2. destruct Hb as [<-|Hb]; [done|]. rewrite Hb in Hq. by apply map_lookup_filter_Some in Hq as [Hq _].
  - intros Hq. destruct Hb as [Hb|Hb]; rewrite Hb in Hq; [by apply H3|]. apply map_lookup_filter_None in Hq as [Hq|Hq]; [by apply H3|].
    destruct (db_buckets (w_db w) !! ip) as [[c st]|] eqn:Erow; [|by apply H3]. specialize (Hq _ eq_refl). cbn in Hq.
    destruct (H2 c st eq_refl) as [[-> _]|[_ Ho]]; [|done]. right. apply not_false_is_true in Hq.
    unfold row_before, time_unix, time_add, steady in Hq. cbn [wall mono] in Hq. apply text_before_later in Hq; [|apply Hz; pose proof (wd_now T s n h Hw); lia].
    pose proof (floor_second s). unfold short, SECOND in *. pose proof (Z.mul_div_le (now + - window) 1000000000). lia.
Qed.

Lemma limiter_run_Good ip T h w : limiter_run ip T h w -> zone_calm T -> Good ip T h w.
Proof.
  intros Hr. induction Hr as [db Hdb|T h w op now ts r w' ts' Hr IH Hle Hh He]; intros Hz;
    [|destruct IH as (s & n & Hw & Hk); [intros a b Ha Hb; apply Hz; lia|]].
  - exists T0, 0. split.
    + split; try done; [by intros t Ht; apply elem_of_nil in Ht|unfold most; lia|intros a; cbn; unfold most; lia|intros; cbn; unfold most; lia].
    + split; cbn; [done|by intros c st; rewrite Hdb|by left].
  - destruct op as [ip'| |]; cbn [limiter_exec] in He.
    + destruct (bool_decide (ip' = ip)) eqn:Ei; rewrite ?andb_true_r, ?andb_false_r.
      * apply bool_decide_eq_true in Ei as ->. destruct (w_attempts w !! ip) as [[c tm]|] eqn:Ec;
          [by eapply attempt_cached|by eapply attempt_uncached].
      * apply bool_decide_eq_false in Ei. destruct (attempt_frame ip ip' _ _ _ _ _ _ Ei He). apply (Good_frame ip T h w); [by exists s, n|done..].
    + unfold amap, abind, aret in He. destruct (forget_attempts window (steady now) w ts) as [[u w1] ts1] eqn:Ef. simplify_eq.
      eapply forget_Good; [by exists s, n|done|done|exact Ef].
    + cbn in He. injection He as <- <- <-. exists s, n. split; [by apply (Window_later T)|]. destruct (Books_later ip T now s n w Hle Hk) as [H1 H2 H3].
      split; [|done|done]. intros c tm Hq. cbn in Hq. by rewrite lookup_empty in Hq.
Qed.
End Limits.

(** C24: However login attempts, failing database calls, sweeps, credential
    changes and restarts of the daemon are interleaved, in any period one
    second shorter than the window the limiter lets at most twice its limit
    of attempts of one address through, as long as the clock is never stepped
    (the wall clock advances with the monotonic one) and the local offset from
    UTC does not move forward.  Where it does, as at the start of daylight
    saving, a sweep compares local times as text and takes open windows away
    ([open_window_swept]). *)
Theorem login_attempts_bounded {LZ : LocalZone} (limit window T0 : Z) (ip : string) (T : Z) (h : list Z) (w : AuthWorld) (a : Z) :
  0 <= window < i64_max -> zone_calm T0 T -> limiter_run limit window T0 ip T h w ->
  passed a (a + (window - SECOND)) h <= 2 * Z.max 1 limit.
Proof.
  intros Hwin Hz Hr. destruct (limiter_run_Good limit window T0 Hwin ip T h w Hr Hz) as (s & n & Hw & _).
  apply (wd_period limit window T0 T s n h Hw).
Qed.
