(* ===== verification/AuthSecrets.v ===== *)
(** * Secrets that read back: TOTP keys, one-time codes, password hashes *)

From Stdlib Require Import ZArith Ascii String Lia Bool.
From stdpp Require Import base list strings gmap.
From S2P Require Import Prelude GoStrings Net NetSpec GoTime Json Model Validation Policy Firmware FirmwareSpec Auth.

Local Open Scope string_scope.
Local Open Scope Z_scope.
Local Open Scope list_scope.

(** ** Base32 *)
Lemma base32_position v : 0 <= v < 32 -> position (base32_char v) BASE32 = Some v.
Proof.
  intros Hv. assert (Hall : forallb (fun v => bool_decide (position (base32_char v) BASE32 = Some v)) (map Z.of_nat (seq 0 32)) = true) by (vm_compute; done).
  rewrite forallb_forall in Hall. eapply bool_decide_eq_true_1, Hall. apply in_map_iff. exists (Z.to_nat v). split; [lia|].
  apply in_seq. lia.
Qed.
Lemma base32_plain v : 0 <= v < 32 -> Ascii.eqb (base32_char v) "="%char = false /\ negb ((bv (base32_char v) =? 13) || (bv (base32_char v) =? 10)) = true.
Proof.
  intros Hv. assert (Hall : forallb (fun v => negb (Ascii.eqb (base32_char v) "="%char) && negb ((bv (base32_char v) =? 13) || (bv (base32_char v) =? 10)))
    (map Z.of_nat (seq 0 32)) = true) by (vm_compute; done).
  rewrite forallb_forall in Hall. specialize (Hall v). rewrite andb_true_iff, negb_true_iff in Hall. apply Hall.
  apply in_map_iff. exists (Z.to_nat v). split; [lia|]. apply in_seq. lia.
Qed.

(** Five more bits *)
Lemma next_five B k : 0 <= k -> Z.lor (Z.shiftl (Z.shiftr B (k + 5)) (k + 5)) (Z.shiftl (Z.land (Z.shiftr B k) 31) k) = Z.shiftl (Z.shiftr B k) k.
Proof.
  intros Hk. apply Z.bits_inj'. intros n Hn. change 31 with (Z.ones 5). rewrite Z.lor_spec, !Z.shiftl_spec by lia.
  destruct (Z.lt_ge_cases n k).
  { by rewrite !(Z.testbit_neg_r _ (n - _)) by lia. }
  rewrite Z.land_spec. rewrite (Z.shiftr_spec B k (n - k)) by lia. replace (n - k + k) with n by lia.
  destruct (Z.lt_ge_cases n (k + 5)).
  - rewrite Z.testbit_neg_r by lia. rewrite Z.ones_spec_low by lia. by rewrite andb_true_r.
  - rewrite Z.shiftr_spec by lia. replace (n - (k + 5) + (k + 5)) with n by lia. rewrite Z.ones_spec_high by lia. by rewrite andb_false_r, orb_false_r.
Qed.

Definition five (B i : Z) : Z := Z.land (Z.shiftr B (35 - i * 5)) 31.
Lemma five_range B i : 0 <= five B i < 32.
Proof. unfold five. change 31 with (Z.ones 5). rewrite Z.land_ones by lia. apply Z.mod_pos_bound. lia. Qed.

Lemma quantum_bits_five B (m : nat) : forall i, 0 <= i -> i + Z.of_nat m <= 8 ->
  quantum_bits i (Z.shiftl (Z.shiftr B (40 - i * 5)) (40 - i * 5)) (map (fun j => base32_char (five B j)) (seqZ i (Z.of_nat m)))
  = Some (Z.shiftl (Z.shiftr B (40 - (i + Z.of_nat m) * 5)) (40 - (i + Z.of_nat m) * 5)).
Proof.
  induction m as [|m IH]; intros i Hi Hm; [by rewrite Nat2Z.inj_0, Z.add_0_r|].
  rewrite seqZ_cons by lia. cbn [map quantum_bits]. rewrite base32_position by apply five_range. cbv beta iota.
  replace (40 - i * 5) with (35 - i * 5 + 5) by lia. unfold five at 1. rewrite next_five by lia.
  replace (35 - i * 5) with (40 - (i + 1) * 5) by lia. replace (Z.pred (Z.of_nat (S m))) with (Z.of_nat m) by lia.
  change (Z.succ i) with (i + 1). rewrite IH by lia. by replace (i + 1 + Z.of_nat m) with (i + Z.of_nat (S m)) by lia.
Qed.

(** One chunk *)
Lemma chunk_text B (m : nat) : (m <= 8)%nat ->
  map (fun i => if i <? Z.of_nat m then base32_char (five B i) else "="%char) [0; 1; 2; 3; 4; 5; 6; 7]
  = map (fun j => base32_char (five B j)) (seqZ 0 (Z.of_nat m)) ++ repeat "="%char (8 - m).
Proof. intros Hm. do 9 (destruct m as [|m]; [reflexivity|]). lia. Qed.

Lemma take_while_pads x k : forallb (fun a => negb (Ascii.eqb a "="%char)) x = true ->
  List.length (take_while (fun b => Ascii.eqb b "="%char) (rev (x ++ repeat "="%char k))) = k.
Proof.
  intros Hx. rewrite rev_app_distr, rev_repeat. induction k as [|k IH]; [|cbn; by rewrite IH]. cbn.
  destruct (rev x) as [|a l] eqn:E; [done|]. cbn. rewrite forallb_forall in Hx.
  assert (Ha : In a x) by (apply in_rev; rewrite E; by left). specialize (Hx a Ha). by destruct (Ascii.eqb a "="%char).
Qed.

Lemma fives_plain B l : forallb (fun a => negb (Ascii.eqb a "="%char)) (map (fun j => base32_char (five B j)) l) = true.
Proof.
  rewrite forallb_forall. intros a Ha. apply in_map_iff in Ha as (j & <- & _). by destruct (base32_plain (five B j) (five_range B j)) as [-> _].
Qed.

(** The bits of a chunk survive when the characters cover them. *)
Lemma decode_fives last B (m n : nat) : (m <= 8)%nat -> data_bytes m = Some n -> (m = 8%nat \/ last = true) ->
  0 <= B < 2 ^ 40 -> B mod 2 ^ (40 - Z.of_nat m * 5) = 0 ->
  decode_quantum last (map (fun j => base32_char (five B j)) (seqZ 0 (Z.of_nat m)) ++ repeat "="%char (8 - m)) = Some (be_tail B n).
Proof.
  intros Hm Hn Hlast HB Hz. unfold decode_quantum. rewrite take_while_pads by apply fives_plain.
  replace (Nat.ltb 0 (8 - m) && negb last) with false by (destruct Hlast as [->| ->]; [done|by rewrite andb_false_r]).
  replace (8 - (8 - m))%nat with m by lia. rewrite Hn.
  rewrite take_app_length' by (rewrite length_map, length_seqZ; lia).
  pose proof (quantum_bits_five B m 0 ltac:(lia) ltac:(lia)) as Hq. rewrite Z.mul_0_l, Z.sub_0_r, Z.add_0_l in Hq.
  rewrite (Z.shiftr_div_pow2 B 40), Z.div_small, Z.shiftl_0_l in Hq by lia. rewrite Hq. do 2 f_equal.
  rewrite Z.shiftl_mul_pow2, Z.shiftr_div_pow2 by lia. pose proof (Z.div_mod B (2 ^ (40 - Z.of_nat m * 5)) ltac:(lia)). lia.
Qed.

(** ** Chunks *)
Lemma be_five a b c d e : be [a; b; c; d; e] = a * 2 ^ 32 + b * 2 ^ 24 + c * 2 ^ 16 + d * 2 ^ 8 + e.
Proof. unfold be. cbn [fold_left]. lia. Qed.

Lemma be_tail_five a b c d e : Forall (fun x => 0 <= x < 256) [a; b; c; d; e] ->
  be_tail (be [a; b; c; d; e]) 5 = [a; b; c; d; e].
Proof.
  rewrite !Forall_cons. intros (Ha & Hb & Hc & Hd & He & _). rewrite be_five. unfold be_tail. cbn [map take]. change 255 with (Z.ones 8).
  rewrite !Z.land_ones, !Z.shiftr_div_pow2 by lia. repeat f_equal; Z.to_euclidean_division_equations; lia.
Qed.

Lemma be_tail_take B n : (n <= 5)%nat -> be_tail B n = take n (be_tail B 5).
Proof. intros Hn. unfold be_tail. rewrite take_take. by replace (n `min` 5)%nat with n by lia. Qed.

(** [m] characters carry the chunk's bytes and some zero bits. *)
Lemma encode_decode_five last (m n : nat) a b c d e : Forall (fun x => 0 <= x < 256) [a; b; c; d; e] -> (m <= 8)%nat -> (n <= 5)%nat ->
  data_bytes m = Some n -> (m = 8%nat \/ last = true) -> be [a; b; c; d; e] mod 2 ^ (40 - Z.of_nat m * 5) = 0 ->
  decode_quantum last (map (fun i => if i <? Z.of_nat m then base32_char (five (be [a; b; c; d; e]) i) else "="%char) [0; 1; 2; 3; 4; 5; 6; 7])
  = Some (take n [a; b; c; d; e]).
Proof.
  intros Hall Hm Hn Hd Hl Hz. rewrite chunk_text by done. rewrite (decode_fives last _ m n) by (try done; rewrite be_five; rewrite !Forall_cons in Hall; lia).
  by rewrite be_tail_take, be_tail_five.
Qed.

Lemma encode_chunk_decodes last chunk : (0 < List.length chunk <= 5)%nat -> Forall (fun x => 0 <= x < 256) chunk ->
  (List.length chunk = 5%nat \/ last = true) -> decode_quantum last (encode_chunk chunk) = Some chunk.
Proof.
  intros Hlen Hb Hl. destruct chunk as [|a [|b [|c [|d [|e [|f l]]]]]]; cbn in Hlen; try lia; rewrite !Forall_cons in Hb.
  - apply (encode_decode_five last 2 1); try lia; try done; [repeat constructor; lia|naive_solver|].
    rewrite be_five. replace (_ + 0) with (a * 4 * 2 ^ 30) by lia. by apply Z.mod_mul.
  - apply (encode_decode_five last 4 2); try lia; try done; [repeat constructor; lia|naive_solver|].
    rewrite be_five. replace (_ + 0) with ((a * 2 ^ 12 + b * 2 ^ 4) * 2 ^ 20) by lia. by apply Z.mod_mul.
  - apply (encode_decode_five last 5 3); try lia; try done; [repeat constructor; lia|naive_solver|].
    rewrite be_five. replace (_ + 0) with ((a * 2 ^ 17 + b * 2 ^ 9 + c * 2) * 2 ^ 15) by lia. by apply Z.mod_mul.
  - apply (encode_decode_five last 7 4); try lia; try done; [repeat constructor; lia|naive_solver|].
    rewrite be_five. replace (_ + 0) with ((a * 2 ^ 27 + b * 2 ^ 19 + c * 2 ^ 11 + d * 8) * 2 ^ 5) by lia. by apply Z.mod_mul.
  - apply (encode_decode_five last 8 5); try lia; try done; [repeat constructor; lia|]. apply Z.mod_1_r.
Qed.

Lemma chunks_cons {A} (k n : nat) (x : list A) (l : list A) : (0 < n)%nat -> List.length x = n -> chunks (S k) n (x ++ l) = x :: chunks k n l.
Proof.
  intros Hn Hx. cbn [chunks]. destruct (x ++ l) as [|y t] eqn:E; [apply (f_equal (@List.length A)) in E; rewrite length_app in E; cbn in E; lia|].
  rewrite <- E. by rewrite take_app_length', drop_app_length'.
Qed.

Lemma length_encode_chunk chunk : List.length (encode_chunk chunk) = 8%nat.
Proof. done. Qed.

(** Decoding the chunks of an encoding *)
Lemma decode_encoded (k : nat) : forall data k', (List.length data <= k)%nat -> Forall (fun x => 0 <= x < 256) data ->
  (List.length (concat (map encode_chunk (chunks k 5 data))) <= k')%nat ->
  decode_quanta (chunks k' 8 (concat (map encode_chunk (chunks k 5 data)))) = Some data.
Proof.
  induction k as [|k IH]; intros data k' Hk Hall Hk'; [destruct data; [by destruct k'|cbn in Hk; lia]|].
  destruct data as [|a t] eqn:Ed; [by destruct k'|]. rewrite <- Ed in *. assert (Hne : (0 < List.length data)%nat) by (subst data; cbn; lia).
  assert (Hch : chunks (S k) 5 data = take 5 data :: chunks k 5 (drop 5 data)) by (subst data; done). clear Ed.
  rewrite Hch in *. cbn [map concat] in *. rewrite length_app, length_encode_chunk in Hk'. destruct k' as [|k']; [lia|].
  rewrite chunks_cons by (rewrite ?length_encode_chunk; lia). cbn [decode_quanta].
  assert (Hlt : List.length (take 5 data) = Nat.min 5 (List.length data)) by apply length_take.
  rewrite encode_chunk_decodes; [|lia|by apply Forall_take|].
  2: { destruct (Nat.le_gt_cases 5 (List.length data)); [left; lia|right].
       rewrite (drop_ge data) by lia. destruct k; by destruct k'. }
  rewrite IH; [|rewrite length_drop; lia|by apply Forall_drop|lia]. cbn. by rewrite take_drop.
Qed.

(** The alphabet with its padding *)
Definition base32_text (a : ascii) : bool := is_ascii_upper a || is_ascii_digit a || Ascii.eqb a "="%char.
Lemma base32_char_text v : 0 <= v < 32 -> base32_text (base32_char v) = true.
Proof.
  intros Hv. assert (Hall : forallb (fun v => base32_text (base32_char v)) (map Z.of_nat (seq 0 32)) = true) by (vm_compute; done).
  rewrite forallb_forall in Hall. apply Hall. apply in_map_iff. exists (Z.to_nat v). split; [lia|]. apply in_seq. lia.
Qed.
Lemma encode_text k data : forallb base32_text (concat (map encode_chunk (chunks k 5 data))) = true.
Proof.
  rewrite forallb_forall. intros a Ha. apply in_concat in Ha as (x & Hx & Ha). apply in_map_iff in Hx as (c & <- & _).
  unfold encode_chunk in Ha. apply in_map_iff in Ha as (i & <- & _). destruct (_ <? _); [|done]. apply base32_char_text, five_range.
Qed.
Lemma forallb_filter_id {A} (p q : A -> bool) l : (forall a, p a = true -> q a = true) -> forallb p l = true -> List.filter q l = l.
Proof. intros Hpq. induction l as [|a l IH]; [done|]. cbn. intros Ha. apply andb_prop in Ha as [Ha Hl]. by rewrite (Hpq a Ha), IH. Qed.

Lemma length_encoded k data : (List.length (concat (map encode_chunk (chunks k 5 data))) = 8 * List.length (chunks k 5 data))%nat.
Proof. induction (chunks k 5 data) as [|c l IH]; [done|]. cbn [map concat]. rewrite length_app, length_encode_chunk, IH. cbn. lia. Qed.

Lemma base32_decode_encode data : Forall (fun x => 0 <= x < 256) data -> base32_decode (base32_encode data) = Some data.
Proof.
  intros Hall. unfold base32_decode, base32_encode, strip_newlines. rewrite bytes_of_str_of.
  rewrite (forallb_filter_id base32_text); [|intros a Ha; unfold base32_text, is_ascii_upper, is_ascii_digit in Ha|apply encode_text].
  - rewrite length_encoded, Nat.mul_comm, Nat.Div0.mod_mul. cbn [Nat.eqb negb]. by apply decode_encoded; [|done|rewrite length_encoded; lia].
  - apply negb_true_iff, orb_false_iff. destruct (Ascii.eqb a "="%char) eqn:E; [apply Ascii.eqb_eq in E; subst a; done|]. lia.
Qed.

(** ** One-time codes *)
Lemma base32_canonical `{Unicode} l : forallb base32_text l = true -> to_upper (spaces_removed (str_of l)) = str_of l.
Proof.
  intros Hl. unfold spaces_removed. rewrite bytes_of_str_of, (forallb_filter_id base32_text); [|intros a Ha|done].
  - unfold to_upper, is_ascii_str. rewrite bytes_of_str_of. assert (Hascii : forallb (fun a => bv a <? 128) l = true).
    { rewrite forallb_forall in *. intros a Ha. specialize (Hl a Ha). unfold base32_text, is_ascii_upper, is_ascii_digit in Hl.
      destruct (Ascii.eqb a "="%char) eqn:E; [apply Ascii.eqb_eq in E; by subst a|lia]. }
    rewrite Hascii. f_equal. induction l as [|a l IH]; [done|]. cbn in Hl, Hascii. to_prop. cbn [map]. f_equal; [|by apply IH].
    unfold to_ascii_upper, is_ascii_lower. unfold base32_text, is_ascii_upper, is_ascii_digit in *.
    destruct ((97 <=? bv a) && (bv a <=? 122)) eqn:E; [|done]. destruct (Ascii.eqb a "="%char) eqn:E2; [apply Ascii.eqb_eq in E2; by subst a|lia].
  - unfold base32_text, is_ascii_upper, is_ascii_digit in Ha. destruct (Ascii.eqb_spec a " "%char) as [E|_]; [subst a; done|done].
Qed.

Lemma chars_ascii l : forallb (fun a => bv a <? 128) l = true -> chars_of l = map bv l /\ concat (map encode_char (map bv l)) = l.
Proof.
  induction l as [|a l IH]; [done|]. cbn. intros Hl. apply andb_prop in Hl as [Ha Hl]. destruct (IH Hl) as [-> IH2]. rewrite Ha. split; [done|].
  rewrite IH2. unfold encode_char. rewrite Ha. cbn. by rewrite byte_of_bv.
Qed.

Lemma trim_plain l : forallb (fun a => (bv a <? 128) && negb (char_is_whitespace (bv a))) l = true -> trim (str_of l) = str_of l.
Proof.
  intros Hl. assert (Hascii : forallb (fun a => bv a <? 128) l = true) by (rewrite forallb_forall in *; intros a Ha; specialize (Hl a Ha); lia).
  destruct (chars_ascii l Hascii) as [Hc He]. unfold trim, chars. rewrite bytes_of_str_of, Hc.
  assert (Hw : forall k, forallb (fun c => negb (char_is_whitespace c)) k = true -> drop_while char_is_whitespace k = k).
  { intros [|c k] Hk; [done|]. cbn in *. by destruct (char_is_whitespace c). }
  assert (Hb : forallb (fun c => negb (char_is_whitespace c)) (map bv l) = true).
  { rewrite forallb_forall in *. intros c Hin. apply in_map_iff in Hin as (a & <- & Ha). specialize (Hl a Ha). by destruct (_ <? _). }
  rewrite (Hw (map bv l) Hb). rewrite Hw; [|rewrite forallb_forall in *; intros c Hin; apply Hb; by apply in_rev]. rewrite rev_involutive.
  unfold of_chars. by rewrite He.
Qed.

Lemma show_digits_length fuel (k : nat) : forall n, 0 <= n < 10 ^ Z.of_nat (S k) -> (List.length (show_digits fuel n) <= S k)%nat.
Proof.
  revert k. induction fuel as [|fuel IH]; intros k n Hn; [cbn; lia|]. cbn [show_digits]. destruct (n <? 10) eqn:E; [cbn; lia|].
  rewrite length_app. cbn [List.length]. destruct k as [|k]; [change (10 ^ Z.of_nat 1) with 10 in Hn; lia|].
  assert (Hq : 0 <= n / 10 < 10 ^ Z.of_nat (S k)).
  { split; [apply Z.div_pos; lia|]. apply Z.div_lt_upper_bound; [lia|]. rewrite (Nat2Z.inj_succ (S k)), Z.pow_succ_r in Hn by lia. lia. }
  specialize (IH k (n / 10) Hq). lia.
Qed.

Lemma six_digits_ok n : 0 <= n < 1000000 -> str_len (six_digits n) = 6 /\ trim (six_digits n) = six_digits n.
Proof.
  intros Hn. unfold six_digits. pose proof (show_digits_length (S (Z.to_nat (Z.log2 n))) 5 n Hn) as Hl. fold (show_nonneg n) in Hl. split.
  - unfold str_len. rewrite <- (length_bytes_of _), bytes_of_str_of, length_app, repeat_length. lia.
  - apply trim_plain. rewrite forallb_app. apply andb_true_intro. split.
    + rewrite forallb_forall. intros a Ha. apply repeat_spec in Ha as ->. done.
    + pose proof (show_nonneg_digits n ltac:(lia)) as Hd. rewrite forallb_forall in *. intros a Ha. specialize (Hd a Ha).
      unfold is_ascii_digit, char_is_whitespace in *. lia.
Qed.

Lemma code_counter now t : Z.abs (now - t) <= TOTP_PERIOD -> In (t / TOTP_PERIOD - now / TOTP_PERIOD) [-1; 0; 1].
Proof.
  unfold TOTP_PERIOD. intros Hd. assert (Hr : -1 <= t / 30 - now / 30 <= 1) by (Z.to_euclidean_division_equations; lia).
  cbn. assert (t / 30 - now / 30 = -1 \/ t / 30 - now / 30 = 0 \/ t / 30 - now / 30 = 1) by lia. intuition.
Qed.

Lemma canonical_secret `{Unicode} data code : Forall (fun x => 0 <= x < 256) data ->
  canonical_totp_inputs (base32_encode data) code = (base32_encode data, trim code).
Proof.
  intros Hd. unfold canonical_totp_inputs. replace (to_upper (spaces_removed (base32_encode data))) with (base32_encode data)
    by (symmetry; apply base32_canonical, encode_text). by rewrite base32_decode_encode.
Qed.

(** A TOTP secret shown to the administrator in base32 is the secret the
    codes are checked with: the code an authenticator computes from it at any
    time within thirty seconds of the router's clock, before or after 1970 and
    around the border of a period, is accepted. *)
Theorem current_code_accepted `{Unicode, HmacSha1} (key : list Z) (now t : Z) :
  Forall (fun x => 0 <= x < 256) key -> Z.abs (now - t) <= TOTP_PERIOD ->
  validate_totp_at (base32_encode key) (compute_totp key (t / TOTP_PERIOD)) now = true.
Proof.
  intros Hk Hd. unfold validate_totp_at. rewrite canonical_secret by done.
  assert (Hc : str_len (compute_totp key (t / TOTP_PERIOD)) = 6 /\ trim (compute_totp key (t / TOTP_PERIOD)) = compute_totp key (t / TOTP_PERIOD))
    by (apply six_digits_ok, Z.mod_pos_bound; lia).
  destruct Hc as [Hl ->]. rewrite Hl. cbn [negb Z.eqb TOTP_DIGITS]. rewrite base32_decode_encode by done.
  apply existsb_exists. exists (t / TOTP_PERIOD - now / TOTP_PERIOD). split; [by apply code_counter|].
  replace (now / TOTP_PERIOD + (t / TOTP_PERIOD - now / TOTP_PERIOD)) with (t / TOTP_PERIOD) by lia. apply String.eqb_refl.
Qed.

(** ** Passwords *)
Section Passwords.
Context `{Argon2, RawBase64}.

(** What the code relies on of the base64 engine *)
Record Base64Laws : Prop := {
  b64_reads l : Forall (fun x => 0 <= x < 256) l -> b64_decode (b64_encode l) = Some l;
  b64_text l : forallb (fun a => negb (Ascii.eqb a "$"%char) && negb ((bv a =? 13) || (bv a =? 10))) (bytes_of (b64_encode l)) = true;
  b64_length l : str_len (b64_encode l) <= 2 * Z.of_nat (List.length l) + 2;
}.
Context (Hb64 : Base64Laws).

Lemma raw_decode_encode l : Forall (fun x => 0 <= x < 256) l -> raw_std_decode (b64_encode l) = Some l.
Proof.
  intros Hl. unfold raw_std_decode, strip_newlines.
  rewrite (forallb_filter_id (fun a => negb (Ascii.eqb a "$"%char) && negb ((bv a =? 13) || (bv a =? 10))));
    [rewrite str_of_bytes_of; by apply b64_reads|by intros a Ha; apply andb_prop in Ha as [_ Ha]|by apply b64_text].
Qed.

Definition argon2_prefix : list string := [""; "argon2id"; "v=19"; "m=65536,t=3,p=2"].
Definition encoded (salt hash : list Z) : string := "$argon2id$v=19$m=65536,t=3,p=2$" +:+ b64_encode salt +:+ "$" +:+ b64_encode hash.

Lemma split_encoded salt hash : split "$"%char (encoded salt hash) = argon2_prefix ++ [b64_encode salt; b64_encode hash].
Proof.
  unfold split. replace (bytes_of (encoded salt hash))
    with (intercalate "$"%char (map bytes_of (argon2_prefix ++ [b64_encode salt; b64_encode hash]))).
  - rewrite split_intercalate; [|done|].
    + rewrite map_map. erewrite map_ext; [apply map_id|]. intros s. apply str_of_bytes_of.
    + assert (Ht : forall l, forallb (fun a => negb (Ascii.eqb a "$"%char)) (bytes_of (b64_encode l)) = true).
      { intros l. pose proof (b64_text Hb64 l) as Hl. rewrite forallb_forall in *. intros a Ha. specialize (Hl a Ha). by apply andb_prop in Hl as [Hl _]. }
      repeat constructor; try done; apply Ht.
  - unfold encoded. rewrite !bytes_of_app. reflexivity.
Qed.

Lemma hash_password_encoded p salt hash : 12 <= Z.of_nat (List.length (chars p)) -> str_len p <= 1024 ->
  argon2_id (bytes_of p) salt ARGON_ITERATIONS ARGON_MEMORY ARGON_PARALLELISM ARGON_KEY_LEN = Ok hash ->
  hash_password p (Ok salt) (Ok tt) = Ok (encoded salt hash).
Proof.
  intros Hl Hm Ha. unfold hash_password. destruct (Z.ltb_spec (Z.of_nat (List.length (chars p))) 12); [lia|].
  destruct (Z.ltb_spec 1024 (str_len p)); [lia|]. cbn [map_err]. rewrite Ha. reflexivity.
Qed.

Lemma verify_encoded p' salt hash : Forall (fun x => 0 <= x < 256) salt -> Forall (fun x => 0 <= x < 256) hash ->
  List.length salt = 16%nat -> List.length hash = 32%nat -> str_len p' <= 1024 ->
  verify_password p' (encoded salt hash) (Ok tt) =
    match argon2_id (bytes_of p') salt ARGON_ITERATIONS ARGON_MEMORY ARGON_PARALLELISM ARGON_KEY_LEN with
    | Ok other => Ok (bool_decide (hash = other))
    | Err e => Err e
    end.
Proof.
  intros Hs Hh Hls Hlh Hp. unfold verify_password.
  assert (Hlen : str_len (encoded salt hash) <= 512).
  { unfold encoded, str_len. rewrite <- length_bytes_of, !bytes_of_app, !length_app, !length_bytes_of, !Nat2Z.inj_add. pose proof (b64_length Hb64 salt). pose proof (b64_length Hb64 hash).
    unfold str_len in *. cbn [String.length]. lia. }
  destruct (Z.ltb_spec 1024 (str_len p')); [lia|]. destruct (Z.ltb_spec 512 (str_len (encoded salt hash))); [lia|]. cbn [orb].
  rewrite split_encoded. cbn [argon2_prefix app]. change (scan_field _ "v=19" "v") with (Some 19).
  change (split ","%char "m=65536,t=3,p=2") with ["m=65536"; "t=3"; "p=2"].
  cbn [or_invalid]. change (negb (19 =? ARGON_VERSION)) with false. cbv beta iota.
  change (scan_field _ "m=65536" "m") with (Some 65536). change (scan_field _ "t=3" "t") with (Some 3).
  change (scan_field _ "p=2" "p") with (Some 2). cbn [or_invalid].
  change (negb (within (16 * 1024) (256 * 1024) 65536) || negb (within 1 10 3) || negb (within 1 8 2)) with false.
  rewrite !raw_decode_encode by done. cbn [or_invalid]. rewrite Hls, Hlh. reflexivity.
Qed.
End Passwords.

(** A password hash verifies exactly the passwords whose Argon2id key under
    the stored salt is the stored key, in particular the password it was made
    from: the encoded parameters, salt and key are read back as they were
    written and pass the limits of the verifier. *)
Theorem password_hash_verifies `{Argon2, RawBase64} (p p' : string) (salt hash : list Z) :
  Base64Laws -> 12 <= Z.of_nat (List.length (chars p)) -> str_len p <= 1024 -> str_len p' <= 1024 ->
  Forall (fun x => 0 <= x < 256) salt -> List.length salt = Z.to_nat ARGON_SALT_LEN ->
  Forall (fun x => 0 <= x < 256) hash -> List.length hash = Z.to_nat ARGON_KEY_LEN ->
  argon2_id (bytes_of p) salt ARGON_ITERATIONS ARGON_MEMORY ARGON_PARALLELISM ARGON_KEY_LEN = Ok hash ->
  exists text, hash_password p (Ok salt) (Ok tt) = Ok text
    /\ verify_password p text (Ok tt) = Ok true
    /\ (verify_password p' text (Ok tt) = Ok true
        <-> argon2_id (bytes_of p') salt ARGON_ITERATIONS ARGON_MEMORY ARGON_PARALLELISM ARGON_KEY_LEN = Ok hash).
Proof.
  intros Hb Hmin Hmax Hmax' Hs Hls Hh Hlh Ha. exists (encoded salt hash). split; [by apply hash_password_encoded|].
  rewrite !verify_encoded by done. rewrite Ha. split; [by rewrite bool_decide_true|].
  destruct (argon2_id (bytes_of p') _ _ _ _ _) as [other|e]; [|naive_solver]. case_bool_decide; naive_solver.
Qed.
