(* ===== verification/AuthRuns.v ===== *)
(** * Runs of the session manager and the login limiter *)

From Stdlib Require Import ZArith Ascii String Lia Bool.
From stdpp Require Import base list strings gmap.
From S2P Require Import Prelude GoStrings Net NetSpec GoTime Json Model Validation Policy Firmware FirmwareSpec Auth AuthStore AuthSpec AuthLimit AuthSecrets.

Local Open Scope string_scope.
Local Open Scope Z_scope.
Local Open Scope list_scope.

#[local] Existing Instance ascii_tables.

(** ** Stand-ins for the cryptographic functions *)
Module ToyCrypto.
#[export] Instance sha : Sha256 := fun l => map bv l.
#[export] Instance hmac : HmacSha1 := fun key msg => map (fun i => (i * 37 + fold_left Z.add (key ++ msg) 0) mod 256) (map Z.of_nat (seq 0 20)).
#[export] Instance argon : Argon2 := fun p salt _ _ _ n => Ok (map (fun i => (fold_left Z.add (map bv p ++ salt) 0 + i) mod 256) (map Z.of_nat (seq 0 (Z.to_nat n)))).
#[export] Instance hex : RawBase64 := {| b64_encode l := hex_encode (map (fun b => b mod 256) l); b64_decode s := hex_decode (bytes_of s) |}.
(** A router on UTC *)
#[export] Instance utc : LocalZone := fun _ => 0.
End ToyCrypto.
Import ToyCrypto.

Lemma hex_digit_text v : 0 <= v < 16 -> negb (Ascii.eqb (hex_digit v) "$"%char) && negb ((bv (hex_digit v) =? 13) || (bv (hex_digit v) =? 10)) = true.
Proof.
  intros Hv. assert (Hall : forallb (fun v => negb (Ascii.eqb (hex_digit v) "$"%char) && negb ((bv (hex_digit v) =? 13) || (bv (hex_digit v) =? 10)))
    (map Z.of_nat (seq 0 16)) = true) by (vm_compute; done).
  rewrite forallb_forall in Hall. apply Hall, in_map_iff. exists (Z.to_nat v). split; [lia|]. apply in_seq. lia.
Qed.

Lemma toy_base64 : Base64Laws.
Proof.
  split.
  - intros l Hl. cbn. replace (map (fun b => b mod 256) l) with l; [by apply hex_encode_decode|].
    induction Hl as [|x l Hx _ IH]; [done|]. cbn. rewrite Z.mod_small by lia. by rewrite <- IH.
  - intros l. cbn. unfold hex_encode. rewrite bytes_of_str_of, map_map, forallb_forall. intros a Ha.
    apply in_concat in Ha as (x & Hx & Ha). apply in_map_iff in Hx as (b & <- & _). pose proof (Z.mod_pos_bound b 256 ltac:(lia)).
    destruct Ha as [<-|[<-|[]]]; apply hex_digit_text; [split; [apply Z.div_pos; lia|apply Z.div_lt_upper_bound; lia]|apply Z.mod_pos_bound; lia].
  - intros l. cbn. unfold str_len, hex_encode. rewrite <- length_bytes_of, bytes_of_str_of, map_map.
    induction l as [|b l IH]; [done|]. cbn [map concat]. rewrite length_app. cbn [show_hex2 List.length] in *. lia.
Qed.

(** ** Scripts *)
Definition Script := list (Z * SessionOp * list Turn).
Fixpoint play_sessions `{Sha256} {LZ : LocalZone} (h : list Event) (w : AuthWorld) (script : Script) : list Event * AuthWorld :=
  match script with
  | [] => (h, w)
  | (now, op, ts) :: rest => let '(a, w', _) := exec op (steady now) w ts in play_sessions (mkEvent now op a :: h) w' rest
  end.
Fixpoint proper (tokens : list string) (T : Z) (script : Script) : bool :=
  match script with
  | [] => true
  | (now, op, _) :: rest =>
      (T <=? now) && match op_token op with Some id => bool_decide (id ∈ tokens) | None => true end && proper tokens now rest
  end.

Lemma play_run `{Sha256} {LZ : LocalZone} tokens T0 script : forall h w, session_run tokens T0 h w -> proper tokens (last_time T0 h) script = true ->
  session_run tokens T0 (fst (play_sessions h w script)) (snd (play_sessions h w script)).
Proof.
  induction script as [|[[now op] ts] rest IH]; intros h w Hr Hp; [done|]. cbn in Hp. apply andb_prop in Hp as [Hp Hrest]. apply andb_prop in Hp as [Hle Hop].
  cbn [play_sessions]. destruct (exec op (steady now) w ts) as [[a w'] ts'] eqn:Ee. apply IH; [|done].
  eapply run_step; [done| |lia|done]. intros id Hid. rewrite Hid in Hop. by apply bool_decide_eq_true in Hop.
Qed.

Definition tokens : list string := ["a1"; "b2"].
Lemma tokens_distinct : distinct_keys tokens.
Proof.
  intros a b Ha Hb. unfold tokens in *. rewrite !elem_of_cons, elem_of_nil in Ha, Hb.
  destruct Ha as [->|[->|[]]], Hb as [->|[->|[]]]; vm_compute; congruence.
Qed.

Definition credentials : AuthDb := mkDb (Some (mkCredentials "hash" 1 None)) ∅ ∅.
Definition fault : Turn := mkTurn [] (Some (Errorf "database is locked")).
(** Two logins; one session is used, survives a restart and a failed write, the other is left alone. *)
Definition morning : Script :=
  [(0, Issue false (Some "a1") (Some "c1"), []); (MINUTE, IssueFor true 1 (Ok "b2") (Ok "c2"), []);
   (20 * MINUTE, Validate "a1", [quiet; fault]); (25 * MINUTE, Validate "a1", []); (26 * MINUTE, Restart, []); (40 * MINUTE, Sweep, [])].
Definition after_morning : list Event * AuthWorld := play_sessions [] (mkAuthWorld credentials ∅ ∅ ∅) morning.

Lemma morning_run : session_run tokens 0 (fst after_morning) (snd after_morning).
Proof. apply play_run; [by apply run_start|vm_compute; done]. Qed.

(** The session in use is still valid fifty minutes after its issue, and only it. *)
Example morning_validates :
  is_ok (fst (fst (validate_session_persistent "a1" (steady (50 * MINUTE)) (snd after_morning) []))) = true
  /\ is_ok (fst (fst (validate_session_persistent "b2" (steady (50 * MINUTE)) (snd after_morning) []))) = false.
Proof. vm_compute. done. Qed.

Definition morning_session : Session :=
  mkSession "a1" "c1" false 1 (stored 0) (steady (50 * MINUTE)).
Lemma validated_session_was_granted_witness :
  ss_id morning_session = "a1" /\ exists g, ledger (fst after_morning) !! "a1" = Some g /\ live g (50 * MINUTE) /\ permits g morning_session.
Proof.
  eapply (validated_session_was_granted tokens 0 (fst after_morning) (snd after_morning) "a1" (50 * MINUTE) []).
  - exact tokens_distinct.
  - exact morning_run.
  - vm_compute. done.
  - unfold tokens. set_solver.
  - vm_compute. reflexivity.
Defined.

(** The password is changed while a session is cached; the daemon restarts. *)
Definition evening : Script := morning ++
  [(45 * MINUTE, Validate "a1", []); (46 * MINUTE, Change (SetAdminHash "new"), []); (47 * MINUTE, Restart, [])].
Definition after_evening : list Event * AuthWorld := play_sessions [] (mkAuthWorld credentials ∅ ∅ ∅) evening.
Lemma evening_run : session_run tokens 0 (fst after_evening) (snd after_evening).
Proof. apply play_run; [by apply run_start|vm_compute; done]. Qed.

Lemma revoked_session_refused_witness :
  is_ok (fst (fst (validate_session_persistent "a1" (steady (48 * MINUTE)) (snd after_evening) []))) = false.
Proof.
  eapply (revoked_session_refused tokens 0 (tl (tl (fst after_evening))) [mkEvent (47 * MINUTE) Restart Accepted]
    (mkEvent (46 * MINUTE) (Change (SetAdminHash "new")) Accepted) (snd after_evening) "a1" (48 * MINUTE) []).
  - exact tokens_distinct.
  - exact evening_run.
  - vm_compute. done.
  - unfold tokens. set_solver.
  - done.
  - constructor; [|constructor]. by intros (s & Hs & _).
Defined.

(** ** The limiter *)
Definition LimiterScript := list (Z * LimiterOp * list Turn).
Fixpoint play_limiter {LZ : LocalZone} (limit window : Z) (ip : string) (T : Z) (h : list Z) (w : AuthWorld) (script : LimiterScript) : Z * list Z * AuthWorld :=
  match script with
  | [] => (T, h, w)
  | (now, op, ts) :: rest =>
      let '(r, w', _) := limiter_exec limit window op (steady now) w ts in
      play_limiter limit window ip now
        (if r && match op with Attempt ip' => bool_decide (ip' = ip) | _ => false end then now :: h else h) w' rest
  end.
Fixpoint ordered (T : Z) (script : LimiterScript) : bool :=
  match script with [] => true | (now, _, _) :: rest => (T <=? now) && ordered now rest end.
Lemma play_limiter_run {LZ : LocalZone} limit window T0 ip script : forall T h w, limiter_run limit window T0 ip T h w ->
  ordered T script = true -> Forall (fun s => honest (snd s)) script ->
  let '(T', h', w') := play_limiter limit window ip T h w script in limiter_run limit window T0 ip T' h' w'.
Proof.
  induction script as [|[[now op] ts] rest IH]; intros T h w Hr Ht Hh; [done|]. cbn [play_limiter].
  destruct (limiter_exec limit window op (steady now) w ts) as [[r w'] ts'] eqn:Ee. cbn in Ht.
  apply andb_prop in Ht as [Hle Hs]. inversion_clear Hh as [|? ? Hhon Hrest].
  apply IH; [|done|done]. eapply limiter_step; [done|lia|done|done].
Qed.

(** Five a minute, with a fault, a sweep and a restart in between *)
Definition guesses : LimiterScript :=
  map (fun t => (t * SECOND, Attempt "192.0.2.7", [])) [0; 1; 2; 3]
  ++ [(4 * SECOND, Attempt "192.0.2.7", [fault]); (5 * SECOND, Forget, []); (6 * SECOND, Reboot, [])]
  ++ map (fun t => (t * SECOND, Attempt "192.0.2.7", [])) [7; 8; 9; 59; 60; 61; 62; 63; 64; 65; 66; 67].
Definition after_guesses : Z * list Z * AuthWorld :=
  play_limiter 5 (dur_minutes 1) "192.0.2.7" 0 [] (mkAuthWorld credentials ∅ ∅ ∅) guesses.
Example guesses_passed : snd (fst after_guesses) = map (fun t => t * SECOND) [65; 64; 63; 62; 61; 7; 3; 2; 1; 0].
Proof. vm_compute. done. Qed.

Lemma guesses_run : limiter_run 5 (dur_minutes 1) 0 "192.0.2.7" (fst (fst after_guesses)) (snd (fst after_guesses)) (snd after_guesses).
Proof.
  assert (Hr : let '(T', h', w') := after_guesses in limiter_run 5 (dur_minutes 1) 0 "192.0.2.7" T' h' w').
  { apply play_limiter_run; [by apply limiter_start|reflexivity|]. repeat constructor; intros e [= <-]; reflexivity. }
  revert Hr. generalize after_guesses. by intros [[T h] w].
Qed.

Lemma login_attempts_bounded_witness : passed 0 (0 + (dur_minutes 1 - SECOND)) (snd (fst after_guesses)) <= 2 * Z.max 1 5.
Proof.
  apply (login_attempts_bounded 5 (dur_minutes 1) 0 "192.0.2.7" (fst (fst after_guesses)) (snd (fst after_guesses)) (snd after_guesses));
    [split; [by apply Z.leb_le|by apply Z.ltb_lt]|by intros x y _ _|exact guesses_run].
Defined.

(** At second 100 the clocks are put forward by an hour: the sweep after that
    takes the window that was opened at second 92, and after a restart fourteen
    attempts have passed within a minute. *)
Definition summer_time : LocalZone := fun t => if t <? 100 then 0 else 3600.
Definition spring : LimiterScript :=
  map (fun t => (t * SECOND, Attempt "192.0.2.7", [])) [31; 88; 89; 90; 91; 92; 93; 94; 95; 96; 97]
  ++ [(101 * SECOND, Forget, []); (102 * SECOND, Reboot, [])]
  ++ map (fun t => (t * SECOND, Attempt "192.0.2.7", [])) [103; 104; 105; 106; 107; 108].
Example open_window_swept :
  let through zone := snd (fst (play_limiter (LZ := zone) 5 (dur_minutes 1) "192.0.2.7" 0 [] (mkAuthWorld credentials ∅ ∅ ∅) spring)) in
  passed (88 * SECOND) (147 * SECOND) (through utc) = 9 /\ passed (88 * SECOND) (147 * SECOND) (through summer_time) = 14.
Proof. vm_compute. done. Qed.

(** ** Secrets *)
Lemma current_code_accepted_witness :
  validate_totp_at (base32_encode [1; 2; 3; 4; 5; 6; 7; 8; 9; 10]) (compute_totp [1; 2; 3; 4; 5; 6; 7; 8; 9; 10] (59 / TOTP_PERIOD)) 61 = true.
Proof. apply current_code_accepted; [repeat constructor; lia|vm_compute; done]. Defined.

Lemma password_hash_verifies_witness : exists text, hash_password "correct horse battery" (Ok (repeat 7 16)) (Ok tt) = Ok text
  /\ verify_password "correct horse battery" text (Ok tt) = Ok true
  /\ (verify_password "wrong horse battery" text (Ok tt) = Ok true
      <-> argon2_id (bytes_of "wrong horse battery") (repeat 7 16) ARGON_ITERATIONS ARGON_MEMORY ARGON_PARALLELISM ARGON_KEY_LEN
          = argon2_id (bytes_of "correct horse battery") (repeat 7 16) ARGON_ITERATIONS ARGON_MEMORY ARGON_PARALLELISM ARGON_KEY_LEN).
Proof.
  destruct (argon2_id (bytes_of "correct horse battery") (repeat 7 16) ARGON_ITERATIONS ARGON_MEMORY ARGON_PARALLELISM ARGON_KEY_LEN) as [hash|e] eqn:Ha;
    [|vm_compute in Ha; discriminate].
  apply (password_hash_verifies "correct horse battery" "wrong horse battery" (repeat 7 16) hash toy_base64); try (vm_compute; done); try done.
  - repeat constructor; lia.
  - vm_compute in Ha. injection Ha as <-. repeat constructor; lia.
  - vm_compute in Ha. injection Ha as <-. done.
Defined.
