(* ===== verification/Samples.v ===== *)
(** * Concrete configurations

    A configuration that uses every section, evaluated with the ASCII part of
    the Unicode tables and an RFC 4648 decoder; the theorems of the other files
    are applied to it here, and the corner cases that the validators let
    through are recorded. *)

From Stdlib Require Import ZArith Ascii String Lia Bool.
From stdpp Require Import base list strings gmap.
From S2P Require Import Prelude GoStrings Net NetSpec GoTime Json Model Validation ValidationSpec.
From S2P Require Import SegmentSpec ProfileSpec Policy PolicySpec.

Local Open Scope string_scope.
Local Open Scope Z_scope.
Local Open Scope list_scope.

#[local] Existing Instance ascii_tables.

(** ** A Base64 decoder *)
Definition b64_val (a : ascii) : option Z :=
  let v := bv a in
  if is_ascii_upper a then Some (v - 65) else if is_ascii_lower a then Some (v - 71)
  else if is_ascii_digit a then Some (v + 4) else if v =? 43 then Some 62 else if v =? 47 then Some 63 else None.

Fixpoint b64_groups (l : bytes) : option (list Z) :=
  match l with
  | [] => Some []
  | a :: b :: c :: d :: t =>
      let! x := b64_val a in let! y := b64_val b in
      if (bv c =? 61) && (bv d =? 61) then match t with [] => Some [x * 4 + y / 16] | _ => None end
      else
        let! z := b64_val c in
        if bv d =? 61 then match t with [] => Some [x * 4 + y / 16; y mod 16 * 16 + z / 4] | _ => None end
        else
          let! w := b64_val d in let! r := b64_groups t in
          Some ([x * 4 + y / 16; y mod 16 * 16 + z / 4; z mod 4 * 64 + w] ++ r)
  | _ => None
  end.
#[export] Instance rfc4648 : Base64 := {| std_engine_decode := b64_groups |}.

(** and an encoder *)
Definition b64_char (v : Z) : ascii := nth (Z.to_nat (v mod 64)) (bytes_of "ABCDEFGHIJKLMNOPQRSTUVWXYZabcdefghijklmnopqrstuvwxyz0123456789+/") "A"%char.
Fixpoint b64_write (l : list Z) : bytes :=
  match l with
  | [] => []
  | [a] => [b64_char (a / 4); b64_char (a * 16); "="%char; "="%char]
  | [a; b] => [b64_char (a / 4); b64_char (a * 16 + b / 16); b64_char (b * 4); "="%char]
  | a :: b :: c :: t => [b64_char (a / 4); b64_char (a * 16 + b / 16); b64_char (b * 4 + c / 64); b64_char c] ++ b64_write t
  end.

Definition key_a : string := "AAAAAAAAAAAAAAAAAAAAAAAAAAAAAAAAAAAAAAAAAAA=".
Definition key_b : string := "BAAAAAAAAAAAAAAAAAAAAAAAAAAAAAAAAAAAAAAAAAA=".

Example key_a_valid : valid_wireguard_key key_a = true /\ valid_wireguard_key "AAAA" = false.
Proof. vm_compute. split; reflexivity. Qed.

(** ** A configuration that uses every section *)
Definition lease1 : StaticLease := mkStaticLease "l1" "printer" "aa:bb:cc:dd:ee:01" "192.168.1.10".
Definition lease2 : StaticLease := mkStaticLease "l2" "nas" "aa-bb-cc-dd-ee-02" "192.168.1.11".
Definition forward1 : PortForwardRule := mkPortForwardRule "f1" "Web" "tcp" 8080 "192.168.1.10" 80 true.
Definition forward2 : PortForwardRule := mkPortForwardRule "f2" "Games" "UDP" 8080 "192.168.1.11" 81 true.
Definition segment1 : ExtraLANConfig :=
  mkExtraLANConfig "x1" "Cameras" "eth2" "10.20.0.0/24" "10.20.0.1/24" "10.20.0.9" 443 "tcp"
    (list_from ["192.168.1.0/24"]) true.
Definition segment2 : ExtraLANConfig :=
  mkExtraLANConfig "x2" "Lab" "eth3" "10.21.0.0/24" "10.21.0.1/24" "10.21.0.9" 443 "udp"
    (list_from ["10.8.0.2/32"]) true.
Definition rule1 : FirewallRule :=
  mkFirewallRule "r1" "Allow printer" "allow" "input" "tcp" "192.168.1.10" 631 true EmptyString EmptyString.
Definition peer1 : WireGuardPeer :=
  mkWireGuardPeer "p1" "Phone" key_b EmptyString (list_from ["10.8.0.2/32"]) EmptyString true.
Definition evening : WeeklyAccessSchedule :=
  mkWeeklyAccessSchedule [("monday", list_from [mkAccessWindow "18:00" "20:00"; mkAccessWindow "07:00" "8:30"])]
    list_nil EmptyString list_nil.
Definition profile1 : DeviceProfile :=
  mkDeviceProfile "kids" "Kids" (list_from ["192.168.1.10"]) (list_from ["youtube"]) evening true.
Definition profile2 : DeviceProfile :=
  mkDeviceProfile "guests" "Guests" (list_from ["192.168.1.11"]) (list_from ["steam"; "twitch"]) evening true.

Section Sample.
Context (lan : LANSettings) (profiles : GoList DeviceProfile) (routes : GoList string).

(** The sample with a LAN, profiles and tunnel routes of choice *)
Definition sample_with : SystemConfig := {|
  c_revision := 7; c_updated_at := time_zero;
  c_system := mkSystemSettings "minimalrouter" "lan" true 8443 "lan_and_wireguard";
  c_wan := mkWANSettings "eth0" true "user@isp" "secret" 1492;
  c_lan := lan;
  c_dhcp := mkDHCPSettings true false "192.168.1.100" "192.168.1.200" "12h"
              (list_from ["1.1.1.1"; "1.0.0.1"]) (list_from [lease1; lease2]);
  c_dns := mkDNSSettings (list_from [mkDNSRecord "nas.home.arpa" "192.168.1.11"]);
  c_firewall := mkFirewallConfig "deny" "wireguard_only" true (list_from [forward1; forward2])
                  (list_from [rule1]) (list_from [segment1; segment2]);
  c_wireguard := mkWireGuardConfig true "wg0" key_a 51820 "10.8.0.1/24" (list_from [peer1]);
  c_wg_client := mkWGClientConfig true "wg1" key_a "10.9.0.2/32" key_b EmptyString "vpn.example.com:51820" routes 25;
  c_cloudflare := mkCloudflareConfig true "noip" "user" "token" EmptyString EmptyString "home.example.com" false
                    EmptyString EmptyString;
  c_squid_proxy := mkSquidProxyConfig true 3128 "proxyadmin" "long-password" (list_from [mkRestrictedIPItem "nas" "192.168.1.11" true]);
  c_adguard := mkDNSFilterConfig true EmptyString "Never" list_empty profiles;
  c_qos := mkQoSConfig true "cake" 100 20;
  c_wifi := mkWiFiConfig true "wlan0" "Home" "a-long-passphrase" "5ghz" 36 false;
  c_accounting := mkAccountingConfig true 13;
  c_trusted_networks := list_from ["192.168.1.0/24"; "10.8.0.0/24"];
|}.
End Sample.

Definition lan24 : LANSettings := mkLANSettings "eth1" "192.168.1.1" "255.255.255.0" "192.168.1.1/24".
Definition sample : SystemConfig :=
  sample_with lan24 (list_from [profile1; profile2]) (list_from ["172.16.5.0/24"]).

Example sample_valid : validate sample = Ok tt /\ validate_scenario_safety sample = Ok tt.
Proof. vm_compute. split; reflexivity. Qed.

(** ** The theorems on the sample *)
Lemma accepted_lan_is_usable_host_witness :
  exists o, parse_ipv4 (lan_ip_address (c_lan sample)) = Some o
    /\ block_base 24 (be o) < be o < block_base 24 (be o) + block_size 24 - 1
    /\ is_loopback o = false /\ is_multicast o = false.
Proof. apply (accepted_lan_is_usable_host sample 24); vm_compute; reflexivity. Defined.

Lemma accepted_dhcp_plan_witness :
  exists o st en, parse_ipv4 (lan_ip_address (c_lan sample)) = Some o
    /\ parse_ipv4 (dhcp_range_start (c_dhcp sample)) = Some st /\ parse_ipv4 (dhcp_range_end (c_dhcp sample)) = Some en
    /\ block_base 24 (be o) < be st <= be en /\ be en < block_base 24 (be o) + block_size 24 - 1
    /\ ~ (be st <= be o <= be en)
    /\ (forall i l, items (dhcp_static_leases (c_dhcp sample)) !! i = Some l ->
          lease_ok (block_base 24 (be o)) (block_size 24) (be o) (be st) (be en) l)
    /\ (forall i j l l', items (dhcp_static_leases (c_dhcp sample)) !! i = Some l ->
          items (dhcp_static_leases (c_dhcp sample)) !! j = Some l' -> i <> j ->
          parse_ipv4 (lease_ip_address l) <> parse_ipv4 (lease_ip_address l')
          /\ parse_mac (lease_mac l) <> parse_mac (lease_mac l')).
Proof. apply (accepted_dhcp_plan sample 24); vm_compute; reflexivity. Defined.

Lemma accepted_port_forwards_witness : "tcp" ∉ forward_protocols (to_lower (pf_protocol forward2)).
Proof.
  apply (proj2 (accepted_port_forwards (UC:=ascii_tables) (B64:=rfc4648) sample
    ltac:(vm_compute; reflexivity)) 0%nat 1%nat forward1 forward2); try solve [reflexivity | discriminate].
  apply list_elem_of_singleton. reflexivity.
Defined.

Lemma accepted_extra_lans_isolated_witness :
  disjoint (mkIPNet [10; 20; 0; 0] [255; 255; 255; 0]) (mkIPNet [10; 21; 0; 0] [255; 255; 255; 0]).
Proof.
  destruct (accepted_extra_lans_isolated (UC:=ascii_tables) (B64:=rfc4648) sample
    ltac:(vm_compute; reflexivity)) as (ip & ln & _ & _ & Hp).
  eapply (Hp 0%nat 1%nat segment1 segment2); solve [vm_compute; reflexivity | discriminate].
Defined.

Lemma accepted_tunnel_routes_witness :
  exists n, net_of (trim "172.16.5.0/24") n /\ (forall d, d ∈ dns_upstreams sample -> net_contains n d = false).
Proof.
  destruct (accepted_tunnel_routes (UC:=ascii_tables) (B64:=rfc4648) sample
    ltac:(vm_compute; reflexivity) ltac:(reflexivity)) as (ip & ln & _ & Hr).
  destruct (Hr 0%nat "172.16.5.0/24" ltac:(reflexivity)) as (n & Hn & _ & _ & _ & _ & _ & Hd). exists n. split; assumption.
Defined.

Lemma accepted_trusted_networks_witness :
  items (c_trusted_networks sample) <> [] /\ Forall trusted_ok (items (c_trusted_networks sample)).
Proof. apply (accepted_trusted_networks sample). vm_compute. reflexivity. Defined.

Lemma accepted_profile_schedules_witness :
  Forall (fun p => schedule_ok (dp_schedule p)) [profile1; profile2].
Proof. apply (accepted_profile_schedules sample). vm_compute. reflexivity. Defined.

Lemma accepted_profile_ownership_witness :
  "192.168.1.10" ∉ items (dp_ip_addresses profile2).
Proof.
  apply (proj2 (accepted_profile_ownership (UC:=ascii_tables) (B64:=rfc4648) sample
    ltac:(vm_compute; reflexivity) 0%nat 1%nat profile1 profile2
    ltac:(reflexivity) ltac:(reflexivity) ltac:(discriminate))). apply list_elem_of_singleton. reflexivity.
Defined.

(** A candidate that only turns traffic shaping off *)
Definition shaping_off : SystemConfig :=
  let c := sample in
  mkSystemConfig (c_revision c) (c_updated_at c) (c_system c) (c_wan c) (c_lan c) (c_dhcp c) (c_dns c)
    (c_firewall c) (c_wireguard c) (c_wg_client c) (c_cloudflare c) (c_squid_proxy c) (c_adguard c)
    (mkQoSConfig false "cake" 100 20) (c_wifi c) (c_accounting c) (c_trusted_networks c).

Lemma unconfirmed_change_keeps_management_witness :
  items (c_trusted_networks sample) = items (c_trusted_networks shaping_off).
Proof. apply (unconfirmed_change_keeps_management sample shaping_off). vm_compute. reflexivity. Defined.

Lemma scenario_safe_candidate_witness : is_private [172; 16; 5; 9] = true.
Proof.
  apply (proj2 (scenario_safe_candidate (UC:=ascii_tables) (B64:=rfc4648) sample
    ltac:(vm_compute; reflexivity) ltac:(vm_compute; reflexivity))
    ltac:(reflexivity) 0%nat "172.16.5.0/24" (mkIPNet [172; 16; 5; 0] [255; 255; 255; 0]) [172; 16; 5; 9]).
  - reflexivity.
  - vm_compute. reflexivity.
  - split; [left; reflexivity|solve_bytes].
  - discriminate.
  - vm_compute. reflexivity.
Defined.

Lemma migrated_router_address_accepted_witness :
  router_address_errors "firewall.extra_lans[0]" (migrate_extra_lan (with_router_address segment1 EmptyString))
    (mkIPNet [10; 20; 0; 0] [255; 255; 255; 0]) = [].
Proof.
  apply (migrated_router_address_accepted (with_router_address segment1 EmptyString) (ip_v4 10 20 0 0)
    (mkIPNet [10; 20; 0; 0] [255; 255; 255; 0]) 24); solve [vm_compute; reflexivity | lia].
Defined.

(** ** Corner cases the validators let through *)
Definition default_with_lan (lan : LANSettings) : SystemConfig :=
  let c := default_config time_zero in
  mkSystemConfig (c_revision c) (c_updated_at c) (c_system c) (c_wan c) lan (c_dhcp c) (c_dns c)
    (c_firewall c) (c_wireguard c) (c_wg_client c) (c_cloudflare c) (c_squid_proxy c) (c_adguard c)
    (c_qos c) (c_wifi c) (c_accounting c) (c_trusted_networks c).

(** With the CIDR in IPv4-mapped notation the broadcast check compares against
    the wrong bytes of the mask: the broadcast address of the /24 is accepted
    as the router's LAN address. *)
Theorem mapped_lan_cidr_accepts_broadcast :
  let lan := mkLANSettings "eth1" "192.168.1.255" "ffff:ffff:ffff:ffff:ffff:ffff:ffff:ff00"
               "::ffff:192.168.1.255/120" in
  validate (default_with_lan lan) = Ok tt /\ validate_scenario_safety (default_with_lan lan) = Ok tt
  /\ ipv4_broadcast net24 = parse_ipv4 (lan_ip_address lan).
Proof. vm_compute. split_and!; reflexivity. Qed.

(** The owner of an address is looked up by its text: two profiles may control
    one device under two spellings. *)
Theorem profile_address_alias_accepted :
  let alias := mkDeviceProfile "guests" "Guests" (list_from ["::ffff:192.168.1.10"]) (list_from ["steam"]) evening true in
  validate (sample_with lan24 (list_from [profile1; alias]) (list_from ["172.16.5.0/24"])) = Ok tt
  /\ parse_ipv4 "::ffff:192.168.1.10" = parse_ipv4 "192.168.1.10".
Proof. vm_compute. split; reflexivity. Qed.

(** A remote network in IPv4-mapped notation with a short prefix passes the
    validation and the private-site rule: wg1 would route [::/8]. *)
Theorem mapped_remote_network_accepted :
  let c := sample_with lan24 (list_from [profile1]) (list_from ["::ffff:8.8.8.8/8"]) in
  validate c = Ok tt /\ validate_scenario_safety c = Ok tt
  /\ net_of "::ffff:8.8.8.8/8" (mkIPNet (repeat 0 16) (255 :: repeat 0 15)).
Proof. vm_compute. split_and!; reflexivity. Qed.
