(* ===== verification/Ipc.v ===== *)
(** * Requests and responses between routerd and router-applyd

    [mr-services/src/apply/ipc.rs]: the typed messages, the allowlisted
    operations and the consistency check on a response. *)

From Stdlib Require Import ZArith Ascii String Lia Bool.
From stdpp Require Import base list strings gmap.
From S2P Require Import Prelude GoStrings GoTime Json Model Policy.

Local Open Scope string_scope.
Local Open Scope Z_scope.
Local Open Scope list_scope.

Definition PROTOCOL_VERSION : Z := 1.

(** [OperationType] is a string newtype; the operations of [mod op] *)
Definition op_apply_all : string := "APPLY_ALL".
Definition op_confirm : string := "CONFIRM".
Definition op_commit_confirmed : string := "COMMIT_CONFIRMED".
Definition op_reconcile : string := "RECONCILE".
Definition op_wg_tunnel_status : string := "WG_TUNNEL_STATUS".
Definition op_firewall_counters : string := "FIREWALL_COUNTERS".

Record ApplyRequest := mkApplyRequest {
  req_version : Z;
  req_id : string;
  req_op : string;
  req_revision : Z;
  req_config : SystemConfig;
  req_nftables : string;
  req_pppoe_peer : string;
  req_pppoe_secret : string;
  req_dnsmasq : string;
  req_hostapd : string;
  req_wireguard : string;
  req_service_name : string;
  req_require_confirmation : bool;
  req_verify_wg_client : bool;
  req_tunnel_interface : string;
  req_defer_last_good : bool;
  req_skip_wan_verify : bool;
}.

(** [ApplyRequest { id, op, revision, config, ..Default::default() }] *)
Definition bare_request (id op : string) (revision : Z) (config : SystemConfig) : ApplyRequest :=
  mkApplyRequest 0 id op revision config EmptyString EmptyString EmptyString EmptyString EmptyString EmptyString
    EmptyString false false EmptyString false false.

(** The assignments the engine makes on a request *)
Definition with_op (r : ApplyRequest) (op : string) : ApplyRequest :=
  mkApplyRequest (req_version r) (req_id r) op (req_revision r) (req_config r) (req_nftables r) (req_pppoe_peer r)
    (req_pppoe_secret r) (req_dnsmasq r) (req_hostapd r) (req_wireguard r) (req_service_name r)
    (req_require_confirmation r) (req_verify_wg_client r) (req_tunnel_interface r) (req_defer_last_good r)
    (req_skip_wan_verify r).
Definition with_modes (r : ApplyRequest) (require_confirmation defer_last_good : bool) : ApplyRequest :=
  mkApplyRequest (req_version r) (req_id r) (req_op r) (req_revision r) (req_config r) (req_nftables r)
    (req_pppoe_peer r) (req_pppoe_secret r) (req_dnsmasq r) (req_hostapd r) (req_wireguard r) (req_service_name r)
    require_confirmation (req_verify_wg_client r) (req_tunnel_interface r) defer_last_good (req_skip_wan_verify r).
Definition with_skip_wan_verify (r : ApplyRequest) : ApplyRequest :=
  mkApplyRequest (req_version r) (req_id r) (req_op r) (req_revision r) (req_config r) (req_nftables r)
    (req_pppoe_peer r) (req_pppoe_secret r) (req_dnsmasq r) (req_hostapd r) (req_wireguard r) (req_service_name r)
    (req_require_confirmation r) (req_verify_wg_client r) (req_tunnel_interface r) (req_defer_last_good r) true.
Definition with_tunnel_interface (r : ApplyRequest) (iface : string) : ApplyRequest :=
  mkApplyRequest (req_version r) (req_id r) (req_op r) (req_revision r) (req_config r) (req_nftables r)
    (req_pppoe_peer r) (req_pppoe_secret r) (req_dnsmasq r) (req_hostapd r) (req_wireguard r) (req_service_name r)
    (req_require_confirmation r) (req_verify_wg_client r) iface (req_defer_last_good r) (req_skip_wan_verify r).

Record TunnelPeerStatus := mkTunnelPeerStatus {
  tp_public_key : string;
  tp_endpoint : string;
  tp_last_handshake : Z;
  tp_rx_bytes : Z;
  tp_tx_bytes : Z;
}.

Record TunnelStatus := mkTunnelStatus {
  ts_interface : string;
  ts_endpoint : string;
  ts_last_handshake : Z;
  ts_rx_bytes : Z;
  ts_tx_bytes : Z;
  ts_peers : list TunnelPeerStatus;
}.

Record FirewallCounters := mkFirewallCounters {
  fc_seen : Z;
  fc_accepted : Z;
  fc_generation : string;
  fc_observed_at : Time;
  fc_policies : gmap string string;
  fc_loaded_revision : option Z;
  fc_rule_packets : gmap string Z;
}.

Record ApplyResponse := mkApplyResponse {
  resp_id : string;
  resp_success : bool;
  resp_error : string;
  resp_logs : string;
  resp_verified : bool;
  resp_rolled_back : bool;
  resp_recovery_required : bool;
  resp_timestamp : Z;
  resp_tunnel_status : option TunnelStatus;
  resp_firewall_counters : option FirewallCounters;
}.

(** [ApplyResponse::validate] *)
Definition response_validate (r : ApplyResponse) : result unit error :=
  if resp_success r then
    if negb (resp_verified r) then Err (Errorf "successful response is not verified")
    else if resp_rolled_back r then Err (Errorf "successful response also reports rollback")
    else if resp_recovery_required r then Err (Errorf "successful response also requires recovery")
    else Ok tt
  else if resp_verified r then Err (Errorf "failed response cannot report verified success")
  else if resp_rolled_back r && resp_recovery_required r then
    Err (Errorf "response cannot report both rollback and recovery required")
  else Ok tt.

(** The four outcomes a consistent response can report *)
Inductive outcome := OutVerified | OutNotApplied | OutRestored | OutRecovery.

Definition response_outcome (r : ApplyResponse) : outcome :=
  if resp_success r then OutVerified
  else if resp_recovery_required r then OutRecovery
  else if resp_rolled_back r then OutRestored else OutNotApplied.

Definition outcome_flags (o : outcome) : bool * bool * bool * bool :=
  match o with
  | OutVerified => (true, true, false, false)
  | OutNotApplied => (false, false, false, false)
  | OutRestored => (false, false, true, false)
  | OutRecovery => (false, false, false, true)
  end.

(** A response passes the check exactly when its four flags are those of one
    of the documented outcomes: verified success, rejection before any change,
    verified rollback, or recovery required. *)
Theorem response_validate_iff r :
  response_validate r = Ok tt <->
  (resp_success r, resp_verified r, resp_rolled_back r, resp_recovery_required r)
  = outcome_flags (response_outcome r).
Proof.
  unfold response_validate, response_outcome.
  destruct (resp_success r), (resp_verified r), (resp_rolled_back r), (resp_recovery_required r); cbn; split; congruence.
Qed.

Lemma response_validate_cases r u :
  response_validate r = Ok u ->
  (resp_success r = true -> resp_verified r = true /\ resp_recovery_required r = false)
  /\ (resp_success r = false -> resp_verified r = false).
Proof.
  unfold response_validate.
  destruct (resp_success r), (resp_verified r), (resp_rolled_back r), (resp_recovery_required r); cbn; done.
Qed.
