(* ===== verification/Safety.v ===== *)
(** * Transition safety and the change preview

    [mr-services/src/apply/safety.rs]: invariants of a change that depend on
    both configurations, the check against observed DHCP leases, and the
    read-only preview.  The DHCP lease table is an argument (it is read from a
    file of dnsmasq); the descriptions of firewall and network changes, which
    [services] renders for display, are parameters of the preview. *)

From Stdlib Require Import ZArith Ascii String Lia Bool.
From stdpp Require Import base list strings gmap.
From S2P Require Import Prelude GoStrings Net GoTime Json Model Validation Policy.

Local Open Scope string_scope.
Local Open Scope Z_scope.
Local Open Scope list_scope.

(** ** Lease observations ([telemetry/dhcp_leases.rs]) *)
Record DHCPLease := mkDHCPLease {
  dl_expires_at : Z;
  dl_mac : string;
  dl_ip_address : string;
  dl_hostname : string;
}.
Record DHCPLeaseStatus := mkDHCPLeaseStatus {
  ds_available : bool;
  ds_collected_at : Time;
  ds_truncated : bool;
  ds_rejected_entries : Z;
  ds_error : string;
}.
Record DHCPLeaseSnapshot := mkDHCPLeaseSnapshot {
  snap_status : DHCPLeaseStatus;
  snap_leases : list DHCPLease;
}.

(** ** Transitions *)
Definition cidr_contained_by_any (candidate : string) (zones : list string) : bool :=
  match parse_cidr candidate with
  | Some (_, candidate_net) =>
      if is_none (to4 (net_ip candidate_net)) then false
      else
        let '(candidate_ones, candidate_bits) := mask_size (net_mask candidate_net) in
        if negb (Nat.eqb candidate_bits 32) then false
        else
          existsb (fun p =>
            let zone := snd p in
            let '(zone_ones, zone_bits) := mask_size (net_mask zone) in
            negb (is_none (to4 (net_ip zone))) && Nat.eqb zone_bits 32 && Nat.leb zone_ones candidate_ones
            && net_contains zone (net_ip candidate_net)) (omap parse_cidr zones)
  | None => false
  end.

Definition validate_transition_safety (current candidate : SystemConfig) : result unit error :=
  if lan_cidr (c_lan current) =s lan_cidr (c_lan candidate) then Ok tt
  else
    match parse_cidr (lan_cidr (c_lan current)), parse_cidr (lan_cidr (c_lan candidate)) with
    | Some (_, old_net), Some (_, new_net) =>
        if is_none (to4 (net_ip old_net)) || is_none (to4 (net_ip new_net))
           || (net_to_string old_net =s net_to_string new_net)
        then Ok tt
        else
          let new_network := net_to_string new_net in
          if negb (cidr_contained_by_any new_network (items (c_trusted_networks current))) then
            Err (Errorf ("LAN subnet migration requires the new subnet " +:+ new_network
                         +:+ " to be added to trusted_networks in a separate confirmed transaction first"))
          else if negb (cidr_contained_by_any new_network (items (c_trusted_networks candidate))) then
            Err (Errorf ("LAN subnet migration candidate must retain trusted management access for the new subnet "
                         +:+ new_network))
          else Ok tt
    | _, _ => Ok tt
    end.

(** [HashMap] of the current leases by id: a later lease replaces an earlier. *)
Definition leases_by_id (l : list StaticLease) : gmap string StaticLease :=
  fold_left (fun m r => <[lease_id r := r]> m) l ∅.

(** The reservations the candidate adds or changes, by address *)
Definition changed_reservations (previous_by_id : gmap string StaticLease) (l : list StaticLease)
  : gmap string string :=
  fold_left (fun m r =>
    let ip := ipv4_identity (lease_ip_address r) in
    let mac := mac_identity (lease_mac r) in
    let unchanged := some_and (fun p => (ipv4_identity (lease_ip_address p) =s ip) && (mac_identity (lease_mac p) =s mac))
                       (previous_by_id !! lease_id r) in
    if negb unchanged then <[ip := mac]> m else m) l ∅.

Fixpoint lease_conflict (current_gateway candidate_gateway : string) (changed_by_ip : gmap string string)
  (leases : list DHCPLease) : option error :=
  match leases with
  | [] => None
  | lease :: t =>
      let lease_ip := ipv4_identity (dl_ip_address lease) in
      if (candidate_gateway <>s current_gateway) && (candidate_gateway =s lease_ip) then
        Some (Errorf ("new LAN gateway is currently leased to " +:+ dl_mac lease))
      else
        match changed_by_ip !! lease_ip with
        | Some mac =>
            if mac <>s mac_identity (dl_mac lease) then
              Some (Errorf ("reserved address " +:+ dl_ip_address lease +:+ " is currently leased to " +:+ dl_mac lease))
            else lease_conflict current_gateway candidate_gateway changed_by_ip t
        | None => lease_conflict current_gateway candidate_gateway changed_by_ip t
        end
  end.

Definition inspect_lan_observation (current candidate : SystemConfig) (snapshot : DHCPLeaseSnapshot)
  : result (list string) error :=
  let current_gateway := ipv4_identity (lan_ip_address (c_lan current)) in
  let candidate_gateway := ipv4_identity (lan_ip_address (c_lan candidate)) in
  let changed_by_ip :=
    changed_reservations (leases_by_id (items (dhcp_static_leases (c_dhcp current))))
      (items (dhcp_static_leases (c_dhcp candidate))) in
  match lease_conflict current_gateway candidate_gateway changed_by_ip (snap_leases snapshot) with
  | Some e => Err e
  | None =>
      let s := snap_status snapshot in
      if negb (ds_available s) || ds_truncated s || (0 <? ds_rejected_entries s) then
        Ok ["DHCP observation is unavailable or incomplete; check for address conflicts before applying."]
      else Ok ["Only known DHCP collisions were checked. Manually configured devices may not be observed."]
  end.

Definition static_leases_json (l : GoList StaticLease) : json := json_list StaticLease_json l.

(** Whether [inspect_lan_change] looks at the leases at all *)
Definition lan_change_observed (current candidate : SystemConfig) : bool :=
  negb ((lan_ip_address (c_lan current) =s lan_ip_address (c_lan candidate))
        && equal_section static_leases_json (dhcp_static_leases (c_dhcp current))
             (dhcp_static_leases (c_dhcp candidate))).

Definition inspect_lan_change (current candidate : SystemConfig) (snapshot : DHCPLeaseSnapshot)
  : result (list string) error :=
  if negb (lan_change_observed current candidate) then Ok []
  else inspect_lan_observation current candidate snapshot.

(** [engine::same_ipv4_network] *)
Definition same_ipv4_network (a b : string) : bool :=
  match parse_cidr a, parse_cidr b with
  | Some (_, an), Some (_, bn) =>
      if negb (is_none (to4 (net_ip an))) && negb (is_none (to4 (net_ip bn))) then
        let '(a_ones, a_bits) := mask_size (net_mask an) in
        let '(b_ones, b_bits) := mask_size (net_mask bn) in
        Nat.eqb a_bits 32 && Nat.eqb b_bits 32 && Nat.eqb a_ones b_ones && ip_equal (net_ip an) (net_ip bn)
      else false
  | _, _ => false
  end.

(** ** The preview *)
Record ChangePreview := mkChangePreview {
  pv_changes : list string;
  pv_risk : string;
  pv_requires_confirmation : bool;
  pv_rollback_seconds : Z;
  pv_expected_interruption : string;
  pv_firewall_changes : list string;
  pv_firewall_warnings : list string;
  pv_network_changes : list string;
  pv_network_warnings : list string;
}.

Definition changed_sections (c n : SystemConfig) : list string :=
  let sections := [
    ("System / management", equal_section SystemSettings_json (c_system c) (c_system n));
    ("WAN / PPPoE", equal_section WANSettings_json (c_wan c) (c_wan n));
    ("LAN", equal_section LANSettings_json (c_lan c) (c_lan n));
    ("DHCP / DNS", equal_section DHCPSettings_json (c_dhcp c) (c_dhcp n)
                   && equal_section DNSSettings_json (c_dns c) (c_dns n));
    ("Firewall", equal_section FirewallConfig_json (c_firewall c) (c_firewall n));
    ("WireGuard", equal_section WireGuardConfig_json (c_wireguard c) (c_wireguard n)
                  && equal_section WGClientConfig_json (c_wg_client c) (c_wg_client n));
    ("Dynamic DNS / tunnel", equal_section CloudflareConfig_json (c_cloudflare c) (c_cloudflare n));
    ("Squid proxy", equal_section SquidProxyConfig_json (c_squid_proxy c) (c_squid_proxy n));
    ("DNS filtering / device profiles", equal_section DNSFilterConfig_json (c_adguard c) (c_adguard n));
    ("QoS", equal_section QoSConfig_json (c_qos c) (c_qos n));
    ("Traffic accounting", equal_section AccountingConfig_json (c_accounting c) (c_accounting n));
    ("Wi-Fi", equal_section WiFiConfig_json (c_wifi c) (c_wifi n));
    ("Trusted management networks", equal_section trusted_json (c_trusted_networks c) (c_trusted_networks n))] in
  map fst (List.filter (fun s => negb (snd s)) sections).

Definition CONFIRMATION_TIMEOUT_SECS : Z := 90.

Section Preview.
Context {UC : Unicode} {B64 : Base64}.
Variables (describe_firewall_changes : FirewallConfig -> FirewallConfig -> list string)
          (firewall_warnings : SystemConfig -> list string)
          (describe_network_changes : SystemConfig -> SystemConfig -> list string).

Definition preview_transition (current candidate : SystemConfig) (snapshot : DHCPLeaseSnapshot)
  : result ChangePreview error :=
  if negb (c_revision candidate =? c_revision current) then
    Err (Errorf ("stale revision: expected " +:+ show_Z (c_revision current) +:+ ", received "
                 +:+ show_Z (c_revision candidate)))
  else if lan_interface (c_lan candidate) <>s lan_interface (c_lan current) then
    Err (Errorf "live LAN interface changes are unsupported; use the local recovery console")
  else if negb (same_ipv4_network (lan_cidr (c_lan current)) (lan_cidr (c_lan candidate))) then
    Err (Errorf "live LAN subnet changes are unsupported; use the local recovery console")
  else if negb (sys_https_port (c_system candidate) =? sys_https_port (c_system current)) then
    Err (Errorf "live management-port changes are unsupported")
  else if (sys_management_access (c_system candidate) =s "wireguard_only")
          && (sys_management_access (c_system current) <>s "wireguard_only")
          && negb (wg_enabled (c_wireguard current)) then
    Err (Errorf "enable and verify WireGuard in a separate transaction before restricting management access")
  else
    let? _ := map_err (Wrapf "validation failed") (validate_live_candidate candidate (Some current)) in
    let? _ := map_err (Wrapf "transition safety validation failed") (validate_transition_safety current candidate) in
    let? network_warnings := inspect_lan_change current candidate snapshot in
    let changes := changed_sections current candidate in
    let confirmation := requires_confirmation current candidate in
    let risk :=
      if confirmation then "high"
      else if existsb (one_of ["WAN / PPPoE"; "Firewall"; "WireGuard"; "DHCP / DNS"; "QoS"]) changes then "medium"
      else "low" in
    let interruption :=
      if match changes with [] => true | _ => false end then "No effective configuration changes detected."
      else if confirmation then
        "Management connectivity may change. The candidate is provisional until confirmed."
      else "No management interruption expected. Affected services may restart briefly." in
    Ok {| pv_changes := changes; pv_risk := risk; pv_requires_confirmation := confirmation;
          pv_rollback_seconds := if confirmation then CONFIRMATION_TIMEOUT_SECS else 0;
          pv_expected_interruption := interruption;
          pv_firewall_changes := describe_firewall_changes (c_firewall current) (c_firewall candidate);
          pv_firewall_warnings := firewall_warnings candidate;
          pv_network_changes := describe_network_changes current candidate;
          pv_network_warnings := network_warnings |}.
End Preview.
