(* ===== verification/Engine.v ===== *)
(** * The transaction engine

    [mr-services/src/apply/engine.rs]: the state machine that turns a candidate
    configuration into the running and stored one.  A transaction is an object
    shared between the caller, [active_tx] and the pending change
    ([Arc<Mutex<Transaction>>]): it lives in a heap and is named by a
    reference.  The engine's collaborators (the privileged helper behind the
    [Client] trait, the SQLite store, the clocks, the DHCP lease file) are an
    environment class over a world; the generators of [services] are a class of
    their own.  Mutations are serialised by the [operation] mutex, so a handler
    is one transition; a timer is recorded in the pending change, and its firing
    is a transition of its own ([rollback_expired]).  Fault-injection hooks,
    which do nothing outside of tests, are left out. *)

From Stdlib Require Import ZArith Ascii String Lia Bool.
From stdpp Require Import base list strings gmap.
From S2P Require Import Prelude GoStrings Net GoTime Json Model Validation Policy Ipc Safety.

Local Open Scope string_scope.
Local Open Scope Z_scope.
Local Open Scope list_scope.

(** ** Data *)
Inductive State :=
| Received | Planned | Generated | Snapshotted | Applied | Verified | AwaitingConfirmation
| Committed | RolledBack | RecoveryRequired | Rejected.
#[export] Instance State_eqdec : EqDecision State.
Proof. solve_decision. Defined.

Definition State_as_str (s : State) : string :=
  match s with
  | Received => "Received" | Planned => "Planned" | Generated => "Generated" | Snapshotted => "Snapshotted"
  | Applied => "Applied" | Verified => "Verified" | AwaitingConfirmation => "AwaitingConfirmation"
  | Committed => "Committed" | RolledBack => "RolledBack" | RecoveryRequired => "RecoveryRequired"
  | Rejected => "Rejected"
  end.

Record Transaction := mkTransaction {
  tx_id : string;
  tx_state : State;
  tx_config : SystemConfig;
  tx_diff : string;
  tx_error : string;
  tx_created_at : Time;
  tx_confirmed_at : option Time;
  tx_confirmation_deadline : option Time;
  tx_firewall_changed : bool;
}.

Abbreviation TxRef := nat.

Definition CONFIRMATION_TIMEOUT : Z := dur_secs CONFIRMATION_TIMEOUT_SECS.
Definition ROLLBACK_RETRY_DELAY : Z := dur_secs 10.
Definition MAXIMUM_ROLLBACK_ATTEMPTS : Z := 5.
Definition PRIVILEGED_APPLY_TIMEOUT : Z := dur_secs 120.
Definition PRIVILEGED_APPLY_ATTEMPTS : nat := 2.

(** A one-shot timer: its delay and whether it was stopped *)
Record Timer := mkTimer { timer_delay : Z; timer_cancelled : bool }.

Record PendingChange := mkPending {
  p_tx : TxRef;
  p_handshake_not_before : Z;
  p_previous : SystemConfig;
  p_timer : option Timer;
  p_rollback_attempts : Z;
  p_commit_attempts : Z;
  p_canonical_committed : bool;
}.

Record EngineState := mkEngineState {
  st_active_tx : option TxRef;
  st_applying : bool;
  st_current_config : SystemConfig;
  st_pending : option PendingChange;
  st_recovery_required : bool;
  st_recovery_reason : string;
}.

(** [Engine::with_client] *)
Definition engine_new (initial : SystemConfig) : EngineState :=
  mkEngineState None false initial None false EmptyString.

(** Assignments to fields *)
Definition set_active (t : option TxRef) (s : EngineState) : EngineState :=
  mkEngineState t (st_applying s) (st_current_config s) (st_pending s) (st_recovery_required s) (st_recovery_reason s).
Definition set_applying (b : bool) (s : EngineState) : EngineState :=
  mkEngineState (st_active_tx s) b (st_current_config s) (st_pending s) (st_recovery_required s) (st_recovery_reason s).
Definition set_current (c : SystemConfig) (s : EngineState) : EngineState :=
  mkEngineState (st_active_tx s) (st_applying s) c (st_pending s) (st_recovery_required s) (st_recovery_reason s).
Definition set_pending (p : option PendingChange) (s : EngineState) : EngineState :=
  mkEngineState (st_active_tx s) (st_applying s) (st_current_config s) p (st_recovery_required s) (st_recovery_reason s).
(** [EngineState::require_recovery] *)
Definition require_recovery (reason : string) (s : EngineState) : EngineState :=
  mkEngineState (st_active_tx s) (st_applying s) (st_current_config s) (st_pending s) true reason.
Definition clear_recovery (s : EngineState) : EngineState :=
  mkEngineState (st_active_tx s) (st_applying s) (st_current_config s) (st_pending s) false EmptyString.

Definition with_attempts (p : PendingChange) (rollback commit : Z) : PendingChange :=
  mkPending (p_tx p) (p_handshake_not_before p) (p_previous p) (p_timer p) rollback commit (p_canonical_committed p).
Definition with_timer (p : PendingChange) (t : option Timer) : PendingChange :=
  mkPending (p_tx p) (p_handshake_not_before p) (p_previous p) t (p_rollback_attempts p) (p_commit_attempts p)
    (p_canonical_committed p).
Definition with_committed (p : PendingChange) : PendingChange :=
  mkPending (p_tx p) (p_handshake_not_before p) (p_previous p) (p_timer p) (p_rollback_attempts p)
    (p_commit_attempts p) true.
Definition stop_timer (p : PendingChange) : PendingChange :=
  with_timer p ((fun t => mkTimer (timer_delay t) true) <$> p_timer p).

Definition with_tx_state (t : Transaction) (s : State) : Transaction :=
  mkTransaction (tx_id t) s (tx_config t) (tx_diff t) (tx_error t) (tx_created_at t) (tx_confirmed_at t)
    (tx_confirmation_deadline t) (tx_firewall_changed t).
Definition with_tx_error (t : Transaction) (e : string) : Transaction :=
  mkTransaction (tx_id t) (tx_state t) (tx_config t) (tx_diff t) e (tx_created_at t) (tx_confirmed_at t)
    (tx_confirmation_deadline t) (tx_firewall_changed t).
Definition with_tx_config (t : Transaction) (c : SystemConfig) : Transaction :=
  mkTransaction (tx_id t) (tx_state t) c (tx_diff t) (tx_error t) (tx_created_at t) (tx_confirmed_at t)
    (tx_confirmation_deadline t) (tx_firewall_changed t).
Definition with_tx_deadline (t : Transaction) (d : option Time) : Transaction :=
  mkTransaction (tx_id t) (tx_state t) (tx_config t) (tx_diff t) (tx_error t) (tx_created_at t) (tx_confirmed_at t)
    d (tx_firewall_changed t).
Definition with_tx_confirmed (t : Transaction) (d : Time) : Transaction :=
  mkTransaction (tx_id t) (tx_state t) (tx_config t) (tx_diff t) (tx_error t) (tx_created_at t) (Some d)
    (tx_confirmation_deadline t) (tx_firewall_changed t).

(** [new_cfg.revision = r; new_cfg.updated_at = t] and [bypass.qos.enabled = false] *)
Definition with_revision (c : SystemConfig) (r : Z) (t : Time) : SystemConfig :=
  mkSystemConfig r t (c_system c) (c_wan c) (c_lan c) (c_dhcp c) (c_dns c) (c_firewall c) (c_wireguard c)
    (c_wg_client c) (c_cloudflare c) (c_squid_proxy c) (c_adguard c) (c_qos c) (c_wifi c) (c_accounting c)
    (c_trusted_networks c).
Definition without_qos (c : SystemConfig) : SystemConfig :=
  let q := c_qos c in
  mkSystemConfig (c_revision c) (c_updated_at c) (c_system c) (c_wan c) (c_lan c) (c_dhcp c) (c_dns c) (c_firewall c)
    (c_wireguard c) (c_wg_client c) (c_cloudflare c) (c_squid_proxy c) (c_adguard c)
    (mkQoSConfig false (qos_algorithm q) (qos_download_limit_mbps q) (qos_upload_limit_mbps q)) (c_wifi c)
    (c_accounting c) (c_trusted_networks c).

(** ** The environment *)

(** [services::PPPoEConfigBundle] *)
Record PPPoEConfigBundle := mkPPPoE { peer_config : string; chap_secrets : string; pap_secrets : string }.

(** The artifact generators of [services] *)
Class Generators := {
  generate_nftables : SystemConfig -> result string error;
  generate_pppoe : SystemConfig -> result PPPoEConfigBundle error;
  generate_dnsmasq : SystemConfig -> result string error;
  generate_hostapd : SystemConfig -> result string error;
  generate_wireguard : WireGuardConfig -> result string error;
}.

(** The collaborators over a world [W]: each call may change it. *)
Class Env (W : Type) := {
  client_apply : Z -> ApplyRequest -> W -> result ApplyResponse error * W;
  has_store : bool;
  store_save : SystemConfig -> W -> result unit error * W;
  store_snapshot : SystemConfig -> W -> result unit error * W;
  store_audit : string -> list (string * string) -> W -> W;
  clock_now : W -> Time * W;
  instant_now : W -> Z * W;
  observe_leases : W -> DHCPLeaseSnapshot * W;
}.

Record Sys (W : Type) := mkSys { s_st : EngineState; s_heap : list Transaction; s_world : W }.
Arguments mkSys {W} s_st s_heap s_world.
Arguments s_st {W} s.
Arguments s_heap {W} s.
Arguments s_world {W} s.

(** A handler: a result and the system after it. *)
Definition M (W A : Type) : Type := Sys W -> A * Sys W.
Definition ret {W A} (a : A) : M W A := fun s => (a, s).
Definition bind {W A B} (m : M W A) (k : A -> M W B) : M W B := fun s => let '(a, s') := m s in k a s'.
Notation "'let*' x ':=' m 'in' k" := (bind m (fun x => k))
  (at level 10, x pattern, m at level 100, k at level 200) : mr_scope.
Notation "m ';;' k" := (bind m (fun _ => k)) (at level 100, k at level 200, right associativity) : mr_scope.

Definition get_st {W} : M W EngineState := fun s => (s_st s, s).
Definition modify_st {W} (f : EngineState -> EngineState) : M W unit :=
  fun s => (tt, mkSys (f (s_st s)) (s_heap s) (s_world s)).
(** Allocate, read and update a transaction; reading outside the heap gives the
    default, which the references the engine keeps never do. *)
Definition default_tx : Transaction :=
  mkTransaction EmptyString Received SystemConfig_default EmptyString EmptyString time_zero None None false.
Definition tx_new {W} (t : Transaction) : M W TxRef :=
  fun s => (List.length (s_heap s), mkSys (s_st s) (s_heap s ++ [t]) (s_world s)).
Definition tx_get {W} (r : TxRef) : M W Transaction := fun s => (nth r (s_heap s) default_tx, s).
Definition tx_modify {W} (r : TxRef) (f : Transaction -> Transaction) : M W unit :=
  fun s => (tt, mkSys (s_st s) (alter f r (s_heap s)) (s_world s)).
(** A call to a collaborator *)
Definition lift {W A} (f : W -> A * W) : M W A :=
  fun s => let '(a, w) := f (s_world s) in (a, mkSys (s_st s) (s_heap s) w).

Section Engine.
Context {UC : Unicode} {B64 : Base64} {G : Generators} {W : Type} {E : Env W}.

(** ** Requests *)
Definition build_apply_request (tx_id : string) (cfg : SystemConfig) : result ApplyRequest (string * error) :=
  let? nftables := map_err (pair "nftables") (generate_nftables cfg) in
  let? pppoe := map_err (pair "pppd") (generate_pppoe cfg) in
  let? dnsmasq := map_err (pair "dnsmasq") (generate_dnsmasq cfg) in
  let? hostapd := map_err (pair "hostapd") (generate_hostapd cfg) in
  let? wireguard := map_err (pair "WireGuard") (generate_wireguard (c_wireguard cfg)) in
  Ok (mkApplyRequest 0 tx_id op_apply_all (c_revision cfg) cfg nftables (peer_config pppoe) (chap_secrets pppoe) dnsmasq hostapd
        wireguard EmptyString false false EmptyString false false).

(** The attempts of [apply_privileged] still allowed *)
Fixpoint apply_attempts (n : nat) (deadline : Z) (req : ApplyRequest) (last_err : option error)
  : M W (result ApplyResponse error) :=
  match n with
  | O => ret (Err (default (Errorf "router-applyd returned an empty response") last_err))
  | S n' =>
      let* t := lift instant_now in
      if deadline <=? t then ret (Err (default (Errorf "context deadline exceeded") last_err))
      else
        let* r := lift (client_apply deadline req) in
        match r with
        | Ok resp =>
            match response_validate resp with
            | Err e => ret (Err (Wrapf "router-applyd returned an invalid outcome" e))
            | Ok _ => ret (Ok resp)
            end
        | Err e => apply_attempts n' deadline req (Some e)
        end
  end.
Definition apply_privileged (deadline : Z) (req : ApplyRequest) : M W (result ApplyResponse error) :=
  apply_attempts PRIVILEGED_APPLY_ATTEMPTS deadline req None.

(** [privileged]: the state lock is released during the call. *)
Definition privileged (timeout : Z) (req : ApplyRequest) : M W (result ApplyResponse error) :=
  modify_st (set_applying true);;
  let* t := lift instant_now in
  let* r := apply_privileged (t + timeout) req in
  modify_st (set_applying false);;
  ret r.

(** ** Auditing *)
Definition audit_reason (s : State) (phase : string) : string :=
  if phase =s "timeout_rollback" then "confirmation_deadline_expired"
  else match s with
       | Committed => "configuration_committed"
       | AwaitingConfirmation => "confirmation_required"
       | Rejected => "configuration_rejected"
       | RolledBack => "previous_configuration_restored"
       | RecoveryRequired => "recovery_required"
       | _ => "state_recorded"
       end.

(** The details in key order; [extra] stands where [has_error] sorts. *)
Definition audit_details (t : Transaction) (previous : Z) (phase : string) (extra : list (string * string))
  : list (string * string) :=
  [("candidate_revision", show_Z (c_revision (tx_config t)))] ++ extra
  ++ [("phase", phase); ("previous_revision", show_Z previous); ("reason", audit_reason (tx_state t) phase);
      ("state", State_as_str (tx_state t)); ("transaction_id", tx_id t)].

Definition audit_transaction (r : TxRef) (previous : Z) (phase : string) : M W unit :=
  if negb has_store then ret tt
  else
    let* t := tx_get r in
    (if tx_firewall_changed t then
       lift (fun w => (tt, store_audit "firewall.transaction" (audit_details t previous phase []) w))
     else ret tt);;
    lift (fun w => (tt, store_audit "config.transaction"
                          (audit_details t previous phase
                             [("has_error", if negb (is_empty (tx_error t)) then "true" else "false")]) w)).

(** ** Admission of a candidate *)

(** The guards that compare the candidate with the engine's state, in order *)
Definition admission_guards (st : EngineState) (new_cfg : SystemConfig) (allow_interface_change : bool)
  : option (State * string) :=
  let current := st_current_config st in
  if st_recovery_required st then
    Some (RecoveryRequired,
          "configuration changes are blocked until canonical reconciliation succeeds"
          +:+ (if negb (is_empty (st_recovery_reason st)) then ": " +:+ st_recovery_reason st else EmptyString))
  else if negb (is_none (st_pending st)) then
    Some (Rejected, "another configuration is awaiting confirmation")
  else if negb (c_revision new_cfg =? c_revision current) then
    Some (Rejected, "stale revision: expected " +:+ show_Z (c_revision current) +:+ ", received "
                    +:+ show_Z (c_revision new_cfg))
  else if negb allow_interface_change && (lan_interface (c_lan new_cfg) <>s lan_interface (c_lan current)) then
    Some (Rejected, "live LAN interface changes are unsupported; use the local recovery console")
  else if negb allow_interface_change
          && negb (same_ipv4_network (lan_cidr (c_lan current)) (lan_cidr (c_lan new_cfg))) then
    Some (Rejected, "live LAN subnet changes are unsupported; use the local recovery console")
  else if negb (sys_https_port (c_system new_cfg) =? sys_https_port (c_system current)) then
    Some (Rejected, "live management-port changes are unsupported")
  else if (sys_management_access (c_system new_cfg) =s "wireguard_only")
          && (sys_management_access (c_system current) <>s "wireguard_only")
          && negb (wg_enabled (c_wireguard current)) then
    Some (Rejected, "enable and verify WireGuard in a separate transaction before restricting management access")
  else None.

(** The checks after the guards: validation, observed leases, transition safety. *)
Definition admission_checks (current new_cfg : SystemConfig) (allow_interface_change : bool)
  : M W (option (string * error)) :=
  match validate_live_candidate new_cfg (Some current) with
  | Err err => ret (Some ("Validation failed: " +:+ error_string err, err))
  | Ok _ =>
      if allow_interface_change then ret None
      else
        let* observed :=
          (if lan_change_observed current new_cfg then
             let* snapshot := lift observe_leases in
             ret (inspect_lan_observation current new_cfg snapshot)
           else ret (Ok [])) in
        match observed with
        | Err err => ret (Some (error_string err, err))
        | Ok _ =>
            match validate_transition_safety current new_cfg with
            | Err err => ret (Some ("Transition safety validation failed: " +:+ error_string err, err))
            | Ok _ => ret None
            end
        end
  end.

(** [current.revision.checked_add(1).filter(|r| r <= i64::MAX)] on [u64] *)
Definition next_revision (revision : Z) : option Z :=
  if (revision + 1 <=? u64_max) && (revision + 1 <=? i64_max) then Some (revision + 1) else None.

(** ** [process_locked] *)
Abbreviation commit_fn := (SystemConfig -> W -> result unit error * W).

(** The closure [set] *)
Definition set_tx (tx : TxRef) (state : State) (error : option string) : M W unit :=
  tx_modify tx (fun t =>
    let t' := with_tx_state t state in match error with Some e => with_tx_error t' e | None => t' end).

(** [set(RecoveryRequired, msg); st.require_recovery(msg)] *)
Definition fail_recovery (tx : TxRef) (msg : string) (err : error) : M W (result unit error) :=
  set_tx tx RecoveryRequired (Some msg);;
  modify_st (require_recovery msg);;
  ret (Err err).

(** The acknowledgement that lets the helper persist last-good *)
Definition commit_ack_request (id : string) (cfg : SystemConfig) : ApplyRequest :=
  with_skip_wan_verify (bare_request id op_commit_confirmed (c_revision cfg) cfg).

(** The store refused the configuration after the helper applied it: restore
    the previous runtime, or require recovery. *)
Definition undo_uncommitted (tx : TxRef) (tx_id : string) (err : error) : M W (result unit error) :=
  let msg := "failed to commit config store: " +:+ error_string err in
  let* st := get_st in
  let* outcome :=
    match build_apply_request (tx_id +:+ "-rollback") (st_current_config st) with
    | Ok rollback_req =>
        let* rollback := privileged PRIVILEGED_APPLY_TIMEOUT rollback_req in
        match rollback with
        | Ok r =>
            if resp_success r && resp_verified r && negb (resp_recovery_required r)
            then ret (RolledBack, msg +:+ "; previous configuration was verified restored")
            else ret (RecoveryRequired, msg +:+ "; rollback could not be verified and recovery is required")
        | Err _ => ret (RecoveryRequired, msg +:+ "; rollback could not be verified and recovery is required")
        end
    | Err _ => ret (RecoveryRequired, msg +:+ "; rollback request could not be generated and recovery is required")
    end in
  set_tx tx (fst outcome) (Some (snd outcome));;
  (if decide (fst outcome = RecoveryRequired) then modify_st (require_recovery (snd outcome)) else ret tt);;
  ret (Err err).

(** The helper verified a change that needs no confirmation: commit it. *)
Definition commit_applied (tx : TxRef) (tx_id : string) (new_cfg : SystemConfig) (commit_config : option commit_fn)
  (defer_last_good : bool) : M W (result unit error) :=
  let finish := set_tx tx Committed None;; modify_st (set_current new_cfg);; ret (Ok tt) in
  match commit_config with
  | None => finish
  | Some commit_config =>
      let* r := lift (commit_config new_cfg) in
      match r with
      | Err err => undo_uncommitted tx tx_id err
      | Ok _ =>
          modify_st (set_current new_cfg);;
          if negb defer_last_good then finish
          else
            let* ack_result :=
              privileged PRIVILEGED_APPLY_TIMEOUT (commit_ack_request (tx_id +:+ "-commit-canonical-0") new_cfg) in
            match ack_result with
            | Err e =>
                fail_recovery tx
                  ("canonical configuration was committed but helper last-good acknowledgement is unknown: "
                   +:+ error_string e) (Errorf "helper commit acknowledgement failed")
            | Ok r =>
                if negb (resp_success r) || negb (resp_verified r) then
                  fail_recovery tx
                    ("canonical configuration was committed but the helper last-good acknowledgement failed: "
                     +:+ resp_error r) (Errorf "helper commit acknowledgement failed")
                else finish
            end
      end
  end.

(** The helper verified a change that needs confirmation: wait for it. *)
Definition await_confirmation (tx : TxRef) (current : SystemConfig) (handshake_not_before : Z)
  : M W (result unit error) :=
  let* now := lift clock_now in
  tx_modify tx (fun t => with_tx_deadline (with_tx_state t AwaitingConfirmation)
                           (Some (time_add now CONFIRMATION_TIMEOUT)));;
  modify_st (set_pending (Some (mkPending tx handshake_not_before current
                                  (Some (mkTimer CONFIRMATION_TIMEOUT false)) 0 0 false)));;
  ret (Ok tt).

(** Sending the request and acting on the answer *)
Definition apply_candidate (tx : TxRef) (tx_id : string) (current new_cfg : SystemConfig) (request : ApplyRequest)
  (allow_interface_change : bool) (commit_config : option commit_fn) : M W (result unit error) :=
  let require_confirmation := negb allow_interface_change && requires_confirmation current new_cfg in
  let defer_last_good := negb require_confirmation && negb (is_none commit_config) in
  let apply_req := with_modes request require_confirmation defer_last_good in
  let* now := lift clock_now in
  let* answer := privileged PRIVILEGED_APPLY_TIMEOUT apply_req in
  match answer with
  | Err err =>
      let msg := "privileged apply outcome remained unknown after retry; recovery or reboot reconciliation is required: "
                 +:+ error_string err in
      fail_recovery tx msg (Errorf msg)
  | Ok resp =>
      if negb (resp_success resp) then
        let state := if resp_recovery_required resp then RecoveryRequired
                     else if resp_rolled_back resp then RolledBack else Rejected in
        let msg := "privileged apply failed: " +:+ resp_error resp in
        set_tx tx state (Some msg);;
        (if decide (state = RecoveryRequired) then modify_st (require_recovery msg) else ret tt);;
        ret (Err (Errorf ("apply rejected by router-applyd: " +:+ resp_error resp)))
      else
        set_tx tx Applied None;;
        if negb (resp_verified resp) then
          let msg := "router-applyd did not verify the active configuration; recovery is required" in
          fail_recovery tx msg (Errorf msg)
        else
          set_tx tx Verified None;;
          tx_modify tx (fun t => with_tx_config t new_cfg);;
          if require_confirmation then await_confirmation tx current (time_unix now)
          else commit_applied tx tx_id new_cfg commit_config defer_last_good
  end.

Definition process_locked (tx : TxRef) (tx_id : string) (cfg : SystemConfig) (allow_interface_change : bool)
  (commit : option commit_fn) : M W (result unit error) :=
  let* st := get_st in
  let current := st_current_config st in
  match admission_guards st cfg allow_interface_change with
  | Some (state, msg) => set_tx tx state (Some msg);; ret (Err (Errorf msg))
  | None =>
      let* checked := admission_checks current cfg allow_interface_change in
      match checked with
      | Some (msg, err) => set_tx tx Rejected (Some msg);; ret (Err err)
      | None =>
          match next_revision (c_revision current) with
          | None =>
              let msg := "configuration revision limit reached" in
              set_tx tx Rejected (Some msg);; ret (Err (Errorf msg))
          | Some revision =>
              let* now := lift clock_now in
              let new_cfg := with_revision cfg revision now in
              tx_modify tx (fun t => with_tx_config t new_cfg);;
              set_tx tx Planned None;;
              match build_apply_request tx_id new_cfg with
              | Err (what, err) =>
                  set_tx tx Rejected (Some (what +:+ " generator failed: " +:+ error_string err));; ret (Err err)
              | Ok request =>
                  set_tx tx Generated None;;
                  let* snapshotted := (if has_store then lift (store_snapshot current) else ret (Ok tt)) in
                  match snapshotted with
                  | Err err =>
                      set_tx tx Rejected (Some ("Pre-apply snapshot creation failed: " +:+ error_string err));;
                      ret (Err err)
                  | Ok _ =>
                      set_tx tx Snapshotted None;;
                      let commit_config :=
                        match commit with Some c => Some c | None => if has_store then Some store_save else None end in
                      apply_candidate tx tx_id current new_cfg request allow_interface_change commit_config
                  end
              end
          end
      end
  end.

Definition process (tx_id : string) (cfg : SystemConfig) (allow_interface_change : bool) (commit : option commit_fn)
  : M W (Transaction * result unit error) :=
  let* st := get_st in
  let* now := lift clock_now in
  let* tx := tx_new (mkTransaction tx_id Received cfg EmptyString EmptyString now None None
    (negb (equal_section FirewallConfig_json (c_firewall (st_current_config st)) (c_firewall cfg)))) in
  let previous_revision := c_revision (st_current_config st) in
  modify_st (set_active (Some tx));;
  let* r := process_locked tx tx_id cfg allow_interface_change commit in
  audit_transaction tx previous_revision "apply";;
  let* snapshot := tx_get tx in
  ret (snapshot, r).

Definition process_transaction (tx_id : string) (cfg : SystemConfig) : M W (Transaction * result unit error) :=
  process tx_id cfg false None.
Definition process_initial_setup (tx_id : string) (cfg : SystemConfig) (commit : commit_fn)
  : M W (Transaction * result unit error) :=
  process tx_id cfg true (Some commit).

(** ** Confirmation *)

(** [i64] saturating arithmetic *)
Definition sat_i64 (v : Z) : Z := Z.max i64_min (Z.min i64_max v).

Definition verify_wg_client_handshake (last_handshake keepalive : Z) (not_before : option Z) (now : Z)
  : result unit error :=
  if last_handshake <=? 0 then Err (Errorf "WireGuard client tunnel has no completed handshake")
  else if sat_i64 (now + 30) <? last_handshake then
    Err (Errorf "WireGuard client handshake timestamp is in the future")
  else if some_and (fun start => (start <=? 0) || (last_handshake <? start)) not_before then
    Err (Errorf "WireGuard client requires a new handshake after configuration activation")
  else if (0 <? keepalive) || negb (is_none not_before) then
    let max_age := Z.max 180 (sat_i64 (keepalive * 3)) in
    if max_age <? sat_i64 (now - last_handshake) then Err (Errorf "WireGuard client handshake is stale") else Ok tt
  else Ok tt.

(** [st.pending.as_mut().expect("pending")] *)
Definition modify_pending (f : PendingChange -> PendingChange) : M W unit :=
  modify_st (fun st => set_pending (f <$> st_pending st) st).

(** Part of [confirm_locked]: a changed tunnel must have shaken hands since the
    activation. *)
Definition confirm_handshake (tx : TxRef) (tx_id : string) (p : PendingChange) (candidate : SystemConfig)
  : M W (result unit error) :=
  if negb (equal_section WGClientConfig_json (c_wg_client (p_previous p)) (c_wg_client candidate))
     && wgc_enabled (c_wg_client candidate)
  then
    let status_req := with_tunnel_interface
      (bare_request (tx_id +:+ "-wg1-status") op_wg_tunnel_status 0 candidate) (wgc_interface (c_wg_client candidate)) in
    let* status := privileged (dur_secs 15) status_req in
    let unavailable :=
      let msg := "WireGuard client confirmation failed: tunnel status is unavailable" in
      tx_modify tx (fun t => with_tx_error t msg);; ret (Err (Errorf msg)) in
    match status with
    | Ok r =>
        match resp_success r, resp_tunnel_status r with
        | true, Some tunnel =>
            let* now := lift clock_now in
            match verify_wg_client_handshake (ts_last_handshake tunnel)
                    (wgc_persistent_keepalive (c_wg_client candidate)) (Some (p_handshake_not_before p))
                    (time_unix now) with
            | Err err =>
                tx_modify tx (fun t => with_tx_error t ("WireGuard client confirmation failed: " +:+ error_string err));;
                ret (Err err)
            | Ok _ => ret (Ok tt)
            end
        | _, _ => unavailable
        end
    | Err _ => unavailable
    end
  else ret (Ok tt).

(** Part of [confirm_locked]: make the candidate canonical, once. *)
Definition confirm_commit (tx : TxRef) (candidate : SystemConfig) : M W (result unit error) :=
  let* saved := (if has_store then lift (store_save candidate) else ret (Ok tt)) in
  match saved with
  | Err err =>
      set_tx tx RecoveryRequired
        (Some "management-path confirmation succeeded but canonical configuration could not be committed; retry confirmation or allow verified rollback");;
      ret (Err (Wrapf "failed to commit confirmed configuration" err))
  | Ok _ =>
      modify_pending (fun p => stop_timer (with_committed p));;
      modify_st (set_current candidate);;
      ret (Ok tt)
  end.

(** Part of [confirm_locked]: re-federate the runtime after a LAN move. *)
Definition confirm_finalize (tx : TxRef) (tx_id : string) (previous candidate : SystemConfig)
  : M W (result unit error) :=
  let lan_changed := (lan_ip_address (c_lan previous) <>s lan_ip_address (c_lan candidate))
                     || (lan_cidr (c_lan previous) <>s lan_cidr (c_lan candidate)) in
  if negb lan_changed then ret (Ok tt)
  else
    match build_apply_request (tx_id +:+ "-finalize-lan") candidate with
    | Err (_, err) =>
        fail_recovery tx
          ("canonical LAN configuration was committed but final federation request could not be generated: "
           +:+ error_string err) err
    | Ok finalize =>
        let* answer := privileged PRIVILEGED_APPLY_TIMEOUT (with_op finalize op_reconcile) in
        match answer with
        | Err e =>
            fail_recovery tx
              ("canonical LAN configuration was committed but final runtime reconciliation is unknown: "
               +:+ error_string e) (Errorf "LAN runtime finalization failed")
        | Ok r =>
            if negb (resp_success r) || negb (resp_verified r) then
              fail_recovery tx
                ("canonical LAN configuration was committed but final runtime reconciliation failed: "
                 +:+ resp_error r) (Errorf "LAN runtime finalization failed")
            else ret (Ok tt)
        end
    end.

(** The helper's acknowledgement of the confirmed configuration *)
Definition confirm_ack (tx : TxRef) (tx_id : string) (attempt : Z) (candidate : SystemConfig)
  : M W (result unit error) :=
  let* commit :=
    privileged PRIVILEGED_APPLY_TIMEOUT
      (commit_ack_request (tx_id +:+ "-commit-confirmed-" +:+ show_Z attempt) candidate) in
  match commit with
  | Err e =>
      fail_recovery tx
        ("canonical configuration was committed but helper last-good acknowledgement is unknown: "
         +:+ error_string e) (Errorf "confirmed helper commit failed")
  | Ok r =>
      if negb (resp_success r) || negb (resp_verified r) then
        fail_recovery tx
          ("canonical configuration was committed but helper last-good acknowledgement failed: "
           +:+ resp_error r) (Errorf "confirmed helper commit failed")
      else ret (Ok tt)
  end.

(** [r?] in a handler *)
Definition and_then (m : M W (result unit error)) (k : M W (result unit error)) : M W (result unit error) :=
  let* r := m in match r with Err e => ret (Err e) | Ok _ => k end.

(** Part of [confirm_locked], once the candidate is canonical: acknowledge,
    re-federate, commit. *)
Definition confirm_tail (tx : TxRef) (tx_id : string) (previous candidate : SystemConfig)
  : M W (result unit error) :=
  modify_pending (fun p => with_attempts p (p_rollback_attempts p) (p_commit_attempts p + 1));;
  let* st := get_st in
  let attempt := match st_pending st with Some p => p_commit_attempts p | None => 0 end in
  and_then (confirm_ack tx tx_id attempt candidate) (
  and_then (confirm_finalize tx tx_id previous candidate) (
  let* now := lift clock_now in
  tx_modify tx (fun t => with_tx_state (with_tx_confirmed t now) Committed);;
  modify_st (set_current candidate);;
  modify_st (set_pending None);;
  modify_st (set_active (Some tx));;
  modify_st clear_recovery;;
  ret (Ok tt))).

Definition confirm_locked (tx : TxRef) (tx_id : string) (pending : PendingChange) : M W (result unit error) :=
  let* t := tx_get tx in
  let candidate := tx_config t in
  and_then (if negb (p_canonical_committed pending)
            then and_then (confirm_handshake tx tx_id pending candidate) (confirm_commit tx candidate)
            else ret (Ok tt))
    (confirm_tail tx tx_id (p_previous pending) candidate).

Definition confirm_transaction (id : string) : M W (option Transaction * result unit error) :=
  let* st := get_st in
  let absent := (None, Err (Errorf "transaction is not awaiting confirmation")) in
  match st_pending st with
  | None => ret absent
  | Some pending =>
      let* t := tx_get (p_tx pending) in
      if tx_id t <>s id then ret absent
      else
        let* r := confirm_locked (p_tx pending) id pending in
        audit_transaction (p_tx pending) (c_revision (p_previous pending)) "confirm";;
        let* snapshot := tx_get (p_tx pending) in
        ret (Some snapshot, r)
  end.

(** ** The confirmation timer *)

(** [ROLLBACK_RETRY_DELAY * (1u32 << (attempts - 1))] *)
Definition retry_delay (attempts : Z) : Z := ROLLBACK_RETRY_DELAY * Z.shiftl 1 (attempts - 1).

(** Attempt [attempts] at restoring the previous configuration *)
Definition rollback_attempt (tx : TxRef) (id : string) (previous : SystemConfig) (attempts : Z) : M W unit :=
  let retry (why : string) :=
    set_tx tx RecoveryRequired (Some why);;
    modify_pending (fun p => with_timer p (Some (mkTimer (retry_delay attempts) false)));;
    audit_transaction tx (c_revision previous) "timeout_rollback" in
  match build_apply_request (id +:+ "-timeout-rollback-" +:+ show_Z attempts) previous with
  | Ok req =>
      let* answer := privileged PRIVILEGED_APPLY_TIMEOUT req in
      let restored := match answer with Ok r => resp_success r && resp_verified r | Err _ => false end in
      if restored then
        set_tx tx RolledBack (Some "confirmation deadline expired; previous configuration restored");;
        modify_st (set_pending None);;
        modify_st clear_recovery;;
        audit_transaction tx (c_revision previous) "timeout_rollback"
      else retry "confirmation deadline expired and privileged rollback failed; retry scheduled while candidate access remains available"
  | Err _ =>
      retry "confirmation deadline expired and rollback generation failed; retry scheduled while candidate access remains available"
  end.

Definition rollback_expired (id : string) : M W unit :=
  let* st := get_st in
  match st_pending st with
  | None => ret tt
  | Some pending =>
      let tx := p_tx pending in
      let* t := tx_get tx in
      if (tx_id t <>s id) || p_canonical_committed pending then ret tt
      else
        let attempts := p_rollback_attempts pending + 1 in
        modify_pending (fun p => with_attempts p attempts (p_commit_attempts p));;
        if MAXIMUM_ROLLBACK_ATTEMPTS <? attempts then
          let msg := "confirmation deadline expired and automatic rollback attempts were exhausted" in
          set_tx tx RecoveryRequired (Some msg);;
          modify_st (require_recovery msg);;
          modify_st (set_pending None);;
          audit_transaction tx (c_revision (p_previous pending)) "timeout_rollback"
        else rollback_attempt tx id (p_previous pending) attempts
  end.

(** ** Reconciliation *)

(** [Time::unix_nano] *)
Definition unix_nano (t : Time) : Z := wall t.

(** What a verified reconciliation does to a pending change *)
Definition settle_pending (pending : PendingChange) : M W unit :=
  tx_modify (p_tx pending) (fun t => with_tx_deadline t None);;
  (if p_canonical_committed pending then
     let* now := lift clock_now in
     tx_modify (p_tx pending) (fun t => with_tx_error (with_tx_state (with_tx_confirmed t now) Committed) EmptyString)
   else
     set_tx (p_tx pending) RolledBack (Some "unconfirmed candidate discarded; canonical configuration restored"));;
  modify_st (set_pending None);;
  modify_st (set_active (Some (p_tx pending))).

Definition reconcile (deadline : Z) : M W (result unit error) :=
  let* st := get_st in
  let* now := lift clock_now in
  match build_apply_request ("boot-reconcile-" +:+ show_Z (unix_nano now)) (st_current_config st) with
  | Err (_, e) => ret (Err e)
  | Ok req =>
      modify_st (set_applying true);;
      let* answer := apply_privileged deadline (with_op req op_reconcile) in
      modify_st (set_applying false);;
      match answer with
      | Err err =>
          let reason := "boot reconciliation failed: " +:+ error_string err in
          modify_st (require_recovery reason);; ret (Err (Errorf reason))
      | Ok resp =>
          if negb (resp_success resp) || negb (resp_verified resp) || resp_recovery_required resp then
            let reason := "boot reconciliation was not verified: " +:+ resp_error resp in
            modify_st (require_recovery reason);; ret (Err (Errorf reason))
          else
            let* st' := get_st in
            (match st_pending st' with Some pending => settle_pending pending | None => ret tt end);;
            modify_st clear_recovery;;
            ret (Ok tt)
      end
  end.

(** ** Status and the temporary QoS bypass *)
Record EngineStatus := mkEngineStatus {
  es_applying : bool;
  es_recovery_required : bool;
  es_recovery_reason : string;
  es_active_transaction_id : string;
  es_active_state : option State;
}.

Definition get_status : M W EngineStatus :=
  let* st := get_st in
  match st_active_tx st with
  | Some r =>
      let* t := tx_get r in
      ret (mkEngineStatus (st_applying st) (st_recovery_required st) (st_recovery_reason st) (tx_id t)
             (Some (tx_state t)))
  | None => ret (mkEngineStatus (st_applying st) (st_recovery_required st) (st_recovery_reason st) EmptyString None)
  end.

Definition get_pending_transaction : M W (option Transaction) :=
  let* st := get_st in
  match st_pending st with
  | Some p => let* t := tx_get (p_tx p) in ret (Some t)
  | None => ret None
  end.

Definition action_allowed (st : EngineState) : bool :=
  negb (st_applying st) && negb (st_recovery_required st) && is_none (st_pending st).

Definition apply_temporary_runtime (req : ApplyRequest) : M W (result unit error) :=
  let* answer := privileged PRIVILEGED_APPLY_TIMEOUT req in
  match answer with
  | Err e => ret (Err e)
  | Ok resp =>
      if negb (resp_success resp) || negb (resp_verified resp) then
        if negb (is_empty (resp_error resp)) then
          ret (Err (Errorf ("router-applyd rejected temporary runtime: " +:+ resp_error resp)))
        else ret (Err (Errorf "router-applyd did not verify temporary runtime"))
      else ret (Ok tt)
  end.

Definition err_of (r : result unit error) : option error := match r with Ok _ => None | Err e => Some e end.

(** Part of [with_qos_bypassed]: the errors joined in order; a failed restoration
    requires recovery. *)
Definition qos_report (bypass_err measurement_err restore_err : option error) : M W (result unit error) :=
  (match restore_err with
   | Some err =>
       modify_st (require_recovery ("temporary QoS bypass could not restore the canonical runtime: "
                                    +:+ error_string err))
   | None => ret tt
   end);;
  match omap id [bypass_err; measurement_err; restore_err] with
  | [] => ret (Ok tt)
  | joined => ret (Err (Errorf (join (String "010"%char EmptyString) (map error_string joined))))
  end.

(** Part of [with_qos_bypassed]: after the bypass was tried with result [b],
    measure if it is active, and restore the canonical runtime in any case. *)
Definition qos_restore (canonical : SystemConfig) (b : result unit error) (f : W -> result unit error * W)
  : M W (result unit error) :=
  let bypass_err := Wrapf "activate temporary QoS bypass" <$> err_of b in
  let* measurement_err :=
    (match bypass_err with
     | None => let* r := lift f in ret (err_of r)
     | Some _ => ret None
     end) in
  let* now := lift clock_now in
  let* restore_err :=
    (match build_apply_request ("speedtest-qos-restore-" +:+ show_Z (unix_nano now)) canonical with
     | Err (_, e) => ret (Some (Wrapf "build canonical QoS restore" e))
     | Ok req =>
         let* r := apply_temporary_runtime (with_modes (with_op req op_reconcile) false false) in
         ret (Wrapf "restore canonical QoS runtime" <$> err_of r)
     end) in
  qos_report bypass_err measurement_err restore_err.

(** The measurement [f] is an action on the world. *)
Definition with_qos_bypassed (f : W -> result unit error * W) : M W (result unit error) :=
  let* st := get_st in
  if st_recovery_required st then
    ret (Err (Errorf ("temporary QoS bypass is blocked while recovery is required"
                      +:+ (if is_empty (st_recovery_reason st) then EmptyString else ": " +:+ st_recovery_reason st))))
  else if negb (is_none (st_pending st)) then
    ret (Err (Errorf "temporary QoS bypass is blocked while a configuration change awaits confirmation"))
  else
    let canonical := st_current_config st in
    if negb (qos_enabled (c_qos canonical)) then lift f
    else
      let bypass := without_qos canonical in
      let* now := lift clock_now in
      match build_apply_request ("speedtest-qos-bypass-" +:+ show_Z (unix_nano now)) bypass with
      | Err (_, e) => ret (Err (Wrapf "build temporary QoS bypass" e))
      | Ok bypass_req =>
          let* b := apply_temporary_runtime (with_modes bypass_req false true) in
          qos_restore canonical b f
      end.

(** ** Transitions

    What can happen to an engine: a handler called by the API or at boot, or a
    timer's callback.  A stopped timer may still fire (its flag is read before
    the callback waits for the lock), so a callback is possible at any time.
    [measurement] says which actions are run under [with_qos_bypassed]. *)
Inductive step (measurement : (W -> result unit error * W) -> Prop) : Sys W -> Sys W -> Prop :=
| step_process id cfg allow commit s : step measurement s (snd (process id cfg allow commit s))
| step_confirm id s : step measurement s (snd (confirm_transaction id s))
| step_rollback id s : step measurement s (snd (rollback_expired id s))
| step_reconcile deadline s : step measurement s (snd (reconcile deadline s))
| step_qos f s : measurement f -> step measurement s (snd (with_qos_bypassed f s)).

Inductive reachable (measurement : (W -> result unit error * W) -> Prop) (initial : SystemConfig) (w0 : W)
  : Sys W -> Prop :=
| reach_init : reachable measurement initial w0 (mkSys (engine_new initial) [] w0)
| reach_step s s' :
    reachable measurement initial w0 s -> step measurement s s' -> reachable measurement initial w0 s'.
End Engine.
