(* ===== verification/EngineSpec.v ===== *)
(** * The engine's guarantees

    Symbolic execution of the handlers of [Engine], what each outcome of a
    transaction means for the engine's state, the invariant of every reachable
    state, and the agreement of the running configuration with the canonical
    one under the helper's contract. *)

From Stdlib Require Import ZArith Ascii String Lia Bool.
From stdpp Require Import base list strings gmap.
From S2P Require Import Prelude GoStrings Net GoTime Json Model Validation ValidationSpec Policy PolicySpec Ipc Safety Engine.

Local Open Scope string_scope.
Local Open Scope Z_scope.
Local Open Scope list_scope.

(** ** Weakest preconditions *)
Definition wp {W A} (m : M W A) (Q : A -> Sys W -> Prop) (s : Sys W) : Prop := Q (fst (m s)) (snd (m s)).

Section Rules.
Context {W : Type}.
Implicit Types (e : EngineState) (h : list Transaction) (w : W).

Lemma wp_bind {A B} (m : M W A) (k : A -> M W B) Q s : wp (bind m k) Q s <-> wp m (fun a s' => wp (k a) Q s') s.
Proof. unfold wp, bind. by destruct (m s). Qed.
Lemma wp_ret {A} (a : A) Q s : wp (ret (W := W) a) Q s <-> Q a s.
Proof. done. Qed.
Lemma wp_get_st Q e h w : wp get_st Q (mkSys e h w) <-> Q e (mkSys e h w).
Proof. done. Qed.
Lemma wp_modify_st f Q e h w : wp (modify_st f) Q (mkSys e h w) <-> Q tt (mkSys (f e) h w).
Proof. done. Qed.
Lemma wp_lift {A} (f : W -> A * W) Q e h w : wp (lift f) Q (mkSys e h w) <-> Q (fst (f w)) (mkSys e h (snd (f w))).
Proof. unfold wp, lift. cbn. by destruct (f w). Qed.
Lemma wp_mono {A} (m : M W A) (P Q : A -> Sys W -> Prop) s :
  wp m P s -> (forall a s', P a s' -> Q a s') -> wp m Q s.
Proof. unfold wp. auto. Qed.

(** With the heap in the form [<[tx := t]> h] *)
Lemma wp_tx_modify tx f Q e h t w : (tx < List.length h)%nat ->
  wp (tx_modify tx f) Q (mkSys e (<[tx := t]> h) w) <-> Q tt (mkSys e (<[tx := f t]> h) w).
Proof.
  intros Hl. unfold wp, tx_modify. cbn.
  replace (alter f tx (<[tx := t]> h)) with (<[tx := f t]> h); [done|].
  apply list_eq. intros i. destruct (decide (i = tx)) as [->|Hne].
  - rewrite list_lookup_alter_eq, !list_lookup_insert_eq by done. done.
  - by rewrite list_lookup_alter_ne, !list_lookup_insert_ne by done.
Qed.
Lemma wp_tx_get tx Q e h t w : (tx < List.length h)%nat ->
  wp (tx_get tx) Q (mkSys e (<[tx := t]> h) w) <-> Q t (mkSys e (<[tx := t]> h) w).
Proof.
  intros Hl. unfold wp, tx_get. cbn. erewrite nth_lookup_Some; [done|]. by apply list_lookup_insert_eq.
Qed.
End Rules.

Section Calls.
Context {W : Type} {E : Env W}.
Implicit Types (e : EngineState) (h : list Transaction) (w : W).

(** ** Calls as functions of the world *)
Fixpoint attempts_w (n : nat) (deadline : Z) (req : ApplyRequest) (last_err : option error) (w : W)
  : result ApplyResponse error * W :=
  match n with
  | O => (Err (default (Errorf "router-applyd returned an empty response") last_err), w)
  | S n' =>
      let '(t, w1) := instant_now w in
      if deadline <=? t then (Err (default (Errorf "context deadline exceeded") last_err), w1)
      else
        match client_apply deadline req w1 with
        | (Ok resp, w2) =>
            match response_validate resp with
            | Err e => (Err (Wrapf "router-applyd returned an invalid outcome" e), w2)
            | Ok _ => (Ok resp, w2)
            end
        | (Err e, w2) => attempts_w n' deadline req (Some e) w2
        end
  end.
Definition apply_w (deadline : Z) (req : ApplyRequest) (w : W) : result ApplyResponse error * W :=
  attempts_w PRIVILEGED_APPLY_ATTEMPTS deadline req None w.
Definition privileged_w (timeout : Z) (req : ApplyRequest) (w : W) : result ApplyResponse error * W :=
  let '(t, w1) := instant_now w in apply_w (t + timeout) req w1.

Lemma apply_attempts_lift n d req last s : apply_attempts n d req last s = lift (attempts_w n d req last) s.
Proof.
  revert last s. induction n as [|n IH]; intros last [e h w]; [done|]. cbn. unfold bind, lift. cbn.
  destruct (instant_now w) as [t w1]. cbn. destruct (d <=? t); [done|]. cbn.
  destruct (client_apply d req w1) as [[resp|err] w2]; cbn; [by destruct (response_validate resp)|].
  rewrite IH. done.
Qed.

Lemma wp_apply_privileged d req Q e h w :
  wp (apply_privileged d req) Q (mkSys e h w)
  <-> Q (fst (apply_w d req w)) (mkSys e h (snd (apply_w d req w))).
Proof. unfold wp, apply_privileged. rewrite apply_attempts_lift. apply wp_lift. Qed.

Lemma wp_privileged timeout req Q e h w :
  wp (privileged timeout req) Q (mkSys e h w)
  <-> Q (fst (privileged_w timeout req w)) (mkSys (set_applying false e) h (snd (privileged_w timeout req w))).
Proof.
  unfold privileged. rewrite wp_bind, wp_modify_st, wp_bind, wp_lift, wp_bind, wp_apply_privileged, wp_bind, wp_modify_st, wp_ret.
  unfold privileged_w. by destruct (instant_now w) as [t w1].
Qed.

(** A response the engine accepts passed the check. *)
Lemma attempts_w_valid n d req last w resp w' : attempts_w n d req last w = (Ok resp, w') ->
  response_validate resp = Ok tt.
Proof.
  revert last w. induction n as [|n IH]; intros last w; cbn; [done|].
  destruct (instant_now w) as [t w1]. destruct (d <=? t); [done|].
  destruct (client_apply d req w1) as [[r|err] w2]; [|apply IH].
  destruct (response_validate r) as [[]|] eqn:Er; [|done]. intros Hq. by simplify_eq.
Qed.

Lemma privileged_w_valid timeout req w resp w' : privileged_w timeout req w = (Ok resp, w') ->
  response_validate resp = Ok tt.
Proof. unfold privileged_w, apply_w. destruct (instant_now w). apply attempts_w_valid. Qed.

Lemma privileged_success timeout req w resp w' : privileged_w timeout req w = (Ok resp, w') ->
  resp_success resp = true -> resp_verified resp = true.
Proof. intros Hv%privileged_w_valid%response_validate_cases Hs. by apply Hv. Qed.

(** ** Auditing *)
Definition audited (t : Transaction) (previous : Z) (phase : string) (w : W) : W :=
  if negb has_store then w
  else
    store_audit "config.transaction"
      (audit_details t previous phase [("has_error", if negb (is_empty (tx_error t)) then "true" else "false")])
      (if tx_firewall_changed t then store_audit "firewall.transaction" (audit_details t previous phase []) w else w).

Lemma wp_audit tx previous phase Q e h t w : (tx < List.length h)%nat ->
  wp (audit_transaction tx previous phase) Q (mkSys e (<[tx := t]> h) w)
  <-> Q tt (mkSys e (<[tx := t]> h) (audited t previous phase w)).
Proof.
  intros Hl. unfold audit_transaction, audited. destruct has_store; cbn [negb]; [|done].
  rewrite wp_bind, wp_tx_get, wp_bind by done. by destruct (tx_firewall_changed t); rewrite ?wp_lift, ?wp_ret, ?wp_lift.
Qed.

End Calls.

(** One step of symbolic execution; references are in the heap by assumption. *)
Ltac wp_step :=
  first [ rewrite wp_bind | rewrite wp_ret | rewrite wp_get_st | rewrite wp_modify_st | rewrite wp_privileged
        | rewrite wp_apply_privileged | rewrite wp_tx_modify by assumption | rewrite wp_tx_get by assumption
        | rewrite wp_audit by assumption | rewrite wp_lift ].
Ltac wp_run := repeat (wp_step; cbv beta).

Section Spec.
Context {UC : Unicode} {B64 : Base64} {G : Generators} {W : Type} {E : Env W}.
Implicit Types (e : EngineState) (h : list Transaction) (w : W).

(** ** How the world moves

    [evolves w w'] relates worlds through calls that, by their own report,
    leave the running configuration alone: the clocks, the lease file, the
    store, the audit log, and requests the helper refused or rolled back. *)
Inductive evolves : W -> W -> Prop :=
| ev_refl w : evolves w w
| ev_trans w1 w2 w3 : evolves w1 w2 -> evolves w2 w3 -> evolves w1 w3
| ev_clock w : evolves w (snd (clock_now w))
| ev_instant w : evolves w (snd (instant_now w))
| ev_leases w : evolves w (snd (observe_leases w))
| ev_snapshot c w : evolves w (snd (store_snapshot c w))
| ev_save c w : evolves w (snd (store_save c w))
| ev_audit k d w : evolves w (store_audit k d w)
| ev_refused timeout req w r w' :
    privileged_w timeout req w = (Ok r, w') -> resp_success r = false -> resp_recovery_required r = false ->
    evolves w w'.
#[local] Hint Constructors evolves : mr.

(** The operations that act on the runtime *)
Definition mutates (req : ApplyRequest) : bool :=
  one_of [op_apply_all; op_commit_confirmed; op_reconcile] (req_op req).

(** The requests whose success also fixes last-good: they neither wait for a
    confirmation nor defer it. *)
Definition anchors (req : ApplyRequest) : bool :=
  mutates req && negb (req_require_confirmation req) && negb (req_defer_last_good req).

(** The helper's last report on the runtime was a verified and lasting [cfg]. *)
Definition verified_run (cfg : SystemConfig) (w' : W) : Prop :=
  exists w1, evolves w1 w' /\ exists req w0 r,
    anchors req = true /\ req_config req = cfg /\ resp_success r = true
    /\ ((exists timeout, privileged_w timeout req w0 = (Ok r, w1)) \/ (exists deadline, apply_w deadline req w0 = (Ok r, w1))).

Lemma verified_run_call timeout req w0 r w1 cfg :
  privileged_w timeout req w0 = (Ok r, w1) -> anchors req = true -> resp_success r = true -> req_config req = cfg ->
  verified_run cfg w1.
Proof. intros Hp Hm Hs Hc. exists w1. split; [constructor|]. exists req, w0, r. split_and!; try done. left. by eexists. Qed.

Lemma verified_run_evolves cfg w w' : verified_run cfg w -> evolves w w' -> verified_run cfg w'.
Proof. intros (w1 & Hev & Hr) Hw. exists w1. split; [by eapply ev_trans|done]. Qed.

Lemma audited_evolves t previous phase w : evolves w (audited t previous phase w).
Proof.
  unfold audited. destruct has_store; cbn [negb]; [|constructor].
  destruct (tx_firewall_changed t); eauto with mr.
Qed.

Lemma build_request_fields id cfg req : build_apply_request id cfg = Ok req ->
  req_op req = op_apply_all /\ req_config req = cfg /\ req_require_confirmation req = false
  /\ req_defer_last_good req = false.
Proof. unfold build_apply_request. intros Hq. cases_in Hq; by simplify_eq. Qed.

Lemma build_request_anchors id cfg req : build_apply_request id cfg = Ok req -> anchors req = true /\ req_config req = cfg.
Proof. intros (H1 & H2 & H3 & H4)%build_request_fields. unfold anchors, mutates. by rewrite H1, H3, H4. Qed.

(** The same request sent as a reconciliation *)
Lemma reconcile_request_anchors id cfg req : build_apply_request id cfg = Ok req ->
  anchors (with_op req op_reconcile) = true /\ req_config req = cfg.
Proof. intros (H1 & H2 & H3 & H4)%build_request_fields. unfold anchors, mutates. cbn. by rewrite H3, H4. Qed.

(** ** What a transaction does *)

(** The transaction object after: same identity, and its classification *)
Definition same_tx (t t' : Transaction) : Prop :=
  tx_id t' = tx_id t /\ tx_firewall_changed t' = tx_firewall_changed t.

(** How processing a candidate may end, as a relation between the engine's
    state before ([e]) and after ([e']), the transaction and the result *)
Inductive ended (tx : TxRef) (candidate : SystemConfig) (e e' : EngineState) (t' : Transaction)
  : result unit error -> Prop :=
| ended_committed :
    tx_state t' = Committed -> tx_config t' = candidate ->
    e' = set_current candidate e -> ended tx candidate e e' t' (Ok tt)
| ended_awaiting p :
    tx_state t' = AwaitingConfirmation -> tx_config t' = candidate ->
    p_tx p = tx -> p_previous p = st_current_config e -> p_canonical_committed p = false ->
    p_rollback_attempts p = 0 -> p_timer p = Some (mkTimer CONFIRMATION_TIMEOUT false) ->
    e' = set_pending (Some p) e -> ended tx candidate e e' t' (Ok tt)
| ended_refused err :
    tx_state t' = Rejected \/ tx_state t' = RolledBack -> e' = e -> ended tx candidate e e' t' (Err err)
| ended_recovery err reason cur :
    tx_state t' = RecoveryRequired -> cur = st_current_config e \/ cur = candidate ->
    e' = require_recovery reason (set_current cur e) -> ended tx candidate e e' t' (Err err).

(** What the outcome says of the runtime *)
Definition runtime_fact (current : SystemConfig) (w : W) (t' : Transaction) (w' : W) : Prop :=
  match tx_state t' with
  | Committed => verified_run (tx_config t') w'
  | Rejected | RolledBack => evolves w w' \/ verified_run current w'
  | _ => True
  end.

Definition ends (tx : TxRef) (candidate : SystemConfig) (e : EngineState) (h : list Transaction) (t : Transaction)
  (w : W) (r : result unit error) (s' : Sys W) : Prop :=
  exists e' t' w', s' = mkSys e' (<[tx := t']> h) w' /\ same_tx t t' /\ ended tx candidate e e' t' r
    /\ runtime_fact (st_current_config e) w t' w'.
Lemma set_applying_id e : st_applying e = false -> set_applying false e = e.
Proof. destruct e. cbn. by intros ->. Qed.
Lemma set_current_id e : set_current (st_current_config e) e = e.
Proof. by destruct e. Qed.

Lemma undo_uncommitted_ends tx id err candidate e h t w w0 :
  (tx < List.length h)%nat -> st_applying e = false ->
  wp (undo_uncommitted tx id err) (ends tx candidate e h t w0) (mkSys e (<[tx := t]> h) w).
Proof.
  intros Hl He. unfold undo_uncommitted. wp_run.
  assert (Hrec : forall t' w' reason, same_tx t t' -> tx_state t' = RecoveryRequired ->
    ends tx candidate e h t w0 (Err err) (mkSys (require_recovery reason e) (<[tx := t']> h) w')).
  { intros t' w' reason Ht Hs. exists (require_recovery reason e), t', w'. split_and!; [done|done| |].
    - eapply ended_recovery; [done|left; reflexivity|rewrite set_current_id; reflexivity].
    - unfold runtime_fact. by rewrite Hs. }
  destruct (build_apply_request _ _) as [req|be] eqn:Eb; wp_run.
  - destruct (privileged_w _ _ w) as [[r|pe] w'] eqn:Ep; cbn [fst snd]; wp_run; rewrite (set_applying_id e He).
    + destruct (_ && _ && _) eqn:Eok; wp_run; unfold set_tx; wp_run; cbn [fst snd].
      * destruct (decide _) as [Hd|_]; [done|]. wp_run. to_prop. eexists e, _, w'. split_and!; [done|done| |].
        -- apply ended_refused; [by right|done].
        -- right. apply build_request_anchors in Eb as [Hm Hc]. by eapply verified_run_call.
      * destruct (decide _) as [_|Hd]; [|done]. wp_run. by apply Hrec.
    + unfold set_tx; wp_run; cbn [fst snd]. destruct (decide _) as [_|Hd]; [|done]. wp_run. by apply Hrec.
  - unfold set_tx; wp_run; cbn [fst snd]. destruct (decide _) as [_|Hd]; [|done]. wp_run. by apply Hrec.
Qed.

(** After the helper verified the candidate ([Hrun]); a store commit is always
    followed by the acknowledgement ([defer]). *)
Lemma commit_applied_ends tx id candidate commit_config defer e h t w w0 :
  (tx < List.length h)%nat -> st_applying e = false -> tx_config t = candidate ->
  (commit_config = None -> verified_run candidate w) -> defer = negb (is_none commit_config) ->
  wp (commit_applied tx id candidate commit_config defer) (ends tx candidate e h t w0) (mkSys e (<[tx := t]> h) w).
Proof.
  intros Hl He Hc Hrun ->. unfold commit_applied, fail_recovery, set_tx.
  assert (Hrec : forall t' w' reason err, same_tx t t' -> tx_state t' = RecoveryRequired ->
    ends tx candidate e h t w0 (Err err) (mkSys (require_recovery reason (set_current candidate e)) (<[tx := t']> h) w')).
  { intros t' w' reason err Ht Hs. exists (require_recovery reason (set_current candidate e)), t', w'.
    split_and!; [done|done| |].
    - eapply ended_recovery; [done|right; reflexivity|reflexivity].
    - unfold runtime_fact. by rewrite Hs. }
  destruct commit_config as [commit|]; cbn [is_none negb].
  - wp_run. destruct (commit candidate w) as [[[]|err] w1] eqn:Ec; cbn [fst snd]; [|by apply undo_uncommitted_ends].
    wp_run. destruct (privileged_w _ _ w1) as [[r|pe] w2] eqn:Ep; cbn [fst snd];
      rewrite (set_applying_id (set_current candidate e)) by done; [|wp_run; by apply Hrec].
    destruct (negb (resp_success r) || negb (resp_verified r)) eqn:Er; wp_run; [by apply Hrec|]. to_prop.
    eexists _, _, w2. split_and!; [done|done|by apply ended_committed|].
    unfold runtime_fact. cbn. rewrite Hc. by eapply verified_run_call.
  - wp_run. eexists _, _, w. split_and!; [done|done|by apply ended_committed|].
    unfold runtime_fact. cbn. rewrite Hc. auto.
Qed.

Lemma apply_candidate_ends tx id candidate request allow commit_config e h t w w0 :
  (tx < List.length h)%nat -> st_applying e = false -> anchors request = true -> req_config request = candidate ->
  evolves w0 w ->
  wp (apply_candidate tx id (st_current_config e) candidate request allow commit_config)
    (ends tx candidate e h t w0) (mkSys e (<[tx := t]> h) w).
Proof.
  intros Hl He Hmut Hreq Hw. unfold apply_candidate. set (conf := negb allow && _). wp_run.
  pose proof (ev_clock w) as Hclk. destruct (clock_now w) as [now w1]. cbn [fst snd] in *.
  destruct (privileged_w _ _ w1) as [[r|pe] w2] eqn:Ep; cbn [fst snd]; rewrite (set_applying_id e He).
  - destruct (resp_success r) eqn:Es; cbn [negb].
    + assert (Hrun : conf = false -> commit_config = None -> verified_run candidate w2).
      { intros Hconf ->. eapply verified_run_call; [exact Ep| |done|done]. rewrite Hconf. unfold anchors in *. to_prop.
        by apply andb_true_intro; split; [apply andb_true_intro|]. }
      unfold set_tx at 1. wp_run. rewrite (privileged_success _ _ _ _ _ Ep Es). cbn [negb].
      unfold set_tx at 1. wp_run. destruct conf.
      * unfold await_confirmation. wp_run. eexists _, _, _. split_and!; [done|done| |done].
        eapply ended_awaiting; [done|done|..|done]; done.
      * eapply wp_mono; [apply commit_applied_ends; auto|].
        intros a s' (e' & t' & w' & -> & [S1 S2] & Hend). by exists e', t', w'.
    + unfold set_tx. wp_run. destruct (resp_recovery_required r) eqn:Er.
      * destruct (decide _) as [_|Hd]; [|done]. wp_run. eexists _, _, w2. split_and!; [done|done| |done].
        eapply ended_recovery; [done|left; reflexivity|rewrite set_current_id; reflexivity].
      * assert (evolves w0 w2) by eauto with mr.
        destruct (resp_rolled_back r); (destruct (decide _) as [Hd|_]; [done|]); wp_run;
          eexists _, _, w2; (split_and!; [done|done|apply ended_refused; cbn; auto|by left]).
  - unfold fail_recovery, set_tx. wp_run. eexists _, _, w2. split_and!; [done|done| |done].
    eapply ended_recovery; [done|left; reflexivity|rewrite set_current_id; reflexivity].
Qed.

(** A candidate that passed every check before the helper is involved *)
Record admitted (e : EngineState) (cfg : SystemConfig) (allow : bool) : Prop := {
  adm_guards : admission_guards e cfg allow = None;
  adm_valid : validate_live_candidate cfg (Some (st_current_config e)) = Ok tt;
  adm_revision : next_revision (c_revision (st_current_config e)) = Some (c_revision (st_current_config e) + 1);
}.

(** The candidate as the engine stores it *)
Definition stamped (e : EngineState) (cfg : SystemConfig) (now : Time) : SystemConfig :=
  with_revision cfg (c_revision (st_current_config e) + 1) now.

Definition process_ends (tx : TxRef) (cfg : SystemConfig) (allow : bool) (e : EngineState) (h : list Transaction)
  (t : Transaction) (w : W) (r : result unit error) (s' : Sys W) : Prop :=
  exists now e' t' w', s' = mkSys e' (<[tx := t']> h) w' /\ same_tx t t' /\ ended tx (stamped e cfg now) e e' t' r
    /\ (admitted e cfg allow \/ (exists err, r = Err err) /\ e' = e)
    /\ runtime_fact (st_current_config e) w t' w'.

Lemma next_revision_Some n r : next_revision n = Some r -> r = n + 1 /\ n + 1 <= i64_max.
Proof. unfold next_revision. destruct (_ && _) eqn:Eb; [|done]. intros Hq. simplify_eq. to_prop. done. Qed.

Lemma guard_states e cfg allow state msg :
  admission_guards e cfg allow = Some (state, msg) ->
  state = RecoveryRequired /\ st_recovery_required e = true \/ state = Rejected.
Proof. unfold admission_guards. intros Hq. cases_in Hq; simplify_eq; auto. Qed.

Lemma refused_ends tx cfg allow e h t w w0 msg err :
  (tx < List.length h)%nat -> evolves w0 w ->
  wp (set_tx tx Rejected (Some msg);; ret (Err err)) (process_ends tx cfg allow e h t w0) (mkSys e (<[tx := t]> h) w).
Proof.
  intros Hl Hw. unfold set_tx. wp_run. eexists time_zero, e, _, w. split_and!; [done|done| | |by left].
  - apply ended_refused; [by left|done].
  - right. split; [by eexists|done].
Qed.

(** The checks only read. *)
Lemma wp_admission_checks current cfg allow (Q : option (string * error) -> Sys W -> Prop) e h w :
  (forall w' msg err, evolves w w' -> Q (Some (msg, err)) (mkSys e h w')) ->
  (forall w', evolves w w' -> validate_live_candidate cfg (Some current) = Ok tt -> Q None (mkSys e h w')) ->
  wp (admission_checks current cfg allow) Q (mkSys e h w).
Proof.
  intros Hbad Hgood. unfold admission_checks.
  destruct (validate_live_candidate cfg (Some current)) as [[]|err]; [|apply Hbad; constructor].
  destruct allow; [apply Hgood; [constructor|done]|]. wp_run.
  pose proof (ev_leases w) as Hw. destruct (lan_change_observed current cfg); wp_run.
  - destruct (observe_leases w) as [snap w1]; cbn [fst snd] in *.
    destruct (inspect_lan_observation current cfg snap) as [l|err]; [|by apply Hbad].
    destruct (validate_transition_safety current cfg) as [[]|err]; [by apply Hgood|by apply Hbad].
  - destruct (validate_transition_safety current cfg) as [[]|err]; [apply Hgood|apply Hbad]; done || constructor.
Qed.

Lemma process_locked_ends tx id cfg allow commit e h t w :
  (tx < List.length h)%nat -> st_applying e = false ->
  wp (process_locked tx id cfg allow commit) (process_ends tx cfg allow e h t w) (mkSys e (<[tx := t]> h) w).
Proof.
  intros Hl He. unfold process_locked. wp_run.
  destruct (admission_guards e cfg allow) as [[state msg]|] eqn:Eg.
  { destruct (guard_states _ _ _ _ _ Eg) as [[-> Hr]| ->]; [|apply refused_ends; [done|constructor]].
    unfold set_tx. wp_run. eexists time_zero, e, _, w. split_and!; [done|done| |right; split; [by eexists|done]|done].
    apply (ended_recovery _ _ _ _ _ _ (st_recovery_reason e) (st_current_config e)); [done|by left|].
    destruct e; cbn in *. by subst. }
  wp_run. apply wp_admission_checks; [intros w' msg err Hw; by apply refused_ends|]. intros w' Hw Hv.
  destruct (next_revision (c_revision (st_current_config e))) as [rev|] eqn:Er; [|by apply refused_ends].
  pose proof (next_revision_Some _ _ Er) as [-> _]. wp_run. pose proof (ev_clock w') as Hclk.
  destruct (clock_now w') as [now w1]. cbn [fst snd] in *.
  assert (A : admitted e cfg allow) by (by split). assert (Hw1 : evolves w w1) by eauto with mr.
  fold (stamped e cfg now). unfold set_tx at 1. wp_run.
  assert (Hpost : forall r s' t1, same_tx t t1 -> ends tx (stamped e cfg now) e h t1 w r s' ->
    process_ends tx cfg allow e h t w r s').
  { intros r s' t1 [H1 H2] (e' & t' & w'' & -> & [H3 H4] & Hend & Hf). exists now, e', t', w''.
    split_and!; [done|split; congruence|done|by left|done]. }
  assert (Hrej : forall w' t' err, evolves w w' -> same_tx t t' -> tx_state t' = Rejected ->
    process_ends tx cfg allow e h t w (Err err) (mkSys e (<[tx := t']> h) w')).
  { intros w2 t' err Hw2 Ht Hs. exists now, e, t', w2.
    split_and!; [done|done|apply ended_refused; [by left|done]|by left|].
    unfold runtime_fact. rewrite Hs. by left. }
  destruct (build_apply_request id (stamped e cfg now)) as [req|[what err]] eqn:Eb.
  - apply build_request_anchors in Eb as [Hm Hc]. unfold set_tx at 1. wp_run. destruct has_store eqn:Hst.
    + wp_run. pose proof (ev_snapshot (st_current_config e) w1) as Hsn.
      destruct (store_snapshot (st_current_config e) w1) as [[[]|err] w2]; cbn [fst snd] in *.
      * unfold set_tx at 1. wp_run. eapply wp_mono; [apply apply_candidate_ends with (w0 := w); eauto with mr|].
        intros r s'. by apply Hpost.
      * unfold set_tx. wp_run. apply Hrej; eauto with mr; done.
    + wp_run. unfold set_tx at 1. wp_run. eapply wp_mono; [by apply apply_candidate_ends with (w0 := w)|].
      intros r s'. by apply Hpost.
  - unfold set_tx. wp_run. by apply Hrej.
Qed.

Lemma insert_snoc {A} (l : list A) x y : <[List.length l := y]> (l ++ [x]) = l ++ [y].
Proof. by rewrite insert_app_r_alt, Nat.sub_diag by lia. Qed.

(** [process] on a whole system: a new transaction at the end of the heap *)
Definition processed (id : string) (cfg : SystemConfig) (allow : bool) (s : Sys W)
  (a : Transaction * result unit error) (s' : Sys W) : Prop :=
  let tx := List.length (s_heap s) in
  let e := set_active (Some tx) (s_st s) in
  exists now e' w', s' = mkSys e' (s_heap s ++ [fst a]) w' /\ tx_id (fst a) = id
    /\ ended tx (stamped (s_st s) cfg now) e e' (fst a) (snd a)
    /\ (admitted (s_st s) cfg allow \/ (exists err, snd a = Err err) /\ e' = e)
    /\ runtime_fact (st_current_config (s_st s)) (s_world s) (fst a) w'.

Lemma runtime_fact_evolves current w0 w1 t w w' :
  evolves w0 w1 -> evolves w w' -> runtime_fact current w1 t w -> runtime_fact current w0 t w'.
Proof.
  intros H0 Hw. unfold runtime_fact. destruct (tx_state t); try done.
  - intros Hr. by eapply verified_run_evolves.
  - intros [Hr|Hr]; [left; eauto with mr|right; by eapply verified_run_evolves].
  - intros [Hr|Hr]; [left; eauto with mr|right; by eapply verified_run_evolves].
Qed.

Lemma process_spec id cfg allow commit s :
  st_applying (s_st s) = false -> wp (process id cfg allow commit) (processed id cfg allow s) s.
Proof.
  intros Ha. destruct s as [e h w]. cbn in Ha. unfold process. wp_run. pose proof (ev_clock w) as Hclk.
  destruct (clock_now w) as [now w1]. cbn [fst snd] in *. unfold wp at 1, tx_new. cbn [fst snd s_heap s_st s_world].
  set (t0 := mkTransaction _ _ _ _ _ _ _ _ _). set (tx := List.length h). wp_run.
  rewrite <- (insert_snoc h t0 t0). set (e1 := set_active (Some tx) e).
  assert (Hl : (tx < List.length (h ++ [t0]))%nat) by (rewrite length_app; cbn; lia).
  eapply wp_mono; [by apply process_locked_ends|].
  intros r s' (now' & e' & t' & w' & -> & [S1 S2] & Hend & Hadm & Hf). fold tx. wp_run.
  unfold tx. rewrite insert_snoc. exists now', e', (audited t' (c_revision (st_current_config e)) "apply" w').
  cbn [fst snd]. split_and!; [done|done|exact Hend| |].
  - destruct Hadm as [[A1 A2 A3]|?]; [left; by split|by right].
  - eapply runtime_fact_evolves; [exact Hclk|apply audited_evolves|exact Hf].
Qed.

(** C5: how a transaction can end.  If [process] succeeds, the candidate passed
    every admission check, got the next revision, and is either committed and
    canonical, or awaiting confirmation with the previous configuration still
    canonical and remembered for the rollback.  If it fails, the transaction is
    rejected or rolled back and the canonical configuration, the pending change
    and the recovery flag are untouched, or the engine now requires recovery. *)
Theorem transaction_outcomes id cfg allow commit s t r s' :
  process id cfg allow commit s = ((t, r), s') -> st_applying (s_st s) = false ->
  let cur := st_current_config in
  match r with
  | Ok _ =>
      admitted (s_st s) cfg allow /\ c_revision (tx_config t) = c_revision (cur (s_st s)) + 1
      /\ st_recovery_required (s_st s') = false
      /\ (tx_state t = Committed /\ cur (s_st s') = tx_config t /\ st_pending (s_st s') = None
          \/ tx_state t = AwaitingConfirmation /\ cur (s_st s') = cur (s_st s)
             /\ exists p, st_pending (s_st s') = Some p /\ s_heap s' !! p_tx p = Some t
                  /\ p_previous p = cur (s_st s) /\ p_canonical_committed p = false)
  | Err _ =>
      (tx_state t = Rejected \/ tx_state t = RolledBack)
      /\ cur (s_st s') = cur (s_st s) /\ st_pending (s_st s') = st_pending (s_st s)
      /\ st_recovery_required (s_st s') = st_recovery_required (s_st s)
      \/ tx_state t = RecoveryRequired /\ st_recovery_required (s_st s') = true
  end.
Proof.
  intros Hp Ha cur. pose proof (process_spec id cfg allow commit s Ha) as Hs. unfold wp in Hs. rewrite Hp in Hs.
  cbn [fst snd] in Hs.
  destruct Hs as (now & e' & w' & -> & _ & Hend & Hadm & _). cbn [fst snd s_st s_heap] in *.
  destruct Hend as [Hst Hc ->|p Hst Hc Hpt Hpp Hpc _ _ ->|err Hst ->|err reason c Hst Hc ->]; cbn [set_active set_current set_pending require_recovery st_current_config st_pending st_recovery_required].
  - destruct Hadm as [A|[[? ?] _]]; [|done]. pose proof (adm_guards _ _ _ A) as Hg. unfold admission_guards in Hg.
    destruct (st_recovery_required (s_st s)) eqn:Er; [done|].
    destruct (st_pending (s_st s)) eqn:Ep; [done|].
    split; [done|]. split; [by rewrite Hc|]. split; [done|]. left. by split_and!.
  - destruct Hadm as [A|[[? ?] _]]; [|done]. pose proof (adm_guards _ _ _ A) as Hg. unfold admission_guards in Hg.
    destruct (st_recovery_required (s_st s)) eqn:Er; [done|].
    split; [done|]. split; [by rewrite Hc|]. split; [done|]. right. split_and!; [done|done|].
    exists p. split_and!; [done| |done|done]. rewrite Hpt, lookup_app_r, Nat.sub_diag by lia. done.
  - left. by split_and!.
  - by right.
Qed.

(** A blocked request touches nothing.  While recovery is required, while a
    change awaits confirmation, or when any other admission guard refuses, the
    engine's canonical configuration, pending change and recovery flag stay as
    they were, the transaction reports the refusal, and the only effects are a
    reading of the clock and the audit record: the helper and the store are not
    contacted. *)
Theorem blocked_request_has_no_effect id cfg allow commit s state msg :
  admission_guards (s_st s) cfg allow = Some (state, msg) ->
  exists t, fst (process id cfg allow commit s) = (t, Err (Errorf msg))
    /\ tx_state t = state /\ tx_error t = msg
    /\ snd (process id cfg allow commit s)
       = mkSys (set_active (Some (List.length (s_heap s))) (s_st s)) (s_heap s ++ [t])
           (audited t (c_revision (st_current_config (s_st s))) "apply" (snd (clock_now (s_world s)))).
Proof.
  destruct s as [e h w]. cbn [s_st s_heap s_world]. intros Hg.
  enough (Hw : wp (process id cfg allow commit) (fun a s' => exists t, a = (t, Err (Errorf msg))
    /\ tx_state t = state /\ tx_error t = msg
    /\ s' = mkSys (set_active (Some (List.length h)) e) (h ++ [t])
         (audited t (c_revision (st_current_config e)) "apply" (snd (clock_now w)))) (mkSys e h w)).
  { unfold wp in Hw. exact Hw. }
  unfold process. wp_run. destruct (clock_now w) as [now w1]. cbn [fst snd].
  unfold wp at 1, tx_new. cbn [fst snd s_heap s_st s_world]. set (t0 := mkTransaction _ _ _ _ _ _ _ _ _). wp_run.
  rewrite <- (insert_snoc h t0 t0). set (tx := List.length h).
  assert (Hl : (tx < List.length (h ++ [t0]))%nat) by (rewrite length_app; cbn; lia).
  unfold process_locked. wp_run.
  change (admission_guards (set_active (Some tx) e) cfg allow) with (admission_guards e cfg allow). rewrite Hg.
  unfold set_tx. wp_run. fold tx. wp_run. eexists. split_and!; [done|done|done|]. unfold tx. by rewrite insert_snoc.
Qed.
End Spec.

(** ** The handshake gate *)
Definition is_i64 (v : Z) : Prop := i64_min <= v <= i64_max.

(** The handshake gate is exact.  For [i64] inputs the saturating arithmetic
    never matters: a tunnel is accepted exactly when it has shaken hands, not
    more than 30 seconds in the future, not before the activation when one is
    given, and, when it must be fresh (a keepalive or an activation time), not
    longer ago than the larger of 180 seconds and three keepalives. *)
Theorem handshake_accepted_iff last keepalive not_before now :
  is_i64 last -> is_i64 keepalive -> is_i64 now ->
  verify_wg_client_handshake last keepalive not_before now = Ok tt
  <-> 0 < last <= now + 30
      /\ (forall start, not_before = Some start -> 0 < start <= last)
      /\ (0 < keepalive \/ not_before <> None -> now - last <= Z.max 180 (3 * keepalive)).
Proof.
  unfold is_i64, i64_min, i64_max, verify_wg_client_handshake, sat_i64, i64_min, i64_max. intros Hl Hk Hn.
  destruct (Z.leb_spec last 0); [split; [done|lia]|].
  destruct (Z.ltb_spec (Z.max (- 2 ^ 63) (Z.min (2 ^ 63 - 1) (now + 30))) last); [split; [done|lia]|].
  assert (Hage : forall a, (a <? Z.max (- 2 ^ 63) (Z.min (2 ^ 63 - 1) (now - last))) = true <-> a < now - last \/ a < - 2 ^ 63).
  { intros a. rewrite Z.ltb_lt. lia. }
  destruct not_before as [start|]; cbn [some_and is_none negb].
  - destruct (Z.leb_spec start 0); cbn [orb]; [split; [done|intros (_ & Hs & _); specialize (Hs start eq_refl); lia]|].
    destruct (Z.ltb_spec last start); [split; [done|intros (_ & Hs & _); specialize (Hs start eq_refl); lia]|].
    rewrite orb_true_r. destruct (_ <? _) eqn:Ea.
    + split; [done|]. intros (_ & _ & Hf). apply Hage in Ea.
      assert (Hd : Some start <> None) by done. specialize (Hf (or_intror Hd)). lia.
    + apply Z.ltb_ge in Ea. split; [|done]. intros _. split; [lia|]. split; [intros s' Hs; simplify_eq; lia|lia].
  - destruct (Z.ltb_spec 0 keepalive); cbn [orb].
    + destruct (_ <? _) eqn:Ea.
      * split; [done|]. intros (_ & _ & Hf). apply Hage in Ea. specialize (Hf (or_introl H1)). lia.
      * apply Z.ltb_ge in Ea. split; [|done]. intros _. split; [lia|]. split; [done|lia].
    + split; [|done]. intros _. split; [lia|]. split; [done|]. intros [?|?]; [lia|done].
Qed.

Lemma handshake_accepted_iff_witness :
  verify_wg_client_handshake 1000 25 (Some 990) 1100 = Ok tt.
Proof.
  apply handshake_accepted_iff; [unfold is_i64, i64_min, i64_max; lia..|].
  split; [lia|]. split; [|lia]. intros start Hs. injection Hs as <-. lia.
Defined.
