(* ===== verification/EngineInv.v ===== *)
(** * Reachable states of the engine

    Specifications of confirmation, timed rollback, reconciliation and the QoS
    bypass, the invariant they and [process] preserve, and what follows for
    every reachable state: the bounded rollback, the revisions, and the
    agreement of runtime and canon. *)

From Stdlib Require Import ZArith Ascii String Lia Bool.
From stdpp Require Import base list strings gmap.
From S2P Require Import Prelude GoStrings Net GoTime Json Model Validation Policy Ipc Safety Engine EngineSpec.

Local Open Scope string_scope.
Local Open Scope Z_scope.
Local Open Scope list_scope.

#[export] Hint Constructors evolves : mr.

Section Inv.
Context {UC : Unicode} {B64 : Base64} {G : Generators} {W : Type} {E : Env W}.
Implicit Types (e : EngineState) (h : list Transaction) (w : W).

(** ** Confirmation *)

(** The transaction is the same object with the same candidate. *)
Definition same_candidate (t t' : Transaction) : Prop :=
  tx_id t' = tx_id t /\ tx_config t' = tx_config t.

(** A confirmation that fails keeps the pending change: either still
    provisional, or canonical and waiting for the helper. *)
Definition confirm_kept (p : PendingChange) (e e' : EngineState) (t t' : Transaction) : Prop :=
  exists p', st_pending e' = Some p' /\ p_tx p' = p_tx p /\ p_previous p' = p_previous p
    /\ p_rollback_attempts p' = p_rollback_attempts p
    /\ st_applying e' = false /\ st_active_tx e' = st_active_tx e
    /\ (tx_state t' = tx_state t \/ tx_state t' = RecoveryRequired)
    /\ (p_canonical_committed p' = true /\ st_current_config e' = tx_config t
        \/ p' = p /\ p_canonical_committed p = false
           /\ st_current_config e' = st_current_config e
           /\ st_recovery_required e' = st_recovery_required e).

Inductive confirm_end (tx : TxRef) (p : PendingChange) (e e' : EngineState) (t t' : Transaction) (w' : W)
  : result unit error -> Prop :=
| confirm_done :
    e' = clear_recovery (set_active (Some tx) (set_pending None (set_current (tx_config t) (set_applying false e)))) ->
    tx_state t' = Committed -> verified_run (tx_config t) w' -> confirm_end tx p e e' t t' w' (Ok tt)
| confirm_failed err :
    confirm_kept p e e' t t' -> confirm_end tx p e e' t t' w' (Err err).

Lemma wp_confirm_handshake tx id p cand (Q : result unit error -> Sys W -> Prop) e h t w :
  (tx < List.length h)%nat -> st_applying e = false ->
  (forall w' t' err, tx_id t' = tx_id t -> tx_config t' = tx_config t -> tx_state t' = tx_state t ->
     Q (Err err) (mkSys e (<[tx := t']> h) w')) ->
  (forall w', Q (Ok tt) (mkSys e (<[tx := t]> h) w')) ->
  wp (confirm_handshake tx id p cand) Q (mkSys e (<[tx := t]> h) w).
Proof.
  intros Hl He Hbad Hgood. unfold confirm_handshake. destruct (_ && _); [|by apply Hgood]. wp_run.
  destruct (privileged_w _ _ w) as [[r|pe] w1]; cbn [fst snd]; rewrite (set_applying_id e He);
    [|wp_run; by apply Hbad].
  destruct (resp_success r), (resp_tunnel_status r) as [ts|]; try (wp_run; by apply Hbad).
  wp_run. destruct (verify_wg_client_handshake _ _ _ _) as [[]|err]; wp_run; [by apply Hgood|by apply Hbad].
Qed.

Lemma wp_confirm_ack tx id n cand (Q : result unit error -> Sys W -> Prop) e h t w :
  (tx < List.length h)%nat -> st_applying e = false ->
  (forall w' msg reason err, Q (Err err) (mkSys (require_recovery reason e)
     (<[tx := with_tx_error (with_tx_state t RecoveryRequired) msg]> h) w')) ->
  (forall w', verified_run cand w' -> Q (Ok tt) (mkSys e (<[tx := t]> h) w')) ->
  wp (confirm_ack tx id n cand) Q (mkSys e (<[tx := t]> h) w).
Proof.
  intros Hl He Hbad Hgood. unfold confirm_ack, fail_recovery, set_tx. wp_run.
  destruct (privileged_w _ _ w) as [[r|pe] w1] eqn:Ep; cbn [fst snd]; rewrite (set_applying_id e He);
    [|wp_run; by apply Hbad].
  destruct (_ || _) eqn:Er; wp_run; [by apply Hbad|]. to_prop. apply Hgood. by eapply verified_run_call.
Qed.

Lemma wp_confirm_finalize tx id prev cand (Q : result unit error -> Sys W -> Prop) e h t w :
  (tx < List.length h)%nat -> st_applying e = false -> verified_run cand w ->
  (forall w' msg reason err, Q (Err err) (mkSys (require_recovery reason e)
     (<[tx := with_tx_error (with_tx_state t RecoveryRequired) msg]> h) w')) ->
  (forall w', verified_run cand w' -> Q (Ok tt) (mkSys e (<[tx := t]> h) w')) ->
  wp (confirm_finalize tx id prev cand) Q (mkSys e (<[tx := t]> h) w).
Proof.
  intros Hl He Hrun Hbad Hgood. unfold confirm_finalize, fail_recovery, set_tx.
  destruct (negb _); [by apply Hgood|].
  destruct (build_apply_request _ _) as [req|[what be]] eqn:Eb; wp_run; [|by apply Hbad].
  destruct (privileged_w _ _ w) as [[r|pe] w1] eqn:Ep; cbn [fst snd]; rewrite (set_applying_id e He);
    [|wp_run; by apply Hbad].
  destruct (_ || _) eqn:Er; wp_run; [by apply Hbad|]. to_prop. apply Hgood.
  apply reconcile_request_anchors in Eb as [Hm Hc]. by eapply verified_run_call.
Qed.

Lemma wp_and_then m k (Q : result unit error -> Sys W -> Prop) s :
  wp m (fun r s' => match r with Err err => Q (Err err) s' | Ok _ => wp k Q s' end) s -> wp (and_then m k) Q s.
Proof. intros Hm. unfold and_then. rewrite wp_bind. eapply wp_mono; [exact Hm|]. by intros [[]|err] s'. Qed.

(** From the acknowledgement on, the change is canonical. *)
Lemma confirm_tail_ends tx id p p1 e e1 h t t1 w :
  (tx < List.length h)%nat -> st_applying e1 = false -> same_candidate t t1 ->
  (tx_state t1 = tx_state t \/ tx_state t1 = RecoveryRequired) ->
  st_pending e1 = Some p1 -> p_tx p1 = p_tx p -> p_previous p1 = p_previous p ->
  p_rollback_attempts p1 = p_rollback_attempts p -> p_canonical_committed p1 = true ->
  st_active_tx e1 = st_active_tx e -> st_current_config e1 = tx_config t ->
  wp (confirm_tail tx id (p_previous p) (tx_config t))
    (fun r s' => exists e' t' w', s' = mkSys e' (<[tx := t']> h) w' /\ same_candidate t t'
       /\ confirm_end tx p e e' t t' w' r)
    (mkSys e1 (<[tx := t1]> h) w).
Proof.
  intros Hl He [S1 S2] Hst Hp Hpt Hpp Hpr Hpc Hact Hcur. unfold confirm_tail, modify_pending. wp_run.
  set (p2 := with_attempts p1 (p_rollback_attempts p1) (p_commit_attempts p1 + 1)).
  set (e2 := set_pending _ e1). assert (He2 : st_pending e2 = Some p2) by (unfold e2; cbn; by rewrite Hp).
  assert (Hkept : forall reason msg, confirm_kept p e (require_recovery reason e2) t
            (with_tx_error (with_tx_state t1 RecoveryRequired) msg)).
  { intros reason msg. exists p2. cbn. rewrite Hp. split_and!; try done; [by right|]. left. by split. }
  apply wp_and_then, wp_confirm_ack; [done|done| |].
  { intros w' msg reason err. eexists _, _, w'. split_and!; [done|done|]. by apply confirm_failed. }
  intros w1 Hrun. apply wp_and_then, wp_confirm_finalize; [done|done|done| |].
  { intros w' msg reason err. eexists _, _, w'. split_and!; [done|done|]. by apply confirm_failed. }
  intros w2 Hrun2. wp_run. eexists _, _, _. split_and!; [done|done|]. apply confirm_done; [|done|].
  - unfold e2. destruct e1, e. cbn in *. by subst.
  - eapply verified_run_evolves; [exact Hrun2|constructor].
Qed.

Lemma confirm_locked_ends tx id p e h t w :
  (tx < List.length h)%nat -> st_applying e = false -> st_pending e = Some p ->
  (p_canonical_committed p = true -> st_current_config e = tx_config t) ->
  wp (confirm_locked tx id p)
    (fun r s' => exists e' t' w', s' = mkSys e' (<[tx := t']> h) w' /\ same_candidate t t'
       /\ confirm_end tx p e e' t t' w' r)
    (mkSys e (<[tx := t]> h) w).
Proof.
  intros Hl He Hp Hcc. unfold confirm_locked. wp_run. apply wp_and_then.
  destruct (p_canonical_committed p) eqn:Hc; cbn [negb].
  - wp_run. apply confirm_tail_ends with (p1 := p); try done; [by left|by apply Hcc].
  - apply wp_and_then. apply wp_confirm_handshake; [done|done| |].
    + intros w' t' err T1 T2 T3. exists e, t', w'. split_and!; [done|by split|]. apply confirm_failed.
      exists p. split_and!; try done; [by left|]. right. by split_and!.
    + intros w1. unfold confirm_commit, set_tx. wp_run.
      destruct has_store; wp_run.
      * destruct (store_save (tx_config t) w1) as [[[]|err] w2]; cbn [fst snd].
        -- unfold modify_pending at 1. wp_run. rewrite Hp. cbn [fmap option_fmap option_map].
           apply confirm_tail_ends with (p1 := stop_timer (with_committed p)); try done. by left.
        -- wp_run. eexists e, _, w2. split_and!; [done|done|]. apply confirm_failed.
           exists p. split_and!; try done; [by right|]. right. by split_and!.
      * unfold modify_pending at 1. wp_run. rewrite Hp. cbn [fmap option_fmap option_map].
        apply confirm_tail_ends with (p1 := stop_timer (with_committed p)); try done. by left.
Qed.

(** A transaction in the heap, in the form symbolic execution uses *)
Lemma heap_at h tx t : h !! tx = Some t -> (tx < List.length h)%nat /\ <[tx := t]> h = h.
Proof. intros Ht. split; [by eapply lookup_lt_Some|by apply list_insert_id]. Qed.

(** [confirm_transaction] on a whole system *)
Definition confirmed (id : string) (s : Sys W) (a : option Transaction * result unit error) (s' : Sys W) : Prop :=
  (s' = s /\ exists err, a = (None, Err err))
  \/ exists p t e' t' w', st_pending (s_st s) = Some p /\ s_heap s !! p_tx p = Some t /\ tx_id t = id
       /\ s' = mkSys e' (<[p_tx p := t']> (s_heap s)) w' /\ same_candidate t t' /\ fst a = Some t'
       /\ confirm_end (p_tx p) p (s_st s) e' t t' w' (snd a).

(** What the engine keeps about a pending change, as far as a handler needs it *)
Definition pending_tx_ok (s : Sys W) : Prop :=
  forall p, st_pending (s_st s) = Some p -> exists t, s_heap s !! p_tx p = Some t
    /\ (p_canonical_committed p = true -> st_current_config (s_st s) = tx_config t).

Lemma confirm_spec id s : st_applying (s_st s) = false -> pending_tx_ok s ->
  wp (confirm_transaction id) (confirmed id s) s.
Proof.
  destruct s as [e h w]. unfold pending_tx_ok. cbn [s_st s_heap]. intros Ha Hp. unfold confirm_transaction. wp_run.
  destruct (st_pending e) as [p|] eqn:Ep; [|wp_run; left; by eauto].
  destruct (Hp p eq_refl) as (t & Ht & Hc). destruct (heap_at _ _ _ Ht) as [Hl Hh]. rewrite <- Hh. wp_run.
  destruct (String.eqb_spec (tx_id t) id) as [Hid|]; cbn [negb]; [|wp_run; left; by eauto].
  wp_run. eapply wp_mono; [by apply confirm_locked_ends|].
  intros r s' (e' & t' & w' & -> & Hsame & Hend). wp_run. right.
  exists p, t, e', t'. eexists. cbn [s_st s_heap fst snd]. rewrite Hh. split_and!; try done.
  destruct Hend as [He' Hst Hrun|err Hk]; [|by apply confirm_failed].
  apply confirm_done; [done..|]. eapply verified_run_evolves; [exact Hrun|apply audited_evolves].
Qed.

(** ** The timer *)
Inductive rollback_end (p : PendingChange) (e e' : EngineState) (t' : Transaction) (w' : W) : Prop :=
| rb_restored :
    p_rollback_attempts p < MAXIMUM_ROLLBACK_ATTEMPTS ->
    e' = clear_recovery (set_pending None e) -> tx_state t' = RolledBack -> verified_run (p_previous p) w' ->
    rollback_end p e e' t' w'
| rb_retry (n := p_rollback_attempts p + 1) :
    n <= MAXIMUM_ROLLBACK_ATTEMPTS ->
    e' = set_pending (Some (with_timer (with_attempts p n (p_commit_attempts p))
                              (Some (mkTimer (retry_delay n) false)))) e ->
    tx_state t' = RecoveryRequired -> rollback_end p e e' t' w'
| rb_exhausted reason :
    MAXIMUM_ROLLBACK_ATTEMPTS <= p_rollback_attempts p ->
    e' = require_recovery reason (set_pending None e) -> tx_state t' = RecoveryRequired ->
    rollback_end p e e' t' w'.

Definition rolled_back (id : string) (s s' : Sys W) : Prop :=
  match st_pending (s_st s) with
  | None => s' = s
  | Some p =>
      exists t, s_heap s !! p_tx p = Some t
        /\ if (tx_id t <>s id) || p_canonical_committed p then s' = s
           else exists e' t' w', s' = mkSys e' (<[p_tx p := t']> (s_heap s)) w' /\ same_candidate t t'
                  /\ rollback_end p (s_st s) e' t' w'
  end.

Lemma rollback_attempt_ends tx id p e h t w (n := p_rollback_attempts p + 1) :
  (tx < List.length h)%nat -> st_applying e = false -> n <= MAXIMUM_ROLLBACK_ATTEMPTS -> st_pending e = Some p ->
  wp (rollback_attempt tx id (p_previous p) n)
    (fun _ s' => exists e' t' w', s' = mkSys e' (<[tx := t']> h) w' /\ same_candidate t t' /\ rollback_end p e e' t' w')
    (mkSys (set_pending (Some (with_attempts p n (p_commit_attempts p))) e) (<[tx := t]> h) w).
Proof.
  intros Hl He Hn Hp. unfold rollback_attempt, set_tx, modify_pending.
  assert (Hretry : forall msg t' w', t' = with_tx_error (with_tx_state t RecoveryRequired) msg ->
    exists e' t'' w'', mkSys (set_pending (Some (with_timer (with_attempts p n (p_commit_attempts p))
      (Some (mkTimer (retry_delay n) false)))) e) (<[tx := t']> h) w' = mkSys e' (<[tx := t'']> h) w''
      /\ same_candidate t t'' /\ rollback_end p e e' t'' w'').
  { intros msg t' w' ->. eexists _, _, w'. split_and!; [reflexivity|done|]. by apply rb_retry. }
  destruct (build_apply_request _ _) as [req|be] eqn:Eb; [|wp_run; by eapply Hretry].
  wp_run. destruct (privileged_w _ _ w) as [[r|pe] w1] eqn:Epv; cbn [fst snd].
  - destruct (resp_success r && resp_verified r) eqn:Eok; wp_run.
    + to_prop. eexists _, _, _. split_and!; [reflexivity|done|]. apply rb_restored; [lia| |done|].
      * destruct e; cbn in *. by subst.
      * apply build_request_anchors in Eb as [Hm Hc].
        eapply verified_run_evolves; [by eapply verified_run_call|apply audited_evolves].
    + destruct e; cbn in *; subst. by eapply Hretry.
  - wp_run. destruct e; cbn in *; subst. by eapply Hretry.
Qed.

Lemma rollback_spec id s : st_applying (s_st s) = false -> pending_tx_ok s ->
  wp (rollback_expired id) (fun _ s' => rolled_back id s s') s.
Proof.
  destruct s as [e h w]. unfold pending_tx_ok, rolled_back. cbn [s_st s_heap]. intros Ha Hp.
  unfold rollback_expired. wp_run. destruct (st_pending e) as [p|] eqn:Ep; [|by wp_run].
  destruct (Hp p eq_refl) as (t & Ht & Hc). destruct (heap_at _ _ _ Ht) as [Hl Hh]. rewrite <- Hh at 1. wp_run.
  destruct ((tx_id t <>s id) || p_canonical_committed p) eqn:Eg.
  { wp_run. exists t. rewrite Hh, Eg. done. }
  unfold modify_pending. wp_run. rewrite Ep. cbn [fmap option_fmap option_map].
  eapply wp_mono with (P := fun _ s' => exists e' t' w', s' = mkSys e' (<[p_tx p := t']> h) w' /\ same_candidate t t'
    /\ rollback_end p e e' t' w').
  - destruct (Z.ltb_spec MAXIMUM_ROLLBACK_ATTEMPTS (p_rollback_attempts p + 1)).
    + unfold set_tx. wp_run. eexists _, _, _. split_and!; [reflexivity|done|]. eapply rb_exhausted; [lia|done|done].
    + by apply rollback_attempt_ends.
  - intros _ s' Hs'. exists t. rewrite Eg. done.
Qed.

(** ** Reconciliation *)

(** The transaction of a pending change once the runtime is the canonical one *)
Definition settled (p : PendingChange) (t t' : Transaction) : Prop :=
  same_candidate t t' /\ tx_confirmation_deadline t' = None
  /\ tx_state t' = (if p_canonical_committed p then Committed else RolledBack).

Inductive reconciled (s : Sys W) : result unit error -> Sys W -> Prop :=
| rec_unbuilt err w' : evolves (s_world s) w' -> reconciled s (Err err) (mkSys (s_st s) (s_heap s) w')
| rec_failed err reason w' : reconciled s (Err err) (mkSys (require_recovery reason (s_st s)) (s_heap s) w')
| rec_idle w' :
    st_pending (s_st s) = None -> verified_run (st_current_config (s_st s)) w' ->
    reconciled s (Ok tt) (mkSys (clear_recovery (s_st s)) (s_heap s) w')
| rec_settled p t t' w' :
    st_pending (s_st s) = Some p -> s_heap s !! p_tx p = Some t -> settled p t t' ->
    verified_run (st_current_config (s_st s)) w' ->
    reconciled s (Ok tt) (mkSys (clear_recovery (set_active (Some (p_tx p)) (set_pending None (s_st s))))
                            (<[p_tx p := t']> (s_heap s)) w').

Lemma wp_settle p (Q : unit -> Sys W -> Prop) e h t w :
  (p_tx p < List.length h)%nat ->
  (forall t' w', settled p t t' -> evolves w w' ->
     Q tt (mkSys (set_active (Some (p_tx p)) (set_pending None e)) (<[p_tx p := t']> h) w')) ->
  wp (settle_pending p) Q (mkSys e (<[p_tx p := t]> h) w).
Proof.
  intros Hl HQ. unfold settle_pending, set_tx. destruct (p_canonical_committed p) eqn:Ec; wp_run; apply HQ;
    unfold settled; rewrite ?Ec; auto with mr; by split_and!.
Qed.

Lemma reconcile_spec deadline s : st_applying (s_st s) = false -> pending_tx_ok s ->
  wp (reconcile deadline) (reconciled s) s.
Proof.
  intros Ha Hp. destruct s as [e h w]. unfold reconcile. wp_run. pose proof (ev_clock w) as Hclk.
  destruct (clock_now w) as [now w1]. cbn [fst snd] in *.
  destruct (build_apply_request _ _) as [req|[what err]] eqn:Eb; wp_run; [|by apply (rec_unbuilt (mkSys e h w))].
  change (set_applying false (set_applying true e)) with (set_applying false e).
  rewrite (set_applying_id e) by done.
  destruct (apply_w _ _ w1) as [[r|err] w2] eqn:Ep; cbn [fst snd]; [|wp_run; by apply (rec_failed (mkSys e h w))].
  destruct (_ || _ || _) eqn:Er; wp_run; [by apply (rec_failed (mkSys e h w))|]. to_prop.
  assert (Hrun : verified_run (st_current_config e) w2).
  { apply reconcile_request_anchors in Eb as [Hm Hc]. exists w2. split; [constructor|].
    exists (with_op req op_reconcile), w1, r. split_and!; [done|exact Hc|done|right; by eexists]. }
  destruct (st_pending e) as [p|] eqn:Epd; [|wp_run; by apply (rec_idle (mkSys e h w))].
  destruct (Hp p Epd) as (t & Ht & _). cbn [s_heap] in Ht. destruct (heap_at _ _ _ Ht) as [Hl Hh].
  rewrite <- Hh at 1. apply wp_settle; [done|]. intros t' w' Hset Hev. wp_run.
  eapply (rec_settled (mkSys e h w)); [done|done|done|by eapply verified_run_evolves].
Qed.

(** ** The QoS bypass *)
Inductive bypassed (f : W -> result unit error * W) (s : Sys W) : result unit error -> Sys W -> Prop :=
| qos_untouched err w' : evolves (s_world s) w' -> bypassed f s (Err err) (mkSys (s_st s) (s_heap s) w')
| qos_disabled :
    qos_enabled (c_qos (st_current_config (s_st s))) = false ->
    bypassed f s (fst (f (s_world s))) (mkSys (s_st s) (s_heap s) (snd (f (s_world s))))
| qos_restored r w' :
    verified_run (st_current_config (s_st s)) w' -> bypassed f s r (mkSys (s_st s) (s_heap s) w')
| qos_unrestored err reason w' :
    bypassed f s (Err err) (mkSys (require_recovery reason (s_st s)) (s_heap s) w').

Lemma wp_temporary req (Q : result unit error -> Sys W -> Prop) e h w :
  st_applying e = false ->
  (forall w' err, Q (Err err) (mkSys e h w')) ->
  (forall w', (anchors req = true -> verified_run (req_config req) w') -> Q (Ok tt) (mkSys e h w')) ->
  wp (apply_temporary_runtime req) Q (mkSys e h w).
Proof.
  intros Ha Hbad Hgood. unfold apply_temporary_runtime. wp_run. rewrite (set_applying_id e Ha).
  destruct (privileged_w _ _ w) as [[r|err] w1] eqn:Ep; cbn [fst snd]; [|wp_run; apply Hbad].
  destruct (_ || _) eqn:Er; [destruct (negb (is_empty _)); wp_run; apply Hbad|]. to_prop. wp_run. apply Hgood.
  intros Hm. by eapply verified_run_call.
Qed.

(** The measurement and the restoration, after the bypass was tried *)
Lemma qos_restore_ends canonical (b : result unit error) (f : W -> result unit error * W)
  (Q : result unit error -> Sys W -> Prop) e h w :
  st_applying e = false -> canonical = st_current_config e ->
  (forall w' r, verified_run canonical w' -> Q r (mkSys e h w')) ->
  (forall w' reason err, Q (Err err) (mkSys (require_recovery reason e) h w')) ->
  wp (qos_restore canonical b f) Q (mkSys e h w).
Proof.
  intros Ha -> Hgood Hbad. unfold qos_restore. rewrite wp_bind.
  eapply wp_mono with (P := fun _ s' => exists w', s' = mkSys e h w').
  { destruct b as [[]|err]; cbn [err_of fmap option_fmap option_map]; wp_run; by eexists. }
  intros merr s' (w' & ->). wp_run. destruct (clock_now w') as [now w1]. cbn [fst snd].
  assert (Hfail : forall err w2, wp (qos_report (Wrapf "activate temporary QoS bypass" <$> err_of b) merr (Some err)) Q
    (mkSys e h w2)).
  { intros err w2. unfold qos_report. wp_run. destruct b as [[]|err0], merr as [m|]; apply Hbad. }
  destruct (build_apply_request _ _) as [req|[what err]] eqn:Eb; [|wp_run; apply Hfail].
  apply reconcile_request_anchors in Eb as [Hm Hc]. wp_run. apply wp_temporary; [done| |].
  - intros w2 err. wp_run. apply Hfail.
  - intros w2 Hrun. wp_run. unfold qos_report. wp_run.
    assert (Hv : verified_run (st_current_config e) w2).
    { rewrite <- Hc. apply Hrun. unfold anchors in *. cbn in *. to_prop. done. }
    destruct (omap id _); wp_run; by apply Hgood.
Qed.

Lemma qos_spec f s : st_applying (s_st s) = false -> wp (with_qos_bypassed f) (bypassed f s) s.
Proof.
  intros Ha. destruct s as [e h w]. unfold with_qos_bypassed. wp_run.
  destruct (st_recovery_required e); [wp_run; by apply (qos_untouched f (mkSys e h w)); constructor|].
  destruct (st_pending e) as [p|]; cbn [is_none negb];
    [wp_run; by apply (qos_untouched f (mkSys e h w)); constructor|].
  destruct (qos_enabled _) eqn:Eq; cbn [negb]; [|wp_run; by apply (qos_disabled f (mkSys e h w))].
  wp_run. pose proof (ev_clock w) as Hclk. destruct (clock_now w) as [now w1]. cbn [fst snd] in *.
  destruct (build_apply_request _ _) as [req|[what err]] eqn:Eb;
    [|wp_run; by apply (qos_untouched f (mkSys e h w))].
  wp_run.
  assert (Hrest : forall b w2, wp (qos_restore (st_current_config e) b f) (bypassed f (mkSys e h w)) (mkSys e h w2)).
  { intros b w2. apply qos_restore_ends; [done|done| |].
    - intros w' r Hr. by apply (qos_restored f (mkSys e h w)).
    - intros w' reason err. apply (qos_unrestored f (mkSys e h w)). }
  apply wp_temporary; [done| |]; intros; apply Hrest.
Qed.
End Inv.
