(* ===== verification/EngineReach.v ===== *)
(** * Reachable states of the engine

    The invariant every transition of the engine preserves, and what follows
    for all reachable states: the canonical configuration is always valid and
    its revision advances by one, an unconfirmed change always has an armed
    timer and is settled after finitely many firings, and outside of recovery
    and of a pending change the runtime is the canonical configuration. *)

From Stdlib Require Import ZArith Ascii String Lia Bool.
From stdpp Require Import base list strings gmap.
From S2P Require Import Prelude GoStrings Net GoTime Json Model Validation Policy Ipc Safety Engine EngineSpec EngineInv.

Local Open Scope string_scope.
Local Open Scope Z_scope.
Local Open Scope list_scope.

Section Reach.
Context {UC : Unicode} {B64 : Base64} {G : Generators} {W : Type} {E : Env W}.
Implicit Types (e : EngineState) (h : list Transaction) (w : W) (s : Sys W).

(** ** The invariant *)

(** A configuration the engine may run *)
Definition live_ok (c : SystemConfig) : Prop := validate_live_candidate c None = Ok tt.

Lemma live_candidate_both c prev : validate_live_candidate c (Some prev) = Ok tt -> live_ok c /\ live_ok prev.
Proof.
  unfold live_ok, validate_live_candidate.
  destruct (validate c) as [[]|]; cbn; [|done]. destruct (validate_scenario_safety c) as [[]|]; cbn; [|done].
  destruct (validate prev) as [[]|]; cbn; [|done]. by destruct (validate_scenario_safety prev) as [[]|].
Qed.

Lemma live_ok_revision c r t : live_ok c -> live_ok (with_revision c r t).
Proof. exact id. Qed.

(** The delay of the timer armed after [attempts] failed rollbacks *)
Definition armed_delay (attempts : Z) : Z :=
  if attempts =? 0 then CONFIRMATION_TIMEOUT else retry_delay attempts.

(** What is known of a pending change [p] *)
Record pending_inv (e : EngineState) (h : list Transaction) (p : PendingChange) (t : Transaction) : Prop := {
  pi_tx : h !! p_tx p = Some t;
  pi_state : tx_state t = AwaitingConfirmation \/ tx_state t = RecoveryRequired;
  pi_current : st_current_config e = if p_canonical_committed p then tx_config t else p_previous p;
  pi_revision : c_revision (tx_config t) = c_revision (p_previous p) + 1;
  pi_revision_bound : c_revision (tx_config t) <= i64_max;
  pi_live : live_ok (tx_config t);
  pi_attempts : 0 <= p_rollback_attempts p <= MAXIMUM_ROLLBACK_ATTEMPTS;
  pi_timer : p_canonical_committed p = false ->
    p_timer p = Some (mkTimer (armed_delay (p_rollback_attempts p)) false);
}.

Record engine_inv (s : Sys W) : Prop := {
  ei_idle : st_applying (s_st s) = false;
  ei_active : forall r, st_active_tx (s_st s) = Some r -> (r < List.length (s_heap s))%nat;
  ei_live : live_ok (st_current_config (s_st s));
  ei_pending : forall p, st_pending (s_st s) = Some p -> exists t, pending_inv (s_st s) (s_heap s) p t;
}.

Lemma engine_inv_tx_ok s : engine_inv s -> pending_tx_ok s.
Proof.
  intros I p Hp. destruct (ei_pending _ I p Hp) as [t J]. exists t. split; [apply J|].
  intros Hc. rewrite (pi_current _ _ _ _ J), Hc. done.
Qed.

(** The invariant does not look at the recovery flag or at the world. *)
Lemma engine_inv_recovery e h w w' reason :
  engine_inv (mkSys e h w) -> engine_inv (mkSys (require_recovery reason e) h w').
Proof.
  intros [I1 I2 I3 I4]. split; try done. intros p Hp. destruct (I4 p Hp) as [t J]. exists t. by destruct J.
Qed.
Lemma engine_inv_clear e h w w' : engine_inv (mkSys e h w) -> engine_inv (mkSys (clear_recovery e) h w').
Proof.
  intros [I1 I2 I3 I4]. split; try done. intros p Hp. destruct (I4 p Hp) as [t J]. exists t. by destruct J.
Qed.
Lemma engine_inv_world e h w w' : engine_inv (mkSys e h w) -> engine_inv (mkSys e h w').
Proof. by intros [I1 I2 I3 I4]. Qed.

(** Without a pending change the transactions do not matter. *)
Lemma engine_inv_settled e h h' w w' c act :
  engine_inv (mkSys e h w) -> live_ok c -> List.length h' = List.length h ->
  (forall r, act = Some r -> (r < List.length h)%nat) ->
  engine_inv (mkSys (set_active act (set_pending None (set_current c e))) h' w').
Proof. intros [I1 I2 I3 I4] Hc Hl Ha. split; cbn in *; [done| |done|done]. intros r Hr. rewrite Hl. auto. Qed.

Lemma armed_delay_retry n : 1 <= n -> armed_delay n = retry_delay n.
Proof. unfold armed_delay. intros Hn. by destruct (Z.eqb_spec n 0); [lia|]. Qed.

(** ** Preservation *)
Lemma admitted_live e cfg allow now : admitted e cfg allow -> live_ok (stamped e cfg now).
Proof. intros A. apply live_ok_revision, (live_candidate_both _ _ (adm_valid _ _ _ A)). Qed.

Lemma admitted_quiet e cfg allow : admitted e cfg allow -> st_recovery_required e = false /\ st_pending e = None.
Proof.
  intros [Hg _ _]. unfold admission_guards in Hg. destruct (st_recovery_required e); [done|].
  by destruct (st_pending e).
Qed.

(** A new transaction at the end of the heap keeps what is known. *)
Lemma engine_inv_new e h w w' t :
  engine_inv (mkSys e h w) -> engine_inv (mkSys (set_active (Some (List.length h)) e) (h ++ [t]) w').
Proof.
  intros [I1 I2 I3 I4]. split; cbn in *; try done.
  - intros r Hr. simplify_eq. rewrite length_app. cbn. lia.
  - intros p Hp. destruct (I4 p Hp) as [t0 J]. exists t0. destruct J as [J1 ? ? ? ? ? ? ?]. split; try done.
    by apply lookup_app_l_Some.
Qed.

Lemma process_inv id cfg allow commit s :
  engine_inv s -> engine_inv (snd (process id cfg allow commit s)).
Proof.
  intros I. pose proof (process_spec id cfg allow commit s (ei_idle _ I)) as Hs. unfold wp in Hs.
  destruct (process id cfg allow commit s) as [[t r] s']. cbn [fst snd] in *.
  destruct Hs as (now & e' & w' & -> & _ & Hend & Hadm & _). cbn [fst snd] in *. destruct s as [e h w]. cbn [s_st s_heap] in *.
  pose proof (engine_inv_new _ _ _ w' t I) as I'. set (e1 := set_active _ e) in *.
  destruct Hend as [Hst Hc ->|p Hst Hc Hpt Hpp Hpc Hra Htm ->|err Hst ->|err reason c Hst Hc ->].
  - destruct Hadm as [A|[[? ?] _]]; [|done]. destruct (admitted_quiet _ _ _ A) as [_ Hp].
    destruct I' as [I1 I2 I3 I4]. split; cbn in *; try done; [by eapply admitted_live|].
    intros p Hp'. congruence.
  - destruct Hadm as [A|[[? ?] _]]; [|done]. destruct I' as [I1 I2 I3 I4]. split; cbn in *; try done.
    intros p' Hp'. simplify_eq. exists t. split; cbn in *.
    + rewrite Hpt, lookup_app_r, Nat.sub_diag by lia. done.
    + by left.
    + by rewrite Hpc, Hpp.
    + by rewrite Hc, Hpp.
    + rewrite Hc. cbn. by apply (next_revision_Some _ _ (adm_revision _ _ _ A)).
    + rewrite Hc. by eapply admitted_live.
    + rewrite Hra. unfold MAXIMUM_ROLLBACK_ATTEMPTS. lia.
    + intros _. by rewrite Hra.
  - done.
  - apply (engine_inv_recovery (set_current c e1) _ w'). destruct Hc as [->| ->]; [by rewrite set_current_id|].
    destruct Hadm as [A|[_ Heq]].
    + destruct (admitted_quiet _ _ _ A) as [_ Hp].
      destruct I' as [I1 I2 I3 I4]. split; cbn in *; try done; [by eapply admitted_live|]. intros p Hp'. congruence.
    + pose proof (f_equal st_current_config Heq) as Hcur. cbn in Hcur. rewrite Hcur.
      change (st_current_config e) with (st_current_config e1). by rewrite set_current_id.
Qed.

Lemma confirm_inv id s : engine_inv s -> engine_inv (snd (confirm_transaction id s)).
Proof.
  intros I. pose proof (confirm_spec id s (ei_idle _ I) (engine_inv_tx_ok _ I)) as Hs. unfold wp in Hs.
  destruct (confirm_transaction id s) as [[o r] s']. cbn [fst snd] in *.
  destruct Hs as [[-> _]|(p & t & e' & t' & w' & Hp & Ht & _ & -> & [S1 S2] & _ & Hend)]; [done|].
  destruct s as [e h w]. cbn [s_st s_heap fst snd] in *. destruct (ei_pending _ I p Hp) as [t0 J].
  destruct (heap_at _ _ _ Ht) as [Hl _].
  assert (t0 = t) as -> by (pose proof (pi_tx _ _ _ _ J) as Hq; cbn in Hq; congruence).
  destruct Hend as [-> Hst _|err (p' & Hp' & Q1 & Q2 & Q3 & Q4 & Q5 & Q6 & Q7)].
  - apply (engine_inv_clear _ _ w'). rewrite set_applying_id by apply I.
    apply (engine_inv_settled e h _ w); [done|apply J|apply length_insert|]. intros r Hr. by simplify_eq.
  - split; cbn [s_st s_heap]; [done| | |].
    + intros r Hr. rewrite Q5 in Hr. rewrite length_insert. by apply (ei_active _ I).
    + destruct Q7 as [[_ ->]|(_ & _ & -> & _)]; [apply J|apply I].
    + intros p2 Hp2. assert (p2 = p') as -> by congruence. exists t'. split.
      * rewrite Q1. by apply list_lookup_insert_eq.
      * rewrite <- S2 in *. destruct Q6 as [->| ->]; [apply J|by right].
      * destruct Q7 as [[-> ->]|(-> & Hc & -> & _)]; [done|]. rewrite Hc.
        pose proof (pi_current _ _ _ _ J) as Hj. by rewrite Hc in Hj.
      * rewrite S2, Q2. apply J.
      * rewrite S2. apply J.
      * rewrite S2. apply J.
      * rewrite Q3. apply J.
      * destruct Q7 as [[-> _]|(-> & _)]; [done|apply J].
Qed.

Lemma rollback_inv id s : engine_inv s -> engine_inv (snd (rollback_expired id s)).
Proof.
  intros I. pose proof (rollback_spec id s (ei_idle _ I) (engine_inv_tx_ok _ I)) as Hs. unfold wp, rolled_back in Hs.
  destruct (rollback_expired id s) as [[] s']. cbn [fst snd] in *.
  destruct s as [e h w]. cbn [s_st s_heap] in *.
  destruct (st_pending e) as [p|] eqn:Hp; [|by subst]. destruct Hs as (t & Ht & Hs).
  destruct (_ || _) eqn:Eg; [by subst|]. destruct Hs as (e' & t' & w' & -> & [S1 S2] & Hend).
  destruct (ei_pending _ I p Hp) as [t0 J]. destruct (heap_at _ _ _ Ht) as [Hl _]. to_prop.
  assert (t0 = t) as -> by (pose proof (pi_tx _ _ _ _ J) as Hq; cbn in Hq; congruence).
  assert (Hset : forall w', engine_inv (mkSys (set_pending None e) (<[p_tx p := t']> h) w')).
  { intros w1. pose proof (engine_inv_settled e h (<[p_tx p := t']> h) w w1 (st_current_config e) (st_active_tx e)) as Hq.
    rewrite set_current_id in Hq. apply Hq; [done|apply I|apply length_insert|apply I]. }
  destruct Hend as [_ -> Hst _|n Hn -> Hst|reason _ -> Hst].
  - apply (engine_inv_clear _ _ w'), Hset.
  - split; cbn; [apply I| |apply I|].
    + intros r Hr. rewrite length_insert. by apply (ei_active _ I).
    + intros p2 Hp2. simplify_eq. exists t'. split; cbn.
      * by apply list_lookup_insert_eq.
      * by right.
      * pose proof (pi_current _ _ _ _ J) as Hj. cbn in Hj. by rewrite S2.
      * rewrite S2. apply J.
      * rewrite S2. apply J.
      * rewrite S2. apply J.
      * pose proof (pi_attempts _ _ _ _ J). unfold n in *. lia.
      * intros _. pose proof (pi_attempts _ _ _ _ J). rewrite armed_delay_retry; [done|]. unfold n. lia.
  - apply (engine_inv_recovery _ _ w'), Hset.
Qed.

Lemma reconcile_inv deadline s : engine_inv s -> engine_inv (snd (reconcile deadline s)).
Proof.
  intros I. pose proof (reconcile_spec deadline s (ei_idle _ I) (engine_inv_tx_ok _ I)) as Hs. unfold wp in Hs.
  destruct (reconcile deadline s) as [r s']. cbn [fst snd] in *. destruct s as [e h w].
  destruct Hs as [err w' _|err reason w'|w' _ _|p t t' w' Hp Ht Hset _]; cbn [s_st s_heap] in *.
  - by eapply engine_inv_world.
  - by eapply engine_inv_recovery.
  - by eapply engine_inv_clear.
  - apply (engine_inv_clear _ _ w').
    pose proof (engine_inv_settled e h (<[p_tx p := t']> h) w w' (st_current_config e) (Some (p_tx p))) as Hq.
    rewrite set_current_id in Hq. apply Hq; [done|apply I|apply length_insert|].
    intros r Hr. simplify_eq. by eapply lookup_lt_Some.
Qed.

Lemma qos_inv f s : engine_inv s -> engine_inv (snd (with_qos_bypassed f s)).
Proof.
  intros I. pose proof (qos_spec f s (ei_idle _ I)) as Hs. unfold wp in Hs.
  destruct (with_qos_bypassed f s) as [r s']. cbn [fst snd] in *. destruct s as [e h w].
  destruct Hs; cbn [s_st s_heap s_world] in *; try (by eapply engine_inv_world). by eapply engine_inv_recovery.
Qed.

Lemma step_inv ms s s' : engine_inv s -> step ms s s' -> engine_inv s'.
Proof.
  intros I. destruct 1; auto using process_inv, confirm_inv, rollback_inv, reconcile_inv, qos_inv.
Qed.

Lemma reachable_inv ms initial w0 s : live_ok initial -> reachable ms initial w0 s -> engine_inv s.
Proof.
  intros Hi. induction 1 as [|s s' _ IH Hstep]; [|by eapply step_inv]. by split.
Qed.

(** C4: in every state the engine can reach from a valid configuration, the
    canonical configuration passes validation, no call is left marked as
    running, and a pending change is consistent: its transaction is alive and
    awaits confirmation or recovery, its candidate is valid and one revision
    ahead, the canonical configuration is the candidate exactly when it was
    committed and the remembered previous one otherwise, at most five rollbacks
    were tried, and an uncommitted change has an armed timer. *)
Theorem reachable_invariant ms initial w0 s :
  live_ok initial -> reachable ms initial w0 s -> engine_inv s.
Proof. apply reachable_inv. Qed.

(** ** Revisions *)

(** The canonical configuration stays, or is replaced by the next revision. *)
Definition revision_step (s s' : Sys W) : Prop :=
  st_current_config (s_st s') = st_current_config (s_st s)
  \/ c_revision (st_current_config (s_st s')) = c_revision (st_current_config (s_st s)) + 1
     /\ c_revision (st_current_config (s_st s')) <= i64_max.

Lemma process_revision id cfg allow commit s : engine_inv s -> revision_step s (snd (process id cfg allow commit s)).
Proof.
  intros I. pose proof (process_spec id cfg allow commit s (ei_idle _ I)) as Hs. unfold wp, revision_step in *.
  destruct (process id cfg allow commit s) as [[t r] s1]. cbn [fst snd] in *.
  destruct Hs as (now & e' & w' & -> & _ & Hend & Hadm & _). cbn [fst snd s_st] in *.
  destruct Hadm as [A|[_ ->]]; [|by left]. destruct (next_revision_Some _ _ (adm_revision _ _ _ A)) as [_ Hmax].
  destruct Hend as [_ _ ->|p _ _ _ _ _ _ _ ->|err _ ->|err reason c _ [->| ->] ->]; cbn; auto.
Qed.

Lemma confirm_revision id s : engine_inv s -> revision_step s (snd (confirm_transaction id s)).
Proof.
  intros I. pose proof (confirm_spec id s (ei_idle _ I) (engine_inv_tx_ok _ I)) as Hs. unfold wp, revision_step in *.
  destruct (confirm_transaction _ _) as [[o r] s']. cbn [fst snd] in *.
  destruct Hs as [[-> _]|(p & t & e' & t' & w' & Hp & Ht & _ & -> & _ & _ & Hend)]; [by left|].
  cbn [s_st] in *. destruct (ei_pending _ I p Hp) as [t0 J].
  assert (t0 = t) as -> by (pose proof (pi_tx _ _ _ _ J); congruence).
  pose proof (pi_current _ _ _ _ J) as Hc. pose proof (pi_revision _ _ _ _ J) as Hrev.
  pose proof (pi_revision_bound _ _ _ _ J).
  assert (Hcand : st_current_config e' = tx_config t \/ st_current_config e' = st_current_config (s_st s)).
  { destruct Hend as [-> _ _|err (p' & _ & _ & _ & _ & _ & _ & _ & [[_ ->]|(_ & _ & -> & _)])]; auto. }
  destruct Hcand as [->| ->]; [|by left]. destruct (p_canonical_committed p); [by left|]. right. by rewrite Hc.
Qed.

(** The other handlers do not touch the canonical configuration. *)
Lemma rollback_current id s : engine_inv s ->
  st_current_config (s_st (snd (rollback_expired id s))) = st_current_config (s_st s).
Proof.
  intros I. pose proof (rollback_spec id s (ei_idle _ I) (engine_inv_tx_ok _ I)) as Hs. unfold wp, rolled_back in Hs.
  destruct (rollback_expired _ _) as [[] s']. cbn [fst snd] in *.
  destruct (st_pending (s_st s)) as [p|]; [|by subst]. destruct Hs as (t & _ & Hs).
  destruct (_ || _); [by subst|]. destruct Hs as (e' & t' & w' & -> & _ & [_ -> _ _|n _ -> _|reason _ -> _]); done.
Qed.
Lemma reconcile_current deadline s : engine_inv s ->
  st_current_config (s_st (snd (reconcile deadline s))) = st_current_config (s_st s).
Proof.
  intros I. pose proof (reconcile_spec deadline s (ei_idle _ I) (engine_inv_tx_ok _ I)) as Hs. unfold wp in Hs.
  destruct (reconcile _ _) as [r s']. cbn [fst snd] in *. by destruct Hs.
Qed.
Lemma qos_current f s : engine_inv s ->
  st_current_config (s_st (snd (with_qos_bypassed f s))) = st_current_config (s_st s).
Proof.
  intros I. pose proof (qos_spec f s (ei_idle _ I)) as Hs. unfold wp in Hs.
  destruct (with_qos_bypassed _ _) as [r s']. cbn [fst snd] in *. by destruct Hs.
Qed.

(** The canonical revision counts the canonical changes.  One transition
    from a reachable state either leaves the canonical configuration alone or
    replaces it by one whose revision is exactly one higher and fits [i64]. *)
Theorem canonical_revision_steps ms initial w0 s s' :
  live_ok initial -> reachable ms initial w0 s -> step ms s s' -> revision_step s s'.
Proof.
  intros Hi Hr Hstep. assert (I : engine_inv s) by (by eapply reachable_inv).
  destruct Hstep; [by apply process_revision|by apply confirm_revision|left..];
    auto using rollback_current, reconcile_current, qos_current.
Qed.

(** ** Confirmation *)

(** C7: confirming is all or nothing.  A confirmation that succeeds named the
    pending transaction, and leaves its candidate canonical and verified by the
    helper, the transaction committed, nothing pending and no recovery
    required.  One that fails keeps the change pending, for a retry or for the
    rollback to the same previous configuration; what is canonical is still
    what the pending change says. *)
Theorem confirmation_outcomes ms initial w0 s id o r s' :
  live_ok initial -> reachable ms initial w0 s -> confirm_transaction id s = ((o, r), s') ->
  match r with
  | Ok _ =>
      exists p t t', st_pending (s_st s) = Some p /\ s_heap s !! p_tx p = Some t /\ tx_id t = id
        /\ s_heap s' !! p_tx p = Some t' /\ tx_state t' = Committed
        /\ st_current_config (s_st s') = tx_config t /\ verified_run (tx_config t) (s_world s')
        /\ st_pending (s_st s') = None /\ st_recovery_required (s_st s') = false
  | Err _ =>
      (p_previous <$> st_pending (s_st s')) = (p_previous <$> st_pending (s_st s))
      /\ (p_tx <$> st_pending (s_st s')) = (p_tx <$> st_pending (s_st s))
      /\ forall p', st_pending (s_st s') = Some p' -> exists t', pending_inv (s_st s') (s_heap s') p' t'
  end.
Proof.
  intros Hi Hr Hq. assert (I : engine_inv s) by (by eapply reachable_inv).
  pose proof (confirm_inv id s I) as I'. rewrite Hq in I'. cbn [snd] in I'.
  pose proof (confirm_spec id s (ei_idle _ I) (engine_inv_tx_ok _ I)) as Hs. unfold wp in Hs. rewrite Hq in Hs.
  cbn [fst snd] in Hs.
  destruct Hs as [[-> [err He]]|(p & t & e' & t' & w' & Hp & Ht & Hid & -> & [S1 S2] & _ & Hend)].
  { injection He as -> ->. split_and!; [done|done|]. apply I. }
  cbn [snd] in Hend. destruct Hend as [He' Hst Hrun|err (p' & Hp' & Q1 & Q2 & _)].
  - rewrite He'. exists p, t, t'. split_and!; try done. cbn. apply list_lookup_insert_eq. by eapply lookup_lt_Some.
  - cbn [s_st]. rewrite Hp, Hp'. cbn. split_and!; [by rewrite Q2|by rewrite Q1|]. rewrite <- Hp'. apply I'.
Qed.

(** ** The timer settles a pending change *)

(** Firing the armed timer of a pending change again and again, until nothing
    is pending; [b] is the time the timers wait in all. *)
Inductive settles (id : string) : Sys W -> Sys W -> Z -> Prop :=
| settles_done s : st_pending (s_st s) = None -> settles id s s 0
| settles_fire s s' p d b :
    st_pending (s_st s) = Some p -> p_timer p = Some (mkTimer d false) ->
    settles id (snd (rollback_expired id s)) s' b -> settles id s s' (d + b).

(** The waiting time left after [n] failed attempts *)
Definition waiting_left (n : Z) : Z :=
  fold_right (fun i acc => (if n <=? i then armed_delay i else 0) + acc) 0 [0; 1; 2; 3; 4; 5].

Lemma waiting_left_step n : 0 <= n <= MAXIMUM_ROLLBACK_ATTEMPTS -> waiting_left n = armed_delay n + waiting_left (n + 1).
Proof.
  unfold MAXIMUM_ROLLBACK_ATTEMPTS. intros Hn.
  assert (n = 0 \/ n = 1 \/ n = 2 \/ n = 3 \/ n = 4 \/ n = 5) as [->|[->|[->|[->|[->| ->]]]]] by lia; vm_compute; reflexivity.
Qed.
Lemma waiting_left_bounds n : 0 <= waiting_left n <= dur_secs 400.
Proof.
  unfold waiting_left. cbn. repeat (destruct (n <=? _)); vm_compute; split; congruence.
Qed.

Lemma settles_from id s p t k :
  engine_inv s -> st_pending (s_st s) = Some p -> p_canonical_committed p = false ->
  s_heap s !! p_tx p = Some t -> tx_id t = id -> (Z.to_nat (6 - p_rollback_attempts p) <= k)%nat ->
  exists s' b, settles id s s' b /\ b <= waiting_left (p_rollback_attempts p)
    /\ st_current_config (s_st s') = p_previous p
    /\ (st_recovery_required (s_st s') = true \/ verified_run (p_previous p) (s_world s')).
Proof.
  revert s p t. induction k as [|k IH]; intros s p t I Hp Hc Ht Hid Hk;
    destruct (ei_pending _ I p Hp) as [t0 J]; pose proof (pi_attempts _ _ _ _ J) as Hat;
    unfold MAXIMUM_ROLLBACK_ATTEMPTS in Hat; [lia|].
  pose proof (rollback_spec id s (ei_idle _ I) (engine_inv_tx_ok _ I)) as Hs. unfold wp, rolled_back in Hs.
  pose proof (rollback_inv id s I) as I'. pose proof (rollback_current id s I) as Hcur.
  pose proof (pi_current _ _ _ _ J) as Hprev. rewrite Hc in Hprev.
  pose proof (pi_timer _ _ _ _ J Hc) as Htm. pose proof (waiting_left_step (p_rollback_attempts p) Hat) as Hw.
  pose proof (waiting_left_bounds (p_rollback_attempts p + 1)) as Hb.
  rewrite Hp in Hs. destruct Hs as (t1 & Ht1 & Hs). assert (t1 = t) as -> by congruence.
  rewrite Hid, String.eqb_refl, Hc in Hs. cbn [negb orb] in Hs.
  destruct Hs as (e' & t' & w' & Hs' & [S1 S2] & Hend).
  assert (Hstop : st_pending e' = None -> st_recovery_required e' = true \/ verified_run (p_previous p) w' ->
    exists s' b, settles id s s' b /\ b <= waiting_left (p_rollback_attempts p)
      /\ st_current_config (s_st s') = p_previous p
      /\ (st_recovery_required (s_st s') = true \/ verified_run (p_previous p) (s_world s'))).
  { intros Hn Hor. exists (snd (rollback_expired id s)), (armed_delay (p_rollback_attempts p) + 0).
    split; [eapply settles_fire; [done|done|]; apply settles_done; by rewrite Hs'|].
    split; [lia|]. split; [congruence|]. by rewrite Hs'. }
  destruct Hend as [_ -> _ Hrun|n Hn He' _|reason _ -> _]; [apply Hstop; by auto| |apply Hstop; by auto].
  set (p1 := with_timer _ _) in He'.
  destruct (IH (snd (rollback_expired id s)) p1 t') as (s2 & b & H1 & H2 & H3 & H4).
  - done.
  - by rewrite Hs', He'.
  - done.
  - rewrite Hs'. cbn. apply list_lookup_insert_eq. by eapply lookup_lt_Some.
  - congruence.
  - unfold p1, n. cbn [with_timer with_attempts p_rollback_attempts]. lia.
  - exists s2, (armed_delay (p_rollback_attempts p) + b). split; [by eapply settles_fire|]. split; [|done].
    cbn [p1 with_timer with_attempts p_rollback_attempts] in H2. unfold n in H2. lia.
Qed.

(** C3: an unconfirmed change does not stay.  From any reachable state with an
    uncommitted pending change, letting its armed timers fire, at most 400
    seconds of waiting in all, ends with nothing pending and the previous
    configuration canonical, and either the helper verified it as running or
    the engine requires recovery. *)
Theorem pending_change_settles ms initial w0 s p t :
  live_ok initial -> reachable ms initial w0 s ->
  st_pending (s_st s) = Some p -> p_canonical_committed p = false -> s_heap s !! p_tx p = Some t ->
  exists s' b, settles (tx_id t) s s' b /\ b <= dur_secs 400
    /\ st_current_config (s_st s') = p_previous p
    /\ (st_recovery_required (s_st s') = true \/ verified_run (p_previous p) (s_world s')).
Proof.
  intros Hi Hr Hp Hc Ht. assert (I : engine_inv s) by (by eapply reachable_inv).
  destruct (settles_from (tx_id t) s p t _ I Hp Hc Ht eq_refl (le_n _)) as (s' & b & H1 & H2 & H3).
  exists s', b. split; [done|]. split; [|done]. pose proof (waiting_left_bounds (p_rollback_attempts p)). lia.
Qed.
End Reach.
