(* ===== verification/EngineSync.v ===== *)
(** * The runtime and the canonical configuration

    What router-applyd promises the engine, as a class over the environment,
    and what the engine then promises its users: outside of recovery and of a
    pending change, the router runs the canonical configuration. *)

From Stdlib Require Import ZArith Ascii String Lia Bool.
From stdpp Require Import base list strings gmap.
From S2P Require Import Prelude GoStrings Net GoTime Json Model Validation Policy Ipc Safety Engine EngineSpec EngineInv EngineReach.

Local Open Scope string_scope.
Local Open Scope Z_scope.
Local Open Scope list_scope.

(** ** The helper's contract

    [running w] is the configuration the router runs in world [w], [baseline w]
    the one the helper would roll back to, its last-good.  [trusted w] is what
    the helper's promises rest on; a later world is never easier to trust. *)
Section Contract.
Context {UC : Unicode} {B64 : Base64} {W : Type}.
Variables (running : W -> SystemConfig) (baseline : W -> option SystemConfig) (trusted : W -> Prop).

(** Nothing the helper answers for changed. *)
Definition undisturbed (w w' : W) : Prop :=
  running w' = running w /\ baseline w' = baseline w /\ (trusted w' -> trusted w).

(** The runtime is what a rollback would restore, and a configuration the
    helper accepts as a baseline. *)
Definition settled (w : W) : Prop := baseline w = Some (running w) /\ live_ok (running w).

Lemma undisturbed_trans w1 w2 w3 : undisturbed w1 w2 -> undisturbed w2 w3 -> undisturbed w1 w3.
Proof. unfold undisturbed. intros (-> & -> & ?) (-> & -> & ?). auto. Qed.

Lemma undisturbed_settled w w' : undisturbed w w' -> settled w -> settled w'.
Proof. unfold undisturbed, settled. by intros (-> & -> & _). Qed.
End Contract.

(** Clocks, the lease file, the store and the audit log disturb nothing.  A
    request that acts on the runtime and is not to be confirmed or deferred
    ([anchors]), when answered with success, leaves its configuration running
    and last-good; one answered, on a settled runtime, with a failure that does
    not ask for recovery leaves both as they were; and, requests being
    idempotent by their id, so does one repeated after a lost answer. *)
Class HelperContract {UC : Unicode} {B64 : Base64} {W : Type} {E : Env W}
  (running : W -> SystemConfig) (baseline : W -> option SystemConfig) (trusted : W -> Prop) : Prop := {
  hc_clock w : undisturbed running baseline trusted w (snd (clock_now w));
  hc_instant w : undisturbed running baseline trusted w (snd (instant_now w));
  hc_leases w : undisturbed running baseline trusted w (snd (observe_leases w));
  hc_snapshot c w : undisturbed running baseline trusted w (snd (store_snapshot c w));
  hc_save c w : undisturbed running baseline trusted w (snd (store_save c w));
  hc_audit k d w : undisturbed running baseline trusted w (store_audit k d w);
  hc_trusted deadline req w : trusted (snd (client_apply deadline req w)) -> trusted w;
  hc_applied deadline req w r w' :
    client_apply deadline req w = (Ok r, w') -> trusted w' -> anchors req = true -> resp_success r = true ->
    running w' = req_config req /\ baseline w' = Some (req_config req);
  hc_refused deadline req w r w' :
    client_apply deadline req w = (Ok r, w') -> trusted w' -> settled running baseline w ->
    resp_success r = false -> resp_recovery_required r = false ->
    running w' = running w /\ baseline w' = baseline w;
  hc_lost deadline req w err w1 r w2 :
    client_apply deadline req w = (Err err, w1) -> client_apply deadline req (snd (instant_now w1)) = (Ok r, w2) ->
    trusted w2 -> settled running baseline w -> resp_success r = false -> resp_recovery_required r = false ->
    running w2 = running w /\ baseline w2 = baseline w;
}.

Section Sync.
Context {UC : Unicode} {B64 : Base64} {G : Generators} {W : Type} {E : Env W}.
Context (running : W -> SystemConfig) (baseline : W -> option SystemConfig) (trusted : W -> Prop).
Context {HC : HelperContract running baseline trusted}.
Implicit Types (e : EngineState) (h : list Transaction) (w : W) (s : Sys W).
Abbreviation undisturbed := (undisturbed running baseline trusted).
Abbreviation settled := (settled running baseline).

(** Two attempts: the contract lifts to the engine's calls. *)
Lemma attempts_w_trusted n d req last w : trusted (snd (attempts_w n d req last w)) -> trusted w.
Proof.
  revert last w. induction n as [|n IH]; intros last w; cbn; [done|]. pose proof (hc_instant w) as (_ & _ & Hi).
  destruct (instant_now w) as [t w1]. destruct (d <=? t); [done|].
  pose proof (hc_trusted d req w1) as Hc. destruct (client_apply d req w1) as [[r1|err] w2]; [|by eauto].
  destruct (response_validate r1); auto.
Qed.

Lemma apply_w_applied d req w r w' : apply_w d req w = (Ok r, w') -> trusted w' -> anchors req = true ->
  resp_success r = true -> running w' = req_config req /\ baseline w' = Some (req_config req).
Proof.
  unfold apply_w, PRIVILEGED_APPLY_ATTEMPTS. intros Hq Ht Hm Hs. revert Hq. generalize (@None error) as last, w as w0.
  generalize 2%nat as n. induction n as [|n IH]; intros last w0; cbn; [done|].
  destruct (instant_now w0) as [t w1]. destruct (d <=? t); [done|].
  destruct (client_apply d req w1) as [[r1|err] w2] eqn:Ec; [|apply IH].
  destruct (response_validate r1); intros Hq; simplify_eq. by eapply hc_applied.
Qed.

Lemma apply_w_refused d req w r w' : apply_w d req w = (Ok r, w') -> trusted w' -> settled w ->
  resp_success r = false -> resp_recovery_required r = false -> undisturbed w w'.
Proof.
  intros Hq Htr Hw Hs Hr. assert (Ht : trusted w' -> trusted w).
  { intros _. apply (attempts_w_trusted PRIVILEGED_APPLY_ATTEMPTS d req None). fold (apply_w d req w). by rewrite Hq. }
  enough (running w' = running w /\ baseline w' = baseline w) by (unfold EngineSync.undisturbed; tauto).
  unfold apply_w, PRIVILEGED_APPLY_ATTEMPTS in Hq. cbn in Hq. pose proof (hc_instant w) as Hi.
  destruct (instant_now w) as [t w1]. cbn in Hi. pose proof (undisturbed_settled _ _ _ _ _ Hi Hw) as Hw1.
  destruct Hi as (H1 & H2 & _). destruct (d <=? t); [done|].
  destruct (client_apply d req w1) as [[r1|err] w2] eqn:Ec.
  - destruct (response_validate r1); simplify_eq. rewrite <- H1, <- H2. by eapply hc_refused.
  - pose proof (hc_lost d req w1 err w2) as Hl. destruct (instant_now w2) as [t2 w3]. cbn in Hl.
    destruct (d <=? t2); [done|]. destruct (client_apply d req w3) as [[r2|err2] w4] eqn:Ec2; [|done].
    destruct (response_validate r2); simplify_eq. rewrite <- H1, <- H2. by eapply Hl.
Qed.


Lemma evolves_trusted w w' : evolves w w' -> trusted w' -> trusted w.
Proof.
  induction 1 as [| | | | | | | |timeout req w r w' Hc _ _]; try apply HC; [done|by auto|].
  unfold privileged_w in Hc. pose proof (hc_instant w) as (_ & _ & Hi). destruct (instant_now w) as [t w1]. cbn in Hi.
  intros Ht. apply Hi, (attempts_w_trusted PRIVILEGED_APPLY_ATTEMPTS (t + timeout) req None).
  fold (apply_w (t + timeout) req w1). by rewrite Hc.
Qed.

Lemma evolves_undisturbed w w' : evolves w w' -> trusted w' -> settled w -> undisturbed w w'.
Proof.
  induction 1 as [|? ? ? H1 IH1 H2 IH2| | | | | | |timeout req w r w' Hc Hs Hr]; intros Ht Hw; try apply HC; [done| |].
  - assert (Hu : undisturbed w1 w2) by (apply IH1; [by eapply evolves_trusted|done]).
    eapply undisturbed_trans; [exact Hu|]. apply IH2; [done|]. by eapply undisturbed_settled.
  - unfold privileged_w in Hc. pose proof (hc_instant w) as Hi. destruct (instant_now w) as [t w1]. cbn in Hi.
    eapply undisturbed_trans; [exact Hi|]. eapply apply_w_refused; [exact Hc|done| |done|done].
    by eapply undisturbed_settled.
Qed.

(** A verified run of a configuration that is fit to be a baseline stays. *)
Lemma verified_running cfg w : verified_run cfg w -> live_ok cfg -> trusted w ->
  running w = cfg /\ baseline w = Some cfg.
Proof.
  intros (w1 & Hev & req & w0 & r & Hm & <- & Hs & Hc) Hl Ht.
  pose proof (evolves_trusted _ _ Hev Ht) as Ht1.
  assert (running w1 = req_config req /\ baseline w1 = Some (req_config req)) as [Hr Hb].
  { destruct Hc as [[timeout Hc]|[deadline Hc]]; [|by eapply apply_w_applied].
    unfold privileged_w in Hc. destruct (instant_now w0). by eapply apply_w_applied. }
  destruct (evolves_undisturbed _ _ Hev) as (-> & -> & _); [done|by split; rewrite Hr|done].
Qed.

(** ** Agreement *)
Definition in_sync (s : Sys W) : Prop :=
  trusted (s_world s) -> st_recovery_required (s_st s) = false -> st_pending (s_st s) = None ->
  running (s_world s) = st_current_config (s_st s) /\ baseline (s_world s) = Some (st_current_config (s_st s)).

Lemma in_sync_evolves e h w h' w' act :
  engine_inv (mkSys e h w) -> in_sync (mkSys e h w) -> evolves w w' -> in_sync (mkSys (set_active act e) h' w').
Proof.
  intros I Hsync Hev Ht Hr Hp. cbn in *. pose proof (evolves_trusted _ _ Hev Ht) as Ht0.
  destruct (Hsync Ht0 Hr Hp) as [H1 H2]. cbn in *.
  destruct (evolves_undisturbed _ _ Hev) as (-> & -> & _); [done|split; rewrite H1; [done|apply I]|done].
Qed.

Lemma in_sync_moved s w' : engine_inv s -> in_sync s -> evolves (s_world s) w' -> in_sync (mkSys (s_st s) (s_heap s) w').
Proof.
  destruct s as [e h w]. intros I Hs Hev. pose proof (in_sync_evolves e h w h w' (st_active_tx e) I Hs Hev) as Hq.
  by destruct e.
Qed.

Lemma process_sync id cfg allow commit s : engine_inv s -> in_sync s -> in_sync (snd (process id cfg allow commit s)).
Proof.
  intros I Hsync. pose proof (process_spec id cfg allow commit s (ei_idle _ I)) as Hs. unfold wp in Hs.
  destruct (process id cfg allow commit s) as [[t r] s']. cbn [fst snd] in *.
  destruct Hs as (now & e' & w' & -> & _ & Hend & Hadm & Hf). cbn [fst snd] in *. destruct s as [e h w]. cbn [s_st s_world s_heap] in *.
  unfold runtime_fact in *.
  destruct Hend as [Hst Hc ->|p Hst _ _ _ _ _ _ ->|err Hst ->|err reason c Hst _ ->]; try done; rewrite ?Hst in Hf.
  - intros Ht _ _. cbn in *. rewrite <- Hc. apply verified_running; [done| |done].
    destruct Hadm as [A|[[? ?] _]]; [|done]. rewrite Hc. by eapply admitted_live.
  - destruct Hst as [Hst|Hst]; rewrite Hst in Hf; destruct Hf as [Hev|Hv];
      [by eapply in_sync_evolves| |by eapply in_sync_evolves|]; intros Ht _ _; apply verified_running; auto; apply I.
Qed.

Lemma confirm_sync id s : engine_inv s -> in_sync s -> in_sync (snd (confirm_transaction id s)).
Proof.
  intros I Hsync. pose proof (confirm_spec id s (ei_idle _ I) (engine_inv_tx_ok _ I)) as Hs. unfold wp in Hs.
  destruct (confirm_transaction id s) as [[o r] s']. cbn [fst snd] in *.
  destruct Hs as [[-> _]|(p & t & e' & t' & w' & Hp & Ht & _ & -> & _ & _ & Hend)]; [done|].
  unfold in_sync. cbn [s_st s_world]. destruct Hend as [-> _ Hrun|err (p' & -> & _)]; [|done].
  destruct (ei_pending _ I p Hp) as [t0 J].
  assert (t0 = t) as -> by (pose proof (pi_tx _ _ _ _ J); congruence).
  intros Htr _ _. apply verified_running; [done|apply J|done].
Qed.

Lemma rollback_sync id s : engine_inv s -> in_sync s -> in_sync (snd (rollback_expired id s)).
Proof.
  intros I Hsync. pose proof (rollback_spec id s (ei_idle _ I) (engine_inv_tx_ok _ I)) as Hs. unfold wp, rolled_back in Hs.
  destruct (rollback_expired id s) as [[] s']. cbn [fst snd] in *.
  destruct (st_pending (s_st s)) as [p|] eqn:Hp; [|by subst]. destruct Hs as (t & Ht & Hs).
  destruct (_ || _) eqn:Eg; [by subst|]. destruct Hs as (e' & t' & w' & -> & _ & Hend). to_prop.
  destruct (ei_pending _ I p Hp) as [t0 J]. pose proof (pi_current _ _ _ _ J) as Hc.
  assert (Hcc : p_canonical_committed p = false) by done. rewrite Hcc in Hc.
  unfold in_sync. destruct Hend as [_ -> _ Hrun|n _ -> _|reason _ -> _]; cbn; try done.
  intros Htr _ _. rewrite Hc. apply verified_running; [done| |done]. rewrite <- Hc. apply I.
Qed.

Lemma reconcile_sync deadline s : engine_inv s -> in_sync s -> in_sync (snd (reconcile deadline s)).
Proof.
  intros I Hsync. pose proof (reconcile_spec deadline s (ei_idle _ I) (engine_inv_tx_ok _ I)) as Hs. unfold wp in Hs.
  destruct (reconcile deadline s) as [r s']. cbn [fst snd] in *.
  destruct Hs as [err w' Hev|err reason w'|w' _ Hrun|p t t' w' _ _ _ Hrun]; try done.
  - by apply in_sync_moved.
  - intros Ht _ _. apply verified_running; [done|apply I|done].
  - intros Ht _ _. apply verified_running; [done|apply I|done].
Qed.

Lemma qos_sync f s : (forall w, undisturbed w (snd (f w))) ->
  engine_inv s -> in_sync s -> in_sync (snd (with_qos_bypassed f s)).
Proof.
  intros Hf I Hsync. pose proof (qos_spec f s (ei_idle _ I)) as Hs. unfold wp in Hs.
  destruct (with_qos_bypassed f s) as [r s']. cbn [fst snd] in *.
  destruct Hs as [err w' Hev|_|r w' Hrun|err reason w']; try done.
  - by apply in_sync_moved.
  - intros Ht Hr Hp. cbn in *. destruct (Hf (s_world s)) as (-> & -> & Hb). by apply Hsync; [apply Hb| |].
  - intros Ht _ _. apply verified_running; [done|apply I|done].
Qed.

(** Measurements that leave the runtime alone *)
Definition passive (f : W -> result unit error * W) : Prop := forall w, undisturbed w (snd (f w)).

Lemma reachable_sync initial w0 s :
  live_ok initial -> running w0 = initial -> baseline w0 = Some initial -> reachable passive initial w0 s -> in_sync s.
Proof.
  intros Hi Hw Hb Hr. enough (engine_inv s /\ in_sync s) by tauto.
  induction Hr as [|s s' _ [I Hs] Hstep]; [split; [by split|by intros _ _ _]|]. split; [by eapply step_inv|].
  destruct Hstep; auto using process_sync, confirm_sync, rollback_sync, reconcile_sync, qos_sync.
Qed.

(** C1: the router runs what the engine says.  Under the helper's contract and
    starting from a runtime that is the initial configuration, in every
    reachable state in which no recovery is required and no change is pending
    the running configuration is the canonical one, and it is what the helper
    would roll back to, whatever failed, was lost, timed out or was rolled back
    on the way. *)
Theorem runtime_is_canonical initial w0 s :
  live_ok initial -> running w0 = initial -> baseline w0 = Some initial -> reachable passive initial w0 s -> in_sync s.
Proof. apply reachable_sync. Qed.

(** Reconciliation repairs.  Whatever the runtime was, once a reconciliation of
    the engine returns success nothing is pending, no recovery is required and the
    canonical configuration is what it was; and under the contract, where what it
    rests on holds of the machine the reconciliation leaves, the router runs it. *)
Lemma reconcile_synchronizes ms initial w0 s deadline s' :
  live_ok initial -> reachable ms initial w0 s -> reconcile deadline s = (Ok tt, s') -> trusted (s_world s') ->
  running (s_world s') = st_current_config (s_st s') /\ st_current_config (s_st s') = st_current_config (s_st s)
  /\ st_pending (s_st s') = None /\ st_recovery_required (s_st s') = false.
Proof.
  intros Hi Hr Hq Ht. assert (I : engine_inv s) by (by eapply reachable_inv).
  pose proof (reconcile_spec deadline s (ei_idle _ I) (engine_inv_tx_ok _ I)) as Hs. unfold wp in Hs. rewrite Hq in Hs.
  cbn [fst snd] in Hs. inversion Hs as [| |w' Hp Hrun|p t t' w' Hp Hset Hnone Hrun]; subst; cbn in *;
    (split_and!; auto; by apply verified_running; [|apply I|]).
Qed.

(** A measurement without QoS is always undone.  When the QoS bypass runs,
    the engine ends either with the canonical configuration running again and
    its own state unchanged, or requiring recovery and reporting an error. *)
Theorem qos_bypass_is_temporary ms initial w0 s f r s' :
  live_ok initial -> reachable ms initial w0 s -> with_qos_bypassed f s = (r, s') -> trusted (s_world s') ->
  (exists w1, is_ok r = false /\ evolves (s_world s) w1 /\ s' = mkSys (s_st s) (s_heap s) w1)
  \/ (qos_enabled (c_qos (st_current_config (s_st s))) = false
      /\ s' = mkSys (s_st s) (s_heap s) (snd (f (s_world s))))
  \/ (s_st s' = s_st s /\ running (s_world s') = st_current_config (s_st s))
  \/ (is_ok r = false /\ st_recovery_required (s_st s') = true
      /\ st_current_config (s_st s') = st_current_config (s_st s)).
Proof.
  intros Hi Hr Hq Ht. assert (I : engine_inv s) by (by eapply reachable_inv).
  pose proof (qos_spec f s (ei_idle _ I)) as Hs. unfold wp in Hs. rewrite Hq in Hs. cbn [fst snd] in Hs.
  destruct Hs as [err w' Hev|Hd|r w' Hrun|err reason w']; [left; by eauto|right; left; by auto| |by do 3 right].
  right; right; left. split; [done|]. by apply verified_running; [|apply I|].
Qed.
End Sync.
