(* ===== verification/Scenarios.v ===== *)
(** * Runs of the engine

    A scripted helper and store over a small world, which meet the contract the
    theorems on the engine assume, and runs of the engine against them: a
    committed change, a confirmed one, one that is never confirmed, and the
    temporary QoS bypass. *)

From Stdlib Require Import ZArith Ascii String Lia Bool.
From stdpp Require Import base list strings gmap.
From S2P Require Import Prelude GoStrings Net GoTime Json Model Validation Policy PolicySpec Samples.
From S2P Require Import Ipc Safety Engine EngineSpec EngineInv EngineReach EngineSync.

Local Open Scope string_scope.
Local Open Scope Z_scope.
Local Open Scope list_scope.

#[local] Existing Instance ascii_tables.

(** ** A scripted environment *)

(** What the helper does with the next request: serve it, roll it back, ask for
    recovery, or never see it *)
Inductive mood := Serve | Restore | Unresolved | Lose.

Record World := mkWorld {
  running : SystemConfig;
  last_good : SystemConfig;
  script : list mood;
  saved : list SystemConfig;
  audit_log : list (string * list (string * string));
}.

(** A change of the runtime, which is last-good too unless it waits *)
Definition set_running (req : ApplyRequest) (w : World) : World :=
  mkWorld (req_config req) (if anchors req then req_config req else last_good w) (script w) (saved w) (audit_log w).
Definition answer (req : ApplyRequest) (success rolled_back recovery : bool) : ApplyResponse :=
  mkApplyResponse (req_id req) success (if success then EmptyString else "refused") EmptyString success rolled_back
    recovery 0 (Some (mkTunnelStatus (req_tunnel_interface req) EmptyString 1700000100 0 0 [])) None.

Definition scripted_apply (deadline : Z) (req : ApplyRequest) (w : World) : result ApplyResponse error * World :=
  let w' := mkWorld (running w) (last_good w) (List.tl (script w)) (saved w) (audit_log w) in
  match List.hd Serve (script w) with
  | Serve => (Ok (answer req true false false), if mutates req then set_running req w' else w')
  | Restore => (Ok (answer req false true false), w')
  | Unresolved => (Ok (answer req false false true), w')
  | Lose => (Err (Errorf "connection refused"), w')
  end.

#[export] Instance plain_generators : Generators := {|
  generate_nftables _ := Ok "table inet filter"; generate_pppoe _ := Ok (mkPPPoE "plugin pppoe.so" "secret" "secret");
  generate_dnsmasq _ := Ok "interface=eth1"; generate_hostapd _ := Ok "interface=wlan0";
  generate_wireguard _ := Ok "[Interface]" |}.

#[export] Instance scripted : Env World := {|
  client_apply := scripted_apply;
  has_store := true;
  store_save c w := (Ok tt, mkWorld (running w) (last_good w) (script w) (c :: saved w) (audit_log w));
  store_snapshot c w := (Ok tt, w);
  store_audit k d w := mkWorld (running w) (last_good w) (script w) (saved w) ((k, d) :: audit_log w);
  clock_now w := (mkTime (1700000000 * SECOND) None, w);
  instant_now w := (0, w);
  observe_leases w := (mkDHCPLeaseSnapshot (mkDHCPLeaseStatus true time_zero false 0 EmptyString) [], w) |}.

#[export] Instance scripted_contract :
  HelperContract (UC := ascii_tables) (B64 := rfc4648) running (fun w => Some (last_good w)) (fun _ => True).
Proof.
  split; try done.
  - intros d req w r w'. unfold client_apply, scripted, scripted_apply.
    destruct (List.hd Serve (script w)); intros Hq; simplify_eq; try done. intros _ Ha.
    assert (Hm : mutates req = true) by (unfold anchors in Ha; to_prop; done). rewrite Hm. cbn. by rewrite Ha.
  - intros d req w r w'. unfold client_apply, scripted, scripted_apply.
    destruct (List.hd Serve (script w)); intros Hq; simplify_eq; try done.
  - intros d req w err w1 r w2. unfold client_apply, instant_now, scripted, scripted_apply.
    destruct (List.hd Serve (script w)); intros Hq; simplify_eq; cbn.
    destruct (List.hd Serve (List.tl (script w))); intros Hq; simplify_eq; try done.
Qed.

(** ** The runs *)
Definition renamed : SystemConfig :=
  mkSystemConfig (c_revision sample) (c_updated_at sample) (mkSystemSettings "gateway" "lan" true 8443 "lan_and_wireguard")
    (c_wan sample) (c_lan sample) (c_dhcp sample) (c_dns sample) (c_firewall sample) (c_wireguard sample)
    (c_wg_client sample) (c_cloudflare sample) (c_squid_proxy sample) (c_adguard sample) (c_qos sample) (c_wifi sample)
    (c_accounting sample) (c_trusted_networks sample).
Definition retrusted : SystemConfig :=
  mkSystemConfig (c_revision sample) (c_updated_at sample) (c_system sample)
    (c_wan sample) (c_lan sample) (c_dhcp sample) (c_dns sample) (c_firewall sample) (c_wireguard sample)
    (c_wg_client sample) (c_cloudflare sample) (c_squid_proxy sample) (c_adguard sample) (c_qos sample) (c_wifi sample)
    (c_accounting sample) (list_from ["192.168.1.0/24"; "10.8.0.0/24"; "10.20.0.0/24"]).

Definition boot (moods : list mood) : Sys World := mkSys (engine_new sample) [] (mkWorld sample sample moods [] []).

(** After a change that needs no confirmation *)
Definition run_commit (moods : list mood) : (Transaction * result unit error) * Sys World :=
  process "tx-1" renamed false None (boot moods).
Definition committed_tx : Transaction := fst (fst (run_commit [])).
Definition committed : Sys World := snd (run_commit []).

(** After a change that needs one; [moods] are for later *)
Definition awaiting (moods : list mood) : Sys World := snd (process "tx-1" retrusted false None (boot (Serve :: moods))).

Lemma sample_live : live_ok sample.
Proof. vm_compute. reflexivity. Qed.

Lemma reach_boot ms moods : reachable ms sample (mkWorld sample sample moods [] []) (boot moods).
Proof. apply reach_init. Qed.
Lemma reach_awaiting ms moods : reachable ms sample (mkWorld sample sample (Serve :: moods) [] []) (awaiting moods).
Proof.
  exact (reach_step _ _ _ _ _ (reach_boot ms (Serve :: moods))
           (step_process ms "tx-1" retrusted false None (boot (Serve :: moods)))).
Qed.

Example committed_run :
  (tx_state committed_tx, snd (fst (run_commit [])), c_revision (running (s_world committed)),
   List.length (saved (s_world committed)), map fst (audit_log (s_world committed)))
  = (Committed, Ok tt, 8, 1%nat, ["config.transaction"]).
Proof. vm_compute. reflexivity. Qed.

(** A lost answer is retried; a helper that asks for recovery stops the engine. *)
Example retried_run :
  tx_state (fst (fst (run_commit [Lose; Serve]))) = Committed
  /\ tx_state (fst (fst (run_commit [Lose; Lose]))) = RecoveryRequired
  /\ tx_state (fst (fst (run_commit [Restore]))) = RolledBack
  /\ running (s_world (snd (run_commit [Restore]))) = sample.
Proof. vm_compute. split_and!; reflexivity. Qed.

Lemma transaction_outcomes_witness :
  admitted (s_st (boot [])) renamed false /\ c_revision (tx_config committed_tx) = 7 + 1.
Proof.
  destruct (transaction_outcomes (UC := ascii_tables) (B64 := rfc4648) "tx-1" renamed false None (boot [])
    committed_tx (Ok tt) committed) as (H1 & H2 & _); [vm_compute; reflexivity|reflexivity|].
  split; [exact H1|exact H2].
Defined.

Lemma blocked_request_has_no_effect_witness :
  exists t, fst (process "tx-2" renamed false None (awaiting []))
            = (t, Err (Errorf "another configuration is awaiting confirmation")) /\ tx_state t = Rejected.
Proof.
  destruct (blocked_request_has_no_effect (UC := ascii_tables) (B64 := rfc4648) "tx-2" renamed false None (awaiting [])
    Rejected "another configuration is awaiting confirmation") as (t & H1 & H2 & _); [vm_compute; reflexivity|].
  exists t. split; [exact H1|exact H2].
Defined.

Lemma reachable_invariant_witness : engine_inv (awaiting []).
Proof. exact (reachable_invariant (fun _ => True) sample _ _ sample_live (reach_awaiting _ [])). Defined.

Lemma canonical_revision_steps_witness : revision_step (boot []) committed.
Proof. exact (canonical_revision_steps (fun _ => True) sample _ _ _ sample_live (reach_boot _ [])
  (step_process _ "tx-1" renamed false None (boot []))). Defined.

Definition confirmed_run : (option Transaction * result unit error) * Sys World :=
  confirm_transaction "tx-1" (awaiting []).

Lemma confirmation_outcomes_witness :
  st_pending (s_st (snd confirmed_run)) = None /\ c_revision (st_current_config (s_st (snd confirmed_run))) = 8.
Proof.
  destruct (confirmation_outcomes (UC := ascii_tables) (B64 := rfc4648) (fun _ => True) sample _ (awaiting []) "tx-1"
    (fst (fst confirmed_run)) (Ok tt) (snd confirmed_run) sample_live (reach_awaiting _ []))
    as (p & t & t' & Hp & Ht & _ & _ & _ & Hc & _ & Hn & _); [vm_compute; reflexivity|].
  split; [exact Hn|]. vm_compute. reflexivity.
Defined.

(** Nobody confirms, and the helper never manages to restore. *)
Lemma pending_change_settles_witness : exists s' b,
  settles "tx-1" (awaiting []) s' b /\ b <= dur_secs 400 /\ st_current_config (s_st s') = sample.
Proof.
  destruct (st_pending (s_st (awaiting []))) as [p|] eqn:Hp; [|vm_compute in Hp; discriminate Hp].
  destruct (s_heap (awaiting []) !! p_tx p) as [t|] eqn:Ht; [|vm_compute in Hp; injection Hp as <-; vm_compute in Ht; discriminate Ht].
  destruct (pending_change_settles (UC := ascii_tables) (B64 := rfc4648) (fun _ => True) sample _ (awaiting []) p t
    sample_live (reach_awaiting _ []) Hp) as (s' & b & H1 & H2 & H3 & _); [vm_compute in Hp; by injection Hp as <-|exact Ht|].
  vm_compute in Hp. injection Hp as <-. vm_compute in Ht. injection Ht as <-.
  exists s', b. split; [exact H1|]. split; [exact H2|exact H3].
Defined.

Definition fire (s : Sys World) : Sys World := snd (rollback_expired "tx-1" s).
Example exhausted_run :
  let s := fire (fire (fire (fire (fire (fire (awaiting (List.repeat Unresolved 5))))))) in
  (st_pending (s_st s), st_recovery_required (s_st s), st_current_config (s_st s)) = (None, true, sample).
Proof. vm_compute. reflexivity. Qed.

Lemma runtime_is_canonical_witness : running (s_world committed) = st_current_config (s_st committed).
Proof.
  refine (proj1 (runtime_is_canonical (UC := ascii_tables) (B64 := rfc4648) running (fun w => Some (last_good w))
    (fun _ => True) sample (mkWorld sample sample [] [] []) committed sample_live eq_refl eq_refl _ I _ _));
    [|vm_compute; reflexivity|vm_compute; reflexivity].
  exact (reach_step _ _ _ _ _ (reach_boot _ []) (step_process _ "tx-1" renamed false None (boot []))).
Defined.

Definition drifted : Sys World := mkSys (engine_new sample) [] (mkWorld renamed renamed [] [] []).
Example drifted_is_repaired : running (s_world (snd (reconcile (dur_secs 60) drifted))) = sample.
Proof. vm_compute. reflexivity. Qed.

(** The measurement reads the running configuration. *)
Definition measure (w : World) : result unit error * World :=
  (if qos_enabled (c_qos (running w)) then Err (Errorf "shaped") else Ok tt, w).
Definition measured (moods : list mood) : result unit error * Sys World := with_qos_bypassed measure (boot moods).
Example measured_run : fst (measured []) = Ok tt /\ running (s_world (snd (measured []))) = sample
  /\ st_recovery_required (s_st (snd (measured [Serve; Lose; Lose]))) = true.
Proof. vm_compute. split_and!; reflexivity. Qed.

Lemma qos_bypass_is_temporary_witness : running (s_world (snd (measured []))) = sample.
Proof.
  destruct (qos_bypass_is_temporary (UC := ascii_tables) (B64 := rfc4648) running (fun w => Some (last_good w)) (fun _ => True)
    (fun _ => True) sample _ (boot []) measure
    (Ok tt) (snd (measured [])) sample_live (reach_boot _ [])) as [(w1 & H1 & _)|[[H1 _]|[[_ H1]|[H1 _]]]];
    [vm_compute; reflexivity|exact I|discriminate H1|vm_compute in H1; discriminate H1|exact H1|discriminate H1].
Defined.
