(* ===== verification/Store.v ===== *)
(** * The configuration store

    [mr-config/src/config/store.rs], [recovery_status.rs] and [offline.rs]: the
    revisions of the configuration, the restore points and the audit log, next
    to the credentials and sessions of [AuthStore].  An operation is one
    transaction: it returns its answer and the tables after it, unchanged when
    it fails.  The text of a configuration and of an instant come from
    libraries (classes); identifiers, instants and entropy are arguments. *)

From Stdlib Require Import ZArith Ascii String Lia Bool.
From stdpp Require Import base list strings gmap.
From S2P Require Import Prelude GoStrings Net NetSpec GoTime Json Model Validation Policy Firmware Auth AuthStore Ipc Safety Engine.

Local Open Scope string_scope.
Local Open Scope Z_scope.
Local Open Scope list_scope.

(** [serde_json] on [SystemConfig], [chrono]'s formats *)
Class ConfigCodec := {
  encode_config : SystemConfig -> result string error;
  decode_config : string -> result SystemConfig error;
}.
Class TimeText := {
  rfc3339 : Time -> string;
  go_string : Time -> string;
}.

(** ** Tables *)
Record RevisionRow := mkRevision { rv_row : Z; rv_updated_at : string; rv_config_json : string }.
Record Snapshot := mkSnapshot {
  sn_id : string;
  sn_revision : Z;
  sn_created_at : string;
  sn_checksum : string;
  sn_kind : string;
  sn_label : string;
  sn_config_json : string;
}.
Record AuditRow := mkAudit { ev_id : string; ev_type : string; ev_actor : string; ev_timestamp : string; ev_details : string }.

Record StoreDb := mkStore {
  db_sequence : Z;
  db_revisions : list RevisionRow;
  db_snapshots : list Snapshot;
  db_events : list AuditRow;
  db_exported : option string;
  db_recovery : option string;
  db_auth : AuthDb;
}.
Definition set_revisions (db : StoreDb) seq l := mkStore seq l (db_snapshots db) (db_events db) (db_exported db) (db_recovery db) (db_auth db).
Definition set_snapshots (db : StoreDb) l := mkStore (db_sequence db) (db_revisions db) l (db_events db) (db_exported db) (db_recovery db) (db_auth db).
Definition set_events (db : StoreDb) l e := mkStore (db_sequence db) (db_revisions db) (db_snapshots db) l e (db_recovery db) (db_auth db).
Definition set_auth (db : StoreDb) a := mkStore (db_sequence db) (db_revisions db) (db_snapshots db) (db_events db) (db_exported db) (db_recovery db) a.
Definition set_recovery_state (db : StoreDb) r := mkStore (db_sequence db) (db_revisions db) (db_snapshots db) (db_events db) (db_exported db) r (db_auth db).

Definition ErrSnapshotNotFound : error := ESentinel "snapshot not found".
Definition ErrSnapshotCorrupt : error := ESentinel "snapshot integrity check failed".

(** ** [ORDER BY ... DESC LIMIT n] *)
Definition then_cmp (a b : comparison) : comparison := match a with Eq => b | _ => a end.
Definition text_cmp (a b : string) : comparison := bytes_cmp (bytes_of a) (bytes_of b).

Section Order.
Context {A : Type} (cmp : A -> A -> comparison).
(** Before the first row that is not newer *)
Fixpoint insert_desc (x : A) (l : list A) : list A :=
  match l with
  | [] => [x]
  | y :: t => match cmp x y with Lt => y :: insert_desc x t | _ => x :: l end
  end.
Definition order_desc (l : list A) : list A := foldr insert_desc [] l.
End Order.

(** [DELETE ... WHERE p AND id NOT IN (SELECT id ... WHERE p ORDER BY cmp DESC LIMIT n)] *)
Definition prune {A K : Type} `{EqDecision K} (cmp : A -> A -> comparison) (id : A -> K) (p : A -> bool) (n : nat) (l : list A) : list A :=
  let kept := map id (take n (order_desc cmp (List.filter p l))) in
  List.filter (fun x => negb (p x) || bool_decide (id x ∈ kept)) l.

Definition row_cmp (a b : RevisionRow) : comparison := Z.compare (rv_row a) (rv_row b).
Definition snapshot_cmp (a b : Snapshot) : comparison :=
  then_cmp (Z.compare (sn_revision a) (sn_revision b)) (then_cmp (text_cmp (sn_created_at a) (sn_created_at b)) (text_cmp (sn_id a) (sn_id b))).
Definition event_cmp (a b : AuditRow) : comparison :=
  then_cmp (text_cmp (ev_timestamp a) (ev_timestamp b)) (text_cmp (ev_id a) (ev_id b)).

(** ** Retention *)
Definition SNAPSHOT_KIND_AUTOMATIC : string := "automatic".
Definition SNAPSHOT_KIND_MANUAL : string := "manual".
Definition SNAPSHOT_RETENTION_PER_KIND : nat := 20.
Definition AUDIT_RETENTION : nat := 5000.
Definition HIGH_VOLUME_AUDIT_RETENTION : nat := 1000.
Definition HIGH_VOLUME_AUDIT_EVENT_TYPES : list string :=
  ["access.trusted_network_rejected"; "auth.unauthorized"; "auth.login_rate_limited"; "auth.cross_site_rejected";
   "auth.origin_rejected"; "auth.csrf_rejected"; "auth.read_only_rejected"].
Definition is_high_volume_audit_event (event_type : string) : bool := one_of HIGH_VOLUME_AUDIT_EVENT_TYPES event_type.

Definition is_manual (s : Snapshot) : bool := sn_kind s =s SNAPSHOT_KIND_MANUAL.
Definition prune_config_revisions : list RevisionRow -> list RevisionRow := prune row_cmp rv_row (fun _ => true) 100.
Definition prune_manual_snapshots : list Snapshot -> list Snapshot := prune snapshot_cmp sn_id is_manual SNAPSHOT_RETENTION_PER_KIND.
Definition prune_automatic_snapshots : list Snapshot -> list Snapshot :=
  prune snapshot_cmp sn_id (fun s => negb (is_manual s)) SNAPSHOT_RETENTION_PER_KIND.
Definition prune_snapshots (kind : string) : list Snapshot -> list Snapshot :=
  if kind =s SNAPSHOT_KIND_MANUAL then prune_manual_snapshots else prune_automatic_snapshots.
Definition prune_audit : list AuditRow -> list AuditRow := prune event_cmp ev_id (fun _ => true) AUDIT_RETENTION.
Definition prune_high_volume_audit : list AuditRow -> list AuditRow :=
  prune event_cmp ev_id (fun e => is_high_volume_audit_event (ev_type e)) HIGH_VOLUME_AUDIT_RETENTION.

Section Store.
Context {UC : Unicode} {B64 : Base64} {CC : ConfigCodec} {TT : TimeText} {SH : Sha256}.

Definition validation_error (r : result unit ValidationErrors) : result unit error := map_err EValidation r.

(** ** Revisions *)
(** [SELECT config_json FROM config_revisions ORDER BY revision DESC LIMIT 1] *)
Definition latest_row (db : StoreDb) : option RevisionRow := head (order_desc row_cmp (db_revisions db)).

Definition get_latest_config (db : StoreDb) : result SystemConfig error :=
  match latest_row db with
  | None => Err (Wrapf "failed to read latest config" ErrNoRows)
  | Some row =>
      let? cfg := map_err (Wrapf "failed to parse config JSON") (decode_config (rv_config_json row)) in
      let cfg := migrate_legacy_fields cfg in
      let? _ := map_err (Wrapf "stored configuration failed validation") (validation_error (validate cfg)) in
      Ok cfg
  end.

(** An insertion without a row id takes the next of the sequence. *)
Definition insert_revision (stamp data : string) (db : StoreDb) : StoreDb :=
  let row := db_sequence db + 1 in
  set_revisions db row (db_revisions db ++ [mkRevision row stamp data]).
Definition pruned_revisions (db : StoreDb) : StoreDb := set_revisions db (db_sequence db) (prune_config_revisions (db_revisions db)).

(** [current.revision.checked_add(1)] on [u64] *)
Definition checked_next (revision : Z) : option Z := if revision <? u64_max then Some (revision + 1) else None.
Definition advances (text : string) (revision : Z) : bool :=
  match decode_config text with
  | Ok current => bool_decide (Some revision = checked_next (c_revision current))
  | Err _ => false
  end.

Definition save_config (cfg : SystemConfig) (db : StoreDb) : result unit error * StoreDb :=
  match validation_error (validate cfg) with
  | Err e => (Err (Wrapf "refusing to persist invalid configuration" e), db)
  | Ok _ =>
      let refusal :=
        match latest_row db with
        | Some row => if advances (rv_config_json row) (c_revision cfg) then None
                      else Some (Errorf "configuration revision must advance exactly once")
        | None => if negb (c_revision cfg =? 1) then Some (Errorf "initial configuration revision must be 1") else None
        end in
      match refusal with
      | Some e => (Err e, db)
      | None =>
          match encode_config cfg with
          | Err e => (Err (Wrapf "failed to serialize config" e), db)
          | Ok data => (Ok tt, pruned_revisions (insert_revision (rfc3339 (c_updated_at cfg)) data db))
          end
      end
  end.

(** Part of [SQLiteStore::new]: the default configuration on first use *)
Definition initialise (now : Time) (db : StoreDb) : result unit error * StoreDb :=
  match db_revisions db with
  | [] => let '(r, db') := save_config (default_config now) db in (map_err (Wrapf "failed to initialize default config") r, db')
  | _ => (Ok tt, db)
  end.

(** The first configuration and the administrator, together *)
Definition with_updated_at (c : SystemConfig) (t : Time) : SystemConfig := with_revision c (c_revision c) t.
Definition commit_initial_setup (cfg : SystemConfig) (password_hash : string) (now : Time) (db : StoreDb) : result unit error * StoreDb :=
  match validation_error (validate cfg) with
  | Err e => (Err (Wrapf "refusing invalid initial configuration" e), db)
  | Ok _ =>
      if negb (is_none (db_credentials (db_auth db))) then (Err (Errorf "administrator is already configured"), db)
      else
        match latest_row db with
        | None => (Err ErrNoRows, db)
        | Some row =>
            match decode_config (rv_config_json row) with
            | Err e => (Err e, db)
            | Ok current =>
                if negb (bool_decide (Some (c_revision cfg) = checked_next (c_revision current))) then
                  (Err (Errorf "initial configuration revision must advance exactly once"), db)
                else
                  let cfg := with_updated_at cfg now in
                  match encode_config cfg with
                  | Err e => (Err e, db)
                  | Ok data =>
                      let db' := insert_revision (rfc3339 now) data db in
                      (Ok tt, set_auth db' (mkDb (Some (mkCredentials password_hash 1 None)) ∅ (db_buckets (db_auth db))))
                  end
            end
        end
  end.

(** ** Restore points *)
(** [INSERT INTO snapshots]: the id is the primary key. *)
Definition insert_snapshot (s : Snapshot) (db : StoreDb) : result unit error * StoreDb :=
  if bool_decide (sn_id s ∈ map sn_id (db_snapshots db)) then (Err (Errorf "UNIQUE constraint failed: snapshots.id"), db)
  else (Ok tt, set_snapshots db (db_snapshots db ++ [s])).

Definition checksum_of (data : string) : string := hex_encode (sha256 (bytes_of data)).

Definition create_snapshot_kind (cfg : SystemConfig) (kind label : string) (entropy : result (list Z) error) (now : Time) (db : StoreDb)
  : result Snapshot error * StoreDb :=
  match map_err (Wrapf "failed to marshal config for snapshot") (encode_config cfg), map_err (Wrapf "generate snapshot ID") entropy with
  | Ok data, Ok entropy =>
      if i64_max <? c_revision cfg then (Err (Errorf "snapshot revision exceeds SQLite range"), db)
      else
        let s := mkSnapshot ("snap-" +:+ show_Z (wall now) +:+ "-" +:+ hex_encode entropy) (c_revision cfg) (rfc3339 now) (checksum_of data)
                   kind label data in
        match insert_snapshot s db with
        | (Err e, _) => (Err (Wrapf "failed to insert snapshot" e), db)
        | (Ok _, db') =>
            (Ok (mkSnapshot (sn_id s) (sn_revision s) (sn_created_at s) (sn_checksum s) kind label EmptyString),
             set_snapshots db' (prune_snapshots kind (db_snapshots db')))
        end
  | Err e, _ | _, Err e => (Err e, db)
  end.
Definition create_snapshot (cfg : SystemConfig) := create_snapshot_kind cfg SNAPSHOT_KIND_AUTOMATIC EmptyString.

Definition validate_snapshot_label (label : string) : result unit error :=
  if 80 <? rune_count label then Err (Errorf "snapshot name must be at most 80 characters")
  else if has_control label then Err (Errorf "snapshot name cannot contain control characters")
  else Ok tt.
Definition create_manual_snapshot (cfg : SystemConfig) (label : string) (entropy : result (list Z) error) (now : Time) (db : StoreDb)
  : result Snapshot error * StoreDb :=
  let name := trim label in
  match validate_snapshot_label name with
  | Err e => (Err e, db)
  | Ok _ => create_snapshot_kind cfg SNAPSHOT_KIND_MANUAL name entropy now db
  end.

Definition without_json (s : Snapshot) : Snapshot :=
  mkSnapshot (sn_id s) (sn_revision s) (sn_created_at s) (sn_checksum s) (sn_kind s) (sn_label s) EmptyString.
Definition list_snapshots (db : StoreDb) : list Snapshot := map without_json (order_desc snapshot_cmp (db_snapshots db)).
Definition delete_snapshot (id : string) (db : StoreDb) : result unit error * StoreDb :=
  if bool_decide (id ∈ map sn_id (db_snapshots db))
  then (Ok tt, set_snapshots db (List.filter (fun s => sn_id s <>s id) (db_snapshots db)))
  else (Err ErrSnapshotNotFound, db).
Definition get_snapshot (id : string) (db : StoreDb) : result Snapshot error :=
  match List.find (fun s => sn_id s =s id) (db_snapshots db) with
  | None => Err ErrSnapshotNotFound
  | Some s =>
      let actual := sha256 (bytes_of (sn_config_json s)) in
      match hex_decode (bytes_of (sn_checksum s)) with
      | Some expected => if Nat.eqb (List.length expected) 32 && bool_decide (actual = expected) then Ok s else Err ErrSnapshotCorrupt
      | None => Err ErrSnapshotCorrupt
      end
  end.

(** ** The audit log *)
Definition details_json (details : list (string * string)) : string := str_of (marshal (JObj (map (fun p => (fst p, JStr (snd p))) details))).
Definition detail (k : string) (details : list (string * string)) : option string := snd <$> List.find (fun p => fst p =s k) details.
Definition is_backup_export (event_type : string) (details : list (string * string)) : bool :=
  (event_type =s "api.mutation")
  && match detail "path" details with Some p => p =s "/api/v1/backup/export" | None => false end
  && match detail "status" details with Some s => starts_with "2" s | None => false end.

(** [details] in key order; [random] is the id in base64, [exported] the second reading of the clock. *)
Definition append_audit_event (event_type actor : string) (details : list (string * string)) (random : result string error) (now exported : Time)
  (db : StoreDb) : result unit error * StoreDb :=
  if is_empty event_type || (96 <? str_len event_type) || is_empty actor || (255 <? str_len actor) then
    (Err (Errorf "invalid audit event metadata"), db)
  else
    let text := details_json details in
    if 4096 <? str_len text then (Err (Errorf "invalid audit event details"), db)
    else
      match map_err (Wrapf "generate audit event ID") random with
      | Err e => (Err e, db)
      | Ok random =>
          let e := mkAudit ("audit-" +:+ random) event_type actor (go_string now) text in
          if bool_decide (ev_id e ∈ map ev_id (db_events db)) then
            (Err (Wrapf "insert audit event" (Errorf "UNIQUE constraint failed: audit_events.id")), db)
          else
            let events := db_events db ++ [e] in
            let marker := if is_backup_export event_type details then Some (go_string exported) else db_exported db in
            let events := if is_high_volume_audit_event event_type then prune_high_volume_audit events else events in
            (Ok tt, set_events db (prune_audit events) marker)
      end.

Definition list_limit (limit : Z) : Z := if limit <=? 0 then 100 else Z.min limit 500.
Definition list_audit_events (limit : Z) (db : StoreDb) : list AuditRow := take (Z.to_nat (list_limit limit)) (order_desc event_cmp (db_events db)).

(** ** Maintenance and recovery *)
Definition maintain_storage (db : StoreDb) : StoreDb :=
  let db := pruned_revisions db in
  let db := set_snapshots db (prune_manual_snapshots (prune_automatic_snapshots (db_snapshots db))) in
  set_events db (prune_audit (prune_high_volume_audit (db_events db))) (db_exported db).

(** SQLite adds to the stored generation. *)
Definition store_recovered_credentials (hash : string) (clear_totp : bool) (a : AuthDb) : AuthDb :=
  let c := match db_credentials a with
           | None => mkCredentials hash 1 None
           | Some c => mkCredentials hash (cr_auth_generation c + 1) (if clear_totp then None else cr_totp_secret c)
           end in
  mkDb (Some c) (db_sessions a) (db_buckets a).
Definition revoke_sessions (db : StoreDb) : StoreDb := set_auth db (with_sessions (db_auth db) ∅).
Definition recovery_reset_authentication (password_hash : string) (disable_totp : bool) (db : StoreDb) : StoreDb :=
  revoke_sessions (set_auth db (store_recovered_credentials password_hash disable_totp (db_auth db))).

Definition wrapping_next (revision : Z) : Z := (revision + 1) mod 2 ^ 64.
(** [now] is read for the configuration, [id_now] and [snap_now] for the snapshot. *)
Definition recovery_save_config (current next : SystemConfig) (password_hash : option string) (clear_totp : bool) (now id_now snap_now : Time)
  (db : StoreDb) : result Snapshot error * StoreDb :=
  let prepared :=
    let? _ := map_err (Wrapf "current recovery configuration is invalid") (validation_error (validate current)) in
    let? _ := map_err (Wrapf "recovery configuration is invalid") (validation_error (validate next)) in
    if negb (c_revision next =? wrapping_next (c_revision current)) then Err (Errorf "recovery configuration revision must advance exactly once")
    else
      let? current_data := map_err (Wrapf "marshal recovery snapshot") (encode_config current) in
      let? next_data := map_err (Wrapf "marshal recovered configuration") (encode_config (with_updated_at next now)) in
      match latest_row db with
      | None => Err (Wrapf "inspect current recovery revision" ErrNoRows)
      | Some row =>
          if match decode_config (rv_config_json row) with Ok s => c_revision s =? c_revision current | Err _ => false end
          then Ok (current_data, next_data)
          else Err (Errorf "canonical configuration changed during recovery")
      end in
  match prepared with
  | Err e => (Err e, db)
  | Ok (current_data, next_data) =>
      let s := mkSnapshot ("snap-" +:+ show_Z (wall id_now)) (c_revision current) (rfc3339 snap_now) (checksum_of current_data)
                 EmptyString EmptyString current_data in
      (** the row takes the column defaults *)
      let row := mkSnapshot (sn_id s) (as_i64 (sn_revision s)) (sn_created_at s) (sn_checksum s) SNAPSHOT_KIND_AUTOMATIC EmptyString current_data in
      match insert_snapshot row db with
      | (Err e, _) => (Err (Wrapf "insert recovery snapshot" e), db)
      | (Ok _, db1) =>
          let db2 := set_snapshots db1 (prune_automatic_snapshots (db_snapshots db1)) in
          let db3 := pruned_revisions (insert_revision (rfc3339 now) next_data db2) in
          let db4 := match password_hash with
                     | Some hash => set_auth db3 (store_recovered_credentials hash clear_totp (db_auth db3))
                     | None => db3
                     end in
          (Ok s, revoke_sessions db4)
      end
  end.

(** [backup_export_status], [recovery_state] *)
Definition save_recovery_operation (data : result string error) (db : StoreDb) : result unit error * StoreDb :=
  match data with
  | Err e => (Err e, db)
  | Ok text => if 128 * 1024 <? str_len text then (Err (Errorf "recovery operation too large"), db) else (Ok tt, set_recovery_state db (Some text))
  end.

(** ** Offline migration *)
Record OfflineConfig := mkOffline { oc_revision : Z; oc_json : string }.
Definition read_offline_config (db : StoreDb) : result OfflineConfig error :=
  match latest_row db with Some row => Ok (mkOffline (rv_row row) (rv_config_json row)) | None => Err ErrNoRows end.

(** The entries of the [BTreeMap], by key *)
Definition peer_secrets (peers : list WireGuardPeer) : list (string * string) :=
  imap (fun i p => ("wireguard.peers[" +:+ show_Z (Z.of_nat i) +:+ "].preshared_key", peer_preshared_key p)) peers.
Definition offline_secrets (cfg : SystemConfig) : list (string * string) :=
  order_desc (fun a b => text_cmp (fst b) (fst a))
    ([("wan.password", wan_password (c_wan cfg)); ("wireguard.private_key", wg_private_key (c_wireguard cfg));
      ("wg_client.private_key", wgc_private_key (c_wg_client cfg)); ("wg_client.preshared_key", wgc_preshared_key (c_wg_client cfg));
      ("cloudflare.api_token", cf_api_token (c_cloudflare cfg)); ("cloudflare.tunnel_token", cf_tunnel_token (c_cloudflare cfg));
      ("squid_proxy.password", squid_password (c_squid_proxy cfg)); ("wifi.passphrase", wifi_passphrase (c_wifi cfg))]
     ++ peer_secrets (items (wg_peers (c_wireguard cfg)))).
Definition validate_offline_candidate (cfg : SystemConfig) : result unit error :=
  match List.find (fun p => trim (snd p) =s "[REDACTED]") (offline_secrets cfg) with
  | Some (field, _) => Err (Errorf (field +:+ " contains a redaction placeholder; supply a complete private configuration"))
  | None => validate_live_candidate cfg None
  end.

(** A compare-and-swap that may be repeated *)
Definition commit_offline_migration (old : OfflineConfig) (target : string) (db : StoreDb) : result unit error * StoreDb :=
  let checked :=
    let? cfg := decode_config target in
    let? _ := validate_offline_candidate cfg in
    if (oc_revision old <? 1) || (oc_revision old =? i64_max) || negb (c_revision cfg =? oc_revision old + 1)
    then Err (Errorf "offline migration revision must advance exactly once")
    else Ok cfg in
  match checked with
  | Err e => (Err e, db)
  | Ok cfg =>
      match latest_row db with
      | None => (Err ErrNoRows, db)
      | Some row =>
          if (rv_row row =? oc_revision old + 1) && (rv_config_json row =s target) then (Ok tt, db)
          else if negb (rv_row row =? oc_revision old) || (rv_config_json row <>s oc_json old) then
            (Err (Errorf "canonical configuration changed since offline migration was prepared"), db)
          else
            let row' := mkRevision (oc_revision old + 1) (go_string (c_updated_at cfg)) target in
            (Ok tt, revoke_sessions (set_revisions db (Z.max (db_sequence db) (rv_row row')) (db_revisions db ++ [row'])))
      end
  end.
End Store.
