(* ===== verification/StoreSpec.v ===== *)
(** * What the configuration store keeps *)

From Stdlib Require Import ZArith Ascii String Lia Bool.
From stdpp Require Import base list strings gmap sorting.
From S2P Require Import Prelude GoStrings Net NetSpec GoTime Json Model Validation ValidationSpec Policy PolicySpec Firmware FirmwareSpec Auth AuthStore Ipc Safety Engine Store.

Local Open Scope string_scope.
Local Open Scope Z_scope.
Local Open Scope list_scope.

(** ** Ordered selections *)
Section Selection.
Context {A K : Type} (key : A -> K) (kcmp : K -> K -> comparison) `{!Lawful kcmp}.
Context (cmp : A -> A -> comparison) (Hcmp : forall x y, cmp x y = kcmp (key x) (key y)).

(** [y] is at least as new as [x] *)
Definition as_new (x y : A) : Prop := kcmp (key y) (key x) <> Lt.

Lemma as_new_trans x y z : as_new x y -> as_new y z -> as_new x z.
Proof.
  unfold as_new. intros Hxy Hyz Hzx. rewrite (lf_sym (key x) (key y)) in Hxy. rewrite (lf_sym (key y) (key z)) in Hyz.
  destruct (kcmp (key x) (key y)) eqn:E1; [|..|done].
  - apply lf_eq in E1. rewrite E1 in Hzx. rewrite (lf_sym (key y) (key z)), (lf_sym) in Hzx. rewrite (lf_sym (key z) (key y)) in Hyz. by rewrite CompOpp_involutive in *.
  - assert (Hzy : kcmp (key z) (key y) = Lt) by by eapply lf_trans. rewrite (lf_sym (key z) (key y)), Hzy in Hyz. done.
Qed.

Lemma insert_desc_perm x l : insert_desc cmp x l ≡ₚ x :: l.
Proof. induction l as [|y l IH]; cbn; [done|]. destruct (cmp x y); [done| |done]. rewrite IH. apply Permutation_swap. Qed.
Lemma order_desc_perm l : order_desc cmp l ≡ₚ l.
Proof. induction l as [|x l IH]; cbn; [done|]. by rewrite insert_desc_perm, IH. Qed.

Lemma insert_desc_sorted x l : StronglySorted (fun a b => as_new b a) l -> StronglySorted (fun a b => as_new b a) (insert_desc cmp x l).
Proof.
  induction 1 as [|y l Hs IH Hy]; cbn; [by repeat constructor|]. rewrite Hcmp. destruct (kcmp (key x) (key y)) eqn:E.
  - constructor; [by constructor|]. assert (Hyx : as_new y x) by (unfold as_new; by rewrite E).
    constructor; [done|]. eapply Forall_impl; [exact Hy|]. intros z Hz. exact (as_new_trans z y x Hz Hyx).
  - constructor; [done|]. rewrite insert_desc_perm. constructor; [|done]. unfold as_new. rewrite (lf_sym (key x) (key y)), E. done.
  - constructor; [by constructor|]. assert (Hyx : as_new y x) by (unfold as_new; by rewrite E).
    constructor; [done|]. eapply Forall_impl; [exact Hy|]. intros z Hz. exact (as_new_trans z y x Hz Hyx).
Qed.
Lemma order_desc_sorted l : StronglySorted (fun a b => as_new b a) (order_desc cmp l).
Proof. induction l as [|x l IH]; cbn; [constructor|by apply insert_desc_sorted]. Qed.

Lemma sorted_take_drop (n : nat) l x y : StronglySorted (fun a b => as_new b a) l -> x ∈ take n l -> y ∈ drop n l -> as_new y x.
Proof.
  revert n. induction l as [|a l IH]; intros [|n] Hs Hx Hy; cbn in *; try by apply elem_of_nil in Hx.
  inversion_clear Hs as [|? ? Hs' Ha]. apply elem_of_cons in Hx as [->|Hx].
  - rewrite Forall_forall in Ha. apply Ha. by eapply subseteq_drop.
  - by eapply IH.
Qed.

(** ** Pruning *)
Context {I : Type} `{!EqDecision I} (id : A -> I) (p : A -> bool) (n : nat).
Definition newest (l : list A) : list A := take n (order_desc cmp (List.filter p l)).

Lemma elem_of_bfilter (q : A -> bool) l x : x ∈ List.filter q l <-> x ∈ l /\ q x = true.
Proof. by rewrite !list_elem_of_In, filter_In. Qed.

Lemma newest_sub l x : x ∈ newest l -> x ∈ l /\ p x = true.
Proof. intros Hx. apply elem_of_bfilter. rewrite <- (order_desc_perm (List.filter p l)). by eapply subseteq_take. Qed.

Lemma NoDup_id_inj l x y : NoDup (map id l) -> x ∈ l -> y ∈ l -> id x = id y -> x = y.
Proof.
  induction l as [|a l IH]; intros Hnd Hx Hy Heq; [by apply elem_of_nil in Hx|]. cbn in Hnd. apply NoDup_cons in Hnd as [Ha Hnd].
  apply elem_of_cons in Hx as [->|Hx], Hy as [->|Hy]; try done; [| |by apply IH].
  - destruct Ha. rewrite Heq. by apply list_elem_of_fmap_2.
  - destruct Ha. rewrite <- Heq. by apply list_elem_of_fmap_2.
Qed.

Lemma prune_elem l x : NoDup (map id l) -> x ∈ prune cmp id p n l <-> x ∈ l /\ (p x = false \/ x ∈ newest l).
Proof.
  intros Hnd. unfold prune. rewrite elem_of_bfilter. fold (newest l). rewrite orb_true_iff, negb_true_iff, bool_decide_eq_true. split.
  - intros [Hx [Hp|Hid]]; [by auto|]. apply list_elem_of_fmap_1 in Hid as (y & Hy & Hin). split; [done|right].
    destruct (newest_sub l y Hin) as [Hl _]. by rewrite (NoDup_id_inj l x y).
  - intros [Hx [Hp|Hin]]; [by auto|]. split; [done|right]. by apply list_elem_of_fmap_2.
Qed.

Lemma bfilter_sublist (q : A -> bool) l : List.filter q l `sublist_of` l.
Proof. induction l as [|x l IH]; cbn; [done|]. destruct (q x); by constructor. Qed.
Lemma prune_sublist l : prune cmp id p n l `sublist_of` l.
Proof. apply bfilter_sublist. Qed.
Lemma prune_ids l : NoDup (map id l) -> NoDup (map id (prune cmp id p n l)).
Proof. intros Hnd. eapply sublist_NoDup; [exact Hnd|]. apply (fmap_sublist id), prune_sublist. Qed.

Lemma NoDup_of_ids l : NoDup (map id l) -> NoDup l.
Proof. apply NoDup_fmap_1. Qed.
Lemma newest_NoDup l : NoDup (map id l) -> NoDup (newest l).
Proof.
  intros Hnd. apply (sublist_NoDup _ (order_desc cmp (List.filter p l))); [|apply sublist_take]. rewrite order_desc_perm.
  eapply sublist_NoDup; [by apply NoDup_of_ids|apply bfilter_sublist].
Qed.

Lemma prune_bound l : NoDup (map id l) -> (List.length (List.filter p (prune cmp id p n l)) <= n)%nat.
Proof.
  intros Hnd. trans (List.length (newest l)); [|unfold newest; rewrite length_take; lia].
  apply submseteq_length, NoDup_submseteq.
  - eapply sublist_NoDup; [|apply bfilter_sublist]. by apply NoDup_of_ids, prune_ids.
  - intros x Hx. apply elem_of_bfilter in Hx as [Hx Hp]. apply prune_elem in Hx as [_ [Hf|Hx]]; [congruence|done|done].
Qed.

(** What is dropped is older than everything selected. *)
Lemma prune_dropped l x : NoDup (map id l) -> x ∈ l -> x ∉ prune cmp id p n l ->
  p x = true /\ List.length (newest l) = n /\ NoDup (newest l) /\ forall y, y ∈ newest l -> y ∈ prune cmp id p n l /\ p y = true /\ as_new x y.
Proof.
  intros Hnd Hx Hnot. rewrite prune_elem in Hnot by done. destruct (p x) eqn:Hp; [|by destruct Hnot; auto].
  assert (Hdrop : x ∈ drop n (order_desc cmp (List.filter p l))).
  { assert (Hin : x ∈ order_desc cmp (List.filter p l)) by (rewrite order_desc_perm; by apply elem_of_bfilter).
    rewrite <- (take_drop n (order_desc cmp (List.filter p l))) in Hin. apply elem_of_app in Hin as [Hin|Hin]; [|done].
    destruct Hnot. split; [done|by right]. }
  split; [done|]. split.
  { unfold newest. rewrite length_take. enough (n <= List.length (order_desc cmp (List.filter p l)))%nat by lia.
    destruct (Nat.le_gt_cases n (List.length (order_desc cmp (List.filter p l)))); [done|]. rewrite drop_ge in Hdrop by lia. by apply elem_of_nil in Hdrop. }
  split; [by apply newest_NoDup|]. intros y Hy. destruct (newest_sub l y Hy) as [Hyl Hyp].
  split; [apply prune_elem; auto|]. split; [done|]. eapply sorted_take_drop; [apply order_desc_sorted|exact Hy|exact Hdrop].
Qed.

Lemma prune_other l x : NoDup (map id l) -> x ∈ l -> p x = false -> x ∈ prune cmp id p n l.
Proof. intros. apply prune_elem; auto. Qed.

(** The newest row is kept. *)
Lemma prune_first l x : NoDup (map id l) -> x ∈ l -> (0 < n)%nat -> (forall y, y ∈ l -> p y = true -> y <> x -> ~ as_new x y) -> x ∈ prune cmp id p n l.
Proof.
  intros Hnd Hx Hn Hnew. destruct (decide (id x ∈ map id (prune cmp id p n l))) as [Hin|Hout].
  { apply list_elem_of_fmap_1 in Hin as (y & Hy & Hin). rewrite (NoDup_id_inj l x y); try done. by apply prune_elem in Hin as [Hin _]. }
  exfalso. assert (Hnot : x ∉ prune cmp id p n l) by (intros Hin; apply Hout; by apply list_elem_of_fmap_2).
  destruct (prune_dropped l x Hnd Hx Hnot) as (_ & Hlen & _ & Hall). destruct (newest l) as [|y t] eqn:E; [cbn in Hlen; lia|].
  destruct (Hall y ltac:(left)) as (Hy & Hyp & Has). apply prune_elem in Hy as [Hyl _]; [|done].
  apply (Hnew y Hyl Hyp); [|done]. intros ->. apply Hnot. apply prune_elem; [done|]. split; [done|right]. rewrite E. left.
Qed.

(** The head of the order *)
Lemma order_head l x : order_desc cmp l = x :: tl (order_desc cmp l) -> x ∈ l /\ forall y, y ∈ l -> as_new y x.
Proof.
  intros Hh. assert (Hin : forall y, y ∈ l <-> y ∈ order_desc cmp l) by (intros y; by rewrite order_desc_perm).
  pose proof (order_desc_sorted l) as Hs. rewrite Hh in Hs. inversion_clear Hs as [|? ? _ Ha]. rewrite Forall_forall in Ha. split.
  - apply Hin. rewrite Hh. left.
  - intros y Hy. apply Hin in Hy. rewrite Hh in Hy. apply elem_of_cons in Hy as [->|Hy]; [|by apply Ha].
    unfold as_new. by rewrite lf_refl.
Qed.
End Selection.

(** ** The three orders *)
#[export] Instance text_lawful : Lawful text_cmp.
Proof.
  unfold text_cmp. split.
  - intros x y. rewrite bytes_cmp_list, lf_eq. split; [apply bytes_of_inj|by intros ->].
  - intros x y. rewrite !bytes_cmp_list. apply lf_sym.
  - intros x y z. rewrite !bytes_cmp_list. apply lf_trans.
Qed.
Definition snapshot_key (s : Snapshot) : Z * (string * string) := (sn_revision s, (sn_created_at s, sn_id s)).
Definition event_key (e : AuditRow) : string * string := (ev_timestamp e, ev_id e).

Lemma row_cmp_key a b : row_cmp a b = Z.compare (rv_row a) (rv_row b).
Proof. done. Qed.
Lemma snapshot_cmp_key a b : snapshot_cmp a b = pair_cmp Z.compare (pair_cmp text_cmp text_cmp) (snapshot_key a) (snapshot_key b).
Proof.
  unfold snapshot_cmp, pair_cmp, then_cmp, snapshot_key. cbn [fst snd].
  by destruct (sn_revision a ?= sn_revision b), (text_cmp (sn_created_at a) (sn_created_at b)).
Qed.
Lemma event_cmp_key a b : event_cmp a b = pair_cmp text_cmp text_cmp (event_key a) (event_key b).
Proof. unfold event_cmp, pair_cmp, then_cmp, event_key. cbn [fst snd]. by destruct (text_cmp (ev_timestamp a) (ev_timestamp b)). Qed.

(** [b] is at least as new as [a]: later revision, later time, or the id decides. *)
Definition snapshot_as_new : Snapshot -> Snapshot -> Prop := as_new snapshot_key (pair_cmp Z.compare (pair_cmp text_cmp text_cmp)).
Definition event_as_new : AuditRow -> AuditRow -> Prop := as_new event_key (pair_cmp text_cmp text_cmp).

#[export] Instance Snapshot_eq_dec : EqDecision Snapshot.
Proof. solve_decision. Defined.
#[export] Instance AuditRow_eq_dec : EqDecision AuditRow.
Proof. solve_decision. Defined.

(** ** The invariant *)
Abbreviation high_volume := (fun e => is_high_volume_audit_event (ev_type e)).
Abbreviation automatic := (fun s => negb (is_manual s)).

Record WellKept (db : StoreDb) : Prop := {
  wk_rows : NoDup (map rv_row (db_revisions db));
  wk_sequence r : r ∈ db_revisions db -> rv_row r <= db_sequence db;
  wk_snapshot_ids : NoDup (map sn_id (db_snapshots db));
  wk_manual : (List.length (List.filter is_manual (db_snapshots db)) <= SNAPSHOT_RETENTION_PER_KIND)%nat;
  wk_automatic : (List.length (List.filter automatic (db_snapshots db)) <= SNAPSHOT_RETENTION_PER_KIND)%nat;
  wk_event_ids : NoDup (map ev_id (db_events db));
  wk_events : (List.length (db_events db) <= AUDIT_RETENTION)%nat;
  wk_high : (List.length (List.filter high_volume (db_events db)) <= HIGH_VOLUME_AUDIT_RETENTION)%nat;
}.

Lemma filter_all {A} (l : list A) : List.filter (fun _ => true) l = l.
Proof. induction l; cbn; congruence. Qed.
Lemma filter_sublist_length {A} (q : A -> bool) l k : l `sublist_of` k -> (List.length (List.filter q l) <= List.length (List.filter q k))%nat.
Proof.
  induction 1 as [|x l k Hs IH|x l k Hs IH]; cbn; [lia| |]; destruct (q x); cbn; lia.
Qed.
Lemma NoDup_snoc_map {A B} (f : A -> B) l x : NoDup (map f l) -> f x ∉ map f l -> NoDup (map f (l ++ [x])).
Proof. intros Hl Hx. rewrite map_app. apply NoDup_app. split; [done|]. split; [|apply NoDup_singleton]. intros y Hy Hyx. apply list_elem_of_singleton in Hyx. by subst. Qed.
Lemma filter_snoc {A} (q : A -> bool) l x : List.filter q (l ++ [x]) = List.filter q l ++ (if q x then [x] else []).
Proof. by rewrite List.filter_app. Qed.

(** Rows inserted and pruned *)
Lemma insert_revision_rows db stamp data : WellKept db ->
  NoDup (map rv_row (db_revisions (insert_revision stamp data db)))
  /\ forall r, r ∈ db_revisions (insert_revision stamp data db) -> rv_row r <= db_sequence (insert_revision stamp data db).
Proof.
  intros Hk. cbn. split.
  - apply NoDup_snoc_map; [apply Hk|]. intros Hin. apply list_elem_of_fmap_1 in Hin as (r & Hr & Hin).
    cbn in Hr. pose proof (wk_sequence db Hk r Hin). lia.
  - intros r Hr. apply elem_of_app in Hr as [Hr|Hr]; [pose proof (wk_sequence db Hk r Hr); lia|].
    apply list_elem_of_singleton in Hr as ->. cbn. lia.
Qed.

Lemma WellKept_revisions db seq l : WellKept db -> NoDup (map rv_row l) -> (forall r, r ∈ l -> rv_row r <= seq) -> WellKept (set_revisions db seq l).
Proof. intros [] Hl Hs. by split. Qed.
Lemma WellKept_auth db a : WellKept db -> WellKept (set_auth db a).
Proof. intros []. by split. Qed.
Lemma WellKept_recovery db r : WellKept db -> WellKept (set_recovery_state db r).
Proof. intros []. by split. Qed.
Lemma WellKept_snapshots db l : WellKept db -> NoDup (map sn_id l) -> (List.length (List.filter is_manual l) <= SNAPSHOT_RETENTION_PER_KIND)%nat ->
  (List.length (List.filter automatic l) <= SNAPSHOT_RETENTION_PER_KIND)%nat -> WellKept (set_snapshots db l).
Proof. intros [] H1 H2 H3. by split. Qed.
Lemma WellKept_events db l e : WellKept db -> NoDup (map ev_id l) -> (List.length l <= AUDIT_RETENTION)%nat ->
  (List.length (List.filter high_volume l) <= HIGH_VOLUME_AUDIT_RETENTION)%nat -> WellKept (set_events db l e).
Proof. intros [] H1 H2 H3. by split. Qed.

Lemma pruned_revisions_kept db : NoDup (map rv_row (db_revisions db)) -> (forall r, r ∈ db_revisions db -> rv_row r <= db_sequence db) ->
  NoDup (map rv_row (db_revisions (pruned_revisions db))) /\ (forall r, r ∈ db_revisions (pruned_revisions db) -> rv_row r <= db_sequence db)
  /\ (List.length (db_revisions (pruned_revisions db)) <= 100)%nat.
Proof.
  intros Hnd Hs. cbn. split; [by apply prune_ids|]. split.
  - intros r Hr. apply Hs. eapply sublist_subseteq; [apply (prune_sublist row_cmp rv_row (fun _ => true) 100)|exact Hr].
  - pose proof (prune_bound row_cmp rv_row (fun _ => true) 100 (db_revisions db) Hnd) as Hb. by rewrite filter_all in Hb.
Qed.

(** A new snapshot of one kind, and pruning within that kind *)
Lemma snapshots_kept db s kind : WellKept db -> sn_id s ∉ map sn_id (db_snapshots db) -> is_manual s = (kind =s SNAPSHOT_KIND_MANUAL) ->
  WellKept (set_snapshots db (prune_snapshots kind (db_snapshots db ++ [s]))).
Proof.
  intros Hk Hid Hkind. assert (Hnd : NoDup (map sn_id (db_snapshots db ++ [s]))) by (apply NoDup_snoc_map; [apply Hk|done]).
  unfold prune_snapshots. destruct (kind =s SNAPSHOT_KIND_MANUAL).
  - apply WellKept_snapshots; [done|by apply prune_ids|by apply prune_bound|].
    etrans; [apply filter_sublist_length, prune_sublist|]. rewrite filter_snoc, Hkind, app_nil_r. apply Hk.
  - apply WellKept_snapshots; [done|by apply prune_ids| |by apply prune_bound].
    etrans; [apply filter_sublist_length, prune_sublist|]. rewrite filter_snoc, Hkind, app_nil_r. apply Hk.
Qed.

(** ** The audit log *)
Definition log_event (e : AuditRow) (l : list AuditRow) : list AuditRow :=
  let l' := l ++ [e] in if is_high_volume_audit_event (ev_type e) then prune_high_volume_audit l' else l'.

Lemma log_event_ids l e : NoDup (map ev_id l) -> ev_id e ∉ map ev_id l -> NoDup (map ev_id (log_event e l)).
Proof.
  intros Hl He. assert (Hs : NoDup (map ev_id (l ++ [e]))) by by apply NoDup_snoc_map.
  unfold log_event. destruct (is_high_volume_audit_event _); [by apply prune_ids|done].
Qed.
Lemma log_event_high l e : NoDup (map ev_id l) -> ev_id e ∉ map ev_id l ->
  (List.length (List.filter high_volume l) <= HIGH_VOLUME_AUDIT_RETENTION)%nat ->
  (List.length (List.filter high_volume (log_event e l)) <= HIGH_VOLUME_AUDIT_RETENTION)%nat.
Proof.
  intros Hl He Hb. unfold log_event. destruct (is_high_volume_audit_event (ev_type e)) eqn:Eh.
  - apply prune_bound. by apply NoDup_snoc_map.
  - by rewrite filter_snoc, Eh, app_nil_r.
Qed.
Lemma log_event_ordinary l e x : NoDup (map ev_id l) -> ev_id e ∉ map ev_id l -> x ∈ l -> high_volume x = false -> x ∈ log_event e l.
Proof.
  intros Hl He Hx Hh. unfold log_event. destruct (is_high_volume_audit_event (ev_type e)); [|by apply elem_of_app; left].
  apply prune_other; [by apply NoDup_snoc_map|by apply elem_of_app; left|done].
Qed.

Lemma filter_negb_length {A} (q : A -> bool) l : (List.length (List.filter q l) + List.length (List.filter (fun x => negb (q x)) l) = List.length l)%nat.
Proof. induction l as [|x l IH]; cbn; [done|]. destruct (q x); cbn; lia. Qed.

Lemma filter_subset_length {A} (q : A -> bool) (l k : list A) : NoDup l -> (forall x, x ∈ l -> x ∈ k) ->
  (List.length (List.filter q l) <= List.length (List.filter q k))%nat.
Proof.
  intros Hnd Hsub. apply submseteq_length, NoDup_submseteq; [eapply sublist_NoDup; [exact Hnd|apply bfilter_sublist]|].
  intros x Hx. apply elem_of_bfilter in Hx as [Hx Hq]. apply elem_of_bfilter. auto.
Qed.

(** An ordinary event leaves the log only behind this many newer ordinary ones. *)
Definition ordinary_share : nat := AUDIT_RETENTION - HIGH_VOLUME_AUDIT_RETENTION.
Lemma ordinary_dropped l e x : NoDup (map ev_id l) -> ev_id e ∉ map ev_id l -> (List.length (List.filter high_volume l) <= HIGH_VOLUME_AUDIT_RETENTION)%nat ->
  x ∈ l -> high_volume x = false -> x ∉ prune_audit (log_event e l) ->
  exists newer, NoDup newer /\ (ordinary_share <= List.length newer)%nat
    /\ forall y, y ∈ newer -> y ∈ prune_audit (log_event e l) /\ high_volume y = false /\ event_as_new x y.
Proof.
  intros Hl He Hb Hx Hh Hdrop. pose proof (log_event_ids l e Hl He) as Hnd. pose proof (log_event_high l e Hl He Hb) as Hb'.
  destruct (prune_dropped event_key _ event_cmp event_cmp_key ev_id (fun _ => true) AUDIT_RETENTION (log_event e l) x Hnd
    (log_event_ordinary l e x Hl He Hx Hh) Hdrop) as (_ & Hlen & Hnew & Hall).
  set (kept := newest event_cmp (fun _ => true) AUDIT_RETENTION (log_event e l)) in *.
  exists (List.filter (fun y => negb (high_volume y)) kept). split; [eapply sublist_NoDup; [exact Hnew|apply bfilter_sublist]|]. split.
  - pose proof (filter_negb_length high_volume kept) as Hs. rewrite Hlen in Hs.
    assert (Hsub : (List.length (List.filter high_volume kept) <= List.length (List.filter high_volume (log_event e l)))%nat).
    { apply filter_subset_length; [done|]. intros y Hy. by apply newest_sub in Hy as [Hy _]. }
    unfold ordinary_share. lia.
  - intros y Hy. apply elem_of_bfilter in Hy as [Hy Hq]. destruct (Hall y Hy) as (Hin & _ & Has). split; [done|]. split; [|done].
    by apply negb_true_iff.
Qed.

Section Store.
Context {UC : Unicode} {B64 : Base64} {CC : ConfigCodec} {TT : TimeText} {SH : Sha256}.

Lemma append_event_spec ty actor details random now exported db r db' :
  append_audit_event ty actor details random now exported db = (r, db') ->
  match r with
  | Ok _ => exists e marker, ev_type e = ty /\ ev_id e ∉ map ev_id (db_events db) /\ db' = set_events db (prune_audit (log_event e (db_events db))) marker
  | Err _ => db' = db
  end.
Proof.
  unfold append_audit_event. intros Hq. destruct (_ || _); [by simplify_eq|]. destruct (4096 <? _); [by simplify_eq|].
  destruct (map_err _ random) as [rnd|e]; [|by simplify_eq]. case_bool_decide as Hid; [by simplify_eq|]. injection Hq as <- <-.
  eexists (mkAudit _ ty actor (go_string now) (details_json details)), _. split; [reflexivity|]. split; [exact Hid|reflexivity].
Qed.

Lemma append_event_kept ty actor details random now exported db r db' : WellKept db ->
  append_audit_event ty actor details random now exported db = (r, db') -> WellKept db'.
Proof.
  intros Hk Hq. apply append_event_spec in Hq. destruct r as [[]|e]; [|by subst].
  destruct Hq as (e & marker & _ & Hid & ->). pose proof (log_event_ids _ e (wk_event_ids db Hk) Hid) as Hnd.
  apply WellKept_events; [done|by apply prune_ids| |].
  - pose proof (prune_bound event_cmp ev_id (fun _ => true) AUDIT_RETENTION _ Hnd) as Hb. by rewrite filter_all in Hb.
  - etrans; [apply filter_sublist_length, prune_sublist|]. apply log_event_high; [apply Hk|done|apply Hk].
Qed.

Lemma insert_snapshot_spec s db r db' : insert_snapshot s db = (r, db') ->
  match r with Ok _ => sn_id s ∉ map sn_id (db_snapshots db) /\ db' = set_snapshots db (db_snapshots db ++ [s]) | Err _ => db' = db end.
Proof. unfold insert_snapshot. intros Hq. case_bool_decide; by simplify_eq. Qed.

Lemma create_snapshot_spec cfg kind label entropy now db r db' : create_snapshot_kind cfg kind label entropy now db = (r, db') ->
  match r with
  | Ok s => exists data, encode_config cfg = Ok data /\ sn_id s ∉ map sn_id (db_snapshots db) /\
      let row := mkSnapshot (sn_id s) (c_revision cfg) (rfc3339 now) (checksum_of data) kind label data in
      s = without_json row /\ db' = set_snapshots db (prune_snapshots kind (db_snapshots db ++ [row]))
  | Err _ => db' = db
  end.
Proof.
  unfold create_snapshot_kind. intros Hq. destruct (encode_config cfg) as [data|e] eqn:Ee; cbn [map_err] in Hq; [|by simplify_eq].
  destruct entropy as [en|e]; cbn [map_err] in Hq; [|by simplify_eq]. destruct (i64_max <? c_revision cfg); [by simplify_eq|].
  destruct (insert_snapshot _ db) as [[[]|e] db1] eqn:Ei; [|by simplify_eq]. apply insert_snapshot_spec in Ei as [Hid ->].
  injection Hq as <- <-. exists data. split; [done|]. split; [exact Hid|]. done.
Qed.

Lemma create_snapshot_kept cfg kind label entropy now db r db' : WellKept db -> create_snapshot_kind cfg kind label entropy now db = (r, db') -> WellKept db'.
Proof.
  intros Hk Hq. apply create_snapshot_spec in Hq. destruct r as [s|e]; [|by subst]. destruct Hq as (data & _ & Hid & _ & ->).
  by apply snapshots_kept.
Qed.

Lemma save_config_spec cfg db r db' : save_config cfg db = (r, db') ->
  match r with
  | Ok _ => exists data, validate cfg = Ok tt /\ encode_config cfg = Ok data /\ db' = pruned_revisions (insert_revision (rfc3339 (c_updated_at cfg)) data db)
  | Err _ => db' = db
  end.
Proof.
  unfold save_config, validation_error. intros Hq. destruct (validate cfg) as [[]|e]; cbn [map_err] in Hq; [|by simplify_eq].
  destruct (match latest_row db with Some _ => _ | None => _ end); [by simplify_eq|].
  destruct (encode_config cfg) as [data|e]; [|by simplify_eq]. injection Hq as <- <-. by exists data.
Qed.

Lemma saved_rows db stamp data : WellKept db -> WellKept (pruned_revisions (insert_revision stamp data db)).
Proof.
  intros Hk. destruct (insert_revision_rows db stamp data Hk) as [Hnd Hs]. destruct (pruned_revisions_kept _ Hnd Hs) as (H1 & H2 & _).
  apply (WellKept_revisions db); [done|exact H1|exact H2].
Qed.
Lemma inserted_rows db stamp data : WellKept db -> WellKept (insert_revision stamp data db).
Proof. intros Hk. destruct (insert_revision_rows db stamp data Hk). by apply WellKept_revisions. Qed.

Lemma save_config_kept cfg db r db' : WellKept db -> save_config cfg db = (r, db') -> WellKept db'.
Proof. intros Hk Hq. apply save_config_spec in Hq. destruct r as [[]|e]; [|by subst]. destruct Hq as (data & _ & _ & ->). by apply saved_rows. Qed.

(** *** The latest row *)
Lemma latest_row_max db row : latest_row db = Some row -> row ∈ db_revisions db /\ forall r, r ∈ db_revisions db -> rv_row r <= rv_row row.
Proof.
  unfold latest_row. intros Hl. destruct (order_desc row_cmp (db_revisions db)) as [|x t] eqn:E; [done|]. cbn in Hl. injection Hl as ->.
  destruct (order_head rv_row Z.compare row_cmp row_cmp_key (db_revisions db) row) as [Hin Hmax]; [by rewrite E|].
  split; [done|]. intros r Hr. specialize (Hmax r Hr). unfold as_new in Hmax. rewrite Z.compare_lt_iff in Hmax. lia.
Qed.
Lemma latest_row_unique db row : NoDup (map rv_row (db_revisions db)) -> row ∈ db_revisions db -> (forall r, r ∈ db_revisions db -> rv_row r <= rv_row row) ->
  latest_row db = Some row.
Proof.
  intros Hnd Hin Hmax. destruct (latest_row db) as [x|] eqn:E.
  - destruct (latest_row_max db x E) as [Hx Hxmax]. f_equal. apply (NoDup_id_inj rv_row (db_revisions db)); [done|done|done|].
    pose proof (Hmax x Hx). pose proof (Hxmax row Hin). lia.
  - unfold latest_row in E. destruct (order_desc row_cmp (db_revisions db)) as [|x t] eqn:Eo; [|done].
    assert (Hperm : row ∈ order_desc row_cmp (db_revisions db)) by by rewrite order_desc_perm. rewrite Eo in Hperm. by apply elem_of_nil in Hperm.
Qed.

Lemma latest_inserted db stamp data : WellKept db -> latest_row (insert_revision stamp data db) = Some (mkRevision (db_sequence db + 1) stamp data).
Proof.
  intros Hk. destruct (insert_revision_rows db stamp data Hk) as [Hnd Hs]. apply latest_row_unique; [done| |exact Hs].
  cbn. apply elem_of_app. right. by apply list_elem_of_singleton.
Qed.
Lemma latest_saved db stamp data : WellKept db ->
  latest_row (pruned_revisions (insert_revision stamp data db)) = Some (mkRevision (db_sequence db + 1) stamp data).
Proof.
  intros Hk. destruct (insert_revision_rows db stamp data Hk) as [Hnd Hs]. destruct (latest_row_max _ _ (latest_inserted db stamp data Hk)) as [Hin _].
  apply latest_row_unique; [by apply prune_ids| |].
  - apply (prune_first rv_row Z.compare row_cmp row_cmp_key); [done|exact Hin|lia|]. intros y Hy _ Hne Has. unfold as_new in Has.
    rewrite Z.compare_lt_iff in Has. pose proof (Hs y Hy) as Hle. cbn in Hle, Has. apply Hne.
    apply (NoDup_id_inj rv_row (db_revisions (insert_revision stamp data db))); [done|done|done|]. cbn. lia.
  - intros r Hr. apply Hs. eapply sublist_subseteq; [apply (prune_sublist row_cmp rv_row (fun _ => true) 100)|exact Hr].
Qed.

(** *** The other operations *)
Lemma delete_snapshot_kept id db r db' : WellKept db -> delete_snapshot id db = (r, db') -> WellKept db'.
Proof.
  intros Hk Hq. unfold delete_snapshot in Hq. case_bool_decide; simplify_eq; [|done]. apply WellKept_snapshots; [done| | |].
  - eapply sublist_NoDup; [apply Hk|]. apply (fmap_sublist sn_id), bfilter_sublist.
  - etrans; [apply filter_sublist_length, bfilter_sublist|apply Hk].
  - etrans; [apply filter_sublist_length, bfilter_sublist|apply Hk].
Qed.

Lemma maintain_kept db : WellKept db -> WellKept (maintain_storage db).
Proof.
  intros Hk. unfold maintain_storage. destruct (pruned_revisions_kept db (wk_rows db Hk) (wk_sequence db Hk)) as (H1 & H2 & _).
  assert (Ha : NoDup (map sn_id (prune_automatic_snapshots (db_snapshots db)))) by (apply prune_ids, Hk).
  assert (Hh : NoDup (map ev_id (prune_high_volume_audit (db_events db)))) by (apply prune_ids, Hk).
  apply WellKept_events; [apply WellKept_snapshots; [by apply WellKept_revisions|..]|..].
  - by apply prune_ids.
  - by apply prune_bound.
  - etrans; [apply filter_sublist_length, prune_sublist|]. apply prune_bound, Hk.
  - by apply prune_ids.
  - pose proof (prune_bound event_cmp ev_id (fun _ => true) AUDIT_RETENTION _ Hh) as Hb. by rewrite filter_all in Hb.
  - etrans; [apply filter_sublist_length, prune_sublist|]. apply prune_bound, Hk.
Qed.

Lemma setup_spec cfg hash now db r db' : commit_initial_setup cfg hash now db = (r, db') ->
  match r with
  | Ok _ => exists data, validate cfg = Ok tt /\ encode_config (with_updated_at cfg now) = Ok data
      /\ exists a, db' = set_auth (insert_revision (rfc3339 now) data db) a
  | Err _ => db' = db
  end.
Proof.
  unfold commit_initial_setup, validation_error. intros Hq. destruct (validate cfg) as [[]|e]; cbn [map_err] in Hq; [|by simplify_eq].
  destruct (negb (is_none _)); [by simplify_eq|]. destruct (latest_row db) as [row|]; [|by simplify_eq].
  destruct (decode_config _) as [cur|e]; [|by simplify_eq]. destruct (negb _); [by simplify_eq|].
  destruct (encode_config _) as [data|e] eqn:Ee; [|by simplify_eq]. injection Hq as <- <-. exists data. split; [done|]. split; [done|]. by eexists.
Qed.

Lemma offline_kept old target db r db' : WellKept db -> commit_offline_migration old target db = (r, db') -> WellKept db'.
Proof.
  intros Hk Hq. unfold commit_offline_migration in Hq.
  destruct (match decode_config target with Ok _ => _ | Err e => Err e end) as [cfg|e]; [|by simplify_eq].
  destruct (latest_row db) as [row|] eqn:El; [|by simplify_eq]. destruct (_ && _); [by simplify_eq|].
  destruct (negb (rv_row row =? oc_revision old)) eqn:Er; cbn [orb] in Hq; [by simplify_eq|]. destruct (rv_config_json row <>s oc_json old); [by simplify_eq|].
  injection Hq as _ <-. apply WellKept_auth. destruct (latest_row_max db row El) as [Hin Hmax]. apply WellKept_revisions; [done| |].
  - apply NoDup_snoc_map; [apply Hk|]. cbn. intros Hx. apply list_elem_of_fmap_1 in Hx as (y & Hy & Hyin). pose proof (Hmax y Hyin). cbn in Hy. lia.
  - intros y Hy. apply elem_of_app in Hy as [Hy|Hy]; [pose proof (wk_sequence db Hk y Hy); cbn; lia|].
    apply list_elem_of_singleton in Hy as ->. cbn. lia.
Qed.

Lemma recovery_spec current next hash clear now id_now snap_now db r db' :
  recovery_save_config current next hash clear now id_now snap_now db = (r, db') ->
  match r with
  | Ok _ => exists s data a, sn_id s ∉ map sn_id (db_snapshots db) /\ is_manual s = false
      /\ db' = set_auth (pruned_revisions (insert_revision (rfc3339 now) data (set_snapshots db (prune_automatic_snapshots (db_snapshots db ++ [s]))))) a
  | Err _ => db' = db
  end.
Proof.
  unfold recovery_save_config. intros Hq.
  destruct (match map_err _ (validation_error (validate current)) with Ok _ => _ | Err e => Err e end) as [[cd nd]|e]; [|by simplify_eq].
  destruct (insert_snapshot _ db) as [[[]|e] db1] eqn:Ei; [|by simplify_eq]. apply insert_snapshot_spec in Ei as [Hid ->].
  injection Hq as <- <-.
  destruct hash; eexists _, nd, _; (split; [exact Hid|]); (split; [reflexivity|]); reflexivity.
Qed.

Lemma recovery_kept current next hash clear now id_now snap_now db r db' : WellKept db ->
  recovery_save_config current next hash clear now id_now snap_now db = (r, db') -> WellKept db'.
Proof.
  intros Hk Hq. apply recovery_spec in Hq. destruct r as [s0|e]; [|by subst]. destruct Hq as (s & data & a & Hid & Hm & ->).
  apply WellKept_auth, saved_rows. by apply (snapshots_kept db s SNAPSHOT_KIND_AUTOMATIC).
Qed.

(** ** Histories of the store *)
Inductive StoreOp :=
  | OInitialise (now : Time)
  | OSave (cfg : SystemConfig)
  | OSetup (cfg : SystemConfig) (hash : string) (now : Time)
  | OSnapshot (cfg : SystemConfig) (entropy : result (list Z) error) (now : Time)
  | OManual (cfg : SystemConfig) (label : string) (entropy : result (list Z) error) (now : Time)
  | ODelete (id : string)
  | OAudit (event_type actor : string) (details : list (string * string)) (random : result string error) (now exported : Time)
  | OMaintain
  | OReset (hash : string) (disable_totp : bool)
  | ORecover (current next : SystemConfig) (hash : option string) (clear : bool) (now id_now snap_now : Time)
  | OOperation (data : result string error)
  | OOffline (old : OfflineConfig) (target : string)
  | OAuth (f : AuthDb -> AuthDb).
Definition store_exec (op : StoreOp) (db : StoreDb) : bool * StoreDb :=
  let done {A} (x : result A error * StoreDb) := (is_ok (fst x), snd x) in
  match op with
  | OInitialise now => done (initialise now db)
  | OSave cfg => done (save_config cfg db)
  | OSetup cfg hash now => done (commit_initial_setup cfg hash now db)
  | OSnapshot cfg entropy now => done (create_snapshot cfg entropy now db)
  | OManual cfg label entropy now => done (create_manual_snapshot cfg label entropy now db)
  | ODelete id => done (delete_snapshot id db)
  | OAudit ty actor details random now exported => done (append_audit_event ty actor details random now exported db)
  | OMaintain => (true, maintain_storage db)
  | OReset hash disable => (true, recovery_reset_authentication hash disable db)
  | ORecover current next hash clear now id_now snap_now => done (recovery_save_config current next hash clear now id_now snap_now db)
  | OOperation data => done (save_recovery_operation data db)
  | OOffline old target => done (commit_offline_migration old target db)
  | OAuth f => (true, set_auth db (f (db_auth db)))
  end.

(** From the tables the first start creates *)
Inductive store_run : StoreDb -> Prop :=
  | store_fresh a : store_run (mkStore 0 [] [] [] None None a)
  | store_next db op : store_run db -> store_run (snd (store_exec op db)).

Lemma store_exec_kept op db : WellKept db -> WellKept (snd (store_exec op db)).
Proof.
  intros Hk. destruct op; cbn [store_exec snd fst].
  - unfold initialise. destruct (db_revisions db); [|done]. destruct (save_config _ db) as [r db'] eqn:E. by eapply save_config_kept.
  - destruct (save_config cfg db) as [r db'] eqn:E. by eapply save_config_kept.
  - destruct (commit_initial_setup cfg hash now db) as [r db'] eqn:E. apply setup_spec in E. destruct r as [[]|e]; [|by subst].
    destruct E as (data & _ & _ & a & ->). by apply WellKept_auth, inserted_rows.
  - destruct (create_snapshot cfg entropy now db) as [r db'] eqn:E. by eapply create_snapshot_kept.
  - unfold create_manual_snapshot. destruct (validate_snapshot_label _); [|done].
    destruct (create_snapshot_kind _ _ _ _ _ db) as [r db'] eqn:E. by eapply create_snapshot_kept.
  - destruct (delete_snapshot id db) as [r db'] eqn:E. by eapply delete_snapshot_kept.
  - destruct (append_audit_event _ _ _ _ _ _ db) as [r db'] eqn:E. by eapply append_event_kept.
  - by apply maintain_kept.
  - by apply (WellKept_auth (set_auth db _)), WellKept_auth.
  - destruct (recovery_save_config _ _ _ _ _ _ _ db) as [r db'] eqn:E. by eapply recovery_kept.
  - unfold save_recovery_operation. destruct data as [text|e]; [|done]. destruct (_ <? _); [done|by apply WellKept_recovery].
  - destruct (commit_offline_migration old target db) as [r db'] eqn:E. by eapply offline_kept.
  - by apply WellKept_auth.
Qed.

Lemma store_run_kept db : store_run db -> WellKept db.
Proof.
  induction 1 as [a|db op Hr IH]; [|by apply store_exec_kept].
  split; cbn; try apply NoDup_nil_2; try (cbv; lia). intros r Hr. by apply elem_of_nil in Hr.
Qed.

(** *** Snapshots of one kind against those of the other *)
Lemma snapshot_dropped db s kind x : WellKept db -> sn_id s ∉ map sn_id (db_snapshots db) -> is_manual s = (kind =s SNAPSHOT_KIND_MANUAL) ->
  x ∈ db_snapshots db -> x ∉ prune_snapshots kind (db_snapshots db ++ [s]) ->
  is_manual x = (kind =s SNAPSHOT_KIND_MANUAL)
  /\ exists newer, NoDup newer /\ List.length newer = SNAPSHOT_RETENTION_PER_KIND
      /\ forall y, y ∈ newer -> y ∈ prune_snapshots kind (db_snapshots db ++ [s]) /\ is_manual y = is_manual x /\ snapshot_as_new x y.
Proof.
  intros Hk Hid Hkind Hx Hdrop. assert (Hnd : NoDup (map sn_id (db_snapshots db ++ [s]))) by (apply NoDup_snoc_map; [apply Hk|done]).
  assert (Hin : x ∈ db_snapshots db ++ [s]) by (apply elem_of_app; by left).
  unfold prune_snapshots in *. destruct (kind =s SNAPSHOT_KIND_MANUAL).
  - destruct (prune_dropped snapshot_key _ snapshot_cmp snapshot_cmp_key sn_id is_manual SNAPSHOT_RETENTION_PER_KIND _ x Hnd Hin Hdrop)
      as (Hm & Hlen & Hnew & Hall). split; [done|]. eexists. split; [exact Hnew|]. split; [done|]. intros y Hy. destruct (Hall y Hy) as (? & ? & ?).
    split; [done|]. split; [congruence|done].
  - destruct (prune_dropped snapshot_key _ snapshot_cmp snapshot_cmp_key sn_id automatic SNAPSHOT_RETENTION_PER_KIND _ x Hnd Hin Hdrop)
      as (Hm & Hlen & Hnew & Hall). apply negb_true_iff in Hm. split; [done|]. eexists. split; [exact Hnew|]. split; [done|]. intros y Hy.
    destruct (Hall y Hy) as (? & Hy2%negb_true_iff & ?). split; [done|]. split; [congruence|done].
Qed.
End Store.

(** C21: The store stays within its bounds in every history: at most twenty
    automatic and twenty manual restore points, five thousand audit events of
    which at most a thousand are request rejections, unique row, snapshot and
    event identifiers, and row numbers within the sequence. *)
Theorem store_stays_bounded {UC : Unicode} {B64 : Base64} {CC : ConfigCodec} {TT : TimeText} {SH : Sha256} (db : StoreDb) :
  store_run db -> WellKept db.
Proof. apply store_run_kept. Qed.

(** Rejected requests cannot flush the audit log.  An event that is not a
    request rejection leaves the log only when at least four thousand events
    that are not rejections either, all at least as new, stay in it, whatever
    is appended. *)
Theorem rejections_never_flush_the_log {UC : Unicode} {B64 : Base64} {CC : ConfigCodec} {TT : TimeText} {SH : Sha256} (db db' : StoreDb) (r : result unit error)
    (event_type actor : string) (details : list (string * string)) (random : result string error) (now exported : Time) (x : AuditRow) :
  store_run db -> append_audit_event event_type actor details random now exported db = (r, db') ->
  x ∈ db_events db -> is_high_volume_audit_event (ev_type x) = false ->
  x ∈ db_events db' \/ exists newer, NoDup newer /\ (4000 <= List.length newer)%nat
    /\ forall y, y ∈ newer -> y ∈ db_events db' /\ is_high_volume_audit_event (ev_type y) = false /\ event_as_new x y.
Proof.
  intros Hr%store_run_kept Hq Hx Hh. apply append_event_spec in Hq. destruct r as [[]|e]; [|by left; subst].
  destruct (list_elem_of_dec x (db_events db')) as [Hin|Hdrop]; [by left|right].
  destruct Hq as (e & marker & _ & Hid & ->). apply (ordinary_dropped (db_events db) e x); try done; apply Hr.
Qed.

(** A restore point is displaced only by twenty newer ones of its own kind.
    Taking a snapshot removes at most snapshots of the same kind, manual or
    automatic, and one it removes is older than the twenty of that kind that
    remain; in particular automatic restore points never displace manual ones. *)
Theorem snapshots_displace_their_kind {UC : Unicode} {B64 : Base64} {CC : ConfigCodec} {TT : TimeText} {SH : Sha256} (db db' : StoreDb)
    (r : result Snapshot error) (cfg : SystemConfig) (kind label : string) (entropy : result (list Z) error) (now : Time) (x : Snapshot) :
  store_run db -> create_snapshot_kind cfg kind label entropy now db = (r, db') -> x ∈ db_snapshots db ->
  x ∈ db_snapshots db' \/ is_manual x = (kind =s SNAPSHOT_KIND_MANUAL)
  /\ exists newer, NoDup newer /\ List.length newer = SNAPSHOT_RETENTION_PER_KIND
      /\ forall y, y ∈ newer -> y ∈ db_snapshots db' /\ is_manual y = is_manual x /\ snapshot_as_new x y.
Proof.
  intros Hr%store_run_kept Hq Hx. apply create_snapshot_spec in Hq. destruct r as [s|e]; [|by left; subst].
  destruct (list_elem_of_dec x (db_snapshots db')) as [Hin|Hdrop]; [by left|right].
  destruct Hq as (data & _ & Hid & _ & ->). eapply snapshot_dropped; try done.
Qed.

(** A restore point reads back as it was taken.  When a snapshot was stored
    and no snapshot of its kind is newer, reading it gives the exact text of
    the configuration and passes the integrity check. *)
Theorem snapshot_reads_back {UC : Unicode} {B64 : Base64} {CC : ConfigCodec} {TT : TimeText} {SH : Sha256} (db db' : StoreDb) (s : Snapshot)
    (cfg : SystemConfig) (kind label : string) (entropy : result (list Z) error) (now : Time) :
  (forall l, List.length (sha256 l) = 32%nat /\ Forall (fun b => 0 <= b < 256) (sha256 l)) ->
  store_run db -> create_snapshot_kind cfg kind label entropy now db = (Ok s, db') ->
  (forall x, x ∈ db_snapshots db -> is_manual x = (kind =s SNAPSHOT_KIND_MANUAL) -> ~ snapshot_as_new (mkSnapshot (sn_id s) (sn_revision s) (sn_created_at s) EmptyString EmptyString EmptyString EmptyString) x) ->
  exists data, encode_config cfg = Ok data
    /\ get_snapshot (sn_id s) db' = Ok (mkSnapshot (sn_id s) (c_revision cfg) (sn_created_at s) (sn_checksum s) kind label data).
Proof.
  intros Hsha Hr%store_run_kept Hq Hnew. apply create_snapshot_spec in Hq. destruct Hq as (data & He & Hid & Hs & ->). exists data. split; [done|].
  set (row := mkSnapshot (sn_id s) (c_revision cfg) (rfc3339 now) (checksum_of data) kind label data) in *.
  assert (Hnd : NoDup (map sn_id (db_snapshots db ++ [row]))) by (apply NoDup_snoc_map; [apply Hr|done]).
  assert (Hin : row ∈ prune_snapshots kind (db_snapshots db ++ [row])).
  { assert (Hrow : row ∈ db_snapshots db ++ [row]) by (apply elem_of_app; right; by apply list_elem_of_singleton).
    assert (Hfirst : forall y, y ∈ db_snapshots db ++ [row] -> is_manual y = (kind =s SNAPSHOT_KIND_MANUAL) -> y <> row -> ~ snapshot_as_new row y).
    { intros y Hy Hm Hne. apply elem_of_app in Hy as [Hy|Hy]; [|by apply list_elem_of_singleton in Hy]. intros Has. apply (Hnew y Hy Hm).
      rewrite Hs. exact Has. }
    unfold prune_snapshots. destruct (kind =s SNAPSHOT_KIND_MANUAL) eqn:Ek.
    - apply (prune_first snapshot_key _ snapshot_cmp snapshot_cmp_key); [done|done|cbv; lia|]. intros y Hy Hm. by apply Hfirst.
    - apply (prune_first snapshot_key _ snapshot_cmp snapshot_cmp_key); [done|done|cbv; lia|]. intros y Hy Hm%negb_true_iff. by apply Hfirst. }
  unfold get_snapshot. cbn [db_snapshots set_snapshots].
  assert (Hf : List.find (fun x => sn_id x =s sn_id s) (prune_snapshots kind (db_snapshots db ++ [row])) = Some row).
  { destruct (List.find _ _) as [x|] eqn:Ef.
    - apply find_some in Ef as [Hx Heq]. apply String.eqb_eq in Heq. f_equal. apply list_elem_of_In in Hx.
      assert (Hsub : forall z, z ∈ prune_snapshots kind (db_snapshots db ++ [row]) -> z ∈ db_snapshots db ++ [row]).
      { intros z Hz. unfold prune_snapshots in Hz. destruct (kind =s SNAPSHOT_KIND_MANUAL); (eapply sublist_subseteq; [|exact Hz]); apply bfilter_sublist. }
      by apply (NoDup_id_inj sn_id (db_snapshots db ++ [row])); auto.
    - pose proof (find_none _ _ Ef row (proj1 (list_elem_of_In _ _) Hin)) as Hc. cbn in Hc. by rewrite String.eqb_refl in Hc. }
  rewrite Hf. cbn [sn_checksum sn_config_json row]. unfold checksum_of. destruct (Hsha (bytes_of data)) as [Hl Hb].
  rewrite hex_encode_decode by done. rewrite Hl, bool_decide_true by done. cbn. by rewrite Hs.
Qed.

(** The first set-up is all or nothing.  It succeeds only while there is no
    administrator, on a valid configuration whose revision follows the stored
    one; then a restart would load that configuration with the time of the
    set-up, the administrator has the given password hash at the first
    generation and nobody is signed in.  When it fails nothing has changed. *)
Theorem initial_setup_is_atomic {UC : Unicode} {B64 : Base64} {CC : ConfigCodec} {TT : TimeText} {SH : Sha256} (db db' : StoreDb)
    (cfg : SystemConfig) (hash : string) (now : Time) (r : result unit error) :
  store_run db -> commit_initial_setup cfg hash now db = (r, db') ->
  match r with
  | Err _ => db' = db
  | Ok _ =>
      validate cfg = Ok tt /\ db_credentials (db_auth db) = None
      /\ (exists row current, latest_row db = Some row /\ decode_config (rv_config_json row) = Ok current /\ c_revision cfg = c_revision current + 1)
      /\ (exists data, encode_config (with_updated_at cfg now) = Ok data
            /\ latest_row db' = Some (mkRevision (db_sequence db + 1) (rfc3339 now) data))
      /\ db_credentials (db_auth db') = Some (mkCredentials hash 1 None) /\ db_sessions (db_auth db') = ∅
  end.
Proof.
  intros Hr%store_run_kept Hq. unfold commit_initial_setup, validation_error in Hq.
  destruct (validate cfg) as [[]|e]; cbn [map_err] in Hq; [|by simplify_eq].
  destruct (db_credentials (db_auth db)) eqn:Ec; cbn [is_none negb] in Hq; [by simplify_eq|].
  destruct (latest_row db) as [row|] eqn:El; [|by simplify_eq].
  destruct (decode_config _) as [cur|e] eqn:Ed; [|by simplify_eq]. case_bool_decide as Hrev; cbn [negb] in Hq; [|by simplify_eq].
  destruct (encode_config _) as [data|e] eqn:Ee; [|by simplify_eq]. injection Hq as <- <-.
  split; [done|]. split; [done|]. split; [|split; [|done]].
  - exists row, cur. split; [done|]. split; [done|]. unfold checked_next in Hrev. destruct (_ <? _); by simplify_eq.
  - exists data. split; [done|]. apply (latest_inserted db), Hr.
Qed.
