(* ===== verification/EngineStore.v ===== *)
(** * The canonical configuration is durable

    The engine retains the canonical configuration in memory and in the store.
    [StoreContract] says what the engine may expect of a store; the theorem is
    proved against it, and [Store] is shown to meet it. *)

From Stdlib Require Import ZArith Ascii String Lia Bool.
From stdpp Require Import base list strings gmap.
From S2P Require Import Prelude GoStrings Net NetSpec GoTime Json Model Validation ValidationSpec Policy PolicySpec Firmware FirmwareSpec Auth AuthStore Samples Ipc Safety Engine EngineSpec EngineInv EngineReach Store StoreSpec.

Local Open Scope string_scope.
Local Open Scope Z_scope.
Local Open Scope list_scope.

(** [holds c w]: a restart in the world [w] would load [c]. *)
Class StoreContract (W : Type) {E : Env W} := {
  holds : SystemConfig -> W -> Prop;
  sc_has : has_store = true;
  sc_save c0 c w r w' : holds c0 w -> store_save c w = (r, w') -> holds (if is_ok r then c else c0) w';
  sc_snapshot c0 c w : holds c0 w -> holds c0 (snd (store_snapshot c w));
  sc_audit c0 k d w : holds c0 w -> holds c0 (store_audit k d w);
  sc_client c0 d req w : holds c0 w -> holds c0 (snd (client_apply d req w));
  sc_clock c0 w : holds c0 w -> holds c0 (snd (clock_now w));
  sc_instant c0 w : holds c0 w -> holds c0 (snd (instant_now w));
  sc_leases c0 w : holds c0 w -> holds c0 (snd (observe_leases w));
}.

Section Durable.
Context {UC : Unicode} {B64 : Base64} {G : Generators} {W : Type} {E : Env W} {SC : StoreContract W}.

(** The engine and the store agree on [c]. *)
Definition agree (c : SystemConfig) (s : Sys W) : Prop := st_current_config (s_st s) = c /\ holds c (s_world s).
Definition retains (c : SystemConfig) {A} (m : M W A) : Prop := forall s, agree c s -> agree c (snd (m s)).

Lemma retains_bind c {A B} (m : M W A) (k : A -> M W B) : retains c m -> (forall a, retains c (k a)) -> retains c (bind m k).
Proof. intros Hm Hk s Hs. unfold bind. specialize (Hm s Hs). destruct (m s) as [a s']. by apply Hk. Qed.
Lemma retains_ret c {A} (a : A) : retains c (ret a).
Proof. by intros s. Qed.
Lemma retains_get_st c : retains c get_st.
Proof. by intros s. Qed.
Lemma retains_tx_get c r : retains c (tx_get r).
Proof. by intros s. Qed.
Lemma retains_tx_new c t : retains c (tx_new t).
Proof. by intros s [H1 H2]. Qed.
Lemma retains_tx_modify c r f : retains c (tx_modify r f).
Proof. by intros s [H1 H2]. Qed.
Lemma retains_modify_st c f : (forall e, st_current_config (f e) = st_current_config e) -> retains c (modify_st f).
Proof. intros Hf s [H1 H2]. split; [|done]. cbn. by rewrite Hf. Qed.
Lemma retains_set_current c : retains c (modify_st (set_current c)).
Proof. by intros s [H1 H2]. Qed.
Lemma retains_lift c {A} (f : W -> A * W) : (forall w, holds c w -> holds c (snd (f w))) -> retains c (lift f).
Proof. intros Hf s [H1 H2]. unfold lift. specialize (Hf (s_world s) H2). by destruct (f (s_world s)) as [a w]. Qed.
Lemma retains_if c {A} (b : bool) (m m' : M W A) : retains c m -> retains c m' -> retains c (if b then m else m').
Proof. by destruct b. Qed.
Lemma retains_set_tx c tx st err : retains c (set_tx tx st err).
Proof. apply retains_tx_modify. Qed.

Lemma retains_attempts c n d req last : retains c (apply_attempts n d req last).
Proof.
  revert last. induction n as [|n IH]; intros last; cbn [apply_attempts]; [apply retains_ret|].
  apply retains_bind; [apply retains_lift, sc_instant|]. intros t. apply retains_if; [apply retains_ret|].
  apply retains_bind; [apply retains_lift; intros w; apply sc_client|]. intros [resp|e]; [|apply IH].
  destruct (response_validate resp); apply retains_ret.
Qed.
Lemma retains_audit c r previous phase : retains c (audit_transaction r previous phase).
Proof.
  unfold audit_transaction. apply retains_if; [apply retains_ret|]. apply retains_bind; [apply retains_tx_get|]. intros t.
  apply retains_bind; [apply retains_if; [|apply retains_ret]|intros _]; apply retains_lift; intros w; apply sc_audit.
Qed.
End Durable.

Create HintDb retains discriminated.
#[export] Hint Resolve retains_ret retains_get_st retains_tx_get retains_tx_new retains_tx_modify retains_set_current retains_set_tx retains_attempts
  retains_audit sc_clock sc_instant sc_leases sc_snapshot : retains.
(** One construct of a handler at a time *)
Ltac retains_step :=
  match goal with
  | |- retains _ (bind _ _) => apply retains_bind; [|intros ?]
  | |- retains _ (modify_st (set_current _)) => apply retains_set_current
  | |- retains _ (modify_st _) => apply retains_modify_st; intros ?; reflexivity
  | |- retains _ (lift _) => apply retains_lift; intros ? ?; auto with retains
  | |- retains _ (if ?b then _ else _) => destruct b
  | |- retains _ (match ?x with _ => _ end) => destruct x
  | |- retains _ (let '(_, _) := ?x in _) => destruct x
  | |- retains _ _ => solve [auto with retains]
  end.
Ltac retains_run := repeat (cbv beta zeta; retains_step).

Section Handlers.
Context {UC : Unicode} {B64 : Base64} {G : Generators} {W : Type} {E : Env W} {SC : StoreContract W}.

Lemma retains_privileged c timeout req : retains c (privileged timeout req).
Proof. unfold privileged, apply_privileged. retains_run. Qed.
Lemma retains_fail_recovery c tx msg err : retains c (fail_recovery tx msg err).
Proof. unfold fail_recovery. retains_run. Qed.
Lemma retains_modify_pending c f : retains c (modify_pending f).
Proof. unfold modify_pending. retains_run. Qed.
#[local] Hint Resolve retains_privileged retains_fail_recovery retains_modify_pending : retains.

Lemma retains_undo c tx id err : retains c (undo_uncommitted tx id err).
Proof. unfold undo_uncommitted. retains_run. Qed.
Lemma retains_await c tx current t : retains c (await_confirmation tx current t).
Proof. unfold await_confirmation. retains_run. Qed.
Lemma retains_admission c current cfg allow : retains c (admission_checks current cfg allow).
Proof. unfold admission_checks. retains_run. Qed.
Lemma retains_handshake c tx id p candidate : retains c (confirm_handshake tx id p candidate).
Proof. unfold confirm_handshake. retains_run. Qed.
Lemma retains_ack c tx id n candidate : retains c (confirm_ack tx id n candidate).
Proof. unfold confirm_ack. retains_run. Qed.
Lemma retains_finalize c tx id previous candidate : retains c (confirm_finalize tx id previous candidate).
Proof. unfold confirm_finalize. retains_run. Qed.
Lemma retains_rollback_attempt c tx id previous n : retains c (rollback_attempt tx id previous n).
Proof. unfold rollback_attempt. retains_run. Qed.
#[local] Hint Resolve retains_undo retains_await retains_admission retains_handshake retains_ack retains_finalize retains_rollback_attempt : retains.

Lemma retains_rollback c id : retains c (rollback_expired id).
Proof. unfold rollback_expired. retains_run. Qed.
Lemma retains_settle c p : retains c (settle_pending p).
Proof. unfold settle_pending. retains_run. Qed.
#[local] Hint Resolve retains_settle : retains.
Lemma retains_reconcile c d : retains c (reconcile d).
Proof. unfold reconcile, apply_privileged. retains_run. Qed.
Lemma retains_temporary c req : retains c (apply_temporary_runtime req).
Proof. unfold apply_temporary_runtime. retains_run. Qed.
#[local] Hint Resolve retains_temporary : retains.
Lemma retains_qos c f : (forall w, holds c w -> holds c (snd (f w))) -> retains c (with_qos_bypassed f).
Proof. intros Hf. unfold with_qos_bypassed, qos_restore, qos_report. retains_run. Qed.
Lemma retains_confirm_tail c tx id previous : retains c (confirm_tail tx id previous c).
Proof. unfold confirm_tail, and_then. retains_run. Qed.

(** ** Handlers that may commit *)
Definition moves {A} (m : M W A) : Prop := forall c s, agree c s -> exists c', agree c' (snd (m s)).
Definition lawful (f : SystemConfig -> W -> result unit error * W) : Prop :=
  forall c0 c w r w', holds c0 w -> f c w = (r, w') -> holds (if is_ok r then c else c0) w'.

Lemma moves_keeps {A} (m : M W A) : (forall c, retains c m) -> moves m.
Proof. intros Hk c s Hs. exists c. by apply Hk. Qed.
Lemma moves_bind {A B} (m : M W A) (k : A -> M W B) : moves m -> (forall a, moves (k a)) -> moves (bind m k).
Proof. intros Hm Hk c s Hs. unfold bind. destruct (Hm c s Hs) as [c' Hc]. destruct (m s) as [a s']. by eapply Hk. Qed.

Lemma moves_commit {A} f new (err : error -> M W A) (ok : M W A) : lawful f -> (forall e c, retains c (err e)) -> retains new ok ->
  moves (let* r := lift (f new) in match r with Err e => err e | Ok _ => modify_st (set_current new);; ok end).
Proof.
  intros Hf He Hok c s [H1 H2]. unfold bind, lift. destruct (f new (s_world s)) as [r w'] eqn:Ef. cbn.
  pose proof (Hf c new (s_world s) r w' H2 Ef) as Hh. destruct r as [[]|e]; cbn in Hh |- *.
  - exists new. apply Hok. by split.
  - exists c. apply He. by split.
Qed.

Lemma moves_commit_applied tx id new f defer : lawful f -> moves (commit_applied tx id new (Some f) defer).
Proof.
  intros Hf. unfold commit_applied. apply (moves_commit f new (undo_uncommitted tx id)); [done|intros; auto with retains|]. retains_run.
Qed.

Lemma moves_apply_candidate tx id current new req allow f : lawful f -> moves (apply_candidate tx id current new req allow (Some f)).
Proof.
  intros Hf. unfold apply_candidate. apply moves_bind; [apply moves_keeps; intros c; retains_run|intros now].
  apply moves_bind; [apply moves_keeps; intros c; auto with retains|]. intros [resp|err]; [|apply moves_keeps; intros c; auto with retains].
  destruct (negb (resp_success resp)); [apply moves_keeps; intros c; retains_run|].
  apply moves_bind; [apply moves_keeps; intros c; retains_run|intros _].
  destruct (negb (resp_verified resp)); [apply moves_keeps; intros c; auto with retains|].
  do 2 (apply moves_bind; [apply moves_keeps; intros c; retains_run|intros _]).
  destruct (_ && _); [apply moves_keeps; intros c; auto with retains|by apply moves_commit_applied].
Qed.

Lemma store_save_lawful : lawful store_save.
Proof. intros c0 c w r w'. apply sc_save. Qed.

Lemma moves_process_locked tx id cfg allow commit : (forall f, commit = Some f -> lawful f) -> moves (process_locked tx id cfg allow commit).
Proof.
  intros Hc. unfold process_locked. rewrite sc_has. apply moves_bind; [apply moves_keeps; auto with retains|intros st].
  destruct (admission_guards _ _ _) as [[state msg]|]; [apply moves_keeps; intros c; retains_run|].
  apply moves_bind; [apply moves_keeps; auto with retains|]. intros [[msg err]|]; [apply moves_keeps; intros c; retains_run|].
  destruct (next_revision _) as [rev|]; [|apply moves_keeps; intros c; retains_run].
  apply moves_bind; [apply moves_keeps; intros c; retains_run|intros now].
  do 2 (apply moves_bind; [apply moves_keeps; intros c; retains_run|intros _]).
  destruct (build_apply_request _ _) as [req|[what err]]; [|apply moves_keeps; intros c; retains_run].
  apply moves_bind; [apply moves_keeps; intros c; retains_run|intros _]. apply moves_bind; [apply moves_keeps; intros c; retains_run|].
  intros [u|err]; [|apply moves_keeps; intros c; retains_run]. apply moves_bind; [apply moves_keeps; intros c; retains_run|intros _].
  destruct commit as [f|]; apply moves_apply_candidate; [by apply Hc|apply store_save_lawful].
Qed.

Lemma moves_process id cfg allow commit : (forall f, commit = Some f -> lawful f) -> moves (process id cfg allow commit).
Proof.
  intros Hc. unfold process. repeat (apply moves_bind; [first [by apply moves_process_locked|apply moves_keeps; intros c; retains_run]|intros ?]).
  apply moves_keeps; intros c; retains_run.
Qed.

(** A confirmation: the candidate becomes canonical in both, or nothing does. *)
Lemma confirm_commit_agrees tx candidate c s : agree c s ->
  agree (if is_ok (fst (confirm_commit tx candidate s)) then candidate else c) (snd (confirm_commit tx candidate s)).
Proof.
  intros [H1 H2]. unfold confirm_commit. rewrite sc_has. unfold bind, lift. destruct (store_save candidate (s_world s)) as [r w'] eqn:Es. cbn.
  pose proof (sc_save c candidate (s_world s) r w' H2 Es) as Hh. destruct r as [[]|e]; by split.
Qed.

Lemma moves_confirm_locked tx id p s c : agree c s ->
  (p_canonical_committed p = true -> tx_config (nth tx (s_heap s) default_tx) = c) ->
  exists c', agree c' (snd (confirm_locked tx id p s)).
Proof.
  intros Ha Hp. unfold confirm_locked. change (bind (tx_get tx) ?k s) with (k (nth tx (s_heap s) default_tx) s). cbv beta zeta.
  set (candidate := tx_config (nth tx (s_heap s) default_tx)) in *. destruct (p_canonical_committed p); cbn [negb].
  - specialize (Hp eq_refl). exists c. unfold and_then, bind, ret. cbn [fst snd]. rewrite Hp. by apply retains_confirm_tail.
  - unfold and_then, bind. pose proof (retains_handshake c tx id p candidate s Ha) as H1.
    destruct (confirm_handshake tx id p candidate s) as [[[]|e] s1]; cbn in H1; [|by exists c].
    pose proof (confirm_commit_agrees tx candidate c s1 H1) as H2. destruct (confirm_commit tx candidate s1) as [[[]|e] s2]; cbn in H2; [|by exists c].
    exists candidate. by apply retains_confirm_tail.
Qed.

Lemma moves_confirm id s c : engine_inv s -> agree c s -> exists c', agree c' (snd (confirm_transaction id s)).
Proof.
  intros Hinv Ha. unfold confirm_transaction. change (bind get_st ?k s) with (k (s_st s) s). cbv beta zeta.
  destruct (st_pending (s_st s)) as [p|] eqn:Ep; [|by exists c]. change (bind (tx_get (p_tx p)) ?k s) with (k (nth (p_tx p) (s_heap s) default_tx) s).
  cbv beta. destruct (tx_id _ <>s id); [by exists c|]. destruct (ei_pending s Hinv p Ep) as [t [Htx _ Hcur _ _ _ _ _]].
  destruct (moves_confirm_locked (p_tx p) id p s c Ha) as [c' Hc].
  { intros Hq. rewrite Hq in Hcur. erewrite nth_lookup_Some by exact Htx. destruct Ha as [<- _]. congruence. }
  unfold bind at 1. destruct (confirm_locked (p_tx p) id p s) as [r s1]. exists c'. revert s1 Hc. cbn [snd].
  change (retains c' (audit_transaction (p_tx p) (c_revision (p_previous p)) "confirm";; let* snapshot := tx_get (p_tx p) in ret (Some snapshot, r))).
  retains_run.
Qed.

(** ** Runs *)
(** The engine over a store: the API commits through the store, or through a
    commit that behaves like it; measurements leave the store alone. *)
Inductive stored_step (commits : (SystemConfig -> W -> result unit error * W) -> Prop) (measurement : (W -> result unit error * W) -> Prop)
  : Sys W -> Sys W -> Prop :=
  | stored_process id cfg allow commit s : (forall f, commit = Some f -> commits f) ->
      stored_step commits measurement s (snd (process id cfg allow commit s))
  | stored_confirm id s : stored_step commits measurement s (snd (confirm_transaction id s))
  | stored_rollback id s : stored_step commits measurement s (snd (rollback_expired id s))
  | stored_reconcile deadline s : stored_step commits measurement s (snd (reconcile deadline s))
  | stored_qos f s : measurement f -> stored_step commits measurement s (snd (with_qos_bypassed f s)).
Inductive stored_run (commits : (SystemConfig -> W -> result unit error * W) -> Prop) (measurement : (W -> result unit error * W) -> Prop)
  (initial : SystemConfig) (w0 : W) : Sys W -> Prop :=
  | stored_boot : stored_run commits measurement initial w0 (mkSys (engine_new initial) [] w0)
  | stored_next s s' : stored_run commits measurement initial w0 s -> stored_step commits measurement s s' ->
      stored_run commits measurement initial w0 s'.

Lemma stored_reachable commits measurement initial w0 s : stored_run commits measurement initial w0 s -> reachable measurement initial w0 s.
Proof. induction 1 as [|s s' _ IH Hs]; [constructor|]. eapply reach_step; [exact IH|]. destruct Hs; by constructor. Qed.

Lemma stored_run_agrees commits measurement initial w0 s :
  (forall f, commits f -> lawful f) -> (forall f c w, measurement f -> holds c w -> holds c (snd (f w))) ->
  live_ok initial -> holds initial w0 -> stored_run commits measurement initial w0 s -> holds (st_current_config (s_st s)) (s_world s).
Proof.
  intros Hc Hm Hi H0 Hr. assert (Hag : exists c, agree c s); [|destruct Hag as [c [Hcur Hh]]; by rewrite Hcur].
  induction Hr as [|s s' Hr IH Hs]; [by exists initial|]. destruct IH as [c Ha].
  pose proof (reachable_inv measurement initial w0 s Hi (stored_reachable _ _ _ _ _ Hr)) as Hinv.
  destruct Hs as [id cfg allow commit s Hf|id s|id s|d s|f s Hf].
  - apply (moves_process id cfg allow commit) with c; [|done]. intros f Hq. by apply Hc, Hf.
  - by apply moves_confirm with c.
  - exists c. by apply retains_rollback.
  - exists c. by apply retains_reconcile.
  - exists c. apply retains_qos; [|done]. intros w. by apply Hm.
Qed.
End Handlers.


(** ** The store meets the contract *)

(** Random identifiers, next to an environment that has everything but the store *)
Class Entropy (B : Type) := {
  snapshot_entropy : B -> result (list Z) error * B;
  event_random : B -> result string error * B;
}.
Record Stored (B : Type) := mkStored { base : B; db : StoreDb }.
Arguments mkStored {B} base db.
Arguments base {B} _.
Arguments db {B} _.

Section StoredWorld.
Context {UC : Unicode} {B64 : Base64} {G : Generators} {CC : ConfigCodec} {TT : TimeText} {SH : Sha256}.
Context {B : Type} {E0 : Env B} {N : Entropy B}.

Definition on_base {A} (f : B -> A * B) (w : Stored B) : A * Stored B := let '(a, b) := f (base w) in (a, mkStored b (db w)).
Definition take_snapshot (c : SystemConfig) (w : Stored B) : result unit error * Stored B :=
  let '(entropy, b) := snapshot_entropy (base w) in
  let '(now, b) := clock_now b in
  let '(r, d) := create_snapshot c entropy now (db w) in
  (match r with Ok _ => Ok tt | Err e => Err e end, mkStored b d).
Definition store_event (kind : string) (details : list (string * string)) (w : Stored B) : Stored B :=
  let '(random, b) := event_random (base w) in
  let '(now, b) := clock_now b in
  let '(exported, b) := clock_now b in
  mkStored b (snd (append_audit_event kind "local" details random now exported (db w))).
#[export] Instance stored_env : Env (Stored B) := {|
  client_apply d req := on_base (client_apply d req);
  has_store := true;
  store_save c w := let '(r, d) := save_config c (db w) in (r, mkStored (base w) d);
  store_snapshot := take_snapshot;
  store_audit := store_event;
  clock_now := on_base clock_now;
  instant_now := on_base instant_now;
  observe_leases := on_base observe_leases |}.
(** The commit of the first set-up *)
Definition setup_commit (hash : string) (c : SystemConfig) (w : Stored B) : result unit error * Stored B :=
  let '(now, b) := clock_now (base w) in
  let '(r, d) := commit_initial_setup c hash now (db w) in
  (r, mkStored b d).

(** What may differ between the canonical configuration and the stored one *)
Definition kept_as (restamped : bool) (c c' : SystemConfig) : Prop :=
  if restamped then exists t, c' = with_updated_at c t else c' = c.
Definition stores (restamped : bool) (c : SystemConfig) (w : Stored B) : Prop :=
  WellKept (db w) /\ validate c = Ok tt
  /\ exists row c', latest_row (db w) = Some row /\ kept_as restamped c c' /\ encode_config c' = Ok (rv_config_json row).

Lemma stores_on_base restamped c {A} (f : B -> A * B) w : stores restamped c w -> stores restamped c (snd (on_base f w)).
Proof. unfold on_base. by destruct (f (base w)). Qed.
Lemma stores_db restamped c b d w : WellKept d -> db_revisions d = db_revisions (db w) -> stores restamped c w -> stores restamped c (mkStored b d).
Proof. intros Hk Hr (_ & Hv & row & c' & Hl & Hc). split; [done|]. split; [done|]. exists row, c'. split; [|done]. unfold latest_row in *. cbn. by rewrite Hr. Qed.
Lemma kept_as_refl restamped c : kept_as restamped c c.
Proof. destruct restamped; [|done]. exists (c_updated_at c). by destruct c. Qed.

#[export] Instance stored_contract (restamped : bool) : StoreContract (Stored B).
Proof.
  refine {| holds := stores restamped |}; try done; try (intros; by apply stores_on_base).
  - intros c0 c w r w' Hw. cbn. destruct (save_config c (db w)) as [r0 d] eqn:Es. intros [= <- <-].
    apply save_config_spec in Es. destruct r0 as [[]|e]; cbn; [|subst; by eapply stores_db, Hw; [apply Hw|]].
    destruct Es as (data & Hv & He & ->). split; [apply saved_rows, Hw|]. split; [done|].
    eexists _, c. split; [apply latest_saved, Hw|]. split; [apply kept_as_refl|exact He].
  - intros c0 c w Hw. cbn. unfold take_snapshot. destruct (snapshot_entropy (base w)) as [en b1], (clock_now b1) as [now b2].
    destruct (create_snapshot c en now (db w)) as [r d] eqn:Ec. cbn. apply stores_db with w; [|..|done].
    + unfold create_snapshot in Ec. eapply create_snapshot_kept; [apply Hw|exact Ec].
    + unfold create_snapshot in Ec. apply create_snapshot_spec in Ec. destruct r as [s|e]; [|by subst]. by destruct Ec as (data & _ & _ & _ & ->).
  - intros c0 k dt w Hw. cbn. unfold store_event. destruct (event_random (base w)) as [rnd b1], (clock_now b1) as [now b2], (clock_now b2) as [ex b3].
    destruct (append_audit_event k "local" dt rnd now ex (db w)) as [r d] eqn:Ea. cbn. apply stores_db with w; [|..|done].
    + eapply append_event_kept; [apply Hw|exact Ea].
    + apply append_event_spec in Ea. destruct r as [[]|e]; [|by subst]. by destruct Ea as (e & m & _ & _ & ->).
Defined.

Lemma setup_lawful hash c0 c w r w' : stores true c0 w -> setup_commit hash c w = (r, w') -> stores true (if is_ok r then c else c0) w'.
Proof.
  intros Hw. unfold setup_commit. destruct (clock_now (base w)) as [now b]. destruct (commit_initial_setup c hash now (db w)) as [r0 d] eqn:Es.
  intros [= <- <-]. apply setup_spec in Es. destruct r0 as [[]|e]; cbn; [|subst; by eapply stores_db, Hw; [apply Hw|]].
  destruct Es as (data & Hv & He & a & ->). split; [apply WellKept_auth, inserted_rows, Hw|]. split; [done|].
  eexists _, (with_updated_at c now). split; [apply (latest_inserted (db w)), Hw|]. split; [by exists now|exact He].
Qed.
End StoredWorld.

(** ** Durability *)
Section Reload.
Context {UC : Unicode} {B64 : Base64} {G : Generators} {CC : ConfigCodec} {TT : TimeText} {SH : Sha256}.

(** The text of an acceptable configuration is read back as an acceptable
    configuration with that text. *)
Definition reads_back : Prop :=
  forall c t, validate c = Ok tt -> encode_config c = Ok t -> exists c', decode_config t = Ok c' /\ encode_config c' = Ok t /\ validate c' = Ok tt.

Lemma validate_restamped restamped c c' : kept_as restamped c c' -> validate c' = validate c.
Proof. destruct restamped; [|by intros ->]. by intros [t ->]. Qed.

Lemma stores_reloads {B : Type} restamped c (w : Stored B) : reads_back -> stores restamped c w ->
  exists loaded kept, get_latest_config (db w) = Ok loaded /\ kept_as restamped c kept /\ encode_config loaded = encode_config kept.
Proof.
  intros Hcodec (_ & Hv & row & kept & Hl & Hk & He). destruct (Hcodec kept (rv_config_json row)) as (c' & Hd & Ht & Hv'); [|done|].
  { by rewrite (validate_restamped _ _ _ Hk). }
  exists c', kept. split; [|split; [done|congruence]]. unfold get_latest_config. rewrite Hl, Hd. cbn.
  rewrite accepted_needs_no_migration by done. by rewrite Hv'.
Qed.
End Reload.

(** Commits and measurements of a run: the first set-up commits with the
    administrator's password; a measurement leaves the store alone. *)
Definition setup_commits {UC : Unicode} {B64 : Base64} {CC : ConfigCodec} {TT : TimeText} {B : Type} {E0 : Env B} (restamped : bool)
  (f : SystemConfig -> Stored B -> result unit error * Stored B) : Prop := restamped = true /\ exists hash, f = setup_commit hash.
Definition measures {B : Type} (f : Stored B -> result unit error * Stored B) : Prop := forall w, db (snd (f w)) = db w.

(** C6: The canonical configuration is durable.  In every run of the engine over
    the store (changes, confirmations, expiries, reconciliation, measurements,
    with whatever the helper answers), what a restart would load has exactly
    the text of the configuration the engine holds; when the first set-up is
    among the steps, that text up to its time stamp. *)
Theorem canonical_is_durable {UC : Unicode} {B64 : Base64} {G : Generators} {CC : ConfigCodec} {TT : TimeText} {SH : Sha256}
    {B : Type} {E0 : Env B} {N : Entropy B} (restamped : bool) (initial : SystemConfig) (w0 : Stored B) (s : Sys (Stored B)) :
  reads_back -> live_ok initial -> stores restamped initial w0 ->
  stored_run (setup_commits restamped) measures initial w0 s ->
  exists loaded kept, get_latest_config (db (s_world s)) = Ok loaded
    /\ kept_as restamped (st_current_config (s_st s)) kept /\ encode_config loaded = encode_config kept.
Proof.
  intros Hcodec Hi H0 Hr. apply stores_reloads; [done|].
  apply (stored_run_agrees (SC := stored_contract restamped) (setup_commits restamped) measures initial w0 s); try done.
  - intros f [-> [hash ->]] c0 c w r w'. apply setup_lawful.
  - intros f c w Hf Hw. destruct (f w) as [r [b d]] eqn:Ef. cbn. specialize (Hf w). rewrite Ef in Hf. cbn in Hf.
    eapply stores_db, Hw; [|by rewrite Hf]. rewrite Hf. apply Hw.
Qed.
