(* ===== verification/StoreRuns.v ===== *)
(** * Runs of the store, and of the engine over it

    A small codec and clock, the store on first use and after it, and the
    scripted helper of [Scenarios] with the store next to it. *)

From Stdlib Require Import ZArith Ascii String Lia Bool.
From stdpp Require Import base list strings gmap.
From S2P Require Import Prelude GoStrings Net GoTime Json Model Validation Policy PolicySpec Firmware Auth AuthStore Samples Ipc Safety Engine EngineSpec EngineInv EngineReach EngineSync Scenarios Store StoreSpec EngineStore.

Local Open Scope string_scope.
Local Open Scope Z_scope.
Local Open Scope list_scope.

Module Toy.
Definition epoch : Time := mkTime (1700000000 * SECOND) None.
(** The text names the revision. *)
Definition encode (c : SystemConfig) : result string error :=
  if c_revision c =? 1 then Ok "one" else if c_revision c =? 2 then Ok "two"
  else if c_revision c =? 7 then Ok "seven" else if c_revision c =? 8 then Ok "eight" else Err (Errorf "too large").
Definition decode (t : string) : result SystemConfig error :=
  if t =s "one" then Ok (with_revision sample 1 epoch) else if t =s "two" then Ok (with_revision sample 2 epoch)
  else if t =s "seven" then Ok (with_revision sample 7 epoch) else if t =s "eight" then Ok (with_revision sample 8 epoch)
  else Err (Errorf "expected value").
End Toy.
#[local] Instance toy_codec : ConfigCodec := {| encode_config := Toy.encode; decode_config := Toy.decode |}.
#[local] Instance toy_times : TimeText := {| rfc3339 t := show_Z (wall t); go_string t := show_Z (wall t) |}.
#[local] Instance toy_sha : Sha256 := fun _ => repeat 171 32.
#[local] Existing Instances ascii_tables rfc4648.

Lemma toy_reads_back : reads_back.
Proof.
  assert (Hv : forall r, validate (with_revision sample r Toy.epoch) = Ok tt) by (intros r; exact (proj1 sample_valid)).
  intros c t _. unfold encode_config, decode_config, toy_codec, Toy.encode.
  destruct (c_revision c =? 1); [|destruct (c_revision c =? 2); [|destruct (c_revision c =? 7); [|destruct (c_revision c =? 8)]]];
    intros [= <-]; (eexists; split; [reflexivity|]; split; [reflexivity|apply Hv]).
Qed.

(** ** The store *)
Definition empty_tables : StoreDb := mkStore 0 [] [] [] None None (mkDb None ∅ ∅).
Definition first_use : StoreDb := snd (store_exec (OInitialise Toy.epoch) empty_tables).
Lemma first_use_run : store_run first_use.
Proof. apply store_next, store_fresh. Qed.
Definition restore_point : StoreDb := snd (store_exec (OManual sample "before the move" (Ok [1; 2]) Toy.epoch) first_use).
Definition signed_in : StoreDb := snd (store_exec (OAudit "auth.login" "192.168.1.20" [] (Ok "AAAA") Toy.epoch Toy.epoch) restore_point).
Lemma signed_in_run : store_run signed_in.
Proof. apply (store_next restore_point), (store_next first_use), first_use_run. Qed.

Lemma store_stays_bounded_witness : WellKept signed_in /\ map ev_type (db_events signed_in) = ["auth.login"].
Proof. split; [apply (store_stays_bounded signed_in), signed_in_run|vm_compute; reflexivity]. Defined.

Definition login : AuditRow := mkAudit "audit-AAAA" "auth.login" "192.168.1.20" "1700000000000000000" "{}".
Lemma rejections_never_flush_the_log_witness :
  let db' := snd (append_audit_event "auth.unauthorized" "10.0.0.9" [] (Ok "BBBB") Toy.epoch Toy.epoch signed_in) in
  login ∈ db_events db' \/ exists newer : list AuditRow, NoDup newer /\ (4000 <= List.length newer)%nat.
Proof.
  destruct (rejections_never_flush_the_log signed_in _ _ "auth.unauthorized" "10.0.0.9" [] (Ok "BBBB") Toy.epoch Toy.epoch login
    signed_in_run (surjective_pairing _)) as [H|(l & H1 & H2 & _)]; [vm_compute; left|reflexivity|left; exact H|right; exists l; by split].
Defined.

Definition kept_point : Snapshot :=
  mkSnapshot "snap-1700000000000000000-0102" 7 "1700000000000000000" (checksum_of "seven") "manual" "before the move" "seven".
Lemma snapshots_displace_their_kind_witness :
  let db' := snd (create_snapshot_kind sample "automatic" "" (Ok [3]) Toy.epoch signed_in) in kept_point ∈ db_snapshots db'.
Proof.
  destruct (snapshots_displace_their_kind signed_in _ _ sample "automatic" "" (Ok [3]) Toy.epoch kept_point
    signed_in_run (surjective_pairing _)) as [H|[H _]]; [vm_compute; left|exact H|by vm_compute in H].
Defined.

Lemma snapshot_reads_back_witness :
  exists s db', create_snapshot_kind sample "automatic" "" (Ok [3]) Toy.epoch signed_in = (Ok s, db')
    /\ exists row, get_snapshot (sn_id s) db' = Ok row /\ encode_config sample = Ok (sn_config_json row).
Proof.
  eexists _, _. split; [vm_compute; reflexivity|].
  edestruct (snapshot_reads_back signed_in) with (cfg := sample) (kind := "automatic") (label := "") (entropy := @Ok (list Z) error [3]) (now := Toy.epoch)
    as (data & H1 & H2); [|apply signed_in_run|vm_compute; reflexivity| |eexists; split; [exact H2|exact H1]].
  - intros l. split; [reflexivity|]. by repeat constructor.
  - intros x Hx. vm_compute in Hx. apply list_elem_of_singleton in Hx as ->. by intros.
Defined.

Definition chosen : SystemConfig := with_revision sample 2 time_zero.
Definition set_up : result unit error * StoreDb := commit_initial_setup chosen "$argon2id$" Toy.epoch first_use.
Lemma initial_setup_is_atomic_witness : db_credentials (db_auth (snd set_up)) = Some (mkCredentials "$argon2id$" 1 None).
Proof.
  assert (Hok : commit_initial_setup chosen "$argon2id$" Toy.epoch first_use = (Ok tt, snd set_up)) by (vm_compute; reflexivity).
  destruct (initial_setup_is_atomic first_use (snd set_up) chosen "$argon2id$" Toy.epoch (Ok tt) first_use_run Hok) as (_ & _ & _ & _ & H & _).
  exact H.
Defined.

(** ** The engine over the store *)
#[local] Instance toy_entropy : Entropy World := {| snapshot_entropy w := (Ok [3], w); event_random w := (Ok "CCCC", w) |}.
Definition store_of_seven : StoreDb :=
  mkStore 4 [mkRevision 4 "1700000000000000000" "seven"] [] [] None None (mkDb None ∅ ∅).
Definition stored_world : Stored World := mkStored (mkWorld sample sample [] [] []) store_of_seven.
Lemma stored_world_holds : stores false sample stored_world.
Proof.
  split; [|split; [exact (proj1 sample_valid)|]].
  - split; cbn; try apply NoDup_nil_2; try (cbv; lia); [apply NoDup_singleton|].
    intros r Hr. apply list_elem_of_singleton in Hr as ->. cbn. lia.
  - eexists _, sample. split; [reflexivity|]. by split.
Qed.
Definition stored_boot_state : Sys (Stored World) := mkSys (engine_new sample) [] stored_world.
Definition stored_commit : Sys (Stored World) := snd (process "tx-1" renamed false None stored_boot_state).

(** The change was committed: both sides are at the next revision. *)
Example stored_commit_advances :
  c_revision (st_current_config (s_st stored_commit)) = 8 /\ map rv_config_json (db_revisions (db (s_world stored_commit))) = ["seven"; "eight"].
Proof. vm_compute. by split. Qed.

Lemma canonical_is_durable_witness :
  exists loaded, get_latest_config (db (s_world stored_commit)) = Ok loaded
    /\ encode_config loaded = encode_config (st_current_config (s_st stored_commit)).
Proof.
  destruct (canonical_is_durable false sample stored_world stored_commit toy_reads_back sample_live stored_world_holds) as (l & k & H1 & H2 & H3).
  - eapply stored_next; [apply stored_boot|]. apply stored_process. by intros.
  - exists l. split; [exact H1|]. cbn in H2. by rewrite H3, H2.
Defined.
