(* ===== verification/Nft.v ===== *)
(** * The rule language of the firewall

    The part of nftables' language the generator ([services/nftables.rs],
    [services/device_profiles.rs]) writes: a line of a chain is either text
    (comments, declarations, blank lines) or a rule, matches and a statement.
    [render_line] gives the text nft reads; [run] says what the kernel does with
    a packet: the first rule whose matches hold and that decides, decides.
    Operands keep the text the generator writes and are read here the way nft
    documents them: an address or a prefix, a port, an interface name that may
    end in a star. *)

From Stdlib Require Import ZArith Ascii String Lia Bool.
From stdpp Require Import base list strings gmap.
From S2P Require Import Prelude GoStrings Net.

Local Open Scope string_scope.
Local Open Scope Z_scope.
Local Open Scope list_scope.

(** ** Packets *)
Inductive CtState := CtNew | CtEstablished | CtRelated | CtInvalid.
#[export] Instance CtState_eq_dec : EqDecision CtState.
Proof. solve_decision. Defined.

Record Packet := mkPacket {
  pk_iif : string;
  pk_oif : string;
  pk_ipv4 : bool;
  pk_saddr : IP;
  pk_daddr : IP;
  pk_proto : string;
  pk_sport : Z;
  pk_dport : Z;
  pk_ct : CtState;
  (** a route back through the interface it came from; a local source address *)
  pk_routed : bool;
  pk_local : bool;
  (** the user of the sending socket *)
  pk_user : string;
  (** Sunday is day 0; seconds since midnight *)
  pk_day : Z;
  pk_time : Z;
  (** the rate limits that are exceeded, the destination sets it is in *)
  pk_over : string -> bool;
  pk_in_set : string -> bool;
}.

(** ** Rules *)
Inductive Port := PNum (n : Z) | PText (s : string).
Inductive Match :=
  | MIif (name : string)
  | MOif (name : string)
  | MOifIn (names : list string)
  | MSaddr (a : string)
  | MSaddrNot (a : string)
  | MSaddrIn (l : list string)
  | MSaddrNotIn (l : list string)
  | MDaddr (a : string)
  | MDaddrIn (l : list string)
  | MDaddrSet (set : string)
  | MDport (proto : string) (ports : list Port)
  | MSport (proto : string) (ports : list Port)
  | MWord (proto : string)
  | MIcmp
  | MCtNew
  | MCtInvalid
  | MCtKnown
  | MIpv6
  | MNoRoute
  | MNotLocal
  | MUser (u : string)
  | MDay (d : Z)
  | MHour (start end_ : string)
  | MMeter (name : string)
  | MLimit.
Inductive Statement :=
  | SAccept
  | SDrop
  | SReturn
  | SJump (chain : string)
  | SCount (counter : string) (accept : bool)
  | SCountDrop
  | SUpdate (set : string) (source : bool)
  | SClampMss
  | SDnat (to_ip : string) (to_port : Z)
  | SMasquerade.
Inductive Line :=
  | Text (s : string)
  | Rule (ms : list Match) (st : Statement).

(** ** Text *)
Definition dquote : string := String (byte_of 34) EmptyString.
Definition quoted (s : string) : string := dquote +:+ s +:+ dquote.
Definition braces (l : list string) : string := "{ " +:+ join ", " l +:+ " }".
Definition render_port (p : Port) : string := match p with PNum n => show_Z n | PText s => s end.
Definition render_ports (l : list Port) : string :=
  match l with [p] => render_port p | _ => braces (map render_port l) end.

Definition render_match (m : Match) : string :=
  match m with
  | MIif n => "iifname " +:+ quoted n
  | MOif n => "oifname " +:+ quoted n
  | MOifIn l => "oifname " +:+ braces l
  | MSaddr a => "ip saddr " +:+ a
  | MSaddrNot a => "ip saddr != " +:+ a
  | MSaddrIn l => "ip saddr " +:+ braces l
  | MSaddrNotIn l => "ip saddr != " +:+ braces l
  | MDaddr a => "ip daddr " +:+ a
  | MDaddrIn l => "ip daddr " +:+ braces l
  | MDaddrSet s => "ip daddr @" +:+ s
  | MDport proto l => proto +:+ " dport " +:+ render_ports l
  | MSport proto l => proto +:+ " sport " +:+ render_ports l
  | MWord w => w
  | MIcmp => "ip protocol icmp"
  | MCtNew => "ct state new"
  | MCtInvalid => "ct state invalid"
  | MCtKnown => "ct state established,related"
  | MIpv6 => "meta nfproto ipv6"
  | MNoRoute => "fib saddr . iif oif missing"
  | MNotLocal => "fib saddr type != local"
  | MUser u => "meta skuid " +:+ u
  | MDay d => "meta day " +:+ show_Z d
  | MHour s e => "meta hour " +:+ quoted s +:+ "-" +:+ quoted e
  | MMeter n => "meter " +:+ n +:+ " { ip saddr timeout 10s limit rate over 20/second burst 40 packets }"
  | MLimit => "limit rate over 30/second burst 60 packets"
  end.
Definition render_statement (st : Statement) : string :=
  match st with
  | SAccept => "accept"
  | SDrop => "drop"
  | SReturn => "return"
  | SJump c => "jump " +:+ c
  | SCount n a => "counter name " +:+ n +:+ (if a then " accept" else " drop")
  | SCountDrop => "counter drop"
  | SUpdate s source => "update @" +:+ s +:+ (if source then " { ip saddr }" else " { ip daddr }")
  | SClampMss => "tcp flags syn tcp option maxseg size set rt mtu"
  | SDnat ip port => "dnat ip to " +:+ ip +:+ ":" +:+ show_Z port
  | SMasquerade => "masquerade"
  end.
Definition render_line (l : Line) : string :=
  match l with
  | Text s => s
  | Rule ms st => "    " +:+ join " " (map render_match ms ++ [render_statement st])
  end.
Definition newline : string := String (byte_of 10) EmptyString.
Definition render (doc : list Line) : string := foldr (fun l acc => render_line l +:+ newline +:+ acc) EmptyString doc.

(** ** Meaning *)

(** An interface name, or a prefix of one *)
Definition name_matches (pattern name : string) : bool :=
  if ends_with "*" pattern then bytes_prefix (removelast (bytes_of pattern)) (bytes_of name) else pattern =s name.
(** An address or a prefix *)
Definition addr_matches (a : string) (ip : IP) : bool :=
  match parse_cidr a with
  | Some (_, n) => net_contains n ip
  | None => match parse_ip a with Some x => ip_equal x ip | None => false end
  end.
Definition port_matches (p : Port) (n : Z) : bool :=
  match p with
  | PNum m => m =? n
  | PText s => match parse_i64 s with Some m => m =? n | None => false end
  end.
(** [HH:MM] or [HH:MM:SS] as seconds *)
Definition clock_seconds (s : string) : option Z :=
  match map parse_i64 (split ":"%char s) with
  | [Some h; Some m] => Some (h * 3600 + m * 60)
  | [Some h; Some m; Some x] => Some (h * 3600 + m * 60 + x)
  | _ => None
  end.
Definition hour_matches (start end_ : string) (t : Z) : bool :=
  match clock_seconds start, clock_seconds end_ with
  | Some a, Some b => (a <=? t) && (t <=? b)
  | _, _ => false
  end.

Definition ct_known (s : CtState) : bool := match s with CtEstablished | CtRelated => true | _ => false end.
(** [ip ...] holds of IPv4 packets only. *)
Definition matches (p : Packet) (m : Match) : bool :=
  match m with
  | MIif n => name_matches n (pk_iif p)
  | MOif n => name_matches n (pk_oif p)
  | MOifIn l => existsb (fun n => name_matches n (pk_oif p)) l
  | MSaddr a => pk_ipv4 p && addr_matches a (pk_saddr p)
  | MSaddrNot a => pk_ipv4 p && negb (addr_matches a (pk_saddr p))
  | MSaddrIn l => pk_ipv4 p && existsb (fun a => addr_matches a (pk_saddr p)) l
  | MSaddrNotIn l => pk_ipv4 p && negb (existsb (fun a => addr_matches a (pk_saddr p)) l)
  | MDaddr a => pk_ipv4 p && addr_matches a (pk_daddr p)
  | MDaddrIn l => pk_ipv4 p && existsb (fun a => addr_matches a (pk_daddr p)) l
  | MDaddrSet s => pk_ipv4 p && pk_in_set p s
  | MDport proto l => (pk_proto p =s proto) && existsb (fun x => port_matches x (pk_dport p)) l
  | MSport proto l => (pk_proto p =s proto) && existsb (fun x => port_matches x (pk_sport p)) l
  | MWord w => pk_proto p =s w
  | MIcmp => pk_ipv4 p && (pk_proto p =s "icmp")
  | MCtNew => bool_decide (pk_ct p = CtNew)
  | MCtInvalid => bool_decide (pk_ct p = CtInvalid)
  | MCtKnown => ct_known (pk_ct p)
  | MIpv6 => negb (pk_ipv4 p)
  | MNoRoute => negb (pk_routed p)
  | MNotLocal => negb (pk_local p)
  | MUser u => pk_user p =s u
  | MDay d => pk_day p =? d
  | MHour s e => hour_matches s e (pk_time p)
  | MMeter n => pk_ipv4 p && pk_over p n
  | MLimit => pk_over p "limit"
  end.

(** How a chain ends for a packet; [None]: it ran off the end *)
Inductive Outcome := OAccept | ODrop | OReturn.
#[export] Instance Outcome_eq_dec : EqDecision Outcome.
Proof. solve_decision. Defined.

(** [sub] runs another chain. *)
Definition act (sub : string -> Packet -> option Outcome) (st : Statement) (p : Packet) : option Outcome :=
  match st with
  | SAccept | SCount _ true => Some OAccept
  | SDrop | SCount _ false | SCountDrop => Some ODrop
  | SReturn => Some OReturn
  | SJump c => match sub c p with Some OReturn | None => None | decided => decided end
  | SUpdate _ _ | SClampMss => None
  | SDnat _ _ | SMasquerade => Some OAccept
  end.
Fixpoint run_with (sub : string -> Packet -> option Outcome) (chain : list Line) (p : Packet) : option Outcome :=
  match chain with
  | [] => None
  | Text _ :: t => run_with sub t p
  | Rule ms st :: t => if forallb (matches p) ms then match act sub st p with Some o => Some o | None => run_with sub t p end else run_with sub t p
  end.
(** The kernel follows at most sixteen jumps. *)
Fixpoint run (depth : nat) (chains : string -> list Line) (chain : list Line) (p : Packet) : option Outcome :=
  match depth with
  | O => run_with (fun _ _ => None) chain p
  | S d => run_with (fun c p => run d chains (chains c) p) chain p
  end.
Definition JUMP_DEPTH : nat := 16.
(** A base chain with policy drop *)
Definition passes (chains : string -> list Line) (chain : list Line) (p : Packet) : bool :=
  match run JUMP_DEPTH chains chain p with Some OAccept => true | _ => false end.

(** Destination translation: the first redirection that matches rewrites the
    packet before the filter chains see it. *)
Definition redirect_to (p : Packet) (ip : string) (port : Z) : Packet :=
  mkPacket (pk_iif p) (pk_oif p) (pk_ipv4 p) (pk_saddr p) (default (pk_daddr p) (parse_ipv4 ip)) (pk_proto p) (pk_sport p) port (pk_ct p)
    (pk_routed p) (pk_local p) (pk_user p) (pk_day p) (pk_time p) (pk_over p) (pk_in_set p).
Fixpoint translate (chain : list Line) (p : Packet) : Packet :=
  match chain with
  | [] => p
  | Rule ms (SDnat ip port) :: t => if forallb (matches p) ms then redirect_to p ip port else translate t p
  | _ :: t => translate t p
  end.

(** ** Lemmas *)
Definition decides (st : Statement) : option Outcome :=
  match st with
  | SAccept | SCount _ true | SDnat _ _ | SMasquerade => Some OAccept
  | SDrop | SCount _ false | SCountDrop => Some ODrop
  | SReturn => Some OReturn
  | SJump _ | SUpdate _ _ | SClampMss => None
  end.

(** A line that decides [o] for a packet does so only when [P] holds of it. *)
Definition yields (o : Outcome) (P : Packet -> Prop) (l : Line) : Prop :=
  match l with
  | Text _ => True
  | Rule ms st => decides st = Some o -> forall p, forallb (matches p) ms = true -> P p
  end.

Lemma run_with_app sub a b p : run_with sub (a ++ b) p = match run_with sub a p with Some o => Some o | None => run_with sub b p end.
Proof. induction a as [|[s|ms st] a IH]; cbn; [done|done|]. destruct (forallb _ ms); [|done]. by destruct (act sub st p). Qed.

Lemma run_yields o sub chain p P : (forall c q, sub c q = Some o -> o = OReturn) -> Forall (yields o P) chain ->
  run_with sub chain p = Some o -> P p.
Proof.
  intros Hsub. induction 1 as [|[s|ms st] chain Hl _ IH]; cbn; [done|done|]. destruct (forallb (matches p) ms) eqn:Em; [|done].
  destruct (act sub st p) as [o'|] eqn:Ea; [|done]. intros [= ->]. apply Hl; [|done].
  destruct st; cbn in Ea |- *; try done. destruct (sub chain0 p) as [[]|] eqn:Es; try done; injection Ea as <-; by specialize (Hsub _ _ Es).
Qed.

(** A rule that drops decides, unless one before it did. *)
Lemma run_dropped sub pre ms st post p : decides st = Some ODrop -> forallb (matches p) ms = true ->
  run_with sub (pre ++ Rule ms st :: post) p = match run_with sub pre p with Some o => Some o | None => Some ODrop end.
Proof.
  intros Hd Hm. rewrite run_with_app. destruct (run_with sub pre p) as [o|]; [done|]. cbn. rewrite Hm.
  by destruct st as [| | | |? []| | | | |]; cbn in Hd |- *.
Qed.

Lemma yields_mono o (P Q : Packet -> Prop) chain : (forall p, P p -> Q p) -> Forall (yields o P) chain -> Forall (yields o Q) chain.
Proof. intros Hpq H. eapply Forall_impl; [exact H|]. intros [s|ms st]; cbn; [done|]. intros Hy Hd p Hm. by apply Hpq, Hy. Qed.
Lemma Forall_when {A} (P : A -> Prop) b l : (b = true -> Forall P l) -> Forall P (if b then l else []).
Proof. destruct b; [auto|constructor]. Qed.
Lemma Forall_concat_map {A B} (P : B -> Prop) (f : A -> list B) l : (forall x, x ∈ l -> Forall P (f x)) -> Forall P (concat (map f l)).
Proof.
  induction l as [|x l IH]; cbn; intros H; [constructor|]. apply Forall_app. split; [apply H; left|].
  apply IH. intros y Hy. apply H. by right.
Qed.
