(* ===== verification/Nftables.v ===== *)
(** * The firewall generator

    [services/nftables.rs] with [services/device_profiles.rs] and the rule
    counters of [services/review.rs].  The writers of the code append to a
    buffer; here each returns the lines it appends, in the same order, and
    [generate_nftables] renders them. *)

From Stdlib Require Import ZArith Ascii String Lia Bool.
From stdpp Require Import base list strings gmap.
From S2P Require Import Prelude GoStrings Net GoTime Json Model Validation Policy Firmware Auth Nft.

Local Open Scope string_scope.
Local Open Scope Z_scope.
Local Open Scope list_scope.

Definition ACCOUNTING_SET_RX : string := "acct_rx".
Definition ACCOUNTING_SET_TX : string := "acct_tx".
Definition RESERVED_WAN_SOURCES : list string :=
  ["0.0.0.0/8"; "10.0.0.0/8"; "100.64.0.0/10"; "127.0.0.0/8"; "169.254.0.0/16"; "172.16.0.0/12"; "192.0.0.0/24"; "192.0.2.0/24";
   "192.168.0.0/16"; "198.18.0.0/15"; "198.51.100.0/24"; "203.0.113.0/24"; "224.0.0.0/3"].
Definition ORDERED_SCHEDULE_DAYS : list string := ["monday"; "tuesday"; "wednesday"; "thursday"; "friday"; "saturday"; "sunday"].

Definition udp_to (port : Z) : Match := MDport "udp" [PNum port].
Definition tcp_to (port : Z) : Match := MDport "tcp" [PNum port].
Definition when {A} (b : bool) (l : list A) : list A := if b then l else [].
Definition some_string (s : string) : bool := negb (is_empty s).

(** ** Services and schedules *)
Definition service_domains (service : string) : option (list string) :=
  if service =s "youtube" then Some ["youtube.com"; "googlevideo.com"; "ytimg.com"; "youtu.be"]
  else if service =s "steam" then Some ["steampowered.com"; "steamcommunity.com"; "steamstatic.com"; "steamcontent.com"; "steamserver.net"]
  else if service =s "wiki" then Some ["wikipedia.org"; "wikimedia.org"; "wikimediafoundation.org"; "mediawiki.org"]
  else if service =s "tiktok" then Some ["tiktok.com"; "byteoversea.com"; "ibytedtos.com"; "tiktokv.com"]
  else if service =s "instagram" then Some ["instagram.com"; "cdninstagram.com"]
  else if service =s "facebook" then Some ["facebook.com"; "fbcdn.net"; "messenger.com"]
  else if service =s "roblox" then Some ["roblox.com"; "rbxcdn.com"]
  else if service =s "epic" then Some ["epicgames.com"; "unrealengine.com"]
  else if service =s "twitch" then Some ["twitch.tv"; "ttvnw.net"; "jtvnw.net"]
  else if service =s "adult" then Some ["pornhub.com"; "xvideos.com"; "xnxx.com"; "onlyfans.com"]
  else if service =s "gaming" then
    Some ["roblox.com"; "rbxcdn.com"; "twitch.tv"; "ttvnw.net"; "steampowered.com"; "steamcommunity.com"; "epicgames.com"]
  else None.

(** Insertion into a [BTreeSet] *)
Fixpoint btree_insert (x : string) (l : list string) : list string :=
  match l with
  | [] => [x]
  | y :: t => match bytes_cmp (bytes_of x) (bytes_of y) with Lt => x :: l | Eq => l | Gt => y :: btree_insert x t end
  end.
(** [iter().filter(|x| seen.insert(x))] *)
Fixpoint distinct (seen : gset string) (l : list string) : list string :=
  match l with
  | [] => []
  | x :: t => if bool_decide (x ∈ seen) then distinct seen t else x :: distinct ({[x]} ∪ seen) t
  end.

Section Generator.
Context {UC : Unicode} {SH : Sha256}.

Definition active_managed_services (cfg : SystemConfig) : list string :=
  let of_profile p :=
    if negb (df_enabled (c_adguard cfg)) || negb (dp_enabled p) then []
    else List.filter (fun s => negb (is_none (service_domains s))) (map (fun s => to_lower (trim s)) (items (dp_services p))) in
  fold_left (fun seen s => btree_insert s seen) (concat (map of_profile (items (df_device_profiles (c_adguard cfg))))) [].

Definition write_dns_filter_nftsets (cfg : SystemConfig) : list Line :=
  match active_managed_services cfg with
  | [] => []
  | services =>
      Text EmptyString :: Text "# Device profile service destination sets"
      :: map (fun s => Text ("nftset=/" +:+ join "/" (default [] (service_domains s)) +:+ "/4#inet#minimalrouter#svc_" +:+ s))
           (List.filter (fun s => negb (Nat.eqb (List.length (default [] (service_domains s))) 0)) services)
  end.

Definition all_day : GoList AccessWindow := list_from [mkAccessWindow "00:00" "23:59"].
Definition effective_day_windows (schedule : WeeklyAccessSchedule) : list (string * GoList AccessWindow) :=
  match sched_day_windows schedule with
  | _ :: _ => sched_day_windows schedule
  | [] =>
      let weekend windows := [("saturday", windows); ("sunday", windows)] in
      map (fun day => (day, sched_weekday_windows schedule)) (take 5 ORDERED_SCHEDULE_DAYS)
      ++ (if sched_weekend_mode schedule =s "all_day" then weekend all_day
          else if sched_weekend_mode schedule =s "same_as_weekdays" then weekend (sched_weekday_windows schedule)
          else if sched_weekend_mode schedule =s "custom" then weekend (sched_weekend_windows schedule)
          else [])
  end.
Definition windows_of (day : string) (m : list (string * GoList AccessWindow)) : list AccessWindow :=
  match List.find (fun e => fst e =s day) m with Some e => items (snd e) | None => [] end.

Definition write_allowed_windows (ip service : string) (day : nat) (windows : list AccessWindow) : list Line :=
  map (fun w =>
    let stop := if aw_end w =s "23:59" then "23:59:59" else aw_end w in
    Rule [MSaddr ip; MDaddrSet ("svc_" +:+ service); MDay (Z.of_nat day); MHour (aw_start w) stop] SReturn) windows.
Definition service_rules (ip service : string) (days : list (string * GoList AccessWindow)) : list Line :=
  concat (imap (fun index day => write_allowed_windows ip service (Nat.modulo (index + 1) 7) (windows_of day days)) ORDERED_SCHEDULE_DAYS)
  ++ [Rule [MSaddr ip; MDaddrSet ("svc_" +:+ service)] SDrop].
Definition device_rules (profile : DeviceProfile) (ip : string) : list Line :=
  Rule [MSaddr ip; MDport "udp" [PNum 53; PNum 853]] SDrop :: Rule [MSaddr ip; MDport "tcp" [PNum 53; PNum 853]] SDrop
  :: concat (map (fun service => service_rules ip service (effective_day_windows (dp_schedule profile)))
               (List.filter (fun s => negb (is_none (service_domains s))) (items (dp_services profile)))).
Definition profile_rules (profile : DeviceProfile) : list Line :=
  if negb (dp_enabled profile) then []
  else Text ("    # Device profile: " +:+ dp_name profile) :: concat (map (device_rules profile) (items (dp_ip_addresses profile))).
(** The body of [chain device_profiles] *)
Definition device_profiles_chain (cfg : SystemConfig) : list Line :=
  concat (map profile_rules (items (df_device_profiles (c_adguard cfg)))) ++ [Rule [] SReturn].
Definition write_device_profile_objects (cfg : SystemConfig) : list Line :=
  match active_managed_services cfg with
  | [] => []
  | services =>
      Text "  # Dynamic destination sets populated by dnsmasq from DNS answers."
      :: map (fun s => Text ("  set svc_" +:+ s +:+ " { type ipv4_addr; flags timeout; timeout 4h; }")) services
      ++ [Text EmptyString; Text "  chain device_profiles {"] ++ device_profiles_chain cfg ++ [Text "  }"; Text EmptyString]
  end.

(** ** Rule counters *)
Definition firewall_rule_counter (rule : FirewallRule) : string :=
  let identity := mkFirewallRule (rule_id rule) EmptyString (rule_action rule) (rule_direction rule) (rule_protocol rule) (rule_src_ip rule)
                    (rule_dst_port rule) (rule_enabled rule) (firewall_rule_scope rule) EmptyString in
  "mr_rule_" +:+ hex_encode (take 12 (sha256 (marshal (FirewallRule_json identity)))).
Definition rule_emitted (cfg : SystemConfig) (rule : FirewallRule) : bool :=
  (rule_direction rule <>s "forward") || (firewall_rule_scope rule <>s "wan") || wan_enabled (c_wan cfg).
Definition rule_counters (cfg : SystemConfig) : list Line :=
  map (fun name => Text ("  counter " +:+ name +:+ " { }"))
    (distinct ∅ (map firewall_rule_counter
       (List.filter (fun rule => rule_enabled rule && rule_emitted cfg rule) (items (fw_custom_rules (c_firewall cfg)))))).

(** ** Writers *)
Definition comment (s : string) : Line := Text ("    # " +:+ s).
Definition blank : Line := Text EmptyString.

Definition wg_peer_endpoint_nets (cfg : SystemConfig) : list string :=
  if negb (wg_enabled (c_wireguard cfg)) then []
  else
    let endpoint peer :=
      if negb (peer_enabled peer) then []
      else
        let host := match split_host_port (peer_endpoint peer) with Ok (h, _) => h | Err _ => peer_endpoint peer end in
        match parse_ip host with
        | None => []
        | Some ip => if is_none (to4 ip) then [] else [ip_to_string ip +:+ "/32"]
        end in
    distinct ∅ (concat (map endpoint (items (wg_peers (c_wireguard cfg))))).
Definition known_endpoint_rules (iface meter : string) (sources : list string) (port : Z) : list Line :=
  [Rule [MIif iface; MSaddrIn sources; MCtInvalid] SDrop;
   Rule [MIif iface; MSaddrIn sources; udp_to port; MCtNew; MMeter meter] SDrop;
   Rule [MIif iface; MSaddrIn sources; udp_to port] SAccept].
Definition write_known_wg_peer_endpoint_input_rules (cfg : SystemConfig) : list Line :=
  let endpoints := wg_peer_endpoint_nets cfg in
  if Nat.eqb (List.length endpoints) 0 || negb (wg_enabled (c_wireguard cfg)) then []
  else
    let port := wg_listen_port (c_wireguard cfg) in
    [comment "Known WireGuard peer endpoints: UDP socket only, never general trust"]
    ++ when (some_string (wan_interface (c_wan cfg))) (known_endpoint_rules (wan_interface (c_wan cfg)) "wg_known_wan_rate" endpoints port)
    ++ known_endpoint_rules "ppp*" "wg_known_ppp_rate" endpoints port ++ [blank].

Definition lan_broadcast_address (cidr : string) : string :=
  match parse_cidr cidr with
  | Some (_, n) =>
      if is_none (to4 (net_ip n)) then EmptyString
      else match ipv4_broadcast n with Some b => ip_to_string b | None => EmptyString end
  | None => EmptyString
  end.

(** Tabs and line breaks become blanks, other control characters question marks. *)
Definition sanitize_byte (a : ascii) : ascii :=
  if (bv a =? 13) || (bv a =? 10) || (bv a =? 9) then " "%char else if bv a <? 32 then "?"%char else a.
Definition sanitize_comment (value : string) : string := str_of (map sanitize_byte (bytes_of value)).

Definition custom_protocol (rule : FirewallRule) : list Match :=
  if rule_protocol rule =s "icmp" then [MIcmp]
  else if (rule_protocol rule =s "tcp") || (rule_protocol rule =s "udp") then [MDport (rule_protocol rule) [PNum (rule_dst_port rule)]]
  else if rule_protocol rule <>s "any" then [MWord (rule_protocol rule)]
  else [].
Definition custom_rule (cfg : SystemConfig) (direction action : string) (rule : FirewallRule) : list Line :=
  if negb (rule_enabled rule) || (rule_direction rule <>s direction) || (rule_action rule <>s action) then []
  else
    let wan_scope := (direction =s "forward") && (firewall_rule_scope rule =s "wan") in
    if wan_scope && negb (wan_enabled (c_wan cfg)) then []
    else
      let ms := [MIif (lan_interface (c_lan cfg))] ++ when (some_string (rule_src_ip rule)) [MSaddr (rule_src_ip rule)] ++ custom_protocol rule
                ++ when wan_scope [MOifIn [wan_interface (c_wan cfg); "ppp*"]] in
      [comment ("Custom LAN " +:+ direction +:+ " " +:+ action +:+ " rule: " +:+ sanitize_comment (rule_name rule));
       Rule ms (SCount (firewall_rule_counter rule) (action =s "allow"))].
Definition write_custom_rules (cfg : SystemConfig) (direction action : string) : list Line :=
  concat (map (custom_rule cfg direction action) (items (fw_custom_rules (c_firewall cfg)))).

Definition extra_lan_source_interface (cfg : SystemConfig) (src_cidr : string) : string :=
  match parse_cidr src_cidr with
  | None => EmptyString
  | Some (_, src_net) =>
      let within (cidr : string) : bool :=
        match parse_cidr cidr with
        | Some (_, n) => net_contains n (net_ip src_net) && Nat.leb (fst (mask_size (net_mask n))) (fst (mask_size (net_mask src_net)))
        | None => false
        end in
      if within (lan_cidr (c_lan cfg)) then runtime_lan_interface cfg
      else if wg_enabled (c_wireguard cfg) && within (wg_address (c_wireguard cfg)) then wg_interface (c_wireguard cfg)
      else EmptyString
  end.

Definition wg_client_interface (cfg : SystemConfig) : string :=
  if is_empty (wgc_interface (c_wg_client cfg)) then "wg1" else wgc_interface (c_wg_client cfg).
Definition wg_client_networks (cfg : SystemConfig) : list string :=
  concat (map (fun entry => match parse_cidr (trim entry) with
                            | Some (_, n) => if is_none (to4 (net_ip n)) then [] else [net_to_string n]
                            | None => []
                            end) (items (wgc_allowed_ips (c_wg_client cfg)))).
Definition write_wg_client_input_rules (cfg : SystemConfig) : list Line :=
  if negb (wgc_enabled (c_wg_client cfg)) then []
  else
    let iface := wg_client_interface cfg in
    [comment ("WireGuard client " +:+ iface +:+ ": established-only (remote site cannot initiate)");
     match wg_client_networks cfg with
     | [] => Rule [MIif iface] SDrop
     | allowed => Rule [MIif iface; MSaddrNotIn allowed] SDrop
     end;
     Rule [MIif iface; MCtNew] SDrop; blank].
Definition write_wg_client_forward_rules (cfg : SystemConfig) : list Line :=
  if negb (wgc_enabled (c_wg_client cfg)) then []
  else
    let iface := wg_client_interface cfg in
    let sources := [lan_interface (c_lan cfg)]
                   ++ when (wg_enabled (c_wireguard cfg) && some_string (wg_interface (c_wireguard cfg))) [wg_interface (c_wireguard cfg)] in
    [comment ("WireGuard client " +:+ iface +:+ ": trusted home networks may dial out, remote site may only respond")]
    ++ map (fun src => Rule [MIif src; MOif iface] SAccept) sources ++ [Rule [MIif iface; MCtNew] SDrop; blank].
Definition write_wg_client_output_rules (cfg : SystemConfig) : list Line :=
  if negb (wgc_enabled (c_wg_client cfg)) then []
  else
    match split_host_port (wgc_endpoint (c_wg_client cfg)) with
    | Err _ => []
    | Ok (_, port) =>
        if is_empty port then []
        else when (some_string (wan_interface (c_wan cfg))) [Rule [MOif (wan_interface (c_wan cfg)); MDport "udp" [PText port]] SAccept]
             ++ [Rule [MOif "ppp*"; MDport "udp" [PText port]] SAccept]
    end.
Definition write_wg_client_masquerade (cfg : SystemConfig) : list Line :=
  when (wgc_enabled (c_wg_client cfg)) [Rule [MOif (wg_client_interface cfg)] SMasquerade].

Definition extra_input_rules (lan : ExtraLANConfig) : list Line :=
  if negb (xl_enabled lan) || is_empty (xl_interface lan) || is_empty (xl_cidr lan) then []
  else
    [comment ("Extra LAN " +:+ xl_interface lan +:+ " (" +:+ sanitize_comment (xl_name lan) +:+ "): isolated segment, router hosts no services here");
     Rule [MIif (xl_interface lan); MSaddrNotIn [xl_cidr lan]] SDrop;
     Rule [MIif (xl_interface lan); MIcmp] SAccept].
Definition write_extra_lan_input_rules (cfg : SystemConfig) : list Line :=
  concat (map extra_input_rules (items (fw_extra_lans (c_firewall cfg)))).
Definition allow_from_rule (cfg : SystemConfig) (lan : ExtraLANConfig) (src : string) : list Line :=
  let iface := extra_lan_source_interface cfg src in
  let proto := if is_empty (xl_protocol lan) then "tcp" else xl_protocol lan in
  if is_empty iface then []
  else [Rule [MIif iface; MSaddr src; MDaddr (xl_dst_ip lan); MDport proto [PNum (xl_dst_port lan)]; MOif (xl_interface lan)] SAccept].
Definition extra_forward_rules (cfg : SystemConfig) (lan : ExtraLANConfig) : list Line :=
  if negb (xl_enabled lan) || is_empty (xl_interface lan) || is_empty (xl_cidr lan) || is_empty (xl_dst_ip lan) then []
  else
    [comment ("Extra LAN " +:+ xl_interface lan +:+ " (" +:+ sanitize_comment (xl_name lan) +:+ "): isolated segment, only " +:+ xl_cidr lan
              +:+ " sources reach " +:+ xl_dst_ip lan +:+ ":" +:+ show_Z (xl_dst_port lan) +:+ " on " +:+ xl_interface lan);
     Rule [MIif (xl_interface lan); MSaddrNot (xl_cidr lan)] SDrop]
    ++ concat (map (allow_from_rule cfg lan) (items (xl_allow_from lan))).
Definition write_extra_lan_forward_rules (cfg : SystemConfig) : list Line :=
  concat (map (extra_forward_rules cfg) (items (fw_extra_lans (c_firewall cfg)))).

Definition accounting_on (cfg : SystemConfig) : bool := acct_enabled (c_accounting cfg) && some_string (lan_interface (c_lan cfg)).
Definition write_accounting_sets (cfg : SystemConfig) : list Line :=
  when (accounting_on cfg)
    (concat (map (fun name => [Text ("  set " +:+ name +:+ " {"); Text "    type ipv4_addr"; Text "    size 512"; Text "    flags dynamic,timeout";
                               Text "    timeout 7d"; Text "    counter"; Text "  }"; blank]) [ACCOUNTING_SET_RX; ACCOUNTING_SET_TX])).
Definition write_accounting_rules (cfg : SystemConfig) : list Line :=
  when (accounting_on cfg)
    [comment "Per-device byte accounting (counters only, no verdict)";
     Rule [MIif (lan_interface (c_lan cfg))] (SUpdate ACCOUNTING_SET_TX true);
     Rule [MOif (lan_interface (c_lan cfg))] (SUpdate ACCOUNTING_SET_RX false); blank].

Definition port_forward_protocols (protocol : string) : list string :=
  let p := to_lower (trim protocol) in
  if p =s "both" then ["tcp"; "udp"] else if p =s "udp" then ["udp"] else ["tcp"].
Definition enabled_tunnel_port_forwards (cfg : SystemConfig) : list PortForwardRule :=
  if negb (wg_enabled (c_wireguard cfg)) then [] else List.filter pf_enabled (items (fw_port_forwards (c_firewall cfg))).
Definition wg_server_interface (cfg : SystemConfig) : string :=
  if is_empty (wg_interface (c_wireguard cfg)) then "wg0" else wg_interface (c_wireguard cfg).
Definition forward_lines (cfg : SystemConfig) (f : PortForwardRule -> string -> Line) : list Line :=
  concat (map (fun rule => map (f rule) (port_forward_protocols (pf_protocol rule))) (enabled_tunnel_port_forwards cfg)).
(** The body of [chain prerouting] *)
Definition prerouting_chain (cfg : SystemConfig) : list Line :=
  forward_lines cfg (fun rule protocol =>
    Rule [MIif (wg_server_interface cfg); MDport protocol [PNum (pf_external_port rule)]] (SDnat (pf_internal_ip rule) (pf_internal_port rule))).
Definition write_tunnel_port_forwards (cfg : SystemConfig) : list Line :=
  when (negb (Nat.eqb (List.length (enabled_tunnel_port_forwards cfg)) 0))
    ([Text "  chain prerouting {"; Text "    type nat hook prerouting priority dstnat; policy accept;"; blank;
      comment "Port forwards are reachable only over the WireGuard tunnel, never the WAN."]
     ++ prerouting_chain cfg ++ [Text "  }"; blank]).
Definition write_tunnel_port_forward_forward (cfg : SystemConfig) : list Line :=
  when (negb (Nat.eqb (List.length (enabled_tunnel_port_forwards cfg)) 0))
    ([comment "Tunnel port forwards: allow the DNAT-translated destination"]
     ++ forward_lines cfg (fun rule protocol =>
          Rule [MIif (wg_server_interface cfg); MOif (lan_interface (c_lan cfg)); MDaddr (pf_internal_ip rule);
                MDport protocol [PNum (pf_internal_port rule)]; MCtNew] SAccept)
     ++ [blank]).

Definition opt_net_string (network : option IPNet) : string := match network with Some n => net_to_string n | None => "<nil>" end.
Definition antispoof_rules (iface : string) : list Line :=
  [Rule [MIif iface; MSaddrIn RESERVED_WAN_SOURCES] SDrop; Rule [MIif iface; MNoRoute] SDrop; Rule [MIif iface; MIpv6] SDrop].
Definition write_wan_antispoof (wan : string) : list Line := antispoof_rules wan ++ antispoof_rules "ppp*" ++ [blank].

(** ** The chains *)

(** Input, in four parts: before connection tracking accepts, the tunnels and
    the proxy, the LAN, the rest *)
Definition input_guards (cfg : SystemConfig) : list Line :=
  let lan := lan_interface (c_lan cfg) in
  let wan := wan_interface (c_wan cfg) in
  [comment "Allow loopback"; Rule [MIif "lo"] SAccept; blank]
  ++ when (some_string wan)
       (write_known_wg_peer_endpoint_input_rules cfg
        ++ [comment "Drop spoofed/reserved WAN sources before connection tracking accepts"] ++ write_wan_antispoof wan)
  ++ when (some_string lan)
       [comment "LAN source anti-spoofing (0.0.0.0 is needed for DHCP discovery)";
        Rule [MIif lan; MSaddrNotIn ["0.0.0.0"; lan_cidr (c_lan cfg)]] SDrop; blank]
  ++ [comment "Reject invalid packets before service accepts"; Rule [MCtInvalid] SDrop]
  ++ write_custom_rules cfg "input" "deny"
  ++ [comment "Allow established and related connections"; Rule [MCtKnown] SAccept; blank].

Definition wg_network (cfg : SystemConfig) : string := opt_net_string (snd <$> parse_cidr (wg_address (c_wireguard cfg))).
Definition wg_endpoint_rules (iface meter : string) (port : Z) : list Line :=
  [Rule [MIif iface; udp_to port; MCtNew; MMeter meter] SDrop; Rule [MIif iface; udp_to port] SAccept].
Definition input_wireguard (cfg : SystemConfig) : list Line :=
  let wg := wg_interface (c_wireguard cfg) in
  let wan := wan_interface (c_wan cfg) in
  let port := wg_listen_port (c_wireguard cfg) in
  when (wg_enabled (c_wireguard cfg))
    ([comment "WireGuard endpoint with a per-source flood guard"]
     ++ when (some_string wan) (wg_endpoint_rules wan "wg_wan_rate" port)
     ++ wg_endpoint_rules "ppp*" "wg_ppp_rate" port
     ++ [comment "Authenticated tunnel services";
         Rule [MIif wg; MSaddrNot (wg_network cfg)] SDrop;
         Rule [MIif wg; tcp_to (sys_https_port (c_system cfg))] SAccept;
         Rule [MIif wg; tcp_to 22] SAccept;
         Rule [MIif wg; udp_to 53] SAccept;
         Rule [MIif wg; tcp_to 53] SAccept; blank]).

Definition squid_input_port (cfg : SystemConfig) : Z := if squid_port (c_squid_proxy cfg) =? 0 then 3128 else squid_port (c_squid_proxy cfg).
Definition input_squid (cfg : SystemConfig) : list Line :=
  let lan := lan_interface (c_lan cfg) in
  when (squid_enabled (c_squid_proxy cfg) && some_string lan)
    [comment ("Allow Squid Proxy from LAN (" +:+ lan +:+ ", port " +:+ show_Z (squid_input_port cfg) +:+ ")");
     Rule [MIif lan; tcp_to (squid_input_port cfg)] SAccept; blank].

Definition input_lan (cfg : SystemConfig) : list Line :=
  let lan := lan_interface (c_lan cfg) in
  let https := sys_https_port (c_system cfg) in
  when (some_string lan)
    ([comment ("Allow essential network services from LAN (" +:+ lan +:+ ") only")]
     ++ (if sys_management_access (c_system cfg) <>s "wireguard_only" then
           [Rule [MIif lan; tcp_to https; MCtNew; MLimit] SDrop; Rule [MIif lan; tcp_to https] SAccept; Rule [MIif lan; tcp_to 22] SAccept]
         else [comment "Management HTTPS is intentionally unavailable on LAN; use WireGuard"])
     ++ [Rule [MIif lan; MDport "udp" [PNum 53; PNum 67]] SAccept; Rule [MIif lan; tcp_to 53] SAccept; Rule [MIif lan; MIcmp] SAccept; blank]).

Definition input_chain (cfg : SystemConfig) : list Line :=
  input_guards cfg ++ input_wireguard cfg ++ write_wg_client_input_rules cfg ++ input_squid cfg ++ input_lan cfg
  ++ write_extra_lan_input_rules cfg
  ++ when (wg_enabled (c_wireguard cfg)) [Rule [MIif (wg_interface (c_wireguard cfg)); MSaddrNot (wg_network cfg)] SDrop; blank]
  ++ write_custom_rules cfg "input" "allow"
  ++ [comment "Reject WAN unsolicited input"; Rule [] SDrop].

Definition restricted_rules (cfg : SystemConfig) : list Line :=
  let restricted := items (squid_restricted_ips (c_squid_proxy cfg)) in
  when (squid_enabled (c_squid_proxy cfg) && negb (Nat.eqb (List.length restricted) 0))
    ([comment "Block direct WAN traffic for Restricted IP Alias (Must use Squid Proxy)"]
     ++ concat (map (fun item => when (some_string (trim (ri_ip_address item)) && ri_enabled item)
                                   [Rule [MSaddr (trim (ri_ip_address item))] SDrop]) restricted)
     ++ [blank]).
(** Before established connections are accepted *)
Definition forward_guards (cfg : SystemConfig) : list Line :=
  let lan := lan_interface (c_lan cfg) in
  let wan := wan_interface (c_wan cfg) in
  when (some_string wan) ([comment "WAN anti-spoofing precedes state acceptance"] ++ write_wan_antispoof wan)
  ++ when (some_string lan) [Rule [MIif lan; MSaddrNot (lan_cidr (c_lan cfg))] SDrop; blank]
  ++ [comment "Reject invalid before established state"; Rule [MCtInvalid] SDrop]
  ++ when (negb (Nat.eqb (List.length (active_managed_services cfg)) 0))
       [comment "Device schedules run before established acceptance so expired streams are cut"; Rule [] (SJump "device_profiles")]
  ++ write_custom_rules cfg "forward" "deny" ++ restricted_rules cfg ++ write_accounting_rules cfg.
Definition forward_lan (cfg : SystemConfig) : list Line :=
  let lan := lan_interface (c_lan cfg) in
  when (wan_enabled (c_wan cfg) && some_string lan)
    [comment ("Allow LAN (" +:+ lan +:+ ") out to WAN"); Rule [MIif lan; MOif (wan_interface (c_wan cfg))] SAccept;
     Rule [MIif lan; MOif "ppp*"] SAccept; blank].
Definition forward_wireguard (cfg : SystemConfig) : list Line :=
  let wg := wg_interface (c_wireguard cfg) in
  when (wg_enabled (c_wireguard cfg))
    ([comment "Authenticated WireGuard clients may reach LAN and optional full-tunnel WAN"; Rule [MIif wg; MOif (lan_interface (c_lan cfg))] SAccept]
     ++ when (wan_enabled (c_wan cfg)) [Rule [MIif wg; MOif (wan_interface (c_wan cfg))] SAccept; Rule [MIif wg; MOif "ppp*"] SAccept]
     ++ [blank]).
Definition forward_accepts (cfg : SystemConfig) : list Line :=
  write_custom_rules cfg "forward" "allow" ++ write_extra_lan_forward_rules cfg ++ forward_lan cfg ++ forward_wireguard cfg
  ++ write_tunnel_port_forward_forward cfg ++ write_wg_client_forward_rules cfg.
Definition forward_chain (cfg : SystemConfig) : list Line :=
  forward_guards cfg
  ++ [comment "Allow established/related"; Rule [MCtKnown] SAccept; blank;
      comment "TCP MSS clamping prevents PPPoE fragmentation stalls"; Rule [] SClampMss; blank]
  ++ forward_accepts cfg.

Definition squid_output_guards (cfg : SystemConfig) : list Line :=
  let lan := lan_interface (c_lan cfg) in
  let wg := wg_interface (c_wireguard cfg) in
  let deny iface := Rule [MUser "squid"; MOif iface] SDrop in
  when (squid_enabled (c_squid_proxy cfg))
    (when (some_string lan) [Rule [MUser "squid"; MOif lan; MSport "tcp" [PNum (squid_port (c_squid_proxy cfg))]] SAccept; deny lan]
     ++ when (wg_enabled (c_wireguard cfg) && some_string wg) [deny wg]
     ++ when (wgc_enabled (c_wg_client cfg)) [deny (wg_client_interface cfg)]
     ++ concat (map (fun extra => when (xl_enabled extra && some_string (xl_interface extra)) [deny (xl_interface extra)])
                  (items (fw_extra_lans (c_firewall cfg))))).
Definition output_guards (cfg : SystemConfig) : list Line :=
  let wan := wan_interface (c_wan cfg) in
  [comment "The appliance itself has a narrow egress allowlist"; Rule [MOif "lo"] SAccept]
  ++ when (some_string wan)
       [comment "Never leak source addresses that are not assigned to the appliance itself.";
        comment "fib-based (rather than a static private-range list) so an ISP-assigned";
        comment "private or CGNAT WAN address (10.x, 100.64.0.0/10) remains routable.";
        comment "NOTE: fib saddr . iif oif is not supported in the output hook (kernel";
        comment "rejects it), hence fib saddr type != local here; forward chain uses";
        comment "fib saddr . iif oif which is valid there.";
        Rule [MOif wan; MNotLocal] SDrop; Rule [MOif "ppp*"; MNotLocal] SDrop]
  ++ [Rule [MCtInvalid] SDrop] ++ squid_output_guards cfg.
Definition user_https (user : string) (cfg : SystemConfig) (ports : list Port) : list Line :=
  when (some_string (wan_interface (c_wan cfg))) [Rule [MUser user; MOif (wan_interface (c_wan cfg)); MDport "tcp" ports] SAccept].
Definition output_services (cfg : SystemConfig) : list Line :=
  let lan := lan_interface (c_lan cfg) in
  let wg := wg_interface (c_wireguard cfg) in
  let https := sys_https_port (c_system cfg) in
  let servers := items (dhcp_dns_servers (c_dhcp cfg)) in
  [Rule [MOif lan; MSport "udp" [PNum 53; PNum 67]] SAccept;
   if sys_management_access (c_system cfg) =s "wireguard_only" then Rule [MOif lan; MSport "tcp" [PNum 53]] SAccept
   else Rule [MOif lan; MSport "tcp" [PNum 53; PNum https]] SAccept]
  ++ when (wg_enabled (c_wireguard cfg))
       [Rule [MOif wg; MSport "udp" [PNum 53; PNum (wg_listen_port (c_wireguard cfg))]] SAccept;
        Rule [MOif wg; MSport "tcp" [PNum 53; PNum https]] SAccept]
  ++ write_wg_client_output_rules cfg
  ++ when (negb (Nat.eqb (List.length servers) 0)) [Rule [MDaddrIn servers; udp_to 53] SAccept; Rule [MDaddrIn servers; tcp_to 53] SAccept]
  ++ [Rule [udp_to 123] SAccept; Rule [MIcmp] SAccept; blank].
Definition output_egress (cfg : SystemConfig) : list Line :=
  let lan := lan_interface (c_lan cfg) in
  let broadcast := lan_broadcast_address (lan_cidr (c_lan cfg)) in
  let https := [PNum 443] in
  let web := [PNum 80; PNum 443] in
  [comment "The unprivileged management daemon may use HTTPS only through WAN paths"]
  ++ user_https "routerd" cfg https ++ [Rule [MUser "routerd"; MOif "ppp*"; MDport "tcp" https] SAccept]
  ++ when (some_string lan && some_string broadcast)
       [comment "Wake-on-LAN magic packets may only leave via the local LAN segment";
        Rule [MUser "routerd"; MOif lan; MDaddr broadcast; udp_to 9] SAccept]
  ++ when (cf_ddns_enabled (c_cloudflare cfg))
       ([comment "DDNS HTTPS is confined to WAN paths"] ++ user_https "root" cfg https ++ user_https "inadyn" cfg https
        ++ [Rule [MUser "root"; MOif "ppp*"; MDport "tcp" https] SAccept; Rule [MUser "inadyn"; MOif "ppp*"; MDport "tcp" https] SAccept])
  ++ when (squid_enabled (c_squid_proxy cfg))
       ([comment "Squid is an Internet-only egress proxy; no private/tunnel interface is a valid destination"]
        ++ user_https "squid" cfg web ++ [Rule [MUser "squid"; MOif "ppp*"; MDport "tcp" web] SAccept])
  ++ [Rule [] SCountDrop].
Definition output_chain (cfg : SystemConfig) : list Line :=
  output_guards cfg ++ [Rule [MCtKnown] SAccept] ++ output_services cfg ++ output_egress cfg.

Definition postrouting_chain (cfg : SystemConfig) : list Line :=
  when (wan_enabled (c_wan cfg)) [Rule [MOif "ppp*"] SMasquerade; Rule [MOif (wan_interface (c_wan cfg))] SMasquerade]
  ++ write_wg_client_masquerade cfg.

(** ** The ruleset *)
Definition observe (hook : string) : list Line :=
  [Text ("  chain observe_" +:+ hook +:+ "_before { type filter hook " +:+ hook +:+ " priority -1; policy accept; counter name mr_seen; }");
   Text ("  chain observe_" +:+ hook +:+ "_after { type filter hook " +:+ hook +:+ " priority 1; policy accept; counter name mr_accepted; }")].
Definition base_chain (hook : string) (body : list Line) : list Line :=
  [Text ("  chain " +:+ hook +:+ " {"); Text ("    type filter hook " +:+ hook +:+ " priority filter; policy drop;"); blank]
  ++ body ++ [Text "  }"; blank].
Definition ruleset (cfg : SystemConfig) : list Line :=
  [Text "# Generated by Minimal Router OS — do not edit manually"; Text "# Table: inet minimalrouter"; blank;
   Text "table inet minimalrouter {"; Text ("  counter mr_revision_" +:+ show_Z (c_revision cfg) +:+ " { }")]
  ++ rule_counters cfg ++ write_device_profile_objects cfg ++ write_accounting_sets cfg
  ++ [Text "  counter mr_seen { }"; Text "  counter mr_accepted { }"] ++ observe "input" ++ observe "forward"
  ++ base_chain "input" (input_chain cfg) ++ base_chain "forward" (forward_chain cfg) ++ base_chain "output" (output_chain cfg)
  ++ write_tunnel_port_forwards cfg
  ++ [Text "  chain postrouting {"; Text "    type nat hook postrouting priority srcnat; policy accept;"; blank;
      comment "Masquerade outgoing LAN traffic on WAN interfaces (ppp0 / ethernet WAN)"]
  ++ postrouting_chain cfg ++ [Text "  }"; Text "}"].

(** The LAN interface a radio is bridged to takes its place. *)
Definition with_lan_interface (c : SystemConfig) (iface : string) : SystemConfig :=
  mkSystemConfig (c_revision c) (c_updated_at c) (c_system c) (c_wan c)
    (mkLANSettings iface (lan_ip_address (c_lan c)) (lan_netmask (c_lan c)) (lan_cidr (c_lan c)))
    (c_dhcp c) (c_dns c) (c_firewall c) (c_wireguard c) (c_wg_client c) (c_cloudflare c) (c_squid_proxy c) (c_adguard c) (c_qos c) (c_wifi c)
    (c_accounting c) (c_trusted_networks c).
Definition runtime (cfg : SystemConfig) : SystemConfig := with_lan_interface cfg (runtime_lan_interface cfg).
Definition generate_nftables_text (cfg : SystemConfig) : result string error :=
  let? _ := map_err (Wrapf "scenario safety") (map_err EValidation (validate_scenario_safety cfg)) in
  Ok (render (ruleset (runtime cfg))).

(** What the kernel answers in each hook once the ruleset is loaded *)
Definition chains (cfg : SystemConfig) (name : string) : list Line := if name =s "device_profiles" then device_profiles_chain cfg else [].
Definition input_passes (cfg : SystemConfig) : Packet -> bool := passes (chains (runtime cfg)) (input_chain (runtime cfg)).
Definition forward_passes (cfg : SystemConfig) : Packet -> bool := passes (chains (runtime cfg)) (forward_chain (runtime cfg)).
Definition output_passes (cfg : SystemConfig) : Packet -> bool := passes (chains (runtime cfg)) (output_chain (runtime cfg)).
End Generator.
