(* ===== verification/NftablesSpec.v ===== *)
(** * What the firewall lets through *)

From Stdlib Require Import ZArith Ascii String Lia Bool.
From stdpp Require Import base list strings gmap.
From S2P Require Import Prelude GoStrings Net NetSpec GoTime Json Model Validation ValidationSpec Policy PolicySpec Firmware Auth Nft Nftables.

Local Open Scope string_scope.
Local Open Scope Z_scope.
Local Open Scope list_scope.

(** ** Packets described *)
Definition from_if (iface : string) (p : Packet) : Prop := name_matches iface (pk_iif p) = true.
Definition to_if (iface : string) (p : Packet) : Prop := name_matches iface (pk_oif p) = true.
Definition to_port (proto : string) (port : Z) (p : Packet) : Prop := pk_proto p = proto /\ pk_dport p = port.
Definition known (p : Packet) : Prop := ct_known (pk_ct p) = true.
Definition icmp (p : Packet) : Prop := pk_ipv4 p = true /\ pk_proto p = "icmp".
Definition source_in (a : string) (p : Packet) : Prop := pk_ipv4 p = true /\ addr_matches a (pk_saddr p) = true.
Definition dest_in (a : string) (p : Packet) : Prop := pk_ipv4 p = true /\ addr_matches a (pk_daddr p) = true.

Lemma port_one proto n p : matches p (MDport proto [PNum n]) = true <-> to_port proto n p.
Proof. cbn. rewrite orb_false_r, andb_true_iff, String.eqb_eq, Z.eqb_eq. unfold to_port. naive_solver. Qed.
Lemma port_two proto m n p : matches p (MDport proto [PNum m; PNum n]) = true <-> to_port proto m p \/ to_port proto n p.
Proof. cbn. rewrite orb_false_r, andb_true_iff, orb_true_iff, String.eqb_eq, !Z.eqb_eq. unfold to_port. naive_solver. Qed.
Lemma match_icmp p : matches p MIcmp = true <-> icmp p.
Proof. cbn. by rewrite andb_true_iff, String.eqb_eq. Qed.
Lemma match_saddr a p : matches p (MSaddr a) = true <-> source_in a p.
Proof. cbn. by rewrite andb_true_iff. Qed.
Lemma match_daddr a p : matches p (MDaddr a) = true <-> dest_in a p.
Proof. cbn. by rewrite andb_true_iff. Qed.
Lemma match_iif n p : matches p (MIif n) = true <-> from_if n p.
Proof. done. Qed.
Lemma match_oif n p : matches p (MOif n) = true <-> to_if n p.
Proof. done. Qed.
Lemma match_known p : matches p MCtKnown = true <-> known p.
Proof. done. Qed.
Lemma match_new p : matches p MCtNew = true <-> pk_ct p = CtNew.
Proof. cbn. by rewrite bool_decide_eq_true. Qed.
Lemma matches_cons p m ms : forallb (matches p) (m :: ms) = true <-> matches p m = true /\ forallb (matches p) ms = true.
Proof. apply andb_true_iff. Qed.
Lemma matches_app p a b : forallb (matches p) (a ++ b) = true <-> forallb (matches p) a = true /\ forallb (matches p) b = true.
Proof. by rewrite forallb_app, andb_true_iff. Qed.

(** Split the hypothesis that a rule's matches hold *)
Ltac open_matches H :=
  repeat (rewrite matches_app in H || rewrite matches_cons in H);
  unfold tcp_to, udp_to in H;
  repeat (rewrite port_one in H || rewrite port_two in H || rewrite match_icmp in H || rewrite match_saddr in H || rewrite match_daddr in H || rewrite match_new in H
    || rewrite match_iif in H || rewrite match_oif in H || rewrite match_known in H).
(** The lines of a writer, one rule at a time; what remains are the rules that decide *)
Ltac lines :=
  repeat match goal with
  | |- Forall _ (_ ++ _) => apply Forall_app; split
  | |- Forall _ (_ :: _) => apply Forall_cons; split
  | |- Forall _ [] => apply Forall_nil_2
  | |- Forall _ (when _ _) => apply Forall_when; intros ?
  | |- Forall _ (if _ then [] else _) => case_match; [apply Forall_nil_2|]
  | |- yields _ _ (Text _) => exact I
  | |- yields _ _ (comment _) => exact I
  | |- yields _ _ blank => exact I
  | |- yields _ _ (Rule _ _) => first [intros Hd; cbn in Hd; discriminate Hd | let Hm := fresh "Hm" in intros _ ? Hm; open_matches Hm]
  end.

(** ** Chains that only drop *)
Section Firewall.
Context {UC : Unicode} {SH : Sha256}.

Lemma comment_yields o P s : yields o P (comment s).
Proof. exact I. Qed.

Lemma antispoof_silent P iface : Forall (yields OAccept P) (antispoof_rules iface).
Proof. unfold antispoof_rules. lines. Qed.
Lemma wan_antispoof_silent P wan : Forall (yields OAccept P) (write_wan_antispoof wan).
Proof. unfold write_wan_antispoof. lines; apply antispoof_silent. Qed.
Lemma custom_deny_silent P cfg direction : Forall (yields OAccept P) (write_custom_rules cfg direction "deny").
Proof.
  apply Forall_concat_map. intros rule _. unfold custom_rule. case_match; [constructor|]. cbv zeta. case_match; [constructor|]. lines.
Qed.

Lemma device_chain_silent P cfg : Forall (yields OAccept P) (device_profiles_chain cfg).
Proof.
  unfold device_profiles_chain. lines. apply Forall_concat_map. intros profile _. unfold profile_rules. lines.
  apply Forall_concat_map. intros ip _. unfold device_rules. lines.
  apply Forall_concat_map. intros service _. unfold service_rules. lines.
  apply Forall_concat. rewrite Forall_forall. intros ls Hls. apply elem_of_lookup_imap in Hls as (i & day & -> & _).
  unfold write_allowed_windows. rewrite Forall_map. rewrite Forall_forall. by intros w _ Hd.
Qed.

Lemma run_never_accepts depth table chain p : (forall c, Forall (yields OAccept (fun _ => False)) (table c)) ->
  Forall (yields OAccept (fun _ => False)) chain -> run depth table chain p <> Some OAccept.
Proof.
  intros Ht. revert chain p. induction depth as [|d IH]; intros chain p Hc Hr; cbn in Hr.
  - by apply (run_yields OAccept _ chain p (fun _ => False)) in Hr.
  - apply (run_yields OAccept _ chain p (fun _ => False)) in Hr; [done| |done]. intros c q Hq. by destruct (IH (table c) q (Ht c)).
Qed.
Lemma chains_silent cfg c : Forall (yields OAccept (fun _ => False)) (chains cfg c).
Proof. unfold chains. destruct (c =s _); [apply device_chain_silent|constructor]. Qed.

Lemma run_sixteen cfg chain p : run JUMP_DEPTH (chains cfg) chain p = run_with (fun c q => run 15 (chains cfg) (chains cfg c) q) chain p.
Proof. reflexivity. Qed.

(** What a base chain accepts *)
Lemma passes_yields cfg chain p P : Forall (yields OAccept P) chain -> passes (chains cfg) chain p = true -> P p.
Proof.
  intros Hc Hp. unfold passes in Hp. destruct (run JUMP_DEPTH (chains cfg) chain p) as [[]|] eqn:Er; try done.
  rewrite run_sixteen in Er. eapply (run_yields OAccept); [|exact Hc|exact Er].
  intros c q Hq. exfalso. eapply (run_never_accepts 15 (chains cfg)); [apply chains_silent|apply (chains_silent cfg c)|exact Hq].
Qed.

(** ** Reaching the router *)
Inductive LanService (cfg : SystemConfig) (p : Packet) : Prop :=
  | ls_proxy : squid_enabled (c_squid_proxy cfg) = true -> to_port "tcp" (squid_input_port cfg) p -> LanService cfg p
  | ls_management : sys_management_access (c_system cfg) <> "wireguard_only" ->
      to_port "tcp" (sys_https_port (c_system cfg)) p \/ to_port "tcp" 22 p -> LanService cfg p
  | ls_names : to_port "udp" 53 p \/ to_port "udp" 67 p \/ to_port "tcp" 53 p -> LanService cfg p
  | ls_icmp : icmp p -> LanService cfg p
  | ls_rule rule : rule ∈ items (fw_custom_rules (c_firewall cfg)) -> rule_enabled rule = true -> rule_direction rule = "input" ->
      rule_action rule = "allow" -> forallb (matches p) (custom_protocol rule) = true ->
      (rule_src_ip rule <> EmptyString -> source_in (rule_src_ip rule) p) -> LanService cfg p.
Definition wan_path (cfg : SystemConfig) (p : Packet) : Prop :=
  wan_interface (c_wan cfg) <> EmptyString /\ from_if (wan_interface (c_wan cfg)) p \/ from_if "ppp*" p.

Inductive Exposed (cfg : SystemConfig) (p : Packet) : Prop :=
  | ex_loopback : from_if "lo" p -> Exposed cfg p
  | ex_known : known p -> Exposed cfg p
  | ex_endpoint : wg_enabled (c_wireguard cfg) = true -> wan_path cfg p -> to_port "udp" (wg_listen_port (c_wireguard cfg)) p -> Exposed cfg p
  | ex_tunnel : wg_enabled (c_wireguard cfg) = true -> from_if (wg_interface (c_wireguard cfg)) p ->
      to_port "tcp" (sys_https_port (c_system cfg)) p \/ to_port "tcp" 22 p \/ to_port "udp" 53 p \/ to_port "tcp" 53 p -> Exposed cfg p
  | ex_lan : from_if (lan_interface (c_lan cfg)) p -> LanService cfg p -> Exposed cfg p
  | ex_segment lan : lan ∈ items (fw_extra_lans (c_firewall cfg)) -> xl_enabled lan = true -> from_if (xl_interface lan) p -> icmp p -> Exposed cfg p.

Lemma some_string_true s : some_string s = true -> s <> EmptyString.
Proof. unfold some_string, is_empty. intros H ->. done. Qed.

Lemma input_guards_exposed cfg : Forall (yields OAccept (Exposed cfg)) (input_guards cfg).
Proof.
  unfold input_guards. lines; try apply wan_antispoof_silent; try apply custom_deny_silent.
  - apply ex_loopback. tauto.
  - unfold write_known_wg_peer_endpoint_input_rules. cbv zeta. case_match; [constructor|]. to_prop. unfold known_endpoint_rules. lines.
    + apply ex_endpoint; [by to_prop| |tauto]. left. split; [by apply some_string_true|tauto].
    + apply ex_endpoint; [by to_prop| |tauto]. right. tauto.
  - apply ex_known. tauto.
Qed.

Lemma input_wireguard_exposed cfg : Forall (yields OAccept (Exposed cfg)) (input_wireguard cfg).
Proof.
  unfold input_wireguard, wg_endpoint_rules. cbv zeta. lines; try (apply ex_tunnel; [done|tauto|tauto]).
  - apply ex_endpoint; [done| |tauto]. left. split; [by apply some_string_true|tauto].
  - apply ex_endpoint; [done| |tauto]. right. tauto.
Qed.
Lemma input_squid_exposed cfg : Forall (yields OAccept (Exposed cfg)) (input_squid cfg).
Proof. unfold input_squid. cbv zeta. lines. to_prop. apply ex_lan; [tauto|]. apply ls_proxy; tauto. Qed.
Lemma input_lan_exposed cfg : Forall (yields OAccept (Exposed cfg)) (input_lan cfg).
Proof.
  unfold input_lan. cbv zeta. lines.
  - case_match; lines; to_prop; (apply ex_lan; [tauto|apply ls_management; tauto]).
  - apply ex_lan; [tauto|apply ls_names; tauto].
  - apply ex_lan; [tauto|apply ls_names; tauto].
  - apply ex_lan; [tauto|apply ls_icmp; tauto].
Qed.
Lemma extra_input_exposed cfg : Forall (yields OAccept (Exposed cfg)) (write_extra_lan_input_rules cfg).
Proof.
  apply Forall_concat_map. intros lan Hl. unfold extra_input_rules. lines. to_prop. eapply ex_segment; [done|done|tauto|tauto].
Qed.

(** A custom rule that is written matches its fields. *)
Lemma custom_allow_yields (P : Packet -> Prop) cfg direction :
  (forall rule p, rule ∈ items (fw_custom_rules (c_firewall cfg)) -> rule_enabled rule = true -> rule_direction rule = direction ->
     rule_action rule = "allow" -> from_if (lan_interface (c_lan cfg)) p -> forallb (matches p) (custom_protocol rule) = true ->
     (rule_src_ip rule <> EmptyString -> source_in (rule_src_ip rule) p) ->
     (direction = "forward" -> wan_enabled (c_wan cfg) = true /\ (to_if (wan_interface (c_wan cfg)) p \/ to_if "ppp*" p)) -> P p) ->
  Forall (yields OAccept P) (write_custom_rules cfg direction "allow").
Proof.
  intros HP. apply Forall_concat_map. intros rule Hr. unfold custom_rule. case_match eqn:Es; [constructor|]. cbv zeta. case_match eqn:Ew; [constructor|].
  lines. to_prop. destruct Hm as ([Hi _] & Hs & Hp & Ho). apply (HP rule); try done.
  - intros Hne. unfold when, some_string, is_empty in Hs. rewrite (proj2 (String.eqb_neq _ _) Hne) in Hs. cbn [negb] in Hs. open_matches Hs. tauto.
  - intros ->. assert (Hscope : firewall_rule_scope rule = "wan").
    { unfold firewall_rule_scope. repeat match goal with H : rule_direction rule = _ |- _ => rewrite H | H : rule_action rule = _ |- _ => rewrite H end. done. }
    rewrite Hscope in *. cbn [String.eqb Ascii.eqb Bool.eqb andb when] in *. change ("forward" =s "forward") with true in *. change ("wan" =s "wan") with true in *.
    cbn [andb when] in *. to_prop. split; [done|]. open_matches Ho. destruct Ho as [Ho _]. cbn in Ho. rewrite orb_false_r, orb_true_iff in Ho. exact Ho.
Qed.

Lemma input_chain_exposed cfg : Forall (yields OAccept (Exposed cfg)) (input_chain cfg).
Proof.
  unfold input_chain. lines; auto using input_guards_exposed, input_wireguard_exposed, input_squid_exposed, input_lan_exposed, extra_input_exposed.
  - unfold write_wg_client_input_rules. cbv zeta. lines. case_match; by intros.
  - apply custom_allow_yields. intros rule p Hr He Hd Ha Hi Hp Hs _. apply ex_lan; [done|]. by eapply ls_rule.
Qed.

(** ** Crossing the router *)
Definition wan_exit (cfg : SystemConfig) (p : Packet) : Prop := to_if (wan_interface (c_wan cfg)) p \/ to_if "ppp*" p.
Definition segment_protocol (lan : ExtraLANConfig) : string := if is_empty (xl_protocol lan) then "tcp" else xl_protocol lan.
(** A configured exception: [src] may use the one service of the segment. *)
Record Allowance (cfg : SystemConfig) (lan : ExtraLANConfig) (src : string) (p : Packet) : Prop := {
  al_segment : lan ∈ items (fw_extra_lans (c_firewall cfg));
  al_enabled : xl_enabled lan = true;
  al_listed : src ∈ items (xl_allow_from lan);
  al_carrier : extra_lan_source_interface cfg src <> EmptyString;
  al_from : from_if (extra_lan_source_interface cfg src) p;
  al_source : source_in src p;
  al_dest : dest_in (xl_dst_ip lan) p;
  al_port : to_port (segment_protocol lan) (xl_dst_port lan) p;
  al_to : to_if (xl_interface lan) p;
}.

Inductive Forwarded (cfg : SystemConfig) (p : Packet) : Prop :=
  | fw_known : known p -> Forwarded cfg p
  | fw_lan : from_if (lan_interface (c_lan cfg)) p -> wan_enabled (c_wan cfg) = true -> wan_exit cfg p -> Forwarded cfg p
  | fw_segment lan src : Allowance cfg lan src p -> Forwarded cfg p
  | fw_tunnel : wg_enabled (c_wireguard cfg) = true -> from_if (wg_interface (c_wireguard cfg)) p ->
      to_if (lan_interface (c_lan cfg)) p \/ wan_enabled (c_wan cfg) = true /\ wan_exit cfg p -> Forwarded cfg p
  | fw_redirected rule : wg_enabled (c_wireguard cfg) = true -> rule ∈ items (fw_port_forwards (c_firewall cfg)) -> pf_enabled rule = true ->
      from_if (wg_server_interface cfg) p -> to_if (lan_interface (c_lan cfg)) p -> dest_in (pf_internal_ip rule) p ->
      pk_dport p = pf_internal_port rule -> Forwarded cfg p
  | fw_site : wgc_enabled (c_wg_client cfg) = true -> to_if (wg_client_interface cfg) p ->
      from_if (lan_interface (c_lan cfg)) p \/ wg_enabled (c_wireguard cfg) = true /\ from_if (wg_interface (c_wireguard cfg)) p -> Forwarded cfg p.

Lemma restricted_silent P cfg : Forall (yields OAccept P) (restricted_rules cfg).
Proof. unfold restricted_rules. cbv zeta. lines. apply Forall_concat_map. intros item _. lines. Qed.
Lemma accounting_silent P cfg : Forall (yields OAccept P) (write_accounting_rules cfg).
Proof. unfold write_accounting_rules. lines. Qed.
Lemma forward_guards_silent P cfg : Forall (yields OAccept P) (forward_guards cfg).
Proof.
  unfold forward_guards. cbv zeta. lines; auto using wan_antispoof_silent, custom_deny_silent, restricted_silent, accounting_silent.
Qed.

Lemma extra_forward_allowed cfg : Forall (yields OAccept (Forwarded cfg)) (write_extra_lan_forward_rules cfg).
Proof.
  apply Forall_concat_map. intros lan Hl. unfold extra_forward_rules. lines. apply Forall_concat_map. intros src Hs.
  unfold allow_from_rule. cbv zeta. lines. to_prop. eapply (fw_segment _ _ lan src). split; try tauto. unfold is_empty in *. by to_prop.
Qed.
Lemma port_forwards_allowed cfg : Forall (yields OAccept (Forwarded cfg)) (write_tunnel_port_forward_forward cfg).
Proof.
  unfold write_tunnel_port_forward_forward. lines. unfold forward_lines, enabled_tunnel_port_forwards.
  destruct (wg_enabled (c_wireguard cfg)) eqn:Ew; cbn [negb]; [|constructor].
  apply Forall_concat_map. intros rule Hr. apply list_elem_of_In, filter_In in Hr as [Hr He]. rewrite Forall_map, Forall_forall. intros proto _.
  lines. destruct Hm as (H1 & H2 & H3 & [_ H4] & _). apply (fw_redirected _ _ rule); try done. by apply list_elem_of_In.
Qed.
Lemma wg_client_allowed cfg : Forall (yields OAccept (Forwarded cfg)) (write_wg_client_forward_rules cfg).
Proof.
  unfold write_wg_client_forward_rules. lines. rewrite Forall_map. lines; to_prop; (apply fw_site; [done|tauto|tauto]).
Qed.

Lemma forward_chain_allowed cfg : Forall (yields OAccept (Forwarded cfg)) (forward_chain cfg).
Proof.
  unfold forward_chain, forward_accepts, forward_lan, forward_wireguard. cbv zeta.
  lines; auto using forward_guards_silent, extra_forward_allowed, port_forwards_allowed, wg_client_allowed; to_prop.
  - apply fw_known. tauto.
  - apply custom_allow_yields. intros rule p Hr He Hd Ha Hi _ _ Hw. apply fw_lan; [done|by apply Hw|by apply Hw].
  - apply fw_lan; unfold wan_exit; tauto.
  - apply fw_lan; unfold wan_exit; tauto.
  - apply fw_tunnel; tauto.
  - apply fw_tunnel; unfold wan_exit; tauto.
  - apply fw_tunnel; unfold wan_exit; tauto.
Qed.

(** *** Denials come first *)
Lemma passes_before cfg guards rest ms st p (Q : Packet -> Prop) : Forall (yields OAccept Q) guards -> Rule ms st ∈ guards ->
  forallb (matches p) ms = true -> act (fun c q => run 15 (chains cfg) (chains cfg c) q) st p = Some ODrop ->
  passes (chains cfg) (guards ++ rest) p = true -> Q p.
Proof.
  intros Hg Hin Hm Ha. apply list_elem_of_split in Hin as (pre & post & ->). apply Forall_app in Hg as [Hpre _].
  unfold passes. rewrite run_sixteen, <- app_assoc, run_with_app. set (sub := fun c q => run 15 (chains cfg) (chains cfg c) q) in *.
  destruct (run_with sub pre p) as [[]|] eqn:Er; [|done|done|].
  - intros _. refine (run_yields OAccept sub pre p Q _ Hpre Er).
    intros c q Hq. exfalso. eapply (run_never_accepts 15 (chains cfg)); [apply chains_silent|apply (chains_silent cfg c)|exact Hq].
  - cbn [app run_with]. by rewrite Hm, Ha.
Qed.
Lemma passes_denied cfg guards rest ms st p : Forall (yields OAccept (fun _ => False)) guards -> Rule ms st ∈ guards ->
  forallb (matches p) ms = true -> act (fun c q => run 15 (chains cfg) (chains cfg c) q) st p = Some ODrop ->
  passes (chains cfg) (guards ++ rest) p = false.
Proof.
  intros Hg Hin Hm Ha. destruct (passes (chains cfg) (guards ++ rest) p) eqn:Hp; [|done].
  by destruct (passes_before cfg guards rest ms st p (fun _ => False) Hg Hin Hm Ha Hp).
Qed.
Lemma forward_denied cfg ms st p : Rule ms st ∈ forward_guards cfg -> forallb (matches p) ms = true -> decides st = Some ODrop ->
  passes (chains cfg) (forward_chain cfg) p = false.
Proof.
  intros Hin Hm Hd. apply (passes_denied cfg (forward_guards cfg) _ ms st); [apply forward_guards_silent|done|done|].
  by destruct st as [| | | |? []| | | | |]; cbn in Hd |- *.
Qed.

(** *** Schedules *)
(** Some profile that manages the device and the service has a window open. *)
Definition window_end (w : AccessWindow) : string := if aw_end w =s "23:59" then "23:59:59" else aw_end w.
Definition InWindow (cfg : SystemConfig) (p : Packet) : Prop := exists profile ip service index day window,
  profile ∈ items (df_device_profiles (c_adguard cfg)) /\ dp_enabled profile = true /\ ip ∈ items (dp_ip_addresses profile)
  /\ service ∈ items (dp_services profile) /\ ORDERED_SCHEDULE_DAYS !! index = Some day
  /\ window ∈ windows_of day (effective_day_windows (dp_schedule profile))
  /\ source_in ip p /\ pk_in_set p ("svc_" +:+ service) = true
  /\ pk_day p = Z.of_nat (Nat.modulo (index + 1) 7) /\ hour_matches (aw_start window) (window_end window) (pk_time p) = true.
Definition profile_lines (cfg : SystemConfig) : list Line := concat (map profile_rules (items (df_device_profiles (c_adguard cfg)))).

Lemma elem_of_concat_map {A B} (f : A -> list B) l x y : x ∈ l -> y ∈ f x -> y ∈ concat (map f l).
Proof. intros Hx Hy. apply list_elem_of_In, in_concat. exists (f x). split; [by apply in_map, list_elem_of_In|by apply list_elem_of_In]. Qed.

Lemma profile_returns cfg : Forall (yields OReturn (InWindow cfg)) (profile_lines cfg).
Proof.
  apply Forall_concat_map. intros profile Hp. unfold profile_rules. case_match eqn:He; [constructor|]. to_prop. lines.
  apply Forall_concat_map. intros ip Hip. unfold device_rules. lines.
  apply Forall_concat_map. intros service Hs. apply list_elem_of_In, filter_In in Hs as [Hs _]. unfold service_rules. lines.
  apply Forall_concat. rewrite Forall_forall. intros ls Hls. apply elem_of_lookup_imap in Hls as (i & day & -> & Hday).
  unfold write_allowed_windows. rewrite Forall_map, Forall_forall. intros w Hw _ p Hm. cbv zeta in Hm. open_matches Hm.
  destruct Hm as (H1 & H2 & H3 & H4 & _). cbn in H2, H3, H4. to_prop. exists profile, ip, service, i, day, w.
  split_and!; try done. by apply list_elem_of_In.
Qed.
Lemma profile_silent cfg : Forall (yields OAccept (fun _ => False)) (profile_lines cfg).
Proof. pose proof (device_chain_silent (fun _ => False) cfg) as H. by apply Forall_app in H as [H _]. Qed.

Lemma profile_drops sub cfg ms p : (forall c q, sub c q <> Some OAccept) ->
  Rule ms SDrop ∈ profile_lines cfg -> forallb (matches p) ms = true ->
  InWindow cfg p \/ run_with sub (device_profiles_chain cfg) p = Some ODrop.
Proof.
  intros Hsub Hin Hm. unfold device_profiles_chain. fold (profile_lines cfg). pose proof (profile_returns cfg) as Hr. pose proof (profile_silent cfg) as Ha.
  apply list_elem_of_split in Hin as (pre & post & Hl). rewrite Hl in Hr, Ha |- *. apply Forall_app in Hr as [Hr _]. apply Forall_app in Ha as [Ha _].
  rewrite <- app_assoc, run_with_app. destruct (run_with sub pre p) as [[]|] eqn:Er; [|by right| |].
  - exfalso. refine (run_yields OAccept sub pre p (fun _ => False) _ Ha Er). intros c q Hq. by destruct (Hsub c q Hq).
  - left. refine (run_yields OReturn sub pre p _ _ Hr Er). done.
  - right. cbn [app run_with]. by rewrite Hm.
Qed.

(** A service the generator knows is written the way it is looked up. *)
Lemma service_canonical s d : service_domains s = Some d -> to_lower (trim s) = s.
Proof.
  unfold service_domains. intros H.
  repeat (match type of H with (if ?b then _ else _) = _ => let E := fresh "E" in destruct b eqn:E; [apply String.eqb_eq in E as ->; vm_compute; reflexivity|] end).
  done.
Qed.
Lemma btree_insert_nonempty x l : btree_insert x l <> [].
Proof. destruct l; cbn; [done|]. by destruct (bytes_cmp _ _). Qed.
Lemma services_nonempty cfg profile service d : df_enabled (c_adguard cfg) = true -> profile ∈ items (df_device_profiles (c_adguard cfg)) ->
  dp_enabled profile = true -> service ∈ items (dp_services profile) -> service_domains service = Some d -> active_managed_services cfg <> [].
Proof.
  intros Hdf Hp Hen Hs Hd. unfold active_managed_services. match goal with |- fold_left _ (concat (map ?f _)) _ <> _ => set (g := f) end.
  assert (Hne : concat (map g (items (df_device_profiles (c_adguard cfg)))) <> []).
  { intros Hnil. assert (Hin : service ∈ concat (map g (items (df_device_profiles (c_adguard cfg))))); [|rewrite Hnil in Hin; by apply elem_of_nil in Hin].
    apply (elem_of_concat_map g _ profile); [done|]. unfold g. rewrite Hdf, Hen. cbn [negb orb].
    apply list_elem_of_In, filter_In. split; [|by rewrite Hd]. rewrite <- (service_canonical service d Hd).
    apply (in_map (fun s => to_lower (trim s))). by apply list_elem_of_In. }
  destruct (exists_last Hne) as (l & x & ->). rewrite fold_left_app. apply btree_insert_nonempty.
Qed.

(** *** Validated configurations *)
Lemma accepted_rules {B64 : Base64} c i o n : accepted c i o -> n ∈ items (fw_custom_rules (c_firewall c)) ->
  exists k, validate_custom_rule c o k n = [].
Proof.
  intros A Hn. pose proof (acc_firewall _ _ _ A) as Hf. unfold validate_firewall in Hf. split_errors.
  match goal with H : each _ _ = [] |- _ => rewrite each_nil in H end. apply list_elem_of_lookup in Hn as [k Hk]. exists k. eauto.
Qed.
End Firewall.

Lemma runtime_lan_again cfg : runtime_lan_interface (runtime cfg) = runtime_lan_interface cfg.
Proof. unfold runtime_lan_interface. cbn. unfold runtime_lan_interface. by destruct (wifi_enabled (c_wifi cfg)). Qed.

(** *** What stands among the guards of the forward chain *)
Section Guards.
Context {UC : Unicode} {SH : Sha256} (cfg : SystemConfig).

Lemma some_string_ne s : s <> EmptyString -> some_string s = true.
Proof. intros Hs. unfold some_string, is_empty. by apply negb_true_iff, String.eqb_neq. Qed.
Lemma elem_of_when {A} b (l : list A) x : b = true -> x ∈ l -> x ∈ when b l.
Proof. by intros ->. Qed.

Lemma guard_invalid : Rule [MCtInvalid] SDrop ∈ forward_guards cfg.
Proof. unfold forward_guards. cbv zeta. set_solver. Qed.
Lemma guard_spoof iface r : wan_interface (c_wan cfg) <> EmptyString -> iface = wan_interface (c_wan cfg) \/ iface = "ppp*" ->
  r ∈ antispoof_rules iface -> r ∈ forward_guards cfg.
Proof.
  intros Hw Hi Hr. apply elem_of_app. left. apply elem_of_when; [by apply some_string_ne|]. apply elem_of_app. right.
  unfold write_wan_antispoof. destruct Hi as [->| ->]; set_solver.
Qed.
Lemma guard_lan : lan_interface (c_lan cfg) <> EmptyString ->
  Rule [MIif (lan_interface (c_lan cfg)); MSaddrNot (lan_cidr (c_lan cfg))] SDrop ∈ forward_guards cfg.
Proof. intros Hl. apply elem_of_app. right. apply elem_of_app. left. apply elem_of_when; [by apply some_string_ne|set_solver]. Qed.
Lemma guard_profiles : active_managed_services cfg <> [] -> Rule [] (SJump "device_profiles") ∈ forward_guards cfg.
Proof.
  intros Ha. unfold forward_guards. cbv zeta. do 3 (apply elem_of_app; right). apply elem_of_app. left.
  apply elem_of_when; [|set_solver]. by destruct (active_managed_services cfg).
Qed.
Lemma guard_restricted item : squid_enabled (c_squid_proxy cfg) = true -> item ∈ items (squid_restricted_ips (c_squid_proxy cfg)) ->
  ri_enabled item = true -> trim (ri_ip_address item) <> EmptyString -> Rule [MSaddr (trim (ri_ip_address item))] SDrop ∈ forward_guards cfg.
Proof.
  intros Hsq Hin Hen Hne. unfold forward_guards. cbv zeta. do 5 (apply elem_of_app; right). apply elem_of_app. left.
  unfold restricted_rules. cbv zeta. rewrite Hsq. apply elem_of_when.
  { by destruct (items (squid_restricted_ips (c_squid_proxy cfg))); [apply elem_of_nil in Hin|]. }
  apply elem_of_app. right. apply elem_of_app. left. apply (elem_of_concat_map _ _ item); [done|].
  rewrite some_string_ne, Hen by done. cbn. left.
Qed.
Lemma guard_custom rule : rule ∈ items (fw_custom_rules (c_firewall cfg)) -> rule_enabled rule = true -> rule_direction rule = "forward" ->
  rule_action rule = "deny" -> firewall_rule_scope rule = "all" ->
  Rule ([MIif (lan_interface (c_lan cfg))] ++ when (some_string (rule_src_ip rule)) [MSaddr (rule_src_ip rule)] ++ custom_protocol rule ++ [])
    (SCount (firewall_rule_counter rule) false) ∈ forward_guards cfg.
Proof.
  intros Hin Hen Hd Ha Hsc. unfold forward_guards. cbv zeta. do 4 (apply elem_of_app; right). apply elem_of_app. left.
  apply (elem_of_concat_map _ _ rule); [done|]. unfold custom_rule. rewrite Hen, Hd, Ha, Hsc. cbn. right. left.
Qed.
Lemma guard_custom_wan rule : rule ∈ items (fw_custom_rules (c_firewall cfg)) -> rule_enabled rule = true -> rule_direction rule = "forward" ->
  rule_action rule = "deny" -> firewall_rule_scope rule = "wan" -> wan_enabled (c_wan cfg) = true ->
  Rule ([MIif (lan_interface (c_lan cfg))] ++ when (some_string (rule_src_ip rule)) [MSaddr (rule_src_ip rule)] ++ custom_protocol rule
        ++ [MOifIn [wan_interface (c_wan cfg); "ppp*"]])
    (SCount (firewall_rule_counter rule) false) ∈ forward_guards cfg.
Proof.
  intros Hin Hen Hd Ha Hsc Hw. unfold forward_guards. cbv zeta. do 4 (apply elem_of_app; right). apply elem_of_app. left.
  apply (elem_of_concat_map _ _ rule); [done|]. unfold custom_rule. rewrite Hen, Hd, Ha, Hsc, Hw. right. left.
Qed.
Lemma forward_scope rule : rule_direction rule = "forward" -> rule_action rule = "deny" -> firewall_rule_scope rule = "wan" \/ firewall_rule_scope rule = "all".
Proof. intros Hd Ha. unfold firewall_rule_scope. rewrite Hd, Ha. destruct (rule_scope rule =s "wan"); [left|right]; done. Qed.
(** Where a deny rule binds: everywhere, or on what leaves through an enabled WAN *)
Definition rule_reaches (rule : FirewallRule) (p : Packet) : Prop :=
  firewall_rule_scope rule = "all" \/ wan_enabled (c_wan cfg) = true /\ wan_exit cfg p.
Lemma guard_reaching rule p : rule ∈ items (fw_custom_rules (c_firewall cfg)) -> rule_enabled rule = true -> rule_direction rule = "forward" ->
  rule_action rule = "deny" -> rule_reaches rule p ->
  exists ms, forallb (matches p) ms = true
    /\ Rule ([MIif (lan_interface (c_lan cfg))] ++ when (some_string (rule_src_ip rule)) [MSaddr (rule_src_ip rule)] ++ custom_protocol rule ++ ms)
         (SCount (firewall_rule_counter rule) false) ∈ forward_guards cfg.
Proof.
  intros Hin Hen Hd Ha Hr. destruct (forward_scope rule Hd Ha) as [Hs|Hs]; [|exists []; split; [done|by apply guard_custom]].
  destruct Hr as [Hr|[Hw Hx]]; [congruence|]. exists [MOifIn [wan_interface (c_wan cfg); "ppp*"]]. split; [|by apply guard_custom_wan].
  cbn [forallb matches existsb]. rewrite orb_false_r, andb_true_r. by apply orb_true_iff.
Qed.

Lemma not_denied ms st p : passes (chains cfg) (forward_chain cfg) p = true -> Rule ms st ∈ forward_guards cfg -> decides st = Some ODrop ->
  forallb (matches p) ms = false.
Proof. intros Hp Hin Hd. destruct (forallb (matches p) ms) eqn:Hm; [|done]. by rewrite (forward_denied cfg ms st p Hin Hm Hd) in Hp. Qed.

Lemma genuine_wan p : passes (chains cfg) (forward_chain cfg) p = true -> wan_interface (c_wan cfg) <> EmptyString -> wan_path cfg p ->
  pk_ipv4 p = true /\ pk_routed p = true /\ forall a, a ∈ RESERVED_WAN_SOURCES -> ~ source_in a p.
Proof.
  intros Hp Hne Hw. assert (Hif : exists iface, (iface = wan_interface (c_wan cfg) \/ iface = "ppp*") /\ from_if iface p) by (destruct Hw as [[_ H]|H]; eauto).
  destruct Hif as (iface & Hi & Hf). unfold from_if in Hf.
  assert (Hno : forall ms, Rule ms SDrop ∈ antispoof_rules iface -> forallb (matches p) ms = false).
  { intros ms Hin. apply (not_denied ms SDrop p Hp); [|done]. by apply (guard_spoof iface). }
  unfold antispoof_rules in Hno. split; [|split].
  - specialize (Hno [MIif iface; MIpv6] ltac:(set_solver)). cbn in Hno. rewrite Hf in Hno. by destruct (pk_ipv4 p).
  - specialize (Hno [MIif iface; MNoRoute] ltac:(set_solver)). cbn in Hno. rewrite Hf in Hno. by destruct (pk_routed p).
  - intros a Ha [H4 Hs]. specialize (Hno [MIif iface; MSaddrIn RESERVED_WAN_SOURCES] ltac:(set_solver)).
    cbn [forallb matches] in Hno. rewrite Hf, H4, andb_true_r in Hno. cbn [andb] in Hno.
    assert (Hx : existsb (fun a => addr_matches a (pk_saddr p)) RESERVED_WAN_SOURCES = true); [|congruence].
    apply existsb_exists. exists a. split; [by apply list_elem_of_In|done].
Qed.
End Guards.

(** An interface that is neither the router's own nor one of its networks *)
Definition outside (cfg : SystemConfig) (iface : string) : Prop :=
  name_matches "lo" iface = false /\ name_matches (lan_interface (c_lan cfg)) iface = false
  /\ (wg_enabled (c_wireguard cfg) = true -> name_matches (wg_interface (c_wireguard cfg)) iface = false)
  /\ forall lan, lan ∈ items (fw_extra_lans (c_firewall cfg)) -> xl_enabled lan = true -> name_matches (xl_interface lan) iface = false.

(** C15: The router is closed to the outside but for the tunnel.  A packet that
    belongs to no known connection and arrives on an interface that is neither
    loopback, the LAN, the tunnel nor an extra segment enters the router only
    when the tunnel is enabled, on a WAN path, to the tunnel's UDP port. *)
Theorem outside_reaches_only_wireguard {UC : Unicode} {SH : Sha256} (cfg : SystemConfig) (p : Packet) :
  input_passes cfg p = true -> outside (runtime cfg) (pk_iif p) -> ct_known (pk_ct p) = false ->
  wg_enabled (c_wireguard cfg) = true /\ wan_path cfg p /\ to_port "udp" (wg_listen_port (c_wireguard cfg)) p.
Proof.
  intros Hp (Hlo & Hlan & Hwg & Hseg) Hct. destruct (passes_yields _ _ _ _ (input_chain_exposed (runtime cfg)) Hp)
    as [H|H|He Hw Hport|He H|H|lan Hl He H]; unfold from_if, known in *; try congruence; [done| |].
  - by rewrite (Hwg He) in H.
  - by rewrite (Hseg lan Hl He) in H.
Qed.

(** Management through the tunnel only means just that.  In an accepted
    configuration with that mode, no packet from the LAN (which is not also the
    tunnel or loopback) opens a connection to the management port. *)
Theorem wireguard_only_closes_lan {UC : Unicode} {B64 : Base64} {SH : Sha256} (cfg : SystemConfig) (p : Packet) :
  validate cfg = Ok tt -> sys_management_access (c_system cfg) = "wireguard_only" ->
  pk_proto p = "tcp" -> pk_dport p = sys_https_port (c_system cfg) -> ct_known (pk_ct p) = false ->
  name_matches "lo" (pk_iif p) = false -> name_matches (wg_interface (c_wireguard cfg)) (pk_iif p) = false ->
  input_passes cfg p = false.
Proof.
  intros (i & o & A)%validate_accepted Hmode Htcp Hport Hct Hlo Hwg. destruct (input_passes cfg p) eqn:Hp; [|done]. exfalso.
  pose proof (acc_system _ _ _ A) as Hs. unfold validate_system in Hs. split_errors.
  destruct (passes_yields _ _ _ _ (input_chain_exposed (runtime cfg)) Hp) as [Hx|Hx|He Hw Hq|He Hif Hq|Hif Hls|lan Hl He Hif Hq];
    unfold from_if, known, to_port, icmp in *; cbn in *; try congruence; [naive_solver congruence| |naive_solver congruence].
  destruct Hls as [He Hq|Hm Hq|Hq|Hq|rule Hr He Hd Ha Hq _]; unfold to_port, icmp in *; cbn in *.
  - pose proof (acc_squid _ _ _ A) as Hsq. unfold validate_squid in Hsq. cbn in He. rewrite He in Hsq. split_errors.
    unfold squid_input_port in Hq. cbn in Hq. case_match; to_prop; lia.
  - done.
  - destruct Hq as [Hq|[Hq|Hq]]; destruct Hq as [Hq1 Hq2]; [congruence|congruence|lia].
  - naive_solver congruence.
  - destruct (accepted_rules cfg i o rule A Hr) as [k Hk]. unfold validate_custom_rule in Hk. cbv zeta in Hk. split_errors.
    rewrite Hmode, He, Hd, Ha in *. done.
Qed.

(** C18: Forwarded connections start at home.  A packet the router forwards
    belongs to a known connection, or comes from the LAN or from the enabled
    tunnel; in particular nothing arriving from the WAN, from the remote site or
    from an isolated segment is forwarded unsolicited. *)
Theorem forwards_start_at_home {UC : Unicode} {SH : Sha256} (cfg : SystemConfig) (p : Packet) :
  forward_passes cfg p = true ->
  ct_known (pk_ct p) = true \/ from_if (runtime_lan_interface cfg) p
  \/ wg_enabled (c_wireguard cfg) = true /\ (from_if (wg_interface (c_wireguard cfg)) p \/ from_if (wg_server_interface cfg) p).
Proof.
  intros Hp. destruct (passes_yields _ _ _ _ (forward_chain_allowed (runtime cfg)) Hp) as [H|H _ _|lan src [_ _ _ Hc Hf _ _ _ _]|He H _|rule He _ _ H _ _ _|_ _ H].
  - by left.
  - right. by left.
  - unfold extra_lan_source_interface in *. cbn in Hc, Hf. destruct (parse_cidr src) as [[ip n]|]; [|done].
    destruct (match parse_cidr (lan_cidr (c_lan cfg)) with Some _ => _ | None => _ end).
    + right. left. by rewrite runtime_lan_again in Hf.
    + destruct (wg_enabled (c_wireguard cfg)) eqn:Ew; cbn [andb] in *; [|done]. case_match; [|done]. right. right. split; [done|]. by left.
  - right. right. split; [done|by left].
  - right. right. split; [done|by right].
  - destruct H as [H|[He H]]; [right; by left|]. right. right. split; [done|by left].
Qed.

(** An isolated segment is reached only by configured exception.  A packet of
    no known connection that is forwarded out of an interface other than the
    LAN, the WAN paths and the site tunnel matches an exception of an enabled
    segment: its source is one of the networks the segment names, on the
    interface that carries it, and it goes to the segment's one service. *)
Theorem segments_need_allowance {UC : Unicode} {SH : Sha256} (cfg : SystemConfig) (p : Packet) :
  forward_passes cfg p = true -> ct_known (pk_ct p) = false ->
  ~ to_if (runtime_lan_interface cfg) p -> ~ wan_exit cfg p -> (wgc_enabled (c_wg_client cfg) = true -> ~ to_if (wg_client_interface cfg) p) ->
  exists lan src, Allowance (runtime cfg) lan src p.
Proof.
  intros Hp Hk Hlan Hwan Hsite. destruct (passes_yields _ _ _ _ (forward_chain_allowed (runtime cfg)) Hp) as [H|_ _ H|lan src H|_ _ [H|[_ H]]|rule _ _ _ _ H _ _|He H _];
    unfold known in *; try done; [congruence|by exists lan, src|by destruct (Hsite He)].
Qed.

(** C19: Denials bind established connections too.  Whatever its connection state,
    the router does not forward a packet on a WAN path whose source is reserved,
    is not routed back through that path or is IPv6 (while the WAN interface is
    named), a packet from the LAN with a foreign IPv4 source (while the LAN
    interface is named), an invalid packet, one from a device the enabled proxy
    restricts, or one from the LAN that an enabled deny rule for forwarded
    traffic matches, whatever its scope: a rule of scope all matches on every
    way out, one of scope wan on the ways out of an enabled WAN. *)
Theorem denials_bind_established {UC : Unicode} {SH : Sha256} (cfg : SystemConfig) (p : Packet) :
  forward_passes cfg p = true ->
  pk_ct p <> CtInvalid
  /\ (wan_interface (c_wan cfg) <> EmptyString -> wan_path cfg p ->
       pk_ipv4 p = true /\ pk_routed p = true /\ forall a, a ∈ RESERVED_WAN_SOURCES -> ~ source_in a p)
  /\ (runtime_lan_interface cfg <> EmptyString -> from_if (runtime_lan_interface cfg) p -> pk_ipv4 p = true -> source_in (lan_cidr (c_lan cfg)) p)
  /\ (forall item, squid_enabled (c_squid_proxy cfg) = true -> item ∈ items (squid_restricted_ips (c_squid_proxy cfg)) -> ri_enabled item = true ->
       trim (ri_ip_address item) <> EmptyString -> ~ source_in (trim (ri_ip_address item)) p)
  /\ (forall rule, rule ∈ items (fw_custom_rules (c_firewall cfg)) -> rule_enabled rule = true -> rule_direction rule = "forward" ->
       rule_action rule = "deny" -> rule_reaches cfg rule p -> from_if (runtime_lan_interface cfg) p ->
       forallb (matches p) (custom_protocol rule) = true -> ~ (rule_src_ip rule = EmptyString \/ source_in (rule_src_ip rule) p)).
Proof.
  intros Hp. unfold forward_passes in Hp. split; [|split; [|split; [|split]]].
  - intros Hi. pose proof (not_denied _ _ _ p Hp (guard_invalid _) eq_refl) as Hm. cbn in Hm. by rewrite Hi in Hm.
  - by apply (genuine_wan (runtime cfg)).
  - intros Hne Hf H4. split; [done|]. pose proof (not_denied _ _ _ p Hp (guard_lan (runtime cfg) Hne) eq_refl) as Hm.
    cbn in Hm. unfold from_if in Hf. rewrite Hf, H4 in Hm. cbn in Hm. by destruct (addr_matches _ _).
  - intros item Hsq Hin Hen Hne [H4 Hs]. pose proof (not_denied _ _ _ p Hp (guard_restricted (runtime cfg) item Hsq Hin Hen Hne) eq_refl) as Hm.
    cbn in Hm. by rewrite H4, Hs in Hm.
  - intros rule Hin Hen Hd Ha Hr Hf Hproto Hsrc. destruct (guard_reaching (runtime cfg) rule p Hin Hen Hd Ha Hr) as (ms & Hms & Hg).
    pose proof (not_denied _ _ _ p Hp Hg eq_refl) as Hm. apply not_true_iff_false in Hm. apply Hm.
    rewrite !matches_app. split; [by rewrite matches_cons|]. split; [|by rewrite Hproto, Hms].
    unfold some_string, is_empty. destruct Hsrc as [->|[H4 Hs]]; [done|]. destruct (rule_src_ip rule =s EmptyString); cbn; [done|]. by rewrite H4, Hs.
Qed.

(** *** Schedules and the proxy *)
Section Managed.
Context {UC : Unicode} {SH : Sha256} (cfg : SystemConfig).

Lemma device_rule_listed profile ip r : profile ∈ items (df_device_profiles (c_adguard cfg)) -> dp_enabled profile = true ->
  ip ∈ items (dp_ip_addresses profile) -> r ∈ device_rules profile ip -> r ∈ profile_lines cfg.
Proof.
  intros Hp He Hi Hr. apply (elem_of_concat_map _ _ profile); [done|]. unfold profile_rules. rewrite He. cbn. right.
  by apply (elem_of_concat_map _ _ ip).
Qed.
Lemma service_rule_listed profile ip service d : service ∈ items (dp_services profile) -> service_domains service = Some d ->
  Rule [MSaddr ip; MDaddrSet ("svc_" +:+ service)] SDrop ∈ device_rules profile ip.
Proof.
  intros Hs Hd. unfold device_rules. do 2 right. apply (elem_of_concat_map _ _ service).
  - apply list_elem_of_In, filter_In. split; [by apply list_elem_of_In|by rewrite Hd].
  - unfold service_rules. apply elem_of_app. right. left.
Qed.

Lemma managed_denied ms p : active_managed_services cfg <> [] -> Rule ms SDrop ∈ profile_lines cfg -> forallb (matches p) ms = true ->
  passes (chains cfg) (forward_chain cfg) p = true -> InWindow cfg p.
Proof.
  intros Ha Hin Hm Hp. set (sub := fun c q => run 14 (chains cfg) (chains cfg c) q).
  destruct (profile_drops sub cfg ms p) as [H|H]; [intros c q; apply run_never_accepts; intros; apply chains_silent|done|done|exact H|].
  assert (Hd : act (fun c q => run 15 (chains cfg) (chains cfg c) q) (SJump "device_profiles") p = Some ODrop).
  { cbn [act]. change (run 15 (chains cfg) (chains cfg "device_profiles") p) with (run_with sub (device_profiles_chain cfg) p). by rewrite H. }
  pose proof (passes_denied cfg (forward_guards cfg)
    ([comment "Allow established/related"; Rule [MCtKnown] SAccept; blank;
      comment "TCP MSS clamping prevents PPPoE fragmentation stalls"; Rule [] SClampMss; blank] ++ forward_accepts cfg)
    [] _ p (forward_guards_silent _ cfg) (guard_profiles cfg Ha) eq_refl Hd) as Hf. unfold forward_chain in Hp. congruence.
Qed.
End Managed.

(** C20: Device schedules are enforced, on running connections too.  A packet a
    managed device sends through the router to a managed service of its profile,
    or to a foreign resolver (ports 53 and 853), passes only while a window of a
    profile that manages the device is open. *)
Theorem schedules_are_enforced {UC : Unicode} {SH : Sha256} (cfg : SystemConfig) (p : Packet) (profile : DeviceProfile) (ip service : string) :
  forward_passes cfg p = true -> df_enabled (c_adguard cfg) = true -> profile ∈ items (df_device_profiles (c_adguard cfg)) ->
  dp_enabled profile = true -> ip ∈ items (dp_ip_addresses profile) -> service ∈ items (dp_services profile) -> service_domains service <> None ->
  source_in ip p ->
  pk_in_set p ("svc_" +:+ service) = true
    \/ (exists proto, proto ∈ ["tcp"; "udp"] /\ (to_port proto 53 p \/ to_port proto 853 p)) ->
  InWindow cfg p.
Proof.
  intros Hp Hdf Hpr Hen Hip Hs Hd [H4 Hsrc] Hcase. destruct (service_domains service) as [d|] eqn:Ed; [|done]. change (InWindow (runtime cfg) p).
  assert (Ha : active_managed_services (runtime cfg) <> []) by by eapply (services_nonempty (runtime cfg)).
  assert (Hdev : exists ms, Rule ms SDrop ∈ device_rules profile ip /\ forallb (matches p) ms = true).
  { destruct Hcase as [Hset|(proto & Hproto & Hport)].
    - eexists. split; [by eapply service_rule_listed|]. cbn. by rewrite H4, Hsrc, Hset.
    - exists [MSaddr ip; MDport proto [PNum 53; PNum 853]]. split; [unfold device_rules; set_solver|].
      rewrite !matches_cons, match_saddr, port_two. done. }
  destruct Hdev as (ms & Hr & Hm). apply (managed_denied (runtime cfg) ms p Ha); [|done|exact Hp]. by eapply (device_rule_listed (runtime cfg)).
Qed.

(** The interfaces behind which the home networks are *)
Inductive Inside (cfg : SystemConfig) : string -> Prop :=
  | inside_lan : lan_interface (c_lan cfg) <> EmptyString -> Inside cfg (lan_interface (c_lan cfg))
  | inside_tunnel : wg_enabled (c_wireguard cfg) = true -> wg_interface (c_wireguard cfg) <> EmptyString -> Inside cfg (wg_interface (c_wireguard cfg))
  | inside_site : wgc_enabled (c_wg_client cfg) = true -> Inside cfg (wg_client_interface cfg)
  | inside_segment lan : lan ∈ items (fw_extra_lans (c_firewall cfg)) -> xl_enabled lan = true -> xl_interface lan <> EmptyString ->
      Inside cfg (xl_interface lan).
Definition proxy_reply (cfg : SystemConfig) (p : Packet) : Prop :=
  to_if (lan_interface (c_lan cfg)) p /\ pk_proto p = "tcp" /\ pk_sport p = squid_port (c_squid_proxy cfg).

Lemma output_guards_accept {UC : Unicode} {SH : Sha256} cfg : Forall (yields OAccept (fun p => to_if "lo" p \/ proxy_reply cfg p)) (output_guards cfg).
Proof.
  unfold output_guards, squid_output_guards. cbv zeta. lines; try tauto.
  - right. destruct Hm as (_ & H1 & H2 & _). cbn in H2. to_prop. match goal with H : _ || false = true |- _ => rewrite orb_false_r in H; to_prop end. by repeat split.
  - apply Forall_concat_map. intros lan _. lines.
Qed.
Lemma inside_denied {UC : Unicode} {SH : Sha256} cfg iface : squid_enabled (c_squid_proxy cfg) = true -> Inside cfg iface ->
  Rule [MUser "squid"; MOif iface] SDrop ∈ output_guards cfg.
Proof.
  intros Hsq Hi. unfold output_guards. cbv zeta. do 3 (apply elem_of_app; right). unfold squid_output_guards. cbv zeta. rewrite Hsq. cbn [when].
  destruct Hi as [Hn|He Hn|He|lan Hl He Hn].
  - apply elem_of_app. left. apply elem_of_when; [by apply some_string_ne|set_solver].
  - apply elem_of_app. right. apply elem_of_app. left. apply elem_of_when; [by rewrite He, some_string_ne|set_solver].
  - do 2 (apply elem_of_app; right). apply elem_of_app. left. apply elem_of_when; [done|set_solver].
  - do 3 (apply elem_of_app; right). apply (elem_of_concat_map _ _ lan); [done|]. apply elem_of_when; [by rewrite He, some_string_ne|set_solver].
Qed.

(** The proxy is an Internet proxy.  While it is enabled, nothing the proxy's
    user sends leaves through the LAN, a tunnel or an extra segment, on new or
    established connections, but its own answers to LAN clients. *)
Theorem proxy_stays_outside {UC : Unicode} {SH : Sha256} (cfg : SystemConfig) (p : Packet) (iface : string) :
  output_passes cfg p = true -> squid_enabled (c_squid_proxy cfg) = true -> pk_user p = "squid" ->
  Inside (runtime cfg) iface -> to_if iface p -> ~ to_if "lo" p -> proxy_reply (runtime cfg) p.
Proof.
  intros Hp Hsq Hu Hi Ho Hlo. unfold output_passes, output_chain in Hp.
  assert (Hm : forallb (matches p) [MUser "squid"; MOif iface] = true) by (cbn; unfold to_if in Ho; by rewrite Hu, Ho).
  destruct (passes_before (runtime cfg) _ _ _ SDrop p _ (output_guards_accept (runtime cfg)) (inside_denied (runtime cfg) iface Hsq Hi) Hm eq_refl Hp); done.
Qed.
