(* ===== verification/TokenText.v ===== *)
(** * What accepted text is made of

    A token is text without blanks, quotes, braces, semicolons, hashes or
    control characters, so it cannot end a word, a line or a block of a
    generated file.  What the parsers accept and what the printers write are
    tokens. *)

From Stdlib Require Import ZArith Ascii String Lia Bool.
From stdpp Require Import base list strings gmap.
From S2P Require Import Prelude GoStrings Net NetSpec GoTime Json Model Validation ValidationSpec Firmware FirmwareSpec Auth AuthSpec AuthSecrets.

Local Open Scope string_scope.
Local Open Scope Z_scope.
Local Open Scope list_scope.

Definition token_char (a : ascii) : bool :=
  is_ascii_alphanumeric a || existsb (Ascii.eqb a) ["."%char; "_"%char; ":"%char; "/"%char; "*"%char; "-"%char; "+"%char; "?"%char; "<"%char; ">"%char].
Definition token (s : string) : Prop := forallb token_char (bytes_of s) = true.
(** No control characters: in particular, one line *)
Definition one_line (s : string) : Prop := forallb (fun a => 32 <=? bv a) (bytes_of s) = true.

Lemma forallb_weaken {A} (p q : A -> bool) l : (forall a, p a = true -> q a = true) -> forallb p l = true -> forallb q l = true.
Proof. intros H. rewrite !forallb_forall. auto. Qed.
Lemma token_bytes a : token_char a = true -> 33 <= bv a < 127 /\ char_is_whitespace (bv a) = false.
Proof.
  assert (Hall : forallb (fun n => implb (token_char (ascii_of_nat n)) ((33 <=? bv (ascii_of_nat n)) && (bv (ascii_of_nat n) <? 127) && negb (char_is_whitespace (bv (ascii_of_nat n)))))
    (seq 0 256) = true) by (vm_compute; reflexivity).
  rewrite forallb_forall in Hall. intros Ha. specialize (Hall (nat_of_ascii a)). rewrite ascii_nat_embedding, Ha in Hall.
  specialize (Hall (proj2 (in_seq _ _ _) (conj (Nat.le_0_l _) (nat_ascii_bounded a)))). cbn [implb] in Hall. to_prop. split; [lia|done].
Qed.
Lemma token_one_line s : token s -> one_line s.
Proof. apply forallb_weaken. intros a Ha. apply token_bytes in Ha. lia. Qed.
Lemma one_line_app a b : one_line (a +:+ b) <-> one_line a /\ one_line b.
Proof. unfold one_line. by rewrite bytes_of_app, forallb_app, andb_true_iff. Qed.
Lemma token_app a b : token (a +:+ b) <-> token a /\ token b.
Proof. unfold token. by rewrite bytes_of_app, forallb_app, andb_true_iff. Qed.
Lemma one_line_join sep l : one_line sep -> Forall one_line l -> one_line (join sep l).
Proof.
  intros Hs. induction 1 as [|x l Hx Hl IH]; [done|]. destruct l as [|y l]; cbn [join]; [done|]. rewrite !one_line_app. auto.
Qed.
Lemma token_trim s : token s -> trim s = s.
Proof.
  intros Hs. rewrite <- (str_of_bytes_of s). apply trim_plain. revert Hs. apply forallb_weaken. intros a Ha.
  destruct (token_bytes a Ha) as [Hb Hw]. rewrite Hw. lia.
Qed.

(** ** Printers *)
Lemma digits_token l : forallb is_ascii_digit l = true -> forallb token_char l = true.
Proof. apply forallb_weaken. intros a Ha. unfold token_char, is_ascii_alphanumeric. by rewrite Ha, ?orb_true_r. Qed.
Lemma show_nonneg_token n : 0 <= n -> forallb token_char (show_nonneg n) = true.
Proof. intros Hn. apply digits_token. by apply show_nonneg_digits. Qed.
Lemma show_Z_token n : token (show_Z n).
Proof.
  unfold token, show_Z. rewrite bytes_of_str_of. destruct (Z.ltb_spec n 0); [|by apply show_nonneg_token].
  cbn [forallb]. rewrite show_nonneg_token by lia. done.
Qed.
Lemma hex_digit_token d : 0 <= d < 16 -> token_char (hex_digit d) = true.
Proof.
  intros Hd. assert (Hall : forallb (fun d => token_char (hex_digit d)) (map Z.of_nat (seq 0 16)) = true) by (vm_compute; reflexivity).
  rewrite forallb_forall in Hall. apply Hall, in_map_iff. exists (Z.to_nat d). split; [lia|]. apply in_seq. lia.
Qed.
Lemma show_hex2_token b : byte_ok b -> forallb token_char (show_hex2 b) = true.
Proof. intros Hb. unfold byte_ok in Hb. cbn. rewrite !hex_digit_token; [done|apply Z.mod_pos_bound; lia|dlia]. Qed.
Lemma concat_token (ls : list bytes) : Forall (fun l => forallb token_char l = true) ls -> forallb token_char (concat ls) = true.
Proof. induction 1 as [|l ls Hl _ IH]; cbn; [done|]. by rewrite forallb_app, Hl, IH. Qed.
Lemma intercalate_token sep ls : token_char sep = true -> Forall (fun l => forallb token_char l = true) ls -> forallb token_char (intercalate sep ls) = true.
Proof.
  intros Hs. induction 1 as [|l ls Hl Hls IH]; [done|]. destruct ls as [|k ls]; [by cbn|].
  change (intercalate sep (l :: k :: ls)) with (l ++ sep :: intercalate sep (k :: ls)).
  rewrite forallb_app, Hl. cbn [forallb andb]. by rewrite Hs, IH.
Qed.
Lemma hex_encode_token l : Forall byte_ok l -> token (hex_encode l).
Proof.
  intros Hl. unfold token, hex_encode. rewrite bytes_of_str_of. apply concat_token, Forall_map. eapply Forall_impl; [exact Hl|]. apply show_hex2_token.
Qed.
Lemma show_ipv4_token o : Forall byte_ok o -> forallb token_char (show_ipv4 o) = true.
Proof.
  intros Ho. apply intercalate_token; [done|]. apply Forall_map. eapply Forall_impl; [exact Ho|]. intros b Hb. apply show_nonneg_token. unfold byte_ok in Hb. lia.
Qed.
Lemma segments_ok o : Forall byte_ok o -> Forall u16_ok (segments o).
Proof.
  revert o. fix IH 1. intros [|a [|b o]] Ho; cbn; try constructor.
  - inversion Ho as [|? ? Ha Ho']; subst. inversion Ho' as [|? ? Hb _]; subst. unfold byte_ok, u16_ok in *. lia.
  - apply IH. inversion Ho as [|? ? _ Ho']; subst. by inversion Ho'.
Qed.
Lemma show_hex16_token n : u16_ok n -> forallb token_char (show_hex16 n) = true.
Proof.
  unfold u16_ok, show_hex16. intros Hn. destruct (Z.ltb_spec n 16); [|destruct (Z.ltb_spec n 256); [|destruct (Z.ltb_spec n 4096)]]; cbn [forallb];
    rewrite !hex_digit_token; try done; try (apply Z.mod_pos_bound; lia); dlia.
Qed.
Lemma show_segments_token l : Forall u16_ok l -> forallb token_char (show_segments l) = true.
Proof. intros Hl. apply intercalate_token; [done|]. apply Forall_map. eapply Forall_impl; [exact Hl|]. apply show_hex16_token. Qed.
Lemma show_ipv6_token o : Forall byte_ok o -> forallb token_char (show_ipv6 o) = true.
Proof.
  intros Ho. unfold show_ipv6. destruct (has_v4_prefix o).
  - rewrite forallb_app, show_ipv4_token by (by apply Forall_drop). done.
  - cbv zeta. destruct (longest_zero_run _ _ _ _) as [start len]. pose proof (segments_ok o Ho) as Hs. destruct (Nat.ltb 1 len); [|by apply show_segments_token].
    rewrite !forallb_app, !show_segments_token by (by (apply Forall_take || apply Forall_drop)). done.
Qed.
Lemma ip_bytes_token ip : Forall byte_ok ip -> forallb token_char (ip_bytes_string ip) = true.
Proof.
  intros Hi. unfold ip_bytes_string. destruct ip as [|b ip]; [done|]. destruct (to4 (b :: ip)) as [v4|] eqn:E.
  - apply show_ipv4_token. apply to4_Some in E as (_ & _ & H). auto.
  - destruct (negb _); [|by apply show_ipv6_token]. cbn [forallb]. rewrite concat_token; [done|]. apply Forall_map. eapply Forall_impl; [exact Hi|]. apply show_hex2_token.
Qed.
Lemma ip_to_string_token ip : Forall byte_ok ip -> token (ip_to_string ip).
Proof. intros Hi. unfold token, ip_to_string. rewrite bytes_of_str_of. by apply ip_bytes_token. Qed.

(** ** Networks *)
Lemma net_to_string_token s ip n : parse_cidr s = Some (ip, n) -> token (net_to_string n).
Proof.
  intros H. unfold token, net_to_string. rewrite bytes_of_str_of. unfold net_to_bytes.
  destruct (network_number_and_mask n) as [[nn m]|] eqn:En; [|done].
  assert (Hok : Forall byte_ok nn /\ Forall byte_ok m).
  { apply parse_cidr_Some in H as (p & [(o & _ & Hl & Hb & _ & ->)|(Hl & Hb & _ & ->)]); unfold network_number_and_mask in En; cbn [net_ip net_mask] in En.
    - pose proof (mask_bytes_ok 4 p) as Hk. pose proof (length_mask_bytes 4 p) as Lk. revert En Hk Lk. generalize (mask_bytes 4 p). intros k En Hk Lk.
      destruct (land_bytes_ok o k) as [Ll Lb]; [done|done|congruence|]. rewrite Hl in Ll.
      rewrite to4_length4, match_4_16, Lk, Ll in En by done. cbn [Nat.eqb negb] in En. by injection En as <- <-.
    - pose proof (mask_bytes_ok 16 p) as Hk. pose proof (length_mask_bytes 16 p) as Lk. revert En Hk Lk. generalize (mask_bytes 16 p). intros k En Hk Lk.
      destruct (land_bytes_ok ip k) as [Ll Lb]; [done|done|congruence|]. rewrite Hl in Ll.
      destruct (to4 (land_bytes ip k)) as [v4|] eqn:E4.
      + apply to4_Some in E4 as (L4 & _ & B4). rewrite match_4_16, Lk, L4 in En. cbn [Nat.eqb] in En. injection En as <- <-.
        split; [by apply B4|by apply (Forall_drop _ 12)].
      + rewrite Ll in En. cbn [Nat.eqb negb] in En. rewrite match_4_16, Lk, Ll in En. cbn [Nat.eqb] in En. by injection En as <- <-. }
  destruct Hok as [Hn Hm]. destruct (simple_mask_length m) as [ones|]; rewrite forallb_app, ip_bytes_token by done; cbn [forallb].
  - by rewrite show_nonneg_token by lia.
  - unfold mask_to_string. destruct m as [|b m]; [done|]. rewrite concat_token; [done|]. apply Forall_map. eapply Forall_impl; [exact Hm|]. apply show_hex2_token.
Qed.
Lemma byte_lor a b : byte_ok a -> byte_ok b -> byte_ok (Z.lor a b).
Proof.
  unfold byte_ok. intros Ha Hb. split; [apply Z.lor_nonneg; lia|].
  replace (Z.lor a b) with (Z.land (Z.lor a b) (Z.ones 8)); [rewrite Z.land_ones by lia; apply Z.mod_pos_bound; lia|].
  rewrite Z.land_lor_distr_l, !Z.land_ones by lia. change (2 ^ 8) with 256. by rewrite !Z.mod_small by lia.
Qed.
Lemma broadcast_ok s ip n b : parse_cidr s = Some (ip, n) -> ipv4_broadcast n = Some b -> Forall byte_ok b.
Proof.
  intros H. apply parse_cidr_Some in H. unfold ipv4_broadcast.
  assert (Hok : Forall byte_ok (net_ip n) /\ Forall byte_ok (net_mask n)).
  { destruct H as (p & [(o & _ & Hl & Hb & _ & ->)|(Hl & Hb & _ & ->)]); cbn [net_ip net_mask]; (split; [|apply mask_bytes_ok]);
      apply land_bytes_ok; try done; try apply mask_bytes_ok; by rewrite length_mask_bytes. }
  destruct Hok as [Hi Hm]. destruct (to4 (net_ip n)) as [v4|] eqn:E4; [|done]. apply to4_Some in E4 as (_ & _ & B4). apply B4 in Hi.
  destruct (Nat.ltb _ 4); [done|]. intros [= <-]. revert Hi. generalize (take 4 (net_mask n)), (Forall_take _ 4 _ Hm). clear.
  intros m Hm Hi. revert m Hm. induction Hi as [|x v Hx _ IH]; intros [|y m] Hm; cbn; try constructor.
  - apply byte_lor; [done|]. inversion Hm; subst. unfold byte_ok in *. lia.
  - apply IH. by inversion Hm.
Qed.

(** ** Readers: what was consumed is made of token characters *)
Definition consumes (l r : bytes) : Prop := exists pre, l = pre ++ r /\ forallb token_char pre = true.
Lemma consumes_refl l : consumes l l.
Proof. by exists []. Qed.
Lemma consumes_trans a b c : consumes a b -> consumes b c -> consumes a c.
Proof. intros (x & -> & Hx) (y & -> & Hy). exists (x ++ y). by rewrite <- app_assoc, forallb_app, Hx, Hy. Qed.
Lemma consumes_all l : consumes l [] -> forallb token_char l = true.
Proof. intros (x & -> & Hx). by rewrite app_nil_r. Qed.
Lemma read_char_consumes c l r : token_char c = true -> read_char c l = Some r -> consumes l r.
Proof. destruct l as [|a l]; cbn; [done|]. destruct (Ascii.eqb a c) eqn:E; [|done]. apply Ascii.eqb_eq in E as ->. intros Hc [= <-]. exists [c]. cbn. by rewrite Hc. Qed.
Lemma read_separator_consumes {A} sep i (inner : bytes -> option (A * bytes)) l x r : token_char sep = true ->
  (forall l x r, inner l = Some (x, r) -> consumes l r) -> read_separator sep i inner l = Some (x, r) -> consumes l r.
Proof.
  intros Hs Hi. unfold read_separator. destruct i; [by apply Hi|]. destruct (read_char sep l) as [l'|] eqn:E; [|done]. intros H.
  eapply consumes_trans; [by eapply read_char_consumes|by eapply Hi].
Qed.
Lemma read_number_consumes radix digit maxd zp limit l v r : (forall a d, digit a = Some d -> token_char a = true) ->
  read_number radix digit maxd zp limit l = Some (v, r) -> consumes l r.
Proof.
  intros Hd. unfold read_number. cbv zeta. set (p := fun a => match digit a with Some _ => true | None => false end).
  intros H. exists (take_while p l). destruct (take_while p l) as [|a ds] eqn:Et; [done|]. destruct (_ || _ || _); [done|]. injection H as _ <-.
  rewrite <- Et, take_drop_while. split; [done|]. eapply forallb_weaken; [|apply take_while_forallb]. intros b Hb. unfold p in Hb.
  destruct (digit b) as [d|] eqn:Ed; [by eapply Hd|done].
Qed.
Lemma dec_val_token a d : dec_val a = Some d -> token_char a = true.
Proof. unfold dec_val. destruct (is_ascii_digit a) eqn:E; [|done]. intros _. unfold token_char, is_ascii_alphanumeric. by rewrite E, ?orb_true_r. Qed.
Lemma hex_val_token a d : hex_val a = Some d -> token_char a = true.
Proof.
  assert (Hall : forallb (fun n => match hex_val (ascii_of_nat n) with Some _ => token_char (ascii_of_nat n) | None => true end) (seq 0 256) = true)
    by (vm_compute; reflexivity).
  rewrite forallb_forall in Hall. specialize (Hall (nat_of_ascii a)). rewrite ascii_nat_embedding in Hall. intros Ha. rewrite Ha in Hall.
  apply Hall, in_seq. split; [lia|apply nat_ascii_bounded].
Qed.
Lemma read_ipv4_groups_consumes n i l gs r : read_ipv4_groups n i l = Some (gs, r) -> consumes l r.
Proof.
  revert i l gs r. induction n as [|n IH]; intros i l gs r H; cbn in H; [simplify_eq; apply consumes_refl|].
  destruct (read_separator _ _ _ l) as [[g l1]|] eqn:E1; [|done]. destruct (read_ipv4_groups n (S i) l1) as [[gs' l2]|] eqn:E2; [|done]. simplify_eq.
  eapply consumes_trans; [|by eapply IH]. eapply (read_separator_consumes "."%char); [done| |exact E1]. intros ? ? ?. apply read_number_consumes, dec_val_token.
Qed.
Lemma read_groups_consumes slots i l gs v4 r : read_groups slots i l = (gs, v4, r) -> consumes l r.
Proof.
  revert i l gs v4 r. induction slots as [|slots IH]; intros i l gs v4 r H; cbn [read_groups] in H; [simplify_eq; apply consumes_refl|].
  assert (Hhex : forall r', match read_separator ":"%char i (read_number 16 hex_val 4 true 65535) l with
     | Some (g, l') => let '(gs, v4, l'') := read_groups slots (S i) l' in (g :: gs, v4, l'') | None => ([], false, l) end = (gs, v4, r') -> consumes l r').
  { clear H. intros r' Hr. destruct (read_separator _ _ _ l) as [[g l']|] eqn:E2; [|simplify_eq; apply consumes_refl].
    destruct (read_groups slots (S i) l') as [[gs' v4'] l''] eqn:E3. simplify_eq. eapply consumes_trans; [|by eapply IH].
    eapply (read_separator_consumes ":"%char); [done| |exact E2]. intros ? ? ?. apply read_number_consumes, hex_val_token. }
  destruct (if Nat.ltb 0 slots then _ else _) as [[o l']|] eqn:E1; [|by apply Hhex].
  destruct o as [|a [|b [|c [|d [|]]]]]; try (by apply Hhex). simplify_eq. destruct (Nat.ltb 0 slots); [|done].
  eapply (read_separator_consumes ":"%char); [done| |exact E1]. intros ? ? ?. apply read_ipv4_groups_consumes.
Qed.
Lemma parse_ipv6_token l o : parse_ipv6 l = Some o -> forallb token_char l = true.
Proof.
  unfold parse_ipv6, read_ipv6_addr. intros H. apply consumes_all. destruct (read_groups 8 0 l) as [[head v4] l1] eqn:E. apply read_groups_consumes in E.
  destruct (Nat.eqb (List.length head) 8); [destruct l1; [done|done]|]. destruct v4; [done|].
  destruct (read_char _ l1) as [l2|] eqn:E1; [|done]. apply read_char_consumes in E1; [|done]. destruct (read_char _ l2) as [l3|] eqn:E2; [|done].
  apply read_char_consumes in E2; [|done]. destruct (read_groups _ 0 l3) as [[tail v4'] l4] eqn:E3. apply read_groups_consumes in E3. destruct l4; [|done].
  eauto using consumes_trans.
Qed.
Lemma parse_ipv4_strict_token l o : parse_ipv4_strict l = Some o -> forallb token_char l = true.
Proof. intros H. rewrite <- (show_parse_ipv4 l o H). apply show_ipv4_token. by apply parse_ipv4_strict_ok in H as [_ H]. Qed.

Lemma parse_ip_token s ip : parse_ip s = Some ip -> token s.
Proof.
  unfold parse_ip, parse_ip_bytes, token. intros H. destruct (has_byte "%"%char _); [done|]. destruct (parse_ipv4_strict _) as [o|] eqn:E; [by eapply parse_ipv4_strict_token|].
  destruct (has_byte ":"%char _); [|done]. by eapply parse_ipv6_token.
Qed.
Lemma parse_ipv4_token s ip : parse_ipv4 s = Some ip -> token s.
Proof. unfold parse_ipv4. destruct (parse_ip s) eqn:E; [|done]. intros _. by eapply parse_ip_token. Qed.
Lemma dtoi_loop_digits l n i v k : dtoi_loop l n i = (v, k, true) -> k = (i + List.length l)%nat -> forallb is_ascii_digit l = true.
Proof.
  revert n i. induction l as [|b l IH]; intros n i; cbn; [done|]. destruct (is_ascii_digit b) eqn:E; cbn [negb andb].
  - destruct (16777215 <=? _); [done|]. intros H Hk. eapply IH; [exact H|]. lia.
  - destruct (Nat.eqb i 0); [done|]. intros [= _ <-]. lia.
Qed.
Lemma parse_cidr_token s ip n : parse_cidr s = Some (ip, n) -> token s.
Proof.
  unfold parse_cidr, parse_cidr_bytes, token. intros H. destruct (split_once_bytes _ _) as [[addr mask]|] eqn:Es; [|done].
  apply split_once_Some in Es as [-> _]. destruct (has_byte "%"%char addr); [done|]. destruct (dtoi mask) as [[k i] ok] eqn:Ed.
  assert (Hmask : forall bits, negb ok || negb (Nat.eqb i (List.length mask)) || (k <? 0) || (Z.of_nat bits <? k) = false -> forallb token_char mask = true).
  { intros bits Hg. to_prop. unfold dtoi in Ed. destruct ok; [|done]. apply digits_token. eapply dtoi_loop_digits; [exact Ed|]. lia. }
  assert (Haddr : forallb token_char addr = true /\ forallb token_char mask = true).
  { destruct (parse_ipv4_strict addr) as [o|] eqn:E4.
    - split; [by eapply parse_ipv4_strict_token|]. destruct (negb ok || _ || _ || _) eqn:Eg; [done|]. by eapply Hmask.
    - destruct (has_byte ":"%char addr); [|done]. destruct (parse_ipv6 addr) as [o|] eqn:E6; [|done].
      split; [by eapply parse_ipv6_token|]. destruct (negb ok || _ || _ || _) eqn:Eg; [done|]. by eapply Hmask. }
  destruct Haddr as [Haddr Hm]. rewrite forallb_app, Haddr. cbn [forallb andb]. exact Hm.
Qed.

(** ** The other validators *)
Lemma interface_token s : valid_interface_name s = true -> token s.
Proof.
  unfold valid_interface_name, INTERFACE_NAME_PATTERN, head_tail_pattern, token. destruct (bytes_of s) as [|a l]; [done|]. intros H. to_prop. cbn [forallb].
  assert (Hc : forall b, alnum_or ["_"%char; "."%char; "-"%char] b = true -> token_char b = true).
  { intros b. unfold alnum_or, token_char. cbn [existsb]. destruct (is_ascii_alphanumeric b); [done|]. cbn [orb]. rewrite !orb_true_iff. intuition. }
  assert (Ha : token_char a = true) by (unfold token_char; match goal with H : is_ascii_alphanumeric a = true |- _ => by rewrite H end).
  rewrite Ha. by eapply forallb_weaken; [exact Hc|].
Qed.
Lemma go_atoi_token s v : go_atoi s = Some v -> token s.
Proof.
  unfold go_atoi, token. cbv zeta. destruct (bytes_of s) as [|a l]; [done|]. destruct (is_char "+" a || is_char "-" a) eqn:E.
  - intros H. destruct (match l with [] => true | _ => false end || negb (forallb is_ascii_digit l)) eqn:Eg; [done|]. to_prop. cbn [forallb].
    rewrite digits_token by done. unfold is_char in E. apply orb_true_iff in E as [E|E]; apply Ascii.eqb_eq in E as ->; done.
  - intros H. destruct (_ || negb _) eqn:Eg; [done|]. to_prop. by apply digits_token.
Qed.
Lemma getnum_consumes s f v r : getnum s f = Some (v, r) -> consumes s r.
Proof.
  assert (Hd : forall a, is_ascii_digit a = true -> token_char a = true) by (intros a Ha; unfold token_char, is_ascii_alphanumeric; by rewrite Ha, ?orb_true_r).
  unfold getnum. destruct s as [|a t]; [done|]. destruct (is_ascii_digit a) eqn:Ea; [|done]. cbn [negb]. pose proof (Hd a Ea) as Ta.
  destruct t as [|b t]; [destruct f; [done|]; intros [= _ <-]; exists [a]; cbn; by rewrite Ta|]. destruct (is_ascii_digit b) eqn:Eb; cbn [negb].
  - intros [= _ <-]. exists [a; b]. cbn. by rewrite Ta, (Hd b Eb).
  - destruct f; [done|]. intros [= _ <-]. exists [a]. cbn. by rewrite Ta.
Qed.
Lemma parse_clock_token s v : parse_clock s = Some v -> token s.
Proof.
  unfold parse_clock, token. intros H. apply consumes_all. destruct (getnum _ false) as [[h rest]|] eqn:E1; [|done]. destruct (24 <=? h); [done|].
  destruct (strip_prefix_bytes _ rest) as [rest'|] eqn:E2; [|done]. destruct (getnum rest' true) as [[m rest'']|] eqn:E3; [|done].
  destruct ((60 <=? m) || _) eqn:Eg; [done|]. to_prop. destruct rest''; [|done].
  apply strip_prefix_bytes_Some in E2 as ->. apply getnum_consumes in E1, E3. eapply consumes_trans; [exact E1|]. eapply consumes_trans; [|exact E3].
  exists [":"%char]. by split.
Qed.

(** ** Accepted configurations *)
Lemma vloop_all {A St} (body : nat -> A -> St -> ValidationErrors * St) (Q : A -> Prop) l s :
  (forall i x s e s', body i x s = (e, s') -> e = [] -> Q x) -> fst (vloop body 0 l s) = [] -> Forall Q l.
Proof.
  intros Hb E. refine (vloop_inv body (fun pre _ => Forall Q pre) _ l 0%nat [] s _ E); [|done].
  intros pre i x s1 e s2 Hpre Hx He. apply Forall_app. split; [done|]. constructor; [|done]. by eapply Hb.
Qed.

(** The bytes of a character that is not a control character *)
Lemma encode_one_line c : 0 <= c < 2097152 -> char_is_control c = false -> forallb (fun a => 32 <=? bv a) (encode_char c) = true.
Proof.
  intros Hc Hn. unfold char_is_control in Hn. unfold encode_char.
  destruct (Z.ltb_spec c 128); [|destruct (Z.ltb_spec c 2048); [|destruct (Z.ltb_spec c 65536)]]; cbn [forallb]; rewrite !bv_byte_of by dlia; to_prop; try (by dlia).
Qed.
Lemma land_mask v k : 0 <= k -> 0 <= v -> 0 <= Z.land v (2 ^ k - 1) < 2 ^ k.
Proof. intros Hk Hv. replace (2 ^ k - 1) with (Z.ones k) by (rewrite Z.ones_equiv; lia). rewrite Z.land_ones by lia. apply Z.mod_pos_bound. lia. Qed.
Lemma chars_range l : Forall (fun c => 0 <= c < 2097152) (chars_of l).
Proof.
  revert l. fix IH 1. intros [|a t]; [constructor|]. cbn [chars_of]. pose proof (bv_range a) as Ha.
  assert (Hcont : forall b, 0 <= cont b < 64) by (intros b; unfold cont; apply (land_mask _ 6); [lia|apply bv_range]).
  pose proof (land_mask (bv a) 5 ltac:(lia) ltac:(lia)) as H5. pose proof (land_mask (bv a) 4 ltac:(lia) ltac:(lia)) as H4.
  pose proof (land_mask (bv a) 3 ltac:(lia) ltac:(lia)) as H3. change (2 ^ 5 - 1) with 31 in H5. change (2 ^ 4 - 1) with 15 in H4. change (2 ^ 3 - 1) with 7 in H3.
  change (2 ^ 5) with 32 in H5. change (2 ^ 4) with 16 in H4. change (2 ^ 3) with 8 in H3.
  destruct (bv a <? 128); [constructor; [lia|apply IH]|]. destruct (bv a <? 224).
  - destruct t as [|b t]; [constructor; [lia|constructor]|]. constructor; [|apply IH]. pose proof (Hcont b). lia.
  - destruct (bv a <? 240).
    + destruct t as [|b [|c t]]; try (constructor; [lia|constructor]). constructor; [|apply IH]. pose proof (Hcont b). pose proof (Hcont c). lia.
    + destruct t as [|b [|c [|d t]]]; try (constructor; [lia|constructor]). constructor; [|apply IH].
      pose proof (Hcont b). pose proof (Hcont c). pose proof (Hcont d). lia.
Qed.
(** A string of the program: valid UTF-8 *)
Definition utf8 (s : string) : Prop := of_chars (chars s) = s.
Lemma no_control_one_line s : utf8 s -> has_control s = false -> one_line s.
Proof.
  intros Hu Hc. rewrite <- Hu. unfold one_line, of_chars. rewrite bytes_of_str_of. pose proof (chars_range (bytes_of s)) as Hr.
  unfold has_control in Hc. fold (chars s) in Hr. induction Hr as [|c cs Hrc _ IH]; [done|]. cbn [existsb] in Hc. apply orb_false_iff in Hc as [Hc1 Hc2].
  cbn [map concat]. by rewrite forallb_app, encode_one_line, IH.
Qed.

Lemma accepted_servers {UC : Unicode} {B64 : Base64} c o n : ValidationSpec.accepted c o n -> Forall token (items (dhcp_dns_servers (c_dhcp c))).
Proof.
  intros A. pose proof (acc_dns_servers _ _ _ A) as Hd. unfold validate_dns_servers in Hd. cbv zeta in Hd. split_errors.
  match goal with H : fst (vloop _ _ _ _) = [] |- _ => apply (vloop_all _ token) in H; [exact H|] end.
  intros i x s e s' Hb ->. unfold validate_dns_server in Hb. destruct (parse_ipv4 x) eqn:Ep; [by eapply parse_ipv4_token|done].
Qed.
