(* ===== verification/NftablesText.v ===== *)
(** * No configuration injects a rule

    The text of the firewall of an accepted configuration is, line by line, the
    rules [Nftables] builds, and every word in a rule that comes from the
    configuration is a token of [TokenText]: it cannot end the word, the line,
    a string or a block.  So the meaning given to the rules is the meaning of
    the text. *)

From Stdlib Require Import ZArith Ascii String Lia Bool.
From stdpp Require Import base list strings gmap.
From S2P Require Import Prelude GoStrings Net NetSpec GoTime Json Model Validation ValidationSpec Policy PolicySpec Firmware FirmwareSpec Auth AuthSpec AuthSecrets Nft Nftables NftablesSpec TokenText.

Local Open Scope string_scope.
Local Open Scope Z_scope.
Local Open Scope list_scope.

(** ** Words of a rule *)
Definition port_words (p : Port) : list string := match p with PNum _ => [] | PText s => [s] end.
Definition match_words (m : Match) : list string :=
  match m with
  | MIif a | MOif a | MSaddr a | MSaddrNot a | MDaddr a | MDaddrSet a | MWord a | MUser a | MMeter a => [a]
  | MOifIn l | MSaddrIn l | MSaddrNotIn l | MDaddrIn l => l
  | MDport proto l | MSport proto l => proto :: concat (map port_words l)
  | MHour s e => [s; e]
  | MIcmp | MCtNew | MCtInvalid | MCtKnown | MIpv6 | MNoRoute | MNotLocal | MDay _ | MLimit => []
  end.
Definition statement_words (st : Statement) : list string :=
  match st with
  | SJump a | SCount a _ | SUpdate a _ | SDnat a _ => [a]
  | SAccept | SDrop | SReturn | SCountDrop | SClampMss | SMasquerade => []
  end.
Definition rule_words (ms : list Match) (st : Statement) : list string := concat (map match_words ms) ++ statement_words st.
Definition fine (l : Line) : Prop := match l with Text s => one_line s | Rule ms st => Forall token (rule_words ms st) end.

Create HintDb text.
#[export] Hint Resolve token_one_line show_Z_token one_line_join : text.

Lemma one_line_all l : Forall token l -> Forall one_line l.
Proof. intros Hl. eapply Forall_impl; [exact Hl|]. apply token_one_line. Qed.
Lemma braces_one_line l : Forall one_line l -> one_line (braces l).
Proof. intros Hl. unfold braces. rewrite !one_line_app. split; [done|]. split; [by apply one_line_join|done]. Qed.
Lemma quoted_one_line s : one_line s -> one_line (quoted s).
Proof. intros Hs. unfold quoted. by rewrite !one_line_app. Qed.
Lemma port_one_line p : Forall token (port_words p) -> one_line (render_port p).
Proof. destruct p as [n|s]; cbn [render_port port_words]; intros H; [apply token_one_line, show_Z_token|]. inversion H; subst. by apply token_one_line. Qed.
Lemma ports_one_line l : Forall token (concat (map port_words l)) -> one_line (render_ports l).
Proof.
  intros Hl. assert (Hall : Forall one_line (map render_port l)).
  { apply Forall_map. induction l as [|p l IH]; constructor; cbn in Hl; apply Forall_app in Hl as [Hp Hl]; [by apply port_one_line|by apply IH]. }
  unfold render_ports. destruct l as [|p [|q l]]; try (by apply braces_one_line). cbn in Hall. by inversion Hall.
Qed.
Lemma match_one_line m : Forall token (match_words m) -> one_line (render_match m).
Proof.
  intros H. destruct m; cbn [render_match match_words] in *; rewrite ?one_line_app; try done; try (inversion H as [|? ? Ht Hr]; subst);
    repeat split; try done; auto using token_one_line, quoted_one_line, braces_one_line, one_line_all, ports_one_line, show_Z_token.
  - inversion Hr; subst. by apply quoted_one_line, token_one_line.
Qed.
Lemma statement_one_line st : Forall token (statement_words st) -> one_line (render_statement st).
Proof.
  intros H. destruct st; cbn [render_statement statement_words] in *; rewrite ?one_line_app; try done; try (inversion H as [|? ? Ht Hr]; subst);
    repeat split; try done; auto using token_one_line, show_Z_token.
  - by destruct accept.
  - by destruct source.
Qed.
Lemma fine_one_line l : fine l -> one_line (render_line l).
Proof.
  destruct l as [s|ms st]; [done|]. cbn [fine render_line]. unfold rule_words. rewrite Forall_app. intros [Hm Hs]. rewrite one_line_app. split; [done|].
  apply one_line_join; [done|]. apply Forall_app. split; [|constructor; [by apply statement_one_line|done]].
  apply Forall_map. clear Hs. induction ms as [|m ms IH]; constructor; cbn in Hm; apply Forall_app in Hm as [H1 H2]; [by apply match_one_line|by apply IH].
Qed.

(** The text splits into the lines. *)
Lemma split_lines doc : Forall one_line (map render_line doc) -> split (byte_of 10) (render doc) = map render_line doc ++ [EmptyString].
Proof.
  unfold split. induction doc as [|l doc IH]; intros H; [done|]. cbn [map] in H. inversion H as [|? ? Hl Hd]; subst.
  cbn [render foldr map app]. unfold newline. rewrite bytes_of_app.
  change (bytes_of (String (byte_of 10) EmptyString +:+ foldr (fun l acc => render_line l +:+ String (byte_of 10) EmptyString +:+ acc) EmptyString doc))
    with (byte_of 10 :: bytes_of (render doc)).
  rewrite split_bytes_app; [|revert Hl; apply forallb_weaken; intros a Ha; rewrite ascii_eqb_bv; change (bv (byte_of 10)) with 10; lia].
  cbn [map app]. rewrite str_of_bytes_of. f_equal. apply IH, Hd.
Qed.

(** ** Fields that go into rules *)
Section Text.
Context {UC : Unicode} {SH : Sha256} (Hsha : forall l, Forall byte_ok (sha256 l)).

Record Plain (cfg : SystemConfig) : Prop := {
  pl_lan : token (lan_interface (c_lan cfg));
  pl_wan : token (wan_interface (c_wan cfg));
  pl_lan_cidr : token (lan_cidr (c_lan cfg));
  pl_wg : wg_enabled (c_wireguard cfg) = true -> token (wg_interface (c_wireguard cfg));
  pl_site : wgc_enabled (c_wg_client cfg) = true -> token (wgc_interface (c_wg_client cfg))
    /\ forall h p, split_host_port (wgc_endpoint (c_wg_client cfg)) = Ok (h, p) -> token p;
  pl_rules rule : rule ∈ items (fw_custom_rules (c_firewall cfg)) -> token (rule_src_ip rule) /\ token (rule_protocol rule);
  pl_segments lan : lan ∈ items (fw_extra_lans (c_firewall cfg)) -> xl_enabled lan = true ->
    token (xl_interface lan) /\ token (xl_cidr lan) /\ token (xl_dst_ip lan) /\ token (xl_protocol lan);
  pl_forwards rule : rule ∈ items (fw_port_forwards (c_firewall cfg)) -> token (pf_internal_ip rule);
  pl_restricted item : item ∈ items (squid_restricted_ips (c_squid_proxy cfg)) -> token (ri_ip_address item);
  pl_servers : Forall token (items (dhcp_dns_servers (c_dhcp cfg)));
  pl_profiles profile : profile ∈ items (df_device_profiles (c_adguard cfg)) ->
    one_line (dp_name profile) /\ Forall token (items (dp_ip_addresses profile))
    /\ forall day, Forall (fun w => token (aw_start w) /\ token (aw_end w)) (windows_of day (effective_day_windows (dp_schedule profile)));
}.

Lemma sanitize_one_line s : one_line (sanitize_comment s).
Proof.
  unfold one_line, sanitize_comment. rewrite bytes_of_str_of. apply forallb_forall. intros a Ha. apply in_map_iff in Ha as (b & <- & _).
  unfold sanitize_byte. destruct (_ || _ || _); [done|]. destruct (Z.ltb_spec (bv b) 32); [done|]. lia.
Qed.
Lemma comment_fine s : one_line s -> fine (comment s).
Proof. intros Hs. unfold comment, fine. by rewrite one_line_app. Qed.
Lemma counter_token rule : token (firewall_rule_counter rule).
Proof. unfold firewall_rule_counter. rewrite token_app. split; [done|]. apply hex_encode_token. by apply Forall_take. Qed.
Lemma service_token s : service_domains s <> None -> token s.
Proof.
  unfold service_domains. intros H.
  repeat (match type of H with (if ?b then _ else _) <> _ => let E := fresh "E" in destruct b eqn:E; [apply String.eqb_eq in E as ->; vm_compute; reflexivity|] end).
  done.
Qed.

(** Lines one at a time; [word] closes what a word of a rule needs *)
Ltac word :=
  match goal with
  | |- token (firewall_rule_counter _) => apply counter_token
  | |- one_line (firewall_rule_counter _) => apply token_one_line, counter_token
  | |- one_line (sanitize_comment _) => apply sanitize_one_line
  | |- _ => first [assumption | reflexivity | solve [auto with text]]
  end.
Ltac conjuncts := repeat match goal with |- _ /\ _ => split end.
Ltac words := match goal with |- fine (Rule _ _) => unfold fine, rule_words, udp_to, tcp_to; cbn [concat map match_words port_words statement_words app];
  repeat (apply Forall_cons; split); try apply Forall_nil_2; try word end.
Ltac fines :=
  repeat match goal with
  | |- Forall fine (_ ++ _) => apply Forall_app; split
  | |- Forall fine (_ :: _) => apply Forall_cons; split
  | |- Forall fine [] => apply Forall_nil_2
  | |- Forall fine (when _ _) => apply Forall_when; intros ?
  | |- Forall fine (if _ then [] else _) => case_match; [apply Forall_nil_2|]
  | |- fine (comment _) => apply comment_fine; rewrite ?one_line_app; conjuncts; try word
  | |- fine (Text _) => unfold fine; rewrite ?one_line_app; conjuncts; try word
  | |- fine blank => reflexivity
  | |- fine (Rule _ _) => words
  end.

Context (cfg : SystemConfig) (HP : Plain cfg).

Lemma name_lan : token (lan_interface (c_lan cfg)). Proof. apply HP. Qed.
Lemma name_wan : token (wan_interface (c_wan cfg)). Proof. apply HP. Qed.
Lemma text_lan : token (lan_cidr (c_lan cfg)). Proof. apply HP. Qed.
Lemma name_site : wgc_enabled (c_wg_client cfg) = true -> token (wg_client_interface cfg).
Proof. intros He. unfold wg_client_interface. destruct (is_empty _); [done|]. by apply (pl_site cfg HP). Qed.
Lemma name_server : wg_enabled (c_wireguard cfg) = true -> token (wg_server_interface cfg).
Proof. intros He. unfold wg_server_interface. destruct (is_empty _); [done|]. by apply (pl_wg cfg HP). Qed.
Lemma text_network : token (wg_network cfg).
Proof.
  unfold wg_network. destruct (parse_cidr (wg_address (c_wireguard cfg))) as [[ip n]|] eqn:E; cbn; [by eapply net_to_string_token|done].
Qed.
#[local] Hint Resolve name_lan name_wan text_lan name_site name_server text_network : text.

Lemma reserved_tokens : Forall token RESERVED_WAN_SOURCES.
Proof. unfold RESERVED_WAN_SOURCES. repeat (apply Forall_cons; split); try apply Forall_nil_2; reflexivity. Qed.
Lemma antispoof_fine iface : token iface -> Forall fine (antispoof_rules iface).
Proof.
  intros Hi. unfold antispoof_rules. fines.
Qed.
Lemma custom_fine direction action : one_line direction -> one_line action -> Forall fine (write_custom_rules cfg direction action).
Proof.
  intros Hd Ha. apply Forall_concat_map. intros rule Hr. unfold custom_rule. case_match; [constructor|]. cbv zeta. case_match; [constructor|].
  destruct (pl_rules cfg HP rule Hr) as [Hs Hp]. fines. unfold fine, rule_words. rewrite !map_app, !concat_app, !Forall_app. split_and!.
  - unfold when. destruct (some_string _); cbn; [|constructor]. by repeat constructor.
  - unfold custom_protocol. repeat case_match; cbn; repeat constructor; done.
  - destruct ((direction =s "forward") && (firewall_rule_scope rule =s "wan")); cbn; [|constructor].
    repeat (apply Forall_cons; split); try apply Forall_nil_2; word.
  - repeat (apply Forall_cons; split); try apply Forall_nil_2. apply counter_token.
Qed.
Lemma distinct_forall (P : string -> Prop) seen l : Forall P l -> Forall P (distinct seen l).
Proof. intros Hl. revert seen. induction Hl as [|x l Hx _ IH]; intros seen; cbn; [constructor|]. case_bool_decide; [apply IH|]. by constructor. Qed.
Lemma endpoints_tokens : Forall token (wg_peer_endpoint_nets cfg).
Proof.
  unfold wg_peer_endpoint_nets. case_match; [constructor|]. cbv zeta. apply distinct_forall, Forall_concat_map. intros peer _.
  destruct (negb (peer_enabled peer)); [constructor|]. destruct (parse_ip _) as [ip|] eqn:Ep; [|constructor]. destruct (is_none (to4 ip)); [constructor|]. constructor; [|done].
  rewrite token_app. split; [|done]. apply ip_to_string_token. by apply parse_ip_ok in Ep as [[_ Hb] _].
Qed.
Lemma known_endpoints_fine : Forall fine (write_known_wg_peer_endpoint_input_rules cfg).
Proof.
  unfold write_known_wg_peer_endpoint_input_rules. cbv zeta. case_match; [constructor|]. pose proof endpoints_tokens as He. unfold known_endpoint_rules.
  fines; rewrite ?app_nil_r; try (apply Forall_app; split); try done; repeat constructor; try done.
Qed.
Lemma site_networks_tokens : Forall token (wg_client_networks cfg).
Proof.
  apply Forall_concat_map. intros entry _. destruct (parse_cidr (trim entry)) as [[ip n]|] eqn:E; [|constructor].
  case_match; [constructor|]. constructor; [by eapply net_to_string_token|done].
Qed.

Lemma site_input_fine : Forall fine (write_wg_client_input_rules cfg).
Proof.
  unfold write_wg_client_input_rules. cbv zeta. destruct (wgc_enabled (c_wg_client cfg)) eqn:He; cbn [negb]; [|constructor]. pose proof site_networks_tokens as Hn.
  fines; auto with text. destruct (wg_client_networks cfg) as [|x l]; fines; auto with text; rewrite ?app_nil_r; by inversion Hn.
Qed.
Lemma site_forward_fine : Forall fine (write_wg_client_forward_rules cfg).
Proof.
  unfold write_wg_client_forward_rules. cbv zeta. destruct (wgc_enabled (c_wg_client cfg)) eqn:He; cbn [negb]; [|constructor].
  assert (Hs : Forall token ([lan_interface (c_lan cfg)] ++ when (wg_enabled (c_wireguard cfg) && some_string (wg_interface (c_wireguard cfg)))
    [wg_interface (c_wireguard cfg)])).
  { apply Forall_app. split; [by repeat constructor; auto with text|]. apply Forall_when. intros Hw. to_prop. constructor; [|done]. by apply (pl_wg cfg HP). }
  fines; auto with text. apply Forall_map. eapply Forall_impl; [exact Hs|]. intros src Hsrc. cbv beta. fines.
Qed.
Lemma site_output_fine : Forall fine (write_wg_client_output_rules cfg).
Proof.
  unfold write_wg_client_output_rules. destruct (wgc_enabled (c_wg_client cfg)) eqn:He; cbn [negb]; [|constructor].
  destruct (split_host_port _) as [[h port]|] eqn:Es; [|constructor]. case_match; [constructor|].
  assert (Hp : token port) by by eapply (pl_site cfg HP). fines.
Qed.
Lemma segment_input_fine : Forall fine (write_extra_lan_input_rules cfg).
Proof.
  apply Forall_concat_map. intros lan Hl. unfold extra_input_rules. case_match; [constructor|]. to_prop.
  destruct (pl_segments cfg HP lan Hl) as (T1 & T2 & _); [done|]. fines.
Qed.
Lemma source_interface_token src : token (extra_lan_source_interface cfg src).
Proof.
  unfold extra_lan_source_interface. destruct (parse_cidr src) as [[ip n]|]; [|done]. cbv beta zeta.
  destruct (match parse_cidr (lan_cidr (c_lan cfg)) with Some _ => _ | None => _ end).
  - unfold runtime_lan_interface. destruct (wifi_enabled _); [done|]. apply name_lan.
  - destruct (wg_enabled (c_wireguard cfg)) eqn:He; cbn [andb]; [|done]. pose proof (pl_wg cfg HP He). by destruct (match parse_cidr _ with Some _ => _ | None => _ end).
Qed.
Lemma segment_forward_fine : Forall fine (write_extra_lan_forward_rules cfg).
Proof.
  apply Forall_concat_map. intros lan Hl. unfold extra_forward_rules. case_match; [constructor|]. to_prop.
  destruct (pl_segments cfg HP lan Hl) as (T1 & T2 & T3 & T4); [done|]. fines.
  apply Forall_concat_map. intros src Hs. unfold allow_from_rule. cbv zeta. destruct (is_empty (extra_lan_source_interface cfg src)) eqn:Ei; [constructor|].
  assert (Ht : token src).
  { unfold extra_lan_source_interface in Ei. destruct (parse_cidr src) as [[ip n]|] eqn:Ep; [by eapply parse_cidr_token|done]. }
  fines; [apply source_interface_token|]. by destruct (is_empty (xl_protocol lan)).
Qed.
Lemma accounting_fine : Forall fine (write_accounting_sets cfg) /\ Forall fine (write_accounting_rules cfg).
Proof.
  unfold write_accounting_sets, write_accounting_rules. split; fines. apply Forall_concat_map. intros name Hn.
  assert (Ht : token name) by (repeat (apply elem_of_cons in Hn as [->|Hn]; [reflexivity|]); by apply elem_of_nil in Hn). fines.
Qed.
Lemma protocols_tokens protocol : Forall token (port_forward_protocols protocol).
Proof. unfold port_forward_protocols. cbv zeta. repeat case_match; repeat constructor. Qed.
Lemma forward_lines_fine f : (forall rule proto, wg_enabled (c_wireguard cfg) = true -> token (pf_internal_ip rule) -> token proto -> fine (f rule proto)) ->
  Forall fine (forward_lines cfg f).
Proof.
  intros Hf. unfold forward_lines, enabled_tunnel_port_forwards. destruct (wg_enabled (c_wireguard cfg)) eqn:He; cbn [negb]; [|constructor].
  apply Forall_concat_map. intros rule Hr. apply list_elem_of_In, filter_In in Hr as [Hr _]. apply list_elem_of_In in Hr. apply Forall_map.
  eapply Forall_impl; [apply protocols_tokens|]. intros proto Hp. apply Hf; [done|by apply (pl_forwards cfg HP)|done].
Qed.
Lemma prerouting_fine : Forall fine (write_tunnel_port_forwards cfg).
Proof. unfold write_tunnel_port_forwards. fines. apply forward_lines_fine. intros rule proto He Hi Hp. fines. Qed.
Lemma redirected_fine : Forall fine (write_tunnel_port_forward_forward cfg).
Proof. unfold write_tunnel_port_forward_forward. fines. apply forward_lines_fine. intros rule proto He Hi Hp. fines. Qed.
Lemma wan_antispoof_fine : Forall fine (write_wan_antispoof (wan_interface (c_wan cfg))).
Proof. unfold write_wan_antispoof. fines; apply antispoof_fine; word. Qed.

(** ** Objects *)
Lemma btree_all (P : string -> Prop) l seen : Forall P l -> Forall P seen -> Forall P (fold_left (fun seen s => btree_insert s seen) l seen).
Proof.
  intros Hl. revert seen. induction Hl as [|x l Hx _ IH]; intros seen Hseen; cbn; [done|]. apply IH. clear IH.
  induction Hseen as [|y seen Hy Hseen IH]; cbn; [by repeat constructor|]. destruct (bytes_cmp _ _); repeat constructor; done.
Qed.
Lemma managed_services : Forall (fun s => service_domains s <> None) (active_managed_services cfg).
Proof.
  unfold active_managed_services. match goal with |- context [concat (map ?f ?l)] => set (services := concat (map f l)) end.
  assert (Hs : Forall (fun s => service_domains s <> None) services).
  { apply Forall_concat_map. intros profile _. case_match; [constructor|]. apply Forall_forall. intros s Hs. apply list_elem_of_In, filter_In in Hs as [_ Hs].
    by destruct (service_domains s). }
  apply btree_all; [exact Hs|constructor].
Qed.
Lemma objects_fine : Forall fine (write_device_profile_objects cfg).
Proof.
  unfold write_device_profile_objects. pose proof managed_services as Hm. destruct (active_managed_services cfg) as [|s0 l0]; [constructor|]. cbv zeta.
  fines.
  - apply Forall_map. eapply Forall_impl; [exact Hm|]. intros s Hs. apply service_token in Hs. fines.
  - unfold device_profiles_chain. fines. apply Forall_concat_map. intros profile Hp. destruct (pl_profiles cfg HP profile Hp) as (Hn & Hi & Hw).
    unfold profile_rules. fines. apply Forall_concat_map. intros ip Hip. rewrite Forall_forall in Hi. specialize (Hi ip Hip). unfold device_rules. fines.
    apply Forall_concat_map. intros service Hs. apply list_elem_of_In, filter_In in Hs as [_ Hs].
    assert (Ht : token service) by (apply service_token; by destruct (service_domains service)). unfold service_rules. fines.
    apply Forall_concat. rewrite Forall_forall. intros ls Hls. apply elem_of_lookup_imap in Hls as (k & day & -> & _).
    unfold write_allowed_windows. apply Forall_map. eapply Forall_impl; [apply Hw|]. intros w [H1 H2]. cbv zeta. fines.
    by destruct (aw_end w =s "23:59").
Qed.
Lemma counters_fine : Forall fine (rule_counters cfg).
Proof.
  unfold rule_counters. apply Forall_map. eapply (distinct_forall (fun name => fine (Text ("  counter " +:+ name +:+ " { }")))).
  apply Forall_map, Forall_forall. intros rule _. fines.
Qed.

(** ** Chains *)
Lemma input_fine : Forall fine (input_chain cfg).
Proof.
  unfold input_chain, input_guards, input_wireguard, input_squid, input_lan, wg_endpoint_rules. cbv zeta.
  fines; auto using known_endpoints_fine, wan_antispoof_fine, site_input_fine, segment_input_fine with text;
    try (apply (pl_wg cfg HP); done); try (apply custom_fine; reflexivity).
  case_match; fines.
Qed.
Lemma restricted_fine : Forall fine (restricted_rules cfg).
Proof.
  unfold restricted_rules. cbv zeta. fines. apply Forall_concat_map. intros item Hi. pose proof (pl_restricted cfg HP item Hi) as Ht.
  rewrite (token_trim _ Ht). fines.
Qed.
Lemma forward_fine : Forall fine (forward_chain cfg).
Proof.
  unfold forward_chain, forward_guards, forward_accepts, forward_lan, forward_wireguard. cbv zeta.
  fines; auto using wan_antispoof_fine, restricted_fine, segment_forward_fine, redirected_fine, site_forward_fine with text;
    try (apply (pl_wg cfg HP); done); try (apply custom_fine; reflexivity). apply accounting_fine.
Qed.
Lemma broadcast_token : token (lan_broadcast_address (lan_cidr (c_lan cfg))).
Proof.
  unfold lan_broadcast_address. destruct (parse_cidr _) as [[ip n]|] eqn:E; [|done]. destruct (is_none _); [done|].
  destruct (ipv4_broadcast n) as [b|] eqn:Eb; [|done]. apply ip_to_string_token. by eapply broadcast_ok.
Qed.
Lemma output_fine : Forall fine (output_chain cfg).
Proof.
  unfold output_chain, output_guards, output_services, output_egress, squid_output_guards, user_https. cbv zeta.
  fines; auto using site_output_fine, broadcast_token with text; try (to_prop; apply (pl_wg cfg HP); done).
  - apply Forall_concat_map. intros lan Hl. fines. to_prop. by apply (pl_segments cfg HP lan Hl).
  - case_match; fines.
  - unfold fine, rule_words. cbn [map match_words concat statement_words app port_words]. pose proof (pl_servers cfg HP) as Hs. rewrite !app_nil_r.
    apply Forall_app. split; [done|]. repeat constructor.
  - unfold fine, rule_words. cbn [map match_words concat statement_words app port_words]. pose proof (pl_servers cfg HP) as Hs. rewrite !app_nil_r.
    apply Forall_app. split; [done|]. repeat constructor.
Qed.
Lemma ruleset_fine : Forall fine (ruleset cfg).
Proof.
  unfold ruleset, base_chain, observe, postrouting_chain, write_wg_client_masquerade.
  fines; auto using counters_fine, objects_fine, input_fine, forward_fine, output_fine, prerouting_fine with text. apply accounting_fine.
Qed.
End Text.

(** ** Accepted configurations *)
Section Accepted.
Context {UC : Unicode} {B64 : Base64}.

Lemma segment_fields c ln wn i lan st e st' : validate_extra_lan c ln wn i lan st = (e, st') -> e = [] -> xl_enabled lan = true ->
  token (xl_interface lan) /\ token (xl_cidr lan) /\ token (xl_dst_ip lan) /\ token (xl_protocol lan).
Proof.
  unfold validate_extra_lan. destruct st as [seen nets]. intros H -> He. rewrite He in H. cbn [negb] in H.
  destruct (extra_interface_errors _ _ _ _) as [ie s1] eqn:Ei. destruct (extra_cidr_errors _ _ _ _ _ _ _) as [ce n1] eqn:Ec. injection H as H _. split_errors. subst.
  split_and!.
  - unfold extra_interface_errors in Ei. destruct (negb (valid_interface_name _) || _) eqn:Ev; [done|]. to_prop. by apply interface_token.
  - unfold extra_cidr_errors in Ec. destruct (parse_cidr (xl_cidr lan)) as [[ip n]|] eqn:Ep; cbn in Ec; [by eapply parse_cidr_token|done].
  - match goal with H : extra_dst_errors _ _ _ = [] |- _ => unfold extra_dst_errors in H; cbv zeta in H;
      destruct (if is_empty (xl_dst_ip lan) then None else parse_ipv4 (xl_dst_ip lan)) as [d|] eqn:Ed; [|done] end.
    destruct (is_empty _); [done|]. by eapply parse_ipv4_token.
  - assert (Hp : xl_protocol lan = EmptyString \/ xl_protocol lan = "tcp" \/ xl_protocol lan = "udp"); [|by destruct Hp as [->|[->| ->]]].
    match goal with H : context [xl_protocol lan <>s "tcp"] |- _ => clear - H end. unfold is_empty in *.
    destruct (String.eqb_spec (xl_protocol lan) EmptyString); [auto|]. destruct (String.eqb_spec (xl_protocol lan) "tcp"); [auto|].
    destruct (String.eqb_spec (xl_protocol lan) "udp"); [auto|done].
Qed.
Lemma windows_tokens field ws : validate_windows field ws = [] -> Forall (fun w => token (aw_start w) /\ token (aw_end w)) ws.
Proof.
  unfold validate_windows. destruct (Nat.ltb 12 _); [done|]. destruct (vloop _ 0 ws []) as [errs parsed] eqn:Ev. intros H. apply app_eq_nil in H as [-> _].
  apply (vloop_all (parse_window field) _ ws []); [|by rewrite Ev]. intros i w s e s' Hw ->. unfold parse_window in Hw.
  destruct (parse_clock (aw_start w)) as [[a b]|] eqn:E1; [|done]. destruct (parse_clock (aw_end w)) as [[c d]|] eqn:E2; [|done].
  split; by eapply parse_clock_token.
Qed.
Lemma find_elem {A} (p : A -> bool) l x : List.find p l = Some x -> x ∈ l.
Proof. intros H. apply find_some in H as [H _]. by apply list_elem_of_In. Qed.
Lemma schedule_tokens field schedule day : validate_profile_schedule field schedule = [] ->
  Forall (fun w => token (aw_start w) /\ token (aw_end w)) (windows_of day (effective_day_windows schedule)).
Proof.
  unfold validate_profile_schedule, effective_day_windows, windows_of. intros H. destruct (sched_day_windows schedule) as [|d0 ds] eqn:Ed.
  - apply app_eq_nil in H as [Hweek H]. apply windows_tokens in Hweek.
    assert (Hday : Forall (fun w => token (aw_start w) /\ token (aw_end w)) (items all_day)) by by repeat constructor.
    destruct (List.find _ _) as [[d ws]|] eqn:Ef; [|constructor]. apply find_elem in Ef. cbn [snd]. apply elem_of_app in Ef as [Ef|Ef].
    + apply list_elem_of_fmap_1 in Ef as (k & Hk & _). by injection Hk as _ ->.
    + repeat case_match; try (by apply elem_of_nil in Ef); to_prop; split_errors;
        repeat (apply elem_of_cons in Ef as [Ef|Ef]; [injection Ef as _ ->; try done|]); try (by apply elem_of_nil in Ef);
        try (by eapply windows_tokens); match goal with E : sched_weekend_mode schedule = _, O : one_of _ (sched_weekend_mode schedule) = _ |- _ => by rewrite E in O end.
  - cbv zeta in H. apply app_eq_nil in H as [_ H]. apply app_eq_nil in H as [_ H]. rewrite each_nil in H.
    destruct (List.find _ _) as [[d ws]|] eqn:Ef; [|constructor]. apply find_elem, list_elem_of_lookup in Ef as [k Hk]. specialize (H k _ Hk). cbn [fst snd] in H |- *. cbv beta iota zeta in H.
    destruct (negb _); [done|]. by eapply windows_tokens.
Qed.
Lemma profile_fields ln i profile st e st' : validate_profile ln i profile st = (e, st') -> e = [] -> utf8 (dp_name profile) ->
  one_line (dp_name profile) /\ Forall token (items (dp_ip_addresses profile))
  /\ forall day, Forall (fun w => token (aw_start w) /\ token (aw_end w)) (windows_of day (effective_day_windows (dp_schedule profile))).
Proof.
  unfold validate_profile. destruct st as [ids ips]. cbv zeta. destruct (set_insert (dp_id profile) ids) as [fresh ids'].
  destruct (vloop (validate_profile_ip _ _ _) 0 _ ips) as [ie ips'] eqn:Ei. intros [= H _] -> Hu. split_errors. subst. split_and!.
  - apply no_control_one_line; done.
  - apply (vloop_all (validate_profile_ip ln (idx "adguard.device_profiles" i) (dp_id profile)) _ _ ips); [|by rewrite Ei].
    intros j raw s e s' Hb ->. unfold validate_profile_ip in Hb. cbv zeta in Hb. injection Hb as Hb _. split_errors.
    destruct (parse_ipv4 raw) eqn:Ep; [by eapply parse_ipv4_token|done].
  - intros day. by eapply schedule_tokens.
Qed.

Lemma validated_plain cfg : validate cfg = Ok tt -> (forall profile, profile ∈ items (df_device_profiles (c_adguard cfg)) -> utf8 (dp_name profile)) ->
  Plain (runtime cfg).
Proof.
  intros (o & n & A)%validate_accepted Hutf. pose proof (acc_wan _ _ _ A) as Hw. unfold validate_wan in Hw. split_errors.
  split; cbn [runtime with_lan_interface c_lan c_wan c_wireguard c_wg_client c_firewall c_squid_proxy c_dhcp c_adguard lan_interface lan_cidr].
  - unfold runtime_lan_interface. destruct (wifi_enabled _); [done|]. by apply interface_token.
  - by apply interface_token.
  - destruct (validate_lan_ok _ _ _ (acc_lan _ _ _ A)) as (? & ? & ? & _ & _ & _ & Hc & _). by eapply parse_cidr_token.
  - intros He. pose proof (acc_wireguard _ _ _ A He) as Hg. unfold validate_wireguard in Hg. destruct (wireguard_address cfg o n). split_errors.
    match goal with H : wg_interface _ = _ |- _ => by rewrite H end.
  - intros He. pose proof (acc_wg_client _ _ _ A) as Hg. unfold validate_wg_client in Hg. rewrite He in Hg. cbn [negb] in Hg.
    destruct (client_address cfg n). split_errors. split; [match goal with H : wgc_interface _ = _ |- _ => by rewrite H end|]. intros h p Hs.
    match goal with H : client_endpoint_errors _ = [] |- _ => unfold client_endpoint_errors in H; rewrite Hs in H end. destruct (is_empty h); [done|]. split_errors.
    destruct (go_atoi p) eqn:Ep; [by eapply go_atoi_token|done].
  - intros rule Hr. destruct (accepted_rules cfg o n rule A Hr) as [k Hk]. unfold validate_custom_rule in Hk. cbv zeta in Hk. split_errors. split.
    + destruct (String.eqb_spec (rule_src_ip rule) EmptyString) as [->|Hne]; [done|].
      match goal with H : (if negb (is_empty (rule_src_ip rule)) then _ else _) = [] |- _ => unfold is_empty in H; rewrite (proj2 (String.eqb_neq _ _) Hne) in H; cbn [negb] in H end.
      destruct (parse_ipv4 (rule_src_ip rule)) eqn:E4; [by eapply parse_ipv4_token|]. destruct (parse_cidr (rule_src_ip rule)) as [[ip nn]|] eqn:Ec; [by eapply parse_cidr_token|done].
    + match goal with H : (if (rule_protocol rule =s "tcp") || (rule_protocol rule =s "udp") then _ else _) = [] |- _ => clear - H end.
      destruct (String.eqb_spec (rule_protocol rule) "tcp") as [->|]; [done|]. destruct (String.eqb_spec (rule_protocol rule) "udp") as [->|]; [done|].
      destruct (String.eqb_spec (rule_protocol rule) "icmp") as [->|]; [done|]. by destruct (String.eqb_spec (rule_protocol rule) "any") as [->|].
  - intros lan Hl He. pose proof (acc_extra_lans _ _ _ A) as Hx. unfold validate_extra_lans in Hx. cbv zeta in Hx.
    apply (vloop_all _ (fun lan => xl_enabled lan = true -> token (xl_interface lan) /\ token (xl_cidr lan) /\ token (xl_dst_ip lan) /\ token (xl_protocol lan))) in Hx.
    + rewrite Forall_forall in Hx. by apply Hx.
    + intros i x s e s' Hb Hnil. by eapply segment_fields.
  - intros rule Hr. pose proof (acc_firewall _ _ _ A) as Hf. unfold validate_firewall in Hf. split_errors.
    match goal with H : fst (vloop _ _ _ _) = [] |- _ => apply (vloop_all _ (fun rule => token (pf_internal_ip rule))) in H; [rewrite Forall_forall in H; by apply H|] end.
    intros i x s e s' Hb ->. unfold validate_port_forward in Hb. cbv zeta in Hb. destruct (vloop _ 0 (forward_protocols _) s) as [dups s1]. injection Hb as Hb _. split_errors.
    destruct (parse_ipv4 (pf_internal_ip x)) eqn:Ep; [by eapply parse_ipv4_token|done].
  - intros item Hi. pose proof (acc_squid _ _ _ A) as Hs. unfold validate_squid in Hs. cbv zeta in Hs. apply app_eq_nil in Hs as [_ Hs]. rewrite each_nil in Hs.
    apply list_elem_of_lookup in Hi as [k Hk]. specialize (Hs k _ Hk). cbn in Hs. split_errors. destruct (parse_ipv4 (ri_ip_address item)) eqn:Ep; [by eapply parse_ipv4_token|done].
  - by eapply accepted_servers.
  - intros profile Hp. pose proof (acc_profiles _ _ _ A) as Hd. unfold validate_device_profiles in Hd. split_errors.
    match goal with H : fst (vloop _ _ _ _) = [] |- _ => apply (vloop_all _ (fun profile => utf8 (dp_name profile) -> one_line (dp_name profile) /\ Forall token (items (dp_ip_addresses profile))
      /\ forall day, Forall (fun w => token (aw_start w) /\ token (aw_end w)) (windows_of day (effective_day_windows (dp_schedule profile))))) in H;
      [rewrite Forall_forall in H; by apply H, Hutf|] end.
    intros i x s e s' Hb Hnil Hu. by eapply profile_fields.
Qed.
End Accepted.

(** C17: No configuration injects a firewall rule.  The text generated for an
    accepted configuration splits, line by line, into the rules of the ruleset
    and nothing else, and every word of a rule, whatever field it comes from, is
    a token: without blanks, quotes, braces, semicolons or line breaks. *)
Theorem no_rule_injection {UC : Unicode} {B64 : Base64} {SH : Sha256} (cfg : SystemConfig) (text : string) :
  (forall l, Forall byte_ok (sha256 l)) ->
  (forall profile, profile ∈ items (df_device_profiles (c_adguard cfg)) -> utf8 (dp_name profile)) ->
  validate cfg = Ok tt -> generate_nftables_text cfg = Ok text ->
  split (byte_of 10) text = map render_line (ruleset (runtime cfg)) ++ [EmptyString]
  /\ forall ms st, Rule ms st ∈ ruleset (runtime cfg) -> Forall token (rule_words ms st).
Proof.
  intros Hsha Hutf Hv Hg. pose proof (ruleset_fine Hsha (runtime cfg) (validated_plain cfg Hv Hutf)) as Hf.
  unfold generate_nftables_text in Hg. revert Hg Hf. generalize (ruleset (runtime cfg)). intros doc Hg Hf.
  destruct (map_err _ _) as [[]|e]; [|done]. injection Hg as <-. split.
  - apply split_lines, Forall_map. eapply Forall_impl; [exact Hf|]. apply fine_one_line.
  - intros ms st Hin. rewrite Forall_forall in Hf. exact (Hf _ Hin).
Qed.
