(* ===== verification/Wireguard.v ===== *)
(** * The WireGuard generators

    [services/wireguard.rs]: the texts [wg setconf] and the peers' devices read,
    the keys, and the QR code of a client configuration.  The curve, the Base64
    engine, the QR encoder and the PNG encoder are crates: a class.  Random
    bytes are drawn by the caller and handed in. *)

From Stdlib Require Import ZArith Ascii String Lia Bool.
From stdpp Require Import base list strings gmap.
From S2P Require Import Prelude GoStrings Net GoTime Json Model Validation Policy Nft.

Local Open Scope string_scope.
Local Open Scope Z_scope.
Local Open Scope list_scope.

(** ** [goish::strings::quote] *)
Definition hex_text_fixed (digits : nat) (c : Z) : bytes :=
  map (fun i => hex_digit (Z.land (Z.shiftr c (4 * Z.of_nat i)) 15)) (rev (seq 0 digits)).
Definition quote_rune (c : Z) : bytes :=
  if c =? 34 then [backslash; quote_char]
  else if c =? 92 then [backslash; backslash]
  else if c =? 10 then [backslash; "n"%char]
  else if c =? 13 then [backslash; "r"%char]
  else if c =? 9 then [backslash; "t"%char]
  else if c =? 7 then [backslash; "a"%char]
  else if c =? 8 then [backslash; "b"%char]
  else if c =? 12 then [backslash; "f"%char]
  else if c =? 11 then [backslash; "v"%char]
  else if (c <? 32) || (c =? 127) then [backslash; "x"%char] ++ hex_text_fixed 2 c
  else if char_is_control c then
    if c <? 65536 then [backslash; "u"%char] ++ hex_text_fixed 4 c else [backslash; "U"%char] ++ hex_text_fixed 8 c
  else encode_char c.
Definition quote (value : string) : string := str_of (quote_char :: concat (map quote_rune (chars value)) ++ [quote_char]).

(** ** The crates *)
Class WireGuardCrates := {
  (** [base64]'s [STANDARD] engine *)
  standard_encode : list Z -> string;
  standard_decode : string -> option (list Z);
  (** [x25519_dalek] *)
  x25519 : list Z -> list Z -> list Z;
  X25519_BASEPOINT_BYTES : list Z;
  (** [QrCode::with_error_correction_level(_, EcLevel::M)]: the width, and which
      modules are dark, row by row *)
  qr_code : bytes -> result (nat * list bool) string;
  (** A grayscale PNG of one bit a pixel, of a side and rows of bytes *)
  png_encode : nat -> list Z -> result (list Z) string;
}.

(** A [writeln!] of a key and its value *)
Definition directive (key value : string) : string := key +:+ " = " +:+ value +:+ newline.
Definition heading (text : string) : string := text +:+ newline.
Definition optional_directive (key value : string) : string := if is_empty value then EmptyString else directive key value.

(** ** The server's tunnel *)

(** The one route of a peer *)
Definition peer_route (peer : WireGuardPeer) : result string error :=
  match items (peer_allowed_ips peer) with
  | [allowed] =>
      match parse_cidr (trim allowed) with
      | Some (ip, network) =>
          if negb (is_none (to4 ip)) && bool_decide (mask_size (net_mask network) = (32, 32)%nat) then Ok (net_to_string network)
          else Err (Errorf ("WireGuard peer " +:+ quote (peer_name peer) +:+ " must use an IPv4 /32 address"))
      | None => Err (Errorf ("WireGuard peer " +:+ quote (peer_name peer) +:+ " must use an IPv4 /32 address"))
      end
  | _ => Err (Errorf ("WireGuard peer " +:+ quote (peer_name peer) +:+ " must have exactly one IPv4 /32 address"))
  end.

Definition peer_text (peer : WireGuardPeer) (host_route : string) : string :=
  heading ("# Peer: " +:+ peer_name peer) +:+ heading "[Peer]" +:+ directive "PublicKey" (peer_public_key peer)
  +:+ optional_directive "PresharedKey" (peer_preshared_key peer) +:+ directive "AllowedIPs" host_route
  +:+ optional_directive "Endpoint" (peer_endpoint peer) +:+ directive "PersistentKeepalive" "25" +:+ newline.

Fixpoint peers_text (peers : list WireGuardPeer) (seen : gset string) : result string error :=
  match peers with
  | [] => Ok EmptyString
  | peer :: rest =>
      if negb (peer_enabled peer) then peers_text rest seen
      else
        let? host_route := peer_route peer in
        let '(fresh, seen) := set_insert host_route seen in
        if negb fresh then Err (Errorf ("WireGuard peer " +:+ quote (peer_name peer) +:+ " duplicates address " +:+ host_route))
        else let? text := peers_text rest seen in Ok (peer_text peer host_route +:+ text)
  end.

Definition GENERATED : string := "# Generated by Minimal Router OS — do not edit manually".
Definition RUNTIME_INPUT : string := "# Runtime input for wg setconf; interface address is applied separately".

Definition generate (wg : WireGuardConfig) (include_address : bool) : result string error :=
  let interface :=
    heading GENERATED
    +:+ (if include_address then heading "# Runtime file: /run/minimalrouter/wg0.conf" else heading RUNTIME_INPUT) +:+ newline
    +:+ heading "[Interface]" +:+ directive "PrivateKey" (wg_private_key wg)
    +:+ (if 0 <? wg_listen_port wg then directive "ListenPort" (show_Z (wg_listen_port wg)) else directive "ListenPort" "51820")
    +:+ (if include_address then directive "Address" (wg_address wg) else EmptyString) +:+ newline in
  let? peers := peers_text (items (wg_peers wg)) ∅ in
  Ok (interface +:+ peers).

Definition generate_wireguard_file (wg : WireGuardConfig) : result string error := generate wg true.
Definition generate_wireguard_runtime (wg : WireGuardConfig) : result string error := generate wg false.

(** ** The outbound tunnel *)
Fixpoint client_networks (entries : list string) (seen : gset string) : result (list string) error :=
  match entries with
  | [] => Ok []
  | entry :: rest =>
      match parse_cidr (trim entry) with
      | Some (_, n) =>
          if is_none (to4 (net_ip n)) then Err (Errorf ("WireGuard client allowed network " +:+ quote entry +:+ " must be valid IPv4 CIDR"))
          else
            let cidr := net_to_string n in
            let '(fresh, seen) := set_insert cidr seen in
            if negb fresh then Err (Errorf ("WireGuard client duplicates allowed network " +:+ cidr))
            else let? allowed := client_networks rest seen in Ok (cidr :: allowed)
      | None => Err (Errorf ("WireGuard client allowed network " +:+ quote entry +:+ " must be valid IPv4 CIDR"))
      end
  end.

Definition client_address_ok (address : string) : result unit error :=
  match parse_cidr (trim address) with
  | Some (ip, network) =>
      if is_none (to4 ip) then Err (Errorf "WireGuard client address is required and must be a valid IPv4 /32")
      else
        let '(ones, bits) := mask_size (net_mask network) in
        if negb (Nat.eqb bits 32) || negb (Nat.eqb ones 32) then Err (Errorf "WireGuard client address must be an IPv4 /32") else Ok tt
  | None => Err (Errorf "WireGuard client address is required and must be a valid IPv4 /32")
  end.

Definition generate_wireguard_client_runtime (wg : WGClientConfig) : result string error :=
  let? _ := client_address_ok (wgc_address wg) in
  if list_is_empty (wgc_allowed_ips wg) then Err (Errorf "WireGuard client must list at least one allowed network")
  else
    let? allowed := client_networks (items (wgc_allowed_ips wg)) ∅ in
    Ok (heading GENERATED +:+ heading RUNTIME_INPUT +:+ newline
        +:+ heading "[Interface]" +:+ directive "PrivateKey" (wgc_private_key wg) +:+ newline
        +:+ heading "# Peer: remote site (outbound tunnel)" +:+ heading "[Peer]" +:+ directive "PublicKey" (wgc_public_key wg)
        +:+ optional_directive "PresharedKey" (wgc_preshared_key wg) +:+ directive "AllowedIPs" (join ", " allowed)
        +:+ optional_directive "Endpoint" (wgc_endpoint wg)
        +:+ directive "PersistentKeepalive" (show_Z (wgc_persistent_keepalive wg))).

(** ** A peer's own configuration *)
Record ClientConfigBundle := mkClientConfigBundle { config_text : string; qr_code_data : string }.

Fixpoint routed_networks (cidrs : list string) (seen : gset string) : result (list string) error :=
  match cidrs with
  | [] => Ok []
  | raw :: rest =>
      match parse_cidr (trim raw) with
      | Some (ip, n) =>
          if is_none (to4 ip) then Err (Errorf ("invalid routed IPv4 CIDR " +:+ quote raw))
          else
            let '(fresh, seen) := set_insert (net_to_string n) seen in
            let? allowed := routed_networks rest seen in
            Ok (if fresh then net_to_string n :: allowed else allowed)
      | None => Err (Errorf ("invalid routed IPv4 CIDR " +:+ quote raw))
      end
  end.
Definition client_routes (client_ip : string) (routed_cidrs : list string) : result (list string) error :=
  let? allowed := routed_networks routed_cidrs ∅ in
  match allowed with
  | [] =>
      match parse_cidr client_ip with
      | Some (ip, n) => if is_none (to4 ip) then Err (Errorf "client CIDR is invalid") else Ok [net_to_string n]
      | None => Err (Errorf "client CIDR is invalid")
      end
  | _ => Ok allowed
  end.

Definition client_text (client_private_key client_ip server_public_key server_endpoint preshared_key dns_servers : string) (allowed : list string) : string :=
  heading "[Interface]" +:+ directive "PrivateKey" client_private_key +:+ directive "Address" client_ip
  +:+ optional_directive "DNS" dns_servers +:+ newline
  +:+ heading "[Peer]" +:+ directive "PublicKey" server_public_key +:+ optional_directive "PresharedKey" preshared_key
  +:+ optional_directive "Endpoint" server_endpoint +:+ directive "AllowedIPs" (join ", " allowed)
  +:+ directive "PersistentKeepalive" "25".

(** ** The QR code

    Eight pixels a module and a quiet zone of four modules: the row of a module
    is one byte of pixels, which the code clears bit by bit. *)
Definition SCALE : nat := 8.
Definition qr_side (width : nat) : nat := ((width + 8) * SCALE)%nat.
Definition qr_row_bytes (width : nat) : nat := Nat.div (qr_side width + 7) 8.

(** [pixels[py * row_bytes + px / 8] &= !(0x80 >> (px % 8))] *)
Definition clear_pixel (row_bytes : nat) (pixels : list Z) (p : nat * nat) : list Z :=
  let '(px, py) := p in
  alter (fun b => Z.land b (Z.lxor 255 (Z.shiftr 128 (Z.of_nat (px mod 8))))) (py * row_bytes + Nat.div px 8)%nat pixels.
(** The pixels of a module, in the order of the loops *)
Definition module_pixels (x y : nat) : list (nat * nat) :=
  flat_map (fun dy => map (fun dx => (((x + 4) * SCALE + dx)%nat, ((y + 4) * SCALE + dy)%nat)) (seq 0 SCALE)) (seq 0 SCALE).
Definition dark_modules (width : nat) (colors : list bool) : list (nat * nat) :=
  flat_map (fun y => flat_map (fun x => if nth (y * width + x) colors false then [(x, y)] else []) (seq 0 width)) (seq 0 width).
Definition qr_pixels (width : nat) (colors : list bool) : list Z :=
  fold_left (clear_pixel (qr_row_bytes width)) (flat_map (fun m => module_pixels (fst m) (snd m)) (dark_modules width colors))
    (repeat 255 (qr_row_bytes width * qr_side width)).

Section Crates.
Context {WC : WireGuardCrates}.

Definition qr_png (text : string) : result (list Z) error :=
  match qr_code (bytes_of text) with
  | Err e => Err (Errorf e)
  | Ok (width, colors) => map_err Errorf (png_encode (qr_side width) (qr_pixels width colors))
  end.

Definition generate_client_config (client_private_key client_ip server_public_key server_endpoint preshared_key dns_servers : string)
  (routed_cidrs : list string) : result ClientConfigBundle error :=
  let? allowed := client_routes client_ip routed_cidrs in
  let text := client_text client_private_key client_ip server_public_key server_endpoint preshared_key dns_servers allowed in
  let? png := map_err (Wrapf "encode WireGuard QR") (qr_png text) in
  Ok (mkClientConfigBundle text ("data:image/png;base64," +:+ standard_encode png)).

(** ** Keys

    [drawn] is what [rand::bytes(32)] answers. *)
Definition clamp (private : list Z) : list Z :=
  alter (fun b => Z.lor b 64) 31%nat (alter (fun b => Z.land b 127) 31%nat (alter (fun b => Z.land b 248) 0%nat private)).
Definition x25519_base (private : list Z) : list Z := x25519 private X25519_BASEPOINT_BYTES.

Definition generate_wireguard_keypair (drawn : result (list Z) string) : result (string * string) error :=
  let? private := map_err (fun e => Wrapf "generate WireGuard private key" (Errorf e)) drawn in
  let private := clamp private in
  Ok (standard_encode private, standard_encode (x25519_base private)).

Definition wireguard_public_key (private_key : string) : result string error :=
  match standard_decode private_key with
  | Some private =>
      if negb (Nat.eqb (List.length private) 32) then Err (Errorf "invalid WireGuard private key")
      else
        let public := x25519_base private in
        if forallb (Z.eqb 0) public then Err (Errorf "derive WireGuard public key: bad input point: low order point")
        else Ok (standard_encode public)
  | None => Err (Errorf "invalid WireGuard private key")
  end.

Definition generate_wireguard_preshared_key (drawn : result (list Z) string) : result string error :=
  let? key := map_err (fun e => Wrapf "generate WireGuard preshared key" (Errorf e)) drawn in
  Ok (standard_encode key).
End Crates.
