(* ===== verification/WireguardSpec.v ===== *)
(** * The generated tunnel reads back

    A reference reader of the format [wg setconf] documents, and what it reads
    in the texts of [Wireguard]: the configured keys, routes and endpoints, in
    the sections they were meant for, and nothing else.  The values have to be
    plain: what an endpoint with a line break does is an example of
    [WireguardRuns]. *)

From Stdlib Require Import ZArith Ascii String Lia Bool.
From stdpp Require Import base list strings gmap.
From S2P Require Import Prelude GoStrings Net NetSpec GoTime Json Model Validation ValidationSpec Policy PolicySpec Firmware FirmwareSpec Auth AuthSpec AuthSecrets Nft TokenText Wireguard.

Local Open Scope string_scope.
Local Open Scope Z_scope.
Local Open Scope list_scope.

(** ** The reader

    A line loses its comment and its blanks; then it is empty, the heading of a
    section, or a key and a value. *)
Definition blank (a : ascii) : bool := (bv a =? 32) || ((9 <=? bv a) && (bv a <=? 13)).
Definition cleaned (line : bytes) : bytes := List.filter (fun a => negb (blank a)) (take_while (fun a => negb (Ascii.eqb a "#"%char)) line).

Record WgSection := mkWgSection { ws_name : string; ws_entries : list (string * string) }.
(** The entries before the first heading, and the sections *)
Definition Reading : Type := option (list (string * string) * list WgSection).
Definition with_entry (key value : string) (rest : Reading) : Reading :=
  let! (entries, sections) := rest in Some ((key, value) :: entries, sections).
Definition with_heading (name : string) (rest : Reading) : Reading :=
  let! (entries, sections) := rest in Some ([], mkWgSection name entries :: sections).
Definition conf_line (line : bytes) (rest : Reading) : Reading :=
  match cleaned line with
  | [] => rest
  | a :: t =>
      if Ascii.eqb a "["%char then
        match rev t with
        | z :: name => if Ascii.eqb z "]"%char then with_heading (str_of (rev name)) rest else None
        | [] => None
        end
      else let! (key, value) := split_once_bytes "="%char (a :: t) in with_entry (str_of key) (str_of value) rest
  end.
Definition conf_text (text : string) : Reading := fold_right conf_line (Some ([], [])) (split_bytes (byte_of 10) (bytes_of text)).
Definition read_conf (text : string) : option (list WgSection) :=
  let! (entries, sections) := conf_text text in
  match entries with [] => Some sections | _ => None end.

(** A value the reader takes as it is *)
Definition value_char (a : ascii) : bool := (33 <=? bv a) && (bv a <=? 126) && negb (Ascii.eqb a "#"%char).
Definition plain (s : string) : Prop := forallb value_char (bytes_of s) = true.

(** ** What should be read *)
Definition optional_entry (key value : string) (rest : list (string * string)) : list (string * string) :=
  if is_empty value then rest else (key, value) :: rest.
Definition peer_section (peer : WireGuardPeer) (host_route : string) : WgSection :=
  mkWgSection "Peer" (("PublicKey", peer_public_key peer) :: optional_entry "PresharedKey" (peer_preshared_key peer)
    (("AllowedIPs", host_route) :: optional_entry "Endpoint" (peer_endpoint peer) [("PersistentKeepalive", "25")])).
Definition listen_port_text (wg : WireGuardConfig) : string := if 0 <? wg_listen_port wg then show_Z (wg_listen_port wg) else "51820".
Definition interface_section (wg : WireGuardConfig) (include_address : bool) : WgSection :=
  mkWgSection "Interface" (("PrivateKey", wg_private_key wg) :: ("ListenPort", listen_port_text wg)
    :: (if include_address then [("Address", wg_address wg)] else [])).
Definition enabled_peers (wg : WireGuardConfig) : list WireGuardPeer := List.filter peer_enabled (items (wg_peers wg)).

Record plain_peer (peer : WireGuardPeer) : Prop := {
  pp_name : contains_char (byte_of 10) (peer_name peer) = false;
  pp_key : plain (peer_public_key peer);
  pp_psk : plain (peer_preshared_key peer);
  pp_endpoint : plain (peer_endpoint peer);
}.

(** ** Lines *)
Definition unbroken_line (s : string) : Prop := forallb (fun a => negb (Ascii.eqb a (byte_of 10))) (bytes_of s) = true.
(** What the reader keeps of a value *)
Definition kept (value : string) : string := str_of (cleaned (bytes_of value)).

Lemma value_bytes a : value_char a = true -> blank a = false /\ Ascii.eqb a "#"%char = false /\ Ascii.eqb a (byte_of 10) = false.
Proof.
  unfold value_char, blank. intros H. to_prop. split; [lia|]. split; [done|]. rewrite ascii_eqb_bv. change (bv (byte_of 10)) with 10. lia.
Qed.
Lemma plain_unbroken s : plain s -> unbroken_line s.
Proof. apply forallb_weaken. intros a Ha. apply value_bytes in Ha as (_ & _ & ->). done. Qed.
Lemma unbroken_app a b : unbroken_line (a +:+ b) <-> unbroken_line a /\ unbroken_line b.
Proof. unfold unbroken_line. by rewrite bytes_of_app, forallb_app, andb_true_iff. Qed.
Lemma cleaned_app l l' : forallb value_char l = true -> cleaned (l ++ l') = l ++ cleaned l'.
Proof.
  unfold cleaned. induction l as [|a l IH]; intros H; [done|]. cbn [forallb] in H. apply andb_prop in H as [Ha Hl].
  apply value_bytes in Ha as (Hb & Hc & _). cbn [app take_while]. rewrite Hc. cbn [negb List.filter]. rewrite Hb. cbn [negb]. by rewrite IH.
Qed.
Lemma cleaned_plain l : forallb value_char l = true -> cleaned l = l.
Proof. intros H. rewrite <- (app_nil_r l) at 1. rewrite cleaned_app by done. apply app_nil_r. Qed.
Lemma kept_plain s : plain s -> kept s = s.
Proof. intros H. unfold kept. rewrite cleaned_plain by done. apply str_of_bytes_of. Qed.
Lemma token_plain s : token s -> plain s.
Proof.
  apply forallb_weaken. intros a Ha. destruct (token_bytes a Ha) as [Hb _]. unfold value_char.
  destruct (Ascii.eqb_spec a "#"%char) as [->|]; [done|]. lia.
Qed.

Lemma line_read line rest : unbroken_line line -> conf_text (heading line +:+ rest) = conf_line (bytes_of line) (conf_text rest).
Proof.
  intros H. unfold conf_text, heading, newline. rewrite !bytes_of_app. cbn [bytes_of list_ascii_of_string]. rewrite <- app_assoc. cbn [app].
  by rewrite split_bytes_app.
Qed.
Lemma empty_read rest : conf_text (newline +:+ rest) = conf_text rest.
Proof. apply (line_read EmptyString). done. Qed.
Lemma comment_read text rest : unbroken_line text -> conf_text (heading ("#" +:+ text) +:+ rest) = conf_text rest.
Proof. intros H. by rewrite line_read. Qed.
Lemma heading_read name rest : plain name -> conf_text (heading ("[" +:+ name +:+ "]") +:+ rest) = with_heading name (conf_text rest).
Proof.
  intros H. rewrite line_read by (rewrite !unbroken_app; split_and!; [done|by apply plain_unbroken|done]).
  unfold conf_line. rewrite !bytes_of_app. rewrite cleaned_plain by (rewrite !forallb_app, H; done).
  cbn [bytes_of list_ascii_of_string app]. rewrite rev_app_distr. cbn [rev app]. rewrite rev_involutive, !Ascii.eqb_refl.
  f_equal. apply str_of_bytes_of.
Qed.
(** A key: not the start of a heading, and no equals sign *)
Definition key_word (key : string) : bool :=
  forallb (fun a => value_char a && negb (Ascii.eqb a "="%char)) (bytes_of key)
  && match bytes_of key with a :: _ => negb (Ascii.eqb a "["%char) | [] => false end.
Lemma directive_read key value rest : key_word key = true -> unbroken_line value ->
  conf_text (directive key value +:+ rest) = with_entry key (kept value) (conf_text rest).
Proof.
  intros Hk Hv. apply andb_prop in Hk as [Hk Hs].
  assert (Hp : plain key) by (revert Hk; apply forallb_weaken; intros a Ha; by apply andb_prop in Ha as [? _]).
  assert (Hne : forallb (fun a => negb (Ascii.eqb a "="%char)) (bytes_of key) = true) by (revert Hk; apply forallb_weaken; intros a Ha; by apply andb_prop in Ha as [_ ?]).
  assert (E : directive key value = heading (key +:+ " = " +:+ value)) by (unfold directive, heading; apply bytes_of_inj; rewrite !bytes_of_app, <- !app_assoc; done).
  rewrite E, line_read by (rewrite !unbroken_app; split_and!; [by apply plain_unbroken|done|done]).
  unfold conf_line. rewrite !bytes_of_app, cleaned_app by done.
  change (cleaned (bytes_of " = " ++ bytes_of value)) with ("="%char :: cleaned (bytes_of value)).
  destruct (bytes_of key) as [|a t] eqn:Ek; [done|]. cbn [app]. apply negb_true_iff in Hs. rewrite Hs.
  change (a :: t ++ "="%char :: cleaned (bytes_of value)) with ((a :: t) ++ "="%char :: cleaned (bytes_of value)).
  rewrite split_once_app by done. rewrite <- Ek, str_of_bytes_of. done.
Qed.
Lemma directive_plain key value rest : key_word key = true -> plain value ->
  conf_text (directive key value +:+ rest) = with_entry key value (conf_text rest).
Proof. intros Hk Hv. rewrite directive_read by (done || by apply plain_unbroken). by rewrite kept_plain. Qed.
Lemma optional_read key value rest entries sections : key_word key = true -> plain value -> conf_text rest = Some (entries, sections) ->
  conf_text (optional_directive key value +:+ rest) = Some (optional_entry key value entries, sections).
Proof. intros Hk Hv Hr. unfold optional_directive, optional_entry. destruct (is_empty value); [done|]. by rewrite directive_plain, Hr. Qed.
Lemma kept_join l : Forall plain l -> kept (join ", " l) = join "," l /\ unbroken_line (join ", " l).
Proof.
  intros H. enough (cleaned (bytes_of (join ", " l)) = bytes_of (join "," l) /\ unbroken_line (join ", " l)) as [E ?].
  { split; [|done]. unfold kept. by rewrite E, str_of_bytes_of. }
  induction H as [|x l Hx Hl [IH1 IH2]]; [done|]. destruct l as [|y l].
  { cbn [join]. split; [by rewrite cleaned_plain|by apply plain_unbroken]. }
  change (join ", " (x :: y :: l)) with (x +:+ ", " +:+ join ", " (y :: l)). change (join "," (x :: y :: l)) with (x +:+ "," +:+ join "," (y :: l)).
  rewrite !unbroken_app. split; [|split_and!; [by apply plain_unbroken|done|done]].
  rewrite !bytes_of_app, cleaned_app by done. f_equal. change (bytes_of ", ") with (bytes_of "," ++ bytes_of " "). rewrite <- app_assoc, cleaned_app by done.
  f_equal. exact IH1.
Qed.

(** ** The server's text *)
Lemma app_str_assoc (a b c : string) : (a +:+ b) +:+ c = a +:+ (b +:+ c).
Proof. apply bytes_of_inj. by rewrite !bytes_of_app, app_assoc. Qed.
Lemma app_str_nil (a : string) : a +:+ EmptyString = a.
Proof. apply bytes_of_inj. by rewrite bytes_of_app, app_nil_r. Qed.

Lemma peer_read peer host_route rest sections : plain_peer peer -> plain host_route -> conf_text rest = Some ([], sections) ->
  conf_text (peer_text peer host_route +:+ rest) = Some ([], peer_section peer host_route :: sections).
Proof.
  intros [Hn Hk Hp He] Hr Hrest. unfold peer_text. rewrite !app_str_assoc. change ("# Peer: " +:+ peer_name peer) with ("#" +:+ (" Peer: " +:+ peer_name peer)).
  rewrite comment_read.
  2: { rewrite unbroken_app. split; [done|]. revert Hn. unfold contains_char, unbroken_line. generalize (bytes_of (peer_name peer)) as b.
       induction b as [|a b IH]; cbn [existsb forallb]; [done|]. rewrite Ascii.eqb_sym. intros [-> H]%orb_false_elim. by apply IH. }
  rewrite (heading_read "Peer") by done. rewrite directive_plain by done.
  erewrite optional_read; [|done|done|].
  2: { rewrite directive_plain by done. erewrite optional_read; [reflexivity|done|done|]. rewrite directive_plain, empty_read, Hrest by done. reflexivity. }
  reflexivity.
Qed.

Lemma peer_route_plain peer host_route : peer_route peer = Ok host_route -> plain host_route.
Proof.
  unfold peer_route. destruct (items (peer_allowed_ips peer)) as [|allowed [|]]; try done. destruct (parse_cidr (trim allowed)) as [[ip n]|] eqn:Ec; [|done].
  destruct (_ && _); [|done]. intros [= <-]. eapply token_plain, net_to_string_token, Ec.
Qed.
Lemma peers_read peers : forall seen routes,
  Forall2 (fun peer host_route => peer_route peer = Ok host_route) (List.filter peer_enabled peers) routes ->
  NoDup routes -> (forall s, s ∈ routes -> s ∉ seen) -> Forall plain_peer (List.filter peer_enabled peers) ->
  exists text, peers_text peers seen = Ok text /\ conf_text text = Some ([], zip_with peer_section (List.filter peer_enabled peers) routes).
Proof.
  induction peers as [|peer peers IH]; intros seen routes H1 H2 H3 Hp; cbn [peers_text List.filter] in *; [inversion H1; by eexists|].
  destruct (peer_enabled peer) eqn:Een; cbn [negb]; [|by apply (IH seen routes)].
  inversion H1 as [|? host_route ? routes' Hr H1']; subst. rewrite Hr. inversion H2 as [|? ? Hn H2']; subst. inversion Hp as [|? ? Hp1 Hp2]; subst.
  unfold set_insert. rewrite bool_decide_eq_false_2 by (apply H3; constructor). cbn [negb].
  destruct (IH ({[host_route]} ∪ seen) routes' H1' H2') as (text & -> & Ht); [|done|].
  { intros s Hs. specialize (H3 s ltac:(by constructor)). assert (s <> host_route) by (intros ->; done). set_solver. }
  eexists. split; [reflexivity|]. cbn [zip_with]. apply peer_read; [done|by eapply peer_route_plain|done].
Qed.

(** With routes that are all different, the text is generated and reads back. *)
Lemma routed_reads_back wg include_address routes :
  Forall2 (fun peer host_route => peer_route peer = Ok host_route) (enabled_peers wg) routes -> NoDup routes ->
  plain (wg_private_key wg) -> plain (wg_address wg) -> Forall plain_peer (enabled_peers wg) ->
  exists text, generate wg include_address = Ok text
    /\ read_conf text = Some (interface_section wg include_address :: zip_with peer_section (enabled_peers wg) routes).
Proof.
  intros Hr Hd Hk Ha Hp. unfold enabled_peers in Hr. destruct (peers_read (items (wg_peers wg)) ∅ routes Hr Hd ltac:(set_solver) Hp) as (peers & Ep & H3).
  unfold generate. rewrite Ep. eexists. split; [reflexivity|]. unfold read_conf, GENERATED, RUNTIME_INPUT. rewrite !app_str_assoc.
  assert (Hport : plain (listen_port_text wg)) by (unfold listen_port_text; destruct (0 <? _); [apply token_plain, show_Z_token|done]).
  assert (Hdir : forall rest, (if 0 <? wg_listen_port wg then directive "ListenPort" (show_Z (wg_listen_port wg)) else directive "ListenPort" "51820") +:+ rest
    = directive "ListenPort" (listen_port_text wg) +:+ rest) by (intros; unfold listen_port_text; by destruct (0 <? _)).
  rewrite (comment_read " Generated by Minimal Router OS — do not edit manually") by done.
  match goal with |- context [conf_text (?a +:+ newline +:+ ?r)] => replace (conf_text (a +:+ newline +:+ r)) with (conf_text r) end.
  2: { destruct include_address; [rewrite (comment_read " Runtime file: /run/minimalrouter/wg0.conf") by done|
         rewrite (comment_read " Runtime input for wg setconf; interface address is applied separately") by done]; by rewrite empty_read. }
  rewrite (heading_read "Interface"), directive_plain, Hdir, directive_plain by done.
  destruct include_address; rewrite ?app_str_assoc; [rewrite directive_plain by done|change (EmptyString +:+ (newline +:+ peers)) with (newline +:+ peers)]; rewrite empty_read, H3; reflexivity.
Qed.

(** ** Names *)
Section Accepted.
Context {UC : Unicode} {B64 : Base64} (Hletters : forall c, unicode_letter_number c = true -> char_is_control c = false).

Lemma safe_name_unbroken name : utf8 name -> SAFE_NAME_PATTERN name = true -> contains_char (byte_of 10) name = false.
Proof.
  intros Hu Hn. assert (Hc : has_control name = false).
  { unfold SAFE_NAME_PATTERN in Hn. unfold has_control. destruct (chars name) as [|c t]; [done|]. to_prop. cbn [existsb]. rewrite Hletters by done. cbn [orb].
    apply not_true_iff_false. intros (x & Hx & Hxc)%existsb_exists. match goal with H : forallb _ _ = true |- _ => rename H into Hs end. rewrite forallb_forall in Hs. specialize (Hs x Hx).
    unfold safe_name_char in Hs. apply orb_prop in Hs as [Hs|Hs]; [by rewrite Hletters in Hxc|].
    apply existsb_exists in Hs as (y & Hy & E). apply Z.eqb_eq in E as ->. repeat (destruct Hy as [<-|Hy]; [done|]). destruct Hy. }
  pose proof (no_control_one_line name Hu Hc) as Ho. unfold one_line in Ho. unfold contains_char. apply not_true_iff_false. intros (a & Ha & E)%existsb_exists.
  rewrite forallb_forall in Ho. specialize (Ho a Ha). rewrite ascii_eqb_bv in E. change (bv (byte_of 10)) with 10 in E. lia.
Qed.

(** ** An accepted tunnel *)

(** What validation leaves open: keys and the port of an endpoint may hold any
    text, and an IPv4 address may be written in its IPv6 form. *)
Record tunnel_peer (peer : WireGuardPeer) : Prop := {
  tp_name : utf8 (peer_name peer);
  tp_key : plain (peer_public_key peer);
  tp_psk : plain (peer_preshared_key peer);
  tp_endpoint : plain (peer_endpoint peer);
  tp_address allowed ip n : allowed ∈ items (peer_allowed_ips peer) -> parse_cidr allowed = Some (ip, n) -> snd (mask_size (net_mask n)) = 32%nat;
}.
(** The configured address of a peer, a host of the network [tn], as a route *)
Definition host_route_of (tn : IPNet) (peer : WireGuardPeer) (host_route : string) : Prop :=
  exists allowed ip n, items (peer_allowed_ips peer) = [allowed] /\ parse_cidr allowed = Some (ip, n) /\ parse_cidr host_route = Some (ip, n)
    /\ mask_size (net_mask n) = (32, 32)%nat /\ net_contains tn ip = true.

Lemma land_host o : List.length o = 4%nat -> Forall byte_ok o -> land_bytes o (mask_bytes 4 32) = o.
Proof.
  intros Hl Hb. do 5 (destruct o as [|? o]; try done). repeat match goal with H : Forall _ (_ :: _) |- _ => inversion H; clear H; subst end.
  cbn. by rewrite !land_255.
Qed.
(** The text of a network of one host *)
Lemma host_net_text o : List.length o = 4%nat -> Forall byte_ok o ->
  bytes_of (net_to_string (mkIPNet o (mask_bytes 4 32))) = show_ipv4 o ++ "/"%char :: show_nonneg 32
  /\ parse_cidr_bytes (show_ipv4 o ++ "/"%char :: show_nonneg 32) = Some (V4_IN_V6_PREFIX ++ o, mkIPNet o (mask_bytes 4 32)).
Proof.
  intros Hl Hb. split.
  - unfold net_to_string. rewrite bytes_of_str_of. unfold net_to_bytes, network_number_and_mask. cbn [net_ip net_mask].
    rewrite to4_length4, match_4_16, length_mask_bytes, Hl by congruence. cbn [Nat.eqb negb].
    by rewrite simple_mask_length_spec, ip_bytes_string_v4 by (done || lia).
  - change 32 with (Z.of_nat 32). rewrite parse_cidr_show by (done || lia). by rewrite land_host.
Qed.
Lemma host_route_text allowed ip n : parse_cidr allowed = Some (ip, n) -> mask_size (net_mask n) = (32, 32)%nat -> parse_cidr (net_to_string n) = Some (ip, n).
Proof.
  intros H Hm. apply parse_cidr_Some in H as (p & [(o & -> & Hl & Hb & Hp & ->)|(_ & _ & Hp & ->)]);
    cbn [net_mask] in Hm; unfold mask_size in Hm; rewrite simple_mask_length_spec, length_mask_bytes in Hm by lia; simplify_eq.
  rewrite land_host by done. destruct (host_net_text o Hl Hb) as [H1 H2]. unfold parse_cidr. by rewrite H1.
Qed.

(** What the loop over the peers established *)
Definition routes_to (tn : IPNet) (peer : WireGuardPeer) (host_route : string) : Prop :=
  peer_route peer = Ok host_route /\ host_route_of tn peer host_route.
Lemma allowed_ok tn i j allowed seen seen' : validate_peer_ip (Some tn) i j allowed seen = ([], seen') ->
  (forall ip n, parse_cidr allowed = Some (ip, n) -> snd (mask_size (net_mask n)) = 32%nat) ->
  exists ip n, parse_cidr allowed = Some (ip, n) /\ to4 ip <> None /\ mask_size (net_mask n) = (32, 32)%nat /\ net_contains tn ip = true
    /\ set_insert (net_to_string n) seen = (true, seen').
Proof.
  unfold validate_peer_ip. intros Hv Hm. destruct (parse_cidr allowed) as [[ip n]|] eqn:Ec; [|done]. specialize (Hm ip n eq_refl).
  destruct (_ && _ && _) eqn:Eg; [|done]. to_prop. destruct (set_insert (net_to_string n) seen) as [fresh s'] eqn:Es.
  injection Hv as Hv <-. split_errors. exists ip, n. subst fresh. destruct (mask_size (net_mask n)) as [a b] eqn:Em. cbn in *. subst.
  split_and!; try done; [by destruct (to4 ip)|by destruct (net_contains tn ip)].
Qed.
Lemma peer_ok tn i peer seen seen' : peer_enabled peer = true -> tunnel_peer peer -> validate_peer (Some tn) i peer seen = ([], seen') ->
  plain_peer peer /\ exists host_route, routes_to tn peer host_route /\ (host_route ∉ seen) /\ seen' = ({[host_route]} ∪ seen).
Proof.
  intros He [Tn Tk Tp Te Ta] Hv. unfold validate_peer in Hv. rewrite He in Hv. cbn [negb] in Hv.
  destruct (vloop (validate_peer_ip (Some tn) i) 0 (items (peer_allowed_ips peer)) seen) as [ip_errs s1] eqn:El. injection Hv as Hv <-. split_errors. subst ip_errs.
  unfold list_len in *. destruct (items (peer_allowed_ips peer)) as [|allowed [|]] eqn:Ei; cbn [List.length] in *; try lia.
  cbn [vloop] in El. destruct (validate_peer_ip (Some tn) i 0 allowed seen) as [e s2] eqn:Ea. injection El as El <-. rewrite app_nil_r in El. subst e.
  destruct (allowed_ok _ _ _ _ _ _ Ea) as (ip & n & Hc & Hip & Hm & Hin & Hs); [intros ip n; apply Ta; set_solver|].
  apply set_insert_spec in Hs as [-> Hf]. split; [by constructor; [apply safe_name_unbroken|..]|]. exists (net_to_string n). split_and!; [split| |done].
  - unfold peer_route. rewrite Ei, (token_trim allowed), Hc, Hm by (by eapply parse_cidr_token). by destruct (to4 ip).
  - exists allowed, ip, n. split_and!; try done. by eapply host_route_text.
  - by apply Hf.
Qed.
Lemma peers_ok tn peers : forall i seen, fst (vloop (validate_peer (Some tn)) i peers seen) = [] ->
  Forall tunnel_peer (List.filter peer_enabled peers) ->
  Forall plain_peer (List.filter peer_enabled peers)
  /\ exists routes, Forall2 (routes_to tn) (List.filter peer_enabled peers) routes /\ NoDup routes /\ (forall s, s ∈ routes -> s ∉ seen).
Proof.
  induction peers as [|peer peers IH]; intros i seen Hv Ht; cbn [vloop List.filter] in *.
  { split; [done|]. exists []. split_and!; [constructor|constructor|set_solver]. }
  destruct (validate_peer (Some tn) i peer seen) as [e s1] eqn:Ep. destruct (vloop _ (S i) peers s1) as [es s2] eqn:El. cbn [fst] in Hv.
  apply app_eq_nil in Hv as [-> ->]. specialize (IH (S i) s1). rewrite El in IH.
  destruct (peer_enabled peer) eqn:Een.
  - inversion Ht as [|? ? H1 H2]; subst. destruct (IH eq_refl H2) as (Hp & routes & R1 & R2 & R3).
    destruct (peer_ok _ _ _ _ _ Een H1 Ep) as (Hpp & host_route & Hr & Hn & ->). split; [by constructor|]. exists (host_route :: routes). split_and!.
    + by constructor.
    + constructor; [|done]. intros Hin. apply (R3 _ Hin). set_solver.
    + intros s [->|Hin]%elem_of_cons; [done|]. specialize (R3 _ Hin). set_solver.
  - unfold validate_peer in Ep. rewrite Een in Ep. injection Ep as <-. by apply IH.
Qed.

Lemma accepted_peers c : validate c = Ok tt -> wg_enabled (c_wireguard c) = true -> Forall tunnel_peer (enabled_peers (c_wireguard c)) ->
  exists ip tn routes, parse_cidr (wg_address (c_wireguard c)) = Some (ip, tn) /\ Forall plain_peer (enabled_peers (c_wireguard c))
    /\ Forall2 (routes_to tn) (enabled_peers (c_wireguard c)) routes /\ NoDup routes.
Proof.
  intros (lan_ip & lan_network & A)%validate_accepted He Ht. pose proof (acc_wireguard _ _ _ A He) as E. unfold validate_wireguard in E.
  destruct (wireguard_address c lan_ip lan_network) as [addr_errs wg_network] eqn:Ea. split_errors. subst addr_errs. unfold wireguard_address in Ea.
  destruct (parse_cidr (wg_address (c_wireguard c))) as [[ip tn]|] eqn:Ec; [|done]. destruct (_ && _); [|done]. injection Ea as Ea <-.
  match goal with H : fst (vloop _ _ _ _) = [] |- _ => destruct (peers_ok tn _ _ _ H Ht) as (Hp & routes & R1 & R2 & _) end.
  exists ip, tn, routes. by split_and!.
Qed.
Lemma accepted_tunnel c include_address : validate c = Ok tt -> wg_enabled (c_wireguard c) = true -> plain (wg_private_key (c_wireguard c)) ->
  Forall tunnel_peer (enabled_peers (c_wireguard c)) ->
  exists text ip tn routes, generate (c_wireguard c) include_address = Ok text /\ parse_cidr (wg_address (c_wireguard c)) = Some (ip, tn)
  /\ read_conf text = Some (interface_section (c_wireguard c) include_address :: zip_with peer_section (enabled_peers (c_wireguard c)) routes)
  /\ NoDup routes /\ Forall2 (routes_to tn) (enabled_peers (c_wireguard c)) routes.
Proof.
  intros Hv He Hk Ht. destruct (accepted_peers c Hv He Ht) as (ip & tn & routes & Ec & Hp & R1 & R2).
  destruct (routed_reads_back (c_wireguard c) include_address routes) as (text & Hg & Hr); try done.
  - eapply Forall2_impl; [exact R1|by intros ? ? []].
  - apply token_plain. by eapply parse_cidr_token.
  - by exists text, ip, tn, routes.
Qed.

(** C36: the tunnel of an accepted configuration, when the private key and the keys,
    secrets and endpoints of the enabled peers are plain text (visible ASCII without
    the comment sign), their names are valid UTF-8 and the masks of their addresses
    have 32 bits.  Validation accepts configurations that are not so: a key or an
    endpoint with line breaks and an IPv4-mapped IPv6 address pass, and for those
    the statement is false.  Under these conditions, the texts of the enabled tunnel
    are generated, and what [wg] reads in them is the interface and the enabled peers in
    order, each with its own key and secret and with one route: its configured
    address, a host of the tunnel's network, no two peers the same.  So no peer is
    given another's traffic.  (Of the Unicode tables it is used that letters and
    numbers are not control characters.) *)
Theorem accepted_tunnel_reads_back c include_address :
  validate c = Ok tt -> wg_enabled (c_wireguard c) = true -> plain (wg_private_key (c_wireguard c)) ->
  Forall tunnel_peer (enabled_peers (c_wireguard c)) ->
  exists text ip tn routes, generate (c_wireguard c) include_address = Ok text /\ parse_cidr (wg_address (c_wireguard c)) = Some (ip, tn)
  /\ read_conf text = Some (interface_section (c_wireguard c) include_address :: zip_with peer_section (enabled_peers (c_wireguard c)) routes)
  /\ NoDup routes /\ Forall2 (host_route_of tn) (enabled_peers (c_wireguard c)) routes.
Proof.
  intros Hv He Hk Ht. destruct (accepted_tunnel c include_address Hv He Hk Ht) as (text & ip & tn & routes & Hg & Hc & Hr & Hn & R).
  exists text, ip, tn, routes. split_and!; try done. eapply Forall2_impl; [exact R|by intros ? ? []].
Qed.
End Accepted.

(** ** A peer's own text *)
Definition client_sections (client_private client_ip server_public endpoint psk : string) (dns allowed : list string) : list WgSection :=
  [mkWgSection "Interface" (("PrivateKey", client_private) :: ("Address", client_ip) :: (if is_empty (join ", " dns) then [] else [("DNS", join "," dns)]));
   mkWgSection "Peer" (("PublicKey", server_public) :: optional_entry "PresharedKey" psk
     (optional_entry "Endpoint" endpoint [("AllowedIPs", join "," allowed); ("PersistentKeepalive", "25")]))].
Lemma client_reads_back client_private client_ip server_public endpoint psk dns allowed :
  Forall plain [client_private; client_ip; server_public; endpoint; psk] -> Forall plain dns -> Forall plain allowed ->
  read_conf (client_text client_private client_ip server_public endpoint psk (join ", " dns) allowed)
  = Some (client_sections client_private client_ip server_public endpoint psk dns allowed).
Proof.
  intros Hall Hd Ha. do 5 (inversion Hall as [|? ? ? Hall']; clear Hall; subst; rename Hall' into Hall). destruct (kept_join dns Hd) as [Kd Ud]. destruct (kept_join allowed Ha) as [Ka Ua].
  unfold read_conf, client_text. rewrite <- (app_str_nil (directive "PersistentKeepalive" "25")).
  rewrite (heading_read "Interface"), !directive_plain by done.
  assert (Hpeer : conf_text (newline +:+ heading "[Peer]" +:+ directive "PublicKey" server_public +:+ optional_directive "PresharedKey" psk
     +:+ optional_directive "Endpoint" endpoint +:+ directive "AllowedIPs" (join ", " allowed) +:+ directive "PersistentKeepalive" "25" +:+ EmptyString)
    = Some ([], [mkWgSection "Peer" (("PublicKey", server_public) :: optional_entry "PresharedKey" psk
     (optional_entry "Endpoint" endpoint [("AllowedIPs", join "," allowed); ("PersistentKeepalive", "25")]))])).
  { rewrite empty_read, (heading_read "Peer"), directive_plain by done. erewrite optional_read; [reflexivity|done|done|].
    erewrite optional_read; [reflexivity|done|done|]. by rewrite directive_read, Ka, directive_plain. }
  unfold optional_directive at 1. destruct (is_empty (join ", " dns)) eqn:Ee.
  - change (EmptyString +:+ ?s) with s. rewrite Hpeer. unfold client_sections. by rewrite Ee.
  - rewrite directive_read, Kd, Hpeer by done. unfold client_sections. by rewrite Ee.
Qed.

(** The routes of a peer's text are networks it was asked to route. *)
Lemma routed_networks_plain cidrs : forall seen allowed, routed_networks cidrs seen = Ok allowed -> Forall plain allowed.
Proof.
  induction cidrs as [|raw cidrs IH]; intros seen allowed; cbn [routed_networks]; [by intros [= <-]|].
  destruct (parse_cidr (trim raw)) as [[ip n]|] eqn:Ec; [|done]. destruct (is_none (to4 ip)); [done|]. destruct (set_insert _ seen) as [fresh seen'].
  destruct (routed_networks cidrs seen') as [rest|] eqn:Er; [|done]. intros [= <-]. apply IH in Er. destruct fresh; [|done]. constructor; [|done].
  eapply token_plain, net_to_string_token, Ec.
Qed.
Lemma client_routes_plain client_ip cidrs allowed : client_routes client_ip cidrs = Ok allowed -> Forall plain allowed.
Proof.
  unfold client_routes. destruct (routed_networks cidrs ∅) as [l|] eqn:Er; [|done]. apply routed_networks_plain in Er.
  destruct l as [|a l]; [|by intros [= <-]]. destruct (parse_cidr client_ip) as [[ip n]|] eqn:Ec; [|done]. destruct (is_none (to4 ip)); [done|].
  intros [= <-]. constructor; [|done]. eapply token_plain, net_to_string_token, Ec.
Qed.
