(* ===== verification/Review.v ===== *)
(** * What the operator is told about the firewall

    [services/review.rs]: the verdict of the configured policy on a described
    flow, the warnings about custom rules, the summaries of a change, and where
    a device's weekly schedule stands. *)

From Stdlib Require Import ZArith Ascii String Lia Bool.
From stdpp Require Import base list strings gmap.
From S2P Require Import Prelude GoStrings Net GoTime Json Model Validation Policy Firmware Auth Nft Nftables.

Local Open Scope string_scope.
Local Open Scope Z_scope.
Local Open Scope list_scope.

Record FirewallFlow := mkFirewallFlow {
  fl_source_ip : string;
  fl_destination_ip : string;
  fl_protocol : string;
  fl_port : Z;
}.
Record FirewallExplanation := mkFirewallExplanation {
  ex_revision : Z;
  ex_checked_at : Time;
  ex_basis : string;
  ex_verdict : string;
  ex_reason : string;
  ex_rule_id : string;
  ex_source_zone : string;
  ex_destination_zone : string;
  ex_limitations : list string;
}.

(** ** Zones *)
Definition in_network (address cidr : string) : bool :=
  match parse_cidr cidr, parse_ip address with
  | Some (_, n), Some ip => net_contains n ip
  | _, _ => false
  end.
Definition first_part (value : string) : string := hd EmptyString (split "/"%char value).

Definition firewall_zone (cfg : SystemConfig) (ip : string) : string :=
  let lan := c_lan cfg in
  let wg := c_wireguard cfg in
  let segments := items (fw_extra_lans (c_firewall cfg)) in
  if (ip =s lan_ip_address lan) || wg_enabled wg && (first_part (wg_address wg) =s ip) then "router"
  else if existsb (fun lan => xl_enabled lan && (first_part (xl_router_address lan) =s ip)) segments then "router"
  else if in_network ip (lan_cidr lan) then "lan"
  else if wg_enabled wg && in_network ip (wg_address wg) then "wireguard"
  else
    match List.find (fun lan => xl_enabled lan && in_network ip (xl_cidr lan)) segments with
    | Some lan => "segment:" +:+ xl_id lan
    | None =>
        if wgc_enabled (c_wg_client cfg) && existsb (in_network ip) (items (wgc_allowed_ips (c_wg_client cfg))) then "tunnel"
        else if some_and (fun p => is_global_unicast p && negb (is_private p)) (parse_ip ip) then "wan"
        else "unknown"
    end.

(** ** The verdict *)
Definition firewall_rule_matches (rule : FirewallRule) (flow : FirewallFlow) : bool :=
  if negb (is_empty (rule_src_ip rule)) && (rule_src_ip rule <>s fl_source_ip flow) && negb (in_network (fl_source_ip flow) (rule_src_ip rule))
  then false
  else
    (rule_protocol rule =s "any")
    || (rule_protocol rule =s fl_protocol flow) && ((rule_protocol rule =s "icmp") || (rule_dst_port rule =? fl_port flow)).
Definition is_segment (zone : string) : bool := starts_with "segment:" zone.

(** A verdict, its reason, and the custom rule that gives it *)
Definition Verdict : Type := string * string * string.
Definition verdict (v reason : string) : Verdict := (v, reason, EmptyString).

Section Explain.
Context {UC : Unicode} (cfg : SystemConfig) (flow : FirewallFlow) (src dst : string).
Let rules := items (fw_custom_rules (c_firewall cfg)).
Let squid := c_squid_proxy cfg.

Definition explain_router : Verdict :=
  let allowance := List.find (fun r => rule_enabled r && (rule_direction r =s "input") && (rule_action r =s "allow") && firewall_rule_matches r flow) rules in
  let none := verdict "deny" "No router-input allowance matches this new flow." in
  if src =s "tunnel" then verdict "deny" "The outbound tunnel cannot initiate connections to the router."
  else if is_segment src then
    if fl_protocol flow =s "icmp" then verdict "allow" "Isolated segments may ping the router."
    else verdict "deny" "Isolated segments cannot reach router services."
  else if (fl_port flow =? 53) && (fl_protocol flow <>s "icmp") then
    verdict "allow" "Router DNS is permitted from LAN and authenticated WireGuard; listener availability is not tested."
  else if (fl_protocol flow =s "tcp") && ((fl_port flow =? 22) || (fl_port flow =? sys_https_port (c_system cfg)))
          && ((src =s "wireguard") || (sys_management_access (c_system cfg) <>s "wireguard_only")) then
    verdict "allow" "Management port is allowed by packet policy; trusted networks and authentication still apply."
  else if negb (src =s "lan") then none
  else if (fl_protocol flow =s "icmp") || (fl_protocol flow =s "udp") && (fl_port flow =? 67) then
    verdict "allow" "Essential LAN router service is permitted."
  else if squid_enabled squid && (fl_protocol flow =s "tcp") && (fl_port flow =? squid_input_port cfg) then
    verdict "allow" "LAN access to the configured proxy listener is permitted."
  else
    match allowance with
    | Some rule => ("allow", "Matching custom router-input allowance.", rule_id rule)
    | None => none
    end.

(** The first profile that names the source decides, or leaves it open. *)
Definition explain_schedules : option Verdict :=
  if Nat.eqb (List.length (active_managed_services cfg)) 0 then None
  else
    match List.find (fun profile => dp_enabled profile && existsb (fun ip => ip =s fl_source_ip flow) (items (dp_ip_addresses profile)))
            (items (df_device_profiles (c_adguard cfg))) with
    | None => None
    | Some _ =>
        Some (if (fl_protocol flow <>s "icmp") && ((fl_port flow =? 53) || (fl_port flow =? 853))
              then verdict "deny" "Device schedules block direct DNS/DoT before custom rules."
              else verdict "unknown" "This device has a schedule. Its dynamic DNS destination sets and router-time enforcement must be inspected before deciding.")
    end.

Definition segment_allows (lan : ExtraLANConfig) : bool :=
  xl_enabled lan && (fl_destination_ip flow =s xl_dst_ip lan) && (fl_port flow =? xl_dst_port lan)
  && ((fl_protocol flow =s xl_protocol lan) || is_empty (xl_protocol lan) && (fl_protocol flow =s "tcp"))
  && existsb (in_network (fl_source_ip flow)) (items (xl_allow_from lan)).

Definition explain_forward : Verdict :=
  let wan := wan_enabled (c_wan cfg) in
  let denial := List.find (fun r => rule_enabled r && (rule_direction r =s "forward") && (rule_action r =s "deny") && firewall_rule_matches r flow
                                    && ((firewall_rule_scope r =s "all") || (dst =s "wan") && wan)) rules in
  let allowance := List.find (fun r => rule_enabled r && (rule_direction r =s "forward") && (rule_action r =s "allow") && firewall_rule_matches r flow) rules in
  match (if src =s "lan" then denial else None) with
  | Some rule => ("deny", "Matching custom deny runs before established connections and all custom allows.", rule_id rule)
  | None =>
      if squid_enabled squid && existsb (fun ip => ri_enabled ip && (ri_ip_address ip =s fl_source_ip flow)) (items (squid_restricted_ips squid)) then
        verdict "deny" "Proxy restriction blocks direct forwarded traffic from this address."
      else if src =s "tunnel" then verdict "deny" "The outbound tunnel may only return traffic; new remote initiations are denied."
      else if is_segment src then verdict "deny" "Isolated segments cannot initiate routed connections."
      else if is_segment dst then
        if existsb segment_allows (items (fw_extra_lans (c_firewall cfg)))
        then verdict "allow" "The isolated-segment service ACL permits this source, destination and port."
        else verdict "deny" "The isolated-segment service ACL does not allow this flow."
      else if (dst =s "wan") && wan && ((src =s "lan") || (src =s "wireguard")) then
        match (if src =s "lan" then allowance else None) with
        | Some rule =>
            ("allow", "Matching custom WAN allowance, after earlier restrictions. Default LAN-to-WAN egress also permits this path.", rule_id rule)
        | None => verdict "allow" "Default configured egress allows this source toward WAN, after earlier restrictions."
        end
      else if (src =s "wireguard") && (dst =s "lan") then
        verdict "allow" "Authenticated WireGuard clients may reach the LAN; DNAT is not an access-control list."
      else if (dst =s "tunnel") && ((src =s "lan") || (src =s "wireguard")) then
        verdict "allow" "Trusted LAN/WireGuard sources may initiate toward the configured outbound tunnel."
      else verdict "deny" "No forwarding allowance matches this new flow."
  end.

Definition explain_verdict : Verdict :=
  if (src =s "unknown") || (dst =s "unknown") || (src =s "router") then
    verdict "unknown" "This address needs live routing/interface context outside the supported configured topology."
  else if (src =s dst) && ((src =s "lan") || is_segment src) then
    verdict "not_routed" "Devices in the same configured subnet normally communicate directly; router forwarding rules do not protect that path."
  else if src =s "wan" then
    verdict "unknown" "WAN anti-spoof routing checks and WireGuard endpoint rate limits require live ingress context. New non-WireGuard WAN traffic is denied by configured policy."
  else if dst =s "router" then explain_router
  else match explain_schedules with Some v => v | None => explain_forward end.
End Explain.

(** The port forward the tunnel's redirection applies, if any *)
Definition tunnel_redirect (cfg : SystemConfig) (src : string) (flow : FirewallFlow) : option PortForwardRule :=
  if src =s "wireguard" then
    List.find (fun pf => pf_enabled pf && (pf_external_port pf =? fl_port flow) && ((pf_protocol pf =s fl_protocol flow) || (pf_protocol pf =s "both")))
      (items (fw_port_forwards (c_firewall cfg)))
  else None.
Definition redirected (flow : FirewallFlow) (pf : PortForwardRule) : FirewallFlow :=
  mkFirewallFlow (fl_source_ip flow) (pf_internal_ip pf) (fl_protocol flow) (pf_internal_port pf).
Definition redirect_note (pf : PortForwardRule) : string :=
  "Tunnel DNAT maps to " +:+ pf_internal_ip pf +:+ ":" +:+ show_Z (pf_internal_port pf) +:+ ". ".

Definition explain_limitations : list string :=
  ["New IPv4 flow; source interface inferred from configured subnets, not observed.";
   "Not a packet test. Live routes, conntrack, rate limits, application access and other firewall tables are not verified."].
Definition no_verdict (cfg : SystemConfig) (now : Time) : FirewallExplanation :=
  mkFirewallExplanation (c_revision cfg) now "configured_policy" "unknown" EmptyString EmptyString EmptyString EmptyString explain_limitations.
Definition is_ipv4_text (value : string) : bool := some_and (fun ip => negb (is_none (to4 ip))) (parse_ip value).

Definition explain_firewall_flow {UC : Unicode} (cfg : SystemConfig) (flow : FirewallFlow) (now : Time)
  : result FirewallExplanation (FirewallExplanation * error) :=
  let protocol := fl_protocol flow in
  let port := fl_port flow in
  if negb (is_ipv4_text (fl_source_ip flow) && is_ipv4_text (fl_destination_ip flow)) then
    Err (no_verdict cfg now, Errorf "source_ip and destination_ip must be IPv4 addresses")
  else if negb (one_of ["tcp"; "udp"; "icmp"] protocol) then
    Err (no_verdict cfg now, Errorf "protocol must be tcp, udp or icmp")
  else if (protocol =s "icmp") && negb (port =? 0) || (protocol <>s "icmp") && ((port <? 1) || (65535 <? port)) then
    Err (no_verdict cfg now, Errorf "port must be 1-65535 for TCP/UDP and zero for ICMP")
  else
    let src := firewall_zone cfg (fl_source_ip flow) in
    let redirect := tunnel_redirect cfg src flow in
    let flow := match redirect with Some pf => redirected flow pf | None => flow end in
    let dst := firewall_zone cfg (fl_destination_ip flow) in
    let note := match redirect with Some pf => redirect_note pf | None => EmptyString end in
    let '(v, reason, rule_id) := explain_verdict cfg flow src dst in
    Ok (mkFirewallExplanation (c_revision cfg) now "configured_policy" v (note +:+ reason) rule_id src dst explain_limitations).

(** ** Warnings *)
Definition same_match (r o : FirewallRule) : bool :=
  rule_enabled o && (rule_direction o =s rule_direction r) && (rule_protocol o =s rule_protocol r) && (rule_src_ip o =s rule_src_ip r)
  && (rule_dst_port o =? rule_dst_port r) && (firewall_rule_scope o =s firewall_rule_scope r).
Definition rule_warnings (before : list FirewallRule) (r : FirewallRule) : list string :=
  when ((rule_direction r =s "forward") && (rule_action r =s "allow"))
    [rule_name r +:+ ": WAN egress is already allowed by default; an allow cannot override an earlier deny or device schedule."]
  ++ when ((rule_direction r =s "forward") && (firewall_rule_scope r =s "all"))
       [rule_name r +:+ ": applies to every routed destination from LAN, including tunnels and isolated segments."]
  ++ match List.find (same_match r) before with
     | Some other => [rule_name other +:+ " and " +:+ rule_name r +:+ " overlap: denies are evaluated before allows; identical matches may be redundant."]
     | None => []
     end.
Fixpoint warnings_loop (before rules : list FirewallRule) (out : list string) : list string :=
  match rules with
  | [] => out
  | r :: t =>
      if negb (rule_enabled r) then warnings_loop (before ++ [r]) t out
      else
        let out := out ++ rule_warnings before r in
        if Nat.leb 30 (List.length out) then out ++ ["Additional warnings omitted; review all configured rules."]
        else warnings_loop (before ++ [r]) t out
  end.
Definition firewall_warnings (cfg : SystemConfig) : list string := warnings_loop [] (items (fw_custom_rules (c_firewall cfg))) [].

(** ** Summaries of a change *)
Definition show_bool (b : bool) : string := if b then "true" else "false".

Section Keyed.
Context {A : Type} (key : A -> string).
(** A map of the entries by key, the last of a key winning *)
Definition keyed (l : list A) : gmap string A := fold_left (fun m x => <[key x := x]> m) l ∅.
(** The entries of [after] against what is left of the old map, which loses
    every key met; then what remains of the old entries *)
Fixpoint compare_entries (added : A -> list string) (both : A -> A -> list string) (after : list A) (old : gmap string A) : list string * gmap string A :=
  match after with
  | [] => ([], old)
  | x :: t =>
      let here := match old !! key x with None => added x | Some prev => both prev x end in
      let '(rest, old') := compare_entries added both t (delete (key x) old) in
      (here ++ rest, old')
  end.
Definition removed_entries (removed : A -> string) (before : list A) (old : gmap string A) : list string :=
  concat (map (fun x => when (negb (is_none (old !! key x))) [removed x]) before).
Definition describe_entries (added : A -> list string) (both : A -> A -> list string) (removed : A -> string) (before after : list A) : list string :=
  let '(changes, remaining) := compare_entries added both after (keyed before) in
  changes ++ removed_entries removed before remaining.
End Keyed.

Definition describe_rule (r : FirewallRule) : string :=
  rule_name r +:+ ": " +:+ rule_action r +:+ " " +:+ rule_direction r +:+ " " +:+ rule_protocol r +:+ "/" +:+ show_Z (rule_dst_port r)
  +:+ " from " +:+ rule_src_ip r +:+ ", scope " +:+ firewall_rule_scope r +:+ ", enabled=" +:+ show_bool (rule_enabled r).
Definition describe_forward (label : string) (r : PortForwardRule) : string :=
  label +:+ " tunnel forward " +:+ pf_name r +:+ ": " +:+ pf_protocol r +:+ "/" +:+ show_Z (pf_external_port r) +:+ " → "
  +:+ pf_internal_ip r +:+ ":" +:+ show_Z (pf_internal_port r) +:+ ", enabled=" +:+ show_bool (pf_enabled r).
Definition at_most_fifty (omitted : nat -> string) (changes : list string) : list string :=
  if Nat.ltb 50 (List.length changes) then take 50 changes ++ [omitted (List.length changes - 50)%nat] else changes.

Definition firewall_changes (before after : FirewallConfig) : list string :=
  describe_entries rule_id (fun r => ["Add " +:+ describe_rule r])
    (fun prev r => when (negb (equal_section FirewallRule_json prev r)) ["Change " +:+ describe_rule prev +:+ " → " +:+ describe_rule r])
    (fun r => "Remove " +:+ describe_rule r) (items (fw_custom_rules before)) (items (fw_custom_rules after))
  ++ describe_entries pf_id (fun r => [describe_forward "Add" r])
       (fun prev r => when (negb (equal_section PortForwardRule_json prev r)) [describe_forward "Change" r])
       (fun r => "Remove tunnel forward " +:+ pf_name r) (items (fw_port_forwards before)) (items (fw_port_forwards after))
  ++ when (negb (equal_section (json_list ExtraLANConfig_json) (fw_extra_lans before) (fw_extra_lans after)))
       ["Isolated-segment access policy changes; review source networks and destination services."].
Definition describe_firewall_changes (before after : FirewallConfig) : list string :=
  at_most_fifty (fun _ => "Additional changes omitted; reduce the batch for a complete review.") (firewall_changes before after).

Definition field_change (name a b : string) : list string := when (a <>s b) [name +:+ ": " +:+ a +:+ " → " +:+ b].
Definition same_lease (a b : StaticLease) : bool :=
  (lease_id a =s lease_id b) && (lease_hostname a =s lease_hostname b) && (lease_mac a =s lease_mac b) && (lease_ip_address a =s lease_ip_address b).
Definition network_changes (current next : SystemConfig) : list string :=
  let dhcp c := c_dhcp c in
  let wan c := c_wan c in
  field_change "LAN gateway" (lan_ip_address (c_lan current)) (lan_ip_address (c_lan next))
  ++ field_change "LAN interface" (lan_interface (c_lan current)) (lan_interface (c_lan next))
  ++ field_change "DHCP enabled" (show_bool (dhcp_enabled (dhcp current))) (show_bool (dhcp_enabled (dhcp next)))
  ++ field_change "Pool start" (dhcp_range_start (dhcp current)) (dhcp_range_start (dhcp next))
  ++ field_change "Pool end" (dhcp_range_end (dhcp current)) (dhcp_range_end (dhcp next))
  ++ field_change "Lease duration" (dhcp_lease_time (dhcp current)) (dhcp_lease_time (dhcp next))
  ++ field_change "Upstream DNS" (join ", " (items (dhcp_dns_servers (dhcp current)))) (join ", " (items (dhcp_dns_servers (dhcp next))))
  ++ field_change "WAN enabled" (show_bool (wan_enabled (wan current))) (show_bool (wan_enabled (wan next)))
  ++ field_change "WAN interface" (wan_interface (wan current)) (wan_interface (wan next))
  ++ field_change "WAN MTU" (show_Z (wan_mtu (wan current))) (show_Z (wan_mtu (wan next)))
  ++ when (wan_username (wan current) <>s wan_username (wan next)) ["PPPoE username: changed"]
  ++ when (wan_password (wan current) <>s wan_password (wan next)) ["PPPoE password: changed (hidden)"]
  ++ describe_entries lease_id
       (fun l => ["Reservation added: " +:+ lease_hostname l +:+ " · " +:+ lease_mac l +:+ " → " +:+ lease_ip_address l])
       (fun prev l => when (negb (same_lease prev l))
          ["Reservation changed: " +:+ lease_hostname prev +:+ " / " +:+ lease_mac prev +:+ " / " +:+ lease_ip_address prev +:+ " → "
           +:+ lease_hostname l +:+ " / " +:+ lease_mac l +:+ " / " +:+ lease_ip_address l])
       (fun l => "Reservation removed: " +:+ lease_hostname l +:+ " · " +:+ lease_ip_address l)
       (items (dhcp_static_leases (dhcp current))) (items (dhcp_static_leases (dhcp next)))
  ++ describe_entries rec_name
       (fun r => ["Local DNS added: " +:+ rec_name r +:+ " → " +:+ rec_ip r])
       (fun prev r => field_change ("Local DNS " +:+ rec_name r) (rec_ip prev) (rec_ip r))
       (fun r => "Local DNS removed: " +:+ rec_name r +:+ " → " +:+ rec_ip r)
       (items (dns_records (c_dns current))) (items (dns_records (c_dns next))).
Definition describe_network_changes (current next : SystemConfig) : list string :=
  at_most_fifty (fun extra => show_Z (Z.of_nat extra) +:+ " additional network changes; review the full candidate before applying.")
    (network_changes current next).

(** ** Schedules *)
Definition schedule_minute (value : string) : Z :=
  let parts := split ":"%char value in
  let part i := default 0 (match parts !! i with Some s => go_atoi s | None => None end) in
  part 0%nat * 60 + part 1%nat.
Definition window_stop (w : AccessWindow) : Z := if aw_end w =s "23:59" then 1440 else schedule_minute (aw_end w).
(** [day] is the name of the weekday, [minute] the minute of the day. *)
Definition schedule_allowed (windows : list (string * GoList AccessWindow)) (day : string) (minute : Z) : bool :=
  existsb (fun w => (schedule_minute (aw_start w) <=? minute) && (minute <? window_stop w)) (windows_of day windows).
