(* ===== verification/ReviewTopology.v ===== *)
(** * Which interface an address is behind

    The zones of [services/review.rs] against the networks of an accepted
    configuration: the zone of an address names the interface whose network
    holds it. *)

From Stdlib Require Import ZArith Ascii String Lia Bool.
From stdpp Require Import base list strings gmap.
From S2P Require Import Prelude GoStrings Net NetSpec GoTime Json Model Validation ValidationSpec SegmentSpec Policy PolicySpec Firmware Auth Nft Nftables NftablesSpec Review.

Local Open Scope string_scope.
Local Open Scope Z_scope.
Local Open Scope list_scope.

(** ** Addresses *)
Definition in_net (cidr : string) (ip : IP) : bool := match parse_cidr cidr with Some (_, n) => net_contains n ip | None => false end.
(** The text is the printed form of the address it denotes. *)
Definition canonical (s : string) : bool := match parse_ip s with Some ip => ip_to_string ip =s s | None => true end.
Definition denotes (s : string) (ip : IP) : bool := some_and (fun x => ip_equal x ip) (parse_ip s).

Lemma in_network_spec s cidr ip : parse_ip s = Some ip -> in_network s cidr = in_net cidr (canon ip).
Proof. intros Hs. unfold in_network, in_net. rewrite Hs. destruct (parse_cidr cidr) as [[x n]|]; [|done]. by rewrite net_contains_canon. Qed.
Lemma in_net_of cidr ip : in_net cidr ip = true <-> exists n, net_of cidr n /\ net_contains n ip = true.
Proof.
  unfold in_net, net_of. destruct (parse_cidr cidr) as [[x n]|]; cbn; [|split; [done|by intros (? & ? & _)]].
  split; [by exists n|]. intros (m & Hm & H). by simplify_eq.
Qed.

Lemma ip_equal_canon a b : wf_ip a -> wf_ip b -> ip_equal a b = true <-> canon a = canon b.
Proof.
  intros [Ha _] [Hb _]. unfold ip_equal.
  assert (Hc : forall x, List.length x = 16%nat -> canon x = if has_v4_prefix x then drop 12 x else x).
  { intros x Hx. unfold canon, to4. rewrite Hx. by destruct (has_v4_prefix x). }
  assert (H4 : forall x, List.length x = 4%nat -> canon x = x) by (intros x Hx; unfold canon; by rewrite to4_length4).
  assert (Hp : forall x, has_v4_prefix x = true -> x = V4_IN_V6_PREFIX ++ drop 12 x).
  { intros x Hx. unfold has_v4_prefix in Hx. apply bytes_eqb_eq in Hx. rewrite <- (take_drop 12 x) at 1. by rewrite Hx. }
  assert (Hl : forall x : IP, List.length x = 16%nat -> List.length (drop 12 x) = 4%nat) by (intros x Hx; rewrite length_drop, Hx; done).
  destruct Ha as [Ha|Ha], Hb as [Hb|Hb]; rewrite Ha, Hb; cbn [Nat.eqb andb].
  - by rewrite (H4 a), (H4 b), bytes_eqb_eq.
  - rewrite (H4 a), (Hc b), andb_true_iff, bytes_eqb_eq by done. destruct (has_v4_prefix b) eqn:Eb; [naive_solver|].
    split; [by intros [? _]|]. intros ->. congruence.
  - rewrite (Hc a), (H4 b), andb_true_iff, bytes_eqb_eq by done. destruct (has_v4_prefix a) eqn:Ea; [naive_solver|].
    split; [by intros [? _]|]. intros <-. congruence.
  - rewrite (Hc a), (Hc b), bytes_eqb_eq by done. destruct (has_v4_prefix a) eqn:Ea, (has_v4_prefix b) eqn:Eb.
    + split; [by intros ->|]. intros E. rewrite (Hp a Ea), (Hp b Eb). by rewrite E.
    + split; [congruence|]. intros E. pose proof (Hl a Ha). rewrite E in *. congruence.
    + split; [congruence|]. intros E. pose proof (Hl b Hb). rewrite <- E in *. congruence.
    + done.
Qed.
Lemma canon_idem ip : wf_ip ip -> canon (canon ip) = canon ip.
Proof.
  intros [Hl _]. unfold canon at 2 3. destruct (to4 ip) as [v|] eqn:E; [|unfold canon; by rewrite E].
  apply to4_Some in E as [E _]. unfold canon. by rewrite to4_length4.
Qed.
Lemma print_canon ip : wf_ip ip -> ip_to_string (canon ip) = ip_to_string ip.
Proof.
  intros [Hl _]. unfold canon. destruct (to4 ip) as [v|] eqn:E; [|done]. pose proof (to4_Some _ _ E) as (Hv & _).
  unfold ip_to_string, ip_bytes_string. rewrite E, (to4_length4 v Hv). destruct v; [done|]. destruct ip; [by destruct Hl|done].
Qed.

(** Two canonical texts of one address are one text. *)
Lemma canonical_denotes a s ip : canonical a = true -> canonical s = true -> parse_ip s = Some ip -> denotes a (canon ip) = (a =s s).
Proof.
  intros Ha Hs Hp. unfold denotes, canonical in *. rewrite Hp in Hs. destruct (parse_ip_ok _ _ Hp) as [Wp _].
  destruct (parse_ip a) as [x|] eqn:Ex; cbn.
  - destruct (parse_ip_ok _ _ Ex) as [Wx _]. apply eq_true_iff_eq. rewrite ip_equal_canon, String.eqb_eq by (done || by apply canon_wf).
    rewrite canon_idem by done. to_prop. split.
    + intros E. by rewrite <- Ha, <- Hs, <- (print_canon x), <- (print_canon ip), E.
    + intros ->. congruence.
  - destruct (a =s s) eqn:E; [|done]. apply String.eqb_eq in E. congruence.
Qed.
Lemma canonical_no_network s ip : canonical s = true -> parse_ip s = Some ip -> to4 ip <> None -> parse_cidr s = None.
Proof.
  intros Hs Hp H4. unfold canonical in Hs. rewrite Hp in Hs. to_prop. destruct (parse_ip_ok _ _ Hp) as [W _].
  destruct (to4 ip) as [v|] eqn:Ev; [|done]. pose proof (to4_Some _ _ Ev) as (Hl & _ & Hv).
  assert (Hb : bytes_of s = show_ipv4 v).
  { rewrite <- Hs, <- (print_canon ip W). unfold canon. rewrite Ev. unfold ip_to_string. by rewrite bytes_of_str_of, ip_bytes_string_v4. }
  unfold parse_cidr, parse_cidr_bytes. rewrite Hb. destruct (split_once_bytes _ _) as [[x y]|] eqn:Es; [|done].
  apply split_once_Some in Es as [Es _]. pose proof (show_ipv4_no_char "/"%char v ltac:(done) eq_refl (Hv (proj2 W))) as Hn.
  rewrite Es, forallb_app in Hn. by rewrite andb_false_r in Hn.
Qed.
Lemma addr_matches_text a s ip : canonical a = true -> canonical s = true -> parse_ip s = Some ip -> to4 ip <> None ->
  addr_matches a (canon ip) = in_network s a || (a =s s).
Proof.
  intros Ha Hs Hp H4. rewrite (in_network_spec s a ip Hp). unfold addr_matches, in_net. destruct (parse_cidr a) as [[x n]|] eqn:Ec.
  - destruct (a =s s) eqn:E; [|by rewrite orb_false_r]. apply String.eqb_eq in E as ->. by rewrite (canonical_no_network s ip) in Ec.
  - cbn. pose proof (canonical_denotes a s ip Ha Hs Hp) as H. unfold denotes in H. destruct (parse_ip a); exact H.
Qed.

(** ** Interfaces *)
(** What a role in the configuration may be called: a whole name, neither
    loopback's nor a PPP session's *)
Definition plain_name (n : string) : bool := negb (is_empty n) && negb (ends_with "*" n) && (n <>s "lo") && negb (starts_with "ppp" n).
Definition active_segments (cfg : SystemConfig) : list ExtraLANConfig := List.filter xl_enabled (items (fw_extra_lans (c_firewall cfg))).
Definition interfaces (cfg : SystemConfig) : list string :=
  [runtime_lan_interface cfg; wan_interface (c_wan cfg)] ++ when (wg_enabled (c_wireguard cfg)) [wg_interface (c_wireguard cfg)]
  ++ when (wgc_enabled (c_wg_client cfg)) [wg_client_interface cfg] ++ map xl_interface (active_segments cfg).

(** The interface a packet to or from an address of the home networks, the
    remote site or the Internet crosses *)
Inductive Behind (cfg : SystemConfig) (ip : IP) : string -> Prop :=
  | behind_lan : in_net (lan_cidr (c_lan cfg)) ip = true -> Behind cfg ip (runtime_lan_interface cfg)
  | behind_tunnel : wg_enabled (c_wireguard cfg) = true -> in_net (wg_address (c_wireguard cfg)) ip = true -> Behind cfg ip (wg_interface (c_wireguard cfg))
  | behind_segment lan : lan ∈ active_segments cfg -> in_net (xl_cidr lan) ip = true -> Behind cfg ip (xl_interface lan)
  | behind_site entry : wgc_enabled (c_wg_client cfg) = true -> entry ∈ items (wgc_allowed_ips (c_wg_client cfg)) -> in_net (trim entry) ip = true ->
      Behind cfg ip (wg_client_interface cfg)
  | behind_wan iface : in_net (lan_cidr (c_lan cfg)) ip = false ->
      (wg_enabled (c_wireguard cfg) = true -> in_net (wg_address (c_wireguard cfg)) ip = false) ->
      (forall lan, lan ∈ active_segments cfg -> in_net (xl_cidr lan) ip = false) ->
      (wgc_enabled (c_wg_client cfg) = true -> forall entry, entry ∈ items (wgc_allowed_ips (c_wg_client cfg)) -> in_net (trim entry) ip = false) ->
      iface = wan_interface (c_wan cfg) \/ name_matches "ppp*" iface = true -> Behind cfg ip iface.

(** The addresses of the router on its own networks *)
Definition router_addresses (cfg : SystemConfig) : list string :=
  [lan_ip_address (c_lan cfg)] ++ when (wg_enabled (c_wireguard cfg)) [first_part (wg_address (c_wireguard cfg))]
  ++ map (fun lan => first_part (xl_router_address lan)) (active_segments cfg).
Definition router_owns (cfg : SystemConfig) (ip : IP) : bool := existsb (fun a => denotes a ip) (router_addresses cfg).

(** ** How a configuration is written *)
Definition dotted_network (s : string) : bool := match parse_cidr s with Some (_, n) => Nat.eqb (snd (mask_size (net_mask n))) 32 | None => true end.
Definition unpadded (s : string) : bool := trim s =s s.
(** A host address as it is printed, not a network *)
Definition host_text (s : string) : bool := canonical s && is_none (parse_cidr s).
Definition named_hosts (cfg : SystemConfig) : list string :=
  router_addresses cfg ++ map xl_dst_ip (active_segments cfg) ++ concat (map (fun p => items (dp_ip_addresses p)) (items (df_device_profiles (c_adguard cfg))))
  ++ map ri_ip_address (items (squid_restricted_ips (c_squid_proxy cfg))) ++ map pf_internal_ip (items (fw_port_forwards (c_firewall cfg))).
Definition named_networks (cfg : SystemConfig) : list string :=
  [lan_cidr (c_lan cfg); wg_address (c_wireguard cfg)] ++ concat (map (fun lan => items (xl_allow_from lan)) (active_segments cfg)).
(** Interfaces are distinct and plainly named, addresses are written the way
    they are printed, IPv4 networks in dotted notation, entries of lists
    without surrounding blanks, protocols of port forwards in lower case. *)
Record PlainlyWritten (cfg : SystemConfig) : Prop := {
  pw_interfaces : NoDup (interfaces cfg);
  pw_names : forallb plain_name (interfaces cfg) = true;
  pw_hosts : forallb host_text (named_hosts cfg) = true;
  pw_sources : forallb canonical (map rule_src_ip (items (fw_custom_rules (c_firewall cfg)))) = true;
  pw_networks : forallb dotted_network (named_networks cfg) = true;
  pw_allowed : forallb unpadded (items (wgc_allowed_ips (c_wg_client cfg)) ++ concat (map (fun lan => items (xl_allow_from lan)) (active_segments cfg))
    ++ map ri_ip_address (items (squid_restricted_ips (c_squid_proxy cfg)))) = true;
  pw_forwards : forallb (fun pf => one_of ["tcp"; "udp"; "both"] (pf_protocol pf)) (items (fw_port_forwards (c_firewall cfg))) = true;
}.

(** ** Names *)
Lemma plain_matches n m : plain_name n = true -> name_matches n m = (n =s m).
Proof. unfold plain_name, name_matches. intros H. to_prop. by match goal with H : ends_with _ _ = false |- _ => rewrite H end. Qed.

Lemma named_host cfg a : PlainlyWritten cfg -> a ∈ named_hosts cfg -> canonical a = true /\ parse_cidr a = None.
Proof.
  intros HP Ha. pose proof (pw_hosts _ HP) as H. rewrite forallb_forall in H. specialize (H a (proj1 (list_elem_of_In _ _) Ha)).
  unfold host_text in H. apply andb_true_iff in H as [H1 H2]. by destruct (parse_cidr a).
Qed.

(** ** Networks that are apart *)
Lemma nets_apart s1 s2 a b ip : net_of s1 a -> net_of s2 b -> networks_overlap a b = false -> wf_ip ip ->
  in_net s1 ip = true -> in_net s2 ip = true -> False.
Proof.
  intros H1 H2 Ho W (a' & Ha & Ca)%in_net_of (b' & Hb & Cb)%in_net_of. unfold net_of in *. simplify_eq.
  exact (no_overlap_disjoint s1 s2 a b H1 H2 Ho ip W Ca Cb).
Qed.
(** Of two overlapping networks one holds a given address of the other. *)
Lemma overlap_nested a b na nb p q x y : net_view a na p -> net_view b nb q -> wf_ip x -> wf_ip y ->
  networks_overlap a b = true -> net_contains a x = true -> net_contains b y = true -> net_contains a y = true \/ net_contains b x = true.
Proof.
  intros Va Vb Wx Wy Ho Hx Hy. apply (networks_overlap_iff a b na nb p q Va Vb) in Ho as (ip & W & Ha & Hb).
  apply (net_contains_spec a na p ip Va W) in Ha as [La Ea]. apply (net_contains_spec b nb q ip Vb W) in Hb as [Lb Eb].
  apply (net_contains_spec a na p x Va Wx) in Hx as [Lx Ex]. apply (net_contains_spec b nb q y Vb Wy) in Hy as [Ly Ey].
  pose proof (nv_prefix _ _ _ Va) as Hp. pose proof (nv_prefix _ _ _ Vb) as Hq. destruct (Nat.le_ge_cases p q) as [H|H].
  - left. apply (net_contains_spec a na p y Va Wy). split; [congruence|]. rewrite <- Ea. apply (prefix_of_le p q); [congruence|done|lia|congruence].
  - right. apply (net_contains_spec b nb q x Vb Wx). split; [congruence|]. rewrite <- Eb. apply (prefix_of_le q p); [congruence|done|lia|congruence].
Qed.

Section Topology.
Context {UC : Unicode} {B64 : Base64} (cfg : SystemConfig) (Hv : validate cfg = Ok tt) (HP : PlainlyWritten cfg) (ip : IP) (W : wf_ip ip).

Lemma active_lookup lan : lan ∈ active_segments cfg <-> exists i, items (fw_extra_lans (c_firewall cfg)) !! i = Some lan /\ xl_enabled lan = true.
Proof.
  unfold active_segments. rewrite list_elem_of_In, filter_In, <- list_elem_of_In, list_elem_of_lookup. naive_solver.
Qed.
Lemma lan_view : exists o x n, parse_ipv4 (lan_ip_address (c_lan cfg)) = Some o /\ parse_cidr (lan_cidr (c_lan cfg)) = Some (x, n) /\ net_contains n o = true
  /\ accepted cfg (Some o) (Some n).
Proof.
  destruct (validate_accepted _ Hv) as (i & l & A). destruct (validate_lan_ok _ _ _ (acc_lan _ _ _ A)) as (o & x & n & -> & -> & Ho & Hc & _ & Hn & _).
  by exists o, x, n.
Qed.

Lemma tunnel_view : wg_enabled (c_wireguard cfg) = true -> exists x n, parse_cidr (wg_address (c_wireguard cfg)) = Some (x, n)
  /\ to4 x <> None /\ (exists h, parse_ip (first_part (wg_address (c_wireguard cfg))) = Some h /\ ip_equal x h = true)
  /\ (forall y m o, parse_cidr (lan_cidr (c_lan cfg)) = Some (y, m) -> parse_ipv4 (lan_ip_address (c_lan cfg)) = Some o -> net_contains m x = false /\ net_contains n o = false)
  /\ wg_listen_port (c_wireguard cfg) <> sys_https_port (c_system cfg) /\ 1024 <= wg_listen_port (c_wireguard cfg) /\ wg_interface (c_wireguard cfg) = "wg0".
Proof.
  intros He. destruct lan_view as (o & y & m & Ho & Hc & _ & A). pose proof (acc_wireguard _ _ _ A He) as E. unfold validate_wireguard in E. cbv zeta in E.
  unfold wireguard_address in E. cbv zeta in E. destruct (parse_cidr (wg_address _)) as [[x n]|] eqn:Ew; [|split_errors; done].
  destruct (negb (is_none (to4 x)) && some_and _ _) eqn:Eg; [|split_errors; done]. apply andb_true_iff in Eg as [E4 Eh]. split_errors.
  exists x, n. repeat match goal with |- _ /\ _ => split end; try done; try lia.
  - by destruct (to4 x).
  - unfold first_part. destruct (parse_ip _) as [h|]; [|done]. by exists h.
  - intros y' m' o' Hy Ho'. rewrite Hc in Hy. rewrite Ho in Ho'. simplify_eq. cbn in *. to_prop. split; [done|].
    match goal with H : net_contains n o' && _ = false |- _ => by rewrite andb_true_r in H end.
Qed.

Lemma lan_tunnel_apart : wg_enabled (c_wireguard cfg) = true -> in_net (lan_cidr (c_lan cfg)) ip = true -> in_net (wg_address (c_wireguard cfg)) ip = true -> False.
Proof.
  intros He H1 H2. destruct lan_view as (o & y & m & Ho & Hc & Hm & _). destruct (tunnel_view He) as (x & n & Hx & _ & _ & Hd & _).
  destruct (Hd _ _ _ Hc Ho) as [D1 D2]. destruct (parse_cidr_view _ _ _ Hc) as [Wm (na & p & Vm)]. destruct (parse_cidr_view _ _ _ Hx) as [Wn (nb & q & Vn)].
  pose proof (parse_ipv4_ok _ _ Ho) as [Wo _]. assert (Hov : networks_overlap m n = true).
  { apply (networks_overlap_iff m n na nb p q Vm Vn). exists ip. unfold in_net in *. rewrite Hc in H1. by rewrite Hx in H2. }
  assert (Hd32 : snd (mask_size (net_mask n)) = 32%nat).
  { pose proof (pw_networks _ HP) as Hn. cbn in Hn. to_prop. unfold dotted_network in *. rewrite Hx in *. by apply Nat.eqb_eq. }
  destruct (mask_size (net_mask n)) as [k bits] eqn:Em. cbn in Hd32. subst bits.
  assert (Hnx : net_contains n x = true).
  { apply (parse_cidr_contains_prefix _ _ _ _ x Hx Em Wn). split; [|done]. destruct (parse_cidr_block _ _ _ _ Hx Em) as [w [-> Hw _ _ _]]. by rewrite canon_mapped. }
  destruct (overlap_nested m n na nb p q o x Vm Vn Wo Wn Hov Hm Hnx); congruence.
Qed.

Lemma segment_view lan : lan ∈ active_segments cfg -> exists n, net_of (xl_cidr lan) n
  /\ (forall m, net_of (lan_cidr (c_lan cfg)) m -> networks_overlap m n = false)
  /\ (wg_enabled (c_wireguard cfg) = true -> forall w, net_of (wg_address (c_wireguard cfg)) w -> networks_overlap w n = false).
Proof.
  intros (i & Hi & He)%active_lookup. destruct lan_view as (o & x & m & _ & Hc & _ & A). destruct (accepted_segments _ _ _ A) as [st [_ Each _]].
  destruct (Each i lan Hi He) as (n & [Sn Sl Sw _ _] & _). exists n. split; [done|]. split.
  - intros m' Hm'. unfold net_of in Hm'. rewrite Hc in Hm'. cbn in Hm'. by simplify_eq.
  - intros Hw w Nw. apply Sw. unfold extra_lans_wg_network. by rewrite Hw.
Qed.
Lemma lan_segment_apart lan : lan ∈ active_segments cfg -> in_net (lan_cidr (c_lan cfg)) ip = true -> in_net (xl_cidr lan) ip = true -> False.
Proof.
  intros Hl H1 H2. destruct (segment_view lan Hl) as (n & Hn & H & _). pose proof H1 as (m & Hm & _)%in_net_of.
  exact (nets_apart _ _ m n ip Hm Hn (H m Hm) W H1 H2).
Qed.
Lemma tunnel_segment_apart lan : wg_enabled (c_wireguard cfg) = true -> lan ∈ active_segments cfg ->
  in_net (wg_address (c_wireguard cfg)) ip = true -> in_net (xl_cidr lan) ip = true -> False.
Proof.
  intros He Hl H1 H2. destruct (segment_view lan Hl) as (n & Hn & _ & H). pose proof H1 as (m & Hm & _)%in_net_of.
  exact (nets_apart _ _ m n ip Hm Hn (H He m Hm) W H1 H2).
Qed.
Lemma segment_unique x y : x ∈ active_segments cfg -> y ∈ active_segments cfg -> in_net (xl_cidr x) ip = true -> in_net (xl_cidr y) ip = true -> x = y.
Proof.
  intros (i & Hi & Ex)%active_lookup (j & Hj & Ey)%active_lookup H1 H2. destruct lan_view as (o & x0 & m & _ & _ & _ & A).
  destruct (accepted_segments _ _ _ A) as [st [_ _ Pairs]]. pose proof H1 as (n & Hn & _)%in_net_of. pose proof H2 as (k & Hk & _)%in_net_of.
  destruct (Nat.lt_total i j) as [L|[->|L]]; [|congruence|]; exfalso.
  - exact (nets_apart _ _ n k ip Hn Hk (Pairs i j x y n k Hi Hj L Ex Ey Hn Hk) W H1 H2).
  - exact (nets_apart _ _ k n ip Hk Hn (Pairs j i y x k n Hj Hi L Ey Ex Hk Hn) W H2 H1).
Qed.

Lemma site_view entry : wgc_enabled (c_wg_client cfg) = true -> entry ∈ items (wgc_allowed_ips (c_wg_client cfg)) -> in_net (trim entry) ip = true ->
  (in_net (lan_cidr (c_lan cfg)) ip = true -> False)
  /\ (wg_enabled (c_wireguard cfg) = true -> in_net (wg_address (c_wireguard cfg)) ip = true -> False)
  /\ (forall lan, lan ∈ active_segments cfg -> in_net (xl_cidr lan) ip = true -> False).
Proof.
  intros Hw He Hin. destruct lan_view as (o & x & m & _ & Hc & _ & A). pose proof (accepted_routes _ _ _ A Hw) as HR. rewrite Forall_forall in HR.
  destruct (HR entry He) as (n & Hn & [_ _ _ Rl Rw Rx]). repeat split.
  - intros H. refine (nets_apart _ _ m n ip _ Hn Rl W H Hin). unfold net_of. by rewrite Hc.
  - intros Hen H. pose proof H as (w & Hnw & _)%in_net_of. refine (nets_apart _ _ w n ip Hnw Hn (Rw w _) W H Hin).
    unfold wireguard_server_network. rewrite Hen. cbn [negb orb]. destruct (is_empty _) eqn:Em; [|done].
    unfold is_empty in Em. to_prop. unfold net_of in Hnw. by rewrite Em in Hnw.
  - intros lan (i & Hi & Hl)%active_lookup H. pose proof H as (k & Hk & _)%in_net_of.
    exact (nets_apart _ _ k n ip Hk Hn (Rx i lan k Hi Hl Hk) W H Hin).
Qed.

(** *** Zones *)
Inductive InZone : string -> string -> Prop :=
  | zone_lan : in_net (lan_cidr (c_lan cfg)) ip = true -> InZone "lan" (runtime_lan_interface cfg)
  | zone_tunnel : wg_enabled (c_wireguard cfg) = true -> in_net (wg_address (c_wireguard cfg)) ip = true -> InZone "wireguard" (wg_interface (c_wireguard cfg))
  | zone_segment lan : lan ∈ active_segments cfg -> in_net (xl_cidr lan) ip = true -> InZone ("segment:" +:+ xl_id lan) (xl_interface lan)
  | zone_site : wgc_enabled (c_wg_client cfg) = true -> InZone "tunnel" (wg_client_interface cfg)
  | zone_wan iface : in_net (lan_cidr (c_lan cfg)) ip = false -> iface = wan_interface (c_wan cfg) \/ name_matches "ppp*" iface = true -> InZone "wan" iface.

Context (s : string) (Hs : parse_ip s = Some ip).

Lemma in_text cidr : in_network s cidr = in_net cidr ip.
Proof. rewrite (in_network_spec s cidr ip Hs). unfold in_net. destruct (parse_cidr cidr) as [[x n]|]; [|done]. apply net_contains_canon. Qed.

Lemma unpadded_entries entry : entry ∈ items (wgc_allowed_ips (c_wg_client cfg)) -> trim entry = entry.
Proof.
  intros He. pose proof (pw_allowed _ HP) as H. rewrite forallb_forall in H. apply String.eqb_eq, H, in_or_app. left. by apply list_elem_of_In.
Qed.

Lemma zone_behind iface : firewall_zone cfg s <> "router" -> firewall_zone cfg s <> "unknown" -> Behind cfg ip iface ->
  InZone (firewall_zone cfg s) iface.
Proof.
  intros Hr Hu HB. unfold firewall_zone in *. cbv zeta in *. destruct (_ || _) in Hr, Hu |- *; [done|]. destruct (existsb _ _) in Hr, Hu |- *; [done|].
  rewrite !in_text in *. destruct (in_net (lan_cidr (c_lan cfg)) ip) eqn:El.
  { destruct HB as [H|He H|lan Hl H|entry He Hen H|iface H _ _ _ _]; [by apply zone_lan|exfalso..].
    - by apply lan_tunnel_apart.
    - by apply (lan_segment_apart lan).
    - destruct (site_view entry He Hen H) as (Hx & _). by apply Hx.
    - congruence. }
  destruct (wg_enabled (c_wireguard cfg) && in_net (wg_address (c_wireguard cfg)) ip) eqn:Ew.
  { apply andb_true_iff in Ew as [Ew1 Ew2]. destruct HB as [H|He H|lan Hl H|entry He Hen H|iface _ H _ _ _]; [congruence|by apply zone_tunnel|exfalso..].
    - by apply (tunnel_segment_apart lan).
    - destruct (site_view entry He Hen H) as (_ & Hx & _). by apply Hx.
    - rewrite H in Ew2; done. }
  destruct (List.find _ (items (fw_extra_lans (c_firewall cfg)))) as [lan|] eqn:Ef.
  { apply find_some in Ef as [Hin Hf]. rewrite in_text in Hf. apply andb_true_iff in Hf as [Hen Hf].
    assert (Hl : lan ∈ active_segments cfg) by (unfold active_segments; apply list_elem_of_In, filter_In; done).
    destruct HB as [H|He H|lan' Hl' H|entry He Hen' H|iface _ _ H _ _]; [congruence| | |exfalso..].
    - rewrite He, H in Ew. done.
    - rewrite (segment_unique lan' lan) by done. by apply zone_segment.
    - destruct (site_view entry He Hen' H) as (_ & _ & Hx). by apply (Hx lan).
    - rewrite (H lan) in Hf; done. }
  assert (Hns : forall lan, lan ∈ active_segments cfg -> in_net (xl_cidr lan) ip = false).
  { intros lan Hl. apply active_lookup in Hl as (i & Hi & Hen). pose proof (find_none _ _ Ef lan) as Hn. cbn in Hn. rewrite Hen, in_text in Hn.
    apply Hn. apply list_elem_of_In. by eapply list_elem_of_lookup_2. }
  destruct (wgc_enabled (c_wg_client cfg) && _) eqn:Et.
  { apply andb_true_iff in Et as [Et1 (entry & Hin & Hx)%existsb_exists]. apply list_elem_of_In in Hin. rewrite in_text in Hx.
    destruct HB as [H|He H|lan Hl H|entry' He Hen' H|iface _ _ _ H _]; [congruence| | |by apply zone_site|exfalso].
    - rewrite He, H in Ew. done.
    - rewrite (Hns lan Hl) in H. done.
    - rewrite <- (unpadded_entries entry Hin), (H Et1 entry Hin) in Hx. done. }
  destruct (some_and _ _); [|done]. destruct HB as [H|He H|lan Hl H|entry' He Hen' H|iface H1 _ _ H Hi]; [congruence| | | |by apply zone_wan].
  - rewrite He, H in Ew. done.
  - rewrite (Hns lan Hl) in H. done.
  - exfalso. rewrite He in Et. cbn in Et. apply not_true_iff_false in Et. apply Et, existsb_exists. exists entry'. split; [by apply list_elem_of_In|].
    by rewrite in_text, <- (unpadded_entries entry').
Qed.

Lemma router_zone : canonical s = true -> router_owns cfg (canon ip) = (firewall_zone cfg s =s "router").
Proof.
  intros Hc. assert (Hd : forall a, a ∈ router_addresses cfg -> denotes a (canon ip) = (a =s s)).
  { intros a Hin. apply canonical_denotes; [|done|done]. apply (named_host cfg a HP). apply elem_of_app. by left. }
  assert (Hseg : existsb (fun lan => xl_enabled lan && (first_part (xl_router_address lan) =s s)) (items (fw_extra_lans (c_firewall cfg)))
                 = existsb (fun a => a =s s) (map (fun lan => first_part (xl_router_address lan)) (active_segments cfg))).
  { unfold active_segments. induction (items (fw_extra_lans (c_firewall cfg))) as [|x l IH]; [done|]. cbn. rewrite IH. by destruct (xl_enabled x). }
  unfold router_owns. transitivity (existsb (fun a => a =s s) (router_addresses cfg)).
  { apply eq_true_iff_eq. rewrite !existsb_exists. split; intros (a & Hin & H); exists a; split; try done.
    - by rewrite <- Hd by (by apply list_elem_of_In).
    - by rewrite Hd by (by apply list_elem_of_In). }
  unfold router_addresses. rewrite !existsb_app, <- Hseg. cbn [existsb]. rewrite orb_false_r, orb_assoc, (String.eqb_sym (lan_ip_address _)).
  replace (existsb (fun a => a =s s) (when (wg_enabled (c_wireguard cfg)) [first_part (wg_address (c_wireguard cfg))]))
    with (wg_enabled (c_wireguard cfg) && (first_part (wg_address (c_wireguard cfg)) =s s))
    by (destruct (wg_enabled (c_wireguard cfg)); cbn; [by rewrite orb_false_r|done]).
  unfold firewall_zone. cbv zeta. destruct ((s =s lan_ip_address (c_lan cfg)) || _); cbn [orb]; [done|]. destruct (existsb _ _); cbn [orb]; [done|].
  repeat (match goal with |- _ = ((if ?b then _ else _) =s _) => destruct b | |- _ = (match ?o with Some _ => _ | None => _ end =s _) => destruct o end; [done|]).
  done.
Qed.
End Topology.

(** ** Distinct interfaces *)
Record DistinctInterfaces (cfg : SystemConfig) : Prop := {
  di_lan_wan : runtime_lan_interface cfg <> wan_interface (c_wan cfg);
  di_lan_wg : wg_enabled (c_wireguard cfg) = true -> runtime_lan_interface cfg <> wg_interface (c_wireguard cfg);
  di_lan_site : wgc_enabled (c_wg_client cfg) = true -> runtime_lan_interface cfg <> wg_client_interface cfg;
  di_lan_segment : forall x, x ∈ active_segments cfg -> runtime_lan_interface cfg <> xl_interface x;
  di_wan_wg : wg_enabled (c_wireguard cfg) = true -> wan_interface (c_wan cfg) <> wg_interface (c_wireguard cfg);
  di_wan_site : wgc_enabled (c_wg_client cfg) = true -> wan_interface (c_wan cfg) <> wg_client_interface cfg;
  di_wan_segment : forall x, x ∈ active_segments cfg -> wan_interface (c_wan cfg) <> xl_interface x;
  di_wg_site : wg_enabled (c_wireguard cfg) = true -> wgc_enabled (c_wg_client cfg) = true -> wg_interface (c_wireguard cfg) <> wg_client_interface cfg;
  di_wg_segment : wg_enabled (c_wireguard cfg) = true -> forall x, x ∈ active_segments cfg -> wg_interface (c_wireguard cfg) <> xl_interface x;
  di_site_segment : wgc_enabled (c_wg_client cfg) = true -> forall x, x ∈ active_segments cfg -> wg_client_interface cfg <> xl_interface x;
  di_segments : forall x y, x ∈ active_segments cfg -> y ∈ active_segments cfg -> xl_interface x = xl_interface y -> x = y;
}.
Lemma NoDup_map_inj {A B} (f : A -> B) l x y : NoDup (map f l) -> x ∈ l -> y ∈ l -> f x = f y -> x = y.
Proof.
  induction l as [|a l IH]; cbn; [by intros _ ?%elem_of_nil|]. intros [Ha Hl]%NoDup_cons. rewrite !elem_of_cons.
  assert (Hin : forall z, z ∈ l -> f z ∈ map f l) by (intros z Hz; apply list_elem_of_In, in_map; by apply list_elem_of_In).
  intros [->|Hx] [->|Hy] E; [done| | |by apply IH]; exfalso; apply Ha; [rewrite E|rewrite <- E]; by apply Hin.
Qed.
Lemma interfaces_distinct cfg : PlainlyWritten cfg -> DistinctInterfaces cfg.
Proof.
  intros HP. pose proof (pw_interfaces _ HP) as H. unfold interfaces in H. cbn in H. apply NoDup_cons in H as [Hl H]. apply NoDup_cons in H as [Hw H].
  apply NoDup_app in H as (_ & Hg & H). apply NoDup_app in H as (_ & Hc & H).
  assert (Hin : forall x, x ∈ active_segments cfg -> xl_interface x ∈ map xl_interface (active_segments cfg)) by (intros x Hx; apply list_elem_of_In, in_map; by apply list_elem_of_In).
  rewrite not_elem_of_cons, !not_elem_of_app in Hl. rewrite !not_elem_of_app in Hw.
  destruct Hl as (Hl1 & Hl2 & Hl3 & Hl4). destruct Hw as (Hw1 & Hw2 & Hw3).
  assert (Hwhen : forall b (x y : string), b = true -> y ∉ when b [x] -> y <> x) by (intros b x y -> Hy ->; apply Hy; left).
  assert (Hself : forall b (x : string), b = true -> x ∈ when b [x]) by (intros b x ->; left).
  split.
  - done.
  - intros E. exact (Hwhen _ _ _ E Hl2).
  - intros E. exact (Hwhen _ _ _ E Hl3).
  - intros x Hx E. apply Hl4. rewrite E. by apply Hin.
  - intros E. exact (Hwhen _ _ _ E Hw1).
  - intros E. exact (Hwhen _ _ _ E Hw2).
  - intros x Hx E. apply Hw3. rewrite E. by apply Hin.
  - intros E1 E2 E. apply (Hg _ (Hself _ _ E1)). apply elem_of_app. left. rewrite E. by apply Hself.
  - intros E1 x Hx E. apply (Hg _ (Hself _ _ E1)). apply elem_of_app. right. rewrite E. by apply Hin.
  - intros E1 x Hx E. apply (Hc _ (Hself _ _ E1)). rewrite E. by apply Hin.
  - intros x y Hx Hy E. by apply (NoDup_map_inj xl_interface (active_segments cfg)).
Qed.

(** *** Names *)
Lemma plain_here cfg n : PlainlyWritten cfg -> n ∈ interfaces cfg -> plain_name n = true.
Proof. intros HP Hn. pose proof (pw_names _ HP) as H. rewrite forallb_forall in H. by apply H, list_elem_of_In. Qed.
Lemma lan_listed cfg : runtime_lan_interface cfg ∈ interfaces cfg.
Proof. left. Qed.
Lemma wan_listed cfg : wan_interface (c_wan cfg) ∈ interfaces cfg.
Proof. right. left. Qed.
Lemma wg_listed cfg : wg_enabled (c_wireguard cfg) = true -> wg_interface (c_wireguard cfg) ∈ interfaces cfg.
Proof. intros E. unfold interfaces. rewrite E. set_solver. Qed.
Lemma site_listed cfg : wgc_enabled (c_wg_client cfg) = true -> wg_client_interface cfg ∈ interfaces cfg.
Proof. intros E. unfold interfaces. rewrite E. set_solver. Qed.
Lemma segment_listed cfg x : x ∈ active_segments cfg -> xl_interface x ∈ interfaces cfg.
Proof. intros Hx. unfold interfaces. rewrite !elem_of_app. do 3 right. apply list_elem_of_In, in_map. by apply list_elem_of_In. Qed.
Create HintDb interfaces.
#[export] Hint Resolve lan_listed wan_listed wg_listed site_listed segment_listed : interfaces.

(** ** Crossing an interface *)
Section Crossing.
Context (cfg : SystemConfig) (HP : PlainlyWritten cfg).
Let DI := interfaces_distinct cfg HP.

Lemma named_matches n iface : n ∈ interfaces cfg -> name_matches n iface = (n =s iface).
Proof. intros Hn. apply plain_matches. by apply (plain_here cfg). Qed.
Lemma matches_itself n : n ∈ interfaces cfg -> name_matches n n = true.
Proof. intros Hn. rewrite named_matches by done. apply String.eqb_refl. Qed.
Lemma never_ppp n : n ∈ interfaces cfg -> name_matches "ppp*" n = false.
Proof. intros Hn. pose proof (plain_here cfg n HP Hn) as H. unfold plain_name in H. to_prop. done. Qed.
Lemma never_lo n : n ∈ interfaces cfg -> name_matches "lo" n = false.
Proof.
  intros Hn. pose proof (plain_here cfg n HP Hn) as H. unfold plain_name in H. to_prop. change (("lo" =s n) = false).
  rewrite String.eqb_sym. by apply String.eqb_neq.
Qed.
(** A WAN path carries no role's name but the WAN's. *)
Lemma wan_path_other n : n ∈ interfaces cfg -> n = wan_interface (c_wan cfg) \/ name_matches "ppp*" n = true -> n = wan_interface (c_wan cfg).
Proof. intros Hn [H|H]; [done|]. by rewrite (never_ppp n Hn) in H. Qed.

Context (ip : IP) (z iface : string) (HZ : InZone cfg ip z iface).

Lemma cross_lan : name_matches (runtime_lan_interface cfg) iface = true -> z = "lan" /\ in_net (lan_cidr (c_lan cfg)) ip = true.
Proof.
  rewrite named_matches, String.eqb_eq by auto with interfaces. intros <-. inversion HZ as [H|He H E|lan Hl H E|He E|i H Hi]; subst; [done|exfalso..].
  - by apply (di_lan_wg _ DI).
  - by apply (di_lan_segment _ DI lan).
  - by apply (di_lan_site _ DI).
  - apply (di_lan_wan _ DI), wan_path_other; auto with interfaces.
Qed.
Lemma cross_tunnel : wg_enabled (c_wireguard cfg) = true -> name_matches (wg_interface (c_wireguard cfg)) iface = true ->
  z = "wireguard" /\ in_net (wg_address (c_wireguard cfg)) ip = true.
Proof.
  intros Hw. rewrite named_matches, String.eqb_eq by auto with interfaces. intros <-.
  inversion HZ as [H E|He H|lan Hl H E|He E|i H Hi]; subst; [exfalso|done|exfalso..].
  - by apply (di_lan_wg _ DI).
  - by apply (di_wg_segment _ DI Hw lan).
  - by apply (di_wg_site _ DI).
  - apply (di_wan_wg _ DI Hw). symmetry. apply wan_path_other; auto with interfaces.
Qed.
Lemma cross_site : wgc_enabled (c_wg_client cfg) = true -> name_matches (wg_client_interface cfg) iface = true -> z = "tunnel".
Proof.
  intros Hw. rewrite named_matches, String.eqb_eq by auto with interfaces. intros <-.
  inversion HZ as [H E|He H E|lan Hl H E|He|i H Hi]; subst; [exfalso..|done|exfalso].
  - by apply (di_lan_site _ DI).
  - by apply (di_wg_site _ DI).
  - by apply (di_site_segment _ DI Hw lan).
  - apply (di_wan_site _ DI Hw). symmetry. apply wan_path_other; auto with interfaces.
Qed.
Lemma cross_segment lan : lan ∈ active_segments cfg -> name_matches (xl_interface lan) iface = true -> z = "segment:" +:+ xl_id lan /\ in_net (xl_cidr lan) ip = true.
Proof.
  intros Hl. rewrite named_matches, String.eqb_eq by auto with interfaces. intros <-.
  inversion HZ as [H E|He H E|lan' Hl' H E|He E|i H Hi]; subst; [exfalso..| |exfalso|exfalso].
  - by apply (di_lan_segment _ DI lan).
  - by apply (di_wg_segment _ DI He lan).
  - by rewrite (di_segments _ DI lan lan').
  - by apply (di_site_segment _ DI He lan).
  - apply (di_wan_segment _ DI lan Hl). symmetry. apply wan_path_other; auto with interfaces.
Qed.
Lemma cross_wan : name_matches (wan_interface (c_wan cfg)) iface = true \/ name_matches "ppp*" iface = true -> z = "wan".
Proof.
  rewrite named_matches, String.eqb_eq by auto with interfaces. intros Hc.
  destruct HZ as [H|He H|lan Hl H|He|i H Hi]; [exfalso..|done].
  - destruct Hc as [E|E]; [by apply (di_lan_wan _ DI)|by rewrite never_ppp in E by auto with interfaces].
  - destruct Hc as [E|E]; [by apply (di_wan_wg _ DI)|by rewrite never_ppp in E by auto with interfaces].
  - destruct Hc as [E|E]; [by apply (di_wan_segment _ DI lan)|by rewrite never_ppp in E by auto with interfaces].
  - destruct Hc as [E|E]; [by apply (di_wan_site _ DI)|by rewrite never_ppp in E by auto with interfaces].
Qed.
Lemma cross_lo : z <> "wan" -> name_matches "lo" iface = false.
Proof. intros Hz. destruct HZ; try done; apply never_lo; auto with interfaces. Qed.

Lemma crosses_lan : z = "lan" -> name_matches (runtime_lan_interface cfg) iface = true.
Proof. intros E. destruct HZ; try done. apply matches_itself; auto with interfaces. Qed.
Lemma crosses_tunnel : z = "wireguard" -> wg_enabled (c_wireguard cfg) = true /\ name_matches (wg_interface (c_wireguard cfg)) iface = true.
Proof. intros E. destruct HZ; try done. split; [done|]. apply matches_itself; auto with interfaces. Qed.
Lemma crosses_site : z = "tunnel" -> wgc_enabled (c_wg_client cfg) = true /\ name_matches (wg_client_interface cfg) iface = true.
Proof. intros E. destruct HZ; try done. split; [done|]. apply matches_itself; auto with interfaces. Qed.
Lemma crosses_segment : is_segment z = true -> exists lan, lan ∈ active_segments cfg /\ name_matches (xl_interface lan) iface = true /\ in_net (xl_cidr lan) ip = true.
Proof. intros E. destruct HZ as [H|He H|lan Hl H|He|]; try done. exists lan. split; [done|]. split; [apply matches_itself; auto with interfaces|done]. Qed.
Lemma crosses_wan : z = "wan" -> name_matches (wan_interface (c_wan cfg)) iface = true \/ name_matches "ppp*" iface = true.
Proof. intros E. destruct HZ as [H|He H|lan Hl H|He|i H [->|Hi]]; try done; [left|by right]. apply matches_itself; auto with interfaces. Qed.
End Crossing.
