(* ===== verification/ReviewSpec.v ===== *)
(** * The explanation and the firewall agree

    [explain_firewall_flow] against the chains the generator writes: what it
    says of a new flow is what the rules do to the packets of the flow. *)

From Stdlib Require Import ZArith Ascii String Lia Bool.
From stdpp Require Import base list strings gmap.
From S2P Require Import Prelude GoStrings Net NetSpec GoTime Json Model Validation ValidationSpec SegmentSpec Policy PolicySpec Firmware Auth Nft Nftables NftablesSpec TokenText NftablesText Review ReviewTopology.

Local Open Scope string_scope.
Local Open Scope Z_scope.
Local Open Scope list_scope.

(** ** Chains that let a packet pass *)
Definition permits (sub : string -> Packet -> option Outcome) (p : Packet) (l : Line) : Prop :=
  match l with
  | Text _ => True
  | Rule ms st => forallb (matches p) ms = true -> act sub st p = None \/ act sub st p = Some OAccept
  end.
Definition accepts (p : Packet) (l : Line) : Prop :=
  match l with Text _ => False | Rule ms st => decides st = Some OAccept /\ forallb (matches p) ms = true end.

Lemma run_permits sub pre post p : Forall (permits sub p) pre -> Exists (accepts p) pre -> run_with sub (pre ++ post) p = Some OAccept.
Proof.
  intros Hp He. rewrite run_with_app. assert (H : run_with sub pre p = Some OAccept); [|by rewrite H].
  revert Hp. induction He as [[s|ms st] l Ha|[s|ms st] l _ IH]; intros Hp; inversion Hp as [|? ? Hl Hr]; subst; cbn in *.
  - done.
  - destruct Ha as [Hd ->]. by destruct st as [| | | |? []| | | | |]; cbn in Hd |- *.
  - by apply IH.
  - destruct (forallb (matches p) ms) eqn:Em; [|by apply IH]. destruct (Hl eq_refl) as [-> | ->]; [by apply IH|done].
Qed.

(** A block of rules none of which matches does nothing. *)
Definition unmatched (p : Packet) (l : Line) : Prop := match l with Text _ => True | Rule ms _ => forallb (matches p) ms = false end.
Lemma run_unmatched sub chain p : Forall (unmatched p) chain -> run_with sub chain p = None.
Proof. induction 1 as [|[s|ms st] l Hl _ IH]; cbn; [done|done|]. cbn in Hl. by rewrite Hl. Qed.
Lemma run_blocks sub p (blocks : list (list Line)) : Forall (fun b => run_with sub b p = None \/ run_with sub b p = Some ODrop) blocks ->
  Exists (fun b => run_with sub b p = Some ODrop) blocks -> run_with sub (concat blocks) p = Some ODrop.
Proof.
  intros Hf He. induction He as [b l Hb|b l _ IH]; inversion Hf as [|? ? Hl Hr]; subst; cbn; rewrite run_with_app; [by rewrite Hb|].
  destruct Hl as [-> | ->]; [by apply IH|done].
Qed.

Section Decide.
Context {UC : Unicode} {B64 : Base64} {SH : Sha256} (cfg : SystemConfig) (HV : validate cfg = Ok tt) (HS : validate_scenario_safety cfg = Ok tt).
Context (HP : PlainlyWritten cfg) (flow : FirewallFlow) (p : Packet) (s : IP).
Let DI := interfaces_distinct cfg HP.

(** A new flow, and a packet of it *)
Record NewFlow : Prop := {
  nf_ipv4 : pk_ipv4 p = true;
  nf_source : parse_ip (fl_source_ip flow) = Some s;
  nf_source4 : to4 s <> None;
  nf_canonical : canonical (fl_source_ip flow) = true;
  nf_saddr : pk_saddr p = canon s;
  nf_protocol : pk_proto p = fl_protocol flow;
  nf_port : fl_protocol flow <> "icmp" -> pk_dport p = fl_port flow;
  nf_known : one_of ["tcp"; "udp"; "icmp"] (fl_protocol flow) = true;
  nf_new : pk_ct p = CtNew;
  nf_routed : pk_routed p = true;
  nf_rates : forall limit, pk_over p limit = false;
}.
Context (HN : NewFlow).

Lemma source_matches a : canonical a = true -> matches p (MSaddr a) = in_network (fl_source_ip flow) a || (a =s fl_source_ip flow).
Proof. intros Ha. cbn. rewrite (nf_ipv4 HN), (nf_saddr HN). apply addr_matches_text; [done|apply HN..]. Qed.

Lemma accepted_rule rule : rule ∈ items (fw_custom_rules (c_firewall cfg)) ->
  canonical (rule_src_ip rule) = true /\ (rule_protocol rule = "tcp" \/ rule_protocol rule = "udp" \/ rule_protocol rule = "icmp" \/ rule_protocol rule = "any")
  /\ (rule_enabled rule = true -> rule_direction rule = "input" -> rule_action rule <> "deny")
  /\ (rule_action rule = "allow" \/ rule_action rule = "deny").
Proof.
  intros Hr. split; [|split; [|split]].
  - pose proof (pw_sources _ HP) as H. rewrite forallb_forall in H. by apply H, in_map, list_elem_of_In.
  - destruct (validate_accepted _ HV) as (i & o & A). destruct (accepted_rules cfg i o rule A Hr) as [k Hk]. unfold validate_custom_rule in Hk. cbv zeta in Hk. split_errors.
    match goal with H : (if (_ =s "tcp") || _ then _ else _) = [] |- _ => rename H into He end.
    destruct ((rule_protocol rule =s "tcp") || (rule_protocol rule =s "udp")) eqn:E1; [rewrite orb_true_iff, !String.eqb_eq in E1; tauto|].
    destruct ((rule_protocol rule =s "icmp") || (rule_protocol rule =s "any")) eqn:E2; [rewrite orb_true_iff, !String.eqb_eq in E2; tauto|done].
  - intros He Hd Ha. unfold validate_scenario_safety in HS. apply into_result_ok in HS. unfold scenario_errors in HS. split_errors.
    match goal with H : each (fun i rule => check (rule_enabled rule && _ && _) _ _) _ = [] |- _ => rewrite each_nil in H; rename H into Hx end.
    apply list_elem_of_lookup in Hr as [k Hk]. specialize (Hx k rule Hk). cbn in Hx. rewrite He, Hd, Ha in Hx. done.
  - destruct (validate_accepted _ HV) as (i & o & A). destruct (accepted_rules cfg i o rule A Hr) as [k Hk]. unfold validate_custom_rule in Hk. cbv zeta in Hk. split_errors.
    match goal with H : (_ <>s "allow") && (_ <>s "deny") = false |- _ => rewrite andb_false_iff, !negb_false_iff, !String.eqb_eq in H; exact H end.
Qed.

Lemma rule_matches rule : rule ∈ items (fw_custom_rules (c_firewall cfg)) ->
  forallb (matches p) (when (some_string (rule_src_ip rule)) [MSaddr (rule_src_ip rule)] ++ custom_protocol rule) = firewall_rule_matches rule flow.
Proof.
  intros Hr. destruct (accepted_rule rule Hr) as (Hc & Hproto & _). rewrite forallb_app. unfold firewall_rule_matches.
  assert (Hsrc : forallb (matches p) (when (some_string (rule_src_ip rule)) [MSaddr (rule_src_ip rule)])
    = negb (negb (is_empty (rule_src_ip rule)) && (rule_src_ip rule <>s fl_source_ip flow) && negb (in_network (fl_source_ip flow) (rule_src_ip rule)))).
  { unfold some_string. destruct (is_empty (rule_src_ip rule)); cbn [negb when andb]; [done|]. cbn [forallb]. rewrite source_matches, andb_true_r by done.
    destruct (in_network _ _), (_ =s _); done. }
  rewrite Hsrc. destruct (negb (is_empty _) && _ && _); cbn [negb andb]; [done|].
  pose proof (nf_protocol HN) as H1. pose proof (nf_port HN) as H2. pose proof (nf_ipv4 HN) as H4.
  assert (Hport : forall proto, proto <> "icmp" -> forallb (matches p) [MDport proto [PNum (rule_dst_port rule)]]
    = (proto =s fl_protocol flow) && (rule_dst_port rule =? fl_port flow)).
  { intros proto Hne. cbn. rewrite H1, orb_false_r, andb_true_r, (String.eqb_sym (fl_protocol flow)). destruct (proto =s fl_protocol flow) eqn:E; [|done].
    apply String.eqb_eq in E. by rewrite H2 by (by rewrite <- E). }
  unfold custom_protocol. destruct Hproto as [->|[->|[->| ->]]].
  - exact (Hport "tcp" ltac:(done)).
  - exact (Hport "udp" ltac:(done)).
  - transitivity ("icmp" =s fl_protocol flow); [|change (("icmp" =s fl_protocol flow) = ("icmp" =s fl_protocol flow) && true); by rewrite andb_true_r].
    change ((pk_ipv4 p && (pk_proto p =s "icmp")) && true = ("icmp" =s fl_protocol flow)). by rewrite H1, H4, andb_true_r, String.eqb_sym.
  - done.
Qed.

(** *** The interface it arrives on *)
Context (zs : string) (HZ : InZone cfg s zs (pk_iif p)) (Hnw : zs <> "wan").
Local Abbreviation r := (runtime cfg).

Lemma iif_lo : name_matches "lo" (pk_iif p) = false.
Proof. by apply (cross_lo cfg HP s zs). Qed.
Lemma iif_lan : name_matches (runtime_lan_interface cfg) (pk_iif p) = true -> zs = "lan" /\ in_net (lan_cidr (c_lan cfg)) s = true.
Proof. by apply cross_lan. Qed.
Lemma iif_tunnel : wg_enabled (c_wireguard cfg) = true -> name_matches (wg_interface (c_wireguard cfg)) (pk_iif p) = true ->
  zs = "wireguard" /\ in_net (wg_address (c_wireguard cfg)) s = true.
Proof. by apply cross_tunnel. Qed.
Lemma iif_site : wgc_enabled (c_wg_client cfg) = true -> name_matches (wg_client_interface cfg) (pk_iif p) = true -> zs = "tunnel".
Proof. by apply (cross_site cfg HP s). Qed.
Lemma iif_segment lan : lan ∈ active_segments cfg -> name_matches (xl_interface lan) (pk_iif p) = true ->
  zs = "segment:" +:+ xl_id lan /\ in_net (xl_cidr lan) s = true.
Proof. by apply cross_segment. Qed.

Lemma source_in_net cidr : in_net cidr s = true -> addr_matches cidr (pk_saddr p) = true.
Proof. rewrite (nf_saddr HN). unfold in_net, addr_matches. destruct (parse_cidr cidr) as [[x n]|]; [|done]. by rewrite net_contains_canon. Qed.
Lemma source_in_tunnel : wg_enabled (c_wireguard cfg) = true -> in_net (wg_address (c_wireguard cfg)) s = true -> addr_matches (wg_network cfg) (pk_saddr p) = true.
Proof.
  intros He Hin. destruct (tunnel_view cfg HV He) as (x & n & Hx & _). unfold wg_network. rewrite Hx. cbn.
  pose proof (pw_networks _ HP) as Hn. cbn in Hn. apply andb_true_iff in Hn as [_ Hn]. apply andb_true_iff in Hn as [Hn _].
  unfold dotted_network in Hn. rewrite Hx in Hn. apply Nat.eqb_eq in Hn. destruct (mask_size (net_mask n)) as [k bits] eqn:Em. cbn in Hn. subst bits.
  unfold addr_matches. rewrite (ipv4_network_text_roundtrip _ _ _ _ Hx Em). rewrite (nf_saddr HN), net_contains_canon.
  unfold in_net in Hin. by rewrite Hx in Hin.
Qed.

Lemma new_not_invalid : matches p MCtInvalid = true -> False.
Proof. cbn. by rewrite (nf_new HN). Qed.
Lemma routed_here : matches p MNoRoute = true -> False.
Proof. cbn. by rewrite (nf_routed HN). Qed.
Lemma ipv4_here : matches p MIpv6 = true -> False.
Proof. cbn. by rewrite (nf_ipv4 HN). Qed.
Lemma within_rate m : matches p (MMeter m) = true -> False.
Proof. cbn. by rewrite (nf_rates HN), andb_false_r. Qed.
Lemma within_limit : matches p MLimit = true -> False.
Proof. cbn. by rewrite (nf_rates HN). Qed.
Lemma not_known : known p -> False.
Proof. unfold known. by rewrite (nf_new HN). Qed.
Lemma custom_input_permits sub action : Forall (permits sub p) (write_custom_rules r "input" action).
Proof.
  apply Forall_concat_map. intros rule Hr. destruct (accepted_rule rule Hr) as (_ & _ & Hd & Ha). unfold custom_rule.
  destruct (rule_enabled rule) eqn:He; cbn [negb orb]; [|constructor]. destruct (rule_direction rule =s "input") eqn:Hi; cbn [negb orb]; [|constructor].
  destruct (rule_action rule =s action) eqn:Hac; cbn [negb]; [|constructor]. to_prop. destruct Ha as [Ha|Ha]; [|by destruct (Hd eq_refl Hi)].
  cbv zeta. case_match; [constructor|]. apply Forall_cons; split; [exact I|]. apply Forall_cons; split; [|constructor]. intros _. right. by rewrite <- Hac, Ha.
Qed.

Lemma lan_source_matches : name_matches (runtime_lan_interface cfg) (pk_iif p) = true -> addr_matches (lan_cidr (c_lan cfg)) (pk_saddr p) = true.
Proof. intros H. by apply source_in_net, iif_lan. Qed.
Lemma tunnel_source_matches : wg_enabled (c_wireguard cfg) = true -> name_matches (wg_interface (c_wireguard cfg)) (pk_iif p) = true ->
  addr_matches (wg_network cfg) (pk_saddr p) = true.
Proof. intros He H. by apply source_in_tunnel, iif_tunnel. Qed.
Lemma segment_source_matches lan : lan ∈ active_segments cfg -> name_matches (xl_interface lan) (pk_iif p) = true -> addr_matches (xl_cidr lan) (pk_saddr p) = true.
Proof. intros Hl H. by apply source_in_net, (iif_segment lan). Qed.

Ltac here :=
  repeat match goal with
  | |- Forall (permits _ _) (_ ++ _) => apply Forall_app; split
  | |- Forall (permits _ _) (_ :: _) => apply Forall_cons; split
  | |- Forall (permits _ _) [] => apply Forall_nil_2
  | |- Forall (permits _ _) (when _ _) => apply Forall_when; intros ?
  | |- Forall (permits _ _) (if _ then [] else _) => case_match; [apply Forall_nil_2|]
  | |- permits _ _ (Text _) => exact I
  | |- permits _ _ (comment _) => exact I
  | |- permits _ _ blank => exact I
  | |- permits _ _ (Rule _ SAccept) => right; reflexivity
  | |- permits _ _ (Rule _ SClampMss) => left; reflexivity
  | |- permits _ _ (Rule _ (SUpdate _ _)) => left; reflexivity
  | |- permits _ _ (Rule _ (SJump _)) => intros _
  | |- permits _ _ (Rule _ _) => let Hm := fresh "Hm" in intros Hm; exfalso; open_matches Hm; unfold from_if in Hm; destruct_and?
  end.
Lemma off_wan : name_matches (wan_interface (c_wan r)) (pk_iif p) = true -> False.
Proof. intros H. apply Hnw. apply (cross_wan cfg HP s zs (pk_iif p) HZ). by left. Qed.
Lemma off_ppp : name_matches "ppp*" (pk_iif p) = true -> False.
Proof. intros H. apply Hnw. apply (cross_wan cfg HP s zs (pk_iif p) HZ). by right. Qed.
Lemma off_lo : name_matches "lo" (pk_iif p) = true -> False.
Proof. by rewrite iif_lo. Qed.
(** A rule that drops does not match the packet. *)
Ltac closed_off :=
  match goal with
  | H : name_matches (wan_interface _) _ = true |- _ => exact (off_wan H)
  | H : name_matches "ppp*" _ = true |- _ => exact (off_ppp H)
  | H : matches _ MCtInvalid = true |- _ => exact (new_not_invalid H)
  | H : matches _ MLimit = true |- _ => exact (within_limit H)
  | H : matches _ (MMeter _) = true |- _ => exact (within_rate _ H)
  end.

Lemma foreign_source cidr l : cidr ∈ l -> addr_matches cidr (pk_saddr p) = true -> matches p (MSaddrNotIn l) = true -> False.
Proof.
  intros Hin Ha H. cbn in H. apply andb_true_iff in H as [_ H]. apply negb_true_iff, not_true_iff_false in H. apply H, existsb_exists.
  exists cidr. split; [by apply list_elem_of_In|done].
Qed.
Lemma foreign_net cidr : addr_matches cidr (pk_saddr p) = true -> matches p (MSaddrNot cidr) = true -> False.
Proof. intros Ha H. cbn in H. rewrite Ha in H. by rewrite andb_false_r in H. Qed.

Lemma guards_permit sub : Forall (permits sub p) (input_guards r).
Proof.
  unfold input_guards, write_wan_antispoof, antispoof_rules. cbv zeta. here; try closed_off; auto using custom_input_permits.
  - unfold write_known_wg_peer_endpoint_input_rules, known_endpoint_rules. cbv zeta. case_match; [constructor|]. here; closed_off.
  - apply (foreign_source (lan_cidr (c_lan cfg)) ["0.0.0.0"; lan_cidr (c_lan cfg)]); [set_solver|by apply lan_source_matches|done].
Qed.
Lemma wireguard_permit sub : Forall (permits sub p) (input_wireguard r).
Proof.
  unfold input_wireguard, wg_endpoint_rules. cbv zeta. here; try closed_off.
  apply (foreign_net (wg_network cfg)); [by apply tunnel_source_matches|done].
Qed.
Lemma site_input_permit sub : zs <> "tunnel" -> Forall (permits sub p) (write_wg_client_input_rules r).
Proof.
  intros Hz. unfold write_wg_client_input_rules. cbv zeta. destruct (negb _) eqn:He; [constructor|]. apply negb_false_iff in He.
  assert (Hoff : name_matches (wg_client_interface cfg) (pk_iif p) = true -> False) by (intros H; by apply Hz, iif_site).
  here; [|by apply Hoff]. destruct (wg_client_networks r); here; by apply Hoff.
Qed.
Lemma squid_permit sub : Forall (permits sub p) (input_squid r).
Proof. unfold input_squid. cbv zeta. here. Qed.
Lemma lan_permit sub : Forall (permits sub p) (input_lan r).
Proof. unfold input_lan. cbv zeta. here. case_match; here; closed_off. Qed.
Lemma segment_active lan : lan ∈ items (fw_extra_lans (c_firewall cfg)) -> xl_enabled lan = true -> lan ∈ active_segments cfg.
Proof. intros Hl He. unfold active_segments. apply list_elem_of_In, filter_In. split; [by apply list_elem_of_In|done]. Qed.
Lemma segments_permit sub : Forall (permits sub p) (write_extra_lan_input_rules r).
Proof.
  apply Forall_concat_map. intros lan Hl. unfold extra_input_rules. destruct (xl_enabled lan) eqn:He; cbn [negb orb]; [|constructor]. here.
  apply (foreign_source (xl_cidr lan) [xl_cidr lan]); [set_solver| |done]. apply (segment_source_matches lan); [by apply segment_active|done].
Qed.
Lemma input_permits sub : zs <> "tunnel" ->
  Forall (permits sub p) (input_guards r ++ input_wireguard r ++ write_wg_client_input_rules r ++ input_squid r ++ input_lan r
    ++ write_extra_lan_input_rules r ++ when (wg_enabled (c_wireguard r)) [Rule [MIif (wg_interface (c_wireguard r)); MSaddrNot (wg_network r)] SDrop; blank]
    ++ write_custom_rules r "input" "allow").
Proof.
  intros Hz. here; auto using guards_permit, wireguard_permit, site_input_permit, squid_permit, lan_permit, segments_permit, custom_input_permits.
  apply (foreign_net (wg_network cfg)); [by apply tunnel_source_matches|done].
Qed.
(** What the input chain accepts before its end *)
Lemma input_passes_when : zs <> "tunnel" -> Exists (accepts p) (input_wireguard r ++ write_wg_client_input_rules r ++ input_squid r ++ input_lan r
    ++ write_extra_lan_input_rules r ++ when (wg_enabled (c_wireguard r)) [Rule [MIif (wg_interface (c_wireguard r)); MSaddrNot (wg_network r)] SDrop; blank]
    ++ write_custom_rules r "input" "allow") -> input_passes cfg p = true.
Proof.
  intros Hz He. unfold input_passes, passes. rewrite run_sixteen. set (sub := fun c q => run 15 _ _ q).
  assert (H : run_with sub (input_chain r) p = Some OAccept); [|by rewrite H].
  unfold input_chain.
  match goal with |- run_with sub ?l p = _ => replace l with ((input_guards r ++ input_wireguard r ++ write_wg_client_input_rules r ++ input_squid r ++ input_lan r
    ++ write_extra_lan_input_rules r ++ when (wg_enabled (c_wireguard r)) [Rule [MIif (wg_interface (c_wireguard r)); MSaddrNot (wg_network r)] SDrop; blank]
    ++ write_custom_rules r "input" "allow") ++ [comment "Reject WAN unsolicited input"; Rule [] SDrop]) by (by rewrite <- !app_assoc) end.
  apply run_permits; [by apply input_permits|]. apply Exists_app. by right.
Qed.

(** *** At the router *)
Lemma from_lan : zs = "lan" -> name_matches (runtime_lan_interface cfg) (pk_iif p) = true.
Proof. by apply (crosses_lan cfg HP s). Qed.
Lemma from_tunnel : zs = "wireguard" -> wg_enabled (c_wireguard cfg) = true /\ name_matches (wg_interface (c_wireguard cfg)) (pk_iif p) = true.
Proof. by apply (crosses_tunnel cfg HP s). Qed.
Lemma from_segment : is_segment zs = true -> exists lan, lan ∈ active_segments cfg /\ name_matches (xl_interface lan) (pk_iif p) = true.
Proof. intros E. destruct (crosses_segment cfg HP s zs (pk_iif p) HZ E) as (lan & Hl & Hi & _). by exists lan. Qed.
Lemma exists_rule ms l : Rule ms SAccept ∈ l -> forallb (matches p) ms = true -> Exists (accepts p) l.
Proof. intros Hin Hm. apply Exists_exists. by exists (Rule ms SAccept). Qed.
Lemma accepts_port iface proto port : name_matches iface (pk_iif p) = true -> fl_protocol flow = proto -> proto <> "icmp" -> fl_port flow = port ->
  forallb (matches p) [MIif iface; MDport proto [PNum port]] = true.
Proof.
  intros Hi Hp Hne Hq. cbn [forallb]. rewrite (proj2 (port_one _ _ _)); [cbn; by rewrite Hi|]. split; [by rewrite (nf_protocol HN)|].
  rewrite (nf_port HN); [done|congruence].
Qed.
Lemma accepts_ports iface proto a b : name_matches iface (pk_iif p) = true -> fl_protocol flow = proto -> proto <> "icmp" -> fl_port flow = a \/ fl_port flow = b ->
  forallb (matches p) [MIif iface; MDport proto [PNum a; PNum b]] = true.
Proof.
  intros Hi Hp Hne Hq. cbn [forallb]. rewrite (proj2 (port_two _ _ _ _)); [cbn; by rewrite Hi|]. unfold to_port. rewrite (nf_protocol HN), (nf_port HN) by congruence. naive_solver.
Qed.
Lemma accepts_icmp iface : name_matches iface (pk_iif p) = true -> fl_protocol flow = "icmp" -> forallb (matches p) [MIif iface; MIcmp] = true.
Proof. intros Hi Hp. cbn. rewrite Hi, (nf_ipv4 HN), (nf_protocol HN), Hp. done. Qed.

Lemma lan_accepts ms : Rule ms SAccept ∈ input_lan r -> forallb (matches p) ms = true -> zs <> "tunnel" -> input_passes cfg p = true.
Proof.
  intros Hin Hm Hz. apply input_passes_when; [done|]. rewrite !Exists_app. do 3 right. left. by apply (exists_rule ms).
Qed.
Lemma tunnel_accepts ms : Rule ms SAccept ∈ input_wireguard r -> forallb (matches p) ms = true -> zs <> "tunnel" -> input_passes cfg p = true.
Proof. intros Hin Hm Hz. apply input_passes_when; [done|]. rewrite !Exists_app. left. by apply (exists_rule ms). Qed.

Lemma flow_protocol : fl_protocol flow = "tcp" \/ fl_protocol flow = "udp" \/ fl_protocol flow = "icmp".
Proof.
  pose proof (nf_known HN) as H. unfold one_of in H. cbn [existsb] in H. rewrite orb_false_r, !orb_true_iff, !String.eqb_eq in H. tauto.
Qed.

Lemma lan_some : some_string (runtime_lan_interface cfg) = true.
Proof. apply some_string_ne. pose proof (plain_here cfg _ HP (lan_listed cfg)) as H. unfold plain_name, is_empty in H. intros E. by rewrite E in H. Qed.

Lemma segment_named lan : lan ∈ active_segments cfg -> is_empty (xl_interface lan) = false.
Proof.
  intros Hl. pose proof (plain_here cfg _ HP (segment_listed cfg lan Hl)) as H. unfold plain_name in H. by destruct (is_empty (xl_interface lan)).
Qed.
Lemma segment_addressed lan : lan ∈ active_segments cfg -> is_empty (xl_cidr lan) = false.
Proof.
  intros Hl. destruct (segment_view cfg HV lan Hl) as (n & Hn & _). unfold is_empty. apply String.eqb_neq. intros E. rewrite E in Hn. done.
Qed.

Lemma inside_zones : zs <> "tunnel" -> is_segment zs = false -> zs = "wireguard" \/ zs = "lan".
Proof. intros Ht Hg. destruct HZ; try done; auto. Qed.
Ltac zone_cases :=
  match goal with Ht : zs <> "tunnel", Hg : is_segment zs = false |- _ =>
    destruct (inside_zones Ht Hg) as [Hz|Hz]; [destruct (from_tunnel Hz) as [Hwg Hi]|pose proof (from_lan Hz) as Hi] end.
Ltac in_wireguard :=
  unfold input_wireguard; cbv zeta; change (wg_enabled (c_wireguard r)) with (wg_enabled (c_wireguard cfg));
  match goal with H : wg_enabled _ = true |- _ => rewrite H end; cbn [when]; set_solver.
Ltac in_lan :=
  unfold input_lan; cbv zeta; change (lan_interface (c_lan r)) with (runtime_lan_interface cfg); rewrite lan_some; cbn [when]; set_solver.
Ltac in_management H :=
  unfold input_lan; cbv zeta; change (lan_interface (c_lan r)) with (runtime_lan_interface cfg); change (c_system r) with (c_system cfg);
  rewrite lan_some; cbn [when]; rewrite (proj2 (String.eqb_neq _ _) H); cbn [negb]; set_solver.

Lemma router_allowed : fst (fst (explain_router cfg flow zs)) = "allow" -> input_passes cfg p = true.
Proof.
  unfold explain_router. cbv zeta. destruct (zs =s "tunnel") eqn:Et; [done|]. apply String.eqb_neq in Et.
  destruct (is_segment zs) eqn:Eg.
  { destruct (fl_protocol flow =s "icmp") eqn:Ei; [|done]. apply String.eqb_eq in Ei. intros _. destruct (from_segment Eg) as (lan & Hl & Hi).
    apply input_passes_when; [done|]. rewrite !Exists_app. do 4 right. left. apply (exists_rule [MIif (xl_interface lan); MIcmp]); [|by apply accepts_icmp].
    apply active_lookup in Hl as (i & Hl & He). apply (elem_of_concat_map _ _ lan); [by eapply list_elem_of_lookup_2|].
    unfold extra_input_rules. rewrite He. rewrite (segment_named lan), (segment_addressed lan) by (by apply active_lookup; exists i). cbn [negb orb]. set_solver. }
  destruct ((fl_port flow =? 53) && _) eqn:Ed.
  { apply andb_true_iff in Ed as [Ed1 Ed2]. apply Z.eqb_eq in Ed1. apply negb_true_iff, String.eqb_neq in Ed2. intros _.
    destruct flow_protocol as [Ep|[Ep|Ep]]; [| |done].
    - zone_cases.
      + apply (tunnel_accepts [MIif (wg_interface (c_wireguard cfg)); tcp_to 53]); [|by apply accepts_port|done]. in_wireguard.
      + apply (lan_accepts [MIif (runtime_lan_interface cfg); tcp_to 53]); [|by apply accepts_port|done]. in_lan.
    - zone_cases.
      + apply (tunnel_accepts [MIif (wg_interface (c_wireguard cfg)); udp_to 53]); [|by apply accepts_port|done]. in_wireguard.
      + apply (lan_accepts [MIif (runtime_lan_interface cfg); MDport "udp" [PNum 53; PNum 67]]); [|apply accepts_ports; first [done | by left | by right]|done]. in_lan. }
  destruct ((fl_protocol flow =s "tcp") && _ && _) eqn:Em.
  { rewrite !andb_true_iff, !orb_true_iff, negb_true_iff, !String.eqb_eq, !Z.eqb_eq, String.eqb_neq in Em. destruct Em as ((Ep & Eq) & Ez). intros _. zone_cases.
    - destruct Eq as [Eq|Eq].
      + apply (tunnel_accepts [MIif (wg_interface (c_wireguard cfg)); tcp_to 22]); [|by apply accepts_port|done]. in_wireguard.
      + apply (tunnel_accepts [MIif (wg_interface (c_wireguard cfg)); tcp_to (sys_https_port (c_system cfg))]); [|by apply accepts_port|done]. in_wireguard.
    - destruct Ez as [Ez|Ez]; [congruence|]. destruct Eq as [Eq|Eq].
      + apply (lan_accepts [MIif (runtime_lan_interface cfg); tcp_to 22]); [|by apply accepts_port|done]. in_management Ez.
      + apply (lan_accepts [MIif (runtime_lan_interface cfg); tcp_to (sys_https_port (c_system cfg))]); [|by apply accepts_port|done]. in_management Ez. }
  destruct (zs =s "lan") eqn:El; cbn [negb]; [|done]. apply String.eqb_eq in El. pose proof (from_lan El) as Hi.
  destruct ((fl_protocol flow =s "icmp") || _) eqn:Es.
  { rewrite orb_true_iff, andb_true_iff, !String.eqb_eq, Z.eqb_eq in Es. intros _. destruct Es as [Ep|[Ep Eq]].
    - apply (lan_accepts [MIif (runtime_lan_interface cfg); MIcmp]); [|by apply accepts_icmp|done]. in_lan.
    - apply (lan_accepts [MIif (runtime_lan_interface cfg); MDport "udp" [PNum 53; PNum 67]]); [|apply accepts_ports; first [done | by left | by right]|done]. in_lan. }
  destruct (squid_enabled _ && _ && _) eqn:Eq.
  { rewrite !andb_true_iff, String.eqb_eq, Z.eqb_eq in Eq. destruct Eq as ((Eq1 & Eq2) & Eq3). intros _.
    apply input_passes_when; [done|]. rewrite !Exists_app. do 2 right. left.
    apply (exists_rule [MIif (runtime_lan_interface cfg); tcp_to (squid_input_port cfg)]); [|by apply accepts_port].
    unfold input_squid. cbv zeta. change (squid_enabled (c_squid_proxy r)) with (squid_enabled (c_squid_proxy cfg)).
    change (lan_interface (c_lan r)) with (runtime_lan_interface cfg). rewrite Eq1, lan_some. cbn [andb when]. right. left. }
  destruct (List.find _ _) as [rule|] eqn:Ef; [|done]. intros _. apply find_some in Ef as [Hin Hf]. apply list_elem_of_In in Hin.
  rewrite !andb_true_iff, !String.eqb_eq in Hf. destruct Hf as (((He & Hd) & Ha) & Hr). pose proof (rule_matches rule Hin) as Hmm. rewrite Hr in Hmm.
  apply input_passes_when; [done|]. rewrite !Exists_app. do 6 right. apply Exists_exists. eexists. split.
  { apply (elem_of_concat_map _ _ rule); [exact Hin|]. unfold custom_rule. rewrite He, Hd, Ha. cbn. right. left. }
  split; [done|]. cbn [app]. rewrite matches_cons. split; [exact Hi|]. rewrite app_nil_r. exact Hmm.
Qed.


Lemma to_port_flow proto port : proto <> "icmp" -> to_port proto port p -> fl_protocol flow = proto /\ fl_port flow = port.
Proof. intros Hne [H1 H2]. rewrite (nf_protocol HN) in H1. split; [done|]. rewrite (nf_port HN) in H2; [done|congruence]. Qed.
Lemma icmp_flow : icmp p -> fl_protocol flow = "icmp".
Proof. intros [_ H]. by rewrite (nf_protocol HN) in H. Qed.

(** Why the input chain can accept a new flow: it comes from the LAN to a
    service, from the tunnel to one, or pings from a segment. *)
Inductive Entitled : Prop :=
  | ad_tunnel : zs = "wireguard" -> (fl_protocol flow = "tcp" /\ (fl_port flow = sys_https_port (c_system cfg) \/ fl_port flow = 22)
      \/ fl_protocol flow <> "icmp" /\ fl_port flow = 53) -> Entitled
  | ad_lan : zs = "lan" -> LanService r p -> Entitled
  | ad_segment : is_segment zs = true -> fl_protocol flow = "icmp" -> Entitled.

Lemma input_admitted : input_passes cfg p = true -> Entitled.
Proof.
  intros Hp. destruct (passes_yields _ _ _ _ (input_chain_exposed r) Hp) as [H|H|He Hw Hq|He Hi Hq|Hi Hls|lan Hl He Hi Hq].
  - by destruct (off_lo H).
  - by destruct (not_known H).
  - destruct Hw as [[_ H]|H]; [by destruct (off_wan H)|by destruct (off_ppp H)].
  - apply ad_tunnel; [by apply iif_tunnel|]. destruct Hq as [H|[H|[H|H]]]; apply to_port_flow in H as [H1 H2]; try done; cbn in H2; rewrite H1; naive_solver.
  - apply ad_lan; [by apply iif_lan|done].
  - apply ad_segment; [|by apply icmp_flow]. destruct (iif_segment lan) as [-> _]; [by apply segment_active|done|done].
Qed.

Lemma lan_service_explained : zs = "lan" -> LanService r p -> fst (fst (explain_router cfg flow zs)) = "allow".
Proof.
  intros -> Hls. unfold explain_router. cbv zeta. cbn [String.eqb Ascii.eqb Bool.eqb]. change ("lan" =s "tunnel") with false. change (is_segment "lan") with false.
  change ("lan" =s "wireguard") with false. change ("lan" =s "lan") with true. cbn [negb orb]. cbv iota.
  destruct ((fl_port flow =? 53) && _) eqn:Ed; [done|]. destruct ((fl_protocol flow =s "tcp") && _ && _) eqn:Em; [done|].
  destruct ((fl_protocol flow =s "icmp") || _) eqn:Es; [done|]. destruct (squid_enabled _ && _ && _) eqn:Eq; [done|].
  destruct Hls as [He Hq|Hm Hq|Hq|Hq|rule Hr He Hd Ha Hq Hs].
  - apply to_port_flow in Hq as [H1 H2]; [|done]. cbn in He, H2. change (squid_input_port r) with (squid_input_port cfg) in H2.
    rewrite He, H1, H2, Z.eqb_refl in Eq. done.
  - exfalso. apply not_true_iff_false in Em. apply Em. cbn in Hm. rewrite !andb_true_iff, !orb_true_iff, negb_true_iff, !String.eqb_eq, !Z.eqb_eq, String.eqb_neq.
    destruct Hq as [Hq|Hq]; apply to_port_flow in Hq as [H1 H2]; try done; cbn in H2; tauto.
  - exfalso. apply not_true_iff_false in Ed, Es. rewrite !andb_true_iff, negb_true_iff, Z.eqb_eq, String.eqb_neq in Ed.
    rewrite orb_true_iff, andb_true_iff, !String.eqb_eq, Z.eqb_eq in Es.
    destruct Hq as [Hq|[Hq|Hq]]; apply to_port_flow in Hq as [H1 H2]; try done; rewrite H1, H2 in *; naive_solver.
  - rewrite (icmp_flow Hq) in Es. done.
  - destruct (List.find _ _) as [rule'|] eqn:Ef; [done|]. exfalso.
    pose proof (find_none _ _ Ef rule (proj1 (list_elem_of_In _ _) Hr)) as Hn. cbn beta in Hn. rewrite He, Hd, Ha in Hn.
    change ("input" =s "input") with true in Hn. change ("allow" =s "allow") with true in Hn. cbn [andb] in Hn.
    rewrite <- (rule_matches rule Hr), forallb_app, Hq, andb_true_r in Hn. apply not_true_iff_false in Hn. apply Hn.
    unfold some_string, is_empty. destruct (rule_src_ip rule =s EmptyString) eqn:Ee; [done|]. apply String.eqb_neq in Ee. cbn [negb when forallb].
    rewrite (proj2 (match_saddr _ _) (Hs Ee)). done.
Qed.

Lemma router_denied : fst (fst (explain_router cfg flow zs)) = "deny" -> input_passes cfg p = false.
Proof.
  intros Hv. apply not_true_iff_false. intros [Hz Hf|Hz Hls|Hg Hf]%input_admitted.
  - revert Hv. unfold explain_router. cbv zeta. rewrite Hz. cbn [String.eqb Ascii.eqb Bool.eqb]. change ("wireguard" =s "tunnel") with false.
    change (is_segment "wireguard") with false. change ("wireguard" =s "wireguard") with true. cbn [orb]. cbv iota.
    destruct ((fl_port flow =? 53) && _) eqn:Ed; [done|]. destruct ((fl_protocol flow =s "tcp") && _ && _) eqn:Em; [done|]. intros _.
    apply not_true_iff_false in Ed, Em. rewrite !andb_true_iff, negb_true_iff, Z.eqb_eq, String.eqb_neq in Ed.
    rewrite !andb_true_iff, !orb_true_iff, !String.eqb_eq, !Z.eqb_eq in Em. tauto.
  - by rewrite (lan_service_explained Hz Hls) in Hv.
  - revert Hv. unfold explain_router. cbv zeta. rewrite Hg, Hf. destruct (zs =s "tunnel") eqn:Et; [|done]. apply String.eqb_eq in Et. by rewrite Et in Hg.
Qed.

(** ** Through the router *)
Definition managed (profile : DeviceProfile) : Prop :=
  profile ∈ items (df_device_profiles (c_adguard cfg)) /\ dp_enabled profile = true /\ fl_source_ip flow ∈ items (dp_ip_addresses profile).

Lemma host_matches a : a ∈ named_hosts cfg -> matches p (MSaddr a) = (a =s fl_source_ip flow).
Proof.
  intros Ha. destruct (named_host cfg a HP Ha) as [Hc Hn]. rewrite source_matches by done. unfold in_network. by rewrite Hn.
Qed.
Lemma profile_host profile ip : profile ∈ items (df_device_profiles (c_adguard cfg)) -> ip ∈ items (dp_ip_addresses profile) -> ip ∈ named_hosts cfg.
Proof. intros Hp Hi. unfold named_hosts. rewrite !elem_of_app. do 2 right. left. by apply (elem_of_concat_map _ _ profile). Qed.

Lemma device_unmatched profile ip : profile ∈ items (df_device_profiles (c_adguard cfg)) -> ip ∈ items (dp_ip_addresses profile) -> ip <> fl_source_ip flow ->
  Forall (unmatched p) (device_rules profile ip).
Proof.
  intros Hp Hi Hne. assert (Hm : forall ms, forallb (matches p) (MSaddr ip :: ms) = false).
  { intros ms. cbn [forallb]. rewrite host_matches by (by eapply profile_host). by rewrite (proj2 (String.eqb_neq _ _) Hne). }
  unfold device_rules. apply Forall_cons; split; [apply Hm|]. apply Forall_cons; split; [apply Hm|]. apply Forall_concat_map. intros service _.
  unfold service_rules. apply Forall_app; split; [|apply Forall_cons; split; [apply Hm|constructor]].
  apply Forall_concat. rewrite Forall_forall. intros ls Hls. apply elem_of_lookup_imap in Hls as (i & day & -> & _).
  unfold write_allowed_windows. rewrite Forall_map. apply Forall_forall. intros w _. apply Hm.
Qed.

Lemma unmanaged_returns sub : (forall profile, ~ managed profile) -> run_with sub (device_profiles_chain r) p = Some OReturn.
Proof.
  intros Hun. unfold device_profiles_chain. rewrite run_with_app, run_unmatched; [done|]. apply Forall_concat_map. intros profile Hp. unfold profile_rules.
  destruct (dp_enabled profile) eqn:He; cbn [negb]; [|constructor]. apply Forall_cons; split; [done|]. apply Forall_concat_map. intros ip Hi.
  apply device_unmatched; [done|done|]. intros ->. by apply (Hun profile).
Qed.

(** A managed device may not ask foreign resolvers, whatever its windows. *)
Lemma resolver_rule proto sport : fl_protocol flow = proto -> proto <> "icmp" -> fl_port flow = 53 \/ fl_port flow = 853 ->
  forallb (matches p) [MSaddr sport; MDport proto [PNum 53; PNum 853]] = matches p (MSaddr sport).
Proof.
  intros Hp Hne Hq. cbn [forallb]. rewrite (proj2 (port_two _ _ _ _)); [by rewrite !andb_true_r|]. unfold to_port.
  rewrite (nf_protocol HN), (nf_port HN) by congruence. naive_solver.
Qed.
Lemma resolver_drops sub profile : managed profile -> fl_protocol flow <> "icmp" -> fl_port flow = 53 \/ fl_port flow = 853 ->
  run_with sub (device_profiles_chain r) p = Some ODrop.
Proof.
  intros (Hp & He & Hi) Hne Hq. unfold device_profiles_chain. rewrite run_with_app.
  change (items (df_device_profiles (c_adguard r))) with (items (df_device_profiles (c_adguard cfg))).
  assert (Hdev : forall profile ip, profile ∈ items (df_device_profiles (c_adguard cfg)) -> ip ∈ items (dp_ip_addresses profile) ->
    (ip <> fl_source_ip flow -> run_with sub (device_rules profile ip) p = None) /\ (ip = fl_source_ip flow -> run_with sub (device_rules profile ip) p = Some ODrop)).
  { intros pr ip Hpr Hip. split; [intros Hx; by apply run_unmatched, device_unmatched|]. intros ->. unfold device_rules. cbn [run_with].
    destruct flow_protocol as [Ep|[Ep|Ep]]; [| |done].
    - assert (E : forallb (matches p) [MSaddr (fl_source_ip flow); MDport "udp" [PNum 53; PNum 853]] = false).
      { cbn [forallb matches]. rewrite (nf_protocol HN), Ep. by rewrite andb_false_r. }
      rewrite E, (resolver_rule "tcp"), host_matches, String.eqb_refl by (done || by eapply profile_host). done.
    - rewrite (resolver_rule "udp"), host_matches, String.eqb_refl by (done || by eapply profile_host). done. }
  assert (Hblock : forall pr, pr ∈ items (df_device_profiles (c_adguard cfg)) ->
    (run_with sub (profile_rules pr) p = None \/ run_with sub (profile_rules pr) p = Some ODrop) /\ (managed pr -> run_with sub (profile_rules pr) p = Some ODrop)).
  { intros pr Hpr. unfold profile_rules. destruct (dp_enabled pr) eqn:Ee; cbn [negb].
    2: { split; [by left|]. intros (_ & Hx & _). congruence. }
    cbn [run_with]. destruct (decide (fl_source_ip flow ∈ items (dp_ip_addresses pr))) as [Hin|Hout].
    - assert (Hrun : run_with sub (concat (map (device_rules pr) (items (dp_ip_addresses pr)))) p = Some ODrop); [|by split; [right|]].
      apply run_blocks.
      + rewrite Forall_map, Forall_forall. intros ip Hip. destruct (Hdev pr ip Hpr Hip) as [H1 H2]. destruct (decide (ip = fl_source_ip flow)); [right|left]; auto.
      + apply Exists_exists. exists (device_rules pr (fl_source_ip flow)). split; [apply list_elem_of_In, in_map; by apply list_elem_of_In|by apply (Hdev pr _ Hpr)].
    - split; [left|intros (_ & _ & Hx); done]. apply run_unmatched, Forall_concat_map. intros ip Hip. apply device_unmatched; [done|done|]. by intros ->. }
  rewrite run_blocks; [done| |].
  - rewrite Forall_map, Forall_forall. intros pr Hpr. by apply Hblock.
  - apply Exists_exists. exists (profile_rules profile). split; [apply list_elem_of_In, in_map; by apply list_elem_of_In|by apply (Hblock profile Hp)].
Qed.

Lemma schedules_none : explain_schedules cfg flow = None -> active_managed_services cfg <> [] -> forall profile, ~ managed profile.
Proof.
  unfold explain_schedules. intros Hx Ha profile (Hp & He & Hi). destruct (active_managed_services cfg); [by destruct Ha|]. cbn [List.length Nat.eqb] in Hx.
  destruct (List.find _ _) as [pr|] eqn:Ef; [done|]. pose proof (find_none _ _ Ef profile (proj1 (list_elem_of_In _ _) Hp)) as Hn. cbn beta in Hn. rewrite He in Hn.
  apply not_true_iff_false in Hn. apply Hn, existsb_exists. exists (fl_source_ip flow). split; [by apply list_elem_of_In|apply String.eqb_refl].
Qed.
Lemma schedules_deny v : explain_schedules cfg flow = Some v -> fst (fst v) = "deny" ->
  active_managed_services cfg <> [] /\ (exists profile, managed profile) /\ fl_protocol flow <> "icmp" /\ (fl_port flow = 53 \/ fl_port flow = 853).
Proof.
  unfold explain_schedules. intros Hx Hv. destruct (active_managed_services cfg); [done|]. cbn [List.length Nat.eqb] in Hx.
  destruct (List.find _ _) as [pr|] eqn:Ef; [|done]. injection Hx as <-. destruct (_ && _) eqn:Ec; [|done]. split; [done|].
  apply find_some in Ef as [Hin Hf]. apply andb_true_iff in Hf as [He (ip & Hip & Heq)%existsb_exists]. apply String.eqb_eq in Heq as ->. split.
  - exists pr. repeat split; [by apply list_elem_of_In|done|by apply list_elem_of_In].
  - rewrite andb_true_iff, negb_true_iff, orb_true_iff, String.eqb_neq, !Z.eqb_eq in Ec. done.
Qed.
Lemma schedules_never_allow v : explain_schedules cfg flow = Some v -> fst (fst v) <> "allow".
Proof.
  unfold explain_schedules. intros Hx. destruct (Nat.eqb _ _); [done|]. destruct (List.find _ _); [|done]. injection Hx as <-. by destruct (_ && _).
Qed.

Lemma resolver_denied v : explain_schedules cfg flow = Some v -> fst (fst v) = "deny" -> forward_passes cfg p = false.
Proof.
  intros Hx Hv. destruct (schedules_deny v Hx Hv) as (Ha & (profile & Hm) & Hne & Hq). unfold forward_passes, forward_chain.
  apply (passes_denied r (forward_guards r) _ [] (SJump "device_profiles")); [apply forward_guards_silent|by apply (guard_profiles r)|done|].
  cbn [act]. change (run 15 (chains r) (chains r "device_profiles") p) with (run_with (fun c q => run 14 (chains r) (chains r c) q) (device_profiles_chain r) p).
  by rewrite (resolver_drops _ profile).
Qed.

(** *** Denials *)
Context (d : IP) (zd : string) (Hdst : parse_ip (fl_destination_ip flow) = Some d) (Hdst4 : to4 d <> None).
Context (Hdc : canonical (fl_destination_ip flow) = true) (Hda : pk_daddr p = canon d) (HD : InZone cfg d zd (pk_oif p)).

Definition denial (rule : FirewallRule) : Prop :=
  rule ∈ items (fw_custom_rules (c_firewall cfg)) /\ rule_enabled rule = true /\ rule_direction rule = "forward" /\ rule_action rule = "deny"
  /\ firewall_rule_matches rule flow = true /\ (firewall_rule_scope rule = "all" \/ zd = "wan" /\ wan_enabled (c_wan cfg) = true).

Lemma custom_matches rule ms : rule ∈ items (fw_custom_rules (c_firewall cfg)) ->
  forallb (matches p) ([MIif (runtime_lan_interface cfg)] ++ when (some_string (rule_src_ip rule)) [MSaddr (rule_src_ip rule)] ++ custom_protocol rule ++ ms)
  = name_matches (runtime_lan_interface cfg) (pk_iif p) && firewall_rule_matches rule flow && forallb (matches p) ms.
Proof. intros Hr. rewrite <- (rule_matches rule Hr), !forallb_app. cbn [forallb matches]. by rewrite andb_true_r, !andb_assoc. Qed.

Lemma denied_by_rule rule : zs = "lan" -> denial rule -> forward_passes cfg p = false.
Proof.
  intros Hz (Hr & He & Hd & Ha & Hm & Hsc). pose proof (from_lan Hz) as Hi. unfold forward_passes.
  assert (Hx : rule_reaches r rule p).
  { destruct Hsc as [Hsc|[Hzd Hw]]; [by left|right]. split; [exact Hw|]. exact (crosses_wan cfg HP d zd (pk_oif p) HD Hzd). }
  destruct (guard_reaching r rule p Hr He Hd Ha Hx) as (ms & Hms & Hg). eapply (forward_denied r); [exact Hg| |done].
  change (lan_interface (c_lan r)) with (runtime_lan_interface cfg). by rewrite custom_matches, Hi, Hm, Hms.
Qed.
Lemma custom_deny_permits sub : (zs = "lan" -> forall rule, ~ denial rule) -> Forall (permits sub p) (write_custom_rules r "forward" "deny").
Proof.
  intros Hno. apply Forall_concat_map. intros rule Hr. unfold custom_rule.
  destruct (rule_enabled rule) eqn:He; cbn [negb orb]; [|constructor]. destruct (rule_direction rule =s "forward") eqn:Hd; cbn [negb orb]; [|constructor].
  destruct (rule_action rule =s "deny") eqn:Ha; cbn [negb]; [|constructor]. apply String.eqb_eq in Hd, Ha. cbv zeta.
  change ("forward" =s "forward") with true. cbn [andb]. destruct ((firewall_rule_scope rule =s "wan") && negb (wan_enabled (c_wan r))) eqn:Hsk; [constructor|].
  apply Forall_cons; split; [exact I|]. apply Forall_cons; split; [|constructor]. intros Hm. exfalso.
  change (lan_interface (c_lan r)) with (runtime_lan_interface cfg) in Hm. rewrite custom_matches in Hm by done.
  apply andb_true_iff in Hm as [Hm Ho]. apply andb_true_iff in Hm as [Hi Hm]. destruct (iif_lan Hi) as [Hz _]. apply (Hno Hz rule). repeat split; try done.
  destruct (forward_scope rule Hd Ha) as [Hs|Hs]; [|by left]. right. rewrite Hs in Ho, Hsk. change ("wan" =s "wan") with true in Ho, Hsk. cbn [when andb] in Ho, Hsk.
  split; [|by apply negb_false_iff in Hsk]. cbn [forallb matches existsb] in Ho. rewrite orb_false_r, andb_true_r in Ho. apply orb_true_iff in Ho.
  exact (cross_wan cfg HP d zd (pk_oif p) HD Ho).
Qed.

Definition restricted : Prop := squid_enabled (c_squid_proxy cfg) = true
  /\ exists item, item ∈ items (squid_restricted_ips (c_squid_proxy cfg)) /\ ri_enabled item = true /\ ri_ip_address item = fl_source_ip flow.
Lemma restricted_host item : item ∈ items (squid_restricted_ips (c_squid_proxy cfg)) -> trim (ri_ip_address item) = ri_ip_address item /\ ri_ip_address item ∈ named_hosts cfg.
Proof.
  intros Hi. split.
  - pose proof (pw_allowed _ HP) as H. rewrite forallb_forall in H. apply String.eqb_eq, H. rewrite !in_app_iff. do 2 right. apply in_map. by apply list_elem_of_In.
  - unfold named_hosts. rewrite !elem_of_app. do 3 right. left. apply list_elem_of_In, in_map. by apply list_elem_of_In.
Qed.
Lemma source_text : fl_source_ip flow <> EmptyString.
Proof. intros E. pose proof (nf_source HN) as H. by rewrite E in H. Qed.
Lemma denied_restricted : restricted -> forward_passes cfg p = false.
Proof.
  intros (Hs & item & Hin & He & Ha). destruct (restricted_host item Hin) as [Ht Hh]. unfold forward_passes.
  apply (forward_denied r [MSaddr (trim (ri_ip_address item))] SDrop); [| |done].
  - apply (guard_restricted r); try done. rewrite Ht, Ha. exact source_text.
  - cbn [forallb]. rewrite Ht, host_matches, Ha, String.eqb_refl by done. done.
Qed.
Lemma restricted_permits sub : ~ restricted -> Forall (permits sub p) (restricted_rules r).
Proof.
  intros Hno. unfold restricted_rules. cbv zeta. apply Forall_when. intros Hs. apply andb_true_iff in Hs as [Hs _]. here.
  apply Forall_concat_map. intros item Hin. apply Forall_when. intros He. apply andb_true_iff in He as [_ He]. apply Forall_cons; split; [|constructor].
  intros Hm. exfalso. destruct (restricted_host item Hin) as [Ht Hh]. cbn [forallb] in Hm. rewrite Ht, host_matches, andb_true_r in Hm by done.
  apply String.eqb_eq in Hm. apply Hno. split; [done|]. by exists item.
Qed.

(** *** What is forwarded *)
(** Nothing stands in the way of the flow. *)
Record Unhindered : Prop := {
  un_site : zs <> "tunnel";
  un_schedules : explain_schedules cfg flow = None;
  un_denials : zs = "lan" -> forall rule, ~ denial rule;
  un_restricted : ~ restricted;
}.
Lemma segments_forward_permit sub : Forall (permits sub p) (write_extra_lan_forward_rules r).
Proof.
  apply Forall_concat_map. intros lan Hl. unfold extra_forward_rules. destruct (xl_enabled lan) eqn:He; cbn [negb orb]; [|constructor]. here.
  - apply (foreign_net (xl_cidr lan)); [|done]. apply (segment_source_matches lan); [by apply segment_active|done].
  - apply Forall_concat_map. intros src _. unfold allow_from_rule. cbv zeta. here.
Qed.
Lemma site_forward_permit sub : zs <> "tunnel" -> Forall (permits sub p) (write_wg_client_forward_rules r).
Proof.
  intros Hz. unfold write_wg_client_forward_rules. cbv zeta. destruct (negb _) eqn:He; [constructor|]. apply negb_false_iff in He. here.
  - rewrite Forall_map, Forall_forall. intros src _ _. by right.
  - by apply Hz, iif_site.
Qed.
Lemma redirect_permit sub : Forall (permits sub p) (write_tunnel_port_forward_forward r).
Proof.
  unfold write_tunnel_port_forward_forward, forward_lines. here. apply Forall_concat_map. intros rule _. rewrite Forall_map, Forall_forall. intros proto _ _. by right.
Qed.
Lemma custom_allow_permit sub direction : Forall (permits sub p) (write_custom_rules r direction "allow").
Proof.
  apply Forall_concat_map. intros rule _. unfold custom_rule. case_match; [constructor|]. cbv zeta. case_match; [constructor|].
  apply Forall_cons; split; [exact I|]. apply Forall_cons; split; [|constructor]. intros _. by right.
Qed.

Lemma forward_permits : Unhindered -> Forall (permits (fun c q => run 15 (chains r) (chains r c) q) p) (forward_chain r).
Proof.
  intros [Hz Hsch Hden Hres]. unfold forward_chain, forward_guards, write_wan_antispoof, antispoof_rules, forward_accepts, forward_lan, forward_wireguard,
    write_accounting_rules. cbv zeta.
  here; try closed_off; auto using custom_deny_permits, restricted_permits, custom_allow_permit, segments_forward_permit, redirect_permit, site_forward_permit.
  - apply (foreign_net (lan_cidr (c_lan cfg))); [by apply lan_source_matches|done].
  - left. cbn [act]. change (run 15 (chains r) (chains r "device_profiles") p) with (run_with (fun c q => run 14 (chains r) (chains r c) q) (device_profiles_chain r) p).
    rewrite unmanaged_returns; [done|]. apply schedules_none; [done|].
    match goal with H : negb (Nat.eqb _ _) = true |- _ => intros E; change (active_managed_services r) with (active_managed_services cfg) in H; by rewrite E in H end.
Qed.
Lemma forward_passes_when ms : Unhindered -> Rule ms SAccept ∈ forward_accepts r -> forallb (matches p) ms = true -> forward_passes cfg p = true.
Proof.
  intros Hu Hin Hm. unfold forward_passes, passes. rewrite run_sixteen, <- (app_nil_r (forward_chain r)), run_permits; [done|by apply forward_permits|].
  apply (exists_rule ms); [|done]. unfold forward_chain. rewrite !elem_of_app. by do 2 right.
Qed.

(** *** Segments *)
Lemma allow_from_all ln wn field l seen : allow_from_errors ln wn field l seen = [] ->
  Forall (fun src => exists x n, parse_cidr (trim src) = Some (x, n) /\ zone_covers ln n || zone_covers wn n = true) l.
Proof.
  revert seen. induction l as [|entry l IH]; intros seen H; [constructor|]. cbn in H. cbv zeta in H. destruct (parse_cidr (trim entry)) as [[x n]|] eqn:Ec; [|done].
  destruct (zone_covers ln n || zone_covers wn n) eqn:Ez; cbn [negb] in H; [|done]. destruct (bool_decide (trim entry ∈ seen)); cbn [negb] in H; [done|]. constructor; [by exists x, n|by eapply IH].
Qed.
Lemma segment_accepted lan : lan ∈ active_segments cfg -> exists ln n dst,
  net_of (lan_cidr (c_lan cfg)) ln /\ net_of (xl_cidr lan) n /\ parse_ipv4 (xl_dst_ip lan) = Some dst /\ net_contains n dst = true
  /\ Forall (fun src => exists x m, parse_cidr (trim src) = Some (x, m) /\ zone_covers (Some ln) m || zone_covers (extra_lans_wg_network cfg) m = true) (items (xl_allow_from lan))
  /\ xl_protocol lan <> "icmp".
Proof.
  intros (i & Hi & He)%active_lookup. destruct (lan_view cfg HV) as (o & x & ln & _ & Hc & _ & A). exists ln.
  pose proof (acc_extra_lans _ _ _ A) as Hx. unfold validate_extra_lans in Hx.
  apply (vloop_all _ (fun lan => xl_enabled lan = true -> exists n dst, net_of (xl_cidr lan) n /\ parse_ipv4 (xl_dst_ip lan) = Some dst /\ net_contains n dst = true
    /\ Forall (fun src => exists x m, parse_cidr (trim src) = Some (x, m) /\ zone_covers (Some ln) m || zone_covers (extra_lans_wg_network cfg) m = true) (items (xl_allow_from lan))
    /\ xl_protocol lan <> "icmp")) in Hx.
  - rewrite Forall_forall in Hx. destruct (Hx lan (list_elem_of_lookup_2 _ _ _ Hi) He) as (n & dst & H). exists n, dst. split; [|done]. unfold net_of. by rewrite Hc.
  - clear. intros i x st e st' Hv Hnil He. subst e. unfold validate_extra_lan in Hv. destruct st as [seen nets]. rewrite He in Hv. cbn [negb] in Hv. cbv zeta in Hv.
    destruct (extra_interface_errors _ _ _ _) as [e1 s1]. destruct (extra_cidr_errors _ _ _ _ _ _ _) as [e2 n2] eqn:E2. injection Hv as Hv _. split_errors.
    match goal with H : extra_dst_errors _ _ _ = [] |- _ => unfold extra_dst_errors in H; cbv zeta in H; rename H into Hd end.
    destruct (if is_empty (xl_dst_ip x) then None else parse_ipv4 (xl_dst_ip x)) as [dst|] eqn:Ed; [|done].
    destruct (snd <$> parse_cidr (xl_cidr x)) as [n|] eqn:En; [|by unfold extra_cidr_errors in E2; injection E2 as <- _].
    destruct (net_contains n dst) eqn:Ect; cbn [negb] in Hd; [|done]. exists n, dst. destruct (is_empty (xl_dst_ip x)); [done|].
    repeat split; try done; [by eapply allow_from_all|]. intros E. rewrite E in *. done.
Qed.

Lemma dotted_mask text x n : text ∈ named_networks cfg -> parse_cidr text = Some (x, n) -> snd (mask_size (net_mask n)) = 32%nat.
Proof.
  intros Hin Hc. pose proof (pw_networks _ HP) as H. rewrite forallb_forall in H. specialize (H text (proj1 (list_elem_of_In _ _) Hin)).
  unfold dotted_network in H. rewrite Hc in H. by apply Nat.eqb_eq.
Qed.
(** A source network a zone covers lies in it. *)
Lemma covered_inside ztext zx zn text x n ip : ztext ∈ named_networks cfg -> text ∈ named_networks cfg ->
  parse_cidr ztext = Some (zx, zn) -> parse_cidr text = Some (x, n) -> zone_covers (Some zn) n = true -> wf_ip ip -> in_net text ip = true -> in_net ztext ip = true.
Proof.
  intros Hz Hn Hzc Hc Hcov W Hin. pose proof (dotted_mask _ _ _ Hz Hzc) as Mz. pose proof (dotted_mask _ _ _ Hn Hc) as Mn.
  unfold in_net in *. rewrite Hzc. rewrite Hc in Hin. refine (contained_in_zone text x n ztext zx zn ip Hc Hzc _ W Hin).
  unfold network_contained_in. destruct (mask_size (net_mask n)) as [a ab] eqn:E1. destruct (mask_size (net_mask zn)) as [k kb] eqn:E2. cbn in Mz, Mn. subst ab kb.
  destruct (parse_cidr_block _ _ _ _ Hc E1) as [o1 B1]. destruct (parse_cidr_block _ _ _ _ Hzc E2) as [o2 B2].
  destruct (v4_block_ip4 _ _ _ _ B1) as [L1 _]. destruct (v4_block_ip4 _ _ _ _ B2) as [L2 _].
  rewrite !to4_length4 by done. cbn [is_none orb]. unfold zone_covers in Hcov. cbn in Hcov. rewrite E1, E2 in Hcov. cbn in Hcov.
  apply andb_true_iff in Hcov as [H1 H2]. by rewrite H1, H2.
Qed.

Lemma source_wf : wf_ip s.
Proof. by apply (parse_ip_ok _ _ (nf_source HN)). Qed.
Lemma allow_from_named lan src : lan ∈ active_segments cfg -> src ∈ items (xl_allow_from lan) -> src ∈ named_networks cfg /\ trim src = src.
Proof.
  intros Hl Hs. split.
  - unfold named_networks. apply elem_of_app. right. by apply (elem_of_concat_map _ _ lan).
  - pose proof (pw_allowed _ HP) as H. rewrite forallb_forall in H. apply String.eqb_eq, H. rewrite !in_app_iff. right. left. apply list_elem_of_In.
    by apply (elem_of_concat_map _ _ lan).
Qed.

(** The interface an exception is written for is the one its sources are behind. *)
Lemma exception_carrier lan src : lan ∈ active_segments cfg -> src ∈ items (xl_allow_from lan) -> in_net src s = true -> zs = "lan" \/ zs = "wireguard" ->
  name_matches (extra_lan_source_interface r src) (pk_iif p) = true.
Proof.
  intros Hl Hs Hin Hz. destruct (segment_accepted lan Hl) as (ln & n & dst & Hln & _ & _ & _ & Hall & _). rewrite Forall_forall in Hall.
  destruct (Hall src Hs) as (x & m & Hc & Hcov). destruct (allow_from_named lan src Hl Hs) as [Hnamed Ht]. rewrite Ht in Hc.
  apply net_of_parse in Hln as [lx Hln]. unfold extra_lan_source_interface. rewrite Hc. change (c_lan r) with (with_lan_interface cfg (runtime_lan_interface cfg)).(c_lan).
  cbn [c_lan with_lan_interface lan_cidr]. rewrite Hln. change (c_wireguard r) with (c_wireguard cfg). rewrite runtime_lan_again.
  assert (HL : lan_cidr (c_lan cfg) ∈ named_networks cfg) by (unfold named_networks; set_solver).
  assert (HG : wg_address (c_wireguard cfg) ∈ named_networks cfg) by (unfold named_networks; set_solver).
  assert (Hlz : zone_covers (Some ln) m = true -> zs = "lan").
  { intros Hcl. pose proof (covered_inside _ _ _ _ _ _ s HL Hnamed Hln Hc Hcl source_wf Hin) as Hi. destruct Hz as [Hz|Hz]; [done|].
    exfalso. destruct (from_tunnel Hz) as [Hwg Hm]. destruct (iif_tunnel Hwg Hm) as [_ Hi2]. by eapply lan_tunnel_apart; [exact HV|exact HP|exact source_wf|..]. }
  unfold zone_covers in Hcov, Hlz. cbn [some_and] in Hcov, Hlz.
  destruct (net_contains ln (net_ip m) && _) eqn:El.
  { by apply from_lan, Hlz. }
  cbn [orb] in Hcov. unfold extra_lans_wg_network in Hcov. destruct (wg_enabled (c_wireguard cfg)) eqn:Ew; [|done].
  destruct (parse_cidr (wg_address (c_wireguard cfg))) as [[wx wn]|] eqn:Ewc; [|done]. cbn in Hcov. cbn [andb]. rewrite Hcov.
  assert (Hi : in_net (wg_address (c_wireguard cfg)) s = true) by (refine (covered_inside _ _ _ _ _ _ s HG Hnamed Ewc Hc _ source_wf Hin); exact Hcov).
  destruct Hz as [Hz|Hz]; [|by apply from_tunnel]. exfalso. destruct (iif_lan (from_lan Hz)) as [_ Hi2].
  by eapply lan_tunnel_apart; [exact HV|exact HP|exact source_wf|..].
Qed.

Lemma dest_host a : a ∈ named_hosts cfg -> matches p (MDaddr a) = (a =s fl_destination_ip flow).
Proof.
  intros Ha. destruct (named_host cfg a HP Ha) as [Hc Hn]. cbn. rewrite (nf_ipv4 HN), Hda. cbn [andb].
  rewrite (addr_matches_text a (fl_destination_ip flow) d) by done. unfold in_network. by rewrite Hn.
Qed.
Lemma segment_dest_host lan : lan ∈ active_segments cfg -> xl_dst_ip lan ∈ named_hosts cfg.
Proof. intros Hl. unfold named_hosts. rewrite !elem_of_app. right. left. apply list_elem_of_In, in_map. by apply list_elem_of_In. Qed.

(** *** Allowed *)
Lemma segment_port lan : fl_port flow = xl_dst_port lan -> (fl_protocol flow = xl_protocol lan \/ xl_protocol lan = EmptyString /\ fl_protocol flow = "tcp") ->
  fl_protocol flow <> "icmp" -> matches p (MDport (segment_protocol lan) [PNum (xl_dst_port lan)]) = true.
Proof.
  intros Hq Hp Hne. apply port_one. unfold to_port, segment_protocol. rewrite (nf_protocol HN), (nf_port HN) by done. split; [|done].
  destruct Hp as [Hp|[Hp1 Hp2]]; [|by rewrite Hp1]. rewrite Hp. unfold is_empty. destruct (xl_protocol lan =s EmptyString) eqn:E; [|done].
  apply String.eqb_eq in E. rewrite E in Hp. destruct flow_protocol as [H|[H|H]]; congruence.
Qed.
Lemma iif_some : pk_iif p = EmptyString -> False.
Proof.
  intros E. assert (Hin : pk_iif p ∈ interfaces cfg) by (destruct HZ; try done; auto with interfaces). pose proof (plain_here cfg _ HP Hin) as Hp. by rewrite E in Hp.
Qed.
Lemma exception_allows lan : Unhindered -> zs = "lan" \/ zs = "wireguard" -> is_segment zd = true -> lan ∈ active_segments cfg -> segment_allows flow lan = true ->
  fl_protocol flow <> "icmp" -> forward_passes cfg p = true.
Proof.
  intros Hu Hz Hg Hl Ha Hne. unfold segment_allows in Ha. rewrite !andb_true_iff, orb_true_iff, andb_true_iff, !String.eqb_eq, Z.eqb_eq in Ha.
  destruct Ha as ((((He & Hdi) & Hq) & Hp) & (src & Hs & Hin)%existsb_exists). apply list_elem_of_In in Hs. unfold is_empty in Hp. rewrite String.eqb_eq in Hp.
  rewrite (in_text s _ (nf_source HN)) in Hin.
  pose proof (exception_carrier lan src Hl Hs Hin Hz) as Hc. destruct (crosses_segment cfg HP d zd (pk_oif p) HD Hg) as (lan' & Hl' & Ho & Hin').
  assert (lan' = lan) as ->.
  { destruct (segment_accepted lan Hl) as (_ & n & dst & _ & Hn & Hdp & Hdn & _). destruct (parse_ip_ok _ _ Hdst) as [Wd _].
    apply (segment_unique cfg HV d Wd); [done|done|done|]. apply in_net_of. exists n. split; [done|].
    unfold parse_ipv4 in Hdp. rewrite <- Hdi, Hdst in Hdp. cbn in Hdp. rewrite <- net_contains_canon. unfold canon. by rewrite Hdp. }
  apply active_lookup in Hl' as (i & Hi & _). pose proof (segment_named lan Hl) as N1. pose proof (segment_addressed lan Hl) as N2.
  assert (N3 : is_empty (xl_dst_ip lan) = false).
  { unfold is_empty. apply String.eqb_neq. rewrite <- Hdi. intros E. by rewrite E in Hdst. }
  assert (N4 : is_empty (extra_lan_source_interface r src) = false).
  { unfold is_empty. apply String.eqb_neq. intros E. rewrite E in Hc. unfold name_matches in Hc. change (ends_with "*" EmptyString) with false in Hc.
    apply String.eqb_eq in Hc. symmetry in Hc. by apply iif_some in Hc. }
  apply (forward_passes_when [MIif (extra_lan_source_interface r src); MSaddr src; MDaddr (xl_dst_ip lan); MDport (segment_protocol lan) [PNum (xl_dst_port lan)]; MOif (xl_interface lan)]); [done| |].
  - unfold forward_accepts. rewrite !elem_of_app. right. left. apply (elem_of_concat_map _ _ lan); [by eapply list_elem_of_lookup_2|].
    unfold extra_forward_rules. rewrite He, N1, N2, N3. cbn [negb orb]. apply elem_of_app. right. apply (elem_of_concat_map _ _ src); [done|].
    unfold allow_from_rule. cbv zeta. rewrite N4. left.
  - cbn [forallb]. rewrite (segment_port lan), dest_host, Hdi, String.eqb_refl by (done || tauto || by apply segment_dest_host).
    change (matches p (MIif (extra_lan_source_interface r src))) with (name_matches (extra_lan_source_interface r src) (pk_iif p)). rewrite Hc.
    change (matches p (MOif (xl_interface lan))) with (name_matches (xl_interface lan) (pk_oif p)). rewrite Ho.
    cbn [matches]. rewrite (nf_ipv4 HN), (source_in_net src Hin). done.
Qed.

Lemma no_denial : List.find (fun r => rule_enabled r && (rule_direction r =s "forward") && (rule_action r =s "deny") && firewall_rule_matches r flow
    && ((firewall_rule_scope r =s "all") || (zd =s "wan") && wan_enabled (c_wan cfg))) (items (fw_custom_rules (c_firewall cfg))) = None -> forall rule, ~ denial rule.
Proof.
  intros Hf rule (Hr & He & Hd & Ha & Hm & Hs). pose proof (find_none _ _ Hf rule (proj1 (list_elem_of_In _ _) Hr)) as Hn. cbn beta in Hn.
  rewrite He, Hd, Ha, Hm in Hn. apply not_true_iff_false in Hn. apply Hn. cbn [andb]. apply orb_true_iff. destruct Hs as [->|[-> ->]]; [by left|by right].
Qed.
Lemma not_restricted : squid_enabled (c_squid_proxy cfg) && existsb (fun ip => ri_enabled ip && (ri_ip_address ip =s fl_source_ip flow)) (items (squid_restricted_ips (c_squid_proxy cfg))) = false ->
  ~ restricted.
Proof.
  intros H (Hs & item & Hin & He & Ha). apply not_true_iff_false in H. apply H. rewrite Hs. apply existsb_exists. exists item.
  split; [by apply list_elem_of_In|]. by rewrite He, Ha, String.eqb_refl.
Qed.

Lemma wan_rules iface : wan_enabled (c_wan cfg) = true -> zd = "wan" -> name_matches iface (pk_iif p) = true ->
  forallb (matches p) [MIif iface; MOif (wan_interface (c_wan cfg))] = true \/ forallb (matches p) [MIif iface; MOif "ppp*"] = true.
Proof. intros _ Hz Hi. cbn [forallb matches]. rewrite Hi. destruct (crosses_wan cfg HP d zd (pk_oif p) HD Hz) as [-> | ->]; auto. Qed.

Lemma lan_reaches_wan : Unhindered -> zs = "lan" -> zd = "wan" -> wan_enabled (c_wan cfg) = true -> forward_passes cfg p = true.
Proof.
  intros Hu Hs Hd Hw. assert (Hf : forall ms, ms = [MIif (runtime_lan_interface cfg); MOif (wan_interface (c_wan cfg))] \/ ms = [MIif (runtime_lan_interface cfg); MOif "ppp*"] ->
    Rule ms SAccept ∈ forward_accepts r).
  { intros ms Hms. unfold forward_accepts, forward_lan. cbv zeta. change (wan_enabled (c_wan r)) with (wan_enabled (c_wan cfg)).
    change (lan_interface (c_lan r)) with (runtime_lan_interface cfg). change (wan_interface (c_wan r)) with (wan_interface (c_wan cfg)).
    rewrite Hw, lan_some. cbn [andb when]. rewrite !elem_of_app. do 2 right. left. destruct Hms as [-> | ->]; set_solver. }
  destruct (wan_rules _ Hw Hd (from_lan Hs)) as [Hm|Hm]; (eapply forward_passes_when; [done| |exact Hm]); apply Hf; auto.
Qed.
Lemma tunnel_reaches ms : Unhindered -> zs = "wireguard" ->
  ms = [MIif (wg_interface (c_wireguard cfg)); MOif (runtime_lan_interface cfg)]
  \/ wan_enabled (c_wan cfg) = true /\ (ms = [MIif (wg_interface (c_wireguard cfg)); MOif (wan_interface (c_wan cfg))] \/ ms = [MIif (wg_interface (c_wireguard cfg)); MOif "ppp*"]) ->
  forallb (matches p) ms = true -> forward_passes cfg p = true.
Proof.
  intros Hu Hs Hms Hm. destruct (from_tunnel Hs) as [Hwg _]. apply (forward_passes_when ms); [done| |done].
  unfold forward_accepts, forward_wireguard. cbv zeta. change (wan_enabled (c_wan r)) with (wan_enabled (c_wan cfg)). change (c_wireguard r) with (c_wireguard cfg).
  change (lan_interface (c_lan r)) with (runtime_lan_interface cfg). change (wan_interface (c_wan r)) with (wan_interface (c_wan cfg)).
  rewrite Hwg. cbn [when]. rewrite !elem_of_app. do 3 right. left. destruct Hms as [->|[-> Hms]]; [set_solver|]. cbn [when]. destruct Hms as [-> | ->]; set_solver.
Qed.
Lemma home_reaches_site : Unhindered -> zs = "lan" \/ zs = "wireguard" -> zd = "tunnel" -> forward_passes cfg p = true.
Proof.
  intros Hu Hs Hd. destruct (crosses_site cfg HP d zd (pk_oif p) HD Hd) as [Hw Ho].
  assert (Hsrc : exists iface, name_matches iface (pk_iif p) = true /\ Rule [MIif iface; MOif (wg_client_interface cfg)] SAccept ∈ write_wg_client_forward_rules r).
  { unfold write_wg_client_forward_rules. cbv zeta. change (c_wg_client r) with (c_wg_client cfg). rewrite Hw. cbn [negb].
    change (lan_interface (c_lan r)) with (runtime_lan_interface cfg). change (c_wireguard r) with (c_wireguard cfg).
    change (wg_client_interface r) with (wg_client_interface cfg). destruct Hs as [Hs|Hs].
    - exists (runtime_lan_interface cfg). split; [by apply from_lan|]. set_solver.
    - destruct (from_tunnel Hs) as [Hwg Hi]. exists (wg_interface (c_wireguard cfg)). split; [done|]. rewrite Hwg, some_string_ne; [set_solver|].
      pose proof (plain_here cfg _ HP (wg_listed cfg Hwg)) as Hp. intros E. by rewrite E in Hp. }
  destruct Hsrc as (iface & Hi & Hin). apply (forward_passes_when [MIif iface; MOif (wg_client_interface cfg)]); [done| |cbn; by rewrite Hi, Ho].
  unfold forward_accepts. rewrite !elem_of_app. by do 5 right.
Qed.

Lemma segment_not_icmp lan : lan ∈ active_segments cfg -> segment_allows flow lan = true -> fl_protocol flow <> "icmp".
Proof.
  intros Hl Ha. destruct (segment_accepted lan Hl) as (_ & _ & _ & _ & _ & _ & _ & _ & Hp). unfold segment_allows in Ha.
  rewrite !andb_true_iff, orb_true_iff, andb_true_iff, !String.eqb_eq in Ha. destruct Ha as ((_ & [->|[_ ->]]) & _); done.
Qed.

Lemma forward_allowed : explain_schedules cfg flow = None -> fst (fst (explain_forward cfg flow zs zd)) = "allow" -> forward_passes cfg p = true.
Proof.
  intros Hsch. unfold explain_forward. cbv zeta. destruct (if zs =s "lan" then _ else None) as [rule|] eqn:Ed; [done|].
  destruct (squid_enabled _ && _) eqn:Er; [done|]. destruct (zs =s "tunnel") eqn:Et; [done|]. apply String.eqb_neq in Et.
  destruct (is_segment zs) eqn:Eg; [done|]. pose proof (inside_zones Et Eg) as Hz.
  assert (Hu : Unhindered). { split; [done|done| |by apply not_restricted]. intros E. rewrite E in Ed. change ("lan" =s "lan") with true in Ed. cbv iota in Ed. by apply no_denial. }
  destruct (is_segment zd) eqn:Egd.
  { destruct (existsb (segment_allows flow) _) eqn:Ea; [|done]. intros _. apply existsb_exists in Ea as (lan & Hin & Ha). apply list_elem_of_In in Hin.
    assert (Hl : lan ∈ active_segments cfg). { apply segment_active; [done|]. unfold segment_allows in Ha. by destruct (xl_enabled lan). }
    apply (exception_allows lan); try done; [tauto|by apply (segment_not_icmp lan)]. }
  destruct ((zd =s "wan") && _ && _) eqn:Ew.
  { intros _. rewrite !andb_true_iff, orb_true_iff, !String.eqb_eq in Ew. destruct Ew as ((Hd & Hw) & _). destruct Hz as [Hz|Hz]; [|by apply lan_reaches_wan].
    destruct (from_tunnel Hz) as [_ Hi]. destruct (wan_rules _ Hw Hd Hi) as [Hm|Hm]; (eapply tunnel_reaches; [done|done| |exact Hm]); right; auto. }
  destruct ((zs =s "wireguard") && _) eqn:El.
  { intros _. rewrite andb_true_iff, !String.eqb_eq in El. destruct El as [El1 El2]. destruct (from_tunnel El1) as [_ Hi].
    eapply tunnel_reaches; [done|done|by left|]. cbn [forallb matches]. rewrite Hi, (crosses_lan cfg HP d zd (pk_oif p) HD El2). done. }
  destruct ((zd =s "tunnel") && _) eqn:Es; [|done]. intros _. apply andb_true_iff in Es as [Es _]. apply String.eqb_eq in Es. apply home_reaches_site; tauto.
Qed.

(** *** Denied *)
Lemma exception_explained lan src : Allowance r lan src p -> is_segment zd = true /\ (zs = "lan" \/ zs = "wireguard") /\ existsb (segment_allows flow) (items (fw_extra_lans (c_firewall cfg))) = true.
Proof.
  intros [Hin He Hs Hc Hf [_ Hsrc] Hdst' Hport Ho]. change (c_firewall r) with (c_firewall cfg) in Hin. pose proof (segment_active lan Hin He) as Hl.
  assert (Hnet : in_network (fl_source_ip flow) src = true).
  { unfold extra_lan_source_interface in Hc. destruct (parse_cidr src) as [[x n]|] eqn:Ec; [|done]. rewrite (in_network_spec _ _ _ (nf_source HN)).
    unfold in_net, addr_matches in *. rewrite Ec in *. by rewrite <- (nf_saddr HN). }
  split; [|split].
  - destruct (cross_segment cfg HP d zd (pk_oif p) HD lan Hl Ho) as [-> _]. done.
  - clear Hsrc Hnet. unfold from_if in Hf. revert Hc Hf. unfold extra_lan_source_interface. destruct (parse_cidr src) as [[x n]|]; [|done].
    rewrite runtime_lan_again. change (c_wireguard r) with (c_wireguard cfg).
    destruct (match parse_cidr (lan_cidr (c_lan r)) with Some _ => _ | None => _ end); [intros _ Hf; left; by apply iif_lan|].
    destruct (wg_enabled (c_wireguard cfg)) eqn:Ew; cbn [andb]; [|done]. destruct (match parse_cidr _ with Some _ => _ | None => _ end); [|done].
    intros _ Hf. right. by apply iif_tunnel.
  - apply existsb_exists. exists lan. split; [by apply list_elem_of_In|]. unfold segment_allows. rewrite He. cbn [andb].
    assert (Hd1 : xl_dst_ip lan = fl_destination_ip flow) by (apply String.eqb_eq; rewrite <- dest_host by (by apply segment_dest_host); by apply match_daddr).
    assert (Hpr : segment_protocol lan <> "icmp").
    { destruct (segment_accepted lan Hl) as (_ & _ & _ & _ & _ & _ & _ & _ & Hx). unfold segment_protocol. by destruct (is_empty _). }
    destruct (to_port_flow _ _ Hpr Hport) as [H1 H2]. rewrite Hd1, H1, H2, String.eqb_refl, Z.eqb_refl. cbn [andb].
    apply andb_true_iff. split.
    + unfold segment_protocol. destruct (is_empty (xl_protocol lan)); [by rewrite orb_true_r|by rewrite String.eqb_refl].
    + apply existsb_exists. exists src. split; [by apply list_elem_of_In|done].
Qed.

(** The four ways a new flow crosses the router *)
Lemma forwarded_kinds : forward_passes cfg p = true ->
  zs = "lan" /\ wan_enabled (c_wan cfg) = true /\ zd = "wan"
  \/ is_segment zd = true /\ (zs = "lan" \/ zs = "wireguard") /\ existsb (segment_allows flow) (items (fw_extra_lans (c_firewall cfg))) = true
  \/ zs = "wireguard" /\ (zd = "lan" \/ wan_enabled (c_wan cfg) = true /\ zd = "wan")
  \/ zd = "tunnel" /\ (zs = "lan" \/ zs = "wireguard").
Proof.
  intros Hp. assert (Hexit : wan_exit r p -> zd = "wan") by (intros H; exact (cross_wan cfg HP d zd (pk_oif p) HD H)).
  assert (Hlan : to_if (runtime_lan_interface cfg) p -> zd = "lan") by (intros H; by apply (cross_lan cfg HP d zd (pk_oif p) HD)).
  destruct (passes_yields _ _ _ _ (forward_chain_allowed r) Hp) as [H|Hf Hw He|lan src H|Hg Hf Ht|rule Hg _ _ Hf Ht _ _|Hc Ho Hf].
  - by destruct (not_known H).
  - left. split; [by apply iif_lan|]. auto.
  - right. left. by apply (exception_explained lan src).
  - right. right. left. split; [by apply iif_tunnel|]. destruct Ht as [Ht|[Hw Ht]]; auto.
  - right. right. left. split; [|auto]. apply iif_tunnel; [done|]. unfold wg_server_interface in Hf. change (c_wireguard r) with (c_wireguard cfg) in Hf, Hg.
    destruct (is_empty (wg_interface (c_wireguard cfg))) eqn:Ee; [|done]. exfalso. unfold is_empty in Ee. apply String.eqb_eq in Ee.
    pose proof (plain_here cfg _ HP (wg_listed cfg Hg)) as Hpl. by rewrite Ee in Hpl.
  - right. right. right. split; [by apply (cross_site cfg HP d zd (pk_oif p) HD)|]. destruct Hf as [Hf|[Hg Hf]]; [left; by apply iif_lan|right; by apply iif_tunnel].
Qed.

Lemma forward_denied_explained : explain_schedules cfg flow = None -> fst (fst (explain_forward cfg flow zs zd)) = "deny" -> forward_passes cfg p = false.
Proof.
  intros Hsch. unfold explain_forward. cbv zeta. destruct (if zs =s "lan" then _ else None) as [rule|] eqn:Ed.
  { intros _. destruct (zs =s "lan") eqn:El; [|done]. apply String.eqb_eq in El. apply find_some in Ed as [Hin Hf]. apply (denied_by_rule rule); [done|].
    rewrite !andb_true_iff, orb_true_iff, andb_true_iff, !String.eqb_eq in Hf. destruct Hf as ((((H1 & H2) & H3) & H4) & H5). repeat split; try done. by apply list_elem_of_In. }
  destruct (squid_enabled _ && _) eqn:Er.
  { intros _. apply andb_true_iff in Er as [Er1 (item & Hin & Hx)%existsb_exists]. rewrite andb_true_iff, String.eqb_eq in Hx. apply denied_restricted. split; [done|].
    exists item. split; [by apply list_elem_of_In|done]. }
  intros Hv. apply not_true_iff_false. intros Hk%forwarded_kinds. revert Hv.
  destruct Hk as [(-> & Hw & ->)|[(Hg & Hs & Ha)|[(-> & Ht)|(-> & Hs)]]].
  - change ("lan" =s "tunnel") with false. change (is_segment "lan") with false. change (is_segment "wan") with false. rewrite Hw.
    change ("wan" =s "wan") with true. change ("lan" =s "lan") with true. cbn [andb orb]. cbv iota. match goal with |- context [match List.find ?f ?l with _ => _ end] => by destruct (List.find f l) end.
  - rewrite Hg, Ha. by destruct Hs as [-> | ->].
  - change ("wireguard" =s "tunnel") with false. change (is_segment "wireguard") with false. change ("wireguard" =s "wireguard") with true.
    change ("wireguard" =s "lan") with false. cbv iota. destruct Ht as [->|[Hw ->]]; [done|]. by rewrite Hw.
  - by destruct Hs as [-> | ->].
Qed.
End Decide.

(** ** The path of a packet *)
(** After the tunnel's redirection a packet is for the router or crosses it. *)
Definition arriving {UC : Unicode} (cfg : SystemConfig) (p : Packet) : Packet := translate (prerouting_chain cfg) p.
Definition firewall_passes {UC : Unicode} {SH : Sha256} (cfg : SystemConfig) (p : Packet) : bool :=
  let p := arriving cfg p in if router_owns cfg (pk_daddr p) then input_passes cfg p else forward_passes cfg p.

(** A packet of a new flow on the interfaces its addresses are behind, within
    the rate limits *)
Record Realises {UC : Unicode} (cfg : SystemConfig) (flow : FirewallFlow) (p : Packet) : Prop := {
  rl_ipv4 : pk_ipv4 p = true;
  rl_source : exists s, parse_ip (fl_source_ip flow) = Some s /\ pk_saddr p = canon s /\ Behind cfg s (pk_iif p);
  rl_dest : exists d, parse_ip (fl_destination_ip flow) = Some d /\ pk_daddr p = canon d;
  rl_exit : router_owns cfg (pk_daddr (arriving cfg p)) = false -> Behind cfg (pk_daddr (arriving cfg p)) (pk_oif p);
  rl_protocol : pk_proto p = fl_protocol flow;
  rl_port : fl_protocol flow <> "icmp" -> pk_dport p = fl_port flow;
  rl_new : pk_ct p = CtNew;
  rl_routed : pk_routed p = true;
  rl_rates : forall limit, pk_over p limit = false;
}.

Lemma in_net_canon cidr ip : in_net cidr (canon ip) = in_net cidr ip.
Proof. unfold in_net. destruct (parse_cidr cidr) as [[x n]|]; [|done]. apply net_contains_canon. Qed.
Lemma behind_canon cfg ip iface : Behind cfg (canon ip) iface -> Behind cfg ip iface.
Proof.
  intros [H|He H|lan Hl H|entry He Hin H|i H1 H2 H3 H4 H5]; rewrite ?in_net_canon in *.
  - by apply behind_lan.
  - by apply behind_tunnel.
  - by apply behind_segment.
  - by eapply behind_site.
  - apply behind_wan; [done|..|done].
    + exact H2.
    + intros lan Hl. rewrite <- in_net_canon. by apply H3.
    + intros He entry Hin. rewrite <- in_net_canon. by apply H4.
Qed.

Section Redirect.
Context {UC : Unicode} {B64 : Base64} (cfg : SystemConfig) (HV : validate cfg = Ok tt) (HP : PlainlyWritten cfg).

Lemma forward_accepted pf : pf ∈ items (fw_port_forwards (c_firewall cfg)) ->
  1 <= pf_external_port pf /\ 1 <= pf_internal_port pf <= 65535 /\ parse_ipv4 (pf_internal_ip pf) <> None
  /\ (pf_protocol pf = "tcp" \/ pf_protocol pf = "udp" \/ pf_protocol pf = "both").
Proof.
  intros Hin. destruct (validate_accepted _ HV) as (i & o & A). pose proof (acc_firewall _ _ _ A) as Hf. unfold validate_firewall in Hf. split_errors.
  match goal with H : fst (vloop (validate_port_forward _ _) _ _ _) = [] |- _ => rename H into Hl end.
  apply (vloop_all _ (fun pf => 1 <= pf_external_port pf /\ 1 <= pf_internal_port pf <= 65535 /\ parse_ipv4 (pf_internal_ip pf) <> None)) in Hl.
  - rewrite Forall_forall in Hl. destruct (Hl pf Hin) as (K1 & K2 & K3). repeat split; try done; try lia.
    pose proof (pw_forwards _ HP) as Hw. rewrite forallb_forall in Hw. specialize (Hw pf (proj1 (list_elem_of_In _ _) Hin)). unfold one_of in Hw.
    cbn [existsb] in Hw. rewrite orb_false_r, !orb_true_iff, !String.eqb_eq in Hw. tauto.
  - intros k x st e st' Hb Hnil. unfold validate_port_forward in Hb. cbv zeta in Hb. destruct (vloop _ 0 _ st) as [dups seen]. injection Hb as Hb _. subst e. split_errors.
    destruct (parse_ipv4 (pf_internal_ip x)); [|done]. repeat split; try done; lia.
Qed.

Context (flow : FirewallFlow) (p : Packet) (src : string) (s : IP).
Context (Hproto : pk_proto p = fl_protocol flow) (Hport : fl_protocol flow <> "icmp" -> pk_dport p = fl_port flow).
Context (Hicmp : fl_protocol flow = "icmp" -> fl_port flow = 0) (HB : src <> "router" -> src <> "unknown" -> InZone cfg s src (pk_iif p)).

Definition redirects (pf : PortForwardRule) : bool :=
  pf_enabled pf && (pf_external_port pf =? fl_port flow) && ((pf_protocol pf =s fl_protocol flow) || (pf_protocol pf =s "both")).

(** The lines of one port forward redirect the flows the explanation says. *)
Lemma forward_lines_translate pf rest : pf ∈ items (fw_port_forwards (c_firewall cfg)) -> name_matches (wg_server_interface cfg) (pk_iif p) = true ->
  pf_enabled pf = true -> one_of ["tcp"; "udp"; "icmp"] (fl_protocol flow) = true ->
  translate (map (fun protocol => Rule [MIif (wg_server_interface cfg); MDport protocol [PNum (pf_external_port pf)]] (SDnat (pf_internal_ip pf) (pf_internal_port pf)))
    (port_forward_protocols (pf_protocol pf)) ++ rest) p
  = if redirects pf then redirect_to p (pf_internal_ip pf) (pf_internal_port pf) else translate rest p.
Proof.
  intros Hin Hi He Hk. destruct (forward_accepted pf Hin) as (He1 & _ & _ & Hpr).
  assert (Hm : forall protocol, protocol <> "icmp" -> forallb (matches p) [MIif (wg_server_interface cfg); MDport protocol [PNum (pf_external_port pf)]]
    = (protocol =s fl_protocol flow) && (pf_external_port pf =? fl_port flow)).
  { intros protocol Hne. cbn [forallb matches existsb port_matches]. rewrite Hi, Hproto, orb_false_r, andb_true_r, (String.eqb_sym (fl_protocol flow)). cbn [andb].
    destruct (protocol =s fl_protocol flow) eqn:E; [|done]. apply String.eqb_eq in E. by rewrite Hport by (by rewrite <- E). }
  unfold redirects. rewrite He. cbn [andb]. unfold one_of in Hk. cbn [existsb] in Hk. rewrite orb_false_r, !orb_true_iff, !String.eqb_eq in Hk.
  assert (Hz : fl_protocol flow = "icmp" -> (pf_external_port pf =? fl_port flow) = false) by (intros E; apply Z.eqb_neq; rewrite (Hicmp E); lia).
  destruct Hpr as [Hpr|[Hpr|Hpr]]; rewrite Hpr.
  - change (port_forward_protocols "tcp") with ["tcp"]. cbn [map app translate]. rewrite Hm by done. change ("tcp" =s "both") with false. rewrite orb_false_r, andb_comm. done.
  - change (port_forward_protocols "udp") with ["udp"]. cbn [map app translate]. rewrite Hm by done. change ("udp" =s "both") with false. rewrite orb_false_r, andb_comm. done.
  - change (port_forward_protocols "both") with ["tcp"; "udp"]. cbn [map app translate]. rewrite !Hm by done. change ("both" =s "both") with true. rewrite orb_true_r, andb_true_r.
    destruct Hk as [Hk|[Hk|Hk]]; rewrite ?Hk.
    + change ("tcp" =s "tcp") with true. change ("udp" =s "tcp") with false. cbn [andb]. by destruct (_ =? _).
    + change ("tcp" =s "udp") with false. change ("udp" =s "udp") with true. cbn [andb]. by destruct (_ =? _).
    + rewrite (Hz Hk), !andb_false_r. done.
Qed.

Lemma translate_unmatched chain : Forall (unmatched p) chain -> translate chain p = p.
Proof. induction 1 as [|[t|ms st] l Hl _ IH]; cbn; [done|done|]. cbn in Hl. rewrite Hl. by destruct st. Qed.

Lemma arriving_explained : one_of ["tcp"; "udp"; "icmp"] (fl_protocol flow) = true -> src <> "router" -> src <> "unknown" ->
  arriving cfg p = match tunnel_redirect cfg src flow with Some pf => redirect_to p (pf_internal_ip pf) (pf_internal_port pf) | None => p end.
Proof.
  intros Hk Hr Hu. unfold arriving, prerouting_chain, forward_lines, enabled_tunnel_port_forwards, tunnel_redirect.
  destruct (wg_enabled (c_wireguard cfg)) eqn:Hg; cbn [negb].
  2: { cbn. destruct (src =s "wireguard") eqn:E; [|done]. apply String.eqb_eq in E. destruct (crosses_tunnel cfg HP s src (pk_iif p) (HB Hr Hu) E) as [Hx _]. congruence. }
  assert (Hserver : wg_server_interface cfg = wg_interface (c_wireguard cfg)).
  { unfold wg_server_interface. destruct (is_empty _) eqn:Ee; [|done]. exfalso. unfold is_empty in Ee. apply String.eqb_eq in Ee.
    pose proof (plain_here cfg _ HP (wg_listed cfg Hg)) as Hpl. by rewrite Ee in Hpl. }
  destruct (src =s "wireguard") eqn:E.
  - apply String.eqb_eq in E. destruct (crosses_tunnel cfg HP s src (pk_iif p) (HB Hr Hu) E) as [_ Hi]. rewrite <- Hserver in Hi.
    assert (Hsub : forall l, (forall pf, pf ∈ l -> pf ∈ items (fw_port_forwards (c_firewall cfg))) ->
      translate (concat (map (fun rule => map (fun protocol => Rule [MIif (wg_server_interface cfg); MDport protocol [PNum (pf_external_port rule)]]
        (SDnat (pf_internal_ip rule) (pf_internal_port rule))) (port_forward_protocols (pf_protocol rule))) (List.filter pf_enabled l))) p
      = match List.find redirects l with Some pf => redirect_to p (pf_internal_ip pf) (pf_internal_port pf) | None => p end); [|by apply Hsub].
    induction l as [|pf l IH]; intros Hl; [done|]. cbn [List.filter List.find]. assert (Hpf : pf ∈ items (fw_port_forwards (c_firewall cfg))) by (apply Hl; left).
    destruct (pf_enabled pf) eqn:He.
    + cbn [map concat]. rewrite forward_lines_translate by done. destruct (redirects pf); [done|]. apply IH. intros x Hx. apply Hl. by right.
    + replace (redirects pf) with false by (unfold redirects; by rewrite He). apply IH. intros x Hx. apply Hl. by right.
  - apply String.eqb_neq in E. apply translate_unmatched, Forall_concat_map. intros pf _. rewrite Forall_map, Forall_forall. intros protocol _. cbn [unmatched forallb].
    apply andb_false_iff. left. cbn [matches]. apply not_true_iff_false. rewrite Hserver. intros Hi.
    by destruct (cross_tunnel cfg HP s src (pk_iif p) (HB Hr Hu) Hg Hi).
Qed.
End Redirect.

(** ** Agreement *)
Section Agreement.
Context {UC : Unicode} {B64 : Base64} {SH : Sha256} (cfg : SystemConfig) (HV : validate cfg = Ok tt) (HS : validate_scenario_safety cfg = Ok tt).
Context (HP : PlainlyWritten cfg).

(** A verdict of the chains the path of the packet goes through *)
Lemma verdict_agrees flow p s d (src := firewall_zone cfg (fl_source_ip flow)) (dst := firewall_zone cfg (fl_destination_ip flow)) :
  NewFlow flow p s -> parse_ip (fl_destination_ip flow) = Some d -> to4 d <> None -> canonical (fl_destination_ip flow) = true -> pk_daddr p = canon d ->
  (src <> "router" -> src <> "unknown" -> InZone cfg s src (pk_iif p)) -> (router_owns cfg (pk_daddr p) = false -> Behind cfg (pk_daddr p) (pk_oif p)) ->
  let passes := if router_owns cfg (pk_daddr p) then input_passes cfg p else forward_passes cfg p in
  (fst (fst (explain_verdict cfg flow src dst)) = "allow" -> passes = true) /\ (fst (fst (explain_verdict cfg flow src dst)) = "deny" -> passes = false).
Proof.
  intros HN Hd Hd4 Hdc Hda HZ HE passes. unfold explain_verdict. destruct (_ || _ || _) eqn:E1; [done|]. rewrite !orb_false_iff, !String.eqb_neq in E1.
  destruct E1 as ((Eu & Edu) & Er). destruct (_ && _); [done|]. destruct (src =s "wan") eqn:Ew; [done|]. apply String.eqb_neq in Ew.
  specialize (HZ Er Eu). destruct (parse_ip_ok _ _ Hd) as [Wd _]. pose proof (router_zone cfg HP d _ Hd Hdc) as Hrz. unfold passes in *. rewrite Hda in *. rewrite Hrz in *. fold dst.
  destruct (dst =s "router") eqn:Edr.
  - split; intros Hv.
    + eapply router_allowed; eassumption.
    + eapply router_denied; eassumption.
  - apply String.eqb_neq in Edr. assert (HD : InZone cfg d dst (pk_oif p)) by (apply (zone_behind cfg HV HP d Wd _ Hd); [done|done|by apply behind_canon, (HE (proj2 (String.eqb_neq _ _) Edr))]).
    destruct (explain_schedules cfg flow) as [v|] eqn:Es; (split; intros Hv).
    + by destruct (schedules_never_allow cfg flow v Es).
    + eapply resolver_denied; eassumption.
    + eapply forward_allowed; eassumption.
    + eapply forward_denied_explained; eassumption.
Qed.
End Agreement.

(** C16: What the operator is told is what the firewall does.  For an accepted
    configuration written plainly, when the explanation of a new flow between
    addresses in printed form says "allow", every packet of the flow, arriving
    on the interface its source is behind and within the rate limits, passes
    the chains of the generated ruleset, redirection included; when it says
    "deny", none does. *)
Theorem explanation_agrees {UC : Unicode} {B64 : Base64} {SH : Sha256} (cfg : SystemConfig) (flow : FirewallFlow) (now : Time) (e : FirewallExplanation) (p : Packet) :
  validate cfg = Ok tt -> validate_scenario_safety cfg = Ok tt -> PlainlyWritten cfg ->
  canonical (fl_source_ip flow) = true -> canonical (fl_destination_ip flow) = true ->
  explain_firewall_flow cfg flow now = Ok e -> Realises cfg flow p ->
  (ex_verdict e = "allow" -> firewall_passes cfg p = true) /\ (ex_verdict e = "deny" -> firewall_passes cfg p = false).
Proof.
  intros HV HS HP Hsc Hdc Hx [R4 (s & Hs & Hsa & HB) (d & Hd & Hda) Hexit Hproto Hport Hnew Hrt Hrates]. unfold explain_firewall_flow in Hx. cbv zeta in Hx.
  destruct (negb (is_ipv4_text _ && _)) eqn:E4; [done|]. apply negb_false_iff, andb_true_iff in E4 as [Es4 Ed4].
  destruct (negb (one_of _ _)) eqn:Ek; [done|]. apply negb_false_iff in Ek. destruct (_ || _) eqn:Ep; [done|].
  assert (Hs4 : to4 s <> None) by (unfold is_ipv4_text in Es4; rewrite Hs in Es4; cbn in Es4; by destruct (to4 s)).
  assert (Hd4 : to4 d <> None) by (unfold is_ipv4_text in Ed4; rewrite Hd in Ed4; cbn in Ed4; by destruct (to4 d)).
  assert (Hicmp : fl_protocol flow = "icmp" -> fl_port flow = 0).
  { intros E. rewrite E in Ep. change ("icmp" =s "icmp") with true in Ep. cbn [andb negb orb] in Ep. rewrite orb_false_r in Ep. apply negb_false_iff in Ep. by apply Z.eqb_eq. }
  destruct (parse_ip_ok _ _ Hs) as [Ws _]. set (src := firewall_zone cfg (fl_source_ip flow)) in *.
  assert (HZ : src <> "router" -> src <> "unknown" -> InZone cfg s src (pk_iif p)) by (intros Hr Hu; by apply (zone_behind cfg HV HP s Ws _ Hs)).
  destruct (explain_verdict _ _ _ _) as [[v reason] rule_id] eqn:Ev. injection Hx as <-. cbn [ex_verdict].
  destruct (decide (src = "router")) as [Er|Er]; [by rewrite Er in Ev; unfold explain_verdict in Ev; rewrite orb_true_r in Ev; injection Ev as <- _ _|].
  destruct (decide (src = "unknown")) as [Eu|Eu]; [by rewrite Eu in Ev; injection Ev as <- _ _|].
  pose proof (arriving_explained cfg HV HP flow p src s Hproto Hport Hicmp HZ Ek Er Eu) as Harr. unfold firewall_passes. cbv zeta. rewrite Harr in *.
  destruct (tunnel_redirect cfg src flow) as [pf|] eqn:Et.
  - assert (Hpf : pf ∈ items (fw_port_forwards (c_firewall cfg)) /\ redirects flow pf = true).
    { unfold tunnel_redirect in Et. destruct (src =s "wireguard"); [|done]. apply find_some in Et as [H1 H2]. split; [by apply list_elem_of_In|exact H2]. }
    destruct Hpf as [Hin Hre]. destruct (forward_accepted cfg HV HP pf Hin) as (He1 & Hi & Hpi & _).
    destruct (parse_ipv4 (pf_internal_ip pf)) as [a|] eqn:Ea; [|done].
    assert (Hne : fl_protocol flow <> "icmp").
    { intros E. unfold redirects in Hre. rewrite (Hicmp E) in Hre. apply andb_true_iff in Hre as [Hre _]. apply andb_true_iff in Hre as [_ Hre]. apply Z.eqb_eq in Hre. lia. }
    unfold parse_ipv4 in Ea. destruct (parse_ip (pf_internal_ip pf)) as [d'|] eqn:Ed'; [|done]. cbn in Ea.
    assert (Hcan : pk_daddr (redirect_to p (pf_internal_ip pf) (pf_internal_port pf)) = canon d').
    { cbn. unfold parse_ipv4. rewrite Ed'. cbn. unfold canon. by rewrite Ea. }
    assert (HN : NewFlow (redirected flow pf) (redirect_to p (pf_internal_ip pf) (pf_internal_port pf)) s) by (split; done).
    assert (Hc : canonical (pf_internal_ip pf) = true).
    { apply (named_host cfg (pf_internal_ip pf) HP). unfold named_hosts. rewrite !elem_of_app. do 4 right. apply list_elem_of_In, in_map. by apply list_elem_of_In. }
    pose proof (verdict_agrees cfg HV HS HP (redirected flow pf) _ s d' HN Ed' ltac:(by rewrite Ea) Hc Hcan HZ Hexit) as H. cbn [fl_destination_ip fl_source_ip redirected] in H, Ev.
    fold src in H. rewrite Ev in H. exact H.
  - assert (HN : NewFlow flow p s) by (split; done).
    pose proof (verdict_agrees cfg HV HS HP flow p s d HN Hd Hd4 Hdc Hda HZ Hexit) as H. fold src in H. rewrite Ev in H. exact H.
Qed.
