(* ===== verification/Helper.v ===== *)
(** * router-applyd: the privileged helper

    [mr-applyd/src/applyd/mod.rs] (request processing, apply, confirmation and
    commit), [state.rs] (last-good, pending confirmation, the transaction
    journal) and the decisions of [runtime.rs] that are not commands.

    A durable file is its last content: missing, unreadable, or a value; a write
    goes through [atomic_write], which fails leaving either the old or, when only
    the final directory sync failed, the new content.  Encoding a value to JSON
    and decoding it again is not modelled.  The commands that act on the machine
    ([preflight], [install_and_activate], [verify_active], those of [rollback],
    ...), the SHA-256 fingerprints and the remaining generators are a class over a host
    [R].  The mutex around the journal makes one request one transition. *)

From Stdlib Require Import ZArith Ascii String Lia Bool.
From stdpp Require Import base list strings gmap.
From S2P Require Import Prelude GoStrings Net GoTime Json Model Validation Policy Ipc Engine.

Local Open Scope string_scope.
Local Open Scope Z_scope.
Local Open Scope list_scope.

(** ** [derive(PartialEq)] on the sections the helper compares *)
Class PEq (A : Type) := peq : A -> A -> bool.
#[export] Instance string_peq : PEq string := String.eqb.
#[export] Instance Z_peq : PEq Z := Z.eqb.
#[export] Instance bool_peq : PEq bool := Bool.eqb.
#[export] Instance pair_peq {A B} `{PEq A, PEq B} : PEq (A * B) := fun a b => peq (fst a) (fst b) && peq (snd a) (snd b).
Fixpoint list_eq {A} `{PEq A} (a b : list A) : bool :=
  match a, b with
  | [], [] => true
  | x :: a', y :: b' => peq x y && list_eq a' b'
  | _, _ => false
  end.
#[export] Instance list_peq {A} `{PEq A} : PEq (list A) := list_eq.
(** [impl PartialEq for List<T>] *)
Definition GoList_eq {A} `{PEq A} (a b : GoList A) : bool :=
  Bool.eqb (list_is_nil a) (list_is_nil b) && peq (items a) (items b).
#[export] Instance GoList_peq {A} `{PEq A} : PEq (GoList A) := GoList_eq.

Definition WANSettings_eq (a b : WANSettings) : bool :=
  peq (wan_interface a) (wan_interface b) && peq (wan_enabled a) (wan_enabled b)
    && peq (wan_username a) (wan_username b) && peq (wan_password a) (wan_password b)
    && peq (wan_mtu a) (wan_mtu b).
#[export] Instance WANSettings_peq : PEq WANSettings := WANSettings_eq.

Definition WireGuardPeer_eq (a b : WireGuardPeer) : bool :=
  peq (peer_id a) (peer_id b) && peq (peer_name a) (peer_name b)
    && peq (peer_public_key a) (peer_public_key b) && peq (peer_preshared_key a) (peer_preshared_key b)
    && peq (peer_allowed_ips a) (peer_allowed_ips b) && peq (peer_endpoint a) (peer_endpoint b)
    && peq (peer_enabled a) (peer_enabled b).
#[export] Instance WireGuardPeer_peq : PEq WireGuardPeer := WireGuardPeer_eq.

Definition WireGuardConfig_eq (a b : WireGuardConfig) : bool :=
  peq (wg_enabled a) (wg_enabled b) && peq (wg_interface a) (wg_interface b)
    && peq (wg_private_key a) (wg_private_key b) && peq (wg_listen_port a) (wg_listen_port b)
    && peq (wg_address a) (wg_address b) && peq (wg_peers a) (wg_peers b).
#[export] Instance WireGuardConfig_peq : PEq WireGuardConfig := WireGuardConfig_eq.

Definition ExtraLANConfig_eq (a b : ExtraLANConfig) : bool :=
  peq (xl_id a) (xl_id b) && peq (xl_name a) (xl_name b)
    && peq (xl_interface a) (xl_interface b) && peq (xl_cidr a) (xl_cidr b)
    && peq (xl_router_address a) (xl_router_address b) && peq (xl_dst_ip a) (xl_dst_ip b)
    && peq (xl_dst_port a) (xl_dst_port b) && peq (xl_protocol a) (xl_protocol b)
    && peq (xl_allow_from a) (xl_allow_from b) && peq (xl_enabled a) (xl_enabled b).
#[export] Instance ExtraLANConfig_peq : PEq ExtraLANConfig := ExtraLANConfig_eq.

Definition WiFiConfig_eq (a b : WiFiConfig) : bool :=
  peq (wifi_enabled a) (wifi_enabled b) && peq (wifi_interface a) (wifi_interface b)
    && peq (wifi_ssid a) (wifi_ssid b) && peq (wifi_passphrase a) (wifi_passphrase b)
    && peq (wifi_band a) (wifi_band b) && peq (wifi_channel a) (wifi_channel b)
    && peq (wifi_hide_ssid a) (wifi_hide_ssid b).
#[export] Instance WiFiConfig_peq : PEq WiFiConfig := WiFiConfig_eq.

Definition CloudflareConfig_eq (a b : CloudflareConfig) : bool :=
  peq (cf_ddns_enabled a) (cf_ddns_enabled b) && peq (cf_ddns_provider a) (cf_ddns_provider b)
    && peq (cf_ddns_user a) (cf_ddns_user b) && peq (cf_api_token a) (cf_api_token b)
    && peq (cf_zone_id a) (cf_zone_id b) && peq (cf_zone_name a) (cf_zone_name b)
    && peq (cf_domain a) (cf_domain b) && peq (cf_tunnel_enabled a) (cf_tunnel_enabled b)
    && peq (cf_tunnel_hostname a) (cf_tunnel_hostname b) && peq (cf_tunnel_token a) (cf_tunnel_token b).
#[export] Instance CloudflareConfig_peq : PEq CloudflareConfig := CloudflareConfig_eq.

Definition RestrictedIPItem_eq (a b : RestrictedIPItem) : bool :=
  peq (ri_hostname a) (ri_hostname b) && peq (ri_ip_address a) (ri_ip_address b)
    && peq (ri_enabled a) (ri_enabled b).
#[export] Instance RestrictedIPItem_peq : PEq RestrictedIPItem := RestrictedIPItem_eq.

Definition SquidProxyConfig_eq (a b : SquidProxyConfig) : bool :=
  peq (squid_enabled a) (squid_enabled b) && peq (squid_port a) (squid_port b)
    && peq (squid_username a) (squid_username b) && peq (squid_password a) (squid_password b)
    && peq (squid_restricted_ips a) (squid_restricted_ips b).
#[export] Instance SquidProxyConfig_peq : PEq SquidProxyConfig := SquidProxyConfig_eq.

Definition WGClientConfig_eq (a b : WGClientConfig) : bool :=
  peq (wgc_enabled a) (wgc_enabled b) && peq (wgc_interface a) (wgc_interface b)
    && peq (wgc_private_key a) (wgc_private_key b) && peq (wgc_address a) (wgc_address b)
    && peq (wgc_public_key a) (wgc_public_key b) && peq (wgc_preshared_key a) (wgc_preshared_key b)
    && peq (wgc_endpoint a) (wgc_endpoint b) && peq (wgc_allowed_ips a) (wgc_allowed_ips b)
    && peq (wgc_persistent_keepalive a) (wgc_persistent_keepalive b).
#[export] Instance WGClientConfig_peq : PEq WGClientConfig := WGClientConfig_eq.

Definition AccessWindow_eq (a b : AccessWindow) : bool :=
  peq (aw_start a) (aw_start b) && peq (aw_end a) (aw_end b).
#[export] Instance AccessWindow_peq : PEq AccessWindow := AccessWindow_eq.

Definition WeeklyAccessSchedule_eq (a b : WeeklyAccessSchedule) : bool :=
  peq (sched_day_windows a) (sched_day_windows b) && peq (sched_weekday_windows a) (sched_weekday_windows b)
    && peq (sched_weekend_mode a) (sched_weekend_mode b) && peq (sched_weekend_windows a) (sched_weekend_windows b).
#[export] Instance WeeklyAccessSchedule_peq : PEq WeeklyAccessSchedule := WeeklyAccessSchedule_eq.

Definition DeviceProfile_eq (a b : DeviceProfile) : bool :=
  peq (dp_id a) (dp_id b) && peq (dp_name a) (dp_name b)
    && peq (dp_ip_addresses a) (dp_ip_addresses b) && peq (dp_services a) (dp_services b)
    && peq (dp_schedule a) (dp_schedule b) && peq (dp_enabled a) (dp_enabled b).
#[export] Instance DeviceProfile_peq : PEq DeviceProfile := DeviceProfile_eq.

Definition FilterDeviceRule_eq (a b : FilterDeviceRule) : bool :=
  peq (fd_id a) (fd_id b) && peq (fd_hostname a) (fd_hostname b)
    && peq (fd_ip_address a) (fd_ip_address b) && peq (fd_blocked_services a) (fd_blocked_services b)
    && peq (fd_enabled a) (fd_enabled b).
#[export] Instance FilterDeviceRule_peq : PEq FilterDeviceRule := FilterDeviceRule_eq.

Definition DNSFilterConfig_eq (a b : DNSFilterConfig) : bool :=
  peq (df_enabled a) (df_enabled b) && peq (df_blocklist_url a) (df_blocklist_url b)
    && peq (df_last_updated a) (df_last_updated b) && peq (df_filter_devices a) (df_filter_devices b)
    && peq (df_device_profiles a) (df_device_profiles b).
#[export] Instance DNSFilterConfig_peq : PEq DNSFilterConfig := DNSFilterConfig_eq.

(** ** Verification scope *)
Record VerificationPlan := mkPlan {
  pl_wan : bool; pl_wireguard : bool; pl_extra_lan : bool; pl_wifi : bool; pl_ddns : bool; pl_squid : bool;
  pl_wg_client : bool;
}.

Definition verification_plan (operation : string) (previous : option SystemConfig) (candidate : SystemConfig)
  : VerificationPlan :=
  let wireguard := wg_enabled (c_wireguard candidate)
                   && (sys_management_access (c_system candidate) =s "wireguard_only") in
  if (operation =s op_reconcile) || (operation =s op_commit_confirmed) || (operation =s op_confirm) then
    mkPlan false wireguard false false false false false
  else
    match previous with
    | None =>
        mkPlan (wan_enabled (c_wan candidate)) (wg_enabled (c_wireguard candidate))
          (negb (list_is_empty (fw_extra_lans (c_firewall candidate)))) (wifi_enabled (c_wifi candidate))
          (cf_ddns_enabled (c_cloudflare candidate)) (squid_enabled (c_squid_proxy candidate))
          (wgc_enabled (c_wg_client candidate))
    | Some p =>
        mkPlan (wan_enabled (c_wan candidate) && negb (peq (c_wan candidate) (c_wan p)))
          (wireguard || negb (peq (c_wireguard candidate) (c_wireguard p)))
          (negb (peq (fw_extra_lans (c_firewall candidate)) (fw_extra_lans (c_firewall p))))
          (negb (peq (c_wifi candidate) (c_wifi p))) (negb (peq (c_cloudflare candidate) (c_cloudflare p)))
          (negb (peq (c_squid_proxy candidate) (c_squid_proxy p)))
          (negb (peq (c_wg_client candidate) (c_wg_client p)))
    end.

Definition requires_functional_dns_verification (previous : option SystemConfig) (candidate : SystemConfig) : bool :=
  if negb (wan_enabled (c_wan candidate)) then false
  else
    match previous with
    | None => true
    | Some p =>
        negb (peq (c_wan p) (c_wan candidate))
        || negb (peq (dhcp_dns_servers (c_dhcp p)) (dhcp_dns_servers (c_dhcp candidate)))
        || negb (peq (c_adguard p) (c_adguard candidate))
        || (sys_domain (c_system p) <>s sys_domain (c_system candidate))
    end.

Definition requires_ddns_verification (previous : option SystemConfig) (candidate : SystemConfig) : bool :=
  if negb (wan_enabled (c_wan candidate)) || negb (cf_ddns_enabled (c_cloudflare candidate)) then false
  else match previous with None => true | Some p => negb (peq (c_cloudflare p) (c_cloudflare candidate)) end.

Definition reject_unimplemented_features (cfg : SystemConfig) : result unit error :=
  if cf_tunnel_enabled (c_cloudflare cfg) then
    Err (Errorf "Cloudflare Tunnel is unavailable because WireGuard is the only allowed remote-entry path")
  else if dhcp_dns_enabled (c_dhcp cfg) then
    Err (Errorf "DNS-over-HTTPS has no verified Alpine 3.22 runtime adapter")
  else if negb (list_is_empty (df_filter_devices (c_adguard cfg))) then
    Err (Errorf "per-device DNS filtering is unsupported because dnsmasq address rules are global")
  else Ok tt.

(** ** Records *)
Record TransactionRecord := mkRecord {
  tr_id : string;
  tr_config_hash : string;
  tr_response : ApplyResponse;
  tr_started_at : Time;
  tr_completed_at : Time;
}.
Record PendingConfirmation := mkPendingConfirmation {
  pc_config_hash : string;
  pc_config : SystemConfig;
  pc_handshake_not_before : Z;
  pc_wg_client_changed : bool;
}.

(** [ApplyResponse::default()] *)
Definition empty_response : ApplyResponse :=
  mkApplyResponse EmptyString false EmptyString EmptyString false false false 0 None None.
Definition failure (id message : string) (rolled_back : bool) : ApplyResponse :=
  mkApplyResponse id false message EmptyString false rolled_back false 0 None None.
Definition recovery_failure (id message : string) : ApplyResponse :=
  mkApplyResponse id false message EmptyString false false true 0 None None.
Definition success_response (id logs : string) : ApplyResponse :=
  mkApplyResponse id true EmptyString logs true false false 0 None None.

Definition time_is_zero (t : Time) : bool := time_eqb t time_zero.

(** [^[A-Za-z0-9][A-Za-z0-9._:-]{0,127}$] *)
Definition TRANSACTION_ID_PATTERN (s : string) : bool :=
  head_tail_pattern is_ascii_alphanumeric (alnum_or ["."%char; "_"%char; ":"%char; "-"%char]) 127 (bytes_of s).

(** [hex::decode(s)] has 32 bytes *)
Definition is_fingerprint (s : string) : bool :=
  Nat.eqb (List.length (bytes_of s)) 64 && forallb (fun a => negb (is_none (hex_val a))) (bytes_of s).

Definition validate_transaction_record (r : TransactionRecord) : result unit error :=
  let resp := tr_response r in
  if negb (TRANSACTION_ID_PATTERN (tr_id r)) then Err (Errorf "transaction record has an invalid ID")
  else if negb (is_fingerprint (tr_config_hash r)) then
    Err (Errorf "transaction record has an invalid configuration fingerprint")
  else if time_is_zero (tr_started_at r) then Err (Errorf "transaction record has no start time")
  else if time_is_zero (tr_completed_at r) then
    if negb (is_empty (resp_id resp)) || resp_success resp || resp_verified resp || resp_rolled_back resp
       || resp_recovery_required resp || negb (is_empty (resp_error resp))
    then Err (Errorf "incomplete transaction record contains a final response")
    else Ok tt
  else if time_before (tr_completed_at r) (tr_started_at r) then
    Err (Errorf "transaction record completion precedes start")
  else if resp_id resp <>s tr_id r then Err (Errorf "transaction record response ID does not match")
  else map_err (Wrapf "transaction record response is invalid") (response_validate resp).

Definition journal_persistence_failure (id : string) (previous : ApplyResponse) : ApplyResponse :=
  recovery_failure id
    (if resp_rolled_back previous && negb (resp_recovery_required previous)
     then "transaction result could not be persisted; previous runtime was restored but durable idempotency is unavailable and canonical reconciliation is required"
     else "transaction result could not be persisted; durable idempotency is unavailable and canonical reconciliation is required").

(** Why a file could not be loaded ([is_not_found]) *)
Inductive load_error := NotFound | Unreadable.

Definition replay_transaction_response (id config_hash : string) (previous : option TransactionRecord)
  (load_err : option load_error) (canonical_reconcile : bool) : option ApplyResponse :=
  match load_err with
  | Some err =>
      if (match err with NotFound => true | Unreadable => false end) || canonical_reconcile then None
      else Some (recovery_failure id "transaction journal could not be read; canonical reconciliation is required")
  | None =>
      match previous with
      | None =>
          if canonical_reconcile then None
          else Some (recovery_failure id
                       "transaction journal returned no record; canonical reconciliation is required")
      | Some previous =>
          if tr_id previous <>s id then
            let unresolved :=
              time_is_zero (tr_completed_at previous) || resp_recovery_required (tr_response previous) in
            if unresolved && negb canonical_reconcile then
              Some (recovery_failure id
                      "a previous privileged transaction remains unresolved; canonical reconciliation is required")
            else None
          else if tr_config_hash previous <>s config_hash then
            Some (failure id "transaction ID was already used for different content" false)
          else if time_is_zero (tr_completed_at previous) then
            Some (recovery_failure id
                    "privileged transaction outcome is incomplete; canonical reconciliation is required")
          else Some (tr_response previous)
      end
  end.

Definition pending_load_failure (id : string) (err : load_error) : ApplyResponse :=
  match err with
  | NotFound => failure id "no configuration is awaiting confirmation" false
  | Unreadable =>
      recovery_failure id "pending confirmation state could not be read; canonical reconciliation is required"
  end.

(** ** Confirmation mode *)
Definition confirmation_mode_allowed (previous : option SystemConfig) (candidate : SystemConfig) : bool :=
  match previous with
  | Some prev =>
      if lan_interface (c_lan prev) =s lan_interface (c_lan candidate) then requires_confirmation prev candidate
      else false
  | None => false
  end.

Definition validate_confirmation_request (req : ApplyRequest) (previous : option SystemConfig) : result unit error :=
  if req_require_confirmation req then
    if (req_op req <>s op_apply_all) || req_defer_last_good req
       || negb (confirmation_mode_allowed previous (req_config req))
    then Err (Errorf "confirmation mode is invalid for this change")
    else Ok tt
  else if (req_op req =s op_apply_all) && some_and (fun p => requires_confirmation p (req_config req)) previous then
    Err (Errorf "this change requires confirmation")
  else Ok tt.

(** ** Artifacts *)
Record Artifact := mkArtifact { art_path : string; art_data : string; art_mode : Z }.
(** The [BTreeMap] as an association list *)
Abbreviation Artifacts := (list (string * Artifact)).
Definition artifact_data (l : Artifacts) (name : string) : option string :=
  art_data <$> (snd <$> List.find (fun p => fst p =s name) l).

(** [generated[name]] panics on a missing name; every name is present. *)
Definition compare_generated (req : ApplyRequest) (generated : Artifacts) : result unit error :=
  fold_left (fun acc p =>
    let? _ := acc in
    if bool_decide (artifact_data generated (fst p) = Some (snd p)) then Ok tt
    else Err (Errorf (fst p +:+ " differs")))
    [("nftables", req_nftables req); ("pppoe", req_pppoe_peer req); ("chap", req_pppoe_secret req);
     ("dnsmasq", req_dnsmasq req); ("hostapd", req_hostapd req); ("wireguard", req_wireguard req)] (Ok tt).

(** ** The host *)

(** The outcome of [atomic_write] and of [clear_file_durably]: done; failed
    with the old content; failed after the new content became visible *)
Inductive write_outcome := Written | WriteFailed | WrittenUnsynced.
Inductive clear_outcome := Cleared | ClearFailed | ClearedUnsynced (err : load_error).

(** The files of the helper *)
Inductive file (A : Type) := Missing | Broken | Present (a : A).
Arguments Missing {A}.
Arguments Broken {A}.
Arguments Present {A} a.

Record Disk := mkDisk {
  d_last_good : file SystemConfig;
  d_journal : file TransactionRecord;
  d_pending : file PendingConfirmation;
}.
Record Helper (R : Type) := mkHelper { h_memory : option TransactionRecord; h_disk : Disk; h_host : R }.
Arguments mkHelper {R} h_memory h_disk h_host.
Arguments h_memory {R} h.
Arguments h_disk {R} h.
Arguments h_host {R} h.

(** The remaining generators and the machine.  [captured] is what
    [capture_previous] remembers. *)
Class Host (R : Type) := {
  fingerprint_request : ApplyRequest -> string;
  fingerprint_config : SystemConfig -> string;
  safe_error : error -> string;
  generate_wireguard_runtime : WireGuardConfig -> result string error;
  generate_wireguard_client_runtime : WGClientConfig -> result string error;
  generate_squid_config : SystemConfig -> result string error;
  generate_ad_block_conf : SystemConfig -> result string error;
  generate_qos : SystemConfig -> result string error;
  generate_cloudflare_ddns : SystemConfig -> result string error;
  generate_cloudflare_tunnel : SystemConfig -> result string error;
  generate_doh_proxy : SystemConfig -> result string error;
  bcrypt_hash : string -> R -> result string error * R;
  captured : Type;
  write_result : R -> write_outcome * R;
  clear_result : R -> clear_outcome * R;
  read_faulty : R -> bool * R;
  host_now : R -> Time * R;
  write_candidate_files : Artifacts -> R -> result unit string * R;
  preflight : SystemConfig -> VerificationPlan -> R -> result unit error * R;
  capture_previous : Artifacts -> R -> result captured error * R;
  install_and_activate : SystemConfig -> Artifacts -> option SystemConfig -> bool -> R -> result unit error * R;
  verify_active : SystemConfig -> VerificationPlan -> R -> result unit error * R;
  verify_functional_dns : R -> result unit error * R;
  verify_ddns_update : R -> result unit error * R;
  restore_previous : option SystemConfig -> option SystemConfig -> captured -> R -> result unit error * R;
  restore_first_run_runtime : R -> result unit error * R;
  configure_runtime_lan : SystemConfig -> R -> result unit error * R;
  wg_show_dump : string -> R -> result string error * R;
  firewall_counters : ApplyRequest -> R -> ApplyResponse * R;
}.

(** ** Tunnel status ([actions.rs]) *)

Definition number_or_zero (s : string) : Z := default 0 (go_atoi s).

Fixpoint tunnel_from_lines (iface : string) (lines : list string) : TunnelStatus :=
  match lines with
  | [] => mkTunnelStatus iface EmptyString 0 0 0 []
  | line :: rest =>
      let f := split_whitespace line in
      let field i := nth i f EmptyString in
      if Nat.ltb (List.length f) 8 || (field 0%nat =s "interface") then tunnel_from_lines iface rest
      else
        mkTunnelStatus iface (field 2%nat) (number_or_zero (field 4%nat)) (number_or_zero (field 5%nat))
          (number_or_zero (field 6%nat)) []
  end.
Definition parse_wg_tunnel_status (iface dump : string) : TunnelStatus :=
  tunnel_from_lines iface (split "010"%char dump).

(** A handler of the helper *)
Definition HM (R A : Type) : Type := Helper R -> A * Helper R.
Definition hret {R A} (a : A) : HM R A := fun h => (a, h).
Definition hbind {R A B} (m : HM R A) (k : A -> HM R B) : HM R B := fun h => let '(a, h') := m h in k a h'.
Notation "'let+' x ':=' m 'in' k" := (hbind m (fun x => k))
  (at level 10, x pattern, m at level 100, k at level 200) : mr_scope.
Definition host {R A} (f : R -> A * R) : HM R A :=
  fun h => let '(a, r) := f (h_host h) in (a, mkHelper (h_memory h) (h_disk h) r).
Definition get_disk {R} : HM R Disk := fun h => (h_disk h, h).
Definition set_disk {R} (d : Disk) : HM R unit := fun h => (tt, mkHelper (h_memory h) d (h_host h)).
Definition get_memory {R} : HM R (option TransactionRecord) := fun h => (h_memory h, h).
Definition set_memory {R} (m : option TransactionRecord) : HM R unit := fun h => (tt, mkHelper m (h_disk h) (h_host h)).

Definition with_last_good (d : Disk) (f : file SystemConfig) : Disk := mkDisk f (d_journal d) (d_pending d).
Definition with_journal (d : Disk) (f : file TransactionRecord) : Disk := mkDisk (d_last_good d) f (d_pending d).
Definition with_pending (d : Disk) (f : file PendingConfirmation) : Disk := mkDisk (d_last_good d) (d_journal d) f.

Section Helper.
Context {UC : Unicode} {B64 : Base64} {G : Generators} {R : Type} {H : Host R}.

(** ** Files *)

(** [atomic_write] of a file that [put] replaces *)
Definition atomic_write (put : Disk -> Disk) : HM R (result unit error) :=
  let+ o := host write_result in
  let+ d := get_disk in
  match o with
  | Written => let+ _ := set_disk (put d) in hret (Ok tt)
  | WriteFailed => hret (Err (Errorf "write failed"))
  | WrittenUnsynced => let+ _ := set_disk (put d) in hret (Err (Errorf "directory sync failed"))
  end.

(** [std::fs::read] and the decoder *)
Definition read_file {A} (get : Disk -> file A) : HM R (result A load_error) :=
  let+ faulty := host read_faulty in
  let+ d := get_disk in
  hret (if faulty then Err Unreadable
        else match get d with Missing => Err NotFound | Broken => Err Unreadable | Present a => Ok a end).

Definition load_last_good_raw : HM R (result SystemConfig load_error) :=
  let+ r := read_file d_last_good in
  hret (let? cfg := r in Ok (migrate_legacy_fields cfg)).

Definition normalize_last_good (loaded : result SystemConfig load_error) : result (option SystemConfig) error :=
  match loaded with
  | Ok cfg => Ok (Some cfg)
  | Err NotFound => Ok None
  | Err Unreadable => Err (Errorf "read last-good configuration")
  end.

Definition save_last_good (cfg : SystemConfig) : HM R (result unit error) :=
  match validate cfg with
  | Err e => hret (Err (Wrapf "invalid last-good configuration" (EValidation e)))
  | Ok _ => atomic_write (fun d => with_last_good d (Present cfg))
  end.

Definition load_last_transaction : HM R (result TransactionRecord load_error) :=
  let+ r := read_file d_journal in
  hret (let? record := r in
        match validate_transaction_record record with Ok _ => Ok record | Err _ => Err Unreadable end).

Definition save_last_transaction (record : TransactionRecord) : HM R (result unit error) :=
  match validate_transaction_record record with
  | Err e => hret (Err e)
  | Ok _ => atomic_write (fun d => with_journal d (Present record))
  end.

Definition validate_pending_confirmation (p : PendingConfirmation) : result unit error :=
  if pc_handshake_not_before p <=? 0 then Err (Errorf "pending configuration activation timestamp is missing")
  else
    let? _ := map_err (fun e => Wrapf "pending configuration is invalid" (EValidation e)) (validate (pc_config p)) in
    if is_empty (pc_config_hash p) || (pc_config_hash p <>s fingerprint_config (pc_config p)) then
      Err (Errorf "pending configuration fingerprint does not match")
    else Ok tt.

Definition save_pending_confirmation (p : PendingConfirmation) : HM R (result unit error) :=
  match validate_pending_confirmation p with
  | Err e => hret (Err e)
  | Ok _ => atomic_write (fun d => with_pending d (Present p))
  end.

Definition load_pending_confirmation : HM R (result PendingConfirmation load_error) :=
  let+ r := read_file d_pending in
  hret (let? p := r in match validate_pending_confirmation p with Ok _ => Ok p | Err _ => Err Unreadable end).

Definition clear_pending_confirmation : HM R (result unit load_error) :=
  let+ o := host clear_result in
  let+ d := get_disk in
  match o with
  | Cleared => let+ _ := set_disk (with_pending d Missing) in hret (Ok tt)
  | ClearFailed => hret (Err Unreadable)
  | ClearedUnsynced err => let+ _ := set_disk (with_pending d Missing) in hret (Err err)
  end.

(** ** Artifacts *)
Definition generate_artifacts (cfg : SystemConfig) : HM R (result Artifacts error) :=
  let pure {A} (r : result A error) (k : A -> HM R (result Artifacts error)) : HM R (result Artifacts error) :=
    match r with Ok a => k a | Err e => hret (Err e) end in
  pure (generate_nftables cfg) (fun nft =>
  pure (generate_pppoe cfg) (fun pppoe =>
  pure (generate_dnsmasq cfg) (fun dnsmasq =>
  pure (generate_hostapd cfg) (fun hostapd =>
  pure (generate_wireguard (c_wireguard cfg)) (fun wireguard =>
  pure (generate_wireguard_runtime (c_wireguard cfg)) (fun wireguard_runtime =>
  pure (if wgc_enabled (c_wg_client cfg) then generate_wireguard_client_runtime (c_wg_client cfg)
        else Ok ("# WireGuard client disabled" +:+ String "010" EmptyString)) (fun wireguard_client_runtime =>
  pure (generate_squid_config cfg) (fun squid_config =>
  let+ squid_password :=
    (if squid_enabled (c_squid_proxy cfg) then
       let+ hash := host (bcrypt_hash (squid_password (c_squid_proxy cfg))) in
       hret (let? h := hash in
             Ok (squid_username (c_squid_proxy cfg) +:+ ":" +:+ h +:+ String "010" EmptyString))
     else hret (Ok ("# Squid authentication is disabled" +:+ String "010" EmptyString))) in
  pure squid_password (fun squid_password =>
  pure (if df_enabled (c_adguard cfg) then map_err (Wrapf "adguard") (generate_ad_block_conf cfg)
        else Ok ("# AdGuard disabled" +:+ String "010" EmptyString)) (fun adblock =>
  pure (map_err (Wrapf "qos") (generate_qos cfg)) (fun qos =>
  pure (map_err (Wrapf "cloudflare ddns") (generate_cloudflare_ddns cfg)) (fun ddns =>
  pure (map_err (Wrapf "cloudflare tunnel") (generate_cloudflare_tunnel cfg)) (fun tunnel =>
  pure (map_err (Wrapf "doh proxy") (generate_doh_proxy cfg)) (fun doh =>
  hret (Ok
    [("nftables", mkArtifact "/run/minimalrouter/nftables.nft" nft 384);
     ("pppoe", mkArtifact "/etc/ppp/peers/wan" (peer_config pppoe) 384);
     ("chap", mkArtifact "/etc/ppp/chap-secrets" (chap_secrets pppoe) 384);
     ("pap", mkArtifact "/etc/ppp/pap-secrets" (pap_secrets pppoe) 384);
     ("dnsmasq", mkArtifact "/etc/dnsmasq.d/minimalrouter.conf" dnsmasq 416);
     ("adblock", mkArtifact "/etc/dnsmasq.d/adblock_hosts.conf" adblock 416);
     ("qos", mkArtifact "/etc/minimalrouter/qos.plan" qos 384);
     ("cf-ddns", mkArtifact "/etc/inadyn/inadyn.conf" ddns 416);
     ("cf-tunnel", mkArtifact "/etc/cloudflared/config.yml" tunnel 384);
     ("doh-proxy", mkArtifact "/etc/cloudflared/doh-proxy.yml" doh 384);
     ("hostapd", mkArtifact "/etc/hostapd/hostapd.conf" hostapd 384);
     ("wireguard", mkArtifact "/run/minimalrouter/wg0.conf" wireguard 384);
     ("wireguard-runtime", mkArtifact "/run/minimalrouter/wg0.runtime.conf" wireguard_runtime 384);
     ("wireguard-client-runtime", mkArtifact "/run/minimalrouter/wg1.runtime.conf" wireguard_client_runtime 384);
     ("squid", mkArtifact "/etc/squid/squid.conf" squid_config 420);
     ("squid-passwd", mkArtifact "/etc/squid/passwd" squid_password 416);
     ("resolv-conf", mkArtifact "/etc/resolv.conf" ("nameserver 127.0.0.1" +:+ String "010" EmptyString) 420)])
  )))))))))))))).

(** ** [rollback]

    [restore_previous] is its commands, down to [if !errs.is_empty()]; then the
    restored runtime is verified, and nothing stays pending. *)
Definition rollback (previous candidate : option SystemConfig) (files : captured) : HM R (result unit error) :=
  let+ restored := host (restore_previous previous candidate files) in
  match restored with
  | Err e => hret (Err e)
  | Ok _ =>
      let+ verified :=
        (match previous with
         | Some prev => host (verify_active prev (verification_plan op_reconcile None prev))
         | None => host restore_first_run_runtime
         end) in
      match verified with
      | Err e => hret (Err e)
      | Ok _ =>
          let+ cleared := clear_pending_confirmation in
          hret (match cleared with
                | Ok _ => Ok tt
                | Err _ => Err (Errorf "clear pending state after verified rollback")
                end)
      end
  end.

(** ** [apply_all] *)

(** The end of [apply_all]: the runtime is verified; persist what it is. *)
Definition persist_applied (req : ApplyRequest) (previous : option SystemConfig) (previous_files : captured)
  (handshake_not_before : Z) : HM R ApplyResponse :=
  let cfg := req_config req in
  let done := hret (success_response (req_id req) "validated, preflighted, applied, and verified") in
  if req_require_confirmation req || req_defer_last_good req then
    let+ saved := save_pending_confirmation
      (mkPendingConfirmation (fingerprint_config cfg) cfg handshake_not_before
         (match previous with None => true | Some p => negb (peq (c_wg_client p) (c_wg_client cfg)) end)) in
    match saved with
    | Ok _ => done
    | Err _ =>
        let+ r := rollback previous (Some cfg) previous_files in
        hret (match r with
              | Err _ => recovery_failure (req_id req) "could not persist pending state and rollback failed"
              | Ok _ => failure (req_id req) "could not persist pending confirmation state" true
              end)
    end
  else
    let+ saved := save_last_good cfg in
    match saved with
    | Err _ =>
        let+ r := rollback previous (Some cfg) previous_files in
        hret (match r with
              | Err _ => recovery_failure (req_id req) "could not persist last-good state and rollback failed"
              | Ok _ => failure (req_id req) "could not persist last-good state; previous configuration restored" true
              end)
    | Ok _ =>
        let+ cleared := clear_pending_confirmation in
        match cleared with
        | Err Unreadable =>
            hret (recovery_failure (req_id req)
                    "last-good saved but pending state could not be cleared; canonical reconciliation is required")
        | _ => done
        end
    end.

(** The closure [roll_back] *)
Definition roll_back (req : ApplyRequest) (previous : option SystemConfig) (previous_files : captured)
  (stage : string) (err : error) : HM R ApplyResponse :=
  let+ r := rollback previous (Some (req_config req)) previous_files in
  hret (match r with
        | Err _ => recovery_failure (req_id req) (stage +:+ " failed and rollback could not be verified")
        | Ok _ => failure (req_id req) (stage +:+ " failed; previous configuration restored: " +:+ safe_error err) true
        end).

(** From the activation on *)
Definition activate_runtime (req : ApplyRequest) (generated : Artifacts) (previous : option SystemConfig)
  (previous_files : captured) (plan : VerificationPlan) : HM R ApplyResponse :=
  let cfg := req_config req in
  let undo := roll_back req previous previous_files in
  let skip : HM R (result unit error) := hret (Ok tt) in
  let+ now := host host_now in
  let handshake_not_before := time_unix now in
  let+ activated := host (install_and_activate cfg generated previous (req_require_confirmation req)) in
  match activated with
  | Err err => undo "apply" err
  | Ok _ =>
      let+ verified := host (verify_active cfg plan) in
      match verified with
      | Err err => undo "verification" err
      | Ok _ =>
          let+ dns := (if requires_functional_dns_verification previous cfg then host verify_functional_dns else skip) in
          match dns with
          | Err err => undo "functional DNS verification" err
          | Ok _ =>
              let+ ddns := (if requires_ddns_verification previous cfg then host verify_ddns_update else skip) in
              match ddns with
              | Err err => undo "dynamic DNS verification" err
              | Ok _ => persist_applied req previous previous_files handshake_not_before
              end
          end
      end
  end.

Definition apply_all (req : ApplyRequest) : HM R ApplyResponse :=
  let cfg := req_config req in
  let refuse message := hret (failure (req_id req) message false) in
  let+ loaded := load_last_good_raw in
  match normalize_last_good loaded with
  | Err _ =>
      hret (recovery_failure (req_id req)
              "last-good configuration could not be read; canonical reconciliation is required")
  | Ok previous =>
      match validate_live_candidate cfg previous with
      | Err _ => refuse "privileged validation rejected configuration"
      | Ok _ =>
          match validate_confirmation_request req previous with
          | Err err => refuse (error_string err)
          | Ok _ =>
              let+ generated := generate_artifacts cfg in
              match generated with
              | Err _ => refuse "configuration generation failed"
              | Ok generated =>
                  match compare_generated req generated with
                  | Err _ => refuse "candidate mismatch across trust boundary"
                  | Ok _ =>
                      match reject_unimplemented_features cfg with
                      | Err err => refuse (error_string err)
                      | Ok _ =>
                          let+ written := host (write_candidate_files generated) in
                          match written with
                          | Err message => refuse message
                          | Ok _ =>
                              let plan := verification_plan (req_op req) previous cfg in
                              let+ checked := host (preflight cfg plan) in
                              match checked with
                              | Err err => refuse ("component preflight failed: " +:+ safe_error err)
                              | Ok _ =>
                                  let+ files := host (capture_previous generated) in
                                  match files with
                                  | Err _ => refuse "could not capture previous artifacts"
                                  | Ok files => activate_runtime req generated previous files plan
                                  end
                              end
                          end
                      end
                  end
              end
          end
      end
  end.

(** ** Confirmation and commit *)
Definition verify_tunnel_handshake (interface : string) (keepalive : Z) (not_before : option Z)
  : HM R (result unit error) :=
  let iface := if is_empty interface then "wg1" else interface in
  let+ out := host (wg_show_dump iface) in
  match out with
  | Err e => hret (Err (Wrapf "WireGuard client interface unavailable" e))
  | Ok out =>
      let+ now := host host_now in
      hret (verify_wg_client_handshake (ts_last_handshake (parse_wg_tunnel_status "wg1" out)) keepalive not_before
              (time_unix now))
  end.

Definition confirm_apply (req : ApplyRequest) : HM R ApplyResponse :=
  let cfg := req_config req in
  let id := req_id req in
  match validate cfg with
  | Err _ => hret (failure id "confirmation configuration is invalid" false)
  | Ok _ =>
      let+ loaded := load_pending_confirmation in
      match loaded with
      | Err err => hret (pending_load_failure id err)
      | Ok pending =>
          if fingerprint_config cfg <>s pc_config_hash pending then
            hret (failure id "confirmation does not match pending configuration" false)
          else
            let+ lan := host (configure_runtime_lan cfg) in
            match lan with
            | Err _ => hret (recovery_failure id "could not finalize LAN address; verified rollback is required")
            | Ok _ =>
                let+ active := host (verify_active cfg (verification_plan op_confirm None cfg)) in
                match active with
                | Err _ =>
                    hret (recovery_failure id "confirmed runtime verification failed; verified rollback is required")
                | Ok _ =>
                    let+ tunnel :=
                      (if wgc_enabled (c_wg_client cfg) then
                         verify_tunnel_handshake (wgc_interface (c_wg_client cfg))
                           (wgc_persistent_keepalive (c_wg_client cfg))
                           (if pc_wg_client_changed pending then Some (pc_handshake_not_before pending) else None)
                       else hret (Ok tt)) in
                    match tunnel with
                    | Err err =>
                        hret (recovery_failure id ("confirmed WireGuard client tunnel is not functional: "
                                                   +:+ safe_error err +:+ "; verified rollback is required"))
                    | Ok _ => hret (success_response id "runtime confirmation verified; canonical commit pending")
                    end
                end
            end
      end
  end.

Definition commit_confirmed_apply (req : ApplyRequest) : HM R ApplyResponse :=
  let cfg := req_config req in
  let id := req_id req in
  match validate cfg with
  | Err _ => hret (failure id "confirmed commit configuration is invalid" false)
  | Ok _ =>
      let+ loaded := load_pending_confirmation in
      match loaded with
      | Err err => hret (pending_load_failure id err)
      | Ok pending =>
          if fingerprint_config cfg <>s pc_config_hash pending then
            hret (failure id "confirmed commit does not match pending configuration" false)
          else
            let+ active := host (verify_active cfg (verification_plan op_commit_confirmed None cfg)) in
            match active with
            | Err _ =>
                hret (recovery_failure id "confirmed runtime is no longer active; canonical reconciliation is required")
            | Ok _ =>
                let+ saved := save_last_good cfg in
                match saved with
                | Err _ => hret (recovery_failure id "could not persist canonical last-good configuration")
                | Ok _ =>
                    let+ cleared := clear_pending_confirmation in
                    match cleared with
                    | Err Unreadable =>
                        hret (recovery_failure id
                                "could not clear pending confirmation; canonical reconciliation is required")
                    | _ => hret (success_response id "confirmed configuration committed as canonical last-good")
                    end
                end
            end
      end
  end.

(** The read-only query *)
Definition wg_tunnel_status (req : ApplyRequest) : HM R ApplyResponse :=
  let cfg := req_config req in
  let server := if is_empty (wg_interface (c_wireguard cfg)) then "wg0" else wg_interface (c_wireguard cfg) in
  let client := if is_empty (wgc_interface (c_wg_client cfg)) then "wg1" else wgc_interface (c_wg_client cfg) in
  let asked := trim (req_tunnel_interface req) in
  let iface := if is_empty asked then client else asked in
  if negb (valid_interface_name iface) || ((iface <>s server) && (iface <>s client)) then
    hret (failure (req_id req) "invalid WireGuard interface name" false)
  else
    let+ out := host (wg_show_dump iface) in
    hret (match out with
          | Err err => failure (req_id req) ("WireGuard status unavailable: " +:+ safe_error err) false
          | Ok out =>
              mkApplyResponse (req_id req) true EmptyString "sanitized WireGuard tunnel status" true false false 0
                (Some (parse_wg_tunnel_status iface out)) None
          end).

(** ** [process_request] *)
Definition persist_transaction_outcome (record : TransactionRecord) : HM R (TransactionRecord * ApplyResponse) :=
  let response := tr_response record in
  let+ saved := save_last_transaction record in
  match saved with
  | Ok _ => hret (record, response)
  | Err _ =>
      let response' := journal_persistence_failure (tr_id record) response in
      hret (mkRecord (tr_id record) (tr_config_hash record) response' (tr_started_at record) (tr_completed_at record),
            response')
  end.

(** Whether the journal answers: memory first, then the disk *)
Definition journal_answer (req : ApplyRequest) (hash : string) : HM R (option ApplyResponse) :=
  let reconcile := req_op req =s op_reconcile in
  let+ memory := get_memory in
  match (match memory with
         | Some m => replay_transaction_response (req_id req) hash (Some m) None reconcile
         | None => None
         end) with
  | Some replay => hret (Some replay)
  | None =>
      let+ loaded := load_last_transaction in
      hret (match loaded with
            | Ok r => replay_transaction_response (req_id req) hash (Some r) None reconcile
            | Err e => replay_transaction_response (req_id req) hash None (Some e) reconcile
            end)
  end.

(** Record the intent, execute, record the outcome. *)
Definition execute (req : ApplyRequest) (hash : string) : HM R ApplyResponse :=
  let+ started := host host_now in
  let intent := mkRecord (req_id req) hash empty_response started time_zero in
  let+ saved := save_last_transaction intent in
  match saved with
  | Err _ => hret (failure (req_id req) "privileged transaction intent could not be persisted" false)
  | Ok _ =>
      let+ _ := set_memory (Some intent) in
      let+ resp :=
        (if req_op req =s op_confirm then confirm_apply req
         else if req_op req =s op_commit_confirmed then commit_confirmed_apply req
         else apply_all req) in
      let+ completed := host host_now in
      let+ out := persist_transaction_outcome (mkRecord (req_id req) hash resp started completed) in
      let+ _ := set_memory (Some (fst out)) in
      hret (snd out)
  end.

(** What the decoder made of the bytes received *)
Inductive decoded := Trailing | Invalid | Decoded (req : ApplyRequest).

Definition allowlisted (op : string) : bool :=
  one_of [op_apply_all; op_confirm; op_commit_confirmed; op_reconcile; op_wg_tunnel_status; op_firewall_counters] op.

Definition process_request (data : decoded) : HM R ApplyResponse :=
  match data with
  | Trailing => hret (failure EmptyString "RPC request must contain exactly one object" false)
  | Invalid => hret (failure EmptyString "invalid or oversized RPC request" false)
  | Decoded req =>
      if negb (req_version req =? PROTOCOL_VERSION) then
        hret (failure (req_id req) "unsupported RPC protocol version" false)
      else if negb (TRANSACTION_ID_PATTERN (req_id req)) then
        hret (failure (req_id req) "invalid transaction ID" false)
      else if negb (allowlisted (req_op req)) then
        hret (failure (req_id req) "operation is not allowlisted" false)
      else if req_op req =s op_firewall_counters then host (firewall_counters req)
      else if req_op req =s op_wg_tunnel_status then wg_tunnel_status req
      else
        let hash := fingerprint_request req in
        let+ replay := journal_answer req hash in
        match replay with
        | Some r => hret r
        | None => execute req hash
        end
  end.
End Helper.
