(* ===== verification/HelperSpec.v ===== *)
(** * The helper's guarantees

    Every answer of router-applyd is consistent and names its request, a request
    is executed once however often it is sent, an unresolved transaction blocks
    everything but reconciliation, the artifacts executed are the ones the
    helper generates itself, and last-good changes only through a request that
    was entitled to change it. *)

From Stdlib Require Import ZArith Ascii String Lia Bool.
From stdpp Require Import base list strings gmap.
From S2P Require Import Prelude GoStrings Net GoTime Json Model Validation Policy Ipc Engine Helper.

Local Open Scope string_scope.
Local Open Scope Z_scope.
Local Open Scope list_scope.

(** ** Symbolic execution *)
Definition hwp {R A} (m : HM R A) (Q : A -> Helper R -> Prop) (h : Helper R) : Prop := Q (fst (m h)) (snd (m h)).

Section Rules.
Context {R : Type}.
Implicit Types (h : Helper R) (m : option TransactionRecord) (d : Disk) (r : R).

Lemma hwp_bind {A B} (x : HM R A) (k : A -> HM R B) Q h : hwp (hbind x k) Q h <-> hwp x (fun a h' => hwp (k a) Q h') h.
Proof. unfold hwp, hbind. by destruct (x h). Qed.
Lemma hwp_ret {A} (a : A) Q h : hwp (hret a) Q h <-> Q a h.
Proof. done. Qed.
Lemma hwp_host {A} (f : R -> A * R) Q m d r :
  hwp (host f) Q (mkHelper m d r) <-> Q (fst (f r)) (mkHelper m d (snd (f r))).
Proof. unfold hwp, host. cbn. by destruct (f r). Qed.
Lemma hwp_get_disk Q m d r : hwp get_disk Q (mkHelper m d r) <-> Q d (mkHelper m d r).
Proof. done. Qed.
Lemma hwp_set_disk d' Q m d r : hwp (set_disk d') Q (mkHelper m d r) <-> Q tt (mkHelper m d' r).
Proof. done. Qed.
Lemma hwp_get_memory Q m d r : hwp get_memory Q (mkHelper m d r) <-> Q m (mkHelper m d r).
Proof. done. Qed.
Lemma hwp_set_memory m' Q m d r : hwp (set_memory m') Q (mkHelper m d r) <-> Q tt (mkHelper m' d r).
Proof. done. Qed.
Lemma hwp_mono {A} (x : HM R A) (P Q : A -> Helper R -> Prop) h :
  hwp x P h -> (forall a h', P a h' -> Q a h') -> hwp x Q h.
Proof. unfold hwp. auto. Qed.
End Rules.

Ltac hwp_step :=
  first [ rewrite hwp_bind | rewrite hwp_ret | rewrite hwp_host | rewrite hwp_get_disk | rewrite hwp_set_disk
        | rewrite hwp_get_memory | rewrite hwp_set_memory ].
Ltac hwp_run := repeat (hwp_step; cbv beta).

Section Spec.
Context {UC : Unicode} {B64 : Base64} {G : Generators} {R : Type} {H : Host R}.
Implicit Types (h : Helper R) (m : option TransactionRecord) (d : Disk) (r : R) (req : ApplyRequest).

(** ** The machine *)

(** [still r r'] relates machines through the commands that only look: they do
    not install a configuration, restore one or move the LAN address. *)
Inductive still : R -> R -> Prop :=
| sl_refl r : still r r
| sl_trans r1 r2 r3 : still r1 r2 -> still r2 r3 -> still r1 r3
| sl_bcrypt p r : still r (snd (bcrypt_hash p r))
| sl_write r : still r (snd (write_result r))
| sl_clear r : still r (snd (clear_result r))
| sl_read r : still r (snd (read_faulty r))
| sl_now r : still r (snd (host_now r))
| sl_candidate a r : still r (snd (write_candidate_files a r))
| sl_preflight c p r : still r (snd (preflight c p r))
| sl_capture a r : still r (snd (capture_previous a r))
| sl_verify c p r : still r (snd (verify_active c p r))
| sl_dns r : still r (snd (verify_functional_dns r))
| sl_ddns r : still r (snd (verify_ddns_update r))
| sl_wg i r : still r (snd (wg_show_dump i r))
| sl_counters req r : still r (snd (firewall_counters req r)).
#[local] Hint Constructors still : mr.

(** A write that replaced a file and then failed *)
Definition unsynced (r r' : R) : Prop := fst (write_result r) = WrittenUnsynced /\ r' = snd (write_result r).

(** ** Files *)

(** A write fails or not; the content is the new after success, and the old
    after a failure unless only the sync failed. *)
Lemma hwp_atomic_write put (Q : result unit error -> Helper R -> Prop) m d r :
  (forall r', still r r' -> Q (Ok tt) (mkHelper m (put d) r')) ->
  (forall r' err d', still r r' -> d' = d \/ unsynced r r' /\ d' = put d -> Q (Err err) (mkHelper m d' r')) ->
  hwp (atomic_write put) Q (mkHelper m d r).
Proof.
  intros Hgood Hbad. unfold atomic_write. hwp_run. pose proof (sl_write r) as Hs.
  assert (Hu : fst (write_result r) = WrittenUnsynced -> unsynced r (snd (write_result r))) by done.
  destruct (write_result r) as [[] r']; cbn [fst snd] in *; hwp_run;
    [by apply Hgood|apply Hbad; auto|apply Hbad; auto].
Qed.

Lemma hwp_read {A} (get : Disk -> file A) (Q : result A load_error -> Helper R -> Prop) m d r :
  (forall r' err, still r r' -> (err = NotFound -> get d = Missing) -> Q (Err err) (mkHelper m d r')) ->
  (forall r' a, still r r' -> get d = Present a -> Q (Ok a) (mkHelper m d r')) ->
  hwp (read_file get) Q (mkHelper m d r).
Proof.
  intros Hbad Hgood. unfold read_file. hwp_run. pose proof (sl_read r) as Hs.
  destruct (read_faulty r) as [[] r']; cbn [fst snd] in *; hwp_run; [by apply Hbad|].
  destruct (get d) eqn:Eg; [by apply Hbad|by apply Hbad|by apply Hgood].
Qed.

(** The previous configuration as [apply_all] sees it *)
Definition previous_of (d : Disk) (previous : option SystemConfig) : Prop :=
  match previous with
  | None => d_last_good d = Missing
  | Some p => exists c, d_last_good d = Present c /\ p = migrate_legacy_fields c
  end.

Lemma hwp_load_previous (Q : result (option SystemConfig) error -> Helper R -> Prop) m d r :
  (forall r' err, still r r' -> Q (Err err) (mkHelper m d r')) ->
  (forall r' p, still r r' -> previous_of d p -> Q (Ok p) (mkHelper m d r')) ->
  hwp load_last_good_raw (fun l h' => Q (normalize_last_good l) h') (mkHelper m d r).
Proof.
  intros Hbad Hgood. unfold load_last_good_raw. hwp_run. apply hwp_read.
  - intros r' [] Hs Hm; hwp_run; [apply Hgood; [done|by apply Hm]|by apply Hbad].
  - intros r' c Hs Hc. hwp_run. apply Hgood; [done|by exists c].
Qed.

Lemma hwp_load_transaction (Q : result TransactionRecord load_error -> Helper R -> Prop) m d r :
  (forall r' err, still r r' -> Q (Err err) (mkHelper m d r')) ->
  (forall r' t, still r r' -> d_journal d = Present t -> validate_transaction_record t = Ok tt -> Q (Ok t) (mkHelper m d r')) ->
  hwp load_last_transaction Q (mkHelper m d r).
Proof.
  intros Hbad Hgood. unfold load_last_transaction. hwp_run. apply hwp_read; intros; hwp_run; [by apply Hbad|].
  destruct (validate_transaction_record a) as [[]|] eqn:Ev; [by apply Hgood|by apply Hbad].
Qed.

Lemma hwp_load_pending (Q : result PendingConfirmation load_error -> Helper R -> Prop) m d r :
  (forall r' err, still r r' -> Q (Err err) (mkHelper m d r')) ->
  (forall r' p, still r r' -> d_pending d = Present p -> validate_pending_confirmation p = Ok tt -> Q (Ok p) (mkHelper m d r')) ->
  hwp load_pending_confirmation Q (mkHelper m d r).
Proof.
  intros Hbad Hgood. unfold load_pending_confirmation. hwp_run. apply hwp_read; intros; hwp_run; [by apply Hbad|].
  destruct (validate_pending_confirmation a) as [[]|] eqn:Ev; [by apply Hgood|by apply Hbad].
Qed.

Lemma hwp_save_last_good cfg (Q : result unit error -> Helper R -> Prop) m d r :
  (forall r', still r r' -> validate cfg = Ok tt -> Q (Ok tt) (mkHelper m (with_last_good d (Present cfg)) r')) ->
  (forall r' err d', still r r' ->
     d' = d \/ unsynced r r' /\ validate cfg = Ok tt /\ d' = with_last_good d (Present cfg) -> Q (Err err) (mkHelper m d' r')) ->
  hwp (save_last_good cfg) Q (mkHelper m d r).
Proof.
  intros Hgood Hbad. unfold save_last_good. destruct (validate cfg) as [[]|]; [|hwp_run; apply Hbad; auto with mr].
  apply hwp_atomic_write; intros; [by apply Hgood|apply Hbad]; [done|naive_solver].
Qed.

Lemma hwp_save_pending p (Q : result unit error -> Helper R -> Prop) m d r :
  (forall r', still r r' -> Q (Ok tt) (mkHelper m (with_pending d (Present p)) r')) ->
  (forall r' err d', still r r' -> d' = d \/ unsynced r r' /\ d' = with_pending d (Present p) -> Q (Err err) (mkHelper m d' r')) ->
  hwp (save_pending_confirmation p) Q (mkHelper m d r).
Proof.
  intros Hgood Hbad. unfold save_pending_confirmation. destruct (validate_pending_confirmation p) as [[]|];
    [by apply hwp_atomic_write|hwp_run; apply Hbad; auto with mr].
Qed.

Lemma hwp_clear_pending (Q : result unit load_error -> Helper R -> Prop) m d r :
  (forall r' a, still r r' -> a <> Err Unreadable -> Q a (mkHelper m (with_pending d Missing) r')) ->
  (forall r' d', still r r' -> d' = d \/ d' = with_pending d Missing -> Q (Err Unreadable) (mkHelper m d' r')) ->
  hwp clear_pending_confirmation Q (mkHelper m d r).
Proof.
  intros Hgood Hbad. unfold clear_pending_confirmation. hwp_run. pose proof (sl_clear r) as Hs.
  destruct (clear_result r) as [[| |[]] r']; cbn [fst snd] in *; hwp_run; auto.
Qed.

Lemma hwp_save_transaction t (Q : result unit error -> Helper R -> Prop) m d r :
  (forall r', still r r' -> validate_transaction_record t = Ok tt -> Q (Ok tt) (mkHelper m (with_journal d (Present t)) r')) ->
  (forall r' err d', still r r' -> d' = d \/ unsynced r r' /\ d' = with_journal d (Present t) -> Q (Err err) (mkHelper m d' r')) ->
  hwp (save_last_transaction t) Q (mkHelper m d r).
Proof.
  intros Hgood Hbad. unfold save_last_transaction. destruct (validate_transaction_record t) as [[]|];
    [apply hwp_atomic_write; auto|hwp_run; apply Hbad; auto with mr].
Qed.

(** A rollback touches nothing but the machine and the pending file, and after
    a success nothing is pending. *)
Lemma hwp_rollback previous candidate files (Q : result unit error -> Helper R -> Prop) m d r :
  (forall r1 r', fst (restore_previous previous candidate files r) = Ok tt -> snd (restore_previous previous candidate files r) = r1 ->
     (match previous with
      | Some prev => still r1 r'
      | None => exists r2, fst (restore_first_run_runtime r1) = Ok tt /\ snd (restore_first_run_runtime r1) = r2 /\ still r2 r'
      end) -> Q (Ok tt) (mkHelper m (with_pending d Missing) r')) ->
  (forall r' e d', d' = d \/ d' = with_pending d Missing -> Q (Err e) (mkHelper m d' r')) ->
  hwp (rollback previous candidate files) Q (mkHelper m d r).
Proof.
  intros Hgood Hbad. unfold rollback. hwp_run. destruct (restore_previous _ _ _ r) as [[[]|e] r1]; cbn [fst snd] in *; [|hwp_run; by apply Hbad; left].
  assert (Hend : forall r2, (forall r', still r2 r' -> Q (Ok tt) (mkHelper m (with_pending d Missing) r')) ->
    hwp clear_pending_confirmation (fun c h' => Q (match c with Ok _ => Ok tt | Err _ => Err (Errorf "clear pending state after verified rollback") end) h')
      (mkHelper m d r2)).
  { intros r2 Hr2. apply hwp_clear_pending; [|intros r' d' _ Hd; by apply Hbad]. intros r' [[]|e] Hs _; [by apply Hr2|apply Hbad; by right]. }
  hwp_run. destruct previous as [prev|]; hwp_run.
  - pose proof (sl_verify prev (verification_plan op_reconcile None prev) r1) as Hs.
    destruct (verify_active _ _ r1) as [[[]|e] r2]; cbn [fst snd] in *; hwp_run; [|by apply Hbad; left].
    apply Hend. intros r' Hs'. eapply Hgood; [done|done|]. by eapply sl_trans.
  - destruct (restore_first_run_runtime r1) as [[[]|e] r2] eqn:Ef; cbn [fst snd]; hwp_run; [|by apply Hbad; left].
    apply Hend. intros r' Hs'. eapply Hgood; [done|done|]. exists r2. by rewrite Ef.
Qed.

(** The generators leave files and memory alone. *)
Lemma hwp_generate cfg (Q : result Artifacts error -> Helper R -> Prop) m d r :
  (forall r' a, still r r' -> Q a (mkHelper m d r')) -> hwp (generate_artifacts cfg) Q (mkHelper m d r).
Proof.
  intros HQ. unfold generate_artifacts. pose proof (sl_refl r) as Hr.
  repeat match goal with |- hwp (match ?x with _ => _ end) _ _ => destruct x; [|hwp_run; by apply HQ] end.
  hwp_run. destruct (squid_enabled _); hwp_run.
  - pose proof (sl_bcrypt (squid_password (c_squid_proxy cfg)) r) as Hs.
    destruct (bcrypt_hash _ r) as [[hash|e] r']; cbn [fst snd] in *; hwp_run; [|by apply HQ].
    repeat match goal with |- hwp (match ?x with _ => _ end) _ _ => destruct x; [|hwp_run; by apply HQ] end.
    hwp_run. by apply HQ.
  - repeat match goal with |- hwp (match ?x with _ => _ end) _ _ => destruct x; [|hwp_run; by apply HQ] end.
    hwp_run. by apply HQ.
Qed.

(** ** What executing a request does *)
Definition answered (id : string) (resp : ApplyResponse) : Prop := response_validate resp = Ok tt /\ resp_id resp = id.

Lemma answered_failure id msg b : answered id (failure id msg b).
Proof. by destruct b. Qed.
Lemma answered_recovery id msg : answered id (recovery_failure id msg).
Proof. done. Qed.
Lemma answered_success id msg : answered id (success_response id msg).
Proof. done. Qed.
#[local] Hint Resolve answered_failure answered_recovery answered_success : mr.

(** The request may replace last-good: an apply that neither waits for a
    confirmation nor needs one, a reconciliation, or the commit of the
    configuration that is pending *)
Definition entitled (req : ApplyRequest) (d : Disk) : Prop :=
  if req_op req =s op_commit_confirmed
  then exists p, d_pending d = Present p /\ pc_config_hash p = fingerprint_config (req_config req)
  else req_require_confirmation req = false /\ req_defer_last_good req = false
       /\ (req_op req = op_apply_all -> forall p, d_last_good d = Present p ->
            requires_confirmation (migrate_legacy_fields p) (req_config req) = false).

(** What is on disk after a success *)
Definition persisted (req : ApplyRequest) (d d' : Disk) : Prop :=
  if req_op req =s op_confirm then d_last_good d' = d_last_good d /\ d_pending d' = d_pending d
  else if (req_op req <>s op_commit_confirmed) && (req_require_confirmation req || req_defer_last_good req)
  then d_last_good d' = d_last_good d
       /\ exists p, d_pending d' = Present p /\ pc_config p = req_config req
            /\ pc_config_hash p = fingerprint_config (req_config req)
  else d_last_good d' = Present (req_config req) /\ d_pending d' = Missing.

Record handled (req : ApplyRequest) (d d' : Disk) (resp : ApplyResponse) : Prop := {
  hd_answered : answered (req_id req) resp;
  hd_journal : d_journal d' = d_journal d;
  hd_last_good : d_last_good d' = d_last_good d
    \/ (d_last_good d' = Present (req_config req) /\ validate (req_config req) = Ok tt /\ entitled req d);
  hd_success : resp_success resp = true -> persisted req d d';
}.

Definition handles (req : ApplyRequest) (m : option TransactionRecord) (d : Disk) (resp : ApplyResponse)
  (h' : Helper R) : Prop :=
  exists d' r', h' = mkHelper m d' r' /\ handled req d d' resp.

(** A refusal with last-good as it was *)
Lemma handles_refused req m d d' resp r' :
  answered (req_id req) resp -> resp_success resp = false ->
  d_journal d' = d_journal d -> d_last_good d' = d_last_good d -> handles req m d resp (mkHelper m d' r').
Proof. intros Ha Hs Hj Hl. exists d', r'. split; [done|]. split; auto. congruence. Qed.

Lemma roll_back_handles req previous files stage err m d d' r :
  d_journal d' = d_journal d -> d_last_good d' = d_last_good d ->
  hwp (roll_back req previous files stage err) (handles req m d) (mkHelper m d' r).
Proof.
  intros Hj Hl. unfold roll_back. hwp_run. apply hwp_rollback.
  - intros r1 r' _ _ _. hwp_run. apply handles_refused; auto with mr.
  - intros r' e d2 Hd. hwp_run. apply handles_refused; auto with mr; by destruct Hd as [->| ->].
Qed.

Lemma persist_handles req previous files t m d r :
  req_op req <> op_commit_confirmed -> req_op req <> op_confirm -> entitled req d \/ req_require_confirmation req || req_defer_last_good req = true ->
  hwp (persist_applied req previous files t) (handles req m d) (mkHelper m d r).
Proof.
  intros Hop Hop2 Hent. unfold persist_applied. apply String.eqb_neq in Hop, Hop2.
  destruct (req_require_confirmation req || req_defer_last_good req) eqn:Ef; hwp_run.
  - apply hwp_save_pending.
    + intros r' _. hwp_run. eexists _, r'. split; [done|]. split; auto with mr. intros _. unfold persisted. rewrite Hop2, Hop, Ef.
      split; [done|]. eexists. by split_and!.
    + intros r' err d' _ Hd. hwp_run. assert (d_journal d' = d_journal d /\ d_last_good d' = d_last_good d) as [Hj Hl].
      { by destruct Hd as [->|[_ ->]]. }
      apply hwp_rollback; [intros r1 r2 _ _ _|intros r2 e d2 Hd2]; hwp_run; apply handles_refused; auto with mr;
        by destruct Hd2 as [->| ->].
  - destruct Hent as [Hent|]; [|done]. apply hwp_save_last_good.
    + intros r' _ Hv. hwp_run. apply hwp_clear_pending.
      * intros r2 a _ Ha. assert (Hdone : handles req m d (success_response (req_id req)
          "validated, preflighted, applied, and verified")
          (mkHelper m (with_pending (with_last_good d (Present (req_config req))) Missing) r2)).
        { eexists _, r2. split; [done|]. split; auto with mr. intros _. unfold persisted. by rewrite Hop2, Hop, Ef. }
        destruct a as [|[]]; [exact Hdone|exact Hdone|done].
      * intros r2 d' _ Hd. hwp_run. eexists d', r2. split; [done|]. split; [auto with mr| | |done].
        -- by destruct Hd as [->| ->].
        -- right. by destruct Hd as [->| ->].
    + intros r' err d' _ Hd. hwp_run.
      assert (Hf : forall resp r2 d2, d2 = d' \/ d2 = with_pending d' Missing -> answered (req_id req) resp -> resp_success resp = false ->
        handles req m d resp (mkHelper m d2 r2)).
      { intros resp r2 d2 Hd2 Ha Hs. eexists d2, r2. split; [done|]. split; [done| | |congruence].
        - by destruct Hd2 as [->| ->]; destruct Hd as [->|(_ & _ & ->)].
        - by destruct Hd2 as [->| ->]; (destruct Hd as [->|(_ & Hv & ->)]; [by left|by right]). }
      apply hwp_rollback; [intros r1 r2 _ _ _|intros r2 e d2 Hd2]; hwp_run; apply Hf; auto with mr.
Qed.

Lemma activate_handles req generated previous files plan m d r :
  req_op req <> op_commit_confirmed -> req_op req <> op_confirm -> entitled req d \/ req_require_confirmation req || req_defer_last_good req = true ->
  hwp (activate_runtime req generated previous files plan) (handles req m d) (mkHelper m d r).
Proof.
  intros Hop Hop2 Hent. unfold activate_runtime. hwp_run. destruct (host_now r) as [now r1]; cbn [fst snd].
  destruct (install_and_activate _ _ _ _ r1) as [[[]|e] r2]; cbn [fst snd]; [|by apply roll_back_handles].
  hwp_run. destruct (verify_active _ _ r2) as [[[]|e] r3]; cbn [fst snd]; [|by apply roll_back_handles].
  hwp_run.
  destruct (requires_functional_dns_verification _ _); hwp_run;
    [destruct (verify_functional_dns r3) as [[[]|e] r4]; cbn [fst snd]; [|by apply roll_back_handles]; hwp_run|];
    (destruct (requires_ddns_verification _ _); hwp_run; [|by apply persist_handles]);
    (destruct (verify_ddns_update _) as [[[]|e] r5]; cbn [fst snd]; [|by apply roll_back_handles]; by apply persist_handles).
Qed.

Lemma confirmation_request_entitled req previous d :
  req_op req <> op_commit_confirmed -> previous_of d previous -> validate_confirmation_request req previous = Ok tt ->
  entitled req d \/ req_require_confirmation req || req_defer_last_good req = true.
Proof.
  intros Hop Hp. unfold validate_confirmation_request, entitled. apply String.eqb_neq in Hop. rewrite Hop.
  destruct (req_require_confirmation req) eqn:Er, (req_defer_last_good req) eqn:Ed; cbn; auto.
  destruct (_ && _) eqn:Ec; [done|]. intros _. left. split_and!; [done|done|]. intros Hap p Hpd. rewrite Hap in Ec.
  cbn in Ec. destruct previous as [q|]; cbn in Hp; [|congruence]. destruct Hp as (c & Hc & ->).
  assert (c = p) as -> by congruence. done.
Qed.

Lemma apply_all_handles req m d r : req_op req <> op_commit_confirmed -> req_op req <> op_confirm ->
  hwp (apply_all req) (handles req m d) (mkHelper m d r).
Proof.
  intros Hop Hop2. unfold apply_all. rewrite hwp_bind.
  apply (hwp_load_previous (fun l h' => hwp (match l with Err _ => _ | Ok _ => _ end) _ h')).
  { intros r' err _. hwp_run. apply handles_refused; auto with mr. }
  intros r1 previous _ Hp.
  assert (Href : forall msg r', hwp (hret (failure (req_id req) msg false)) (handles req m d) (mkHelper m d r')).
  { intros msg r'. hwp_run. apply handles_refused; auto with mr. }
  destruct (validate_live_candidate _ _) as [[]|]; [|by apply Href].
  destruct (validate_confirmation_request _ _) as [[]|] eqn:Ev; [|by apply Href].
  hwp_run. apply hwp_generate. intros r2 [generated|] _; [|by apply Href].
  destruct (compare_generated _ _) as [[]|]; [|by apply Href].
  destruct (reject_unimplemented_features _) as [[]|]; [|by apply Href].
  hwp_run. destruct (write_candidate_files _ r2) as [[[]|] r3]; cbn [fst snd]; [|by apply Href].
  hwp_run. destruct (preflight _ _ r3) as [[[]|] r4]; cbn [fst snd]; [|by apply Href].
  hwp_run. destruct (capture_previous _ r4) as [[files|] r5]; cbn [fst snd]; [|by apply Href].
  apply activate_handles; [done|done|]. by eapply confirmation_request_entitled.
Qed.

Lemma refused_handles req m d resp r' :
  answered (req_id req) resp -> resp_success resp = false -> handles req m d resp (mkHelper m d r').
Proof. intros Ha Hs. by apply handles_refused. Qed.
#[local] Hint Resolve refused_handles : mr.

Lemma answered_pending_load id err : answered id (pending_load_failure id err) /\ resp_success (pending_load_failure id err) = false.
Proof. by destruct err. Qed.

Lemma commit_handles req m d r : req_op req = op_commit_confirmed ->
  hwp (commit_confirmed_apply req) (handles req m d) (mkHelper m d r).
Proof.
  intros Hop. unfold commit_confirmed_apply. destruct (validate (req_config req)) as [[]|] eqn:Ev; [|hwp_run; auto with mr].
  hwp_run. apply hwp_load_pending.
  { intros r' err _. hwp_run. destruct (answered_pending_load (req_id req) err). by apply refused_handles. }
  intros r1 p _ Hp Hvp. destruct (String.eqb_spec (fingerprint_config (req_config req)) (pc_config_hash p)) as [Hh|];
    cbn [negb]; [|hwp_run; auto with mr].
  assert (Hent : entitled req d). { unfold entitled. rewrite Hop. cbn. by exists p. }
  hwp_run. destruct (verify_active _ _ r1) as [[[]|] r2]; cbn [fst snd]; [|hwp_run; auto with mr].
  hwp_run. apply hwp_save_last_good.
  - intros r3 _ _. hwp_run. apply hwp_clear_pending.
    + intros r4 a _ Ha. assert (Hdone : handles req m d (success_response (req_id req)
        "confirmed configuration committed as canonical last-good")
        (mkHelper m (with_pending (with_last_good d (Present (req_config req))) Missing) r4)).
      { eexists _, r4. split; [done|]. split; auto with mr. intros _. unfold persisted. by rewrite Hop. }
      destruct a as [|[]]; [exact Hdone|exact Hdone|done].
    + intros r4 d' _ Hd. hwp_run. eexists d', r4. split; [done|]. split; [auto with mr| | |done].
      * by destruct Hd as [->| ->].
      * right. by destruct Hd as [->| ->].
  - intros r3 err d' _ Hd. hwp_run. eexists d', r3. split; [done|]. split; [auto with mr| | |done].
    + by destruct Hd as [->|(_ & _ & ->)].
    + destruct Hd as [->|(_ & _ & ->)]; [by left|by right].
Qed.

Lemma hwp_handshake i k nb (Q : result unit error -> Helper R -> Prop) m d r :
  (forall r' a, still r r' -> Q a (mkHelper m d r')) -> hwp (verify_tunnel_handshake i k nb) Q (mkHelper m d r).
Proof.
  intros HQ. unfold verify_tunnel_handshake. hwp_run. pose proof (sl_wg (if is_empty i then "wg1" else i) r) as Hs.
  destruct (wg_show_dump _ r) as [[o|] r1]; cbn [fst snd] in *; hwp_run; [|by auto]. apply HQ. by eauto with mr.
Qed.

Lemma confirm_handles req m d r : req_op req = op_confirm ->
  hwp (confirm_apply req) (handles req m d) (mkHelper m d r).
Proof.
  intros Hop. unfold confirm_apply. destruct (validate (req_config req)) as [[]|] eqn:Ev; [|hwp_run; auto with mr].
  hwp_run. apply hwp_load_pending.
  { intros r' err _. hwp_run. destruct (answered_pending_load (req_id req) err). by apply refused_handles. }
  intros r1 p _ Hp Hvp. destruct (_ =s _); cbn [negb]; [|hwp_run; auto with mr].
  hwp_run. destruct (configure_runtime_lan _ r1) as [[[]|] r2]; cbn [fst snd]; [|hwp_run; auto with mr].
  hwp_run. destruct (verify_active _ _ r2) as [[[]|] r3]; cbn [fst snd]; [|hwp_run; auto with mr].
  assert (Hend : forall (a : result unit error) r', hwp (match a with
    | Err err => hret (recovery_failure (req_id req) ("confirmed WireGuard client tunnel is not functional: "
                         +:+ safe_error err +:+ "; verified rollback is required"))
    | Ok _ => hret (success_response (req_id req) "runtime confirmation verified; canonical commit pending")
    end) (handles req m d) (mkHelper m d r')).
  { intros [[]|err] r'; hwp_run; auto with mr. exists d, r'. split; [done|]. split; auto with mr.
    intros _. unfold persisted. by rewrite Hop. }
  hwp_run. destruct (wgc_enabled _); [|hwp_run; apply (Hend (Ok tt))]. apply hwp_handshake. intros r' a _. apply Hend.
Qed.

(** ** Executing, with the journal *)

(** One request that was not answered from the journal: its outcome is
    remembered, and durably so if it is a success. *)
Record executed (req : ApplyRequest) (hash : string) (h : Helper R) (resp : ApplyResponse) (h' : Helper R) : Prop := {
  ex_answered : answered (req_id req) resp;
  ex_last_good : d_last_good (h_disk h') = d_last_good (h_disk h)
    \/ (d_last_good (h_disk h') = Present (req_config req) /\ validate (req_config req) = Ok tt
        /\ entitled req (h_disk h));
  ex_success : resp_success resp = true -> persisted req (h_disk h) (h_disk h');
  ex_memory : (h_memory h' = h_memory h /\ resp_success resp = false)
    \/ exists t r0, h_memory h' = Some t /\ tr_id t = req_id req /\ tr_config_hash t = hash /\ tr_response t = resp
         /\ tr_completed_at t = fst (host_now r0)
         /\ (resp_success resp = true -> d_journal (h_disk h') = Present t /\ validate_transaction_record t = Ok tt);
}.

Lemma handler_handles req m d r :
  hwp (if req_op req =s op_confirm then confirm_apply req
       else if req_op req =s op_commit_confirmed then commit_confirmed_apply req else apply_all req)
    (handles req m d) (mkHelper m d r).
Proof.
  destruct (String.eqb_spec (req_op req) op_confirm); [by apply confirm_handles|].
  destruct (String.eqb_spec (req_op req) op_commit_confirmed); [by apply commit_handles|by apply apply_all_handles].
Qed.

Lemma execute_spec req hash h : hwp (execute req hash) (executed req hash h) h.
Proof.
  destruct h as [m d r]. unfold execute. hwp_run. destruct (host_now r) as [started r1]; cbn [fst snd].
  apply hwp_save_transaction.
  2: { intros r2 err d' _ Hd. hwp_run. split; cbn; auto with mr; [|done]. left. by destruct Hd as [->|[_ ->]]. }
  intros r2 _ _. hwp_run. eapply hwp_mono; [apply handler_handles|].
  intros resp h' (d1 & r3 & -> & [Ha Hj Hl Hs]). cbn in Hj. hwp_run.
  set (t := mkRecord (req_id req) hash resp started (fst (host_now r3))). unfold persist_transaction_outcome. hwp_run.
  apply hwp_save_transaction.
  - intros r4 _ Hv. hwp_run. split; cbn; [done|done|done|]. right. exists t, r3. by split_and!.
  - intros r4 err d2 _ Hd. hwp_run. assert (Hlg : d_last_good d2 = d_last_good d1) by (by destruct Hd as [->|[_ ->]]).
    split; cbn; [done|by rewrite Hlg|done|]. right. eexists _, r3. by split_and!.
Qed.

(** ** The journal *)
Definition transactional (req : ApplyRequest) : Prop :=
  req_op req <> op_wg_tunnel_status /\ req_op req <> op_firewall_counters.

(** A request that passes the checks before the journal *)
Definition wellformed (req : ApplyRequest) : bool :=
  (req_version req =? PROTOCOL_VERSION) && TRANSACTION_ID_PATTERN (req_id req) && allowlisted (req_op req).

Lemma process_transactional req h : transactional req -> wellformed req = true ->
  process_request (Decoded req) h
  = (let+ replay := journal_answer req (fingerprint_request req) in
     match replay with Some r => hret r | None => execute req (fingerprint_request req) end) h.
Proof.
  intros [T1 T2] Hw. unfold wellformed in Hw. to_prop. unfold process_request.
  apply String.eqb_neq in T1, T2.
  repeat match goal with Hx : ?x = _ |- context [?x] => rewrite Hx end. cbn [negb].
  by replace (req_version req =? PROTOCOL_VERSION) with true by (symmetry; by apply Z.eqb_eq).
Qed.

Lemma process_illformed req h : wellformed req = false ->
  snd (process_request (Decoded req) h) = h /\ answered (req_id req) (fst (process_request (Decoded req) h))
  /\ resp_success (fst (process_request (Decoded req) h)) = false.
Proof.
  unfold wellformed, process_request. destruct (_ =? _); [|done]. cbn.
  destruct (TRANSACTION_ID_PATTERN _); [|done]. cbn. by intros ->.
Qed.

(** What the remembered record says to a request *)
Lemma replay_same t id hash : tr_id t = id -> tr_config_hash t = hash -> time_is_zero (tr_completed_at t) = false ->
  forall rec, replay_transaction_response id hash (Some t) None rec = Some (tr_response t).
Proof. intros <- <- Hc rec. unfold replay_transaction_response. by rewrite !String.eqb_refl, Hc. Qed.

Lemma journal_from_memory req hash h t a : h_memory h = Some t ->
  replay_transaction_response (req_id req) hash (Some t) None (req_op req =s op_reconcile) = Some a ->
  journal_answer req hash h = (Some a, h).
Proof. intros Hm Hr. unfold journal_answer, hbind, get_memory. rewrite Hm, Hr. done. Qed.

Lemma journal_from_disk req hash d r t a :
  fst (read_faulty r) = false -> d_journal d = Present t -> validate_transaction_record t = Ok tt ->
  replay_transaction_response (req_id req) hash (Some t) None (req_op req =s op_reconcile) = Some a ->
  journal_answer req hash (mkHelper None d r) = (Some a, mkHelper None d (snd (read_faulty r))).
Proof.
  intros Hf Hj Hv Hr. unfold journal_answer, load_last_transaction, read_file, host, hbind, get_memory, get_disk, hret.
  cbn [h_memory h_host h_disk]. destruct (read_faulty r) as [f r']. cbn [fst snd] in *. subst f.
  cbn [h_memory h_host h_disk]. rewrite Hj, Hv, Hr. done.
Qed.

(** A request that changed what the process remembers was executed. *)
Lemma memory_change_executes req h resp h' :
  transactional req -> wellformed req = true -> process_request (Decoded req) h = (resp, h') ->
  h_memory h' <> h_memory h ->
  exists h0, h_memory h0 = h_memory h /\ h_disk h0 = h_disk h /\ executed req (fingerprint_request req) h0 resp h'.
Proof.
  intros Ht Hw Hp Hm. rewrite process_transactional in Hp by done.
  enough (Hq : hwp (let+ replay := journal_answer req (fingerprint_request req) in
    match replay with Some r => hret r | None => execute req (fingerprint_request req) end)
    (fun resp h' => h_memory h' = h_memory h \/ exists h0, h_memory h0 = h_memory h /\ h_disk h0 = h_disk h
       /\ executed req (fingerprint_request req) h0 resp h') h).
  { unfold hwp in Hq. rewrite Hp in Hq. cbn in Hq. by destruct Hq. }
  clear Hp. destruct h as [m d r]. hwp_run. unfold journal_answer. hwp_run.
  assert (Hafter : forall r' o, hwp (match o with Some r => hret r | None => execute req (fingerprint_request req) end)
    (fun resp h' => h_memory h' = m \/ exists h0, h_memory h0 = m /\ h_disk h0 = d
       /\ executed req (fingerprint_request req) h0 resp h') (mkHelper m d r')).
  { intros r' [a|]; [hwp_run; by left|]. eapply hwp_mono; [apply execute_spec|]. intros a h1 Hx. right.
    by exists (mkHelper m d r'). }
  destruct (match m with Some t => _ | None => None end); hwp_run; [by left|].
  apply hwp_load_transaction; intros; hwp_run; apply Hafter.
Qed.

(** C8: a request is executed once.  When [process_request] executes a request,
    sending it again to the same process gives the same answer whatever
    happened to the machine and the disk in between, and has no effect; and
    after a restart, if the answer was a success and the journal can be read,
    the answer is the same and the files are untouched. *)
Theorem request_is_executed_once req h resp h' :
  (forall r, time_is_zero (fst (host_now r)) = false) -> transactional req ->
  process_request (Decoded req) h = (resp, h') -> h_memory h' <> h_memory h ->
  (forall d r, process_request (Decoded req) (mkHelper (h_memory h') d r) = (resp, mkHelper (h_memory h') d r))
  /\ (resp_success resp = true -> forall r, fst (read_faulty r) = false ->
       process_request (Decoded req) (mkHelper None (h_disk h') r)
       = (resp, mkHelper None (h_disk h') (snd (read_faulty r)))).
Proof.
  intros Hclk Ht Hp Hm. destruct (wellformed req) eqn:Hw.
  2: { destruct (process_illformed req h Hw) as [Hq _]. rewrite Hp in Hq. cbn in Hq. by subst. }
  assert (Hex := memory_change_executes req h resp h' Ht Hw Hp Hm).
  destruct Hex as (h0 & Hm0 & _ & [_ _ _ [[Hmem _]|(t & r0 & Hmt & T1 & T2 & T3 & T4 & T5)]]); [congruence|].
  assert (Hc : time_is_zero (tr_completed_at t) = false) by (rewrite T4; apply Hclk).
  split.
  - intros d r. rewrite process_transactional by done. unfold hbind.
    erewrite journal_from_memory; [|exact Hmt|by apply replay_same]. unfold hret. by rewrite T3.
  - intros Hs r Hr. destruct (T5 Hs) as [Hj Hv]. rewrite process_transactional by done. unfold hbind.
    erewrite journal_from_disk; [|done|exact Hj|exact Hv|by apply replay_same]. unfold hret. by rewrite T3.
Qed.

(** Success is durable.  When an executed request is answered with success,
    the files say so: an apply that waits for a confirmation or for the caller's
    commit left last-good alone and recorded exactly its configuration as
    pending; a confirmation query left both alone; any other made its
    configuration last-good and left nothing pending. *)
Theorem success_is_durable req h resp h' :
  transactional req -> process_request (Decoded req) h = (resp, h') -> h_memory h' <> h_memory h ->
  resp_success resp = true -> persisted req (h_disk h) (h_disk h').
Proof.
  intros Ht Hp Hm Hs. destruct (wellformed req) eqn:Hw.
  2: { destruct (process_illformed req h Hw) as [Hq _]. rewrite Hp in Hq. cbn in Hq. by subst. }
  destruct (memory_change_executes req h resp h' Ht Hw Hp Hm) as (h0 & _ & <- & [_ _ X _]). auto.
Qed.

(** The remembered transaction has no known good outcome. *)
Definition unresolved (t : TransactionRecord) : bool :=
  time_is_zero (tr_completed_at t) || resp_recovery_required (tr_response t).

(** The last transaction, as the process remembers it or, after a restart, as
    the journal on disk has it *)
Definition last_transaction (h : Helper R) (t : TransactionRecord) : Prop :=
  h_memory h = Some t
  \/ h_memory h = None /\ d_journal (h_disk h) = Present t /\ validate_transaction_record t = Ok tt.

(** C10: an unresolved transaction blocks.  While the last transaction is
    incomplete or ended requiring recovery, in the memory of the process or, when
    the process has been restarted, in the journal on disk, any other
    transactional request except a reconciliation is refused, and neither the
    files nor the memory nor the machine are touched, but for reading the journal
    after a restart; if that read fails, the request is refused all the same. *)
Theorem unresolved_transaction_blocks req h t :
  last_transaction h t -> unresolved t = true -> tr_id t <> req_id req ->
  transactional req -> req_op req <> op_reconcile ->
  (snd (process_request (Decoded req) h) = h
   \/ h_memory h = None /\ snd (process_request (Decoded req) h) = mkHelper None (h_disk h) (snd (read_faulty (h_host h))))
  /\ resp_success (fst (process_request (Decoded req) h)) = false
  /\ answered (req_id req) (fst (process_request (Decoded req) h)).
Proof.
  intros Hl Hu Hid Ht Hop. destruct (wellformed req) eqn:Hw.
  2: { destruct (process_illformed req h Hw) as (H1 & H2 & H3). split_and!; [by left|done|done]. }
  rewrite process_transactional by done. unfold hbind. apply String.eqb_neq in Hid, Hop. unfold unresolved in Hu.
  assert (Hr : replay_transaction_response (req_id req) (fingerprint_request req) (Some t) None (req_op req =s op_reconcile)
    = Some (recovery_failure (req_id req)
        "a previous privileged transaction remains unresolved; canonical reconciliation is required")).
  { unfold replay_transaction_response. by rewrite Hid, Hop, Hu. }
  destruct Hl as [Hm|(Hm & Hj & Hv)].
  - erewrite journal_from_memory; [|exact Hm|exact Hr]. split_and!; [by left|done|done].
  - destruct h as [m d r]. cbn in Hm, Hj. subst m. destruct (fst (read_faulty r)) eqn:Ef.
    + unfold journal_answer, load_last_transaction, read_file, host, hbind, get_memory, get_disk, hret. cbn [h_memory h_host h_disk].
      destruct (read_faulty r) as [f r'] eqn:Er. cbn [fst snd] in *. subst f. cbn. rewrite Hop. split_and!; [by right|done|done].
    + erewrite journal_from_disk; [|exact Ef|exact Hj|exact Hv|exact Hr]. split_and!; [by right|done|done].
Qed.

(** ** Answers *)

(** What the process remembers is consistent. *)
Definition memory_ok (m : option TransactionRecord) : Prop :=
  forall t, m = Some t -> time_is_zero (tr_completed_at t) = false -> answered (tr_id t) (tr_response t).

Lemma record_answered t : validate_transaction_record t = Ok tt -> time_is_zero (tr_completed_at t) = false ->
  answered (tr_id t) (tr_response t).
Proof.
  unfold validate_transaction_record. intros Hv Hc. rewrite Hc in Hv. cases_in Hv. to_prop. split; [|done].
  by destruct (response_validate (tr_response t)) as [[]|].
Qed.

Lemma replay_answered id hash t rec a :
  (time_is_zero (tr_completed_at t) = false -> answered (tr_id t) (tr_response t)) ->
  replay_transaction_response id hash (Some t) None rec = Some a -> answered id a.
Proof.
  intros Ht. unfold replay_transaction_response. destruct (String.eqb_spec (tr_id t) id) as [<-|]; cbn [negb].
  - destruct (_ =s _); cbn [negb]; [|intros Hq; simplify_eq; auto with mr].
    destruct (time_is_zero _) eqn:Ez; intros Hq; simplify_eq; auto with mr.
  - destruct (_ && _); intros Hq; simplify_eq; auto with mr.
Qed.

Lemma replay_error_answered id hash err rec a :
  replay_transaction_response id hash None (Some err) rec = Some a -> answered id a.
Proof. unfold replay_transaction_response. destruct (_ || _); intros Hq; simplify_eq; auto with mr. Qed.

Lemma hwp_journal req hash (Q : option ApplyResponse -> Helper R -> Prop) m d r :
  memory_ok m ->
  (forall r' o, (forall a, o = Some a -> answered (req_id req) a) -> Q o (mkHelper m d r')) ->
  hwp (journal_answer req hash) Q (mkHelper m d r).
Proof.
  intros Hm HQ. unfold journal_answer. hwp_run.
  destruct (match m with Some t => _ | None => None end) as [a|] eqn:Em; hwp_run.
  - apply HQ. intros a' Ha. simplify_eq. destruct m as [t|]; [|done].
    eapply replay_answered; [|exact Em]. by apply Hm.
  - apply hwp_load_transaction; intros; hwp_run; apply HQ; intros a Ha; [by eapply replay_error_answered|].
    eapply replay_answered; [|exact Ha]. by apply record_answered.
Qed.

Lemma tunnel_status_answered req m d r :
  hwp (wg_tunnel_status req) (fun resp h' => answered (req_id req) resp /\ h_memory h' = m /\ h_disk h' = d) (mkHelper m d r).
Proof.
  unfold wg_tunnel_status. destruct (_ || _); hwp_run; [auto with mr|].
  by destruct (wg_show_dump _ r) as [[o|e] r'].
Qed.

(** What [process_request] can do to last-good, besides answering *)
Definition last_good_step (req : ApplyRequest) (d d' : Disk) : Prop :=
  d_last_good d' = d_last_good d
  \/ (d_last_good d' = Present (req_config req) /\ validate (req_config req) = Ok tt /\ entitled req d).

Lemma process_request_spec req h : memory_ok (h_memory h) -> req_op req <> op_firewall_counters ->
  hwp (process_request (Decoded req)) (fun resp h' => answered (req_id req) resp /\ memory_ok (h_memory h')
    /\ last_good_step req (h_disk h) (h_disk h')) h.
Proof.
  intros Hm Hf. destruct (wellformed req) eqn:Hw.
  2: { destruct (process_illformed req h Hw) as (H1 & H2 & H3). unfold hwp. rewrite H1. split_and!; [done|done|by left]. }
  destruct (String.eqb_spec (req_op req) op_wg_tunnel_status) as [Hq|Hq].
  - unfold hwp, process_request, wellformed in *. to_prop. rewrite Hq in *. cbn.
    destruct (_ =? _) eqn:Ez; [|apply Z.eqb_neq in Ez; congruence]. cbn.
    rewrite (ltac:(assumption) : TRANSACTION_ID_PATTERN (req_id req) = true). cbn.
    destruct h as [m d r]. destruct (tunnel_status_answered req m d r) as (A1 & A2 & A3).
    rewrite A2. unfold last_good_step. rewrite A3. by split_and!; [| |left].
  - unfold hwp. rewrite process_transactional by done.
    change (hwp (let+ replay := journal_answer req (fingerprint_request req) in
      match replay with Some r => hret r | None => execute req (fingerprint_request req) end)
      (fun resp h' => answered (req_id req) resp /\ memory_ok (h_memory h') /\ last_good_step req (h_disk h) (h_disk h')) h).
    destruct h as [m d r]. hwp_run. apply hwp_journal; [done|]. intros r' [a|] Ha.
    + hwp_run. split_and!; [by apply Ha|done|by left].
    + eapply hwp_mono; [apply execute_spec|]. intros resp h' [X1 X2 X3 X4]. split_and!; [done| |done].
      destruct X4 as [[-> _]|(t & r0 & -> & T1 & T2 & T3 & _)]; [done|].
      intros t' Ht' _. injection Ht' as <-. by rewrite T1, T3.
Qed.

(** Answers are consistent.  Every answer to a request other than the
    counter query passes the consistency check the engine applies to it and
    carries the request's id, provided what the process remembers does; and
    what it remembers afterwards does again. *)
Theorem helper_answers_consistently req h resp h' :
  memory_ok (h_memory h) -> req_op req <> op_firewall_counters -> process_request (Decoded req) h = (resp, h') ->
  response_validate resp = Ok tt /\ resp_id resp = req_id req /\ memory_ok (h_memory h').
Proof.
  intros Hm Hf Hp. pose proof (process_request_spec req h Hm Hf) as Hs. unfold hwp in Hs. rewrite Hp in Hs.
  destruct Hs as ([H1 H2] & H3 & _). by split_and!.
Qed.

(** C9: last-good changes hands only when entitled.  A request leaves last-good
    as it was, or replaces it by its own configuration, which is valid, and
    then it is the commit of exactly the pending configuration, or an apply or
    reconciliation that asked for no confirmation and no deferral and, for an
    apply, needed no confirmation relative to last-good. *)
Theorem last_good_changes_when_entitled req h resp h' :
  memory_ok (h_memory h) -> req_op req <> op_firewall_counters -> process_request (Decoded req) h = (resp, h') ->
  d_last_good (h_disk h') = d_last_good (h_disk h)
  \/ (d_last_good (h_disk h') = Present (req_config req) /\ validate (req_config req) = Ok tt
      /\ entitled req (h_disk h)).
Proof.
  intros Hm Hf Hp. pose proof (process_request_spec req h Hm Hf) as Hs. unfold hwp in Hs. rewrite Hp in Hs. apply Hs.
Qed.

(** ** The trust boundary *)

(** The artifacts the request carries are what the generators give for [cfg]. *)
Definition carries_artifacts_of (req : ApplyRequest) (cfg : SystemConfig) : Prop :=
  generate_nftables cfg = Ok (req_nftables req) /\ generate_dnsmasq cfg = Ok (req_dnsmasq req)
  /\ generate_hostapd cfg = Ok (req_hostapd req) /\ generate_wireguard (c_wireguard cfg) = Ok (req_wireguard req)
  /\ exists b, generate_pppoe cfg = Ok b /\ peer_config b = req_pppoe_peer req /\ chap_secrets b = req_pppoe_secret req.

Lemma generate_artifacts_fields cfg h gen h' : generate_artifacts cfg h = (Ok gen, h') ->
  exists b, generate_pppoe cfg = Ok b
    /\ (forall s, artifact_data gen "nftables" = Some s <-> generate_nftables cfg = Ok s)
    /\ artifact_data gen "pppoe" = Some (peer_config b) /\ artifact_data gen "chap" = Some (chap_secrets b)
    /\ (forall s, artifact_data gen "dnsmasq" = Some s <-> generate_dnsmasq cfg = Ok s)
    /\ (forall s, artifact_data gen "hostapd" = Some s <-> generate_hostapd cfg = Ok s)
    /\ (forall s, artifact_data gen "wireguard" = Some s <-> generate_wireguard (c_wireguard cfg) = Ok s).
Proof.
  intros Hg. enough (Hq : hwp (generate_artifacts cfg) (fun a _ => match a with Err _ => True | Ok gen =>
    exists b, generate_pppoe cfg = Ok b
    /\ (forall s, artifact_data gen "nftables" = Some s <-> generate_nftables cfg = Ok s)
    /\ artifact_data gen "pppoe" = Some (peer_config b) /\ artifact_data gen "chap" = Some (chap_secrets b)
    /\ (forall s, artifact_data gen "dnsmasq" = Some s <-> generate_dnsmasq cfg = Ok s)
    /\ (forall s, artifact_data gen "hostapd" = Some s <-> generate_hostapd cfg = Ok s)
    /\ (forall s, artifact_data gen "wireguard" = Some s <-> generate_wireguard (c_wireguard cfg) = Ok s) end) h).
  { unfold hwp in Hq. by rewrite Hg in Hq. }
  clear Hg h' gen. destruct h as [m d r]. unfold generate_artifacts.
  repeat match goal with |- hwp (match ?x with _ => _ end) _ _ => destruct x eqn:?; [|by hwp_run] end.
  assert (Hsame : forall (x y : string), Some x = Some y <-> Ok (E := error) x = Ok y) by (intros; split; congruence).
  hwp_run. destruct (squid_enabled _); hwp_run;
    [destruct (bcrypt_hash _ r) as [[hash|e] r']; cbn [fst snd]; hwp_run; [|done]|];
    (repeat match goal with |- hwp (match ?x with _ => _ end) _ _ => destruct x eqn:?; [|by hwp_run] end;
     hwp_run; eexists; split_and!; try reflexivity; intros s; cbn; apply Hsame).
Qed.

(** The helper executes only what it would generate itself.  The artifacts
    of a request pass the comparison exactly when each of the six is the output
    of the generator for the request's own configuration. *)
Theorem artifacts_match_iff req h gen h' :
  generate_artifacts (req_config req) h = (Ok gen, h') ->
  compare_generated req gen = Ok tt <-> carries_artifacts_of req (req_config req).
Proof.
  intros (b & Hb & Hn & Hp & Hc & Hd & Hh & Hw)%generate_artifacts_fields. unfold carries_artifacts_of.
  rewrite <- Hn, <- Hd, <- Hh, <- Hw. unfold compare_generated. cbn [fold_left fst snd]. rewrite Hp, Hc.
  split.
  - intros Hq. repeat (case_bool_decide; [|done]). split_and!; [done|done|done|done|]. exists b. split_and!; congruence.
  - intros (-> & -> & -> & -> & b' & Hb' & <- & <-). assert (b' = b) as -> by congruence.
    by rewrite !bool_decide_eq_true_2.
Qed.

(** The engine's requests pass the trust boundary.  A request the engine
    builds for a configuration, with any confirmation mode and operation it
    sets afterwards, carries the artifacts the helper compares with. *)
Theorem engine_requests_match id cfg req require defer op :
  build_apply_request id cfg = Ok req ->
  carries_artifacts_of (with_modes req require defer) cfg /\ carries_artifacts_of (with_op req op) cfg
  /\ req_config req = cfg.
Proof.
  unfold build_apply_request, carries_artifacts_of. intros Hq.
  destruct (generate_nftables cfg), (generate_pppoe cfg) as [b|], (generate_dnsmasq cfg), (generate_hostapd cfg),
    (generate_wireguard (c_wireguard cfg)); cbn in Hq; try discriminate Hq. injection Hq as <-. cbn.
  split_and!; try reflexivity; exists b; done.
Qed.
End Spec.
