(* ===== verification/HelperSync.v ===== *)
(** * The helper and the machine

    What the helper does to the runtime, on any machine: a record beside the
    machine says whose activation was the last one to complete, and what follows
    for it: a request that succeeds leaves its configuration activated and
    last-good, one refused or rolled back leaves both as they were, what is
    pending is what was activated, and an answer repeated from the journal is
    still true. *)

From Stdlib Require Import ZArith Ascii String Lia Bool.
From stdpp Require Import base list strings gmap.
From S2P Require Import Prelude GoStrings Net GoTime Json Model Validation Policy PolicySpec Ipc Safety Engine.
From S2P Require Import EngineSpec EngineReach Helper HelperSpec.

Local Open Scope string_scope.
Local Open Scope Z_scope.
Local Open Scope list_scope.

(** ** A watched machine

    The machine and what happened on it.  [wt_active] is the configuration of
    the last activation or restoration, if all of its commands succeeded; it is
    [None] after one that failed half-way, or whose LAN address could not be
    finalized.  [wt_synced] says that no write so far replaced its file and then
    failed.  Nothing reads the record. *)
Record Watched (R : Type) := mkWatched { wt_machine : R; wt_active : option SystemConfig; wt_synced : bool }.
Arguments mkWatched {R} wt_machine wt_active wt_synced.
Arguments wt_machine {R} w.
Arguments wt_active {R} w.
Arguments wt_synced {R} w.

Definition watch {R A} (f : R -> A * R) (w : Watched R) : A * Watched R :=
  let '(a, r) := f (wt_machine w) in (a, mkWatched r (wt_active w) (wt_synced w)).
Definition watch_change {R} (c : option SystemConfig) (f : R -> result unit error * R) (w : Watched R)
  : result unit error * Watched R :=
  let '(a, r) := f (wt_machine w) in (a, mkWatched r (if is_ok a then c else None) (wt_synced w)).
Definition watch_write {R} (f : R -> write_outcome * R) (w : Watched R) : write_outcome * Watched R :=
  let '(a, r) := f (wt_machine w) in
  (a, mkWatched r (wt_active w) (wt_synced w && match a with WrittenUnsynced => false | _ => true end)).

#[export] Instance watched {R} {H : Host R} : Host (Watched R) := {|
  fingerprint_request := fingerprint_request (R := R);
  fingerprint_config := fingerprint_config (R := R);
  safe_error := safe_error (R := R);
  generate_wireguard_runtime := generate_wireguard_runtime (R := R);
  generate_wireguard_client_runtime := generate_wireguard_client_runtime (R := R);
  generate_squid_config := generate_squid_config (R := R);
  generate_ad_block_conf := generate_ad_block_conf (R := R);
  generate_qos := generate_qos (R := R);
  generate_cloudflare_ddns := generate_cloudflare_ddns (R := R);
  generate_cloudflare_tunnel := generate_cloudflare_tunnel (R := R);
  generate_doh_proxy := generate_doh_proxy (R := R);
  bcrypt_hash p := watch (bcrypt_hash p);
  captured := captured (R := R);
  write_result := watch_write write_result;
  clear_result := watch clear_result;
  read_faulty := watch read_faulty;
  host_now := watch host_now;
  write_candidate_files a := watch (write_candidate_files a);
  preflight c p := watch (preflight c p);
  capture_previous a := watch (capture_previous a);
  install_and_activate c a previous confirm := watch_change (Some c) (install_and_activate c a previous confirm);
  verify_active c p := watch (verify_active c p);
  verify_functional_dns := watch verify_functional_dns;
  verify_ddns_update := watch verify_ddns_update;
  restore_previous previous candidate files := watch_change previous (restore_previous previous candidate files);
  restore_first_run_runtime := watch_change None restore_first_run_runtime;
  configure_runtime_lan c w := watch_change (wt_active w) (configure_runtime_lan c) w;
  wg_show_dump i := watch (wg_show_dump i);
  firewall_counters req := watch (firewall_counters req) |}.

Section Sync.
Context {UC : Unicode} {B64 : Base64} {G : Generators} {R : Type} {H : Host R}.
Abbreviation WR := (Watched R).
Implicit Types (h : Helper WR) (m : option TransactionRecord) (d : Disk) (r : WR) (req : ApplyRequest) (served : list ApplyRequest).

Lemma watch_same {A} (f : R -> A * R) r : wt_active (snd (watch f r)) = wt_active r /\ wt_synced (snd (watch f r)) = wt_synced r.
Proof. unfold watch. by destruct (f (wt_machine r)). Qed.
Lemma change_synced c f r : wt_synced (snd (watch_change c f r)) = wt_synced r.
Proof. unfold watch_change. by destruct (f (wt_machine r)). Qed.
Lemma change_active c f r : fst (watch_change c f r) = Ok tt -> wt_active (snd (watch_change c f r)) = c.
Proof. unfold watch_change. destruct (f (wt_machine r)) as [a r']. cbn. by intros ->. Qed.

(** The commands that only look leave the record alone, but for writes. *)
Lemma still_same r r' : still r r' -> wt_active r' = wt_active r /\ (wt_synced r' = true -> wt_synced r = true).
Proof.
  induction 1 as [r|r1 r2 r3 _ [IH1 IH2] _ [IH3 IH4]| | | | | | | | | | | | |]; try (by split);
    try (match goal with |- context [snd (?f ?x)] => destruct (watch_same f x) end);
    try (cbn -[watch]; match goal with |- context [watch ?f ?x] => destruct (watch_same f x) as [-> ->]; by split end).
  - split; [congruence|auto].
  - cbn. unfold watch_write. destruct (write_result (wt_machine r)). cbn. split; [done|]. by intros [? _]%andb_prop.
Qed.
Lemma still_active r r' : still r r' -> wt_active r' = wt_active r.
Proof. apply still_same. Qed.
Lemma still_synced r r' : still r r' -> wt_synced r' = true -> wt_synced r = true.
Proof. apply still_same. Qed.
Lemma unsynced_seen r r' : unsynced r r' -> wt_synced r' = false.
Proof.
  intros [Hu ->]. cbn in *. unfold watch_write in *. destruct (write_result (wt_machine r)) as [o x]. cbn in *. subst o. by apply andb_false_r.
Qed.

Lemma restore_watched previous candidate files r : wt_synced (snd (restore_previous previous candidate files r)) = wt_synced r
  /\ (fst (restore_previous previous candidate files r) = Ok tt -> wt_active (snd (restore_previous previous candidate files r)) = previous).
Proof. split; [apply change_synced|apply change_active]. Qed.
Lemma first_run_synced r : wt_synced (snd (restore_first_run_runtime r)) = wt_synced r.
Proof. apply change_synced. Qed.
Lemma install_watched c a previous confirm r : wt_synced (snd (install_and_activate c a previous confirm r)) = wt_synced r
  /\ (fst (install_and_activate c a previous confirm r) = Ok tt -> wt_active (snd (install_and_activate c a previous confirm r)) = Some c).
Proof. split; [apply change_synced|apply change_active]. Qed.
Lemma lan_watched c r : wt_synced (snd (configure_runtime_lan c r)) = wt_synced r
  /\ (fst (configure_runtime_lan c r) = Ok tt -> wt_active (snd (configure_runtime_lan c r)) = wt_active r).
Proof. split; [apply change_synced|apply (change_active (wt_active r))]. Qed.

Lemma hwp_and {A} (x : HM WR A) (P Q : A -> Helper WR -> Prop) h :
  hwp x P h -> hwp x Q h -> hwp x (fun a h' => P a h' /\ Q a h') h.
Proof. by split. Qed.

(** Last-good is what was activated, and fit to go live. *)
Definition steady (d : Disk) (r : WR) : Prop := exists c, d_last_good d = Present c /\ wt_active r = Some c /\ live_ok c.

Definition plainly_refused (resp : ApplyResponse) : Prop :=
  resp_success resp = false /\ resp_recovery_required resp = false.

(** What became of the pending confirmation: it and the runtime are as they
    were; or nothing is pending; or the request's own configuration is, and was
    activated. *)
Definition pending_kept (req : ApplyRequest) (d : Disk) (r : WR) (d' : Disk) (r' : WR) (resp : ApplyResponse) : Prop :=
  d_pending d' = d_pending d /\ wt_active r' = wt_active r /\ resp_rolled_back resp = false
  /\ (resp_success resp = true -> req_op req = op_confirm).
Definition pending_own (req : ApplyRequest) (d' : Disk) (r' : WR) : Prop :=
  exists p, d_pending d' = Present p /\ pc_config p = req_config req /\ wt_active r' = Some (req_config req).

(** What a handler did to the machine, besides [handled] *)
Record acted (req : ApplyRequest) (d : Disk) (r : WR) (d' : Disk) (r' : WR) (resp : ApplyResponse) : Prop := {
  ac_success : resp_success resp = true -> anchors req = true -> req_op req <> op_commit_confirmed ->
    wt_active r' = Some (req_config req);
  ac_committed : resp_success resp = true -> req_op req = op_commit_confirmed ->
    exists p, d_pending d = Present p /\ fingerprint_config (req_config req) = fingerprint_config (pc_config p)
      /\ wt_active r' = wt_active r;
  ac_refused : wt_synced r' = true -> plainly_refused resp -> steady d r ->
    wt_active r' = wt_active r /\ d_last_good d' = d_last_good d;
  ac_pending : resp_recovery_required resp = false ->
    pending_kept req d r d' r' resp \/ d_pending d' = Missing \/ pending_own req d' r';
}.
Definition acts (req : ApplyRequest) (m : option TransactionRecord) (d : Disk) (r : WR) (resp : ApplyResponse)
  (h' : Helper WR) : Prop :=
  exists d' r', h' = mkHelper m d' r' /\ acted req d r d' r' resp.

Lemma acts_refused req m d r resp r' : still r r' -> resp_success resp = false -> resp_rolled_back resp = false ->
  acts req m d r resp (mkHelper m d r').
Proof.
  intros Hs%still_active Hf Hb. exists d, r'. split; [done|]. split; [congruence|congruence|done|]. intros _. left.
  split_and!; [done|done|done|congruence].
Qed.
Lemma acts_recovery req m d r d' r' id msg : acts req m d r (recovery_failure id msg) (mkHelper m d' r').
Proof. exists d', r'. split; [done|]. split; [done|done| |done]. by intros _ []. Qed.

(** A rollback brings back what was active when the request came. *)
Definition restores (previous : option SystemConfig) (d : Disk) (r : WR) : Prop := steady d r -> previous = wt_active r.

Lemma undone_acts req previous files m d r0 d' r bad good :
  restores previous d r0 -> (wt_synced r = true -> d_last_good d' = d_last_good d) -> req_op req <> op_commit_confirmed ->
  hwp (let+ x := rollback previous (Some (req_config req)) files in
       hret (match x with Err _ => recovery_failure (req_id req) bad | Ok _ => failure (req_id req) good true end))
    (acts req m d r0) (mkHelper m d' r).
Proof.
  intros Hb Hl Hop. hwp_run. apply hwp_rollback; [|intros; apply acts_recovery].
  intros r1 r' Hr Hr1 Hs. destruct (restore_watched previous (Some (req_config req)) files r) as [Es Ea].
  rewrite Hr1 in Es, Ea. specialize (Ea Hr). eexists _, r'. split; [done|].
  assert (Hsync : wt_synced r' = true -> wt_synced r = true).
  { intros Hx. rewrite <- Es. destruct previous; [by eapply still_synced|]. destruct Hs as (r2 & _ & <- & Hs).
    rewrite <- first_run_synced. by eapply still_synced. }
  split; [done|done| |intros _; right; by left]. intros Hx _ Hst. split; [|by apply Hl, Hsync].
  rewrite <- (Hb Hst). destruct previous as [p|]; [by rewrite (still_active _ _ Hs)|].
  exfalso. pose proof (Hb Hst) as Hn. destruct Hst as (c & _ & Hc & _). congruence.
Qed.

Lemma persist_acts req previous files t m d r0 r :
  restores previous d r0 -> wt_active r = Some (req_config req) -> req_op req <> op_commit_confirmed ->
  hwp (persist_applied req previous files t) (acts req m d r0) (mkHelper m d r).
Proof.
  intros Hb Hr Hop.
  assert (Hdone : forall d' r' msg, still r r' -> d_pending d' = Missing \/ pending_own req d' r' ->
    acts req m d r0 (success_response (req_id req) msg) (mkHelper m d' r')).
  { intros d' r' msg Hs%still_active Hp. exists d', r'. split; [done|]. split; [congruence|done| |by right]. by intros _ []. }
  unfold persist_applied. destruct (_ || _); rewrite hwp_bind.
  - apply hwp_save_pending.
    + intros r' Hs. apply Hdone; [done|]. right. eexists. split; [done|]. split; [done|]. by rewrite (still_active _ _ Hs).
    + intros r' err d' _ Hd. apply undone_acts; [done| |done]. intros _. by destruct Hd as [->|[_ ->]].
  - apply hwp_save_last_good.
    + intros r' Hs _. rewrite hwp_bind. apply hwp_clear_pending.
      * intros r2 a Hs2 Ha. assert (still r r2) by (by eapply sl_trans).
        destruct a as [|[]]; [apply Hdone; auto|apply Hdone; auto|done].
      * intros r2 d' _ _. apply acts_recovery.
    + intros r' err d' _ Hd. apply undone_acts; [done| |done]. intros Hx.
      destruct Hd as [->|[Hu%unsynced_seen _]]; [done|congruence].
Qed.

Lemma activate_acts req generated previous files plan m d r0 r :
  restores previous d r0 -> req_op req <> op_commit_confirmed ->
  hwp (activate_runtime req generated previous files plan) (acts req m d r0) (mkHelper m d r).
Proof.
  intros Hb Hop. unfold activate_runtime. hwp_run. destruct (host_now r) as [now r1]; cbn [fst snd].
  destruct (install_watched (req_config req) generated previous (req_require_confirmation req) r1) as [_ Hi].
  destruct (install_and_activate _ _ _ _ r1) as [[[]|e] r2]; cbn [fst snd] in *; [|by apply undone_acts].
  specialize (Hi eq_refl). hwp_run. pose proof (still_active _ _ (sl_verify (req_config req) plan r2)) as Hs.
  destruct (verify_active _ _ r2) as [[[]|e] r3]; cbn [fst snd] in *; [|by apply undone_acts].
  rewrite Hi in Hs. hwp_run.
  assert (Hend : forall r', wt_active r' = Some (req_config req) -> hwp (let+ ddns :=
      (if requires_ddns_verification previous (req_config req) then host verify_ddns_update else hret (Ok tt)) in
    match ddns with
    | Err err => roll_back req previous files "dynamic DNS verification" err
    | Ok _ => persist_applied req previous files (time_unix now)
    end) (acts req m d r0) (mkHelper m d r')).
  { intros r' Hr'. hwp_run. destruct (requires_ddns_verification _ _); hwp_run; [|by apply persist_acts].
    pose proof (still_active _ _ (sl_ddns r')) as Hd.
    destruct (verify_ddns_update r') as [[[]|e] r5]; cbn [fst snd] in *; [|by apply undone_acts].
    apply persist_acts; [done|congruence|done]. }
  destruct (requires_functional_dns_verification _ _); hwp_run; [|by apply hwp_bind, Hend].
  pose proof (still_active _ _ (sl_dns r3)) as Hd.
  destruct (verify_functional_dns r3) as [[[]|e] r4]; cbn [fst snd] in *; [|by apply undone_acts].
  apply Hend. congruence.
Qed.

(** Last-good needs no migration when it is fit to go live. *)
Lemma steady_previous d r previous : previous_of d previous -> restores previous d r.
Proof.
  intros Hp (c & Hl & Ha & Hv). unfold previous_of in Hp. rewrite Hl in Hp. destruct previous as [p|]; [|done].
  destruct Hp as (c' & Hc & ->). injection Hc as <-. rewrite Ha. f_equal. apply accepted_needs_no_migration.
  unfold live_ok, validate_live_candidate in Hv. by destruct (validate c) as [[]|].
Qed.

Lemma apply_all_acts req m d r : req_op req <> op_commit_confirmed -> hwp (apply_all req) (acts req m d r) (mkHelper m d r).
Proof.
  intros Hop. unfold apply_all. rewrite hwp_bind.
  apply (hwp_load_previous (fun l h' => hwp (match l with Err _ => _ | Ok _ => _ end) _ h')).
  { intros r' err Hs. apply acts_recovery. }
  intros r1 previous Hs1 Hp.
  assert (Href : forall msg r', still r r' -> hwp (hret (failure (req_id req) msg false)) (acts req m d r) (mkHelper m d r')).
  { intros msg r' Hs. by apply acts_refused. }
  destruct (validate_live_candidate _ _) as [[]|]; [|by apply Href].
  destruct (validate_confirmation_request _ _) as [[]|]; [|by apply Href].
  hwp_run. apply hwp_generate. intros r2 generated Hs2. assert (S2 : still r r2) by (by eapply sl_trans).
  destruct generated as [generated|]; [|by apply Href].
  destruct (compare_generated _ _) as [[]|]; [|by apply Href].
  destruct (reject_unimplemented_features _) as [[]|]; [|by apply Href].
  hwp_run. pose proof (sl_trans _ _ _ S2 (sl_candidate generated r2)) as S3.
  destruct (write_candidate_files _ r2) as [[[]|] r3]; cbn [fst snd] in *; [|by apply Href].
  hwp_run. set (plan := verification_plan _ _ _). pose proof (sl_trans _ _ _ S3 (sl_preflight (req_config req) plan r3)) as S4.
  destruct (preflight _ _ r3) as [[[]|] r4]; cbn [fst snd] in *; [|by apply Href].
  hwp_run. pose proof (sl_trans _ _ _ S4 (sl_capture generated r4)) as S5.
  destruct (capture_previous _ r4) as [[files|] r5] eqn:Ec; cbn [fst snd] in *; [|by apply Href].
  apply activate_acts; [by apply steady_previous|done].
Qed.

Lemma commit_acts req m d r : req_op req = op_commit_confirmed -> hwp (commit_confirmed_apply req) (acts req m d r) (mkHelper m d r).
Proof.
  intros Hop. unfold commit_confirmed_apply. pose proof (sl_refl r) as S0.
  destruct (validate (req_config req)) as [[]|]; [|by apply acts_refused].
  hwp_run. apply hwp_load_pending.
  { intros r' err Hs. by apply acts_refused; [|destruct err..]. }
  intros r1 p S1 Hp Hv. destruct (_ =s _) eqn:Hh; cbn [negb]; [|by apply acts_refused].
  assert (Hf : fingerprint_config (req_config req) = fingerprint_config (pc_config p)).
  { apply String.eqb_eq in Hh. transitivity (pc_config_hash p); [exact Hh|].
    unfold validate_pending_confirmation in Hv. cases_in Hv. by to_prop. }
  hwp_run. set (plan := verification_plan _ _ _). pose proof (sl_verify (req_config req) plan r1) as S2.
  destruct (verify_active _ _ r1) as [[[]|] r2] eqn:Ev; cbn [fst snd] in *; [|apply acts_recovery].
  hwp_run. apply hwp_save_last_good; [|intros; apply acts_recovery].
  intros r3 S3 _. hwp_run. apply hwp_clear_pending; [|intros; apply acts_recovery].
  intros r4 a S4 Ha. assert (Hr : wt_active r4 = wt_active r) by (apply still_active; eauto using sl_trans).
  assert (Hdone : acts req m d r (success_response (req_id req) "confirmed configuration committed as canonical last-good")
    (mkHelper m (with_pending (with_last_good d (Present (req_config req))) Missing) r4)).
  { eexists _, r4. split; [done|]. split; [by intros _ _ []| |by intros _ []|by right; left]. intros _ _. by exists p. }
  by destruct a as [|[]].
Qed.

Lemma confirm_acts req m d r : req_op req = op_confirm -> hwp (confirm_apply req) (acts req m d r) (mkHelper m d r).
Proof.
  intros Hop. assert (Hna : anchors req = false) by (unfold anchors, mutates; by rewrite Hop).
  unfold confirm_apply. pose proof (sl_refl r) as S0.
  destruct (validate (req_config req)) as [[]|]; [|by apply acts_refused].
  hwp_run. apply hwp_load_pending.
  { intros r' err Hs. by apply acts_refused; [|destruct err..]. }
  intros r1 p S1 _ _. destruct (_ =s _); cbn [negb]; [|by apply acts_refused].
  hwp_run. destruct (lan_watched (req_config req) r1) as [_ Hl].
  destruct (configure_runtime_lan _ r1) as [[[]|] r2]; cbn [fst snd] in *; [|apply acts_recovery].
  specialize (Hl eq_refl). hwp_run. set (plan := verification_plan _ _ _).
  pose proof (still_active _ _ (sl_verify (req_config req) plan r2)) as Hv.
  destruct (verify_active _ _ r2) as [[[]|] r3]; cbn [fst snd] in *; [|apply acts_recovery].
  assert (Hend : forall (a : result unit error) r', still r3 r' -> hwp (match a with
    | Err err => hret (recovery_failure (req_id req) ("confirmed WireGuard client tunnel is not functional: "
                         +:+ safe_error err +:+ "; verified rollback is required"))
    | Ok _ => hret (success_response (req_id req) "runtime confirmation verified; canonical commit pending")
    end) (acts req m d r) (mkHelper m d r')).
  { intros [[]|err] r' Hs; [|apply acts_recovery]. exists d, r'. split; [done|].
    split; [congruence|intros _ Hc; by rewrite Hop in Hc|by intros _ []|]. intros _. left. split_and!; [done| |done|done].
    rewrite (still_active _ _ Hs), Hv, Hl. by apply still_active. }
  hwp_run. destruct (wgc_enabled _); [|apply (Hend (Ok tt)), sl_refl]. apply hwp_handshake. intros r' a Hs. by apply Hend.
Qed.

Lemma handler_acts req m d r :
  hwp (if req_op req =s op_confirm then confirm_apply req
       else if req_op req =s op_commit_confirmed then commit_confirmed_apply req else apply_all req)
    (acts req m d r) (mkHelper m d r).
Proof.
  destruct (String.eqb_spec (req_op req) op_confirm); [by apply confirm_acts|].
  destruct (String.eqb_spec (req_op req) op_commit_confirmed); [by apply commit_acts|by apply apply_all_acts].
Qed.

(** ** Writes stay synced or not *)
Definition synced h : Prop := wt_synced (h_host h) = true.
Definition monotone {A} (m : HM WR A) : Prop := forall h, synced (snd (m h)) -> synced h.

Lemma mono_ret {A} (a : A) : monotone (hret a).
Proof. by intros h. Qed.
Lemma mono_bind {A B} (m : HM WR A) (k : A -> HM WR B) : monotone m -> (forall a, monotone (k a)) -> monotone (hbind m k).
Proof. intros Hm Hk h. unfold hbind. pose proof (Hm h) as Hh. destruct (m h) as [a h']. cbn in Hh. intros Hs. by apply Hh, (Hk a). Qed.
Lemma mono_host {A} (f : WR -> A * WR) : (forall r, wt_synced (snd (f r)) = true -> wt_synced r = true) -> monotone (host f).
Proof. intros Hf [m d r]. unfold host, synced. cbn. specialize (Hf r). by destruct (f r). Qed.
Lemma mono_still {A} (f : WR -> A * WR) : (forall r, still r (snd (f r))) -> monotone (host f).
Proof. intros Hf. apply mono_host. intros r. apply still_synced, Hf. Qed.
Lemma mono_get_disk : monotone get_disk.
Proof. by intros []. Qed.
Lemma mono_set_disk d : monotone (set_disk d).
Proof. by intros []. Qed.
Lemma mono_get_memory : monotone get_memory.
Proof. by intros []. Qed.
Lemma mono_set_memory m : monotone (set_memory m).
Proof. by intros []. Qed.
Lemma mono_install c a p f : monotone (host (install_and_activate c a p f)).
Proof. apply mono_host. intros r. by rewrite (proj1 (install_watched c a p f r)). Qed.
Lemma mono_lan c : monotone (host (configure_runtime_lan c)).
Proof. apply mono_host. intros r. by rewrite (proj1 (lan_watched c r)). Qed.
Lemma mono_restore p c f : monotone (host (restore_previous p c f)).
Proof. apply mono_host. intros r. by rewrite (proj1 (restore_watched p c f r)). Qed.
Lemma mono_first_run : monotone (host restore_first_run_runtime).
Proof. apply mono_host. intros r. by rewrite first_run_synced. Qed.
End Sync.
#[local] Hint Constructors still : mr.

Create HintDb monotone.
Ltac mono :=
  repeat first
    [ solve [auto 1 with monotone nocore] | apply mono_bind; [|intros ?] | apply mono_ret | apply mono_get_disk | apply mono_set_disk | apply mono_get_memory
    | apply mono_set_memory | apply mono_install | apply mono_lan | apply mono_restore | apply mono_first_run
    | solve [apply mono_still; intros ?; constructor]
    | match goal with |- monotone (if ?b then _ else _) => destruct b end
    | match goal with |- monotone (match ?x with _ => _ end) => destruct x end ].

Section Journal.
Context {UC : Unicode} {B64 : Base64} {G : Generators} {R : Type} {H : Host R}.
Abbreviation WR := (Watched R).
Implicit Types (h : Helper WR) (m : option TransactionRecord) (d : Disk) (r : WR) (req : ApplyRequest) (served : list ApplyRequest).

Lemma mono_generate cfg : monotone (generate_artifacts (R := WR) cfg).
Proof. unfold generate_artifacts. mono. Qed.
#[local] Hint Resolve mono_generate : monotone.
Lemma mono_write put : monotone (atomic_write (R := WR) put).
Proof. unfold atomic_write. mono. Qed.
#[local] Hint Resolve mono_write : monotone.
Lemma mono_read {A} (get : Disk -> file A) : monotone (read_file (R := WR) get).
Proof. unfold read_file. mono. Qed.
#[local] Hint Resolve mono_read : monotone.
Lemma mono_clear : monotone (clear_pending_confirmation (R := WR)).
Proof. unfold clear_pending_confirmation. mono. Qed.
#[local] Hint Resolve mono_clear : monotone.
Lemma mono_save_pending p : monotone (save_pending_confirmation (R := WR) p).
Proof. unfold save_pending_confirmation. mono. Qed.
#[local] Hint Resolve mono_save_pending : monotone.
Lemma mono_save_last_good c : monotone (save_last_good (R := WR) c).
Proof. unfold save_last_good. mono. Qed.
#[local] Hint Resolve mono_save_last_good : monotone.
Lemma mono_save_transaction t : monotone (save_last_transaction (R := WR) t).
Proof. unfold save_last_transaction. mono. Qed.
#[local] Hint Resolve mono_save_transaction : monotone.
Lemma mono_rollback p c f : monotone (rollback (R := WR) p c f).
Proof. unfold rollback. mono. Qed.
#[local] Hint Resolve mono_rollback : monotone.
Lemma mono_apply req : monotone (apply_all (R := WR) req).
Proof.
  unfold apply_all, load_last_good_raw, activate_runtime, persist_applied, roll_back.
  mono.
Qed.
#[local] Hint Resolve mono_apply : monotone.
Lemma mono_commit req : monotone (commit_confirmed_apply (R := WR) req).
Proof. unfold commit_confirmed_apply, load_pending_confirmation. mono. Qed.
#[local] Hint Resolve mono_commit : monotone.
Lemma mono_confirm req : monotone (confirm_apply (R := WR) req).
Proof. unfold confirm_apply, load_pending_confirmation, verify_tunnel_handshake. mono. Qed.
#[local] Hint Resolve mono_confirm : monotone.
Lemma mono_execute req hash : monotone (execute (R := WR) req hash).
Proof.
  unfold execute, persist_transaction_outcome.
  mono.
Qed.
#[local] Hint Resolve mono_execute : monotone.
Lemma mono_process x : monotone (process_request (R := WR) x).
Proof.
  unfold process_request, journal_answer, load_last_transaction, wg_tunnel_status. mono.
Qed.
#[local] Hint Resolve mono_process : monotone.

(** ** With the journal *)

(** [h'] differs from [h] in nothing that the next request depends on but the
    machine, on which what was active is active. *)
Definition same_helper h h' : Prop :=
  h_memory h' = h_memory h /\ h_disk h' = h_disk h /\ wt_active (h_host h') = wt_active (h_host h)
  /\ (synced h' -> synced h).

Lemma same_helper_still m d r r' : still r r' -> same_helper (mkHelper m d r) (mkHelper m d r').
Proof. intros Hs. split_and!; [done|done|by apply still_active|by apply still_synced]. Qed.
Lemma same_helper_trans h1 h2 h3 : same_helper h1 h2 -> same_helper h2 h3 -> same_helper h1 h3.
Proof. unfold same_helper. intros (? & ? & ? & ?) (? & ? & ? & ?). split_and!; [congruence..|auto]. Qed.

(** An unresolved transaction in memory, which blocks all but reconciliations *)
Definition blocked h : bool := match h_memory h with Some t => unresolved t | None => false end.

(** What a request does: nothing, and a success is then one the journal
    remembers; or its handler ran, and the journal remembers that; or some write
    was not synced. *)
Inductive outcome (req : ApplyRequest) h (resp : ApplyResponse) h' : Prop :=
| out_kept :
    same_helper h h' ->
    (resp_success resp = true -> anchors req = true ->
     exists t, (h_memory h = Some t \/ d_journal (h_disk h) = Present t) /\ tr_config_hash t = fingerprint_request req
       /\ time_is_zero (tr_completed_at t) = false /\ tr_response t = resp) ->
    outcome req h resp h'
| out_ran t :
    transactional req -> wellformed req = true -> (req_op req <> op_reconcile -> blocked h = false) ->
    h_memory h' = Some t -> tr_id t = req_id req -> tr_config_hash t = fingerprint_request req -> tr_response t = resp ->
    (forall t', d_journal (h_disk h') = Present t' -> t' = t \/ time_is_zero (tr_completed_at t') = true) ->
    acted req (h_disk h) (h_host h) (h_disk h') (h_host h') resp ->
    (resp_success resp = true -> persisted req (h_disk h) (h_disk h')) -> (synced h' -> synced h) ->
    outcome req h resp h'
| out_unsynced : ~ synced h' -> outcome req h resp h'.

Lemma persisted_anchor req d d' : anchors req = true -> persisted req d d' -> d_last_good d' = Present (req_config req).
Proof.
  unfold anchors, mutates, persisted, one_of. intros Ha. to_prop.
  repeat match goal with Hx : _ = false |- _ => rewrite Hx; clear Hx end. rewrite andb_false_r.
  destruct (String.eqb_spec (req_op req) op_confirm) as [Hq|]; [|by intros [? _]]. by rewrite Hq in *.
Qed.

(** [acted] looks at last-good, what is pending, and the record of the machine. *)
Lemma acted_frame req d r d' r' d0 r0 d1 r1 resp : acted req d r d' r' resp ->
  d_last_good d0 = d_last_good d -> d_pending d0 = d_pending d -> wt_active r0 = wt_active r ->
  d_last_good d1 = d_last_good d' -> d_pending d1 = d_pending d' -> wt_active r1 = wt_active r' ->
  (wt_synced r1 = true -> wt_synced r' = true) -> acted req d0 r0 d1 r1 resp.
Proof.
  intros [A1 A2 A3 A4] E1 E2 E3 E4 E5 E6 E7. split.
  - rewrite E6. done.
  - rewrite E2, E3, E6. done.
  - unfold steady. rewrite E1, E3, E4, E6. intros Hs. by apply A3, E7.
  - unfold pending_kept, pending_own. by rewrite E2, E3, E5, E6.
Qed.
Lemma acted_recovery req d r d' r' id msg : acted req d r d' r' (recovery_failure id msg).
Proof. split; [done|done| |done]. by intros _ []. Qed.

Lemma execute_outcome req h : transactional req -> wellformed req = true -> (req_op req <> op_reconcile -> blocked h = false) ->
  hwp (execute req (fingerprint_request req)) (outcome req h) h.
Proof.
  intros Ht Hw Hb.
  enough (hwp (execute req (fingerprint_request req)) (fun resp h' => (synced h' -> synced h) -> outcome req h resp h') h) as Hq.
  { pose proof (mono_execute req (fingerprint_request req) h). unfold hwp in *. auto. }
  destruct h as [m d r]. unfold execute. hwp_run.
  pose proof (sl_now r) as S1. destruct (host_now r) as [started r1]; cbn [fst snd] in *.
  apply hwp_save_transaction.
  2: { intros r2 err d' S2 [->|[Hx%unsynced_seen _]]; hwp_run; intros _; [|apply out_unsynced; unfold synced; cbn; congruence].
       apply out_kept; [|done]. apply same_helper_still. by eapply sl_trans. }
  intros r2 S2 _. hwp_run.
  eapply hwp_mono; [apply hwp_and; [apply handler_handles|apply handler_acts]|].
  intros resp h' [(d1 & r3 & -> & [_ Hj _ Hp]) (d2 & r4 & Hq & Hacted)]. injection Hq as <- <-. cbn in Hj. hwp_run.
  pose proof (sl_now r3) as S3. destruct (host_now r3) as [completed r5]; cbn [fst snd] in *.
  set (t := mkRecord (req_id req) _ resp started completed). unfold persist_transaction_outcome. hwp_run.
  assert (E2 : wt_active r2 = wt_active r) by (apply still_active; by eapply sl_trans).
  apply hwp_save_transaction.
  - intros r6 S6 _. hwp_run. intros Hs. assert (S36 : still r3 r6) by (by eapply sl_trans).
    apply (out_ran _ _ _ _ t); try done; cbn.
    + intros t' Ht'. left. congruence.
    + eapply acted_frame; [exact Hacted|done|done|done|done|done|by apply still_active|by apply still_synced].
  - intros r6 err d6 S6 [->|[Hx%unsynced_seen _]]; hwp_run; intros Hs; [|apply out_unsynced; unfold synced; cbn; congruence].
    eapply out_ran; try done; cbn; [|by apply acted_recovery].
    intros t' Ht'. right. rewrite Hj in Ht'. by injection Ht' as <-.
Qed.

Lemma replay_success t req a rec :
  replay_transaction_response (req_id req) (fingerprint_request req) (Some t) None rec = Some a -> resp_success a = true ->
  tr_config_hash t = fingerprint_request req /\ time_is_zero (tr_completed_at t) = false /\ tr_response t = a.
Proof.
  unfold replay_transaction_response. destruct (_ =s _); cbn [negb]; [|intros Hq; cases_in Hq; by simplify_eq].
  destruct (String.eqb_spec (tr_config_hash t) (fingerprint_request req)); cbn [negb]; [|intros Hq; by simplify_eq].
  destruct (time_is_zero _); intros Hq; by simplify_eq.
Qed.
(** A remembered transaction that does not answer does not block. *)
Lemma replay_unblocked t req : replay_transaction_response (req_id req) (fingerprint_request req) (Some t) None (req_op req =s op_reconcile) = None ->
  req_op req <> op_reconcile -> unresolved t = false.
Proof.
  unfold replay_transaction_response, unresolved. intros Hq Hop%String.eqb_neq. rewrite Hop in Hq.
  rewrite andb_true_r in Hq. by cases_in Hq.
Qed.

Lemma journal_outcome req h : transactional req -> wellformed req = true ->
  hwp (let+ replay := journal_answer req (fingerprint_request req) in
       match replay with Some r => hret r | None => execute req (fingerprint_request req) end) (outcome req h) h.
Proof.
  intros Ht Hw. destruct h as [m d r]. hwp_run. unfold journal_answer. hwp_run.
  destruct (match m with Some t => _ | None => None end) as [a|] eqn:Em; hwp_run.
  { apply out_kept; [done|]. intros Hs _. destruct m as [t|]; [|done]. exists t. split; [by left|]. by eapply replay_success. }
  assert (Hb : req_op req <> op_reconcile -> blocked (mkHelper m d r) = false).
  { intros Hop. unfold blocked. cbn. destruct m as [t|]; [|done]. by eapply replay_unblocked. }
  assert (Hx : forall r', still r r' -> hwp (execute req (fingerprint_request req)) (outcome req (mkHelper m d r)) (mkHelper m d r')).
  { intros r' Hs. eapply hwp_mono; [by apply execute_outcome|].
    intros resp h' [Hk Hr|t T1 T2 T3 Hm Hi Hh Hresp Hj Ha Hp Hsy|Hu]; [apply out_kept; [|done]| |by apply out_unsynced].
    - eapply same_helper_trans; [by apply same_helper_still|done].
    - eapply out_ran; try done; [|intros Hs'; by apply (still_synced _ _ Hs), Hsy].
      eapply acted_frame; try done. symmetry. by apply still_active. }
  apply hwp_load_transaction.
  - intros r' err Hs. hwp_run.
    destruct (replay_transaction_response _ _ None _ _) as [a|] eqn:Er; [|by apply Hx].
    apply out_kept; [by apply same_helper_still|]. unfold replay_transaction_response in Er.
    cases_in Er. by simplify_eq.
  - intros r' t Hs Hj _. hwp_run. destruct (replay_transaction_response _ _ (Some t) _ _) as [a|] eqn:Er; [|by apply Hx].
    apply out_kept; [by apply same_helper_still|]. intros Hsucc _. exists t. split; [by right|]. by eapply replay_success.
Qed.

Lemma query_outcome req h : ~ transactional req -> hwp (process_request (Decoded req)) (outcome req h) h.
Proof.
  intros Ht. assert (Hna : anchors req = false).
  { destruct (anchors req) eqn:Ha; [|done]. destruct Ht. unfold anchors, mutates in Ha. to_prop.
    split; intros Hq; by rewrite Hq in *. }
  assert (Hk : forall resp h', same_helper h h' -> outcome req h resp h').
  { intros resp h' Hs. apply out_kept; [done|congruence]. }
  destruct h as [m d r]. unfold process_request.
  destruct (negb (_ =? _)); [by apply Hk|]. destruct (negb (TRANSACTION_ID_PATTERN _)); [by apply Hk|].
  destruct (negb (allowlisted _)); [by apply Hk|].
  destruct (String.eqb_spec (req_op req) op_firewall_counters) as [|N1].
  { hwp_run. apply Hk, same_helper_still, sl_counters. }
  destruct (String.eqb_spec (req_op req) op_wg_tunnel_status) as [|N2]; [|by destruct Ht].
  unfold wg_tunnel_status. destruct (_ || _); [by apply Hk|]. hwp_run. apply Hk, same_helper_still, sl_wg.
Qed.

Lemma process_outcome req h : hwp (process_request (Decoded req)) (outcome req h) h.
Proof.
  assert (transactional req \/ ~ transactional req) as [Ht|Ht].
  { unfold transactional. destruct (decide (req_op req = op_wg_tunnel_status)), (decide (req_op req = op_firewall_counters)); tauto. }
  2: by apply query_outcome.
  destruct (wellformed req) eqn:Hw.
  - unfold hwp. rewrite process_transactional by done. by apply journal_outcome.
  - destruct (process_illformed req h Hw) as (H1 & _ & H3). unfold hwp. apply out_kept; [by rewrite H1|]. congruence.
Qed.

(** ** What the journal remembers *)

(** The part of a request the runtime depends on *)
Definition content (req : ApplyRequest) : string * SystemConfig * bool * bool :=
  (req_op req, req_config req, req_require_confirmation req, req_defer_last_good req).

(** No two of the requests, and no two of their configurations, have the same
    fingerprint and different content. *)
Definition collision_free (served : list ApplyRequest) : Prop :=
  forall a b, a ∈ served -> b ∈ served ->
    (fingerprint_request (R := R) a = fingerprint_request (R := R) b -> content a = content b)
    /\ (fingerprint_config (R := R) (req_config a) = fingerprint_config (R := R) (req_config b) -> req_config a = req_config b).

(** The same, by computation *)
Definition no_collision (served : list ApplyRequest) : bool :=
  forallb (fun a => forallb (fun b =>
    implb (fingerprint_request (R := R) a =s fingerprint_request (R := R) b) (bool_decide (content a = content b))
    && implb (fingerprint_config (R := R) (req_config a) =s fingerprint_config (R := R) (req_config b))
         (bool_decide (req_config a = req_config b))) served) served.
Lemma no_collision_free served : no_collision served = true -> collision_free served.
Proof.
  unfold no_collision. rewrite forallb_forall. intros Hc a b Ha Hb.
  apply list_elem_of_In in Ha, Hb. specialize (Hc a Ha). rewrite forallb_forall in Hc. specialize (Hc b Hb).
  apply andb_prop in Hc as [H1 H2]. split; intros Hf; rewrite Hf, String.eqb_refl in *;
    [apply bool_decide_eq_true in H1|apply bool_decide_eq_true in H2]; done.
Qed.

Lemma collision_free_tail a l : collision_free (a :: l) -> collision_free l.
Proof. intros Hc x y Hx Hy. apply Hc; by apply elem_of_cons; right. Qed.

Lemma content_anchors a b : content a = content b -> anchors a = anchors b /\ req_config a = req_config b.
Proof. unfold content, anchors, mutates. intros Hq. injection Hq as H1 H2 H3 H4. by rewrite H1, H2, H3, H4. Qed.

(** A success on record is the success of a request that was served, and what
    it established still holds. *)
Definition established (q : ApplyRequest) h : Prop :=
  wt_active (h_host h) = Some (req_config q) /\ d_last_good (h_disk h) = Present (req_config q).
Definition record_true (served : list ApplyRequest) h (t : TransactionRecord) : Prop :=
  time_is_zero (tr_completed_at t) = false -> resp_success (tr_response t) = true ->
  exists q, q ∈ served /\ tr_config_hash t = fingerprint_request (R := R) q /\ (anchors q = true -> established q h).
Definition journal_true (served : list ApplyRequest) h : Prop :=
  forall t, h_memory h = Some t \/ d_journal (h_disk h) = Present t -> record_true served h t.

(** What is pending was activated, by a request that was served. *)
Definition pending_true (served : list ApplyRequest) h : Prop :=
  forall p, d_pending (h_disk h) = Present p ->
    wt_active (h_host h) = Some (pc_config p) /\ exists q, q ∈ served /\ req_config q = pc_config p.

(** The journal tells the truth, and so does the pending file unless the last
    transaction is unresolved. *)
Definition helper_true (served : list ApplyRequest) h : Prop :=
  journal_true served h /\ (blocked h = true \/ pending_true served h).

(** A reconciliation that neither succeeds nor rolls back nor asks for recovery
    ends the block of an unresolved transaction without having repaired
    anything. *)
Definition lifts (req : ApplyRequest) h h' (resp : ApplyResponse) : bool :=
  (req_op req =s op_reconcile) && blocked h && negb (blocked h') && negb (resp_success resp) && negb (resp_rolled_back resp).

Lemma record_true_served req served h t : record_true served h t -> record_true (req :: served) h t.
Proof. intros J Hc Hs. destruct (J Hc Hs) as (q & Hq & ?). exists q. split; [by apply elem_of_cons; right|done]. Qed.
Lemma pending_true_served req served h : pending_true served h -> pending_true (req :: served) h.
Proof. intros J p Hp. destruct (J p Hp) as (Ha & q & Hq & Hc). split; [done|]. exists q. split; [by apply elem_of_cons; right|done]. Qed.

(** The truth does not depend on more of the helper than [same_helper] keeps. *)
Lemma helper_true_same served h h' : same_helper h h' -> helper_true served h -> helper_true served h'.
Proof.
  intros (H1 & H2 & H3 & _) [J P]. split.
  - intros t Ht. rewrite H1, H2 in Ht. specialize (J t Ht). unfold record_true, established in *. by rewrite H2, H3.
  - unfold blocked, pending_true in *. by rewrite H1, H2, H3.
Qed.
Lemma helper_true_served req served h : helper_true served h -> helper_true (req :: served) h.
Proof. intros [J P]. split; [intros t Ht; by apply record_true_served, J|]. destruct P; [by left|right; by apply pending_true_served]. Qed.

Lemma outcome_applied req served h resp h' :
  outcome req h resp h' -> synced h' -> helper_true served h -> collision_free (req :: served) ->
  anchors req = true -> resp_success resp = true -> established req h'.
Proof.
  intros Ho Hsy [J P] Hcf Han Hs. destruct Ho as [(H1 & H2 & H3 & _) Hk|t _ _ Hb Hm Hi Hh Hresp Hj Ha Hp _|Hu]; [| |done].
  - destruct (Hk Hs Han) as (t & Ht & Hh & Hc & Hresp). rewrite <- Hresp in Hs.
    destruct (J t Ht Hc Hs) as (q & Hq & Hf & Hst).
    destruct (content_anchors req q) as [Ea Ec].
    { apply (Hcf req q); [by apply elem_of_cons; left|by apply elem_of_cons; right|]. by rewrite <- Hf. }
    unfold established in *. rewrite H2, H3, Ec. apply Hst. congruence.
  - split; [|by eapply persisted_anchor; [|apply Hp]].
    destruct (decide (req_op req = op_commit_confirmed)) as [Hop|Hop]; [|by apply Ha].
    destruct (ac_committed _ _ _ _ _ _ Ha Hs Hop) as (p & Hpe & Hf & ->).
    destruct P as [P|P]; [rewrite Hb in P; [done|by rewrite Hop]|]. destruct (P p Hpe) as (-> & q & Hq & Hc). f_equal.
    rewrite <- Hc in Hf |- *. symmetry. apply (Hcf req q); [by apply elem_of_cons; left|by apply elem_of_cons; right|done].
Qed.

Lemma outcome_true req served h resp h' :
  outcome req h resp h' -> synced h' -> collision_free (req :: served) -> lifts req h h' resp = false ->
  helper_true served h -> helper_true (req :: served) h'.
Proof.
  intros Ho Hsy Hcf Hl Ht. pose proof (outcome_applied req served h resp h' Ho Hsy Ht Hcf) as Happ.
  destruct Ho as [Hs _|t _ _ Hb Hm Hi Hh Hresp Hj Ha Hp _|Hu]; [| |done].
  { apply (helper_true_same _ h); [done|]. by apply helper_true_served. }
  split.
  - assert (Hown : record_true (req :: served) h' t).
    { intros _ Hs. exists req. rewrite Hresp in Hs. split; [by apply elem_of_cons; left|]. by split; [|auto]. }
    intros t' [Ht'|Ht']; [by assert (t' = t) as -> by congruence|]. destruct (Hj t' Ht') as [->|Hz]; [done|]. intros Hc. congruence.
  - destruct (blocked h') eqn:Eb; [by left|right].
    assert (Hr : resp_recovery_required resp = false).
    { unfold blocked in Eb. rewrite Hm in Eb. unfold unresolved in Eb. apply orb_false_elim in Eb as [_ Er]. by rewrite Hresp in Er. }
    destruct (ac_pending _ _ _ _ _ _ Ha Hr) as [(E1 & E2 & E3 & E4)|[E|(p & Hpe & Hc & Hac)]].
    + destruct Ht as [_ [Hbl|P]]; [|unfold pending_true; rewrite E1, E2; by apply pending_true_served].
      exfalso. destruct (decide (req_op req = op_reconcile)) as [Hop|Hop]; [|by rewrite Hb in Hbl].
      unfold lifts in Hl. rewrite Hop, Hbl, Eb, E3 in Hl. destruct (resp_success resp); [|done].
      specialize (E4 eq_refl). by rewrite Hop in E4.
    + intros p Hpe. congruence.
    + intros p' Hp'. assert (p' = p) as -> by congruence. rewrite Hc. split; [done|]. exists req. by split; [apply elem_of_cons; left|].
Qed.

Lemma outcome_synced req h resp h' : outcome req h resp h' -> synced h' -> synced h.
Proof. by intros [(_ & _ & _ & Hs) _|t _ _ _ _ _ _ _ _ _ _ Hs|Hs]. Qed.

Definition unmoved h h' : Prop := wt_active (h_host h') = wt_active (h_host h) /\ d_last_good (h_disk h') = d_last_good (h_disk h).
Lemma same_unmoved h h' : same_helper h h' -> unmoved h h'.
Proof. intros (_ & H2 & H3 & _). split; congruence. Qed.

Lemma outcome_refused req h resp h' :
  outcome req h resp h' -> synced h' -> steady (h_disk h) (h_host h) -> plainly_refused resp -> unmoved h h'.
Proof.
  intros [Hs _|t _ _ _ _ _ _ _ _ Ha _ _|Hu] Hsy Hst Hr; [by apply same_unmoved| |done].
  by apply (ac_refused _ _ _ _ _ _ Ha).
Qed.

(** A request that ran is answered from memory when it is sent again. *)
Lemma replayed req h t : transactional req -> wellformed req = true -> h_memory h = Some t -> tr_id t = req_id req ->
  tr_config_hash t = fingerprint_request req ->
  plainly_refused (fst (process_request (Decoded req) h)) -> plainly_refused (tr_response t).
Proof.
  intros Ht Hw Hm Hi Hh. rewrite process_transactional by done. unfold hbind.
  destruct (time_is_zero (tr_completed_at t)) eqn:Ez.
  - erewrite journal_from_memory; [|exact Hm|unfold replay_transaction_response; rewrite Hi, Hh, !String.eqb_refl, Ez; done].
    by intros [_ ?].
  - erewrite journal_from_memory; [|exact Hm|by apply replay_same]. done.
Qed.

(** Whatever happened to the first answer, a refusal of the second means that
    the first changed nothing. *)
Lemma repeated_refused req h resp h1 h2 :
  process_request (Decoded req) h = (resp, h1) -> same_helper h1 h2 -> synced h2 -> steady (h_disk h) (h_host h) ->
  wellformed req = false \/ plainly_refused (fst (process_request (Decoded req) h2)) -> unmoved h h2.
Proof.
  intros Hp (S1 & S2 & S3 & S4) Hsy Hst Hr. pose proof (process_outcome req h) as Ho. unfold hwp in Ho. rewrite Hp in Ho.
  cbn in Ho. enough (unmoved h h1) as [E1 E2] by (unfold unmoved; by rewrite S2, S3).
  destruct Ho as [Hs _|t Ht Hw _ Hm Hi Hh Hresp _ Ha _ _|Hu]; [by apply same_unmoved| |destruct Hu; auto].
  apply (ac_refused _ _ _ _ _ _ Ha); [by apply S4| |done]. rewrite <- Hresp. destruct Hr as [|Hr]; [congruence|].
  by eapply replayed; [..|exact Hr]; [| |congruence| |].
Qed.
End Journal.
