(* ===== verification/System.v ===== *)
(** * The engine and the helper together

    The two processes over their socket ([UnixClient::apply] of
    [mr-services/src/apply/ipc.rs], [handle_connection] of
    [mr-applyd/src/applyd/mod.rs]): the engine's calls are served by
    [process_request], with connections that fail and answers that are lost.
    The helper's contract of [EngineSync] is a theorem here, and with it the
    agreement of the runtime with the canonical configuration. *)

From Stdlib Require Import ZArith Ascii String Lia Bool.
From stdpp Require Import base list strings gmap.
From S2P Require Import Prelude GoStrings Net GoTime Json Model Validation Policy PolicySpec Ipc Safety Engine.
From S2P Require Import EngineSpec EngineInv EngineReach EngineSync Helper HelperSpec HelperSync.

Local Open Scope string_scope.
Local Open Scope Z_scope.
Local Open Scope list_scope.

(** ** The socket *)

(** How an exchange goes: the request never reaches the helper; the helper
    turns the peer away or cannot read the request; or it serves the request.
    The answer may be lost on the way back. *)
Inductive exchange :=
| NotSent (err : error)
| Unread (message : string) (lost : option error)
| Served (lost : option error).

(** The rest of the engine's world: the socket, the store, clocks, leases *)
Class Outside (X : Type) := {
  next_exchange : Z -> ApplyRequest -> X -> exchange * X;
  out_has_store : bool;
  out_save : SystemConfig -> X -> result unit error * X;
  out_snapshot : SystemConfig -> X -> result unit error * X;
  out_audit : string -> list (string * string) -> X -> X;
  out_clock : X -> Time * X;
  out_instant : X -> Z * X;
  out_leases : X -> DHCPLeaseSnapshot * X;
}.

(** [req.version = PROTOCOL_VERSION] on the client's copy *)
Definition versioned (r : ApplyRequest) : ApplyRequest :=
  mkApplyRequest PROTOCOL_VERSION (req_id r) (req_op r) (req_revision r) (req_config r) (req_nftables r)
    (req_pppoe_peer r) (req_pppoe_secret r) (req_dnsmasq r) (req_hostapd r) (req_wireguard r) (req_service_name r)
    (req_require_confirmation r) (req_verify_wg_client r) (req_tunnel_interface r) (req_defer_last_good r)
    (req_skip_wan_verify r).
(** [resp.timestamp = Time::now().unix()] *)
Definition timestamped (r : ApplyResponse) (t : Z) : ApplyResponse :=
  mkApplyResponse (resp_id r) (resp_success r) (resp_error r) (resp_logs r) (resp_verified r) (resp_rolled_back r)
    (resp_recovery_required r) t (resp_tunnel_status r) (resp_firewall_counters r).

Section System.
Context {UC : Unicode} {B64 : Base64} {G : Generators} {R X : Type} {H : Host R} {O : Outside X}.

(** The helper's end: [inl] a message for a connection it does not read *)
Definition respond (m : HM (Watched R) ApplyResponse) : HM (Watched R) ApplyResponse :=
  let+ resp := m in let+ now := host host_now in hret (timestamped resp (time_unix now)).
Definition handle_connection (data : string + ApplyRequest) : HM (Watched R) ApplyResponse :=
  match data with
  | inl message => respond (hret (failure EmptyString message false))
  | inr req => respond (process_request (Decoded req))
  end.

(** The client's end *)
Definition receive (req : ApplyRequest) (lost : option error) (resp : ApplyResponse) : result ApplyResponse error :=
  match lost with
  | Some err => Err err
  | None => if resp_id resp <>s req_id req then Err (Errorf "router-applyd response ID mismatch") else Ok resp
  end.

(** The helper on a watched machine, everything else, the requests served so
    far, and whether one of them lifted a block *)
Record Router := mkRouter { rt_helper : Helper (Watched R); rt_out : X; rt_served : list ApplyRequest; rt_lifted : bool }.

Definition unix_client_apply (deadline : Z) (req : ApplyRequest) (w : Router) : result ApplyResponse error * Router :=
  let '(x, o) := next_exchange deadline req (rt_out w) in
  let req := versioned req in
  match x with
  | NotSent err => (Err err, mkRouter (rt_helper w) o (rt_served w) (rt_lifted w))
  | Unread message lost =>
      let '(resp, h) := handle_connection (inl message) (rt_helper w) in
      (receive req lost resp, mkRouter h o (rt_served w) (rt_lifted w))
  | Served lost =>
      let '(resp, h) := handle_connection (inr req) (rt_helper w) in
      (receive req lost resp, mkRouter h o (req :: rt_served w) (rt_lifted w || lifts req (rt_helper w) h resp))
  end.

(** ** Each exchange *)
Implicit Types (w : Router) (req : ApplyRequest) (h : Helper (Watched R)).

Lemma unread_spec message h resp h' : handle_connection (inl message) h = (resp, h') ->
  same_helper h h' /\ resp_id resp = EmptyString /\ plainly_refused resp.
Proof.
  destruct h as [m d r]. unfold handle_connection, respond, hbind, hret, host. cbn -[watch].
  pose proof (same_helper_still m d r _ (sl_now r)) as Hs. cbn -[watch] in Hs. destruct (watch host_now r) as [now r'].
  intros Hq. simplify_eq. by split_and!.
Qed.

Lemma served_spec req h resp h' : handle_connection (inr req) h = (resp, h') ->
  exists h1, snd (process_request (Decoded req) h) = h1 /\ same_helper h1 h'
    /\ exists t, resp = timestamped (fst (process_request (Decoded req) h)) t.
Proof.
  unfold handle_connection, respond, hbind, hret, host. destruct (process_request (Decoded req) h) as [a [m d r]]. cbn -[watch].
  pose proof (same_helper_still m d r _ (sl_now r)) as Hs. cbn -[watch] in Hs. destruct (watch host_now r) as [now r'].
  intros Hq. simplify_eq. eexists. split; [done|]. split; [done|]. by eexists.
Qed.

(** The answer and the router after it, by what happened *)
Inductive exchanged (req : ApplyRequest) (w : Router) (a : result ApplyResponse error) (w' : Router) : Prop :=
| xc_unserved :
    same_helper (rt_helper w) (rt_helper w') -> rt_served w' = rt_served w -> rt_lifted w' = rt_lifted w ->
    (forall r, a = Ok r -> plainly_refused r /\ req_id req = EmptyString) -> exchanged req w a w'
| xc_served h1 resp :
    process_request (Decoded (versioned req)) (rt_helper w) = (resp, h1) -> same_helper h1 (rt_helper w') ->
    rt_served w' = versioned req :: rt_served w ->
    rt_lifted w' = rt_lifted w || lifts (versioned req) (rt_helper w) h1 resp ->
    (forall r, a = Ok r -> exists t, r = timestamped resp t) -> exchanged req w a w'.

Lemma lifts_same req h h1 h' resp t : same_helper h1 h' -> lifts req h h' (timestamped resp t) = lifts req h h1 resp.
Proof. intros (H1 & _). unfold lifts, blocked. by rewrite H1. Qed.

Lemma client_exchanged d req w a w' : unix_client_apply d req w = (a, w') -> exchanged req w a w'.
Proof.
  unfold unix_client_apply. destruct (next_exchange d req (rt_out w)) as [x o]. destruct x as [err|msg lost|lost].
  - intros Hq. simplify_eq. by apply xc_unserved.
  - destruct (handle_connection (inl msg) (rt_helper w)) as [resp h] eqn:Ec. apply unread_spec in Ec as (Hs & Hi & Hr).
    intros Hq. simplify_eq. apply xc_unserved; [done|done|done|]. intros r. unfold receive. rewrite Hi.
    destruct lost; [done|]. destruct (String.eqb_spec EmptyString (req_id (versioned req))) as [He|]; [|done].
    intros Hq. injection Hq as <-. split; [done|]. symmetry. exact He.
  - destruct (handle_connection (inr (versioned req)) (rt_helper w)) as [resp h] eqn:Ec.
    apply served_spec in Ec as (h1 & H1 & Hs & t & Ht). intros Hq. simplify_eq.
    eapply (xc_served _ _ _ _ _ (fst (process_request (Decoded (versioned req)) (rt_helper w))));
      [apply surjective_pairing|done|done| |].
    + cbn. f_equal. by apply lifts_same.
    + intros r. unfold receive. destruct lost; [done|]. destruct (negb _); [done|]. intros Hq. simplify_eq. by exists t.
Qed.

(** ** The contract *)

(** What the agreement rests on, none of which ever comes back once lost: no
    collision of fingerprints, no write that failed after its rename, no
    reconciliation that lifted a block without repairing anything *)
Definition intact w : Prop := collision_free (R := R) (rt_served w) /\ synced (rt_helper w) /\ rt_lifted w = false.

Lemma exchanged_intact req w a w' : exchanged req w a w' -> intact w' -> intact w.
Proof.
  intros [(_ & _ & _ & Hs) El Ef _|h1 resp Hp Hs El Ef _]; unfold intact; rewrite El, Ef; intros (H1 & H2 & H3).
  - by auto.
  - split; [by eapply collision_free_tail|]. split; [|by apply orb_false_elim in H3 as [? _]].
    pose proof (process_outcome (versioned req) (rt_helper w)) as Ho. unfold hwp in Ho. rewrite Hp in Ho.
    eapply outcome_synced; [exact Ho|]. by apply Hs.
Qed.

Definition truthful w : Prop := intact w -> helper_true (rt_served w) (rt_helper w).

Lemma exchanged_truthful req w a w' : exchanged req w a w' -> truthful w -> truthful w'.
Proof.
  intros Hx T Hi. specialize (T (exchanged_intact _ _ _ _ Hx Hi)). destruct Hi as (Hc & Hs & Hl).
  destruct Hx as [Hsame El _ _|h1 resp Hp Hsame El Ef _]; rewrite El in *; [by eapply helper_true_same|].
  apply (helper_true_same _ h1); [done|]. rewrite Ef in Hl. apply orb_false_elim in Hl as [_ Hl].
  pose proof (process_outcome (versioned req) (rt_helper w)) as Ho. unfold hwp in Ho. rewrite Hp in Ho.
  eapply outcome_true; [exact Ho| |done|done|done]. by apply Hsame.
Qed.

Lemma exchanged_applied req w r w' : exchanged req w (Ok r) w' -> truthful w -> intact w' ->
  anchors req = true -> resp_success r = true -> established req (rt_helper w').
Proof.
  intros Hx T Hi Ha Hsucc. specialize (T (exchanged_intact _ _ _ _ Hx Hi)). destruct Hi as (Hc & Hsy & Hl).
  destruct Hx as [Hs _ _ Hu|h1 resp Hp Hs El _ Hr].
  { destruct (Hu r eq_refl) as [[Hf _] _]. congruence. }
  destruct (Hr r eq_refl) as [t ->]. rewrite El in Hc.
  pose proof (process_outcome (versioned req) (rt_helper w)) as Ho. unfold hwp in Ho. rewrite Hp in Ho.
  destruct (outcome_applied (versioned req) _ _ _ _ Ho (proj2 (proj2 (proj2 Hs)) Hsy) T Hc Ha Hsucc) as [E1 E2].
  destruct Hs as (_ & S2 & S3 & _). unfold established. by rewrite S2, S3.
Qed.

Lemma exchanged_refused req w r w' : exchanged req w (Ok r) w' -> intact w' ->
  steady (h_disk (rt_helper w)) (h_host (rt_helper w)) -> plainly_refused r -> unmoved (rt_helper w) (rt_helper w').
Proof.
  intros [Hs _ _ _|h1 resp Hp Hs _ _ Hr] (_ & Hsy & _) Hst Href; [by apply same_unmoved|].
  destruct (Hr r eq_refl) as [t ->]. apply Hs in Hsy as Hsy1.
  pose proof (process_outcome (versioned req) (rt_helper w)) as Ho. unfold hwp in Ho. rewrite Hp in Ho.
  destruct (outcome_refused _ _ _ _ Ho Hsy1 Hst Href) as [E1 E2]. destruct (same_unmoved _ _ Hs) as [E3 E4].
  cbn in E1, E2. split; congruence.
Qed.

(** The first of two exchanges changed nothing if the second is refused. *)
Lemma exchanged_lost req w err w1 w1' r w2 :
  exchanged req w (Err err) w1 -> rt_helper w1' = rt_helper w1 -> exchanged req w1' (Ok r) w2 -> synced (rt_helper w1) ->
  steady (h_disk (rt_helper w)) (h_host (rt_helper w)) -> plainly_refused r -> unmoved (rt_helper w) (rt_helper w1).
Proof.
  intros [Hs _ _ _|h1 resp Hp Hs _ _ _] Hw H2 Hsy Hst Href; [by apply same_unmoved|].
  apply (repeated_refused (versioned req) _ resp h1); [exact Hp|exact Hs|done|done|].
  destruct H2 as [_ _ _ Hu|h2 resp2 Hp2 _ _ _ Hr2].
  - left. destruct (Hu r eq_refl) as [_ He]. unfold wellformed. cbn. by rewrite He.
  - right. rewrite Hw in Hp2. rewrite Hp2. by destruct (Hr2 r eq_refl) as [t ->].
Qed.

(** A router whose helper tells the truth: a transaction its journal says has
    succeeded did, and what its pending file names is what runs. *)
Record Safe := mkSafe { safe_router : Router; safe_true : truthful safe_router }.

Definition elsewhere {A} (f : X -> A * X) (w : Safe) : A * Safe :=
  let x := f (rt_out (safe_router w)) in
  (fst x, mkSafe (mkRouter (rt_helper (safe_router w)) (snd x) (rt_served (safe_router w)) (rt_lifted (safe_router w))) (safe_true w)).

Lemma client_true d req (w : Safe) : truthful (snd (unix_client_apply d req (safe_router w))).
Proof.
  destruct (unix_client_apply d req (safe_router w)) as [a w'] eqn:Ec. cbn.
  eapply exchanged_truthful; [by eapply client_exchanged|]. apply safe_true.
Qed.

#[export] Instance router_env : Env Safe := {|
  client_apply d req (w : Safe) :=
    (fst (unix_client_apply d req (safe_router w)), mkSafe (snd (unix_client_apply d req (safe_router w))) (client_true d req w));
  has_store := out_has_store;
  store_save c := elsewhere (out_save c);
  store_snapshot c := elsewhere (out_snapshot c);
  store_audit k d (w : Safe) := snd (elsewhere (fun x => (tt, out_audit k d x)) w);
  clock_now := elsewhere out_clock;
  instant_now := elsewhere out_instant;
  observe_leases := elsewhere out_leases |}.

(** The active configuration; the empty one, which is never accepted, stands
    for none. *)
Definition active_of (w : Safe) : option SystemConfig := wt_active (h_host (rt_helper (safe_router w))).
Definition running_of (w : Safe) : SystemConfig := default SystemConfig_default (active_of w).
Definition baseline_of (w : Safe) : option SystemConfig :=
  match d_last_good (h_disk (rt_helper (safe_router w))) with Present c => Some c | _ => None end.
Definition trusted_router (w : Safe) : Prop := intact (safe_router w).

Lemma empty_not_live : ~ live_ok SystemConfig_default.
Proof. vm_compute. discriminate. Qed.
Lemma running_active (w : Safe) c : running_of w = c -> live_ok c -> active_of w = Some c.
Proof. unfold running_of. destruct (active_of w) as [c'|]; cbn; [by intros ->|]. intros <- Hl. by destruct empty_not_live. Qed.

Lemma settled_steady (w : Safe) : settled running_of baseline_of w ->
  steady (h_disk (rt_helper (safe_router w))) (h_host (rt_helper (safe_router w))).
Proof.
  unfold settled, baseline_of. intros [Hb Hl]. exists (running_of w). split; [|split; [by apply running_active|done]].
  revert Hb. destruct (d_last_good _); congruence.
Qed.

(** Everything the contract says of the two configurations, read off the helper *)
Lemma router_same (w w' : Safe) : unmoved (rt_helper (safe_router w)) (rt_helper (safe_router w')) ->
  running_of w' = running_of w /\ baseline_of w' = baseline_of w.
Proof. unfold running_of, active_of, baseline_of. by intros [-> ->]. Qed.

Lemma safe_exchanged d req (w : Safe) a (w' : Safe) : client_apply d req w = (a, w') -> exchanged req (safe_router w) a (safe_router w').
Proof. cbn. intros Hq. injection Hq as <- <-. cbn. apply (client_exchanged d), surjective_pairing. Qed.

#[export] Instance router_contract : HelperContract running_of baseline_of trusted_router.
Proof.
  split; try done.
  - intros d req w. pose proof (safe_exchanged d req w _ _ (surjective_pairing _)) as Hx. by eapply exchanged_intact.
  - intros d req w r w' Hx%safe_exchanged Ht Ha Hs.
    destruct (exchanged_applied _ _ _ _ Hx (safe_true w) Ht Ha Hs) as [H1 H2]. unfold running_of, active_of, baseline_of. by rewrite H1, H2.
  - intros d req w r w' Hx%safe_exchanged Ht Hst%settled_steady Hs Hr. apply router_same.
    by eapply exchanged_refused; [exact Hx| | |split].
  - intros d req w err w1 r w2 Hx%safe_exchanged Hy%safe_exchanged Ht Hst%settled_steady Hs Hr. apply router_same.
    assert (Hi : rt_helper (safe_router (snd (instant_now w1))) = rt_helper (safe_router w1)) by reflexivity.
    pose proof (exchanged_intact _ _ _ _ Hy Ht) as (_ & Hsy & _). rewrite Hi in Hsy.
    destruct (exchanged_lost _ _ _ _ _ _ _ Hx Hi Hy Hsy Hst (conj Hs Hr)) as [E1 E2].
    assert (Hst1 : steady (h_disk (rt_helper (safe_router w1))) (h_host (rt_helper (safe_router w1)))).
    { destruct Hst as (c & ? & ? & ?). exists c. by rewrite E1, E2. }
    rewrite <- Hi in Hst1. destruct (exchanged_refused _ _ _ _ Hy Ht Hst1 (conj Hs Hr)) as [E3 E4].
    rewrite Hi in E3, E4. split; congruence.
Qed.


End System.
