(* ===== verification/SystemRuns.v ===== *)
(** * Runs of the helper, and of the engine and the helper together

    A scripted machine for router-applyd, and runs of [process_request] on it:
    an apply that becomes last-good, one that waits for its commit, a repeated
    and a blocked request, and a write whose directory sync failed.

    The same machine, watched, behind a scripted socket, and runs of the composed
    system: a change whose answer is lost after the helper applied it, one that
    is rolled back, one that never arrives, and a refused reconciliation that
    lifts the block of an unresolved transaction. *)

From Stdlib Require Import ZArith Ascii String Lia Bool.
From stdpp Require Import base list strings gmap.
From S2P Require Import Prelude GoStrings Net GoTime Json Model Validation Policy Samples Ipc Safety Engine.
From S2P Require Import EngineSpec EngineInv EngineReach EngineSync Scenarios Helper HelperSpec HelperSync System.

Local Open Scope string_scope.
Local Open Scope Z_scope.
Local Open Scope list_scope.

#[local] Existing Instance ascii_tables.

(** ** A scripted machine

    The next outcomes of its commands; after them everything succeeds. *)
Record Machine := mkMachine {
  m_running : SystemConfig;
  m_writes : list write_outcome;
  m_verifies : list bool;
  m_preflights : list bool;
  m_changes : list bool;
}.
Definition scripted (writes : list write_outcome) (verifies preflights changes : list bool) : Machine :=
  mkMachine sample writes verifies preflights changes.
Definition verdict_of (l : list bool) (message : string) : result unit error :=
  if List.hd true l then Ok tt else Err (Errorf message).
(** A change of the runtime to [c], or one that fails *)
Definition change_to (c : SystemConfig) (x : Machine) : result unit error * Machine :=
  (verdict_of (m_changes x) "command failed",
   mkMachine (if List.hd true (m_changes x) then c else m_running x) (m_writes x) (m_verifies x) (m_preflights x) (List.tl (m_changes x))).

Definition digest_of (c : ascii) : string := str_of (List.repeat c 64).

#[export] Instance machine : Host Machine := {|
  fingerprint_request req :=
    digest_of (if req_op req =s op_commit_confirmed then "2" else if req_op req =s op_reconcile then "3"
               else if req_require_confirmation req then "1" else "0")%char;
  fingerprint_config c := digest_of (if c_revision c =? 7 then "7"%char else "8"%char);
  safe_error := error_string;
  generate_wireguard_runtime _ := Ok "[Interface]";
  generate_wireguard_client_runtime _ := Ok "[Interface]";
  generate_squid_config _ := Ok "http_port 3128";
  generate_ad_block_conf _ := Ok "address=/ads/";
  generate_qos _ := Ok "cake";
  generate_cloudflare_ddns _ := Ok "provider";
  generate_cloudflare_tunnel _ := Ok "disabled";
  generate_doh_proxy _ := Ok "disabled";
  bcrypt_hash p x := (Ok ("$2a$12$" +:+ p), x);
  captured := unit;
  write_result x :=
    (List.hd Written (m_writes x),
     mkMachine (m_running x) (List.tl (m_writes x)) (m_verifies x) (m_preflights x) (m_changes x));
  clear_result x := (Cleared, x);
  read_faulty x := (false, x);
  host_now x := (mkTime (1700000000 * SECOND) None, x);
  write_candidate_files _ x := (Ok tt, x);
  preflight _ _ x :=
    (verdict_of (m_preflights x) "no space left on device",
     mkMachine (m_running x) (m_writes x) (m_verifies x) (List.tl (m_preflights x)) (m_changes x));
  capture_previous _ x := (Ok tt, x);
  install_and_activate c _ _ _ x := change_to c x;
  verify_active _ _ x :=
    (verdict_of (m_verifies x) "wrong address",
     mkMachine (m_running x) (m_writes x) (List.tl (m_verifies x)) (m_preflights x) (m_changes x));
  verify_functional_dns x := (Ok tt, x);
  verify_ddns_update x := (Ok tt, x);
  restore_previous previous _ _ x := change_to (default sample previous) x;
  restore_first_run_runtime x := (Ok tt, x);
  configure_runtime_lan _ x := (Ok tt, x);
  wg_show_dump _ x := (Err (Errorf "no such device"), x);
  firewall_counters req x := (failure (req_id req) "Firewall counters unavailable" false, x) |}.

(** The engine's request for a configuration, as the client sends it *)
Definition request_for (id : string) (c : SystemConfig) (require defer : bool) : ApplyRequest :=
  match build_apply_request id c with
  | Ok r =>
      let r := with_modes r require defer in
      mkApplyRequest PROTOCOL_VERSION (req_id r) (req_op r) (req_revision r) (req_config r) (req_nftables r)
        (req_pppoe_peer r) (req_pppoe_secret r) (req_dnsmasq r) (req_hostapd r) (req_wireguard r) EmptyString
        (req_require_confirmation r) false EmptyString (req_defer_last_good r) false
  | Err _ => bare_request id op_apply_all 0 c
  end.

Definition next_of (c : SystemConfig) : SystemConfig := with_revision c 8 time_zero.
Definition idle (writes : list write_outcome) (verifies : list bool) : Helper Machine :=
  mkHelper None (mkDisk (Present sample) Missing Missing) (scripted writes verifies [] []).

Definition plain : ApplyRequest := request_for "tx-1" (next_of renamed) false false.
Definition waiting : ApplyRequest := request_for "tx-1" (next_of retrusted) true false.
Definition unwilling : ApplyRequest := request_for "tx-1" (next_of retrusted) false false.
Definition run (req : ApplyRequest) (h : Helper Machine) : ApplyResponse * Helper Machine :=
  process_request (Decoded req) h.

Example plain_run :
  let '(r, h) := run plain (idle [] []) in
  (resp_success r, d_last_good (h_disk h), d_pending (h_disk h), m_running (h_host h))
  = (true, Present (next_of renamed), Missing, next_of renamed).
Proof. vm_compute. reflexivity. Qed.

(** A change of the management networks needs a confirmation and says so. *)
Example unwilling_run :
  let '(r, h) := run unwilling (idle [] []) in
  (resp_error r, d_last_good (h_disk h), m_running (h_host h)) = ("this change requires confirmation", Present sample, sample).
Proof. vm_compute. reflexivity. Qed.

(** A runtime that does not verify is rolled back. *)
Example unverified_run :
  let '(r, h) := run plain (idle [] [false]) in
  (resp_rolled_back r, d_last_good (h_disk h), m_running (h_host h)) = (true, Present sample, sample).
Proof. vm_compute. reflexivity. Qed.

(** The answer reports a restored previous configuration, and the machine runs
    it, but when only the directory sync after the rename failed the last-good
    file already holds the refused candidate. *)
Theorem unsynced_last_good_keeps_candidate :
  let '(r, h) := run plain (idle [Written; WrittenUnsynced] []) in
  (resp_success r, resp_rolled_back r, resp_recovery_required r, m_running (h_host h), d_last_good (h_disk h))
  = (false, true, false, sample, Present (next_of renamed)).
Proof. vm_compute. reflexivity. Qed.

(** ** The theorems on these runs *)
Definition after_plain : Helper Machine := snd (run plain (idle [] [])).
Lemma memory_changed : h_memory after_plain <> h_memory (idle [] []).
Proof. vm_compute. discriminate. Qed.

(** The same request again, on another machine with other files *)
Definition elsewhere : Helper Machine :=
  mkHelper (h_memory after_plain) (mkDisk Missing Broken Missing) (mkMachine retrusted [WriteFailed] [false] [] []).
Lemma request_is_executed_once_witness : run plain elsewhere = (fst (run plain (idle [] [])), elsewhere).
Proof.
  refine (proj1 (request_is_executed_once (UC := ascii_tables) (B64 := rfc4648) plain (idle [] [])
    (fst (run plain (idle [] []))) after_plain _ _ _ memory_changed) _ _).
  - intros r. vm_compute. reflexivity.
  - split; vm_compute; discriminate.
  - apply surjective_pairing.
Defined.

Definition after_waiting : Helper Machine := snd (run waiting (idle [] [])).
Lemma success_is_durable_witness : persisted waiting (h_disk (idle [] [])) (h_disk after_waiting).
Proof.
  apply (success_is_durable (UC := ascii_tables) (B64 := rfc4648) waiting (idle [] []) (fst (run waiting (idle [] [])))
    after_waiting).
  - split; vm_compute; discriminate.
  - apply surjective_pairing.
  - vm_compute. discriminate.
  - vm_compute. reflexivity.
Defined.

(** The commit of the pending configuration finds the runtime gone; the next
    attempt, under a new id, is refused unseen. *)
Definition commit_request (id : string) : ApplyRequest :=
  let r := commit_ack_request id (next_of retrusted) in
  mkApplyRequest PROTOCOL_VERSION (req_id r) (req_op r) (req_revision r) (req_config r) EmptyString EmptyString
    EmptyString EmptyString EmptyString EmptyString EmptyString false false EmptyString false true.
Definition stuck : Helper Machine :=
  snd (run (commit_request "tx-1-commit-confirmed-1") (snd (run waiting (idle [] [true; false])))).
(** The helper restarted: only the files are left. *)
Definition restarted : Helper Machine := mkHelper None (h_disk stuck) (h_host stuck).
Definition stuck_record : TransactionRecord :=
  default (mkRecord EmptyString EmptyString empty_response time_zero time_zero) (h_memory stuck).
Lemma unresolved_transaction_blocks_witness :
  snd (run (commit_request "tx-1-commit-confirmed-2") stuck) = stuck
  /\ resp_success (fst (run (commit_request "tx-1-commit-confirmed-2") stuck)) = false
  /\ resp_success (fst (run (commit_request "tx-1-commit-confirmed-2") restarted)) = false.
Proof.
  destruct (unresolved_transaction_blocks (UC := ascii_tables) (B64 := rfc4648) (commit_request "tx-1-commit-confirmed-2")
    stuck stuck_record) as (H1 & H2 & _); [left; vm_compute; reflexivity|vm_compute; reflexivity|vm_compute; discriminate
    |split; vm_compute; discriminate|vm_compute; discriminate|].
  destruct (unresolved_transaction_blocks (UC := ascii_tables) (B64 := rfc4648) (commit_request "tx-1-commit-confirmed-2")
    restarted stuck_record) as (_ & H3 & _); [right; split; [reflexivity|split; vm_compute; reflexivity]|vm_compute; reflexivity
    |vm_compute; discriminate|split; vm_compute; discriminate|vm_compute; discriminate|].
  split; [|split; [exact H2|exact H3]]. destruct H1 as [H1|[H1 _]]; [exact H1|vm_compute in H1; discriminate H1].
Defined.

Lemma idle_memory_ok writes verifies : memory_ok (h_memory (idle writes verifies)).
Proof. intros t Ht. discriminate Ht. Qed.

Lemma helper_answers_consistently_witness :
  response_validate (fst (run plain (idle [] [false]))) = Ok tt /\ resp_id (fst (run plain (idle [] [false]))) = "tx-1".
Proof.
  destruct (helper_answers_consistently (UC := ascii_tables) (B64 := rfc4648) plain (idle [] [false])
    (fst (run plain (idle [] [false]))) (snd (run plain (idle [] [false]))) (idle_memory_ok _ _)) as (H1 & H2 & _).
  - vm_compute. discriminate.
  - apply surjective_pairing.
  - split; [exact H1|exact H2].
Defined.

Lemma last_good_changes_when_entitled_witness : entitled plain (h_disk (idle [] [])).
Proof.
  destruct (last_good_changes_when_entitled (UC := ascii_tables) (B64 := rfc4648) plain (idle [] [])
    (fst (run plain (idle [] []))) after_plain (idle_memory_ok _ _)) as [H1|(_ & _ & H1)].
  - vm_compute. discriminate.
  - apply surjective_pairing.
  - vm_compute in H1. discriminate H1.
  - exact H1.
Defined.

Definition generated : result Artifacts error * Helper Machine := generate_artifacts (req_config plain) (idle [] []).
Lemma artifacts_match_iff_witness : carries_artifacts_of plain (req_config plain).
Proof.
  destruct (fst generated) as [gen|e] eqn:Hg; [|vm_compute in Hg; discriminate Hg].
  apply (artifacts_match_iff (R := Machine) plain (idle [] []) gen (snd generated)).
  - unfold generated in *. rewrite <- Hg. apply surjective_pairing.
  - vm_compute in Hg. injection Hg as <-. vm_compute. reflexivity.
Defined.

Lemma engine_requests_match_witness : exists req,
  build_apply_request "tx-1" renamed = Ok req /\ carries_artifacts_of (with_op req op_reconcile) renamed.
Proof.
  destruct (build_apply_request "tx-1" renamed) as [req|e] eqn:Hb; [|vm_compute in Hb; discriminate Hb].
  exists req. split; [reflexivity|].
  exact (proj1 (proj2 (engine_requests_match "tx-1" renamed req true false op_reconcile Hb))).
Defined.



(** ** The machine and the socket *)

(** The next exchanges; after them every request is served *)
Definition Socket : Type := list exchange.
#[local] Instance socket : Outside Socket := {|
  next_exchange _ _ x := (List.hd (Served None) x, List.tl x);
  out_has_store := true;
  out_save _ x := (Ok tt, x);
  out_snapshot _ x := (Ok tt, x);
  out_audit _ _ x := x;
  out_clock x := (mkTime (1700000000 * SECOND) None, x);
  out_instant x := (0, x);
  out_leases x := (mkDHCPLeaseSnapshot (mkDHCPLeaseStatus true time_zero false 0 EmptyString) [], x) |}.

Abbreviation Rig := (Safe (R := Machine) (X := Socket)).

Definition rig (verifies preflights changes : list bool) (socket : Socket) : Router (R := Machine) (X := Socket) :=
  mkRouter (mkHelper None (mkDisk (Present sample) Missing Missing)
    (mkWatched (scripted [] verifies preflights changes) (Some sample) true)) socket [] false.
Lemma rig_truthful verifies preflights changes socket : truthful (rig verifies preflights changes socket).
Proof. intros _. split; [intros t [Ht|Ht]; discriminate Ht|right; intros p Hp; discriminate Hp]. Qed.
Definition powered (verifies preflights changes : list bool) (socket : Socket) : Rig :=
  mkSafe (rig verifies preflights changes socket) (rig_truthful verifies preflights changes socket).

Definition asked (cfg : SystemConfig) (w : Rig) : (Transaction * result unit error) * Sys Rig :=
  process (UC := ascii_tables) (B64 := rfc4648) "tx-1" cfg false None (mkSys (engine_new sample) [] w).
Abbreviation changed := (asked renamed).
Definition ran_in (x : (Transaction * result unit error) * Sys Rig) : option SystemConfig := active_of (s_world (snd x)).

(** ** The runs *)

(** The answer is lost; the second attempt is answered from the journal, and
    the commit follows. *)
Definition lost_answer : Rig := powered [] [] [] [Served (Some (Errorf "timed out")); Served None].

Example lost_answer_run :
  (tx_state (fst (fst (changed lost_answer))), c_revision <$> ran_in (changed lost_answer),
   List.length (rt_served (safe_router (s_world (snd (changed lost_answer))))))
  = (Committed, Some 8, 3%nat).
Proof. vm_compute. reflexivity. Qed.

(** The helper cannot be reached; the runtime does not verify. *)
Example failing_runs :
  let unreachable := powered [] [] [] [NotSent (Errorf "connection refused"); NotSent (Errorf "connection refused")] in
  let unverified := powered [false] [] [] [] in
  (tx_state (fst (fst (changed unreachable))), ran_in (changed unreachable),
   tx_state (fst (fst (changed unverified))), ran_in (changed unverified))
  = (RecoveryRequired, Some sample, RolledBack, Some sample).
Proof. vm_compute. reflexivity. Qed.


(** A reconciliation refused by its preflight lifts the block: a change waits for
    its confirmation, its rollback fails half-way, the reconciliation cannot
    write its candidate files, and the confirmation then succeeds although the
    runtime was left half-way between two configurations. *)
Definition half_way : Sys Rig :=
  snd (reconcile 100
    (snd (rollback_expired "tx-1"
      (snd (asked retrusted (powered [] [true; true; false] [true; false; false] [])))))).
Definition confirmed_half_way : (option Transaction * result unit error) * Sys Rig :=
  confirm_transaction "tx-1" half_way.
Example refused_reconciliation_lifts_block :
  let s := snd confirmed_half_way in
  (active_of (s_world s), is_ok (snd (fst confirmed_half_way)), st_recovery_required (s_st s),
   is_none (st_pending (s_st s)), rt_lifted (safe_router (s_world s)))
  = (None, true, false, true, true).
Proof. vm_compute. reflexivity. Qed.


