(* ===== verification/Redaction.v ===== *)
(** * The public view of a configuration

    [mr-api/src/api/redaction.rs]: secrets are replaced by a placeholder before
    a configuration leaves the router, and unchanged placeholders are resolved
    back before a candidate is previewed or applied. *)

From Stdlib Require Import ZArith Ascii String Lia Bool.
From stdpp Require Import base list strings gmap.
From S2P Require Import Prelude GoStrings Net GoTime Json Model Validation Policy Ipc Safety Engine.

Local Open Scope string_scope.
Local Open Scope Z_scope.
Local Open Scope list_scope.

Definition REDACTED_SECRET : string := "[REDACTED]".

(** Assignments to the fields that hold secrets *)
Definition with_wan_password (w : WANSettings) (p : string) : WANSettings :=
  mkWANSettings (wan_interface w) (wan_enabled w) (wan_username w) p (wan_mtu w).
Definition with_psk (p : WireGuardPeer) (k : string) : WireGuardPeer :=
  mkWireGuardPeer (peer_id p) (peer_name p) (peer_public_key p) k (peer_allowed_ips p) (peer_endpoint p) (peer_enabled p).
Definition with_wg_secrets (w : WireGuardConfig) (key : string) (peer : WireGuardPeer -> WireGuardPeer) : WireGuardConfig :=
  mkWireGuardConfig (wg_enabled w) (wg_interface w) key (wg_listen_port w) (wg_address w)
    (mkList (map peer (items (wg_peers w))) (nil_flag (wg_peers w))).
Definition with_client_secrets (w : WGClientConfig) (key psk : string) : WGClientConfig :=
  mkWGClientConfig (wgc_enabled w) (wgc_interface w) key (wgc_address w) (wgc_public_key w) psk (wgc_endpoint w)
    (wgc_allowed_ips w) (wgc_persistent_keepalive w).
Definition with_tokens (c : CloudflareConfig) (api tunnel : string) : CloudflareConfig :=
  mkCloudflareConfig (cf_ddns_enabled c) (cf_ddns_provider c) (cf_ddns_user c) api (cf_zone_id c) (cf_zone_name c)
    (cf_domain c) (cf_tunnel_enabled c) (cf_tunnel_hostname c) tunnel.
Definition with_squid_password (s : SquidProxyConfig) (p : string) : SquidProxyConfig :=
  mkSquidProxyConfig (squid_enabled s) (squid_port s) (squid_username s) p (squid_restricted_ips s).
Definition with_passphrase (w : WiFiConfig) (p : string) : WiFiConfig :=
  mkWiFiConfig (wifi_enabled w) (wifi_interface w) (wifi_ssid w) p (wifi_band w) (wifi_channel w) (wifi_hide_ssid w).

(** The secrets of a configuration; the preshared keys are told by position. *)
Record Secrets := mkSecrets {
  se_wan_password : string;
  se_private_key : string;
  se_client_key : string;
  se_client_psk : string;
  se_api_token : string;
  se_tunnel_token : string;
  se_squid_password : string;
  se_passphrase : string;
}.
Definition with_secrets (c : SystemConfig) (s : Secrets) (peer : WireGuardPeer -> WireGuardPeer) : SystemConfig :=
  mkSystemConfig (c_revision c) (c_updated_at c) (c_system c) (with_wan_password (c_wan c) (se_wan_password s))
    (c_lan c) (c_dhcp c) (c_dns c) (c_firewall c) (with_wg_secrets (c_wireguard c) (se_private_key s) peer)
    (with_client_secrets (c_wg_client c) (se_client_key s) (se_client_psk s))
    (with_tokens (c_cloudflare c) (se_api_token s) (se_tunnel_token s))
    (with_squid_password (c_squid_proxy c) (se_squid_password s)) (c_adguard c) (c_qos c)
    (with_passphrase (c_wifi c) (se_passphrase s)) (c_accounting c) (c_trusted_networks c).
Definition secrets (c : SystemConfig) : Secrets :=
  mkSecrets (wan_password (c_wan c)) (wg_private_key (c_wireguard c)) (wgc_private_key (c_wg_client c))
    (wgc_preshared_key (c_wg_client c)) (cf_api_token (c_cloudflare c)) (cf_tunnel_token (c_cloudflare c))
    (squid_password (c_squid_proxy c)) (wifi_passphrase (c_wifi c)).

(** An absent preshared key stays visibly absent. *)
Definition redact_psk (k : string) : string := if is_empty k then k else REDACTED_SECRET.
Definition redact_peer (p : WireGuardPeer) : WireGuardPeer := with_psk p (redact_psk (peer_preshared_key p)).
Definition redact_config (cfg : SystemConfig) : SystemConfig :=
  with_secrets cfg
    (mkSecrets REDACTED_SECRET REDACTED_SECRET REDACTED_SECRET (redact_psk (wgc_preshared_key (c_wg_client cfg)))
       REDACTED_SECRET REDACTED_SECRET REDACTED_SECRET REDACTED_SECRET)
    redact_peer.
Definition redact_transaction (tx : option Transaction) : option Transaction :=
  (fun tx => with_tx_config tx (redact_config (tx_config tx))) <$> tx.

(** The only peer with the identifier, and the public key when one is given *)
Definition unique_wireguard_peer (peers : list WireGuardPeer) (id public_key : string) : option WireGuardPeer :=
  if is_empty id then None
  else
    match List.filter (fun p => (peer_id p =s id) && (is_empty public_key || (peer_public_key p =s public_key))) peers with
    | [p] => Some p
    | _ => None
    end.

Definition restore_secret (value original : string) : string := if value =s REDACTED_SECRET then original else value.
Definition restore_peer (peers : list WireGuardPeer) (p : WireGuardPeer) : WireGuardPeer :=
  if peer_preshared_key p <>s REDACTED_SECRET then p
  else
    match unique_wireguard_peer peers (peer_id p) (peer_public_key p) with
    | Some existing => with_psk p (peer_preshared_key existing)
    | None => p
    end.
Definition restore_redacted_config (candidate current : SystemConfig) : SystemConfig :=
  let s := secrets candidate in
  let o := secrets current in
  with_secrets candidate
    (mkSecrets (restore_secret (se_wan_password s) (se_wan_password o))
       (restore_secret (se_private_key s) (se_private_key o))
       (restore_secret (se_client_key s) (se_client_key o))
       (restore_secret (se_client_psk s) (se_client_psk o))
       (restore_secret (se_api_token s) (se_api_token o))
       (restore_secret (se_tunnel_token s) (se_tunnel_token o))
       (restore_secret (se_squid_password s) (se_squid_password o))
       (restore_secret (se_passphrase s) (se_passphrase o)))
    (restore_peer (items (wg_peers (c_wireguard current)))).

(** ** What the public view keeps and hides *)
Lemma with_secrets_id c f : Forall (fun p => f p = p) (items (wg_peers (c_wireguard c))) -> with_secrets c (secrets c) f = c.
Proof.
  intro H. destruct c as [r u sy [] l d dn fw [e i k p a [ps nf]] [] [] [] ag q [] ac t].
  unfold with_secrets, with_wg_secrets. cbn in *. rewrite (map_ext_in f (fun x => x)), map_id; [reflexivity |].
  intros x Hx. rewrite Forall_forall in H. apply H. rewrite list_elem_of_In. exact Hx.
Qed.

(** Every preshared key belongs to the only peer with its identifier and public
    key. *)
Definition keyed_peers (peers : list WireGuardPeer) : Prop :=
  forall p, p ∈ peers -> peer_preshared_key p <> EmptyString ->
    unique_wireguard_peer peers (peer_id p) (peer_public_key p) = Some p.

Lemma restore_redacted value : restore_secret REDACTED_SECRET value = value.
Proof. unfold restore_secret. rewrite String.eqb_refl. reflexivity. Qed.
Lemma restore_redacted_psk value : restore_secret (redact_psk value) value = value.
Proof.
  unfold redact_psk, restore_secret. destruct (is_empty value) eqn:E; [destruct value; [reflexivity | discriminate] |].
  rewrite String.eqb_refl. reflexivity.
Qed.
Lemma restore_redacted_peer peers p : keyed_peers peers -> p ∈ peers -> restore_peer peers (redact_peer p) = p.
Proof.
  intros Hk Hp. unfold restore_peer, redact_peer, redact_psk. cbn.
  destruct (is_empty (peer_preshared_key p)) eqn:E.
  - destruct p as [i n k [|] al e en]; [reflexivity | discriminate].
  - rewrite String.eqb_refl. cbn. rewrite (Hk p Hp); [destruct p; reflexivity |].
    intro H. rewrite H in E. discriminate.
Qed.

(** [f] changes nothing of a peer but the value of a key that is there. *)
Definition changes_keys_only (f : WireGuardPeer -> WireGuardPeer) (peers : list WireGuardPeer) : Prop :=
  forall p, p ∈ peers -> exists k, f p = with_psk p k /\ is_empty k = is_empty (peer_preshared_key p).

Lemma redact_hides_peers f peers : changes_keys_only f peers -> map redact_peer (map f peers) = map redact_peer peers.
Proof.
  intro H. rewrite map_map. apply map_ext_in. intros p Hp. destruct (H p) as (k & -> & Hk); [rewrite list_elem_of_In; exact Hp |].
  unfold redact_peer, redact_psk. cbn [peer_preshared_key with_psk]. rewrite Hk. destruct (is_empty (peer_preshared_key p)) eqn:E; [|reflexivity].
  destruct k; [|discriminate]. destruct (peer_preshared_key p); [reflexivity | discriminate].
Qed.

(** The secrets of [cfg] put back into its public view *)
Lemma restored_view cfg : keyed_peers (items (wg_peers (c_wireguard cfg))) ->
  with_secrets (redact_config cfg)
    (mkSecrets (wan_password (c_wan cfg)) (wg_private_key (c_wireguard cfg)) (wgc_private_key (c_wg_client cfg))
       (wgc_preshared_key (c_wg_client cfg)) (cf_api_token (c_cloudflare cfg)) (cf_tunnel_token (c_cloudflare cfg))
       (squid_password (c_squid_proxy cfg)) (wifi_passphrase (c_wifi cfg)))
    (restore_peer (items (wg_peers (c_wireguard cfg)))) = cfg.
Proof.
  intro Hk. transitivity (with_secrets cfg (secrets cfg) (fun p => p)); [|apply with_secrets_id, Forall_forall; reflexivity].
  unfold with_secrets, with_wg_secrets. cbn. do 2 f_equal. f_equal. rewrite map_map. apply map_ext_in.
  intros p Hp. apply restore_redacted_peer; [exact Hk | rewrite list_elem_of_In; exact Hp].
Qed.

(** C34: The public view of a configuration hides its secrets and loses none: two
    configurations that differ only in the values of their secrets have the same
    public view, and submitting the public view unchanged gives back the
    configuration, secrets included, when every preshared key belongs to the only
    peer with its identifier and public key. *)
Theorem public_view_hides_and_keeps cfg :
  (forall s f, is_empty (se_client_psk s) = is_empty (wgc_preshared_key (c_wg_client cfg)) ->
     changes_keys_only f (items (wg_peers (c_wireguard cfg))) -> redact_config (with_secrets cfg s f) = redact_config cfg)
  /\ (keyed_peers (items (wg_peers (c_wireguard cfg))) -> restore_redacted_config (redact_config cfg) cfg = cfg).
Proof.
  split.
  - intros s f Hc Hf. unfold redact_config, with_secrets, with_wg_secrets. cbn. rewrite (redact_hides_peers _ _ Hf).
    unfold redact_psk. rewrite Hc. destruct (is_empty (wgc_preshared_key (c_wg_client cfg))) eqn:E; [|reflexivity].
    destruct (se_client_psk s); [|discriminate]. destruct (wgc_preshared_key (c_wg_client cfg)); [reflexivity | discriminate].
  - intro Hk. unfold restore_redacted_config.
    change (secrets (redact_config cfg)) with (mkSecrets REDACTED_SECRET REDACTED_SECRET REDACTED_SECRET
      (redact_psk (wgc_preshared_key (c_wg_client cfg))) REDACTED_SECRET REDACTED_SECRET REDACTED_SECRET REDACTED_SECRET).
    cbn [se_wan_password se_private_key se_client_key se_client_psk se_api_token se_tunnel_token se_squid_password se_passphrase].
    rewrite !restore_redacted. change (se_client_psk (secrets cfg)) with (wgc_preshared_key (c_wg_client cfg)).
    rewrite restore_redacted_psk. apply (restored_view cfg), Hk.
Qed.
