(* ===== verification/Throttle.v ===== *)
(** * The audit of rejected requests

    [mr-api/src/api/audit.rs]: rejections are recorded at a bounded rate per
    event type and source, and in total; what is suppressed is marked once per
    window and counted. *)

From Stdlib Require Import ZArith Ascii String Lia Bool.
From stdpp Require Import base list strings gmap.
From S2P Require Import Prelude GoStrings Net GoTime Json Model Validation.

Local Open Scope string_scope.
Local Open Scope Z_scope.
Local Open Scope list_scope.

Definition AUDIT_THROTTLE_WINDOW : Z := MINUTE.
Definition AUDIT_THROTTLE_PER_SOURCE : Z := 10.
Definition AUDIT_THROTTLE_GLOBAL : Z := 120.
Definition AUDIT_THROTTLE_MAX_SOURCES : Z := 1024.

Record AuditThrottle := mkThrottle {
  at_window_start : option Time;
  at_total : Z;
  at_per_source : gmap string Z;
  at_suppressed : Z;
  at_marked : bool;
}.
Definition AuditThrottle_default : AuditThrottle := mkThrottle None 0 ∅ 0 false.

Record Decision := mkDecision {
  dc_record : bool;
  dc_mark_suppression : bool;
  dc_previous_suppressed : Z;
  dc_previous_window_start : option Time;
}.

Definition window_expired (window_start : option Time) (now : Time) : bool :=
  match window_start with
  | None => true
  | Some start => (AUDIT_THROTTLE_WINDOW <=? time_sub now start) || time_before now start
  end.
(** The state in the window that holds [now], and what is reported of the last *)
Definition open_window (t : AuditThrottle) (now : Time) : AuditThrottle * Z * option Time :=
  if window_expired (at_window_start t) now then
    (mkThrottle (Some now) 0 ∅ 0 false, at_suppressed t,
     if 0 <? at_suppressed t then at_window_start t else None)
  else (t, 0, None).

Definition admit_event (t : AuditThrottle) (key : string) (now : Time) : Decision * AuditThrottle :=
  let '(t, previous, start) := open_window t now in
  let count := at_per_source t !! key in
  if (AUDIT_THROTTLE_GLOBAL <=? at_total t) || (AUDIT_THROTTLE_PER_SOURCE <=? default 0 count)
     || (is_none count && (AUDIT_THROTTLE_MAX_SOURCES <=? Z.of_nat (size (at_per_source t))))
  then
    (mkDecision false (negb (at_marked t)) previous start,
     mkThrottle (at_window_start t) (at_total t) (at_per_source t) (at_suppressed t + 1) true)
  else
    (mkDecision true false previous start,
     mkThrottle (at_window_start t) (at_total t + 1) (<[key := default 0 count + 1]> (at_per_source t)) (at_suppressed t) (at_marked t)).

(** ** Runs *)

(** The clock read at [n] nanoseconds *)
Definition at_ns (n : Z) : Time := mkTime n (Some n).

(** A run of the throttle, latest request first: its time, its key and whether
    it was recorded; and the number of suppressions reported *)
Inductive throttled : AuditThrottle -> list (Z * string * bool) -> Z -> Prop :=
| throttled_start : throttled AuditThrottle_default [] 0
| throttled_admit t h n key now d t' :
    throttled t h n -> (forall last key r h', h = (last, key, r) :: h' -> last <= now) ->
    admit_event t key (at_ns now) = (d, t') ->
    throttled t' ((now, key, dc_record d) :: h) (n + dc_previous_suppressed d).

(** The recorded requests of a run from [a] on and before [b], of one key or all *)
Definition recorded (key : option string) (a b : Z) (h : list (Z * string * bool)) : Z :=
  Z.of_nat (List.length (List.filter (fun '(t, k, r) =>
    r && match key with Some key => k =s key | None => true end && (a <=? t) && (t <? b)) h)).
Definition dropped (h : list (Z * string * bool)) : Z :=
  Z.of_nat (List.length (List.filter (fun '(_, _, r) => negb r) h)).

(** ** A window of fixed length

    [s] is the start of the current window, [c] what was recorded in it and
    [limit] the most a window takes. *)
Section Window.
Context (key : option string) (limit : Z).

Ltac case_if := repeat match goal with
  | |- context [if ?b then _ else _] => destruct b
  | H : context [if ?b then _ else _] |- _ => destruct b
  end.

Record Fixed (s c now : Z) (h : list (Z * string * bool)) : Prop := {
  fixed_now : s <= now;
  fixed_past : forall t k r, In (t, k, r) h -> t <= now /\ t < s + AUDIT_THROTTLE_WINDOW;
  fixed_here : forall b, recorded key s b h <= c;
  fixed_count : c <= recorded key s (now + 1) h;
  fixed_limit : c <= limit;
  fixed_before : forall a, s <= a + AUDIT_THROTTLE_WINDOW -> recorded key a s h <= limit;
  fixed_any : forall a, recorded key a (a + AUDIT_THROTTLE_WINDOW) h <= 2 * limit;
}.

Lemma recorded_nonneg a b h : 0 <= recorded key a b h.
Proof. unfold recorded. lia. Qed.
Lemma recorded_cons a b t k r h :
  recorded key a b ((t, k, r) :: h)
  = recorded key a b h + (if r && match key with Some key => k =s key | None => true end && (a <=? t) && (t <? b) then 1 else 0).
Proof. unfold recorded. cbn [List.filter]. destruct (_ && _ && _ && _); cbn [List.length]; lia. Qed.
Lemma recorded_split a s b h : recorded key a b h <= recorded key a s h + recorded key s b h.
Proof.
  induction h as [|[[t k] r] h IH]; [unfold recorded; cbn [List.filter List.length]; lia|]. rewrite !recorded_cons.
  destruct (r && match key with Some key => k =s key | None => true end); cbn -[recorded]; [|lia].
  destruct (a <=? t) eqn:E1, (t <? b) eqn:E2, (t <? s) eqn:E3, (s <=? t) eqn:E4; cbn -[recorded]; lia.
Qed.
Lemma recorded_mono a b a' b' h : a' <= a -> b <= b' -> recorded key a b h <= recorded key a' b' h.
Proof.
  intros Ha Hb. induction h as [|[[t k] r] h IH]; [unfold recorded; cbn [List.filter List.length]; lia|]. rewrite !recorded_cons.
  destruct (r && match key with Some key => k =s key | None => true end); cbn -[recorded]; [|lia].
  destruct (a <=? t) eqn:E1, (t <? b) eqn:E2, (a' <=? t) eqn:E3, (t <? b') eqn:E4; cbn -[recorded]; lia.
Qed.
Lemma recorded_none a b h : (forall t k r, In (t, k, r) h -> t < a) -> recorded key a b h = 0.
Proof.
  induction h as [|[[t k] r] h IH]; intros Hh; [reflexivity|]. rewrite recorded_cons, IH by (intros; eapply Hh; right; eauto).
  pose proof (Hh t k r (or_introl eq_refl)) as Ht. replace (a <=? t) with false by lia. rewrite andb_false_r. reflexivity.
Qed.

(** A request recorded, or not, in the current window *)
Definition counts (k : string) (r : bool) : Z := if r && match key with Some key => k =s key | None => true end then 1 else 0.
Lemma fixed_step s c now h now' k r : Fixed s c now h -> now <= now' < s + AUDIT_THROTTLE_WINDOW -> c + counts k r <= limit ->
  Fixed s (c + counts k r) now' ((now', k, r) :: h).
Proof.
  unfold counts. intros [F1 F2 F3 F7 F4 F5 F6] Hn Hc. pose proof (recorded_mono s (now + 1) s (now' + 1) h ltac:(lia) ltac:(lia)) as Hm.
  split; [lia| | | |lia| |].
  - intros t k' r' [[= <- <- <-]|Ht]; [lia|]. destruct (F2 _ _ _ Ht). lia.
  - intros b. rewrite recorded_cons. specialize (F3 b). destruct (r && _) eqn:E; cbn -[recorded] in *; [|lia].
    case_if; lia.
  - rewrite recorded_cons. replace (s <=? now') with true by lia. replace (now' <? now' + 1) with true by lia. rewrite !andb_true_r. lia.
  - intros a Ha. rewrite recorded_cons. specialize (F5 a Ha). replace (now' <? s) with false by lia. rewrite andb_false_r. lia.
  - intros a. pose proof (recorded_nonneg a (a + AUDIT_THROTTLE_WINDOW) h). destruct (Z.le_gt_cases s a) as [Hs|Hs].
    + rewrite recorded_cons. pose proof (recorded_mono a (a + AUDIT_THROTTLE_WINDOW) s (a + AUDIT_THROTTLE_WINDOW) h Hs ltac:(lia)).
      specialize (F3 (a + AUDIT_THROTTLE_WINDOW)). destruct (r && _) eqn:E; cbn -[recorded] in *; case_if; lia.
    + destruct (Z.le_gt_cases s (a + AUDIT_THROTTLE_WINDOW)) as [Hw|Hw].
      * pose proof (recorded_split a s (a + AUDIT_THROTTLE_WINDOW) ((now', k, r) :: h)) as Hsp. rewrite !recorded_cons in Hsp.
        specialize (F5 a Hw). specialize (F3 (a + AUDIT_THROTTLE_WINDOW)). rewrite recorded_cons.
        replace (now' <? s) with false in Hsp by lia. rewrite andb_false_r in Hsp.
        destruct (r && _) eqn:E; cbn -[recorded] in *; case_if; lia.
      * rewrite recorded_cons. replace (now' <? a + AUDIT_THROTTLE_WINDOW) with false by lia. rewrite andb_false_r. specialize (F6 a). lia.
Qed.

Lemma fixed_later s c now h now' : Fixed s c now h -> now <= now' -> Fixed s c now' h.
Proof.
  intros [F1 F2 F3 F7 F4 F5 F6] Hn. split; [lia| |exact F3| |exact F4|exact F5|exact F6].
  - intros t k r Ht. destruct (F2 _ _ _ Ht). lia.
  - pose proof (recorded_mono s (now + 1) s (now' + 1) h ltac:(lia) ltac:(lia)). lia.
Qed.

(** A new window *)
Lemma fixed_open s c now h now' : Fixed s c now h -> s + AUDIT_THROTTLE_WINDOW <= now' -> now <= now' -> Fixed now' 0 now' h.
Proof.
  intros [F1 F2 F3 F7 F4 F5 F6] Hw Hn. pose proof (recorded_nonneg s s h) as H0. pose proof (F3 s) as Hs. split; [lia| | | | | |exact F6].
  - intros t k r Ht. destruct (F2 _ _ _ Ht). unfold AUDIT_THROTTLE_WINDOW, MINUTE, SECOND in *. lia.
  - intros b. rewrite recorded_none; [lia|]. intros t k r Ht. destruct (F2 _ _ _ Ht). lia.
  - apply recorded_nonneg.
  - lia.
  - intros a Ha. pose proof (recorded_mono a now' s now' h ltac:(lia) ltac:(lia)). specialize (F3 now'). lia.
Qed.
Lemma fixed_first now : 0 <= limit -> Fixed now 0 now [].
Proof. intros Hl. split; try (intros; unfold recorded; cbn [List.filter List.length]; lia). intros t k r []. Qed.
End Window.

(** ** The throttle *)
Lemma expired_ns s now : s <= now -> window_expired (Some (at_ns s)) (at_ns now) = (s + AUDIT_THROTTLE_WINDOW <=? now).
Proof.
  intros Hs. unfold window_expired, time_sub, time_before, at_ns, mono_delta, from_std, AUDIT_THROTTLE_WINDOW, MINUTE, SECOND, i64_max. cbn [mono].
  replace (s <=? now) with true by lia. replace (now <? s) with false by lia. rewrite orb_false_r. lia.
Qed.

(** The counters of the current window say what was recorded in it. *)
Record Counted (t : AuditThrottle) (h : list (Z * string * bool)) (s now : Z) : Prop := {
  counted_start : at_window_start t = Some (at_ns s);
  counted_total : Fixed None AUDIT_THROTTLE_GLOBAL s (at_total t) now h;
  counted_source : forall key, Fixed (Some key) AUDIT_THROTTLE_PER_SOURCE s (default 0 (at_per_source t !! key)) now h;
  counted_size : Z.of_nat (size (at_per_source t)) <= at_total t;
}.
Definition sound (t : AuditThrottle) (h : list (Z * string * bool)) : Prop :=
  match h with [] => t = AuditThrottle_default | (now, _, _) :: _ => exists s, Counted t h s now end.

(** After [open_window] the counters are those of a window that holds [now]. *)
Lemma open_counted t h now t' previous start : sound t h -> (forall last key r h', h = (last, key, r) :: h' -> last <= now) ->
  open_window t (at_ns now) = (t', previous, start) ->
  exists s, Counted t' h s now /\ now < s + AUDIT_THROTTLE_WINDOW /\ previous + at_suppressed t' = at_suppressed t.
Proof.
  intros Hs Hl Ho. unfold open_window in Ho. destruct h as [|[[last k] r] h].
  - cbn in Hs. subst t. cbn in Ho. injection Ho as <- <- _. exists now.
    split; [split; cbn; [reflexivity|apply fixed_first; done|intros key; apply fixed_first; done|rewrite map_size_empty; lia]|].
    unfold AUDIT_THROTTLE_WINDOW, MINUTE, SECOND. cbn. lia.
  - destruct Hs as (s & [Hst Ht Hk Hsz]). specialize (Hl _ _ _ _ eq_refl). pose proof (fixed_now _ _ _ _ _ _ Ht) as Hn.
    rewrite Hst, expired_ns in Ho by lia. destruct (_ <=? now) eqn:E; injection Ho as <- <- _.
    + exists now. split; [split; cbn; [reflexivity| | |]|].
      * eapply fixed_open; [exact Ht|lia|lia].
      * intros key. rewrite lookup_empty. eapply fixed_open; [apply Hk|lia|lia].
      * rewrite map_size_empty. lia.
      * unfold AUDIT_THROTTLE_WINDOW, MINUTE, SECOND. cbn. lia.
    + exists s. split; [split; [exact Hst| | |exact Hsz]|lia].
      * apply (fixed_later _ _ _ _ last); [exact Ht|lia].
      * intros key. apply (fixed_later _ _ _ _ last); [apply Hk|lia].
Qed.

Lemma admit_counted t h s now key d t' : Counted t h s now -> now < s + AUDIT_THROTTLE_WINDOW ->
  admit_event t key (at_ns now) = (d, t') ->
  Counted t' ((now, key, dc_record d) :: h) s now
  /\ at_suppressed t' = at_suppressed t + (if dc_record d then 0 else 1) /\ dc_previous_suppressed d = 0
  /\ (dc_record d = false -> AUDIT_THROTTLE_GLOBAL <= at_total t \/ AUDIT_THROTTLE_PER_SOURCE <= default 0 (at_per_source t !! key)).
Proof.
  intros [Hst Ht Hk Hsz] Hn Ha. pose proof (fixed_now _ _ _ _ _ _ Ht) as Hs. unfold admit_event, open_window in Ha.
  rewrite Hst, expired_ns in Ha by lia. replace (s + AUDIT_THROTTLE_WINDOW <=? now) with false in Ha by lia.
  assert (is_none (at_per_source t !! key) && (AUDIT_THROTTLE_MAX_SOURCES <=? Z.of_nat (size (at_per_source t))) = true ->
    AUDIT_THROTTLE_GLOBAL <= at_total t) as Hmax by (intros Hx; apply andb_prop in Hx as [_ Hx]; unfold AUDIT_THROTTLE_MAX_SOURCES, AUDIT_THROTTLE_GLOBAL in *; lia).
  destruct (_ || _ || _) eqn:E; injection Ha as <- <-; cbn -[recorded].
  - split; [split; [exact Hst| | |exact Hsz]|split; [lia|split; [reflexivity|]]].
    + rewrite <- (Z.add_0_r (at_total t)). apply (fixed_step None _ _ _ now _ now key false); [exact Ht|lia|pose proof (fixed_limit _ _ _ _ _ _ Ht); cbn; lia].
    + intros k. rewrite <- (Z.add_0_r (default 0 _)). apply (fixed_step (Some k) _ _ _ now _ now key false); [apply Hk|lia|].
      pose proof (fixed_limit _ _ _ _ _ _ (Hk k)). cbn. lia.
    + intros _. destruct (AUDIT_THROTTLE_GLOBAL <=? at_total t) eqn:E1; [left; lia|].
      destruct (AUDIT_THROTTLE_PER_SOURCE <=? _) eqn:E2; [right; lia|]. left. apply Hmax. exact E.
  - apply orb_false_elim in E as [E E3]. apply orb_false_elim in E as [E1 E2]. split; [split; [exact Hst| | |]|split; [lia|done]].
    + apply (fixed_step None _ _ _ now _ now key true); [exact Ht|lia|cbn; lia].
    + intros k. cbn [at_per_source]. destruct (decide (k = key)) as [->|Hne].
      * rewrite lookup_insert_eq. cbn. pose proof (fixed_step (Some key) _ _ _ now _ now key true (Hk key) ltac:(lia)) as Hf.
        unfold counts in Hf. rewrite String.eqb_refl in Hf. apply Hf. cbn. lia.
      * rewrite lookup_insert_ne by done. pose proof (fixed_step (Some k) _ _ _ now _ now key true (Hk k) ltac:(lia)) as Hf.
        unfold counts in Hf. replace (key =s k) with false in Hf by (symmetry; apply String.eqb_neq; congruence). cbn in Hf.
        rewrite Z.add_0_r in Hf. apply Hf. apply (fixed_limit _ _ _ _ _ _ (Hk k)).
    + cbn. rewrite map_size_insert. destruct (at_per_source t !! key); cbn [id]; lia.
Qed.

Lemma admit_after_open t t1 previous start h s now key d t' : open_window t (at_ns now) = (t1, previous, start) ->
  Counted t1 h s now -> now < s + AUDIT_THROTTLE_WINDOW -> admit_event t key (at_ns now) = (d, t') ->
  exists d1, admit_event t1 key (at_ns now) = (d1, t') /\ dc_record d1 = dc_record d /\ dc_previous_suppressed d = previous.
Proof.
  intros Eo [Hst Ht _ _] Hn Ha. pose proof (fixed_now _ _ _ _ _ _ Ht). unfold admit_event in *. rewrite Eo in Ha. unfold open_window.
  rewrite Hst, expired_ns by lia. replace (s + AUDIT_THROTTLE_WINDOW <=? now) with false by lia.
  destruct (_ || _ || _); injection Ha as <- <-; eexists; repeat split; rewrite Hst; reflexivity.
Qed.

Lemma throttled_sound t h n : throttled t h n -> sound t h /\ n + at_suppressed t = dropped h.
Proof.
  intros Hr. induction Hr as [|t h n key now d t' Hr [IHs IHn] Hl Ha]; [done|].
  destruct (open_window t (at_ns now)) as [[t1 previous] start] eqn:Eo.
  destruct (open_counted _ _ _ _ _ _ IHs Hl Eo) as (s & Hc & Hn & Hp).
  destruct (admit_after_open _ _ _ _ _ _ _ _ _ _ Eo Hc Hn Ha) as (d1 & Ha1 & Hd & ->).
  destruct (admit_counted _ _ _ _ _ _ _ Hc Hn Ha1) as (Hc' & Hs & _ & _). rewrite Hd in Hc', Hs. split; [exists s; exact Hc'|].
  unfold dropped in *. cbn [List.filter]. destruct (dc_record d); cbn [negb List.length] in *; lia.
Qed.

(** However rejected requests arrive, in any minute the log takes at most 240 of
    them, and 20 of one event type and source; one is dropped only when 120, or 10 of
    its type and source, were recorded in the last minute; and every dropped one is
    counted in a report or in the counter of the current window. *)
Theorem rejections_audited_fairly t h n : throttled t h n ->
  (forall a, recorded None a (a + AUDIT_THROTTLE_WINDOW) h <= 2 * AUDIT_THROTTLE_GLOBAL
     /\ forall key, recorded (Some key) a (a + AUDIT_THROTTLE_WINDOW) h <= 2 * AUDIT_THROTTLE_PER_SOURCE)
  /\ (forall now key h', h = (now, key, false) :: h' ->
       AUDIT_THROTTLE_GLOBAL <= recorded None (now - AUDIT_THROTTLE_WINDOW + 1) (now + 1) h'
       \/ AUDIT_THROTTLE_PER_SOURCE <= recorded (Some key) (now - AUDIT_THROTTLE_WINDOW + 1) (now + 1) h')
  /\ n + at_suppressed t = dropped h.
Proof.
  intros Hr. destruct (throttled_sound _ _ _ Hr) as [Hs Hn]. split; [|split; [|exact Hn]].
  - intros a. destruct h as [|[[now k] r] h]; [split; intros; unfold recorded, AUDIT_THROTTLE_GLOBAL, AUDIT_THROTTLE_PER_SOURCE; cbn; lia|].
    destruct Hs as (s & [_ Ht Hk _]). split; [apply (fixed_any _ _ _ _ _ _ Ht)|intros key; apply (fixed_any _ _ _ _ _ _ (Hk key))].
  - intros now key h' ->. inversion Hr as [|t0 h0 n0 key0 now0 d t1 Hr0 Hl Ha Eh]. subst.
    destruct (throttled_sound _ _ _ Hr0) as [Hs0 _].
    destruct (open_window t0 (at_ns now)) as [[t1 previous] start] eqn:Eo.
    destruct (open_counted _ _ _ _ _ _ Hs0 Hl Eo) as (s & Hc & Hw & _).
    destruct (admit_after_open _ _ _ _ _ _ _ _ _ _ Eo Hc Hw Ha) as (d1 & Ha1 & Hd & _).
    destruct (admit_counted _ _ _ _ _ _ _ Hc Hw Ha1) as (_ & _ & _ & Hf). destruct Hc as [_ Ht Hk _].
    destruct (Hf ltac:(congruence)) as [Hg|Hg]; [left|right]; (etransitivity; [exact Hg|]).
    + etransitivity; [apply (fixed_count _ _ _ _ _ _ Ht)|apply recorded_mono; lia].
    + etransitivity; [apply (fixed_count _ _ _ _ _ _ (Hk key))|apply recorded_mono; lia].
Qed.
