(* ===== verification/Http.v ===== *)
(** * HTTP messages

    [mr-config/src/httpd/mod.rs] and the body framing of [httpd/server.rs]:
    headers, queries, percent-decoding, cookies, media types, requests with
    their bodies, and responses.

    A request body is read from the input of its connection, which the body
    holds while a handler runs; the end of the input stands for a closed or
    expired connection, and deadlines are otherwise left out.  A streamed response
    is the list of what the reads of its stream return. *)

From Stdlib Require Import ZArith Ascii String Lia Bool.
From stdpp Require Import base list strings gmap.
From S2P Require Import Prelude GoStrings Net NetSpec GoTime Json Model Validation Policy Auth.

Local Open Scope string_scope.
Local Open Scope Z_scope.
Local Open Scope list_scope.

Abbreviation LF := "010"%char.
Abbreviation CR := "013"%char.

(** ** Headers *)
Definition Headers : Type := list (string * string).

Definition is_token_byte (a : ascii) : bool :=
  is_ascii_alphanumeric a || existsb (Ascii.eqb a) (bytes_of "!#$%&'*+-.^_`|~").
Definition valid_header_name (name : string) : bool := negb (is_empty name) && forallb is_token_byte (bytes_of name).

Fixpoint canonical_loop (upper : bool) (l : bytes) : bytes :=
  match l with
  | [] => []
  | c :: t => (if upper then to_ascii_upper c else to_ascii_lower c) :: canonical_loop (Ascii.eqb c "-"%char) t
  end.
Definition canonical_key (name : string) : string := str_of (canonical_loop true (bytes_of name)).

Definition to_ascii_lowercase (s : string) : string := str_of (map to_ascii_lower (bytes_of s)).
Definition eq_ignore_ascii_case (a b : string) : bool := to_ascii_lowercase a =s to_ascii_lowercase b.

Definition header_values (h : Headers) (name : string) : list string :=
  map snd (List.filter (fun kv => eq_ignore_ascii_case (fst kv) name) h).
Definition header_get (h : Headers) (name : string) : string := hd EmptyString (header_values h name).
Definition header_has (h : Headers) (name : string) : bool := existsb (fun kv => eq_ignore_ascii_case (fst kv) name) h.
Definition header_del (h : Headers) (name : string) : Headers :=
  List.filter (fun kv => negb (eq_ignore_ascii_case (fst kv) name)) h.
Definition header_add (h : Headers) (name value : string) : Headers :=
  if valid_header_name name then h ++ [(canonical_key name, value)] else h.
Definition header_set (h : Headers) (name value : string) : Headers :=
  if valid_header_name name then header_del h name ++ [(canonical_key name, value)] else h.

(** ** Percent-decoding *)

(** [String::from_utf8_lossy]: each maximal ill-formed part becomes U+FFFD. *)
Definition replacement : bytes := map byte_of [239; 191; 189].
Definition is_cont (a : ascii) : bool := (128 <=? bv a) && (bv a <=? 191).
Definition second_ok (lead : Z) (b : ascii) : bool :=
  if lead =? 224 then (160 <=? bv b) && (bv b <=? 191)
  else if lead =? 237 then (128 <=? bv b) && (bv b <=? 159)
  else if lead =? 240 then (144 <=? bv b) && (bv b <=? 191)
  else if lead =? 244 then (128 <=? bv b) && (bv b <=? 143)
  else is_cont b.
Fixpoint utf8_lossy (l : bytes) : bytes :=
  match l with
  | [] => []
  | a :: t =>
      let v := bv a in
      if v <? 128 then a :: utf8_lossy t
      else if (194 <=? v) && (v <=? 244) then
        match t with
        | [] => replacement
        | b :: t1 =>
            if negb (second_ok v b) then replacement ++ utf8_lossy t
            else if v <? 224 then a :: b :: utf8_lossy t1
            else
              match t1 with
              | [] => replacement
              | c :: t2 =>
                  if negb (is_cont c) then replacement ++ utf8_lossy t1
                  else if v <? 240 then a :: b :: c :: utf8_lossy t2
                  else
                    match t2 with
                    | [] => replacement
                    | d :: t3 => if negb (is_cont d) then replacement ++ utf8_lossy t2 else a :: b :: c :: d :: utf8_lossy t3
                    end
              end
        end
      else replacement ++ utf8_lossy t
  end.

(** [u8::from_str_radix] on two bytes takes a leading plus sign. *)
Definition hex_pair (a b : ascii) : option ascii :=
  match (if Ascii.eqb a "+"%char then Some 0 else hex_val a), hex_val b with
  | Some x, Some y => Some (byte_of (x * 16 + y))
  | _, _ => None
  end.
Fixpoint unescape_bytes (query : bool) (l : bytes) : option bytes :=
  match l with
  | [] => Some []
  | a :: t =>
      if Ascii.eqb a "%"%char then
        match t with
        | x :: y :: t' => let! b := hex_pair x y in let! out := unescape_bytes query t' in Some (b :: out)
        | _ => None
        end
      else let! out := unescape_bytes query t in Some ((if Ascii.eqb a "+"%char && query then " "%char else a) :: out)
  end.
Definition unescape (value : string) (query : bool) : option string :=
  let! out := unescape_bytes query (bytes_of value) in Some (str_of (utf8_lossy out)).

(** ** Queries *)
Definition split_once (sep : ascii) (s : string) : option (string * string) :=
  let! (x, y) := split_once_bytes sep (bytes_of s) in Some (str_of x, str_of y).
Definition Query : Type := list (string * string).
Definition query_pair (pair : string) : Query :=
  if is_empty pair || contains_char ";"%char pair then []
  else
    let '(k, v) := default (pair, EmptyString) (split_once "="%char pair) in
    match unescape k true, unescape v true with Some k, Some v => [(k, v)] | _, _ => [] end.
Definition query_parse (raw : string) : Query := concat (map query_pair (split "&"%char raw)).
Definition assoc (key : string) (l : list (string * string)) : option string :=
  snd <$> List.find (fun kv => fst kv =s key) l.
Definition query_get (q : Query) (key : string) : string := default EmptyString (assoc key q).
Definition query_has (q : Query) (key : string) : bool := existsb (fun kv => fst kv =s key) q.

(** ** Request bodies *)
Inductive io_error := UnexpectedEof | InvalidData (message : string) | BodyTooLarge.
Definition io_error_string (e : io_error) : string :=
  match e with
  | UnexpectedEof => "unexpected EOF"
  | InvalidData m => m
  | BodyTooLarge => "http: request body too large"
  end.

Record ChunkState := mkChunk { ck_remaining : Z; ck_need_crlf : bool; ck_done : bool }.
Definition ChunkState_default : ChunkState := mkChunk 0 false false.

(** [read_line_from]: a byte at a time; the line may pass [limit] by its last
    byte, a carriage return. *)
Fixpoint read_line_loop (limit : nat) (line l : bytes) : result bytes io_error * bytes :=
  match l with
  | [] => (Err UnexpectedEof, [])
  | a :: t =>
      if Ascii.eqb a LF then (Ok (rev (match line with c :: line' => if Ascii.eqb c CR then line' else line | [] => [] end)), t)
      else if Nat.ltb (limit + 1) (S (List.length line)) then (Err (InvalidData "http chunk length too large"), t)
      else read_line_loop limit (a :: line) t
  end.
Definition read_line_from (limit : nat) (l : bytes) : result string io_error * bytes :=
  let '(r, rest) := read_line_loop limit [] l in
  (match r with Ok line => Ok (str_of (utf8_lossy line)) | Err e => Err e end, rest).

(** [u64::from_str_radix(text, 16)] *)
Definition parse_hex_u64 (text : string) : option Z :=
  let l := bytes_of text in
  let digits := match l with a :: (_ :: _) => if Ascii.eqb a "+"%char then List.tl l else l | _ => l end in
  match digits with
  | [] => None
  | _ =>
      fold_left (fun n a => let! n := n in let! d := hex_val a in if 16 * n + d <=? u64_max then Some (16 * n + d) else None) digits (Some 0)
  end.

(** The trailer: lines up to an empty one *)
Fixpoint read_trailer (fuel : nat) (l : bytes) : result unit io_error * bytes :=
  match fuel with
  | O => (Err UnexpectedEof, l)
  | S fuel' =>
      match read_line_from 4096 l with
      | (Err e, rest) => (Err e, rest)
      | (Ok line, rest) => if is_empty line then (Ok tt, rest) else read_trailer fuel' rest
      end
  end.

Definition first_field (sep : ascii) (s : string) : string := hd EmptyString (split sep s).

(** The next chunk's size, when the last one is used up *)
Definition next_chunk (state : ChunkState) (l : bytes) : result unit io_error * ChunkState * bytes :=
  let '(ended, l, state) :=
    if ck_need_crlf state then
      match read_line_from 0 l with
      | (Err e, rest) => (Err e, rest, state)
      | (Ok line, rest) =>
          if is_empty line then (Ok tt, rest, mkChunk (ck_remaining state) false (ck_done state))
          else (Err (InvalidData "malformed chunked encoding"), rest, state)
      end
    else (Ok tt, l, state) in
  match ended with
  | Err e => (Err e, state, l)
  | Ok _ =>
      match read_line_from 4096 l with
      | (Err e, rest) => (Err e, state, rest)
      | (Ok line, rest) =>
          match parse_hex_u64 (trim (first_field ";"%char line)) with
          | None => (Err (InvalidData "invalid byte in chunk length"), state, rest)
          | Some size =>
              if size =? 0 then
                match read_trailer (S (List.length rest)) rest with
                | (Err e, rest) => (Err e, state, rest)
                | (Ok _, rest) => (Ok tt, mkChunk (ck_remaining state) (ck_need_crlf state) true, rest)
                end
              else (Ok tt, mkChunk size true (ck_done state), rest)
          end
      end
  end.

(** At most [n] bytes; none at the end of the input *)
Definition source_read (n : Z) (l : bytes) : bytes * bytes := (take (Z.to_nat n) l, drop (Z.to_nat n) l).

Definition read_chunked (n : Z) (state : ChunkState) (l : bytes) : result bytes io_error * ChunkState * bytes :=
  if ck_done state then (Ok [], state, l)
  else
    let '(r, state, l) := if ck_remaining state =? 0 then next_chunk state l else (Ok tt, state, l) in
    match r with
    | Err e => (Err e, state, l)
    | Ok _ =>
        if ck_done state then (Ok [], state, l)
        else
          match source_read (Z.min n (ck_remaining state)) l with
          | ([], rest) => (Err UnexpectedEof, state, rest)
          | (data, rest) =>
              (Ok data, mkChunk (ck_remaining state - Z.of_nat (List.length data)) (ck_need_crlf state) (ck_done state), rest)
          end
    end.

Record Body := mkBody {
  bd_input : bytes;
  bd_remaining : Z;
  bd_chunked : option ChunkState;
  bd_limit : option Z;
  bd_consumed : Z;
  bd_continue_pending : bool;
  bd_exceeded : bool;
}.
Definition body_framing (b : Body) (input : bytes) (remaining : Z) (chunked : option ChunkState) : Body :=
  mkBody input remaining chunked (bd_limit b) (bd_consumed b) (bd_continue_pending b) (bd_exceeded b).
Definition body_consumed (b : Body) (n : Z) : Body :=
  mkBody (bd_input b) (bd_remaining b) (bd_chunked b) (bd_limit b) (bd_consumed b + n) (bd_continue_pending b) (bd_exceeded b).
Definition body_continued (b : Body) : Body :=
  mkBody (bd_input b) (bd_remaining b) (bd_chunked b) (bd_limit b) (bd_consumed b) false (bd_exceeded b).
Definition body_exceeded (b : Body) : Body :=
  mkBody (bd_input b) (bd_remaining b) (bd_chunked b) (bd_limit b) (bd_consumed b) (bd_continue_pending b) true.
Definition body_limit (b : Body) (limit : option Z) : Body :=
  mkBody (bd_input b) (bd_remaining b) (bd_chunked b) limit (bd_consumed b) (bd_continue_pending b) (bd_exceeded b).

Definition read_framed (n : Z) (b : Body) : result bytes io_error * Body :=
  let b := body_continued b in
  match bd_chunked b with
  | Some state =>
      let '(r, state, rest) := read_chunked n state (bd_input b) in
      (r, body_framing b rest (bd_remaining b) (Some state))
  | None =>
      if bd_remaining b =? 0 then (Ok [], b)
      else
        match source_read (Z.min n (bd_remaining b)) (bd_input b) with
        | ([], rest) => (Err UnexpectedEof, body_framing b rest (bd_remaining b) None)
        | (data, rest) => (Ok data, body_framing b rest (bd_remaining b - Z.of_nat (List.length data)) None)
        end
  end.
Definition body_finished (b : Body) : bool :=
  match bd_chunked b with Some state => ck_done state | None => bd_remaining b =? 0 end.

(** [Read::read] with a buffer of [n] bytes *)
Definition body_read (n : Z) (b : Body) : result bytes io_error * Body :=
  let counted (rb : result bytes io_error * Body) :=
    match rb with
    | (Ok data, b) => (Ok data, body_consumed b (Z.of_nat (List.length data)))
    | (Err e, b) => (Err e, b)
    end in
  if n =? 0 then (Ok [], b)
  else
    match bd_limit b with
    | None => counted (read_framed n b)
    | Some limit =>
        if bd_continue_pending b && is_none (bd_chunked b) && (limit <? bd_remaining b) then
          (Err BodyTooLarge, body_exceeded (body_continued b))
        else if limit <=? bd_consumed b then
          match read_framed 1 b with
          | (Err e, b) => (Err e, b)
          | (Ok [], b) => (Ok [], b)
          | (Ok _, b) => (Err BodyTooLarge, body_exceeded b)
          end
        else counted (read_framed (Z.min (limit - bd_consumed b) n) b)
    end.

(** [read_to_end] with buffers of [n] bytes: every read consumes input. *)
Fixpoint read_loop (fuel : nat) (n : Z) (out : bytes) (b : Body) : result bytes io_error * Body :=
  match fuel with
  | O => (Err UnexpectedEof, b)
  | S fuel' =>
      match body_read n b with
      | (Err e, b) => (Err e, b)
      | (Ok [], b) => (Ok out, b)
      | (Ok data, b) => read_loop fuel' n (out ++ data) b
      end
  end.
Definition READ_BUFFER : Z := 8192.
Definition read_to_end (b : Body) : result bytes io_error * Body := read_loop (S (List.length (bd_input b))) READ_BUFFER [] b.

(** ** Requests *)
Record Request := mkRequest {
  rq_method : string;
  rq_path : string;
  rq_raw_path : string;
  rq_raw_query : string;
  rq_proto : string;
  rq_headers : Headers;
  rq_host : string;
  rq_remote_addr : string;
  rq_local_addr : string;
  rq_content_length : Z;
  rq_params : list (string * string);
  rq_session : option Session;
  rq_body : Body;
}.
Definition with_params (r : Request) (p : list (string * string)) : Request :=
  mkRequest (rq_method r) (rq_path r) (rq_raw_path r) (rq_raw_query r) (rq_proto r) (rq_headers r) (rq_host r)
    (rq_remote_addr r) (rq_local_addr r) (rq_content_length r) p (rq_session r) (rq_body r).
Definition with_session (r : Request) (s : Session) : Request :=
  mkRequest (rq_method r) (rq_path r) (rq_raw_path r) (rq_raw_query r) (rq_proto r) (rq_headers r) (rq_host r)
    (rq_remote_addr r) (rq_local_addr r) (rq_content_length r) (rq_params r) (Some s) (rq_body r).
Definition with_body (r : Request) (b : Body) : Request :=
  mkRequest (rq_method r) (rq_path r) (rq_raw_path r) (rq_raw_query r) (rq_proto r) (rq_headers r) (rq_host r)
    (rq_remote_addr r) (rq_local_addr r) (rq_content_length r) (rq_params r) (rq_session r) b.

Definition path_value (r : Request) (name : string) : string := default EmptyString (assoc name (rq_params r)).
Definition query (r : Request) : Query := query_parse (rq_raw_query r).
Definition has_body (r : Request) : bool := negb (rq_content_length r =? 0).

(** [strip_prefix(q).and_then(strip_suffix(q))] with the quotation mark *)
Definition unquoted (v : string) : option string :=
  match bytes_of v with
  | a :: t =>
      if Ascii.eqb a quote_char then
        match rev t with
        | z :: m => if Ascii.eqb z quote_char then Some (str_of (rev m)) else None
        | [] => None
        end
      else None
  | [] => None
  end.
Definition cookie_part (part : string) : string * string :=
  let part := trim part in
  let '(k, v) := default (part, EmptyString) (split_once "="%char part) in (k, default v (unquoted v)).
Definition cookie (r : Request) (name : string) : option string :=
  assoc name (map cookie_part (concat (map (split ";"%char) (header_values (rq_headers r) "Cookie")))).

Definition limit_body (r : Request) (limit : Z) : Request :=
  with_body r (body_limit (rq_body r) (Some (bd_consumed (rq_body r) + limit))).
Definition read_body (r : Request) : result bytes io_error * Request :=
  let '(data, b) := read_to_end (rq_body r) in (data, with_body r b).

(** ** Responses *)

(** A stream is given by what each read returns, up to its end. *)
Inductive ResponseBody := Bytes (b : bytes) | Stream (reads : list bytes).
Record Response := mkResponse { rs_status : Z; rs_headers : Headers; rs_body : ResponseBody }.
Definition response_new (status : Z) : Response := mkResponse status [] (Bytes []).
Definition with_header (r : Response) (name value : string) : Response :=
  mkResponse (rs_status r) (header_set (rs_headers r) name value) (rs_body r).
Definition response_bytes (status : Z) (content_type : string) (body : bytes) : Response :=
  let r := response_new status in
  let r := if is_empty content_type then r else with_header r "Content-Type" content_type in
  mkResponse (rs_status r) (rs_headers r) (Bytes body).
Definition response_json (status : Z) (value : json) : Response := response_bytes status "application/json" (marshal value ++ [LF]).
Definition response_error (message : string) (status : Z) : Response :=
  with_header (response_bytes status "text/plain; charset=utf-8" (bytes_of message ++ [LF])) "X-Content-Type-Options" "nosniff".

(** [mime.ParseMediaType] *)
Definition is_token (s : string) : bool := negb (is_empty s) && forallb is_token_byte (bytes_of s).
Fixpoint unescape_quotes (l : bytes) : bytes :=
  match l with
  | a :: ((b :: t) as l') => if Ascii.eqb a backslash && Ascii.eqb b quote_char then b :: unescape_quotes t else a :: unescape_quotes l'
  | _ => l
  end.
Fixpoint media_params (parts : list string) : option (list (string * string)) :=
  match parts with
  | [] => Some []
  | param :: rest =>
      let param := trim param in
      if is_empty param then media_params rest
      else
        let! (k, v) := split_once "="%char param in
        let k := to_ascii_lowercase (trim k) in
        if negb (is_token k) then None
        else
          let v := trim v in
          let v := match unquoted v with Some q => str_of (unescape_quotes (bytes_of q)) | None => v end in
          let! more := media_params rest in Some ((k, v) :: more)
  end.
Definition media_type (value : string) : option (string * list (string * string)) :=
  match split ";"%char value with
  | [] => None
  | first :: rest =>
      let media := to_ascii_lowercase (trim first) in
      let! (kind, sub) := split_once "/"%char media in
      if negb (is_token kind && is_token sub) then None
      else let! params := media_params rest in Some (media, params)
  end.

(** ** Lossy decoding *)

(** One step of the decoder *)
Lemma utf8_lossy_cons a t : utf8_lossy (a :: t) =
  if bv a <? 128 then a :: utf8_lossy t
  else if (194 <=? bv a) && (bv a <=? 244) then
    match t with
    | [] => replacement
    | b :: t1 =>
        if negb (second_ok (bv a) b) then replacement ++ utf8_lossy t
        else if bv a <? 224 then a :: b :: utf8_lossy t1
        else
          match t1 with
          | [] => replacement
          | c :: t2 =>
              if negb (is_cont c) then replacement ++ utf8_lossy t1
              else if bv a <? 240 then a :: b :: c :: utf8_lossy t2
              else
                match t2 with
                | [] => replacement
                | d :: t3 => if negb (is_cont d) then replacement ++ utf8_lossy t2 else a :: b :: c :: d :: utf8_lossy t3
                end
          end
    end
  else replacement ++ utf8_lossy t.
Proof. destruct t as [|b [|c [|d t]]]; reflexivity. Qed.

(** ASCII bytes end an ill-formed part. *)
Lemma utf8_lossy_ascii n : forall l a r, (List.length l <= n)%nat -> bv a < 128 -> utf8_lossy (l ++ a :: r) = utf8_lossy l ++ a :: utf8_lossy r.
Proof.
  induction n as [|n IH]; intros l a r Hn Ha.
  - destruct l; [|cbn in Hn; lia]. rewrite app_nil_l, utf8_lossy_cons. replace (bv a <? 128) with true by lia. reflexivity.
  - assert (Hc : is_cont a = false) by (unfold is_cont; lia).
    assert (Hs : forall v, second_ok v a = false) by (intros v; unfold second_ok; rewrite Hc; cases_goal; lia).
    assert (Hnil : utf8_lossy (a :: r) = a :: utf8_lossy r) by (rewrite utf8_lossy_cons; replace (bv a <? 128) with true by lia; reflexivity).
    destruct l as [|x l]; [exact Hnil|]. cbn [List.length] in Hn. rewrite <- app_comm_cons, !(utf8_lossy_cons x).
    destruct (bv x <? 128); [rewrite IH by (assumption || lia); reflexivity|].
    destruct ((194 <=? bv x) && (bv x <=? 244)); [|rewrite IH, <- app_assoc by (assumption || lia); reflexivity].
    destruct l as [|b l]; [rewrite app_nil_l, Hs; cbn [negb]; rewrite Hnil; reflexivity|].
    cbn [List.length] in Hn. rewrite <- app_comm_cons. destruct (negb (second_ok (bv x) b)); [rewrite app_comm_cons, IH, <- app_assoc by (cbn [List.length]; assumption || lia); reflexivity|].
    destruct (bv x <? 224); [rewrite IH by (assumption || lia); reflexivity|].
    destruct l as [|c l]; [rewrite app_nil_l, Hc; cbn [negb]; rewrite Hnil; reflexivity|].
    cbn [List.length] in Hn. rewrite <- app_comm_cons. destruct (negb (is_cont c)); [rewrite app_comm_cons, IH, <- app_assoc by (cbn [List.length]; assumption || lia); reflexivity|].
    destruct (bv x <? 240); [rewrite IH by (assumption || lia); reflexivity|].
    destruct l as [|d l]; [rewrite app_nil_l, Hc; cbn [negb]; rewrite Hnil; reflexivity|].
    cbn [List.length] in Hn. rewrite <- app_comm_cons. destruct (negb (is_cont d)); [rewrite app_comm_cons, IH, <- app_assoc by (cbn [List.length]; assumption || lia); reflexivity|].
    rewrite IH by (assumption || lia). reflexivity.
Qed.
Lemma utf8_lossy_id l : forallb (fun a => bv a <? 128) l = true -> utf8_lossy l = l.
Proof.
  induction l as [|a l IH]; [reflexivity|]. cbn [forallb]. intros Hl. apply andb_prop in Hl as [Ha Hl]. rewrite utf8_lossy_cons, Ha, IH by exact Hl. reflexivity.
Qed.
