(* ===== verification/HttpServer.v ===== *)
(** * HTTP connections

    [mr-config/src/httpd/server.rs]: the head of a request, the request it
    makes, the responses on the wire and the loop of a connection.

    The input of a connection is the bytes that arrive before it is closed or a
    timeout of the source ends the wait; both end the loop.  The handler is given
    with its effect on a state and the body it leaves.  TLS, the acceptor, the
    interim [100 Continue] and the lingering close are left out. *)

From Stdlib Require Import ZArith Ascii String Lia Bool.
From stdpp Require Import base list strings gmap.
From S2P Require Import Prelude GoStrings Net NetSpec GoTime Json Model Validation Policy Auth Http.

Local Open Scope string_scope.
Local Open Scope Z_scope.
Local Open Scope list_scope.

(** ** Request heads *)
Inductive HeadError := Closed | BadRequest (reason : string) | TooLarge | NotImplemented.
Record Head := mkHead { hd_method : string; hd_target : string; hd_proto : string; hd_headers : Headers }.

(** [ServerOptions::max_header_bytes] *)
Definition MAX_HEADER_BYTES : nat := 2 ^ 20.

(** [take(limit).read_until(LF)] *)
Fixpoint read_until (limit : nat) (l : bytes) : bytes * bytes :=
  match limit, l with
  | S limit', a :: t =>
      if Ascii.eqb a LF then ([a], t) else let '(line, rest) := read_until limit' t in (a :: line, rest)
  | _, _ => ([], l)
  end.
(** [line.pop()] twice: the line feed, then a carriage return *)
Definition pop_cr (line : bytes) : bytes :=
  match rev line with a :: t => if Ascii.eqb a CR then rev t else line | [] => line end.
Definition pop_line (line : bytes) : option bytes :=
  match rev line with a :: t => if Ascii.eqb a LF then Some (pop_cr (rev t)) else None | [] => None end.

(** Every line consumes input: its length is fuel enough. *)
Fixpoint head_lines (fuel max total : nat) (lines : list string) (l : bytes) : result (list string) HeadError * bytes :=
  match fuel with
  | O => (Err Closed, l)
  | S fuel' =>
      let '(line, rest) := read_until (S (max + 4096 - total)) l in
      let total := (total + List.length line)%nat in
      match line with
      | [] => (Err Closed, rest)
      | _ =>
          if Nat.ltb (max + 4096) total then (Err TooLarge, rest)
          else
            match pop_line line with
            | None => (Err Closed, rest)
            | Some [] => if (match lines with [] => true | _ => false end) then head_lines fuel' max total lines rest else (Ok lines, rest)
            | Some line => head_lines fuel' max total (lines ++ [str_of (utf8_lossy line)]) rest
            end
      end
  end.

(** [line.splitn(3, ' ')] *)
Definition request_line (line : string) : string * string * string :=
  let '(method, rest) := default (line, EmptyString) (split_once " "%char line) in
  let '(target, proto) := default (rest, EmptyString) (split_once " "%char rest) in
  (method, target, proto).

Definition is_blank (a : ascii) : bool := Ascii.eqb a " "%char || Ascii.eqb a "009"%char.
Definition trim_blanks (s : string) : string := str_of (rev (drop_while is_blank (rev (drop_while is_blank (bytes_of s))))).
Definition malformed_header : HeadError := BadRequest "malformed MIME header line".
Definition header_line (headers : Headers) (line : string) : result Headers HeadError :=
  if match bytes_of line with a :: _ => is_blank a | [] => false end then Err malformed_header
  else
    match split_once ":"%char line with
    | None => Err malformed_header
    | Some (name, value) =>
        if negb (valid_header_name name) then Err malformed_header
        else Ok (header_add headers (canonical_key name) (trim_blanks value))
    end.
Fixpoint header_lines (headers : Headers) (lines : list string) : result Headers HeadError :=
  match lines with
  | [] => Ok headers
  | line :: lines => let? headers := header_line headers line in header_lines headers lines
  end.

(** Ambiguous framing is refused. *)
Definition all_equal (l : list string) : bool := match l with [] => true | x :: t => forallb (fun y => x =s y) t end.
Definition framing_error (headers : Headers) : option HeadError :=
  let te := to_ascii_lowercase (header_get headers "Transfer-Encoding") in
  if header_has headers "Transfer-Encoding" && header_has headers "Content-Length" then
    Some (BadRequest "message cannot contain both Transfer-Encoding and Content-Length")
  else if Nat.ltb 1 (List.length (header_values headers "Transfer-Encoding")) then
    Some (BadRequest "message cannot contain multiple Transfer-Encoding headers")
  else if negb (is_empty te) && (te <>s "chunked") then Some NotImplemented
  else if negb (all_equal (header_values headers "Content-Length")) then
    Some (BadRequest "message cannot contain multiple Content-Length headers")
  else None.

Definition parse_head (lines : list string) : result Head HeadError :=
  let '(method, target, proto) := request_line (hd EmptyString lines) in
  if is_empty method || is_empty target || negb ((proto =s "HTTP/1.1") || (proto =s "HTTP/1.0")) then
    Err (BadRequest "malformed HTTP request")
  else if negb (forallb is_token_byte (bytes_of method)) then Err (BadRequest "invalid method")
  else
    let? headers := header_lines [] (List.tl lines) in
    match framing_error headers with
    | Some e => Err e
    | None => Ok (mkHead method target proto headers)
    end.
Definition read_head (max : nat) (l : bytes) : result Head HeadError * bytes :=
  match head_lines (S (List.length l)) max 0 [] l with
  | (Ok lines, rest) => (parse_head lines, rest)
  | (Err e, rest) => (Err e, rest)
  end.

(** ** The request of a head *)

(** The path and query of a target; [None] is a bad request. *)
Definition split_query (path : string) : string * string := default (path, EmptyString) (split_once "?"%char path).
Definition from_first_slash (rest : string) : string :=
  str_of (drop_while (fun a => negb (Ascii.eqb a "/"%char)) (bytes_of rest)).
Definition strip_scheme (target : string) : option string :=
  match strip_prefix_bytes (bytes_of "http://") (bytes_of target) with
  | Some rest => Some (str_of rest)
  | None => str_of <$> strip_prefix_bytes (bytes_of "https://") (bytes_of target)
  end.
Definition target_path (target : string) : option (string * string) :=
  if target =s "*" then Some ("*", EmptyString)
  else
    match strip_scheme target with
    | Some rest =>
        let '(p, q) := split_query (from_first_slash rest) in Some (if is_empty p then "/" else p, q)
    | None => if starts_with "/" target then Some (split_query target) else None
    end.

(** [parse::<u64>()], then [i64::try_from] *)
Definition parse_length (value : string) : option Z :=
  let l := bytes_of value in
  let digits := match l with a :: t => if Ascii.eqb a "+"%char then t else l | [] => l end in
  if match digits with [] => true | _ => negb (forallb is_ascii_digit digits) end then None
  else if digits_val digits <=? i64_max then Some (digits_val digits) else None.

Definition is_chunked (headers : Headers) : bool := eq_ignore_ascii_case (header_get headers "Transfer-Encoding") "chunked".
Definition content_length_of (headers : Headers) : option Z :=
  if is_chunked headers then Some (-1)
  else
    let value := trim (header_get headers "Content-Length") in
    if is_empty value then Some 0 else parse_length value.

Definition request_of (head : Head) (remote local : string) (input : bytes) : result Request string :=
  match target_path (hd_target head) with
  | None => Err "Bad Request"
  | Some (raw_path, raw_query) =>
      match unescape raw_path false with
      | None => Err "Bad Request"
      | Some path =>
          let headers := hd_headers head in
          let chunked := is_chunked headers in
          match content_length_of headers with
          | None => Err "Bad Request: bad Content-Length"
          | Some content_length =>
              if (hd_proto head =s "HTTP/1.1") && negb (header_has headers "Host") then
                Err "Bad Request: missing required Host header"
              else
                let expects_continue :=
                  eq_ignore_ascii_case (header_get headers "Expect") "100-continue" && (hd_proto head =s "HTTP/1.1") in
                Ok (mkRequest (hd_method head) path raw_path raw_query (hd_proto head) headers (header_get headers "Host")
                      remote local content_length [] None
                      (mkBody input (Z.max content_length 0) (if chunked then Some ChunkState_default else None) None 0
                         (expects_continue && negb (content_length =? 0)) false))
          end
      end
  end.

Definition contains_bytes (needle : string) (s : string) : bool :=
  existsb (fun i => match strip_prefix_bytes (bytes_of needle) (drop i (bytes_of s)) with Some _ => true | None => false end)
    (seq 0 (S (String.length s))).
Definition wants_close (head : Head) : bool :=
  let connection := to_ascii_lowercase (header_get (hd_headers head) "Connection") in
  contains_bytes "close" connection || ((hd_proto head =s "HTTP/1.0") && negb (contains_bytes "keep-alive" connection)).

(** ** Responses on the wire *)
Definition CRLF : bytes := [CR; LF].
Definition status_text (status : Z) : string :=
  default EmptyString (snd <$> List.find (fun p => fst p =? status)
    [(100, "Continue"); (200, "OK"); (201, "Created"); (202, "Accepted"); (204, "No Content"); (206, "Partial Content");
     (301, "Moved Permanently"); (302, "Found"); (304, "Not Modified"); (307, "Temporary Redirect"); (308, "Permanent Redirect");
     (400, "Bad Request"); (401, "Unauthorized"); (403, "Forbidden"); (404, "Not Found"); (405, "Method Not Allowed");
     (408, "Request Timeout"); (409, "Conflict"); (410, "Gone"); (411, "Length Required"); (412, "Precondition Failed");
     (413, "Request Entity Too Large"); (415, "Unsupported Media Type"); (422, "Unprocessable Entity"); (423, "Locked");
     (428, "Precondition Required"); (429, "Too Many Requests"); (431, "Request Header Fields Too Large");
     (500, "Internal Server Error"); (501, "Not Implemented"); (502, "Bad Gateway"); (503, "Service Unavailable");
     (504, "Gateway Timeout"); (507, "Insufficient Storage")]).
Definition status_line (status : Z) : bytes := bytes_of ("HTTP/1.1 " +:+ show_Z status +:+ " " +:+ status_text status) ++ CRLF.
Definition simple_error (status : Z) (message : string) : bytes :=
  status_line status ++ bytes_of "Content-Type: text/plain; charset=utf-8" ++ CRLF ++ bytes_of "Connection: close" ++ CRLF ++ CRLF
  ++ bytes_of (show_Z status +:+ " " +:+ message).

(** [from_utf8(body).is_ok()]: nothing to replace *)
Definition is_utf8 (l : bytes) : bool := bool_decide (utf8_lossy l = l).
Definition is_ascii_whitespace (a : ascii) : bool := existsb (Ascii.eqb a) [" "%char; "009"%char; LF; "012"%char; CR].
Definition control_byte (a : ascii) : bool :=
  (bv a <? 9) || (bv a =? 11) || ((14 <=? bv a) && (bv a <? 32) && negb (bv a =? 27)).
Definition sniff_content_type (body : bytes) : string :=
  let trimmed := map to_ascii_lower (take 14 (drop_while is_ascii_whitespace body)) in
  if starts_with "<!doctype html" (str_of trimmed) || starts_with "<html" (str_of trimmed) then "text/html; charset=utf-8"
  else if is_utf8 body && negb (existsb control_byte body) then "text/plain; charset=utf-8"
  else "application/octet-stream".

(** A header value never carries a line break onto the wire. *)
Definition unbroken (value : string) : bytes := map (fun a => if Ascii.eqb a CR || Ascii.eqb a LF then " "%char else a) (bytes_of value).
Definition wire_header (kv : string * string) : bytes := bytes_of (fst kv) ++ bytes_of ": " ++ unbroken (snd kv) ++ CRLF.

Definition bodyless (status : Z) : bool := (100 <=? status) && (status <? 200) || (status =? 204) || (status =? 304).
Definition unless_has (h : Headers) (name value : string) : Headers := if header_has h name then h else header_set h name value.
Definition wire_headers (response : Response) (date : string) (close : bool) : Headers :=
  let h := unless_has (rs_headers response) "Date" date in
  let h :=
    if bodyless (rs_status response) then h
    else
      match rs_body response with
      | Bytes b =>
          let h := match b with [] => h | _ => unless_has h "Content-Type" (sniff_content_type b) end in
          unless_has h "Content-Length" (show_Z (Z.of_nat (List.length b)))
      | Stream _ => if header_has h "Content-Length" then h else header_set h "Transfer-Encoding" "chunked"
      end in
  if close then header_set h "Connection" "close" else h.

(** [{:x}] *)
Fixpoint show_hex (fuel : nat) (n : Z) : bytes :=
  match fuel with
  | O => []
  | S fuel' => if n <? 16 then [hex_digit n] else show_hex fuel' (n / 16) ++ [hex_digit (n mod 16)]
  end.
Definition lower_hex (n : Z) : bytes := show_hex (S (Z.to_nat (Z.log2 n))) n.
Definition wire_chunk (data : bytes) : bytes := lower_hex (Z.of_nat (List.length data)) ++ CRLF ++ data ++ CRLF.
(** The stream ends at its first empty read. *)
Definition until_empty (reads : list bytes) : list bytes := take_while (fun d => match d with [] => false | _ => true end) reads.
Definition wire_stream (chunked : bool) (reads : list bytes) : bytes :=
  concat (map (if chunked then wire_chunk else id) (until_empty reads)) ++ (if chunked then bytes_of "0" ++ CRLF ++ CRLF else []).

Definition write_response (method : string) (response : Response) (date : string) (close : bool) : bytes :=
  let h := wire_headers response date close in
  let send_body := (method <>s "HEAD") && negb (bodyless (rs_status response)) in
  status_line (rs_status response) ++ concat (map wire_header h) ++ CRLF
  ++ (if send_body then
        match rs_body response with
        | Bytes b => b
        | Stream reads => wire_stream (header_get h "Transfer-Encoding" =s "chunked") reads
        end
      else []).

(** ** Connections *)

(** What is left of a small body is read, so that the connection can be used again. *)
Definition DRAIN_LIMIT : Z := 256 * 1024.
Fixpoint drain (fuel : nat) (drained : Z) (b : Body) : Body :=
  match fuel with
  | O => b
  | S fuel' =>
      if drained <? DRAIN_LIMIT then
        match body_read 8192 b with
        | (Ok [], b) => b
        | (Ok data, b) => drain fuel' (drained + Z.of_nat (List.length data)) b
        | (Err _, b) => b
        end
      else b
  end.
Definition after_handler (b : Body) : Body :=
  if negb (body_finished b) && negb (bd_continue_pending b) && negb (bd_exceeded b)
  then drain (S (List.length (bd_input b))) 0 (body_limit b None) else b.

Section Connection.
Context {S : Type} (handler : Request -> S -> Response * Body * S) (http_date : S -> string).

Definition head_refusal (e : HeadError) : bytes :=
  match e with
  | Closed => []
  | TooLarge => simple_error 431 "Request Header Fields Too Large"
  | NotImplemented => simple_error 501 "Unsupported transfer encoding"
  | BadRequest reason => simple_error 400 ("Bad Request: " +:+ reason)
  end.

(** One request: what is written, and the input left when the connection goes on *)
Definition serve_request (max : nat) (remote local : string) (input : bytes) (s : S) : bytes * option bytes * S :=
  match read_head max input with
  | (Err e, _) => (head_refusal e, None, s)
  | (Ok head, rest) =>
      match request_of head remote local rest with
      | Err reason => (simple_error 400 reason, None, s)
      | Ok request =>
          let '(response, b, s) := handler request s in
          let b := after_handler b in
          let close := wants_close head || negb (body_finished b) || bd_exceeded b in
          (write_response (hd_method head) response (http_date s) close, if close then None else Some (bd_input b), s)
      end
  end.

(** Every request consumes input: its length is fuel enough. *)
Fixpoint connection_loop (fuel max : nat) (remote local : string) (input : bytes) (s : S) : bytes * S :=
  match fuel with
  | O => ([], s)
  | Datatypes.S fuel' =>
      match serve_request max remote local input s with
      | (out, None, s) => (out, s)
      | (out, Some rest, s) => let '(more, s) := connection_loop fuel' max remote local rest s in (out ++ more, s)
      end
  end.
Definition serve_connection (remote local : string) (input : bytes) (s : S) : bytes * S :=
  connection_loop (Datatypes.S (List.length input)) MAX_HEADER_BYTES remote local input s.
End Connection.
