(* ===== verification/HttpServerSpec.v ===== *)
(** * What a connection guarantees *)

From Stdlib Require Import ZArith Ascii String Lia Bool.
From stdpp Require Import base list strings gmap.
From S2P Require Import Prelude GoStrings Net NetSpec GoTime Json Model Validation Policy Auth Http HttpServer.

Local Open Scope string_scope.
Local Open Scope Z_scope.
Local Open Scope list_scope.

(** ** Body framing *)

(** The chunked encoding, independently of how it is read: the data and what
    follows the body *)
Definition chunk_size (line : string) : option Z := parse_hex_u64 (trim (first_field ";"%char line)).
Inductive chunked_body : bytes -> bytes -> bytes -> Prop :=
| chunked_last l line l1 rest :
    read_line_from 4096 l = (Ok line, l1) -> chunk_size line = Some 0 ->
    read_trailer (S (List.length l1)) l1 = (Ok tt, rest) -> chunked_body l [] rest
| chunked_more l line data l1 l2 more rest :
    read_line_from 4096 l = (Ok line, data ++ l1) -> chunk_size line = Some (Z.of_nat (List.length data)) -> data <> [] ->
    read_line_from 0 l1 = (Ok EmptyString, l2) -> chunked_body l2 more rest -> chunked_body l (data ++ more) rest.

(** Reads of a body, none of which fails; [data] is what they returned. *)
Inductive reading (b : Body) : bytes -> Body -> Prop :=
| reading_start : reading b [] b
| reading_read data b1 n x b2 : reading b data b1 -> 0 <= n -> body_read n b1 = (Ok x, b2) -> reading b (data ++ x) b2
| reading_limit data b1 limit : reading b data b1 -> reading b data (body_limit b1 limit).

(** What one framed read does *)
Lemma source_read_spec n l x rest : source_read n l = (x, rest) -> l = x ++ rest /\ Z.of_nat (List.length x) <= Z.max n 0.
Proof.
  unfold source_read. intros [= <- <-]. split; [by rewrite take_drop|]. rewrite length_take. lia.
Qed.

(** The data and the rest of a body read from the middle of it *)
Definition chunks_from (st : ChunkState) (l data rest : bytes) : Prop :=
  if ck_done st then data = [] /\ rest = l
  else exists x l1 l2 more, l = x ++ l1 /\ Z.of_nat (List.length x) = ck_remaining st
         /\ (if ck_need_crlf st then read_line_from 0 l1 = (Ok EmptyString, l2) else l2 = l1)
         /\ chunked_body l2 more rest /\ data = x ++ more.

Lemma parse_hex_nonneg text n : parse_hex_u64 text = Some n -> 0 <= n.
Proof.
  unfold parse_hex_u64. cbn zeta. generalize (match bytes_of text with a :: (_ :: _) => if Ascii.eqb a "+"%char then List.tl (bytes_of text) else bytes_of text | _ => bytes_of text end).
  intros digits H.
  assert (forall l acc, (forall v, acc = Some v -> 0 <= v) ->
    fold_left (fun n a => let! n := n in let! d := hex_val a in if 16 * n + d <=? u64_max then Some (16 * n + d) else None) l acc = Some n -> 0 <= n) as Hf.
  { induction l as [|a l IH]; intros acc Ha Hl; [exact (Ha _ Hl)|]. apply IH in Hl; [exact Hl|]. intros v Hv.
    destruct acc as [m|]; [|discriminate]. specialize (Ha m eq_refl). cbn in Hv. destruct (hex_val a) as [d|] eqn:Ed; [|discriminate].
    apply hex_val_range in Ed. cbn in Hv. destruct (_ <=? _); [injection Hv as <-; lia|discriminate]. }
  destruct digits; [discriminate|]. apply (Hf (a :: digits) (Some 0)); [|exact H]. intros v [= <-]. lia.
Qed.

(** A size line, as [read_chunked] takes it *)
Lemma next_chunk_ok st l st' l' : ck_remaining st = 0 -> ck_done st = false -> next_chunk st l = (Ok tt, st', l') ->
  exists l0 line l1, (if ck_need_crlf st then read_line_from 0 l = (Ok EmptyString, l0) else l0 = l)
    /\ read_line_from 4096 l0 = (Ok line, l1)
    /\ (ck_done st' = true /\ chunk_size line = Some 0 /\ read_trailer (S (List.length l1)) l1 = (Ok tt, l')
        \/ ck_done st' = false /\ ck_need_crlf st' = true /\ chunk_size line = Some (ck_remaining st') /\ 0 < ck_remaining st' /\ l' = l1).
Proof.
  intros Hr Hd Hn. unfold next_chunk in Hn.
  assert (exists l0 st0, (if ck_need_crlf st then read_line_from 0 l = (Ok EmptyString, l0) else l0 = l)
    /\ (match read_line_from 4096 l0 with
        | (Err e, rest) => (Err e, st0, rest)
        | (Ok line, rest) =>
            match chunk_size line with
            | None => (Err (InvalidData "invalid byte in chunk length"), st0, rest)
            | Some size =>
                if size =? 0 then
                  match read_trailer (S (List.length rest)) rest with
                  | (Err e, rest) => (Err e, st0, rest)
                  | (Ok _, rest) => (Ok tt, mkChunk (ck_remaining st0) (ck_need_crlf st0) true, rest)
                  end
                else (Ok tt, mkChunk size true (ck_done st0), rest)
            end
        end) = (Ok tt, st', l') /\ ck_done st0 = false) as (l0 & st0 & H0 & H1 & H2).
  { destruct (ck_need_crlf st).
    - destruct (read_line_from 0 l) as [[line|e] rest]; [|discriminate]. destruct line; [|discriminate]. cbn [is_empty] in Hn.
      exists rest, (mkChunk (ck_remaining st) false (ck_done st)). auto.
    - exists l, st. auto. }
  clear Hn. exists l0. destruct (read_line_from 4096 l0) as [[line|e] l1] eqn:El; [|discriminate]. exists line, l1.
  split; [exact H0|split; [reflexivity|]]. destruct (chunk_size line) as [size|] eqn:Es; [|discriminate].
  destruct (size =? 0) eqn:Ez.
  - destruct (read_trailer _ l1) as [[[]|e] l2]; [|discriminate]. injection H1 as <- <-. left. assert (size = 0) as -> by lia. auto.
  - injection H1 as <- <-. right. cbn. apply parse_hex_nonneg in Es as Hs. repeat split; [exact H2|lia].
Qed.

Lemma read_chunked_back n st l x st' l' more rest : 0 < n -> read_chunked n st l = (Ok x, st', l') ->
  chunks_from st' l' more rest -> chunks_from st l (x ++ more) rest.
Proof.
  intros Hn Hr Hc. unfold read_chunked in Hr. unfold chunks_from at 1. destruct (ck_done st) eqn:Ed.
  { injection Hr as <- <- <-. unfold chunks_from in Hc. rewrite Ed in Hc. exact Hc. }
  (* reading data of a chunk *)
  assert (forall st1 l1, ck_done st1 = false -> ck_need_crlf st1 = true \/ st1 = st ->
    (if ck_done st1 then (Ok [], st1, l1)
     else match source_read (Z.min n (ck_remaining st1)) l1 with
          | ([], rest) => (Err UnexpectedEof, st1, rest)
          | (data, rest) => (Ok data, mkChunk (ck_remaining st1 - Z.of_nat (List.length data)) (ck_need_crlf st1) (ck_done st1), rest)
          end) = (Ok x, st', l') -> chunks_from st1 l1 (x ++ more) rest /\ x <> []) as Hdata.
  { intros st1 l1 Hd _ H. rewrite Hd in H. destruct (source_read _ l1) as [[|a data] r] eqn:Es; [discriminate|].
    injection H as <- <- <-. apply source_read_spec in Es as [-> Hlen]. split; [|discriminate]. unfold chunks_from in *. rewrite Hd. cbn in Hc.
    destruct Hc as (y & l2 & l3 & m & -> & Hy & Hcr & Hb & ->). exists ((a :: data) ++ y), l2, l3, m.
    rewrite <- !app_assoc. split; [reflexivity|]. split; [rewrite length_app; cbn [ck_remaining List.length] in *; lia|]. auto. }
  destruct (ck_remaining st =? 0) eqn:Ez.
  - destruct (next_chunk st l) as [[r st1] l1] eqn:En. destruct r as [[]|e]; [|discriminate].
    apply next_chunk_ok in En as (l0 & line & l2 & H0 & Hl & Hcase); [|lia|exact Ed].
    destruct Hcase as [(Hd1 & Hs & Ht)|(Hd1 & Hcr & Hs & Hpos & ->)].
    + rewrite Hd1 in Hr. injection Hr as <- <- <-. unfold chunks_from in Hc. rewrite Hd1 in Hc. destruct Hc as [-> ->].
      exists [], l, l0, []. repeat split; try assumption; [cbn; lia|]. exact (chunked_last _ _ _ _ Hl Hs Ht).
    + destruct (Hdata st1 l2 Hd1 (or_introl Hcr) Hr) as [Hch Hx]. unfold chunks_from in Hch. rewrite Hd1, Hcr in Hch.
      destruct Hch as (y & l3 & l4 & m & -> & Hy & Hcr' & Hb & Heq). exists [], l, l0, (x ++ more).
      repeat split; try assumption; [cbn; lia|]. rewrite Heq.
      eapply chunked_more; [exact Hl|rewrite Hs; f_equal; lia| |exact Hcr'|exact Hb]. intros ->. cbn in Hy. lia.
  - destruct (Hdata st l Ed (or_intror eq_refl) Hr) as [Hch _]. unfold chunks_from in Hch. rewrite Ed in Hch. exact Hch.
Qed.

(** A body in any state of its reading: the data still to come, and what follows *)
Definition body_is (b : Body) (data rest : bytes) : Prop :=
  match bd_chunked b with
  | Some st => chunks_from st (bd_input b) data rest
  | None => bd_input b = data ++ rest /\ Z.of_nat (List.length data) = bd_remaining b
  end.
Definition same_framing (b b' : Body) : Prop :=
  bd_input b' = bd_input b /\ bd_remaining b' = bd_remaining b /\ bd_chunked b' = bd_chunked b.
Lemma same_framing_body b b' data rest : same_framing b b' -> body_is b' data rest -> body_is b data rest.
Proof. intros (H1 & H2 & H3). unfold body_is. rewrite H1, H2, H3. auto. Qed.

Lemma finished_body b : body_finished b = true -> body_is b [] (bd_input b).
Proof.
  unfold body_finished, body_is. destruct (bd_chunked b) as [st|]; [|intros; split; [reflexivity|cbn; lia]].
  intros Hd. unfold chunks_from. rewrite Hd. auto.
Qed.

Lemma read_framed_back n b x b' more rest : 0 < n -> read_framed n b = (Ok x, b') -> body_is b' more rest -> body_is b (x ++ more) rest.
Proof.
  intros Hn Hr Hb. unfold read_framed in Hr. cbn [bd_chunked body_continued bd_input bd_remaining] in Hr. unfold body_is.
  destruct (bd_chunked b) as [st|] eqn:Ec.
  - destruct (read_chunked n st (bd_input b)) as [[r st'] l'] eqn:Er. injection Hr as -> <-. unfold body_is in Hb. cbn in Hb.
    eapply read_chunked_back; eassumption.
  - destruct (bd_remaining b =? 0) eqn:Ez.
    + injection Hr as <- <-. unfold body_is in Hb. cbn in Hb. rewrite Ec in Hb. exact Hb.
    + destruct (source_read _ _) as [[|a data] r] eqn:Es; [discriminate|]. injection Hr as <- <-.
      apply source_read_spec in Es as [-> Hl]. unfold body_is in Hb. cbn [bd_chunked body_framing bd_input bd_remaining] in Hb.
      destruct Hb as [-> Hb]. rewrite app_assoc. split; [reflexivity|]. rewrite length_app. cbn [List.length] in *. lia.
Qed.

Lemma body_read_ok n b x b' : 0 <= n -> body_read n b = (Ok x, b') ->
  (x = [] /\ b' = b) \/ exists k b1, 0 < k /\ read_framed k b = (Ok x, b1) /\ same_framing b' b1.
Proof.
  intros Hn Hr. unfold body_read in Hr. destruct (n =? 0) eqn:En; [injection Hr as <- <-; auto|]. right.
  assert (forall k, 0 < k -> (match read_framed k b with
    | (Ok data, b) => (Ok data, body_consumed b (Z.of_nat (List.length data)))
    | (Err e, b) => (Err e, b) end) = (Ok x, b') -> exists k b1, 0 < k /\ read_framed k b = (Ok x, b1) /\ same_framing b' b1) as Hc.
  { intros k Hk H. destruct (read_framed k b) as [[data|e] b1] eqn:Ef; [|discriminate]. injection H as <- <-. exists k, b1. repeat split; assumption. }
  destruct (bd_limit b) as [limit|]; [|exact (Hc n ltac:(lia) Hr)]. destruct (_ && _ && _); [discriminate|].
  destruct (limit <=? bd_consumed b) eqn:El; [|apply (Hc (Z.min (limit - bd_consumed b) n)); [lia|exact Hr]].
  destruct (read_framed 1 b) as [[[|a data]|e] b1] eqn:Ef; [|discriminate|discriminate]. injection Hr as <- <-. exists 1, b1. split; [lia|split; [exact Ef|repeat split]].
Qed.

(** Whatever the sizes of the reads, they return the data of the body in order. *)
Lemma reading_body b data b' more rest : reading b data b' -> body_is b' more rest -> body_is b (data ++ more) rest.
Proof.
  intros Hr. revert more. induction Hr as [|data b1 n x b2 Hr IH Hn Hx|data b1 limit Hr IH]; intros more Hb; [exact Hb| |].
  - rewrite <- app_assoc. apply IH. destruct (body_read_ok _ _ _ _ Hn Hx) as [[-> ->]|(k & b3 & Hk & Hf & Hs)]; [exact Hb|].
    eapply read_framed_back; [exact Hk|exact Hf|]. destruct Hs as (S1 & S2 & S3). unfold body_is in *. rewrite S1, S2, S3. exact Hb.
  - apply IH. exact Hb.
Qed.

Lemma next_chunk_error st l e st' l' : next_chunk st l = (Err e, st', l') -> ck_done st' = ck_done st.
Proof.
  unfold next_chunk. intros H.
  destruct (ck_need_crlf st); [destruct (read_line_from 0 l) as [[line0|e0] r0]; [destruct (is_empty line0)|]|];
    try (injection H as _ <- _; reflexivity);
    (destruct (read_line_from 4096 _) as [[line|e1] r1]; [|injection H as _ <- _; reflexivity];
     destruct (parse_hex_u64 _) as [size|]; [|injection H as _ <- _; reflexivity];
     destruct (size =? 0); [|discriminate]; destruct (read_trailer _ _) as [[|] ?]; [discriminate|injection H as _ <- _; reflexivity]).
Qed.

(** A failed read is not the end of the body. *)
Lemma read_framed_error n b e b' : read_framed n b = (Err e, b') -> body_finished b' = false.
Proof.
  unfold read_framed. cbn [bd_chunked body_continued bd_input bd_remaining]. unfold body_finished.
  destruct (bd_chunked b) as [st|] eqn:Ec.
  - destruct (read_chunked n st (bd_input b)) as [[r st'] l'] eqn:Er. intros [= -> <-]. cbn. unfold read_chunked in Er.
    destruct (ck_done st) eqn:Ed; [discriminate|].
    destruct (ck_remaining st =? 0).
    + destruct (next_chunk st (bd_input b)) as [[[[]|e'] st1] l1] eqn:En.
      * destruct (ck_done st1) eqn:Ed1; [discriminate|]. destruct (source_read _ _) as [[|a data] r]; [|discriminate]. injection Er as _ <- _. exact Ed1.
      * injection Er as _ <- _. rewrite (next_chunk_error _ _ _ _ _ En). exact Ed.
    + rewrite Ed in Er. destruct (source_read _ _) as [[|a data] r]; [|discriminate]. injection Er as _ <- _. exact Ed.
  - destruct (bd_remaining b =? 0) eqn:Ez; [discriminate|]. destruct (source_read _ _) as [[|a data] r]; [|discriminate].
    intros [= _ <-]. exact Ez.
Qed.

Lemma body_read_error n b e b' : 0 < n -> bd_limit b = None -> body_read n b = (Err e, b') -> body_finished b' = false.
Proof.
  intros Hn Hl Hr. unfold body_read in Hr. rewrite Hl in Hr. destruct (n =? 0) eqn:En; [discriminate|].
  destruct (read_framed n b) as [[data|e0] b1] eqn:Ef; [discriminate|]. injection Hr as -> <-. exact (read_framed_error _ _ _ _ Ef).
Qed.
Lemma body_read_limit n b r b' : body_read n b = (r, b') -> bd_limit b = None -> bd_limit b' = None.
Proof.
  unfold body_read. intros Hr Hl. rewrite Hl in Hr. destruct (n =? 0); [injection Hr as _ <-; exact Hl|].
  destruct (read_framed n b) as [r0 b1] eqn:Ef.
  assert (bd_limit b1 = bd_limit b) as Hf; [|destruct r0; injection Hr as _ <-; cbn; congruence].
  unfold read_framed in Ef. destruct (bd_chunked _); [destruct (read_chunked _ _ _) as [[? ?] ?]; injection Ef as _ <-; reflexivity|].
  destruct (_ =? 0); [injection Ef as _ <-; reflexivity|]. destruct (source_read _ _) as [[|] ?]; injection Ef as _ <-; reflexivity.
Qed.

Lemma drain_reading fuel : forall drained b, bd_limit b = None -> body_finished (drain fuel drained b) = true ->
  exists data, reading b data (drain fuel drained b).
Proof.
  induction fuel as [|fuel IH]; intros drained b Hl Hf; cbn [drain] in *; [exists []; constructor|].
  destruct (drained <? DRAIN_LIMIT); [|exists []; constructor]. destruct (body_read 8192 b) as [[[|a data]|e] b1] eqn:Er.
  - exists ([] ++ []). eapply reading_read; [apply reading_start| |exact Er]. lia.
  - destruct (IH _ _ (body_read_limit _ _ _ _ Er Hl) Hf) as (more & Hm). exists ((a :: data) ++ more).
    assert (forall b1 d b2, reading b1 d b2 -> forall x b0, body_read 8192 b0 = (Ok x, b1) -> reading b0 (x ++ d) b2) as Hcons.
    { clear. intros b1 d b2 Hr. induction Hr as [|d b2 n y b3 Hr IH Hn Hy|d b2 limit Hr IH]; intros x b0 Hx.
      - rewrite app_nil_r. apply (reading_read b0 [] b0 8192 x b1); [constructor|lia|exact Hx].
      - rewrite app_assoc. eapply reading_read; [apply IH; exact Hx|exact Hn|exact Hy].
      - apply reading_limit, IH, Hx. }
    eapply Hcons; [exact Hm|exact Er].
  - rewrite (body_read_error 8192 _ _ _ ltac:(lia) Hl Er) in Hf. discriminate.
Qed.

Lemma after_handler_reading b : body_finished (after_handler b) = true -> exists data, reading b data (after_handler b).
Proof.
  unfold after_handler. destruct (_ && _ && _); [|exists []; constructor]. intros Hf.
  destruct (drain_reading _ _ (body_limit b None) eq_refl Hf) as (data & Hd). exists data.
  clear Hf. revert Hd. generalize (drain (S (List.length (bd_input b))) 0 (body_limit b None)). intros b' Hd.
  induction Hd as [|d b1 n x b2 Hr IH Hn Hx|d b1 limit Hr IH]; [apply (reading_limit b [] b None); constructor|exact (reading_read _ _ _ _ _ _ IH Hn Hx)|apply reading_limit, IH].
Qed.
Lemma reading_trans b d1 b1 d2 b2 : reading b d1 b1 -> reading b1 d2 b2 -> reading b (d1 ++ d2) b2.
Proof.
  intros H1 H2. induction H2 as [|d b2 n x b3 Hr IH Hn Hx|d b2 limit Hr IH]; [rewrite app_nil_r; exact H1| |apply reading_limit, IH].
  rewrite app_assoc. exact (reading_read _ _ _ _ _ _ IH Hn Hx).
Qed.

Lemma parse_length_nonneg v n : parse_length v = Some n -> 0 <= n.
Proof.
  unfold parse_length. set (digits := match bytes_of v with a :: t => _ | [] => _ end). clearbody digits.
  destruct (match digits with [] => true | _ => negb (forallb is_ascii_digit digits) end) eqn:E; [discriminate|].
  destruct (_ <=? _); [|discriminate]. intros [= <-]. destruct digits; [discriminate|]. apply negb_false_iff in E.
  apply digits_val_nonneg_from; [lia|exact E].
Qed.

(** The request of a head *)
Lemma request_of_ok head remote local l r : request_of head remote local l = Ok r ->
  unescape (rq_raw_path r) false = Some (rq_path r) /\ rq_remote_addr r = remote /\ rq_local_addr r = local
  /\ rq_method r = hd_method head /\ rq_headers r = hd_headers head /\ bd_input (rq_body r) = l
  /\ content_length_of (hd_headers head) = Some (rq_content_length r)
  /\ bd_chunked (rq_body r) = (if is_chunked (hd_headers head) then Some ChunkState_default else None)
  /\ (is_chunked (hd_headers head) = false -> 0 <= rq_content_length r /\ bd_remaining (rq_body r) = rq_content_length r).
Proof.
  unfold request_of. destruct (target_path _) as [[raw q]|]; [|discriminate]. destruct (unescape raw false) as [path|] eqn:Eu; [|discriminate].
  destruct (content_length_of _) as [n|] eqn:En; [|discriminate]. destruct (_ && _); [discriminate|]. intros [= <-]. cbn.
  do 8 (split; [first [assumption|reflexivity]|]). intros Hc. unfold content_length_of in En. rewrite Hc in En.
  destruct (is_empty _); [injection En as <-; lia|apply parse_length_nonneg in En; lia].
Qed.

Section Connection.
Context {S : Type} (handler : Request -> S -> Response * Body * S) (http_date : S -> string).
Local Abbreviation serve_request := (serve_request handler http_date).
Local Abbreviation connection_loop := (connection_loop handler http_date).

Lemma serve_request_next max remote local input s out rest s' : serve_request max remote local input s = (out, Some rest, s') ->
  exists head l r response b, read_head max input = (Ok head, l) /\ request_of head remote local l = Ok r
    /\ handler r s = (response, b, s') /\ rest = bd_input (after_handler b) /\ body_finished (after_handler b) = true /\ bd_exceeded (after_handler b) = false.
Proof.
  unfold HttpServer.serve_request. destruct (read_head max input) as [[head|e] l]; [|discriminate].
  destruct (request_of head remote local l) as [r|] eqn:Er; [|discriminate]. destruct (handler r s) as [[response b] s1] eqn:Eh.
  destruct (_ || _ || _) eqn:Ec; [discriminate|]. intros [= _ <- <-]. apply orb_false_elim in Ec as [Ec E3]. apply orb_false_elim in Ec as [_ E2].
  apply negb_false_iff in E2. eauto 15.
Qed.

(** C32: No request is smuggled: when a connection goes on after a request, the next one
    starts at the byte after the body its head announced, by its length or by the
    chunked encoding, however much of the body the handler read and in whatever
    pieces, provided none of its reads failed. *)
Theorem next_request_follows_body max remote local input s out rest s' : serve_request max remote local input s = (out, Some rest, s') ->
  (forall head l r, read_head max input = (Ok head, l) -> request_of head remote local l = Ok r ->
    exists data, reading (rq_body r) data (snd (fst (handler r s)))) ->
  exists head l, read_head max input = (Ok head, l)
    /\ if is_chunked (hd_headers head) then exists data, chunked_body l data rest
       else exists data, content_length_of (hd_headers head) = Some (Z.of_nat (List.length data)) /\ l = data ++ rest.
Proof.
  intros Hs Hh. apply serve_request_next in Hs as (head & l & r & response & b & Hl & Hr & Hb & -> & Hf & _).
  destruct (Hh _ _ _ Hl Hr) as (d1 & H1). rewrite Hb in H1. cbn [fst snd] in H1. destruct (after_handler_reading _ Hf) as (d2 & H2).
  pose proof (reading_body _ _ _ _ _ (reading_trans _ _ _ _ _ H1 H2) (finished_body _ Hf)) as Hbody. rewrite app_nil_r in Hbody.
  exists head, l. split; [exact Hl|]. destruct (request_of_ok _ _ _ _ _ Hr) as (_ & _ & _ & _ & _ & Hi & Hc & Hch & Hn).
  unfold body_is in Hbody. rewrite Hi, Hch in Hbody. destruct (is_chunked (hd_headers head)).
  - destruct Hbody as (x & l1 & l2 & more & -> & Hx & -> & Hcb & _). destruct x; [|cbn in Hx; lia]. eauto.
  - destruct Hbody as [-> Hlen]. destruct (Hn eq_refl) as [_ Hrem]. exists (d1 ++ d2). rewrite Hc, Hlen, Hrem. auto.
Qed.
End Connection.

(** ** Every step of a connection consumes input *)
Lemma read_line_loop_shrinks limit l : forall line r rest, read_line_loop limit line l = (r, rest) -> (List.length rest <= List.length l)%nat.
Proof.
  induction l as [|a l IH]; intros line r rest; cbn [read_line_loop]; [intros [= _ <-]; cbn; lia|].
  destruct (Ascii.eqb a LF); [intros [= _ <-]; cbn; lia|]. destruct (Nat.ltb _ _); [intros [= _ <-]; cbn; lia|].
  intros H. apply IH in H. cbn. lia.
Qed.
Lemma read_line_shrinks limit l r rest : read_line_from limit l = (r, rest) -> (List.length rest <= List.length l)%nat.
Proof. unfold read_line_from. destruct (read_line_loop limit [] l) as [r0 rest0] eqn:E. intros [= _ <-]. exact (read_line_loop_shrinks _ _ _ _ _ E). Qed.
Lemma read_trailer_shrinks fuel : forall l r rest, read_trailer fuel l = (r, rest) -> (List.length rest <= List.length l)%nat.
Proof.
  induction fuel as [|fuel IH]; intros l r rest; cbn [read_trailer]; [intros [= _ <-]; lia|].
  destruct (read_line_from 4096 l) as [[line|e] rest0] eqn:E; pose proof (read_line_shrinks _ _ _ _ E); [|intros [= _ <-]; lia].
  destruct (is_empty line); [intros [= _ <-]; lia|]. intros Hr. apply IH in Hr. lia.
Qed.
Lemma next_chunk_shrinks st l r st' l' : next_chunk st l = (r, st', l') -> (List.length l' <= List.length l)%nat.
Proof.
  unfold next_chunk. destruct (if ck_need_crlf st then _ else _) as [[ended l0] st0] eqn:E0.
  assert (List.length l0 <= List.length l)%nat as H0.
  { destruct (ck_need_crlf st); [|injection E0 as _ <- _; lia]. destruct (read_line_from 0 l) as [[line|e] rest] eqn:E; pose proof (read_line_shrinks _ _ _ _ E);
      [destruct (is_empty line)|]; injection E0 as _ <- _; lia. }
  destruct ended; [|intros [= _ _ <-]; lia]. destruct (read_line_from 4096 l0) as [[line|e] rest] eqn:E; pose proof (read_line_shrinks _ _ _ _ E); [|intros [= _ _ <-]; lia].
  destruct (parse_hex_u64 _) as [size|]; [|intros [= _ _ <-]; lia]. destruct (size =? 0); [|intros [= _ _ <-]; lia].
  destruct (read_trailer _ rest) as [[|] rest1] eqn:Et; pose proof (read_trailer_shrinks _ _ _ _ Et); intros [= _ _ <-]; lia.
Qed.
Lemma source_read_shrinks n l x rest : source_read n l = (x, rest) -> (List.length rest <= List.length l)%nat.
Proof. intros H. apply source_read_spec in H as [-> _]. rewrite length_app. lia. Qed.
Lemma read_framed_shrinks n b r b' : read_framed n b = (r, b') -> (List.length (bd_input b') <= List.length (bd_input b))%nat.
Proof.
  unfold read_framed. cbn [bd_chunked body_continued bd_input bd_remaining]. destruct (bd_chunked b) as [st|].
  - destruct (read_chunked n st (bd_input b)) as [[r0 st'] l'] eqn:E. intros [= _ <-]. cbn [bd_input body_framing]. unfold read_chunked in E.
    destruct (ck_done st); [injection E as _ _ <-; lia|].
    destruct (if ck_remaining st =? 0 then _ else _) as [[r1 st1] l1] eqn:E1.
    assert (List.length l1 <= List.length (bd_input b))%nat as H1
      by (destruct (ck_remaining st =? 0); [exact (next_chunk_shrinks _ _ _ _ _ E1)|injection E1 as _ _ <-; lia]).
    destruct r1; [|injection E as _ _ <-; exact H1]. destruct (ck_done st1); [injection E as _ _ <-; exact H1|].
    destruct (source_read _ l1) as [[|a data] rest] eqn:Es; pose proof (source_read_shrinks _ _ _ _ Es); injection E as _ _ <-; lia.
  - destruct (bd_remaining b =? 0); [intros [= _ <-]; cbn; lia|].
    destruct (source_read _ (bd_input b)) as [[|a data] rest] eqn:Es; pose proof (source_read_shrinks _ _ _ _ Es); intros [= _ <-]; exact H.
Qed.
Lemma body_read_shrinks n b r b' : body_read n b = (r, b') -> (List.length (bd_input b') <= List.length (bd_input b))%nat.
Proof.
  unfold body_read. destruct (n =? 0); [intros [= _ <-]; lia|].
  assert (forall k, (match read_framed k b with (Ok data, b) => (Ok data, body_consumed b (Z.of_nat (List.length data))) | (Err e, b) => (Err e, b) end) = (r, b') ->
    (List.length (bd_input b') <= List.length (bd_input b))%nat) as Hc.
  { intros k. destruct (read_framed k b) as [[data|e] b1] eqn:E; pose proof (read_framed_shrinks _ _ _ _ E); intros [= _ <-]; exact H. }
  destruct (bd_limit b) as [limit|]; [|apply Hc]. destruct (_ && _ && _); [intros [= _ <-]; cbn; lia|].
  destruct (limit <=? bd_consumed b); [|apply Hc]. destruct (read_framed 1 b) as [[[|a data]|e] b1] eqn:E;
    pose proof (read_framed_shrinks _ _ _ _ E); intros [= _ <-]; exact H.
Qed.
Lemma drain_shrinks fuel : forall drained b, (List.length (bd_input (drain fuel drained b)) <= List.length (bd_input b))%nat.
Proof.
  induction fuel as [|fuel IH]; intros drained b; cbn [drain]; [lia|]. destruct (_ <? _); [|lia].
  destruct (body_read 8192 b) as [[[|a data]|e] b1] eqn:E; pose proof (body_read_shrinks _ _ _ _ E); [exact H| |exact H].
  etransitivity; [apply IH|exact H].
Qed.
Lemma after_handler_shrinks b : (List.length (bd_input (after_handler b)) <= List.length (bd_input b))%nat.
Proof. unfold after_handler. destruct (_ && _ && _); [|lia]. apply (drain_shrinks _ _ (body_limit b None)). Qed.

Lemma read_until_app limit : forall l line rest, read_until limit l = (line, rest) -> l = line ++ rest.
Proof.
  induction limit as [|limit IH]; intros [|a l] line rest; cbn [read_until]; try (intros [= <- <-]; reflexivity).
  destruct (Ascii.eqb a LF); [intros [= <- <-]; reflexivity|]. destruct (read_until limit l) as [x r] eqn:E. intros [= <- <-].
  rewrite (IH _ _ _ E). reflexivity.
Qed.
Lemma head_lines_consumes fuel : forall max total lines l lines' rest, head_lines fuel max total lines l = (Ok lines', rest) ->
  (List.length rest < List.length l)%nat.
Proof.
  induction fuel as [|fuel IH]; intros max total lines l lines' rest; cbn [head_lines]; [discriminate|].
  destruct (read_until _ l) as [[|a line] rest0] eqn:E; [discriminate|]. apply read_until_app in E as ->.
  assert (forall m t ls, head_lines fuel m t ls rest0 = (Ok lines', rest) -> (List.length rest < List.length ((a :: line) ++ rest0))%nat) as Hrec
    by (intros m t ls H; apply IH in H; rewrite length_app; cbn [List.length]; lia).
  destruct (Nat.ltb _ _); [discriminate|]. destruct (pop_line (a :: line)) as [[|b popped]|]; [|apply Hrec|discriminate].
  destruct lines; [apply Hrec|]. intros [= _ <-]. rewrite length_app. cbn [List.length]. lia.
Qed.
Lemma read_head_consumes max input head rest : read_head max input = (Ok head, rest) -> (List.length rest < List.length input)%nat.
Proof.
  unfold read_head. destruct (head_lines _ max 0 [] input) as [[lines|e] l] eqn:E; [|discriminate]. intros [= _ <-]. exact (head_lines_consumes _ _ _ _ _ _ _ E).
Qed.

Section Loop.
Context {S : Type} (handler : Request -> S -> Response * Body * S) (http_date : S -> string).

(** What every request of a connection keeps, the connection keeps. *)
Lemma connection_keeps (I : S -> Prop) max remote local :
  (forall head l r s response b s', request_of head remote local l = Ok r -> handler r s = (response, b, s') -> I s -> I s') ->
  forall fuel input s, I s -> I (snd (connection_loop handler http_date fuel max remote local input s)).
Proof.
  intros Hh. induction fuel as [|fuel IH]; intros input s Hs; [exact Hs|]. cbn [connection_loop]. unfold serve_request.
  destruct (read_head max input) as [[head|e] l]; [|exact Hs]. destruct (request_of head remote local l) as [r|] eqn:Er; [|exact Hs].
  destruct (handler r s) as [[response b] s'] eqn:Eh. pose proof (Hh _ _ _ _ _ _ _ Er Eh Hs) as Hs'.
  destruct (_ || _ || _); [exact Hs'|]. specialize (IH (bd_input (after_handler b)) s' Hs').
  destruct (connection_loop _ _ fuel max remote local _ s') as [more s2]. exact IH.
Qed.

(** A connection is served to its end: for a handler that only consumes its
    request's body, [serve_connection] answers requests until the input ends or a
    request closes the connection, and no further request is left unanswered for
    want of steps. *)
Theorem connection_is_served remote local input s :
  (forall r s, (List.length (bd_input (snd (fst (handler r s)))) <= List.length (bd_input (rq_body r)))%nat) ->
  forall fuel, (List.length input < fuel)%nat ->
    connection_loop handler http_date fuel MAX_HEADER_BYTES remote local input s = serve_connection handler http_date remote local input s.
Proof.
  intros Hh. unfold serve_connection. generalize (Nat.lt_succ_diag_r (List.length input)). generalize (Datatypes.S (List.length input)). intros k.
  revert input s. induction k as [|k IH]; intros input s Hk fuel Hf; [lia|]. destruct fuel as [|fuel]; [lia|]. cbn [connection_loop].
  destruct (serve_request handler http_date MAX_HEADER_BYTES remote local input s) as [[out [rest|]] s'] eqn:Es; [|reflexivity].
  apply serve_request_next in Es as (head & l & r & response & b & Hl & Hr & Hb & -> & _). specialize (Hh r s). rewrite Hb in Hh. cbn [fst snd] in Hh.
  apply read_head_consumes in Hl. pose proof (after_handler_shrinks b). destruct (request_of_ok _ _ _ _ _ Hr) as (_ & _ & _ & _ & _ & Hi & _). rewrite Hi in Hh.
  rewrite (IH _ s') with (fuel := fuel) by lia. reflexivity.
Qed.
End Loop.
