(* ===== verification/Router.v ===== *)
(** * Routing

    [mr-config/src/httpd/router.rs]: patterns of a method and a path, and the
    handler that serves a request.  [resolve] is the part of [dispatch] before
    the handler runs.  A handler is called only for a route of the table, and no
    escape in a path reaches another segment. *)

From Stdlib Require Import ZArith Ascii String Lia Bool.
From stdpp Require Import base list strings gmap.
From S2P Require Import Prelude GoStrings Net NetSpec GoPath GoTime Json Model Validation Policy Auth Http.

Local Open Scope string_scope.
Local Open Scope Z_scope.
Local Open Scope list_scope.

Inductive Segment := Literal (l : string) | Wildcard (name : string).

Record Route (H : Type) := mkRoute {
  rt_method : option string;
  rt_segments : list Segment;
  rt_subtree : bool;
  rt_handler : H;
}.
Arguments mkRoute {H} rt_method rt_segments rt_subtree rt_handler.
Arguments rt_method {H} r.
Arguments rt_segments {H} r.
Arguments rt_subtree {H} r.
Arguments rt_handler {H} r.

Definition strip_suffix_char (c : ascii) (l : bytes) : option bytes :=
  match rev l with a :: t => if Ascii.eqb a c then Some (rev t) else None | [] => None end.
Definition segment_of (s : string) : Segment :=
  match strip_prefix_bytes ["{"%char] (bytes_of s) with
  | Some t => match strip_suffix_char "}"%char t with Some name => Wildcard (str_of name) | None => Literal s end
  | None => Literal s
  end.
Definition nonempty (l : list string) : list string := List.filter (fun s => negb (is_empty s)) l.

(** [trim_matches('/')] removes only what gives empty segments. *)
Definition parse_route {H} (pattern : string) (handler : H) : Route H :=
  let '(method, path) :=
    match split_once " "%char pattern with Some (m, p) => (Some m, trim p) | None => (None, pattern) end in
  mkRoute method (map segment_of (nonempty (split "/"%char path))) (ends_with "/" path) handler.

Section Router.
Context {H : Type}.

Fixpoint match_segments (patterns : list Segment) (values : list string) : option (list (string * string)) :=
  match patterns, values with
  | Literal l :: ps, v :: vs => if l =s v then match_segments ps vs else None
  | Wildcard name :: ps, v :: vs => let! params := match_segments ps vs in Some ((name, v) :: params)
  | _, _ => Some []
  end.
Definition route_matches (route : Route H) (segments : list string) (trailing_slash : bool) : option (list (string * string)) :=
  let n := List.length segments in
  let m := List.length (rt_segments route) in
  if if rt_subtree route then Nat.ltb n m || (Nat.eqb n m && negb trailing_slash && negb (Nat.eqb m 0))
     else negb (Nat.eqb n m) || (trailing_slash && negb (Nat.eqb n 0))
  then None
  else match_segments (rt_segments route) segments.

(** Literal segments outrank wildcards; exact patterns outrank subtrees. *)
Definition is_literal (s : Segment) : bool := match s with Literal _ => true | Wildcard _ => false end.
Definition specificity (route : Route H) : bool * nat * nat :=
  (negb (rt_subtree route), List.length (rt_segments route), List.length (List.filter is_literal (rt_segments route))).
Definition spec_eqb (a b : bool * nat * nat) : bool :=
  let '(x, m, k) := a in let '(y, n, l) := b in Bool.eqb x y && Nat.eqb m n && Nat.eqb k l.
Definition spec_ltb (a b : bool * nat * nat) : bool :=
  let '(x, m, k) := a in let '(y, n, l) := b in
  (negb x && y) || (Bool.eqb x y && (Nat.ltb m n || (Nat.eqb m n && Nat.ltb k l))).

(** [sort_by_key(Reverse(specificity))] is stable. *)
Definition Match : Type := Route H * list (string * string).
Fixpoint insert_match (x : Match) (l : list Match) : list Match :=
  match l with
  | [] => [x]
  | y :: l' => if spec_ltb (specificity (fst y)) (specificity (fst x)) then x :: l else y :: insert_match x l'
  end.
Definition sort_matches (l : list Match) : list Match := fold_left (fun sorted x => insert_match x sorted) l [].

Definition path_matches (routes : list (Route H)) (segments : list string) (trailing_slash : bool) : list Match :=
  omap (fun route => pair route <$> route_matches route segments trailing_slash) routes.

Definition method_ok (method : string) (route : Route H) : bool :=
  match rt_method route with
  | None => true
  | Some m => (m =s method) || ((m =s "GET") && (method =s "HEAD"))
  end.
Definition choose (method : string) (sorted : list Match) : option Match :=
  match sorted with
  | [] => None
  | first :: _ =>
      let best := List.filter (fun x => spec_eqb (specificity (fst x)) (specificity (fst first))) sorted in
      match List.find (fun x => method_ok method (fst x)) best with
      | Some x => Some x
      | None => List.find (fun x => method_ok method (fst x)) sorted
      end
  end.

(** [sort] and [dedup] of the allowed methods *)
Fixpoint insert_method (m : string) (l : list string) : list string :=
  match l with
  | [] => [m]
  | x :: l' => if m =s x then l else if String.ltb m x then m :: l else x :: insert_method m l'
  end.
Definition allowed_methods (sorted : list Match) : list string :=
  let allowed := omap (fun x => rt_method (fst x)) sorted in
  let allowed := if existsb (fun m => m =s "GET") allowed then allowed ++ ["HEAD"] else allowed in
  fold_left (fun l m => insert_method m l) allowed [].

Definition path_segments (raw_path : string) : list string :=
  map (fun s => default EmptyString (unescape s false)) (nonempty (split "/"%char raw_path)).
Definition has_trailing_slash (raw_path : string) : bool := (1 <? str_len raw_path) && ends_with "/" raw_path.
Definition cleaned_path (raw_path : string) : string :=
  let cleaned := clean raw_path in
  if has_trailing_slash raw_path && (cleaned <>s "/") then cleaned +:+ "/" else cleaned.

Definition moved (location : string) : Response :=
  with_header (response_bytes 301 "text/html; charset=utf-8"
    (bytes_of ("<a href=" +:+ String quote_char EmptyString +:+ location +:+ String quote_char EmptyString +:+ ">Moved Permanently</a>.")
       ++ [LF; LF])) "Location" location.

Inductive Resolution := Answer (response : Response) | Call (handler : H) (params : list (string * string)).

Definition resolve_request (routes : list (Route H)) (request : Request) : Resolution :=
  let raw := rq_raw_path request in
  let trailing_slash := has_trailing_slash raw in
  let cleaned := cleaned_path raw in
  if starts_with "/" raw && (cleaned <>s raw) && (rq_method request <>s "CONNECT") then
    Answer (moved (if is_empty (rq_raw_query request) then cleaned else cleaned +:+ "?" +:+ rq_raw_query request))
  else
    match sort_matches (path_matches routes (path_segments raw) trailing_slash) with
    | [] => Answer (response_error "404 page not found" 404)
    | sorted =>
        match choose (rq_method request) sorted with
        | Some (route, params) => Call (rt_handler route) params
        | None => Answer (with_header (response_error "Method Not Allowed" 405) "Allow" (join ", " (allowed_methods sorted)))
        end
    end.
End Router.

(** ** The chosen route *)
Section Choice.
Context {H : Type}.

Lemma insert_match_perm (x : @Match H) l : insert_match x l ≡ₚ x :: l.
Proof.
  induction l as [|y l IH]; cbn [insert_match]; [reflexivity|]. destruct (spec_ltb (specificity (fst y)) (specificity (fst x))); [reflexivity|]. rewrite IH. apply Permutation_swap.
Qed.
Lemma sort_matches_perm (l : list (@Match H)) : sort_matches l ≡ₚ l.
Proof.
  unfold sort_matches. enough (forall acc, fold_left (fun sorted x => insert_match x sorted) l acc ≡ₚ l ++ acc) as Hf
    by (rewrite Hf, app_nil_r; reflexivity).
  induction l as [|x l IH]; intros acc; cbn; [reflexivity|]. rewrite IH, insert_match_perm. symmetry. apply Permutation_middle.
Qed.

Lemma choose_sound method sorted (x : @Match H) : choose method sorted = Some x -> In x sorted /\ method_ok method (fst x) = true.
Proof.
  unfold choose. destruct sorted as [|first rest]; [discriminate|]. set (l := first :: rest). intros Hc.
  match type of Hc with context [List.find ?f ?b] => destruct (List.find f b) eqn:Ef end.
  - injection Hc as <-. apply List.find_some in Ef as [Hi Hm]. apply List.filter_In in Hi as [Hi _]. split; assumption.
  - apply List.find_some in Hc as [Hi Hm]. split; assumption.
Qed.

(** A handler is called only for a route the table has, whose pattern the path
    matches and whose method the request has. *)
Lemma call_sound routes request (h : H) params : resolve_request routes request = Call h params ->
  exists route, In route routes /\ rt_handler route = h /\ method_ok (rq_method request) route = true
    /\ route_matches route (path_segments (rq_raw_path request)) (has_trailing_slash (rq_raw_path request)) = Some params.
Proof.
  unfold resolve_request. destruct (_ && _ && _); [discriminate|].
  destruct (sort_matches _) as [|first rest] eqn:Es; [discriminate|].
  destruct (choose _ _) as [[route ps]|] eqn:Ec; [|discriminate]. intros [= <- <-].
  apply choose_sound in Ec as [Hi Hm]. rewrite <- Es in Hi.
  apply (Permutation_in _ (sort_matches_perm _)) in Hi. rewrite <- list_elem_of_In in Hi. unfold path_matches in Hi.
  apply list_elem_of_omap in Hi as (route' & Hr & Hp). destruct (route_matches _ _ _) as [ps'|] eqn:Em; [|discriminate].
  cbn in Hp. injection Hp as -> ->. exists route. rewrite <- list_elem_of_In. auto.
Qed.
End Choice.

(** ** The decoded path and the decoded segments *)

(** An escape never spans a slash. *)
Lemma unescape_bytes_app n : forall x y o, (List.length x <= n)%nat -> unescape_bytes false (x ++ slash :: y) = Some o ->
  exists ox oy, unescape_bytes false x = Some ox /\ unescape_bytes false y = Some oy /\ o = ox ++ slash :: oy.
Proof.
  induction n as [|n IH]; intros x y o Hn Hu.
  - destruct x; [|cbn in Hn; lia]. cbn in Hu. destruct (unescape_bytes false y) as [oy|]; [|discriminate]. injection Hu as <-. exists [], oy. auto.
  - destruct x as [|a x]; [cbn in Hu; destruct (unescape_bytes false y) as [oy|]; [|discriminate]; injection Hu as <-; exists [], oy; auto|].
    cbn [List.length app unescape_bytes] in *. destruct (Ascii.eqb a "%"%char).
    + destruct x as [|b [|c x]]; cbn [app List.length] in *.
      * destruct y; discriminate.
      * replace (hex_pair b slash) with (@None ascii) in Hu by (unfold hex_pair; change (hex_val slash) with (@None Z); cases_goal; reflexivity).
        discriminate.
      * destruct (hex_pair b c) as [v|]; [|discriminate].
        destruct (unescape_bytes false (x ++ slash :: y)) as [o'|] eqn:Eu; [|discriminate]. injection Hu as <-.
        destruct (IH x y o' ltac:(lia) Eu) as (ox & oy & -> & -> & ->). exists (v :: ox), oy. auto.
    + destruct (unescape_bytes false (x ++ slash :: y)) as [o'|] eqn:Eu; [|discriminate]. injection Hu as <-.
      destruct (IH x y o' ltac:(lia) Eu) as (ox & oy & -> & -> & ->). eexists _, oy. auto.
Qed.

(** The parts of a path that are not empty *)
Definition components (path : string) : list string := nonempty (split slash path).

Lemma split_bytes_sep sep x y : split_bytes sep (x ++ sep :: y) = split_bytes sep x ++ split_bytes sep y.
Proof.
  induction x as [|a x IH]; cbn [app split_bytes]; [rewrite Ascii.eqb_refl; reflexivity|].
  destruct (Ascii.eqb a sep); rewrite IH; [reflexivity|].
  pose proof (split_bytes_nonempty sep x). destruct (split_bytes sep x); [contradiction|reflexivity].
Qed.
Lemma components_app x y : components (x +:+ String slash y) = components x ++ components y.
Proof.
  unfold components, split. rewrite bytes_of_app. change (bytes_of (String slash y)) with (slash :: bytes_of y).
  rewrite split_bytes_sep, map_app. unfold nonempty. apply List.filter_app.
Qed.

Lemma unescape_app x y o : unescape (x +:+ String slash y) false = Some o ->
  exists ox oy, unescape x false = Some ox /\ unescape y false = Some oy /\ o = ox +:+ String slash oy.
Proof.
  unfold unescape. rewrite bytes_of_app. change (bytes_of (String slash y)) with (slash :: bytes_of y). intros Hu.
  destruct (unescape_bytes _ _) as [b|] eqn:Eb; [|discriminate]. injection Hu as <-.
  destruct (unescape_bytes_app _ _ _ _ (le_n _) Eb) as (ox & oy & -> & -> & ->). eexists _, _. split; [reflexivity|]. split; [reflexivity|].
  rewrite (utf8_lossy_ascii _ _ _ _ (le_n _)) by reflexivity. rewrite str_of_app. reflexivity.
Qed.

(** The parts of the decoded path are those of the decoded segments. *)
Lemma components_segments raw path : unescape raw false = Some path -> components path = concat (map components (path_segments raw)).
Proof.
  unfold path_segments, split. rewrite <- (str_of_bytes_of raw) at 1. rewrite <- (intercalate_split slash (bytes_of raw)) at 1.
  pose proof (split_bytes_nonempty slash (bytes_of raw)) as Hn.
  generalize dependent (split_bytes slash (bytes_of raw)). intros ws Hn. revert path.
  induction ws as [|w ws IH]; [done|]. intros path Hp. destruct ws as [|w' ws].
  - cbn [intercalate] in Hp. cbn. destruct (is_empty (str_of w)) eqn:Ew; cbn.
    + destruct w; [|discriminate]. injection Hp as <-. reflexivity.
    + rewrite Hp. cbn. rewrite app_nil_r. reflexivity.
  - cbn [intercalate] in Hp. rewrite str_of_app in Hp. change (str_of (slash :: intercalate slash (w' :: ws))) with (String slash (str_of (intercalate slash (w' :: ws)))) in Hp.
    apply unescape_app in Hp as (ox & oy & Hx & Hy & ->). rewrite components_app.
    rewrite (IH ltac:(discriminate) oy Hy). cbn [map nonempty List.filter]. 
    destruct (is_empty (str_of w)) eqn:Ew; cbn [negb].
    + destruct w; [|discriminate]. injection Hx as <-. reflexivity.
    + cbn [map concat]. rewrite Hx. reflexivity.
Qed.
