(* ===== verification/HttpWire.v ===== *)
(** * Responses read back

    A reference client, and what it reads of the bytes [write_response] writes. *)

From Stdlib Require Import ZArith Ascii String Lia Bool.
From stdpp Require Import base list strings gmap.
From S2P Require Import Prelude GoStrings Net NetSpec GoTime Json Model Validation Policy Auth AuthStore AuthSpec AuthLimit AuthSecrets Http HttpServer HttpServerSpec Router.

Local Open Scope string_scope.
Local Open Scope Z_scope.
Local Open Scope list_scope.

(** ** The reference client *)
Fixpoint cut_line (l : bytes) : option (bytes * bytes) :=
  match strip_prefix_bytes CRLF l with
  | Some rest => Some ([], rest)
  | None =>
      match l with
      | [] => None
      | a :: t => let! (line, rest) := cut_line t in Some (a :: line, rest)
      end
  end.
Fixpoint client_headers (fuel : nat) (l : bytes) : option (Headers * bytes) :=
  match fuel with
  | O => None
  | S fuel' =>
      let! (line, rest) := cut_line l in
      match line with
      | [] => Some ([], rest)
      | _ =>
          let! (name, value) := split_once_bytes ":"%char line in
          let! (h, rest) := client_headers fuel' rest in Some ((str_of name, str_of (List.tl value)) :: h, rest)
      end
  end.
(** No body follows the headers of an answer to HEAD, nor those of some statuses. *)
Definition carries_body (method : string) (status : Z) : bool := (method <>s "HEAD") && negb (bodyless status).
(** The status line, the headers, the body and what follows the response, for a
    client that asked with [method] and was answered [status] *)
Definition received (method : string) (status : Z) (l : bytes) (line : bytes) (h : Headers) (body rest : bytes) : Prop :=
  exists l1 l2, cut_line l = Some (line, l1) /\ client_headers (S (List.length l1)) l1 = Some (h, l2)
    /\ if carries_body method status then
         if header_get h "Transfer-Encoding" =s "chunked" then chunked_body l2 body rest
         else parse_length (header_get h "Content-Length") = Some (Z.of_nat (List.length body)) /\ l2 = body ++ rest
       else body = [] /\ l2 = rest.

(** ** Lines *)
Definition no_break (l : bytes) : bool := forallb (fun a => negb (Ascii.eqb a CR || Ascii.eqb a LF)) l.
Lemma cut_line_app line rest : no_break line = true -> cut_line (line ++ CRLF ++ rest) = Some (line, rest).
Proof.
  induction line as [|a line IH]; intros Hl; [reflexivity|]. unfold no_break in *. cbn [forallb] in Hl. apply andb_prop in Hl as [Ha Hl].
  cbn -[CRLF]. replace (strip_prefix_bytes CRLF (a :: line ++ CRLF ++ rest)) with (@None bytes).
  - rewrite IH by exact Hl. reflexivity.
  - unfold CRLF. cbn [strip_prefix_bytes]. destruct (Ascii.eqb CR a) eqn:E; [|reflexivity]. apply Ascii.eqb_eq in E as <-. discriminate.
Qed.
Lemma no_break_app a b : no_break (a ++ b) = no_break a && no_break b.
Proof. apply forallb_app. Qed.
Lemma no_break_digits l : forallb is_ascii_digit l = true -> no_break l = true.
Proof.
  unfold no_break. rewrite !forallb_forall. intros Hl a Ha. specialize (Hl a Ha). unfold is_ascii_digit in Hl.
  destruct (Ascii.eqb_spec a CR) as [->|]; [discriminate|]. destruct (Ascii.eqb_spec a LF) as [->|]; [discriminate|reflexivity].
Qed.
Lemma no_break_unbroken v : no_break (unbroken v) = true.
Proof.
  unfold no_break, unbroken. rewrite forallb_forall. intros a Ha. apply in_map_iff in Ha as (b & <- & _).
  destruct (Ascii.eqb b CR || Ascii.eqb b LF) eqn:E; [reflexivity|]. rewrite E. reflexivity.
Qed.
Lemma no_break_token name : valid_header_name name = true -> no_break (bytes_of name) = true /\ forallb (fun a => negb (Ascii.eqb a ":"%char)) (bytes_of name) = true.
Proof.
  unfold valid_header_name, no_break. intros Hv. apply andb_prop in Hv as [_ Hv]. rewrite !forallb_forall in *.
  split; intros a Ha; specialize (Hv a Ha).
  - destruct (Ascii.eqb_spec a CR) as [->|]; [discriminate|]. destruct (Ascii.eqb_spec a LF) as [->|]; [discriminate|reflexivity].
  - destruct (Ascii.eqb_spec a ":"%char) as [->|]; [discriminate|reflexivity].
Qed.
Lemma no_break_status status : 0 <= status -> no_break (bytes_of ("HTTP/1.1 " +:+ show_Z status +:+ " " +:+ status_text status)) = true.
Proof.
  intros Hs. rewrite !bytes_of_app, !no_break_app. unfold show_Z. replace (status <? 0) with false by lia. rewrite bytes_of_str_of.
  rewrite (no_break_digits (show_nonneg status)) by (apply show_nonneg_digits; exact Hs).
  enough (no_break (bytes_of (status_text status)) = true) as -> by reflexivity. unfold status_text.
  match goal with |- context [List.find ?f ?l] => destruct (List.find f l) as [p|] eqn:E; [|reflexivity] end.
  apply List.find_some in E as [E _]. cbn [fmap option_fmap option_map default from_option].
  match type of E with In p ?l => assert (forallb (fun q => no_break (bytes_of (snd q))) l = true) as Hall by reflexivity end.
  rewrite forallb_forall in Hall. exact (Hall p E).
Qed.

(** ** Headers *)
Definition on_wire (h : Headers) : Headers := map (fun kv => (fst kv, str_of (unbroken (snd kv)))) h.
Definition valid_names (h : Headers) : bool := forallb (fun kv => valid_header_name (fst kv)) h.

Lemma client_headers_wire h : forall fuel rest, valid_names h = true -> (List.length h < fuel)%nat ->
  client_headers fuel (concat (map wire_header h) ++ CRLF ++ rest) = Some (on_wire h, rest).
Proof.
  induction h as [|[name value] h IH]; intros [|fuel] rest Hv Hf; cbn [List.length] in Hf; try lia; [reflexivity|].
  unfold valid_names in Hv. cbn [forallb fst] in Hv. apply andb_prop in Hv as [Hn Hv]. destruct (no_break_token _ Hn) as [Hb Hc].
  cbn [map concat]. unfold wire_header at 1. cbn [fst snd]. cbn [client_headers].
  replace ((bytes_of name ++ bytes_of ": " ++ unbroken value ++ CRLF) ++ concat (map wire_header h)) with
    ((bytes_of name ++ ":"%char :: " "%char :: unbroken value) ++ CRLF ++ concat (map wire_header h)) by (rewrite <- !app_assoc; reflexivity).
  rewrite <- !app_assoc, app_assoc. rewrite cut_line_app.
  2: { rewrite no_break_app, Hb. cbn. apply no_break_unbroken. }
  destruct (bytes_of name ++ ":"%char :: " "%char :: unbroken value) eqn:E; [destruct (bytes_of name); discriminate|].
  rewrite <- E, split_once_app by exact Hc. rewrite IH by (assumption || lia). cbn [List.tl]. rewrite str_of_bytes_of. reflexivity.
Qed.

(** Header lookups *)
Lemma eq_case_trans a b c : eq_ignore_ascii_case a b = true -> eq_ignore_ascii_case a c = eq_ignore_ascii_case b c.
Proof. unfold eq_ignore_ascii_case. intros E. apply String.eqb_eq in E. rewrite E. reflexivity. Qed.
Lemma has_values h name : header_has h name = false -> header_values h name = [].
Proof.
  unfold header_has, header_values. induction h as [|kv h IH]; [reflexivity|]. cbn. intros Hh. apply orb_false_elim in Hh as [H1 H2].
  rewrite H1. apply IH, H2.
Qed.
Lemma values_app h h' name : header_values (h ++ h') name = header_values h name ++ header_values h' name.
Proof. unfold header_values. rewrite List.filter_app, map_app. reflexivity. Qed.
Lemma values_del h name other : eq_ignore_ascii_case name other = false -> header_values (header_del h name) other = header_values h other.
Proof.
  intros Hn. unfold header_values, header_del. induction h as [|[k v] h IH]; [reflexivity|]. cbn [List.filter fst].
  destruct (eq_ignore_ascii_case k name) eqn:Ek; cbn [negb].
  - rewrite (eq_case_trans _ _ other Ek), Hn. exact IH.
  - cbn [List.filter fst]. destruct (eq_ignore_ascii_case k other); cbn [map]; rewrite IH; reflexivity.
Qed.
Lemma values_del_same h name : header_values (header_del h name) name = [].
Proof.
  unfold header_values, header_del. induction h as [|[k v] h IH]; [reflexivity|]. cbn [List.filter fst].
  destruct (eq_ignore_ascii_case k name) eqn:Ek; cbn [negb]; [exact IH|]. cbn [List.filter fst]. rewrite Ek. exact IH.
Qed.
Lemma values_set_other h name value other : eq_ignore_ascii_case name other = false -> eq_ignore_ascii_case (canonical_key name) other = false ->
  header_values (header_set h name value) other = header_values h other.
Proof.
  intros H1 H2. unfold header_set. destruct (valid_header_name name); [|reflexivity]. rewrite values_app, values_del by exact H1.
  unfold header_values at 2. cbn [List.filter fst]. rewrite H2. apply app_nil_r.
Qed.
Lemma values_set h name value : valid_header_name name = true -> eq_ignore_ascii_case (canonical_key name) name = true ->
  header_values (header_set h name value) name = [value].
Proof.
  intros Hv He. unfold header_set. rewrite Hv, values_app, values_del_same. unfold header_values. cbn [List.filter fst]. rewrite He. reflexivity.
Qed.
Lemma has_set_other h name value other : eq_ignore_ascii_case name other = false -> eq_ignore_ascii_case (canonical_key name) other = false ->
  header_has (header_set h name value) other = header_has h other.
Proof.
  intros H1 H2. unfold header_set. destruct (valid_header_name name); [|reflexivity]. unfold header_has, header_del. rewrite existsb_app. cbn [existsb fst].
  rewrite H2, !orb_false_r. induction h as [|[k v] h IH]; [reflexivity|]. cbn [List.filter fst existsb].
  destruct (eq_ignore_ascii_case k name) eqn:Ek; cbn [negb existsb fst]; rewrite IH; [|reflexivity].
  rewrite (eq_case_trans _ _ other Ek), H1. reflexivity.
Qed.
Lemma valid_set h name value : valid_names h = true -> valid_names (header_set h name value) = true.
Proof.
  unfold header_set. destruct (valid_header_name name) eqn:En; [|auto]. unfold valid_names, header_del. rewrite !forallb_forall. intros Hv kv Hi.
  apply in_app_iff in Hi as [Hi|[<-|[]]]; [apply List.filter_In in Hi as [Hi _]; exact (Hv kv Hi)|]. cbn [fst].
  unfold valid_header_name in *. apply andb_prop in En as [En1 En2]. apply andb_true_intro. unfold canonical_key. split.
  - destruct name as [|a name]; [discriminate|]. reflexivity.
  - rewrite bytes_of_str_of. enough (forall upper, forallb is_token_byte (canonical_loop upper (bytes_of name)) = true) as Hu by apply Hu.
    clear En1. induction (bytes_of name) as [|a l IH]; intros upper; [reflexivity|]. cbn [forallb canonical_loop] in *.
    apply andb_prop in En2 as [Ha Hl]. rewrite (IH Hl), andb_true_r.
    assert (forall b, is_token_byte b = true -> is_token_byte (to_ascii_upper b) = true /\ is_token_byte (to_ascii_lower b) = true) as Ht
      by (intros [[] [] [] [] [] [] [] []]; vm_compute; auto).
    destruct upper; apply Ht; exact Ha.
Qed.
Lemma on_wire_get h name : header_get (on_wire h) name = str_of (unbroken (header_get h name)).
Proof.
  unfold header_get, header_values, on_wire. induction h as [|[k v] h IH]; [reflexivity|]. cbn [map List.filter fst].
  destruct (eq_ignore_ascii_case k name); [reflexivity|exact IH].
Qed.

(** ** Chunks *)
Definition hex_step (n : option Z) (a : ascii) : option Z :=
  let! n := n in let! d := hex_val a in if 16 * n + d <=? u64_max then Some (16 * n + d) else None.
Definition hex_text (l : bytes) : Prop := forall a, In a l -> exists d, 0 <= d < 16 /\ a = hex_digit d.

Lemma show_hex_spec fuel : forall n, 0 <= n < 16 ^ Z.of_nat fuel -> n <= u64_max -> (0 < fuel)%nat ->
  fold_left hex_step (show_hex fuel n) (Some 0) = Some n /\ hex_text (show_hex fuel n) /\ show_hex fuel n <> []
  /\ (List.length (show_hex fuel n) <= fuel)%nat.
Proof.
  assert (forall m d, 0 <= m -> 0 <= d < 16 -> 16 * m + d <= u64_max -> hex_step (Some m) (hex_digit d) = Some (16 * m + d)) as Hstep.
  { intros m d Hm Hd Hu. unfold hex_step. rewrite hex_val_digit by exact Hd. replace (_ <=? u64_max) with true by lia. reflexivity. }
  induction fuel as [|fuel IH]; intros n Hn Hu Hf; [lia|]. cbn [show_hex]. destruct (n <? 16) eqn:E.
  - cbn [fold_left]. rewrite Hstep by lia. split; [f_equal; lia|]. split; [|split; [discriminate|cbn; lia]].
    intros a [<-|[]]. exists n. split; [lia|reflexivity].
  - assert (0 < fuel)%nat by (destruct fuel; [change (16 ^ Z.of_nat 1) with 16 in Hn; lia|lia]).
    assert (0 <= n / 16 < 16 ^ Z.of_nat fuel) as Hq.
    { split; [apply Z.div_pos; lia|]. apply Z.div_lt_upper_bound; [lia|]. rewrite Nat2Z.inj_succ, Z.pow_succ_r in Hn by lia. lia. }
    pose proof (Z.div_mod n 16 ltac:(lia)) as Hdm. pose proof (Z.mod_pos_bound n 16 ltac:(lia)) as Hmod.
    destruct (IH (n / 16) Hq ltac:(lia) ltac:(assumption)) as (IH1 & IH2 & IH3 & IH4).
    rewrite fold_left_app, IH1. cbn [fold_left]. rewrite Hstep by lia. split; [f_equal; lia|]. split; [|split].
    + intros a Ha. apply in_app_iff in Ha as [Ha|[<-|[]]]; [exact (IH2 a Ha)|]. exists (n mod 16). split; [lia|reflexivity].
    + destruct (show_hex fuel (n / 16)); discriminate.
    + rewrite length_app. cbn. lia.
Qed.
Lemma lower_hex_spec n : 0 <= n < 2 ^ 16 ->
  fold_left hex_step (lower_hex n) (Some 0) = Some n /\ hex_text (lower_hex n) /\ lower_hex n <> [] /\ (List.length (lower_hex n) <= 16)%nat.
Proof.
  intros Hn. unfold lower_hex. assert (Z.log2 n <= 15) as Hl by (destruct (Z.eq_dec n 0) as [->|]; [cbn; lia|apply Z.lt_succ_r, Z.log2_lt_pow2; cbn; lia]).
  pose proof (Z.log2_nonneg n). destruct (show_hex_spec (S (Z.to_nat (Z.log2 n))) n) as (H1 & H2 & H3 & H4); [|unfold u64_max; lia|lia|].
  - split; [lia|]. rewrite Nat2Z.inj_succ, Z2Nat.id by lia. destruct (Z.eq_dec n 0) as [->|]; [reflexivity|].
    pose proof (Z.log2_spec n ltac:(lia)) as [_ Hs]. eapply Z.lt_le_trans; [exact Hs|]. apply Z.pow_le_mono_l. lia.
  - repeat split; try assumption. lia.
Qed.

Lemma hex_digit_plain d : 0 <= d < 16 -> bv (hex_digit d) < 128 /\ negb (char_is_whitespace (bv (hex_digit d))) = true
  /\ hex_digit d <> LF /\ hex_digit d <> ";"%char /\ hex_digit d <> "+"%char.
Proof.
  intros Hd. assert (In d [0;1;2;3;4;5;6;7;8;9;10;11;12;13;14;15]) as Hi by (cbn; lia). cbn in Hi.
  decompose [or] Hi; subst; try contradiction; vm_compute; repeat split; congruence.
Qed.

Lemma read_line_crlf limit line : forall acc rest, Forall (fun a => a <> LF) line -> (List.length acc + List.length line <= limit)%nat ->
  read_line_loop limit acc (line ++ CRLF ++ rest) = (Ok (rev acc ++ line), rest).
Proof.
  induction line as [|a line IH]; intros acc rest Hl Hn; cbn [List.length app] in *.
  - unfold CRLF. cbn [app read_line_loop]. change (Ascii.eqb CR LF) with false. cbn iota.
    replace (Nat.ltb (limit + 1) (S (List.length acc))) with false by (symmetry; apply Nat.ltb_ge; lia).
    cbn [read_line_loop]. change (Ascii.eqb LF LF) with true. change (Ascii.eqb CR CR) with true. cbn iota. rewrite app_nil_r. reflexivity.
  - inversion Hl as [|? ? Ha Hl']. subst. cbn [read_line_loop]. destruct (Ascii.eqb_spec a LF) as [|_]; [contradiction|].
    replace (Nat.ltb (limit + 1) (S (List.length acc))) with false by (symmetry; apply Nat.ltb_ge; lia).
    rewrite IH by (assumption || cbn; lia). cbn [rev]. rewrite <- app_assoc. reflexivity.
Qed.

Lemma chunk_line (data rest : bytes) : Z.of_nat (List.length data) < 2 ^ 16 ->
  exists line, read_line_from 4096 (lower_hex (Z.of_nat (List.length data)) ++ CRLF ++ rest) = (Ok line, rest)
    /\ chunk_size line = Some (Z.of_nat (List.length data)).
Proof.
  intros Hn. set (n := Z.of_nat (List.length data)) in *. destruct (lower_hex_spec n ltac:(lia)) as (H1 & H2 & H3 & H4).
  assert (forall P : ascii -> Prop, (forall d, 0 <= d < 16 -> P (hex_digit d)) -> forall a, In a (lower_hex n) -> P a) as Hall
    by (intros P HP a Ha; destruct (H2 a Ha) as (d & Hd & ->); apply HP, Hd).
  assert (forallb (fun a => bv a <? 128) (lower_hex n) = true) as Hascii.
  { apply forallb_forall. apply Hall. intros d Hd. destruct (hex_digit_plain d Hd). lia. }
  exists (str_of (lower_hex n)). split.
  - unfold read_line_from. rewrite read_line_crlf; [cbn [rev app]; rewrite utf8_lossy_id by exact Hascii; reflexivity| |cbn [List.length]; lia].
    apply List.Forall_forall. apply Hall. intros d Hd. apply (hex_digit_plain d Hd).
  - unfold chunk_size, first_field, split. rewrite bytes_of_str_of. rewrite split_bytes_single.
    2: { apply forallb_forall. apply Hall. intros d Hd. destruct (hex_digit_plain d Hd) as (_ & _ & _ & H & _). destruct (Ascii.eqb_spec (hex_digit d) ";"%char); [contradiction|reflexivity]. }
    cbn [map hd]. rewrite trim_plain.
    2: { apply forallb_forall. apply Hall. intros d Hd. destruct (hex_digit_plain d Hd) as (Ha & Hw & _). rewrite Hw. replace (_ <? 128) with true by lia. reflexivity. }
    unfold parse_hex_u64. rewrite bytes_of_str_of. destruct (lower_hex n) as [|a l] eqn:El; [contradiction|].
    replace (match l with [] => a :: l | _ :: _ => if Ascii.eqb a "+"%char then List.tl (a :: l) else a :: l end) with (a :: l).
    + exact H1.
    + destruct l; [reflexivity|]. destruct (Ascii.eqb_spec a "+"%char) as [->|]; [|reflexivity].
      exfalso. apply (Hall (fun b => b <> "+"%char)) with (a := "+"%char); [intros d Hd; apply (hex_digit_plain d Hd)|left; reflexivity|reflexivity].
Qed.

Lemma empty_line limit rest : read_line_from limit (CRLF ++ rest) = (Ok EmptyString, rest).
Proof.
  unfold read_line_from. change (CRLF ++ rest) with ([] ++ CRLF ++ rest). rewrite read_line_crlf; [reflexivity|constructor|cbn; lia].
Qed.
Lemma wire_stream_body reads rest : Forall (fun d : bytes => Z.of_nat (List.length d) < 2 ^ 16) reads ->
  chunked_body (wire_stream true reads ++ rest) (concat (until_empty reads)) rest.
Proof.
  unfold wire_stream. intros Hl.
  assert (chunked_body ((bytes_of "0" ++ CRLF ++ CRLF) ++ rest) [] rest) as Hend.
  { eapply chunked_last with (line := "0") (l1 := CRLF ++ rest).
    - unfold read_line_from. change ((bytes_of "0" ++ CRLF ++ CRLF) ++ rest) with (bytes_of "0" ++ CRLF ++ (CRLF ++ rest)).
      rewrite read_line_crlf; [reflexivity|repeat constructor; discriminate|cbn; lia].
    - reflexivity.
    - cbn [read_trailer]. rewrite empty_line. reflexivity. }
  induction Hl as [|d reads Hd Hl IH]; [exact Hend|]. unfold until_empty in *. cbn [take_while].
  destruct d as [|a d]; [exact Hend|]. cbn [map concat]. unfold wire_chunk at 1. destruct (chunk_line (a :: d) ((a :: d) ++ CRLF ++ (concat (map wire_chunk (take_while (fun d => match d with [] => false | _ => true end) reads)) ++ bytes_of "0" ++ CRLF ++ CRLF) ++ rest) Hd)
    as (line & Hr & Hs).
  eapply chunked_more with (line := line); [|exact Hs|discriminate|apply empty_line|exact IH].
  rewrite <- Hr. f_equal. rewrite <- !app_assoc. reflexivity.
Qed.

(** ** The theorem *)
Lemma header_get_values h name v rest : header_values h name = v :: rest -> header_get h name = v.
Proof. unfold header_get. intros ->. reflexivity. Qed.
Lemma unbroken_digits n : 0 <= n -> str_of (unbroken (show_Z n)) = show_Z n.
Proof.
  intros Hn. unfold show_Z. replace (n <? 0) with false by lia. unfold unbroken. rewrite bytes_of_str_of. f_equal.
  pose proof (show_nonneg_digits n Hn) as Hd. apply no_break_digits in Hd. unfold no_break in Hd. rewrite forallb_forall in Hd.
  rewrite <- map_id. apply map_ext_in. intros a Ha. specialize (Hd a Ha). destruct (_ || _); [discriminate|reflexivity].
Qed.
Lemma parse_length_show n : 0 <= n <= i64_max -> parse_length (show_Z n) = Some n.
Proof.
  intros Hn. unfold parse_length, show_Z. replace (n <? 0) with false by lia. rewrite bytes_of_str_of.
  destruct (show_nonneg_spec n ltac:(lia)) as (Hv & Hd & Hne & _). destruct (show_nonneg n) as [|a l] eqn:E; [contradiction|].
  assert (Ascii.eqb a "+"%char = false) as -> by (destruct (Ascii.eqb_spec a "+"%char) as [->|]; [discriminate|reflexivity]).
  rewrite Hd, Hv. cbn [negb]. replace (n <=? i64_max) with true by lia. reflexivity.
Qed.

(** What a client must receive *)
Definition response_body (response : Response) : bytes :=
  match rs_body response with Bytes b => b | Stream reads => concat (until_empty reads) end.
Definition body_fits (response : Response) : Prop :=
  match rs_body response with
  | Bytes _ => True
  | Stream reads => Forall (fun d => Z.of_nat (List.length d) <= 32 * 1024) reads
  end /\ Z.of_nat (List.length (response_body response)) <= i64_max.
(** The handler leaves the transfer encoding to the server, and the length too
    unless it gives the length the body has, as [serve_static] does for a file. *)
Definition framed (response : Response) : Prop :=
  header_has (rs_headers response) "Transfer-Encoding" = false
  /\ (header_has (rs_headers response) "Content-Length" = true ->
      header_values (rs_headers response) "Content-Length" = [show_Z (Z.of_nat (List.length (response_body response)))]).

Lemma unless_has_values h name value other : eq_ignore_ascii_case name other = false -> eq_ignore_ascii_case (canonical_key name) other = false ->
  header_values (unless_has h name value) other = header_values h other.
Proof. intros H1 H2. unfold unless_has. destruct (header_has h name); [done|by apply values_set_other]. Qed.
Lemma unless_has_has h name value other : eq_ignore_ascii_case name other = false -> eq_ignore_ascii_case (canonical_key name) other = false ->
  header_has (unless_has h name value) other = header_has h other.
Proof. intros H1 H2. unfold unless_has. destruct (header_has h name); [done|by apply has_set_other]. Qed.

(** The framing headers the server writes *)
Lemma wire_framing response date close : bodyless (rs_status response) = false -> framed response ->
  let h := wire_headers response date close in
  let length := show_Z (Z.of_nat (List.length (response_body response))) in
  match rs_body response with
  | Bytes _ => header_get h "Transfer-Encoding" = EmptyString /\ header_get h "Content-Length" = length
  | Stream _ => header_get h "Transfer-Encoding" = "chunked"
      \/ header_get h "Transfer-Encoding" = EmptyString /\ header_get h "Content-Length" = length
  end.
Proof.
  intros Hb [Ht Hc]. unfold wire_headers. rewrite Hb. cbn zeta. set (n := show_Z _) in *. set (h0 := unless_has (rs_headers response) "Date" date).
  assert (header_has h0 "Transfer-Encoding" = false) as H2 by (unfold h0; by rewrite unless_has_has).
  assert (header_has h0 "Content-Length" = true -> header_values h0 "Content-Length" = [n]) as H1.
  { unfold h0. rewrite unless_has_has, unless_has_values by reflexivity. exact Hc. }
  clearbody h0.
  assert (forall h name, eq_ignore_ascii_case "Connection" name = false -> eq_ignore_ascii_case (canonical_key "Connection") name = false ->
    header_values (if close then header_set h "Connection" "close" else h) name = header_values h name) as Hclose
    by (intros h name E1 E2; destruct close; [apply values_set_other; assumption|reflexivity]).
  unfold header_get. unfold response_body in n. destruct (rs_body response) as [b|reads].
  - set (h1 := match b with [] => h0 | _ => _ end). rewrite !Hclose by reflexivity.
    assert (header_has h1 "Transfer-Encoding" = false) as H4 by (unfold h1; destruct b; [done|by rewrite unless_has_has]).
    assert (header_has h1 "Content-Length" = true -> header_values h1 "Content-Length" = [n]) as H3.
    { unfold h1. destruct b; [done|]. by rewrite unless_has_has, unless_has_values. }
    clearbody h1. rewrite unless_has_values by reflexivity. rewrite (has_values h1 "Transfer-Encoding") by exact H4. split; [done|].
    unfold unless_has. destruct (header_has h1 "Content-Length"); [by rewrite H3|]. by rewrite values_set.
  - destruct (header_has h0 "Content-Length"); rewrite !Hclose by reflexivity; [right|left].
    + by rewrite H1, (has_values h0 "Transfer-Encoding").
    + by rewrite values_set.
Qed.
Lemma wire_headers_valid response date close : valid_names (rs_headers response) = true -> valid_names (wire_headers response date close) = true.
Proof.
  intros Hv. unfold wire_headers, unless_has. repeat case_match; auto using valid_set.
Qed.

(** C33: No header value splits a response.  Whatever values the handler put into
    its headers (whose names are tokens), a client that reads the bytes
    [write_response] wrote finds that status line, those headers in order with their
    line breaks blanked, and exactly the body, framed by its length or by chunks,
    and what follows is the next response; an answer to HEAD, or one of a status
    that has no body, ends with its headers.  For an answer with a body this takes
    that the handler set no Transfer-Encoding, and no Content-Length other than the
    one length the body has; a body fits a signed 64-bit length, and a read of a
    streamed one the buffer of 32 KiB and does not fail. *)
Theorem response_reads_back method response date close rest : 0 <= rs_status response ->
  valid_names (rs_headers response) = true -> body_fits response ->
  (carries_body method (rs_status response) = true -> framed response) ->
  received method (rs_status response) (write_response method response date close ++ rest)
    (bytes_of ("HTTP/1.1 " +:+ show_Z (rs_status response) +:+ " " +:+ status_text (rs_status response)))
    (on_wire (wire_headers response date close)) (if carries_body method (rs_status response) then response_body response else []) rest.
Proof.
  intros Hs Hv [Hreads Hfit] Hframed. unfold write_response, received. cbn zeta. fold (carries_body method (rs_status response)).
  pose proof (wire_headers_valid response date close Hv) as Hv'.
  assert (Hf : carries_body method (rs_status response) = true -> bodyless (rs_status response) = false)
    by (unfold carries_body; intros [_ Hb]%andb_prop; by apply negb_true_iff).
  pose proof (fun Hb => wire_framing response date close (Hf Hb) (Hframed Hb)) as Hframe. cbn zeta in Hframe. clear Hf Hframed.
  set (h := wire_headers response date close) in *. clearbody h.
  set (body := if carries_body method (rs_status response) then _ else _).
  exists (concat (map wire_header h) ++ CRLF ++ body ++ rest), (body ++ rest). split; [|split].
  - unfold status_line. rewrite <- !app_assoc. apply cut_line_app, no_break_status, Hs.
  - apply client_headers_wire; [exact Hv'|]. rewrite !length_app. enough (List.length h <= List.length (concat (map wire_header h)))%nat by lia.
    clear. induction h as [|kv h IH]; [cbn; lia|]. cbn [map concat List.length]. rewrite length_app. unfold wire_header at 1. rewrite !length_app. cbn [CRLF List.length]. lia.
  - unfold body. clear body. destruct (carries_body _ _); [|done]. specialize (Hframe eq_refl). rewrite !on_wire_get.
    unfold response_body in *. destruct (rs_body response) as [b|reads].
    + destruct Hframe as [H1 H2]. rewrite H1, H2. cbn [unbroken]. rewrite unbroken_digits by lia. split; [apply parse_length_show; lia|reflexivity].
    + destruct Hframe as [Hch|[H1 H2]].
      * rewrite Hch. cbn. apply wire_stream_body. eapply List.Forall_impl; [|exact Hreads]. intros d Hd. cbn beta in Hd. lia.
      * rewrite H1, H2. cbn [unbroken]. rewrite unbroken_digits by lia. split; [apply parse_length_show; lia|].
        change (EmptyString =s "chunked") with false. unfold wire_stream. by rewrite map_id, app_nil_r.
Qed.
