(* ===== verification/Generators.v ===== *)
(** * The other generators

    [services/generators.rs]: the files of dnsmasq, pppd, hostapd, Squid, inadyn
    and cloudflared, the traffic-shaping plan and the sinkhole list.  Each
    writer returns the lines it appends, in the same order; [file_of] renders
    them. *)

From Stdlib Require Import ZArith Ascii String Lia Bool.
From stdpp Require Import base list strings gmap.
From S2P Require Import Prelude GoStrings Net GoTime Json Model Validation Policy Firmware Auth Ipc Safety Engine Nft Nftables Http Wireguard.

Local Open Scope string_scope.
Local Open Scope Z_scope.
Local Open Scope list_scope.

Definition file_of (lines : list string) : string := foldr (fun l acc => l +:+ newline +:+ acc) EmptyString lines.
Definition line_text (l : Line) : string := render_line l.

(** ** dnsmasq *)

(** The tunnel's address as dnsmasq listens on it *)
Definition dns_tunnel_address (cfg : SystemConfig) : option string :=
  let w := c_wireguard cfg in
  if wg_enabled w && some_string (wg_interface w) && some_string (wg_address w) then
    let wg_ip := hd EmptyString (split "/"%char (wg_address w)) in
    if is_empty wg_ip then None else Some wg_ip
  else None.
Definition lease_line (lease : StaticLease) : string :=
  let hostname := trim (lease_hostname lease) in
  if is_empty hostname then "dhcp-host=" +:+ lease_mac lease +:+ "," +:+ lease_ip_address lease
  else "dhcp-host=" +:+ lease_mac lease +:+ "," +:+ lease_ip_address lease +:+ "," +:+ hostname.
Definition generate_doh_dnsmasq_integration (cfg : SystemConfig) : list string :=
  if negb (dhcp_dns_enabled (c_dhcp cfg)) then []
  else ["# ── DNS-over-HTTPS Integration ──"; "# Point dnsmasq upstream to local DoH proxy"; "server=127.0.0.1#5053"].

Section Dnsmasq.
Context {UC : Unicode}.

Definition dns_lines (cfg : SystemConfig) : list string :=
  ["# Generated by Minimal Router OS — do not edit manually"; "# File: /etc/dnsmasq.d/minimalrouter.conf"; EmptyString;
   "domain=" +:+ sys_domain (c_system cfg); "interface=" +:+ lan_interface (c_lan cfg)]
  ++ match dns_tunnel_address cfg with
     | Some wg_ip => ["interface=" +:+ wg_interface (c_wireguard cfg); "listen-address=" +:+ join "," ["127.0.0.1"; lan_ip_address (c_lan cfg); wg_ip]]
     | None => ["listen-address=" +:+ join "," ["127.0.0.1"; lan_ip_address (c_lan cfg)]]
     end
  ++ ["bind-dynamic"; "no-resolv"; "strict-order"; "cache-size=1000"; "bogus-priv"; "domain-needed"; "# DNS rebind attack protection"; "stop-dns-rebind";
      "rebind-domain-ok=/use-application-dns.net/"; EmptyString]
  ++ (if list_is_empty (dhcp_dns_servers (c_dhcp cfg)) then []
      else "# Upstream DNS servers" :: map (fun dns => "server=" +:+ dns) (items (dhcp_dns_servers (c_dhcp cfg))) ++ [EmptyString])
  ++ generate_doh_dnsmasq_integration cfg.
Definition dhcp_lines (cfg : SystemConfig) : list string :=
  let d := c_dhcp cfg in
  if dhcp_enabled d then
    ["# DHCP pool"; "dhcp-leasefile=/var/lib/minimalrouter-dhcp/dnsmasq.leases";
     "dhcp-range=" +:+ dhcp_range_start d +:+ "," +:+ dhcp_range_end d +:+ "," +:+ lan_netmask (c_lan cfg) +:+ "," +:+ dhcp_lease_time d;
     "dhcp-option=option:router," +:+ lan_ip_address (c_lan cfg); "dhcp-option=option:dns-server," +:+ lan_ip_address (c_lan cfg); EmptyString]
    ++ (if list_is_empty (dhcp_static_leases d) then [] else "# Static DHCP leases" :: map lease_line (items (dhcp_static_leases d)))
  else ["# DHCP disabled"].
Definition record_lines (cfg : SystemConfig) : list string :=
  (if list_is_empty (dns_records (c_dns cfg)) then []
   else EmptyString :: "# Static DNS records" :: map (fun rec => "host-record=" +:+ rec_name rec +:+ "," +:+ rec_ip rec) (items (dns_records (c_dns cfg))))
  ++ (if df_enabled (c_adguard cfg) then [EmptyString; "# DNS Filter global sinkhole blocklist"; "conf-file=/etc/dnsmasq.d/adblock_hosts.conf"] else [])
  ++ map line_text (write_dns_filter_nftsets cfg).
Definition dnsmasq_lines (cfg : SystemConfig) : list string := dns_lines cfg ++ dhcp_lines cfg ++ record_lines cfg.
Definition generate_dnsmasq_text (cfg : SystemConfig) : result string error := Ok (file_of (dnsmasq_lines (runtime cfg))).
End Dnsmasq.

(** ** pppd *)
(** [str::replace] of one byte *)
Definition replace_byte (c : ascii) (by_ : bytes) (l : bytes) : bytes := concat (map (fun a => if Ascii.eqb a c then by_ else [a]) l).
Definition quote_pppd (value : string) : string :=
  str_of (replace_byte quote_char [backslash; quote_char] (replace_byte backslash [backslash; backslash] (bytes_of value))).

Definition pppoe_peer_lines (cfg : SystemConfig) : list string :=
  let w := c_wan cfg in
  [GENERATED; "plugin pppoe.so " +:+ wan_interface w; "name " +:+ quoted (quote_pppd (wan_username w));
   "noipdefault"; "noauth"; "noipv6"; "defaultroute"; "replacedefaultroute"; "persist"; "maxfail 0"; "holdoff 5";
   "lcp-echo-interval 5"; "lcp-echo-failure 4"]
  ++ (if 0 <? wan_mtu w then ["mtu " +:+ show_Z (wan_mtu w); "mru " +:+ show_Z (wan_mtu w)] else []).
Definition pppoe_secret_lines (cfg : SystemConfig) : list string :=
  [GENERATED; quoted (quote_pppd (wan_username (c_wan cfg))) +:+ " * " +:+ quoted (quote_pppd (wan_password (c_wan cfg))) +:+ " *"].
Definition generate_pppoe_files (cfg : SystemConfig) : result PPPoEConfigBundle error :=
  let secret := file_of (pppoe_secret_lines cfg) in
  Ok (mkPPPoE (file_of (pppoe_peer_lines cfg)) secret secret).

(** ** hostapd *)
Definition hostapd_lines (cfg : SystemConfig) : list string :=
  let w := c_wifi cfg in
  [GENERATED; "# File: /etc/hostapd/hostapd.conf"; EmptyString]
  ++ if negb (wifi_enabled w) then ["# Wi-Fi Access Point is disabled"]
     else
       ["interface=" +:+ (if is_empty (wifi_interface w) then "wlan0" else wifi_interface w); "bridge=" +:+ WIFI_BRIDGE_INTERFACE; "driver=nl80211";
        "ssid=" +:+ wifi_ssid w]
       ++ (if wifi_band w =s "5ghz" then ["hw_mode=a"; "ieee80211n=1"; "ieee80211ac=1"] else ["hw_mode=g"; "ieee80211n=1"])
       ++ ["channel=" +:+ show_Z (if wifi_channel w <=? 0 then 36 else wifi_channel w);
           if wifi_hide_ssid w then "ignore_broadcast_ssid=1" else "ignore_broadcast_ssid=0"; "wpa=2"; "wpa_passphrase=" +:+ wifi_passphrase w;
           "wpa_key_mgmt=WPA-PSK SAE"; "ieee80211w=1"; "rsn_pairwise=CCMP"].
Definition generate_hostapd_text (cfg : SystemConfig) : result string error := Ok (file_of (hostapd_lines cfg)).

(** ** Traffic shaping *)
Definition QOS_INTERFACE_NAME : string := "ifb0".
Definition qos_interface (cfg : SystemConfig) : string :=
  let iface := if wan_enabled (c_wan cfg) then "ppp0" else wan_interface (c_wan cfg) in
  if is_empty iface then "eth0" else iface.
(** [i64::wrapping_mul] *)
Definition wrap_i64 (v : Z) : Z := (v + 2 ^ 63) mod 2 ^ 64 - 2 ^ 63.
Definition kbit (mbps : Z) : string := show_Z (wrap_i64 (mbps * 1000)) +:+ "kbit".
Definition qos_commands (cfg : SystemConfig) : result (list (list string)) error :=
  let q := c_qos cfg in
  if negb (qos_enabled q) then Ok []
  else
    let iface := qos_interface cfg in
    let down := kbit (qos_download_limit_mbps q) in
    let up := kbit (qos_upload_limit_mbps q) in
    let ifb := QOS_INTERFACE_NAME in
    let mirred := ["filter"; "add"; "dev"; iface; "parent"; "ffff:"; "protocol"; "ip"; "u32"; "match"; "u32"; "0"; "0"; "action"; "mirred"; "egress";
                   "redirect"; "dev"; ifb] in
    if qos_algorithm q =s "fq_codel" then
      Ok [["qdisc"; "add"; "dev"; iface; "root"; "handle"; "1:"; "htb"; "default"; "10"];
          ["class"; "add"; "dev"; iface; "parent"; "1:"; "classid"; "1:10"; "htb"; "rate"; up; "ceil"; up; "burst"; "64k"];
          ["qdisc"; "add"; "dev"; iface; "parent"; "1:10"; "handle"; "10:"; "fq_codel"; "target"; "5ms"; "interval"; "100ms"; "limit"; "10240"];
          ["qdisc"; "add"; "dev"; iface; "handle"; "ffff:"; "ingress"]; mirred;
          ["qdisc"; "add"; "dev"; ifb; "root"; "handle"; "1:"; "htb"; "default"; "10"];
          ["class"; "add"; "dev"; ifb; "parent"; "1:"; "classid"; "1:10"; "htb"; "rate"; down; "ceil"; down; "burst"; "64k"];
          ["qdisc"; "add"; "dev"; ifb; "parent"; "1:10"; "handle"; "10:"; "fq_codel"; "target"; "5ms"; "interval"; "100ms"; "limit"; "10240"]]
    else if qos_algorithm q =s "cake" then
      Ok [["qdisc"; "add"; "dev"; iface; "root"; "cake"; "bandwidth"; up; "besteffort"; "nat"; "wash"; "no-split-gso"];
          ["qdisc"; "add"; "dev"; iface; "handle"; "ffff:"; "ingress"]; mirred;
          ["qdisc"; "add"; "dev"; ifb; "root"; "cake"; "bandwidth"; down; "besteffort"; "nat"; "wash"; "no-split-gso"]]
    else Err (Errorf ("unsupported QoS algorithm: " +:+ qos_algorithm q)).
Definition generate_qos (cfg : SystemConfig) : result string error :=
  if negb (qos_enabled (c_qos cfg)) then Ok (file_of ["# QoS disabled"])
  else
    let? commands := qos_commands cfg in
    Ok (file_of (["# Generated by Minimal Router OS — non-executable QoS plan"; "# router-applyd invokes /sbin/tc directly with these argv values"; EmptyString]
                 ++ map (fun args => "/sbin/tc " +:+ join " " args) commands)).

(** ** Squid *)
Definition NEVER_PROXIED : list string :=
  ["0.0.0.0/8"; "10.0.0.0/8"; "100.64.0.0/10"; "127.0.0.0/8"; "169.254.0.0/16"; "172.16.0.0/12"; "192.0.0.0/24"; "192.0.2.0/24"; "192.168.0.0/16";
   "198.18.0.0/15"; "198.51.100.0/24"; "203.0.113.0/24"; "224.0.0.0/4"; "240.0.0.0/4"].
Definition network_text (cidr : string) : option string := net_to_string <$> (snd <$> parse_cidr cidr).
Definition proxy_lan_network (cfg : SystemConfig) : string := default "<nil>" (network_text (lan_cidr (c_lan cfg))).
Definition blocked_destinations (cfg : SystemConfig) : list string :=
  NEVER_PROXIED ++ [proxy_lan_network cfg]
  ++ (if wg_enabled (c_wireguard cfg) then option_list (network_text (wg_address (c_wireguard cfg))) else [])
  ++ omap (fun lan => if xl_enabled lan && negb (is_empty (trim (xl_cidr lan))) then network_text (xl_cidr lan) else None) (items (fw_extra_lans (c_firewall cfg)))
  ++ omap (fun remote => match parse_cidr (trim remote) with Some (_, n) => if is_none (to4 (net_ip n)) then None else Some (net_to_string n) | None => None end)
       (items (wgc_allowed_ips (c_wg_client cfg))).
Definition squid_lines (cfg : SystemConfig) : list string :=
  [GENERATED; "http_port " +:+ lan_ip_address (c_lan cfg) +:+ ":" +:+ show_Z (squid_port (c_squid_proxy cfg)); EmptyString;
   "# Disable disk & memory caching (Pure forward proxy)"; "cache deny all"; "cache_mem 0 MB";
   "# Short graceful shutdown so config rollback never waits on idle clients"; "shutdown_lifetime 2 seconds"; EmptyString]
  ++ (if squid_enabled (c_squid_proxy cfg) then
        ["# Basic authentication scheme (NCSA htpasswd)"; "auth_param basic program /usr/lib/squid/basic_ncsa_auth /etc/squid/passwd";
         "auth_param basic realm Minimal Router OS Proxy"; "auth_param basic credentialsttl 2 hours"; "acl localnet src " +:+ proxy_lan_network cfg;
         "acl authenticated proxy_auth REQUIRED"; "acl blocked_dst dst " +:+ join " " (blocked_destinations cfg); "http_access deny blocked_dst";
         "http_access allow localnet authenticated"]
      else ["# Proxy disabled"])
  ++ ["http_access deny all"].
Definition generate_squid_config (cfg : SystemConfig) : result string error := Ok (file_of (squid_lines cfg)).

(** ** Dynamic DNS and the tunnels of Cloudflare *)
Section Names.
Context {UC : Unicode}.

Definition dynamic_dns_provider (cfg : SystemConfig) : string :=
  let provider := to_lower (trim (cf_ddns_provider (c_cloudflare cfg))) in
  if is_empty provider then "cloudflare" else provider.
Definition provider_lines (head username password hostname : string) (rest : list string) : list string :=
  [head; "    username = " +:+ quote username; "    password = " +:+ quote password; "    hostname = " +:+ quote hostname;
   "    checkip-server = api.ipify.org"; "    checkip-path = /"; "    checkip-ssl = true"] ++ rest ++ ["}"].
Definition dynamic_dns_lines (cfg : SystemConfig) : result (list string) error :=
  let cf := c_cloudflare cfg in
  if negb (cf_ddns_enabled cf) then Ok ["# Dynamic DNS disabled or not configured"]
  else
    let head := ["# Generated by Minimal Router OS — Dynamic DNS"; "period = 300"; "forced-update = 2592000"; "allow-ipv6 = false"; "secure-ssl = true"; EmptyString] in
    let provider := dynamic_dns_provider cfg in
    if provider =s "noip" then Ok (head ++ provider_lines "provider no-ip.com:1 {" (cf_ddns_user cf) (cf_api_token cf) (cf_domain cf) [])
    else if provider =s "cloudflare" then
      Ok (head ++ provider_lines "provider cloudflare.com:1 {" (cf_zone_name cf) (cf_api_token cf) (cf_domain cf) ["    ttl = 300"; "    proxied = false"])
    else Err (Errorf ("unsupported dynamic DNS provider " +:+ quote (cf_ddns_provider cf))).
Definition generate_dynamic_dns (cfg : SystemConfig) : result string error := let? lines := dynamic_dns_lines cfg in Ok (file_of lines).
Definition generate_cloudflare_ddns (cfg : SystemConfig) : result string error := generate_dynamic_dns cfg.

Definition generate_cloudflare_tunnel (cfg : SystemConfig) : result string error :=
  if negb (cf_tunnel_enabled (c_cloudflare cfg)) then Ok (file_of ["# Cloudflare Tunnel disabled"])
  else
    let hostname := trim (cf_tunnel_hostname (c_cloudflare cfg)) in
    if is_empty hostname then Err (Errorf "Cloudflare Tunnel hostname is required")
    else
      Ok (file_of ["# Generated by Minimal Router OS — remotely managed Cloudflare Tunnel"; "# Routing and origin settings are managed in Cloudflare.";
                   "# Expected public hostname: " +:+ hostname; "# Connector token is stored separately and is never written here."]).
Definition generate_doh_proxy (cfg : SystemConfig) : result string error :=
  if negb (dhcp_dns_enabled (c_dhcp cfg)) then Ok (file_of ["# DNS-over-HTTPS proxy disabled (DNS not enabled)"])
  else
    Ok (file_of ["# Generated by Minimal Router OS — DNS-over-HTTPS proxy"; "# Uses cloudflared as a local DoH/TLS forwarding proxy"; EmptyString;
                 "# cloudflared DoH proxy configuration"; "proxy-dns: true"; "proxy-dns-address: 127.0.0.1:5053"; "proxy-dns-port: 5053"; EmptyString;
                 "# Upstream DNS-over-HTTPS resolvers"; "# Cloudflare (1.1.1.1) — primary"; "proxy-dns-upstream:"; "  - https://1.1.1.1/dns-query";
                 "  - https://1.0.0.1/dns-query"; "  - https://dns.google/dns-query"; "  - https://dns.quad9.net/dns-query"; EmptyString;
                 "# TLS session caching for performance";
                 "tls-cipher-suites: TLS_AES_128_GCM_SHA256:TLS_AES_256_GCM_SHA384:TLS_CHACHA20_POLY1305_SHA256"; "edns-payload-size: 1232"]).

(** ** The sinkhole list *)

(** [[a-z0-9](?:[a-z0-9-]{0,61}[a-z0-9])?], in any case: the case folding of the
    pattern takes the long s and the Kelvin sign for letters too. *)
Definition folded_alphanumeric (c : Z) : bool :=
  ((48 <=? c) && (c <=? 57)) || ((65 <=? c) && (c <=? 90)) || ((97 <=? c) && (c <=? 122)) || (c =? 383) || (c =? 8490).
Definition domain_label (l : list Z) : bool := edge_pattern folded_alphanumeric (fun c => folded_alphanumeric c || (c =? 45)) 61 l.
Fixpoint split_chars (sep : Z) (l : list Z) : list (list Z) :=
  match l with
  | [] => [[]]
  | c :: t => if c =? sep then [] :: split_chars sep t else match split_chars sep t with w :: ws => (c :: w) :: ws | [] => [[c]] end
  end.
(** [BLOCK_DOMAIN_PATTERN]: two labels at least, with dots between them *)
Definition BLOCK_DOMAIN_PATTERN (s : string) : bool :=
  let labels := split_chars 46 (chars s) in
  Nat.leb 2 (List.length labels) && forallb domain_label labels.

(** The domain a line of a hosts file blocks *)
Definition blocked_domain (raw : string) : option string :=
  let line := trim raw in
  if is_empty line || starts_with "#" line then None
  else
    match split_whitespace line with
    | address :: name :: _ =>
        if negb (one_of ["0.0.0.0"; "127.0.0.1"; "::1"] address) then None
        else
          let domain := to_lower (trim_suffix "." name) in
          if (domain =s "localhost") || (domain =s "localhost.localdomain") then None
          else if (253 <? str_len domain) || negb (BLOCK_DOMAIN_PATTERN domain) then None
          else Some domain
    | _ => None
    end.
(** Lines longer than 1 MiB stop the scan. *)
Fixpoint hosts_domains (lines : list string) (seen : gset string) : list string :=
  match lines with
  | [] => []
  | raw :: rest =>
      if 1024 * 1024 <? str_len raw then []
      else
        match blocked_domain raw with
        | Some domain =>
            let '(fresh, seen) := set_insert domain seen in
            if fresh then domain :: hosts_domains rest seen else hosts_domains rest seen
        | None => hosts_domains rest seen
        end
  end.
Definition parse_hosts_file (data : bytes) : list string := hosts_domains (split (byte_of 10) (str_of (utf8_lossy data))) ∅.
Definition builtin_blocklist : list string :=
  ["pagead2.googlesyndication.com"; "adservice.google.com"; "googleads.g.doubleclick.net"; "tpc.googlesyndication.com"; "www.googlesyndication.com";
   "partner.googleadservices.com"; "ad.doubleclick.net"; "ad.turn.com"; "ads.facebook.com"; "analytics.google.com"; "track.google.com";
   "stats.g.doubleclick.net"; "pixel.facebook.com"; "tr.snapchat.com"; "ads.tiktok.com"; "analytics.tiktok.com"].
Definition blocklist_lines (hosts_data : bytes) : list string :=
  let parsed := parse_hosts_file hosts_data in
  let domains := match parsed with [] => builtin_blocklist | _ => parsed end in
  ["# Generated by Minimal Router OS — AdGuard DNS blocklist"; "# File: /etc/dnsmasq.d/adblock_hosts.conf"; EmptyString;
   "# Global DNS blocklist (NXDOMAIN for all record types)"]
  ++ map (fun d => "address=/" +:+ d +:+ "/") domains
  ++ [EmptyString; "# Total blocked domains: " +:+ show_Z (Z.of_nat (List.length domains))].
Definition generate_ad_block_conf (cfg : SystemConfig) (hosts_data : bytes) : result string error :=
  if negb (df_enabled (c_adguard cfg)) then Ok EmptyString else Ok (file_of (blocklist_lines hosts_data)).
End Names.

(** ** What the engine sends to the helper *)
Definition generators {UC : Unicode} {SH : Sha256} : Generators := {|
  generate_nftables := generate_nftables_text;
  generate_pppoe := generate_pppoe_files;
  generate_dnsmasq := generate_dnsmasq_text;
  generate_hostapd := generate_hostapd_text;
  generate_wireguard := generate_wireguard_file;
|}.
