(* ===== verification/GeneratorsSpec.v ===== *)
(** * What the generated files say

    Reference readers of the formats the services document, and what they read
    in the texts of [Generators] for an accepted configuration: every configured
    value as a value of its own, and nothing else.  A blocklist is read for
    whatever data it was made from. *)

From Stdlib Require Import ZArith Ascii String Lia Bool.
From stdpp Require Import base list strings gmap.
From S2P Require Import Prelude GoStrings Net NetSpec GoPath GoTime Json Model Validation ValidationSpec Policy PolicySpec Firmware FirmwareSpec Auth AuthSpec AuthSecrets Ipc Engine Nft Nftables TokenText NftablesText Http Wireguard WireguardSpec Generators.

Local Open Scope string_scope.
Local Open Scope Z_scope.
Local Open Scope list_scope.

(** ** A reader of dnsmasq's options

    A line loses its comment, which starts at a hash at its beginning or after a
    blank, and the blanks at both ends.  What is left is an option, with values
    between commas after the first equals sign.  Quoted text is not read. *)
Fixpoint uncommented (after_blank : bool) (line : bytes) : bytes :=
  match line with
  | [] => []
  | a :: t => if after_blank && Ascii.eqb a "#"%char then [] else a :: uncommented (blank a) t
  end.
Definition stripped (l : bytes) : bytes := rev (drop_while blank (rev (drop_while blank l))).
Definition Options : Type := list (string * list string).
Definition option_of (l : bytes) : string * list string :=
  match split_once_bytes "="%char l with
  | Some (key, value) => (str_of key, map str_of (split_bytes ","%char value))
  | None => (str_of l, [])
  end.
Definition option_line (line : bytes) (rest : option Options) : option Options :=
  let kept := uncommented true line in
  if has_byte quote_char kept then None
  else match stripped kept with [] => rest | l => let! options := rest in Some (option_of l :: options) end.
Definition read_options (text : string) : option Options := fold_right option_line (Some []) (split_bytes (byte_of 10) (bytes_of text)).

(** A value the reader takes as it is *)
Definition field_char (a : ascii) : bool := (32 <? bv a) && negb (Ascii.eqb a ","%char) && negb (Ascii.eqb a quote_char).
Definition field (s : string) : Prop := forallb field_char (bytes_of s) = true.

(** ** What dnsmasq should read *)
Definition tunnel_listener (cfg : SystemConfig) : Options * list string :=
  match dns_tunnel_address cfg with
  | Some ip => ([("interface", [wg_interface (c_wireguard cfg)])], [ip])
  | None => ([], [])
  end.
Definition listening (cfg : SystemConfig) : Options :=
  let '(interface, address) := tunnel_listener cfg in
  ("interface", [lan_interface (c_lan cfg)]) :: interface ++ [("listen-address", ["127.0.0.1"; lan_ip_address (c_lan cfg)] ++ address)].
Definition lease_option (lease : StaticLease) : string * list string :=
  ("dhcp-host", [lease_mac lease; lease_ip_address lease] ++ (if is_empty (lease_hostname lease) then [] else [lease_hostname lease])).
Definition dhcp_options (cfg : SystemConfig) : Options :=
  let d := c_dhcp cfg in
  if dhcp_enabled d then
    [("dhcp-leasefile", ["/var/lib/minimalrouter-dhcp/dnsmasq.leases"]);
     ("dhcp-range", [dhcp_range_start d; dhcp_range_end d; lan_netmask (c_lan cfg); dhcp_lease_time d]);
     ("dhcp-option", ["option:router"; lan_ip_address (c_lan cfg)]); ("dhcp-option", ["option:dns-server"; lan_ip_address (c_lan cfg)])]
    ++ map lease_option (items (dhcp_static_leases d))
  else [].
Definition service_set (service : string) : string := "/" +:+ join "/" (default [] (service_domains service)) +:+ "/4#inet#minimalrouter#svc_" +:+ service.
Definition dnsmasq_options {UC : Unicode} (cfg : SystemConfig) : Options :=
  [("domain", [sys_domain (c_system cfg)])] ++ listening cfg
  ++ [("bind-dynamic", []); ("no-resolv", []); ("strict-order", []); ("cache-size", ["1000"]); ("bogus-priv", []); ("domain-needed", []);
      ("stop-dns-rebind", []); ("rebind-domain-ok", ["/use-application-dns.net/"])]
  ++ map (fun dns => ("server", [dns])) (items (dhcp_dns_servers (c_dhcp cfg)))
  ++ dhcp_options cfg
  ++ map (fun rec => ("host-record", [rec_name rec; rec_ip rec])) (items (dns_records (c_dns cfg)))
  ++ (if df_enabled (c_adguard cfg) then [("conf-file", ["/etc/dnsmasq.d/adblock_hosts.conf"])] else [])
  ++ map (fun service => ("nftset", [service_set service])) (active_managed_services cfg).

(** ** Lines *)
Lemma field_bytes a : field_char a = true -> blank a = false /\ Ascii.eqb a ","%char = false /\ Ascii.eqb a quote_char = false /\ Ascii.eqb a (byte_of 10) = false.
Proof.
  unfold field_char, blank. intros H. to_prop. split_and!; try done; [lia|]. rewrite ascii_eqb_bv. change (bv (byte_of 10)) with 10. lia.
Qed.
Lemma token_field s : token s -> field s.
Proof.
  apply forallb_weaken. intros a Ha. assert (Hall : forallb (fun n => implb (token_char (ascii_of_nat n)) (field_char (ascii_of_nat n))) (seq 0 256) = true) by (vm_compute; reflexivity).
  rewrite forallb_forall in Hall. specialize (Hall (nat_of_ascii a)). rewrite ascii_nat_embedding, Ha in Hall.
  apply Hall, in_seq. split; [lia|apply nat_ascii_bounded].
Qed.
Lemma field_app a b : field (a +:+ b) <-> field a /\ field b.
Proof. unfold field. by rewrite bytes_of_app, forallb_app, andb_true_iff. Qed.
Lemma uncommented_plain l r : forallb (fun a => negb (blank a)) l = true -> uncommented false (l ++ r) = l ++ uncommented false r.
Proof. induction l as [|a l IH]; cbn; [done|]. intros H. to_prop. destruct (blank a); [done|]. by rewrite IH. Qed.
Lemma uncommented_start l : forallb (fun a => negb (blank a)) l = true -> match l with a :: _ => Ascii.eqb a "#"%char = false | [] => True end -> uncommented true l = l.
Proof.
  destruct l as [|a l]; [done|]. cbn. intros H ->. to_prop. destruct (blank a); [done|]. f_equal.
  rewrite <- (app_nil_r l) at 1. rewrite uncommented_plain by done. by rewrite app_nil_r.
Qed.
Lemma drop_blanks l : forallb (fun a => negb (blank a)) l = true -> drop_while blank l = l.
Proof. destruct l as [|a l]; [done|]. cbn. intros H. to_prop. by destruct (blank a). Qed.
Lemma stripped_plain l : forallb (fun a => negb (blank a)) l = true -> stripped l = l.
Proof. intros H. unfold stripped. rewrite (drop_blanks l), drop_blanks by (by rewrite ?forallb_rev). apply rev_involutive. Qed.

(** What a run of lines contributes *)
Definition reads (lines : list string) (options : Options) : Prop :=
  Forall unbroken_line lines /\ forall rest, fold_right option_line (Some rest) (map bytes_of lines) = Some (options ++ rest).

Lemma reads_nil : reads [] [].
Proof. by split. Qed.
Lemma reads_app lines lines' options options' : reads lines options -> reads lines' options' -> reads (lines ++ lines') (options ++ options').
Proof.
  intros [Hu Hr] [Hu' Hr']. split; [by apply Forall_app|]. intros rest. by rewrite map_app, fold_right_app, Hr', Hr, app_assoc.
Qed.
Lemma reads_cons line lines options options' : reads [line] options -> reads lines options' -> reads (line :: lines) (options ++ options').
Proof. apply (reads_app [line]). Qed.
Lemma reads_map {A} (f : A -> string) (g : A -> string * list string) l : Forall (fun x => reads [f x] [g x]) l -> reads (map f l) (map g l).
Proof. induction 1 as [|x l Hx _ IH]; [apply reads_nil|]. by apply (reads_cons _ _ [g x]). Qed.
Lemma option_line_rest line rest options : option_line line (Some []) = Some options -> option_line line (Some rest) = Some (options ++ rest).
Proof. unfold option_line. cbv zeta. destruct (has_byte _ _); [done|]. destruct (stripped _); intros [= <-]; done. Qed.
Lemma reads_const line options : unbroken_line line -> option_line (bytes_of line) (Some []) = Some options -> reads [line] options.
Proof. intros Hu Ho. split; [by constructor|]. intros rest. by apply option_line_rest. Qed.

Definition option_key (key : string) : bool :=
  forallb (fun a => field_char a && negb (Ascii.eqb a "="%char)) (bytes_of key)
  && match bytes_of key with a :: _ => negb (Ascii.eqb a "#"%char) | [] => false end.
Lemma split_values values : values <> [] -> Forall field values -> map str_of (split_bytes ","%char (bytes_of (join "," values))) = values.
Proof.
  intros Hne Hv. induction Hv as [|x l Hx Hl IH]; [done|].
  assert (Hc : forallb (fun a => negb (Ascii.eqb a ","%char)) (bytes_of x) = true) by (revert Hx; apply forallb_weaken; intros a Ha; by destruct (field_bytes a Ha) as (_ & -> & _)).
  destruct l as [|y l]; cbn [join]; [rewrite split_bytes_single by done; cbn [map]; by rewrite str_of_bytes_of|].
  rewrite !bytes_of_app. cbn [bytes_of list_ascii_of_string app]. rewrite split_bytes_app by done. cbn [map]. rewrite str_of_bytes_of. f_equal. by apply IH.
Qed.
Lemma join_chars p sep l : forallb p (bytes_of sep) = true -> Forall (fun s => forallb p (bytes_of s) = true) l -> forallb p (bytes_of (join sep l)) = true.
Proof.
  intros Hs. induction 1 as [|x l Hx Hl IH]; [done|]. destruct l as [|y l]; [done|]. change (join sep (x :: y :: l)) with (x +:+ sep +:+ join sep (y :: l)). by rewrite !bytes_of_app, !forallb_app, Hx, Hs, IH.
Qed.
Lemma reads_option key values : option_key key = true -> values <> [] -> Forall field values -> reads [key +:+ "=" +:+ join "," values] [(key, values)].
Proof.
  intros Hk Hne Hv. apply andb_prop in Hk as [Hk Hs].
  assert (Hkey : forallb (fun a => negb (Ascii.eqb a "="%char)) (bytes_of key) = true /\ field key) by (split; revert Hk; apply forallb_weaken; intros a Ha; by apply andb_prop in Ha as [? ?]).
  destruct Hkey as [Heq Hf].
  set (line := bytes_of (key +:+ "=" +:+ join "," values)).
  assert (Hline : forallb (fun a => negb (blank a) && negb (Ascii.eqb quote_char a) && negb (Ascii.eqb a (byte_of 10))) line = true).
  { assert (Hw : forall s, field s -> forallb (fun a => negb (blank a) && negb (Ascii.eqb quote_char a) && negb (Ascii.eqb a (byte_of 10))) (bytes_of s) = true).
    { intros s. apply forallb_weaken. intros a Ha. destruct (field_bytes a Ha) as (-> & _ & Hq & ->). by rewrite Ascii.eqb_sym, Hq. }
    unfold line. rewrite !bytes_of_app, !forallb_app, Hw by done. apply join_chars; [done|]. eapply Forall_impl; [exact Hv|]. done. }
  apply reads_const; [revert Hline; apply forallb_weaken; intros a Ha; by apply andb_prop in Ha as [_ ?]|].
  assert (Hq : has_byte quote_char line = false).
  { clear -Hline. induction line as [|a l IH]; [done|]. cbn [forallb] in Hline. apply andb_prop in Hline as [Ha Hl]. apply andb_prop in Ha as [Ha _]. apply andb_prop in Ha as [_ Ha].
    cbn [has_byte existsb]. apply negb_true_iff in Ha. rewrite Ha. by apply IH. }
  assert (Hb : forallb (fun a => negb (blank a)) line = true) by (revert Hline; apply forallb_weaken; intros a Ha; apply andb_prop in Ha as [Ha _]; by apply andb_prop in Ha as [? _]).
  assert (Ho : option_of line = (key, values)).
  { unfold option_of, line. rewrite !bytes_of_app. change (bytes_of "=" ++ bytes_of (join "," values)) with ("="%char :: bytes_of (join "," values)).
    by rewrite split_once_app, str_of_bytes_of, split_values. }
  assert (Hn : match line with a :: _ => Ascii.eqb a "#"%char = false | [] => False end) by (unfold line; rewrite bytes_of_app; destruct (bytes_of key); [done|]; by apply negb_true_iff).
  fold line. clearbody line. unfold option_line. rewrite uncommented_start by (done || by destruct line). cbv zeta. rewrite Hq, stripped_plain by done. by destruct line; [|rewrite Ho].
Qed.

Lemma file_lines lines : Forall unbroken_line lines -> split_bytes (byte_of 10) (bytes_of (file_of lines)) = map bytes_of lines ++ [[]].
Proof.
  unfold file_of. induction 1 as [|l lines Hl _ IH]; [done|]. cbn [foldr map app]. unfold newline in *. rewrite !bytes_of_app.
  change (bytes_of (String (byte_of 10) EmptyString) ++ ?r) with (byte_of 10 :: r). by rewrite split_bytes_app, IH.
Qed.
Lemma reads_file lines options : reads lines options -> read_options (file_of lines) = Some options.
Proof.
  intros [Hu Hr]. unfold read_options. rewrite file_lines, fold_right_app by done. cbn [fold_right]. change (option_line [] (Some [])) with (Some ([] : Options)).
  by rewrite Hr, app_nil_r.
Qed.

(** ** What an accepted configuration puts in the fields *)
Lemma digit_field a : is_ascii_digit a = true -> field_char a = true.
Proof. unfold is_ascii_digit, field_char. intros H. to_prop. rewrite !ascii_eqb_bv. change (bv ","%char) with 44. change (bv quote_char) with 34. lia. Qed.
Lemma unit_field unit m : unit_multiplier unit = Some m -> field unit.
Proof.
  unfold unit_multiplier. intros H.
  repeat (match type of H with
    (if ?b then _ else _) = _ => let E := fresh "E" in destruct b eqn:E; [repeat (apply orb_true_iff in E as [E|E]); apply String.eqb_eq in E as ->; vm_compute; reflexivity|] end).
  done.
Qed.
Lemma duration_item_field s v rest : duration_item s = Ok (v, rest) -> forallb field_char rest = true -> forallb field_char s = true.
Proof.
  unfold duration_item. destruct (negb _); [done|]. cbv zeta. destruct (duration_int _ 0) as [n|]; [|done].
  destruct (duration_fraction (drop_while is_ascii_digit s)) as [[[f scale] post] s2] eqn:Ef. destruct (_ && _); [done|].
  destruct (take_while is_unit_byte s2) as [|u us] eqn:Eu; [done|]. destruct (unit_multiplier (str_of (u :: us))) as [m|] eqn:Em; [|done].
  destruct (two63 / m <? n); [done|]. destruct (_ && _); [done|]. intros [= _ <-] Hr.
  apply unit_field in Em. unfold field in Em. rewrite bytes_of_str_of, <- Eu in Em.
  assert (H2 : forallb field_char s2 = true) by (by rewrite <- (take_drop_while is_unit_byte s2), forallb_app, Em, Hr).
  assert (Hd : forall l, forallb field_char (drop_while is_ascii_digit l) = true -> forallb field_char l = true).
  { intros l Hl. rewrite <- (take_drop_while is_ascii_digit l), forallb_app, Hl, andb_true_r. eapply forallb_weaken; [apply digit_field|apply take_while_forallb]. }
  apply Hd. unfold duration_fraction in Ef. destruct (drop_while is_ascii_digit s) as [|c t]; [by injection Ef as _ _ _ <-|].
  destruct (Ascii.eqb_spec c "."%char) as [->|Hc]; [|by injection Ef as _ _ _ <-].
  destruct (duration_frac _ _ _ _). injection Ef as _ _ _ <-. cbn [forallb]. rewrite Hd; done.
Qed.
Lemma duration_loop_field fuel : forall s total v, duration_loop fuel s total = Ok v -> forallb field_char s = true.
Proof.
  induction fuel as [|fuel IH]; intros s total v; destruct s as [|a s]; cbn [duration_loop]; try done.
  destruct (duration_item (a :: s)) as [[n rest]|] eqn:Ei; [|done]. destruct (_ <? _); [done|]. intros H.
  eapply (duration_item_field (a :: s)); [exact Ei|by eapply IH].
Qed.
Lemma parse_duration_field s d : parse_duration s = Ok d -> field s.
Proof.
  unfold parse_duration, field. intros H.
  set (p := match bytes_of s with c :: t => if Ascii.eqb c "-"%char then (true, t) else if Ascii.eqb c "+"%char then (false, t) else (false, c :: t) | [] => (false, []) end) in H.
  assert (Hp : forallb field_char (snd p) = true -> forallb field_char (bytes_of s) = true).
  { subst p. clear. destruct (bytes_of s) as [|c t]; [done|].
    destruct (Ascii.eqb_spec c "-"%char) as [->|]; [done|]. by destruct (Ascii.eqb_spec c "+"%char) as [->|]. }
  destruct p as [neg l]. cbn [snd] in Hp. apply Hp. destruct (String.eqb_spec (str_of l) "0") as [E|_].
  - by rewrite <- (bytes_of_str_of l), E.
  - destruct l as [|a l]; [done|]. destruct (duration_loop _ _ 0) eqn:El; [|done]. by eapply duration_loop_field.
Qed.

Lemma mac_pairs_token n sep b hw : token_char sep = true -> List.length b = (3 * n - 1)%nat -> mac_pairs n sep b = Some hw -> forallb token_char b = true.
Proof.
  intros Hs. revert b hw. induction n as [|n IH]; intros b hw Hl H; [by destruct b|]. cbn [mac_pairs] in H.
  destruct (xtoi2 b sep) as [x|] eqn:Ex; [|done]. destruct (mac_pairs n sep (drop 3 b)) as [rest|] eqn:Er; [|done].
  unfold xtoi2 in Ex. destruct (_ && _) eqn:Eg; [done|]. destruct b as [|h [|l b]]; [done|done|]. destruct (hex_val h) eqn:Eh; [|done]. destruct (hex_val l) eqn:El; [|done].
  cbn [forallb]. rewrite (hex_val_token _ _ Eh), (hex_val_token _ _ El). cbn [andb]. destruct b as [|c b]; [done|].
  cbn [List.length Nat.ltb Nat.leb nth andb] in Eg. apply negb_false_iff, Ascii.eqb_eq in Eg as ->. cbn [forallb]. rewrite Hs. cbn [andb].
  cbn [drop] in Er. cbn in Hl. destruct n as [|n]; [cbn in Hl; lia|]. eapply IH; [lia|exact Er].
Qed.
Lemma mac_quads_token n sep b hw : token_char sep = true -> List.length b = (5 * n - 1)%nat -> mac_quads n sep b = Some hw -> forallb token_char b = true.
Proof.
  intros Hs. revert b hw. induction n as [|n IH]; intros b hw Hl H; [by destruct b|]. cbn [mac_quads] in H.
  destruct (xtoi2 (take 2 b) _) as [x|] eqn:Ex; [|done]. destruct (xtoi2 (drop 2 b) sep) as [y|] eqn:Ey; [|done]. destruct (mac_quads n sep (drop 5 b)) as [rest|] eqn:Er; [|done].
  unfold xtoi2 in Ex, Ey. destruct b as [|a1 [|a2 [|a3 [|a4 b]]]]; try (cbn in Ex, Ey; by repeat case_match).
  cbn [take List.length Nat.ltb Nat.leb andb] in Ex. destruct (hex_val a1) eqn:E1; [|done]. destruct (hex_val a2) eqn:E2; [|done].
  cbn [drop] in Ey. destruct (_ && _) eqn:Eg; [done|]. destruct (hex_val a3) eqn:E3; [|done]. destruct (hex_val a4) eqn:E4; [|done].
  cbn [forallb]. rewrite (hex_val_token _ _ E1), (hex_val_token _ _ E2), (hex_val_token _ _ E3), (hex_val_token _ _ E4). cbn [andb]. destruct b as [|c b]; [done|].
  cbn [List.length Nat.ltb Nat.leb nth andb] in Eg. apply negb_false_iff, Ascii.eqb_eq in Eg as ->. cbn [forallb]. rewrite Hs. cbn [andb].
  cbn [drop] in Er. cbn in Hl. destruct n as [|n]; [cbn in Hl; lia|]. eapply IH; [lia|exact Er].
Qed.
Lemma parse_mac_token s hw : parse_mac s = Some hw -> token s.
Proof.
  unfold parse_mac, parse_mac_bytes, token. cbv zeta. set (b := bytes_of s). destruct (Nat.ltb_spec (List.length b) 14); [done|].
  pose proof (Nat.div_mod_eq (List.length b + 1) 3) as D3. pose proof (Nat.div_mod_eq (List.length b + 1) 5) as D5.
  destruct (Ascii.eqb (nth 2 b _) ":"%char || Ascii.eqb (nth 2 b _) "-"%char) eqn:Ec.
  - destruct (Nat.eqb_spec ((List.length b + 1) mod 3) 0) as [E|]; [|done]. cbn [negb]. destruct (negb _); [done|]. apply mac_pairs_token; [|lia].
    by apply orb_true_iff in Ec as [->%Ascii.eqb_eq| ->%Ascii.eqb_eq].
  - destruct (Ascii.eqb (nth 4 b _) "."%char) eqn:E4; [|done]. destruct (Nat.eqb_spec ((List.length b + 1) mod 5) 0) as [E|]; [|done]. cbn [negb]. destruct (negb _); [done|].
    apply Ascii.eqb_eq in E4 as ->. apply mac_quads_token; [done|]. rewrite E, Nat.add_0_r in D5. set (q := ((List.length b + 1) / 5)%nat) in *.
    replace (2 * (List.length b + 1) / 5 / 2)%nat with q; [lia|]. rewrite D5. replace (2 * (5 * q))%nat with (2 * q * 5)%nat by lia. rewrite Nat.div_mul by done.
    by rewrite Nat.mul_comm, Nat.div_mul.
Qed.
Lemma edge_token extra max s : edge_pattern is_ascii_alphanumeric (alnum_or extra) max (bytes_of s) = true -> forallb token_char extra = true -> token s.
Proof.
  intros H He. unfold token, edge_pattern in *. destruct (bytes_of s) as [|a l]; [done|].
  assert (Ha : forall b, is_ascii_alphanumeric b = true -> token_char b = true) by (intros b Hb; unfold token_char; by rewrite Hb).
  assert (Hi : forall b, alnum_or extra b = true -> token_char b = true).
  { intros b Hb. unfold alnum_or in Hb. apply orb_true_iff in Hb as [Hb|Hb]; [by apply Ha|]. apply existsb_exists in Hb as (c & Hc & ->%Ascii.eqb_eq).
    rewrite forallb_forall in He. by apply He. }
  apply andb_prop in H as [H1 H2]. cbn [forallb]. rewrite Ha by done. cbn [andb]. rewrite <- forallb_rev. destruct (rev l) as [|z mid]; [done|].
  to_prop. cbn [forallb]. rewrite Ha by done. cbn [andb]. by eapply forallb_weaken.
Qed.

(** ** dnsmasq *)
Tactic Notation "option_reads" constr(key) uconstr(values) := apply (reads_option key values); [done|done|repeat constructor; eauto using token_field].

Section Accepted.
Context {UC : Unicode} {B64 : Base64}.

Record OptionFields (cfg : SystemConfig) : Prop := {
  of_domain : field (sys_domain (c_system cfg));
  of_lan : field (lan_interface (c_lan cfg)) /\ field (lan_ip_address (c_lan cfg)) /\ field (lan_netmask (c_lan cfg));
  of_tunnel : forall ip, dns_tunnel_address cfg = Some ip -> field (wg_interface (c_wireguard cfg)) /\ field ip;
  of_servers : Forall field (items (dhcp_dns_servers (c_dhcp cfg)));
  of_no_doh : dhcp_dns_enabled (c_dhcp cfg) = false;
  of_range : dhcp_enabled (c_dhcp cfg) = true -> Forall field [dhcp_range_start (c_dhcp cfg); dhcp_range_end (c_dhcp cfg); dhcp_lease_time (c_dhcp cfg)];
  of_leases : dhcp_enabled (c_dhcp cfg) = true -> Forall (fun l => token (lease_mac l) /\ token (lease_ip_address l) /\ token (lease_hostname l)) (items (dhcp_static_leases (c_dhcp cfg)));
  of_records : Forall (fun r => field (rec_name r) /\ field (rec_ip r)) (items (dns_records (c_dns cfg)));
}.

Lemma text_reads lines options : Forall unbroken_line lines -> map (fun l => option_line (bytes_of l) (Some [])) lines = map Some options ->
  reads lines (concat options).
Proof.
  intros Hu. revert options. induction Hu as [|l lines Hl _ IH]; intros [|o options] E; try done. injection E as Eo E. cbn [concat].
  apply reads_cons; [by apply reads_const|by apply IH].
Qed.

Lemma listening_reads cfg : OptionFields cfg ->
  reads (["interface=" +:+ lan_interface (c_lan cfg)]
    ++ match dns_tunnel_address cfg with
       | Some wg_ip => ["interface=" +:+ wg_interface (c_wireguard cfg); "listen-address=" +:+ join "," ["127.0.0.1"; lan_ip_address (c_lan cfg); wg_ip]]
       | None => ["listen-address=" +:+ join "," ["127.0.0.1"; lan_ip_address (c_lan cfg)]]
       end) (listening cfg).
Proof.
  intros F. destruct (of_lan _ F) as (Hi & Ha & _). unfold listening, tunnel_listener. pose proof (of_tunnel _ F) as Ht.
  destruct (dns_tunnel_address cfg) as [ip|]; cbn [app].
  - destruct (Ht ip eq_refl) as [Hw Hip]. apply (reads_cons _ _ [_]); [option_reads "interface" [_]|].
    apply (reads_cons _ _ [_]); [option_reads "interface" [_]|].
    option_reads "listen-address" ["127.0.0.1"; lan_ip_address (c_lan cfg); ip].
  - apply (reads_cons _ _ [_]); [option_reads "interface" [_]|].
    option_reads "listen-address" ["127.0.0.1"; lan_ip_address (c_lan cfg)].
Qed.
Lemma lease_reads lease : token (lease_mac lease) -> token (lease_ip_address lease) -> token (lease_hostname lease) -> reads [lease_line lease] [lease_option lease].
Proof.
  intros Hm Hi Hh. unfold lease_line, lease_option. cbv zeta. rewrite token_trim by done. destruct (is_empty (lease_hostname lease)).
  - option_reads "dhcp-host" [lease_mac lease; lease_ip_address lease].
  - option_reads "dhcp-host" [lease_mac lease; lease_ip_address lease; lease_hostname lease].
Qed.
(** A list under its heading, which an empty list does not have *)
Lemma block_reads {A} (l : GoList A) heading (f : A -> string) g ending : reads heading [] -> reads ending [] -> Forall (fun x => reads [f x] [g x]) (items l) ->
  reads (if list_is_empty l then [] else heading ++ map f (items l) ++ ending) (map g (items l)).
Proof.
  intros Hh He Hl. unfold list_is_empty. destruct (items l) as [|x xs]; [apply reads_nil|].
  pose proof (reads_app _ _ _ _ (reads_map f g _ Hl) He) as H. rewrite app_nil_r in H. exact (reads_app heading _ [] _ Hh H).
Qed.
Lemma dhcp_reads cfg : OptionFields cfg -> reads (dhcp_lines cfg) (dhcp_options cfg).
Proof.
  intros F. destruct (of_lan _ F) as (_ & Ha & Hn). unfold dhcp_lines, dhcp_options. cbv zeta. destruct (dhcp_enabled _) eqn:He; [|by apply reads_const].
  pose proof (of_range _ F He) as Hr. pose proof (of_leases _ F He) as Hl.
  inversion Hr as [|? ? H1 Hr1]; subst. inversion Hr1 as [|? ? H2 Hr2]; subst. inversion Hr2 as [|? ? H3 _]; subst. clear Hr Hr1 Hr2.
  apply reads_app.
  - apply (reads_cons _ _ []); [by apply reads_const|]. apply (reads_cons _ _ [_]); [by apply reads_const|].
    apply (reads_cons _ _ [_]); [option_reads "dhcp-range" [_; _; _; _]|].
    apply (reads_cons _ _ [_]); [option_reads "dhcp-option" ["option:router"; _]|].
    apply (reads_cons _ _ [_]); [option_reads "dhcp-option" ["option:dns-server"; _]|by apply reads_const].
  - rewrite <- (app_nil_r (map lease_line _)). apply (block_reads _ ["# Static DHCP leases"]); [by apply reads_const|apply reads_nil|].
    eapply Forall_impl; [exact Hl|]. intros x (? & ? & ?). by apply lease_reads.
Qed.
Lemma service_field service : service_domains service <> None -> field (service_set service).
Proof.
  intros H. unfold service_set. rewrite !field_app. split_and!; try done; [|by apply token_field, service_token].
  unfold service_domains in *.
  repeat (match type of H with (if ?b then _ else _) <> _ => destruct b; [vm_compute; reflexivity|] end). done.
Qed.
Lemma service_named service : service_domains service <> None -> negb (Nat.eqb (List.length (default [] (service_domains service))) 0) = true.
Proof. unfold service_domains. intros H. repeat (match type of H with (if ?b then _ else _) <> _ => destruct b; [done|] end). done. Qed.
Lemma sets_read cfg : reads (map line_text (write_dns_filter_nftsets cfg)) (map (fun service => ("nftset", [service_set service])) (active_managed_services cfg)).
Proof.
  unfold write_dns_filter_nftsets. pose proof (managed_services cfg) as Hm. destruct (active_managed_services cfg) as [|s0 ss]; [apply reads_nil|].
  set (services := s0 :: ss) in *. clearbody services. cbn [map].
  apply (reads_cons _ _ []); [by apply reads_const|]. apply (reads_cons _ _ []); [by apply reads_const|].
  rewrite map_map. replace (List.filter _ services) with services.
  - apply reads_map. eapply Forall_impl; [exact Hm|]. intros s Hs. apply service_field in Hs. option_reads "nftset" [service_set s].
  - induction Hm as [|s l Hs _ IH]; [done|]. cbn [List.filter]. rewrite service_named by done. by f_equal.
Qed.

Lemma head_reads cfg : OptionFields cfg ->
  reads ["# Generated by Minimal Router OS — do not edit manually"; "# File: /etc/dnsmasq.d/minimalrouter.conf"; EmptyString; "domain=" +:+ sys_domain (c_system cfg)]
    [("domain", [sys_domain (c_system cfg)])].
Proof.
  intros F. pose proof (of_domain _ F). do 3 (apply (reads_cons _ _ []); [by apply reads_const|]). option_reads "domain" [_].
Qed.
Lemma fixed_reads :
  reads ["bind-dynamic"; "no-resolv"; "strict-order"; "cache-size=1000"; "bogus-priv"; "domain-needed"; "# DNS rebind attack protection"; "stop-dns-rebind";
         "rebind-domain-ok=/use-application-dns.net/"; EmptyString]
    [("bind-dynamic", []); ("no-resolv", []); ("strict-order", []); ("cache-size", ["1000"]); ("bogus-priv", []); ("domain-needed", []);
     ("stop-dns-rebind", []); ("rebind-domain-ok", ["/use-application-dns.net/"])].
Proof.
  apply (text_reads _ [[("bind-dynamic", [])]; [("no-resolv", [])]; [("strict-order", [])]; [("cache-size", ["1000"])]; [("bogus-priv", [])]; [("domain-needed", [])]; [];
    [("stop-dns-rebind", [])]; [("rebind-domain-ok", ["/use-application-dns.net/"])]; []]); [by repeat constructor|by vm_compute].
Qed.
Lemma records_read cfg : OptionFields cfg ->
  reads (record_lines cfg)
    (map (fun rec => ("host-record", [rec_name rec; rec_ip rec])) (items (dns_records (c_dns cfg)))
     ++ (if df_enabled (c_adguard cfg) then [("conf-file", ["/etc/dnsmasq.d/adblock_hosts.conf"])] else [])
     ++ map (fun service => ("nftset", [service_set service])) (active_managed_services cfg)).
Proof.
  intros F. apply reads_app; [|apply reads_app; [|apply sets_read]].
  - rewrite <- (app_nil_r (map (fun rec => "host-record=" +:+ _) _)). apply (block_reads _ [EmptyString; "# Static DNS records"]); [|apply reads_nil|].
    + by apply (text_reads _ [[]; []]); [repeat constructor|].
    + eapply Forall_impl; [apply (of_records _ F)|]. intros r [Hn Hi]. option_reads "host-record" [_; _].
  - destruct (df_enabled _); [|apply reads_nil]. by apply (text_reads _ [[]; []; [_]]); [repeat constructor|].
Qed.
Lemma dnsmasq_reads cfg : OptionFields cfg -> reads (dnsmasq_lines cfg) (dnsmasq_options cfg).
Proof.
  intros F.
  assert (Hs : reads (if list_is_empty (dhcp_dns_servers (c_dhcp cfg)) then []
                      else ["# Upstream DNS servers"] ++ map (fun dns => "server=" +:+ dns) (items (dhcp_dns_servers (c_dhcp cfg))) ++ [EmptyString])
                 (map (fun dns => ("server", [dns])) (items (dhcp_dns_servers (c_dhcp cfg))))).
  { apply block_reads; [by apply reads_const|by apply reads_const|]. eapply Forall_impl; [apply (of_servers _ F)|]. intros s Hs. option_reads "server" [s]. }
  pose proof (reads_app _ _ _ _ (head_reads cfg F) (reads_app _ _ _ _ (listening_reads cfg F) (reads_app _ _ _ _ fixed_reads (reads_app _ _ _ _ Hs
    (reads_app _ _ _ _ (dhcp_reads cfg F) (records_read cfg F)))))) as H.
  unfold dnsmasq_lines, dns_lines, generate_doh_dnsmasq_integration. rewrite (of_no_doh _ F). cbn [negb]. rewrite !app_nil_r, <- !app_assoc in *. exact H.
Qed.

Lemma split_tokens sep s : token s -> Forall token (split sep s).
Proof.
  unfold split, token. generalize (bytes_of s). intros l Hl. apply Forall_map. induction l as [|a l IH]; [by repeat constructor|].
  cbn [forallb] in Hl. apply andb_prop in Hl as [Ha Hl]. specialize (IH Hl). cbn [split_bytes]. destruct (Ascii.eqb a sep); [by constructor|].
  destruct (split_bytes sep l) as [|w ws]; [by repeat constructor; cbn; rewrite Ha|]. inversion IH as [|? ? Hw Hws]; subst. constructor; [|done].
  rewrite bytes_of_str_of in *. cbn [forallb]. by rewrite Ha.
Qed.
Lemma network_mask_field s ip n : parse_cidr s = Some (ip, n) -> field (ip_to_string (net_mask n)).
Proof.
  intros (p & [(? & _ & _ & _ & _ & ->)|(_ & _ & _ & ->)])%parse_cidr_Some; apply token_field, ip_to_string_token, mask_bytes_ok.
Qed.
Lemma tunnel_field c o n ip : ValidationSpec.accepted c o n -> dns_tunnel_address c = Some ip -> field (wg_interface (c_wireguard c)) /\ field ip.
Proof.
  intros A. unfold dns_tunnel_address. cbv zeta. destruct (wg_enabled _) eqn:He; [|done]. destruct (_ && _); [|done]. destruct (is_empty _); [done|]. intros [= <-].
  pose proof (acc_wireguard _ _ _ A He) as Hg. unfold validate_wireguard, wireguard_address in Hg. cbv zeta in Hg.
  destruct (parse_cidr (wg_address (c_wireguard c))) as [[wip wn]|] eqn:Ec; [|by split_errors]. apply parse_cidr_token in Ec.
  destruct (if negb _ && _ then _ else _). split_errors. match goal with H : wg_interface _ = _ |- _ => rewrite H end. split; [done|].
  apply token_field. apply (split_tokens "/"%char) in Ec. by destruct Ec.
Qed.
Lemma lease_fields o n st en i lease seen e seen' : validate_lease o n st en i lease seen = (e, seen') -> e = [] ->
  token (lease_mac lease) /\ token (lease_ip_address lease) /\ token (lease_hostname lease).
Proof.
  unfold validate_lease. destruct seen as [sm si]. cbv zeta.
  destruct (parse_mac (lease_mac lease)) as [mac|] eqn:Em; [|by destruct (match parse_ipv4 (lease_ip_address lease) with Some _ => _ | None => ([], si) end); intros [= <- <-]].
  destruct (if Nat.eqb _ 6 then _ else _) as [mac_errs sm']. destruct (parse_ipv4 (lease_ip_address lease)) as [ip|] eqn:Ei.
  - destruct (set_insert _ _). intros [= <- _] Hnil. split_errors. split_and!; [by eapply parse_mac_token|by eapply parse_ipv4_token|].
    match goal with H : negb (is_empty _) && _ = false |- _ => apply andb_false_iff in H as [H|H]; apply negb_false_iff in H end.
    + unfold is_empty in *. by match goal with H : (lease_hostname lease =s _) = true |- _ => apply String.eqb_eq in H as -> end.
    + by eapply edge_token.
  - intros [= <- _] Hnil. by split_errors.
Qed.
Lemma record_fields i r seen e seen' : validate_dns_record i r seen = (e, seen') -> e = [] -> field (rec_name r) /\ field (rec_ip r).
Proof.
  unfold validate_dns_record. destruct seen as [sn si]. cbv zeta. destruct (parse_ipv4 (rec_ip r)) as [ip|] eqn:Ei.
  - destruct (set_insert _ _). intros [= <- _] Hnil. split_errors. split; [by eapply token_field, edge_token|by eapply token_field, parse_ipv4_token].
  - intros [= <- _] Hnil. by split_errors.
Qed.
Lemma dhcp_fields c o n : ValidationSpec.accepted c o n -> dhcp_enabled (c_dhcp c) = true ->
  Forall field [dhcp_range_start (c_dhcp c); dhcp_range_end (c_dhcp c); dhcp_lease_time (c_dhcp c)]
  /\ Forall (fun l => token (lease_mac l) /\ token (lease_ip_address l) /\ token (lease_hostname l)) (items (dhcp_static_leases (c_dhcp c))).
Proof.
  intros A He. pose proof (acc_dhcp _ _ _ A He) as Hd. unfold validate_dhcp in Hd. cbv zeta in Hd.
  destruct (parse_ipv4 (dhcp_range_start (c_dhcp c))) eqn:Es; [|by split_errors]. destruct (parse_ipv4 (dhcp_range_end (c_dhcp c))) eqn:Ee; [|by split_errors].
  destruct (parse_duration (dhcp_lease_time (c_dhcp c))) eqn:Et; [|by split_errors]. apply app_eq_nil in Hd as [_ Hd]. split_errors. split.
  - repeat constructor; [by eapply token_field, parse_ipv4_token|by eapply token_field, parse_ipv4_token|by eapply parse_duration_field].
  - match goal with H : fst (vloop _ _ _ _) = [] |- _ => apply (vloop_all _ _ _ _ (fun i x s e s' => lease_fields _ _ _ _ i x s e s')) in H; exact H end.
Qed.

Lemma accepted_option_fields cfg : validate cfg = Ok tt -> OptionFields (runtime cfg).
Proof.
  intros Hv. assert (Hdoh : dhcp_dns_enabled (c_dhcp cfg) = false).
  { unfold validate in Hv. rewrite into_result_ok in Hv. unfold validate_errors in Hv. destruct (validate_lan cfg) as [[? ?] ?]. split_errors. done. }
  apply validate_accepted in Hv as (o & n & A). pose proof (acc_wan _ _ _ A) as Hw. unfold validate_wan in Hw. pose proof (acc_system _ _ _ A) as Hsys. unfold validate_system in Hsys. split_errors.
  destruct (validate_lan_ok _ _ _ (acc_lan _ _ _ A)) as (lip & lip' & ln & _ & _ & Hip & Hcidr & _ & _ & _ & _ & _ & _ & _ & _ & Hmask).
  split; try (change (c_dhcp (runtime cfg)) with (c_dhcp cfg)).
  - by eapply token_field, edge_token.
  - cbn [runtime with_lan_interface c_lan lan_interface lan_ip_address lan_netmask]. split_and!; [|by eapply token_field, parse_ipv4_token|rewrite Hmask; by eapply network_mask_field].
    unfold runtime_lan_interface. destruct (wifi_enabled _); [done|]. by apply token_field, interface_token.
  - intros ip. by apply (tunnel_field cfg o n).
  - eapply Forall_impl; [by eapply accepted_servers|]. apply token_field.
  - done.
  - intros He. by apply (dhcp_fields cfg o n).
  - intros He. by apply (dhcp_fields cfg o n).
  - pose proof (acc_dns_records _ _ _ A) as Hd. unfold validate_dns_records in Hd.
    destruct (vloop validate_dns_record 0 (items (dns_records (c_dns cfg))) (∅, ∅)) as [errs [names ips]] eqn:Er. apply app_eq_nil in Hd as [-> _].
    apply (f_equal fst) in Er. exact (vloop_all _ _ _ _ record_fields Er).
Qed.
End Accepted.

(** C38: The configuration written for dnsmasq reads back.  For an accepted
    configuration, a reader of dnsmasq's options finds, in order, exactly the
    domain, the interfaces and addresses to listen on, the upstream servers, the
    address pool, every static lease and every static record of the
    configuration, each value a value of its own, and nothing else: no field,
    whatever text it holds, adds an option or changes another. *)
Theorem dnsmasq_reads_back {UC : Unicode} {B64 : Base64} (cfg : SystemConfig) :
  validate cfg = Ok tt -> exists text, generate_dnsmasq_text cfg = Ok text /\ read_options text = Some (dnsmasq_options (runtime cfg)).
Proof. intros Hv. eexists. split; [reflexivity|]. by apply reads_file, dnsmasq_reads, accepted_option_fields. Qed.

(** ** The blocklist *)

(** Two characters outside ASCII pass the pattern's case folding. *)
Definition domain_char (c : Z) : bool := folded_alphanumeric c || (c =? 45) || (c =? 46).
Definition sinkhole (domain : string) : string * list string := ("address", ["/" +:+ domain +:+ "/"]).
Definition host_name (domain : string) : Prop := forallb domain_char (chars domain) = true /\ 0 < str_len domain <= 253.

Lemma split_chars_all p sep l : p sep = true -> forallb (forallb p) (split_chars sep l) = true -> forallb p l = true.
Proof.
  intros Hs. induction l as [|c l IH]; [done|]. cbn [split_chars forallb]. destruct (Z.eqb_spec c sep) as [->|_].
  - cbn [forallb]. rewrite Hs. done.
  - destruct (split_chars sep l) as [|w ws]; cbn [forallb] in *.
    + intros H. to_prop. by rewrite H, IH.
    + intros H. apply andb_prop in H as [H Hws]. apply andb_prop in H as [-> Hw]. apply IH. by rewrite Hw.
Qed.
Lemma label_chars l : domain_label l = true -> forallb domain_char l = true.
Proof.
  unfold domain_label, edge_pattern. destruct l as [|a l]; [done|]. intros H. apply andb_prop in H as [Ha H]. cbn [forallb]. unfold domain_char at 1. rewrite Ha. cbn [orb andb].
  rewrite <- forallb_rev. destruct (rev l) as [|z mid]; [done|]. apply andb_prop in H as [H _]. apply andb_prop in H as [Hz Hm]. cbn [forallb]. unfold domain_char at 1. rewrite Hz.
  cbn [orb andb]. revert Hm. apply forallb_weaken. intros c Hc. unfold domain_char. by rewrite Hc.
Qed.
Lemma pattern_chars s : BLOCK_DOMAIN_PATTERN s = true -> forallb domain_char (chars s) = true.
Proof.
  unfold BLOCK_DOMAIN_PATTERN. cbv zeta. intros H. apply andb_prop in H as [_ H]. apply (split_chars_all _ 46); [done|]. revert H. apply forallb_weaken, label_chars.
Qed.
Lemma domain_char_field c : domain_char c = true -> forallb field_char (encode_char c) = true.
Proof.
  intros H. assert (Hc : c = 383 \/ c = 8490 \/ 45 <= c < 128) by (unfold domain_char, folded_alphanumeric in H; lia).
  destruct Hc as [->|[->|Hc]]; [done|done|]. unfold encode_char. destruct (Z.ltb_spec c 128); [|lia]. cbn [forallb]. unfold field_char.
  rewrite !ascii_eqb_bv, bv_byte_of by lia. change (bv ","%char) with 44. change (bv quote_char) with 34. lia.
Qed.
Lemma host_name_field d : utf8 d -> host_name d -> field d.
Proof.
  intros Hu [Hc _]. rewrite <- Hu. unfold field, of_chars. rewrite bytes_of_str_of. induction (chars d) as [|c cs IH]; [done|]. cbn [forallb] in Hc. apply andb_prop in Hc as [Hc Hcs].
  cbn [map concat]. by rewrite forallb_app, domain_char_field, IH.
Qed.

(** The lines the scanner reaches, and what they block *)
Definition scanned (lines : list string) : list string := take_while (fun raw => str_len raw <=? 1024 * 1024) lines.
Definition listed {UC : Unicode} (lines : list string) (domain : string) : Prop := exists line, line ∈ scanned lines /\ blocked_domain line = Some domain.
Definition lines_of (data : bytes) : list string := split (byte_of 10) (str_of (utf8_lossy data)).

Section Blocklist.
Context {UC : Unicode} (Hlower : forall c, 0 <= unicode_lower c < 1114112).

Lemma chars_of_chars l : Forall (fun c => 0 <= c < 1114112) l -> chars (of_chars l) = l.
Proof.
  unfold chars, of_chars. rewrite bytes_of_str_of. induction 1 as [|c l Hc _ IH]; [done|]. cbn [map concat]. rewrite chars_of_encode_char by lia. by rewrite IH.
Qed.
Lemma to_lower_utf8 s : utf8 (to_lower s).
Proof.
  unfold to_lower, utf8. destruct (is_ascii_str s) eqn:E.
  - set (l := map to_ascii_lower (bytes_of s)). assert (Hl : forallb (fun a => bv a <? 128) l = true).
    { subst l. unfold is_ascii_str in E. rewrite forallb_forall in *. intros a (b & <- & Hb)%in_map_iff. specialize (E b Hb). unfold to_ascii_lower.
      destruct (is_ascii_upper b) eqn:Eu; [|done]. unfold is_ascii_upper in Eu. to_prop. rewrite bv_byte_of by lia. lia. }
    unfold of_chars, chars. rewrite bytes_of_str_of. destruct (chars_ascii l Hl) as [E1 E2]. by rewrite E1, E2.
  - f_equal. apply chars_of_chars, Forall_map, Forall_forall. auto.
Qed.
Lemma blocked_domain_host line d : blocked_domain line = Some d -> utf8 d /\ host_name d.
Proof.
  unfold blocked_domain. cbv zeta. destruct (_ || _); [done|]. destruct (split_whitespace _) as [|a [|n fs]]; try done. destruct (negb (one_of _ a)); [done|].
  set (domain := to_lower _). assert (Hu : utf8 domain) by apply to_lower_utf8. clearbody domain. destruct (_ || (domain =s _)); [done|].
  destruct ((253 <? str_len domain) || _) eqn:E; [done|]. intros [= <-]. apply orb_false_elim in E as [El Ep]. apply negb_false_iff in Ep. split; [done|].
  split; [by apply pattern_chars|]. split; [|lia]. destruct domain as [|a' l]; [done|]. unfold str_len. cbn [String.length]. lia.
Qed.
Lemma hosts_domains_spec lines : forall seen,
  NoDup (hosts_domains lines seen) /\ (forall d, d ∈ hosts_domains lines seen <-> ((d ∉ seen) /\ listed lines d)).
Proof.
  clear Hlower. unfold listed, scanned. induction lines as [|raw lines IH]; intros seen; cbn [hosts_domains take_while].
  { split; [constructor|]. set_solver. }
  destruct (Z.ltb_spec (1024 * 1024) (str_len raw)) as [Hlt|Hle].
  { rewrite (proj2 (Z.leb_gt _ _) Hlt). split; [constructor|]. set_solver. }
  rewrite (proj2 (Z.leb_le _ _) Hle). destruct (blocked_domain raw) as [domain|] eqn:Eb.
  - destruct (set_insert domain seen) as [fresh seen'] eqn:Es. unfold set_insert in Es. injection Es as <- <-. destruct (IH ({[domain]} ∪ seen)) as [Hn Hd].
    case_bool_decide as Hin; cbn [negb].
    + assert (E : {[domain]} ∪ seen = seen) by set_solver. rewrite E in *. split; [done|]. intros d. rewrite Hd. set_solver.
    + split; [constructor; [rewrite Hd; set_solver|done]|]. intros d. rewrite elem_of_cons, Hd. destruct (decide (d = domain)) as [->|Hne]; set_solver.
  - destruct (IH seen) as [Hn Hd]. split; [done|]. intros d. rewrite Hd. set_solver.
Qed.
Lemma builtin_hosts : Forall (fun d => utf8 d /\ host_name d) builtin_blocklist.
Proof. repeat constructor; try (by vm_compute). Qed.

Lemma comment_reads s : unbroken_line s -> reads ["#" +:+ s] [].
Proof. intros Hu. by apply reads_const. Qed.
Lemma sinkhole_reads d : utf8 d /\ host_name d -> reads ["address=/" +:+ d +:+ "/"] [sinkhole d].
Proof.
  intros [Hu Hh]. assert (H : field ("/" +:+ d +:+ "/")) by (rewrite !field_app; split_and!; [done|by apply host_name_field|done]). option_reads "address" ["/" +:+ d +:+ "/"].
Qed.
Lemma blocklist_reads data : Forall (fun d => utf8 d /\ host_name d) (parse_hosts_file data) ->
  reads (blocklist_lines data) (map sinkhole (match parse_hosts_file data with [] => builtin_blocklist | domains => domains end)).
Proof.
  intros Hp. unfold blocklist_lines. cbv zeta. set (domains := match parse_hosts_file data with [] => builtin_blocklist | _ => parse_hosts_file data end).
  replace (match parse_hosts_file data with [] => _ | domains => domains end) with domains by (subst domains; by destruct (parse_hosts_file data)).
  assert (Hd : Forall (fun d => utf8 d /\ host_name d) domains) by (subst domains; destruct (parse_hosts_file data); [apply builtin_hosts|done]). clearbody domains.
  assert (He : reads [EmptyString; "# Total blocked domains: " +:+ show_Z (Z.of_nat (List.length domains))] []).
  { apply (reads_cons _ _ []); [by apply reads_const|]. pose proof (show_Z_token (Z.of_nat (List.length domains))) as Ht.
    apply (comment_reads (" Total blocked domains: " +:+ _)). rewrite unbroken_app. split; [done|by apply plain_unbroken, token_plain]. }
  pose proof (reads_app _ _ _ _ (reads_map (fun d => "address=/" +:+ d +:+ "/") sinkhole domains (Forall_impl _ _ _ Hd sinkhole_reads)) He) as H.
  rewrite app_nil_r in H. eapply (reads_app _ _ [] _ _ H). Unshelve. by apply (text_reads _ [[]; []; []; []]); [repeat constructor|].
Qed.
End Blocklist.

(** C39: A blocklist can only block names.  Whatever bytes the downloaded hosts
    file holds, the file written for dnsmasq reads as one sinkhole for each of a
    list of distinct names of 1 to 253 bytes of letters, digits, hyphens and
    dots, and as nothing else (of the letters outside ASCII, the long s and the
    Kelvin sign pass the pattern); the names are exactly those the scanned lines block, or the
    built-in list when they block none. *)
Theorem blocklist_blocks_names {UC : Unicode} (cfg : SystemConfig) (data : bytes) :
  (forall c, 0 <= unicode_lower c < 1114112) -> df_enabled (c_adguard cfg) = true ->
  exists text domains, generate_ad_block_conf cfg data = Ok text /\ read_options text = Some (map sinkhole domains)
  /\ NoDup domains /\ Forall host_name domains
  /\ ((forall d, d ∈ domains <-> listed (lines_of data) d) \/ domains = builtin_blocklist /\ forall d, ~ listed (lines_of data) d).
Proof.
  intros Hlower He. unfold generate_ad_block_conf. rewrite He. destruct (hosts_domains_spec (lines_of data) ∅) as [Hn Hd]. change (hosts_domains (lines_of data) ∅) with (parse_hosts_file data) in Hn, Hd.
  assert (Hh : Forall (fun d => utf8 d /\ host_name d) (parse_hosts_file data)).
  { apply Forall_forall. intros d (_ & line & _ & Hb)%Hd. by eapply blocked_domain_host. }
  eexists _, _. split; [reflexivity|]. split; [by apply reads_file, blocklist_reads|]. destruct (parse_hosts_file data) as [|d0 ds].
  - split_and!; [by apply (bool_decide_eq_true_1 (NoDup builtin_blocklist)); vm_compute|eapply Forall_impl; [exact builtin_hosts|by intros ? []]|right]. split; [done|]. intros d Hl.
    by apply (elem_of_nil d), Hd; split; [set_solver|].
  - split_and!; [done|eapply Forall_impl; [exact Hh|by intros ? []]|left]. intros d. rewrite Hd. set_solver.
Qed.

(** ** A reader of pppd's files

    Words between blanks, as pppd's own reader takes them: a hash where a word
    may start begins a comment, and quotes hold a word together, with a backslash
    before a quote or a backslash of its own.  Other escapes are not read. *)
Inductive Lexer := Between | Bare (word : bytes) | Quoted (word : bytes) | Escaped (word : bytes).
Fixpoint pppd_words (at_ : Lexer) (l : bytes) : option (list string) :=
  match l, at_ with
  | [], Between => Some []
  | [], Bare w => Some [str_of (rev w)]
  | [], _ => None
  | a :: t, Between =>
      if blank a then pppd_words Between t else if Ascii.eqb a "#"%char then Some []
      else if Ascii.eqb a quote_char then pppd_words (Quoted []) t else if Ascii.eqb a backslash then None else pppd_words (Bare [a]) t
  | a :: t, Bare w =>
      if blank a then let! rest := pppd_words Between t in Some (str_of (rev w) :: rest)
      else if Ascii.eqb a quote_char || Ascii.eqb a backslash then None else pppd_words (Bare (a :: w)) t
  | a :: t, Quoted w =>
      if Ascii.eqb a quote_char then pppd_words (Bare w) t else if Ascii.eqb a backslash then pppd_words (Escaped w) t else pppd_words (Quoted (a :: w)) t
  | a :: t, Escaped w => if Ascii.eqb a quote_char || Ascii.eqb a backslash then pppd_words (Quoted (a :: w)) t else None
  end.
Definition word_line (line : bytes) (rest : option (list (list string))) : option (list (list string)) :=
  let! words := pppd_words Between line in let! lines := rest in Some (match words with [] => lines | _ => words :: lines end).
Definition read_words (text : string) : option (list (list string)) := fold_right word_line (Some []) (split_bytes (byte_of 10) (bytes_of text)).

Definition peer_words (cfg : SystemConfig) : list (list string) :=
  let w := c_wan cfg in
  [["plugin"; "pppoe.so"; wan_interface w]; ["name"; wan_username w]; ["noipdefault"]; ["noauth"]; ["noipv6"]; ["defaultroute"]; ["replacedefaultroute"];
   ["persist"]; ["maxfail"; "0"]; ["holdoff"; "5"]; ["lcp-echo-interval"; "5"]; ["lcp-echo-failure"; "4"]; ["mtu"; show_Z (wan_mtu w)]; ["mru"; show_Z (wan_mtu w)]].

Lemma quoted_words value t : forall w, pppd_words (Quoted w) (bytes_of (quote_pppd value) ++ quote_char :: t) = pppd_words (Bare (rev (bytes_of value) ++ w)) t.
Proof.
  unfold quote_pppd. rewrite bytes_of_str_of. induction (bytes_of value) as [|a l IH]; intros w; [done|]. unfold replace_byte in *. cbn [map concat]. rewrite map_app, concat_app, <- app_assoc.
  cbn [rev]. rewrite <- app_assoc. destruct (Ascii.eqb_spec a backslash) as [->|Hb]; [cbn; apply IH|].
  cbn [map concat]. destruct (Ascii.eqb_spec a quote_char) as [->|Hq]; [cbn; apply IH|]. cbn [app pppd_words].
  destruct (Ascii.eqb_spec a quote_char); [done|]. destruct (Ascii.eqb_spec a backslash); [done|]. apply IH.
Qed.
Lemma bare_words value t : field value -> has_byte backslash (bytes_of value) = false -> forall w, pppd_words (Bare w) (bytes_of value ++ t) = pppd_words (Bare (rev (bytes_of value) ++ w)) t.
Proof.
  unfold field. induction (bytes_of value) as [|a l IH]; intros Hf Hb w; [done|]. cbn [forallb has_byte existsb] in *. apply andb_prop in Hf as [Ha Hf].
  apply orb_false_elim in Hb as [Hn Hb]. destruct (field_bytes a Ha) as (Hbl & _ & Hq & _). cbn [app pppd_words]. rewrite Hbl, Hq, (Ascii.eqb_sym a), Hn. cbn [orb].
  rewrite IH by done. cbn [rev]. by rewrite <- app_assoc.
Qed.
Lemma quoted_word value t : pppd_words Between (bytes_of (quoted (quote_pppd value)) ++ t) = pppd_words (Bare (rev (bytes_of value))) t.
Proof.
  unfold quoted. rewrite !bytes_of_app, <- !app_assoc.
  change (pppd_words (Quoted []) (bytes_of (quote_pppd value) ++ quote_char :: t) = pppd_words (Bare (rev (bytes_of value))) t).
  by rewrite quoted_words, app_nil_r.
Qed.

(** Lines of words, as [reads] for options *)
Definition says (lines : list string) (words : list (list string)) : Prop :=
  Forall unbroken_line lines /\ forall rest, fold_right word_line (Some rest) (map bytes_of lines) = Some (words ++ rest).
Lemma says_nil : says [] [].
Proof. by split. Qed.
Lemma says_cons line lines ws words : unbroken_line line -> pppd_words Between (bytes_of line) = Some ws -> says lines words ->
  says (line :: lines) (match ws with [] => words | _ => ws :: words end).
Proof.
  intros Hl Hw [Hu Hs]. split; [by constructor|]. intros rest. cbn [map fold_right]. rewrite Hs. unfold word_line. rewrite Hw. by destruct ws.
Qed.
Lemma says_file lines words : says lines words -> read_words (file_of lines) = Some words.
Proof. intros [Hu Hr]. unfold read_words. rewrite file_lines, fold_right_app by done. cbn [fold_right]. change (word_line [] (Some [])) with (Some ([] : list (list string))). by rewrite Hr, app_nil_r. Qed.
Lemma quote_unbroken value : unbroken_line value -> unbroken_line (quoted (quote_pppd value)).
Proof.
  intros H. unfold quoted. rewrite !unbroken_app. split_and!; [done| |done]. unfold unbroken_line, quote_pppd in *. rewrite bytes_of_str_of.
  induction (bytes_of value) as [|a l IH]; [done|]. cbn [forallb] in H. apply andb_prop in H as [Ha Hl]. unfold replace_byte in *. cbn [map concat]. rewrite map_app, concat_app, forallb_app, IH by done.
  rewrite andb_true_r. destruct (Ascii.eqb_spec a backslash) as [->|]; [done|]. cbn [map concat app]. destruct (Ascii.eqb_spec a quote_char) as [->|]; [done|]. cbn [app forallb]. by rewrite Ha.
Qed.

Section Pppoe.
Context {UC : Unicode} {B64 : Base64} (cfg : SystemConfig).
Hypothesis Hiface : token (wan_interface (c_wan cfg)).
Hypothesis Hnamed : wan_interface (c_wan cfg) <> EmptyString.
Hypothesis Huser : unbroken_line (wan_username (c_wan cfg)).
Hypothesis Hsecret : unbroken_line (wan_password (c_wan cfg)).

Lemma token_bare s : token s -> has_byte backslash (bytes_of s) = false.
Proof.
  unfold token. intros H. apply not_true_iff_false. intros (a & Ha & E)%existsb_exists. apply Ascii.eqb_eq in E as <-. rewrite forallb_forall in H. by specialize (H _ Ha).
Qed.
Lemma secret_says : says (pppoe_secret_lines cfg) [[wan_username (c_wan cfg); "*"; wan_password (c_wan cfg); "*"]].
Proof.
  unfold pppoe_secret_lines. apply (says_cons _ _ []); [done|by vm_compute|]. eapply (says_cons _ _ [_; _; _; _] []); [|  |apply says_nil].
  - rewrite !unbroken_app. split_and!; try done; by apply quote_unbroken.
  - rewrite !bytes_of_app, quoted_word.
    change (pppd_words (Bare ?w) (bytes_of " * " ++ ?r)) with
      (let! rest := (let! rest := pppd_words Between r in Some ("*" :: rest)) in Some (str_of (rev w) :: rest)).
    rewrite quoted_word, !rev_involutive, str_of_bytes_of. cbn. by rewrite rev_involutive, str_of_bytes_of.
Qed.
Lemma last_word s : token s -> s <> EmptyString -> pppd_words Between (bytes_of s) = Some [s].
Proof.
  intros Ht Hne. pose proof (token_field _ Ht) as Hf. pose proof (token_bare _ Ht) as Hb. rewrite <- (str_of_bytes_of s) at 2.
  assert (H : exists a l, bytes_of s = a :: l /\ Ascii.eqb a "#"%char = false).
  { unfold token in Ht. destruct s as [|a s]; [done|]. exists a, (bytes_of s). split; [done|]. apply andb_prop in Ht as [Ha _]. by destruct (Ascii.eqb_spec a "#"%char) as [->|]. }
  destruct H as (a & l & E & Hh). rewrite E in *. unfold field in Hf. rewrite E in Hf. cbn [forallb has_byte existsb] in Hf, Hb. apply andb_prop in Hf as [Ha Hf]. apply orb_false_elim in Hb as [Hn Hb].
  destruct (field_bytes a Ha) as (Hbl & _ & Hq & _). cbn [pppd_words]. rewrite Hbl, Hh, Hq, (Ascii.eqb_sym a), Hn.
  pose proof (bare_words (str_of l) []) as Hw. unfold field in Hw. rewrite bytes_of_str_of, app_nil_r in Hw. rewrite Hw by done. cbn [pppd_words]. by rewrite rev_app_distr, rev_involutive.
Qed.
Lemma plugin_says lines words : says lines words -> says (("plugin pppoe.so " +:+ wan_interface (c_wan cfg)) :: lines) (["plugin"; "pppoe.so"; wan_interface (c_wan cfg)] :: words).
Proof.
  apply (says_cons _ _ [_; _; _]); [apply unbroken_app; split; [done|by apply plain_unbroken, token_plain]|]. rewrite bytes_of_app.
  change (pppd_words Between (bytes_of "plugin pppoe.so " ++ ?r)) with
    (let! rest := (let! rest := pppd_words Between r in Some ("pppoe.so" :: rest)) in Some ("plugin" :: rest)).
  by rewrite last_word.
Qed.
Lemma name_says lines words : says lines words -> says (("name " +:+ quoted (quote_pppd (wan_username (c_wan cfg)))) :: lines) (["name"; wan_username (c_wan cfg)] :: words).
Proof.
  apply (says_cons _ _ [_; _]); [apply unbroken_app; split; [done|by apply quote_unbroken]|]. rewrite bytes_of_app.
  change (pppd_words Between (bytes_of "name " ++ ?r)) with (let! rest := pppd_words Between r in Some ("name" :: rest)).
  rewrite <- (app_nil_r (bytes_of (quoted _))), quoted_word. cbn. by rewrite rev_involutive, str_of_bytes_of.
Qed.
Lemma show_Z_nonempty n : show_Z n <> EmptyString.
Proof.
  intros E. apply (f_equal bytes_of) in E. unfold show_Z in E. rewrite bytes_of_str_of in E. destruct (Z.ltb_spec n 0); [done|]. by apply (show_nonneg_nonempty n).
Qed.
Lemma mtu_says key n lines words : (key = "mtu " \/ key = "mru ") ->
  says lines words -> says ((key +:+ show_Z n) :: lines) ([str_of (removelast (bytes_of key)); show_Z n] :: words).
Proof.
  intros Hk. pose proof (show_Z_token n) as Ht. pose proof (show_Z_nonempty n) as Hne.
  apply (says_cons _ _ [_; _]); [apply unbroken_app; split; [by destruct Hk as [->| ->]|by apply plain_unbroken, token_plain]|]. rewrite bytes_of_app.
  by destruct Hk as [->| ->]; [change (pppd_words Between (bytes_of "mtu " ++ ?r)) with (let! rest := pppd_words Between r in Some ("mtu" :: rest))
    |change (pppd_words Between (bytes_of "mru " ++ ?r)) with (let! rest := pppd_words Between r in Some ("mru" :: rest))]; rewrite last_word.
Qed.
Lemma peer_says : 0 < wan_mtu (c_wan cfg) -> says (pppoe_peer_lines cfg) (peer_words cfg).
Proof.
  intros Hm. unfold pppoe_peer_lines, peer_words. cbv zeta. rewrite (proj2 (Z.ltb_lt _ _) Hm). cbn [app].
  apply (says_cons _ _ []); [done|by vm_compute|]. apply plugin_says, name_says.
  do 6 (apply (says_cons _ _ [_]); [done|by vm_compute|]). do 4 (apply (says_cons _ _ [_; _]); [done|by vm_compute|]).
  apply (mtu_says "mtu "); [by left|]. apply (mtu_says "mru "); [by right|]. apply says_nil.
Qed.
End Pppoe.

(** The credentials written for pppd read back.  For an accepted
    configuration whose texts are UTF-8, whatever quotes, backslashes, hashes or
    blanks the user name and the password hold, pppd's reader finds one line of
    four words in either secrets file, the configured user name and password
    among them, and in the options of the connection exactly the configured
    interface, user name and frame size after the fixed options. *)
Theorem pppoe_reads_back {UC : Unicode} {B64 : Base64} (cfg : SystemConfig) :
  validate cfg = Ok tt -> utf8 (wan_username (c_wan cfg)) -> utf8 (wan_password (c_wan cfg)) ->
  exists files, generate_pppoe_files cfg = Ok files
  /\ read_words (chap_secrets files) = Some [[wan_username (c_wan cfg); "*"; wan_password (c_wan cfg); "*"]]
  /\ pap_secrets files = chap_secrets files
  /\ read_words (peer_config files) = Some (peer_words cfg).
Proof.
  intros (o & n & A)%validate_accepted Hu Hp. pose proof (acc_wan _ _ _ A) as Hw. unfold validate_wan in Hw. split_errors.
  assert (Hl : forall s, one_line s -> unbroken_line s).
  { intros s. apply forallb_weaken. intros a Ha. rewrite ascii_eqb_bv. change (bv (byte_of 10)) with 10. lia. }
  eexists. split; [reflexivity|]. cbn [chap_secrets pap_secrets peer_config]. split_and!; [| done |].
  - apply says_file, secret_says; apply Hl; by apply no_control_one_line.
  - apply says_file, peer_says; [by apply interface_token| |by apply Hl, no_control_one_line|lia].
    intros E. match goal with H : valid_interface_name (wan_interface _) = true |- _ => by rewrite E in H end.
Qed.

(** ** Traffic shaping *)
(** The plan of an accepted configuration exists, with the configured rates. *)
Lemma shaping_rates {UC : Unicode} {B64 : Base64} (cfg : SystemConfig) : validate cfg = Ok tt -> qos_enabled (c_qos cfg) = true ->
  (exists plan, qos_commands cfg = Ok plan /\ plan <> [])
  /\ kbit (qos_download_limit_mbps (c_qos cfg)) = show_Z (qos_download_limit_mbps (c_qos cfg) * 1000) +:+ "kbit"
  /\ kbit (qos_upload_limit_mbps (c_qos cfg)) = show_Z (qos_upload_limit_mbps (c_qos cfg) * 1000) +:+ "kbit".
Proof.
  intros (o & n & A)%validate_accepted He. pose proof (acc_qos _ _ _ A) as Hq. unfold validate_qos in Hq. cbv zeta in Hq. rewrite He in Hq. split_errors. split.
  - unfold qos_commands. rewrite He. cbn [negb]. cbv zeta. destruct (qos_algorithm (c_qos cfg) =s "fq_codel") eqn:E1; [by eexists|].
    destruct (qos_algorithm (c_qos cfg) =s "cake") eqn:E2; [by eexists|]. done.
  - unfold kbit, wrap_i64. split; do 2 f_equal; rewrite Z.mod_small by lia; lia.
Qed.
