(* ===== verification/ServiceRuns.v ===== *)
(** * The generated services of the sample router

    The firewall generated for the sample configuration, the packets its theorems
    are applied to, the explanation of flows, and two flows on which it disagrees
    with the rules; the theorems on the files of the other programs, and values
    that validation accepts and those files do not carry as meant. *)

From Stdlib Require Import ZArith Ascii String Lia Bool.
From stdpp Require Import base list strings gmap.
From S2P Require Import Prelude GoStrings Net NetSpec GoTime Json Model Validation ValidationSpec Policy PolicySpec Firmware FirmwareSpec Auth AuthSpec AuthSecrets Samples Ipc Engine Nft Nftables NftablesSpec TokenText NftablesText Review ReviewTopology ReviewSpec Http Wireguard Generators GeneratorsSpec.

Local Open Scope string_scope.
Local Open Scope Z_scope.
Local Open Scope list_scope.

#[local] Existing Instances ascii_tables rfc4648.
#[local] Instance toy_sha : Sha256 := fun _ => repeat 171 32.

(** ** Packets *)
Section Packets.
Context (iif oif : string) (src dst : IP) (proto : string) (sport dport : Z) (ct : CtState) (user : string) (sets : string -> bool).
(** An IPv4 packet on a Monday at seven in the evening *)
Definition packet : Packet :=
  mkPacket iif oif true src dst proto sport dport ct true true user 1 (19 * 3600) (fun _ => false) sets.
End Packets.
Definition nowhere : string -> bool := fun _ => false.

(** A handshake from the Internet, to the tunnel's port and to another *)
Definition handshake (port : Z) : Packet := packet "ppp0" EmptyString [8; 8; 8; 8] [203; 0; 114; 7] "udp" 40000 port CtNew EmptyString nowhere.
Definition browse : Packet := packet "br-lan" "ppp0" [192; 168; 1; 50] [8; 8; 8; 8] "tcp" 40000 443 CtNew EmptyString nowhere.
Definition camera (src : IP) : Packet := packet "br-lan" "eth2" src [10; 20; 0; 9] "tcp" 40000 443 CtNew EmptyString nowhere.
Definition watch (time : Z) : Packet :=
  mkPacket "br-lan" "ppp0" true [192; 168; 1; 10] [142; 250; 1; 1] "tcp" 40000 443 CtEstablished true true EmptyString 1 time (fun _ => false) (fun s => s =s "svc_youtube").
Definition proxied (sport : Z) : Packet := packet EmptyString "br-lan" [192; 168; 1; 1] [192; 168; 1; 50] "tcp" sport 40000 CtEstablished "squid" nowhere.

Example handshakes : map (fun port => input_passes sample (handshake port)) [51820; 8443; 22] = [true; false; false].
Proof. vm_compute. reflexivity. Qed.
Example cameras : map (fun src => forward_passes sample (camera src)) [[192; 168; 1; 7]; [10; 8; 0; 2]] = [true; false].
Proof. vm_compute. reflexivity. Qed.
Example evenings : map (fun h => forward_passes sample (watch (h * 3600))) [17; 19; 21] = [false; true; false].
Proof. vm_compute. reflexivity. Qed.
Example proxies : map (fun port => output_passes sample (proxied port)) [3128; 40001] = [true; false].
Proof. vm_compute. reflexivity. Qed.

(** ** The theorems at these packets *)
Lemma outside_reaches_only_wireguard_witness :
  wg_enabled (c_wireguard sample) = true /\ wan_path sample (handshake 51820) /\ to_port "udp" 51820 (handshake 51820).
Proof.
  apply (outside_reaches_only_wireguard sample (handshake 51820)); [vm_compute; reflexivity| |reflexivity].
  split; [reflexivity|]. split; [vm_compute; reflexivity|]. split; [intros _; vm_compute; reflexivity|].
  intros lan Hl _. apply list_elem_of_In in Hl. destruct Hl as [<-|[<-|[]]]; vm_compute; reflexivity.
Defined.

Section Variants.
Context (c : SystemConfig).
Definition with_system (s : SystemSettings) : SystemConfig :=
  mkSystemConfig (c_revision c) (c_updated_at c) s (c_wan c) (c_lan c) (c_dhcp c) (c_dns c) (c_firewall c) (c_wireguard c) (c_wg_client c)
    (c_cloudflare c) (c_squid_proxy c) (c_adguard c) (c_qos c) (c_wifi c) (c_accounting c) (c_trusted_networks c).
Definition with_wan (w : WANSettings) : SystemConfig :=
  mkSystemConfig (c_revision c) (c_updated_at c) (c_system c) w (c_lan c) (c_dhcp c) (c_dns c) (c_firewall c) (c_wireguard c) (c_wg_client c)
    (c_cloudflare c) (c_squid_proxy c) (c_adguard c) (c_qos c) (c_wifi c) (c_accounting c) (c_trusted_networks c).
Definition with_firewall (f : FirewallConfig) : SystemConfig :=
  mkSystemConfig (c_revision c) (c_updated_at c) (c_system c) (c_wan c) (c_lan c) (c_dhcp c) (c_dns c) f (c_wireguard c) (c_wg_client c)
    (c_cloudflare c) (c_squid_proxy c) (c_adguard c) (c_qos c) (c_wifi c) (c_accounting c) (c_trusted_networks c).
Definition with_wg_client (w : WGClientConfig) : SystemConfig :=
  mkSystemConfig (c_revision c) (c_updated_at c) (c_system c) (c_wan c) (c_lan c) (c_dhcp c) (c_dns c) (c_firewall c) (c_wireguard c) w
    (c_cloudflare c) (c_squid_proxy c) (c_adguard c) (c_qos c) (c_wifi c) (c_accounting c) (c_trusted_networks c).
End Variants.

(** The sample managed through the tunnel only; such a configuration has no
    custom input rule. *)
Definition closed_lan : SystemConfig :=
  with_firewall (with_system sample (mkSystemSettings "minimalrouter" "lan" true 8443 "wireguard_only"))
    (mkFirewallConfig "deny" "wireguard_only" true list_nil list_nil list_nil).
Definition admin : Packet := packet "br-lan" EmptyString [192; 168; 1; 50] [192; 168; 1; 1] "tcp" 40000 8443 CtNew EmptyString nowhere.
Lemma wireguard_only_closes_lan_witness : input_passes closed_lan admin = false /\ input_passes sample admin = true.
Proof. split; [apply wireguard_only_closes_lan|]; vm_compute; reflexivity. Defined.

Lemma forwards_start_at_home_witness : from_if "br-lan" browse.
Proof.
  destruct (forwards_start_at_home sample browse) as [H|[H|[_ [H|H]]]]; [vm_compute; reflexivity|discriminate H|exact H|discriminate H|discriminate H].
Defined.

Lemma segments_need_allowance_witness : exists lan src, Allowance (runtime sample) lan src (camera [192; 168; 1; 7]).
Proof.
  apply (segments_need_allowance sample (camera [192; 168; 1; 7])); [vm_compute; reflexivity|reflexivity|discriminate| |discriminate].
  intros [H|H]; discriminate H.
Defined.

Lemma denials_bind_established_witness : ~ source_in "192.168.1.11" browse /\ pk_ct browse <> CtInvalid.
Proof.
  destruct (denials_bind_established sample browse ltac:(vm_compute; reflexivity)) as (Hi & _ & _ & Hr & _). split; [|exact Hi].
  apply (Hr (mkRestrictedIPItem "nas" "192.168.1.11" true)); [reflexivity| |reflexivity|discriminate]. apply list_elem_of_singleton. reflexivity.
Defined.

Lemma schedules_are_enforced_witness : InWindow sample (watch (19 * 3600)).
Proof.
  apply (schedules_are_enforced sample (watch (19 * 3600)) profile1 "192.168.1.10" "youtube");
    try solve [vm_compute; reflexivity | split; vm_compute; reflexivity | discriminate | apply list_elem_of_In; left; reflexivity].
  left. reflexivity.
Defined.

Lemma proxy_stays_outside_witness : proxy_reply (runtime sample) (proxied 3128).
Proof.
  apply (proxy_stays_outside sample (proxied 3128) "br-lan"); try solve [vm_compute; reflexivity | discriminate].
  apply (inside_lan (runtime sample)). discriminate.
Defined.

Definition sample_text : string := render (ruleset (runtime sample)).
Lemma no_rule_injection_witness :
  (List.length (split (byte_of 10) sample_text) = S (List.length (ruleset (runtime sample))))%nat.
Proof.
  destruct (no_rule_injection sample sample_text) as [H _].
  - intros l. unfold sha256, toy_sha. apply Forall_forall. intros x Hx%list_elem_of_In. apply repeat_spec in Hx as ->. vm_compute; split; [discriminate|reflexivity].
  - intros profile Hp. apply list_elem_of_In in Hp. destruct Hp as [<-|[<-|[]]]; vm_compute; reflexivity.
  - exact (proj1 sample_valid).
  - unfold generate_nftables_text. rewrite (proj2 sample_valid). reflexivity.
  - rewrite H, length_app, length_map. cbn [List.length]. lia.
Defined.

(** ** Corner cases the generator lets through *)

(** The validator trims an entry of [allow_from] before it parses it, the
    generator does not: the exception is accepted and never written. *)
Definition spaced : ExtraLANConfig :=
  mkExtraLANConfig "x1" "Cameras" "eth2" "10.20.0.0/24" "10.20.0.1/24" "10.20.0.9" 443 "tcp" (list_from [" 192.168.1.0/24"]) true.
Theorem spaced_exception_is_not_written :
  let cfg := with_firewall sample (mkFirewallConfig "deny" "wireguard_only" true list_nil list_nil (list_from [spaced])) in
  validate cfg = Ok tt /\ validate_scenario_safety cfg = Ok tt
  /\ forward_passes cfg (camera [192; 168; 1; 7]) = false /\ forward_passes sample (camera [192; 168; 1; 7]) = true.
Proof. vm_compute. split_and!; reflexivity. Qed.

(** The WAN interface is compared with the LAN's own interface only: it may name
    the bridge the LAN runs on while the radio is enabled, and the firewall then
    takes what arrives on the WAN for LAN traffic. *)
Theorem wan_may_name_the_bridge :
  let cfg := with_wan sample (mkWANSettings "br-lan" true "user@isp" "secret" 1492) in
  validate cfg = Ok tt /\ validate_scenario_safety cfg = Ok tt
  /\ runtime_lan_interface cfg = wan_interface (c_wan cfg)
  /\ List.filter (fun l => render_line l =s ("    iifname " +:+ quoted "br-lan" +:+ " tcp dport 8443 accept")) (input_lan (runtime cfg)) <> [].
Proof. vm_compute. split_and!; [reflexivity|reflexivity|reflexivity|discriminate]. Qed.

(** The port of the remote endpoint is written as it was entered. *)
Theorem signed_endpoint_port_is_written :
  let cfg := with_wg_client sample
    (mkWGClientConfig true "wg1" key_a "10.9.0.2/32" key_b EmptyString "vpn.example.com:+51820" (list_from ["172.16.5.0/24"]) 25) in
  validate cfg = Ok tt /\ validate_scenario_safety cfg = Ok tt
  /\ map render_line (write_wg_client_output_rules (runtime cfg))
     = ["    oifname " +:+ quoted "eth0" +:+ " udp dport +51820 accept"; "    oifname " +:+ quoted "ppp*" +:+ " udp dport +51820 accept"].
Proof. vm_compute. split_and!; reflexivity. Qed.

(** ** Explanations *)


(** The sample with its protocols in lower case *)
Definition plain_sample : SystemConfig :=
  with_firewall sample (mkFirewallConfig "deny" "wireguard_only" true
    (list_from [forward1; mkPortForwardRule "f2" "Games" "udp" 8080 "192.168.1.11" 81 true]) (list_from [rule1]) (list_from [segment1; segment2])).
Lemma plain_sample_accepted : validate plain_sample = Ok tt /\ validate_scenario_safety plain_sample = Ok tt.
Proof. vm_compute. split; reflexivity. Qed.
Lemma plain_sample_plain : PlainlyWritten plain_sample.
Proof. split; try solve [vm_compute; reflexivity]. apply (bool_decide_unpack _). vm_compute. exact I. Qed.

Definition verdict_of (cfg : SystemConfig) (flow : FirewallFlow) : string :=
  match explain_firewall_flow cfg flow time_zero with Ok e => ex_verdict e | Err _ => "error" end.
Definition lan_to (dst proto : string) (port : Z) : FirewallFlow := mkFirewallFlow "192.168.1.50" dst proto port.
Example explained :
  map (verdict_of plain_sample)
    [lan_to "8.8.8.8" "tcp" 443; lan_to "192.168.1.1" "tcp" 8443; lan_to "192.168.1.1" "tcp" 23; lan_to "10.20.0.9" "tcp" 443; lan_to "10.20.0.9" "tcp" 80;
     lan_to "192.168.1.7" "tcp" 80; mkFirewallFlow "10.20.0.9" "8.8.8.8" "tcp" 443; mkFirewallFlow "10.8.0.2" "10.8.0.1" "udp" 8080]
  = ["allow"; "allow"; "deny"; "allow"; "deny"; "not_routed"; "deny"; "allow"].
Proof. vm_compute. reflexivity. Qed.

(** A camera asked for another port than its own *)
Definition probe : Packet := packet "br-lan" "eth2" [192; 168; 1; 50] [10; 20; 0; 9] "tcp" 40000 80 CtNew EmptyString nowhere.
Lemma probe_realises : Realises plain_sample (lan_to "10.20.0.9" "tcp" 80) probe.
Proof.
  split; try solve [vm_compute; reflexivity | intros _; vm_compute; reflexivity | intros k; reflexivity].
  - exists (ip_v4 192 168 1 50). split; [vm_compute; reflexivity|]. split; [reflexivity|]. apply (behind_lan plain_sample). vm_compute. reflexivity.
  - exists (ip_v4 10 20 0 9). split; [vm_compute; reflexivity|reflexivity].
  - intros _. apply (behind_segment plain_sample _ segment1); [|vm_compute; reflexivity]. apply list_elem_of_In. left. reflexivity.
Qed.
Lemma explanation_agrees_witness : firewall_passes plain_sample probe = false.
Proof.
  destruct (explain_firewall_flow plain_sample (lan_to "10.20.0.9" "tcp" 80) time_zero) as [e|e] eqn:Ee; [|vm_compute in Ee; discriminate Ee].
  apply (explanation_agrees plain_sample (lan_to "10.20.0.9" "tcp" 80) time_zero e probe (proj1 plain_sample_accepted) (proj2 plain_sample_accepted)
    plain_sample_plain ltac:(vm_compute; reflexivity) ltac:(vm_compute; reflexivity) Ee probe_realises).
  vm_compute in Ee. injection Ee as <-. reflexivity.
Defined.

(** ** Where they part *)

(** The generator lowers the protocol of a port forward, the explanation does
    not: a redirected flow of the sample is explained as denied. *)
Definition game : Packet := packet "wg0" "br-lan" [10; 8; 0; 2] [10; 8; 0; 1] "udp" 40000 8080 CtNew EmptyString nowhere.
Theorem upper_case_redirect_unexplained :
  verdict_of sample (mkFirewallFlow "10.8.0.2" "10.8.0.1" "udp" 8080) = "deny" /\ firewall_passes sample game = true.
Proof. vm_compute. split; reflexivity. Qed.

(** The explanation compares device addresses as texts: a restricted device in
    IPv4-mapped notation is explained as allowed. *)
Definition restricted_device : Packet := packet "br-lan" "ppp0" [192; 168; 1; 11] [8; 8; 8; 8] "udp" 40000 4000 CtNew EmptyString nowhere.
Definition unrestricted_profiles : SystemConfig :=
  sample_with lan24 list_nil (list_from ["172.16.5.0/24"]).
Theorem mapped_source_misexplained :
  verdict_of unrestricted_profiles (mkFirewallFlow "192.168.1.11" "8.8.8.8" "udp" 4000) = "deny"
  /\ verdict_of unrestricted_profiles (mkFirewallFlow "::ffff:192.168.1.11" "8.8.8.8" "udp" 4000) = "allow"
  /\ firewall_passes unrestricted_profiles restricted_device = false.
Proof. vm_compute. split_and!; reflexivity. Qed.

(** ** Files of other programs *)
Lemma dnsmasq_reads_back_witness : exists text options, generate_dnsmasq_text sample = Ok text /\ read_options text = Some options
  /\ List.In ("dhcp-host", ["aa:bb:cc:dd:ee:01"; "192.168.1.10"; "printer"]) options.
Proof.
  destruct (dnsmasq_reads_back sample (proj1 sample_valid)) as (text & Hg & Hr). exists text, (dnsmasq_options (runtime sample)). split; [exact Hg|split; [exact Hr|]].
  vm_compute. tauto.
Defined.

(** Quotes, backslashes, hashes and blanks in the credentials *)
Definition awkward_user : string := "user#1" +:+ String quote_char (String backslash " @isp").
Definition awkward : SystemConfig := with_wan sample (mkWANSettings "eth0" true awkward_user (String backslash (String backslash "# ")) 1492).
Lemma pppoe_reads_back_witness : exists files, generate_pppoe_files awkward = Ok files
  /\ read_words (pap_secrets files) = Some [[awkward_user; "*"; String backslash (String backslash "# "); "*"]].
Proof.
  destruct (pppoe_reads_back awkward) as (files & Hg & Hr & Hp & _); [vm_compute; reflexivity|vm_compute; reflexivity|vm_compute; reflexivity|].
  exists files. split; [exact Hg|]. rewrite Hp. exact Hr.
Defined.

(** Lower-case tables whose values are characters *)
Definition bounded_tables : Unicode := {|
  unicode_lower c := if (65 <=? c) && (c <=? 90) then c + 32 else if (0 <=? c) && (c <? 1114112) then c else 65533;
  unicode_upper := @unicode_upper ascii_tables;
  unicode_letter_number := @unicode_letter_number ascii_tables;
|}.
Lemma bounded_lower c : 0 <= @unicode_lower bounded_tables c < 1114112.
Proof. cbn. destruct ((65 <=? c) && (c <=? 90)) eqn:E; [lia|]. destruct ((0 <=? c) && (c <? 1114112)) eqn:E2; lia. Qed.
(** A list whose owner tries to set an address for a name of his own *)
Definition hostile_list : bytes := bytes_of (
  "# ads" +:+ newline +:+ "0.0.0.0 Ads.Example.com" +:+ newline +:+ "127.0.0.1 localhost" +:+ newline
  +:+ "0.0.0.0 bank.example/6.6.6.6" +:+ newline +:+ "6.6.6.6 bank.example" +:+ newline +:+ "::1 ads.example.com. # again" +:+ newline +:+ "0.0.0.0 t.example").
Lemma blocklist_blocks_names_witness :
  exists text, @generate_ad_block_conf bounded_tables sample hostile_list = Ok text /\ read_options text = Some [sinkhole "ads.example.com"; sinkhole "t.example"].
Proof.
  destruct (@blocklist_blocks_names bounded_tables sample hostile_list bounded_lower) as (text & domains & Hg & Hr & _); [reflexivity|].
  exists text. split; [exact Hg|]. assert (E : @generate_ad_block_conf bounded_tables sample hostile_list = Ok text) by exact Hg.
  clear Hg Hr domains. vm_compute in E. injection E as <-. vm_compute. reflexivity.
Defined.

(** A name with the long s passes the pattern of the blocklist. *)
Example long_s_passes : @blocked_domain bounded_tables (of_chars ([48; 46; 48; 46; 48; 46; 48; 32; 97; 383; 46; 99; 111]%Z)) = Some (of_chars [97; 383; 46; 99; 111]).
Proof. vm_compute. reflexivity. Qed.
(** Validation takes a hardware address with hyphens, and it is written as it
    is. *)
Example hyphenated_address_is_written : validate sample = Ok tt /\ List.In lease2 (items (dhcp_static_leases (c_dhcp sample)))
  /\ lease_line lease2 = "dhcp-host=aa-bb-cc-dd-ee-02,192.168.1.11,nas".
Proof. vm_compute. intuition. Qed.
(** Validation takes any duration for the lease time, and it is written as it
    is. *)
Definition fractional_lease : SystemConfig :=
  let d := c_dhcp sample in
  mkSystemConfig (c_revision sample) (c_updated_at sample) (c_system sample) (c_wan sample) (c_lan sample)
    (mkDHCPSettings true false (dhcp_range_start d) (dhcp_range_end d) "1.5h" (dhcp_dns_servers d) (dhcp_static_leases d))
    (c_dns sample) (c_firewall sample) (c_wireguard sample) (c_wg_client sample) (c_cloudflare sample) (c_squid_proxy sample) (c_adguard sample) (c_qos sample)
    (c_wifi sample) (c_accounting sample) (c_trusted_networks sample).
Example fractional_lease_is_written : validate fractional_lease = Ok tt
  /\ List.In "dhcp-range=192.168.1.100,192.168.1.200,255.255.255.0,1.5h" (dhcp_lines fractional_lease).
Proof. split; [vm_compute; reflexivity|]. vm_compute. tauto. Qed.
