(* ===== verification/Api.v ===== *)
(** * The management API

    [mr-api/src/api/mod.rs] and [audit.rs]: the gate every request passes (the
    trusted networks, the session, the origin and the CSRF token), the audit of
    what it rejects, sign-in and the administrator's credentials, and the
    configuration transactions.

    The session manager and the rate limiters are the traits of the source;
    the store, the random source and the key derivation are the rest of the
    environment [ApiEnv], over the same world as the engine's [Env].  What
    serde derives (decoding a body, the JSON of a transaction) is a class. *)

From Stdlib Require Import ZArith Ascii String Lia Bool.
From stdpp Require Import base list strings gmap.
From S2P Require Import Prelude GoStrings Net NetSpec GoTime Json Model Validation Policy Auth AuthStore Ipc Safety Engine Store Throttle Http Redaction.

Local Open Scope string_scope.
Local Open Scope Z_scope.
Local Open Scope list_scope.

Definition CSRF_HEADER_NAME : string := "X-CSRF-Token".

(** [errors::is::<T>]: a sentinel anywhere in the chain *)
Fixpoint is_sentinel (target e : error) : bool :=
  match e with
  | ESentinel m => match target with ESentinel t => m =s t | _ => false end
  | Wrapf _ e => is_sentinel target e
  | _ => false
  end.
Definition ErrBusy : error := ESentinel "key derivation capacity is exhausted; retry shortly".
Definition ErrAuthenticationStateUnavailable : error := ESentinel "authentication state unavailable".
Definition ErrTOTPNotConfigured : error := ESentinel "TOTP not configured".

(** ** The environment *)

(** [SessionManagerInterface], [RateLimiterInterface] and the calls of the store *)
Class ApiEnv (W : Type) := {
  sm_validate : string -> W -> result Session error * W;
  sm_destroy : string -> W -> result unit error * W;
  sm_create_with_mode : bool -> W -> option Session * W;
  sm_create_with_generation : bool -> Z -> W -> result Session error * W;
  sm_destroy_all : W -> result unit error * W;
  sm_secure_cookies : bool;
  rate_limiter : string -> W -> bool * W;
  global_limiter : option (string -> W -> bool * W);
  has_credential_store : bool;
  read_admin_auth_state : W -> result (string * Z) error * W;
  read_admin_totp_secret : W -> result string error * W;
  write_admin_hash : string -> W -> result unit error * W;
  write_admin_totp_secret : string -> W -> result unit error * W;
  drop_admin_totp_secret : W -> result unit error * W;
  write_audit_event : string -> string -> list (string * string) -> W -> result unit error * W;
  store_commit_setup : SystemConfig -> string -> W -> result unit error * W;
  derivation_slot : W -> result unit error * W;
  random_salt : W -> result (list Z) error * W;
  random_totp_secret : W -> result string error * W;
  discover_interfaces : W -> result json string * W;
}.

(** What serde derives *)
Class ApiJson := {
  json_values : bytes -> list (result json string);
  transaction_json : option Transaction -> json;
  config_json : SystemConfig -> json;
  time_json : Time -> json;
}.
(** The value of a type, with the first field that is not of the type *)
Class FromJson (T : Type) := from_json : json -> result (T * option string) string.

(** ** The server *)
Record Server := mkServer {
  sv_admin_hash : string;
  sv_pending_totp : gmap string (string * Time);
  sv_totp_replay : gmap (list Z) Time;
  sv_audit_limiter : AuditThrottle;
  sv_preview_http : bool;
}.
Definition with_admin_hash (s : Server) h := mkServer h (sv_pending_totp s) (sv_totp_replay s) (sv_audit_limiter s) (sv_preview_http s).
Definition with_pending_totp (s : Server) p := mkServer (sv_admin_hash s) p (sv_totp_replay s) (sv_audit_limiter s) (sv_preview_http s).
Definition with_totp_replay (s : Server) r := mkServer (sv_admin_hash s) (sv_pending_totp s) r (sv_audit_limiter s) (sv_preview_http s).
Definition with_audit_limiter (s : Server) l := mkServer (sv_admin_hash s) (sv_pending_totp s) (sv_totp_replay s) l (sv_preview_http s).

Record Api (W : Type) := mkApi { api_server : Server; api_sys : Sys W }.
Arguments mkApi {W} api_server api_sys.
Arguments api_server {W} a.
Arguments api_sys {W} a.

(** A handler's effect *)
Definition HM (W A : Type) : Type := Api W -> A * Api W.
Definition hm_ret {W A} (a : A) : HM W A := fun s => (a, s).
Definition hm_bind {W A B} (m : HM W A) (k : A -> HM W B) : HM W B := fun s => let '(a, s') := m s in k a s'.
Notation "'act' x <- m ; k" := (hm_bind m (fun x => k)) (at level 10, x pattern, m at level 100, k at level 200) : mr_scope.

Definition server {W} : HM W Server := fun s => (api_server s, s).
Definition set_server {W} (f : Server -> Server) : HM W unit := fun s => (tt, mkApi (f (api_server s)) (api_sys s)).
Definition engine {W A} (m : M W A) : HM W A := fun s => let '(a, y) := m (api_sys s) in (a, mkApi (api_server s) y).
Definition outside {W A} (f : W -> A * W) : HM W A := engine (lift f).
Definition get_current_config {W} : HM W SystemConfig := engine (let* st := get_st in ret (st_current_config st)).

Definition error_json (message : string) : json := JObj [("error", JStr message)].
Definition write_json (status : Z) (value : json) : Response := with_header (response_json status value) "Cache-Control" "no-store".

(** [HashMap] then [BTreeMap]: in key order, the last of a key wins *)
Fixpoint insert_detail (k v : string) (l : list (string * string)) : list (string * string) :=
  match l with
  | [] => [(k, v)]
  | (k', v') :: l' => if k =s k' then (k, v) :: l' else if String.ltb k k' then (k, v) :: l else (k', v') :: insert_detail k v l'
  end.
Definition details (pairs : list (string * string)) : list (string * string) :=
  fold_left (fun l p => insert_detail (fst p) (snd p) l) pairs [].

Definition audit_actor (remote_addr : string) : string :=
  match split_host_port remote_addr with
  | Ok (host, _) => if is_empty host then (if is_empty remote_addr then "local" else remote_addr) else host
  | Err _ => if is_empty remote_addr then "local" else remote_addr
  end.
Definition remote_ip (remote_addr : string) : string :=
  match split_host_port remote_addr with Ok (h, _) => h | Err _ => remote_addr end.

(** Strict headers on every response; a handler's own value wins. *)
Definition SECURITY_HEADERS : list (string * string) :=
  [("Strict-Transport-Security", "max-age=63072000"); ("X-Content-Type-Options", "nosniff"); ("X-Frame-Options", "DENY");
   ("Cross-Origin-Opener-Policy", "same-origin"); ("Cross-Origin-Resource-Policy", "same-origin");
   ("Content-Security-Policy", "default-src 'none'; frame-ancestors 'none'; base-uri 'none'");
   ("Referrer-Policy", "no-referrer"); ("Permissions-Policy", "camera=(), microphone=(), geolocation=()"); ("Cache-Control", "no-store")].
Definition security_headers (response : Response) : Response :=
  fold_left (fun r p => if header_has (rs_headers r) (fst p) then r else with_header r (fst p) (snd p)) SECURITY_HEADERS response.

(** [http.SetCookie] for the session cookie *)
Definition cookie_header (value : string) (max_age : Z) (secure : bool) : string :=
  SESSION_COOKIE_NAME +:+ "=" +:+ value +:+ "; Path=/; Max-Age=" +:+ show_Z (Z.max max_age 0) +:+ "; HttpOnly"
  +:+ (if secure then "; Secure" else "") +:+ "; SameSite=Strict".

(** ** Request origins *)

(** [url.Parse(origin)]: the scheme and what stands before the path *)
Definition is_path_start (a : ascii) : bool := existsb (Ascii.eqb a) ["/"%char; "?"%char; "#"%char].
Definition trim_end_slashes (l : bytes) : bytes := rev (drop_while (fun a => Ascii.eqb a "/"%char) (rev l)).
Fixpoint split_scheme (l : bytes) : option (bytes * bytes) :=
  match strip_prefix_bytes (bytes_of "://") l with
  | Some rest => Some ([], rest)
  | None =>
      match l with
      | [] => None
      | a :: t => let! (scheme, rest) := split_scheme t in Some (a :: scheme, rest)
      end
  end.
Definition authority_of (rest : bytes) : bytes :=
  if existsb is_path_start rest && negb (match rev rest with a :: _ => Ascii.eqb a "/"%char | [] => false end)
  then take_while (fun a => negb (is_path_start a)) rest
  else trim_end_slashes rest.
Definition origin_hostname (authority : bytes) : bytes :=
  let plain := match rfind_byte ":"%char authority with Some i => take i authority | None => authority end in
  match strip_prefix_bytes (bytes_of "[") authority with
  | Some h => match split_once_bytes "]"%char h with Some (h, _) => h | None => plain end
  | None => plain
  end.
Definition scheme_allowed (preview_http : bool) (scheme authority : bytes) : bool :=
  (str_of scheme =s "https")
  || (str_of scheme =s "http") && preview_http && some_and is_loopback (parse_ip (str_of (origin_hostname authority))).
Definition origin_allowed (preview_http : bool) (origin host : string) : bool :=
  match split_scheme (bytes_of origin) with
  | None => false
  | Some (scheme, rest) =>
      let authority := authority_of rest in
      (str_of authority =s host) && scheme_allowed preview_http scheme authority
  end.

(** ** Trusting the candidate's networks *)
Definition trusted_networks_cover (trusted : list string) (target : IPNet) : bool :=
  let target_size := mask_size (net_mask target) in
  existsb (fun n =>
    some_and (fun p =>
      let size := mask_size (net_mask (snd p)) in
      Nat.eqb (snd size) (snd target_size) && Nat.leb (fst size) (fst target_size) && net_contains (snd p) (net_ip target)) (parse_cidr n)) trusted.
Definition wireguard_management_trust_err (candidate : SystemConfig) : result unit string :=
  if sys_management_access (c_system candidate) <>s "wireguard_only" then Ok tt
  else
    match parse_cidr (wg_address (c_wireguard candidate)) with
    | None => Ok tt
    | Some (_, tunnel) =>
        if trusted_networks_cover (items (c_trusted_networks candidate)) tunnel then Ok tt
        else Err ("WireGuard-only management requires the WireGuard network " +:+ net_to_string tunnel +:+ " in trusted_networks")
    end.
(** The single anti-lockout policy for every configuration mutation *)
Definition management_continuity_err (candidate : SystemConfig) (remote_addr : string) : result unit string :=
  let? _ := wireguard_management_trust_err candidate in
  if is_trusted_client_address candidate remote_addr then Ok tt
  else Err "this change removes the caller's source address from trusted_networks and would lock out the administrator".
(** A LAN address change is confirmed only at the candidate address. *)
Definition confirm_via_candidate_lan (local_addr candidate_ip : string) : bool :=
  is_empty candidate_ip || (remote_ip local_addr =s candidate_ip).
Definition management_url (cfg : SystemConfig) : string :=
  let '(scheme, port) :=
    if sys_https_enabled (c_system cfg) then ("https", show_Z (sys_https_port (c_system cfg))) else ("http", "8080") in
  scheme +:+ "://" +:+ join_host_port (lan_ip_address (c_lan cfg)) port +:+ "/#network".

Section Handlers.
Context {UC : Unicode} {B64 : Base64} {G : Generators} {W : Type} {E : Env W} {AE : ApiEnv W} {TT : TimeText} {AJ : ApiJson}.
Context `{Argon2, RawBase64, HmacSha1, Sha256}.

(** ** Audit *)
Definition credential_store : bool := has_credential_store || has_store.
Definition persist_audit (event actor : string) (l : list (string * string)) : HM W unit :=
  if credential_store then act _ <- outside (write_audit_event event actor l); hm_ret tt else hm_ret tt.
Definition append_throttled_audit (event actor : string) (l : list (string * string)) (now : Time) : HM W unit :=
  act sv <- server;
  let '(decision, limiter) := admit_event (sv_audit_limiter sv) (event +:+ String zero EmptyString +:+ actor) now in
  act _ <- set_server (fun sv => with_audit_limiter sv limiter);
  let window_seconds := show_Z (AUDIT_THROTTLE_WINDOW / 1000000000) in
  act _ <- (if 0 <? dc_previous_suppressed decision then
              let start := match dc_previous_window_start decision with Some t => rfc3339 t | None => EmptyString end in
              persist_audit "audit.suppressed" "local"
                (details [("count", show_Z (dc_previous_suppressed decision)); ("window_start", start); ("window_seconds", window_seconds)])
            else hm_ret tt);
  act _ <- (if dc_mark_suppression decision then
              persist_audit "audit.throttled" "local" (details [("first_event", event); ("first_actor", actor); ("window_seconds", window_seconds)])
            else hm_ret tt);
  if dc_record decision then persist_audit event actor l else hm_ret tt.
Definition append_audit (event actor : string) (l : list (string * string)) : HM W unit :=
  if is_high_volume_audit_event event then
    act now <- outside clock_now;
    append_throttled_audit event actor l now
  else persist_audit event actor l.
Definition audit_request (event : string) (r : Request) (extra : list (string * string)) : HM W unit :=
  append_audit event (audit_actor (rq_remote_addr r)) (details ([("method", rq_method r); ("path", rq_path r)] ++ extra)).

(** ** The gate *)
Definition Handler : Type := Request -> HM W Response.

Definition trusted_rejection (r : Request) : HM W (option Response) :=
  act cfg <- get_current_config;
  if is_trusted_client_address cfg (rq_remote_addr r) then hm_ret None
  else
    act _ <- audit_request "access.trusted_network_rejected" r [];
    hm_ret (Some (response_json 403 (error_json "Source address is not within a trusted management network"))).

Definition is_safe (method : string) : bool := one_of ["GET"; "HEAD"; "OPTIONS"] method.

(** The checks of a request that may change state *)
Definition mutation_rejection (preview_http : bool) (session : Session) (r : Request) : option (string * Response) :=
  let origin := header_get (rq_headers r) "Origin" in
  if ss_read_only session && (rq_path r <>s "/api/v1/auth/logout") then
    Some ("auth.read_only_rejected", response_json 403 (error_json "Read-only session cannot change router state"))
  else if header_get (rq_headers r) "Sec-Fetch-Site" =s "cross-site" then
    Some ("auth.cross_site_rejected", response_error "Cross-site request rejected" 403)
  else if negb (is_empty origin) && negb (origin_allowed preview_http origin (rq_host r)) then
    Some ("auth.origin_rejected", response_error "Origin rejected" 403)
  else if header_get (rq_headers r) CSRF_HEADER_NAME <>s ss_csrf_token session then
    Some ("auth.csrf_rejected", response_json 403 (error_json "CSRF token mismatch"))
  else None.

Definition authenticate (r : Request) (handler : Handler) : HM W Response :=
  act v <- outside (sm_validate (default EmptyString (cookie r SESSION_COOKIE_NAME)));
  match v with
  | Err _ =>
      act _ <- audit_request "auth.unauthorized" r [];
      hm_ret (response_json 401 (error_json "Unauthorized or expired session"))
  | Ok session =>
      let safe := is_safe (rq_method r) in
      act sv <- server;
      match (if safe then None else mutation_rejection (sv_preview_http sv) session r) with
      | Some (event, rejection) =>
          act _ <- audit_request event r [];
          hm_ret rejection
      | None =>
          act response <- handler (with_session r session);
          act _ <- (if safe then hm_ret tt else audit_request "api.mutation" r [("status", show_Z (rs_status response))]);
          hm_ret response
      end
  end.

Definition gate (r : Request) (authenticated : bool) (handler : Handler) : HM W Response :=
  act rejection <- trusted_rejection r;
  act response <- (match rejection with
                   | Some rejection => hm_ret rejection
                   | None => if authenticated then authenticate r handler else handler r
                   end);
  hm_ret (security_headers response).

(** ** Sessions and bodies *)
Definition request_session (r : Request) : HM W (result Session error) :=
  match rq_session r with
  | Some session => hm_ret (Ok session)
  | None => outside (sm_validate (default EmptyString (cookie r SESSION_COOKIE_NAME)))
  end.
Definition expired_cookie : string := cookie_header EmptyString (-1) sm_secure_cookies.
Definition destroy_request_session (r : Request) : HM W (result string error) :=
  match cookie r SESSION_COOKIE_NAME with
  | Some c =>
      if is_empty c then hm_ret (Ok expired_cookie)
      else
        act d <- outside (sm_destroy c);
        hm_ret (let? _ := d in Ok expired_cookie)
  | None => hm_ret (Ok expired_cookie)
  end.

Definition decode_json {T} `{FromJson T} (r : Request) : result T string :=
  let content_type := header_get (rq_headers r) "Content-Type" in
  if negb (is_empty content_type) && negb (match media_type content_type with Some (m, _) => m =s "application/json" | None => false end) then
    Err "content type must be application/json"
  else
    let? body := map_err io_error_string (fst (read_body (limit_body r (2 ^ 20)))) in
    match json_values body with
    | [] => Err "EOF"
    | Err e :: _ => Err e
    | Ok value :: rest =>
        match rest with
        | _ :: _ => Err "request must contain exactly one JSON object"
        | [] =>
            let? (decoded, unknown) := from_json value in
            match unknown with
            | Some field => Err ("json: unknown field " +:+ str_of (quote_char :: bytes_of field ++ [quote_char]))
            | None => Ok decoded
            end
        end
    end.

(** ** Credentials *)
Definition admin_credential_hash : HM W (result string error) :=
  if has_credential_store then
    act state <- outside read_admin_auth_state;
    hm_ret (match state with
            | Ok (hash, _) => Ok hash
            | Err e => if is_sentinel ErrNoRows e then Ok EmptyString else Err e
            end)
  else act sv <- server; hm_ret (Ok (sv_admin_hash sv)).

(** An unreadable store reports "configured" so setup fails closed. *)
Definition administrator_configured : HM W bool :=
  act hash <- admin_credential_hash;
  hm_ret (match hash with Ok hash => negb (is_empty hash) | Err _ => true end).

Definition checked_password (password hash : string) : HM W (result bool error) :=
  act slot <- outside derivation_slot;
  hm_ret (verify_password password hash slot).

(** A busy derivation or an unreadable store is an error, not a wrong password. *)
Definition verify_current_password (password : string) : HM W (result bool error) :=
  act hash <- admin_credential_hash;
  match hash with
  | Err _ => hm_ret (Err ErrAuthenticationStateUnavailable)
  | Ok hash =>
      if is_empty hash then hm_ret (Ok false)
      else
        act v <- checked_password password hash;
        hm_ret (match v with
                | Err e => if is_sentinel ErrBusy e then Err e else Ok false
                | Ok b => Ok b
                end)
  end.

Definition consume_totp (secret code : string) : HM W bool :=
  let key := totp_replay_key secret code in
  act now <- outside clock_now;
  act sv <- server;
  let replay := filter (fun p => time_after now (snd p) = false) (sv_totp_replay sv) in
  match replay !! key with
  | Some _ => act _ <- set_server (fun sv => with_totp_replay sv replay); hm_ret false
  | None => act _ <- set_server (fun sv => with_totp_replay sv (<[key := time_add now (dur_minutes 2)]> replay)); hm_ret true
  end.
(** [auth::validate_totp] reads the clock itself. *)
Definition valid_totp_now (secret code : string) : HM W bool :=
  act now <- outside clock_now;
  hm_ret (validate_totp secret code now).
(** [validate_totp(..) && consume_totp(..)] *)
Definition accept_totp (secret code : string) : HM W bool :=
  act valid <- valid_totp_now secret code;
  if valid then consume_totp secret code else hm_ret false.
End Handlers.
