(* ===== verification/ApiAuth.v ===== *)
(** * Signing in, and the administrator's credentials

    The handlers of [mr-api/src/api/mod.rs] that create and end sessions and
    change the password and the second factor. *)

From Stdlib Require Import ZArith Ascii String Lia Bool.
From stdpp Require Import base list strings gmap.
From S2P Require Import Prelude GoStrings Net NetSpec GoTime Json Model Validation Policy Auth AuthStore Ipc Safety Engine Store Throttle Http Redaction Api.

Local Open Scope string_scope.
Local Open Scope Z_scope.
Local Open Scope list_scope.

(** The bodies of the requests *)
Record LoginRequest := mkLogin { lr_password : string; lr_totp_code : string; lr_read_only : bool }.
Record PasswordChange := mkPasswordChange { pc_old_password : string; pc_new_password : string }.
Record TotpCode := mkTotpCode { tc_code : string; tc_current_password : string }.
Record CurrentPassword := mkCurrentPassword { cp_current_password : string }.
Record EnableCode := mkEnableCode { ec_code : string }.
Record WizardSetupRequest := mkWizard {
  wz_wan_interface : string;
  wz_pppoe_username : string;
  wz_pppoe_password : string;
  wz_admin_password : string;
  wz_lan_interface : string;
  wz_lan_ip_address : string;
}.
Class AuthBodies := {
  login_body :: FromJson LoginRequest;
  password_body :: FromJson PasswordChange;
  code_body :: FromJson TotpCode;
  current_body :: FromJson CurrentPassword;
  enable_body :: FromJson EnableCode;
}.

Definition write_login_rejected : Response :=
  response_json 401 (JObj [("error", JStr "TOTP code required"); ("totp_required", JStr "true")]).
Definition write_session_required : Response := response_json 401 (error_json "Unauthorized or expired session").
Definition write_credential_check_failure (err : option error) : Response :=
  match err with
  | Some e =>
      if is_sentinel ErrBusy e then with_header (response_error "Authentication is busy; retry shortly" 503) "Retry-After" "5"
      else if is_sentinel ErrAuthenticationStateUnavailable e then
        with_header (response_error "Authentication service unavailable" 503) "Retry-After" "5"
      else response_error "Current administrator password is incorrect" 401
  | None => response_error "Current administrator password is incorrect" 401
  end.
Definition success_json : json := JObj [("success", JBool true)].
Definition message_json (message : string) : json := JObj [("message", JStr message); ("success", JBool true)].
Definition TOTP_ISSUER : string := "Minimal Router OS".
Definition build_totp_uri (username secret : string) : string :=
  "otpauth://totp/" +:+ TOTP_ISSUER +:+ ":" +:+ username +:+ "?secret=" +:+ secret +:+ "&issuer=" +:+ TOTP_ISSUER
  +:+ "&algorithm=SHA1&digits=6&period=30".

Section Handlers.
Context {UC : Unicode} {B64 : Base64} {G : Generators} {W : Type} {E : Env W} {AE : ApiEnv W} {TT : TimeText} {AJ : ApiJson}.
Context {A2 : Argon2} {RB : RawBase64} {HS : HmacSha1} {SH : Sha256} {AB : AuthBodies}.
Local Abbreviation Handler := (Handler (W:=W)).

(** ** Login *)
Definition session_response (session : Session) (response : Response) : Response :=
  with_header response "Set-Cookie" (cookie_header (ss_id session) (ABSOLUTE_TIMEOUT / 1000000000) sm_secure_cookies).

Definition login_failed (ip result : string) (response : Response) : HM W Response :=
  act _ <- append_audit "auth.login_failed" ip (details [("result", result)]);
  hm_ret response.
Definition authentication_unavailable : Response := response_json 503 (error_json "Authentication service unavailable").

(** The hash and generation come from one read. *)
Definition login_state : HM W (result (string * Z) error) :=
  if has_credential_store then
    act state <- outside read_admin_auth_state;
    hm_ret (match state with
            | Err e => if is_sentinel ErrNoRows e then Ok (EmptyString, 0) else Err e
            | Ok p => Ok p
            end)
  else act sv <- server; hm_ret (Ok (sv_admin_hash sv, 0)).

(** [None] lets the login go on. *)
Definition login_second_factor (ip : string) (code : string) : HM W (option Response) :=
  if has_credential_store then
    act secret <- outside read_admin_totp_secret;
    match secret with
    | Err _ => act r <- login_failed ip "authentication_store_unavailable" authentication_unavailable; hm_ret (Some r)
    | Ok secret =>
        if is_empty secret then hm_ret None
        else if is_empty code then hm_ret (Some write_login_rejected)
        else
          act accepted <- accept_totp secret code;
          if accepted then hm_ret None
          else act r <- login_failed ip "invalid_totp" write_login_rejected; hm_ret (Some r)
    end
  else hm_ret None.

Definition login_session (ip : string) (read_only : bool) (generation : Z) : HM W Response :=
  act created <- outside (sm_create_with_generation read_only generation);
  match created with
  | Err e =>
      if is_sentinel ErrGenerationChanged e then login_failed ip "credentials_changed" write_login_rejected
      else hm_ret (response_error "Could not create a durable session" 500)
  | Ok session =>
      act _ <- append_audit "auth.login_succeeded" ip (details [("mode", if ss_read_only session then "read_only" else "administrator")]);
      hm_ret (session_response session (response_json 200
        (JObj [("csrf_token", JStr (ss_csrf_token session)); ("read_only", JBool (ss_read_only session)); ("success", JBool true)])))
  end.

Definition login_allowed (ip : string) : HM W bool :=
  act global_ok <- (match global_limiter with Some allow => outside (allow "all-login-sources") | None => hm_ret true end);
  act source_ok <- outside (rate_limiter ip);
  hm_ret (source_ok && global_ok).

Definition handle_login : Handler := fun r =>
  let ip := remote_ip (rq_remote_addr r) in
  act allowed <- login_allowed ip;
  if negb allowed then
    act _ <- append_audit "auth.login_rate_limited" ip (details [("result", "rejected")]);
    hm_ret (response_json 429 (error_json "Too many login attempts. Try again later."))
  else
    match decode_json (T:=LoginRequest) r with
    | Err _ => hm_ret (response_error "Invalid JSON" 400)
    | Ok req =>
        act state <- login_state;
        match state with
        | Err _ => login_failed ip "authentication_store_unavailable" authentication_unavailable
        | Ok (hash, generation) =>
            if is_empty hash then
              hm_ret (response_json 503
                (JObj [("error", JStr "System not configured. Run the setup wizard first."); ("is_configured", JStr "false")]))
            else
              act verified <- checked_password (lr_password req) hash;
              match verified with
              | Ok true =>
                  act refused <- login_second_factor ip (lr_totp_code req);
                  match refused with
                  | Some response => hm_ret response
                  | None => login_session ip (lr_read_only req) generation
                  end
              | Ok false => login_failed ip "invalid_credentials" write_login_rejected
              | Err e =>
                  if is_sentinel ErrBusy e then
                    hm_ret (with_header (response_json 503 (error_json "Authentication is busy. Try again shortly.")) "Retry-After" "5")
                  else login_failed ip "invalid_credentials" write_login_rejected
              end
        end
    end.

(** ** Sessions *)
Definition revocation_unconfirmed : Response :=
  with_header (response_error "Session revocation could not be confirmed; retry" 503) "Retry-After" "1".
Definition handle_logout : Handler := fun r =>
  act d <- destroy_request_session r;
  hm_ret (match d with
          | Ok c => with_header (response_json 200 success_json) "Set-Cookie" c
          | Err _ => revocation_unconfirmed
          end).
Definition handle_get_session : Handler := fun r =>
  act session <- request_session r;
  hm_ret (match session with
          | Ok s =>
              response_json 200 (JObj [("authenticated", JBool true); ("created_at", time_json (ss_created_at s)); ("csrf_token", JStr (ss_csrf_token s));
                ("last_seen", time_json (ss_last_seen s)); ("read_only", JBool (ss_read_only s))])
          | Err _ => write_session_required
          end).

(** Every session is revoked after a credential change, then the caller's. *)
Definition revoke_after_credential_change (r : Request) (body : json) (failure : string) : HM W Response :=
  act all <- outside sm_destroy_all;
  match all with
  | Err _ => hm_ret (response_error failure 500)
  | Ok _ =>
      act d <- destroy_request_session r;
      hm_ret (match d with
              | Ok c => with_header (response_json 200 body) "Set-Cookie" c
              | Err _ => revocation_unconfirmed
              end)
  end.

(** [k] runs when the current password was given. *)
Definition with_password (password : string) (wrong : Response) (k : HM W Response) : HM W Response :=
  act v <- verify_current_password password;
  match v with
  | Ok true => k
  | Ok false => hm_ret wrong
  | Err e => hm_ret (write_credential_check_failure (Some e))
  end.

Definition handle_change_password : Handler := fun r =>
  match decode_json (T:=PasswordChange) r with
  | Err _ => hm_ret (response_error "Invalid JSON" 400)
  | Ok req =>
      with_password (pc_old_password req) (response_json 401 (error_json "Current password is incorrect"))
        (act salt <- outside random_salt;
         act slot <- outside derivation_slot;
         match hash_password (pc_new_password req) salt slot with
         | Err e =>
             hm_ret (if is_sentinel ErrBusy e then with_header (response_error "Authentication is busy; retry shortly" 503) "Retry-After" "5"
                     else response_json 422 (error_json (error_string e)))
         | Ok new_hash =>
             act stored <- (if credential_store then outside (write_admin_hash new_hash) else hm_ret (Ok tt));
             match stored with
             | Err _ => hm_ret (response_error "Failed to persist password" 500)
             | Ok _ =>
                 act _ <- set_server (fun sv => with_admin_hash sv new_hash);
                 revoke_after_credential_change r success_json "Password changed but session revocation failed"
             end
         end)
  end.

(** The enrolment waiting for this session; an expired one is dropped. *)
Definition pending_enrollment (session : Session) : HM W (option (string * Time)) :=
  act sv <- server;
  match sv_pending_totp sv !! ss_id session with
  | None => hm_ret None
  | Some p =>
      act now <- outside clock_now;
      if time_after now (snd p) then
        act _ <- set_server (fun sv => with_pending_totp sv (delete (ss_id session) (sv_pending_totp sv)));
        hm_ret None
      else hm_ret (Some p)
  end.
Definition invalid_code : Response := response_json 401 (error_json "Invalid TOTP code").

Definition handle_totp_enable : Handler := fun r =>
  match decode_json (T:=EnableCode) r with
  | Err _ => hm_ret (response_error "Invalid JSON" 400)
  | Ok req =>
      act session <- request_session r;
      match session with
      | Err _ => hm_ret write_session_required
      | Ok session =>
          act pending <- pending_enrollment session;
          match pending with
          | None => hm_ret invalid_code
          | Some (secret, _) =>
              act accepted <- accept_totp secret (ec_code req);
              if negb accepted then hm_ret invalid_code
              else
                act stored <- (if has_credential_store then outside (write_admin_totp_secret secret) else hm_ret (Err (Errorf EmptyString)));
                match stored with
                | Err _ => hm_ret (response_error "Failed to persist TOTP configuration" 500)
                | Ok _ =>
                    act _ <- set_server (fun sv => with_pending_totp sv (delete (ss_id session) (sv_pending_totp sv)));
                    revoke_after_credential_change r (message_json "TOTP enabled successfully") "TOTP enabled but session revocation failed"
                end
          end
      end
  end.

Definition handle_totp_qr : Handler := fun r =>
  match decode_json (T:=CurrentPassword) r with
  | Err _ => hm_ret (response_error "Invalid JSON" 400)
  | Ok req =>
      with_password (cp_current_password req) (write_credential_check_failure None)
        (if negb has_credential_store then hm_ret (response_error "TOTP store unavailable" 503)
         else
           act current <- outside read_admin_totp_secret;
           match current with
           | Err _ => hm_ret (response_error "Failed to check TOTP status" 500)
           | Ok current =>
               if negb (is_empty current) then hm_ret (response_error "TOTP is already enabled" 409)
               else
                 act secret <- outside random_totp_secret;
                 match secret with
                 | Err _ => hm_ret (response_error "Failed to generate TOTP secret" 500)
                 | Ok secret =>
                     act session <- request_session r;
                     match session with
                     | Err _ => hm_ret write_session_required
                     | Ok session =>
                         act now <- outside clock_now;
                         act _ <- set_server (fun sv =>
                           with_pending_totp sv (<[ss_id session := (secret, time_add now (dur_minutes 10))]> (sv_pending_totp sv)));
                         hm_ret (response_json 200
                           (JObj [("enabled", JBool false); ("qr_uri", JStr (build_totp_uri "admin" secret)); ("secret", JStr secret)]))
                     end
                 end
           end)
  end.

(** [auth::verify_totp] *)
Definition verify_totp (code : string) : HM W (result bool error) :=
  act secret <- outside read_admin_totp_secret;
  match secret with
  | Err e => hm_ret (Err e)
  | Ok secret =>
      if is_empty secret then hm_ret (Err ErrTOTPNotConfigured)
      else act v <- valid_totp_now secret code; hm_ret (Ok v)
  end.
Definition handle_totp_disable : Handler := fun r =>
  match decode_json (T:=TotpCode) r with
  | Err _ => hm_ret (response_error "Invalid JSON" 400)
  | Ok req =>
      with_password (tc_current_password req) (write_credential_check_failure None)
        (if negb has_credential_store then hm_ret invalid_code
         else
           act valid <- verify_totp (tc_code req);
           act secret <- outside read_admin_totp_secret;
           act accepted <- (match valid, secret with
                            | Ok true, Ok secret => consume_totp secret (tc_code req)
                            | _, _ => hm_ret false
                            end);
           if negb (accepted : bool) then hm_ret invalid_code
           else
             act cleared <- outside drop_admin_totp_secret;
             match cleared with
             | Err _ => hm_ret (response_error "Failed to disable TOTP" 500)
             | Ok _ =>
                 revoke_after_credential_change r (message_json "TOTP disabled successfully") "TOTP disabled but session revocation failed"
             end)
  end.
End Handlers.
