(* ===== verification/ApiConfig.v ===== *)
(** * Configuration transactions over the API

    The handlers of [mr-api/src/api/mod.rs] that read, change and confirm the
    configuration, the first-run setup of [setup.rs] (the only public handler
    that changes the router), and the interface lists of [gateway.rs]. *)

From Stdlib Require Import ZArith Ascii String Lia Bool.
From stdpp Require Import base list strings gmap.
From S2P Require Import Prelude GoStrings Net NetSpec GoTime Json Model Validation Policy Auth AuthStore Ipc Safety Engine Store Throttle Http Redaction Api ApiAuth.

Local Open Scope string_scope.
Local Open Scope Z_scope.
Local Open Scope list_scope.

(** [Time::now().unix_nano()] *)
Definition transaction_id (prefix : string) (now : Time) : string := prefix +:+ show_Z (unix_nano now).

(** Deserialisers and serialisers of the handlers below *)
Class ConfigBodies := {
  config_body :: FromJson SystemConfig;
  wizard_body :: FromJson WizardSetupRequest;
  state_json : State -> json;
  status_json : EngineStatus -> json;
}.

(** [None] and [null] *)
Definition option_json {A} (f : A -> json) (o : option A) : json := match o with Some a => f a | None => JNull end.

Section Handlers.
Context {UC : Unicode} {B64 : Base64} {G : Generators} {W : Type} {E : Env W} {AE : ApiEnv W} {TT : TimeText} {AJ : ApiJson}.
Context {A2 : Argon2} {RB : RawBase64} {HS : HmacSha1} {SH : Sha256} {CB : ConfigBodies}.
Local Abbreviation Handler := (Handler (W:=W)).

Definition audit_config_request (r : Request) (tx : option Transaction) : HM W unit :=
  match tx with
  | Some tx =>
      append_audit "config.request" (audit_actor (rq_remote_addr r))
        (details [("transaction_id", tx_id tx); ("candidate_revision", show_Z (c_revision (tx_config tx)));
                  ("method", rq_method r); ("path", rq_path r)])
  | None => hm_ret tt
  end.

(** ** Reading and changing the configuration *)
Definition handle_get_config : Handler := fun r =>
  act cfg <- get_current_config;
  hm_ret (response_json 200 (config_json (redact_config cfg))).

Definition lockout_message (candidate : SystemConfig) : string :=
  match wireguard_management_trust_err candidate with
  | Err m => m
  | Ok _ => "This change would remove your own source address from trusted_networks and lock you out"
  end.

Definition handle_update_config : Handler := fun r =>
  match decode_json (T:=SystemConfig) r with
  | Err e => hm_ret (response_error ("Invalid JSON body: " +:+ e) 400)
  | Ok submitted =>
      act current <- get_current_config;
      let candidate := restore_redacted_config submitted current in
      if negb (is_ok (management_continuity_err candidate (rq_remote_addr r))) then
        act _ <- append_audit "config.lockout_prevented" (audit_actor (rq_remote_addr r)) (details [("path", rq_path r)]);
        hm_ret (response_json 403 (error_json (lockout_message candidate)))
      else
        act now <- outside clock_now;
        act (tx, result) <- engine (process_transaction (transaction_id "tx-" now) candidate);
        act _ <- audit_config_request r (Some tx);
        hm_ret (match result with
                | Err e => response_json 422 (JObj [("error", JStr (error_string e)); ("tx", transaction_json (redact_transaction (Some tx)))])
                | Ok _ =>
                    response_json (if bool_decide (tx_state tx = AwaitingConfirmation) then 202 else 200)
                      (transaction_json (redact_transaction (Some tx)))
                end)
  end.

(** ** Confirming a change from the new management path *)

(** [None] lets the confirmation go on. *)
Definition confirmation_refused (r : Request) (pending current : SystemConfig) : option Response :=
  if sys_management_access (c_system pending) =s "wireguard_only" then
    match parse_ip (remote_ip (rq_remote_addr r)), parse_cidr (wg_address (c_wireguard pending)) with
    | Some ip, Some (_, n) =>
        if net_contains n ip then None else Some (response_error "WireGuard connectivity must be used to confirm this change" 403)
    | _, _ => Some (response_error "WireGuard connectivity must be used to confirm this change" 403)
    end
  else if negb (is_empty (lan_ip_address (c_lan pending))) && (lan_ip_address (c_lan pending) <>s lan_ip_address (c_lan current))
          && negb (confirm_via_candidate_lan (rq_local_addr r) (lan_ip_address (c_lan pending)))
  then Some (response_error "Reach the router at the new LAN address to confirm this change" 403)
  else None.

Definition handle_confirm_transaction : Handler := fun r =>
  let id := path_value r "id" in
  act pending <- engine get_pending_transaction;
  match pending with
  | Some tx =>
      if tx_id tx <>s id then hm_ret (response_error "Transaction confirmation failed" 409)
      else
        act current <- get_current_config;
        match confirmation_refused r (tx_config tx) current with
        | Some response => hm_ret response
        | None =>
            act (tx, result) <- engine (confirm_transaction id);
            act _ <- audit_config_request r tx;
            hm_ret (match result with
                    | Err e => response_json 409 (error_json ("Transaction confirmation failed: " +:+ error_string e))
                    | Ok _ => response_json 200 (transaction_json (redact_transaction tx))
                    end)
        end
  | None => hm_ret (response_error "Transaction confirmation failed" 409)
  end.

Definition handle_get_pending_transaction : Handler := fun r =>
  act pending <- engine get_pending_transaction;
  hm_ret (match pending with
          | None => response_json 200 (JObj [("pending", JBool false)])
          | Some tx =>
              response_json 200
                (JObj [("confirmation_deadline", option_json time_json (tx_confirmation_deadline tx)); ("id", JStr (tx_id tx));
                       ("management_access", JStr (sys_management_access (c_system (tx_config tx))));
                       ("management_url", JStr (management_url (tx_config tx))); ("pending", JBool true);
                       ("state", state_json (tx_state tx))])
          end).

Definition RECONCILE_BUDGET : Z := dur_secs (120 * 2 + 30).
Definition handle_recovery_reconcile : Handler := fun r =>
  act now <- outside instant_now;
  act result <- engine (reconcile (now + RECONCILE_BUDGET));
  act status <- engine get_status;
  hm_ret (match result with
          | Ok _ => response_json 200 (JObj [("status", status_json status); ("success", JBool true)])
          | Err e => response_json 503 (JObj [("error", JStr (error_string e)); ("status", status_json status)])
          end).

(** ** First-run setup *)
Definition handle_setup_status : Handler := fun r =>
  act configured <- administrator_configured;
  if configured : bool then hm_ret (write_json 200 (JObj [("is_configured", JBool true)]))
  else
    act cfg <- get_current_config;
    act status <- engine get_status;
    hm_ret (write_json 200
      (JObj [("is_configured", JBool false); ("lan_interface", JStr (lan_interface (c_lan cfg))); ("lan_ip", JStr (lan_ip_address (c_lan cfg)));
             ("recovery_reason", JStr (es_recovery_reason status)); ("recovery_required", JBool (es_recovery_required status));
             ("wan_interface", JStr (wan_interface (c_wan cfg)))])).

(** [network::discover] reads the kernel's interfaces. *)
Definition handle_discover_setup_interfaces : Handler := fun r =>
  act configured <- administrator_configured;
  if configured : bool then hm_ret (response_error "404 page not found" 404)
  else
    act found <- outside discover_interfaces;
    hm_ret (match found with Ok result => write_json 200 result | Err e => write_json 503 (error_json e) end).
Definition handle_discover_interfaces : Handler := fun r =>
  act found <- outside discover_interfaces;
  hm_ret (match found with Ok result => write_json 200 result | Err e => response_json 503 (error_json e) end).

(** The configuration the wizard asks for; [None] when it moves the LAN *)
Definition wizard_config (req : WizardSetupRequest) (revision : Z) (now : Time) : option SystemConfig :=
  let d := default_config now in
  let wan := c_wan d in
  let lan := c_lan d in
  let cf := c_cloudflare d in
  let wifi := c_wifi d in
  let wan := mkWANSettings (if is_empty (wz_wan_interface req) then wan_interface wan else wz_wan_interface req)
               (negb (is_empty (wz_pppoe_username req)) || negb (is_empty (wz_pppoe_password req)))
               (wz_pppoe_username req) (wz_pppoe_password req) (wan_mtu wan) in
  let iface := if is_empty (wz_lan_interface req) then lan_interface lan else wz_lan_interface req in
  let with_lan lan :=
    mkSystemConfig revision (c_updated_at d) (c_system d) wan lan (c_dhcp d) (c_dns d) (c_firewall d) (c_wireguard d) (c_wg_client d)
      (mkCloudflareConfig false (cf_ddns_provider cf) (cf_ddns_user cf) (cf_api_token cf) (cf_zone_id cf) (cf_zone_name cf) (cf_domain cf)
         false (cf_tunnel_hostname cf) (cf_tunnel_token cf))
      (c_squid_proxy d) (c_adguard d) (c_qos d)
      (mkWiFiConfig false (wifi_interface wifi) (wifi_ssid wifi) (wifi_passphrase wifi) (wifi_band wifi) (wifi_channel wifi) (wifi_hide_ssid wifi))
      (c_accounting d) (c_trusted_networks d) in
  if is_empty (wz_lan_ip_address req) then Some (with_lan (mkLANSettings iface (lan_ip_address lan) (lan_netmask lan) (lan_cidr lan)))
  else if wz_lan_ip_address req <>s lan_ip_address lan then None
  else Some (with_lan (mkLANSettings iface (wz_lan_ip_address req) (lan_netmask lan) (wz_lan_ip_address req +:+ "/24"))).

(** The guards before a body is read: [None] when this is the first run. *)
Definition setup_refused (r : Request) : HM W (option Response) :=
  act allowed <- outside (rate_limiter (remote_ip (rq_remote_addr r)));
  if negb allowed then hm_ret (Some (response_json 429 (error_json "Too many setup attempts. Please wait.")))
  else
    act hash <- admin_credential_hash;
    match hash with
    | Err _ => hm_ret (Some (response_json 503 (error_json "Administrator state is unavailable.")))
    | Ok hash =>
        if negb (is_empty hash) then
          hm_ret (Some (response_json 403 (error_json "System is already configured. Use the dashboard to change settings.")))
        else
          act status <- engine get_status;
          hm_ret (if es_recovery_required status then
                    Some (response_json 503 (JObj [("error", JStr "Initial setup is blocked until local recovery succeeds.");
                                                   ("reason", JStr (es_recovery_reason status))]))
                  else None)
    end.

Definition setup_completed (r : Request) (cfg : SystemConfig) (tx : Transaction) (hashed : string) : HM W Response :=
  act _ <- set_server (fun sv => with_admin_hash sv hashed);
  act _ <- append_audit "system.setup_completed" (audit_actor (rq_remote_addr r))
    (details [("wan_interface", wan_interface (c_wan cfg)); ("lan_interface", lan_interface (c_lan cfg))]);
  let redirect := "https://" +:+ join_host_port (lan_ip_address (c_lan cfg)) (show_Z (sys_https_port (c_system cfg))) in
  let tx := transaction_json (redact_transaction (Some tx)) in
  act session <- outside (sm_create_with_mode false);
  match session with
  | None =>
      act _ <- append_audit "system.setup_session_failed" (audit_actor (rq_remote_addr r)) (details [("result", "setup_committed_login_required")]);
      hm_ret (write_json 200 (JObj [("redirect_url", JStr redirect); ("requires_login", JBool true); ("success", JBool true); ("tx", tx)]))
  | Some session =>
      hm_ret (session_response session
        (write_json 200 (JObj [("csrf_token", JStr (ss_csrf_token session)); ("redirect_url", JStr redirect); ("success", JBool true); ("tx", tx)])))
  end.

Definition handle_setup_apply : Handler := fun r =>
  act refused <- setup_refused r;
  match refused with
  | Some response => hm_ret response
  | None =>
      match decode_json (T:=WizardSetupRequest) r with
      | Err _ => hm_ret (response_error "Invalid JSON payload" 400)
      | Ok req =>
          if Z.of_nat (List.length (chars (wz_admin_password req))) <? 12 then
            hm_ret (response_error "Administrator password must be at least 12 characters long" 422)
          else if negb (Bool.eqb (is_empty (wz_pppoe_username req)) (is_empty (wz_pppoe_password req))) then
            hm_ret (response_error "Provide both PPPoE username and password, or leave both empty" 422)
          else
            act salt <- outside random_salt;
            act slot <- outside derivation_slot;
            match hash_password (wz_admin_password req) salt slot with
            | Err e => hm_ret (response_error ("Failed to hash password: " +:+ error_string e) 500)
            | Ok hashed =>
                act now <- outside clock_now;
                act current <- get_current_config;
                match wizard_config req (c_revision current) now with
                | None =>
                    hm_ret (response_error "Complete first-run setup on the default LAN address; change the LAN address afterward using commit-confirmed configuration" 422)
                | Some cfg =>
                    if negb has_store then hm_ret (response_error "Initial setup store unavailable" 503)
                    else
                      act now <- outside clock_now;
                      act (tx, result) <- engine (process_initial_setup (transaction_id "wizard-setup-" now) cfg
                                                    (fun applied w => store_commit_setup applied hashed w));
                      act _ <- audit_config_request r (Some tx);
                      match result with
                      | Err e =>
                          hm_ret (response_json (if bool_decide (tx_state tx = RecoveryRequired) then 503 else 422)
                            (JObj [("error", JStr ("Wizard apply failed: " +:+ error_string e)); ("tx", transaction_json (redact_transaction (Some tx)))]))
                      | Ok _ => setup_completed r cfg tx hashed
                      end
                end
            end
      end
  end.
End Handlers.
