(* ===== verification/Provision.v ===== *)
(** * Provisioning WireGuard peers

    [mr-api/src/api/wireguard.rs]: the address and the endpoint the next peer
    gets, its keys, and the handlers that add, reissue and delete peers.  The
    private half of a client's key is only in the answer. *)

From Stdlib Require Import ZArith Ascii String Lia Bool.
From stdpp Require Import base list strings gmap.
From S2P Require Import Prelude GoStrings Net NetSpec GoTime Json Model Validation Policy Auth AuthStore Ipc Safety Engine Store Throttle Http Wireguard Redaction Api ApiAuth ApiConfig.

Local Open Scope string_scope.
Local Open Scope Z_scope.
Local Open Scope list_scope.

Definition ENDPOINT_HOST (s : string) : bool := edge_pattern is_ascii_alphanumeric (alnum_or ["."%char; "-"%char]) 251 (bytes_of s).

Definition validate_wireguard_endpoint (value : string) : result unit string :=
  if is_empty value || (255 <? str_len value) || existsb (fun c => contains_char (byte_of c) value) [13; 10; 9; 0] then
    Err "server_endpoint must be a host and UDP port"
  else
    match split_host_port value with
    | Ok (host, port) =>
        if is_empty host then Err "server_endpoint must use host:port format"
        else
          let? _ :=
            match parse_ip host with
            | Some ip => if is_none (to4 ip) then Err "IPv6 endpoints are unavailable while IPv6 is disabled" else Ok tt
            | None => if negb (ENDPOINT_HOST host) || contains_str ".." host then Err "server_endpoint contains an invalid hostname" else Ok tt
            end in
          match go_atoi port with
          | Some p => if (1024 <=? p) && (p <=? 65535) then Ok tt else Err "server_endpoint port must be between 1024 and 65535"
          | None => Err "server_endpoint port must be between 1024 and 65535"
          end
    | Err _ => Err "server_endpoint must use host:port format"
    end.

Definition domain_endpoint (c : SystemConfig) : string :=
  let domain := trim (cf_domain (c_cloudflare c)) in
  if is_empty domain then EmptyString else join_host_port domain (show_Z (wg_listen_port (c_wireguard c))).
Definition resolve_wireguard_server_endpoint (candidate : SystemConfig) (requested : string) : result string string :=
  let endpoint := trim requested in
  let endpoint := if is_empty endpoint then domain_endpoint candidate else endpoint in
  if is_empty endpoint then Err "configure Dynamic DNS or provide a server_endpoint"
  else let? _ := validate_wireguard_endpoint endpoint in Ok endpoint.

(** ** The next free address *)
Definition ipv4_u32 (ip : IP) : option Z := from_be4 <$> to4 ip.
Definition u32_ipv4 (value : Z) : string := str_of (show_ipv4 (to_be4 value)).

(** Addresses the peers keep, disabled ones too *)
Definition used_address (allowed : string) : option Z :=
  match parse_cidr (trim allowed) with
  | Some (ip, n) => if bool_decide (mask_size (net_mask n) = (32, 32)%nat) && negb (is_none (to4 ip)) then ipv4_u32 ip else None
  | None => None
  end.
Definition used_addresses (peers : list WireGuardPeer) : gset Z :=
  list_to_set (omap used_address (flat_map (fun p => items (peer_allowed_ips p)) peers)).

(** [(start..).take(count).find(..)] *)
Fixpoint find_free (taken : Z -> bool) (start : Z) (count : nat) : option Z :=
  match count with
  | O => None
  | S count => if taken start then find_free taken (start + 1) count else Some start
  end.
(** [(start..=end).find(..)] *)
Definition find_in (taken : Z -> bool) (start stop : Z) : option Z := find_free taken start (Z.to_nat (stop - start + 1)).

Definition exhausted (subnet : string) : result string string := Err ("no free address available in WireGuard subnet " +:+ subnet).
Definition wrong_subnet : result string string := Err "WireGuard subnet is not a valid IPv4 network for the server address".

(** Host numbers from [first] to [last], those after the server first *)
Definition choose_host (taken : Z -> bool) (first last server_value : Z) : option Z :=
  match (if server_value <? last then find_in taken (server_value + 1) last else None) with
  | Some found => Some found
  | None => if first <? server_value then find_in taken first (server_value - 1) else None
  end.

Definition next_free_wireguard_ip (server_ip : IP) (subnet : string) (peers : list WireGuardPeer) : result string string :=
  match parse_cidr subnet with
  | None => Err ("invalid WireGuard subnet " +:+ subnet)
  | Some (_, network) =>
      match ipv4_u32 (net_ip network), ipv4_u32 server_ip with
      | Some net_value, Some server_value =>
          if negb (net_contains network server_ip) then wrong_subnet
          else
            let '(ones, bits) := mask_size (net_mask network) in
            if negb (Nat.eqb bits 32) || Nat.ltb 30 ones then exhausted subnet
            else
              let broadcast := Z.lor net_value (2 ^ (32 - Z.of_nat ones) - 1) in
              let used := used_addresses peers in
              let taken c := (c =? server_value) || bool_decide (c ∈ used) in
              match choose_host taken (net_value + 1) (broadcast - 1) server_value with
              | Some found => Ok (u32_ipv4 found)
              | None => exhausted subnet
              end
      | _, _ => wrong_subnet
      end
  end.

(** ** One peer by its identifier

    Acting on the first of several would change another device. *)
Fixpoint find_peers (id : string) (i : nat) (peers : list WireGuardPeer) : list nat :=
  match peers with
  | [] => []
  | p :: rest => if is_empty id || (peer_id p <>s id) then find_peers id (S i) rest else i :: find_peers id (S i) rest
  end.
Definition find_wireguard_peer (peers : list WireGuardPeer) (id : string) : result nat Response :=
  match find_peers id 0 peers with
  | [] => Err (response_error "WireGuard peer not found" 404)
  | [i] => Ok i
  | _ => Err (response_error "Several WireGuard peers share this identifier; correct the configuration before changing them" 409)
  end.

(** ** Changed configurations *)
Definition with_wireguard (c : SystemConfig) (w : WireGuardConfig) : SystemConfig :=
  mkSystemConfig (c_revision c) (c_updated_at c) (c_system c) (c_wan c) (c_lan c) (c_dhcp c) (c_dns c) (c_firewall c) w (c_wg_client c)
    (c_cloudflare c) (c_squid_proxy c) (c_adguard c) (c_qos c) (c_wifi c) (c_accounting c) (c_trusted_networks c).
Definition with_wg_peers (w : WireGuardConfig) (peers : GoList WireGuardPeer) : WireGuardConfig :=
  mkWireGuardConfig (wg_enabled w) (wg_interface w) (wg_private_key w) (wg_listen_port w) (wg_address w) peers.
Definition with_peer_keys (p : WireGuardPeer) (public psk : string) : WireGuardPeer :=
  mkWireGuardPeer (peer_id p) (peer_name p) public psk (peer_allowed_ips p) (peer_endpoint p) (peer_enabled p).
Definition set_peer (peers : GoList WireGuardPeer) (index : nat) (p : WireGuardPeer) : GoList WireGuardPeer :=
  mkList (<[index := p]> (items peers)) (nil_flag peers).
Definition remove_peer (peers : GoList WireGuardPeer) (index : nat) : GoList WireGuardPeer := mkList (delete index (items peers)) (nil_flag peers).

(** ** The handlers *)
Record ProvisionRequest := mkProvisionRequest { pv_name : string; pv_client_ip_address : string; pv_server_endpoint : string }.
Record ReissueRequest := mkReissueRequest { ri_server_endpoint : string }.
Class PeerBodies := {
  provision_body :: FromJson ProvisionRequest;
  reissue_body :: FromJson ReissueRequest;
  (** [URL_SAFE_NO_PAD] *)
  url_safe_encode : list Z -> string;
}.
(** [goish::rand] *)
Class Randomness (W : Type) := { random_bytes : nat -> W -> result (list Z) string * W }.

Section Handlers.
Context {UC : Unicode} {B64 : Base64} {G : Generators} {W : Type} {E : Env W} {AE : ApiEnv W} {TT : TimeText} {AJ : ApiJson}.
Context {A2 : Argon2} {RB : RawBase64} {HS : HmacSha1} {SH : Sha256} {WC : WireGuardCrates} {PB : PeerBodies} {RW : Randomness W}.
Local Abbreviation Handler := (Handler (W:=W)).

Definition client_bundle (candidate : SystemConfig) (client_private client_cidr server_public endpoint psk : string) : result ClientConfigBundle error :=
  generate_client_config client_private client_cidr server_public endpoint psk (join ", " (items (dhcp_dns_servers (c_dhcp candidate))))
    [wg_address (c_wireguard candidate); lan_cidr (c_lan candidate)].

Definition apply_peer_change (r : Request) (prefix : string) (candidate : SystemConfig) (body : Transaction -> json) : HM W Response :=
  act now <- outside clock_now;
  act (tx, result) <- engine (process_transaction (prefix +:+ "-" +:+ show_Z (unix_nano now)) candidate);
  act _ <- audit_config_request r (Some tx);
  hm_ret (match result with
          | Err e => response_json 422 (JObj [("error", JStr (error_string e)); ("tx", transaction_json (redact_transaction (Some tx)))])
          | Ok _ => write_json (if bool_decide (tx_state tx = AwaitingConfirmation) then 202 else 200) (body tx)
          end).

Definition fresh_keypair : HM W (result (string * string) error) := act drawn <- outside (random_bytes 32); hm_ret (generate_wireguard_keypair drawn).
Definition fresh_psk : HM W (result string error) := act drawn <- outside (random_bytes 32); hm_ret (generate_wireguard_preshared_key drawn).

Definition bundle_json (peer_fields : list (string * json)) (bundle : ClientConfigBundle) (tx : Transaction) : json :=
  JObj [("client_config", JStr (config_text bundle)); ("peer", JObj peer_fields); ("qr_code_data", JStr (qr_code_data bundle));
        ("tx", transaction_json (redact_transaction (Some tx)))].

(** The keys of a new peer and of the server, drawn in the order of the code:
    the client's pair, the secret, the server's private key, the identifier *)
Record PeerMaterial := mkPeerMaterial { pm_private : string; pm_public : string; pm_psk : string; pm_server_private : string; pm_server_public : string }.
Definition stored_public (server_private : string) : result string Response :=
  map_err (fun _ => response_error "Stored WireGuard server key is invalid" 500) (wireguard_public_key server_private).
Definition server_private_key (stored : string) : HM W (result string Response) :=
  if is_empty stored then
    act drawn <- fresh_keypair;
    hm_ret (match drawn with Ok (server_private, _) => Ok server_private | Err _ => Err (response_error "Could not generate WireGuard server key" 500) end)
  else hm_ret (Ok stored).
Definition client_keys : HM W (result (string * string * string) Response) :=
  act drawn <- fresh_keypair;
  match drawn with
  | Err _ => hm_ret (Err (response_error "Could not generate WireGuard client key" 500))
  | Ok (client_private, client_public) =>
      act psk <- fresh_psk;
      hm_ret (match psk with
              | Err _ => Err (response_error "Could not generate WireGuard preshared key" 500)
              | Ok psk => Ok (client_private, client_public, psk)
              end)
  end.
Definition peer_material (stored : string) : HM W (result PeerMaterial Response) :=
  act keys <- client_keys;
  match keys with
  | Err response => hm_ret (Err response)
  | Ok (client_private, client_public, psk) =>
      act server_private <- server_private_key stored;
      hm_ret (let? server_private := server_private in
              let? server_public := stored_public server_private in
              Ok (mkPeerMaterial client_private client_public psk server_private server_public))
  end.

(** The address asked for, or the next free one *)
Definition requested_address (candidate : SystemConfig) (server_ip : IP) (asked : string) : result string Response :=
  let asked := trim (trim_suffix "/32" asked) in
  if is_empty asked then
    map_err (fun e => response_error e 409)
      (next_free_wireguard_ip server_ip (wg_address (c_wireguard candidate)) (items (wg_peers (c_wireguard candidate))))
  else Ok asked.
Definition resolved_endpoint (candidate : SystemConfig) (asked : string) : result string Response :=
  map_err (fun e => response_error e 422) (resolve_wireguard_server_endpoint candidate asked).
Definition client_address_free (network : IPNet) (server_ip : IP) (address : string) : result IP Response :=
  match parse_ip address with
  | Some ip =>
      if negb (is_none (to4 ip)) && net_contains network ip && negb (bool_decide (ip = server_ip)) && negb (bool_decide (to4 ip = to4 server_ip))
      then Ok ip else Err (response_error "client_ip_address must be a unique IPv4 address inside the WireGuard subnet" 422)
  | None => Err (response_error "client_ip_address must be a unique IPv4 address inside the WireGuard subnet" 422)
  end.

(** What is decided before any key is drawn: the client's CIDR and the endpoint *)
Definition provision_plan (candidate : SystemConfig) (req : ProvisionRequest) : result (string * string * string) Response :=
  let name := trim (pv_name req) in
  if is_empty name then Err (response_error "name is required" 422)
  else if negb (wan_enabled (c_wan candidate)) then Err (response_error "Configure and verify the WAN connection before enabling WireGuard" 409)
  else
    match parse_cidr (wg_address (c_wireguard candidate)) with
    | None => Err (response_error "WireGuard subnet is invalid" 422)
    | Some (server_ip, network) =>
        let? address := requested_address candidate server_ip (pv_client_ip_address req) in
        let? endpoint := resolved_endpoint candidate (pv_server_endpoint req) in
        let? client_ip := client_address_free network server_ip address in
        let client_cidr := ip_to_string client_ip +:+ "/32" in
        if existsb (fun p => existsb (fun a => a =s client_cidr) (items (peer_allowed_ips p))) (items (wg_peers (c_wireguard candidate)))
        then Err (response_error "client_ip_address is already reserved by another WireGuard peer" 409)
        else Ok (name, client_cidr, endpoint)
    end.

Definition new_peer (id name client_cidr : string) (m : PeerMaterial) : WireGuardPeer :=
  mkWireGuardPeer id name (pm_public m) (pm_psk m) (list_from [client_cidr]) EmptyString true.
Definition with_new_peer (c : SystemConfig) (m : PeerMaterial) (peer : WireGuardPeer) : SystemConfig :=
  let w := c_wireguard c in
  with_wireguard c (mkWireGuardConfig true (wg_interface w) (pm_server_private m) (wg_listen_port w) (wg_address w) (list_push (wg_peers w) peer)).

Definition handle_provision_wireguard_peer : Handler := fun r =>
  match decode_json (T:=ProvisionRequest) r with
  | Err _ => hm_ret (response_error "Invalid JSON payload" 400)
  | Ok req =>
      act current <- get_current_config;
      match provision_plan current req with
      | Err response => hm_ret response
      | Ok (name, client_cidr, endpoint) =>
          act material <- peer_material (wg_private_key (c_wireguard current));
          match material with
          | Err response => hm_ret response
          | Ok m =>
              act id_bytes <- outside (random_bytes 18);
              match id_bytes with
              | Err _ => hm_ret (response_error "Could not generate peer identifier" 500)
              | Ok id_bytes =>
                  let id := "wg-" +:+ url_safe_encode id_bytes in
                  let candidate := with_new_peer current m (new_peer id name client_cidr m) in
                  match validate candidate with
                  | Err errs => hm_ret (response_error (VEs_to_string errs) 422)
                  | Ok _ =>
                      match client_bundle candidate (pm_private m) client_cidr (pm_server_public m) endpoint (pm_psk m) with
                      | Err _ => hm_ret (response_error "Could not generate WireGuard client configuration" 500)
                      | Ok bundle =>
                          apply_peer_change r "wireguard-peer" candidate
                            (bundle_json [("client_ip", JStr client_cidr); ("id", JStr id); ("name", JStr name); ("public_key", JStr (pm_public m))] bundle)
                      end
                  end
              end
          end
      end
  end.

(** ** Reissuing *)
Definition reissue_plan (candidate : SystemConfig) (peer : WireGuardPeer) (asked : string) : result (string * string) Response :=
  match parse_cidr (wg_address (c_wireguard candidate)) with
  | None => Err (response_error "WireGuard subnet is invalid" 422)
  | Some (server_ip, network) =>
      match items (peer_allowed_ips peer) with
      | [allowed] =>
          match parse_cidr (trim allowed) with
          | Some (ip, n) =>
              if negb (is_none (to4 ip)) && bool_decide (mask_size (net_mask n) = (32, 32)%nat) && net_contains network ip && negb (bool_decide (to4 ip = to4 server_ip))
              then let? endpoint := resolved_endpoint candidate asked in Ok (ip_to_string ip +:+ "/32", endpoint)
              else Err (response_error "WireGuard peer client address is invalid" 422)
          | None => Err (response_error "WireGuard peer client address is invalid" 422)
          end
      | _ => Err (response_error "WireGuard peer must have exactly one client IPv4 address" 422)
      end
  end.

Definition handle_reissue_wireguard_peer_configuration : Handler := fun r =>
  match decode_json (T:=ReissueRequest) r with
  | Err _ => hm_ret (response_error "Invalid JSON payload" 400)
  | Ok req =>
      act current <- get_current_config;
      let w := c_wireguard current in
      match find_wireguard_peer (items (wg_peers w)) (path_value r "id") with
      | Err response => hm_ret response
      | Ok index =>
          let peer := nth index (items (wg_peers w)) WireGuardPeer_default in
          match reissue_plan current peer (ri_server_endpoint req) with
          | Err response => hm_ret response
          | Ok (client_cidr, endpoint) =>
              act keys <- client_keys;
              match (let? (client_private, client_public, psk) := keys in
                     let? server_public := stored_public (wg_private_key w) in
                     Ok (client_private, client_public, psk, server_public)) with
              | Err response => hm_ret response
              | Ok (client_private, client_public, psk, server_public) =>
                  let candidate := with_wireguard current (with_wg_peers w (set_peer (wg_peers w) index (with_peer_keys peer client_public psk))) in
                  match validate candidate with
                  | Err errs => hm_ret (response_error (VEs_to_string errs) 422)
                  | Ok _ =>
                      match client_bundle candidate client_private client_cidr server_public endpoint psk with
                      | Err _ => hm_ret (response_error "Could not generate WireGuard client configuration" 500)
                      | Ok bundle =>
                          apply_peer_change r "wireguard-peer-reissue" candidate
                            (bundle_json [("client_ip", JStr client_cidr); ("id", JStr (peer_id peer)); ("name", JStr (peer_name peer)); ("public_key", JStr client_public)] bundle)
                      end
                  end
              end
          end
      end
  end.

(** ** Deleting, keys and the preview *)
Definition handle_delete_wireguard_peer : Handler := fun r =>
  act current <- get_current_config;
  let w := c_wireguard current in
  match find_wireguard_peer (items (wg_peers w)) (path_value r "id") with
  | Err response => hm_ret response
  | Ok index =>
      let removed := nth index (items (wg_peers w)) WireGuardPeer_default in
      let candidate := with_wireguard current (with_wg_peers w (remove_peer (wg_peers w) index)) in
      match validate candidate with
      | Err errs => hm_ret (response_json 422 (error_json (VEs_to_string errs)))
      | Ok _ =>
          apply_peer_change r "wireguard-peer-delete" candidate
            (fun tx => JObj [("peer", JObj [("id", JStr (peer_id removed)); ("name", JStr (peer_name removed))]); ("tx", transaction_json (redact_transaction (Some tx)))])
      end
  end.

Definition handle_wireguard_client_keys : Handler := fun r =>
  act drawn <- fresh_keypair;
  hm_ret (match drawn with
          | Ok (private_key, public_key) => write_json 200 (JObj [("private_key", JStr private_key); ("public_key", JStr public_key)])
          | Err _ => response_error "could not generate key pair" 500
          end).

Definition provisioning_preview (candidate : SystemConfig) : Z * json :=
  let endpoint := domain_endpoint candidate in
  let preview client_ip error :=
    JObj ([("client_ip", JStr client_ip); ("ddns_configured", JBool (negb (is_empty endpoint)))]
          ++ (match error with Some e => [("error", JStr e)] | None => [] end)
          ++ [("server_endpoint", JStr endpoint); ("server_key_configured", JBool (negb (is_empty (wg_private_key (c_wireguard candidate)))));
              ("wireguard_enabled", JBool (wg_enabled (c_wireguard candidate)))]) in
  match parse_cidr (wg_address (c_wireguard candidate)) with
  | None => (422, preview EmptyString (Some "WireGuard subnet is invalid"))
  | Some (server_ip, _) =>
      match next_free_wireguard_ip server_ip (wg_address (c_wireguard candidate)) (items (wg_peers (c_wireguard candidate))) with
      | Ok ip => (200, preview ip None)
      | Err e => (409, preview EmptyString (Some e))
      end
  end.
Definition handle_wireguard_provisioning_preview : Handler := fun r =>
  act candidate <- get_current_config;
  let '(status, preview) := provisioning_preview candidate in
  hm_ret (write_json status preview).
End Handlers.
