(* ===== verification/ApiRoutes.v ===== *)
(** * The endpoints of the API

    [mr-api/src/api/routes.rs]: which handler serves which pattern, and which
    are public.  [serve] is a request on its way through the router and the
    gate to its handler; the handlers this library does not model are a
    parameter, told by name. *)

From Stdlib Require Import ZArith Ascii String Lia Bool.
From stdpp Require Import base list strings gmap.
From S2P Require Import Prelude GoStrings Net NetSpec GoPath GoTime Json Model Validation Policy Auth AuthStore Ipc Safety Engine Store Throttle Http Router Wireguard Redaction Api ApiAuth ApiConfig Provision.

Local Open Scope string_scope.
Local Open Scope Z_scope.
Local Open Scope list_scope.

Definition public : list (string * string) :=
  [("POST /api/v1/auth/login", "handle_login");
   ("GET /api/v1/setup/interfaces", "handle_discover_setup_interfaces");
   ("GET /api/v1/setup/status", "handle_setup_status");
   ("POST /api/v1/setup/apply", "handle_setup_apply")].
Definition protected : list (string * string) :=
  [("POST /api/v1/auth/logout", "handle_logout");
   ("GET /api/v1/auth/session", "handle_get_session");
   ("POST /api/v1/auth/change-password", "handle_change_password");
   ("POST /api/v1/auth/totp/enable", "handle_totp_enable");
   ("POST /api/v1/auth/totp/enroll", "handle_totp_qr");
   ("POST /api/v1/auth/totp/disable", "handle_totp_disable");
   ("GET /api/v1/system", "handle_get_system");
   ("GET /api/v1/system/diagnostics", "handle_get_diagnostics");
   ("GET /api/v1/audit/events", "handle_get_audit_events");
   ("GET /api/v1/config", "handle_get_config");
   ("PUT /api/v1/config", "handle_update_config");
   ("GET /api/v1/transactions/pending", "handle_get_pending_transaction");
   ("POST /api/v1/transactions/{id}/confirm", "handle_confirm_transaction");
   ("POST /api/v1/network/wol", "handle_wake_on_lan");
   ("POST /api/v1/recovery/reconcile", "handle_recovery_reconcile");
   ("GET /api/v1/recovery/status", "handle_recovery_status");
   ("POST /api/v1/recovery/operations/{id}/dns", "handle_recovery_dns");
   ("POST /api/v1/recovery/operations/{id}/dismiss", "handle_recovery_dismiss");
   ("GET /api/v1/snapshots", "handle_get_snapshots");
   ("POST /api/v1/snapshots", "handle_create_snapshot");
   ("DELETE /api/v1/snapshots/{id}", "handle_delete_snapshot");
   ("POST /api/v1/snapshots/{id}/restore", "handle_restore_snapshot");
   ("GET /api/v1/snapshots/{id}/preview", "handle_snapshot_preview");
   ("POST /api/v1/import/pfsense/preview", "handle_pfsense_import_preview");
   ("POST /api/v1/import/pfsense/{id}/apply", "handle_pfsense_import_apply");
   ("POST /api/v1/backup/export", "handle_backup_export");
   ("POST /api/v1/backup/import/preview", "handle_backup_import_preview");
   ("POST /api/v1/import/backup/{id}/apply", "handle_backup_import_apply");
   ("POST /api/v1/firmware/verify", "handle_firmware_verify");
   ("GET /api/v1/system/interfaces", "handle_discover_interfaces");
   ("GET /api/v1/network/lan", "handle_lan_status");
   ("GET /api/v1/network/devices", "handle_network_devices");
   ("GET /api/v1/network/leases", "handle_dhcp_leases");
   ("GET /api/v1/network/address-check", "handle_lan_address_check");
   ("GET /api/v1/gateway/summary", "handle_get_gateway_summary");
   ("GET /api/v1/gateway/history", "handle_get_gateway_history");
   ("GET /api/v1/gateway/insights", "handle_get_gateway_insights");
   ("POST /api/v1/gateway/probe", "handle_gateway_probe");
   ("GET /api/v1/gateway/events", "handle_gateway_events");
   ("GET /api/v1/gateway/recovery", "handle_gateway_recovery_status");
   ("GET /api/v1/gateway/settings", "handle_get_gateway_settings");
   ("PUT /api/v1/gateway/settings", "handle_put_gateway_settings");
   ("POST /api/v1/gateway/diagnose", "handle_network_diagnose");
   ("POST /api/v1/system/actions/{action}", "handle_service_action");
   ("GET /api/v1/devices/pauses", "handle_get_device_pauses");
   ("POST /api/v1/devices/pause", "handle_pause_device");
   ("POST /api/v1/devices/resume", "handle_resume_device");
   ("POST /api/v1/config/preview", "handle_config_preview");
   ("GET /api/v1/health", "handle_get_health");
   ("GET /api/v1/startup/boots", "handle_startup_boots");
   ("GET /api/v1/startup/boots/{id}", "handle_startup_boot");
   ("GET /api/v1/firewall/status", "handle_firewall_status");
   ("GET /api/v1/firewall/explain", "handle_firewall_explain");
   ("GET /api/v1/firewall/activity", "handle_firewall_activity");
   ("GET /api/v1/accounting/insights", "handle_accounting_insights");
   ("GET /api/v1/accounting", "handle_get_accounting");
   ("POST /api/v1/wireguard/peers", "handle_provision_wireguard_peer");
   ("POST /api/v1/wireguard/peers/{id}/configuration", "handle_reissue_wireguard_peer_configuration");
   ("DELETE /api/v1/wireguard/peers/{id}", "handle_delete_wireguard_peer");
   ("GET /api/v1/wireguard/provisioning-preview", "handle_wireguard_provisioning_preview");
   ("POST /api/v1/wireguard/client/keys", "handle_wireguard_client_keys");
   ("POST /api/v1/qos/speedtest", "handle_speedtest");
   ("GET /api/v1/dns-activity", "handle_dns_activity");
   ("GET /api/v1/dns-activity/settings", "handle_get_dns_activity_settings");
   ("PUT /api/v1/dns-activity/settings", "handle_put_dns_activity_settings");
   ("GET /api/v1/dns-activity/recent", "handle_dns_activity_recent");
   ("POST /api/v1/dns-activity/clear", "handle_dns_activity_clear");
   ("GET /api/v1/dns-activity/alerts/summary", "handle_dns_risk_summary");
   ("GET /api/v1/dns-activity/alerts", "handle_dns_risk_alerts");
   ("POST /api/v1/dns-activity/alerts/{id}/acknowledge", "handle_dns_risk_acknowledge");
   ("POST /api/v1/dns-activity/alerts/{id}/ignore", "handle_dns_risk_ignore");
   ("GET /api/v1/dns-activity/alerts/exceptions", "handle_dns_risk_exceptions");
   ("DELETE /api/v1/dns-activity/alerts/exceptions/{id}", "handle_dns_risk_remove_exception");
   ("POST /api/v1/dns-activity/alerts/refresh", "handle_dns_risk_refresh");
   ("GET /api/v1/dns-filter", "handle_dns_filter_status");
   ("PUT /api/v1/dns-filter", "handle_dns_filter_save");
   ("POST /api/v1/dns-filter/refresh", "handle_dns_filter_refresh");
   ("POST /api/v1/dns-filter/check", "handle_dns_filter_check");
   ("GET /api/v1/dns-filter/check", "handle_dns_filter_check");
   ("GET /api/v1/dns-filter/profiles", "handle_dns_filter_profiles");
   ("GET /api/v1/dns-filter/operations", "handle_dns_filter_operations");
   ("GET /api/v1/firmware/status", "handle_firmware_status");
   ("POST /api/v1/firmware/check", "handle_firmware_check");
   ("POST /api/v1/firmware/channel", "handle_firmware_channel");
   ("POST /api/v1/firmware/update", "handle_firmware_update");
   ("POST /api/v1/firmware/upload", "handle_firmware_upload");
   ("GET /api/v1/firmware/local-status", "handle_firmware_local_status")].

(** Whether the gate asks for a session, and the name of the handler *)
Record Endpoint := mkEndpoint { ep_authenticated : bool; ep_handler : string }.
Definition register_routes : list (Route Endpoint) :=
  map (fun p => parse_route (fst p) (mkEndpoint false (snd p))) public
  ++ map (fun p => parse_route (fst p) (mkEndpoint true (snd p))) protected.

Section Serve.
Context {UC : Unicode} {B64 : Base64} {G : Generators} {W : Type} {E : Env W} {AE : ApiEnv W} {TT : TimeText} {AJ : ApiJson}.
Context {A2 : Argon2} {RB : RawBase64} {HS : HmacSha1} {SH : Sha256} {AB : AuthBodies} {CB : ConfigBodies} {WC : WireGuardCrates} {PB : PeerBodies} {RW : Randomness W}.
Local Abbreviation Handler := (Handler (W:=W)).

Definition modelled_handlers : list (string * Handler) :=
  [("handle_login", handle_login);
   ("handle_logout", handle_logout);
   ("handle_get_session", handle_get_session);
   ("handle_change_password", handle_change_password);
   ("handle_totp_enable", handle_totp_enable);
   ("handle_totp_qr", handle_totp_qr);
   ("handle_totp_disable", handle_totp_disable);
   ("handle_get_config", handle_get_config);
   ("handle_update_config", handle_update_config);
   ("handle_get_pending_transaction", handle_get_pending_transaction);
   ("handle_confirm_transaction", handle_confirm_transaction);
   ("handle_recovery_reconcile", handle_recovery_reconcile);
   ("handle_setup_status", handle_setup_status);
   ("handle_discover_setup_interfaces", handle_discover_setup_interfaces);
   ("handle_discover_interfaces", handle_discover_interfaces);
   ("handle_setup_apply", handle_setup_apply);
   ("handle_provision_wireguard_peer", handle_provision_wireguard_peer);
   ("handle_reissue_wireguard_peer_configuration", handle_reissue_wireguard_peer_configuration);
   ("handle_delete_wireguard_peer", handle_delete_wireguard_peer);
   ("handle_wireguard_provisioning_preview", handle_wireguard_provisioning_preview);
   ("handle_wireguard_client_keys", handle_wireguard_client_keys)].
Definition handler_of (other : string -> Handler) (name : string) : Handler :=
  match List.find (fun p => fst p =s name) modelled_handlers with Some (_, h) => h | None => other name end.

(** A request through [routes] *)
Definition serve (routes : list (Route Endpoint)) (handler : string -> Handler) (r : Request) : HM W Response :=
  match resolve_request routes r with
  | Answer response => hm_ret response
  | Call endpoint params => gate (with_params r params) (ep_authenticated endpoint) (handler (ep_handler endpoint))
  end.
End Serve.
