(* ===== verification/ApiSpec.v ===== *)
(** * What the API's gate lets through *)

From Stdlib Require Import ZArith Ascii String Lia Bool.
From stdpp Require Import base list strings gmap.
From S2P Require Import Prelude GoStrings Net NetSpec GoPath GoTime Json Model Validation Policy Auth AuthStore Ipc Safety Engine Store Throttle Http HttpServer HttpServerSpec Router Redaction Api ApiAuth ApiConfig ApiRoutes.

Local Open Scope string_scope.
Local Open Scope Z_scope.
Local Open Scope list_scope.

(** ** Effects that leave the engine alone *)
Section Leaves.
Context {W : Type}.

Definition same_engine (s s' : Api W) : Prop := s_st (api_sys s') = s_st (api_sys s) /\ s_heap (api_sys s') = s_heap (api_sys s).
Definition leaves_engine {A} (m : HM W A) : Prop := forall s a s', m s = (a, s') -> same_engine s s'.

Lemma same_engine_refl s : same_engine s s.
Proof. split; reflexivity. Qed.
Lemma same_engine_trans s1 s2 s3 : same_engine s1 s2 -> same_engine s2 s3 -> same_engine s1 s3.
Proof. intros [H1 H2] [H3 H4]. split; congruence. Qed.

Lemma leaves_ret {A} (a : A) : leaves_engine (hm_ret a).
Proof. intros s b s' [= <- <-]. apply same_engine_refl. Qed.
Lemma leaves_bind {A B} (m : HM W A) (k : A -> HM W B) : leaves_engine m -> (forall a, leaves_engine (k a)) -> leaves_engine (hm_bind m k).
Proof.
  intros Hm Hk s b s' Hr. unfold hm_bind in Hr. destruct (m s) as [a s1] eqn:Em.
  exact (same_engine_trans _ _ _ (Hm _ _ _ Em) (Hk _ _ _ _ Hr)).
Qed.
Lemma leaves_server : leaves_engine server.
Proof. intros s a s' [= <- <-]. apply same_engine_refl. Qed.
Lemma leaves_set_server f : leaves_engine (set_server f).
Proof. intros s a s' [= <- <-]. split; reflexivity. Qed.
Lemma leaves_outside {A} (f : W -> A * W) : leaves_engine (outside f).
Proof.
  intros s a s' Hr. unfold outside, engine, lift in Hr. destruct (f (s_world (api_sys s))) as [b w]. injection Hr as <- <-. split; reflexivity.
Qed.
Lemma leaves_engine_read {A} (m : M W A) : (forall y, snd (m y) = y) -> leaves_engine (engine m).
Proof.
  intros Hm s a s' Hr. unfold engine in Hr. destruct (m (api_sys s)) as [b y] eqn:Em. injection Hr as <- <-.
  specialize (Hm (api_sys s)). rewrite Em in Hm. cbn in Hm. subst y. destruct s. split; reflexivity.
Qed.
End Leaves.

Create HintDb leaves discriminated.
#[export] Hint Resolve leaves_ret leaves_server leaves_set_server leaves_outside : leaves.

Ltac leaves :=
  repeat first
    [ solve [auto with leaves]
    | apply leaves_bind; [|intros]
    | match goal with
      | |- leaves_engine (match ?x with _ => _ end) => destruct x
      | |- leaves_engine (let '(_, _) := ?x in _) => destruct x
      end
    | apply leaves_engine_read; intros []; reflexivity ].

Section Spec.
Context {UC : Unicode} {B64 : Base64} {G : Generators} {W : Type} {E : Env W} {AE : ApiEnv W} {TT : TimeText} {AJ : ApiJson}.
Context {A2 : Argon2} {RB : RawBase64} {HS : HmacSha1} {SH : Sha256} {AB : AuthBodies} {CB : ConfigBodies}.

Lemma leaves_current_config : leaves_engine (W:=W) get_current_config.
Proof. apply leaves_engine_read. reflexivity. Qed.
Hint Resolve leaves_current_config : leaves.
Lemma leaves_status : leaves_engine (W:=W) (engine get_status).
Proof. apply leaves_engine_read. intros y. unfold get_status, bind, get_st, tx_get, ret. destruct (st_active_tx (s_st y)); reflexivity. Qed.
Lemma leaves_pending : leaves_engine (W:=W) (engine get_pending_transaction).
Proof. apply leaves_engine_read. intros y. unfold get_pending_transaction, bind, get_st, tx_get, ret. destruct (st_pending (s_st y)); reflexivity. Qed.
Hint Resolve leaves_status leaves_pending : leaves.

Lemma leaves_persist event actor l : leaves_engine (persist_audit event actor l).
Proof. unfold persist_audit. leaves. Qed.
Hint Resolve leaves_persist : leaves.
Lemma leaves_append event actor l : leaves_engine (append_audit event actor l).
Proof. unfold append_audit, append_throttled_audit. leaves. Qed.
Hint Resolve leaves_append : leaves.
Lemma leaves_audit event r extra : leaves_engine (audit_request event r extra).
Proof. unfold audit_request. leaves. Qed.
Hint Resolve leaves_audit : leaves.
Lemma leaves_rejection r : leaves_engine (trusted_rejection r).
Proof. unfold trusted_rejection. leaves. Qed.
Lemma leaves_credential_hash : leaves_engine (W:=W) admin_credential_hash.
Proof. unfold admin_credential_hash. leaves. Qed.
Hint Resolve leaves_credential_hash leaves_rejection : leaves.
End Spec.
#[export] Hint Resolve leaves_current_config leaves_status leaves_pending leaves_persist leaves_append leaves_audit leaves_rejection leaves_credential_hash : leaves.

(** ** The table of endpoints *)
Definition LOGOUT : list string := ["api"; "v1"; "auth"; "logout"].
(** The literal segments a pattern begins with, and whether it has no others *)
Fixpoint literals (segments : list Segment) : list string * bool :=
  match segments with
  | Literal l :: t => let '(ls, all) := literals t in (l :: ls, all)
  | Wildcard _ :: _ => ([], false)
  | [] => ([], true)
  end.
Fixpoint prefix_of (a b : list string) : bool :=
  match a, b with
  | [], _ => true
  | x :: a', y :: b' => (x =s y) && prefix_of a' b'
  | _, [] => false
  end.
Definition may_decode_to (segments : list Segment) (parts : list string) : bool :=
  let '(ls, all) := literals segments in
  if all then bool_decide (ls = parts) else prefix_of ls parts.
Definition plain_part (l : string) : bool := bool_decide (components l = [l]).

(** What every pattern of the table satisfies *)
Definition endpoint_ok (p : string * string) : bool :=
  let route := parse_route (fst p) tt in
  negb (rt_subtree route)
  && match rt_method route with Some m => starts_with (m +:+ " ") (fst p) && one_of ["GET"; "POST"; "PUT"; "DELETE"] m | None => false end
  && forallb plain_part (fst (literals (rt_segments route)))
  && ((snd p =s "handle_logout") || negb (may_decode_to (rt_segments route) LOGOUT)).

Lemma endpoints_ok : forallb endpoint_ok (public ++ protected) = true.
Proof. vm_compute. reflexivity. Qed.

Lemma one_of_In l x : one_of l x = true <-> In x l.
Proof.
  unfold one_of. rewrite existsb_exists. split.
  - intros (y & Hy & He). apply String.eqb_eq in He as ->. exact Hy.
  - intros Hx. exists x. split; [exact Hx|apply String.eqb_refl].
Qed.

Lemma match_literals segments : forall values params, match_segments segments values = Some params ->
  List.length values = List.length segments -> exists rest, values = fst (literals segments) ++ rest /\ (snd (literals segments) = true -> rest = []).
Proof.
  induction segments as [|[l|name] segments IH]; intros values params Hm Hn.
  - destruct values; [|discriminate]. exists []. auto.
  - destruct values as [|v values]; [discriminate|]. cbn in *. destruct (l =s v) eqn:E; [|discriminate]. apply String.eqb_eq in E as <-.
    destruct (IH _ _ Hm ltac:(lia)) as (rest & Hv & Hr). destruct (literals segments) as [ls all]. cbn in *. exists rest. subst. auto.
  - exists values. split; [reflexivity|discriminate].
Qed.

Lemma concat_plain ls : forallb plain_part ls = true -> concat (map components ls) = ls.
Proof.
  induction ls as [|l ls IH]; [reflexivity|]. cbn. intros Hp. apply andb_prop in Hp as [Hl Hp].
  unfold plain_part in Hl. apply bool_decide_eq_true in Hl. rewrite Hl, (IH Hp). reflexivity.
Qed.
Lemma prefix_of_app a b : prefix_of a (a ++ b) = true.
Proof. induction a as [|x a IH]; [reflexivity|]. cbn. rewrite String.eqb_refl. exact IH. Qed.

(** Only the logout endpoint is reached by a path that decodes to its path. *)
Lemma logout_path pattern name params raw trailing {A} (h : A) :
  In (pattern, name) (public ++ protected) ->
  route_matches (parse_route pattern h) (path_segments raw) trailing = Some params ->
  unescape raw false = Some "/api/v1/auth/logout" -> name = "handle_logout".
Proof.
  intros Hin Hm Hu. pose proof (proj1 (List.forallb_forall _ _) endpoints_ok _ Hin) as Hok.
  unfold endpoint_ok in Hok. cbn [fst snd] in Hok. to_prop.
  apply components_segments in Hu. change (components "/api/v1/auth/logout") with LOGOUT in Hu.
  assert (rt_segments (parse_route pattern h) = rt_segments (parse_route pattern tt)) as Hs
    by (unfold parse_route; destruct (split_once _ _) as [[]|]; reflexivity).
  assert (rt_subtree (parse_route pattern h) = rt_subtree (parse_route pattern tt)) as Hb
    by (unfold parse_route; destruct (split_once _ _) as [[]|]; reflexivity).
  unfold route_matches in Hm. rewrite Hb, Hs, H in Hm. cbn iota in Hm.
  destruct (negb (Nat.eqb _ _) || _) eqn:En; [discriminate|]. apply orb_false_elim in En as [En _]. to_prop.
  destruct (match_literals _ _ _ Hm En) as (rest & Hv & Hr). rewrite Hv, map_app, concat_app in Hu.
  rewrite concat_plain in Hu by assumption.
  match goal with Ho : _ || _ = true |- _ => apply orb_prop in Ho as [Ho|Ho]; [apply String.eqb_eq; exact Ho|] end.
  exfalso. apply negb_true_iff in H0. unfold may_decode_to in H0. destruct (literals _) as [ls all]. cbn in *. destruct all.
  - rewrite Hr in Hu by reflexivity. cbn in Hu. rewrite app_nil_r in Hu. apply bool_decide_eq_false in H0. congruence.
  - rewrite Hu, prefix_of_app in H0. discriminate.
Qed.

(** ** The gate *)
Lemma parse_route_handler {A} p (h : A) : rt_handler (parse_route p h) = h.
Proof. unfold parse_route. destruct (split_once _ _) as [[]|]; reflexivity. Qed.
Lemma parse_route_method {A} p (h : A) : rt_method (parse_route p h) = rt_method (parse_route p tt).
Proof. unfold parse_route. destruct (split_once _ _) as [[]|]; reflexivity. Qed.

Section Guarded.
Context {UC : Unicode} {B64 : Base64} {G : Generators} {W : Type} {E : Env W} {AE : ApiEnv W} {TT : TimeText} {AJ : ApiJson}.
Context {A2 : Argon2} {RB : RawBase64} {HS : HmacSha1} {SH : Sha256} {AB : AuthBodies} {CB : ConfigBodies}.
Local Abbreviation Handler := (Handler (W:=W)).

(** A request that may change state passed every check. *)
Definition mutation_allowed (preview_http : bool) (session : Session) (r : Request) : Prop :=
  header_get (rq_headers r) CSRF_HEADER_NAME = ss_csrf_token session
  /\ header_get (rq_headers r) "Sec-Fetch-Site" <> "cross-site"
  /\ (header_get (rq_headers r) "Origin" = EmptyString \/ origin_allowed preview_http (header_get (rq_headers r) "Origin") (rq_host r) = true)
  /\ (ss_read_only session = true -> rq_path r = "/api/v1/auth/logout").
Lemma mutation_passed preview session r : mutation_rejection preview session r = None -> mutation_allowed preview session r.
Proof.
  unfold mutation_rejection, mutation_allowed. intros Hm.
  destruct (ss_read_only session && _) eqn:E1; [discriminate|]. destruct (_ =s "cross-site") eqn:E2; [discriminate|].
  destruct (negb (is_empty _) && _) eqn:E3; [discriminate|]. destruct (_ <>s ss_csrf_token session) eqn:E4; [discriminate|].
  apply negb_false_iff, String.eqb_eq in E4. apply String.eqb_neq in E2. split; [exact E4|split; [exact E2|split]].
  - destruct (header_get (rq_headers r) "Origin"); [left; reflexivity|]. cbn in E3. right. apply negb_false_iff in E3. exact E3.
  - intros Hr. rewrite Hr in E1. cbn in E1. apply negb_false_iff, String.eqb_eq in E1. exact E1.
Qed.

(** What the gate hands a request to a handler under *)
Definition admitted_to (authenticated : bool) (r r' : Request) (s s1 : Api W) : Prop :=
  if authenticated then
    exists session, sm_validate (default EmptyString (cookie r SESSION_COOKIE_NAME)) (s_world (api_sys s)) = (Ok session, s_world (api_sys s1))
      /\ r' = with_session r session
      /\ (is_safe (rq_method r) = true \/ mutation_allowed (sv_preview_http (api_server s)) session r)
  else r' = r /\ s1 = s.

Lemma audit_leaves event r extra s u s' : audit_request event r extra s = (u, s') -> same_engine s s'.
Proof. apply leaves_audit. Qed.

Lemma authenticate_cases r (h : Handler) s response s' : authenticate r h s = (response, s') ->
  (same_engine s s' /\ forall h', authenticate r h' s = (response, s'))
  \/ exists r' s1 s2, h r' s1 = (response, s2) /\ same_engine s s1 /\ same_engine s2 s' /\ admitted_to true r r' s s1.
Proof.
  unfold authenticate. unfold hm_bind at 1. destruct (outside _ s) as [v s1] eqn:Ev.
  pose proof (leaves_outside _ _ _ _ Ev) as H1. destruct v as [session|e].
  - unfold hm_bind at 1, server. destruct (if is_safe (rq_method r) then None else mutation_rejection (sv_preview_http (api_server s1)) session r) as [[event rejection]|] eqn:Er.
    + intros Hr. left. pose proof Hr as Hr'. unfold hm_bind in Hr'. destruct (audit_request event r [] s1) as [u s2] eqn:Ea. injection Hr' as <- <-.
      split; [exact (same_engine_trans _ _ _ H1 (audit_leaves _ _ _ _ _ _ Ea))|]. intros h'. unfold hm_bind at 1. rewrite Ev.
      unfold hm_bind at 1. rewrite Er. exact Hr.
    + intros Hr. right. unfold hm_bind at 1 in Hr. destruct (h _ s1) as [response1 s2] eqn:Eh. exists (with_session r session), s1, s2.
      unfold hm_bind at 1 in Hr. destruct ((if is_safe (rq_method r) then hm_ret tt else _) s2) as [u s3] eqn:Ea. injection Hr as <- <-.
      split; [exact Eh|split; [exact H1|split]].
      * destruct (is_safe _); [injection Ea as _ <-; apply same_engine_refl|exact (audit_leaves _ _ _ _ _ _ Ea)].
      * exists session. unfold outside, engine, lift in Ev. destruct (sm_validate _ _) as [v w] eqn:Es. injection Ev as -> <-. cbn [api_sys s_world api_server].
        split; [reflexivity|split; [reflexivity|]]. cbn [api_server] in Er. destruct (is_safe (rq_method r)); [left; reflexivity|right]. apply mutation_passed. exact Er.
  - intros Hr. left. pose proof Hr as Hr'. unfold hm_bind in Hr'. destruct (audit_request _ r [] s1) as [u s2] eqn:Ea. injection Hr' as <- <-.
    split; [exact (same_engine_trans _ _ _ H1 (audit_leaves _ _ _ _ _ _ Ea))|]. intros h'. unfold hm_bind at 1. rewrite Ev. exact Hr.
Qed.

Lemma trusted_cases r s o s1 : trusted_rejection r s = (o, s1) ->
  (o = None /\ s1 = s /\ is_trusted_client_address (st_current_config (s_st (api_sys s))) (rq_remote_addr r) = true)
  \/ (o <> None /\ same_engine s s1).
Proof.
  intros Ht. pose proof (leaves_rejection _ _ _ _ Ht) as Hs. unfold trusted_rejection, hm_bind in Ht.
  assert (get_current_config s = (st_current_config (s_st (api_sys s)), s)) as Hg by (destruct s; reflexivity).
  rewrite Hg in Ht. destruct (is_trusted_client_address _ _).
  - injection Ht as <- <-. left. auto.
  - destruct (audit_request _ _ _ _). injection Ht as <- <-. right. split; [discriminate|exact Hs].
Qed.

(** Either no handler ran and the engine is as it was, or the source is trusted
    and the handler ran under [admitted_to]. *)
Lemma gate_cases r authenticated (h : Handler) s response s' : gate r authenticated h s = (response, s') ->
  (same_engine s s' /\ forall h', gate r authenticated h' s = (response, s'))
  \/ is_trusted_client_address (st_current_config (s_st (api_sys s))) (rq_remote_addr r) = true
     /\ exists r' s1 answer s2, h r' s1 = (answer, s2) /\ response = security_headers answer
          /\ same_engine s s1 /\ same_engine s2 s' /\ admitted_to authenticated r r' s s1.
Proof.
  unfold gate. unfold hm_bind at 1. destruct (trusted_rejection r s) as [rejection s1] eqn:Et.
  destruct (trusted_cases _ _ _ _ Et) as [(-> & -> & Hq)|[Hn Hs]].
  - unfold hm_bind at 1. intros Hr. destruct authenticated.
    + destruct (authenticate r h s) as [answer s2] eqn:Ea. injection Hr as <- <-.
      destruct (authenticate_cases _ _ _ _ _ Ea) as [[Hs Hh]|(r' & s1 & s3 & Hc & H1 & H2 & H3)].
      * left. split; [exact Hs|]. intros h'. unfold hm_bind at 1. rewrite Et. unfold hm_bind at 1. rewrite Hh. reflexivity.
      * right. split; [exact Hq|]. exists r', s1, answer, s3. auto.
    + destruct (h r s) as [answer s2] eqn:Ea. injection Hr as <- <-. right. split; [exact Hq|].
      exists r, s, answer, s2. repeat split; try assumption; apply same_engine_refl.
  - destruct rejection as [rejection|]; [|congruence]. unfold hm_bind at 1, hm_ret. intros [= <- <-]. left.
    split; [exact Hs|]. intros h'. unfold hm_bind at 1. rewrite Et. reflexivity.
Qed.

(** A handler is reached through a pattern of the table. *)
Lemma called_from_table r (e : Endpoint) params : resolve_request register_routes r = Call e params ->
  exists pattern, In (pattern, ep_handler e) (if ep_authenticated e then protected else public)
    /\ method_ok (rq_method r) (parse_route pattern tt) = true
    /\ route_matches (parse_route pattern tt) (path_segments (rq_raw_path r)) (has_trailing_slash (rq_raw_path r)) = Some params.
Proof.
  intros Hc. apply call_sound in Hc as (route & Hi & <- & Hm & Hr). unfold register_routes in Hi.
  assert (forall p (e : Endpoint), method_ok (rq_method r) (parse_route p e) = true -> method_ok (rq_method r) (parse_route p tt) = true) as Hmo
    by (unfold method_ok; intros p e; rewrite parse_route_method; auto).
  assert (forall p (e : Endpoint), route_matches (parse_route p e) (path_segments (rq_raw_path r)) (has_trailing_slash (rq_raw_path r))
            = route_matches (parse_route p tt) (path_segments (rq_raw_path r)) (has_trailing_slash (rq_raw_path r))) as Hrm
    by (intros p e; unfold parse_route; destruct (split_once _ _) as [[]|]; reflexivity).
  apply in_app_iff in Hi as [Hi|Hi]; apply in_map_iff in Hi as ([pattern name] & <- & Hi); rewrite parse_route_handler; exists pattern; cbn [fst snd] in *;
    rewrite Hrm in Hr; split; [exact Hi|split; [exact (Hmo _ _ Hm)|exact Hr]|exact Hi|split; [exact (Hmo _ _ Hm)|exact Hr]].
Qed.

(** Only a [GET] pattern serves a method the gate does not check. *)
Lemma safe_is_get pattern name method : In (pattern, name) (public ++ protected) -> method_ok method (parse_route pattern tt) = true ->
  is_safe method = true -> starts_with "GET " pattern = true.
Proof.
  intros Hi Hm Hs. pose proof (proj1 (List.forallb_forall _ _) endpoints_ok _ Hi) as Hok. unfold endpoint_ok in Hok. cbn [fst snd] in Hok.
  apply andb_prop in Hok as [Hok _]. apply andb_prop in Hok as [Hok _]. apply andb_prop in Hok as [_ Hok]. unfold method_ok in Hm.
  destruct (rt_method (parse_route pattern tt)) as [m|]; [|discriminate]. apply andb_prop in Hok as [Hp Ho].
  enough (m = "GET") as -> by exact Hp. unfold is_safe in Hs. apply one_of_In in Hs. apply one_of_In in Ho. cbn [In] in Hs, Ho.
  apply orb_prop in Hm as [Hm|Hm]; [apply String.eqb_eq in Hm|apply andb_prop in Hm as [Hm _]; apply String.eqb_eq; exact Hm].
  intuition congruence.
Qed.

(** C26: A request of a connection, served by the API, either runs no handler and leaves the engine as
    it was, or comes from a trusted network and runs the handler of a pattern of the
    table that its path matches.  A protected handler runs only with a session the
    session manager validated; unless the pattern is a [GET], the request also carries
    the session's CSRF token, is not cross-site, has no origin or one of this router,
    and a read-only session reaches nothing but the logout. *)
Theorem api_is_guarded head remote local input handler r s response s' : request_of head remote local input = Ok r ->
  serve register_routes handler r s = (response, s') ->
  (same_engine s s' /\ forall other, serve register_routes other r s = (response, s'))
  \/ exists pattern name params r' s1 answer s2,
      is_trusted_client_address (st_current_config (s_st (api_sys s))) (rq_remote_addr r) = true
      /\ route_matches (parse_route pattern tt) (path_segments (rq_raw_path r)) (has_trailing_slash (rq_raw_path r)) = Some params
      /\ handler name r' s1 = (answer, s2) /\ response = security_headers answer /\ same_engine s s1 /\ same_engine s2 s'
      /\ (In (pattern, name) public /\ r' = with_params r params /\ s1 = s
          \/ In (pattern, name) protected
             /\ exists session,
                sm_validate (default EmptyString (cookie r SESSION_COOKIE_NAME)) (s_world (api_sys s)) = (Ok session, s_world (api_sys s1))
                /\ r' = with_session (with_params r params) session
                /\ (starts_with "GET " pattern = true
                    \/ header_get (rq_headers r) CSRF_HEADER_NAME = ss_csrf_token session
                       /\ header_get (rq_headers r) "Sec-Fetch-Site" <> "cross-site"
                       /\ (header_get (rq_headers r) "Origin" = EmptyString
                           \/ origin_allowed (sv_preview_http (api_server s)) (header_get (rq_headers r) "Origin") (rq_host r) = true)
                       /\ (ss_read_only session = true -> name = "handle_logout"))).
Proof.
  intros Hreq Hs. destruct (request_of_ok _ _ _ _ _ Hreq) as (Hp & _). unfold serve in Hs.
  destruct (resolve_request register_routes r) as [answer|e params] eqn:Er.
  { injection Hs as <- <-. left. split; [apply same_engine_refl|]. intros other. unfold serve. rewrite Er. reflexivity. }
  destruct (gate_cases _ _ _ _ _ _ Hs) as [[Hsame Hother]|(Hq & r' & s1 & answer & s2 & Hh & Ha & H1 & H2 & Hadm)].
  { left. split; [exact Hsame|]. intros other. unfold serve. rewrite Er. apply Hother. }
  right. destruct (called_from_table _ _ _ Er) as (pattern & Hi & Hm & Hr). destruct e as [authenticated name]. cbn [ep_handler ep_authenticated] in *.
  exists pattern, name, params, r', s1, answer, s2. repeat split; try assumption; try apply H1; try apply H2.
  destruct authenticated; unfold admitted_to in Hadm.
  - right. split; [exact Hi|]. destruct Hadm as (session & Hv & -> & Hc). exists session.
    split; [exact Hv|split; [reflexivity|]]. destruct Hc as [Hc|(C1 & C2 & C3 & C4)].
    + left. eapply safe_is_get; [apply in_app_iff; right; exact Hi|exact Hm|exact Hc].
    + right. repeat split; try assumption. intros Hro. specialize (C4 Hro). cbn [rq_path with_params] in C4. rewrite C4 in Hp.
      eapply (logout_path pattern name params); [apply in_app_iff; right; exact Hi| |exact Hp]. exact Hr.
  - left. split; [exact Hi|]. destruct Hadm as [-> ->]. auto.
Qed.
End Guarded.
