(* ===== verification/ApiSafety.v ===== *)
(** * One-time codes, confirmations, and who may change what

    A one-time code is redeemed once; a confirmation proves the path it leaves;
    clients that are not signed in or not trusted change nothing. *)

From Stdlib Require Import ZArith Ascii String Lia Bool.
From stdpp Require Import base list strings gmap.
From S2P Require Import Prelude GoStrings Net NetSpec GoPath GoTime Json Model Validation ValidationSpec Policy Auth AuthStore Ipc Safety Engine EngineSpec EngineInv EngineReach Store Throttle Http HttpServer HttpServerSpec Router Wireguard Redaction Api ApiAuth ApiConfig Provision ApiRoutes ApiSpec.

Local Open Scope string_scope.
Local Open Scope Z_scope.
Local Open Scope list_scope.

(** ** One-time codes

    Three handlers take codes: the login and the enabling of the second factor
    through [accept_totp], its disabling through [verify_totp]; all of them accept
    a code by [consume_totp], and nothing else writes the table of consumed codes.
    The table is in memory: a history is of one run of the daemon. *)

Section Totp.
Context {UC : Unicode} {B64 : Base64} {G : Generators} {W : Type} {E : Env W} {AE : ApiEnv W} {TT : TimeText} {AJ : ApiJson}.
Context {A2 : Argon2} {RB : RawBase64} {HS : HmacSha1} {SH : Sha256}.

(** A reading of the clocks [n] nanoseconds after the start of the process, when
    the wall clock is not stepped: it is [o] ahead. *)
Definition reading (o n : Z) : Time := mkTime (o + n) (Some n).

(** An attempt: when it read the clock and, later, when it had the lock of the table,
    the canonical secret and code, and whether it was accepted *)
Record Attempt := mkAttempt { at_consumed : Z; at_locked : Z; at_inputs : string * string; at_accepted : bool }.
Definition clock_of (h : list Attempt) : Z := match h with [] => 0 | a :: _ => at_locked a end.

(** Attempts in the order they took the server's lock, latest first, whatever the
    order in which they had read the clock; between them the server may do anything that leaves the table of consumed codes alone. *)
Inductive redeeming (o : Z) : list Attempt -> Api W -> Prop :=
| redeeming_start s : sv_totp_replay (api_server s) = ∅ -> redeeming o [] s
| redeeming_other h s s' : redeeming o h s -> sv_totp_replay (api_server s') = sv_totp_replay (api_server s) -> redeeming o h s'
| redeeming_attempt h s secret code accepted s' c l :
    redeeming o h s -> consume_totp secret code s = (accepted, s') ->
    fst (clock_now (s_world (api_sys s))) = reading o c -> c <= l -> clock_of h <= l ->
    redeeming o (mkAttempt c l (canonical_totp_inputs secret code) accepted :: h) s'.

(** What the handlers accept was consumed. *)
Lemma accept_consumes secret code s s' : accept_totp secret code s = (true, s') ->
  exists s1, sv_totp_replay (api_server s1) = sv_totp_replay (api_server s) /\ consume_totp secret code s1 = (true, s').
Proof.
  unfold accept_totp, valid_totp_now, hm_bind at 1, hm_bind at 1, outside, engine, lift. cbn [api_sys s_world].
  destruct (clock_now _) as [now w1]. unfold hm_ret at 1. destruct (validate_totp secret code now); [|unfold hm_ret; congruence].
  intros Hc. eexists. split; [|exact Hc]. reflexivity.
Qed.

Lemma consume_run secret code s b s' c o : consume_totp secret code s = (b, s') -> fst (clock_now (s_world (api_sys s))) = reading o c ->
  let key := totp_replay_key secret code in
  let replay := filter (fun p => time_after (reading o c) (snd p) = false) (sv_totp_replay (api_server s)) in
  (b = false /\ sv_totp_replay (api_server s') = replay)
  \/ (b = true /\ replay !! key = None /\ sv_totp_replay (api_server s') = <[key := time_add (reading o c) (dur_minutes 2)]> replay).
Proof.
  intros Ha Hc key replay. unfold consume_totp, hm_bind, outside, engine, lift, server, set_server in Ha. cbn [api_sys s_world api_server] in Ha.
  destruct (clock_now _) as [now w2]. cbn [fst] in Hc. subst now. cbn [api_sys s_world api_server sv_totp_replay] in Ha.
  fold key in Ha. fold replay in Ha. destruct (replay !! key) eqn:Er; injection Ha as <- <-; [left; auto|right; auto].
Qed.

Definition key_of (inputs : string * string) : list Z := sha256 (bytes_of (fst inputs) ++ zero :: bytes_of (snd inputs)).
Lemma key_of_inputs secret code : totp_replay_key secret code = key_of (canonical_totp_inputs secret code).
Proof. unfold totp_replay_key, key_of. destruct (canonical_totp_inputs secret code). reflexivity. Qed.

(** An accepted code stays in the table for two minutes. *)
Definition remembered (o : Z) (h : list Attempt) (s : Api W) : Prop :=
  forall a, In a h -> at_accepted a = true -> at_consumed a <= clock_of h
    /\ (clock_of h <= at_consumed a + dur_minutes 2 ->
        sv_totp_replay (api_server s) !! key_of (at_inputs a) = Some (time_add (reading o (at_consumed a)) (dur_minutes 2))).

Lemma lookup_live (o c expiry : Z) (table : gmap (list Z) Time) (key : list Z) : table !! key = Some (reading o expiry) -> c <= expiry ->
  filter (fun p : list Z * Time => time_after (reading o c) (snd p) = false) table !! key = Some (reading o expiry).
Proof. intros Hl Hc. apply map_lookup_filter_Some. split; [exact Hl|]. unfold time_after, reading. cbn. lia. Qed.
Lemma add_reading o n d : time_add (reading o n) d = reading o (n + d).
Proof. unfold time_add, reading. cbn. f_equal. lia. Qed.

Lemma redeeming_remembered o h s : redeeming o h s ->
  remembered o h s /\ forall h1 a2 h2 a1 h3, h = h1 ++ a2 :: h2 ++ a1 :: h3 -> at_accepted a1 = true -> at_accepted a2 = true ->
    at_inputs a1 = at_inputs a2 -> at_consumed a1 + dur_minutes 2 < at_locked a2.
Proof.
  intros Hr. induction Hr as [s Hs|h s s' Hr [IH1 IH2] He|h s secret code b s' c l Hr [IH1 IH2] Ha Hc Hcl Hl].
  - split; [intros a []|]. intros [|] ? ? ? ?; discriminate.
  - split; [|exact IH2]. intros a Hi Hb. rewrite He. exact (IH1 a Hi Hb).
  - pose proof (consume_run _ _ _ _ _ _ _ Ha Hc) as Hrun. cbn zeta in Hrun. rewrite key_of_inputs in Hrun.
    set (inputs := canonical_totp_inputs secret code) in *. set (replay := filter _ _) in Hrun.
    assert (forall a, In a h -> at_accepted a = true -> l <= at_consumed a + dur_minutes 2 ->
      replay !! key_of (at_inputs a) = Some (time_add (reading o (at_consumed a)) (dur_minutes 2))) as Hlive.
    { intros a Hi Hb Hle. rewrite add_reading. apply lookup_live; [|lia]. destruct (IH1 a Hi Hb) as [_ Hk]. rewrite <- add_reading. apply Hk. lia. }
    split.
    + intros a [<-|Hi] Hb; cbn [clock_of at_consumed at_locked at_inputs at_accepted] in *.
      * subst b. split; [lia|]. intros _. destruct Hrun as [[? _]|(_ & _ & Ht)]; [discriminate|]. rewrite Ht. apply lookup_insert_eq.
      * split; [destruct (IH1 a Hi Hb); lia|]. intros Hle. specialize (Hlive a Hi Hb Hle).
        destruct Hrun as [[_ Ht]|(_ & Hn & Ht)]; rewrite Ht.
        -- exact Hlive.
        -- rewrite lookup_insert_ne by congruence. exact Hlive.
    + intros [|a0 h1] a2 h2 a1 h3 [= He Hh] Hb1 Hb2 Heq; [|exact (IH2 _ _ _ _ _ Hh Hb1 Hb2 Heq)]. subst a2. cbn in *. subst b.
      destruct Hrun as [[? _]|(_ & Hn & _)]; [discriminate|].
      destruct (Z.le_gt_cases l (at_consumed a1 + dur_minutes 2)) as [Hle|]; [|lia].
      assert (In a1 h) as Hi by (rewrite Hh; apply in_app_iff; right; left; reflexivity).
      specialize (Hlive a1 Hi Hb1 Hle). rewrite Heq in Hlive. congruence.
Qed.

(** The steps whose code is valid at a reading of the clock *)
Definition step_valid (o step n : Z) : Prop := exists i, In i [-1; 0; 1] /\ time_unix (reading o n) / TOTP_PERIOD + i = step.

(** C31: A one-time code is redeemed once in a run of the daemon.  Of two attempts
    that were accepted with the same secret and code, by whichever of the three
    handlers that take codes (login, enabling and disabling the second factor), the
    later one looked for the code in the table more than two minutes after the
    earlier one had read the clock; so, when an attempt has the table at most half a
    minute after validating the code, the code of one time step is accepted once at
    most, though it is valid for a minute and a half.  A history starts with the empty table of a daemon that just started (a
    restart forgets what was consumed) and the wall clock is not stepped in it. *)
Theorem totp_code_redeemed_once o h s h1 later h2 earlier h3 : redeeming o h s -> h = h1 ++ later :: h2 ++ earlier :: h3 ->
  at_accepted earlier = true -> at_accepted later = true -> at_inputs earlier = at_inputs later ->
  at_consumed earlier + dur_minutes 2 < at_locked later
  /\ forall v1 v2, v1 <= at_consumed earlier -> at_locked later - v2 <= dur_secs 30 ->
      forall step, ~ (step_valid o step v1 /\ step_valid o step v2).
Proof.
  intros Hr Hh H1 H2 He. destruct (redeeming_remembered _ _ _ Hr) as [_ Ht]. specialize (Ht _ _ _ _ _ Hh H1 H2 He).
  split; [exact Ht|]. intros v1 v2 Hv Hd step [(i & Hi & Hs) (j & Hj & Hs')].
  unfold step_valid, time_unix, reading, TOTP_PERIOD, dur_minutes, dur_secs, MINUTE, SECOND in *. cbn [wall In] in *.
  rewrite Z.div_div in Hs, Hs' by lia. Z.to_euclidean_division_equations. lia.
Qed.
End Totp.


(** ** Audit records and reads *)
Section Lockout.
Context {UC : Unicode} {B64 : Base64} {G : Generators} {W : Type} {E : Env W} {AE : ApiEnv W} {TT : TimeText} {AJ : ApiJson}.
Context {A2 : Argon2} {RB : RawBase64} {HS : HmacSha1} {SH : Sha256} {CB : ConfigBodies}.

Lemma audit_config_leaves r tx : leaves_engine (W:=W) (audit_config_request r tx).
Proof. unfold audit_config_request. leaves. Qed.
Lemma current_config_run (s : Api W) : get_current_config s = (st_current_config (s_st (api_sys s)), s).
Proof. destruct s. reflexivity. Qed.

(** ** Confirmations *)

(** The request proves that the pending configuration can be managed. *)
Definition proves_path (pending current : SystemConfig) (r : Request) : Prop :=
  (sys_management_access (c_system pending) = "wireguard_only" ->
    exists ip address tunnel, parse_ip (remote_ip (rq_remote_addr r)) = Some ip
      /\ parse_cidr (wg_address (c_wireguard pending)) = Some (address, tunnel) /\ net_contains tunnel ip = true)
  /\ (sys_management_access (c_system pending) <> "wireguard_only" -> lan_ip_address (c_lan pending) <> EmptyString ->
      lan_ip_address (c_lan pending) <> lan_ip_address (c_lan current) -> remote_ip (rq_local_addr r) = lan_ip_address (c_lan pending)).
Lemma confirmation_passed r pending current : confirmation_refused r pending current = None -> proves_path pending current r.
Proof.
  unfold confirmation_refused, proves_path, confirm_via_candidate_lan. intros Hc. destruct (_ =s "wireguard_only") eqn:Ew.
  - apply String.eqb_eq in Ew. split; [|congruence]. intros _. destruct (parse_ip _) as [ip|]; [|discriminate].
    destruct (parse_cidr _) as [[address tunnel]|]; [|discriminate]. destruct (net_contains tunnel ip) eqn:En; [|discriminate]. eauto 6.
  - apply String.eqb_neq in Ew. split; [congruence|]. intros _ Hn Hd. apply String.eqb_neq in Hd. rewrite Hd in Hc.
    destruct (lan_ip_address (c_lan pending)) as [|a l]; [congruence|]. cbn [is_empty negb andb orb] in Hc.
    destruct (remote_ip (rq_local_addr r) =s String a l) eqn:Ei; [apply String.eqb_eq; exact Ei|discriminate].
Qed.

(** At most an audit record was written. *)
Definition then_audited (w w' : W) : Prop := w' = w \/ exists event actor d, w' = snd (write_audit_event event actor d w).
Lemma audit_config_world r tx s u s' : audit_config_request r tx s = (u, s') -> then_audited (s_world (api_sys s)) (s_world (api_sys s')).
Proof.
  unfold audit_config_request. destruct tx as [tx|]; [|intros [= _ <-]; by left].
  unfold append_audit. change (is_high_volume_audit_event "config.request") with false. unfold persist_audit.
  destruct credential_store; [|intros [= _ <-]; by left]. unfold hm_bind, outside, engine, lift.
  destruct (write_audit_event _ _ _ _) as [x w] eqn:Ew. intros [= _ <-]. right. eexists _, _, _. by rewrite Ew.
Qed.

(** C30: A confirmation the API answers with 200 made the pending candidate canonical:
    the helper's last report on the runtime is that the candidate runs, verified and
    lasting; nothing is pending any more.  The request
    came over the path the candidate leaves: from inside the tunnel when the candidate
    leaves management to WireGuard; otherwise, when its LAN address is set and
    differs from the current one, to that new address.  (A candidate that does
    both is confirmed over the tunnel.)  A confirmation answered with 403 does not
    touch the engine. *)
Theorem confirmation_proves_path ms initial w0 r s response s' : live_ok initial -> reachable ms initial w0 (api_sys s) ->
  handle_confirm_transaction r s = (response, s') ->
  (rs_status response = 200 ->
    exists p t, st_pending (s_st (api_sys s)) = Some p /\ s_heap (api_sys s) !! p_tx p = Some t /\ tx_id t = path_value r "id"
      /\ proves_path (tx_config t) (st_current_config (s_st (api_sys s))) r
      /\ st_current_config (s_st (api_sys s')) = tx_config t /\ st_pending (s_st (api_sys s')) = None
      /\ exists w1, verified_run (tx_config t) w1 /\ then_audited w1 (s_world (api_sys s')))
  /\ (rs_status response = 403 -> same_engine s s').
Proof.
  intros Hi Hr Hh. assert (I : engine_inv (api_sys s)) by (by eapply reachable_inv). unfold handle_confirm_transaction in Hh.
  unfold hm_bind at 1 in Hh. destruct (engine get_pending_transaction s) as [pending s1] eqn:Eg.
  assert (s1 = s /\ pending = (p_tx <$> st_pending (s_st (api_sys s))) ≫= (fun tx => Some (fst (tx_get tx (api_sys s))))) as [-> Hpend].
  { unfold engine, get_pending_transaction, bind, get_st, tx_get, ret in Eg. cbn in Eg.
    destruct (st_pending (s_st (api_sys s))); injection Eg as <- <-; destruct s; split; reflexivity. }
  destruct pending as [t|]; [|injection Hh as <- <-; split; discriminate].
  destruct (tx_id t <>s path_value r "id") eqn:Eid; [injection Hh as <- <-; split; discriminate|].
  unfold hm_bind at 1 in Hh. rewrite current_config_run in Hh. destruct (confirmation_refused _ _ _) as [refusal|] eqn:Ec.
  { injection Hh as <- <-. split; [|intros _; apply same_engine_refl]. intros H200. exfalso. unfold confirmation_refused in Ec.
    repeat case_match; simplify_eq; discriminate. }
  unfold hm_bind at 1, engine in Hh. destruct (confirm_transaction _ (api_sys s)) as [[o result] y] eqn:Eq.
  pose proof (confirm_spec (path_value r "id") (api_sys s) (ei_idle _ I) (engine_inv_tx_ok _ I)) as Hs. unfold wp in Hs. rewrite Eq in Hs. cbn [fst snd] in Hs.
  unfold hm_bind in Hh. destruct (audit_config_request r o _) as [u s2] eqn:E2. destruct (audit_config_leaves _ _ _ _ _ E2) as [H3 H4]. cbn [api_sys s_st s_heap] in H3, H4.
  injection Hh as <- <-. destruct result as [|e]; [|split; discriminate]. split; [|discriminate]. intros _.
  destruct Hs as [[-> [err [=]]]|(p & tx0 & e' & t' & w' & Hp & Ht & Hid & -> & _ & _ & Hend)]. exists p, tx0. rewrite H3. cbn [s_st].
  rewrite Hp in Hpend. cbn in Hpend. unfold tx_get in Hpend. cbn in Hpend. rewrite (nth_lookup_Some _ _ _ _ Ht) in Hpend. injection Hpend as ->.
  split; [exact Hp|split; [exact Ht|split; [exact Hid|split; [apply confirmation_passed; exact Ec|]]]].
  cbn [snd] in Hend. inversion Hend as [He' Hst Hrun|]; subst. split; [reflexivity|split; [reflexivity|]].
  exists w'. split; [exact Hrun|exact (audit_config_world _ _ _ _ _ E2)].
Qed.
End Lockout.

(** ** Requests without a session *)
Section Anonymous.
Context {UC : Unicode} {B64 : Base64} {G : Generators} {W : Type} {E : Env W} {AE : ApiEnv W} {TT : TimeText} {AJ : ApiJson}.
Context {A2 : Argon2} {RB : RawBase64} {HS : HmacSha1} {SH : Sha256} {AB : AuthBodies} {CB : ConfigBodies}.
Context {WC : WireGuardCrates} {PB : PeerBodies} {RW : Randomness W}.
Local Abbreviation Handler := (Handler (W:=W)).

Lemma leaves_accept secret code : leaves_engine (W:=W) (accept_totp secret code).
Proof. unfold accept_totp, valid_totp_now, consume_totp. leaves. Qed.
Hint Resolve leaves_accept : leaves.
Lemma leaves_login r : leaves_engine (W:=W) (handle_login r).
Proof.
  assert (forall ip result response, leaves_engine (W:=W) (login_failed ip result response)) as Hf by (intros; unfold login_failed; leaves).
  unfold handle_login, login_allowed, login_state, login_second_factor, login_session, checked_password. leaves.
Qed.
Lemma leaves_setup_status r : leaves_engine (W:=W) (handle_setup_status r).
Proof. unfold handle_setup_status, administrator_configured. leaves. Qed.
Lemma leaves_setup_interfaces r : leaves_engine (W:=W) (handle_discover_setup_interfaces r).
Proof. unfold handle_discover_setup_interfaces, administrator_configured. leaves. Qed.

(** An administrator is configured, or the store cannot say. *)
Definition configured (w : W) : Prop :=
  has_credential_store = true
  /\ match fst (read_admin_auth_state w) with
     | Ok (hash, _) => hash <> EmptyString
     | Err e => is_sentinel ErrNoRows e = false
     end.

Lemma leaves_setup_apply r s response s' : (forall ip w, configured w -> configured (snd (rate_limiter ip w))) -> configured (s_world (api_sys s)) ->
  handle_setup_apply r s = (response, s') -> same_engine s s'.
Proof.
  intros Hl Hc Hr. unfold handle_setup_apply in Hr. unfold hm_bind at 1 in Hr. destruct (setup_refused r s) as [refused s1] eqn:Es.
  assert (refused <> None /\ same_engine s s1) as [Hn Hs]; [|destruct refused; [injection Hr as <- <-; exact Hs|congruence]].
  unfold setup_refused in Es. unfold hm_bind at 1 in Es. destruct (outside _ s) as [allowed s2] eqn:Ea.
  pose proof (leaves_outside _ _ _ _ Ea) as H2. assert (configured (s_world (api_sys s2))) as [Hstore Hc2].
  { unfold outside, engine, lift in Ea. specialize (Hl (remote_ip (rq_remote_addr r)) _ Hc). destruct (rate_limiter _ _) as [b w]. injection Ea as <- <-. exact Hl. }
  destruct (negb allowed); [injection Es as <- <-; split; [discriminate|exact H2]|].
  unfold hm_bind at 1 in Es. destruct (admin_credential_hash s2) as [hash s3] eqn:Eh. pose proof (leaves_credential_hash _ _ _ Eh) as H3.
  unfold admin_credential_hash in Eh. rewrite Hstore in Eh. unfold hm_bind, outside, engine, lift in Eh.
  destruct (read_admin_auth_state (s_world (api_sys s2))) as [[[h g]|e] w]; cbn [fst] in Hc2; injection Eh as <- <-.
  - destruct h; [congruence|]. injection Es as <- <-. split; [discriminate|exact (same_engine_trans _ _ _ H2 H3)].
  - rewrite Hc2 in Es. injection Es as <- <-. split; [discriminate|exact (same_engine_trans _ _ _ H2 H3)].
Qed.

Lemma public_leaves pattern name other r s response s' : In (pattern, name) public ->
  (forall ip w, configured w -> configured (snd (rate_limiter ip w))) -> configured (s_world (api_sys s)) ->
  handler_of (W:=W) other name r s = (response, s') -> same_engine s s'.
Proof.
  intros Hi Hl Hc. cbn [In public] in Hi.
  destruct Hi as [[= _ <-]|[[= _ <-]|[[= _ <-]|[[= _ <-]|[]]]]]; cbn [handler_of modelled_handlers List.find fst]; cbn -[handle_login handle_setup_status handle_setup_apply handle_discover_setup_interfaces];
    [apply leaves_login|apply leaves_setup_interfaces|apply leaves_setup_status|apply leaves_setup_apply; assumption].
Qed.

(** C28: Once an administrator is configured, or the store cannot tell, no request
    without a valid session changes the engine: the canonical configuration, a
    pending change and its timers are as they were, whatever the request asks for and
    whatever the handlers that are not modelled would do. *)
Theorem anonymous_changes_nothing other r s response s' : serve register_routes (handler_of other) r s = (response, s') ->
  configured (s_world (api_sys s)) -> (forall ip w, configured w -> configured (snd (rate_limiter ip w))) ->
  (forall session w, sm_validate (default EmptyString (cookie r SESSION_COOKIE_NAME)) (s_world (api_sys s)) <> (Ok session, w)) ->
  same_engine s s'.
Proof.
  intros Hs Hc Hl Hv. unfold serve in Hs. destruct (resolve_request register_routes r) as [answer|e params] eqn:Er.
  { injection Hs as <- <-. apply same_engine_refl. }
  destruct (gate_cases _ _ _ _ _ _ Hs) as [[Hsame _]|(_ & r' & s1 & answer & s2 & Hh & _ & H1 & H2 & Hadm)]; [exact Hsame|].
  destruct (called_from_table _ _ _ Er) as (pattern & Hi & _). destruct e as [authenticated name]. cbn [ep_handler ep_authenticated] in *.
  destruct authenticated; unfold admitted_to in Hadm.
  - destruct Hadm as (session & Hv' & _). destruct (Hv _ _ Hv').
  - destruct Hadm as [-> ->]. exact (same_engine_trans _ _ _ (public_leaves _ _ _ _ _ _ _ Hi Hl Hc Hh) H2).
Qed.

(** ** Connections from outside the trusted networks *)

(** The API behind a connection; [left] is what a handler leaves of the body. *)
Definition api_handler (other : string -> Handler) (left_body : Request -> Api W -> Body) (r : Request) (s : Api W) : Response * Body * Api W :=
  let '(response, s') := serve register_routes (handler_of other) r s in (response, left_body r s, s').

(** C27: Whatever bytes a peer outside the trusted networks sends over a connection, in
    however many requests, the engine is afterwards as it was before: neither the
    canonical configuration nor a pending change nor a transaction is touched, and
    no handler that is not modelled is reached. *)
Theorem untrusted_connection_is_inert other left_body http_date remote local input s :
  is_trusted_client_address (st_current_config (s_st (api_sys s))) remote = false ->
  same_engine s (snd (serve_connection (api_handler other left_body) http_date remote local input s))
  /\ forall other', serve_connection (api_handler other' left_body) http_date remote local input s
       = serve_connection (api_handler other left_body) http_date remote local input s.
Proof.
  intros Ht.
  assert (forall r s1, same_engine s s1 -> rq_remote_addr r = remote -> forall o1 o2,
    same_engine s (snd (serve register_routes (handler_of o1) r s1)) /\ serve register_routes (handler_of o2) r s1 = serve register_routes (handler_of o1) r s1) as Hreq.
  { intros r s1 Hs Hr o1 o2. unfold serve. destruct (resolve_request register_routes r) as [answer|e params]; [split; [exact Hs|reflexivity]|].
    destruct (gate (with_params r params) (ep_authenticated e) (handler_of o1 (ep_handler e)) s1) as [response s'] eqn:Eg.
    destruct (gate_cases _ _ _ _ _ _ Eg) as [[Hsame Hother]|(Hq & _)].
    - split; [exact (same_engine_trans _ _ _ Hs Hsame)|apply Hother].
    - cbn [rq_remote_addr with_params] in Hq. destruct Hs as [He _]. rewrite He, Hr in Hq. congruence. }
  split.
  - unfold serve_connection. apply (connection_keeps _ _ (same_engine s)); [|apply same_engine_refl]. intros head l r s1 response b s2 Hr Hh Hs. unfold api_handler in Hh.
    destruct (request_of_ok _ _ _ _ _ Hr) as (_ & Hrem & _). destruct (Hreq r s1 Hs Hrem other other) as [Hx _].
    destruct (serve _ _ r s1) as [response1 s3]. injection Hh as _ _ <-. exact Hx.
  - intros other'. unfold serve_connection. generalize (Datatypes.S (List.length input)). intros fuel.
    assert (same_engine s s) as Hs by apply same_engine_refl. revert Hs. generalize s at 2 3 4. revert input.
    induction fuel as [|fuel IH]; intros input s1 Hs; [reflexivity|]. cbn [connection_loop]. unfold serve_request.
    destruct (read_head MAX_HEADER_BYTES input) as [[head|e] l]; [|reflexivity]. destruct (request_of head remote local l) as [r|] eqn:Er; [|reflexivity].
    destruct (request_of_ok _ _ _ _ _ Er) as (_ & Hrem & _). destruct (Hreq r s1 Hs Hrem other other') as [Hx Hy]. unfold api_handler. rewrite Hy.
    destruct (serve _ _ r s1) as [response1 s3]. destruct (_ || _ || _); [reflexivity|]. rewrite IH by exact Hx. reflexivity.
Qed.
End Anonymous.
