(* ===== verification/ProvisionSpec.v ===== *)
(** * Addresses and keys of provisioned peers

    The address handed out is the nearest free one, and "no free address" is
    only said when there is none.  What a new peer is handed and what the
    server is configured with agree: both texts, read back, name each other's
    keys and the same address. *)

From Stdlib Require Import ZArith Ascii String Lia Bool.
From stdpp Require Import base list strings gmap.
From S2P Require Import Prelude GoStrings Net NetSpec GoPath GoTime Json Model Validation ValidationSpec Policy PolicySpec Firmware FirmwareSpec Auth AuthStore AuthSpec AuthSecrets Ipc Safety Engine EngineSpec Store Nft TokenText Throttle Http Wireguard WireguardSpec Redaction Api ApiAuth ApiConfig Provision Router ApiRoutes ApiSpec ApiSafety.

Local Open Scope string_scope.
Local Open Scope Z_scope.
Local Open Scope list_scope.

(** ** Searching *)
Lemma find_free_spec taken count : forall start,
  match find_free taken start count with
  | Some v => start <= v < start + Z.of_nat count /\ taken v = false /\ forall u, start <= u < v -> taken u = true
  | None => forall u, start <= u < start + Z.of_nat count -> taken u = true
  end.
Proof.
  induction count as [|count IH]; intros start; cbn [find_free]; [intros; lia|].
  destruct (taken start) eqn:Et.
  - specialize (IH (start + 1)). assert (Hone : forall P : Z -> Prop, P start -> (forall u, start + 1 <= u -> P u) -> forall u, start <= u -> P u).
    { intros P H0 H1 u Hu. destruct (Z.eq_dec u start) as [->|]; [done|]. apply H1. lia. }
    destruct (find_free taken (start + 1) count) as [v|].
    + destruct IH as (H1 & H2 & H3). split_and!; [lia|lia|done|]. intros u Hu. destruct (Z.eq_dec u start) as [->|]; [done|]. apply H3. lia.
    + intros u Hu. destruct (Z.eq_dec u start) as [->|]; [done|]. apply IH. lia.
  - split_and!; [lia|lia|done|]. intros. lia.
Qed.
Lemma find_in_spec taken start stop :
  match find_in taken start stop with
  | Some v => start <= v <= stop /\ taken v = false /\ forall u, start <= u < v -> taken u = true
  | None => forall u, start <= u <= stop -> taken u = true
  end.
Proof.
  unfold find_in. pose proof (find_free_spec taken (Z.to_nat (stop - start + 1)) start) as H.
  destruct (find_free _ _ _) as [v|].
  - destruct H as (H1 & H2 & H3). split_and!; try done; lia.
  - intros u Hu. apply H. lia.
Qed.

(** How far a host is after the server, going round a block of [size] *)
Definition after (server size v : Z) : Z := (v - server) mod size.
Lemma choose_host_spec taken base size server : 0 < size -> base <= server < base + size -> taken server = true ->
  match choose_host taken (base + 1) (base + size - 1 - 1) server with
  | Some v => base < v < base + size - 1 /\ taken v = false
      /\ forall u, base < u < base + size - 1 -> taken u = false -> after server size v <= after server size u
  | None => forall u, base < u < base + size - 1 -> taken u = true
  end.
Proof.
  intros Hs Hr Ht. unfold choose_host, after. set (last := base + size - 1 - 1).
  assert (Hup : forall u, server < u < base + size -> (u - server) mod size = u - server) by (intros; apply Z.mod_small; lia).
  assert (Hdown : forall u, base <= u < server -> (u - server) mod size = u - server + size).
  { intros u Hu. rewrite <- (Z.mod_small (u - server + size) size) by lia. rewrite <- (Z_mod_plus_full (u - server) 1 size). f_equal. lia. }
  assert (Hsplit : forall u, taken u = false -> u < server \/ server < u) by (intros u Hu; destruct (Z.lt_total u server) as [|[->|]]; [auto|congruence|auto]).
  pose proof (find_in_spec taken (server + 1) last) as H1. pose proof (find_in_spec taken (base + 1) (server - 1)) as H2.
  assert (Hfirst : match (if server <? last then find_in taken (server + 1) last else None) with
    | Some v => server < v <= last /\ taken v = false /\ forall u, server < u < v -> taken u = true
    | None => forall u, server < u <= last -> taken u = true end).
  { destruct (Z.ltb_spec server last); [|intros; lia]. destruct (find_in taken (server + 1) last) as [v|].
    - destruct H1 as (? & ? & H1). split_and!; [lia|lia|done|]. intros u Hu. apply H1. lia.
    - intros u Hu. apply H1. lia. }
  clear H1. destruct (if server <? last then _ else None) as [v|].
  { destruct Hfirst as (Hv & Hf & Hn). split_and!; [lia|lia|done|]. intros u Hu Hfree. rewrite (Hup v) by lia.
    destruct (Hsplit u Hfree); [rewrite Hdown by lia; lia|]. rewrite Hup by lia. destruct (Z.le_gt_cases v u); [lia|]. rewrite Hn in Hfree by lia. done. }
  assert (Hsecond : match (if base + 1 <? server then find_in taken (base + 1) (server - 1) else None) with
    | Some v => base < v < server /\ taken v = false /\ forall u, base < u < v -> taken u = true
    | None => forall u, base < u < server -> taken u = true end).
  { destruct (Z.ltb_spec (base + 1) server); [|intros; lia]. destruct (find_in taken (base + 1) (server - 1)) as [v|].
    - destruct H2 as (? & ? & H2). split_and!; [lia|lia|done|]. intros u Hu. apply H2. lia.
    - intros u Hu. apply H2. lia. }
  clear H2. destruct (if base + 1 <? server then _ else None) as [v|].
  - destruct Hsecond as (Hv & Hf & Hn). split_and!; [lia|unfold last in *; lia|done|]. intros u Hu Hfree. rewrite (Hdown v) by lia.
    destruct (Hsplit u Hfree); [|rewrite Hfirst in Hfree by (unfold last; lia); done]. rewrite Hdown by lia.
    destruct (Z.le_gt_cases v u); [lia|]. rewrite Hn in Hfree by lia. done.
  - intros u Hu. destruct (taken u) eqn:Eu; [done|]. destruct (Hsplit u Eu); [rewrite Hsecond in Eu by lia|rewrite Hfirst in Eu by (unfold last; lia)]; done.
Qed.

(** ** The address of the next peer *)

(** The route of some peer, enabled or not *)
Definition reserved (peers : list WireGuardPeer) (v : Z) : Prop :=
  exists peer allowed ip n a, peer ∈ peers /\ allowed ∈ items (peer_allowed_ips peer) /\ parse_cidr (trim allowed) = Some (ip, n)
    /\ mask_size (net_mask n) = (32, 32)%nat /\ to4 ip = Some a /\ be a = v.
Lemma used_addresses_spec peers v : v ∈ used_addresses peers <-> reserved peers v.
Proof.
  unfold used_addresses, reserved. rewrite elem_of_list_to_set, list_elem_of_omap. split.
  - intros (allowed & Ha & Hu). apply list_elem_of_In, in_flat_map in Ha as (peer & Hp & Ha). unfold used_address in Hu.
    destruct (parse_cidr (trim allowed)) as [[ip n]|] eqn:Ec; [|done]. destruct (_ && _) eqn:Eg; [|done]. to_prop.
    unfold ipv4_u32 in Hu. destruct (to4 ip) as [a|] eqn:E4; [|done]. injection Hu as <-.
    exists peer, allowed, ip, n, a. split_and!; try done; by apply list_elem_of_In.
  - intros (peer & allowed & ip & n & a & Hp & Ha & Hc & Hm & H4 & <-). exists allowed. split.
    + apply list_elem_of_In, in_flat_map. exists peer. split; by apply list_elem_of_In.
    + unfold used_address, ipv4_u32. by rewrite Hc, bool_decide_eq_true_2, H4.
Qed.

(** A host of the server's block that neither the server nor a peer has *)
Definition free_host (p : nat) (server : Z) (peers : list WireGuardPeer) (v : Z) : Prop :=
  block_base p server < v < block_base p server + block_size p - 1 /\ v <> server /\ ~ reserved peers v.

(** C37: the address of the next peer.  For a tunnel with room for hosts, the
    address given out is one that neither the server nor any peer has, disabled
    peers included, and it is the nearest after the server, going round the
    block once; no address is given out only when every host is taken. *)
Theorem allocation_is_exact subnet server_ip network p peers :
  parse_cidr subnet = Some (server_ip, network) -> mask_size (net_mask network) = (p, 32%nat) -> (p <= 30)%nat ->
  exists server, to4 server_ip = Some server
  /\ match next_free_wireguard_ip server_ip subnet peers with
     | Ok text => exists a, parse_ipv4 text = Some a /\ free_host p (be server) peers (be a)
         /\ forall u, free_host p (be server) peers u -> after (be server) (block_size p) (be a) <= after (be server) (block_size p) u
     | Err _ => forall u, ~ free_host p (be server) peers u
     end.
Proof.
  intros Hc Hm Hp. destruct (parse_cidr_block _ _ _ _ Hc Hm) as [o B]. pose proof (vb_bytes _ _ _ _ B) as Bo. pose proof (vb_length _ _ _ _ B) as Lo.
  pose proof (be_range o Bo) as Ro. rewrite Lo in Ro. change (256 ^ Z.of_nat 4) with (2 ^ 32) in Ro.
  destruct (block_room p (be o) Hp Ro) as (Hb1 & Hb0 & H4). destruct (v4_block_ip4 _ _ _ _ B) as [L4 F4].
  assert (Hto : to4 server_ip = Some o) by (rewrite (vb_ip _ _ _ _ B); by apply to4_mapped).
  exists o. split; [done|]. unfold next_free_wireguard_ip, ipv4_u32. rewrite Hc, Hto, to4_length4 by done. cbn [fmap option_fmap option_map].
  pose proof (block_size_pos p ltac:(lia)) as Hs. assert (Hin : block_base p (be o) <= be o < block_base p (be o) + block_size p).
  { unfold block_base. pose proof (Z.div_mod (be o) (block_size p) ltac:(lia)). pose proof (Z.mod_pos_bound (be o) (block_size p) Hs). lia. }
  assert (Hcontains : net_contains network server_ip = true).
  { rewrite (vb_ip _ _ _ _ B), <- net_contains_canon, canon_mapped by done. by apply (block_contains _ _ _ _ B). }
  rewrite Hcontains, Hm. cbn [negb Nat.eqb orb]. destruct (Nat.ltb_spec 30 p); [lia|].
  change (from_be4 (net_ip network)) with (be (net_ip network)). change (from_be4 o) with (be o). rewrite (block_net_ip _ _ _ _ B). fold (block_size p). unfold block_base at 1 2. rewrite lor_host by (lia || apply Z.div_pos; lia). fold (block_base p (be o)).
  replace (block_base p (be o) + (block_size p - 1)) with (block_base p (be o) + block_size p - 1) by lia.
  set (taken c := (c =? be o) || bool_decide (c ∈ used_addresses peers)).
  assert (Hfree : forall u, taken u = false <-> u <> be o /\ ~ reserved peers u).
  { intros u. unfold taken. rewrite orb_false_iff, Z.eqb_neq, bool_decide_eq_false, used_addresses_spec. done. }
  pose proof (choose_host_spec taken (block_base p (be o)) (block_size p) (be o) Hs Hin) as Hch. specialize (Hch ltac:(unfold taken; by rewrite Z.eqb_refl)).
  destruct (choose_host _ _ _ _) as [v|].
  - destruct Hch as (Hv & Hf & Hn). destruct (be_to_be4 v ltac:(lia)) as (E1 & E2 & E3). exists (to_be4 v). apply Hfree in Hf as [Hf1 Hf2].
    split_and!; [|split_and!; rewrite E1; auto; lia|].
    + unfold parse_ipv4, parse_ip, u32_ipv4. rewrite bytes_of_str_of. unfold parse_ip_bytes. rewrite parse_show_ipv4 by done.
      rewrite has_byte_false by (by apply show_ipv4_no_char). done.
    + intros u (Hu1 & Hu2 & Hu3). rewrite E1. apply Hn; [done|]. by apply Hfree.
  - intros u (Hu1 & Hu2 & Hu3). specialize (Hch u Hu1).
    assert (taken u = false) by (by apply Hfree). congruence.
Qed.

(** ** Endpoints *)
Lemma rfind_byte_Some c l : forall i, rfind_byte c l = Some i -> l = take i l ++ c :: drop (i + 1) l.
Proof.
  induction l as [|a l IH]; intros i; cbn [rfind_byte]; [done|]. destruct (rfind_byte c l) as [k|].
  - intros [= <-]. cbn. f_equal. by apply IH.
  - destruct (Ascii.eqb_spec a c) as [->|]; [|done]. by intros [= <-].
Qed.
Lemma find_byte_Some c l : forall i, find_byte c l = Some i -> l = take i l ++ c :: drop (i + 1) l.
Proof.
  induction l as [|a l IH]; intros i; cbn [find_byte]; [done|]. destruct (Ascii.eqb_spec a c) as [->|]; [by intros [= <-]|].
  destruct (find_byte c l) as [k|]; [|done]. intros [= <-]. cbn. f_equal. by apply IH.
Qed.
Lemma split_host_port_parts l h p : split_host_port_bytes l = Ok (h, p) -> l = h ++ ":"%char :: p \/ l = "["%char :: h ++ "]"%char :: ":"%char :: p.
Proof.
  unfold split_host_port_bytes. destruct (rfind_byte ":"%char l) as [i|] eqn:Ei; [|done]. apply rfind_byte_Some in Ei.
  assert (Hplain : (if has_byte ":"%char (take i l) then Err ("address " +:+ str_of l +:+ ": " +:+ "too many colons in address")
     else if has_byte "["%char (drop 0 l) then Err ("address " +:+ str_of l +:+ ": " +:+ "unexpected '[' in address")
     else if has_byte "]"%char (drop 0 l) then Err ("address " +:+ str_of l +:+ ": " +:+ "unexpected ']' in address") else Ok (take i l, drop (i + 1) l)) = Ok (h, p) ->
     l = h ++ ":"%char :: p).
  { destruct (has_byte ":"%char (take i l)); [done|]. destruct (has_byte "["%char _); [done|]. destruct (has_byte "]"%char _); [done|]. by intros [= <- <-]. }
  destruct l as [|a l]; [intros H; left; by apply Hplain|].
  destruct (Ascii.eqb_spec a "["%char) as [->|Hne].
  - clear Hplain. set (m := "["%char :: l) in *. destruct (find_byte "]"%char m) as [e|] eqn:Ee; [|done]. apply find_byte_Some in Ee.
    destruct (Nat.eqb_spec (e + 1) (List.length m)); [done|]. destruct (Nat.eqb_spec (e + 1) i) as [Hi|]; cbn [negb]; [|by destruct (Ascii.eqb _ _)].
    destruct (has_byte _ _); [done|]. destruct (has_byte _ _); [done|]. intros [= <- <-]. right.
    assert (He : (0 < e)%nat). { destruct e; [|lia]. exfalso. unfold m in Ee. cbn in Ee. discriminate Ee. }
    assert (Hrest : drop (e + 1) m = ":"%char :: drop (i + 1) m).
    { rewrite Hi. rewrite Ei at 1. rewrite drop_app_ge by (rewrite length_take; lia). rewrite length_take.
      assert (i < List.length m)%nat by (pose proof (f_equal List.length Ei) as HL; rewrite length_app, length_take in HL; change (List.length (":"%char :: drop (i + 1) m)) with (S (List.length (drop (i + 1) m))) in HL; lia).
      replace (i - i `min` length m)%nat with 0%nat by lia. done. }
    rewrite Ee at 1. rewrite Hrest. unfold m. destruct e as [|e]; [lia|]. done.
  - intros H. left. apply Hplain. revert H. do 8 (destruct a as [[] [] [] [] [] [] [] []]; try exact id; try congruence).
Qed.
Lemma endpoint_host_token host : ENDPOINT_HOST host = true -> token host.
Proof.
  unfold ENDPOINT_HOST, edge_pattern, token. destruct (bytes_of host) as [|a l]; [done|]. intros H. apply andb_prop in H as [Ha H].
  assert (Hedge : forall b, is_ascii_alphanumeric b = true -> token_char b = true) by (intros b Hb; unfold token_char; by rewrite Hb).
  assert (Hinner : forall b, alnum_or ["."%char; "-"%char] b = true -> token_char b = true).
  { intros b. unfold alnum_or, token_char. cbn [existsb]. destruct (is_ascii_alphanumeric b); [done|]. cbn [orb]. rewrite !orb_true_iff. intuition. }
  cbn [forallb]. rewrite (Hedge a Ha). cbn [andb]. rewrite <- (rev_involutive l). destruct (rev l) as [|z mid]; [done|]. to_prop.
  cbn [rev]. rewrite forallb_app, forallb_rev. cbn [forallb]. rewrite (Hedge z) by done. rewrite andb_true_r. by eapply forallb_weaken; [exact Hinner|].
Qed.
Lemma endpoint_plain value : validate_wireguard_endpoint value = Ok tt -> plain value.
Proof.
  unfold validate_wireguard_endpoint, split_host_port. destruct (is_empty value || _ || _); [done|].
  destruct (split_host_port_bytes (bytes_of value)) as [[h p]|] eqn:Es; [|done]. destruct (is_empty (str_of h)); [done|]. intros H.
  assert (Hh : token (str_of h)).
  { destruct (parse_ip (str_of h)) as [ip|] eqn:Ei; [by eapply parse_ip_token|]. destruct (ENDPOINT_HOST (str_of h)) eqn:Ee; [by apply endpoint_host_token|done]. }
  assert (Hp : token (str_of p)).
  { destruct (match parse_ip (str_of h) with Some _ => _ | None => _ end); [|done]. destruct (go_atoi (str_of p)) eqn:Ep; [by eapply go_atoi_token|done]. }
  apply token_plain in Hh, Hp. unfold plain in *. rewrite bytes_of_str_of in *.
  apply split_host_port_parts in Es as [E|E]; rewrite E; cbn [forallb]; rewrite ?forallb_app; cbn [forallb]; rewrite Hh, Hp; done.
Qed.

(** ** Changes of the peers *)
Section Handlers.
Context {UC : Unicode} {B64 : Base64} {G : Generators} {W : Type} {E : Env W} {AE : ApiEnv W} {TT : TimeText} {AJ : ApiJson}.
Context {A2 : Argon2} {RB : RawBase64} {HS : HmacSha1} {SH : Sha256} {WC : WireGuardCrates} {PB : PeerBodies} {RW : Randomness W}.

(** The configuration the engine took: canonical, or awaiting confirmation *)
Definition took_effect (response : Response) (cfg : SystemConfig) (s' : Api W) : Prop :=
  rs_status response = 200 /\ st_current_config (s_st (api_sys s')) = cfg
  \/ rs_status response = 202 /\ exists p t, st_pending (s_st (api_sys s')) = Some p /\ s_heap (api_sys s') !! p_tx p = Some t /\ tx_config t = cfg.
Definition answered_well (response : Response) : Prop := rs_status response = 200 \/ rs_status response = 202.

Lemma peer_change_outcome r prefix candidate body s response s' : apply_peer_change r prefix candidate body s = (response, s') ->
  st_applying (s_st (api_sys s)) = false -> answered_well response ->
  exists tx e now, rs_body response = rs_body (write_json 200 (body tx)) /\ took_effect response (stamped e candidate now) s'.
Proof.
  intros Hu Ha Hok. unfold apply_peer_change in Hu. unfold hm_bind at 1 in Hu. destruct (outside clock_now s) as [now s1] eqn:E1.
  destruct (leaves_outside _ _ _ _ E1) as [H1 H2]. unfold hm_bind at 1, engine in Hu.
  destruct (process_transaction _ candidate (api_sys s1)) as [[t result] y] eqn:Ep.
  assert (st_applying (s_st (api_sys s1)) = false) as Ha1 by congruence.
  match type of Ep with process_transaction ?id _ _ = _ => pose proof (process_spec id candidate false None (api_sys s1) Ha1) as Hs end.
  unfold wp in Hs. unfold process_transaction in Ep. rewrite Ep in Hs. cbn [fst snd] in Hs.
  destruct Hs as (now' & e' & w' & -> & _ & Hend & _). cbn [fst snd] in Hend.
  unfold hm_bind in Hu. destruct (audit_config_request r (Some t) _) as [u s2] eqn:E2. destruct (audit_config_leaves _ _ _ _ _ E2) as [H3 H4]. cbn [api_sys s_st s_heap] in H3, H4.
  injection Hu as <- <-. unfold answered_well, took_effect in *.
  destruct Hend as [Hst Hc He|p Hst Hc Hpt Hpp _ _ _ He|err Hst He|err reason c Hst Hc He].
  - rewrite Hst, bool_decide_eq_false_2 by discriminate. exists t, (s_st (api_sys s1)), now'. split; [done|]. left. split; [done|].
    by rewrite H3, He.
  - rewrite Hst, bool_decide_eq_true_2 by reflexivity. exists t, (s_st (api_sys s1)), now'. split; [done|]. right. split; [done|]. exists p, t.
    rewrite H3, H4, He in *. cbn [set_pending set_active st_pending st_current_config] in *. split_and!; [done| |done].
    rewrite Hpt, lookup_app_r, Nat.sub_diag by lia. reflexivity.
  - destruct Hok; discriminate.
  - destruct Hok; discriminate.
Qed.

(** ** What was drawn *)
Definition pair_of (private public : string) : Prop :=
  exists raw, private = standard_encode (clamp raw) /\ public = standard_encode (x25519_base (clamp raw)).
Lemma keypair_pair drawn private public : generate_wireguard_keypair drawn = Ok (private, public) -> pair_of private public.
Proof. unfold generate_wireguard_keypair. destruct drawn as [raw|]; [|done]. intros [= <- <-]. by exists raw. Qed.
Lemma psk_encoded drawn psk : generate_wireguard_preshared_key drawn = Ok psk -> exists key, psk = standard_encode key.
Proof. unfold generate_wireguard_preshared_key. destruct drawn as [key|]; [|done]. intros [= <-]. by exists key. Qed.
Lemma stored_public_ok private public : stored_public private = Ok public -> wireguard_public_key private = Ok public.
Proof. unfold stored_public. by destruct (wireguard_public_key private) as [p|]; [intros [= <-]|]. Qed.

Lemma leaves_keypair : leaves_engine (W:=W) fresh_keypair.
Proof. unfold fresh_keypair. leaves. Qed.
Lemma leaves_client_keys : leaves_engine (W:=W) client_keys.
Proof. unfold client_keys, fresh_keypair, fresh_psk. leaves. Qed.
Lemma client_keys_run (s s' : Api W) private public psk : client_keys s = (Ok (private, public, psk), s') ->
  same_engine s s' /\ pair_of private public /\ exists key, psk = standard_encode key.
Proof.
  intros Hr. split; [by eapply leaves_client_keys|]. revert Hr. unfold client_keys, fresh_keypair, fresh_psk, hm_bind, hm_ret.
  destruct (outside (random_bytes 32) s) as [d s1]. destruct (generate_wireguard_keypair d) as [[a b]|] eqn:E1; [|done].
  destruct (outside (random_bytes 32) s1) as [d2 s2]. destruct (generate_wireguard_preshared_key d2) as [k|] eqn:E2; [|done].
  intros [= <- <- <- _]. split; [by eapply keypair_pair|by eapply psk_encoded].
Qed.
Lemma material_leaves stored : leaves_engine (W:=W) (peer_material stored).
Proof. unfold peer_material, client_keys, server_private_key, fresh_keypair, fresh_psk. leaves. Qed.
Lemma peer_material_run stored (s s' : Api W) m : peer_material stored s = (Ok m, s') ->
  same_engine s s' /\ pair_of (pm_private m) (pm_public m) /\ (exists key, pm_psk m = standard_encode key)
  /\ (pm_server_private m = stored \/ exists raw, pm_server_private m = standard_encode raw)
  /\ wireguard_public_key (pm_server_private m) = Ok (pm_server_public m).
Proof.
  unfold peer_material, hm_bind at 1. destruct (client_keys s) as [keys s1] eqn:Ek. destruct keys as [[[a b] psk]|]; [|done].
  apply client_keys_run in Ek as (H1 & H2 & H3). unfold hm_bind at 1. destruct (server_private_key stored s1) as [sp s2] eqn:Es. intros Hr.
  destruct sp as [sp|]; [|done]. cbn in Hr. destruct (stored_public sp) as [spub|] eqn:Ep; [|done]. injection Hr as <- <-. cbn.
  assert (Hs : same_engine s1 s2 /\ (sp = stored \/ exists raw, sp = standard_encode raw)).
  { revert Es. unfold server_private_key. destruct (is_empty stored); [|intros [= <- <-]; split; [apply same_engine_refl|by left]].
    unfold hm_bind. destruct (fresh_keypair s1) as [d s3] eqn:Ed. intros [= Hd <-]. split; [by eapply leaves_keypair|]. right.
    unfold fresh_keypair, hm_bind in Ed. destruct (outside (random_bytes 32) s1) as [raw s4]. injection Ed as <- <-.
    destruct (generate_wireguard_keypair raw) as [[x y]|] eqn:Eg; [|done]. injection Hd as <-. apply keypair_pair in Eg as (rw & -> & _). by exists (clamp rw). }
  destruct Hs as [Hs1 Hs2]. split_and!; try done; [by eapply same_engine_trans|by apply stored_public_ok].
Qed.

(** ** What was planned *)
Lemma resolved_endpoint_plain c asked endpoint : resolved_endpoint c asked = Ok endpoint -> plain endpoint /\ endpoint <> EmptyString.
Proof.
  unfold resolved_endpoint, resolve_wireguard_server_endpoint. set (e := if is_empty (trim asked) then _ else _). destruct (is_empty e) eqn:Ee; [done|].
  destruct (validate_wireguard_endpoint e) as [[]|] eqn:Ev; [|done]. intros [= <-]. split; [by apply endpoint_plain|]. intros E0. by rewrite E0 in Ee.
Qed.
(** An address as the text of its route *)
Lemma host_cidr ip o : to4 ip = Some o -> wf_ip ip ->
  let cidr := ip_to_string ip +:+ "/32" in
  plain cidr /\ parse_cidr cidr = Some (V4_IN_V6_PREFIX ++ o, mkIPNet o (mask_bytes 4 32)) /\ net_to_string (mkIPNet o (mask_bytes 4 32)) = cidr
  /\ trim cidr = cidr /\ mask_size (mask_bytes 4 32) = (32, 32)%nat.
Proof.
  intros Ho [Hw Hwb] cidr. destruct (to4_Some _ _ Ho) as (Lo & _ & Hb). pose proof (Hb Hwb) as Bo. destruct (host_net_text o Lo Bo) as [H1 H2].
  assert (Hc : bytes_of cidr = show_ipv4 o ++ "/"%char :: show_nonneg 32).
  { unfold cidr, ip_to_string. rewrite bytes_of_app, bytes_of_str_of. unfold ip_bytes_string. rewrite Ho. destruct ip; [by destruct Hw|]. done. }
  assert (Ht : token cidr) by (unfold token; rewrite Hc, forallb_app, show_ipv4_token by done; done).
  split_and!; [by apply token_plain|unfold parse_cidr; by rewrite Hc|apply bytes_of_inj; congruence|by apply token_trim|].
  unfold mask_size. by rewrite simple_mask_length_spec, length_mask_bytes by lia.
Qed.
Lemma provision_plan_ok c req name cidr endpoint : provision_plan c req = Ok (name, cidr, endpoint) ->
  name = trim (pv_name req) /\ plain endpoint /\ endpoint <> EmptyString
  /\ exists server_ip tn ip o, parse_cidr (wg_address (c_wireguard c)) = Some (server_ip, tn) /\ to4 ip = Some o /\ wf_ip ip
     /\ cidr = ip_to_string ip +:+ "/32" /\ net_contains tn ip = true /\ to4 ip <> to4 server_ip.
Proof.
  unfold provision_plan. destruct (is_empty (trim (pv_name req))); [done|]. destruct (wan_enabled (c_wan c)); [|done]. cbn [negb].
  destruct (parse_cidr (wg_address (c_wireguard c))) as [[server_ip tn]|] eqn:Ec; [|done].
  destruct (requested_address c server_ip _) as [address|]; [|done]. destruct (resolved_endpoint c _) as [e|] eqn:Ee; [|done].
  apply resolved_endpoint_plain in Ee as [Hp Hne]. unfold client_address_free. destruct (parse_ip address) as [ip|] eqn:Ei; [|done].
  destruct (_ && _ && _ && _) eqn:Eg; [|done]. to_prop. destruct (existsb _ _); [done|]. intros [= <- <- <-]. split_and!; [done|done|done|].
  destruct (to4 ip) as [o|] eqn:E4; [|done]. exists server_ip, tn, ip, o. split_and!; try done; [exact (proj1 (parse_ip_ok _ _ Ei))|by rewrite E4].
Qed.

(** The new peer as the tunnel's text writes it *)
Lemma new_peer_ok id name ip o m : to4 ip = Some o -> wf_ip ip -> (forall l, plain (standard_encode l)) -> utf8 name ->
  pair_of (pm_private m) (pm_public m) -> (exists key, pm_psk m = standard_encode key) ->
  let cidr := ip_to_string ip +:+ "/32" in
  tunnel_peer (new_peer id name cidr m) /\ peer_route (new_peer id name cidr m) = Ok cidr.
Proof.
  intros Ho Hw Henc Hname (raw & _ & Hpub) [key Hkey] cidr. destruct (host_cidr ip o Ho Hw) as (_ & Hc & Ht & Htrim & Hm). fold cidr in Hc, Ht, Htrim. split.
  - split; cbn; [done|rewrite Hpub; apply Henc|rewrite Hkey; apply Henc|done|]. intros allowed ip' n Hin. apply list_elem_of_singleton in Hin as ->.
    rewrite Hc. intros [= <- <-]. exact (f_equal snd Hm).
  - unfold peer_route. cbn [peer_allowed_ips new_peer list_from items]. rewrite Htrim, Hc. cbn [net_mask]. rewrite Hm, bool_decide_eq_true_2 by done.
    destruct (to4_Some _ _ Ho) as (Lo & _ & _). rewrite to4_mapped by done. cbn [is_none negb andb]. by rewrite Ht.
Qed.

Lemma routed_networks_elem cidrs : forall seen allowed, routed_networks cidrs seen = Ok allowed ->
  forall route, route ∈ allowed <-> (route ∉ seen) /\ exists raw ip n, raw ∈ cidrs /\ parse_cidr (trim raw) = Some (ip, n) /\ route = net_to_string n.
Proof.
  induction cidrs as [|raw cidrs IH]; intros seen allowed; cbn [routed_networks].
  { intros [= <-] route. split; [intros H; by apply elem_of_nil in H|]. intros (_ & x & _ & _ & H & _). by apply elem_of_nil in H. }
  destruct (parse_cidr (trim raw)) as [[ip n]|] eqn:Ec; [|done]. destruct (is_none (to4 ip)); [done|]. destruct (set_insert _ seen) as [fresh seen'] eqn:Es.
  apply set_insert_spec in Es as [-> Hf]. destruct (routed_networks cidrs _) as [rest|] eqn:Er; [|done]. intros [= <-] route. specialize (IH _ _ Er route).
  assert (Hrest : (exists raw' ip' n', raw' ∈ raw :: cidrs /\ parse_cidr (trim raw') = Some (ip', n') /\ route = net_to_string n')
    <-> route = net_to_string n \/ exists raw' ip' n', raw' ∈ cidrs /\ parse_cidr (trim raw') = Some (ip', n') /\ route = net_to_string n').
  { split.
    - intros (r & i & k & [->|Hr]%elem_of_cons & Hp & ->); [left; congruence|right; eauto 6].
    - intros [->|(r & i & k & Hr & Hp & ->)]; [exists raw, ip, n|exists r, i, k]; (split; [set_solver|done]). }
  rewrite Hrest. destruct fresh.
  - rewrite elem_of_cons, IH. assert (net_to_string n ∉ seen) by (by apply Hf). destruct (decide (route = net_to_string n)) as [->|]; set_solver.
  - rewrite IH. assert (net_to_string n ∈ seen). { destruct (decide (net_to_string n ∈ seen)); [done|]. assert (false = true) by (by apply Hf). done. }
    destruct (decide (route = net_to_string n)) as [->|]; set_solver.
Qed.

Lemma client_routes_elem client_ip raw cidrs allowed : client_routes client_ip (raw :: cidrs) = Ok allowed ->
  Forall plain allowed /\ forall route, route ∈ allowed <-> exists raw' ip n, raw' ∈ raw :: cidrs /\ parse_cidr (trim raw') = Some (ip, n) /\ route = net_to_string n.
Proof.
  intros Hr. split; [by eapply client_routes_plain|]. unfold client_routes in Hr. destruct (routed_networks (raw :: cidrs) ∅) as [l|] eqn:El; [|done].
  pose proof (routed_networks_elem _ _ _ El) as Hl. assert (Hne : l <> []).
  { intros ->. cbn [routed_networks] in El. destruct (parse_cidr (trim raw)) as [[ip n]|] eqn:Ec; [|done].
    assert (Hin : net_to_string n ∈ @nil string) by (apply Hl; split; [set_solver|exists raw, ip, n; split; [by left|done]]). by apply elem_of_nil in Hin. }
  destruct l as [|a l]; [done|]. injection Hr as <-. intros route. rewrite Hl. set_solver.
Qed.

(** The body of an answer with a bundle *)
Definition hands_out (response : Response) (bundle : ClientConfigBundle) : Prop :=
  exists fields tx, rs_body response = rs_body (write_json 200 (bundle_json fields bundle tx)).

Lemma bundle_sections c private cidr public endpoint psk bundle : client_bundle c private cidr public endpoint psk = Ok bundle ->
  Forall plain [private; cidr; public; endpoint; psk] -> Forall token (items (dhcp_dns_servers (c_dhcp c))) ->
  exists allowed, read_conf (config_text bundle) = Some (client_sections private cidr public endpoint psk (items (dhcp_dns_servers (c_dhcp c))) allowed)
    /\ forall route, route ∈ allowed <-> exists raw ip n, raw ∈ [wg_address (c_wireguard c); lan_cidr (c_lan c)] /\ parse_cidr (trim raw) = Some (ip, n) /\ route = net_to_string n.
Proof.
  unfold client_bundle, generate_client_config. intros Hb Hp Hd. destruct (client_routes cidr _) as [allowed|] eqn:Er; [|done].
  apply client_routes_elem in Er as [Hpl Hel]. destruct (map_err _ _) as [png|]; [|done]. injection Hb as <-. exists allowed. cbn [config_text]. split; [|done].
  apply client_reads_back; try done. eapply Forall_impl; [exact Hd|apply token_plain].
Qed.

Lemma error_refuses message status : status <> 200 -> status <> 202 -> ~ answered_well (response_error message status).
Proof. intros H1 H2 [H|H]; cbn in H; lia. Qed.
Lemma plan_refuses c req response : provision_plan c req = Err response -> ~ answered_well response.
Proof.
  unfold provision_plan, requested_address, resolved_endpoint, client_address_free. intros H. cases_in H; simplify_eq; try (by apply error_refuses).
  all: unfold map_err in *; repeat case_match; simplify_eq; by apply error_refuses.
Qed.
Lemma material_refuses stored (s s' : Api W) response : peer_material stored s = (Err response, s') -> ~ answered_well response.
Proof.
  unfold peer_material, client_keys, server_private_key, stored_public, hm_bind, hm_ret. intros H.
  cases_in H; simplify_eq; try (by apply error_refuses). all: unfold map_err in *; repeat case_match; simplify_eq; by apply error_refuses.
Qed.

(** A provisioning that succeeds got through all its steps. *)
Lemma provision_run r s response s' : handle_provision_wireguard_peer r s = (response, s') -> answered_well response ->
  let before := st_current_config (s_st (api_sys s)) in
  exists req name cidr endpoint m id bundle s2, decode_json (T:=ProvisionRequest) r = Ok req /\ provision_plan before req = Ok (name, cidr, endpoint)
    /\ pair_of (pm_private m) (pm_public m) /\ (exists key, pm_psk m = standard_encode key)
    /\ (pm_server_private m = wg_private_key (c_wireguard before) \/ exists raw, pm_server_private m = standard_encode raw)
    /\ wireguard_public_key (pm_server_private m) = Ok (pm_server_public m) /\ same_engine s s2
    /\ let candidate := with_new_peer before m (new_peer id name cidr m) in
       validate candidate = Ok tt /\ client_bundle candidate (pm_private m) cidr (pm_server_public m) endpoint (pm_psk m) = Ok bundle
       /\ exists fields, apply_peer_change r "wireguard-peer" candidate (bundle_json fields bundle) s2 = (response, s').
Proof.
  intros Hu Hok before. unfold handle_provision_wireguard_peer in Hu.
  destruct (decode_json r) as [req|] eqn:Ed; [|injection Hu as <- <-; by apply error_refuses in Hok].
  unfold hm_bind at 1 in Hu. rewrite current_config_run in Hu. fold before in Hu.
  destruct (provision_plan before req) as [[[name cidr] endpoint]|] eqn:Ep; [|injection Hu as <- <-; by apply plan_refuses in Ep].
  unfold hm_bind at 1 in Hu. destruct (peer_material _ s) as [[m|e] s1] eqn:Em; [|injection Hu as <- <-; by apply material_refuses in Em].
  apply peer_material_run in Em as (Hs1 & H1 & H2 & H3 & H4). unfold hm_bind at 1 in Hu. destruct (outside (random_bytes 18) s1) as [id_bytes s2] eqn:Ei.
  apply leaves_outside in Ei. destruct id_bytes as [id_bytes|]; [|injection Hu as <- <-; by apply error_refuses in Hok].
  cbv zeta in Hu. destruct (validate _) as [[]|] eqn:Ev; [|injection Hu as <- <-; by apply error_refuses in Hok].
  destruct (client_bundle _ _ _ _ _ _) as [bundle|] eqn:Eb; [|injection Hu as <- <-; by apply error_refuses in Hok].
  exists req, name, cidr, endpoint, m, ("wg-" +:+ url_safe_encode id_bytes), bundle, s2. split_and!; try done; [by eapply same_engine_trans|].
  cbv zeta. split_and!; [done|done|by eexists].
Qed.

Context (Hletters : forall c, unicode_letter_number c = true -> char_is_control c = false) (Hencode : forall l, plain (standard_encode l)).

(** C35: what a new peer is handed matches the router.  This is for a router whose
    stored private key is plain text (visible ASCII without the comment sign) and whose
    enabled peers are well formed (plain keys, secrets and endpoints, names in valid
    UTF-8, addresses with a mask of 32 bits), which validation does not ensure; for a
    requested name in valid UTF-8; and when no other transaction is being applied.
    When provisioning is then answered with success, the engine took a configuration
    with one peer more, the last.  Read back, the text in the answer and the text of
    the server's tunnel agree: the client has the private half of that peer's key and
    the public half of the server's, the same secret, and as its address the one
    route the server gives that peer; it sends the tunnel's network and the LAN
    through the tunnel, nothing else.  (Of the Unicode tables it is used that letters
    and numbers are not control characters, of base64 that its texts are plain.) *)
Theorem provisioned_peer_matches r s response s' :
  handle_provision_wireguard_peer r s = (response, s') -> st_applying (s_st (api_sys s)) = false -> answered_well response ->
  (forall req, decode_json (T:=ProvisionRequest) r = Ok req -> utf8 (trim (pv_name req))) ->
  let before := st_current_config (s_st (api_sys s)) in
  plain (wg_private_key (c_wireguard before)) -> Forall tunnel_peer (enabled_peers (c_wireguard before)) ->
  exists cfg peer sections text private cidr public endpoint allowed bundle,
    took_effect response cfg s' /\ items (wg_peers (c_wireguard cfg)) = items (wg_peers (c_wireguard before)) ++ [peer]
    /\ generate_wireguard_runtime (c_wireguard cfg) = Ok text
    /\ read_conf text = Some (interface_section (c_wireguard cfg) false :: sections ++ [peer_section peer cidr])
    /\ hands_out response bundle
    /\ read_conf (config_text bundle)
       = Some (client_sections private cidr public endpoint (peer_preshared_key peer) (items (dhcp_dns_servers (c_dhcp before))) allowed)
    /\ pair_of private (peer_public_key peer) /\ wireguard_public_key (wg_private_key (c_wireguard cfg)) = Ok public
    /\ forall route, route ∈ allowed <-> exists raw ip n, raw ∈ [wg_address (c_wireguard before); lan_cidr (c_lan before)]
         /\ parse_cidr (trim raw) = Some (ip, n) /\ route = net_to_string n.
Proof.
  intros Hu Ha Hok Hname before Hkey Hpeers. destruct (provision_run _ _ _ _ Hu Hok) as (req & name & cidr & endpoint & m & id & bundle & s2 & Hd & Hplan & Hpair & Hpsk & Hsp & Hpub & Hs2 & Hv & Hb & fields & Happly).
  fold before in Hplan, Hsp, Hv, Hb, Happly. set (peer := new_peer id name cidr m) in *. set (candidate := with_new_peer before m peer) in *.
  destruct (provision_plan_ok _ _ _ _ _ Hplan) as (-> & Hend & _ & server_ip & tn & ip & o & Hc & Ho & Hw & -> & _).
  destruct (peer_change_outcome _ _ _ _ _ _ _ Happly ltac:(by rewrite (proj1 Hs2)) Hok) as (tx & e & now & Hbody & Htook).
  set (cfg := stamped e candidate now) in *. assert (Hcfg : c_wireguard cfg = c_wireguard candidate) by done.
  destruct (new_peer_ok id (trim (pv_name req)) ip o m Ho Hw Hencode (Hname req Hd) Hpair Hpsk) as [Htp Hroute]. fold peer in Htp, Hroute.
  assert (Hsplain : plain (pm_server_private m)) by (destruct Hsp as [->|[raw ->]]; [done|apply Hencode]).
  assert (Hen : enabled_peers (c_wireguard candidate) = enabled_peers (c_wireguard before) ++ [peer]).
  { unfold enabled_peers. cbn. by rewrite List.filter_app. }
  assert (Hall : Forall tunnel_peer (enabled_peers (c_wireguard candidate))) by (rewrite Hen; apply Forall_app; split; [done|by constructor]).
  destruct (accepted_tunnel Hletters candidate false Hv eq_refl Hsplain Hall) as (text & sip & stn & routes & Hg & _ & Hread & _ & Hroutes).
  rewrite Hen in Hread, Hroutes. apply Forall2_app_inv_l in Hroutes as (routes1 & routes2 & R1 & R2 & ->).
  inversion R2 as [|? route ? rest [Hr _] R3]; subst. inversion R3; subst. rewrite Hroute in Hr. injection Hr as <-.
  assert (Hserv : Forall token (items (dhcp_dns_servers (c_dhcp before)))).
  { destruct (validate_accepted _ Hv) as (? & ? & A). exact (accepted_servers _ _ _ A). }
  destruct Hpair as (raw & Hpriv & Hpublic). destruct Hpsk as [key Hpskey].
  destruct (bundle_sections _ _ _ _ _ _ _ Hb) as (allowed & Hsec & Hel).
  { repeat constructor; try done; [rewrite Hpriv; apply Hencode|by apply (host_cidr ip o)| |rewrite Hpskey; apply Hencode].
    revert Hpub. unfold wireguard_public_key. destruct (standard_decode _) as [l|]; [|done]. destruct (negb _); [done|]. destruct (forallb _ _); [done|]. intros [= <-]. apply Hencode. }
  { exact Hserv. }
  exists cfg, peer, (zip_with peer_section (enabled_peers (c_wireguard before)) routes1), text, (pm_private m), (ip_to_string ip +:+ "/32"), (pm_server_public m), endpoint, allowed, bundle.
  rewrite Hcfg. split_and!; try done.
  - rewrite Hread, zip_with_app by (by eapply Forall2_length). done.
  - by exists fields, tx.
  - by exists raw.
Qed.
End Handlers.
