(* ===== verification/ChangeSafety.v ===== *)
(** * What an accepted change keeps

    Whoever changes the configuration over the API can still reach the router
    afterwards: a submitted configuration is refused unless it trusts its author,
    and the changes of single peers leave the management policy alone. *)

From Stdlib Require Import ZArith Ascii String Lia Bool.
From stdpp Require Import base list strings gmap.
From S2P Require Import Prelude GoStrings Net NetSpec GoPath GoTime Json Model Validation ValidationSpec Policy Auth AuthStore AuthSpec AuthSecrets Ipc Safety Engine EngineSpec Store Throttle Http Wireguard Redaction Api ApiAuth ApiConfig Provision Router ApiRoutes ApiSpec ApiSafety ProvisionSpec.

Local Open Scope string_scope.
Local Open Scope Z_scope.
Local Open Scope list_scope.

(** ** Networks that cover a network *)
Lemma parse_cidr_sized s ip n p b : parse_cidr s = Some (ip, n) -> mask_size (net_mask n) = (p, b) ->
  exists nn q, net_view n nn q /\ (b = 32%nat /\ List.length nn = 4%nat /\ q = p
    \/ b = 128%nat /\ (List.length nn = 16%nat /\ q = p \/ List.length nn = 4%nat /\ q = (p - 96)%nat)).
Proof.
  intros H Hm. apply parse_cidr_Some in H as (p' & [(o & -> & Hl & Hb & Hp & ->)|(Hl & Hb & Hp & ->)]);
    cbn [net_mask] in Hm; unfold mask_size in Hm; rewrite simple_mask_length_spec, length_mask_bytes in Hm by lia; simplify_eq.
  - exists (land_bytes o (mask_bytes 4 p)), p. split; [by apply net_view_v4|]. left. split; [reflexivity|split; [|reflexivity]].
    destruct (land_bytes_ok o (mask_bytes 4 p)) as [Ll _]; [done|apply mask_bytes_ok|by rewrite length_mask_bytes|]. lia.
  - destruct (net_view_v6 ip p Hl Hb Hp) as (nn & q & Hv & Hq). eauto 6.
Qed.

(** A network that covers another contains its addresses. *)
Lemma covers_contains trusted target text ip x : trusted_networks_cover trusted target = true -> parse_cidr text = Some (ip, target) ->
  wf_ip x -> net_contains target x = true ->
  existsb (fun network => some_and (fun p => net_contains (snd p) x) (parse_cidr network)) trusted = true.
Proof.
  unfold trusted_networks_cover. rewrite !existsb_exists. intros (t & Ht & Hc) Hp Hx Hi. exists t. split; [exact Ht|].
  destruct (parse_cidr t) as [[tip n]|] eqn:Et; [|discriminate]. cbn [some_and snd] in *.
  destruct (mask_size (net_mask n)) as [pn bn] eqn:En, (mask_size (net_mask target)) as [pt bt] eqn:Eg. cbn [fst snd] in Hc. to_prop.
  destruct (parse_cidr_sized _ _ _ _ _ Et En) as (nn & q & Hv & Hq), (parse_cidr_sized _ _ _ _ _ Hp Eg) as (mm & q' & Hv' & Hq').
  destruct (net_view_self _ _ _ Hv') as (Hm & Hcm & Hmm).
  match goal with H : net_contains n (net_ip target) = true |- _ => rewrite <- net_contains_canon, Hcm in H;
    apply (net_contains_spec _ _ _ _ Hv Hm) in H as [L1 P1] end. rewrite Hmm in L1, P1.
  apply (net_contains_spec _ _ _ _ Hv' Hx) in Hi as [L2 P2]. apply (net_contains_spec _ _ _ _ Hv Hx).
  split; [congruence|]. rewrite <- P1. pose proof (nv_prefix _ _ _ Hv'). apply (prefix_of_le q q'); [exact L2|lia|rewrite L2; lia|exact P2].
Qed.

Section Changes.
Context {UC : Unicode} {B64 : Base64} {G : Generators} {W : Type} {E : Env W} {AE : ApiEnv W} {TT : TimeText} {AJ : ApiJson}.
Context {A2 : Argon2} {RB : RawBase64} {HS : HmacSha1} {SH : Sha256} {CB : ConfigBodies} {WC : WireGuardCrates} {PB : PeerBodies} {RW : Randomness W}.

(** ** Changes *)

(** What the gate and the anti-lockout policy read of a configuration *)
Definition keeps_caller (cfg : SystemConfig) (remote_addr : string) : Prop :=
  is_trusted_client_address cfg remote_addr = true
  /\ (sys_management_access (c_system cfg) = "wireguard_only" ->
      forall address tunnel ip peer, parse_cidr (wg_address (c_wireguard cfg)) = Some (address, tunnel) ->
        parse_remote_ip peer = Some ip -> wf_ip ip -> net_contains tunnel ip = true -> is_trusted_client_address cfg peer = true).

Lemma continuity_keeps cfg remote : management_continuity_err cfg remote = Ok tt -> keeps_caller cfg remote.
Proof.
  unfold management_continuity_err, wireguard_management_trust_err. intros Hc. split.
  - destruct (if _ <>s _ then _ else _) as [[]|]; [|discriminate]. cbn in Hc. destruct (is_trusted_client_address cfg remote); [reflexivity|discriminate].
  - intros Hw address tunnel ip peer Hp Hr Hwf Hi. rewrite Hw, Hp in Hc. cbn in Hc.
    destruct (trusted_networks_cover _ tunnel) eqn:Et; [|discriminate]. unfold is_trusted_client_address. rewrite Hr.
    fold (canon ip). rewrite (covers_contains _ _ _ _ (canon ip) Et Hp); [apply orb_true_r|by apply canon_wf|by rewrite net_contains_canon].
Qed.
Lemma keeps_stamped e cfg now remote : keeps_caller cfg remote -> keeps_caller (stamped e cfg now) remote.
Proof. intros Hk. exact Hk. Qed.

Lemma update_keeps_caller r s response s' : handle_update_config r s = (response, s') -> st_applying (s_st (api_sys s)) = false ->
  (rs_status response = 200 -> keeps_caller (st_current_config (s_st (api_sys s'))) (rq_remote_addr r))
  /\ (rs_status response = 202 -> exists p t, st_pending (s_st (api_sys s')) = Some p /\ s_heap (api_sys s') !! p_tx p = Some t
        /\ keeps_caller (tx_config t) (rq_remote_addr r) /\ p_previous p = st_current_config (s_st (api_sys s))).
Proof.
  intros Hu Ha. unfold handle_update_config in Hu. destruct (decode_json r) as [submitted|e]; [|injection Hu as <- <-; split; discriminate].
  unfold hm_bind at 1 in Hu. rewrite current_config_run in Hu. set (candidate := restore_redacted_config _ _) in Hu.
  destruct (management_continuity_err candidate (rq_remote_addr r)) as [[]|e] eqn:Ec; cbn [is_ok negb] in Hu.
  2: { unfold hm_bind in Hu. destruct (append_audit _ _ _ s). injection Hu as <- <-. split; discriminate. }
  apply continuity_keeps in Ec. unfold hm_bind at 1 in Hu. destruct (outside clock_now s) as [now s1] eqn:E1.
  destruct (leaves_outside _ _ _ _ E1) as [H1 H2]. unfold hm_bind at 1, engine in Hu.
  destruct (process_transaction _ candidate (api_sys s1)) as [[t result] y] eqn:Ep.
  assert (st_applying (s_st (api_sys s1)) = false) as Ha1 by congruence.
  pose proof (process_spec (transaction_id "tx-" now) candidate false None (api_sys s1) Ha1) as Hs. unfold wp in Hs. unfold process_transaction in Ep. rewrite Ep in Hs. cbn [fst snd] in Hs.
  destruct Hs as (now' & e' & w' & -> & _ & Hend & _). cbn [fst snd] in Hend.
  unfold hm_bind in Hu. destruct (audit_config_request r (Some t) _) as [u s2] eqn:E2. destruct (audit_config_leaves _ _ _ _ _ E2) as [H3 H4]. cbn [api_sys s_st s_heap] in H3, H4.
  injection Hu as <- <-.
  destruct Hend as [Hst Hc He|p Hst Hc Hpt Hpp _ _ _ He|err Hst He|err reason c Hst Hc He].
  - rewrite Hst. rewrite bool_decide_eq_false_2 by discriminate. split; [|discriminate]. intros _. rewrite H3, He. cbn [set_current st_current_config].
    apply keeps_stamped, Ec.
  - rewrite Hst. rewrite bool_decide_eq_true_2 by reflexivity. split; [discriminate|]. intros _. exists p, t.
    rewrite H3, H4, He, H1 in *. cbn [set_pending set_active st_pending st_current_config] in *. split; [reflexivity|]. split.
    { rewrite Hpt. rewrite lookup_app_r, Nat.sub_diag by lia. reflexivity. }
    split; [rewrite Hc; apply keeps_stamped, Ec|exact Hpp].
  - split; discriminate.
  - split; discriminate.
Qed.

(** ** Changes of the peers

    [alike] configurations are managed from the same places. *)
Definition alike (a b : SystemConfig) : Prop :=
  c_trusted_networks a = c_trusted_networks b /\ c_system a = c_system b /\ wg_address (c_wireguard a) = wg_address (c_wireguard b).
Lemma alike_keeps a b remote : alike a b -> keeps_caller a remote -> keeps_caller b remote.
Proof.
  intros (Ht & Hs & Hw). assert (forall x, is_trusted_client_address b x = is_trusted_client_address a x) as Hb
    by (intros x; unfold is_trusted_client_address; rewrite Ht; done).
  unfold keeps_caller. rewrite Hs, Hw, Hb. intros [H1 H2]. split; [exact H1|]. intros. rewrite Hb. eauto.
Qed.

(** A handler that, run on the canonical configuration [cur], puts an alike one
    in force when it succeeds *)
Definition stays_alike (cur : SystemConfig) (m : HM W Response) : Prop := forall s response s', m s = (response, s') ->
  st_current_config (s_st (api_sys s)) = cur -> st_applying (s_st (api_sys s)) = false -> answered_well response ->
  exists cfg, took_effect response cfg s' /\ alike cur cfg.
Lemma alike_refused cur response : ~ answered_well response -> stays_alike cur (hm_ret response).
Proof. intros Hn s x s' [= <- <-] _ _ Hok. by destruct Hn. Qed.
Lemma alike_error cur message status : status <> 200 -> status <> 202 -> stays_alike cur (hm_ret (response_error message status)).
Proof. intros H1 H2. by apply alike_refused, error_refuses. Qed.
Lemma alike_current cur k : stays_alike cur (k cur) -> stays_alike cur (hm_bind get_current_config k).
Proof. intros Hk s response s' Hr Hc. unfold hm_bind in Hr. rewrite current_config_run, Hc in Hr. exact (Hk s response s' Hr Hc). Qed.
Lemma alike_step {A} cur (m : HM W A) k : leaves_engine m -> (forall s a s', m s = (a, s') -> stays_alike cur (k a)) -> stays_alike cur (hm_bind m k).
Proof.
  intros Hm Hk s response s' Hr Hc Ha. unfold hm_bind in Hr. destruct (m s) as [a s1] eqn:Em. destruct (Hm _ _ _ Em) as [He _].
  apply (Hk s a s1 Em s1 response s' Hr); congruence.
Qed.
Lemma alike_change cur r prefix candidate body : alike cur candidate -> stays_alike cur (apply_peer_change r prefix candidate body).
Proof.
  intros Hal s response s' Hr Hc Ha Hok. destruct (peer_change_outcome _ _ _ _ _ _ _ Hr Ha Hok) as (tx & e & now & _ & Ht). by eexists.
Qed.

Lemma find_refuses peers id response : find_wireguard_peer peers id = Err response -> ~ answered_well response.
Proof. unfold find_wireguard_peer. intros H. repeat case_match; simplify_eq; by apply error_refuses. Qed.
Lemma reissue_refuses c peer asked response : reissue_plan c peer asked = Err response -> ~ answered_well response.
Proof.
  unfold reissue_plan, resolved_endpoint, map_err. intros H. repeat (case_match || simplify_eq/=); by apply error_refuses.
Qed.
Lemma keys_refuse (s s' : Api W) response : client_keys s = (Err response, s') -> ~ answered_well response.
Proof. unfold client_keys, hm_bind, hm_ret. intros H. repeat (case_match || simplify_eq/=); by apply error_refuses. Qed.
Lemma stored_refuses private response : stored_public private = Err response -> ~ answered_well response.
Proof. unfold stored_public, map_err. intros H. case_match; simplify_eq. by apply error_refuses. Qed.

Lemma provision_alike cur r : stays_alike cur (handle_provision_wireguard_peer r).
Proof.
  unfold handle_provision_wireguard_peer. destruct (decode_json r) as [req|]; [|by apply alike_error]. apply alike_current.
  destruct (provision_plan cur req) as [[[name cidr] endpoint]|] eqn:Ep; [|by eapply alike_refused, plan_refuses].
  apply alike_step; [intros s a s' Hm; by destruct a; eapply material_leaves|]. intros s [m|e] s1 Em; [|by eapply alike_refused, material_refuses].
  apply alike_step; [apply leaves_outside|]. intros _ [id|] _ _; [|by apply alike_error]. cbv zeta.
  destruct (validate _); [|by apply alike_error]. destruct (client_bundle _ _ _ _ _ _); [|by apply alike_error].
  by apply alike_change.
Qed.
Lemma reissue_alike cur r : stays_alike cur (handle_reissue_wireguard_peer_configuration r).
Proof.
  unfold handle_reissue_wireguard_peer_configuration. destruct (decode_json r) as [req|]; [|by apply alike_error]. apply alike_current. cbv zeta.
  destruct (find_wireguard_peer _ _) as [index|] eqn:Ef; [|by eapply alike_refused, find_refuses].
  destruct (reissue_plan _ _ _) as [[cidr endpoint]|] eqn:Ep; [|by eapply alike_refused, reissue_refuses].
  apply alike_step; [apply leaves_client_keys|]. intros s [[[private public] psk]|e] s1 Ek; cbn; [|by eapply alike_refused, keys_refuse].
  destruct (stored_public _) as [server|] eqn:Es; cbn; [|by eapply alike_refused, stored_refuses].
  destruct (validate _); [|by apply alike_error]. destruct (client_bundle _ _ _ _ _ _); [|by apply alike_error].
  by apply alike_change.
Qed.
Lemma delete_alike cur r : stays_alike cur (handle_delete_wireguard_peer r).
Proof.
  unfold handle_delete_wireguard_peer. apply alike_current. cbv zeta.
  destruct (find_wireguard_peer _ _) as [index|] eqn:Ef; [|by eapply alike_refused, find_refuses].
  destruct (validate _); [by apply alike_change|]. apply alike_refused. unfold answered_well. cbn. lia.
Qed.

(** The handlers that change single peers *)
Definition peer_handlers : list (Handler (W:=W)) :=
  [handle_provision_wireguard_peer; handle_reissue_wireguard_peer_configuration; handle_delete_wireguard_peer].

(** C29: An accepted change keeps its author.  Of a configuration submitted to
    [handle_update_config], the canonical one after an answer 200, or the candidate
    awaiting confirmation after a 202 (and the previous one is kept for the
    rollback), trusts the address the request came from; and one that leaves
    management to WireGuard trusts every address of the tunnel.  The changes of
    single peers (provisioning, reissuing, deleting) make no such check and need
    none: whomever the canonical configuration kept in this way, the one they put in
    force keeps.  Configurations accepted by the first-run setup, which starts
    from the defaults, and by the restore of a backup are not covered.  No other
    transaction is being applied when the handler starts. *)
Theorem accepted_change_keeps_caller r s response s' : st_applying (s_st (api_sys s)) = false ->
  (handle_update_config r s = (response, s') ->
    (rs_status response = 200 -> keeps_caller (st_current_config (s_st (api_sys s'))) (rq_remote_addr r))
    /\ (rs_status response = 202 -> exists p t, st_pending (s_st (api_sys s')) = Some p /\ s_heap (api_sys s') !! p_tx p = Some t
          /\ keeps_caller (tx_config t) (rq_remote_addr r) /\ p_previous p = st_current_config (s_st (api_sys s))))
  /\ (forall handler caller, In handler peer_handlers -> handler r s = (response, s') -> answered_well response ->
        keeps_caller (st_current_config (s_st (api_sys s))) caller -> exists cfg, took_effect response cfg s' /\ keeps_caller cfg caller).
Proof.
  intros Ha. split; [intros Hu; by apply (update_keeps_caller r s response s')|]. intros handler caller Hin Hr Hok Hk.
  assert (stays_alike (st_current_config (s_st (api_sys s))) (handler r)) as Hal.
  { destruct Hin as [<-|[<-|[<-|[]]]]; [apply provision_alike|apply reissue_alike|apply delete_alike]. }
  destruct (Hal s response s' Hr eq_refl Ha Hok) as (cfg & Ht & Hs). exists cfg. split; [exact Ht|by eapply alike_keeps].
Qed.
End Changes.
