(* ===== verification/ApiRuns.v ===== *)
(** * Runs of the API

    A scripted session manager and store over the engine's scripted world, and
    the theorems on the API, on connections and on the peers of the tunnel
    applied to requests against it; and what validation lets into the tunnel's
    text. *)

From Stdlib Require Import ZArith Ascii String Lia Bool.
From stdpp Require Import base list strings gmap.
From S2P Require Import Prelude GoStrings Net NetSpec GoPath GoTime Json Model Validation Policy Auth AuthStore AuthRuns Samples Ipc Safety Engine EngineSpec EngineInv EngineReach Scenarios Store Nft TokenText Throttle Http HttpServer HttpServerSpec Router HttpWire Wireguard WireguardSpec Redaction Api ApiAuth ApiConfig Provision ApiRoutes ApiSpec ApiSafety ProvisionSpec ChangeSafety.

Local Open Scope string_scope.
Local Open Scope Z_scope.
Local Open Scope list_scope.

Import ToyCrypto.

#[local] Existing Instance ascii_tables.

(** ** A scripted environment *)
Definition operator (read_only : bool) : Session := mkSession "sid" "csrf" read_only 1 time_zero time_zero.
#[export] Instance scripted_api : ApiEnv World := {|
  sm_validate cookie w := (if cookie =s "sid" then Ok (operator false) else Err (Errorf "session not found"), w);
  sm_destroy _ w := (Ok tt, w);
  sm_create_with_mode read_only w := (Some (operator read_only), w);
  sm_create_with_generation read_only _ w := (Ok (operator read_only), w);
  sm_destroy_all w := (Ok tt, w);
  sm_secure_cookies := true;
  rate_limiter _ w := (true, w);
  global_limiter := None;
  has_credential_store := true;
  read_admin_auth_state w := (Ok ("hash", 1), w);
  read_admin_totp_secret w := (Ok EmptyString, w);
  write_admin_hash _ w := (Ok tt, w);
  write_admin_totp_secret _ w := (Ok tt, w);
  drop_admin_totp_secret w := (Ok tt, w);
  write_audit_event event _ d w := (Ok tt, mkWorld (running w) (last_good w) (script w) (saved w) ((event, d) :: audit_log w));
  store_commit_setup _ _ w := (Ok tt, w);
  derivation_slot w := (Ok tt, w);
  random_salt w := (Ok [], w);
  random_totp_secret w := (Ok EmptyString, w);
  discover_interfaces w := (Ok JNull, w) |}.
#[export] Instance plain_times : TimeText := {| rfc3339 _ := "2026-01-01T00:00:00Z"; go_string _ := "2026-01-01 00:00:00 +0000 UTC" |}.
#[export] Instance plain_json : ApiJson := {|
  json_values l := [Ok (JStr (str_of l))]; transaction_json _ := JNull; config_json _ := JNull; time_json _ := JNull |}.
#[export] Instance named_bodies : ConfigBodies := {|
  config_body j := match j with JStr "renamed" => Ok (renamed, None) | JStr "retrusted" => Ok (retrusted, None) | _ => Err "not a configuration" end;
  wizard_body _ := Err "not a setup"; state_json _ := JNull; status_json _ := JNull |}.
#[export] Instance no_bodies : AuthBodies := {|
  login_body _ := Err "not a login"; password_body _ := Err "not a change"; code_body _ := Err "not a code";
  current_body _ := Err "not a password"; enable_body _ := Err "not a code" |}.

(** The "curve" reverses, and adds one to each byte. *)
#[export] Instance toy_crates : WireGuardCrates := {|
  standard_encode l := str_of (b64_write (map (fun v => v mod 256) l));
  standard_decode s := b64_groups (bytes_of s);
  x25519 scalar _ := rev (map (fun v => (v + 1) mod 256) scalar);
  X25519_BASEPOINT_BYTES := [9];
  qr_code _ := Ok (1%nat, [true]);
  png_encode _ pixels := Ok pixels |}.
#[export] Instance named_peers : PeerBodies := {|
  provision_body j := match j with JStr "phone" => Ok (mkProvisionRequest "phone" EmptyString "203.0.113.7:51820", None) | _ => Err "not a peer" end;
  reissue_body j := match j with JStr "phone" => Ok (mkReissueRequest "203.0.113.7:51820", None) | _ => Err "not a peer" end;
  url_safe_encode _ := "id" |}.
#[export] Instance constant_bytes : Randomness World := {| random_bytes n w := (Ok (repeat 7 n), w) |}.

Definition fresh : Server := mkServer EmptyString ∅ ∅ AuditThrottle_default false.
Definition up (y : Sys World) : Api World := mkApi fresh y.
Definition no_handler : string -> Handler (W:=World) := fun _ _ => hm_ret (response_new 501).

(** ** Requests as they arrive *)
Definition crlf (lines : list string) : bytes := concat (map (fun l => bytes_of l ++ CRLF) lines).
Definition put_config (body : string) : bytes :=
  crlf ["PUT /api/v1/config HTTP/1.1"; "Host: router"; "Cookie: " +:+ SESSION_COOKIE_NAME +:+ "=sid"; "X-CSRF-Token: csrf";
        "Content-Length: " +:+ show_Z (str_len body); EmptyString] ++ bytes_of body.
Definition peer : string := "192.168.1.5:40000".
Definition first_request (remote : string) (input : bytes) : result Request string :=
  match read_head MAX_HEADER_BYTES input with
  | (Ok head, l) => request_of head remote "192.168.1.1:443" l
  | (Err _, _) => Err "bad head"
  end.
Definition put_renamed : Request :=
  match first_request peer (put_config "renamed") with Ok r => r | Err _ => mkRequest EmptyString EmptyString EmptyString EmptyString EmptyString [] EmptyString EmptyString EmptyString 0 [] None (mkBody [] 0 None None 0 false false) end.
Definition put_head : Head := match read_head MAX_HEADER_BYTES (put_config "renamed") with (Ok h, _) => h | _ => mkHead EmptyString EmptyString EmptyString [] end.
Local Abbreviation served handler r y := (serve register_routes handler r (up y)).

Example put_is_served : rs_status (fst (served (handler_of no_handler) put_renamed (boot []))) = 200
  /\ sys_hostname (c_system (st_current_config (s_st (api_sys (snd (served (handler_of no_handler) put_renamed (boot [])))))) ) = "gateway".
Proof. vm_compute. split; reflexivity. Qed.

(** ** The gate *)
Lemma api_is_guarded_witness : exists name r' s1 answer s2,
  is_trusted_client_address sample peer = true /\ handler_of no_handler name r' s1 = (answer, s2)
  /\ fst (served (handler_of no_handler) put_renamed (boot [])) = security_headers answer.
Proof.
  destruct (served (handler_of no_handler) put_renamed (boot [])) as [response s'] eqn:E.
  destruct (api_is_guarded put_head peer "192.168.1.1:443" (bytes_of "renamed") (handler_of no_handler) put_renamed (up (boot [])) response s')
    as [[[H _] _]|(pattern & name & params & r' & s1 & answer & s2 & Ht & _ & Hh & Ha & _)].
  - vm_compute. reflexivity.
  - exact E.
  - apply (f_equal (fun p => st_current_config (s_st (api_sys (snd p))))) in E. cbn [snd] in E. rewrite H in E. vm_compute in E. discriminate E.
  - exists name, r', s1, answer, s2. split; [exact Ht|]. split; [exact Hh|exact Ha].
Defined.

Definition get_config : bytes := crlf ["GET /api/v1/config HTTP/1.1"; "Host: router"; EmptyString].
Definition get_request : Request := match first_request peer get_config with Ok r => r | Err _ => put_renamed end.
Lemma anonymous_changes_nothing_witness : same_engine (up (boot [])) (snd (served (handler_of no_handler) get_request (boot []))).
Proof.
  destruct (served (handler_of no_handler) get_request (boot [])) as [response s'] eqn:E.
  cbn [snd]. refine (anonymous_changes_nothing no_handler get_request (up (boot [])) response s' E _ _ _).
  - split; [reflexivity|]. discriminate.
  - intros ip w H. exact H.
  - intros session w H. vm_compute in H. discriminate H.
Defined.

(** ** The connection *)
Definition stranger : string := "203.0.113.9:40000".
Definition dated (_ : Api World) : string := "Thu, 01 Jan 2026 00:00:00 GMT".
Lemma untrusted_connection_is_inert_witness :
  same_engine (up (boot [])) (snd (serve_connection (api_handler no_handler (fun r _ => rq_body r)) dated stranger "192.168.1.1:443" (put_config "renamed" ++ get_config) (up (boot [])))).
Proof. apply (untrusted_connection_is_inert no_handler (fun r _ => rq_body r) dated stranger). vm_compute. reflexivity. Defined.

Definition pipelined : bytes :=
  crlf ["POST /upload HTTP/1.1"; "Host: router"; "Transfer-Encoding: chunked"; EmptyString; "5"; "hello"; "3;x=y"; "abc"; "0"; "Trailer: 1"; EmptyString] ++ get_config.
(** Reads one buffer of [n] bytes *)
Definition reader (n : Z) (r : Request) (s : nat) : Response * Body * nat :=
  (response_json 200 JNull, snd (body_read n (rq_body r)), S s).
Lemma next_request_follows_body_witness : exists data, chunked_body (drop 67 pipelined) data get_config.
Proof.
  destruct (serve_request (reader 4) (fun _ => EmptyString) MAX_HEADER_BYTES peer peer pipelined 0%nat) as [[out next] s'] eqn:E.
  assert (next = Some get_config) as Hn by (apply (f_equal (fun p => snd (fst p))) in E; vm_compute in E; symmetry; exact E). rewrite Hn in E.
  destruct (next_request_follows_body (reader 4) (fun _ => EmptyString) MAX_HEADER_BYTES peer peer pipelined 0%nat out get_config s' E) as (head & l & Hh & Hb).
  - intros head l r Hh Hr. exists (bytes_of "hell").
    assert (read_head MAX_HEADER_BYTES pipelined = (Ok head, l)) as Hc by exact Hh. vm_compute in Hc. injection Hc as <- <-. vm_compute in Hr. injection Hr as <-.
    refine (reading_read _ [] _ 4 (bytes_of "hell") _ (reading_start _) _ _); [lia|vm_compute; reflexivity].
  - vm_compute in Hh. injection Hh as <- <-. exact Hb.
Defined.
Lemma connection_is_served_witness :
  connection_loop (reader 4) (fun _ => EmptyString) 1000 MAX_HEADER_BYTES peer peer pipelined 0%nat
  = serve_connection (reader 4) (fun _ => EmptyString) peer peer pipelined 0%nat.
Proof.
  apply connection_is_served; [|vm_compute; lia]. intros r s. unfold reader. cbn [fst snd].
  destruct (body_read 4 (rq_body r)) as [x b] eqn:E. exact (body_read_shrinks _ _ _ _ E).
Defined.

(** A header value with line breaks *)
Definition crafted : string := "x" +:+ str_of CRLF +:+ "Set-Cookie: y".
Definition with_crafted : Response := with_header (response_json 200 JNull) "X-Note" crafted.
Lemma response_reads_back_witness : exists status h,
  received "GET" 200 (write_response "GET" with_crafted EmptyString false ++ get_config) status h (marshal JNull ++ [LF]) get_config
  /\ header_values h "Set-Cookie" = [] /\ header_get h "X-Note" = "x  Set-Cookie: y".
Proof.
  eexists _, _. split; [|split].
  - apply (response_reads_back "GET" with_crafted EmptyString false get_config); [vm_compute; discriminate|vm_compute; reflexivity| |].
    + split; [exact I|vm_compute; discriminate].
    + intros _. split; [vm_compute; reflexivity|vm_compute; discriminate].
  - vm_compute. reflexivity.
  - vm_compute. reflexivity.
Defined.

(** A body with a broken chunk: the handler's read fails, and the connection goes
    on with what follows. *)
Definition broken : bytes :=
  crlf ["POST /upload HTTP/1.1"; "Host: router"; "Transfer-Encoding: chunked"; EmptyString; "zz"; "0"; EmptyString] ++ get_config.
Example broken_chunk_keeps_connection :
  fst (body_read 4 (rq_body (match first_request peer broken with Ok r => r | Err _ => put_renamed end))) = Err (InvalidData "invalid byte in chunk length")
  /\ snd (serve_connection (reader 4) (fun _ => EmptyString) peer peer broken 0%nat) = 2%nat.
Proof. vm_compute. split; reflexivity. Qed.
Example signed_lengths_accepted : parse_length "+5" = Some 5 /\ unescape "%+f" false = Some (str_of [byte_of 15]).
Proof. vm_compute. split; reflexivity. Qed.

(** ** Changes and confirmations *)
Lemma accepted_change_keeps_caller_witness :
  keeps_caller (st_current_config (s_st (api_sys (snd (handle_update_config put_renamed (up (boot []))))))) peer.
Proof.
  destruct (handle_update_config put_renamed (up (boot []))) as [response s'] eqn:E.
  destruct (accepted_change_keeps_caller put_renamed (up (boot [])) response s' eq_refl) as [H _]. apply H in E as HE. apply HE. apply (f_equal (fun p => rs_status (fst p))) in E. vm_compute in E. symmetry. exact E.
Defined.

Definition confirm_request : Request := with_params get_request [("id", "tx-1")].
Lemma confirmation_proves_path_witness :
  st_pending (s_st (api_sys (snd (handle_confirm_transaction confirm_request (up (awaiting [])))))) = None.
Proof.
  destruct (handle_confirm_transaction confirm_request (up (awaiting []))) as [response s'] eqn:E.
  destruct (confirmation_proves_path (fun _ => True) sample _ confirm_request (up (awaiting [])) response s' sample_live (reach_awaiting _ []) E) as [H _].
  destruct H as (p & t & _ & _ & _ & _ & _ & Hp & _); [|exact Hp]. apply (f_equal (fun p => rs_status (fst p))) in E. vm_compute in E. symmetry. exact E.
Defined.

(** ** One-time codes *)
Module Clock.
(** A world that is a clock, in nanoseconds *)
#[export] Instance clock : Env Z := {|
  client_apply _ _ w := (Err (Errorf EmptyString), w); has_store := false; store_save _ w := (Ok tt, w); store_snapshot _ w := (Ok tt, w);
  store_audit _ _ w := w; clock_now w := (reading 0 w, w); instant_now w := (w, w);
  observe_leases w := (mkDHCPLeaseSnapshot (mkDHCPLeaseStatus true time_zero false 0 EmptyString) [], w) |}.
End Clock.
Import Clock.
Definition totp_key : list Z := [1; 2; 3; 4; 5; 6; 7; 8; 9; 10].
Definition totp_secret : string := base32_encode totp_key.
(** The code of the second time step, and again of the 257th *)
Definition totp_code : string := compute_totp totp_key 2.
Definition at_clock (n : Z) (s : Api Z) : Api Z := mkApi (api_server s) (mkSys (s_st (api_sys s)) (s_heap (api_sys s)) n).
Definition start_totp : Api Z := mkApi fresh (mkSys (engine_new sample) [] (61 * SECOND)).
Local Abbreviation attempt n s := (consume_totp totp_secret totp_code (at_clock n s)).
Definition attempts : list Attempt :=
  [mkAttempt (7710 * SECOND) (7710 * SECOND) (canonical_totp_inputs totp_secret totp_code) true;
   mkAttempt (90 * SECOND) (90 * SECOND) (canonical_totp_inputs totp_secret totp_code) false;
   mkAttempt (61 * SECOND) (61 * SECOND) (canonical_totp_inputs totp_secret totp_code) true].
Definition after_attempts : Api Z := snd (attempt (7710 * SECOND) (snd (attempt (90 * SECOND) (snd (attempt (61 * SECOND) start_totp))))).
Lemma attempts_run : redeeming 0 attempts after_attempts.
Proof.
  assert (forall h s n b s', redeeming 0 h s -> attempt n s = (b, s') -> clock_of h <= n ->
    redeeming 0 (mkAttempt n n (canonical_totp_inputs totp_secret totp_code) b :: h) s') as Hstep.
  { intros h s n b s' Hr Ha Hn.
    exact (redeeming_attempt 0 h (at_clock n s) totp_secret totp_code b s' n n (redeeming_other 0 h s (at_clock n s) Hr eq_refl) Ha eq_refl (Z.le_refl n) Hn). }
  apply (Hstep _ (snd (attempt (90 * SECOND) (snd (attempt (61 * SECOND) start_totp))))); [|vm_compute; reflexivity|vm_compute; discriminate].
  apply (Hstep _ (snd (attempt (61 * SECOND) start_totp))); [|vm_compute; reflexivity|vm_compute; discriminate].
  apply (Hstep _ start_totp); [apply redeeming_start; reflexivity|vm_compute; reflexivity|vm_compute; discriminate].
Qed.
Lemma totp_code_redeemed_once_witness : 61 * SECOND + dur_minutes 2 < 7710 * SECOND.
Proof.
  exact (proj1 (totp_code_redeemed_once 0 attempts after_attempts [] _ [_] _ [] attempts_run eq_refl eq_refl eq_refl eq_refl)).
Defined.
(** A daemon that restarts forgets: the code of a login is accepted again. *)
Example restart_forgets_code :
  let login := accept_totp totp_secret totp_code (at_clock (61 * SECOND) start_totp) in
  let restarted := mkApi fresh (api_sys (snd login)) in
  fst login = true
  /\ fst (accept_totp totp_secret totp_code (at_clock (62 * SECOND) (snd login))) = false
  /\ fst (accept_totp totp_secret totp_code (at_clock (62 * SECOND) restarted)) = true.
Proof. vm_compute. split_and!; reflexivity. Qed.

(** ** The public view *)
Definition tablet (id psk : string) (enabled : bool) : WireGuardPeer :=
  mkWireGuardPeer id "Tablet" key_a psk (list_from ["10.8.0.3/32"]) EmptyString enabled.
Definition with_peers (peers : list WireGuardPeer) : SystemConfig :=
  mkSystemConfig (c_revision sample) (c_updated_at sample) (c_system sample)
    (c_wan sample) (c_lan sample) (c_dhcp sample) (c_dns sample) (c_firewall sample)
    (mkWireGuardConfig true "wg0" key_a 51820 "10.8.0.1/24" (list_from peers))
    (c_wg_client sample) (c_cloudflare sample) (c_squid_proxy sample) (c_adguard sample) (c_qos sample) (c_wifi sample)
    (c_accounting sample) (c_trusted_networks sample).
Definition two_peers : SystemConfig := with_peers [peer1; tablet "p2" key_b true].
Lemma public_view_hides_and_keeps_witness :
  validate two_peers = Ok tt /\ redact_config two_peers <> two_peers /\ restore_redacted_config (redact_config two_peers) two_peers = two_peers.
Proof.
  split; [vm_compute; reflexivity|]. split; [intros H; apply (f_equal (fun c => wan_password (c_wan c))) in H; vm_compute in H; discriminate H|].
  apply (proj2 (public_view_hides_and_keeps two_peers)). intros p Hp. rewrite list_elem_of_In in Hp. vm_compute in Hp.
  destruct Hp as [<-|[<-|[]]]; [intros H; vm_compute in H; congruence|intros _; vm_compute; reflexivity].
Defined.

(** A disabled peer without an identifier: a configuration with it is valid, and
    loses its preshared key when its public view is submitted unchanged. *)
Definition nameless_peer : SystemConfig := with_peers [peer1; tablet EmptyString key_b false].
Example nameless_peer_loses_key :
  validate nameless_peer = Ok tt /\ validate (restore_redacted_config (redact_config nameless_peer) nameless_peer) = Ok tt
  /\ map peer_preshared_key (items (wg_peers (c_wireguard (restore_redacted_config (redact_config nameless_peer) nameless_peer))))
     = [EmptyString; REDACTED_SECRET].
Proof. vm_compute. split_and!; reflexivity. Qed.

(** ** The audit throttle *)
Lemma rejections_audited_fairly_witness : exists t h n, throttled t h n /\ List.length h = 1%nat /\ n + at_suppressed t = dropped h.
Proof.
  destruct (admit_event AuditThrottle_default "auth.unauthorized" (at_ns 5)) as [d t'] eqn:E.
  assert (throttled t' [(5, "auth.unauthorized", dc_record d)] (0 + dc_previous_suppressed d)) as Hr
    by (eapply throttled_admit; [apply throttled_start|discriminate|exact E]).
  exists t', [(5, "auth.unauthorized", dc_record d)], (0 + dc_previous_suppressed d). split; [exact Hr|]. split; [reflexivity|]. apply (rejections_audited_fairly _ _ _ Hr).
Defined.

(** ** Assumptions on tables and encodings that hold *)
Lemma letters_not_control c : unicode_letter_number c = true -> char_is_control c = false.
Proof. unfold char_is_control. cbn. lia. Qed.
Lemma b64_char_plain v : value_char (b64_char v) = true.
Proof.
  unfold b64_char. destruct (nth_in_or_default (Z.to_nat (v mod 64)) (bytes_of "ABCDEFGHIJKLMNOPQRSTUVWXYZabcdefghijklmnopqrstuvwxyz0123456789+/") "A"%char) as [H|H]; [|by rewrite H].
  revert H. generalize (nth (Z.to_nat (v mod 64)) (bytes_of "ABCDEFGHIJKLMNOPQRSTUVWXYZabcdefghijklmnopqrstuvwxyz0123456789+/") "A"%char).
  intros a Ha. assert (Hall : forallb value_char (bytes_of "ABCDEFGHIJKLMNOPQRSTUVWXYZabcdefghijklmnopqrstuvwxyz0123456789+/") = true) by (vm_compute; reflexivity).
  rewrite forallb_forall in Hall. by apply Hall.
Qed.
Lemma b64_write_plain l : forallb value_char (b64_write l) = true.
Proof.
  revert l. fix IH 1. intros [|a [|b [|c t]]]; cbn [b64_write forallb app]; rewrite ?b64_char_plain; [done|done|done|]. apply IH.
Qed.
Lemma encoded_plain l : plain (standard_encode l).
Proof. unfold plain. cbn. rewrite bytes_of_str_of. apply b64_write_plain. Qed.

(** [tunnel_peer], evaluated *)
Definition tunnel_peer_test (p : WireGuardPeer) : bool :=
  bool_decide (of_chars (chars (peer_name p)) = peer_name p)
  && forallb (fun s => forallb value_char (bytes_of s)) [peer_public_key p; peer_preshared_key p; peer_endpoint p]
  && forallb (fun a => match parse_cidr a with Some (_, n) => Nat.eqb (snd (mask_size (net_mask n))) 32 | None => true end) (items (peer_allowed_ips p)).
Lemma tunnel_peer_tested p : tunnel_peer_test p = true -> tunnel_peer p.
Proof.
  unfold tunnel_peer_test. cbn [forallb]. intros H. to_prop. split; try done.
  match goal with H : forallb _ (items _) = true |- _ => rename H into Ha end. rewrite forallb_forall in Ha.
  intros allowed ip n Hin Hc. apply list_elem_of_In in Hin. specialize (Ha allowed Hin). rewrite Hc in Ha. by to_prop.
Qed.
Lemma tunnel_peers_tested l : forallb tunnel_peer_test l = true -> Forall tunnel_peer l.
Proof. rewrite forallb_forall. intros H. apply Forall_forall. intros p Hp. apply tunnel_peer_tested, H. by apply list_elem_of_In. Qed.

(** ** Allocation *)
Definition reserving (routes : list string) : list WireGuardPeer :=
  map (fun route => mkWireGuardPeer EmptyString EmptyString EmptyString EmptyString (list_from [route]) EmptyString false) routes.
Example allocated : next_free_wireguard_ip (ip_v4 10 6 0 254) "10.6.0.254/24" (reserving ["10.6.0.1/32"; " 10.6.0.2/32 "]) = Ok "10.6.0.3"
  /\ next_free_wireguard_ip (ip_v4 10 6 0 1) "10.6.0.1/30" (reserving ["10.6.0.2/32"]) = Err "no free address available in WireGuard subnet 10.6.0.1/30".
Proof. vm_compute. split; reflexivity. Qed.
Lemma allocation_is_exact_witness : exists a, parse_ipv4 "10.6.0.3" = Some a /\ free_host 24 (be [10; 6; 0; 254]) (reserving ["10.6.0.1/32"; " 10.6.0.2/32 "]) (be a).
Proof.
  destruct (allocation_is_exact "10.6.0.254/24" (ip_v4 10 6 0 254) (mkIPNet [10; 6; 0; 0] (mask_bytes 4 24)) 24 (reserving ["10.6.0.1/32"; " 10.6.0.2/32 "]))
    as (server & Hs & H); [vm_compute; reflexivity|vm_compute; reflexivity|lia|].
  vm_compute in Hs. injection Hs as <-. rewrite (proj1 allocated) in H. destruct H as (a & H1 & H2 & _). exists a. split; [exact H1|exact H2].
Defined.

(** ** The tunnel of the sample *)
Lemma accepted_tunnel_reads_back_witness : exists text routes, generate (c_wireguard sample) false = Ok text
  /\ read_conf text = Some (interface_section (c_wireguard sample) false :: zip_with peer_section (enabled_peers (c_wireguard sample)) routes).
Proof.
  destruct (accepted_tunnel_reads_back letters_not_control sample false) as (text & ip & tn & routes & Hg & _ & Hr & _).
  - vm_compute. reflexivity.
  - vm_compute. reflexivity.
  - vm_compute. reflexivity.
  - apply tunnel_peers_tested. vm_compute. reflexivity.
  - exists text, routes. split; [exact Hg|exact Hr].
Defined.

(** ** Provisioning a peer *)
Definition post_peer : bytes :=
  crlf ["POST /api/v1/wireguard/peers HTTP/1.1"; "Host: router"; "Cookie: " +:+ SESSION_COOKIE_NAME +:+ "=sid"; "X-CSRF-Token: csrf"; "Content-Length: 5"; EmptyString] ++ bytes_of "phone".
Definition provision_request : Request := match first_request peer post_peer with Ok r => r | Err _ => put_renamed end.
Definition provisioned : Response * Api World := handle_provision_wireguard_peer provision_request (up (boot [])).

Example peer_is_provisioned : rs_status (fst provisioned) = 200
  /\ map (fun p => items (peer_allowed_ips p)) (items (wg_peers (c_wireguard (st_current_config (s_st (api_sys (snd provisioned)))))))
     = [["10.8.0.2/32"]; ["10.8.0.3/32"]].
Proof. vm_compute. split; reflexivity. Qed.
Lemma provisioned_peer_matches_witness : exists cfg peer sections text cidr, took_effect (fst provisioned) cfg (snd provisioned)
  /\ generate_wireguard_runtime (c_wireguard cfg) = Ok text
  /\ read_conf text = Some (interface_section (c_wireguard cfg) false :: sections ++ [peer_section peer cidr]).
Proof.
  destruct provisioned as [response s'] eqn:E.
  assert (Hs : rs_status response = 200) by (exact (eq_trans (f_equal (fun p => rs_status (fst p)) (eq_sym E)) (proj1 peer_is_provisioned))).
  destruct (provisioned_peer_matches letters_not_control encoded_plain provision_request (up (boot [])) response s' E)
    as (cfg & p & sections & text & private & cidr & public & endpoint & allowed & bundle & Htook & _ & Hg & Hr & _).
  - vm_compute. reflexivity.
  - left. exact Hs.
  - intros req Hd. vm_compute in Hd. injection Hd as <-. vm_compute. reflexivity.
  - vm_compute. reflexivity.
  - apply tunnel_peers_tested. vm_compute. reflexivity.
  - exists cfg, p, sections, text, cidr. split; [exact Htook|]. split; [exact Hg|exact Hr].
Defined.

(** ** What validation leaves open

    The port of a peer's endpoint may hold any text: here an enabled peer's
    endpoint adds a directive, and the peer is read with a route to everywhere. *)
Definition line_feed : string := String (byte_of 10) EmptyString.
Definition endpoint_sample (endpoint : string) : SystemConfig :=
  with_wireguard sample (with_wg_peers (c_wireguard sample) (list_from [mkWireGuardPeer "p1" "Phone" key_b EmptyString (list_from ["10.8.0.2/32"]) endpoint true])).
Example endpoint_injects_a_directive :
  let c := endpoint_sample ("203.0.113.9:51820" +:+ line_feed +:+ "AllowedIPs = 0.0.0.0/0") in
  validate c = Ok tt /\ exists text entries, generate_wireguard_runtime (c_wireguard c) = Ok text
    /\ read_conf text = Some [interface_section (c_wireguard c) false; mkWgSection "Peer" entries]
    /\ ("AllowedIPs", "0.0.0.0/0") ∈ entries.
Proof.
  split; [vm_compute; reflexivity|]. eexists _, _. split; [vm_compute; reflexivity|]. split; [vm_compute; reflexivity|]. repeat (first [left|right]).
Qed.

(** A key with a line break inside is accepted, and its text does not read back. *)
Definition keyed_sample (key : string) : SystemConfig :=
  with_wireguard sample (with_wg_peers (c_wireguard sample) (list_from [mkWireGuardPeer "p1" "Phone" key EmptyString (list_from ["10.8.0.2/32"]) EmptyString true])).
Example key_with_line_break_accepted :
  let c := keyed_sample ("BAAAAAAA" +:+ line_feed +:+ "AAAAAAAAAAAAAAAAAAAAAAAAAAAAAAAAAAA=") in
  validate c = Ok tt /\ exists text, generate_wireguard_runtime (c_wireguard c) = Ok text
    /\ (forall s, read_conf text = Some s -> s <> interface_section (c_wireguard c) false :: zip_with peer_section (enabled_peers (c_wireguard c)) ["10.8.0.2/32"]).
Proof. split; [vm_compute; reflexivity|]. eexists. split; [vm_compute; reflexivity|]. intros s Hs. vm_compute in Hs. injection Hs as <-. vm_compute. discriminate. Qed.

(** An address in its IPv6 form is accepted, and no tunnel can be generated. *)
Example mapped_address_accepted :
  let c := with_wireguard sample (with_wg_peers (c_wireguard sample) (list_from [mkWireGuardPeer "p1" "Phone" key_b EmptyString (list_from ["::ffff:10.8.0.2/32"]) EmptyString true])) in
  validate c = Ok tt /\ is_ok (generate_wireguard_runtime (c_wireguard c)) = false.
Proof. vm_compute. split; reflexivity. Qed.
